(* ===== verification/_CoqProject ===== *)
-Q . S2P
Prelude.v
Crc8.v
BusFrame.v
BusRoster.v
BusNode.v
BusSched.v
BusSystem.v
NodeRole.v
LibcommFrame.v
HostLink.v
CborMin.v
CfgFile.v
BootFiles.v
IlPinTable.v
IlHal.v
InterlockDsl.v
Interlock.v
InterlockPins.v
InterlockSafety.v
CflBase.v
CflPerm.v
CflHeap.v
CflArena.v
CflEventQueue.v
CtTreeWalker.v
CflEngine.v
CflTerminate.v
CflExecute.v
CflLifecycle.v
JsonDecoder.v
JsonPaths.v
CflImage.v
CflBlackboard.v
CflNodeFns.v
CflRuntime.v
CflStore.v
KbApp.v
KbServe.v
KbNodes.v
KbEvent.v
Threads.v
BcState.v
BcPool.v
BcRoster.v
BcArbiter.v
BcPoolSafety.v
BcTasks.v
BcTable.v
BcEdges.v
BcCycle.v
BcLive.v
KbRun.v
KbBoot.v
AppBridge.v
KbTick.v
KbSystem.v
