(* ===== verification/Prelude.v ===== *)
(** * slow_bus: a verification library

    slow_bus is the firmware of a 9-bit RS-485 multidrop bus: one bus controller (an RP2040,
    "dongle" to its Linux host) polls up to 16 nodes, each of which speaks only when granted. The
    same image runs on controller and nodes; a file in flash says which role a unit has. Beside the
    bus runs an interlock framework that drives a veto pin from rules written in a small language,
    and a chain-tree engine with its own allocator, event queue and tree walker.

    ** The parts of the program and where they are modelled

    The line (under [core/]):
    - [Crc8]: [bus_crc8.c]. [BusFrame]: [bus_addr.h], [bus_frame.c], the encoder and the receive
      assembler, a state machine fed one 9-bit word at a time.
    - [BusNode]: [bus_node.c], a slave's queue, window and receive task; what the application does
      with a DATA frame is the typeclass [NodeApp]. [NodeRole]: [node/node_role.c], that hook for a
      shell command, its dispatcher again an interface ([NodeCommands]).
    - [BusRoster], [BusSched]: [bus_roster.c] and [bus_sched.c], the library's roster and grant slot.
    - [BusSystem]: controller and nodes on one line, a slot being the controller's tick followed by
      every node's receive task, fed what the others sent.
    The host link: [LibcommFrame] ([vendor/libcomm/frame.c], ring and SLIP codec) and [HostLink]
      ([host_link.c], the ladder, its timers and the routing of frames to the callbacks, which are
      events here).
    Boot (under [node/]): [CborMin] ([cbor_min.h]), [CfgFile] ([cfg_file.c]), [BootFiles]
      ([boot_identity.c], [boot_roster.c], [boot_netcfg.c], [boot_hwio.c], [variants.h]). A store is a
      list of bytes; reads outside it are a result of their own.
    The interlock (under [node/interlock/]): [IlPinTable] (pin names), [IlHal] (ownership of pins and
      the SDK calls as a log; the platform seam of [main.c] is an instance of the class [IlPlat]),
      [InterlockDsl] (the parser), [Interlock] (slots, boot decision, arming, tick, status, and the
      bring-up of [main.c]). [InterlockPins] relates the framework's slots to the HAL's outputs;
      [InterlockSafety] has the guarantees.
    The engine (under [app/bus_controller/engine/]): [CflBase] (EXCEPTION as a result that does not
      return), [CflPerm] ([cfl_perm.c]), [CflHeap] ([cfl_heap.c], on the bytes of the pool), [CflArena]
      ([cfl_heap_arena_allocate.c]), [CflEventQueue] ([cfl_event_queue.c]), [CtTreeWalker]
      ([CT_Tree_Walker.c], callbacks as functions), [CflEngine] ([cfl_engine.c]: the events, the
      flags and the termination of nodes over any tables of node functions; [CflTerminate],
      [CflExecute] and [CflLifecycle] hold what is proved of it), [JsonDecoder]
      ([json_node_decoder.c]; [JsonPaths]: it reads the value the records lay out), [CflBlackboard]
      ([cfl_blackboard.c], [fnv1a.c]), [CflNodeFns] ([cfl_main_functions.c], [cfl_boolean_functions.c],
      [cfl_one_shot_functions.c], [cfl_common_functions.c]), [CflRuntime] ([cfl_runtime.c]).
    The application on the engine (under [app/bus_controller/], core 1):
    - [CflImage], [KbApp]: the generated image ([kb0/incr/]) and the application's one-shot functions
      ([kb0/user_functions.c]), which call hooks. [KbBoot]: [engine_runtime_bringup] of [main.c].
    - [CflStore]: where the node functions keep their structs, an interface ([node_store]) that the
      arenas and the heap implement.
    - [KbServe]: what the shipped knowledge bases do with an event ([serve], a few lines) and how
      that relates to the runtime handle; [KbNodes] and [KbEvent] prove that the engine does it, node
      by node and event by event, [KbRun] that the run loop does, cycle by cycle.
    - [AppBridge]: [cfl_timer_wait] ([port/rp2040/cfl_timer_rp2040.c]) with [cfl_embed_pre_tick] and
      the hooks of [main.c]. [KbTick] says what a tick comes to for the application ([tick_of]);
      [KbSystem] has the theorems about the whole.
    The bus controller's application ([app/bus_controller/main.c]):
    - [Threads]: programs made of atomic steps, their interleavings, and [safe], the assertion that
      a program keeps an invariant of the shared state while it owns some of it.
    - [BcState]: the globals, one record per group, with the hardware's inputs as streams and its
      outputs as logs. [BcPool]: the transmit pool, node table, producers, correlation table.
      [BcRoster]: liveness edges, the host's commands, the commissioned roster, the pumps.
      [BcArbiter]: the poll slot, the cycle [bus_run_cycle], the per-slot states of
      [bus_control_task], the engine's originations. A critical section (on [g_pool_cs] or under
      [g_lock]) is one step; so is one access to a clock, a queue or the line.
    - [BcPoolSafety], [BcTasks]: who owns a buffer, and that every interleaving keeps it so.
      [BcTable]: the table's insertion sort. [BcEdges]: what the host is told. [BcCycle], [BcLive]:
      what a cycle run alone does, and what follows over many cycles.

    [Prelude] has the machine integers, record updates, arrays, shared lemmas and tactics.

    ** Conventions

    A C integer of width w is a [Z]; each assignment wraps through [u8], [u16], [u32], [u64] or
    [s32], and [fits w x] says that x is such a value. An array is a list, read by [zget] with the
    default its C initialiser has and written by [zset]; where C would read or write outside, the
    model has a result for it or a theorem excludes it. A struct is a record, a pointer into a pool
    an index, NULL is [None]. Statics of a file are the fields of one record that its functions
    thread. Code outside the repository (SDK, FreeRTOS, lwIP, PIO) appears as an input stream, a
    log of calls or an argument.

    ** What the theorems show

    - The line: the wire round trip, detection of a corrupted byte, resynchronisation and bounds of
      the receiver; at most one transmitter in every slot; a POLL collects just the polled node's
      queue; a command is acknowledged at once and its reply comes with a later POLL.
    - Rosters and queues: refinement of a finite map and of a bounded FIFO.
    - The host link: resynchronisation, atomicity and bounds of the codec, the ladder's invariant.
    - Boot: a unit accepts only an identity made for it; all readers end in bounds on any store with
      sane lengths; the newest valid row wins.
    - The interlock: the parser ends on every text with a well-formed instance; voting is
      disjunction over groups of conjunctions; a tick latches violated slots and drives each output
      with the OR of its owners' vetoes; the framework never panics after boot; a trip survives a
      warm reset; a pin has one kind of owner.
    - The engine's memory: allocations are disjoint, aligned and in the pool; the heap is an object
      store in which a free run is lost only to live objects; arenas never overlap, and each
      EXCEPTION has the reason its message names.
    - The engine's dispatch: the event queue is two bounded FIFOs; the iterative walk is the
      recursive traversal; executing an event interprets the tree under its node; termination tears
      down the subtree's running nodes, last first; every node's calls form complete sessions of
      init, runs and terminate in every history; every event comes to an end.
    - Node data: the decoder's extractions are paths in a JSON value; a blackboard field reads as set.
    - The application core: brought up, the engine, its queue, its columns and its slots carry the
      commands out, those of high priority first, for any number of ticks; the loop never stops;
      more high-priority commands than the ring holds raise an exception.
    - The arbiter: under every interleaving of the bus task, the uplink's calls and the engine's
      originations no thread hangs and the 24 buffers stay partitioned; a cycle's traffic, frame by
      frame; a silent node dies after just [g_poll_max_misses] cycles; a dead one that answers is
      back within [g_nodes_n * g_dead_slowpoll_div] cycles; the node table is the roster sorted
      stably; a liveness edge the link refuses is offered again.

    ** Bounds and fuel

    Loops over arrays run over their index lists. Fuel is used where C loops on data: the DNF scan
    (257 turns, one more than the group numbers of 8 bits), the parser (the length of the text, every
    turn consumes some), [cbor_skip] (the bytes left), the rounding to a power of two (16 turns for
    16 bits), [ring_clear] (capacity + 1), the pool's chains ([chain_fuel], the 24 buffers: chains
    are acyclic by ownership). Out of fuel is a result of its own ([Endless], [phang]), which the
    theorems exclude. The walker is bounded by the code's own [max_iterations]. The run loop is given
    the inputs of its ticks; draining its queue takes one turn an event, so the capacities of the
    rings (72) or what the tick brings are enough. A poll slot is a list of waits; that one of
    them lies past the window ([slot_ends]) is a hypothesis on time.

    ** What is not modelled

    Vendored code (TinyUSB, CMSIS-DSP, FatFs, s_engine); the SAMD21 client, of which the RP2040
    interlock modelled here is the successor; drivers (PIO, DMA, USB, flash, SPI), DSP and ADC
    capture, which are register access or floating point; test programs. Of the engine: the timer's
    calendar, and the node functions that work on [double] time stamps or print (wait_time, the log
    and sequence functions); the shipped image uses none of them. Of [main.c]: analog, I2C, PWM and
    GPIO front ends, crash record and watchdog, WiFi supervisor and its pump, the uplink selector, the
    text of the boot banner. [node_cmd_dispatch], which the front ends make up, is an argument. The
    theorems of [BcLive] are about cycles without interference from the other tasks; those of
    [BcTasks] are not. A cross-core race on a plain counter is not modelled: a step is atomic. *)
From stdpp Require Export base numbers list option strings.
From Stdlib Require Export ZArith Lia Bool.

#[global] Open Scope Z_scope.
#[global] Open Scope list_scope.
#[global] Set Default Goal Selector "!".

(** ** Machine integers

    A C integer of width [w] is a [Z]; every assignment to a [uintN_t]
    wraps explicitly through [u8], [u16], [u32] or [u64]. *)
Definition u8 (x : Z) : Z := x mod 2 ^ 8.
Definition u16 (x : Z) : Z := x mod 2 ^ 16.
Definition u32 (x : Z) : Z := x mod 2 ^ 32.
Definition u64 (x : Z) : Z := x mod 2 ^ 64.

(** The C cast [(int32_t)x]. *)
Definition s32 (x : Z) : Z :=
  if u32 x <? 2 ^ 31 then u32 x else u32 x - 2 ^ 32.

(** [x] is a value of the unsigned type of [n] bits. *)
Definition fits (n x : Z) : Prop := 0 <= x < 2 ^ n.

#[export] Instance fits_dec n x : Decision (fits n x).
Proof. unfold fits. apply _. Defined.

(** C truth value of an integer expression. *)
Definition nz (x : Z) : bool := negb (x =? 0).

Lemma u8_fits x : fits 8 (u8 x).
Proof. apply Z.mod_pos_bound; lia. Qed.
Lemma u16_fits x : fits 16 (u16 x).
Proof. apply Z.mod_pos_bound; lia. Qed.
Lemma u32_fits x : fits 32 (u32 x).
Proof. apply Z.mod_pos_bound; lia. Qed.
Lemma u64_fits x : fits 64 (u64 x).
Proof. apply Z.mod_pos_bound; lia. Qed.

Lemma u8_id x : fits 8 x -> u8 x = x.
Proof. apply Z.mod_small. Qed.
Lemma u16_id x : fits 16 x -> u16 x = x.
Proof. apply Z.mod_small. Qed.
Lemma u32_id x : fits 32 x -> u32 x = x.
Proof. apply Z.mod_small. Qed.

Lemma fits_le n m x : 0 <= n <= m -> fits n x -> fits m x.
Proof.
  intros ? [? ?]. split; [done|].
  pose proof (Z.pow_le_mono_r 2 n m). lia.
Qed.

(** Little-endian 16-bit values in byte buffers. *)
Definition le16 (lo hi : Z) : Z := Z.lor lo (Z.shiftl hi 8).
Definition lo8 (x : Z) : Z := u8 (Z.land x 0xFF).
Definition hi8 (x : Z) : Z := u8 (Z.shiftr x 8).

Lemma le16_val lo hi : fits 8 lo -> fits 8 hi -> le16 lo hi = lo + 256 * hi.
Proof.
  intros Hl Hh. unfold le16. rewrite <- Z.add_nocarry_lor.
  - rewrite Z.shiftl_mul_pow2 by lia. change (2 ^ 8) with 256. lia.
  - apply Z.bits_inj'. intros n Hn. rewrite Z.land_spec, Z.bits_0.
    destruct (Z.ltb_spec n 8).
    + rewrite Z.shiftl_spec_low by lia. apply andb_false_r.
    + replace lo with (lo mod 2 ^ 8) by by apply Z.mod_small.
      rewrite Z.mod_pow2_bits_high by lia. done.
Qed.

Lemma lo8_val x : lo8 x = x mod 256.
Proof.
  unfold lo8, u8. change 0xFF with (Z.ones 8). rewrite Z.land_ones by lia.
  change (2 ^ 8) with 256. by rewrite Z.mod_mod.
Qed.

Lemma hi8_val x : fits 16 x -> hi8 x = x / 256.
Proof.
  unfold fits, hi8, u8. change (2 ^ 16) with 65536. intros Hx.
  rewrite Z.shiftr_div_pow2 by lia. change (2 ^ 8) with 256. apply Z.mod_small.
  split; [apply Z.div_pos; lia|]. apply Z.div_lt_upper_bound; lia.
Qed.

Lemma le16_lo_hi x : fits 16 x -> le16 (lo8 x) (hi8 x) = x.
Proof.
  intros Hx. rewrite le16_val; [|apply u8_fits..]. rewrite lo8_val, hi8_val by done.
  pose proof (Z.div_mod x 256 ltac:(done)). lia.
Qed.

Create HintDb widths.
Create Rewrite HintDb words.
#[export] Hint Resolve u8_fits u16_fits u32_fits u64_fits : widths.

(** ** Records with functional update

    [r <| f := v |>] is the C assignment [r.f = v]. A record type declares
    how to rebuild a value from its fields ([Settable]); the setter of a field
    is found by abstracting the projection in that eta expansion. *)
Class Settable (T : Type) := eta_of : T -> T.
Class Setter {T F : Type} (proj : T -> F) := field_map : (F -> F) -> T -> T.
#[global] Hint Mode Setter - - ! : typeclass_instances.

Ltac find_setter :=
  lazymatch goal with
  | |- @Setter ?T ?F ?proj =>
      let inst := constr:(_ : Settable T) in
      let eta := eval hnf in inst in
      let body := eval pattern proj in eta in
      lazymatch body with
      | ?h _ => exact (fun (g : F -> F) (r : T) => h (fun x => g (proj x)) r)
      end
  end.
#[global] Hint Extern 1 (Setter _) => find_setter : typeclass_instances.

Declare Scope update_scope.
#[global] Open Scope update_scope.
Notation "r <| f := v |>" := (field_map (proj := f) (fun _ => v) r)
  (at level 12, left associativity, f at level 9, v at level 200) : update_scope.
Notation "r <| f ::= g |>" := (field_map (proj := f) g r)
  (at level 12, left associativity, f at level 9, g at level 200) : update_scope.

(** ** Arrays: C indices are integers; a read outside the array yields the
    default and a write outside does nothing (the theorems show the indices the
    code uses are inside). *)
Definition zget {A} (d : A) (l : list A) (i : Z) : A :=
  if i <? 0 then d else nth (Z.to_nat i) l d.
Definition zset {A} (l : list A) (i : Z) (v : A) : list A :=
  if i <? 0 then l else <[Z.to_nat i := v]> l.
Definition zlen {A} (l : list A) : Z := Z.of_nat (length l).

Definition bytes_ok (l : list Z) : Prop := Forall (fits 8) l.
#[export] Instance bytes_ok_dec l : Decision (bytes_ok l).
Proof. unfold bytes_ok. apply _. Defined.

Lemma zget_lookup {A} (d x : A) l i :
  0 <= i -> l !! Z.to_nat i = Some x -> zget d l i = x.
Proof.
  intros Hi Hl. unfold zget. destruct (Z.ltb_spec i 0); [lia|].
  by apply nth_lookup_Some.
Qed.

Lemma zget_app_r {A} (d : A) l1 l2 i :
  zlen l1 <= i -> zget d (l1 ++ l2) i = zget d l2 (i - zlen l1).
Proof.
  unfold zlen, zget. intros Hi.
  destruct (Z.ltb_spec i 0); [lia|].
  destruct (Z.ltb_spec (i - Z.of_nat (length l1)) 0); [lia|].
  rewrite app_nth2 by lia. f_equal. lia.
Qed.

Lemma zlen_zset {A} (l : list A) i v : length (zset l i v) = length l.
Proof. unfold zset. destruct (i <? 0); [done|]. apply length_insert. Qed.

Lemma zget_zset_eq {A} (d : A) l i v :
  0 <= i < zlen l -> zget d (zset l i v) i = v.
Proof.
  unfold zlen, zset. intros Hi. destruct (Z.ltb_spec i 0); [lia|].
  apply zget_lookup; [lia|]. apply list_lookup_insert_eq. lia.
Qed.

Lemma zget_zset_ne {A} (d : A) l i j v :
  i <> j -> 0 <= j -> zget d (zset l i v) j = zget d l j.
Proof.
  unfold zset, zget. intros Hne Hj. destruct (Z.ltb_spec i 0); [done|].
  destruct (Z.ltb_spec j 0); [lia|].
  rewrite !nth_lookup, list_lookup_insert_ne by lia. done.
Qed.

Lemma zset_app_mid {A} (pre post : list A) x v :
  zset (pre ++ x :: post) (zlen pre) v = pre ++ v :: post.
Proof.
  unfold zset, zlen. destruct (Z.ltb_spec (Z.of_nat (length pre)) 0); [lia|].
  rewrite Nat2Z.id. by rewrite insert_app_r_alt, Nat.sub_diag by lia.
Qed.

Lemma zlen_app {A} (l k : list A) : zlen (l ++ k) = zlen l + zlen k.
Proof. unfold zlen. rewrite length_app. lia. Qed.

Lemma zlen_nonneg {A} (l : list A) : 0 <= zlen l.
Proof. unfold zlen. lia. Qed.

(** The characters of a C string literal. *)
Definition chars (s : string) : list Z :=
  map (fun a => Z.of_N (Ascii.N_of_ascii a)) (String.list_ascii_of_string s).

(** ** First-match loops: [for (i = 0; i < N; ++i) if (p(a[i])) return i]. *)
Fixpoint find_index {A} (p : A -> bool) (l : list A) : option nat :=
  match l with
  | [] => None
  | x :: l => if p x then Some 0%nat else S <$> find_index p l
  end.

Lemma find_index_Some {A} (p : A -> bool) l i :
  find_index p l = Some i ->
  exists l1 x l2, l = l1 ++ x :: l2 /\ i = length l1 /\ p x = true /\
    Forall (fun y => p y = false) l1.
Proof.
  revert i. induction l as [|x l IH]; intros i H; simpl in *; [done|].
  destruct (p x) eqn:E; simplify_eq.
  - exists [], x, l. by split_and!.
  - apply fmap_Some in H as (j & Hj & ->).
    destruct (IH j Hj) as (l1 & y & l2 & -> & -> & Hy & Hl).
    exists (x :: l1), y, l2. split_and!; try done. by constructor.
Qed.

Lemma find_index_None {A} (p : A -> bool) l :
  find_index p l = None <-> Forall (fun y => p y = false) l.
Proof.
  induction l as [|x l IH]; simpl; [by split|].
  destruct (p x) eqn:E.
  - split; [done|]. intros H. apply Forall_cons in H as [H _]. congruence.
  - rewrite fmap_None, IH, Forall_cons. naive_solver.
Qed.

Lemma find_index_app_mid {A} (p : A -> bool) l1 x l2 :
  p x = true -> Forall (fun y => p y = false) l1 ->
  find_index p (l1 ++ x :: l2) = Some (length l1).
Proof.
  intros Hx Hl. induction Hl as [|y l1 Hy Hl IH]; simpl; [by rewrite Hx|].
  by rewrite Hy, IH.
Qed.

Lemma filter_none {A} (p : A -> bool) l :
  Forall (fun x => p x = false) l -> filter (fun x => p x = true) l = [].
Proof.
  induction 1 as [|x l Hx _ IH]; [done|]. rewrite filter_cons_False; [done|]. by rewrite Hx.
Qed.

Lemma filter_all {A} (p : A -> bool) l :
  Forall (fun x => p x = true) l -> filter (fun x => p x = true) l = l.
Proof.
  induction 1 as [|x l Hx _ IH]; [done|]. rewrite filter_cons_True by done. by rewrite IH.
Qed.

Lemma Forall_filter_l {A} (P Q : A -> Prop) `{!forall x, Decision (Q x)} l :
  Forall P l -> Forall P (filter Q l).
Proof.
  intros HP. apply Forall_forall. intros x Hx. apply list_elem_of_filter in Hx as [_ Hx].
  rewrite Forall_forall in HP. by apply HP.
Qed.

(** A predicate that respects [≡] carries over between equivalent lists. *)
Lemma Forall_equiv {A} `{Equiv A} (P : A -> Prop) `{HP : !Proper ((≡) ==> iff) P} (l k : list A) :
  l ≡ k -> Forall P l -> Forall P k.
Proof.
  induction 1 as [|x y l k Hxy _ IH]; intros Hl; [done|].
  apply Forall_cons in Hl as [Hx Hl]. constructor; [by apply (HP x y)|by apply IH].
Qed.

(** ** Tactics *)

(** Evaluate record updates. *)
Ltac usimpl := unfold field_map in *; simpl in *.

(** Turn boolean tests of the context into arithmetic. *)
Ltac bools :=
  repeat match goal with
  | H : (_ && _)%bool = true |- _ => apply andb_true_iff in H as [? ?]
  | H : (_ || _)%bool = false |- _ => apply orb_false_iff in H as [? ?]
  | H : negb _ = true |- _ => apply negb_true_iff in H
  | H : negb _ = false |- _ => apply negb_false_iff in H
  | H : (_ <? _) = true |- _ => apply Z.ltb_lt in H
  | H : (_ <? _) = false |- _ => apply Z.ltb_ge in H
  | H : (_ <=? _) = true |- _ => apply Z.leb_le in H
  | H : (_ <=? _) = false |- _ => apply Z.leb_gt in H
  | H : (_ =? _) = true |- _ => apply Z.eqb_eq in H
  | H : (_ =? _) = false |- _ => apply Z.eqb_neq in H
  end.

(** Byte-list goals, structurally. *)
Ltac solve_bytes :=
  unfold bytes_ok in *;
  repeat match goal with
  | |- Forall _ [] => constructor
  | |- Forall _ (_ :: _) => constructor
  | |- Forall _ (_ ++ _) => apply Forall_app; split
  end; try done.

(** A decidable goal on closed terms, by evaluation. *)
Ltac vm_decide := apply (bool_decide_unpack _); vm_compute; exact I.
