(* ===== verification/Crc8.v ===== *)
(** CRC-8/AUTOSAR ([core/bus_crc8.c]; the same code is [crc8_autosar] of
    [port/rp2040/vendor/libcomm/frame.c]), its algebra and its detection
    power. *)
From S2P Require Import Prelude.

(** One turn of the bit loop. *)
Definition crc8_shift (crc : Z) : Z :=
  if nz (Z.land crc 0x80)
  then u8 (Z.lxor (Z.shiftl crc 1) 0x2F)
  else u8 (Z.shiftl crc 1).

Definition bus_crc8_update (crc byte : Z) : Z :=
  Nat.iter 8 crc8_shift (Z.lxor crc byte).

Definition bus_crc8 (data : list Z) : Z :=
  Z.lxor (foldl bus_crc8_update 0xFF data) 0xFF.

#[global] Arguments bus_crc8_update : simpl never.

(** ** Bytes and exclusive or *)

Lemma lxor_fits n a b : 0 <= n -> fits n a -> fits n b -> fits n (Z.lxor a b).
Proof.
  intros Hn Ha Hb. unfold fits in *.
  assert (0 <= Z.lxor a b) by (apply Z.lxor_nonneg; lia).
  split; [done|].
  destruct (Z.eq_dec (Z.lxor a b) 0) as [-> | ]; [lia|].
  apply Z.log2_lt_pow2; [lia|].
  pose proof (Z.log2_lxor a b ltac:(lia) ltac:(lia)) as Hl.
  assert (Hlog : forall x, 0 <= x < 2 ^ n -> Z.log2 x < n \/ x = 0).
  { intros x Hx. destruct (Z.eq_dec x 0); [by right|left].
    apply Z.log2_lt_pow2; lia. }
  assert (n <> 0) by (intros ->; assert (a = 0) as -> by lia;
                      assert (b = 0) as -> by lia; done).
  destruct (Hlog a Ha) as [ | -> ], (Hlog b Hb) as [ | -> ];
    rewrite ?Z.log2_nonpos in Hl by lia; simpl in *; lia.
Qed.

Lemma crc8_shift_fits c : fits 8 (crc8_shift c).
Proof. unfold crc8_shift. destruct (nz _); apply u8_fits. Qed.

Lemma bus_crc8_update_fits c b : fits 8 (bus_crc8_update c b).
Proof. apply crc8_shift_fits. Qed.

Lemma crc8_fold_fits data c :
  fits 8 c -> fits 8 (foldl bus_crc8_update c data).
Proof.
  revert c. induction data as [|b data IH]; intros c Hc; [done|].
  apply IH, bus_crc8_update_fits.
Qed.

Lemma bus_crc8_fits data : fits 8 (bus_crc8 data).
Proof.
  apply lxor_fits; [lia| |done]. apply crc8_fold_fits. done.
Qed.

(** The eight shifts send no byte but 0 to 0: checked on the table. With
    linearity this makes them a permutation of the bytes. *)
Definition all_bytes : list Z := map Z.of_nat (seq 0 256).

Lemma all_bytes_in b : fits 8 b -> In b all_bytes.
Proof.
  intros [? ?]. unfold all_bytes. apply in_map_iff. exists (Z.to_nat b).
  split; [lia|]. apply in_seq. lia.
Qed.

Lemma crc8_table_nonzero :
  forallb (fun b => negb (Nat.iter 8 crc8_shift b =? 0)) (tail all_bytes) = true.
Proof. vm_compute. reflexivity. Qed.

(** The shift register is linear over GF(2). *)
Lemma crc8_shift_lxor a b :
  crc8_shift (Z.lxor a b) = Z.lxor (crc8_shift a) (crc8_shift b).
Proof.
  unfold crc8_shift, nz, u8. rewrite <- !Z.land_ones by lia.
  assert (Hbit : forall x, Z.land x 0x80 = if Z.testbit x 7 then 0x80 else 0).
  { intros x. change 0x80 with (2 ^ 7). apply Z.bits_inj'. intros n Hn.
    rewrite Z.land_spec, Z.pow2_bits_eqb by lia.
    destruct (Z.eqb_spec 7 n) as [<- | ];
      destruct (Z.testbit x 7) eqn:E;
      rewrite ?E, ?Z.pow2_bits_eqb, ?Z.bits_0, ?andb_false_r by lia; auto;
      by destruct (Z.eqb_spec 7 n). }
  rewrite !Hbit, Z.lxor_spec, Z.shiftl_lxor.
  apply Z.bits_inj'. intros n Hn.
  destruct (Z.testbit a 7), (Z.testbit b 7); simpl negb; cbv iota;
    rewrite ?Z.lxor_spec, ?Z.land_spec, ?Z.lxor_spec;
    destruct (Z.testbit (Z.shiftl a 1) n), (Z.testbit (Z.shiftl b 1) n),
      (Z.testbit 47 n), (Z.testbit (Z.ones 8) n); reflexivity.
Qed.

Lemma crc8_shifts_lxor n a b :
  Nat.iter n crc8_shift (Z.lxor a b)
  = Z.lxor (Nat.iter n crc8_shift a) (Nat.iter n crc8_shift b).
Proof.
  induction n as [|n IH]; [done|].
  rewrite !Nat.iter_succ, IH. apply crc8_shift_lxor.
Qed.

Lemma lxor_cancel_l a b c : Z.lxor a b = Z.lxor a c -> b = c.
Proof.
  intros H. apply (f_equal (Z.lxor a)) in H.
  by rewrite <- !Z.lxor_assoc, Z.lxor_nilpotent, !Z.lxor_0_l in H.
Qed.

Lemma crc8_shifts_inj a b :
  fits 8 a -> fits 8 b ->
  Nat.iter 8 crc8_shift a = Nat.iter 8 crc8_shift b -> a = b.
Proof.
  intros Ha Hb H.
  assert (Hx : Nat.iter 8 crc8_shift (Z.lxor a b) = 0)
    by (rewrite crc8_shifts_lxor, H; apply Z.lxor_nilpotent).
  assert (Hf : fits 8 (Z.lxor a b)) by (apply lxor_fits; [lia|done|done]).
  apply Z.lxor_eq.
  pose proof crc8_table_nonzero as Ht. rewrite forallb_forall in Ht.
  apply all_bytes_in in Hf.
  change all_bytes with (0 :: tail all_bytes) in Hf.
  destruct Hf as [Hf|Hf]; [done|].
  apply Ht in Hf. rewrite Hx in Hf. done.
Qed.

Lemma bus_crc8_update_inj_byte c b b' :
  fits 8 c -> fits 8 b -> fits 8 b' ->
  bus_crc8_update c b = bus_crc8_update c b' -> b = b'.
Proof.
  intros Hc Hb Hb' H. apply crc8_shifts_inj in H.
  - by eapply lxor_cancel_l.
  - apply lxor_fits; [lia|done|done].
  - apply lxor_fits; [lia|done|done].
Qed.

Lemma bus_crc8_update_inj_crc c c' b :
  fits 8 c -> fits 8 c' -> fits 8 b ->
  bus_crc8_update c b = bus_crc8_update c' b -> c = c'.
Proof.
  intros Hc Hc' Hb H. apply crc8_shifts_inj in H.
  - rewrite (Z.lxor_comm c), (Z.lxor_comm c') in H. by eapply lxor_cancel_l.
  - apply lxor_fits; [lia|done|done].
  - apply lxor_fits; [lia|done|done].
Qed.

Lemma crc8_fold_inj_crc data c c' :
  bytes_ok data -> fits 8 c -> fits 8 c' ->
  foldl bus_crc8_update c data = foldl bus_crc8_update c' data -> c = c'.
Proof.
  intros Hd. revert c c'. induction Hd as [|b data Hb Hd IH]; intros c c' Hc Hc' H; [done|].
  simpl in H. apply IH in H; [|apply bus_crc8_update_fits..].
  by apply (bus_crc8_update_inj_crc c c' b).
Qed.

(** A corrupted byte anywhere in a message changes the running CRC. *)
Lemma crc8_fold_detects c pre b b' post :
  bytes_ok pre -> bytes_ok post -> fits 8 c -> fits 8 b -> fits 8 b' -> b <> b' ->
  foldl bus_crc8_update c (pre ++ b :: post)
  <> foldl bus_crc8_update c (pre ++ b' :: post).
Proof.
  intros Hpre Hpost Hc Hb Hb' Hne. rewrite !foldl_app. simpl. intros H.
  apply crc8_fold_inj_crc in H; [|done|apply bus_crc8_update_fits..].
  apply bus_crc8_update_inj_byte in H; [done| |done|done].
  by apply crc8_fold_fits.
Qed.

Lemma bus_crc8_detects pre b b' post :
  bytes_ok pre -> bytes_ok post -> fits 8 b -> fits 8 b' -> b <> b' ->
  bus_crc8 (pre ++ b :: post) <> bus_crc8 (pre ++ b' :: post).
Proof.
  intros ? ? ? ? ? H. unfold bus_crc8 in H.
  rewrite !(Z.lxor_comm _ 0xFF) in H. apply lxor_cancel_l in H.
  by apply crc8_fold_detects in H.
Qed.
