(* ===== verification/BusFrame.v ===== *)
(** The BC-2 frame codec and the reentrant receive assembler
    ([core/bus_addr.h], [core/bus_frame.h], [core/bus_frame.c]). *)
From S2P Require Import Prelude Crc8.

(** ** [bus_addr.h] *)
Definition BUS_ADDR_MASK : Z := 0x7F.
Definition BUS_ADDR_MASTER : Z := 0x00.
Definition BUS_ADDR_BROADCAST : Z := 0x7F.
Definition BUS_ADDR_SLAVE_MIN : Z := 0x01.
Definition BUS_ADDR_SLAVE_MAX : Z := 0x7E.
Definition BUS_ADDR_PROMISCUOUS : Z := 0xFF.

Definition BUS_WORD_ADDR_BIT : Z := 0x100.
Definition BUS_WORD_ADDR (a : Z) : Z := Z.lor BUS_WORD_ADDR_BIT (Z.land a BUS_ADDR_MASK).
Definition BUS_WORD_DATA (b : Z) : Z := Z.land b 0xFF.
Definition BUS_WORD_IS_ADDR (w : Z) : bool := nz (Z.land w BUS_WORD_ADDR_BIT).
Definition BUS_PREAMBLE_WORD : Z := 0x0FF.

Definition BUS_FT_MASK : Z := 0x0F.
Definition BUS_FT_NO_MESSAGE : Z := 0x00.
Definition BUS_FT_POLL : Z := 0x01.
Definition BUS_FT_DATA : Z := 0x02.
Definition BUS_FT_ACK : Z := 0x03.
Definition BUS_FT_NAK : Z := 0x04.

(** ** [bus_frame.h] *)
Definition BUS_PAYLOAD_MAX : Z := 240.
Definition BUS_HEADER_LEN : Z := 5.
Definition BUS_FRAME_WORDS_MAX : Z := 1 + BUS_HEADER_LEN + BUS_PAYLOAD_MAX + 1.

(** [payload] is the whole array [uint8_t payload[BUS_PAYLOAD_MAX]]. *)
Record bus_frame_t := mk_frame {
  f_dest : Z; f_src : Z; f_type : Z; f_seq : Z; f_len : Z; f_payload : list Z
}.
#[export] Instance eta_bus_frame_t : Settable bus_frame_t := fun f =>
  mk_frame (f_dest f) (f_src f) (f_type f) (f_seq f) (f_len f) (f_payload f).

(** The first [len] bytes of the payload array: what the code's loops
    [for (i = 0; i < len; ++i) .. payload[i]] read. *)
Definition frame_data (f : bus_frame_t) : list Z := take (Z.to_nat (f_len f)) (f_payload f).

(** An all-zero frame object with the given header: the designated initialisers
    [{ .dest = .., .len = 0 }]. *)
Definition frame_header (dest src type seq : Z) : bus_frame_t :=
  mk_frame dest src type seq 0 (replicate (Z.to_nat BUS_PAYLOAD_MAX) 0).

Definition bus_frame_crc (f : bus_frame_t) : Z :=
  let c := 0xFF in
  let c := bus_crc8_update c (f_dest f) in
  let c := bus_crc8_update c (f_src f) in
  let c := bus_crc8_update c (f_type f) in
  let c := bus_crc8_update c (f_seq f) in
  let c := bus_crc8_update c (f_len f) in
  let c := foldl bus_crc8_update c (frame_data f) in
  Z.lxor c 0xFF.

(** The words written to the caller's array; its length is the return value. *)
Definition bus_frame_encode (f : bus_frame_t) : list Z :=
  let len := if BUS_PAYLOAD_MAX <? f_len f then BUS_PAYLOAD_MAX else f_len f in
  let tmp := f <| f_len := len |> in
  let crc := bus_frame_crc tmp in
  [BUS_PREAMBLE_WORD; BUS_WORD_ADDR (f_dest f); BUS_WORD_DATA (f_src f);
   BUS_WORD_DATA (f_type f); BUS_WORD_DATA (f_seq f); BUS_WORD_DATA len]
  ++ map BUS_WORD_DATA (take (Z.to_nat len) (f_payload f))
  ++ [BUS_WORD_DATA crc].

(** ** The assembler *)
Inductive bus_asm_state_t :=
  BUS_ASM_IDLE | BUS_ASM_SRC | BUS_ASM_TYPE | BUS_ASM_SEQ
| BUS_ASM_LEN | BUS_ASM_PAYLOAD | BUS_ASM_CRC.
#[export] Instance bus_asm_state_eq_dec : EqDecision bus_asm_state_t.
Proof. solve_decision. Defined.

Record bus_asm_t := mk_asm {
  a_state : bus_asm_state_t; a_acc : bus_frame_t; a_idx : Z; a_my_addr : Z;
  a_promiscuous : bool; a_crc_fail : Z; a_frames_ok : Z
}.
#[export] Instance eta_bus_asm_t : Settable bus_asm_t := fun a =>
  mk_asm (a_state a) (a_acc a) (a_idx a) (a_my_addr a) (a_promiscuous a)
    (a_crc_fail a) (a_frames_ok a).

Definition bus_asm_init (a : bus_asm_t) (my_addr : Z) (promiscuous : bool) : bus_asm_t :=
  a <| a_state := BUS_ASM_IDLE |> <| a_idx := 0 |> <| a_my_addr := my_addr |>
    <| a_promiscuous := promiscuous || (my_addr =? BUS_ADDR_PROMISCUOUS) |>
    <| a_crc_fail := 0 |> <| a_frames_ok := 0 |>.

Definition addr_is_for_us (a : bus_asm_t) (dest : Z) : bool :=
  a_promiscuous a || (dest =? a_my_addr a) || (dest =? BUS_ADDR_BROADCAST).

(** [Some f] is the return value [true] with [*out = f]. *)
Definition bus_asm_feed (a : bus_asm_t) (word9 : Z) : bus_asm_t * option bus_frame_t :=
  let is_addr := BUS_WORD_IS_ADDR word9 in
  let b := u8 (Z.land word9 0xFF) in
  if is_addr then
    if addr_is_for_us a b
    then (a <| a_acc ::= fun f => f <| f_dest := b |> |> <| a_state := BUS_ASM_SRC |>, None)
    else (a <| a_state := BUS_ASM_IDLE |>, None)
  else
    match a_state a with
    | BUS_ASM_SRC =>
        (a <| a_acc ::= fun f => f <| f_src := b |> |> <| a_state := BUS_ASM_TYPE |>, None)
    | BUS_ASM_TYPE =>
        (a <| a_acc ::= fun f => f <| f_type := b |> |> <| a_state := BUS_ASM_SEQ |>, None)
    | BUS_ASM_SEQ =>
        (a <| a_acc ::= fun f => f <| f_seq := b |> |> <| a_state := BUS_ASM_LEN |>, None)
    | BUS_ASM_LEN =>
        if BUS_PAYLOAD_MAX <? b then (a <| a_state := BUS_ASM_IDLE |>, None)
        else (a <| a_acc ::= fun f => f <| f_len := b |> |> <| a_idx := 0 |>
                <| a_state := if b =? 0 then BUS_ASM_CRC else BUS_ASM_PAYLOAD |>, None)
    | BUS_ASM_PAYLOAD =>
        let a := a <| a_acc ::= fun f => f <| f_payload ::= fun p => zset p (a_idx a) b |> |>
                   <| a_idx ::= fun i => u8 (i + 1) |> in
        (if f_len (a_acc a) <=? a_idx a then a <| a_state := BUS_ASM_CRC |> else a, None)
    | BUS_ASM_CRC =>
        let calc := bus_frame_crc (a_acc a) in
        let a := a <| a_state := BUS_ASM_IDLE |> in
        if calc =? b
        then (a <| a_frames_ok ::= fun n => u32 (n + 1) |>, Some (a_acc a))
        else (a <| a_crc_fail ::= fun n => u32 (n + 1) |>, None)
    | BUS_ASM_IDLE => (a, None)
    end.

(** The caller's drain loop: every word of the ring through [bus_asm_feed]. *)
Fixpoint bus_asm_run (a : bus_asm_t) (ws : list Z) : bus_asm_t * list bus_frame_t :=
  match ws with
  | [] => (a, [])
  | w :: ws =>
      let '(a, o) := bus_asm_feed a w in
      let '(a, fs) := bus_asm_run a ws in
      (a, option_list o ++ fs)
  end.

(** ** Well-formed frames and assemblers *)
Record frame_wf (f : bus_frame_t) : Prop := {
  fw_dest : fits 8 (f_dest f); fw_src : fits 8 (f_src f); fw_type : fits 8 (f_type f);
  fw_seq : fits 8 (f_seq f); fw_len : 0 <= f_len f <= BUS_PAYLOAD_MAX;
  fw_array : zlen (f_payload f) = BUS_PAYLOAD_MAX; fw_bytes : bytes_ok (f_payload f)
}.

#[export] Instance frame_wf_dec f : Decision (frame_wf f).
Proof.
  refine (cast_if (decide (fits 8 (f_dest f) /\ fits 8 (f_src f) /\ fits 8 (f_type f) /\
    fits 8 (f_seq f) /\ 0 <= f_len f <= BUS_PAYLOAD_MAX /\
    zlen (f_payload f) = BUS_PAYLOAD_MAX /\ bytes_ok (f_payload f))));
  abstract (firstorder).
Defined.

(** The accumulator is a frame object at all times, and while payload bytes are
    collected the write cursor is inside the declared length. *)
Record asm_wf (a : bus_asm_t) : Prop := {
  aw_acc : frame_wf (a_acc a);
  aw_idx : a_state a = BUS_ASM_PAYLOAD -> 0 <= a_idx a < f_len (a_acc a)
}.

(** Frames with the same header and the same declared payload: what the wire
    carries. The rest of the payload array is not part of the message. *)
Definition frame_equiv (f g : bus_frame_t) : Prop :=
  f_dest f = f_dest g /\ f_src f = f_src g /\ f_type f = f_type g /\
  f_seq f = f_seq g /\ f_len f = f_len g /\ frame_data f = frame_data g.
#[export] Instance frame_equiv_equiv : Equiv bus_frame_t := frame_equiv.
#[export] Instance frame_equivalence : Equivalence (≡@{bus_frame_t}).
Proof.
  unfold equiv, frame_equiv_equiv, frame_equiv.
  split; red; intuition congruence.
Qed.

(** The header and payload bytes in wire order. *)
Definition frame_bytes (f : bus_frame_t) : list Z :=
  [f_dest f; f_src f; f_type f; f_seq f; f_len f] ++ frame_data f.

(** Sample values for the examples: a node at address 5 and two messages. *)
Definition blank_asm : bus_asm_t := mk_asm BUS_ASM_IDLE (frame_header 0 0 0 0) 0 0 false 0 0.
Definition sample_asm : bus_asm_t := bus_asm_init blank_asm 5 false.
Definition sample_data : bus_frame_t :=
  frame_header 5 0 BUS_FT_DATA 9 <| f_len := 2 |>
    <| f_payload ::= fun p => zset (zset p 0 0xDE) 1 0xAD |>.
Definition sample_poll : bus_frame_t := frame_header 7 0 BUS_FT_POLL 1.

(** ** Lemmas *)
#[global] Arguments bus_frame_encode : simpl never.
#[global] Arguments bus_asm_feed : simpl never.

Lemma bus_frame_crc_bytes f : bus_frame_crc f = bus_crc8 (frame_bytes f).
Proof. reflexivity. Qed.

#[export] Instance bus_frame_crc_proper : Proper ((≡) ==> (=)) bus_frame_crc.
Proof.
  intros f g (Hd & Hs & Ht & Hq & Hl & Hp).
  rewrite !bus_frame_crc_bytes. unfold frame_bytes. congruence.
Qed.

Lemma is_addr_data b : BUS_WORD_IS_ADDR (BUS_WORD_DATA b) = false.
Proof.
  unfold BUS_WORD_IS_ADDR, BUS_WORD_DATA, BUS_WORD_ADDR_BIT.
  rewrite <- Z.land_assoc. change (Z.land 255 256) with 0. by rewrite Z.land_0_r.
Qed.

Lemma word_data_byte b : u8 (Z.land (BUS_WORD_DATA b) 0xFF) = u8 b.
Proof.
  unfold u8, BUS_WORD_DATA. rewrite <- Z.land_assoc.
  change (Z.land 255 255) with (Z.ones 8).
  rewrite Z.land_ones by lia. by rewrite Z.mod_mod by lia.
Qed.

Lemma word_data_id b : fits 8 b -> BUS_WORD_DATA b = b.
Proof.
  intros Hb. unfold BUS_WORD_DATA. change 0xFF with (Z.ones 8).
  rewrite Z.land_ones by lia. by apply Z.mod_small.
Qed.

Lemma lor_disjoint_add a b : Z.land a b = 0 -> Z.lor a b = a + b.
Proof. intros H. symmetry. by apply Z.add_nocarry_lor. Qed.

Lemma land_pow2_low n x : 0 <= n -> 0 <= x < 2 ^ n -> Z.land (2 ^ n) x = 0.
Proof.
  intros Hn Hx. rewrite Z.land_comm, <- (Z.mod_small x (2 ^ n)) by done.
  rewrite <- Z.land_ones, <- Z.land_assoc by done.
  rewrite (Z.land_comm (Z.ones n)), Z.land_ones by done.
  rewrite Z.mod_same by (apply Z.pow_nonzero; lia).
  apply Z.land_0_r.
Qed.

Lemma word_addr_val d : BUS_WORD_ADDR d = 256 + d mod 128.
Proof.
  unfold BUS_WORD_ADDR, BUS_WORD_ADDR_BIT, BUS_ADDR_MASK.
  change 127 with (Z.ones 7). rewrite Z.land_ones by lia.
  apply lor_disjoint_add, (land_pow2_low 8); [done|].
  pose proof (Z.mod_pos_bound d 128 ltac:(done)). change (2 ^ 7) with 128. change (2 ^ 8) with 256. lia.
Qed.

Lemma is_addr_addr d : BUS_WORD_IS_ADDR (BUS_WORD_ADDR d) = true.
Proof.
  unfold BUS_WORD_IS_ADDR, BUS_WORD_ADDR, BUS_WORD_ADDR_BIT, BUS_ADDR_MASK, nz.
  rewrite Z.land_lor_distr_l, <- Z.land_assoc.
  change (Z.land 127 256) with 0. rewrite Z.land_0_r, Z.lor_0_r. done.
Qed.

Lemma word_addr_byte d : u8 (Z.land (BUS_WORD_ADDR d) 0xFF) = d mod 128.
Proof.
  rewrite word_addr_val. change 0xFF with (Z.ones 8). rewrite Z.land_ones by lia.
  unfold u8. rewrite Z.mod_mod by lia.
  pose proof (Z.mod_pos_bound d 128 ltac:(lia)).
  replace (256 + d mod 128) with (d mod 128 + 1 * 2 ^ 8) by lia.
  rewrite Z.mod_add by lia. apply Z.mod_small. lia.
Qed.

#[global] Opaque BUS_WORD_DATA BUS_WORD_ADDR BUS_WORD_IS_ADDR.
#[export] Hint Rewrite is_addr_data is_addr_addr word_data_byte word_addr_byte : words.

Lemma bus_asm_run_cons a w ws :
  bus_asm_run a (w :: ws) =
  let '(a1, o) := bus_asm_feed a w in
  let '(a2, fs) := bus_asm_run a1 ws in (a2, option_list o ++ fs).
Proof. reflexivity. Qed.

Lemma bus_asm_run_app a xs ys :
  bus_asm_run a (xs ++ ys) =
  let '(a1, fs) := bus_asm_run a xs in
  let '(a2, gs) := bus_asm_run a1 ys in (a2, fs ++ gs).
Proof.
  revert a. induction xs as [|x xs IH]; intros a; simpl.
  - by destruct (bus_asm_run a ys).
  - destruct (bus_asm_feed a x) as [a1 o]. rewrite IH.
    destruct (bus_asm_run a1 xs) as [a2 fs], (bus_asm_run a2 ys) as [a3 gs].
    by rewrite (assoc_L (++)).
Qed.

(** The words of a frame whose header, payload and trailing byte are given
    separately: the general shape the encoder and a corrupting line share. *)
Definition wire_words (d s t q l : Z) (ps : list Z) (c : Z) : list Z :=
  BUS_WORD_ADDR d :: map BUS_WORD_DATA [s; t; q; l]
  ++ map BUS_WORD_DATA ps ++ [BUS_WORD_DATA c].

(** What the assembler holds after those words: the frame, over what was in
    the payload array before. *)
Definition wire_frame (d s t q : Z) (ps old : list Z) : bus_frame_t :=
  mk_frame d s t q (zlen ps) (ps ++ drop (length ps) old).

Lemma asm_feed_payload a b :
  a_state a = BUS_ASM_PAYLOAD -> fits 8 b ->
  bus_asm_feed a (BUS_WORD_DATA b) =
  let a1 := a <| a_acc ::= fun f => f <| f_payload ::= fun p => zset p (a_idx a) b |> |>
              <| a_idx ::= fun i => u8 (i + 1) |> in
  (if f_len (a_acc a1) <=? a_idx a1 then a1 <| a_state := BUS_ASM_CRC |> else a1, None).
Proof.
  intros Hs Hb. unfold bus_asm_feed. autorewrite with words. rewrite Hs.
  by rewrite u8_id.
Qed.

Lemma asm_run_payload ps pre old a :
  a_state a = BUS_ASM_PAYLOAD -> bytes_ok ps -> ps <> [] ->
  f_payload (a_acc a) = pre ++ old -> a_idx a = zlen pre ->
  zlen pre + zlen ps = f_len (a_acc a) -> f_len (a_acc a) <= BUS_PAYLOAD_MAX ->
  (length ps <= length old)%nat ->
  bus_asm_run a (map BUS_WORD_DATA ps) =
  (a <| a_acc ::= fun f => f <| f_payload := pre ++ ps ++ drop (length ps) old |> |>
     <| a_idx := f_len (a_acc a) |> <| a_state := BUS_ASM_CRC |>, []).
Proof.
  unfold BUS_PAYLOAD_MAX.
  revert pre old a. induction ps as [|b ps IH];
    intros pre old a Hs Hb Hne Hp Hi Hlen Hmax Hold; [done|].
  apply Forall_cons in Hb as [Hb Hps].
  destruct old as [|o old]; [simpl in *; lia|].
  destruct a as [st [d s t q l p] i my pr cf ok]; simpl in *. subst st p i.
  rewrite asm_feed_payload by done. usimpl.
  unfold zlen in Hlen; simpl in Hlen.
  assert (Hu : u8 (zlen pre + 1) = zlen pre + 1)
    by (apply u8_id; unfold fits, zlen; change (2 ^ 8) with 256; lia).
  rewrite Hu, zset_app_mid. unfold zlen.
  destruct ps as [|b' ps]; simpl in *.
  - destruct (Z.leb_spec l (Z.of_nat (length pre) + 1)); [|lia].
    by replace (Z.of_nat (length pre) + 1) with l by lia.
  - destruct (Z.leb_spec l (Z.of_nat (length pre) + 1)); [lia|].
    rewrite (IH (pre ++ [b]) old); usimpl; try done.
    + by rewrite <- !(assoc_L (++)).
    + by rewrite <- (assoc_L (++)).
    + rewrite zlen_app. done.
    + rewrite zlen_app. unfold zlen. simpl. lia.
    + lia.
Qed.

Lemma asm_run_header a d s t q l :
  fits 8 s -> fits 8 t -> fits 8 q -> fits 8 l -> l <= BUS_PAYLOAD_MAX ->
  addr_is_for_us a (d mod 128) = true ->
  bus_asm_run a (BUS_WORD_ADDR d :: map BUS_WORD_DATA [s; t; q; l]) =
  (a <| a_acc := mk_frame (d mod 128) s t q l (f_payload (a_acc a)) |> <| a_idx := 0 |>
     <| a_state := if l =? 0 then BUS_ASM_CRC else BUS_ASM_PAYLOAD |>, []).
Proof.
  intros Hs Ht Hq Hl Hmax Hus. cbn [map bus_asm_run]. unfold bus_asm_feed.
  autorewrite with words. rewrite Hus. usimpl. autorewrite with words.
  rewrite !u8_id by done. destruct (Z.ltb_spec BUS_PAYLOAD_MAX l); [lia|]. done.
Qed.

(** The assembler on a whole frame in any state: only the CRC decides. *)
Lemma asm_run_wire a d s t q ps c :
  zlen (f_payload (a_acc a)) = BUS_PAYLOAD_MAX ->
  fits 8 s -> fits 8 t -> fits 8 q -> bytes_ok ps -> zlen ps <= BUS_PAYLOAD_MAX ->
  fits 8 c -> addr_is_for_us a (d mod 128) = true ->
  let g := wire_frame (d mod 128) s t q ps (f_payload (a_acc a)) in
  let a' := a <| a_acc := g |> <| a_idx := zlen ps |> <| a_state := BUS_ASM_IDLE |> in
  bus_asm_run a (wire_words d s t q (zlen ps) ps c) =
  if bus_frame_crc g =? c
  then (a' <| a_frames_ok ::= fun n => u32 (n + 1) |>, [g])
  else (a' <| a_crc_fail ::= fun n => u32 (n + 1) |>, []).
Proof.
  intros Harr Hs Ht Hq Hps Hlen Hc Hus g a'. unfold wire_words.
  pose proof (zlen_nonneg ps).
  change (BUS_WORD_ADDR d :: map BUS_WORD_DATA [s; t; q; zlen ps] ++ ?l)
    with ((BUS_WORD_ADDR d :: map BUS_WORD_DATA [s; t; q; zlen ps]) ++ l).
  unfold BUS_PAYLOAD_MAX, zlen in Harr, Hlen.
  rewrite bus_asm_run_app, asm_run_header; try done;
    [|unfold fits, zlen in *; change (2 ^ 8) with 256; lia].
  set (a1 := a <| a_acc := _ |> <| a_idx := 0 |> <| a_state := _ |>).
  assert (Hcrc : forall a2, a_state a2 = BUS_ASM_CRC -> a_acc a2 = g ->
    bus_asm_run a2 [BUS_WORD_DATA c] =
    if bus_frame_crc g =? c
    then (a2 <| a_state := BUS_ASM_IDLE |> <| a_frames_ok ::= fun n => u32 (n + 1) |>, [g])
    else (a2 <| a_state := BUS_ASM_IDLE |> <| a_crc_fail ::= fun n => u32 (n + 1) |>, [])).
  { intros a2 Hst Hg. cbn [bus_asm_run]. unfold bus_asm_feed.
    autorewrite with words. rewrite Hst, Hg, u8_id by done.
    destruct (bus_frame_crc g =? c); usimpl; by rewrite Hg. }
  destruct ps as [|b ps].
  - simpl app. cbv beta iota. rewrite Hcrc by done. by destruct (_ =? c).
  - rewrite bus_asm_run_app, (asm_run_payload (b :: ps) [] (f_payload (a_acc a)) a1)
      by (try done; simpl in *; lia).
    cbv beta iota. rewrite Hcrc by done. by destruct (_ =? c).
Qed.

Lemma bus_frame_encode_wire f :
  frame_wf f ->
  bus_frame_encode f =
  BUS_PREAMBLE_WORD ::
  wire_words (f_dest f) (f_src f) (f_type f) (f_seq f) (zlen (frame_data f)) (frame_data f)
    (bus_frame_crc f).
Proof.
  intros [_ _ _ _ Hl Harr _]. unfold bus_frame_encode, frame_data.
  destruct (Z.ltb_spec BUS_PAYLOAD_MAX (f_len f)); [lia|].
  assert (Hz : zlen (take (Z.to_nat (f_len f)) (f_payload f)) = f_len f)
    by (unfold zlen in *; rewrite length_take; lia).
  rewrite Hz. by destruct f.
Qed.

(** A frame the wire delivered is the message [(d, s, t, q, ps)]. *)
Lemma wire_frame_bytes d s t q ps old :
  frame_bytes (wire_frame d s t q ps old) = [d; s; t; q; zlen ps] ++ ps.
Proof.
  unfold frame_bytes, frame_data, wire_frame, zlen. simpl. rewrite Nat2Z.id.
  by rewrite take_app_length.
Qed.

Lemma wire_frame_data d s t q ps old : frame_data (wire_frame d s t q ps old) = ps.
Proof.
  pose proof (wire_frame_bytes d s t q ps old) as H. by injection H.
Qed.

Lemma frame_data_zlen f : frame_wf f -> zlen (frame_data f) = f_len f.
Proof.
  intros [_ _ _ _ Hl Harr _]. unfold frame_data, zlen in *. rewrite length_take. lia.
Qed.

Lemma frame_data_bytes f : frame_wf f -> bytes_ok (frame_data f).
Proof. intros [_ _ _ _ _ _ Hb]. by apply Forall_take. Qed.

Lemma wire_frame_equiv f old :
  frame_wf f ->
  wire_frame (f_dest f) (f_src f) (f_type f) (f_seq f) (frame_data f) old ≡ f.
Proof.
  intros Hf. split_and!; try done; simpl.
  - by apply frame_data_zlen.
  - apply wire_frame_data.
Qed.

Lemma wire_frame_wf d s t q ps old :
  fits 8 d -> fits 8 s -> fits 8 t -> fits 8 q -> bytes_ok ps ->
  zlen ps <= BUS_PAYLOAD_MAX -> zlen old = BUS_PAYLOAD_MAX -> bytes_ok old ->
  frame_wf (wire_frame d s t q ps old).
Proof.
  unfold zlen. intros. split; simpl; try done.
  - unfold zlen. lia.
  - unfold zlen. rewrite length_app, length_drop. lia.
  - apply Forall_app. split; [done|]. by apply Forall_drop.
Qed.

(** ** The invariant *)
Lemma zset_bytes l i b : bytes_ok l -> fits 8 b -> bytes_ok (zset l i b).
Proof.
  intros Hl Hb. unfold zset. destruct (i <? 0); [done|]. by apply Forall_insert.
Qed.

Lemma bus_asm_feed_wf a w :
  asm_wf a ->
  asm_wf (bus_asm_feed a w).1 /\ Forall frame_wf (option_list (bus_asm_feed a w).2).
Proof.
  intros [[Hd Hs Ht Hq Hl Harr Hb] Hi].
  pose proof (u8_fits (Z.land w 0xFF)) as Hw. unfold bus_asm_feed.
  set (b := u8 (Z.land w 0xFF)) in *. clearbody b.
  destruct a as [st [d s t q l p] i my pr cf ok]; simpl in *.
  destruct (BUS_WORD_IS_ADDR w).
  - destruct (addr_is_for_us _ _); (split; [split|]); simpl; try done; by split.
  - destruct st; usimpl; try (split; [split|]; simpl; try done; by split).
    + destruct (Z.ltb_spec BUS_PAYLOAD_MAX b); usimpl;
        [split; [split|]; simpl; try done; by split|].
      unfold fits in Hw. split; [split|]; simpl; [split; simpl; done || lia| |done].
      destruct (Z.eqb_spec b 0); [done|lia].
    + specialize (Hi eq_refl).
      assert (u8 (i + 1) = i + 1)
        by (apply u8_id; unfold fits, BUS_PAYLOAD_MAX in *; change (2 ^ 8) with 256; lia).
      destruct (Z.leb_spec l (u8 (i + 1))); usimpl; (split; [split|]); simpl; try done; try lia;
        split; simpl; try done; try (by apply zset_bytes);
        unfold zlen in *; by rewrite zlen_zset.
    + destruct (_ =? b); usimpl; (split; [split|]); simpl; try done; try (by split);
        apply Forall_singleton; by split.
Qed.

Lemma bus_asm_run_wf a ws :
  asm_wf a -> asm_wf (bus_asm_run a ws).1 /\ Forall frame_wf (bus_asm_run a ws).2.
Proof.
  revert a. induction ws as [|w ws IH]; intros a Ha; simpl; [done|].
  pose proof (bus_asm_feed_wf a w Ha) as [H1 H2].
  destruct (bus_asm_feed a w) as [a1 o]. simpl in *.
  specialize (IH a1 H1). destruct (bus_asm_run a1 ws) as [a2 fs]. simpl in *.
  split; [apply IH|]. apply Forall_app. split; [done|apply IH].
Qed.

(** The configuration never changes while words are fed. *)
Lemma bus_asm_feed_config a w :
  a_my_addr (bus_asm_feed a w).1 = a_my_addr a /\
  a_promiscuous (bus_asm_feed a w).1 = a_promiscuous a.
Proof.
  unfold bus_asm_feed. destruct a as [[] f i my pr cf ok]; usimpl;
    repeat case_match; simplify_eq; done.
Qed.

Lemma addr_is_for_us_config a a' d :
  a_my_addr a' = a_my_addr a -> a_promiscuous a' = a_promiscuous a ->
  addr_is_for_us a' d = addr_is_for_us a d.
Proof. unfold addr_is_for_us. by intros -> ->. Qed.

Lemma preamble_is_data : BUS_PREAMBLE_WORD = BUS_WORD_DATA 0xFF.
Proof. by rewrite word_data_id. Qed.

(** Data words in the idle state: line noise, other nodes' payloads. *)
Lemma asm_run_idle a bs :
  a_state a = BUS_ASM_IDLE -> bus_asm_run a (map BUS_WORD_DATA bs) = (a, []).
Proof.
  intros Hst. induction bs as [|b bs IH]; [done|]. cbn [map bus_asm_run].
  unfold bus_asm_feed. autorewrite with words. rewrite Hst. cbv beta iota.
  by rewrite IH.
Qed.

(** What a word does to the counters and to the output, outside [BUS_ASM_CRC]. *)
Lemma asm_feed_silent a w :
  a_state a <> BUS_ASM_CRC ->
  (bus_asm_feed a w).2 = None /\ a_frames_ok (bus_asm_feed a w).1 = a_frames_ok a /\
  a_crc_fail (bus_asm_feed a w).1 = a_crc_fail a.
Proof.
  intros Hst. unfold bus_asm_feed. destruct a as [[] f i my pr cf ok]; usimpl; try done;
    repeat case_match; simplify_eq; done.
Qed.

(** A whole message, addressed to somebody else: nothing changes but the state. *)
Lemma asm_run_wire_skip a d s t q l ps c :
  addr_is_for_us a (d mod 128) = false ->
  bus_asm_run a (wire_words d s t q l ps c) = (a <| a_state := BUS_ASM_IDLE |>, []).
Proof.
  intros Hus. unfold wire_words. cbn [bus_asm_run]. unfold bus_asm_feed at 1.
  autorewrite with words. rewrite Hus. cbv beta iota.
  change [BUS_WORD_DATA c] with (map BUS_WORD_DATA [c]).
  rewrite <- !map_app, asm_run_idle by done. done.
Qed.

Lemma wire_words_dest_low f : frame_wf f -> f_dest f < 128 -> f_dest f mod 128 = f_dest f.
Proof. intros [[? ?] _ _ _ _ _ _] ?. apply Z.mod_small. lia. Qed.

Lemma bus_frame_crc_fits f : fits 8 (bus_frame_crc f).
Proof. rewrite bus_frame_crc_bytes. apply bus_crc8_fits. Qed.

(** A clean frame for this receiver after a clean preamble. *)
Lemma asm_run_frame a f :
  asm_wf a -> frame_wf f -> f_dest f < 128 -> addr_is_for_us a (f_dest f) = true ->
  exists g, bus_asm_run a (tail (bus_frame_encode f)) =
    (a <| a_acc := g |> <| a_idx := f_len f |> <| a_state := BUS_ASM_IDLE |>
       <| a_frames_ok ::= fun n => u32 (n + 1) |>, [g]) /\ g ≡ f.
Proof.
  intros [[_ _ _ _ _ Harr _] _] Hf Hlow Hus. pose proof Hf as [Hd Hs Ht Hq Hl Ha Hb].
  pose proof (wire_words_dest_low f Hf Hlow) as Hmod.
  rewrite bus_frame_encode_wire by done. cbn [tail].
  rewrite asm_run_wire; try done;
    [ | by apply frame_data_bytes | rewrite frame_data_zlen by done; lia
      | apply bus_frame_crc_fits | by rewrite Hmod ].
  rewrite Hmod. set (g := wire_frame _ _ _ _ _ _).
  assert (Hg : g ≡ f) by by apply wire_frame_equiv.
  exists g. split; [|done]. rewrite (bus_frame_crc_proper _ _ Hg), Z.eqb_refl.
  rewrite frame_data_zlen by done. done.
Qed.

(** One encoded frame through an idle assembler: delivered iff it is for us. *)
Lemma asm_run_encode a f :
  asm_wf a -> a_state a = BUS_ASM_IDLE -> frame_wf f -> f_dest f < 128 ->
  exists a' gs, bus_asm_run a (bus_frame_encode f) = (a', gs) /\
    gs ≡ filter (fun f => addr_is_for_us a (f_dest f) = true) [f] /\
    asm_wf a' /\ a_state a' = BUS_ASM_IDLE /\
    a_my_addr a' = a_my_addr a /\ a_promiscuous a' = a_promiscuous a /\
    a_crc_fail a' = a_crc_fail a /\
    a_frames_ok a' = (if addr_is_for_us a (f_dest f)
                      then u32 (a_frames_ok a + 1) else a_frames_ok a).
Proof.
  intros Ha Hst Hf Hlow.
  assert (Hpre : bus_asm_feed a BUS_PREAMBLE_WORD = (a, None)).
  { rewrite preamble_is_data. unfold bus_asm_feed. autorewrite with words. by rewrite Hst. }
  pose proof (bus_asm_run_wf a (bus_frame_encode f) Ha) as [Hwf _].
  rewrite bus_frame_encode_wire in * by done. cbn [bus_asm_run] in *. rewrite Hpre in *.
  destruct (addr_is_for_us a (f_dest f)) eqn:Hus.
  - destruct (asm_run_frame a f Ha Hf Hlow Hus) as (g & Hr & Hg).
    rewrite bus_frame_encode_wire in Hr by done. cbn [tail] in Hr. rewrite Hr in *.
    do 2 eexists. split; [done|]. rewrite filter_cons_True, filter_nil by done.
    split_and!; try done. constructor; [done|constructor].
  - rewrite asm_run_wire_skip in * by (by rewrite wire_words_dest_low).
    do 2 eexists. split; [done|].
    rewrite filter_cons_False, filter_nil by (by rewrite Hus). by split_and!.
Qed.

(** What replacing one word of the wire image does to the message. *)
Lemma wire_words_set_payload d s t q l p1 x b p2 c :
  <[(6 + length p1)%nat := BUS_WORD_DATA b]>
    (BUS_PREAMBLE_WORD :: wire_words d s t q l (p1 ++ x :: p2) c)
  = BUS_PREAMBLE_WORD :: wire_words d s t q l (p1 ++ b :: p2) c.
Proof.
  unfold wire_words. simpl. rewrite !map_app, <- !(assoc_L (++)).
  rewrite insert_app_r_alt by (rewrite length_map; lia).
  by rewrite length_map, Nat.sub_diag.
Qed.

Lemma wire_words_set_crc d s t q l ps c b :
  <[(6 + length ps)%nat := BUS_WORD_DATA b]> (BUS_PREAMBLE_WORD :: wire_words d s t q l ps c)
  = BUS_PREAMBLE_WORD :: wire_words d s t q l ps b.
Proof.
  unfold wire_words. simpl. rewrite insert_app_r_alt by (rewrite length_map; lia).
  by rewrite length_map, Nat.sub_diag.
Qed.

Lemma payload_change_detected d s t q p1 x b p2 :
  fits 8 d -> fits 8 s -> fits 8 t -> fits 8 q -> bytes_ok (p1 ++ x :: p2) -> fits 8 b ->
  x <> b -> zlen (p1 ++ x :: p2) <= BUS_PAYLOAD_MAX ->
  bus_crc8 ([d; s; t; q; zlen (p1 ++ b :: p2)] ++ p1 ++ b :: p2)
  <> bus_crc8 ([d; s; t; q; zlen (p1 ++ x :: p2)] ++ p1 ++ x :: p2).
Proof.
  intros Hd Hs Ht Hq Hps Hb Hne Hlen.
  assert (E : zlen (p1 ++ b :: p2) = zlen (p1 ++ x :: p2))
    by (unfold zlen; by rewrite !length_app).
  assert (Hl : fits 8 (zlen (p1 ++ x :: p2))).
  { pose proof (zlen_nonneg (p1 ++ x :: p2)).
    unfold fits, BUS_PAYLOAD_MAX in *. change (2 ^ 8) with 256. lia. }
  apply Forall_app in Hps as [? Hp2]. apply Forall_cons in Hp2 as [? ?].
  rewrite E, !(assoc_L (++)). apply bus_crc8_detects; try congruence; solve_bytes.
Qed.

Lemma sample_asm_wf : asm_wf sample_asm.
Proof. split; [vm_decide|done]. Qed.

(** A stream of encoded frames through an idle assembler. *)
Lemma asm_run_stream a fs :
  asm_wf a -> a_state a = BUS_ASM_IDLE ->
  Forall (fun f => frame_wf f /\ f_dest f < 128) fs ->
  exists a' gs,
    bus_asm_run a (concat (map bus_frame_encode fs)) = (a', gs) /\
    gs ≡ filter (fun f => addr_is_for_us a (f_dest f) = true) fs /\
    asm_wf a' /\ a_state a' = BUS_ASM_IDLE /\ a_my_addr a' = a_my_addr a /\
    a_promiscuous a' = a_promiscuous a /\ a_crc_fail a' = a_crc_fail a /\
    (fits 32 (a_frames_ok a) -> a_frames_ok a' = u32 (a_frames_ok a + zlen gs)).
Proof.
  intros Ha Hst Hfs. revert a Ha Hst.
  induction Hfs as [|f fs [Hf Hlow] _ IH]; intros a Ha Hst.
  - exists a, []. split_and!; try done. intros Hk. change (zlen []) with 0. by rewrite Z.add_0_r, u32_id.
  - destruct (asm_run_encode a f Ha Hst Hf Hlow)
      as (a1 & g1 & Hr1 & Hg1 & Ha1 & Hst1 & Hmy1 & Hpr1 & Hcf1 & Hok1).
    destruct (IH a1 Ha1 Hst1) as (a2 & g2 & Hr2 & Hg2 & Ha2 & Hst2 & Hmy2 & Hpr2 & Hcf2 & Hok2).
    exists a2, (g1 ++ g2). cbn [map concat]. rewrite bus_asm_run_app, Hr1, Hr2.
    split_and!; try done; try congruence.
    + change (f :: fs) with ([f] ++ fs). rewrite filter_app.
      rewrite Hg1, Hg2.
      rewrite (list_filter_iff (fun f => addr_is_for_us a1 (f_dest f) = true)
        (fun f => addr_is_for_us a (f_dest f) = true)); [done|].
      intros h. by rewrite (addr_is_for_us_config a a1).
    + intros Hk. rewrite Hok2, Hok1; [|rewrite Hok1; by destruct (addr_is_for_us _ _); auto with widths].
      rewrite zlen_app.
      apply list_equiv_Forall2, Forall2_length in Hg1. unfold zlen at 2. rewrite Hg1.
      destruct (addr_is_for_us a (f_dest f)) eqn:E.
      * rewrite filter_cons_True by done. rewrite filter_nil. unfold u32.
        rewrite Zplus_mod_idemp_l. f_equal. simpl. lia.
      * rewrite filter_cons_False, filter_nil by (by rewrite E). f_equal.
Qed.

(** ** Properties *)

(** C22. Encode/receive round trip on a stream: an idle assembler that is fed the
    wire image of any sequence of well-formed frames delivers, in order,
    exactly the frames addressed to it (its address, broadcast, or everything
    when promiscuous), each equal to the frame sent, counts each once, reports
    no CRC failure and ends idle. *)
Theorem bus_wire_roundtrip a fs :
  asm_wf a -> a_state a = BUS_ASM_IDLE ->
  Forall (fun f => frame_wf f /\ f_dest f < 128) fs ->
  exists a' gs,
    bus_asm_run a (concat (map bus_frame_encode fs)) = (a', gs) /\
    gs ≡ filter (fun f => addr_is_for_us a (f_dest f) = true) fs /\
    a_state a' = BUS_ASM_IDLE /\ a_crc_fail a' = a_crc_fail a /\
    (fits 32 (a_frames_ok a) -> a_frames_ok a' = u32 (a_frames_ok a + zlen gs)).
Proof.
  intros Ha Hst Hfs. destruct (asm_run_stream a fs Ha Hst Hfs) as (a' & gs & H).
  exists a', gs. naive_solver.
Qed.

Lemma bus_wire_roundtrip_witness :
  exists a' gs,
    bus_asm_run sample_asm (concat (map bus_frame_encode [sample_data; sample_poll])) = (a', gs) /\
    gs ≡ [sample_data].
Proof.
  destruct (bus_wire_roundtrip sample_asm [sample_data; sample_poll])
    as (a' & gs & Hr & Hg & _).
  - exact sample_asm_wf.
  - reflexivity.
  - repeat constructor; vm_decide.
  - exists a', gs. split; [exact Hr|exact Hg].
Defined.

(** Resynchronisation: from any state, mid-frame included, the wire image of
    a frame for this node ends with that frame delivered; at most one frame
    comes out before it (the preamble byte can complete an earlier frame), and
    none when the assembler was not waiting for a CRC. *)
Theorem bus_asm_resync a f :
  asm_wf a -> frame_wf f -> f_dest f < 128 -> addr_is_for_us a (f_dest f) = true ->
  exists a' spur g,
    bus_asm_run a (bus_frame_encode f) = (a', spur ++ [g]) /\ g ≡ f /\
    (length spur <= 1)%nat /\ (a_state a <> BUS_ASM_CRC -> spur = []) /\
    a_state a' = BUS_ASM_IDLE.
Proof.
  intros Ha Hf Hlow Hus.
  pose proof (bus_asm_feed_wf a BUS_PREAMBLE_WORD Ha) as [Ha1 _].
  pose proof (bus_asm_feed_config a BUS_PREAMBLE_WORD) as [Hmy Hpr].
  pose proof (asm_feed_silent a BUS_PREAMBLE_WORD) as Hsil.
  destruct (bus_asm_feed a BUS_PREAMBLE_WORD) as [a1 o] eqn:Hfeed. cbn [fst snd] in *.
  rewrite <- (addr_is_for_us_config a a1) in Hus by done.
  destruct (asm_run_frame a1 f Ha1 Hf Hlow Hus) as (g & Hr & Hg).
  eexists _, (option_list o), g.
  replace (bus_frame_encode f) with (BUS_PREAMBLE_WORD :: tail (bus_frame_encode f)) by done.
  rewrite bus_asm_run_cons, Hfeed, Hr. split_and!; try done.
  - destruct o; simpl; lia.
  - intros Hst. by destruct (Hsil Hst) as [-> _].
Qed.

Lemma bus_asm_resync_witness :
  exists a' spur g,
    bus_asm_run (sample_asm <| a_state := BUS_ASM_CRC |>) (bus_frame_encode sample_data)
      = (a', spur ++ [g]) /\ g ≡ sample_data.
Proof.
  destruct (bus_asm_resync (sample_asm <| a_state := BUS_ASM_CRC |>) sample_data)
    as (a' & spur & g & Hr & Hg & _).
  - split; [vm_decide|done].
  - vm_decide.
  - reflexivity.
  - reflexivity.
  - exists a', spur, g. split; [exact Hr|exact Hg].
Defined.

Lemma asm_run_bad_crc a d s t q ps c :
  asm_wf a -> a_state a = BUS_ASM_IDLE -> addr_is_for_us a (d mod 128) = true ->
  bytes_ok ([d mod 128; s; t; q] ++ ps) -> zlen ps <= BUS_PAYLOAD_MAX -> fits 8 c ->
  bus_crc8 ([d mod 128; s; t; q; zlen ps] ++ ps) <> c ->
  exists a', bus_asm_run a (BUS_PREAMBLE_WORD :: wire_words d s t q (zlen ps) ps c) = (a', []) /\
    a_state a' = BUS_ASM_IDLE /\ a_frames_ok a' = a_frames_ok a /\
    a_crc_fail a' = u32 (a_crc_fail a + 1).
Proof.
  intros [[_ _ _ _ _ Harr _] _] Hst Hus Hb Hlen Hc Hne.
  do 4 (apply Forall_cons in Hb as [? Hb]). rewrite bus_asm_run_cons.
  rewrite preamble_is_data. unfold bus_asm_feed at 1. autorewrite with words. rewrite Hst.
  cbv beta iota. rewrite asm_run_wire by done.
  rewrite bus_frame_crc_bytes, wire_frame_bytes.
  destruct (Z.eqb_spec (bus_crc8 ([d mod 128; s; t; q; zlen ps] ++ ps)) c); [done|].
  by eexists.
Qed.

(** A frame object whose destination has bit 7 set (the promiscuous sentinel
    0xFF among them) is never delivered to an idle assembler: the marker word
    carries only seven address bits while the CRC covers all eight, so a
    receiver that accepts the aliased address sees a CRC failure. *)
Theorem bus_asm_rejects_alias a f :
  asm_wf a -> a_state a = BUS_ASM_IDLE -> frame_wf f -> 128 <= f_dest f ->
  exists a', bus_asm_run a (bus_frame_encode f) = (a', []) /\
    a_state a' = BUS_ASM_IDLE /\ a_frames_ok a' = a_frames_ok a /\
    a_crc_fail a' = (if addr_is_for_us a (f_dest f mod 128)
                     then u32 (a_crc_fail a + 1) else a_crc_fail a).
Proof.
  intros Ha Hst Hf Hhi. pose proof Hf as [Hd Hs Ht Hq Hl Harr Hb].
  rewrite bus_frame_encode_wire by done.
  assert (Hm : fits 8 (f_dest f mod 128)).
  { pose proof (Z.mod_pos_bound (f_dest f) 128 ltac:(done)).
    unfold fits. change (2 ^ 8) with 256. lia. }
  destruct (addr_is_for_us a (f_dest f mod 128)) eqn:Hus.
  - apply asm_run_bad_crc; try done.
    + repeat (constructor; [done|]). by apply frame_data_bytes.
    + rewrite frame_data_zlen by done. lia.
    + apply bus_frame_crc_fits.
    + rewrite bus_frame_crc_bytes. unfold frame_bytes. rewrite frame_data_zlen by done.
      pose proof (Z.mod_pos_bound (f_dest f) 128 ltac:(done)).
      apply (bus_crc8_detects []); [constructor| |done|done|lia].
      repeat (constructor; [done|]). constructor; [|by apply frame_data_bytes].
      unfold fits, BUS_PAYLOAD_MAX in *. change (2 ^ 8) with 256. lia.
  - rewrite bus_asm_run_cons. rewrite preamble_is_data. unfold bus_asm_feed at 1.
    autorewrite with words. rewrite Hst. cbv beta iota.
    rewrite asm_run_wire_skip by done. by eexists.
Qed.

Lemma bus_asm_rejects_alias_witness :
  exists a', bus_asm_run sample_asm (bus_frame_encode (sample_data <| f_dest := 133 |>)) = (a', [])
    /\ a_crc_fail a' = 1.
Proof.
  destruct (bus_asm_rejects_alias sample_asm (sample_data <| f_dest := 133 |>))
    as (a' & Hr & _ & _ & Hc).
  - exact sample_asm_wf.
  - reflexivity.
  - vm_decide.
  - vm_compute. discriminate.
  - exists a'. split; [exact Hr|exact Hc].
Defined.

(** C37. Memory safety of the receiver: whatever words the line delivers, the
    payload write cursor stays inside the declared length, which stays inside
    the 240-byte array, and every delivered frame is well formed. *)
Theorem bus_asm_bounds a ws :
  asm_wf a -> asm_wf (bus_asm_run a ws).1 /\ Forall frame_wf (bus_asm_run a ws).2.
Proof. apply bus_asm_run_wf. Qed.

Lemma bus_asm_bounds_witness :
  asm_wf (bus_asm_run sample_asm [0x105; 1; 2; 3; 4; 0xFFFF]).1.
Proof. apply (bus_asm_bounds sample_asm), sample_asm_wf. Defined.

(** C28. Error detection: one byte of a frame replaced on the line by any other
    (source, type, sequence number, payload or CRC; not the two words that frame
    it, destination and length) is never delivered: the receiver drops the
    frame, counts one CRC failure and is idle again. *)
Theorem bus_asm_detects_corruption a f k b :
  asm_wf a -> a_state a = BUS_ASM_IDLE -> frame_wf f -> f_dest f < 128 ->
  addr_is_for_us a (f_dest f) = true ->
  (2 <= k)%nat -> k <> 5%nat -> (k < length (bus_frame_encode f))%nat ->
  fits 8 b -> bus_frame_encode f !! k <> Some (BUS_WORD_DATA b) ->
  exists a', bus_asm_run a (<[k := BUS_WORD_DATA b]> (bus_frame_encode f)) = (a', []) /\
    a_state a' = BUS_ASM_IDLE /\ a_frames_ok a' = a_frames_ok a /\
    a_crc_fail a' = u32 (a_crc_fail a + 1).
Proof.
  intros Ha Hst Hf Hlow Hus H2 H5 Hk Hb Hne.
  pose proof Hf as [Hd Hs Ht Hq Hl _ _].
  pose proof (frame_data_bytes f Hf) as Hps. pose proof (frame_data_zlen f Hf) as Hlen.
  assert (Hl8 : fits 8 (zlen (frame_data f)))
    by (unfold fits, BUS_PAYLOAD_MAX in *; change (2 ^ 8) with 256; lia).
  pose proof (wire_words_dest_low f Hf Hlow) as Hm.
  pose proof (bus_frame_crc_bytes f) as Hcrc. unfold frame_bytes in Hcrc.
  pose proof (bus_frame_crc_fits f) as Hcf.
  rewrite bus_frame_encode_wire in * by done. rewrite <- Hlen in *.
  set (c := bus_frame_crc f) in *. set (ps := frame_data f) in *. clearbody ps c.
  unfold wire_words in Hne, Hk.
  rewrite <- Hm in Hus.
  destruct k as [|[|[|[|[|[|k]]]]]]; try lia; simpl in Hne, Hk;
    rewrite ?word_data_id in Hne by done.
  - apply (asm_run_bad_crc a (f_dest f) b (f_type f) (f_seq f) ps c); try done;
      rewrite ?Hm; [solve_bytes|lia|]. rewrite Hcrc.
    apply (bus_crc8_detects [f_dest f]); try congruence; solve_bytes.
  - apply (asm_run_bad_crc a (f_dest f) (f_src f) b (f_seq f) ps c); try done;
      rewrite ?Hm; [solve_bytes|lia|]. rewrite Hcrc.
    apply (bus_crc8_detects [f_dest f; f_src f]); try congruence; solve_bytes.
  - apply (asm_run_bad_crc a (f_dest f) (f_src f) (f_type f) b ps c); try done;
      rewrite ?Hm; [solve_bytes|lia|]. rewrite Hcrc.
    apply (bus_crc8_detects [f_dest f; f_src f; f_type f]); try congruence; solve_bytes.
  - rewrite length_app, length_map in Hk. simpl in Hk.
    destruct (decide (k < length ps)%nat) as [Hin|Hout].
    + destruct (lookup_lt_is_Some_2 ps k Hin) as [x Hx].
      rewrite lookup_app_l, list_lookup_fmap, Hx in Hne by (rewrite length_map; lia).
      pose proof (take_drop_middle ps k x Hx) as Hsplit.
      set (p1 := take k ps) in *. set (p2 := drop (S k) ps) in *.
      assert (Hk1 : k = length p1) by (unfold p1; rewrite length_take; lia).
      assert (Hok : fits 8 x /\ bytes_ok p1 /\ bytes_ok p2).
      { rewrite <- Hsplit in Hps. apply Forall_app in Hps as [? Hps2].
        by apply Forall_cons in Hps2 as [? ?]. }
      destruct Hok as (Hx8 & Hp1 & Hp2). simpl in Hne. rewrite word_data_id in Hne by done.
      clearbody p1 p2. subst k. rewrite <- Hsplit in *.
      rewrite (wire_words_set_payload _ _ _ _ _ p1 x b p2).
      assert (Hlen' : zlen (p1 ++ x :: p2) = zlen (p1 ++ b :: p2))
        by (unfold zlen; by rewrite !length_app).
      rewrite Hlen'.
      apply (asm_run_bad_crc a (f_dest f) (f_src f) (f_type f) (f_seq f)); try done;
        rewrite ?Hm; [solve_bytes|lia|].
      rewrite Hcrc. apply payload_change_detected; try done; congruence || lia.
    + assert (k = length ps) by lia. subst k. rewrite (wire_words_set_crc _ _ _ _ _ ps c b).
      apply (asm_run_bad_crc a (f_dest f) (f_src f) (f_type f) (f_seq f)); try done;
        rewrite ?Hm; [solve_bytes|lia|].
      rewrite <- Hcrc. intros ->. apply Hne.
      by rewrite lookup_app_r, length_map, Nat.sub_diag by (rewrite length_map; lia).
Qed.

Lemma bus_asm_detects_corruption_witness :
  exists a', bus_asm_run sample_asm
      (<[7%nat := BUS_WORD_DATA 0xAC]> (bus_frame_encode sample_data)) = (a', []) /\
    a_crc_fail a' = 1.
Proof.
  destruct (bus_asm_detects_corruption sample_asm sample_data 7 0xAC)
    as (a' & Hr & _ & _ & Hc).
  - exact sample_asm_wf.
  - reflexivity.
  - vm_decide.
  - reflexivity.
  - reflexivity.
  - lia.
  - lia.
  - vm_compute. lia.
  - vm_decide.
  - vm_compute. discriminate.
  - exists a'. split; [exact Hr|exact Hc].
Defined.
