(* ===== verification/BusRoster.v ===== *)
(** The bus controller's RAM-only node roster ([core/bus_roster.h],
    [core/bus_roster.c]): registration, lookup and the round-robin iterator. *)
From stdpp Require Import gmap.
From S2P Require Import Prelude BusFrame.

Definition BUS_ROSTER_MAX : Z := 32.
Definition BUS_STATE_UNKNOWN : Z := 0.
Definition BUS_STATE_ALIVE : Z := 1.
Definition BUS_STATE_DEAD : Z := 2.
Definition BUS_FLAG_TCP : Z := 0x01.
Definition BUS_FLAG_ENABLED : Z := 0x02.
Definition BUS_FLAG_PEERING : Z := 0x04.

Record bus_slave_t := mk_slave {
  s_addr : Z; s_class_id : Z; s_flags : Z; s_state : Z;
  s_consecutive_misses : Z; s_last_seen_ms : Z
}.
#[export] Instance eta_bus_slave_t : Settable bus_slave_t := fun s =>
  mk_slave (s_addr s) (s_class_id s) (s_flags s) (s_state s)
    (s_consecutive_misses s) (s_last_seen_ms s).

Record bus_sched_cfg_t := mk_cfg {
  c_grant_period_ms : Z; c_window_us : Z; c_max_misses : Z; c_tcp_retries : Z; c_enabled : Z
}.
#[export] Instance eta_bus_sched_cfg_t : Settable bus_sched_cfg_t := fun c =>
  mk_cfg (c_grant_period_ms c) (c_window_us c) (c_max_misses c) (c_tcp_retries c) (c_enabled c).

Definition BUS_REG_OK : Z := 0.
Definition BUS_REG_FULL : Z := 1.
Definition BUS_REG_DUP : Z := 2.
Definition BUS_REG_BADADDR : Z := 3.

(** The file's statics [g_roster], [g_count], [g_cfg]. *)
Record roster_t := mk_roster {
  g_roster : list bus_slave_t; g_count : Z; g_cfg : bus_sched_cfg_t
}.
#[export] Instance eta_roster_t : Settable roster_t := fun r =>
  mk_roster (g_roster r) (g_count r) (g_cfg r).

Definition bus_roster_clear (r : roster_t) : roster_t :=
  r <| g_roster ::= map (fun s => s <| s_addr := 0 |>) |> <| g_count := 0 |>.

Definition bus_roster_init (r : roster_t) : roster_t :=
  bus_roster_clear r
    <| g_cfg := mk_cfg 0 2000 3 3 0 |>.

Definition addr_valid (a : Z) : bool :=
  (BUS_ADDR_SLAVE_MIN <=? a) && (a <=? BUS_ADDR_SLAVE_MAX).

(** A pointer to a roster entry is its slot index. *)
Definition bus_roster_find (r : roster_t) (addr : Z) : option nat :=
  if addr =? 0 then None
  else find_index (fun s => s_addr s =? addr) (g_roster r).

(** Returns the new state, the result code and [*out_count]. *)
Definition bus_roster_register (r : roster_t) (addr class_id flags : Z)
    : roster_t * Z * Z :=
  if negb (addr_valid addr) then (r, BUS_REG_BADADDR, g_count r)
  else if bool_decide (is_Some (bus_roster_find r addr)) then (r, BUS_REG_DUP, g_count r)
  else if BUS_ROSTER_MAX <=? g_count r then (r, BUS_REG_FULL, g_count r)
  else
    match find_index (fun s => s_addr s =? 0) (g_roster r) with
    | Some i =>
        let s := mk_slave addr class_id flags BUS_STATE_UNKNOWN 0 0 in
        let r := r <| g_roster ::= insert i s |> <| g_count ::= fun n => u8 (n + 1) |> in
        (r, BUS_REG_OK, g_count r)
    | None => (r, BUS_REG_FULL, g_count r)
    end.

Definition bus_roster_unregister (r : roster_t) (addr : Z) : roster_t * bool * Z :=
  match bus_roster_find r addr with
  | Some i =>
      let r := r <| g_roster ::= alter (fun s => s <| s_addr := 0 |>) i |>
                 <| g_count ::= fun n => u8 (n - 1) |> in
      (r, true, g_count r)
  | None => (r, false, g_count r)
  end.

Definition bus_roster_count (r : roster_t) : Z := g_count r.

Definition occupied (s : bus_slave_t) : bool := negb (s_addr s =? 0).

(** The loop of [bus_roster_at], with its [seen] counter. *)
Fixpoint roster_at_from (l : list bus_slave_t) (i : nat) (seen index : Z) : option nat :=
  match l with
  | [] => None
  | s :: l =>
      if occupied s then
        if seen =? index then Some i else roster_at_from l (S i) (u8 (seen + 1)) index
      else roster_at_from l (S i) seen index
  end.
Definition bus_roster_at (r : roster_t) (index : Z) : option nat :=
  roster_at_from (g_roster r) 0 0 index.

Definition slot_enabled (s : bus_slave_t) : bool :=
  occupied s && nz (Z.land (s_flags s) BUS_FLAG_ENABLED).

(** The loop of [bus_roster_next_enabled] from [step], [n] turns left. *)
Fixpoint next_enabled_from (r : roster_t) (cursor step : Z) (n : nat) : option nat * Z :=
  match n with
  | O => (None, cursor)
  | S n =>
      let i := u8 ((cursor + step) mod BUS_ROSTER_MAX) in
      match g_roster r !! Z.to_nat i with
      | Some s =>
          if slot_enabled s
          then (Some (Z.to_nat i), u8 ((i + 1) mod BUS_ROSTER_MAX))
          else next_enabled_from r cursor (step + 1) n
      | None => (None, cursor)
      end
  end.
Definition bus_roster_next_enabled (r : roster_t) (cursor : Z) : option nat * Z :=
  next_enabled_from r cursor 0 (Z.to_nat BUS_ROSTER_MAX).

(** ** The abstract roster: a finite map from bus address to node. *)
Definition entries_of (l : list bus_slave_t) : list (Z * bus_slave_t) :=
  map (fun s => (s_addr s, s)) (filter (fun s => occupied s = true) l).
Definition roster_entries (r : roster_t) : list (Z * bus_slave_t) := entries_of (g_roster r).
Definition roster_map (r : roster_t) : gmap Z bus_slave_t := list_to_map (roster_entries r).

Record roster_wf (r : roster_t) : Prop := {
  rw_slots : zlen (g_roster r) = BUS_ROSTER_MAX;
  rw_count : g_count r = zlen (roster_entries r);
  rw_unique : NoDup (roster_entries r).*1;
  rw_addrs : Forall (fun s => occupied s = true -> addr_valid (s_addr s) = true) (g_roster r)
}.

(** The enabled slots in the cyclic order that starts at the cursor. *)
Definition slot_is_enabled (r : roster_t) (i : nat) : bool :=
  match g_roster r !! i with Some s => slot_enabled s | None => false end.
Definition rotation (c : nat) : list nat := seq c (32 - c) ++ seq 0 c.
Definition enabled_from (r : roster_t) (c : nat) : list nat :=
  filter (fun i => slot_is_enabled r i = true) (rotation c).

(** [k] successive calls. *)
Fixpoint poll_order (r : roster_t) (cursor : Z) (k : nat) : list nat * Z :=
  match k with
  | O => ([], cursor)
  | S k =>
      let '(o, cursor) := bus_roster_next_enabled r cursor in
      let '(l, cursor) := poll_order r cursor k in
      (option_list o ++ l, cursor)
  end.

(** The host's operations on the roster, and what each returns: the code (for
    unregister the boolean) and [*out_count]. *)
Inductive roster_op := OpRegister (addr class_id flags : Z) | OpUnregister (addr : Z) | OpClear.

Definition roster_exec (r : roster_t) (o : roster_op) : roster_t * Z * Z :=
  match o with
  | OpRegister a c f => bus_roster_register r a c f
  | OpUnregister a => let '(r, b, n) := bus_roster_unregister r a in (r, Z.b2z b, n)
  | OpClear => let r := bus_roster_clear r in (r, 0, bus_roster_count r)
  end.

Definition msize (m : gmap Z bus_slave_t) : Z := Z.of_nat (size m).

Definition spec_exec (m : gmap Z bus_slave_t) (o : roster_op) : gmap Z bus_slave_t * Z * Z :=
  match o with
  | OpRegister a c f =>
      if negb (addr_valid a) then (m, BUS_REG_BADADDR, msize m)
      else match m !! a with
      | Some _ => (m, BUS_REG_DUP, msize m)
      | None =>
          if 32 <=? msize m then (m, BUS_REG_FULL, msize m)
          else let m := <[a := mk_slave a c f BUS_STATE_UNKNOWN 0 0]> m in
               (m, BUS_REG_OK, msize m)
      end
  | OpUnregister a =>
      let m' := delete a m in (m', Z.b2z (bool_decide (is_Some (m !! a))), msize m')
  | OpClear => (∅, 0, 0)
  end.

Fixpoint roster_run (r : roster_t) (os : list roster_op) : roster_t * list (Z * Z) :=
  match os with
  | [] => (r, [])
  | o :: os =>
      let '(r, code, n) := roster_exec r o in
      let '(r, l) := roster_run r os in (r, (code, n) :: l)
  end.
Fixpoint spec_run (m : gmap Z bus_slave_t) (os : list roster_op)
    : gmap Z bus_slave_t * list (Z * Z) :=
  match os with
  | [] => (m, [])
  | o :: os =>
      let '(m, code, n) := spec_exec m o in
      let '(m, l) := spec_run m os in (m, (code, n) :: l)
  end.

(** Sample rosters for the examples. *)
Definition empty_roster : roster_t :=
  bus_roster_init (mk_roster (replicate 32 (mk_slave 0 0 0 0 0 0)) 0 (mk_cfg 0 0 0 0 0)).

Definition sample_roster : roster_t :=
  (roster_run empty_roster [OpRegister 5 0 2; OpRegister 9 0 0; OpRegister 7 0 3]).1.

(** ** Lemmas *)
Lemma entries_of_app l k : entries_of (l ++ k) = entries_of l ++ entries_of k.
Proof. unfold entries_of. by rewrite filter_app, map_app. Qed.

Lemma entries_of_cons s l :
  entries_of (s :: l) = if occupied s then (s_addr s, s) :: entries_of l else entries_of l.
Proof. unfold entries_of. rewrite filter_cons. by destruct (occupied s). Qed.

Lemma entries_of_lookup l a :
  a ∈ (entries_of l).*1 <-> exists s, s ∈ l /\ s_addr s = a /\ a <> 0.
Proof.
  unfold entries_of, occupied. rewrite list_elem_of_fmap. split.
  - intros ([a' s] & -> & H). apply list_elem_of_fmap in H as (s' & [= -> ->] & H).
    apply list_elem_of_filter in H as [H1 H2]. bools. by exists s'.
  - intros (s & Hs & <- & Hne). exists (s_addr s, s). split; [done|].
    apply list_elem_of_fmap. exists s. split; [done|]. apply list_elem_of_filter.
    split; [|done]. by destruct (Z.eqb_spec (s_addr s) 0).
Qed.

Lemma roster_map_size r : roster_wf r -> msize (roster_map r) = g_count r.
Proof.
  intros [_ Hc Hu _]. unfold msize, roster_map, zlen in *.
  by rewrite map_size_list_to_map.
Qed.

Lemma entries_of_all_free l :
  Forall (fun s => (s_addr s =? 0) = true) l -> entries_of l = [].
Proof.
  induction 1 as [|s l Hs _ IH]; [done|]. rewrite entries_of_cons. unfold occupied.
  by rewrite Hs.
Qed.

Lemma roster_map_Some r a s :
  roster_wf r ->
  roster_map r !! a = Some s <-> s ∈ g_roster r /\ s_addr s = a /\ a <> 0.
Proof.
  intros [_ _ Hu _]. unfold roster_map. rewrite <- elem_of_list_to_map by done.
  unfold roster_entries, entries_of. rewrite list_elem_of_fmap. split.
  - intros (s' & [= -> ->] & H). apply list_elem_of_filter in H as [H1 H2].
    unfold occupied in H1. bools. done.
  - intros (Hs & <- & Hne). exists s. split; [done|]. apply list_elem_of_filter.
    split; [|done]. unfold occupied. by destruct (Z.eqb_spec (s_addr s) 0).
Qed.

Lemma bus_roster_find_Some r a i :
  roster_wf r -> bus_roster_find r a = Some i ->
  exists s, g_roster r !! i = Some s /\ roster_map r !! a = Some s.
Proof.
  intros Hwf. unfold bus_roster_find. destruct (Z.eqb_spec a 0); [done|]. intros H.
  apply find_index_Some in H as (l1 & s & l2 & Hl & -> & Hs & _). bools.
  exists s. split.
  - rewrite Hl. by apply list_lookup_middle.
  - apply roster_map_Some; [done|]. split_and!; [|done|done]. rewrite Hl. set_solver.
Qed.

Lemma bus_roster_find_None r a :
  roster_wf r -> bus_roster_find r a = None -> roster_map r !! a = None.
Proof.
  intros Hwf. unfold bus_roster_find. intros H. apply eq_None_not_Some. intros [s Hs].
  apply roster_map_Some in Hs as (Hin & Ha & Hne); [|done].
  destruct (Z.eqb_spec a 0); [done|].
  apply find_index_None in H. rewrite Forall_forall in H. specialize (H s Hin). simpl in H.
  bools. done.
Qed.

(** Two slot arrays that hold the same entries in another order. *)
Lemma roster_map_perm r l :
  NoDup (roster_entries r).*1 -> Permutation (roster_entries r) l ->
  roster_map r = list_to_map l.
Proof. intros Hu Hp. unfold roster_map. by apply list_to_map_proper. Qed.

(** Slot [l1] long changes from [s] to [s']: what the entries become. *)
Lemma entries_of_mid l1 s l2 :
  Permutation (entries_of (l1 ++ s :: l2))
    (entries_of [s] ++ entries_of (l1 ++ l2)).
Proof.
  rewrite !entries_of_app. change (s :: l2) with ([s] ++ l2). rewrite entries_of_app.
  by rewrite !(assoc_L (++)), (Permutation_app_comm (entries_of l1)).
Qed.

Lemma entries_replace l1 s s' l2 :
  Permutation (entries_of (l1 ++ s' :: l2)) (entries_of [s'] ++ entries_of (l1 ++ l2)) /\
  Permutation (entries_of (l1 ++ s :: l2)) (entries_of [s] ++ entries_of (l1 ++ l2)).
Proof. split; apply entries_of_mid. Qed.

Lemma roster_map_fresh r a : roster_map r !! a = None -> a ∉ (roster_entries r).*1.
Proof. apply not_elem_of_list_to_map_2. Qed.

Lemma insert_slot_refines r l1 s0 l2 s :
  roster_wf r -> g_roster r = l1 ++ s0 :: l2 -> s_addr s0 = 0 ->
  addr_valid (s_addr s) = true -> roster_map r !! s_addr s = None -> g_count r < 32 ->
  let r' := r <| g_roster := l1 ++ s :: l2 |> <| g_count := u8 (g_count r + 1) |> in
  roster_wf r' /\ roster_map r' = <[s_addr s := s]> (roster_map r).
Proof.
  intros Hwf Hl H0 Hv Hn Hc r'. pose proof Hwf as [Hs Hcnt Hu Ha].
  assert (Hocc : occupied s = true).
  { unfold occupied, addr_valid, BUS_ADDR_SLAVE_MIN in *. bools.
    by destruct (Z.eqb_spec (s_addr s) 0); [lia|]. }
  destruct (entries_replace l1 s0 s l2) as [Hp' Hp].
  rewrite !entries_of_cons, Hocc in Hp'.
  rewrite entries_of_cons in Hp. unfold occupied in Hp at 1. rewrite H0 in Hp. simpl in *.
  rewrite <- Hl in Hp. fold (roster_entries r) in Hp. rewrite <- Hp in Hp'.
  pose proof (roster_map_fresh r _ Hn) as Hfresh.
  assert (Hu' : NoDup ((s_addr s, s) :: roster_entries r).*1) by (simpl; by constructor).
  split.
  - split; unfold r'; simpl.
    + rewrite Hl in Hs. unfold zlen in *. rewrite length_app in *. done.
    + pose proof (Permutation_length Hp') as Hlen. simpl in Hlen.
      change (roster_entries _) with (entries_of (l1 ++ s :: l2)).
      rewrite Hcnt in *. unfold zlen in *. rewrite Hlen, u8_id; [lia|].
      unfold fits. change (2 ^ 8) with 256. lia.
    + change (roster_entries _) with (entries_of (l1 ++ s :: l2)). by rewrite Hp'.
    + rewrite Hl in Ha. apply Forall_app in Ha as [? Ha]. apply Forall_cons in Ha as [? ?].
      apply Forall_app. split; [done|]. by constructor.
  - change (roster_map r') with (list_to_map (M := gmap Z bus_slave_t) (entries_of (l1 ++ s :: l2))).
    rewrite (list_to_map_proper _ ((s_addr s, s) :: roster_entries r)); [done| |done].
    by rewrite Hp'.
Qed.

Lemma delete_slot_refines r l1 s l2 a :
  roster_wf r -> g_roster r = l1 ++ s :: l2 -> s_addr s = a -> a <> 0 ->
  let r' := r <| g_roster := l1 ++ (s <| s_addr := 0 |>) :: l2 |>
              <| g_count := u8 (g_count r - 1) |> in
  roster_wf r' /\ roster_map r' = delete a (roster_map r).
Proof.
  intros Hwf Hl Hsa Hne r'. pose proof Hwf as [Hs Hcnt Hu Ha].
  destruct (entries_replace l1 s (s <| s_addr := 0 |>) l2) as [Hp' Hp].
  rewrite entries_of_cons in Hp', Hp. unfold occupied in Hp at 1, Hp' at 1.
  rewrite Hsa in Hp. destruct (Z.eqb_spec a 0); [done|]. simpl in *.
  rewrite <- Hl in Hp. fold (roster_entries r) in Hp. rewrite <- Hp' in Hp.
  rewrite Hp in Hu. simpl in Hu. apply NoDup_cons in Hu as [Hnin Hu'].
  pose proof (Permutation_length Hp) as Hlen. simpl in Hlen.
  split.
  - split; unfold r'; simpl.
    + rewrite Hl in Hs. unfold zlen in *. rewrite length_app in *. done.
    + change (roster_entries _) with (entries_of (l1 ++ (s <| s_addr := 0 |>) :: l2)).
      rewrite Hcnt. usimpl. rewrite u8_id; unfold zlen in *; [lia|].
      unfold fits. change (2 ^ 8) with 256.
      assert (length (roster_entries r) <= length (g_roster r))%nat.
      { unfold roster_entries, entries_of. rewrite length_map. apply length_filter. }
      unfold BUS_ROSTER_MAX in *. lia.
    + done.
    + rewrite Hl in Ha. apply Forall_app in Ha as [? Ha]. apply Forall_cons in Ha as [? ?].
      apply Forall_app. split; [done|]. constructor; [|done]. done.
  - rewrite (roster_map_perm r _ (rw_unique r Hwf) Hp). simpl.
    unfold roster_map, roster_entries. simpl. rewrite delete_insert_id; [done|].
    by apply not_elem_of_list_to_map_1.
Qed.

Lemma roster_free_slot r :
  roster_wf r -> g_count r < 32 ->
  exists i, find_index (fun s => s_addr s =? 0) (g_roster r) = Some i.
Proof.
  intros [Hs Hc _ _] Hlt. destruct (find_index _ _) as [i|] eqn:E; [by exists i|].
  apply find_index_None in E. rewrite Hc in Hlt.
  assert (Hall : length (entries_of (g_roster r)) = length (g_roster r)).
  { clear -E. induction E as [|s l Hs _ IH]; [done|].
    rewrite entries_of_cons. unfold occupied. rewrite Hs. simpl. by rewrite IH. }
  unfold roster_entries, zlen, BUS_ROSTER_MAX in *. lia.
Qed.

Lemma roster_clear_wf r :
  zlen (g_roster r) = BUS_ROSTER_MAX ->
  roster_wf (bus_roster_clear r) /\ roster_map (bus_roster_clear r) = ∅.
Proof.
  intros Hs.
  assert (He : roster_entries (bus_roster_clear r) = []).
  { apply entries_of_all_free. simpl. apply Forall_map. by apply Forall_true. }
  split; [split|unfold roster_map; by rewrite He]; rewrite ?He; try done.
  - unfold zlen in *. simpl. by rewrite length_map.
  - constructor.
  - simpl. apply Forall_map. by apply Forall_true.
Qed.

Lemma roster_exec_refines r o :
  roster_wf r ->
  let '(r', c, n) := roster_exec r o in
  roster_wf r' /\ (roster_map r', c, n) = spec_exec (roster_map r) o.
Proof.
  intros Hwf. pose proof (roster_map_size r Hwf) as Hsz. destruct o as [a c f|a| ]; simpl.
  - unfold bus_roster_register. rewrite Hsz. destruct (addr_valid a) eqn:Hv; simpl; [|done].
    destruct (bus_roster_find r a) as [i|] eqn:Hf.
    + rewrite bool_decide_eq_true_2 by done.
      destruct (bus_roster_find_Some r a i Hwf Hf) as (s & _ & ->). done.
    + rewrite bool_decide_eq_false_2 by (by intros [? ?]).
      pose proof (bus_roster_find_None r a Hwf Hf) as Hn. rewrite Hn.
      unfold BUS_ROSTER_MAX. destruct (Z.leb_spec 32 (g_count r)); [done|].
      destruct (roster_free_slot r Hwf ltac:(done)) as [i Hi]. rewrite Hi.
      apply find_index_Some in Hi as (l1 & s0 & l2 & Hl & -> & H0 & _). bools.
      set (s := mk_slave a c f _ _ _).
      destruct (insert_slot_refines r l1 s0 l2 s) as [Hwf' Hm]; try done.
      usimpl. rewrite Hl, insert_app_r_alt, Nat.sub_diag by lia. simpl.
      split; [done|]. rewrite Hm, <- Hm. do 2 f_equal.
      rewrite Hm. rewrite (roster_map_size _ Hwf') || (rewrite <- Hm, (roster_map_size _ Hwf')).
      done.
  - unfold bus_roster_unregister. destruct (bus_roster_find r a) as [i|] eqn:Hf.
    + destruct (bus_roster_find_Some r a i Hwf Hf) as (s & Hi & Hma).
      pose proof Hma as Hma'. apply roster_map_Some in Hma' as (_ & Hsa & Hne); [|done].
      pose proof (list_elem_of_split_length _ _ _ Hi) as (l1 & l2 & Hl & ->).
      destruct (delete_slot_refines r l1 s l2 a) as [Hwf' Hm]; try done.
      usimpl. rewrite Hl, alter_app_r_alt, Nat.sub_diag by lia. simpl.
      split; [done|]. rewrite Hm. rewrite bool_decide_eq_true_2 by by eexists.
      by rewrite <- Hm, (roster_map_size _ Hwf').
    + assert (Hn : roster_map r !! a = None) by by apply bus_roster_find_None.
      rewrite delete_id, Hsz, bool_decide_eq_false_2 by (rewrite ?Hn; by try intros [? ?]).
      done.
  - destruct (roster_clear_wf r) as [H1 H2]; [apply Hwf|]. by rewrite H2.
Qed.

(** ** The round-robin iterator *)
#[local] Arguments Nat.modulo : simpl never.

Lemma rotation_perm c : (c <= 32)%nat -> Permutation (rotation c) (seq 0 32).
Proof.
  intros Hc. unfold rotation. rewrite Permutation_app_comm.
  replace 32%nat with (c + (32 - c))%nat at 2 by lia. by rewrite seq_app.
Qed.

(** The [i]-th turn of the loop looks at the [i]-th slot of the rotation. *)
Lemma rotation_lookup c i :
  (c < 32)%nat -> (i < 32)%nat -> rotation c !! i = Some ((c + i) mod 32)%nat.
Proof.
  intros Hc Hi. unfold rotation. destruct (decide (i < 32 - c)%nat) as [H|H].
  - rewrite lookup_app_l by (rewrite length_seq; lia).
    rewrite lookup_seq_lt by lia. f_equal. rewrite Nat.mod_small; lia.
  - rewrite lookup_app_r by (rewrite length_seq; lia). rewrite length_seq.
    rewrite lookup_seq_lt by lia. f_equal.
    replace (c + i)%nat with (c + i - 32 + 1 * 32)%nat by lia.
    rewrite Nat.Div0.mod_add, Nat.mod_small; lia.
Qed.

(** The rotation that starts after slot [x] is this one turned past [x]:
    checked for the 32 cursors and 32 positions. *)
Lemma rotation_turn_at c k :
  (c < 32)%nat -> (k < 32)%nat ->
  rotation (((c + k) mod 32 + 1) mod 32) = drop (S k) (rotation c) ++ take (S k) (rotation c).
Proof.
  assert (Hb : forallb (fun c => forallb (fun k => bool_decide
    (rotation (((c + k) mod 32 + 1) mod 32) =
     drop (S k) (rotation c) ++ take (S k) (rotation c))) (seq 0 32)) (seq 0 32) = true)
    by (vm_compute; reflexivity).
  intros Hc Hk. rewrite forallb_forall in Hb.
  specialize (Hb c ltac:(apply in_seq; lia)). rewrite forallb_forall in Hb.
  specialize (Hb k ltac:(apply in_seq; lia)). by apply bool_decide_eq_true in Hb.
Qed.

Lemma rotation_turn c pre x post :
  (c < 32)%nat -> rotation c = pre ++ x :: post ->
  x = ((c + length pre) mod 32)%nat /\ (length pre < 32)%nat /\
  rotation ((x + 1) mod 32) = post ++ pre ++ [x].
Proof.
  intros Hc H.
  assert (Hl : length (rotation c) = 32%nat)
    by (unfold rotation; rewrite length_app, !length_seq; lia).
  pose proof Hl as Hl'. rewrite H, length_app in Hl'. simpl in Hl'.
  assert (Hp : (length pre < 32)%nat) by lia.
  pose proof (rotation_lookup c (length pre) Hc Hp) as Hk.
  rewrite H, list_lookup_middle in Hk by done.
  assert (Hx : x = ((c + length pre) mod 32)%nat) by congruence.
  split_and!; [done|done|]. rewrite Hx at 1.
  rewrite rotation_turn_at, H by done.
  replace (S (length pre)) with (length (pre ++ [x])) by (rewrite length_app; simpl; lia).
  replace (pre ++ x :: post) with ((pre ++ [x]) ++ post) by by rewrite <- (assoc_L (++)).
  by rewrite drop_app_length, take_app_length.
Qed.

Lemma slot_at r i :
  roster_wf r -> (i < 32)%nat ->
  exists s, g_roster r !! i = Some s /\ slot_is_enabled r i = slot_enabled s.
Proof.
  intros [Hs _ _ _] Hi. unfold BUS_ROSTER_MAX, zlen in Hs.
  destruct (lookup_lt_is_Some_2 (g_roster r) i ltac:(lia)) as [s E].
  exists s. split; [done|]. unfold slot_is_enabled. by rewrite E.
Qed.

(** The loop, run over the rest of the rotation. *)
Lemma next_enabled_from_spec r c pre post :
  roster_wf r -> (c < 32)%nat -> rotation c = pre ++ post ->
  next_enabled_from r (Z.of_nat c) (zlen pre) (length post) =
  match find_index (slot_is_enabled r) post with
  | Some k => let i := ((c + (length pre + k)) mod 32)%nat in
              (Some i, Z.of_nat ((i + 1) mod 32))
  | None => (None, Z.of_nat c)
  end.
Proof.
  intros Hwf Hc. revert pre. induction post as [|x post IH]; intros pre H; [done|].
  destruct (rotation_turn c pre x post Hc H) as (Hx & Hp & _). simpl length.
  cbn [next_enabled_from find_index].
  assert (Hi : u8 ((Z.of_nat c + zlen pre) mod BUS_ROSTER_MAX) = Z.of_nat x).
  { unfold zlen, BUS_ROSTER_MAX. rewrite <- Nat2Z.inj_add, <- (Nat2Z.inj_mod _ 32), <- Hx.
    apply u8_id. unfold fits. change (2 ^ 8) with 256.
    pose proof (Nat.mod_upper_bound (c + length pre) 32). lia. }
  rewrite Hi, Nat2Z.id.
  assert (Hx32 : (x < 32)%nat) by (rewrite Hx; apply Nat.mod_upper_bound; lia).
  destruct (slot_at r x Hwf Hx32) as (s & -> & ->). destruct (slot_enabled s).
  - rewrite Nat.add_0_r, <- Hx. f_equal. unfold BUS_ROSTER_MAX.
    rewrite Nat2Z.inj_mod, Nat2Z.inj_add. apply u8_id.
    pose proof (Z.mod_pos_bound (Z.of_nat x + 1) 32 ltac:(done)).
    unfold fits. change (2 ^ 8) with 256. change (Z.of_nat 32) with 32. lia.
  - replace (zlen pre + 1) with (zlen (pre ++ [x])) by (unfold zlen; rewrite length_app; simpl; lia).
    rewrite IH by (by rewrite <- (assoc_L (++))).
    destruct (find_index (slot_is_enabled r) post) as [k|]; simpl; [|done].
    rewrite length_app. simpl.
    by replace (length pre + 1 + k)%nat with (length pre + S k)%nat by lia.
Qed.

(** One call: the head of the enabled rotation, and the cursor turned past it. *)
Lemma next_enabled_head r c :
  roster_wf r -> (c < 32)%nat ->
  match enabled_from r c with
  | [] => bus_roster_next_enabled r (Z.of_nat c) = (None, Z.of_nat c)
  | x :: l => exists c', (c' < 32)%nat /\
      bus_roster_next_enabled r (Z.of_nat c) = (Some x, Z.of_nat c') /\
      enabled_from r c' = l ++ [x]
  end.
Proof.
  intros Hwf Hc.
  assert (Hl : length (rotation c) = Z.to_nat BUS_ROSTER_MAX)
    by (change (Z.to_nat BUS_ROSTER_MAX) with 32%nat; unfold rotation;
        rewrite length_app, !length_seq; lia).
  pose proof (next_enabled_from_spec r c [] (rotation c) Hwf Hc eq_refl) as Hn.
  rewrite Hl in Hn. change (zlen []) with 0 in Hn. fold (bus_roster_next_enabled r (Z.of_nat c)) in Hn.
  unfold enabled_from. destruct (find_index (slot_is_enabled r) (rotation c)) as [k|] eqn:Hf.
  - apply find_index_Some in Hf as (pre & x & post & Hr & -> & Hx & Hpre).
    destruct (rotation_turn c pre x post Hc Hr) as (Hxe & Hp & Ht).
    rewrite Hr, filter_app, filter_none, filter_cons_True by done. simpl.
    exists ((x + 1) mod 32)%nat. split_and!.
    + apply Nat.mod_upper_bound. lia.
    + rewrite Hn. simpl. by rewrite <- Hxe.
    + by rewrite Ht, !filter_app, (filter_none _ pre), filter_cons_True, filter_nil.
  - apply find_index_None in Hf. by rewrite filter_none.
Qed.

Lemma poll_order_prefix r c l1 l2 :
  roster_wf r -> (c < 32)%nat -> enabled_from r c = l1 ++ l2 ->
  exists c', (c' < 32)%nat /\ poll_order r (Z.of_nat c) (length l1) = (l1, Z.of_nat c') /\
    enabled_from r c' = l2 ++ l1.
Proof.
  intros Hwf. revert c l2. induction l1 as [|x l1 IH]; intros c l2 Hc H.
  - exists c. by rewrite app_nil_r.
  - pose proof (next_enabled_head r c Hwf Hc) as Hn. rewrite H in Hn. simpl in Hn.
    destruct Hn as (c1 & Hc1 & Hn & H1). rewrite <- (assoc_L (++)) in H1.
    destruct (IH c1 (l2 ++ [x]) Hc1 H1) as (c2 & Hc2 & Hp & H2).
    exists c2. simpl. rewrite Hn, Hp. split_and!; try done.
    rewrite H2. by rewrite <- (assoc_L (++)).
Qed.

(** ** Properties *)

(** C32. Refinement: from any well-formed roster, every sequence of register,
    unregister and clear calls keeps the 32-slot array well formed (distinct
    valid addresses, counter equal to the number of occupied slots), and its
    result codes, out-counts and final contents are those of a finite map from
    address to node with capacity 32; in particular FULL is returned exactly at
    32 nodes and DUP exactly for a registered address. *)
Theorem roster_refines_map r os :
  roster_wf r ->
  let '(r', res) := roster_run r os in
  roster_wf r' /\ spec_run (roster_map r) os = (roster_map r', res).
Proof.
  revert r. induction os as [|o os IH]; intros r Hwf; [done|]. simpl.
  pose proof (roster_exec_refines r o Hwf) as H.
  destruct (roster_exec r o) as [[r1 c] n]. destruct H as [Hwf1 <-].
  specialize (IH r1 Hwf1). destruct (roster_run r1 os) as [r2 res].
  destruct IH as [Hwf2 ->]. done.
Qed.

Lemma empty_roster_wf : roster_wf empty_roster.
Proof. split; vm_decide. Qed.

Lemma roster_refines_map_witness :
  let '(r', res) := roster_run empty_roster
    [OpRegister 5 0 2; OpRegister 5 1 2; OpRegister 127 0 0; OpUnregister 5; OpUnregister 5] in
  roster_wf r' /\ res = [(0, 1); (2, 1); (3, 1); (1, 0); (0, 0)].
Proof.
  pose proof (roster_refines_map empty_roster
    [OpRegister 5 0 2; OpRegister 5 1 2; OpRegister 127 0 0; OpUnregister 5; OpUnregister 5]
    empty_roster_wf) as H.
  destruct (roster_run _ _) as [r' res] eqn:E. destruct H as [Hwf _].
  split; [exact Hwf|]. apply (f_equal snd) in E. vm_compute in E. by rewrite <- E.
Defined.

(** Round-robin fairness: from any cursor, as many calls of the iterator as
    there are enabled nodes visit each enabled slot exactly once, in cyclic
    slot order, and leave the iterator where the same order repeats; with no
    enabled node the iterator returns nothing and does not move. *)
Theorem roster_round_robin r c :
  roster_wf r -> (c < 32)%nat ->
  let round := enabled_from r c in
  Permutation round (filter (fun i => slot_is_enabled r i = true) (seq 0 32)) /\
  (exists c', (c' < 32)%nat /\
     poll_order r (Z.of_nat c) (length round) = (round, Z.of_nat c') /\
     enabled_from r c' = round) /\
  (round = [] -> bus_roster_next_enabled r (Z.of_nat c) = (None, Z.of_nat c)).
Proof.
  intros Hwf Hc round. split_and!.
  - unfold round, enabled_from. by rewrite rotation_perm by lia.
  - destruct (poll_order_prefix r c round [] Hwf Hc) as (c' & ? & ? & ?);
      [by rewrite app_nil_r|]. by exists c'.
  - intros He. pose proof (next_enabled_head r c Hwf Hc) as Hn.
    unfold round in He. by rewrite He in Hn.
Qed.

Lemma roster_round_robin_witness :
  roster_wf sample_roster /\
  exists c', poll_order sample_roster 1 2 = ([2; 0]%nat, Z.of_nat c').
Proof.
  assert (Hwf : roster_wf sample_roster).
  { split; vm_decide. }
  split; [exact Hwf|].
  destruct (roster_round_robin sample_roster 1 Hwf ltac:(lia)) as (_ & (c' & _ & Hp & _) & _).
  exists c'. exact Hp.
Defined.
