(* ===== verification/BusNode.v ===== *)
(** The slave-side bus logic ([core/bus_node.h], [core/bus_node.c]): the
    outbound queue, the grant window and the receive task. The application hook
    [bus_node_on_data] is an interface (a typeclass). *)
From S2P Require Import Prelude BusFrame.

Definition NODE_TXQ_LEN : Z := 8.

Record node_txq_slot_t := mk_nslot { q_frame : bus_frame_t; q_in_use : bool }.
#[export] Instance eta_node_txq_slot_t : Settable node_txq_slot_t := fun s =>
  mk_nslot (q_frame s) (q_in_use s).

(** The file's statics [g_txq], [g_asm], [g_my_addr]. *)
Record node_t := mk_node { n_txq : list node_txq_slot_t; n_asm : bus_asm_t; n_my_addr : Z }.
#[export] Instance eta_node_t : Settable node_t := fun n =>
  mk_node (n_txq n) (n_asm n) (n_my_addr n).

Definition bus_node_init (n : node_t) (my_addr : Z) : node_t :=
  n <| n_my_addr := my_addr |>
    <| n_txq ::= map (fun s => s <| q_in_use := false |>) |>
    <| n_asm ::= fun a => bus_asm_init a my_addr false |>.

(** A frame object filled in place: header stores and the copy loop
    [for (b = 0; b < len; ++b) payload[b] = src[b]]. *)
Definition frame_fill (f : bus_frame_t) (dest src type seq len : Z) (payload : list Z)
    : bus_frame_t :=
  mk_frame dest src type seq len
    (take (Z.to_nat len) payload ++ drop (Z.to_nat len) (f_payload f)).

(** Returns the new state and the C result ([false]: too long, or queue full). *)
Definition bus_node_queue (n : node_t) (dest type : Z) (payload : list Z) (len : Z)
    : node_t * bool :=
  if BUS_PAYLOAD_MAX <? len then (n, false)
  else
    match find_index (fun s => negb (q_in_use s)) (n_txq n) with
    | Some i =>
        (n <| n_txq ::= alter (fun s =>
               mk_nslot (frame_fill (q_frame s) dest (n_my_addr n) type 0 len payload) true) i |>,
         true)
    | None => (n, false)
    end.

(** Every [bus_phy_send_words] call is one element of the output: the words sent. *)
Definition node_emit_ack (n : node_t) : list (list Z) :=
  [bus_frame_encode (frame_header BUS_ADDR_MASTER (n_my_addr n) BUS_FT_ACK 0)].

(** The loop over the queue: each slot in use is sent and released. *)
Fixpoint emit_slots (q : list node_txq_slot_t) : list node_txq_slot_t * list (list Z) :=
  match q with
  | [] => ([], [])
  | s :: q =>
      let '(q, out) := emit_slots q in
      if negb (q_in_use s) then (s :: q, out)
      else (s <| q_in_use := false |> :: q, bus_frame_encode (q_frame s) :: out)
  end.

Definition node_emit_window (n : node_t) : node_t * list (list Z) :=
  let '(q, out) := emit_slots (n_txq n) in
  (n <| n_txq := q |>,
   out ++ [bus_frame_encode (frame_header BUS_ADDR_MASTER (n_my_addr n) BUS_FT_NO_MESSAGE 0)]).

(** What the application may do to the bus state from [bus_node_on_data]: a
    sequence of [bus_node_queue] calls. *)
Record queue_call := mk_call { k_dest : Z; k_type : Z; k_payload : list Z; k_len : Z }.
Definition do_call (n : node_t) (k : queue_call) : node_t :=
  (bus_node_queue n (k_dest k) (k_type k) (k_payload k) (k_len k)).1.

(** A queue call a C caller can make: byte arguments, and an array of at least
    [len] bytes behind the payload pointer. *)
Record call_ok (k : queue_call) : Prop := {
  ck_dest : fits 8 (k_dest k); ck_type : fits 8 (k_type k); ck_len : fits 8 (k_len k);
  ck_array : k_len k <= zlen (k_payload k); ck_bytes : bytes_ok (k_payload k)
}.

(** The application, with its own state [W]: the hook returns the new application
    state and the queue calls it made. *)
Class NodeApp (W : Type) := node_on_data : W -> Z -> list Z -> Z -> W * list queue_call.

(** The default (weak) hook of [bus_node.c]. *)
Definition weak_on_data : NodeApp unit := fun w _ _ _ => (w, []).

(** What the bus logic relies on: the hook's calls are ones C can make. *)
Class NodeAppOk (W : Type) `{!NodeApp W} := on_data_calls_ok w f :
  frame_wf f -> Forall call_ok (node_on_data w (f_src f) (f_payload f) (f_len f)).2.

Section Task.
  Context {W : Type} `{App : !NodeApp W}.

(** The body of the receive loop for one completed frame. *)
Definition node_handle (w : W) (n : node_t) (f : bus_frame_t) : W * node_t * list (list Z) :=
  let cls := Z.land (f_type f) BUS_FT_MASK in
  if cls =? BUS_FT_DATA then
    let '(w, calls) := node_on_data w (f_src f) (f_payload f) (f_len f) in
    let n := foldl do_call n calls in
    let out := if (f_src f =? BUS_ADDR_MASTER) && (f_dest f =? n_my_addr n)
               then node_emit_ack n else [] in
    (w, n, out)
  else if (cls =? BUS_FT_POLL) && (f_dest f =? n_my_addr n) then
    let '(n, out) := node_emit_window n in (w, n, out)
  else (w, n, []).

(** [bus_node_task] over the words the PHY's ring holds. *)
Fixpoint bus_node_task (w : W) (n : node_t) (rx : list Z) : W * node_t * list (list Z) :=
  match rx with
  | [] => (w, n, [])
  | word9 :: rx =>
      let '(a, o) := bus_asm_feed (n_asm n) word9 in
      let n := n <| n_asm := a |> in
      match o with
      | None => bus_node_task w n rx
      | Some f =>
          let '(w, n, out) := node_handle w n f in
          let '(w, n, outs) := bus_node_task w n rx in
          (w, n, out ++ outs)
      end
  end.

(** The same loop over frames already assembled. *)
Fixpoint node_handle_all (w : W) (n : node_t) (fs : list bus_frame_t)
    : W * node_t * list (list Z) :=
  match fs with
  | [] => (w, n, [])
  | f :: fs =>
      let '(w, n, out) := node_handle w n f in
      let '(w, n, outs) := node_handle_all w n fs in (w, n, out ++ outs)
  end.
End Task.

(** [f] gives the node at [addr] the right to talk: a POLL for it, or a DATA
    frame of the master for it (answered by an ACK). *)
Definition grants (addr : Z) (f : bus_frame_t) : bool :=
  (f_dest f =? addr) &&
  ((Z.land (f_type f) BUS_FT_MASK =? BUS_FT_POLL) ||
   ((Z.land (f_type f) BUS_FT_MASK =? BUS_FT_DATA) && (f_src f =? BUS_ADDR_MASTER))).

(** ** Abstract view: the frames waiting for the next window, oldest first *)
Definition txq_frames (n : node_t) : list bus_frame_t :=
  map q_frame (filter (fun s => q_in_use s = true) (n_txq n)).

(** The slots in use are a prefix of the array: this is what makes first-free
    allocation and in-order transmission a FIFO. *)
Record node_wf (n : node_t) : Prop := {
  nw_slots : zlen (n_txq n) = NODE_TXQ_LEN;
  nw_prefix : exists k, map q_in_use (n_txq n) = replicate k true ++ replicate (8 - k) false;
  nw_frames : Forall (fun s => frame_wf (q_frame s)) (n_txq n);
  nw_asm : asm_wf (n_asm n);
  nw_addr : BUS_ADDR_SLAVE_MIN <= n_my_addr n <= BUS_ADDR_SLAVE_MAX;
  nw_same : a_my_addr (n_asm n) = n_my_addr n;
  nw_promisc : a_promiscuous (n_asm n) = false
}.

(** The message a call asks to send. *)
Definition call_frame (n : node_t) (k : queue_call) : bus_frame_t :=
  frame_fill (frame_header 0 0 0 0) (k_dest k) (n_my_addr n) (k_type k) 0 (k_len k) (k_payload k).

(** ** The FIFO specification: a bounded list. *)
Definition fifo_push (q : list bus_frame_t) (f : bus_frame_t) : list bus_frame_t :=
  if Z.of_nat (length q) <? NODE_TXQ_LEN then q ++ [f] else q.

(** The node driven by its two clients: the application queues, the bus grants a
    window. Each operation's observable: the boolean, or the words sent. *)
Inductive node_op := OpQueue (k : queue_call) | OpWindow.
Inductive node_obs := ObsQueued (b : bool) | ObsSent (ws : list (list Z)).

Definition node_exec (n : node_t) (o : node_op) : node_t * node_obs :=
  match o with
  | OpQueue k =>
      let '(n, b) := bus_node_queue n (k_dest k) (k_type k) (k_payload k) (k_len k) in
      (n, ObsQueued b)
  | OpWindow => let '(n, out) := node_emit_window n in (n, ObsSent out)
  end.
Fixpoint node_exec_all (n : node_t) (os : list node_op) : node_t * list node_obs :=
  match os with
  | [] => (n, [])
  | o :: os => let '(n, v) := node_exec n o in
               let '(n, vs) := node_exec_all n os in (n, v :: vs)
  end.

Definition no_message (addr : Z) : bus_frame_t :=
  frame_header BUS_ADDR_MASTER addr BUS_FT_NO_MESSAGE 0.

Definition fifo_exec (addr : Z) (q : list bus_frame_t) (o : node_op)
    : list bus_frame_t * node_obs :=
  match o with
  | OpQueue k =>
      if (k_len k <=? BUS_PAYLOAD_MAX) && (Z.of_nat (length q) <? NODE_TXQ_LEN)
      then (q ++ [frame_fill (frame_header 0 0 0 0) (k_dest k) addr (k_type k) 0
                    (k_len k) (k_payload k)], ObsQueued true)
      else (q, ObsQueued false)
  | OpWindow => ([], ObsSent (map bus_frame_encode (q ++ [no_message addr])))
  end.
Fixpoint fifo_exec_all (addr : Z) (q : list bus_frame_t) (os : list node_op)
    : list bus_frame_t * list node_obs :=
  match os with
  | [] => (q, [])
  | o :: os => let '(q, v) := fifo_exec addr q o in
               let '(q, vs) := fifo_exec_all addr q os in (q, v :: vs)
  end.

Definition op_ok (o : node_op) : Prop := match o with OpQueue k => call_ok k | OpWindow => True end.

(** A node at address 5 and a call, for the examples. *)
Definition sample_node : node_t :=
  bus_node_init (mk_node (replicate 8 (mk_nslot (frame_header 0 0 0 0) true)) blank_asm 0) 5.
Definition sample_call (dest b : Z) : queue_call := mk_call dest BUS_FT_DATA [b; 1; 2] 2.

(** ** Lemmas *)
#[global] Arguments bus_node_queue : simpl never.

Lemma encode_equiv f g : f_len f <= BUS_PAYLOAD_MAX -> f ≡ g ->
  bus_frame_encode f = bus_frame_encode g.
Proof.
  intros Hl Hfg. pose proof Hfg as (Hd & Hs & Ht & Hq & Hlen & Hp). unfold bus_frame_encode.
  rewrite <- Hlen. destruct (Z.ltb_spec BUS_PAYLOAD_MAX (f_len f)); [lia|].
  unfold frame_data in Hp. rewrite <- Hlen in Hp.
  assert (Hc : bus_frame_crc (f <| f_len := f_len f |>) = bus_frame_crc (g <| f_len := f_len f |>)).
  { apply bus_frame_crc_proper. destruct f, g. simpl in *. subst. by split_and!. }
  by rewrite Hd, Hs, Ht, Hq, Hp, Hc.
Qed.

Lemma frame_fill_data f dest src type seq len payload :
  0 <= len <= zlen payload ->
  frame_data (frame_fill f dest src type seq len payload) = take (Z.to_nat len) payload.
Proof.
  intros Hl. unfold frame_data, frame_fill, zlen in *. simpl.
  rewrite take_app_le by (rewrite length_take; lia). rewrite take_take. f_equal. lia.
Qed.

Lemma frame_fill_wf f dest src type seq len payload :
  frame_wf f -> fits 8 dest -> fits 8 src -> fits 8 type -> fits 8 seq ->
  0 <= len <= BUS_PAYLOAD_MAX -> len <= zlen payload -> bytes_ok payload ->
  frame_wf (frame_fill f dest src type seq len payload).
Proof.
  intros [_ _ _ _ _ Ha Hb] ? ? ? ? ? ? ?. split; simpl; try done.
  - unfold zlen in *. rewrite length_app, length_take, length_drop. lia.
  - apply Forall_app. split; [by apply Forall_take|by apply Forall_drop].
Qed.

Lemma frame_fill_equiv f g dest src type seq len payload :
  0 <= len <= zlen payload ->
  frame_fill f dest src type seq len payload ≡ frame_fill g dest src type seq len payload.
Proof. intros Hl. split_and!; try done. by rewrite !frame_fill_data. Qed.

Lemma frame_header_wf d s t q :
  fits 8 d -> fits 8 s -> fits 8 t -> fits 8 q -> frame_wf (frame_header d s t q).
Proof. intros. split; simpl; try done. vm_decide. Qed.

Lemma map_replicate_Forall {A B} (f : A -> B) l n b :
  map f l = replicate n b -> Forall (fun x => f x = b) l.
Proof.
  revert n. induction l as [|x l IH]; intros [|n] H; simplify_eq/=; constructor; [done|].
  by apply (IH n).
Qed.

Lemma Forall_map_replicate {A B} (f : A -> B) l b :
  Forall (fun x => f x = b) l -> map f l = replicate (length l) b.
Proof. induction 1 as [|x l Hx _ IH]; [done|]. simpl. by rewrite Hx, IH. Qed.

(** The queue array, split at its first free slot. *)
Lemma txq_split n :
  node_wf n ->
  exists l1 l2, n_txq n = l1 ++ l2 /\ (length l1 + length l2 = 8)%nat /\
    Forall (fun s => q_in_use s = true) l1 /\ Forall (fun s => q_in_use s = false) l2 /\
    txq_frames n = map q_frame l1.
Proof.
  intros [Hl [k Hk] _ _ _ _ _]. unfold zlen, NODE_TXQ_LEN in Hl.
  exists (take k (n_txq n)), (drop k (n_txq n)).
  assert (Hm : map q_in_use (take k (n_txq n)) = replicate k true /\
               map q_in_use (drop k (n_txq n)) = replicate (8 - k) false).
  { rewrite <- firstn_map, <- skipn_map, Hk.
    rewrite take_app_length', drop_app_length' by by rewrite length_replicate. done. }
  destruct Hm as [Hm1 Hm2].
  assert (H1 : Forall (fun s => q_in_use s = true) (take k (n_txq n)))
    by by apply map_replicate_Forall in Hm1.
  assert (H2 : Forall (fun s => q_in_use s = false) (drop k (n_txq n)))
    by by apply map_replicate_Forall in Hm2.
  split_and!; try done.
  - by rewrite take_drop.
  - rewrite <- length_app, take_drop. lia.
  - unfold txq_frames. rewrite <- (take_drop k (n_txq n)) at 1.
    by rewrite filter_app, (filter_none _ (drop k _)), app_nil_r, filter_all.
Qed.

Lemma node_wf_intro n l1 l2 :
  n_txq n = l1 ++ l2 -> (length l1 + length l2 = 8)%nat ->
  Forall (fun s => q_in_use s = true) l1 -> Forall (fun s => q_in_use s = false) l2 ->
  Forall (fun s => frame_wf (q_frame s)) (l1 ++ l2) -> asm_wf (n_asm n) ->
  BUS_ADDR_SLAVE_MIN <= n_my_addr n <= BUS_ADDR_SLAVE_MAX ->
  a_my_addr (n_asm n) = n_my_addr n -> a_promiscuous (n_asm n) = false ->
  node_wf n /\ txq_frames n = map q_frame l1.
Proof.
  intros Hq Hlen H1 H2 Hf ? ? ? ?. split.
  - split; try done.
    + rewrite Hq. unfold zlen, NODE_TXQ_LEN. rewrite length_app. lia.
    + exists (length l1). rewrite Hq, map_app. replace (8 - length l1)%nat with (length l2) by lia.
      by rewrite (Forall_map_replicate _ l1 true), (Forall_map_replicate _ l2 false).
    + by rewrite Hq.
  - unfold txq_frames. by rewrite Hq, filter_app, (filter_none _ l2), app_nil_r, filter_all.
Qed.

Lemma fits_addr a : 0 <= a < 128 -> fits 8 a.
Proof. unfold fits. change (2 ^ 8) with 256. lia. Qed.

(** [bus_node_queue] on every branch. *)
Lemma bus_node_queue_spec n k :
  node_wf n -> call_ok k ->
  let '(n', b) := bus_node_queue n (k_dest k) (k_type k) (k_payload k) (k_len k) in
  node_wf n' /\ n_asm n' = n_asm n /\ n_my_addr n' = n_my_addr n /\
  b = (k_len k <=? BUS_PAYLOAD_MAX) && (Z.of_nat (length (txq_frames n)) <? NODE_TXQ_LEN) /\
  txq_frames n' ≡ (if b then txq_frames n ++ [call_frame n k] else txq_frames n).
Proof.
  intros Hwf [Hd Ht Hl Ha Hb]. pose proof Hwf as [_ _ Hfr Hasm Hadr Hsame Hpr].
  destruct (txq_split n Hwf) as (l1 & l2 & Hq & Hlen & H1 & H2 & ->).
  unfold bus_node_queue. unfold BUS_PAYLOAD_MAX, NODE_TXQ_LEN. rewrite length_map.
  destruct (Z.ltb_spec 240 (k_len k)) as [Hbig|Hsmall].
  - destruct (Z.leb_spec (k_len k) 240); [lia|]. simpl. split_and!; try done.
    by destruct (node_wf_intro n l1 l2) as [_ ->]; rewrite <- ?Hq.
  - destruct (Z.leb_spec (k_len k) 240); [|lia]. rewrite Hq. destruct l2 as [|s l2].
    + rewrite app_nil_r in *. simpl in Hlen.
      replace (find_index _ l1) with (@None nat).
      2:{ symmetry. apply find_index_None. eapply Forall_impl; [exact H1|]. by intros s ->. }
      destruct (Z.ltb_spec (Z.of_nat (length l1)) 8); [lia|]. simpl. split_and!; try done.
      destruct (node_wf_intro n l1 []) as [_ ->]; rewrite ?app_nil_r; try done;
        simpl; lia || by rewrite <- Hq.
    + simpl in Hlen. apply Forall_cons in H2 as [Hs H2].
      rewrite find_index_app_mid; [|by rewrite Hs|].
      2:{ eapply Forall_impl; [exact H1|]. by intros x ->. }
      destruct (Z.ltb_spec (Z.of_nat (length l1)) 8); [|lia]. usimpl.
      rewrite Hq, alter_app_r_alt, Nat.sub_diag by lia. simpl.
      set (s' := mk_nslot _ true).
      rewrite Hq in Hfr. apply Forall_app in Hfr as [Hf1 Hf2]. apply Forall_cons in Hf2 as [Hfs Hf2].
      destruct (node_wf_intro (mk_node (l1 ++ s' :: l2) (n_asm n) (n_my_addr n)) (l1 ++ [s']) l2)
        as [Hwf' Htx]; simpl; try done.
      * by rewrite <- (assoc_L (++)).
      * rewrite length_app. simpl. lia.
      * apply Forall_app. by split; [|constructor].
      * rewrite <- (assoc_L (++)). apply Forall_app. split; [done|]. constructor; [|done].
        apply frame_fill_wf; try done; try lia.
        -- apply fits_addr. unfold BUS_ADDR_SLAVE_MIN, BUS_ADDR_SLAVE_MAX in *. lia.
        -- unfold BUS_PAYLOAD_MAX, fits in *. lia.
      * split_and!; try done. rewrite Htx, map_app. simpl.
        apply list_equiv_Forall2, Forall2_app; [by apply list_equiv_Forall2|].
        constructor; [|constructor]. apply frame_fill_equiv. unfold fits in *. lia.
Qed.

Lemma emit_slots_spec q :
  emit_slots q =
  (map (fun s => s <| q_in_use := false |>) q,
   map (fun s => bus_frame_encode (q_frame s)) (filter (fun s => q_in_use s = true) q)).
Proof.
  induction q as [|s q IH]; [done|]. simpl. rewrite IH, filter_cons.
  destruct s as [f []]; done.
Qed.

Lemma node_emit_window_spec n :
  node_wf n ->
  let '(n', out) := node_emit_window n in
  node_wf n' /\ n_asm n' = n_asm n /\ n_my_addr n' = n_my_addr n /\
  txq_frames n' = [] /\
  out = map bus_frame_encode (txq_frames n ++ [no_message (n_my_addr n)]).
Proof.
  intros Hwf. pose proof Hwf as [Hl _ Hfr Hasm Hadr Hsame Hpr].
  unfold node_emit_window. rewrite emit_slots_spec. usimpl.
  destruct (node_wf_intro (mk_node (map (fun s => mk_nslot (q_frame s) false) (n_txq n))
    (n_asm n) (n_my_addr n)) [] (map (fun s => mk_nslot (q_frame s) false) (n_txq n)))
    as [Hwf' Htx]; simpl; try done.
  - rewrite length_map. unfold zlen, NODE_TXQ_LEN in Hl. lia.
  - apply Forall_forall. intros s Hs. apply list_elem_of_fmap in Hs as (s' & -> & _). done.
  - apply Forall_forall. intros s Hs. apply list_elem_of_fmap in Hs as (s' & -> & Hs).
    rewrite Forall_forall in Hfr. exact (Hfr s' Hs).
  - split_and!; try done. unfold txq_frames. by rewrite map_app, map_map.
Qed.

Lemma map_encode_equiv fs gs :
  Forall frame_wf fs -> fs ≡ gs -> map bus_frame_encode fs = map bus_frame_encode gs.
Proof.
  intros Hwf H. revert Hwf. induction H as [|f g fs gs Hfg _ IH]; intros Hwf; [done|].
  apply Forall_cons in Hwf as [Hf Hwf]. simpl.
  rewrite (encode_equiv f g); [by rewrite IH| |done]. apply (fw_len f Hf).
Qed.

Lemma txq_frames_wf n : node_wf n -> Forall frame_wf (txq_frames n).
Proof.
  intros Hwf. pose proof (nw_frames n Hwf) as Hf. unfold txq_frames.
  apply Forall_forall. intros f Hin. apply list_elem_of_fmap in Hin as (s & -> & Hin).
  apply list_elem_of_filter in Hin as [_ Hin]. rewrite Forall_forall in Hf. by apply Hf.
Qed.

Lemma no_message_wf n : node_wf n -> frame_wf (no_message (n_my_addr n)).
Proof.
  intros Hwf. pose proof (nw_addr n Hwf). apply frame_header_wf; try done.
  apply fits_addr. unfold BUS_ADDR_SLAVE_MIN, BUS_ADDR_SLAVE_MAX in *. lia.
Qed.

Lemma do_call_spec n k :
  node_wf n -> call_ok k ->
  node_wf (do_call n k) /\ n_asm (do_call n k) = n_asm n /\
  n_my_addr (do_call n k) = n_my_addr n.
Proof.
  intros Hwf Hk. pose proof (bus_node_queue_spec n k Hwf Hk) as H. unfold do_call.
  destruct (bus_node_queue _ _ _ _ _) as [n' b].
  by destruct H as (? & ? & ? & _).
Qed.

Lemma do_calls_spec ks n :
  node_wf n -> Forall call_ok ks ->
  node_wf (foldl do_call n ks) /\ n_asm (foldl do_call n ks) = n_asm n /\
  n_my_addr (foldl do_call n ks) = n_my_addr n.
Proof.
  revert n. induction ks as [|k ks IH]; intros n Hwf Hks; [done|]. simpl.
  apply Forall_cons in Hks as [Hk Hks]. destruct (do_call_spec n k Hwf Hk) as (H1 & H2 & H3).
  destruct (IH _ H1 Hks) as (H4 & H5 & H6). split_and!; [done|congruence|congruence].
Qed.

(** The queue does not look at the assembler. *)
Lemma do_call_asm n k a : do_call (n <| n_asm := a |>) k = do_call n k <| n_asm := a |>.
Proof.
  unfold do_call, bus_node_queue. destruct n. usimpl.
  destruct (_ <? _); [done|]. by destruct (find_index _ _).
Qed.

Lemma do_calls_asm ks n a :
  foldl do_call (n <| n_asm := a |>) ks = foldl do_call n ks <| n_asm := a |>.
Proof.
  revert n. induction ks as [|k ks IH]; intros n; [done|]. cbn [foldl].
  by rewrite do_call_asm, IH.
Qed.

Section TaskLemmas.
Context {W : Type} `{App : !NodeApp W}.

Lemma node_handle_asm w n f a :
  node_handle w (n <| n_asm := a |>) f =
  let '(w', n', out) := node_handle w n f in (w', n' <| n_asm := a |>, out).
Proof.
  unfold node_handle. destruct (_ =? BUS_FT_DATA).
  - destruct (node_on_data _ _ _ _) as [w' ks]. rewrite do_calls_asm. done.
  - destruct n as [q a0 my]. usimpl. destruct (_ && _); [|done].
    unfold node_emit_window. usimpl. by destruct (emit_slots q).
Qed.

Lemma node_handle_all_asm fs w n a :
  node_handle_all w (n <| n_asm := a |>) fs =
  let '(w', n', out) := node_handle_all w n fs in (w', n' <| n_asm := a |>, out).
Proof.
  revert w n. induction fs as [|f fs IH]; intros w n; [done|]. simpl.
  rewrite node_handle_asm. destruct (node_handle w n f) as [[w1 n1] o1].
  rewrite IH. by destruct (node_handle_all w1 n1 fs) as [[w2 n2] o2].
Qed.

(** The task is the assembler followed by the frame loop. *)
Lemma bus_node_task_frames w n rx :
  bus_node_task w n rx =
  let '(a, fs) := bus_asm_run (n_asm n) rx in
  let '(w', n', outs) := node_handle_all w n fs in (w', n' <| n_asm := a |>, outs).
Proof.
  revert w n. induction rx as [|x rx IH]; intros w n; [by destruct n|]. simpl.
  destruct (bus_asm_feed (n_asm n) x) as [a o] eqn:Hf. destruct o as [f|].
  - rewrite node_handle_asm. destruct (node_handle w n f) as [[w1 n1] o1] eqn:Hh.
    rewrite IH. simpl. destruct (bus_asm_run a rx) as [a2 fs]. simpl. rewrite Hh.
    rewrite node_handle_all_asm. destruct (node_handle_all w1 n1 fs) as [[w2 n2] o2]. done.
  - rewrite IH. simpl. destruct (bus_asm_run a rx) as [a2 fs]. simpl.
    rewrite node_handle_all_asm. destruct (node_handle_all w n fs) as [[w2 n2] o2]. done.
Qed.

Context `{!NodeAppOk W}.

Lemma node_handle_spec w n f :
  node_wf n -> frame_wf f ->
  let '(w', n', out) := node_handle w n f in
  node_wf n' /\ n_asm n' = n_asm n /\ n_my_addr n' = n_my_addr n /\
  (grants (n_my_addr n) f = false -> out = []).
Proof.
  intros Hwf Hf. unfold node_handle, grants.
  destruct (Z.eqb_spec (Z.land (f_type f) BUS_FT_MASK) BUS_FT_DATA) as [Hd|Hnd].
  - pose proof (on_data_calls_ok w f Hf) as Hok.
    destruct (node_on_data _ _ _ _) as [w' ks]. simpl in Hok.
    destruct (do_calls_spec ks n Hwf Hok) as (H1 & H2 & H3). split_and!; try done.
    rewrite H3, Hd. by destruct (f_dest f =? _), (f_src f =? _).
  - destruct (Z.eqb_spec (Z.land (f_type f) BUS_FT_MASK) BUS_FT_POLL) as [Hp|Hnp].
    + simpl. destruct (f_dest f =? n_my_addr n); simpl; [|done].
      pose proof (node_emit_window_spec n Hwf) as H.
      destruct (node_emit_window n) as [n' out].
      by destruct H as (? & ? & ? & _).
    + done.
Qed.

Lemma node_handle_all_spec fs w n :
  node_wf n -> Forall frame_wf fs ->
  let '(w', n', outs) := node_handle_all w n fs in
  node_wf n' /\ n_asm n' = n_asm n /\ n_my_addr n' = n_my_addr n /\
  (Forall (fun f => grants (n_my_addr n) f = false) fs -> outs = []).
Proof.
  revert w n. induction fs as [|f fs IH]; intros w n Hwf Hfs; [done|]. simpl.
  apply Forall_cons in Hfs as [Hf Hfs]. pose proof (node_handle_spec w n f Hwf Hf) as H.
  destruct (node_handle w n f) as [[w1 n1] o1]. destruct H as (H1 & H2 & H3 & H4).
  specialize (IH w1 n1 H1 Hfs). destruct (node_handle_all w1 n1 fs) as [[w2 n2] o2].
  destruct IH as (H5 & H6 & H7 & H8). split_and!; [done|congruence|congruence|].
  intros Hg. apply Forall_cons in Hg as [Hg1 Hg2]. rewrite H4, H8; [done| |done].
  by rewrite H3.
Qed.

Lemma node_set_asm_wf n a :
  node_wf n -> asm_wf a -> a_my_addr a = a_my_addr (n_asm n) ->
  a_promiscuous a = a_promiscuous (n_asm n) -> node_wf (n <| n_asm := a |>).
Proof. intros [] ? Hm Hp. split; simpl; try done; congruence. Qed.
End TaskLemmas.

Lemma bus_asm_run_config ws a :
  a_my_addr (bus_asm_run a ws).1 = a_my_addr a /\
  a_promiscuous (bus_asm_run a ws).1 = a_promiscuous a.
Proof.
  revert a. induction ws as [|x ws IH]; intros a; [done|]. rewrite bus_asm_run_cons.
  pose proof (bus_asm_feed_config a x) as [H1 H2]. destruct (bus_asm_feed a x) as [a1 o].
  simpl in *. specialize (IH a1). destruct (bus_asm_run a1 ws) as [a2 fs]. simpl in *.
  destruct IH. split; congruence.
Qed.

(** ** Properties *)

(** C31. The outbound queue is a bounded FIFO: for every sequence of queue calls
    and grant windows, the slot array with first-free allocation behaves as a
    list of at most 8 frames. A call is refused exactly when its length exceeds
    240 or 8 frames wait; a window transmits exactly the waiting frames, oldest
    first, then NO_MESSAGE, and leaves the queue empty. *)
Theorem node_queue_is_fifo n q os :
  node_wf n -> txq_frames n ≡ q -> Forall op_ok os ->
  let '(n', vs) := node_exec_all n os in
  node_wf n' /\
  exists q', fifo_exec_all (n_my_addr n) q os = (q', vs) /\ txq_frames n' ≡ q'.
Proof.
  revert n q. induction os as [|o os IH]; intros n q Hwf Hq Hos; [by split; [|exists q]|].
  apply Forall_cons in Hos as [Ho Hos]. pose proof (proj1 (list_equiv_Forall2 _ _) Hq) as Hq2.
  apply Forall2_length in Hq2. simpl. destruct o as [k| ]; simpl.
  - pose proof (bus_node_queue_spec n k Hwf Ho) as H.
    destruct (bus_node_queue _ _ _ _ _) as [n1 b]. destruct H as (Hwf1 & _ & Hmy & Hb & Hf).
    rewrite <- Hq2, <- Hb. specialize (IH n1).
    destruct (node_exec_all n1 os) as [n2 vs]. rewrite <- Hmy. destruct b; simpl.
    + destruct (IH (q ++ [call_frame n k]) Hwf1) as (? & q' & Hr & ?); [|done|].
      { rewrite Hf. by rewrite Hq. }
      split; [done|]. exists q'. rewrite Hmy in Hr |- *. unfold call_frame in Hr. by rewrite Hr.
    + destruct (IH q Hwf1) as (? & q' & Hr & ?); [by rewrite Hf|done|].
      split; [done|]. exists q'. by rewrite Hr.
  - pose proof (node_emit_window_spec n Hwf) as H.
    destruct (node_emit_window n) as [n1 out]. destruct H as (Hwf1 & _ & Hmy & Hf & ->).
    specialize (IH n1 [] Hwf1). rewrite Hf in IH. specialize (IH ltac:(constructor) Hos).
    destruct (node_exec_all n1 os) as [n2 vs]. destruct IH as (? & q' & Hr & ?).
    split; [done|]. exists q'. rewrite <- Hmy, Hr, !map_app.
    by rewrite (map_encode_equiv (txq_frames n) q (txq_frames_wf n Hwf) Hq).
Qed.

Lemma sample_node_wf : node_wf sample_node.
Proof.
  split; try done; try vm_decide.
  - by exists 0%nat.
  - apply sample_asm_wf.
Qed.

Lemma sample_call_ok d b : 0 <= d < 128 -> fits 8 b -> call_ok (sample_call d b).
Proof. intros. split; try done; simpl; [by apply fits_addr|solve_bytes]. Qed.

Lemma node_queue_is_fifo_witness :
  let '(_, vs) := node_exec_all sample_node
    [OpQueue (sample_call 0 7); OpQueue (sample_call 9 8); OpWindow; OpWindow] in
  exists q', fifo_exec_all 5 []
    [OpQueue (sample_call 0 7); OpQueue (sample_call 9 8); OpWindow; OpWindow] = (q', vs).
Proof.
  assert (Hok : Forall op_ok
    [OpQueue (sample_call 0 7); OpQueue (sample_call 9 8); OpWindow; OpWindow]).
  { repeat (apply Forall_cons; split); try exact I; try apply Forall_nil; try done;
      apply sample_call_ok; lia || vm_decide. }
  pose proof (node_queue_is_fifo sample_node []
    [OpQueue (sample_call 0 7); OpQueue (sample_call 9 8); OpWindow; OpWindow]
    sample_node_wf ltac:(constructor) Hok) as H.
  destruct (node_exec_all _ _) as [n' vs]. destruct H as (_ & q' & Hr & _).
  exists q'. exact Hr.
Defined.

(** A node speaks only when granted: whatever words arrive, the receive task
    keeps the node well formed (its address included) and transmits nothing
    unless the assembler completed a POLL for this address or a DATA frame of
    the master for this address. *)
Theorem node_speaks_only_when_granted {W} `{!NodeApp W, !NodeAppOk W} w n rx :
  node_wf n ->
  let '(w', n', outs) := bus_node_task w n rx in
  node_wf n' /\ n_my_addr n' = n_my_addr n /\
  (outs <> [] ->
   exists f, f ∈ (bus_asm_run (n_asm n) rx).2 /\ grants (n_my_addr n) f = true).
Proof.
  intros Hwf. rewrite bus_node_task_frames.
  pose proof (bus_asm_run_wf (n_asm n) rx (nw_asm n Hwf)) as [Ha Hfs].
  pose proof (bus_asm_run_config rx (n_asm n)) as [Hm Hp].
  destruct (bus_asm_run (n_asm n) rx) as [a fs]. simpl in *.
  pose proof (node_handle_all_spec fs w n Hwf Hfs) as H.
  destruct (node_handle_all w n fs) as [[w' n'] outs]. destruct H as (H1 & H2 & H3 & H4).
  split_and!; [apply node_set_asm_wf; congruence|done|]. intros Hne.
  destruct (decide (Exists (fun f => grants (n_my_addr n) f = true) fs)) as [He|He].
  - apply Exists_exists in He. naive_solver.
  - destruct Hne. apply H4. apply not_Exists_Forall in He; [|apply _].
    eapply Forall_impl; [exact He|]. simpl. intros f. by destruct (grants _ _).
Qed.

#[export] Instance weak_app_ok : @NodeAppOk unit weak_on_data.
Proof. intros w f Hf. constructor. Qed.

Lemma node_speaks_only_when_granted_witness :
  let '(_, n', _) := @bus_node_task unit weak_on_data tt sample_node
    (bus_frame_encode (frame_header 5 0 BUS_FT_POLL 0)) in node_wf n'.
Proof.
  pose proof (@node_speaks_only_when_granted unit weak_on_data weak_app_ok tt sample_node
    (bus_frame_encode (frame_header 5 0 BUS_FT_POLL 0)) sample_node_wf) as H.
  destruct (bus_node_task _ _ _) as [[w' n'] outs]. exact (proj1 H).
Defined.
