(* ===== verification/BusSched.v ===== *)
(** The bus controller's arbiter as [core/bus_sched.h] and [core/bus_sched.c]
    have it: the outbound queue and the grant slot. The listening half of the
    slot is a TODO of the source and so is absent here too. *)
From stdpp Require Import gmap.
From S2P Require Import Prelude BusFrame BusRoster BusNode.

Definition SCHED_TXQ_PER_NODE : Z := 4.

Record sched_txq_slot_t := mk_sslot { t_frame : bus_frame_t; t_tcp : bool; t_in_use : bool }.
#[export] Instance eta_sched_txq_slot_t : Settable sched_txq_slot_t := fun s =>
  mk_sslot (t_frame s) (t_tcp s) (t_in_use s).

(** The statics [g_txq], [g_cursor], [g_next_seq]. *)
Record sched_t := mk_sched { st_txq : list sched_txq_slot_t; st_cursor : Z; st_next_seq : Z }.
#[export] Instance eta_sched_t : Settable sched_t := fun s =>
  mk_sched (st_txq s) (st_cursor s) (st_next_seq s).

Definition SCHED_TXQ_LEN : Z := BUS_ROSTER_MAX * SCHED_TXQ_PER_NODE.

Definition bus_sched_init (s : sched_t) : sched_t :=
  s <| st_txq ::= map (fun x => x <| t_in_use := false |>) |>
    <| st_cursor := 0 |> <| st_next_seq := 1 |>.

Definition bus_sched_queue_tx (s : sched_t) (dest type : Z) (payload : list Z) (len : Z)
    (tcp : bool) : sched_t * bool :=
  if BUS_PAYLOAD_MAX <? len then (s, false)
  else
    match find_index (fun x => negb (t_in_use x)) (st_txq s) with
    | Some i =>
        let seq := if tcp then st_next_seq s else 0 in
        (s <| st_txq ::= alter (fun x =>
               mk_sslot (frame_fill (t_frame x) dest BUS_ADDR_MASTER type seq len payload)
                 tcp true) i |>
           <| st_next_seq ::= fun n => if tcp then u8 (n + 1) else n |>, true)
    | None => (s, false)
    end.

(** A pointer to a queue slot is its index. *)
Definition txq_take (s : sched_t) (dest : Z) : option nat :=
  find_index (fun x => t_in_use x && (f_dest (t_frame x) =? dest)) (st_txq s).

(** The calls made on the PHY. *)
Inductive phy_op := PhyRxFlush | PhySend (ws : list Z).

(** One grant slot: the new state, the returned address, the PHY calls. *)
Definition bus_sched_tick (r : roster_t) (s : sched_t) : sched_t * Z * list phy_op :=
  let '(node, cursor) := bus_roster_next_enabled r (st_cursor s) in
  let s := s <| st_cursor := cursor |> in
  match node ≫= fun i => g_roster r !! i with
  | None => (s, 0, [])
  | Some node =>
      match txq_take s (s_addr node) with
      | Some q =>
          let f := from_option t_frame (frame_header 0 0 0 0) (st_txq s !! q) in
          (s <| st_txq ::= alter (fun x => x <| t_in_use := false |>) q |>,
           s_addr node, [PhyRxFlush; PhySend (bus_frame_encode f)])
      | None =>
          let poll := frame_header (s_addr node) BUS_ADDR_MASTER BUS_FT_POLL 0 in
          (s, s_addr node, [PhyRxFlush; PhySend (bus_frame_encode poll)])
      end
  end.

(** ** Abstract view *)
Definition sched_pending (s : sched_t) : list bus_frame_t :=
  map t_frame (filter (fun x => t_in_use x = true) (st_txq s)).

Record sched_wf (s : sched_t) : Prop := {
  sw_slots : zlen (st_txq s) = SCHED_TXQ_LEN;
  sw_frames : Forall (fun x => frame_wf (t_frame x)) (st_txq s);
  sw_master : Forall (fun f => f_src f = BUS_ADDR_MASTER) (sched_pending s);
  sw_cursor : 0 <= st_cursor s < BUS_ROSTER_MAX;
  sw_seq : fits 8 (st_next_seq s)
}.

Definition empty_sched : sched_t :=
  bus_sched_init (mk_sched (replicate 128 (mk_sslot (frame_header 0 0 0 0) false true)) 0 0).

(** Two messages for node 5 with one for node 7 queued before them: the slot the
    first tick frees is reused, and overtakes. *)
Definition overtaking : list (list phy_op) :=
  let r := (roster_run empty_roster [OpRegister 7 0 2; OpRegister 5 0 2]).1 in
  let q s d b := (bus_sched_queue_tx s d BUS_FT_DATA [b] 1 false).1 in
  let s := q (q empty_sched 7 0x70) 5 0x51 in
  let '(s, _, o1) := bus_sched_tick r s in
  let s := q s 5 0x52 in
  let '(s, _, o2) := bus_sched_tick r s in [o1; o2].

(** ** Lemmas *)
Lemma pending_mid s l1 x l2 :
  st_txq s = l1 ++ x :: l2 ->
  Permutation (sched_pending s)
    ((if t_in_use x then [t_frame x] else []) ++
     map t_frame (filter (fun x => t_in_use x = true) (l1 ++ l2))).
Proof.
  intros H. unfold sched_pending. rewrite H, !filter_app, filter_cons, !map_app.
  destruct (t_in_use x); simpl; [|done]. by rewrite Permutation_middle.
Qed.

Lemma pending_set s l1 x l2 :
  st_txq s = l1 ++ x :: l2 ->
  sched_pending s = map t_frame (filter (fun x => t_in_use x = true) l1) ++
    (if t_in_use x then [t_frame x] else []) ++
    map t_frame (filter (fun x => t_in_use x = true) l2).
Proof.
  intros H. unfold sched_pending. rewrite H, filter_app, filter_cons, map_app.
  by destruct (t_in_use x).
Qed.

Lemma forall_mid {A} (P : A -> Prop) l1 x y l2 :
  Forall P (l1 ++ x :: l2) -> P y -> Forall P (l1 ++ y :: l2).
Proof.
  intros H Hy. apply Forall_app in H as [? H]. apply Forall_cons in H as [? ?].
  apply Forall_app. split; [done|]. by constructor.
Qed.

Lemma pending_full s :
  sched_wf s -> find_index (fun x => negb (t_in_use x)) (st_txq s) = None ->
  zlen (sched_pending s) = SCHED_TXQ_LEN.
Proof.
  intros [Hs _ _ _ _] H. apply find_index_None in H. rewrite <- Hs.
  unfold sched_pending, zlen. rewrite length_map, filter_all; [done|].
  eapply Forall_impl; [exact H|]. simpl. intros x. by destruct (t_in_use x).
Qed.

Lemma pending_room s i :
  sched_wf s -> find_index (fun x => negb (t_in_use x)) (st_txq s) = Some i ->
  zlen (sched_pending s) < SCHED_TXQ_LEN.
Proof.
  intros [Hs _ _ _ _] H. apply find_index_Some in H as (l1 & x & l2 & Hl & _ & Hx & _).
  rewrite <- Hs. rewrite (pending_set s l1 x l2) by done. bools. rewrite Hx, Hl.
  unfold zlen. rewrite !length_app, !length_map. simpl.
  pose proof (length_filter (fun x => t_in_use x = true) l1).
  pose proof (length_filter (fun x => t_in_use x = true) l2). lia.
Qed.

Lemma pending_in_wf s f : sched_wf s -> f ∈ sched_pending s -> frame_wf f.
Proof.
  intros [_ Hf _ _ _] Hin. unfold sched_pending in Hin.
  apply list_elem_of_fmap in Hin as (x & -> & Hin).
  apply list_elem_of_filter in Hin as [_ Hin]. rewrite Forall_forall in Hf. by apply Hf.
Qed.

(** Releasing the slot a frame was taken from. *)
Lemma release_slot s i x :
  sched_wf s -> st_txq s !! i = Some x -> t_in_use x = true ->
  let s' := s <| st_txq ::= alter (fun x => x <| t_in_use := false |>) i |> in
  sched_wf s' /\ Permutation (sched_pending s) (t_frame x :: sched_pending s').
Proof.
  intros Hwf Hi Hx s'. pose proof Hwf as [Hs Hf Hm Hc Hq].
  apply list_elem_of_split_length in Hi as (l1 & l2 & Hl & ->).
  assert (Hl' : st_txq s' = l1 ++ (x <| t_in_use := false |>) :: l2).
  { unfold s'. usimpl. rewrite Hl, alter_app_r_alt, Nat.sub_diag by lia. done. }
  pose proof (pending_mid s l1 x l2 Hl) as Hp. pose proof (pending_mid s' _ _ _ Hl') as Hp'.
  rewrite Hx in Hp. simpl in Hp, Hp'. rewrite <- Hp' in Hp. split; [|done]. split; try done.
  - rewrite Hl'. rewrite Hl in Hs. unfold zlen in *. by rewrite length_app in *.
  - rewrite Hl'. rewrite Hl in Hf. apply (forall_mid _ _ x); [done|].
    apply Forall_app in Hf as [_ Hf]. by apply Forall_cons in Hf as [? _].
  - rewrite Hp in Hm. by apply Forall_cons in Hm as [_ ?].
Qed.

Lemma set_cursor_wf s c :
  sched_wf s -> 0 <= c < BUS_ROSTER_MAX -> sched_wf (s <| st_cursor := c |>).
Proof. intros [] ?. by split. Qed.

(** One grant slot, on every branch. *)
Lemma bus_sched_tick_spec r s :
  roster_wf r -> sched_wf s ->
  let '(s', addr, ops) := bus_sched_tick r s in
  sched_wf s' /\
  match enabled_from r (Z.to_nat (st_cursor s)) with
  | [] => addr = 0 /\ ops = [] /\ sched_pending s' = sched_pending s
  | i :: _ =>
      (exists node, g_roster r !! i = Some node /\ addr = s_addr node /\ addr_valid addr = true) /\
      exists f, ops = [PhyRxFlush; PhySend (bus_frame_encode f)] /\
        frame_wf f /\ f_dest f = addr /\ f_src f = BUS_ADDR_MASTER /\
        ((exists g, g ∈ sched_pending s /\ f_dest g = addr) /\
         Permutation (sched_pending s) (f :: sched_pending s') \/
         Forall (fun g => f_dest g <> addr) (sched_pending s) /\
         f = frame_header addr BUS_ADDR_MASTER BUS_FT_POLL 0 /\
         sched_pending s' = sched_pending s)
  end.
Proof.
  intros Hr Hwf. pose proof (sw_cursor s Hwf) as Hcur. unfold BUS_ROSTER_MAX in Hcur.
  pose proof (next_enabled_head r (Z.to_nat (st_cursor s)) Hr ltac:(lia)) as Hn.
  rewrite Z2Nat.id in Hn by lia. unfold bus_sched_tick.
  destruct (enabled_from r (Z.to_nat (st_cursor s))) as [|i rest] eqn:He.
  { rewrite Hn. simpl. split; [|done]. by apply set_cursor_wf. }
  destruct Hn as (c' & Hc' & -> & _). simpl.
  assert (Hen : slot_is_enabled r i = true).
  { assert (Hin : i ∈ enabled_from r (Z.to_nat (st_cursor s))) by (rewrite He; by left).
    by apply list_elem_of_filter in Hin as [? _]. }
  unfold slot_is_enabled in Hen. destruct (g_roster r !! i) as [node|] eqn:Hi; [|done].
  unfold slot_enabled in Hen. bools.
  pose proof (rw_addrs r Hr) as Hva. rewrite Forall_forall in Hva.
  assert (Hav : addr_valid (s_addr node) = true)
    by (apply Hva; [by eapply list_elem_of_lookup_2|done]).
  set (s1 := s <| st_cursor := Z.of_nat c' |>).
  assert (Hwf1 : sched_wf s1) by (apply set_cursor_wf; [done|unfold BUS_ROSTER_MAX; lia]).
  destruct (txq_take s1 (s_addr node)) as [q|] eqn:Hq.
  - apply find_index_Some in Hq as (l1 & x & l2 & Hl & -> & Hx & _). bools.
    assert (Hlk : st_txq s1 !! length l1 = Some x) by (rewrite Hl; by apply list_lookup_middle).
    destruct (release_slot s1 (length l1) x Hwf1 Hlk ltac:(done)) as [Hwf2 Hp].
    change (st_txq s) with (st_txq s1). rewrite Hlk. simpl.
    assert (Hin : t_frame x ∈ sched_pending s1) by (rewrite Hp; by left).
    split; [done|]. split; [by exists node|]. exists (t_frame x). split_and!; try done.
    + by apply (pending_in_wf s1).
    + pose proof (sw_master s1 Hwf1) as Hm. rewrite Forall_forall in Hm. by apply Hm.
    + left. split; [by exists (t_frame x)|done].
  - apply find_index_None in Hq. split; [done|]. split; [by exists node|].
    eexists. split; [done|]. split_and!; try done.
    + apply frame_header_wf; try done. apply fits_addr.
      unfold addr_valid, BUS_ADDR_SLAVE_MIN, BUS_ADDR_SLAVE_MAX in Hav. bools. lia.
    + right. split; [|done]. apply Forall_forall. intros g Hg Hd.
      unfold sched_pending in Hg. apply list_elem_of_fmap in Hg as (x & -> & Hg).
      apply list_elem_of_filter in Hg as [Hu Hg]. rewrite Forall_forall in Hq.
      specialize (Hq x Hg). simpl in Hq. by rewrite Hu, Hd, Z.eqb_refl in Hq.
Qed.

(** ** Properties *)

(** Queueing for a node, on every branch: the call is refused exactly when the
    length exceeds 240 or all 128 slots are taken (one flat queue for all
    nodes), and then nothing changes; otherwise exactly the requested message,
    stamped with the master's address, joins the pending ones, and a reliable
    message takes the current sequence number, which advances modulo 256. *)
Theorem sched_queue_tx_spec s k tcp :
  sched_wf s -> call_ok k ->
  let '(s', b) := bus_sched_queue_tx s (k_dest k) (k_type k) (k_payload k) (k_len k) tcp in
  sched_wf s' /\
  b = (k_len k <=? BUS_PAYLOAD_MAX) && (zlen (sched_pending s) <? SCHED_TXQ_LEN) /\
  (b = false -> s' = s) /\
  (b = true ->
   st_next_seq s' = (if tcp then u8 (st_next_seq s + 1) else st_next_seq s) /\
   exists f, Permutation (sched_pending s') (f :: sched_pending s) /\
     frame_bytes f = [k_dest k; BUS_ADDR_MASTER; k_type k;
                      if tcp then st_next_seq s else 0; k_len k]
                     ++ take (Z.to_nat (k_len k)) (k_payload k)).
Proof.
  intros Hwf [Hd Ht Hkl Ha Hb]. pose proof Hwf as [Hs Hf Hm Hc Hq].
  unfold bus_sched_queue_tx. unfold fits in Hkl.
  destruct (Z.ltb_spec BUS_PAYLOAD_MAX (k_len k)) as [Hbig|Hlen];
    destruct (Z.leb_spec (k_len k) BUS_PAYLOAD_MAX); try lia; [by split_and!|]. simpl.
  destruct (find_index _ (st_txq s)) as [i|] eqn:Hi.
  2:{ rewrite (pending_full s Hwf Hi), Z.ltb_irrefl. by split_and!. }
  pose proof (pending_room s i Hwf Hi) as Hroom.
  apply find_index_Some in Hi as (l1 & x & l2 & Hl & -> & Hx & _). bools.
  rewrite (proj2 (Z.ltb_lt _ _) Hroom).
  set (seq := if tcp then st_next_seq s else 0).
  set (f := frame_fill (t_frame x) (k_dest k) BUS_ADDR_MASTER (k_type k) seq (k_len k) (k_payload k)).
  set (s' := s <| st_txq ::= _ |> <| st_next_seq ::= _ |>).
  assert (Hl' : st_txq s' = l1 ++ mk_sslot f tcp true :: l2).
  { unfold s'. usimpl. rewrite Hl, alter_app_r_alt, Nat.sub_diag by lia. done. }
  pose proof (pending_mid s _ _ _ Hl) as Hp. pose proof (pending_mid s' _ _ _ Hl') as Hp'.
  rewrite Hx in Hp. simpl in Hp, Hp'. rewrite <- Hp in Hp'.
  assert (Hseq : fits 8 seq) by (unfold seq; by destruct tcp).
  assert (Hfx : frame_wf (t_frame x)).
  { rewrite Hl in Hf. apply Forall_app in Hf as [_ Hf]. by apply Forall_cons in Hf as [? _]. }
  assert (Hff : frame_wf f) by (apply frame_fill_wf; try done; lia || vm_decide).
  split_and!; try done.
  - split; try done.
    + rewrite Hl'. rewrite Hl in Hs. unfold zlen in *. by rewrite length_app in *.
    + rewrite Hl'. rewrite Hl in Hf. by apply (forall_mid _ _ x).
    + rewrite Hp'. by constructor.
    + unfold s'. simpl. destruct tcp; auto with widths.
  - intros _. split; [done|]. exists f. split; [done|].
    unfold frame_bytes. unfold f at 6. rewrite frame_fill_data by lia. done.
Qed.

Lemma empty_sched_wf : sched_wf empty_sched.
Proof. split; vm_decide. Qed.

Lemma sched_queue_tx_spec_witness :
  let '(s', b) := bus_sched_queue_tx empty_sched 5 BUS_FT_DATA [7; 1; 2] 2 true in
  b = true /\ sched_wf s'.
Proof.
  pose proof (sched_queue_tx_spec empty_sched (sample_call 5 7) true empty_sched_wf
    (sample_call_ok 5 7 ltac:(lia) ltac:(vm_decide))) as H.
  simpl k_dest in H. destruct (bus_sched_queue_tx _ _ _ _ _ _) as [s' b].
  destruct H as (H1 & H2 & _). split; [exact H2|exact H1].
Defined.

(** One grant slot: with no enabled node nothing is sent and the queue keeps
    its messages; otherwise the slot serves the next enabled node in round-robin
    order and sends, after flushing the receiver, exactly one well-formed frame
    from the master to that node: a pending message for it, which leaves the
    queue (every other pending message stays), or a bare POLL when none is
    pending for it. *)
Theorem sched_tick_grants r s :
  roster_wf r -> sched_wf s ->
  let '(s', addr, ops) := bus_sched_tick r s in
  sched_wf s' /\
  match enabled_from r (Z.to_nat (st_cursor s)) with
  | [] => addr = 0 /\ ops = [] /\ sched_pending s' = sched_pending s
  | i :: _ =>
      (exists node, g_roster r !! i = Some node /\ addr = s_addr node /\ addr_valid addr = true) /\
      exists f, ops = [PhyRxFlush; PhySend (bus_frame_encode f)] /\
        frame_wf f /\ f_dest f = addr /\ f_src f = BUS_ADDR_MASTER /\
        ((exists g, g ∈ sched_pending s /\ f_dest g = addr) /\
         Permutation (sched_pending s) (f :: sched_pending s') \/
         Forall (fun g => f_dest g <> addr) (sched_pending s) /\
         f = frame_header addr BUS_ADDR_MASTER BUS_FT_POLL 0 /\
         sched_pending s' = sched_pending s)
  end.
Proof. apply bus_sched_tick_spec. Qed.

Lemma sched_tick_grants_witness :
  let '(s', addr, ops) := bus_sched_tick sample_roster empty_sched in
  sched_wf s' /\ addr = 5.
Proof.
  assert (Hr : roster_wf sample_roster) by (split; vm_decide).
  pose proof (sched_tick_grants sample_roster empty_sched Hr empty_sched_wf) as H.
  destruct (bus_sched_tick sample_roster empty_sched) as [[s' addr] ops] eqn:E.
  destruct H as [Hwf _]. split; [exact Hwf|].
  apply (f_equal (fun x => x.1.2)) in E. vm_compute in E. by rewrite <- E.
Defined.

(** The source calls [txq_take] "pop the oldest", but it takes the lowest slot:
    the message 0x52, queued last, is sent to node 5 before 0x51. *)
Lemma sched_overtaking :
  overtaking =
  [[PhyRxFlush; PhySend (bus_frame_encode
      (frame_fill (frame_header 0 0 0 0) 7 0 BUS_FT_DATA 0 1 [0x70]))];
   [PhyRxFlush; PhySend (bus_frame_encode
      (frame_fill (frame_header 0 0 0 0) 5 0 BUS_FT_DATA 0 1 [0x52]))]].
Proof. vm_compute. reflexivity. Qed.
