(* ===== verification/BusSystem.v ===== *)
(** The bus as a whole: one controller, its roster and queue, and the nodes on
    the shared pair. A slot is the controller's [bus_sched_tick] followed by what
    [bus_node_task] does on every node: first with the grant, then with the
    words the granted node put on the line (which its own PHY does not return
    to it). The controller's receiver is a [bus_asm_t]. *)
From stdpp Require Import gmap.
From S2P Require Import Prelude BusFrame BusRoster BusNode BusSched.

Section Bus.
Context {W : Type} `{App : !NodeApp W}.

Record bus_t := mk_bus {
  b_roster : roster_t; b_sched : sched_t; b_asm : bus_asm_t; b_nodes : list (W * node_t)
}.

Definition sent_words (ops : list phy_op) : list Z :=
  concat (map (fun o => match o with PhySend ws => ws | PhyRxFlush => [] end) ops).

(** Every node runs its task on the same words. *)
Definition hear_all (ns : list (W * node_t)) (rx : list Z) : list (W * node_t * list (list Z)) :=
  map (fun '(w, n) => bus_node_task w n rx) ns.

Definition talkers (rs : list (W * node_t * list (list Z))) : list Z :=
  omap (fun '(_, n, out) => match out with [] => None | _ => Some (n_my_addr n) end) rs.

Definition line_of (rs : list (W * node_t * list (list Z))) : list Z :=
  concat (map (fun '(_, _, out) => concat out) rs).

(** The nodes that did not transmit hear the line. *)
Definition overhear (rs : list (W * node_t * list (list Z))) (line : list Z)
    : list (W * node_t * list (list Z)) :=
  map (fun '(w, n, out) => match out with
                          | [] => bus_node_task w n line
                          | _ => (w, n, [])
                          end) rs.

(** One slot: the new state, who transmitted, what the controller received, and
    who transmitted in answer to the granted node (a collision). *)
Definition grant_slot (b : bus_t) : bus_t * list Z * list bus_frame_t * list Z :=
  let '(s, _, ops) := bus_sched_tick (b_roster b) (b_sched b) in
  let rs := hear_all (b_nodes b) (sent_words ops) in
  let line := line_of rs in
  let '(a, heard) := bus_asm_run (b_asm b) line in
  let rs' := overhear rs line in
  (mk_bus (b_roster b) s a (map fst rs'), talkers rs, heard, talkers rs').

Fixpoint bus_run (b : bus_t) (k : nat) : bus_t * list (list Z * list Z) :=
  match k with
  | O => (b, [])
  | S k => let '(b, t, _, c) := grant_slot b in
           let '(b, l) := bus_run b k in (b, (t, c) :: l)
  end.
End Bus.
Arguments bus_t : clear implicits.

(** A frame a node may put on the line: its own address as source, a real
    destination, and not a POLL. *)
Definition node_frame (addr : Z) (f : bus_frame_t) : Prop :=
  0 <= f_dest f < 128 /\ f_src f = addr /\ Z.land (f_type f) BUS_FT_MASK <> BUS_FT_POLL.
#[export] Instance node_frame_dec addr f : Decision (node_frame addr f).
Proof. unfold node_frame. apply _. Defined.

Definition quiet (n : node_t) : Prop := Forall (node_frame (n_my_addr n)) (txq_frames n).

(** Between slots a node is well formed, between frames, and holds only frames
    it may send. *)
Record node_idle (n : node_t) : Prop := {
  ni_wf : node_wf n; ni_idle : a_state (n_asm n) = BUS_ASM_IDLE; ni_quiet : quiet n
}.

(** The application, asked by a real address, answers real addresses and never
    queues a POLL. *)
Definition call_quiet (k : queue_call) : Prop :=
  k_dest k < 128 /\ Z.land (k_type k) BUS_FT_MASK <> BUS_FT_POLL.
Class NodeAppQuiet (W : Type) `{!NodeApp W} := on_data_quiet w f :
  frame_wf f -> f_src f < 128 ->
  Forall call_quiet (node_on_data w (f_src f) (f_payload f) (f_len f)).2.

Record bus_ok {W} (b : bus_t W) : Prop := {
  bo_roster : roster_wf (b_roster b);
  bo_sched : sched_wf (b_sched b);
  bo_asm : asm_wf (b_asm b);
  bo_idle : a_state (b_asm b) = BUS_ASM_IDLE;
  bo_nodes : Forall (fun wn => node_idle wn.2) (b_nodes b);
  bo_distinct : NoDup (map (fun wn => n_my_addr wn.2) (b_nodes b))
}.

(** A bus of two nodes with the default application, for the examples: node 5
    holds a reply for the master and a message for node 7. *)
Definition sample_bus_node (addr : Z) (calls : list queue_call) : node_t :=
  foldl do_call
    (bus_node_init (mk_node (replicate 8 (mk_nslot (frame_header 0 0 0 0) true)) blank_asm 0) addr)
    calls.
Definition sample_bus : bus_t unit :=
  mk_bus sample_roster empty_sched blank_asm
    [(tt, sample_bus_node 7 []); (tt, sample_bus_node 5 [sample_call 0 0x11; sample_call 7 0x22])].

(** A frame a well-behaved device puts on the line. *)
Definition wire_ok (f : bus_frame_t) : Prop := frame_wf f /\ f_dest f < 128 /\ f_src f < 128.

(** ** One node *)
#[export] Instance node_frame_proper addr : Proper ((≡) ==> iff) (node_frame addr).
Proof. intros f g (Hd & Hs & Ht & _). unfold node_frame. by rewrite Hd, Hs, Ht. Qed.

#[export] Instance src_low_proper : Proper ((≡) ==> iff) (fun f => f_src f < 128).
Proof. intros f g (_ & Hs & _). by rewrite Hs. Qed.

#[export] Instance grants_proper addr b : Proper ((≡) ==> iff) (fun f => grants addr f = b).
Proof. intros f g (Hd & Hs & Ht & _). unfold grants. by rewrite Hd, Hs, Ht. Qed.

Lemma do_call_quiet n k :
  node_wf n -> quiet n -> call_ok k -> call_quiet k ->
  quiet (do_call n k).
Proof.
  intros Hwf Hq Hk [Hd Hp]. pose proof (bus_node_queue_spec n k Hwf Hk) as H. unfold do_call, quiet in *.
  destruct (bus_node_queue _ _ _ _ _) as [n' b]. destruct H as (_ & _ & Hmy & _ & Hf). simpl.
  rewrite Hmy. symmetry in Hf. apply (Forall_equiv _ _ _ Hf). destruct b; [|done].
  apply Forall_app. split; [done|]. constructor; [|constructor].
  destruct Hk as [[? _]]. unfold node_frame. simpl. by split; [|split].
Qed.

Lemma do_calls_quiet ks n :
  node_wf n -> quiet n -> Forall call_ok ks ->
  Forall call_quiet ks ->
  quiet (foldl do_call n ks).
Proof.
  revert n. induction ks as [|k ks IH]; intros n Hwf Hq Hks Hp; [done|]. simpl.
  apply Forall_cons in Hks as [Hk Hks]. apply Forall_cons in Hp as [Hkp Hp].
  apply IH; [|by apply do_call_quiet|done|done]. by apply do_call_spec.
Qed.

Lemma ack_header_ok n :
  node_wf n -> frame_wf (frame_header BUS_ADDR_MASTER (n_my_addr n) BUS_FT_ACK 0) /\
  node_frame (n_my_addr n) (frame_header BUS_ADDR_MASTER (n_my_addr n) BUS_FT_ACK 0).
Proof.
  intros Hwf. pose proof (nw_addr n Hwf) as Ha.
  split; [|by split_and!]. apply frame_header_wf; try done. apply fits_addr.
  unfold BUS_ADDR_SLAVE_MIN, BUS_ADDR_SLAVE_MAX in Ha. lia.
Qed.

Section Node.
Context {W : Type} `{!NodeApp W, !NodeAppOk W, !NodeAppQuiet W}.

(** What one frame makes a node do: everything it sends it may send. *)
Lemma node_handle_quiet w n f :
  node_wf n -> quiet n -> frame_wf f -> f_src f < 128 ->
  let '(w', n', out) := node_handle w n f in
  quiet n' /\ exists gs, out = map bus_frame_encode gs /\
    Forall (fun g => frame_wf g /\ node_frame (n_my_addr n) g) gs.
Proof.
  intros Hwf Hq Hf Hsrc. unfold node_handle. destruct (_ =? BUS_FT_DATA).
  - pose proof (on_data_calls_ok w f Hf) as Hok. pose proof (on_data_quiet w f Hf Hsrc) as Hp.
    destruct (node_on_data _ _ _ _) as [w' ks]. simpl in Hok, Hp.
    split; [by apply do_calls_quiet|].
    destruct (do_calls_spec ks n Hwf Hok) as (Hwf' & _ & Hmy).
    destruct (_ && _); [|by exists []]. rewrite <- Hmy.
    eexists [_]. split; [done|]. constructor; [|constructor]. by apply ack_header_ok.
  - destruct (_ && _); [|split; [done|by exists []]].
    pose proof (node_emit_window_spec n Hwf) as H.
    destruct (node_emit_window n) as [n' out]. destruct H as (Hwf' & _ & Hmy & Ht & ->).
    split; [unfold quiet; by rewrite Ht|]. eexists. split; [done|].
    apply Forall_app. split.
    + pose proof (txq_frames_wf n Hwf) as Hfw. unfold quiet in Hq.
      rewrite Forall_forall in Hq, Hfw. apply Forall_forall. eauto.
    + constructor; [|constructor]. split; [by apply no_message_wf|]. by split_and!.
Qed.

Lemma node_handle_all_quiet fs w n :
  node_wf n -> quiet n -> Forall frame_wf fs -> Forall (fun f => f_src f < 128) fs ->
  let '(w', n', outs) := node_handle_all w n fs in
  quiet n' /\ exists gs, outs = map bus_frame_encode gs /\
    Forall (fun g => frame_wf g /\ node_frame (n_my_addr n) g) gs.
Proof.
  revert w n. induction fs as [|f fs IH]; intros w n Hwf Hq Hfs Hsrc; [split; [done|by exists []]|].
  apply Forall_cons in Hfs as [Hf Hfs]. apply Forall_cons in Hsrc as [Hs Hsrc]. simpl.
  pose proof (node_handle_spec w n f Hwf Hf) as H1.
  pose proof (node_handle_quiet w n f Hwf Hq Hf Hs) as H2.
  destruct (node_handle w n f) as [[w1 n1] o1].
  destruct H1 as (Hwf1 & _ & Hmy & _), H2 as (Hq1 & gs1 & -> & Hg1).
  specialize (IH w1 n1 Hwf1 Hq1 Hfs Hsrc). destruct (node_handle_all w1 n1 fs) as [[w2 n2] o2].
  destruct IH as (Hq2 & gs2 & -> & Hg2). split; [done|]. exists (gs1 ++ gs2).
  rewrite map_app. split; [done|]. apply Forall_app. split; [done|]. by rewrite <- Hmy.
Qed.

(** An idle node hears a stream of frames. *)
Lemma node_hears w n fs :
  node_idle n -> Forall wire_ok fs ->
  let '(w', n', outs) := bus_node_task w n (concat (map bus_frame_encode fs)) in
  node_idle n' /\ n_my_addr n' = n_my_addr n /\
  (exists gs, outs = map bus_frame_encode gs /\
    Forall (fun g => frame_wf g /\ node_frame (n_my_addr n) g) gs) /\
  (Forall (fun f => grants (n_my_addr n) f = false) fs -> outs = []).
Proof.
  intros [Hwf Hid Hq] Hok. rewrite bus_node_task_frames.
  assert (Hfs : Forall (fun f => frame_wf f /\ f_dest f < 128) fs)
    by (eapply Forall_impl; [exact Hok|]; by intros f (? & ? & _)).
  destruct (asm_run_stream (n_asm n) fs (nw_asm n Hwf) Hid Hfs)
    as (a' & gs & Hr & Hg & Ha & Hst & Hmy & Hpr & _ & _).
  pose proof (bus_asm_run_wf (n_asm n) (concat (map bus_frame_encode fs)) (nw_asm n Hwf)) as [_ Hgw].
  rewrite Hr in Hgw |- *. simpl in Hgw.
  pose proof (node_handle_all_spec gs w n Hwf Hgw) as H1.
  assert (Hsrc : Forall (fun f => f_src f < 128) gs).
  { symmetry in Hg. apply (Forall_equiv _ _ _ Hg). apply Forall_filter_l.
    eapply Forall_impl; [exact Hok|]. by intros f (? & ? & ?). }
  pose proof (node_handle_all_quiet gs w n Hwf Hq Hgw Hsrc) as H2.
  destruct (node_handle_all w n gs) as [[w' n'] outs].
  destruct H1 as (Hwf' & Hasm & Haddr & Hsil), H2 as (Hq' & Hout). split_and!; try done.
  - split; [apply node_set_asm_wf; try done; congruence|done|done].
  - intros Hng. apply Hsil. symmetry in Hg. apply (Forall_equiv _ _ _ Hg).
    by apply Forall_filter_l.
Qed.

(** ** All nodes *)
Lemma no_grant_from a g :
  node_frame a g -> a <> BUS_ADDR_MASTER -> forall addr, grants addr g = false.
Proof.
  intros (_ & <- & Hp) Ha addr. unfold grants.
  destruct (Z.eqb_spec (Z.land (f_type g) BUS_FT_MASK) BUS_FT_POLL); [done|].
  destruct (Z.eqb_spec (f_src g) BUS_ADDR_MASTER); [done|].
  by rewrite andb_false_r, andb_false_r.
Qed.

Definition addrs_of (ns : list (W * node_t)) : list Z := map (fun wn => n_my_addr wn.2) ns.

(** Nodes other than the one the frames are for: they may listen, but are silent. *)
Lemma hear_silent ns fs :
  Forall (fun wn => node_idle wn.2) ns ->
  Forall wire_ok fs ->
  Forall (fun addr => Forall (fun f => grants addr f = false) fs) (addrs_of ns) ->
  let rs := hear_all ns (concat (map bus_frame_encode fs)) in
  Forall (fun r => node_idle r.1.2 /\ r.2 = []) rs /\ addrs_of (map fst rs) = addrs_of ns.
Proof.
  intros Hid Hfs. induction Hid as [|[w n] ns Hn _ IH]; intros Hg; [done|].
  simpl in Hg. apply Forall_cons in Hg as [Hg Hgs]. destruct (IH Hgs) as [IH1 IH2].
  pose proof (node_hears w n fs Hn Hfs) as H. simpl.
  destruct (bus_node_task w n (concat (map bus_frame_encode fs))) as [[w' n'] outs].
  destruct H as (Hn' & Hmy & _ & Hs). split.
  - constructor; [|done]. split; [done|by apply Hs].
  - simpl. f_equal; [done|exact IH2].
Qed.

Lemma talkers_cons w n out (rs : list (W * node_t * list (list Z))) :
  talkers ((w, n, out) :: rs) =
  match out with [] => talkers rs | _ => n_my_addr n :: talkers rs end.
Proof. by destruct out. Qed.

Lemma line_of_cons w n out (rs : list (W * node_t * list (list Z))) :
  line_of ((w, n, out) :: rs) = concat out ++ line_of rs.
Proof. done. Qed.

Lemma talkers_app (rs rs' : list (W * node_t * list (list Z))) :
  talkers (rs ++ rs') = talkers rs ++ talkers rs'.
Proof. apply omap_app. Qed.

Lemma line_of_app (rs rs' : list (W * node_t * list (list Z))) :
  line_of (rs ++ rs') = line_of rs ++ line_of rs'.
Proof. unfold line_of. by rewrite map_app, concat_app. Qed.

Lemma hear_all_mid l1 w n l2 rx :
  hear_all (l1 ++ (w, n) :: l2) rx = hear_all l1 rx ++ bus_node_task w n rx :: hear_all l2 rx.
Proof. unfold hear_all. by rewrite map_app. Qed.

Lemma silent_results (rs : list (W * node_t * list (list Z))) :
  Forall (fun r => node_idle r.1.2 /\ r.2 = []) rs ->
  talkers rs = [] /\ line_of rs = [].
Proof.
  induction 1 as [|[[w n] out] rs [_ Ho] _ IH]; [done|]. simpl in Ho. subst out.
  destruct IH as [IH1 IH2]. by split.
Qed.

(** The grant: a frame of the master for address [a]. *)
Lemma hear_grant ns f a :
  Forall (fun wn => node_idle wn.2) ns -> NoDup (addrs_of ns) ->
  frame_wf f -> f_dest f = a -> a < 128 -> f_src f < 128 ->
  let rs := hear_all ns (bus_frame_encode f) in
  Forall (fun r => node_idle r.1.2) rs /\ addrs_of (map fst rs) = addrs_of ns /\
  (talkers rs = [] \/ talkers rs = [a]) /\
  exists gs, line_of rs = concat (map bus_frame_encode gs) /\
    Forall (fun g => frame_wf g /\ node_frame a g) gs.
Proof.
  intros Hid Hnd Hf Ha Hlow Hsrc. rewrite <- (app_nil_r (bus_frame_encode f)).
  change (bus_frame_encode f ++ []) with (concat (map bus_frame_encode [f])).
  assert (Hfs : Forall wire_ok [f])
    by (constructor; [split_and!; done || lia|constructor]).
  assert (Hother : forall addr, addr <> a -> Forall (fun f => grants addr f = false) [f]).
  { intros addr Hne. constructor; [|constructor]. unfold grants. rewrite Ha.
    by destruct (Z.eqb_spec a addr). }
  induction Hid as [|[w n] ns Hn Hns IH].
  { simpl. split_and!; try done; [by left|by exists []]. }
  simpl in Hnd. apply NoDup_cons in Hnd as [Hnin Hnd]. specialize (IH Hnd).
  pose proof (node_hears w n [f] Hn Hfs) as H.
  set (rx := concat (map bus_frame_encode [f])) in *.
  change (hear_all ((w, n) :: ns) rx) with (bus_node_task w n rx :: hear_all ns rx).
  destruct (bus_node_task w n rx) as [[w' n'] outs].
  destruct H as (Hn' & Hmy & (gs & Ho & Hgs) & Hs).
  destruct (decide (n_my_addr n = a)) as [Heq|Hne].
  - assert (Hrest : Forall (fun addr => Forall (fun f => grants addr f = false) [f]) (addrs_of ns)).
    { apply Forall_forall. intros addr Hin. apply Hother. intros ->. apply Hnin. by rewrite Heq. }
    destruct (hear_silent ns [f] Hns Hfs Hrest) as [Hsil Hadr].
    destruct (silent_results _ Hsil) as [Ht Hl]. fold rx in Hsil, Hadr, Ht, Hl. split_and!.
    + constructor; [done|]. eapply Forall_impl; [exact Hsil|]. by intros r [? _].
    + simpl. f_equal; [done|exact Hadr].
    + rewrite talkers_cons, Ht. destruct outs; [by left|right]. by rewrite Hmy, Heq.
    + exists gs. rewrite line_of_cons, Hl, app_nil_r, Ho. by rewrite <- Heq.
  - assert (Hout : outs = []) by (apply Hs; by apply Hother). clear Ho. subst outs.
    destruct IH as (H1 & H2 & H3 & gs' & H4 & H5). split_and!.
    + by constructor.
    + simpl. f_equal; [done|exact H2].
    + by rewrite talkers_cons.
    + exists gs'. by rewrite line_of_cons.
Qed.

(** The nodes that stayed silent overhear the granted node's frames. *)
Lemma overhear_silent rs a gs :
  Forall (fun r => node_idle r.1.2) rs -> a <> BUS_ADDR_MASTER -> a < 128 ->
  Forall (fun g => frame_wf g /\ node_frame a g) gs ->
  let rs' := overhear rs (concat (map bus_frame_encode gs)) in
  Forall (fun r => node_idle r.1.2 /\ r.2 = []) rs' /\
  addrs_of (map fst rs') = addrs_of (map fst rs).
Proof.
  intros Hid Ha Hlow Hgs.
  assert (Hfs : Forall wire_ok gs).
  { eapply Forall_impl; [exact Hgs|]. intros g (? & (? & ?) & Hsg & _).
    split_and!; done || lia. }
  assert (Hng : forall addr, Forall (fun f => grants addr f = false) gs).
  { intros addr. eapply Forall_impl; [exact Hgs|]. intros g [_ Hg]. by apply (no_grant_from a). }
  induction Hid as [|[[w n] out] rs Hn _ [IH1 IH2]]; [done|]. simpl in Hn. cbn [overhear map].
  destruct out as [|o out].
  - pose proof (node_hears w n gs Hn Hfs) as H.
    destruct (bus_node_task w n _) as [[w' n'] outs]. destruct H as (Hn' & Hmy & _ & Hs).
    split.
    + constructor; [|done]. split; [done|]. by apply Hs.
    + simpl. f_equal; [done|exact IH2].
  - split.
    + constructor; [|done]. by split.
    + simpl. f_equal. exact IH2.
Qed.

(** One slot, for any grant the controller may send. *)
Lemma grant_slot_spec b :
  bus_ok b ->
  let '(b', t, heard, c) := grant_slot b in
  bus_ok b' /\ c = [] /\ (t = [] \/ exists a, t = [a] /\ addr_valid a = true).
Proof.
  intros [Hr Hs Ha Hid Hn Hd]. unfold grant_slot.
  pose proof (bus_sched_tick_spec (b_roster b) (b_sched b) Hr Hs) as Htick.
  destruct (bus_sched_tick (b_roster b) (b_sched b)) as [[s' addr] ops].
  destruct Htick as [Hs' Htick].
  assert (Hcase : exists rs a gs, hear_all (b_nodes b) (sent_words ops) = rs /\
    Forall (fun r => node_idle r.1.2) rs /\ addrs_of (map fst rs) = addrs_of (b_nodes b) /\
    (talkers rs = [] \/ talkers rs = [a]) /\ line_of rs = concat (map bus_frame_encode gs) /\
    Forall (fun g => frame_wf g /\ node_frame a g) gs /\ addr_valid a = true).
  { destruct (enabled_from _ _) as [|i rest].
    - destruct Htick as (_ & -> & _).
      assert (Hnil : Forall (fun addr => Forall (fun f => grants addr f = false) []) (addrs_of (b_nodes b)))
        by (apply Forall_forall; constructor).
      destruct (hear_silent (b_nodes b) [] Hn ltac:(constructor) Hnil) as [H1 H2].
      destruct (silent_results _ H1) as [H3 H4].
      eexists _, 1, []. split; [done|]. split_and!; try done; [|by left].
      eapply Forall_impl; [exact H1|]. by intros r [? _].
    - destruct Htick as ((node & _ & _ & Hv) & f & -> & Hf & Hdst & Hsrc & _).
      assert (Hlow : addr < 128)
        by (unfold addr_valid, BUS_ADDR_SLAVE_MIN, BUS_ADDR_SLAVE_MAX in Hv; bools; lia).
      destruct (hear_grant (b_nodes b) f addr Hn Hd Hf Hdst Hlow ltac:(by rewrite Hsrc)) as (H1 & H2 & H3 & gs & H4 & H5).
      unfold sent_words. cbn [map concat]. rewrite app_nil_r. simpl app.
      eexists _, addr, gs. split; [done|]. by split_and!. }
  destruct Hcase as (rs & a & gs & -> & Hrs & Hadr & Ht & -> & Hgs & Hv).
  assert (Hne : a <> BUS_ADDR_MASTER).
  { unfold addr_valid, BUS_ADDR_SLAVE_MIN, BUS_ADDR_MASTER in *. bools. lia. }
  assert (Hfs : Forall (fun f => frame_wf f /\ f_dest f < 128) gs).
  { eapply Forall_impl; [exact Hgs|]. intros g (? & (? & ?) & _). by split. }
  destruct (asm_run_stream (b_asm b) gs Ha Hid Hfs) as (a' & heard & -> & _ & Ha' & Hid' & _).
  assert (Hlow : a < 128)
    by (unfold addr_valid, BUS_ADDR_SLAVE_MIN, BUS_ADDR_SLAVE_MAX in Hv; bools; lia).
  destruct (overhear_silent rs a gs Hrs Hne Hlow Hgs) as [Hrs' Hadr'].
  destruct (silent_results _ Hrs') as [-> _]. split_and!; [|done|].
  - split; simpl; try done.
    + apply Forall_map. eapply Forall_impl; [exact Hrs'|]. by intros r [? _].
    + change (NoDup (addrs_of (map fst (overhear rs (concat (map bus_frame_encode gs)))))).
      by rewrite Hadr', Hadr.
  - destruct Ht as [->| ->]; [by left|right]. by exists a.
Qed.

(** ** A POLL slot, exactly *)
Lemma node_task_one w n f :
  node_wf n -> a_state (n_asm n) = BUS_ASM_IDLE -> frame_wf f -> f_dest f < 128 ->
  addr_is_for_us (n_asm n) (f_dest f) = true ->
  exists g a', g ≡ f /\ frame_wf g /\ a_state a' = BUS_ASM_IDLE /\ asm_wf a' /\
    a_my_addr a' = a_my_addr (n_asm n) /\ a_promiscuous a' = a_promiscuous (n_asm n) /\
    bus_node_task w n (bus_frame_encode f) =
    let '(w', n', out) := node_handle w n g in (w', n' <| n_asm := a' |>, out ++ []).
Proof.
  intros Hwf Hid Hf Hlow Hus.
  destruct (asm_run_stream (n_asm n) [f] (nw_asm n Hwf) Hid) as (a' & gs & Hr & Hg & Ha & Hst & Hmy & Hpr & _).
  { constructor; [by split|constructor]. }
  cbn [map concat] in Hr. rewrite app_nil_r in Hr. rewrite filter_cons_True, filter_nil in Hg by done.
  apply list_equiv_Forall2 in Hg. apply Forall2_cons_inv_r in Hg as (g & gs' & Hgf & Hnil & ->).
  apply Forall2_nil_inv_r in Hnil as ->.
  pose proof (bus_asm_run_wf (n_asm n) (bus_frame_encode f) (nw_asm n Hwf)) as [_ Hgw].
  rewrite Hr in Hgw. apply Forall_cons in Hgw as [Hgw _].
  exists g, a'. split_and!; try done. rewrite bus_node_task_frames, Hr. simpl.
  by destruct (node_handle w n g) as [[w' n'] out].
Qed.

Lemma node_on_poll w n f :
  node_idle n -> f = frame_header (n_my_addr n) BUS_ADDR_MASTER BUS_FT_POLL 0 ->
  exists n', bus_node_task w n (bus_frame_encode f) =
    (w, n', map bus_frame_encode (txq_frames n ++ [no_message (n_my_addr n)])) /\
    node_idle n' /\ n_my_addr n' = n_my_addr n /\ txq_frames n' = [].
Proof.
  intros [Hwf Hid Hq] ->. pose proof (nw_addr n Hwf) as Had.
  unfold BUS_ADDR_SLAVE_MIN, BUS_ADDR_SLAVE_MAX in Had.
  set (f := frame_header (n_my_addr n) BUS_ADDR_MASTER BUS_FT_POLL 0).
  assert (Hf : frame_wf f) by (apply frame_header_wf; try done; apply fits_addr; lia).
  assert (Hlow : f_dest f < 128) by (simpl; lia).
  assert (Hus : addr_is_for_us (n_asm n) (f_dest f) = true).
  { unfold addr_is_for_us. simpl. rewrite (nw_same n Hwf), Z.eqb_refl. by rewrite orb_true_r. }
  destruct (node_task_one w n f Hwf Hid Hf Hlow Hus)
    as (g & a' & Hg & Hgw & Hst & Ha & Hmy & Hpr & Hr).
  rewrite Hr. destruct Hg as (Hgd & _ & Hgt & _). simpl in Hgd, Hgt.
  unfold node_handle. rewrite Hgt, Hgd. simpl.
  pose proof (node_emit_window_spec n Hwf) as H. destruct (node_emit_window n) as [n' out].
  destruct H as (Hwf' & Hasm & Hmy' & Ht & ->). rewrite Z.eqb_refl, app_nil_r.
  eexists. split; [done|]. split_and!; try done. split.
  - apply node_set_asm_wf; try done; congruence.
  - done.
  - unfold quiet. change (txq_frames (n' <| n_asm := a' |>)) with (txq_frames n'). by rewrite Ht.
Qed.

Lemma hear_poll l1 w n l2 :
  Forall (fun wn => node_idle wn.2) (l1 ++ (w, n) :: l2) ->
  NoDup (addrs_of (l1 ++ (w, n) :: l2)) ->
  let rs := hear_all (l1 ++ (w, n) :: l2)
    (bus_frame_encode (frame_header (n_my_addr n) BUS_ADDR_MASTER BUS_FT_POLL 0)) in
  talkers rs = [n_my_addr n] /\
  line_of rs = concat (map bus_frame_encode (txq_frames n ++ [no_message (n_my_addr n)])) /\
  exists n', rs !! length l1 = Some (w, n', map bus_frame_encode (txq_frames n ++ [no_message (n_my_addr n)])) /\
    n_my_addr n' = n_my_addr n /\ txq_frames n' = [].
Proof.
  intros Hid Hnd. set (f := frame_header _ _ _ _).
  apply Forall_app in Hid as [Hid1 Hid2]. apply Forall_cons in Hid2 as [Hn Hid2]. simpl in Hn.
  pose proof (nw_addr n (ni_wf n Hn)) as Had. unfold BUS_ADDR_SLAVE_MIN, BUS_ADDR_SLAVE_MAX in Had.
  assert (Hfs : Forall wire_ok [f]).
  { constructor; [|constructor]. split; [|simpl; split; [lia|done]].
    apply frame_header_wf; try done. apply fits_addr. lia. }
  assert (Hother : forall l, n_my_addr n ∉ addrs_of l ->
    Forall (fun addr => Forall (fun f => grants addr f = false) [f]) (addrs_of l)).
  { intros l Hl. apply Forall_forall. intros addr Hin. constructor; [|constructor].
    unfold grants. simpl. by destruct (Z.eqb_spec (n_my_addr n) addr) as [<-|]. }
  unfold addrs_of in Hnd. rewrite map_app in Hnd. apply NoDup_app in Hnd as (_ & Hd12 & Hnd2).
  simpl in Hnd2. apply NoDup_cons in Hnd2 as [Hnin2 _].
  assert (Hnin1 : n_my_addr n ∉ addrs_of l1) by (intros Hin; apply (Hd12 _ Hin); by left).
  destruct (hear_silent l1 [f] Hid1 Hfs (Hother l1 Hnin1)) as [Hs1 _].
  destruct (hear_silent l2 [f] Hid2 Hfs (Hother l2 Hnin2)) as [Hs2 _].
  cbn [map concat] in Hs1, Hs2. rewrite app_nil_r in Hs1, Hs2.
  destruct (silent_results _ Hs1) as [Ht1 Hl1]. destruct (silent_results _ Hs2) as [Ht2 Hl2].
  destruct (node_on_poll w n f Hn eq_refl) as (n' & Hr & _ & Hmy & Htx).
  cbv zeta. rewrite hear_all_mid, Hr, talkers_app, talkers_cons, line_of_app, line_of_cons.
  rewrite Ht1, Ht2, Hl1, Hl2, Hmy, app_nil_r, app_nil_l. split_and!.
  - by destruct (txq_frames n).
  - done.
  - exists n'. split_and!; try done.
    replace (length l1) with (length (hear_all l1 (bus_frame_encode f)))
      by (unfold hear_all; apply length_map).
    by apply list_lookup_middle.
Qed.
End Node.

(** ** Properties *)

(** C1. The bus is collision free: from any state between slots, with any
    application that queues only frames it may send, and for any number of grant
    slots (whatever the controller has queued), at most one node transmits in a
    slot, it is a node with a valid address, nobody answers over it, and the
    state between slots is well formed again. *)
Theorem bus_collision_free {W} `{!NodeApp W, !NodeAppOk W, !NodeAppQuiet W} (b : bus_t W) k :
  bus_ok b ->
  let '(b', l) := bus_run b k in
  bus_ok b' /\
  Forall (fun '(t, c) => c = [] /\ (t = [] \/ exists a, t = [a] /\ addr_valid a = true)) l.
Proof.
  revert b. induction k as [|k IH]; intros b Hb; [by split|]. simpl.
  pose proof (grant_slot_spec b Hb) as H. destruct (grant_slot b) as [[[b1 t] heard] c].
  destruct H as (Hb1 & Hc & Ht). specialize (IH b1 Hb1).
  destruct (bus_run b1 k) as [b2 l]. destruct IH as [Hb2 Hl].
  split; [done|]. by constructor.
Qed.

Lemma sample_bus_ok : bus_ok sample_bus.
Proof.
  assert (Hn : forall addr, addr = 5 \/ addr = 7 ->
    node_wf (sample_bus_node addr []) /\ quiet (sample_bus_node addr [])).
  { intros addr [-> | ->]; (split; [|by constructor]);
      (split; try done; try vm_decide; [by exists 0%nat|split; [vm_decide|done]]). }
  destruct (Hn 7 ltac:(by right)) as [H7 Hq7]. destruct (Hn 5 ltac:(by left)) as [H5 Hq5].
  split.
  - split; vm_decide.
  - apply empty_sched_wf.
  - split; [vm_decide|done].
  - done.
  - constructor; [by split|]. constructor; [|constructor].
    assert (H : Forall call_ok [sample_call 0 0x11; sample_call 7 0x22]).
    { constructor; [|constructor; [|constructor]]; apply sample_call_ok; lia || vm_decide. }
    split; simpl.
    + by apply (do_calls_spec [_; _] (sample_bus_node 5 [])).
    + done.
    + apply (do_calls_quiet [_; _] (sample_bus_node 5 [])); try done.
      by repeat constructor.
  - vm_decide.
Qed.

#[export] Instance weak_app_quiet : @NodeAppQuiet unit weak_on_data.
Proof. intros w f Hf. constructor. Qed.

Lemma bus_collision_free_witness :
  let '(b', _) := @bus_run unit weak_on_data sample_bus 3 in bus_ok b'.
Proof.
  pose proof (@bus_collision_free unit weak_on_data weak_app_ok weak_app_quiet
    sample_bus 3 sample_bus_ok) as H.
  destruct (bus_run _ _) as [b' l]. exact (proj1 H).
Defined.

(** C19. A POLL slot works end to end: when the next enabled roster entry is the
    address of a node on the bus and no message is queued for it, that node
    alone transmits; the controller's receiver delivers, in order, the queued
    frames that are addressed to the controller (or broadcast) followed by the
    node's NO_MESSAGE; and the node's queue is empty afterwards. *)
Theorem bus_poll_collects {W} `{!NodeApp W, !NodeAppOk W, !NodeAppQuiet W}
    (b : bus_t W) i rest node l1 w n l2 :
  bus_ok b -> a_my_addr (b_asm b) = BUS_ADDR_MASTER ->
  enabled_from (b_roster b) (Z.to_nat (st_cursor (b_sched b))) = i :: rest ->
  g_roster (b_roster b) !! i = Some node -> s_addr node = n_my_addr n ->
  Forall (fun g => f_dest g <> s_addr node) (sched_pending (b_sched b)) ->
  b_nodes b = l1 ++ (w, n) :: l2 ->
  let '(b', t, heard, _) := grant_slot b in
  t = [n_my_addr n] /\
  heard ≡ filter (fun f => addr_is_for_us (b_asm b) (f_dest f) = true) (txq_frames n)
          ++ [no_message (n_my_addr n)] /\
  exists n', b_nodes b' !! length l1 = Some (w, n') /\ txq_frames n' = [].
Proof.
  intros [Hr Hs Ha Hid Hn Hd] Hmaster Hen Hnode Haddr Hpend Hns. unfold grant_slot.
  pose proof (bus_sched_tick_spec (b_roster b) (b_sched b) Hr Hs) as Htick.
  destruct (bus_sched_tick (b_roster b) (b_sched b)) as [[s' addr] ops].
  destruct Htick as [_ Htick]. rewrite Hen in Htick.
  destruct Htick as ((node' & Hnode' & -> & _) & f & -> & _ & _ & _ & Hcase).
  assert (node' = node) as -> by congruence.
  destruct Hcase as [[(g & Hg & Hgd) _]|(_ & -> & _)].
  { rewrite Forall_forall in Hpend. by destruct (Hpend g Hg). }
  unfold sent_words. cbn [map concat]. rewrite app_nil_r, app_nil_l, Haddr.
  rewrite Hns in Hn, Hd |- *.
  destruct (hear_poll l1 w n l2 Hn Hd) as (Ht & Hl & n' & Hlk & Hmy & Htx).
  set (rs := hear_all _ _) in *. rewrite Ht, Hl.
  apply Forall_app in Hn as [_ Hn]. apply Forall_cons in Hn as [[Hwf _ Hq] _].
  assert (Hfs : Forall (fun f => frame_wf f /\ f_dest f < 128)
    (txq_frames n ++ [no_message (n_my_addr n)])).
  { apply Forall_app. split.
    - pose proof (txq_frames_wf n Hwf) as Hfw. unfold quiet in Hq.
      rewrite Forall_forall in Hq, Hfw. apply Forall_forall. intros x Hx.
      destruct (Hq x Hx) as [[? ?] _]. auto.
    - constructor; [|constructor]. split; [by apply no_message_wf|done]. }
  destruct (asm_run_stream (b_asm b) _ Ha Hid Hfs) as (a' & heard & -> & Hh & _).
  rewrite filter_app, (filter_cons_True _ (no_message _)), filter_nil in Hh
    by (unfold addr_is_for_us; rewrite Hmaster; simpl; by rewrite orb_true_r).
  split_and!; try done. exists n'. split; [|done]. simpl.
  rewrite list_lookup_fmap. unfold overhear. rewrite list_lookup_fmap, Hlk. simpl.
  by destruct (txq_frames n).
Qed.

Lemma bus_poll_collects_witness :
  let '(_, t, heard, _) := @grant_slot unit weak_on_data sample_bus in
  t = [5] /\ length heard = 2%nat.
Proof.
  pose proof (@bus_poll_collects unit weak_on_data weak_app_ok weak_app_quiet sample_bus
    0%nat [2%nat] (mk_slave 5 0 2 0 0 0) [(tt, sample_bus_node 7 [])] tt
    (sample_bus_node 5 [sample_call 0 0x11; sample_call 7 0x22]) []
    sample_bus_ok eq_refl eq_refl eq_refl eq_refl ltac:(constructor) eq_refl) as H.
  destruct (grant_slot sample_bus) as [[[b' t] heard] c] eqn:E. destruct H as (Ht & _).
  split; [exact Ht|].
  assert (Hl : length heard = length (@grant_slot unit weak_on_data sample_bus).1.2)
    by (rewrite E; reflexivity).
  rewrite Hl. vm_compute. reflexivity.
Defined.
