(* ===== verification/NodeRole.v ===== *)
(** The slave application ([node/node_role.c], [node/node_role.h]): the
    [bus_node_on_data] hook that answers a shell-exec request. The engine router
    and the command dispatcher it calls are an interface. *)
From S2P Require Import Prelude BusFrame BusNode BusSystem.

Definition OP_SHELL_EXEC : Z := 0x0109.
Definition OP_SHELL_REPLY : Z := 0x0011.
Definition NODE_SHELL_UNKNOWN : Z := 1.
Definition CMD_NOT_MINE : Z := 0xFF.
Definition SHELL_ASYNC : Z := 0xFE.

Inductive reply_sink_kind_t := SINK_USB | SINK_BUS | SINK_ENGINE.
Record reply_sink_t := mk_sink { rs_kind : reply_sink_kind_t; rs_dest : Z; rs_req_id : Z }.

(** [node_engine_try_route] and [node_cmd_dispatch], which live with the master's
    code: the router says whether it claimed the command, the dispatcher returns
    its status and the bytes [out[0 .. outlen)]. *)
Class NodeCommands (W : Type) := {
  node_engine_try_route : W -> Z -> Z -> Z -> list Z -> W * bool;
  node_cmd_dispatch : W -> Z -> list Z -> Z -> reply_sink_t -> W * Z * list Z
}.

(** A status and an output of bytes. *)
Class NodeCommandsOk (W : Type) `{!NodeCommands W} := dispatch_bytes w cmd args cap sink :
  let '(_, st, out) := node_cmd_dispatch w cmd args cap sink in fits 8 st /\ bytes_ok out.

Section Role.
Context {W : Type} `{!NodeCommands W}.

(** The bytes written to [r[0 .. n)]. *)
Definition reply_header (req : Z) : list Z :=
  [u8 (Z.land OP_SHELL_REPLY 0xFF); u8 (Z.shiftr OP_SHELL_REPLY 8);
   u8 (Z.land req 0xFF); u8 (Z.shiftr req 8)].

Definition bus_node_on_data (w : W) (src : Z) (payload : list Z) (len : Z)
    : W * list queue_call :=
  if len <? 6 then (w, [])
  else
    let op := le16 (zget 0 payload 0) (zget 0 payload 1) in
    if negb (op =? OP_SHELL_EXEC) then (w, [])
    else
      let req := le16 (zget 0 payload 2) (zget 0 payload 3) in
      let cmd := le16 (zget 0 payload 4) (zget 0 payload 5) in
      let alen := u8 (len - 6) in
      let args := take (Z.to_nat alen) (drop 6 payload) in
      let '(w, routed) := node_engine_try_route w src req cmd args in
      if routed then (w, [])
      else
        let r := reply_header req in
        let sink := mk_sink SINK_BUS src req in
        let '(w, st, out) := node_cmd_dispatch w cmd args (u8 (BUS_PAYLOAD_MAX - zlen r)) sink in
        if st =? SHELL_ASYNC then (w, [])
        else
          let r :=
            if st =? CMD_NOT_MINE then r ++ [NODE_SHELL_UNKNOWN]
            else let r := r ++ [st] in
                 r ++ take (Z.to_nat (BUS_PAYLOAD_MAX - zlen r)) out in
          (w, [mk_call src BUS_FT_DATA r (zlen r)]).

#[export] Instance role_app : NodeApp W := bus_node_on_data.
End Role.

(** The request the controller sends and the reply it expects. *)
Definition exec_payload (req cmd : Z) (args : list Z) : list Z :=
  [lo8 OP_SHELL_EXEC; hi8 OP_SHELL_EXEC; lo8 req; hi8 req; lo8 cmd; hi8 cmd] ++ args.

Definition reply_payload (req st : Z) (out : list Z) : list Z :=
  [lo8 OP_SHELL_REPLY; hi8 OP_SHELL_REPLY; lo8 req; hi8 req] ++
  (if st =? CMD_NOT_MINE then [NODE_SHELL_UNKNOWN] else st :: take 235 out).

(** A message as a frame object over a zeroed array. *)
Definition data_frame (dest src : Z) (payload : list Z) : bus_frame_t :=
  frame_fill (frame_header 0 0 0 0) dest src BUS_FT_DATA 0 (zlen payload) payload.

(** A dispatcher that echoes, for the examples. *)
Definition echo_commands : NodeCommands unit := {|
  node_engine_try_route := fun w _ _ _ _ => (w, false);
  node_cmd_dispatch := fun w cmd args _ _ => (w, if cmd =? 1 then 0 else CMD_NOT_MINE, map u8 args)
|}.

(** ** Lemmas *)
Section RoleLemmas.
Context {W : Type} `{!NodeCommands W}.

Lemma reply_shape req st out :
  (let r := reply_header req in
   if st =? CMD_NOT_MINE then r ++ [NODE_SHELL_UNKNOWN]
   else let r := r ++ [st] in r ++ take (Z.to_nat (BUS_PAYLOAD_MAX - zlen r)) out)
  = reply_payload req st out.
Proof.
  unfold reply_payload, reply_header. cbv zeta.
  destruct (st =? CMD_NOT_MINE); [done|]. simpl app. unfold zlen. simpl length.
  by change (Z.to_nat (BUS_PAYLOAD_MAX - Z.of_nat 5)) with 235%nat.
Qed.

Lemma reply_payload_ok req st out :
  fits 8 st -> bytes_ok out ->
  bytes_ok (reply_payload req st out) /\ 5 <= zlen (reply_payload req st out) <= BUS_PAYLOAD_MAX.
Proof.
  intros Hst Hout. unfold reply_payload. split.
  - apply Forall_app. split; [repeat (constructor; [apply u8_fits|]); constructor|].
    destruct (_ =? _); [solve_bytes|]. constructor; [done|]. by apply Forall_take.
  - unfold zlen, BUS_PAYLOAD_MAX. rewrite length_app. simpl length.
    destruct (_ =? _); simpl length; [lia|]. rewrite length_take. lia.
Qed.

(** The hook on every branch of an exec request. *)
Lemma role_on_exec w src req cmd args rest :
  fits 16 req -> fits 16 cmd -> zlen args <= 234 ->
  node_on_data w src (exec_payload req cmd args ++ rest) (6 + zlen args) =
  let '(w, routed) := node_engine_try_route w src req cmd args in
  if routed then (w, [])
  else
    let '(w, st, out) := node_cmd_dispatch w cmd args 236 (mk_sink SINK_BUS src req) in
    if st =? SHELL_ASYNC then (w, [])
    else let r := reply_payload req st out in (w, [mk_call src BUS_FT_DATA r (zlen r)]).
Proof.
  intros Hr Hc Hl. pose proof (zlen_nonneg args).
  unfold node_on_data, role_app, bus_node_on_data.
  destruct (Z.ltb_spec (6 + zlen args) 6); [lia|].
  change (zget 0 (exec_payload req cmd args ++ rest) 0) with (lo8 OP_SHELL_EXEC).
  change (zget 0 (exec_payload req cmd args ++ rest) 1) with (hi8 OP_SHELL_EXEC).
  change (zget 0 (exec_payload req cmd args ++ rest) 2) with (lo8 req).
  change (zget 0 (exec_payload req cmd args ++ rest) 3) with (hi8 req).
  change (zget 0 (exec_payload req cmd args ++ rest) 4) with (lo8 cmd).
  change (zget 0 (exec_payload req cmd args ++ rest) 5) with (hi8 cmd).
  change (drop 6 (exec_payload req cmd args ++ rest)) with (args ++ rest).
  rewrite !le16_lo_hi by (done || vm_decide). cbn [negb].
  replace (u8 (6 + zlen args - 6)) with (zlen args)
    by (rewrite u8_id; unfold fits; change (2 ^ 8) with 256; lia).
  assert (Ht : take (Z.to_nat (zlen args)) (args ++ rest) = args)
    by (unfold zlen; by rewrite Nat2Z.id, take_app_length).
  rewrite Ht.
  destruct (OP_SHELL_EXEC =? OP_SHELL_EXEC) eqn:E; [|done]. cbn [negb].
  destruct (node_engine_try_route w src req cmd args) as [w1 []]; [done|].
  change (u8 (BUS_PAYLOAD_MAX - zlen (reply_header req))) with 236.
  destruct (node_cmd_dispatch w1 cmd args 236 _) as [[w2 st] out].
  destruct (st =? SHELL_ASYNC); [done|].
  pose proof (reply_shape req st out) as Hs. cbv zeta in Hs |- *. by rewrite Hs.
Qed.

(** Every call the hook makes is one the bus logic accepts, and never a POLL. *)
Lemma role_calls w src payload len `{!NodeCommandsOk W} :
  fits 8 src ->
  Forall (fun k => call_ok k /\ k_type k = BUS_FT_DATA /\ k_dest k = src)
    (node_on_data w src payload len).2.
Proof.
  intros Hsrc. unfold node_on_data, role_app, bus_node_on_data.
  destruct (len <? 6); [constructor|]. destruct (negb _); [constructor|].
  destruct (node_engine_try_route _ _ _ _ _) as [w1 []]; [constructor|].
  set (req := le16 (zget 0 payload 2) _). set (cmd := le16 (zget 0 payload 4) _).
  set (args := take _ _).
  pose proof (dispatch_bytes w1 cmd args
    (u8 (BUS_PAYLOAD_MAX - zlen (reply_header req))) (mk_sink SINK_BUS src req)) as H.
  destruct (node_cmd_dispatch w1 cmd args _ _) as [[w2 st] out]. destruct H as [Hst Hout].
  destruct (st =? SHELL_ASYNC); [constructor|].
  pose proof (reply_shape req st out) as Hs. cbv zeta in Hs |- *. rewrite Hs.
  destruct (reply_payload_ok req st out Hst Hout) as [Hb Hl]. unfold BUS_PAYLOAD_MAX in Hl.
  constructor; [|constructor]. split; [|done]. split; try done; simpl; try lia.
  unfold fits. change (2 ^ 8) with 256. lia.
Qed.

#[export] Instance role_app_ok `{!NodeCommandsOk W} : NodeAppOk W.
Proof.
  intros w f Hf. pose proof (role_calls w (f_src f) (f_payload f) (f_len f) (fw_src f Hf)) as H.
  eapply Forall_impl; [exact H|]. by intros k [? _].
Qed.

#[export] Instance role_app_quiet `{!NodeCommandsOk W} : NodeAppQuiet W.
Proof.
  intros w f Hf Hsrc. pose proof (role_calls w (f_src f) (f_payload f) (f_len f) (fw_src f Hf)) as H.
  eapply Forall_impl; [exact H|].
  intros k (_ & Ht & Hd). split; [by rewrite Hd|by rewrite Ht].
Qed.
End RoleLemmas.

(** The hook looks only at the declared bytes of the payload array. *)
Lemma data_frame_payload f dest src ps :
  f ≡ data_frame dest src ps ->
  f_src f = src /\ f_len f = zlen ps /\ exists rest, f_payload f = ps ++ rest.
Proof.
  intros (_ & Hs & _ & _ & Hl & Hd). split_and!; [done|done|].
  unfold data_frame in Hd. rewrite frame_fill_data in Hd by (pose proof (zlen_nonneg ps); lia).
  unfold zlen in Hd. rewrite Nat2Z.id, firstn_all in Hd.
  exists (drop (Z.to_nat (f_len f)) (f_payload f)). unfold frame_data in Hd.
  by rewrite <- Hd, take_drop.
Qed.

Lemma exec_payload_ok req cmd args :
  bytes_ok args -> zlen args <= 234 ->
  bytes_ok (exec_payload req cmd args) /\ zlen (exec_payload req cmd args) = 6 + zlen args.
Proof.
  intros Ha Hl. split.
  - repeat (constructor; [apply u8_fits|]). done.
  - unfold exec_payload, zlen. rewrite length_app. simpl. lia.
Qed.

Lemma data_frame_wf dest src ps :
  fits 8 dest -> fits 8 src -> bytes_ok ps -> zlen ps <= BUS_PAYLOAD_MAX ->
  frame_wf (data_frame dest src ps).
Proof.
  intros Hd Hs Hb Hl. pose proof (zlen_nonneg ps). apply frame_fill_wf; try done.
  by apply frame_header_wf.
Qed.

(** ** Properties *)

(** C24. The two-phase command exchange over the wire: an idle node with an empty
    queue that receives the controller's shell-exec DATA frame answers at once
    with exactly one ACK; when it is polled next it transmits exactly one reply
    to the controller, carrying the request id, the dispatcher's status (or
    UNKNOWN for a command nobody claims) and its output cut to the frame's
    capacity, then NO_MESSAGE; its queue is empty again. *)
Theorem role_command_exchange {W} `{!NodeCommands W, !NodeCommandsOk W}
    w n req cmd args w1 w2 st out :
  node_idle n -> txq_frames n = [] -> fits 16 req -> fits 16 cmd ->
  bytes_ok args -> zlen args <= 234 ->
  node_engine_try_route w BUS_ADDR_MASTER req cmd args = (w1, false) ->
  node_cmd_dispatch w1 cmd args 236 (mk_sink SINK_BUS BUS_ADDR_MASTER req) = (w2, st, out) ->
  st <> SHELL_ASYNC ->
  let a := n_my_addr n in
  exists n1 n2,
    bus_node_task w n (bus_frame_encode (data_frame a BUS_ADDR_MASTER (exec_payload req cmd args)))
      = (w2, n1, [bus_frame_encode (frame_header BUS_ADDR_MASTER a BUS_FT_ACK 0)]) /\
    bus_node_task w2 n1 (bus_frame_encode (frame_header a BUS_ADDR_MASTER BUS_FT_POLL 0))
      = (w2, n2, [bus_frame_encode (data_frame BUS_ADDR_MASTER a (reply_payload req st out));
                  bus_frame_encode (no_message a)]) /\
    node_idle n2 /\ txq_frames n2 = [].
Proof.
  intros [Hwf Hid Hq] Htx Hreq Hcmd Hargs Hlen Hroute Hdisp Hst a.
  destruct (exec_payload_ok req cmd args Hargs Hlen) as [Hpb Hpl].
  pose proof (nw_addr n Hwf) as Ha. unfold BUS_ADDR_SLAVE_MIN, BUS_ADDR_SLAVE_MAX in Ha.
  assert (Ha8 : fits 8 a) by (apply fits_addr; unfold a; lia).
  set (f := data_frame a BUS_ADDR_MASTER (exec_payload req cmd args)).
  assert (Hf : frame_wf f)
    by (apply data_frame_wf; try done; unfold BUS_PAYLOAD_MAX; rewrite Hpl; lia).
  assert (Hus : addr_is_for_us (n_asm n) (f_dest f) = true).
  { unfold addr_is_for_us. simpl. rewrite (nw_same n Hwf), Z.eqb_refl. by rewrite orb_true_r. }
  assert (Hlow : f_dest f < 128) by (unfold f, a; simpl; lia).
  destruct (node_task_one w n f Hwf Hid Hf Hlow Hus)
    as (g & a' & Hg & Hgw & Hst' & Ha' & Hmy & Hpr & Hr).
  destruct (data_frame_payload g a BUS_ADDR_MASTER _ Hg) as (Hgs & Hgl & rest & Hgp).
  pose proof Hg as (Hgd & _ & Hgt & _). simpl in Hgd, Hgt.
  (* the hook on the delivered frame *)
  pose proof (role_on_exec w BUS_ADDR_MASTER req cmd args rest Hreq Hcmd Hlen) as Hon.
  rewrite Hroute, Hdisp in Hon. destruct (Z.eqb_spec st SHELL_ASYNC); [done|].
  cbv zeta in Hon. set (rp := reply_payload req st out) in *.
  pose proof (dispatch_bytes w1 cmd args 236 (mk_sink SINK_BUS BUS_ADDR_MASTER req)) as Hdb.
  rewrite Hdisp in Hdb. destruct Hdb as [Hst8 Hout].
  destruct (reply_payload_ok req st out Hst8 Hout) as [Hrb Hrl]. fold rp in Hrb, Hrl.
  set (k := mk_call BUS_ADDR_MASTER BUS_FT_DATA rp (zlen rp)) in *.
  assert (Hk : call_ok k).
  { unfold BUS_PAYLOAD_MAX in Hrl. split; try done; simpl.
    unfold fits. change (2 ^ 8) with 256. lia. }
  assert (Hkq : call_quiet k) by done.
  destruct (do_call_spec n k Hwf Hk) as (Hwf1 & Hasm1 & Hmy1).
  set (n1 := do_call n k <| n_asm := a' |>).
  assert (Hi1 : node_idle n1).
  { split; [apply node_set_asm_wf; try done; congruence|done|].
    unfold quiet. by apply (do_call_quiet n k). }
  assert (Hmyn1 : n_my_addr n1 = a) by done.
  assert (Hf1 : txq_frames n1 ≡ [data_frame BUS_ADDR_MASTER a rp]).
  { pose proof (bus_node_queue_spec n k Hwf Hk) as Hq1. unfold n1.
    change (txq_frames (do_call n k <| n_asm := a' |>)) with (txq_frames (do_call n k)).
    unfold do_call. destruct (bus_node_queue _ _ _ _ _) as [n' b].
    destruct Hq1 as (_ & _ & _ & -> & Hfr). rewrite Htx in Hfr. simpl in Hfr |- *.
    unfold k in Hfr. simpl in Hfr. destruct (Z.leb_spec (zlen rp) BUS_PAYLOAD_MAX); [|lia].
    exact Hfr. }
  destruct (node_on_poll w2 n1 _ Hi1 eq_refl) as (n2 & Hp & Hi2 & _ & Ht2).
  exists n1, n2. split_and!; try done.
  - rewrite Hr. unfold node_handle. rewrite Hgt, Hgs, Hgl, Hgp, Hgd, Hpl.
    change (Z.land BUS_FT_DATA BUS_FT_MASK =? BUS_FT_DATA) with true. cbv iota.
    rewrite Hon. simpl. rewrite Hmy1, Z.eqb_refl. simpl. unfold node_emit_ack. by rewrite Hmy1.
  - rewrite Hmyn1 in Hp. rewrite Hp. rewrite map_app.
    by rewrite (map_encode_equiv _ _ (txq_frames_wf n1 (ni_wf n1 Hi1)) Hf1).
Qed.

Lemma echo_commands_ok : @NodeCommandsOk unit echo_commands.
Proof.
  intros w cmd args cap sink. simpl. split; [by destruct (cmd =? 1)|].
  apply Forall_forall. intros x Hx. apply list_elem_of_fmap in Hx as (y & -> & _).
  apply u8_fits.
Qed.

Lemma role_command_exchange_witness :
  exists n1 n2,
    @bus_node_task unit (@role_app unit echo_commands) tt sample_node
      (bus_frame_encode (data_frame 5 0 (exec_payload 0x1234 1 [7; 8])))
      = (tt, n1, [bus_frame_encode (frame_header 0 5 BUS_FT_ACK 0)]) /\
    @bus_node_task unit (@role_app unit echo_commands) tt n1
      (bus_frame_encode (frame_header 5 0 BUS_FT_POLL 0))
      = (tt, n2, [bus_frame_encode (data_frame 0 5 [0x11; 0; 0x34; 0x12; 0; 7; 8]);
                  bus_frame_encode (no_message 5)]).
Proof.
  destruct (@role_command_exchange unit echo_commands echo_commands_ok tt sample_node
    0x1234 1 [7; 8] tt tt 0 [7; 8]) as (n1 & n2 & H1 & H2 & _).
  - split; [apply sample_node_wf|reflexivity|constructor].
  - reflexivity.
  - vm_decide.
  - vm_decide.
  - vm_decide.
  - vm_compute. discriminate.
  - reflexivity.
  - reflexivity.
  - discriminate.
  - exists n1, n2. split; [exact H1|exact H2].
Defined.
