(* ===== verification/LibcommFrame.v ===== *)
(** The uplink byte ring and SLIP frame codec
    ([port/rp2040/vendor/libcomm/frame.h], [frame.c]). *)
From S2P Require Import Prelude Crc8.

Definition COMM_PAYLOAD_MAX : Z := 128.
Definition FRAME_END : Z := 0xC0.
Definition FRAME_ESC : Z := 0xDB.
Definition FRAME_ESC_END : Z := 0xDC.
Definition FRAME_ESC_ESC : Z := 0xDD.
Definition FRAME_BUFFER_MAX : Z := 7 + COMM_PAYLOAD_MAX + 1.

(** [crc8_autosar] is the same function as [bus_crc8]. *)
Definition crc8_autosar_update : Z -> Z -> Z := bus_crc8_update.
Definition crc8_autosar (data : list Z) : Z := Z.lxor (foldl crc8_autosar_update 0xFF data) 0xFF.

(** ** Byte ring *)
Record frame_ring_t := mk_ring { rg_buf : list Z; rg_mask : Z; rg_head : Z; rg_tail : Z }.
#[export] Instance eta_frame_ring_t : Settable frame_ring_t := fun r =>
  mk_ring (rg_buf r) (rg_mask r) (rg_head r) (rg_tail r).

Definition frame_ring_init (buf : list Z) (size_pow2 : Z) : frame_ring_t :=
  mk_ring buf (u32 (size_pow2 - 1)) 0 0.

Definition frame_ring_used (r : frame_ring_t) : Z := u32 (rg_head r - rg_tail r).
Definition frame_ring_free (r : frame_ring_t) : Z := u32 (u32 (rg_mask r + 1) - frame_ring_used r).

(** Returns the span and the index [*out_ptr] points at. *)
Definition frame_ring_write_reserve (r : frame_ring_t) : Z * option Z :=
  let avail := frame_ring_free r in
  if avail =? 0 then (0, None)
  else
    let head_idx := Z.land (rg_head r) (rg_mask r) in
    let to_end := u32 (u32 (rg_mask r + 1) - head_idx) in
    let span := if avail <? to_end then avail else to_end in
    (span, Some head_idx).

Definition frame_ring_write_commit (r : frame_ring_t) (n : Z) : frame_ring_t :=
  r <| rg_head ::= fun h => u32 (h + n) |>.

Definition ring_write_byte_unchecked (r : frame_ring_t) (b : Z) : frame_ring_t :=
  r <| rg_buf ::= fun l => zset l (Z.land (rg_head r) (rg_mask r)) b |>
    <| rg_head ::= fun h => u32 (h + 1) |>.

Definition frame_ring_write_byte (r : frame_ring_t) (b : Z) : frame_ring_t * Z :=
  if frame_ring_free r =? 0 then (r, 0) else (ring_write_byte_unchecked r b, 1).

Definition frame_ring_read_byte (r : frame_ring_t) : frame_ring_t * option Z :=
  if rg_tail r =? rg_head r then (r, None)
  else (r <| rg_tail ::= fun t => u32 (t + 1) |>,
        Some (zget 0 (rg_buf r) (Z.land (rg_tail r) (rg_mask r)))).

(** The bytes written to [dst]; their number is the return value. *)
Definition frame_ring_read_drain (r : frame_ring_t) (max : Z) : frame_ring_t * list Z :=
  let avail := frame_ring_used r in
  let n := if avail <? max then avail else max in
  (r <| rg_tail ::= fun t => u32 (t + n) |>,
   map (fun i => zget 0 (rg_buf r) (Z.land (u32 (rg_tail r + Z.of_nat i)) (rg_mask r)))
     (seq 0 (Z.to_nat n))).

(** ** Frames *)
Record frame_meta_t := mk_meta {
  m_addr : Z; m_cmd : Z; m_seq : Z; m_ack_seq : Z; m_ack_status : Z; m_payload_len : Z
}.

Inductive frame_dir_t := FRAME_DIR_M2S | FRAME_DIR_S2M.
#[export] Instance frame_dir_eq_dec : EqDecision frame_dir_t.
Proof. solve_decision. Defined.

(** ** Encoder *)
Definition slip_emit_byte (r : frame_ring_t) (b : Z) : frame_ring_t * Z :=
  if b =? FRAME_END then
    if frame_ring_free r <? 2 then (r, -1)
    else (ring_write_byte_unchecked (ring_write_byte_unchecked r FRAME_ESC) FRAME_ESC_END, 0)
  else if b =? FRAME_ESC then
    if frame_ring_free r <? 2 then (r, -1)
    else (ring_write_byte_unchecked (ring_write_byte_unchecked r FRAME_ESC) FRAME_ESC_ESC, 0)
  else
    if frame_ring_free r <? 1 then (r, -1)
    else (ring_write_byte_unchecked r b, 0).

(** The emission loops, which stop at the first byte that does not fit. *)
Fixpoint slip_emit_all (r : frame_ring_t) (bs : list Z) : frame_ring_t * Z :=
  match bs with
  | [] => (r, 0)
  | b :: bs =>
      let '(r, rc) := slip_emit_byte r b in
      if rc <? 0 then (r, -1) else slip_emit_all r bs
  end.

Definition frame_header_bytes (dir : frame_dir_t) (m : frame_meta_t) : list Z :=
  match dir with
  | FRAME_DIR_S2M =>
      [m_addr m; u8 (Z.land (m_cmd m) 0xFF); u8 (Z.land (Z.shiftr (m_cmd m) 8) 0xFF);
       m_seq m; m_ack_seq m; m_ack_status m; m_payload_len m]
  | FRAME_DIR_M2S =>
      [m_addr m; u8 (Z.land (m_cmd m) 0xFF); u8 (Z.land (Z.shiftr (m_cmd m) 8) 0xFF);
       m_seq m; m_payload_len m]
  end.

Definition frame_encode_common (m : frame_meta_t) (payload : list Z) (ring : frame_ring_t)
    (dir : frame_dir_t) : frame_ring_t * Z :=
  if COMM_PAYLOAD_MAX <? m_payload_len m then (ring, -1)
  else
    let saved_head := rg_head ring in
    let hdr := frame_header_bytes dir m in
    let body := take (Z.to_nat (m_payload_len m)) payload in
    let crc := foldl crc8_autosar_update 0xFF hdr in
    let crc := foldl crc8_autosar_update crc body in
    let crc := Z.lxor crc 0xFF in
    let fail r := (r <| rg_head := saved_head |>, -1) in
    if frame_ring_free ring <? 1 then fail ring
    else
      let r := ring_write_byte_unchecked ring FRAME_END in
      let '(r, rc) := slip_emit_all r hdr in
      if rc <? 0 then fail r else
      let '(r, rc) := slip_emit_all r body in
      if rc <? 0 then fail r else
      let '(r, rc) := slip_emit_byte r crc in
      if rc <? 0 then fail r else
      if frame_ring_free r <? 1 then fail r
      else (ring_write_byte_unchecked r FRAME_END, 0).

Definition frame_encode_m2s (m : frame_meta_t) (payload : list Z) (ring : frame_ring_t) :=
  frame_encode_common m payload ring FRAME_DIR_M2S.
Definition frame_encode_s2m (m : frame_meta_t) (payload : list Z) (ring : frame_ring_t) :=
  frame_encode_common m payload ring FRAME_DIR_S2M.

(** ** Incremental decoder *)
Inductive frame_decode_result_t :=
| FRAME_DECODE_NEED_MORE
| FRAME_DECODE_FRAME_READY (out_meta : frame_meta_t) (out_payload : list Z)
| FRAME_DECODE_BAD_CRC
| FRAME_DECODE_OVERFLOW
| FRAME_DECODE_BAD_LEN.

Record frame_decoder_t := mk_dec {
  d_dir : frame_dir_t; d_in_escape : bool; d_in_frame : bool; d_len : Z; d_buf : list Z
}.
#[export] Instance eta_frame_decoder_t : Settable frame_decoder_t := fun d =>
  mk_dec (d_dir d) (d_in_escape d) (d_in_frame d) (d_len d) (d_buf d).

Definition frame_decoder_init (dir : frame_dir_t) : frame_decoder_t :=
  mk_dec dir false false 0 (replicate (Z.to_nat FRAME_BUFFER_MAX) 0).

Definition decoder_reset_body (d : frame_decoder_t) : frame_decoder_t :=
  d <| d_len := 0 |> <| d_in_escape := false |>.

(** The trailing END: validation of the [d_len] bytes collected. *)
Definition decoder_validate (d : frame_decoder_t) : frame_decode_result_t :=
  let hdr_len := match d_dir d with FRAME_DIR_M2S => 5 | FRAME_DIR_S2M => 7 end in
  if d_len d <? hdr_len + 1 then FRAME_DECODE_BAD_LEN
  else
    let recv_crc := zget 0 (d_buf d) (d_len d - 1) in
    let computed := foldl crc8_autosar_update 0xFF (take (Z.to_nat (d_len d - 1)) (d_buf d)) in
    let computed := Z.lxor computed 0xFF in
    if negb (computed =? recv_crc) then FRAME_DECODE_BAD_CRC
    else
      let declared_len := zget 0 (d_buf d) (hdr_len - 1) in
      if (COMM_PAYLOAD_MAX <? declared_len) || negb (hdr_len + declared_len + 1 =? d_len d)
      then FRAME_DECODE_BAD_LEN
      else
        let ack := match d_dir d with
                   | FRAME_DIR_M2S => (0, 0)
                   | FRAME_DIR_S2M => (zget 0 (d_buf d) 4, zget 0 (d_buf d) 5)
                   end in
        FRAME_DECODE_FRAME_READY
          (mk_meta (zget 0 (d_buf d) 0) (le16 (zget 0 (d_buf d) 1) (zget 0 (d_buf d) 2))
             (zget 0 (d_buf d) 3) ack.1 ack.2 declared_len)
          (take (Z.to_nat declared_len) (drop (Z.to_nat hdr_len) (d_buf d))).

(** The end of the function: store one unescaped byte. *)
Definition decoder_store (d : frame_decoder_t) (byte : Z) : frame_decoder_t * frame_decode_result_t :=
  if FRAME_BUFFER_MAX <=? d_len d
  then (decoder_reset_body (d <| d_in_frame := false |>), FRAME_DECODE_OVERFLOW)
  else (d <| d_buf ::= fun l => zset l (d_len d) byte |> <| d_len ::= fun n => u16 (n + 1) |>,
        FRAME_DECODE_NEED_MORE).

Definition frame_decoder_feed (d : frame_decoder_t) (byte : Z)
    : frame_decoder_t * frame_decode_result_t :=
  if byte =? FRAME_END then
    if negb (d_in_frame d)
    then (decoder_reset_body (d <| d_in_frame := true |>), FRAME_DECODE_NEED_MORE)
    else if d_len d =? 0 then (d <| d_in_escape := false |>, FRAME_DECODE_NEED_MORE)
    else (decoder_reset_body (d <| d_in_frame := false |>), decoder_validate d)
  else if negb (d_in_frame d) then (d, FRAME_DECODE_NEED_MORE)
  else if d_in_escape d then
    let d := d <| d_in_escape := false |> in
    if byte =? FRAME_ESC_END then decoder_store d FRAME_END
    else if byte =? FRAME_ESC_ESC then decoder_store d FRAME_ESC
    else (decoder_reset_body (d <| d_in_frame := false |>), FRAME_DECODE_BAD_LEN)
  else if byte =? FRAME_ESC then (d <| d_in_escape := true |>, FRAME_DECODE_NEED_MORE)
  else decoder_store d byte.

(** The caller's loop over a chunk of bytes: the frames it delivers. *)
Definition ready_frame (r : frame_decode_result_t) : option (frame_meta_t * list Z) :=
  match r with FRAME_DECODE_FRAME_READY m p => Some (m, p) | _ => None end.

Fixpoint decoder_run (d : frame_decoder_t) (bs : list Z)
    : frame_decoder_t * list (frame_meta_t * list Z) :=
  match bs with
  | [] => (d, [])
  | b :: bs =>
      let '(d, r) := frame_decoder_feed d b in
      let '(d, fs) := decoder_run d bs in (d, option_list (ready_frame r) ++ fs)
  end.

(** ** Specification *)
Record ring_wf (r : frame_ring_t) : Prop := {
  rgw_size : exists k, 0 <= k <= 31 /\ zlen (rg_buf r) = 2 ^ k /\ rg_mask r = 2 ^ k - 1;
  rgw_head : fits 32 (rg_head r); rgw_tail : fits 32 (rg_tail r);
  rgw_used : frame_ring_used r <= zlen (rg_buf r)
}.

(** The byte at offset [i] from the read position, and the readable bytes. *)
Definition ring_at (r : frame_ring_t) (i : nat) : Z :=
  zget 0 (rg_buf r) (Z.land (u32 (rg_tail r + Z.of_nat i)) (rg_mask r)).
Definition ring_contents (r : frame_ring_t) : list Z :=
  map (ring_at r) (seq 0 (Z.to_nat (frame_ring_used r))).

Definition slip_byte (b : Z) : list Z :=
  if b =? FRAME_END then [FRAME_ESC; FRAME_ESC_END]
  else if b =? FRAME_ESC then [FRAME_ESC; FRAME_ESC_ESC] else [b].
Definition slip (bs : list Z) : list Z := concat (map slip_byte bs).

(** The wire image of a frame. *)
Definition frame_body (dir : frame_dir_t) (m : frame_meta_t) (payload : list Z) : list Z :=
  frame_header_bytes dir m ++ take (Z.to_nat (m_payload_len m)) payload.
Definition frame_wire (dir : frame_dir_t) (m : frame_meta_t) (payload : list Z) : list Z :=
  [FRAME_END] ++ slip (frame_body dir m payload ++ [crc8_autosar (frame_body dir m payload)])
  ++ [FRAME_END].

Record meta_wf (m : frame_meta_t) (payload : list Z) : Prop := {
  mw_addr : fits 8 (m_addr m); mw_cmd : fits 16 (m_cmd m); mw_seq : fits 8 (m_seq m);
  mw_ack_seq : fits 8 (m_ack_seq m); mw_ack_status : fits 8 (m_ack_status m);
  mw_len : 0 <= m_payload_len m <= COMM_PAYLOAD_MAX; mw_payload : m_payload_len m <= zlen payload;
  mw_bytes : bytes_ok payload
}.

(** What a receiver of direction [dir] gets: m2s frames carry no ack fields. *)
Definition received_meta (dir : frame_dir_t) (m : frame_meta_t) : frame_meta_t :=
  match dir with
  | FRAME_DIR_S2M => m
  | FRAME_DIR_M2S => mk_meta (m_addr m) (m_cmd m) (m_seq m) 0 0 (m_payload_len m)
  end.

Record dec_wf (d : frame_decoder_t) : Prop := {
  dw_len : 0 <= d_len d <= FRAME_BUFFER_MAX; dw_buf : zlen (d_buf d) = FRAME_BUFFER_MAX;
  dw_bytes : bytes_ok (d_buf d)
}.

(** A frame and a ring, for the examples. *)
Definition sample_meta : frame_meta_t := mk_meta 0xC0 0x01DB 7 0 0 3.
Definition sample_payload : list Z := [0xDB; 0xC0; 0x55].
Definition sample_ring : frame_ring_t :=
  mk_ring (replicate 32 0) 31 (2 ^ 32 - 3) (2 ^ 32 - 3).

(** ** Ring lemmas *)
Lemma seq_offset n m : seq n m = map (Nat.add n) (seq 0 m).
Proof.
  pose proof (fmap_add_seq n 0 m) as E. rewrite Nat.add_0_r in E. symmetry. exact E.
Qed.

Lemma mask_index k x : 0 <= k <= 32 -> Z.land (u32 x) (2 ^ k - 1) = x mod 2 ^ k.
Proof.
  intros Hk. replace (2 ^ k - 1) with (Z.ones k) by (rewrite Z.ones_equiv; lia).
  rewrite Z.land_ones by lia. unfold u32. apply Z.mod_mod_divide.
  exists (2 ^ (32 - k)). rewrite <- Z.pow_add_r by lia. f_equal. lia.
Qed.

Lemma pow2_le_31 k : 0 <= k <= 31 -> 1 <= 2 ^ k <= 2 ^ 31.
Proof.
  intros Hk. pose proof (Z.pow_le_mono_r 2 k 31 ltac:(lia) ltac:(lia)).
  pose proof (Z.pow_pos_nonneg 2 k ltac:(lia) ltac:(lia)). lia.
Qed.

Lemma ring_used_nonneg r : 0 <= frame_ring_used r.
Proof. apply Z.mod_pos_bound. done. Qed.

Lemma ring_free_val r : ring_wf r -> frame_ring_free r = zlen (rg_buf r) - frame_ring_used r.
Proof.
  intros [(k & Hk & Hl & Hm) _ _ Hu]. pose proof (pow2_le_31 k Hk).
  pose proof (ring_used_nonneg r). unfold frame_ring_free. rewrite Hm, Hl in *.
  rewrite (u32_id (2 ^ k - 1 + 1)) by (unfold fits; change (2 ^ 32) with (2 * 2 ^ 31); lia).
  rewrite u32_id; [lia|]. unfold fits. change (2 ^ 32) with (2 * 2 ^ 31). lia.
Qed.

Lemma ring_contents_length r : zlen (ring_contents r) = frame_ring_used r.
Proof.
  unfold ring_contents, zlen. rewrite length_map, length_seq.
  pose proof (ring_used_nonneg r). lia.
Qed.

Lemma ring_head_eq r : ring_wf r -> rg_head r = u32 (rg_tail r + frame_ring_used r).
Proof.
  intros [_ Hh Ht _]. unfold frame_ring_used, u32. rewrite Zplus_mod_idemp_r.
  replace (rg_tail r + (rg_head r - rg_tail r)) with (rg_head r) by lia.
  symmetry. by apply Z.mod_small.
Qed.

(** Writing into a ring that has room appends. *)
Lemma ring_write_spec r b :
  ring_wf r -> frame_ring_used r < zlen (rg_buf r) ->
  let r' := ring_write_byte_unchecked r b in
  ring_wf r' /\ ring_contents r' = ring_contents r ++ [b] /\
  frame_ring_used r' = frame_ring_used r + 1 /\
  zlen (rg_buf r') = zlen (rg_buf r) /\ rg_tail r' = rg_tail r.
Proof.
  intros Hwf Hroom r'. pose proof Hwf as [(k & Hk & Hl & Hm) Hh Ht Hu].
  pose proof (pow2_le_31 k Hk) as Hp. pose proof (ring_used_nonneg r) as Hn.
  rewrite Hl in Hroom.
  assert (Hu' : frame_ring_used r' = frame_ring_used r + 1).
  { unfold r', frame_ring_used, ring_write_byte_unchecked. usimpl. unfold u32.
    rewrite Zminus_mod_idemp_l.
    replace (rg_head r + 1 - rg_tail r) with (rg_head r - rg_tail r + 1) by lia.
    rewrite <- Zplus_mod_idemp_l. apply Z.mod_small. fold (u32 (rg_head r - rg_tail r)).
    fold (frame_ring_used r). change (2 ^ 32) with (2 * 2 ^ 31). lia. }
  assert (Hl' : zlen (rg_buf r') = zlen (rg_buf r))
    by (unfold r', ring_write_byte_unchecked, zlen; usimpl; by rewrite zlen_zset).
  assert (Hidx : Z.land (rg_head r) (rg_mask r) = (rg_tail r + frame_ring_used r) mod 2 ^ k).
  { rewrite Hm, (ring_head_eq r Hwf), mask_index by lia. done. }
  split_and!; try done.
  - split.
    + exists k. split_and!; try lia; done.
    + apply u32_fits.
    + done.
    + rewrite Hl', Hu', Hl. lia.
  - unfold ring_contents. rewrite Hu'.
    replace (Z.to_nat (frame_ring_used r + 1)) with (Z.to_nat (frame_ring_used r) + 1)%nat by lia.
    rewrite seq_app, map_app. simpl. f_equal.
    + apply map_ext_in. intros i Hi. apply in_seq in Hi. unfold ring_at.
      unfold r', ring_write_byte_unchecked. usimpl. apply zget_zset_ne.
      * rewrite Hidx, Hm, mask_index by lia. intros Heq.
        assert (Hd : (frame_ring_used r - Z.of_nat i) mod 2 ^ k = 0).
        { replace (frame_ring_used r - Z.of_nat i) with
            ((rg_tail r + frame_ring_used r) - (rg_tail r + Z.of_nat i)) by lia.
          rewrite Zminus_mod, Heq, Z.sub_diag. done. }
        rewrite Z.mod_small in Hd by lia. lia.
      * rewrite Hm, mask_index by lia. apply Z.mod_pos_bound. lia.
    + f_equal. unfold ring_at, r', ring_write_byte_unchecked. usimpl.
      replace (u32 (rg_tail r + Z.of_nat (Z.to_nat (frame_ring_used r)))) with (rg_head r)
        by (rewrite (ring_head_eq r Hwf) at 1; f_equal; lia).
      apply zget_zset_eq. rewrite Hl, Hidx. apply Z.mod_pos_bound. lia.
Qed.

(** Moving the read counter over [n] readable bytes drops them. *)
Lemma ring_advance_spec r n :
  ring_wf r -> 0 <= n <= frame_ring_used r ->
  let r' := r <| rg_tail ::= fun t => u32 (t + n) |> in
  ring_wf r' /\ ring_contents r' = drop (Z.to_nat n) (ring_contents r).
Proof.
  intros Hwf Hn r'. pose proof Hwf as [(k & Hk & Hl & Hm) Hh Ht Hu].
  pose proof (pow2_le_31 k Hk) as Hp.
  assert (Hu' : frame_ring_used r' = frame_ring_used r - n).
  { unfold r', frame_ring_used. usimpl. unfold u32. rewrite Zminus_mod_idemp_r.
    replace (rg_head r - (rg_tail r + n)) with (rg_head r - rg_tail r - n) by lia.
    rewrite <- Zminus_mod_idemp_l. fold (u32 (rg_head r - rg_tail r)).
    fold (frame_ring_used r). apply Z.mod_small. change (2 ^ 32) with (2 * 2 ^ 31). lia. }
  split.
  - split; [by exists k|done|apply u32_fits|]. rewrite Hu'. usimpl. lia.
  - unfold ring_contents. rewrite Hu', skipn_map.
    replace (drop (Z.to_nat n) (seq 0 (Z.to_nat (frame_ring_used r)))) with
      (seq (Z.to_nat n) (Z.to_nat (frame_ring_used r - n))).
    2:{ rewrite skipn_seq. simpl. f_equal. lia. }
    rewrite (seq_offset (Z.to_nat n)), map_map. apply map_ext. intros i. unfold ring_at, r'. usimpl. do 2 f_equal.
    unfold u32. rewrite Zplus_mod_idemp_l. f_equal. lia.
Qed.

(** Moving the write counter back leaves a prefix. *)
Lemma ring_restore_spec r h m :
  ring_wf r -> fits 32 h -> m = u32 (h - rg_tail r) -> m <= frame_ring_used r ->
  let r' := r <| rg_head := h |> in
  ring_wf r' /\ ring_contents r' = take (Z.to_nat m) (ring_contents r).
Proof.
  intros Hwf Hh -> Hle r'. pose proof Hwf as [(k & Hk & Hl & Hm) _ Ht Hu].
  assert (Hu' : frame_ring_used r' = u32 (h - rg_tail r)) by done.
  split.
  - split; [by exists k|done|done|]. rewrite Hu'. usimpl. lia.
  - unfold ring_contents. rewrite Hu', firstn_map.
    rewrite take_seq. f_equal. f_equal. lia.
Qed.

(** [r'] is [r] with [w] appended. *)
Record emits (r r' : frame_ring_t) (w : list Z) : Prop := {
  em_wf : ring_wf r'; em_contents : ring_contents r' = ring_contents r ++ w;
  em_used : frame_ring_used r' = frame_ring_used r + zlen w;
  em_size : zlen (rg_buf r') = zlen (rg_buf r); em_tail : rg_tail r' = rg_tail r
}.

Lemma emits_refl r : ring_wf r -> emits r r [].
Proof. intros H. split; try done; [by rewrite app_nil_r|unfold zlen; simpl; lia]. Qed.

Lemma emits_trans r1 r2 r3 w1 w2 : emits r1 r2 w1 -> emits r2 r3 w2 -> emits r1 r3 (w1 ++ w2).
Proof.
  intros [? Hc1 Hu1 Hs1 Ht1] [? Hc2 Hu2 Hs2 Ht2]. split; try done; try congruence.
  - by rewrite Hc2, Hc1, (assoc_L (++)).
  - rewrite zlen_app. lia.
Qed.

Lemma emits_free r r' w : ring_wf r -> emits r r' w ->
  frame_ring_free r' = frame_ring_free r - zlen w.
Proof. intros Hwf [Hwf' _ Hu Hs _]. rewrite !ring_free_val by done. lia. Qed.

Lemma emits_write r b : ring_wf r -> 1 <= frame_ring_free r ->
  emits r (ring_write_byte_unchecked r b) [b].
Proof.
  intros Hwf Hf. rewrite ring_free_val in Hf by done.
  destruct (ring_write_spec r b Hwf ltac:(lia)) as (H1 & H2 & H3 & H4 & H5). by split.
Qed.

Lemma emits_write2 r b c : ring_wf r -> 2 <= frame_ring_free r ->
  emits r (ring_write_byte_unchecked (ring_write_byte_unchecked r b) c) [b; c].
Proof.
  intros Hwf Hf. pose proof (emits_write r b Hwf ltac:(lia)) as H1.
  apply (emits_trans _ _ _ [b] [c] H1). apply emits_write; [apply H1|].
  rewrite (emits_free _ _ _ Hwf H1). unfold zlen. simpl. lia.
Qed.

Lemma slip_emit_byte_spec r b :
  ring_wf r ->
  let '(r', rc) := slip_emit_byte r b in
  (zlen (slip_byte b) <= frame_ring_free r /\ rc = 0 /\ emits r r' (slip_byte b)) \/
  (frame_ring_free r < zlen (slip_byte b) /\ rc = -1 /\ r' = r).
Proof.
  intros Hwf. unfold slip_emit_byte, slip_byte.
  destruct (b =? FRAME_END); [|destruct (b =? FRAME_ESC)].
  - change (zlen [FRAME_ESC; FRAME_ESC_END]) with 2.
    destruct (Z.ltb_spec (frame_ring_free r) 2); [by right|left].
    split_and!; try done. by apply emits_write2.
  - change (zlen [FRAME_ESC; FRAME_ESC_ESC]) with 2.
    destruct (Z.ltb_spec (frame_ring_free r) 2); [by right|left].
    split_and!; try done. by apply emits_write2.
  - change (zlen [b]) with 1.
    destruct (Z.ltb_spec (frame_ring_free r) 1); [by right|left].
    split_and!; try done. by apply emits_write.
Qed.

Lemma slip_cons b bs : slip (b :: bs) = slip_byte b ++ slip bs.
Proof. done. Qed.
Lemma slip_app bs cs : slip (bs ++ cs) = slip bs ++ slip cs.
Proof. unfold slip. by rewrite map_app, concat_app. Qed.

Lemma slip_emit_all_spec bs r :
  ring_wf r ->
  let '(r', rc) := slip_emit_all r bs in
  exists w, emits r r' w /\
  ((zlen (slip bs) <= frame_ring_free r /\ rc = 0 /\ w = slip bs) \/
   (frame_ring_free r < zlen (slip bs) /\ rc = -1)).
Proof.
  revert r. induction bs as [|b bs IH]; intros r Hwf; simpl.
  - exists []. split; [by apply emits_refl|left]. change (zlen (slip [])) with 0.
    rewrite ring_free_val by done. destruct Hwf as [_ _ _ Hu].
    split_and!; try done. lia.
  - pose proof (slip_emit_byte_spec r b Hwf) as H.
    destruct (slip_emit_byte r b) as [r1 rc]. rewrite slip_cons, zlen_app.
    pose proof (zlen_nonneg (slip bs)).
    destruct H as [(Hge & -> & He)|(Hlt & -> & ->)]; simpl.
    + pose proof (em_wf _ _ _ He) as Hwf1.
      specialize (IH r1 Hwf1). pose proof (emits_free _ _ _ Hwf He) as Hfree.
      destruct (slip_emit_all r1 bs) as [r2 rc]. destruct IH as (w & Hw & Hrc).
      exists (slip_byte b ++ w). split; [by eapply emits_trans|].
      destruct Hrc as [(? & -> & ->)|(? & ->)]; [left|right]; split_and!; done || lia.
    + exists []. split; [by apply emits_refl|right]. split; [lia|done].
Qed.

(** Rolling back after a partial emission. *)
Lemma emits_rollback r r' w :
  ring_wf r -> emits r r' w ->
  ring_wf (r' <| rg_head := rg_head r |>) /\
  ring_contents (r' <| rg_head := rg_head r |>) = ring_contents r.
Proof.
  intros Hwf [Hwf' Hc Hu Hs Ht]. pose proof (zlen_nonneg w).
  destruct (ring_restore_spec r' (rg_head r) (frame_ring_used r) Hwf') as [H1 H2].
  - by destruct Hwf.
  - unfold frame_ring_used. by rewrite Ht.
  - lia.
  - split; [done|]. rewrite H2, Hc. pose proof (ring_contents_length r) as Hl.
    unfold zlen in Hl. replace (Z.to_nat (frame_ring_used r)) with (length (ring_contents r)) by lia.
    by rewrite take_app_length.
Qed.

(** ** Encoder *)
Lemma crc8_autosar_app xs ys :
  crc8_autosar (xs ++ ys) =
  Z.lxor (foldl crc8_autosar_update (foldl crc8_autosar_update 0xFF xs) ys) 0xFF.
Proof. unfold crc8_autosar. by rewrite foldl_app. Qed.

Lemma frame_wire_split dir m payload :
  frame_wire dir m payload =
  [FRAME_END] ++ slip (frame_header_bytes dir m)
  ++ slip (take (Z.to_nat (m_payload_len m)) payload)
  ++ slip_byte (crc8_autosar (frame_body dir m payload)) ++ [FRAME_END].
Proof.
  unfold frame_wire, frame_body. rewrite !slip_app, slip_cons.
  by rewrite app_nil_r, <- !(assoc_L (++)).
Qed.

(** Either the whole frame is appended, or the ring reads as before. *)
Definition encoded (r r' : frame_ring_t) (rc : Z) (w : list Z) : Prop :=
  ring_wf r' /\ zlen (rg_buf r') = zlen (rg_buf r) /\
  ((zlen w <= frame_ring_free r /\ rc = 0 /\ ring_contents r' = ring_contents r ++ w) \/
   (frame_ring_free r < zlen w /\ rc = -1 /\ ring_contents r' = ring_contents r)).

Lemma encoded_fail r r1 w1 w :
  ring_wf r -> emits r r1 w1 -> frame_ring_free r < zlen w ->
  encoded r (r1 <| rg_head := rg_head r |>) (-1) w.
Proof.
  intros Hwf He Hlt. destruct (emits_rollback r r1 w1 Hwf He).
  split_and!; [done|apply (em_size _ _ _ He)|by right].
Qed.

Lemma frame_encode_spec m payload r dir :
  ring_wf r -> m_payload_len m <= COMM_PAYLOAD_MAX ->
  let '(r', rc) := frame_encode_common m payload r dir in
  encoded r r' rc (frame_wire dir m payload).
Proof.
  intros Hwf Hsmall. unfold frame_encode_common.
  destruct (Z.ltb_spec COMM_PAYLOAD_MAX (m_payload_len m)) as [?|_]; [lia|].
  pose proof (frame_wire_split dir m payload) as Hw.
  rewrite <- foldl_app. fold (crc8_autosar (frame_header_bytes dir m
    ++ take (Z.to_nat (m_payload_len m)) payload)). fold (frame_body dir m payload).
  set (crc := crc8_autosar (frame_body dir m payload)) in *.
  set (hdr := frame_header_bytes dir m) in *.
  set (body := take (Z.to_nat (m_payload_len m)) payload) in *.
  pose proof (f_equal zlen Hw) as Hlen. rewrite !zlen_app in Hlen.
  change (zlen [FRAME_END]) with 1 in Hlen.
  pose proof (zlen_nonneg (slip hdr)). pose proof (zlen_nonneg (slip body)).
  pose proof (zlen_nonneg (slip_byte crc)). pose proof (emits_refl r Hwf) as E0.
  destruct (Z.ltb_spec (frame_ring_free r) 1); [apply (encoded_fail r r []); done || lia|].
  pose proof (emits_write r FRAME_END Hwf ltac:(lia)) as E1.
  set (r1 := ring_write_byte_unchecked r FRAME_END) in *.
  pose proof (emits_free _ _ _ Hwf E1) as F1. change (zlen [FRAME_END]) with 1 in F1.
  pose proof (slip_emit_all_spec hdr r1 (em_wf _ _ _ E1)) as K2.
  destruct (slip_emit_all r1 hdr) as [r2 rc2]. destruct K2 as (w2 & E2 & K2).
  pose proof (emits_trans _ _ _ _ _ E1 E2) as E12.
  destruct K2 as [(G2 & -> & ->)|(G2 & ->)]; cbn [Z.ltb Z.compare];
    [|apply (encoded_fail r r2 _ _ Hwf E12); lia].
  pose proof (emits_free _ _ _ Hwf E12) as F2. rewrite zlen_app in F2.
  change (zlen [FRAME_END]) with 1 in F2.
  pose proof (slip_emit_all_spec body r2 (em_wf _ _ _ E12)) as K3.
  destruct (slip_emit_all r2 body) as [r3 rc3]. destruct K3 as (w3 & E3 & K3).
  pose proof (emits_trans _ _ _ _ _ E12 E3) as E13.
  destruct K3 as [(G3 & -> & ->)|(G3 & ->)]; cbn [Z.ltb Z.compare];
    [|apply (encoded_fail r r3 _ _ Hwf E13); lia].
  pose proof (emits_free _ _ _ Hwf E13) as F3. rewrite !zlen_app in F3.
  change (zlen [FRAME_END]) with 1 in F3.
  pose proof (slip_emit_byte_spec r3 crc (em_wf _ _ _ E13)) as K4.
  destruct (slip_emit_byte r3 crc) as [r4 rc4].
  destruct K4 as [(G4 & -> & E4)|(G4 & -> & ->)]; cbn [Z.ltb Z.compare];
    [|apply (encoded_fail r r3 _ _ Hwf E13); lia].
  pose proof (emits_trans _ _ _ _ _ E13 E4) as E14.
  pose proof (emits_free _ _ _ Hwf E14) as F4. rewrite !zlen_app in F4.
  change (zlen [FRAME_END]) with 1 in F4.
  destruct (Z.ltb_spec (frame_ring_free r4) 1);
    [apply (encoded_fail r r4 _ _ Hwf E14); lia|].
  pose proof (emits_write r4 FRAME_END (em_wf _ _ _ E14) ltac:(lia)) as E5.
  pose proof (emits_trans _ _ _ _ _ E14 E5) as [Hwf5 Hc5 _ Hs5 _].
  split; [done|]. split; [done|left]. split_and!; [lia|done|]. rewrite Hc5, Hw. by rewrite <- !(assoc_L (++)).
Qed.

(** ** Decoder *)
Lemma decoder_run_app d xs ys :
  decoder_run d (xs ++ ys) =
  let '(d1, fs) := decoder_run d xs in
  let '(d2, gs) := decoder_run d1 ys in (d2, fs ++ gs).
Proof.
  revert d. induction xs as [|x xs IH]; intros d; simpl.
  - by destruct (decoder_run d ys).
  - destruct (frame_decoder_feed d x) as [d1 o]. rewrite IH.
    destruct (decoder_run d1 xs) as [d2 fs], (decoder_run d2 ys) as [d3 gs].
    by rewrite (assoc_L (++)).
Qed.

Lemma decoder_store_spec d b pre o old :
  d_buf d = pre ++ o :: old -> d_len d = zlen pre -> d_len d < FRAME_BUFFER_MAX ->
  decoder_store d b =
  (d <| d_buf := pre ++ b :: old |> <| d_len := zlen pre + 1 |>, FRAME_DECODE_NEED_MORE).
Proof.
  intros Hb Hl Hlt. unfold decoder_store. destruct (Z.leb_spec FRAME_BUFFER_MAX (d_len d)); [lia|].
  destruct d as [dir esc inf len buf]. simpl in *. subst. usimpl. rewrite zset_app_mid.
  unfold FRAME_BUFFER_MAX, COMM_PAYLOAD_MAX in Hlt. pose proof (zlen_nonneg pre).
  unfold u16. rewrite Z.mod_small by (change (2 ^ 16) with 65536; lia). done.
Qed.

(** One escaped byte is one stored byte. *)
Lemma decoder_feed_slip_byte d b pre o old :
  d_in_frame d = true -> d_in_escape d = false ->
  d_buf d = pre ++ o :: old -> d_len d = zlen pre -> d_len d < FRAME_BUFFER_MAX ->
  decoder_run d (slip_byte b) =
  (d <| d_buf := pre ++ b :: old |> <| d_len := zlen pre + 1 |>, []).
Proof.
  intros Hf He Hb Hl Hlt. unfold slip_byte.
  destruct (Z.eqb_spec b FRAME_END) as [->|Hne]; [|destruct (Z.eqb_spec b FRAME_ESC) as [->|Hne']].
  - cbn [decoder_run]. unfold frame_decoder_feed at 1. rewrite Hf, He. simpl.
    unfold frame_decoder_feed. usimpl. rewrite Hf. simpl.
    rewrite (decoder_store_spec _ _ pre o old) by done. destruct d; simpl in *. by subst.
  - cbn [decoder_run]. unfold frame_decoder_feed at 1. rewrite Hf, He. simpl.
    unfold frame_decoder_feed. usimpl. rewrite Hf. simpl.
    rewrite (decoder_store_spec _ _ pre o old) by done. destruct d; simpl in *. by subst.
  - cbn [decoder_run]. unfold frame_decoder_feed. rewrite Hf, He.
    destruct (Z.eqb_spec b FRAME_END); [done|]. destruct (Z.eqb_spec b FRAME_ESC); [done|].
    simpl. by rewrite (decoder_store_spec _ _ pre o old).
Qed.

Lemma decoder_run_slip bs d pre old :
  d_in_frame d = true -> d_in_escape d = false ->
  d_buf d = pre ++ old -> d_len d = zlen pre ->
  zlen pre + zlen bs <= FRAME_BUFFER_MAX -> (length bs <= length old)%nat ->
  decoder_run d (slip bs) =
  (d <| d_buf := pre ++ bs ++ drop (length bs) old |> <| d_len := zlen pre + zlen bs |>, []).
Proof.
  revert d pre old. induction bs as [|b bs IH]; intros d pre old Hf He Hb Hl Hmax Hold.
  - change (slip []) with (@nil Z). simpl. destruct d; simpl in *. subst.
    change (zlen []) with 0. by rewrite Z.add_0_r.
  - destruct old as [|o old]; [simpl in Hold; lia|]. rewrite slip_cons, decoder_run_app.
    assert (Hc : zlen (b :: bs) = 1 + zlen bs) by (unfold zlen; simpl; lia).
    pose proof (zlen_nonneg bs).
    rewrite (decoder_feed_slip_byte _ _ pre o old) by (done || lia).
    rewrite (IH _ (pre ++ [b]) old); simpl in Hold; usimpl; try done; try lia.
    + rewrite zlen_app, Hc. change (zlen [b]) with 1. rewrite <- (assoc_L (++)).
      by replace (zlen pre + 1 + zlen bs) with (zlen pre + (1 + zlen bs)) by lia.
    + by rewrite <- (assoc_L (++)).
    + by rewrite zlen_app.
    + rewrite zlen_app. change (zlen [b]) with 1. lia.
Qed.

Lemma cmd_bytes c : fits 16 c ->
  le16 (u8 (Z.land c 0xFF)) (u8 (Z.land (Z.shiftr c 8) 0xFF)) = c.
Proof.
  intros Hc. fold (lo8 c). fold (lo8 (Z.shiftr c 8)).
  replace (lo8 (Z.shiftr c 8)) with (hi8 c); [by apply le16_lo_hi|].
  rewrite lo8_val, hi8_val, Z.shiftr_div_pow2 by done || lia.
  unfold fits in Hc. change (2 ^ 16) with 65536 in Hc. change (2 ^ 8) with 256.
  symmetry. apply Z.mod_small. split; [apply Z.div_pos; lia|]. apply Z.div_lt_upper_bound; lia.
Qed.

Lemma body_length dir m payload :
  meta_wf m payload ->
  zlen (frame_body dir m payload) =
  match dir with FRAME_DIR_M2S => 5 | FRAME_DIR_S2M => 7 end + m_payload_len m.
Proof.
  intros [_ _ _ _ _ Hl Hp _]. unfold frame_body, zlen in *. rewrite length_app, length_take.
  destruct dir; simpl length; lia.
Qed.

(** The collected bytes of a sent frame pass validation. *)
Lemma decoder_validate_wire d m payload rest :
  meta_wf m payload ->
  d_buf d = (frame_body (d_dir d) m payload ++ [crc8_autosar (frame_body (d_dir d) m payload)]) ++ rest ->
  d_len d = zlen (frame_body (d_dir d) m payload) + 1 ->
  decoder_validate d =
  FRAME_DECODE_FRAME_READY (received_meta (d_dir d) m) (take (Z.to_nat (m_payload_len m)) payload).
Proof.
  intros Hm Hb Hl. pose proof (body_length (d_dir d) m payload Hm) as Hbl.
  pose proof Hm as [Ha Hc Hs Hk Hst Hpl Hp _]. unfold COMM_PAYLOAD_MAX in Hpl.
  set (body := frame_body (d_dir d) m payload) in *. unfold decoder_validate.
  rewrite Hl, Hb. replace (zlen body + 1 - 1) with (zlen body) by lia.
  set (crc := crc8_autosar body).
  assert (E1 : zget 0 ((body ++ [crc]) ++ rest) (zlen body) = crc).
  { rewrite <- (assoc_L (++)), zget_app_r by lia. by rewrite Z.sub_diag. }
  assert (E2 : take (Z.to_nat (zlen body)) ((body ++ [crc]) ++ rest) = body).
  { unfold zlen. rewrite Nat2Z.id, <- (assoc_L (++)). apply take_app_length. }
  rewrite E1, E2. fold (crc8_autosar body). fold crc. rewrite Z.eqb_refl. cbn [negb].
  rewrite <- (assoc_L (++)). rewrite Hbl. unfold body, frame_body.
  rewrite <- (assoc_L (++)). destruct (d_dir d); simpl frame_header_bytes.
  - destruct (Z.ltb_spec (5 + m_payload_len m + 1) (5 + 1)); [lia|].
    change (zget 0 ([m_addr m; _; _; _; m_payload_len m] ++ _) (5 - 1)) with (m_payload_len m).
    destruct (Z.ltb_spec COMM_PAYLOAD_MAX (m_payload_len m)); [unfold COMM_PAYLOAD_MAX in *; lia|].
    rewrite Z.eqb_refl. cbn [negb orb].
    change (drop (Z.to_nat 5) ([_; _; _; _; _] ++ ?l)) with l.
    rewrite take_app_le by (rewrite length_take; unfold zlen in Hp; lia).
    rewrite take_take, Nat.min_id. f_equal. unfold received_meta. cbn [fst snd].
    f_equal. by apply cmd_bytes.
  - destruct (Z.ltb_spec (7 + m_payload_len m + 1) (7 + 1)); [lia|].
    change (zget 0 ([m_addr m; _; _; _; _; _; m_payload_len m] ++ _) (7 - 1)) with (m_payload_len m).
    destruct (Z.ltb_spec COMM_PAYLOAD_MAX (m_payload_len m)); [unfold COMM_PAYLOAD_MAX in *; lia|].
    rewrite Z.eqb_refl. cbn [negb orb].
    change (drop (Z.to_nat 7) ([_; _; _; _; _; _; _] ++ ?l)) with l.
    rewrite take_app_le by (rewrite length_take; unfold zlen in Hp; lia).
    rewrite take_take, Nat.min_id. f_equal. unfold received_meta. destruct m; simpl in *.
    f_equal. by apply cmd_bytes.
Qed.

Lemma frame_body_fits dir m payload :
  meta_wf m payload -> zlen (frame_body dir m payload) + 1 <= FRAME_BUFFER_MAX.
Proof.
  intros Hm. rewrite body_length by done. destruct Hm as [_ _ _ _ _ Hl _ _].
  unfold FRAME_BUFFER_MAX, COMM_PAYLOAD_MAX in *. destruct dir; lia.
Qed.

(** After any END the decoder collects from the start of its buffer. *)
Lemma decoder_feed_end d :
  let d' := (frame_decoder_feed d FRAME_END).1 in
  d_len d' = 0 /\ d_in_escape d' = false /\ d_buf d' = d_buf d /\ d_dir d' = d_dir d.
Proof.
  unfold frame_decoder_feed. change (FRAME_END =? FRAME_END) with true. cbv iota.
  destruct (d_in_frame d); usimpl; [|done].
  destruct (Z.eqb_spec (d_len d) 0); done.
Qed.

Lemma decoder_run_frame d m payload :
  d_len d = 0 -> zlen (d_buf d) = FRAME_BUFFER_MAX -> meta_wf m payload ->
  exists d', decoder_run d (frame_wire (d_dir d) m payload) =
    (d', [(received_meta (d_dir d) m, take (Z.to_nat (m_payload_len m)) payload)]) /\
    d_len d' = 0 /\ zlen (d_buf d') = FRAME_BUFFER_MAX /\ d_dir d' = d_dir d.
Proof.
  intros Hl Hbuf Hm. unfold frame_wire.
  set (body := frame_body (d_dir d) m payload). set (crc := crc8_autosar body).
  pose proof (frame_body_fits (d_dir d) m payload Hm) as Hfit. fold body in Hfit.
  cbn [app]. change (decoder_run d (FRAME_END :: ?l)) with
    (let '(d1, r) := frame_decoder_feed d FRAME_END in
     let '(d2, fs) := decoder_run d1 l in (d2, option_list (ready_frame r) ++ fs)).
  assert (H1 : exists d1, frame_decoder_feed d FRAME_END = (d1, FRAME_DECODE_NEED_MORE) /\
    d_in_frame d1 = true /\ d_in_escape d1 = false /\ d_len d1 = 0 /\
    d_buf d1 = d_buf d /\ d_dir d1 = d_dir d).
  { unfold frame_decoder_feed. change (FRAME_END =? FRAME_END) with true. cbv iota.
    rewrite Hl. destruct (d_in_frame d) eqn:E; usimpl; eexists; split; done. }
  destruct H1 as (d1 & -> & Hf1 & He1 & Hl1 & Hb1 & Hd1).
  rewrite decoder_run_app.
  rewrite (decoder_run_slip (body ++ [crc]) d1 [] (d_buf d)); try done.
  2:{ rewrite zlen_app. change (zlen [crc]) with 1. change (zlen []) with 0. lia. }
  2:{ unfold zlen in *. rewrite length_app. simpl. lia. }
  rewrite !app_nil_l. change (zlen []) with 0. rewrite Z.add_0_l.
  set (d2 := d1 <| d_buf := _ |> <| d_len := _ |>).
  pose proof (zlen_nonneg body) as Hnn.
  assert (Hl2 : d_len d2 = zlen body + 1) by (unfold d2; simpl; by rewrite zlen_app).
  assert (Hv : decoder_validate d2 = FRAME_DECODE_FRAME_READY (received_meta (d_dir d) m)
    (take (Z.to_nat (m_payload_len m)) payload)).
  { rewrite <- Hd1. apply (decoder_validate_wire d2 m payload (drop (length (body ++ [crc])) (d_buf d)));
      [done| |].
    - change (d_dir d2) with (d_dir d1). rewrite Hd1. done.
    - rewrite Hl2. change (d_dir d2) with (d_dir d1). by rewrite Hd1. }
  cbn [decoder_run]. unfold frame_decoder_feed. change (FRAME_END =? FRAME_END) with true.
  cbv iota. change (d_in_frame d2) with (d_in_frame d1). rewrite Hf1, Hl2. cbn [negb].
  destruct (Z.eqb_spec (zlen body + 1) 0); [lia|]. rewrite Hv.
  eexists. split; [done|]. split_and!; [done| |done]. simpl.
  unfold zlen in *. rewrite length_app, length_drop, length_app. simpl. lia.
Qed.

Lemma decoder_run_frames d ms :
  d_len d = 0 -> zlen (d_buf d) = FRAME_BUFFER_MAX ->
  Forall (fun mp => meta_wf mp.1 mp.2) ms ->
  exists d', decoder_run d (concat (map (fun mp => frame_wire (d_dir d) mp.1 mp.2) ms)) =
    (d', map (fun mp => (received_meta (d_dir d) mp.1,
                         take (Z.to_nat (m_payload_len mp.1)) mp.2)) ms) /\ d_len d' = 0.
Proof.
  intros Hl Hb Hms. revert d Hl Hb. induction Hms as [|[m p] ms Hm _ IH]; intros d Hl Hb.
  - by exists d.
  - cbn [map concat]. rewrite decoder_run_app.
    destruct (decoder_run_frame d m p Hl Hb Hm) as (d1 & Hr & Hl1 & Hb1 & Hd1). simpl in *.
    rewrite Hr. destruct (IH d1 Hl1 Hb1) as (d2 & Hr2 & Hl2). rewrite Hd1 in Hr2. rewrite Hr2.
    by exists d2.
Qed.

(** The invariant and what a delivered frame satisfies. *)
Lemma decoder_store_wf d b :
  dec_wf d -> fits 8 b -> dec_wf (decoder_store d b).1 /\ ready_frame (decoder_store d b).2 = None.
Proof.
  intros [Hl Hb Hby] Hb8. unfold decoder_store.
  destruct (Z.leb_spec FRAME_BUFFER_MAX (d_len d)); simpl.
  - split; [|done]. by split.
  - split; [|done]. unfold FRAME_BUFFER_MAX, COMM_PAYLOAD_MAX in *. split; simpl.
    + unfold u16. rewrite Z.mod_small by (change (2 ^ 16) with 65536; lia).
      unfold FRAME_BUFFER_MAX, COMM_PAYLOAD_MAX. lia.
    + unfold zlen in *. by rewrite zlen_zset.
    + unfold zset. destruct (_ <? 0); [done|]. by apply Forall_insert.
Qed.

Lemma le16_fits a b : fits 8 a -> fits 8 b -> fits 16 (le16 a b).
Proof.
  intros Ha Hb. rewrite le16_val by done. unfold fits in *.
  change (2 ^ 8) with 256 in *. change (2 ^ 16) with 65536. lia.
Qed.

Lemma zget_bytes l i : bytes_ok l -> fits 8 (zget 0 l i).
Proof.
  intros Hl. unfold zget. destruct (i <? 0); [done|].
  destruct (nth_in_or_default (Z.to_nat i) l 0) as [Hin | ->]; [|done].
  apply list_elem_of_In in Hin. unfold bytes_ok in Hl. rewrite Forall_forall in Hl. by apply Hl.
Qed.

Lemma decoder_validate_wf d m p :
  dec_wf d -> decoder_validate d = FRAME_DECODE_FRAME_READY m p ->
  meta_wf m p /\ zlen p = m_payload_len m.
Proof.
  intros [Hl Hb Hby] H. unfold decoder_validate in H.
  set (h := match d_dir d with FRAME_DIR_M2S => 5 | FRAME_DIR_S2M => 7 end) in *.
  assert (Hh : 5 <= h <= 7) by (unfold h; destruct (d_dir d); lia).
  destruct (Z.ltb_spec (d_len d) (h + 1)); [done|]. destruct (negb _); [done|].
  set (len := zget 0 (d_buf d) (h - 1)) in *.
  destruct (_ || _) eqn:E; [done|]. bools. injection H as <- <-.
  pose proof (zget_bytes (d_buf d) (h - 1) Hby) as Hlen. fold len in Hlen.
  assert (Hp : zlen (take (Z.to_nat len) (drop (Z.to_nat h) (d_buf d))) = len).
  { unfold zlen in *. rewrite length_take, length_drop. destruct Hlen. lia. }
  split; [|done].
  assert (Hack : forall i, fits 8 (zget 0 (d_buf d) i)) by (intros; by apply zget_bytes).
  split; simpl; try apply Hack; try (by apply le16_fits; apply Hack);
    try (destruct (d_dir d); simpl; done || apply Hack).
  - destruct Hlen. lia.
  - lia.
  - by apply Forall_take, Forall_drop.
Qed.

Lemma decoder_feed_wf d b :
  dec_wf d -> fits 8 b ->
  dec_wf (frame_decoder_feed d b).1 /\
  forall m p, ready_frame (frame_decoder_feed d b).2 = Some (m, p) ->
    meta_wf m p /\ zlen p = m_payload_len m.
Proof.
  intros Hwf Hb. pose proof Hwf as [Hl Hbuf Hby]. unfold frame_decoder_feed.
  destruct (b =? FRAME_END); [|destruct (d_in_frame d); simpl; [|by split]].
  - destruct (d_in_frame d); simpl; [destruct (Z.eqb_spec (d_len d) 0)|]; simpl;
      (split; [by split|]); try done.
    intros m p H. apply (decoder_validate_wf d); [done|].
    destruct (decoder_validate d); by simplify_eq/=.
  - assert (Hst : forall d' c, dec_wf d' -> fits 8 c -> dec_wf (decoder_store d' c).1 /\
      forall m p, ready_frame (decoder_store d' c).2 = Some (m, p) ->
        meta_wf m p /\ zlen p = m_payload_len m).
    { intros d' c Hd' Hc. destruct (decoder_store_wf d' c Hd' Hc) as [H1 H2].
      split; [done|]. intros m p. by rewrite H2. }
    destruct (d_in_escape d).
    + destruct (b =? FRAME_ESC_END); [|destruct (b =? FRAME_ESC_ESC)].
      * apply Hst; [by split|done].
      * apply Hst; [by split|done].
      * simpl. split; [by split|done].
    + destruct (b =? FRAME_ESC); [split; [by split|done]|]. by apply Hst.
Qed.

(** ** Properties *)

(** Atomic encoding: on any well-formed ring (its 32-bit counters anywhere,
    wrapped or not) and any frame with a legal length, the encoder either appends
    the complete SLIP image of the frame to the readable bytes and returns 0, which
    it does exactly when the image fits in the free space, or returns -1 and the
    readable bytes are unchanged. *)
Theorem frame_encode_atomic m payload r dir :
  ring_wf r -> m_payload_len m <= COMM_PAYLOAD_MAX ->
  let '(r', rc) := frame_encode_common m payload r dir in
  ring_wf r' /\
  ((zlen (frame_wire dir m payload) <= frame_ring_free r /\ rc = 0 /\
    ring_contents r' = ring_contents r ++ frame_wire dir m payload) \/
   (frame_ring_free r < zlen (frame_wire dir m payload) /\ rc = -1 /\
    ring_contents r' = ring_contents r)).
Proof.
  intros Hwf Hl. pose proof (frame_encode_spec m payload r dir Hwf Hl) as H.
  destruct (frame_encode_common m payload r dir) as [r' rc]. by destruct H as (? & _ & ?).
Qed.

Lemma sample_ring_wf : ring_wf sample_ring.
Proof. split; try vm_decide. exists 5. by vm_compute. Qed.

Lemma frame_encode_atomic_witness :
  let '(r', rc) := frame_encode_common sample_meta sample_payload sample_ring FRAME_DIR_S2M in
  ring_wf r' /\ rc = 0.
Proof.
  pose proof (frame_encode_atomic sample_meta sample_payload sample_ring FRAME_DIR_S2M
    sample_ring_wf ltac:(vm_compute; discriminate)) as H.
  destruct (frame_encode_common _ _ _ _) as [r' rc].
  destruct H as [Hwf [(_ & Hrc & _)|(Hlt & _)]]; [split; [exact Hwf|exact Hrc]|].
  exfalso. vm_compute in Hlt. discriminate.
Defined.


Lemma sample_meta_wf : meta_wf sample_meta sample_payload.
Proof. split; vm_decide. Qed.


(** Receiver bounds: on any bytes the decoder's cursor stays within its
    136-byte buffer, and a delivered frame has a payload of exactly its declared
    length, at most 128 bytes, with every field in range. *)
Theorem frame_decoder_bounds d bs :
  dec_wf d -> bytes_ok bs ->
  dec_wf (decoder_run d bs).1 /\
  Forall (fun mp => meta_wf mp.1 mp.2 /\ zlen mp.2 = m_payload_len mp.1) (decoder_run d bs).2.
Proof.
  intros Hd Hb. revert d Hd. induction Hb as [|b bs Hb _ IH]; intros d Hd; [by split|]. simpl.
  pose proof (decoder_feed_wf d b Hd Hb) as [H1 H2].
  destruct (frame_decoder_feed d b) as [d1 r]. simpl in *. specialize (IH d1 H1).
  destruct (decoder_run d1 bs) as [d2 fs]. simpl in *. destruct IH as [IH1 IH2].
  split; [done|]. apply Forall_app. split; [|done].
  destruct (ready_frame r) as [[m p]|]; constructor; [by apply H2|constructor].
Qed.

Lemma frame_decoder_bounds_witness :
  dec_wf (decoder_run (frame_decoder_init FRAME_DIR_S2M) [0xC0; 1; 2; 3; 0xDB; 0xDC; 0xC0]).1.
Proof.
  apply (frame_decoder_bounds (frame_decoder_init FRAME_DIR_S2M)).
  - split; vm_decide.
  - vm_decide.
Defined.
