(* ===== verification/HostLink.v ===== *)
(** The northbound dongle protocol ([core/host_link.h], [core/host_link.c]) over
    the libcomm codec: the four-layer ladder, the timed REGISTER/HEARTBEAT and the
    routing of received frames. *)
From S2P Require Import Prelude Crc8 LibcommFrame.

(** ** [opcodes.h] *)
Definition OP_REGISTER : Z := 0x0001.
Definition OP_HEARTBEAT : Z := 0x0002.
Definition OP_PONG : Z := 0x0005.
Definition OP_MANIFEST_REPLY : Z := 0x0008.
Definition OP_SHELL_REPLY : Z := 0x0011.
Definition OP_REGISTER_ACK : Z := 0x0103.
Definition OP_PING : Z := 0x0104.
Definition OP_GET_MANIFEST : Z := 0x0107.
Definition OP_OPERATIONAL_BEGIN : Z := 0x0108.
Definition OP_SHELL_EXEC : Z := 0x0109.
Definition OP_POLL : Z := 0x010A.
Definition OP_BUS_EXEC : Z := 0x010B.

Definition HOST_LINK_TX_RING_SIZE : Z := 1024.
Definition HL_REGISTER_PERIOD_MS : Z := 500.
Definition HL_HEARTBEAT_PERIOD_MS : Z := 1000.
Definition HL_REGISTER_V2_LEN : Z := 38.
Definition HL_REGISTER_V2_VER : Z := 2.

Inductive host_link_state_t := HL_BOOT | HL_L1_ACKED | HL_MANIFEST | HL_OPERATIONAL.
#[export] Instance host_link_state_eq_dec : EqDecision host_link_state_t.
Proof. solve_decision. Defined.

Record host_link_cfg_t := mk_hlcfg {
  class_id : Z; instance_id : Z; commissioning_state : Z; chip_uid : list Z; vid : Z; pid : Z;
  fw_version : Z; build_date : Z; schema_hash : Z
}.

(** The function pointers are represented by whether they are set; a call through
    one is an event of [host_link_feed]. *)
Record host_link_t := mk_hl {
  h_cfg : host_link_cfg_t; h_state : host_link_state_t; h_tx : frame_ring_t;
  h_rx : frame_decoder_t; h_seq : Z; h_next_register_ms : Z; h_next_heartbeat_ms : Z;
  h_on_bus_msg : bool; h_on_local_shell : bool; h_tx_msgs : Z; h_rx_msgs : Z
}.
#[export] Instance eta_host_link_t : Settable host_link_t := fun h =>
  mk_hl (h_cfg h) (h_state h) (h_tx h) (h_rx h) (h_seq h) (h_next_register_ms h)
    (h_next_heartbeat_ms h) (h_on_bus_msg h) (h_on_local_shell h) (h_tx_msgs h) (h_rx_msgs h).

Inductive host_link_event :=
| EvBusMsg (dest opcode : Z) (body : list Z)
| EvLocalShell (req_id cmd : Z) (args : list Z).

Definition wr_u16 (v : Z) : list Z := [u8 v; u8 (Z.shiftr v 8)].
Definition wr_u32 (v : Z) : list Z :=
  [u8 v; u8 (Z.shiftr v 8); u8 (Z.shiftr v 16); u8 (Z.shiftr v 24)].

Definition emit_s2m (h : host_link_t) (addr opcode : Z) (payload : list Z) (len : Z)
    : host_link_t * Z :=
  let m := mk_meta addr opcode (h_seq h) 0 0 len in
  let '(tx, rc) := frame_encode_s2m m payload (h_tx h) in
  let h := h <| h_tx := tx |> in
  if negb (rc =? 0) then (h, -1)
  else (h <| h_seq ::= fun s => u8 (s + 1) |> <| h_tx_msgs ::= fun n => u32 (n + 1) |>, 0).

Definition register_payload (c : host_link_cfg_t) : list Z :=
  [HL_REGISTER_V2_VER] ++ wr_u32 (class_id c) ++ wr_u32 (instance_id c)
  ++ [commissioning_state c] ++ chip_uid c ++ wr_u16 (vid c) ++ wr_u16 (pid c)
  ++ wr_u32 (fw_version c) ++ wr_u32 (build_date c).

Definition emit_register (h : host_link_t) : host_link_t :=
  (emit_s2m h 1 OP_REGISTER (register_payload (h_cfg h)) HL_REGISTER_V2_LEN).1.

Definition m2s_ops : list Z :=
  [OP_REGISTER_ACK; OP_PING; OP_GET_MANIFEST; OP_OPERATIONAL_BEGIN;
   OP_SHELL_EXEC; OP_POLL; OP_BUS_EXEC].

Definition manifest_payload (c : host_link_cfg_t) : list Z :=
  wr_u32 (schema_hash c) ++ wr_u32 (fw_version c) ++ [u8 (zlen m2s_ops)]
  ++ concat (map wr_u16 m2s_ops).

Definition emit_manifest (h : host_link_t) : host_link_t :=
  (emit_s2m h 1 OP_MANIFEST_REPLY (manifest_payload (h_cfg h)) (9 + 2 * zlen m2s_ops)).1.

(** [tx_buf] is the array inside the object. *)
Definition host_link_init (tx_buf : list Z) (cfg : host_link_cfg_t) : host_link_t :=
  mk_hl cfg HL_BOOT (frame_ring_init (map (fun _ => 0) tx_buf) HOST_LINK_TX_RING_SIZE)
    (frame_decoder_init FRAME_DIR_M2S) 0 0 0 false false 0 0.

Definition host_link_set_callbacks (h : host_link_t) (on_bus_msg on_local_shell : bool)
    : host_link_t :=
  h <| h_on_bus_msg := on_bus_msg |> <| h_on_local_shell := on_local_shell |>.

Definition on_frame (h : host_link_t) (m : frame_meta_t) (payload : list Z)
    : host_link_t * option host_link_event :=
  if negb (m_addr m =? 0) then
    (h, if h_on_bus_msg h
        then Some (EvBusMsg (m_addr m) (m_cmd m) (take (Z.to_nat (m_payload_len m)) payload))
        else None)
  else if m_cmd m =? OP_REGISTER_ACK then
    (if decide (h_state h = HL_BOOT) then h <| h_state := HL_L1_ACKED |> else h, None)
  else if m_cmd m =? OP_GET_MANIFEST then
    let h := emit_manifest h in
    (if decide (h_state h = HL_BOOT \/ h_state h = HL_L1_ACKED)
     then h <| h_state := HL_MANIFEST |> else h, None)
  else if m_cmd m =? OP_OPERATIONAL_BEGIN then
    (h <| h_state := HL_OPERATIONAL |> <| h_next_heartbeat_ms := 0 |>, None)
  else if m_cmd m =? OP_PING then
    ((emit_s2m h 1 OP_PONG [] 0).1, None)
  else if m_cmd m =? OP_SHELL_EXEC then
    if (4 <=? m_payload_len m) && h_on_local_shell h then
      let req_id := le16 (zget 0 payload 0) (zget 0 payload 1) in
      let cmd := le16 (zget 0 payload 2) (zget 0 payload 3) in
      (h, Some (EvLocalShell req_id cmd
                  (take (Z.to_nat (u8 (m_payload_len m - 4))) (drop 4 payload))))
    else (h, None)
  else (h, None).

Definition host_link_feed (h : host_link_t) (byte : Z) : host_link_t * option host_link_event :=
  let '(rx, r) := frame_decoder_feed (h_rx h) byte in
  let h := h <| h_rx := rx |> in
  match r with
  | FRAME_DECODE_FRAME_READY meta payload =>
      on_frame (h <| h_rx_msgs ::= fun n => u32 (n + 1) |>) meta payload
  | _ => (h, None)
  end.

Definition host_link_tick (h : host_link_t) (now_ms : Z) (connected : bool) : host_link_t :=
  if negb connected then h
  else if decide (h_state h <> HL_OPERATIONAL) then
    if 0 <=? s32 (now_ms - h_next_register_ms h)
    then emit_register h <| h_next_register_ms := u32 (now_ms + HL_REGISTER_PERIOD_MS) |>
    else h
  else
    if 0 <=? s32 (now_ms - h_next_heartbeat_ms h)
    then (emit_s2m h 1 OP_HEARTBEAT [] 0).1
           <| h_next_heartbeat_ms := u32 (now_ms + HL_HEARTBEAT_PERIOD_MS) |>
    else h.

Definition host_link_reset_boot (h : host_link_t) : host_link_t :=
  h <| h_state := HL_BOOT |> <| h_next_register_ms := 0 |> <| h_next_heartbeat_ms := 0 |>
    <| h_tx ::= fun r => frame_ring_init (rg_buf r) HOST_LINK_TX_RING_SIZE |>
    <| h_rx := frame_decoder_init FRAME_DIR_M2S |>.

Definition host_link_tx_drain (h : host_link_t) (max : Z) : host_link_t * list Z :=
  let '(tx, bs) := frame_ring_read_drain (h_tx h) max in (h <| h_tx := tx |>, bs).

Definition host_link_s2m (h : host_link_t) (addr opcode : Z) (payload : list Z) (len : Z)
    : host_link_t * Z := emit_s2m h addr opcode payload len.

Definition host_link_shell_reply (h : host_link_t) (req_id status : Z) (result : list Z)
    (rlen : Z) : host_link_t * Z :=
  let rlen := if COMM_PAYLOAD_MAX - 3 <? rlen then COMM_PAYLOAD_MAX - 3 else rlen in
  let p := wr_u16 req_id ++ [status] ++ take (Z.to_nat rlen) result in
  emit_s2m h 0 OP_SHELL_REPLY p (u8 (3 + rlen)).

(** The transport's loop over received bytes. *)
Fixpoint host_link_feed_all (h : host_link_t) (bs : list Z) : host_link_t * list host_link_event :=
  match bs with
  | [] => (h, [])
  | b :: bs =>
      let '(h, o) := host_link_feed h b in
      let '(h, es) := host_link_feed_all h bs in (h, option_list o ++ es)
  end.

(** The frame-completion half of [host_link_feed], over delivered frames. *)
Fixpoint on_frames (h : host_link_t) (fs : list (frame_meta_t * list Z))
    : host_link_t * list host_link_event :=
  match fs with
  | [] => (h, [])
  | (m, p) :: fs =>
      let '(h, o) := on_frame (h <| h_rx_msgs ::= fun n => u32 (n + 1) |>) m p in
      let '(h, es) := on_frames h fs in (h, option_list o ++ es)
  end.

(** ** Specification *)
Record hlcfg_wf (c : host_link_cfg_t) : Prop := {
  hc_class : fits 32 (class_id c); hc_inst : fits 32 (instance_id c);
  hc_comm : fits 8 (commissioning_state c); hc_uid : zlen (chip_uid c) = 16;
  hc_uidb : bytes_ok (chip_uid c); hc_vid : fits 16 (vid c); hc_pid : fits 16 (pid c);
  hc_fw : fits 32 (fw_version c); hc_build : fits 32 (build_date c); hc_schema : fits 32 (schema_hash c)
}.

Record hl_wf (h : host_link_t) : Prop := {
  hw_cfg : hlcfg_wf (h_cfg h); hw_tx : ring_wf (h_tx h);
  hw_size : zlen (rg_buf (h_tx h)) = HOST_LINK_TX_RING_SIZE;
  hw_rx : dec_wf (h_rx h); hw_dir : d_dir (h_rx h) = FRAME_DIR_M2S; hw_seq : fits 8 (h_seq h)
}.

(** How the controller reads REGISTER v2 back. *)
Definition rd_u16 (p : list Z) (i : Z) : Z := le16 (zget 0 p i) (zget 0 p (i + 1)).
Definition rd_u32 (p : list Z) (i : Z) : Z :=
  zget 0 p i + 2 ^ 8 * zget 0 p (i + 1) + 2 ^ 16 * zget 0 p (i + 2) + 2 ^ 24 * zget 0 p (i + 3).
Definition read_register (p : list Z) : Z * Z * Z * list Z * Z * Z * Z * Z :=
  (rd_u32 p 1, rd_u32 p 5, zget 0 p 9, take 16 (drop 10 p), rd_u16 p 26, rd_u16 p 28,
   rd_u32 p 30, rd_u32 p 34).
Definition cfg_identity (c : host_link_cfg_t) : Z * Z * Z * list Z * Z * Z * Z * Z :=
  (class_id c, instance_id c, commissioning_state c, chip_uid c, vid c, pid c,
   fw_version c, build_date c).

(** The rung of the ladder. *)
Definition rung (s : host_link_state_t) : nat :=
  match s with HL_BOOT => 0 | HL_L1_ACKED => 1 | HL_MANIFEST => 2 | HL_OPERATIONAL => 3 end.

Definition is_begin (m : frame_meta_t) : bool :=
  (m_addr m =? 0) && (m_cmd m =? OP_OPERATIONAL_BEGIN).

(** The frames of a received byte string, as the link's decoder delivers them. *)
Definition frames_in (h : host_link_t) (bs : list Z) : list (frame_meta_t * list Z) :=
  (decoder_run (h_rx h) bs).2.

Definition sample_cfg : host_link_cfg_t :=
  mk_hlcfg 0x11223344 7 1 (map Z.of_nat (seq 0xB8 16)) 0x2E8A 10 0x10203 20260622 0xDEADBEEF.
Definition sample_link : host_link_t := host_link_init (replicate 1024 0) sample_cfg.

(** ** Lemmas *)
Lemma wr_u16_bytes v : bytes_ok (wr_u16 v).
Proof. repeat (constructor; [apply u8_fits|]). constructor. Qed.
Lemma wr_u32_bytes v : bytes_ok (wr_u32 v).
Proof. repeat (constructor; [apply u8_fits|]). constructor. Qed.

Lemma wr_u32_val v : fits 32 v ->
  u8 v + 2 ^ 8 * u8 (Z.shiftr v 8) + 2 ^ 16 * u8 (Z.shiftr v 16) + 2 ^ 24 * u8 (Z.shiftr v 24) = v.
Proof.
  intros Hv. unfold fits in Hv. unfold u8. rewrite !Z.shiftr_div_pow2 by lia.
  change (2 ^ 32) with 4294967296 in *. change (2 ^ 8) with 256. change (2 ^ 16) with 65536.
  change (2 ^ 24) with 16777216. Z.div_mod_to_equations. lia.
Qed.

Lemma wr_u16_val v : fits 16 v -> le16 (u8 v) (u8 (Z.shiftr v 8)) = v.
Proof.
  intros Hv. rewrite <- (le16_lo_hi v Hv) at 3. f_equal. unfold lo8.
  change 0xFF with (Z.ones 8). rewrite Z.land_ones by lia. unfold u8. by rewrite Z.mod_mod.
Qed.

Lemma slip_length bs : zlen (slip bs) <= 2 * zlen bs.
Proof.
  induction bs as [|b bs IH]; [done|]. rewrite slip_cons, zlen_app.
  assert (zlen (slip_byte b) <= 2)
    by (unfold slip_byte; destruct (_ =? _); [done|]; by destruct (_ =? _)).
  unfold zlen in *. simpl length. lia.
Qed.

Lemma wire_length dir m p :
  meta_wf m p -> zlen (frame_wire dir m p) <= 18 + 2 * m_payload_len m.
Proof.
  intros Hm. unfold frame_wire. rewrite !zlen_app. change (zlen [FRAME_END]) with 1.
  pose proof (slip_length (frame_body dir m p ++ [crc8_autosar (frame_body dir m p)])) as H.
  rewrite zlen_app, (body_length dir m p Hm) in H. change (zlen [_]) with 1 in H.
  destruct dir; lia.
Qed.

Lemma register_payload_ok c :
  hlcfg_wf c -> bytes_ok (register_payload c) /\ zlen (register_payload c) = HL_REGISTER_V2_LEN.
Proof.
  intros [_ _ Hc Hu Hub _ _ _ _ _]. split.
  - unfold register_payload.
    repeat (apply Forall_app; split); try apply wr_u32_bytes; try apply wr_u16_bytes; solve_bytes.
  - unfold register_payload. rewrite !zlen_app, Hu. done.
Qed.

Lemma manifest_payload_ok c :
  bytes_ok (manifest_payload c) /\ zlen (manifest_payload c) = 9 + 2 * zlen m2s_ops.
Proof.
  split; [|done]. unfold manifest_payload.
  repeat (apply Forall_app; split); try apply wr_u32_bytes; vm_decide.
Qed.

(** REGISTER v2 read back field by field. *)
Lemma read_register_payload c :
  hlcfg_wf c -> read_register (register_payload c) = cfg_identity c.
Proof.
  intros [H1 H2 H3 Hu _ H4 H5 H6 H7 _].
  destruct c as [ci ii cs uid v p fw bd sh]. simpl in *. unfold zlen in Hu.
  do 16 (destruct uid as [|? uid]; [simpl in Hu; lia|]).
  destruct uid; [|simpl in Hu; lia]. unfold read_register, cfg_identity, rd_u16, rd_u32.
  pose proof (wr_u32_val ci H1). pose proof (wr_u32_val ii H2). pose proof (wr_u32_val fw H6).
  pose proof (wr_u32_val bd H7). pose proof (wr_u16_val v H4). pose proof (wr_u16_val p H5).
  unfold class_id, instance_id, commissioning_state, chip_uid, vid, pid, fw_version, build_date.
  repeat apply (f_equal2 pair); done.
Qed.

(** What an emission does: everything but the TX side is untouched. *)
Record emitted (h h' : host_link_t) : Prop := {
  et_cfg : h_cfg h' = h_cfg h; et_state : h_state h' = h_state h; et_rx : h_rx h' = h_rx h;
  et_reg : h_next_register_ms h' = h_next_register_ms h;
  et_hb : h_next_heartbeat_ms h' = h_next_heartbeat_ms h;
  et_bus : h_on_bus_msg h' = h_on_bus_msg h; et_sh : h_on_local_shell h' = h_on_local_shell h;
  et_size : zlen (rg_buf (h_tx h')) = zlen (rg_buf (h_tx h))
}.

Lemma emit_s2m_spec h addr op payload len :
  hl_wf h -> meta_wf (mk_meta addr op (h_seq h) 0 0 len) payload ->
  let w := frame_wire FRAME_DIR_S2M (mk_meta addr op (h_seq h) 0 0 len) payload in
  let '(h', rc) := emit_s2m h addr op payload len in
  hl_wf h' /\ emitted h h' /\
  ((zlen w <= frame_ring_free (h_tx h) /\ rc = 0 /\ h_seq h' = u8 (h_seq h + 1) /\
    ring_contents (h_tx h') = ring_contents (h_tx h) ++ w) \/
   (frame_ring_free (h_tx h) < zlen w /\ rc = -1 /\ h_seq h' = h_seq h /\
    ring_contents (h_tx h') = ring_contents (h_tx h))).
Proof.
  intros [Hcfg Htx Hsz Hrx Hdir Hseq] Hm w. unfold emit_s2m, frame_encode_s2m.
  pose proof (mw_len _ _ Hm) as Hl. simpl in Hl.
  pose proof (frame_encode_spec (mk_meta addr op (h_seq h) 0 0 len) payload (h_tx h)
    FRAME_DIR_S2M Htx ltac:(simpl; lia)) as H.
  destruct (frame_encode_common _ _ _ _) as [tx rc]. destruct H as (Hwf' & Hsz' & H).
  destruct H as [(Hf & -> & Hc)|(Hf & -> & Hc)]; simpl.
  - split_and!; [split; simpl; try done; auto with widths; congruence|by split|].
    left. by split_and!.
  - split_and!; [split; simpl; try done; congruence|by split|]. right. by split_and!.
Qed.

Lemma emitted_refl h : emitted h h.
Proof. by split. Qed.

Lemma meta_wf_s2m op seq len p :
  fits 16 op -> fits 8 seq -> 0 <= len <= COMM_PAYLOAD_MAX -> len <= zlen p -> bytes_ok p ->
  meta_wf (mk_meta 1 op seq 0 0 len) p.
Proof. intros. split; simpl; try done. Qed.

Lemma register_meta h :
  hl_wf h ->
  meta_wf (mk_meta 1 OP_REGISTER (h_seq h) 0 0 HL_REGISTER_V2_LEN) (register_payload (h_cfg h)).
Proof.
  intros Hwf. destruct (register_payload_ok _ (hw_cfg h Hwf)) as [Hb Hl].
  apply meta_wf_s2m; try done; try apply (hw_seq h Hwf).
  all: by rewrite Hl.
Qed.

Lemma manifest_meta h :
  hl_wf h ->
  meta_wf (mk_meta 1 OP_MANIFEST_REPLY (h_seq h) 0 0 (9 + 2 * zlen m2s_ops))
    (manifest_payload (h_cfg h)).
Proof.
  intros Hwf. destruct (manifest_payload_ok (h_cfg h)) as [Hb Hl].
  apply meta_wf_s2m; try done; try apply (hw_seq h Hwf).
  all: by rewrite Hl.
Qed.

Lemma empty_meta h op : hl_wf h -> fits 16 op -> meta_wf (mk_meta 1 op (h_seq h) 0 0 0) [].
Proof. intros Hwf Hop. apply meta_wf_s2m; try done; apply (hw_seq h Hwf) || constructor. Qed.

Lemma hl_wf_update h h' :
  hl_wf h -> h_cfg h' = h_cfg h -> h_tx h' = h_tx h -> h_rx h' = h_rx h -> h_seq h' = h_seq h ->
  hl_wf h'.
Proof. intros [] E1 E2 E3 E4. split; by rewrite ?E1, ?E2, ?E3, ?E4. Qed.

Lemma emit_step h h' rc addr op p len :
  hl_wf h -> meta_wf (mk_meta addr op (h_seq h) 0 0 len) p ->
  emit_s2m h addr op p len = (h', rc) -> hl_wf h' /\ emitted h h'.
Proof.
  intros Hwf Hm E. pose proof (emit_s2m_spec h addr op p len Hwf Hm) as H. rewrite E in H.
  by destruct H as (? & ? & _).
Qed.

(** One delivered frame. *)
Lemma on_frame_spec h m p :
  hl_wf h ->
  let '(h', o) := on_frame h m p in
  hl_wf h' /\ h_rx h' = h_rx h /\ (rung (h_state h) <= rung (h_state h'))%nat /\
  (h_state h' = HL_OPERATIONAL <-> h_state h = HL_OPERATIONAL \/ is_begin m = true).
Proof.
  intros Hwf. unfold on_frame, is_begin.
  destruct (m_addr m =? 0); simpl; [|split_and!; naive_solver].
  destruct (Z.eqb_spec (m_cmd m) OP_REGISTER_ACK) as [->|H1].
  { destruct (decide (h_state h = HL_BOOT)) as [E|E]; simpl; [|split_and!; naive_solver].
    rewrite E. split_and!; [by apply (hl_wf_update h)|done|simpl; lia|naive_solver]. }
  destruct (Z.eqb_spec (m_cmd m) OP_GET_MANIFEST) as [->|H2].
  { unfold emit_manifest. destruct (emit_s2m _ _ _ _ _) as [h1 rc] eqn:E.
    destruct (emit_step _ _ _ _ _ _ _ Hwf (manifest_meta h Hwf) E) as [Hwf1 [_ Hs Hrx _ _ _ _ _]].
    simpl. rewrite <- Hs, <- Hrx. destruct (decide _) as [D|D]; simpl.
    - split_and!; [by apply (hl_wf_update h1)|done|destruct D as [->| ->]; simpl; lia|].
      destruct D as [->| ->]; naive_solver.
    - split_and!; naive_solver. }
  destruct (Z.eqb_spec (m_cmd m) OP_OPERATIONAL_BEGIN) as [E3|H3].
  { simpl. split_and!; [by apply (hl_wf_update h)|done| |naive_solver].
    destruct (h_state h); simpl; lia. }
  assert (Hid : h_state h = HL_OPERATIONAL <-> h_state h = HL_OPERATIONAL \/ false = true)
    by naive_solver.
  destruct (Z.eqb_spec (m_cmd m) OP_PING) as [E4|H4].
  { destruct (emit_s2m _ _ _ _ _) as [h1 rc] eqn:E.
    destruct (emit_step _ _ _ _ _ _ _ Hwf (empty_meta h OP_PONG Hwf ltac:(done)) E)
      as [Hwf1 [_ Hs Hrx _ _ _ _ _]].
    simpl. rewrite Hs, Hrx. by split_and!. }
  destruct (Z.eqb_spec (m_cmd m) OP_SHELL_EXEC) as [E5|H5]; [destruct (_ && _)|]; by split_and!.
Qed.

(** The link is its decoder followed by the frame handler. *)
Lemma emit_s2m_rx h rx addr op p len :
  emit_s2m (h <| h_rx := rx |>) addr op p len =
  let '(h', rc) := emit_s2m h addr op p len in (h' <| h_rx := rx |>, rc).
Proof.
  unfold emit_s2m. usimpl. destruct (frame_encode_s2m _ _ _) as [tx rc].
  by destruct (negb _).
Qed.

Lemma on_frame_rx h rx m p :
  on_frame (h <| h_rx := rx |>) m p =
  let '(h', o) := on_frame h m p in (h' <| h_rx := rx |>, o).
Proof.
  unfold on_frame, emit_manifest. rewrite !emit_s2m_rx. usimpl.
  destruct (negb _); [done|]. destruct (_ =? _); [by destruct (decide _)|].
  destruct (m_cmd m =? OP_GET_MANIFEST).
  { destruct (emit_s2m _ _ _ _ _) as [h1 rc]. simpl. by destruct (decide _). }
  destruct (m_cmd m =? OP_OPERATIONAL_BEGIN); [done|].
  destruct (m_cmd m =? OP_PING); [by destruct (emit_s2m _ _ _ _ _)|].
  destruct (m_cmd m =? OP_SHELL_EXEC); [by destruct (_ && _)|done].
Qed.

Lemma on_frames_rx fs h rx :
  on_frames (h <| h_rx := rx |>) fs =
  let '(h', es) := on_frames h fs in (h' <| h_rx := rx |>, es).
Proof.
  revert h. induction fs as [|[m p] fs IH]; intros h; [done|]. simpl.
  change (h <| h_rx := rx |> <| h_rx_msgs ::= ?g |>) with (h <| h_rx_msgs ::= g |> <| h_rx := rx |>).
  rewrite on_frame_rx. destruct (on_frame _ m p) as [h1 o]. rewrite IH.
  by destruct (on_frames h1 fs).
Qed.

Lemma feed_all_frames h bs :
  host_link_feed_all h bs =
  let '(d, fs) := decoder_run (h_rx h) bs in
  let '(h', es) := on_frames h fs in (h' <| h_rx := d |>, es).
Proof.
  revert h. induction bs as [|b bs IH]; intros h; [by destruct h|]. simpl.
  unfold host_link_feed. destruct (frame_decoder_feed (h_rx h) b) as [d r].
  assert (Hskip : forall d, (let '(h', es) := host_link_feed_all (h <| h_rx := d |>) bs in (h', [] ++ es))
    = let '(d', fs) := decoder_run d bs in
      let '(h', es) := on_frames h fs in (h' <| h_rx := d' |>, es)).
  { intros d0. rewrite IH. simpl. destruct (decoder_run d0 bs) as [d' fs].
    rewrite on_frames_rx. by destruct (on_frames h fs). }
  destruct r as [|m p| | |]; cbn [ready_frame option_list app];
    try (rewrite Hskip; by destruct (decoder_run d bs)).
  change (h <| h_rx := d |> <| h_rx_msgs ::= ?g |>) with (h <| h_rx_msgs ::= g |> <| h_rx := d |>).
  rewrite on_frame_rx. simpl.
  destruct (decoder_run d bs) as [d' fs] eqn:Ed. cbn [on_frames].
  destruct (on_frame _ m p) as [h1 o]. rewrite IH. simpl. rewrite Ed, on_frames_rx.
  by destruct (on_frames h1 fs).
Qed.

Lemma on_frames_spec fs h :
  hl_wf h ->
  let '(h', es) := on_frames h fs in
  hl_wf h' /\ h_rx h' = h_rx h /\ (rung (h_state h) <= rung (h_state h'))%nat /\
  (h_state h' = HL_OPERATIONAL <->
   h_state h = HL_OPERATIONAL \/ Exists (fun mp => is_begin mp.1 = true) fs).
Proof.
  revert h. induction fs as [|[m p] fs IH]; intros h Hwf; simpl.
  - split_and!; try done. rewrite Exists_nil. tauto.
  - pose proof (on_frame_spec (h <| h_rx_msgs ::= fun n => u32 (n + 1) |>) m p
      ltac:(by apply (hl_wf_update h))) as H.
    destruct (on_frame _ m p) as [h1 o]. destruct H as (Hwf1 & Hrx1 & Hr1 & Hs1).
    specialize (IH h1 Hwf1). destruct (on_frames h1 fs) as [h2 es].
    destruct IH as (Hwf2 & Hrx2 & Hr2 & Hs2). simpl in *.
    split_and!; [done|congruence|lia|]. rewrite Hs2, Hs1, Exists_cons. simpl. tauto.
Qed.

(** The timer comparison is right across the 32-bit wrap. *)
Lemma timer_due t0 d period :
  0 <= d < 2 ^ 31 -> 0 <= period < 2 ^ 31 ->
  (0 <=? s32 (u32 (t0 + d) - u32 (t0 + period))) = (period <=? d).
Proof.
  intros Hd Hp. unfold s32.
  assert (E : u32 (u32 (t0 + d) - u32 (t0 + period)) = u32 (d - period)).
  { unfold u32. rewrite <- Zminus_mod. f_equal. lia. }
  rewrite E. change (2 ^ 31) with 2147483648 in *. unfold u32. change (2 ^ 32) with 4294967296.
  destruct (Z.leb_spec period d).
  - rewrite Z.mod_small by lia. destruct (Z.ltb_spec (d - period) 2147483648); [|lia].
    apply Z.leb_le. lia.
  - replace ((d - period) mod 4294967296) with (d - period + 4294967296)
      by (symmetry; rewrite <- (Z.mod_add _ 1) by done; apply Z.mod_small; lia).
    destruct (Z.ltb_spec (d - period + 4294967296) 2147483648); [lia|]. apply Z.leb_gt. lia.
Qed.

(** Draining everything a ring holds. *)
Lemma drain_all r max :
  ring_wf r -> frame_ring_used r <= max -> (frame_ring_read_drain r max).2 = ring_contents r.
Proof.
  intros Hwf Hm. unfold frame_ring_read_drain, ring_contents. simpl.
  destruct (Z.ltb_spec (frame_ring_used r) max); [done|].
  by replace max with (frame_ring_used r) by lia.
Qed.

Lemma link_drain_all h max :
  ring_wf (h_tx h) -> frame_ring_used (h_tx h) <= max ->
  (host_link_tx_drain h max).2 = ring_contents (h_tx h).
Proof.
  intros Hwf Hm. unfold host_link_tx_drain. rewrite <- (drain_all (h_tx h) max) by done.
  by destruct (frame_ring_read_drain (h_tx h) max).
Qed.

(** ** Properties *)

(** The ladder: on any received bytes the link stays well formed, its rung
    never goes down, and it becomes operational exactly when an
    OPERATIONAL_BEGIN addressed to it was received (a frame for a bus node does
    not count). *)
Theorem host_link_ladder h bs :
  hl_wf h -> bytes_ok bs ->
  let '(h', es) := host_link_feed_all h bs in
  hl_wf h' /\ (rung (h_state h) <= rung (h_state h'))%nat /\
  (h_state h' = HL_OPERATIONAL <->
   h_state h = HL_OPERATIONAL \/ Exists (fun mp => is_begin mp.1 = true) (frames_in h bs)).
Proof.
  intros Hwf Hb. rewrite feed_all_frames. unfold frames_in.
  assert (Hd : dec_wf (decoder_run (h_rx h) bs).1 /\
               d_dir (decoder_run (h_rx h) bs).1 = d_dir (h_rx h)).
  { pose proof (hw_rx h Hwf) as Hd. revert Hd. generalize (h_rx h) as d. clear Hwf h.
    induction Hb as [|b bs Hb8 _ IH]; intros d Hd; [done|]. simpl.
    pose proof (decoder_feed_wf d b Hd Hb8) as [Hd1 _].
    assert (Hdir : d_dir (frame_decoder_feed d b).1 = d_dir d).
    { unfold frame_decoder_feed, decoder_store. repeat (case_match; simpl; try done). }
    destruct (frame_decoder_feed d b) as [d1 r]. simpl in *. specialize (IH d1 Hd1).
    destruct (decoder_run d1 bs) as [d2 fs]. simpl in *. destruct IH. split; [done|congruence]. }
  destruct (decoder_run (h_rx h) bs) as [d fs]. simpl in *. destruct Hd as [Hd Hdir].
  pose proof (on_frames_spec fs h Hwf) as H. destruct (on_frames h fs) as [h' es].
  destruct H as (Hwf' & _ & Hr & Hs). split_and!; [|done|done].
  destruct Hwf', Hwf. split; simpl; try done. congruence.
Qed.

Lemma sample_link_wf : hl_wf sample_link.
Proof.
  split; try done.
  - split; vm_decide.
  - split; try vm_decide. exists 10. by vm_compute.
  - split; vm_decide.
Qed.

Lemma host_link_ladder_witness :
  let '(h', _) := host_link_feed_all sample_link
    (frame_wire FRAME_DIR_M2S (mk_meta 0 OP_OPERATIONAL_BEGIN 1 0 0 0) []) in
  h_state h' = HL_OPERATIONAL.
Proof.
  assert (Hb : bytes_ok (frame_wire FRAME_DIR_M2S (mk_meta 0 OP_OPERATIONAL_BEGIN 1 0 0 0) []))
    by vm_decide.
  pose proof (host_link_ladder sample_link _ sample_link_wf Hb) as H.
  destruct (host_link_feed_all _ _) as [h' es]. destruct H as (_ & _ & Hs).
  apply Hs. right. vm_compute. by left.
Defined.

(** The announcement reaches the host: when a well-formed link that is not
    operational is ticked while connected with its timer due and its TX ring empty, and the
    bytes staged are drained to a fresh slave-to-master decoder, the host gets
    exactly one frame, an OP_REGISTER v2 from address 1 whose 38-byte payload
    reads back as the configured identity. *)
Theorem host_link_register_reaches_host h now max :
  hl_wf h -> h_state h <> HL_OPERATIONAL -> ring_contents (h_tx h) = [] ->
  0 <= s32 (now - h_next_register_ms h) -> HOST_LINK_TX_RING_SIZE <= max ->
  exists d' m p,
    decoder_run (frame_decoder_init FRAME_DIR_S2M)
      (host_link_tx_drain (host_link_tick h now true) max).2 = (d', [(m, p)]) /\
    m_addr m = 1 /\ m_cmd m = OP_REGISTER /\ zlen p = HL_REGISTER_V2_LEN /\
    zget 0 p 0 = HL_REGISTER_V2_VER /\ read_register p = cfg_identity (h_cfg h).
Proof.
  intros Hwf Hst Hempty Hdue Hmax. unfold host_link_tick. cbn [negb].
  rewrite decide_True by done. destruct (Z.leb_spec 0 (s32 (now - h_next_register_ms h))); [|lia].
  destruct (register_payload_ok _ (hw_cfg h Hwf)) as [Hpb Hpl].
  pose proof (register_meta h Hwf) as Hm.
  pose proof (emit_s2m_spec h 1 OP_REGISTER _ _ Hwf Hm) as He. unfold emit_register.
  destruct (emit_s2m h 1 OP_REGISTER _ _) as [h1 rc]. cbn [fst].
  destruct He as (Hwf1 & [_ _ _ _ _ _ _ Hsz] & He).
  pose proof (wire_length FRAME_DIR_S2M _ _ Hm) as Hwl. simpl in Hwl.
  assert (Hfree : frame_ring_free (h_tx h) = HOST_LINK_TX_RING_SIZE).
  { rewrite ring_free_val by apply Hwf. rewrite (hw_size h Hwf).
    rewrite <- ring_contents_length, Hempty. done. }
  unfold HL_REGISTER_V2_LEN, HOST_LINK_TX_RING_SIZE in *.
  destruct He as [(_ & _ & _ & Hc)|(Hlt & _)]; [|lia].
  assert (Hused : frame_ring_used (h_tx h1) <= max).
  { pose proof (rgw_used _ (hw_tx h1 Hwf1)) as Hu. rewrite (hw_size h1 Hwf1) in Hu.
    unfold HOST_LINK_TX_RING_SIZE in Hu. lia. }
  rewrite link_drain_all by (simpl; apply Hwf1 || done). simpl h_tx.
  rewrite Hc, Hempty, app_nil_l.
  destruct (decoder_run_frame (frame_decoder_init FRAME_DIR_S2M) _ _ eq_refl eq_refl Hm)
    as (d' & Hr & _). change (d_dir (frame_decoder_init FRAME_DIR_S2M)) with FRAME_DIR_S2M in Hr.
  rewrite Hr. do 3 eexists. split; [reflexivity|].
  cbn [m_payload_len]. unfold zlen in Hpl.
  rewrite firstn_all2 by (change (Z.to_nat 38) with 38%nat; lia).
  split_and!; try done. apply read_register_payload, Hwf.
Qed.

Lemma host_link_register_reaches_host_witness :
  exists d' m p,
    decoder_run (frame_decoder_init FRAME_DIR_S2M)
      (host_link_tx_drain (host_link_tick sample_link 1234 true) 2048).2 = (d', [(m, p)]) /\
    read_register p = cfg_identity sample_cfg.
Proof.
  destruct (host_link_register_reaches_host sample_link 1234 2048) as (d' & m & p & H & _ & _ & _ & _ & Hi).
  - exact sample_link_wf.
  - discriminate.
  - reflexivity.
  - vm_compute. discriminate.
  - vm_compute. discriminate.
  - exists d', m, p. split; [exact H|exact Hi].
Defined.

(** Announcement pacing across the clock wrap: a link that announced at time
    [t0] (its timer is [t0 + 500] modulo 2^32) and is ticked [d] milliseconds
    later, for any [d] below 2^31 and whether or not the 32-bit clock wrapped in
    between, announces again exactly when [d] is at least 500, re-arming the
    timer 500 ms on; otherwise, or when the host is not connected, the tick
    changes nothing. *)
Theorem host_link_register_period h t0 d :
  h_state h <> HL_OPERATIONAL -> h_next_register_ms h = u32 (t0 + HL_REGISTER_PERIOD_MS) ->
  0 <= d < 2 ^ 31 ->
  host_link_tick h (u32 (t0 + d)) false = h /\
  host_link_tick h (u32 (t0 + d)) true =
  if HL_REGISTER_PERIOD_MS <=? d
  then emit_register h <| h_next_register_ms := u32 (t0 + d + HL_REGISTER_PERIOD_MS) |>
  else h.
Proof.
  intros Hst Hn Hd. split; [done|]. unfold host_link_tick. cbn [negb].
  rewrite decide_True, Hn, timer_due by done.
  destruct (HL_REGISTER_PERIOD_MS <=? d); [|done].
  replace (u32 (u32 (t0 + d) + HL_REGISTER_PERIOD_MS)) with (u32 (t0 + d + HL_REGISTER_PERIOD_MS))
    by (unfold u32; by rewrite Zplus_mod_idemp_l).
  done.
Qed.

Lemma host_link_register_period_witness :
  host_link_tick (sample_link <| h_next_register_ms := 200 |>) 100 true
  = (sample_link <| h_next_register_ms := 200 |>).
Proof.
  apply (host_link_register_period (sample_link <| h_next_register_ms := 200 |>) (2 ^ 32 - 300) 400).
  - discriminate.
  - reflexivity.
  - lia.
Defined.

(** A reattach announces "on the next tick" only in the first half of the clock's
    range: with the timer reset to 0, a tick at an uptime of 2^31 ms (24.8 days) or
    more, until the clock wraps, stays silent. *)
Lemma host_link_reattach_silent h now :
  2 ^ 31 <= now < 2 ^ 32 ->
  host_link_tick (host_link_reset_boot h) now true = host_link_reset_boot h.
Proof.
  intros Hn. unfold host_link_tick, host_link_reset_boot. cbn [negb]. simpl h_state.
  rewrite decide_True by done. simpl h_next_register_ms. rewrite Z.sub_0_r. unfold s32.
  rewrite (u32_id now) by (unfold fits; lia).
  destruct (Z.ltb_spec now (2 ^ 31)); [lia|]. destruct (Z.leb_spec 0 (now - 2 ^ 32)); [lia|done].
Qed.
