(* ===== verification/CborMin.v ===== *)
(** The boot-time CBOR reader ([node/cbor_min.h]), as parsers over a cursor.

    Pointers are 32-bit addresses: [c_base] is where the caller's array
    [c_arr] lies, [c_p] and [c_end] are the cursor. Adding a decoded 64-bit
    argument to a pointer wraps at 2^32, as the compiled code does; a read
    outside the array is the result [Oob]. *)
From S2P Require Import Prelude.

Inductive res (A : Type) := Ok (a : A) | Err (code : Z) | Oob | NoFuel.
Arguments Ok {A} a.
Arguments Err {A} code.
Arguments Oob {A}.
Arguments NoFuel {A}.

Record cbor_t := mk_cbor { c_arr : list Z; c_base : Z; c_p : Z; c_end : Z }.
#[export] Instance eta_cbor_t : Settable cbor_t := fun c =>
  mk_cbor (c_arr c) (c_base c) (c_p c) (c_end c).

Definition CBOR_UINT : Z := 0.
Definition CBOR_BYTES : Z := 2.
Definition CBOR_TEXT : Z := 3.
Definition CBOR_ARRAY : Z := 4.
Definition CBOR_MAP : Z := 5.

(** [false] from a cbor function. [cbor_uint], [cbor_str] and [cbor_open] then
    put the cursor back; every caller gives up at once, so [Err] carries none. *)
Definition CBOR_FALSE : Z := 0.

Definition parser (A : Type) := cbor_t -> res (A * cbor_t).
Definition pret {A} (a : A) : parser A := fun c => Ok (a, c).
Definition pfail {A} (code : Z) : parser A := fun _ => Err code.
Definition pbind {A B} (m : parser A) (f : A -> parser B) : parser B := fun c =>
  match m c with
  | Ok (a, c) => f a c
  | Err e => Err e
  | Oob => Oob
  | NoFuel => NoFuel
  end.
(** [if (!m) return code;] *)
Definition orelse {A} (m : parser A) (code : Z) : parser A := fun c =>
  match m c with Err _ => Err code | r => r end.

Declare Scope parser_scope.
Delimit Scope parser_scope with parser.
Notation "x <-- m ;; k" := (pbind m (fun x => k))
  (at level 100, m at next level, right associativity) : parser_scope.
Notation "m ;;; k" := (pbind m (fun _ => k)) (at level 100, right associativity) : parser_scope.
#[global] Open Scope parser_scope.

Definition cbor_init (arr : list Z) (base n : Z) : cbor_t := mk_cbor arr base base (u32 (base + n)).

(** The byte at an address, and [n] bytes from an address. *)
Definition mem_byte (c : cbor_t) (a : Z) : option Z :=
  if (c_base c <=? a) && (a <? c_base c + zlen (c_arr c))
  then Some (zget 0 (c_arr c) (a - c_base c)) else None.
Definition mem_slice (a n : Z) : parser (list Z) := fun c =>
  if n <=? 0 then Ok ([], c)
  else if (c_base c <=? a) && (a + n <=? c_base c + zlen (c_arr c))
  then Ok (take (Z.to_nat n) (drop (Z.to_nat (a - c_base c)) (c_arr c)), c)
  else Oob.

(** [if (c->p >= c->end) return false; .. *c->p++]. *)
Definition next_byte : parser Z := fun c =>
  if c_end c <=? c_p c then Err CBOR_FALSE
  else match mem_byte c (c_p c) with
       | Some b => Ok (b, c <| c_p ::= fun p => u32 (p + 1) |>)
       | None => Oob
       end.

(** The argument bytes: [v = (v << 8) | *c->p++], [nb] times. *)
Fixpoint arg_bytes (nb : nat) (v : Z) : parser Z :=
  match nb with
  | O => pret v
  | S nb => b <-- next_byte;; arg_bytes nb (u64 (Z.lor (Z.shiftl v 8) b))
  end.

Definition cbor_hdr : parser (Z * Z) :=
  b <-- next_byte;;
  let major := Z.shiftr b 5 in
  let n := Z.land b 0x1F in
  if 28 <=? n then pfail CBOR_FALSE
  else
    let v := if n <? 24 then n else 0 in
    let nb := if n =? 24 then 1%nat else if n =? 25 then 2%nat
              else if n =? 26 then 4%nat else if n =? 27 then 8%nat else 0%nat in
    a <-- arg_bytes nb v;; pret (major, a).

Definition cbor_uint : parser Z :=
  h <-- cbor_hdr;; let '(mj, a) := h in
  if negb (mj =? CBOR_UINT) then pfail CBOR_FALSE else pret a.

(** Advance over [a] string bytes: the bound check and [c->p += a]. *)
Definition advance (a : Z) : parser Z := fun c =>
  if c_end c <? u32 (c_p c + a) then Err CBOR_FALSE
  else Ok (c_p c, c <| c_p ::= fun p => u32 (p + a) |>).

(** Returns the address and the length stored through [str] and [n]. *)
Definition cbor_str (want : Z) : parser (Z * Z) :=
  h <-- cbor_hdr;; let '(mj, a) := h in
  if negb (mj =? want) then pfail CBOR_FALSE
  else s <-- advance a;; pret (s, u32 a).

Definition cbor_open (want : Z) : parser Z :=
  h <-- cbor_hdr;; let '(mj, a) := h in
  if negb (mj =? want) then pfail CBOR_FALSE else pret a.

(** [for (i = 0; i < n; i++) body]: the state [s] is what the body updates. *)
Fixpoint rep {S} (fuel : nat) (n : Z) (body : S -> parser S) (s : S) : parser S :=
  if n <=? 0 then pret s
  else match fuel with
       | O => fun _ => NoFuel
       | Datatypes.S fuel => s <-- body s;; rep fuel (n - 1) body s
       end.

(** Enough turns for any loop whose body reads a byte. *)
Definition bytes_left (c : cbor_t) : nat := Z.to_nat (c_end c - c_p c).
Definition for_n {S} (n : Z) (body : S -> parser S) (s : S) : parser S := fun c =>
  rep (Datatypes.S (bytes_left c)) n body s c.

Fixpoint cbor_skip_fuel (fuel : nat) : parser unit :=
  match fuel with
  | O => fun _ => NoFuel
  | S fuel =>
      h <-- cbor_hdr;; let '(mj, a) := h in
      if mj =? CBOR_UINT then pret tt
      else if (mj =? CBOR_BYTES) || (mj =? CBOR_TEXT) then advance a;;; pret tt
      else if mj =? CBOR_ARRAY then for_n a (fun _ => cbor_skip_fuel fuel) tt
      else if mj =? CBOR_MAP then for_n (u64 (2 * a)) (fun _ => cbor_skip_fuel fuel) tt
      else pfail CBOR_FALSE
  end.
(** Nesting costs at least a byte per level. *)
Definition cbor_skip : parser unit := fun c => cbor_skip_fuel (S (bytes_left c)) c.

(** [CBOR_KEY(k, kn, s)]. *)
Definition CBOR_KEY (k : Z * Z) (s : list Z) : parser bool :=
  if negb (k.2 =? zlen s) then pret false
  else bs <-- mem_slice k.1 k.2;; pret (bool_decide (bs = s)).

(** ** Safety *)

(** Wherever the bytes could be the head of a string with a four- or eight-byte
    length, the low 32 bits of that length are below 2^31. Text in ASCII always
    satisfies this. *)
Definition sane_at (arr : list Z) (i : nat) : bool :=
  match arr !! i with
  | Some b =>
      if bool_decide (b ∈ [0x5A; 0x7A]) then zget 0 arr (Z.of_nat i + 1) <? 0x80
      else if bool_decide (b ∈ [0x5B; 0x7B]) then zget 0 arr (Z.of_nat i + 5) <? 0x80
      else true
  | None => true
  end.
Definition lengths_sane (arr : list Z) : Prop := Forall (fun i => sane_at arr i = true) (seq 0 (length arr)).
#[export] Instance lengths_sane_dec l : Decision (lengths_sane l).
Proof. unfold lengths_sane. apply _. Defined.

(** An array in the low half of the address space, with a limit inside it. *)
Record mem_ok (arr : list Z) (base fin : Z) : Prop := {
  mo_base : 0 <= base; mo_fin : base <= fin <= base + zlen arr; mo_space : fin <= 2 ^ 31;
  mo_bytes : bytes_ok arr; mo_sane : lengths_sane arr
}.

(** On every cursor position with at most [B] bytes left, the parser neither reads
    outside the array nor runs out of fuel; when it succeeds it has read at least
    [k] bytes, stays within the limit, and its result satisfies [P]. *)
Definition safe (arr : list Z) (base fin : Z) (B : nat) {A} (k : Z) (P : A -> Prop)
    (m : parser A) : Prop := forall p,
  base <= p <= fin -> (Z.to_nat (fin - p) <= B)%nat ->
  match m (mk_cbor arr base p fin) with
  | Ok (a, c) => exists p', c = mk_cbor arr base p' fin /\ p + k <= p' <= fin /\ P a
  | Err _ => True
  | Oob => False
  | NoFuel => False
  end.

(** A string result lies in the array. *)
Definition slice_ok (base fin : Z) (s : Z * Z) : Prop :=
  base <= s.1 /\ 0 <= s.2 < 2 ^ 31 /\ s.1 + s.2 <= fin.

(** ** Encoding, for the round trip *)
#[local] Set Warnings "-register-all".
Inductive item :=
| IUint (n : Z) | IBytes (b : list Z) | IText (b : list Z)
| IArray (l : list item)
| IMap (kvs : list item).  (* keys and values in turn *)

Definition enc_hdr (major n : Z) : list Z :=
  let h k := Z.lor (Z.shiftl major 5) k in
  if n <? 24 then [h n]
  else if n <? 2 ^ 8 then [h 24; n]
  else if n <? 2 ^ 16 then [h 25; n / 2 ^ 8; n mod 2 ^ 8]
  else if n <? 2 ^ 32 then
    [h 26; n / 2 ^ 24; n / 2 ^ 16 mod 2 ^ 8; n / 2 ^ 8 mod 2 ^ 8; n mod 2 ^ 8]
  else [h 27; n / 2 ^ 56; n / 2 ^ 48 mod 2 ^ 8; n / 2 ^ 40 mod 2 ^ 8; n / 2 ^ 32 mod 2 ^ 8;
        n / 2 ^ 24 mod 2 ^ 8; n / 2 ^ 16 mod 2 ^ 8; n / 2 ^ 8 mod 2 ^ 8; n mod 2 ^ 8].

Fixpoint enc (i : item) : list Z :=
  match i with
  | IUint n => enc_hdr CBOR_UINT n
  | IBytes b => enc_hdr CBOR_BYTES (zlen b) ++ b
  | IText b => enc_hdr CBOR_TEXT (zlen b) ++ b
  | IArray l => enc_hdr CBOR_ARRAY (zlen l) ++ concat (map enc l)
  | IMap l => enc_hdr CBOR_MAP (zlen l / 2) ++ concat (map enc l)
  end.

(** The value the argument bytes build up. *)
Definition be (v : Z) (bs : list Z) : Z := foldl (fun v b => u64 (v * 256 + b)) v bs.

(** ** Safety lemmas *)
Section Safe.
Context (arr : list Z) (base fin : Z) (Hmem : mem_ok arr base fin).
#[local] Abbreviation ok := (safe arr base fin).

Lemma safe_weaken B B' {A} k k' (P P' : A -> Prop) m :
  ok B k P m -> (B' <= B)%nat -> k' <= k -> (forall a, P a -> P' a) -> ok B' k' P' m.
Proof.
  intros H HB Hk HP p Hp Hl. specialize (H p Hp ltac:(lia)).
  destruct (m _) as [[a c]|e| |]; [|done..]. destruct H as (p' & -> & ? & ?).
  exists p'. split_and!; try done; try lia. by apply HP.
Qed.

Lemma safe_ret B {A} (P : A -> Prop) a : P a -> ok B 0 P (pret a).
Proof. intros HP p Hp _. exists p. split_and!; done || lia. Qed.

Lemma safe_fail B {A} k (P : A -> Prop) e : ok B k P (pfail e).
Proof. by intros p Hp _. Qed.

Lemma safe_bind B {A A'} k1 k2 (P : A -> Prop) (Q : A' -> Prop) m f :
  0 <= k1 -> ok B k1 P m -> (forall a, P a -> ok B k2 Q (f a)) -> ok B (k1 + k2) Q (pbind m f).
Proof.
  intros Hk Hm Hf p Hp Hl. specialize (Hm p Hp Hl). unfold pbind.
  destruct (m _) as [[a c]|e| |]; [|done..]. destruct Hm as (p' & -> & Hp' & Ha).
  specialize (Hf a Ha p' ltac:(lia) ltac:(lia)).
  destruct (f a _) as [[a' c']|e| |]; [|done..]. destruct Hf as (p2 & -> & ? & ?).
  exists p2. split_and!; done || lia.
Qed.

Lemma safe_orelse B {A} k (P : A -> Prop) m e : ok B k P m -> ok B k P (orelse m e).
Proof. intros H p Hp Hl. specialize (H p Hp Hl). unfold orelse. by destruct (m _) as [[a c]|?| |]. Qed.

Lemma byte_at p : base <= p < fin -> exists b, arr !! Z.to_nat (p - base) = Some b /\ fits 8 b.
Proof.
  intros Hp. destruct Hmem as [Hb Hf _ Hby _]. unfold zlen in Hf.
  destruct (lookup_lt_is_Some_2 arr (Z.to_nat (p - base)) ltac:(lia)) as [b Hbl].
  exists b. split; [done|]. by eapply Forall_lookup_1.
Qed.

Lemma next_byte_run p b :
  base <= p < fin -> arr !! Z.to_nat (p - base) = Some b ->
  next_byte (mk_cbor arr base p fin) = Ok (b, mk_cbor arr base (p + 1) fin).
Proof.
  intros Hp Hb. destruct Hmem as [Hb0 Hf Hs _ _]. unfold next_byte. cbn [c_end c_p].
  destruct (Z.leb_spec fin p); [lia|]. unfold mem_byte. cbn [c_base c_arr].
  destruct (Z.leb_spec base p); [|lia]. destruct (Z.ltb_spec p (base + zlen arr)); [|lia].
  cbn [andb]. rewrite (zget_lookup 0 b) by (done || lia). unfold field_map. cbn.
  rewrite u32_id; [done|unfold fits; lia].
Qed.

Lemma next_byte_stop p : fin <= p -> next_byte (mk_cbor arr base p fin) = Err CBOR_FALSE.
Proof. intros Hp. unfold next_byte. cbn [c_end c_p]. by destruct (Z.leb_spec fin p); [|lia]. Qed.

Lemma shift_byte v b : 0 <= v -> fits 8 b -> Z.lor (Z.shiftl v 8) b = v * 256 + b.
Proof.
  intros Hv Hb. rewrite Z.lor_comm. change (Z.lor b (Z.shiftl v 8)) with (le16 b v).
  unfold le16. rewrite <- Z.add_nocarry_lor; [rewrite Z.shiftl_mul_pow2 by lia; change (2 ^ 8) with 256; lia|].
  apply Z.bits_inj'. intros n Hn. rewrite Z.land_spec, Z.bits_0.
  destruct (Z.ltb_spec n 8).
  - rewrite Z.shiftl_spec_low by lia. apply andb_false_r.
  - replace b with (b mod 2 ^ 8) by by apply Z.mod_small.
    rewrite Z.mod_pow2_bits_high by lia. done.
Qed.

(** The argument bytes are the array's next ones, or the cursor hits the limit. *)
Lemma arg_bytes_run nb : forall p v, base <= p <= fin -> 0 <= v ->
  (exists e, arg_bytes nb v (mk_cbor arr base p fin) = Err e) \/
  (p + Z.of_nat nb <= fin /\
   arg_bytes nb v (mk_cbor arr base p fin) =
     Ok (be v (take nb (drop (Z.to_nat (p - base)) arr)), mk_cbor arr base (p + Z.of_nat nb) fin)).
Proof.
  induction nb as [|nb IH]; intros p v Hp Hv.
  - right. split; [lia|]. by rewrite Z.add_0_r.
  - cbn [arg_bytes]. unfold pbind. destruct (Z.le_gt_cases fin p).
    { left. exists CBOR_FALSE. by rewrite next_byte_stop. }
    destruct (byte_at p ltac:(lia)) as (b & Hb & Hbf).
    rewrite (next_byte_run p b) by (done || lia). rewrite shift_byte by done.
    destruct (IH (p + 1) (u64 (v * 256 + b)) ltac:(lia) ltac:(apply u64_fits)) as [[e ->]|[Hle ->]].
    + left. by exists e.
    + right. split; [lia|]. replace (p + 1 + Z.of_nat nb) with (p + Z.of_nat (S nb)) by lia.
      rewrite (drop_S _ _ _ Hb). cbn [take].
      by replace (Z.to_nat (p + 1 - base)) with (S (Z.to_nat (p - base))) by lia.
Qed.

Lemma be_fits v bs : fits 64 v -> fits 64 (be v bs).
Proof.
  revert v. induction bs as [|b bs IH]; intros v Hv; [done|]. apply IH, u64_fits.
Qed.

Lemma be_app v l1 l2 : be v (l1 ++ l2) = be (be v l1) l2.
Proof. apply foldl_app. Qed.

Lemma be4 v b1 b2 b3 b4 :
  fits 32 v -> fits 8 b1 -> fits 8 b2 -> fits 8 b3 -> fits 8 b4 ->
  be v [b1; b2; b3; b4] = (((v * 256 + b1) * 256 + b2) * 256 + b3) * 256 + b4.
Proof.
  unfold fits, be, u64. cbn [foldl]. change (2 ^ 8) with 256. intros.
  rewrite (Z.mod_small (v * 256 + b1)), (Z.mod_small (_ * 256 + b2)),
    (Z.mod_small (_ * 256 + b3)), (Z.mod_small (_ * 256 + b4)) by lia. done.
Qed.

Lemma take_slice n i : (i + n <= length arr)%nat -> exists bs, take n (drop i arr) = bs /\ length bs = n /\
  forall k b, bs !! k = Some b -> arr !! (i + k)%nat = Some b /\ fits 8 b.
Proof.
  intros Hn. eexists. split; [done|]. split; [rewrite length_take, length_drop; lia|].
  intros k b Hk. apply lookup_take_Some in Hk as [Hk _]. rewrite lookup_drop in Hk.
  split; [done|]. destruct Hmem as [_ _ _ Hby _]. by eapply Forall_lookup_1.
Qed.

Lemma sane_lookup i b : arr !! i = Some b -> sane_at arr i = true.
Proof.
  intros Hi. destruct Hmem as [_ _ _ _ Hsane]. unfold lengths_sane in Hsane.
  rewrite Forall_lookup in Hsane. apply (Hsane i). apply lookup_seq.
  split; [done|]. by eapply lookup_lt_Some.
Qed.

(** A header's argument: a 64-bit number, for a string below 2^31 in its low half. *)
Definition hdr_ok (h : Z * Z) : Prop :=
  fits 64 h.2 /\ (h.1 = CBOR_BYTES \/ h.1 = CBOR_TEXT -> u32 h.2 < 2 ^ 31).

Lemma head_split b : fits 8 b -> b = 32 * Z.shiftr b 5 + Z.land b 0x1F /\ 0 <= Z.land b 0x1F < 32.
Proof.
  intros Hb. change 0x1F with (Z.ones 5). rewrite Z.land_ones, Z.shiftr_div_pow2 by lia.
  change (2 ^ 5) with 32. pose proof (Z.div_mod b 32 ltac:(done)).
  pose proof (Z.mod_pos_bound b 32 ltac:(done)). lia.
Qed.

(** The length of a string whose head has a 1-, 2-, 4- or 8-byte argument. *)
Lemma long_length (i : nat) b nb :
  arr !! i = Some b -> In nb [0; 1; 2; 4; 8]%nat -> (S i + nb <= length arr)%nat ->
  (nb = 4%nat -> b = 0x5A \/ b = 0x7A) -> (nb = 8%nat -> b = 0x5B \/ b = 0x7B) ->
  u32 (be 0 (take nb (drop (S i) arr))) < 2 ^ 31.
Proof.
  intros Hi Hnb Hlen H4 H8. pose proof (sane_lookup i b Hi) as Hs. unfold sane_at in Hs.
  rewrite Hi in Hs. destruct (take_slice nb (S i) Hlen) as (bs & -> & Hl & Hbs).
  assert (Hz : forall (k : nat) c j, bs !! k = Some c -> j = Z.of_nat i + Z.of_nat (S k) -> zget 0 arr j = c).
  { intros k c j Hk ->. apply zget_lookup; [lia|].
    replace (Z.to_nat (Z.of_nat i + Z.of_nat (S k))) with (S i + k)%nat by lia. by apply Hbs. }
  assert (Hf : forall k c, bs !! k = Some c -> 0 <= c < 256) by (intros; by eapply (Hbs k)).
  destruct Hnb as [<- |[<- |[<- |[<- |[<- |[]]]]]].
  - destruct bs; done.
  - destruct bs as [|c1 [|]]; try done. pose proof (Hf 0%nat c1 eq_refl).
    unfold be, u32, u64. cbn [foldl]. rewrite (Z.mod_small (0 * 256 + c1)), Z.mod_small by lia. lia.
  - destruct bs as [|c1 [|c2 [|]]]; try done.
    pose proof (Hf 0%nat c1 eq_refl). pose proof (Hf 1%nat c2 eq_refl).
    unfold be, u32, u64. cbn [foldl].
    rewrite (Z.mod_small (0 * 256 + c1)), (Z.mod_small (_ * 256 + c2)), Z.mod_small by lia. lia.
  - destruct bs as [|c1 [|c2 [|c3 [|c4 [|]]]]]; try done.
    pose proof (Hf 0%nat c1 eq_refl). pose proof (Hf 1%nat c2 eq_refl).
    pose proof (Hf 2%nat c3 eq_refl). pose proof (Hf 3%nat c4 eq_refl).
    assert (Hc : c1 < 0x80).
    { rewrite bool_decide_true, (Hz 0%nat c1) in Hs by
        (first [done|lia|destruct (H4 eq_refl) as [-> | ->]; vm_decide]). lia. }
    rewrite be4 by done. unfold u32. rewrite Z.mod_small; lia.
  - destruct bs as [|c1 [|c2 [|c3 [|c4 [|c5 [|c6 [|c7 [|c8 [|]]]]]]]]]; try done.
    pose proof (Hf 0%nat c1 eq_refl). pose proof (Hf 1%nat c2 eq_refl).
    pose proof (Hf 2%nat c3 eq_refl). pose proof (Hf 3%nat c4 eq_refl).
    pose proof (Hf 4%nat c5 eq_refl). pose proof (Hf 5%nat c6 eq_refl).
    pose proof (Hf 6%nat c7 eq_refl). pose proof (Hf 7%nat c8 eq_refl).
    assert (Hc : c5 < 0x80).
    { rewrite bool_decide_false, bool_decide_true, (Hz 4%nat c5) in Hs by
        (first [done|lia|destruct (H8 eq_refl) as [-> | ->]; vm_decide]). lia. }
    pose proof (be_app 0 [c1; c2; c3; c4] [c5; c6; c7; c8]) as Hsplit8. cbn [app] in Hsplit8.
    rewrite Hsplit8, (be4 0) by done. rewrite be4 by (unfold fits; lia || done).
    generalize ((((0 * 256 + c1) * 256 + c2) * 256 + c3) * 256 + c4). intros hi. unfold u32.
    replace ((((hi * 256 + c5) * 256 + c6) * 256 + c7) * 256 + c8)
      with (((c5 * 256 + c6) * 256 + c7) * 256 + c8 + hi * 2 ^ 32) by lia.
    rewrite Z_mod_plus_full, Z.mod_small; lia.
Qed.

Lemma safe_cbor_hdr B : ok B 1 hdr_ok cbor_hdr.
Proof.
  intros p Hp _. unfold cbor_hdr, pbind at 1. destruct (Z.le_gt_cases fin p).
  { by rewrite next_byte_stop. }
  destruct (byte_at p ltac:(lia)) as (b & Hb & Hbf).
  rewrite (next_byte_run p b) by (done || lia). set (n := Z.land b 0x1F). cbv zeta.
  destruct (head_split b Hbf) as [Hsplit Hn]. fold n in Hsplit, Hn.
  destruct (Z.leb_spec 28 n); [done|].
  set (nb := if n =? 24 then 1%nat else _).
  assert (Hnb : In nb [0; 1; 2; 4; 8]%nat /\ (nb = 4%nat -> n = 26) /\ (nb = 8%nat -> n = 27) /\
    (n < 24 -> nb = 0%nat)).
  { subst nb. destruct (Z.eqb_spec n 24), (Z.eqb_spec n 25), (Z.eqb_spec n 26), (Z.eqb_spec n 27);
      simpl; (split_and!; [tauto|try done; lia..]). }
  clearbody nb. destruct Hnb as (Hin & H26 & H27 & H24).
  set (v := if n <? 24 then n else 0).
  assert (Hv : 0 <= v < 24 /\ (v <> 0 -> nb = 0%nat)).
  { subst v. destruct (Z.ltb_spec n 24); [split; [lia|by intros; apply H24]|lia]. }
  clearbody v. destruct Hv as [Hv Hv0].
  unfold pbind. destruct (arg_bytes_run nb (p + 1) v ltac:(lia) ltac:(lia)) as [[e ->]|[Hle ->]]; [done|].
  unfold pret. eexists. split; [reflexivity|]. split; [lia|].
  split; cbn [fst snd].
  { apply be_fits. unfold fits. lia. }
  intros Hm. destruct (decide (v = 0)) as [-> |Hne].
  - replace (Z.to_nat (p + 1 - base)) with (S (Z.to_nat (p - base))) by lia.
    unfold CBOR_BYTES, CBOR_TEXT in Hm. destruct Hmem as [_ Hf _ _ _]. unfold zlen in Hf.
    apply (long_length _ b); [done|done|lia| |].
    + intros E. specialize (H26 E). lia.
    + intros E. specialize (H27 E). lia.
  - rewrite (Hv0 Hne), take_0. unfold be. cbn [foldl]. unfold u32. rewrite Z.mod_small; lia.
Qed.

Lemma safe_cbor_uint B : ok B 1 (fits 64) cbor_uint.
Proof.
  unfold cbor_uint. change 1 with (1 + 0) at 1. eapply safe_bind; [lia|apply safe_cbor_hdr|].
  intros [mj a] [Ha _]. destruct (negb _); [apply safe_fail|by apply safe_ret].
Qed.

Lemma safe_cbor_open B want : ok B 1 (fits 64) (cbor_open want).
Proof.
  unfold cbor_open. change 1 with (1 + 0) at 1. eapply safe_bind; [lia|apply safe_cbor_hdr|].
  intros [mj a] [Ha _]. destruct (negb _); [apply safe_fail|by apply safe_ret].
Qed.

Lemma safe_advance B a :
  u32 a < 2 ^ 31 -> ok B 0 (fun s => base <= s /\ s + u32 a <= fin) (advance a).
Proof.
  intros Ha p Hp _. destruct Hmem as [Hb Hf Hs _ _]. unfold advance. cbn [c_end c_p].
  pose proof (u32_fits a) as [Ha0 _].
  assert (Hadd : u32 (p + a) = p + u32 a).
  { unfold u32 in *. rewrite <- Z.add_mod_idemp_r by done. apply Z.mod_small. lia. }
  rewrite Hadd. destruct (Z.ltb_spec fin (p + u32 a)); [done|].
  exists (p + u32 a). unfold field_map. cbn. rewrite Hadd. split_and!; done || lia.
Qed.

Lemma safe_cbor_str B want :
  want = CBOR_BYTES \/ want = CBOR_TEXT -> ok B 1 (slice_ok base fin) (cbor_str want).
Proof.
  intros Hw. unfold cbor_str. change 1 with (1 + 0) at 1.
  eapply safe_bind; [lia|apply safe_cbor_hdr|].
  intros [mj a] [Ha Hs]. cbn [fst snd] in *. destruct (Z.eqb_spec mj want) as [-> |]; [|apply safe_fail].
  specialize (Hs Hw). change 0 with (0 + 0) at 1. cbn [negb].
  eapply safe_bind; [lia|by apply safe_advance|]. intros s [Hs1 Hs2]. apply safe_ret.
  pose proof (u32_fits a) as [? _]. unfold slice_ok. cbn [fst snd]. lia.
Qed.

Lemma safe_mem_slice B s :
  slice_ok base fin s -> ok B 0 (fun bs => zlen bs = s.2 /\ bytes_ok bs) (mem_slice s.1 s.2).
Proof.
  intros (H1 & H2 & H3) p Hp _. destruct Hmem as [Hb Hf _ Hby _]. unfold mem_slice. simpl.
  destruct (Z.leb_spec s.2 0).
  - exists p. split_and!; try done; try lia; [unfold zlen; simpl; lia|constructor].
  - destruct (Z.leb_spec base s.1); [|lia]. destruct (Z.leb_spec (s.1 + s.2) (base + zlen arr)); [|lia].
    simpl. exists p. split_and!; try done; try lia.
    + unfold zlen in *. rewrite length_take, length_drop. lia.
    + by apply Forall_take, Forall_drop.
Qed.

Lemma safe_CBOR_KEY B k s : slice_ok base fin k -> ok B 0 (fun _ => True) (CBOR_KEY k s).
Proof.
  intros Hk. unfold CBOR_KEY. destruct (negb _); [by apply safe_ret|].
  change 0 with (0 + 0) at 1.
  eapply safe_bind; [lia|by apply safe_mem_slice|]. intros bs _. by apply safe_ret.
Qed.

(** A loop whose body reads at least a byte cannot run out of turns. *)
Lemma safe_for_n B {S} (P : S -> Prop) n body s :
  P s -> (forall s, P s -> ok B 1 P (body s)) -> ok B 0 P (for_n n body s).
Proof.
  intros Hs Hbody. unfold for_n.
  assert (Hrep : forall fuel n s p, P s -> base <= p <= fin -> (Z.to_nat (fin - p) <= B)%nat ->
    (Z.to_nat (fin - p) < fuel)%nat ->
    match rep fuel n body s (mk_cbor arr base p fin) with
    | Ok (a, c) => exists p', c = mk_cbor arr base p' fin /\ p + 0 <= p' <= fin /\ P a
    | Err _ => True | Oob => False | NoFuel => False
    end).
  { clear n s Hs. induction fuel as [|fuel IH]; intros n s p Hs Hp HB Hf; [lia|].
    cbn [rep]. destruct (n <=? 0).
    - exists p. split_and!; done || lia.
    - unfold pbind. specialize (Hbody s Hs p Hp HB). destruct (body s _) as [[s' c]|e| |]; try done.
      destruct Hbody as (p' & -> & Hp' & Hs').
      specialize (IH (n - 1) s' p' Hs' ltac:(lia) ltac:(lia) ltac:(lia)).
      destruct (rep fuel (n - 1) body s' _) as [[a c]|e| |]; try done.
      destruct IH as (p2 & -> & ? & ?). exists p2. split_and!; done || lia. }
  intros p Hp HB. unfold bytes_left. cbn [c_end c_p]. apply Hrep; done || lia.
Qed.

Lemma safe_cbor_skip_fuel fuel B :
  (B < fuel)%nat -> ok B 1 (fun _ => True) (cbor_skip_fuel fuel).
Proof.
  revert B. induction fuel as [|fuel IH]; intros B HB; [lia|]. cbn [cbor_skip_fuel].
  (* the header first: what follows has one byte less *)
  intros p Hp HpB. unfold pbind at 1. pose proof (safe_cbor_hdr B p Hp HpB) as Hh.
  destruct (cbor_hdr _) as [[[mj a] c]|e| |]; try done.
  destruct Hh as (p1 & -> & Hp1 & [Ha Hs]). simpl in Ha, Hs.
  assert (Hrest : ok (Nat.pred B) 0 (fun _ : unit => True)
    (if mj =? CBOR_UINT then pret tt
     else if (mj =? CBOR_BYTES) || (mj =? CBOR_TEXT) then advance a;;; pret tt
     else if mj =? CBOR_ARRAY then for_n a (fun _ => cbor_skip_fuel fuel) tt
     else if mj =? CBOR_MAP then for_n (u64 (2 * a)) (fun _ => cbor_skip_fuel fuel) tt
     else pfail CBOR_FALSE)).
  { destruct (mj =? CBOR_UINT); [by apply safe_ret|].
    destruct ((mj =? CBOR_BYTES) || (mj =? CBOR_TEXT)) eqn:E.
    { assert (u32 a < 2 ^ 31).
      { apply Hs. apply orb_true_iff in E as [E|E]; bools; auto. }
      change 0 with (0 + 0) at 1.
      eapply safe_bind; [lia|by apply safe_advance|]. intros; by apply safe_ret. }
    destruct (mj =? CBOR_ARRAY); [|destruct (mj =? CBOR_MAP); [|apply safe_fail]];
      (apply safe_for_n; [done|]; intros _ _;
       destruct B as [|B']; [|apply IH; simpl; lia]);
      (* no byte left: nothing to skip *)
      intros q Hq HqB; simpl in HqB; assert (fin - p <= 0) by lia; lia. }
  specialize (Hrest p1 ltac:(lia) ltac:(lia)).
  match type of Hrest with match ?r with _ => _ end => destruct r as [[u c]|e| |] end; try done.
  destruct Hrest as (p2 & -> & ? & ?). exists p2. split_and!; done || lia.
Qed.

Lemma safe_cbor_skip B : ok B 1 (fun _ => True) cbor_skip.
Proof.
  intros p Hp HB. unfold cbor_skip, bytes_left. simpl c_end. simpl c_p.
  apply (safe_cbor_skip_fuel (S (Z.to_nat (fin - p))) (Z.to_nat (fin - p))); [lia|done|done].
Qed.
End Safe.

(** ** Reading back an encoding *)

(** Encodable: arguments are 64-bit, string lengths 32-bit, maps hold pairs. *)
Fixpoint item_wf (i : item) : bool :=
  match i with
  | IUint n => bool_decide (fits 64 n)
  | IBytes b | IText b => bool_decide (bytes_ok b) && bool_decide (zlen b < 2 ^ 32)
  | IArray l => bool_decide (zlen l < 2 ^ 64) && forallb item_wf l
  | IMap l => bool_decide (zlen l < 2 ^ 64) && bool_decide (Z.even (zlen l) = true) && forallb item_wf l
  end.

(** The bytes [bs] lie at address [p]. *)
Definition holds (arr : list Z) (base p : Z) (bs : list Z) : Prop :=
  exists pre post, arr = pre ++ bs ++ post /\ p = base + zlen pre.

(** The parser, at [p], returns [a] and leaves the cursor at [p']. *)
Definition runs (arr : list Z) (base fin p : Z) {A} (m : parser A) (a : A) (p' : Z) : Prop :=
  m (mk_cbor arr base p fin) = Ok (a, mk_cbor arr base p' fin).

Lemma enc_hdr_length mj n : (0 < length (enc_hdr mj n))%nat.
Proof. unfold enc_hdr. repeat case_match; simpl; lia. Qed.

Lemma enc_length i : (0 < length (enc i))%nat.
Proof.
  destruct i; cbn [enc]; rewrite ?length_app; pose proof enc_hdr_length as H;
    match goal with |- context [enc_hdr ?a ?b] => specialize (H a b) end; lia.
Qed.

Lemma concat_enc_length l : zlen l <= zlen (concat (map enc l)).
Proof.
  induction l as [|i l IH]; [done|]. cbn [map concat]. rewrite zlen_app.
  pose proof (enc_length i). unfold zlen in *. simpl. lia.
Qed.

Section Reads.
Context (arr : list Z) (base fin : Z).
Context (Hbase : 0 <= base) (Hfin : fin = base + zlen arr) (Hspace : fin < 2 ^ 32).
#[local] Abbreviation has := (holds arr base).
#[local] Abbreviation run := (runs arr base fin).

Lemma has_app p b1 b2 : has p (b1 ++ b2) <-> has p b1 /\ has (p + zlen b1) b2.
Proof.
  split.
  - intros (pre & post & -> & ->). split.
    + exists pre, (b2 ++ post). by rewrite <- app_assoc.
    + exists (pre ++ b1), post. rewrite zlen_app, <- !app_assoc. split; [done|lia].
  - intros [(pre & post & H1 & ->) (pre2 & post2 & H2 & Hz)].
    assert (pre2 = pre ++ b1 /\ post = b2 ++ post2) as [-> ->].
    { assert (Hl : length pre2 = length (pre ++ b1)).
      { rewrite length_app. unfold zlen in Hz. lia. }
      rewrite H1, app_assoc in H2.
      destruct (app_inj_1 _ _ _ _ (eq_sym Hl) H2) as [-> ->]. done. }
    exists pre, post2. by rewrite <- app_assoc.
Qed.

Lemma has_bound p bs : has p bs -> base <= p /\ p + zlen bs <= fin.
Proof.
  intros (pre & post & -> & ->). rewrite !zlen_app in Hfin.
  pose proof (zlen_nonneg pre). pose proof (zlen_nonneg post). lia.
Qed.

Lemma run_ret p {A} (a : A) : run p (pret a) a p.
Proof. done. Qed.

Lemma run_bind p p1 p2 {A A'} (m : parser A) (k : A -> parser A') a b :
  run p m a p1 -> run p1 (k a) b p2 -> run p (pbind m k) b p2.
Proof. unfold runs, pbind. by intros -> ->. Qed.

Lemma run_orelse p p' {A} (m : parser A) a e : run p m a p' -> run p (orelse m e) a p'.
Proof. unfold runs, orelse. by intros ->. Qed.

Lemma run_next_byte p b : has p [b] -> run p next_byte b (p + 1).
Proof.
  intros H. pose proof (has_bound _ _ H) as Hb. change (zlen [b]) with 1 in Hb.
  destruct H as (pre & post & Harr & Hp). unfold runs, next_byte. cbn [c_end c_p].
  destruct (Z.leb_spec fin p); [lia|]. unfold mem_byte. cbn [c_base c_arr].
  destruct (Z.leb_spec base p); [|lia]. destruct (Z.ltb_spec p (base + zlen arr)); [|lia].
  cbn [andb]. unfold field_map. cbn. rewrite u32_id by (unfold fits; lia).
  rewrite (zget_lookup 0 b); [done|lia|].
  rewrite Harr, Hp. replace (Z.to_nat (base + zlen pre - base)) with (length pre) by (unfold zlen; lia).
  by apply list_lookup_middle.
Qed.

Lemma run_advance p s : has p s -> run p (advance (zlen s)) p (p + zlen s).
Proof.
  intros H. pose proof (has_bound _ _ H). pose proof (zlen_nonneg s).
  unfold runs, advance. cbn [c_end c_p]. rewrite u32_id by (unfold fits; lia).
  destruct (Z.ltb_spec fin (p + zlen s)); [lia|]. unfold field_map. cbn.
  by rewrite u32_id by (unfold fits; lia).
Qed.

Lemma run_arg_bytes bs : forall p v, 0 <= v -> bytes_ok bs -> has p bs ->
  run p (arg_bytes (length bs) v) (be v bs) (p + zlen bs).
Proof.
  induction bs as [|b bs IH]; intros p v Hv Hb H.
  - change (zlen []) with 0. rewrite Z.add_0_r. apply run_ret.
  - apply Forall_cons in Hb as [Hb Hbs].
    change (b :: bs) with ([b] ++ bs) in H. apply has_app in H as [H1 H2].
    cbn [arg_bytes length]. eapply run_bind; [by apply run_next_byte|].
    rewrite shift_byte by done. unfold be. cbn [foldl]. fold (be (u64 (v * 256 + b)) bs).
    replace (p + zlen (b :: bs)) with (p + 1 + zlen bs) by (unfold zlen; simpl; lia).
    apply IH; [apply u64_fits|done|done].
Qed.

Lemma head_byte mj k : 0 <= mj < 8 -> 0 <= k < 32 ->
  let b := Z.lor (Z.shiftl mj 5) k in fits 8 b /\ Z.shiftr b 5 = mj /\ Z.land b 0x1F = k.
Proof.
  intros Hm Hk b.
  assert (Hb : b = mj * 32 + k).
  { unfold b. rewrite <- Z.add_nocarry_lor; [by rewrite Z.shiftl_mul_pow2|].
    apply Z.bits_inj'. intros n Hn. rewrite Z.land_spec, Z.bits_0. destruct (Z.ltb_spec n 5).
    - by rewrite Z.shiftl_spec_low.
    - replace k with (k mod 2 ^ 5) by by apply Z.mod_small.
      rewrite Z.mod_pow2_bits_high by lia. apply andb_false_r. }
  rewrite Hb. change 0x1F with (Z.ones 5). rewrite Z.land_ones, Z.shiftr_div_pow2 by lia.
  change (2 ^ 5) with 32. split_and!; [unfold fits; lia| |].
  - rewrite Z.div_add_l, Z.div_small by lia. lia.
  - by rewrite Z.add_comm, Z_mod_plus_full, Z.mod_small.
Qed.

Lemma be_first n d : fits 64 n -> 0 < d -> u64 (0 * 256 + n / d) = n / d.
Proof.
  intros [H1 H2] Hd. apply Z.mod_small. split; [by apply Z.div_pos|].
  eapply Z.le_lt_trans; [|exact H2]. by apply Z.div_le_upper_bound; nia.
Qed.

Lemma be_step n d e : fits 64 n -> 0 < d -> e = d * 256 -> u64 (n / e * 256 + n / d mod 2 ^ 8) = n / d.
Proof.
  intros Hn Hd ->. rewrite <- Z.div_div by lia. change (2 ^ 8) with 256.
  rewrite (Z.mul_comm _ 256), <- Z.div_mod by done. exact (be_first n d Hn Hd).
Qed.

Lemma be_last n : fits 64 n -> u64 (n / 2 ^ 8 * 256 + n mod 2 ^ 8) = n.
Proof. intros Hn. rewrite <- (Z.div_1_r n) at 2 3. by apply be_step. Qed.

Lemma top_byte n k : 0 <= k -> 0 <= n < 2 ^ (k + 8) -> fits 8 (n / 2 ^ k).
Proof.
  intros Hk Hn. rewrite Z.pow_add_r in Hn by lia. pose proof (Z.pow_pos_nonneg 2 k ltac:(lia) Hk).
  split; [apply Z.div_pos; lia|apply Z.div_lt_upper_bound; lia].
Qed.

Lemma run_cbor_hdr p mj n :
  0 <= mj < 8 -> fits 64 n -> has p (enc_hdr mj n) ->
  run p cbor_hdr (mj, n) (p + zlen (enc_hdr mj n)).
Proof.
  intros Hm Hn H.
  assert (Hgo : forall k bs, 24 <= k < 28 ->
    length bs = (if k =? 24 then 1%nat else if k =? 25 then 2%nat
                 else if k =? 26 then 4%nat else 8%nat) ->
    bytes_ok bs -> be 0 bs = n -> has p ([Z.lor (Z.shiftl mj 5) k] ++ bs) ->
    run p cbor_hdr (mj, n) (p + zlen ([Z.lor (Z.shiftl mj 5) k] ++ bs))).
  { intros k bs Hk Hl Hbs Hbe Hh. apply has_app in Hh as [H1 H2].
    destruct (head_byte mj k Hm ltac:(lia)) as (Hf & Hs & Ha).
    eapply run_bind; [by apply run_next_byte|]. rewrite Hs, Ha. cbv beta zeta.
    destruct (Z.leb_spec 28 k); [lia|]. destruct (Z.ltb_spec k 24); [lia|].
    rewrite zlen_app, Z.add_assoc. change (zlen [_]) with 1 in *. rewrite <- Hbe.
    eapply run_bind; [|apply run_ret].
    destruct (Z.eqb_spec k 24); [rewrite <- Hl; by apply run_arg_bytes|].
    destruct (Z.eqb_spec k 25); [rewrite <- Hl; by apply run_arg_bytes|].
    destruct (Z.eqb_spec k 26); [rewrite <- Hl; by apply run_arg_bytes|].
    destruct (Z.eqb_spec k 27); [rewrite <- Hl; by apply run_arg_bytes|lia]. }
  unfold enc_hdr in *. pose proof Hn as [Hn0 Hn1].
  assert (Hmod : forall x, fits 8 (x mod 2 ^ 8)) by (intros; by apply Z.mod_pos_bound).
  destruct (Z.ltb_spec n 24).
  { destruct (head_byte mj n Hm ltac:(lia)) as (Hf & Hs & Ha).
    change (zlen [_]) with 1.
    eapply run_bind; [by apply run_next_byte|]. rewrite Hs, Ha. cbv beta zeta.
    destruct (Z.leb_spec 28 n); [lia|]. destruct (Z.ltb_spec n 24); [|lia].
    destruct (Z.eqb_spec n 24); [lia|]. destruct (Z.eqb_spec n 25); [lia|].
    destruct (Z.eqb_spec n 26); [lia|]. destruct (Z.eqb_spec n 27); [lia|].
    by eapply run_bind; [apply run_ret|apply run_ret]. }
  destruct (Z.ltb_spec n (2 ^ 8)); [|destruct (Z.ltb_spec n (2 ^ 16));
    [|destruct (Z.ltb_spec n (2 ^ 32))]].
  - eapply (Hgo 24 [n]); try done. { by repeat constructor. }
    unfold be. cbn [foldl]. by apply Z.mod_small.
  - eapply (Hgo 25 [_; _]); try done. { repeat constructor; try apply Hmod; by apply (top_byte n 8). }
    unfold be. cbn [foldl]. by rewrite be_first, be_last.
  - eapply (Hgo 26 [_; _; _; _]); try done.
    { repeat constructor; try apply Hmod; by apply (top_byte n 24). }
    unfold be. cbn [foldl].
    by rewrite be_first, (be_step n (2 ^ 16) (2 ^ 24)), (be_step n (2 ^ 8) (2 ^ 16)), be_last.
  - eapply (Hgo 27 [_; _; _; _; _; _; _; _]); try done.
    { repeat constructor; try apply Hmod; by apply (top_byte n 56). }
    unfold be. cbn [foldl].
    by rewrite be_first, (be_step n (2 ^ 48) (2 ^ 56)), (be_step n (2 ^ 40) (2 ^ 48)),
      (be_step n (2 ^ 32) (2 ^ 40)), (be_step n (2 ^ 24) (2 ^ 32)), (be_step n (2 ^ 16) (2 ^ 24)),
      (be_step n (2 ^ 8) (2 ^ 16)), be_last.
Qed.

Lemma run_cbor_uint p n :
  fits 64 n -> has p (enc (IUint n)) -> run p cbor_uint n (p + zlen (enc (IUint n))).
Proof.
  intros Hn H. eapply run_bind; [by apply (run_cbor_hdr p CBOR_UINT n)|]. apply run_ret.
Qed.

Lemma run_cbor_open p want n :
  0 <= want < 8 -> fits 64 n -> has p (enc_hdr want n) ->
  run p (cbor_open want) n (p + zlen (enc_hdr want n)).
Proof.
  intros Hw Hn H. eapply run_bind; [by apply (run_cbor_hdr p want n)|].
  cbv beta iota. rewrite Z.eqb_refl. apply run_ret.
Qed.

Lemma run_cbor_str p want b :
  0 <= want < 8 -> zlen b < 2 ^ 32 -> has p (enc_hdr want (zlen b) ++ b) ->
  exists s, has s b /\ run p (cbor_str want) (s, zlen b) (p + zlen (enc_hdr want (zlen b) ++ b)).
Proof.
  intros Hw Hb H. apply has_app in H as [H1 H2]. eexists. split; [exact H2|].
  pose proof (zlen_nonneg b).
  eapply run_bind; [apply (run_cbor_hdr p want (zlen b)); [done| |done]|].
  { split; [lia|]. eapply Z.lt_trans; [exact Hb|done]. }
  cbv beta iota. rewrite Z.eqb_refl, zlen_app, Z.add_assoc. cbn [negb].
  eapply run_bind; [by apply run_advance|]. rewrite u32_id by done. apply run_ret.
Qed.

Lemma run_mem_slice p s b : has s b -> run p (mem_slice s (zlen b)) b p.
Proof.
  intros H. pose proof (has_bound _ _ H) as Hb. destruct H as (pre & post & Harr & Hs).
  unfold runs, mem_slice. cbn [c_base c_arr]. destruct (Z.leb_spec (zlen b) 0).
  - destruct b; [done|]. unfold zlen in *. simpl in *. lia.
  - destruct (Z.leb_spec base s); [|lia].
    destruct (Z.leb_spec (s + zlen b) (base + zlen arr)); [|lia]. cbn [andb].
    rewrite Harr, Hs. replace (Z.to_nat (base + zlen pre - base)) with (length pre)
      by (unfold zlen; lia).
    rewrite drop_app_length. unfold zlen. rewrite Nat2Z.id, take_app_length. done.
Qed.

Lemma run_CBOR_KEY p s k key :
  has s k -> run p (CBOR_KEY (s, zlen k) key) (bool_decide (k = key)) p.
Proof.
  intros H. unfold CBOR_KEY. cbn [fst snd]. destruct (Z.eqb_spec (zlen k) (zlen key)); cbn [negb].
  - eapply run_bind; [by apply run_mem_slice|]. apply run_ret.
  - rewrite bool_decide_false; [apply run_ret|]. intros ->. done.
Qed.

(** A loop over [n] items whose encodings follow one another. *)
Lemma run_rep_nil p {S} fuel n body (s : S) : n <= 0 -> run p (rep fuel n body s) s p.
Proof. intros H. destruct fuel; cbn [rep]; destruct (Z.leb_spec n 0); done || lia. Qed.

Lemma run_rep_S p p1 p2 {S} fuel n body (s s1 s2 : S) :
  0 < n -> run p (body s) s1 p1 -> run p1 (rep fuel (n - 1) body s1) s2 p2 ->
  run p (rep (Datatypes.S fuel) n body s) s2 p2.
Proof. intros H H1 H2. cbn [rep]. destruct (Z.leb_spec n 0); [lia|]. by eapply run_bind. Qed.

Lemma run_for_n p p' {S} n body (s s' : S) :
  0 <= n -> p + n <= fin ->
  (forall fuel, (Z.to_nat n <= fuel)%nat -> run p (rep fuel n body s) s' p') ->
  run p (for_n n body s) s' p'.
Proof. intros Hn Hp H. unfold runs, for_n, bytes_left. cbn [c_end c_p]. apply H. lia. Qed.

Lemma run_items p l fuel f :
  (forall i q, i ∈ l -> has q (enc i) -> run q (cbor_skip_fuel f) tt (q + zlen (enc i))) ->
  has p (concat (map enc l)) -> (length l <= fuel)%nat ->
  run p (rep fuel (zlen l) (fun _ => cbor_skip_fuel f) tt) tt (p + zlen (concat (map enc l))).
Proof.
  revert p fuel. induction l as [|i l IH]; intros p fuel Hi H Hf.
  - change (zlen (concat _)) with 0. rewrite Z.add_0_r. by apply run_rep_nil.
  - cbn [map concat] in *. apply has_app in H as [H1 H2]. destruct fuel as [|fuel]; [simpl in Hf; lia|].
    eapply run_rep_S; [unfold zlen; simpl; lia| |].
    + apply Hi; [by constructor|done].
    + replace (zlen (i :: l) - 1) with (zlen l) by (unfold zlen; simpl; lia).
      rewrite zlen_app, Z.add_assoc. apply IH; [|done|simpl in Hf; lia].
      intros j q Hj. apply Hi. by constructor.
Qed.

Lemma run_cbor_skip_fuel fuel : forall i p,
  item_wf i = true -> (length (enc i) <= fuel)%nat -> has p (enc i) ->
  run p (cbor_skip_fuel fuel) tt (p + zlen (enc i)).
Proof.
  induction fuel as [|fuel IH]; intros i p Hwf Hf H; [pose proof (enc_length i); lia|].
  cbn [cbor_skip_fuel].
  assert (Hlen : forall A (l : list A), fits 64 (zlen l) <-> zlen l < 2 ^ 64).
  { intros A l. unfold fits. pose proof (zlen_nonneg l). lia. }
  assert (Hloop : forall l mj n q, forallb item_wf l = true ->
    (length (enc_hdr mj n ++ concat (map enc l)) <= S fuel)%nat -> has q (concat (map enc l)) ->
    run q (for_n (zlen l) (fun _ => cbor_skip_fuel fuel) tt) tt (q + zlen (concat (map enc l)))).
  { intros l mj n q Hl Hlf Hq. pose proof (has_bound _ _ Hq). pose proof (concat_enc_length l).
    pose proof (enc_hdr_length mj n). rewrite length_app in Hlf.
    apply run_for_n; [apply zlen_nonneg|lia|].
    intros f Hff. apply run_items; [|done|unfold zlen in Hff; lia].
    intros i' q' Hi'. apply IH.
    - rewrite forallb_forall in Hl. by apply Hl, list_elem_of_In.
    - apply list_elem_of_In, in_map with (f := enc), in_split in Hi' as (l1 & l2 & Hi').
      rewrite Hi', concat_app in Hlf. cbn [concat] in Hlf. rewrite !length_app in Hlf. lia. }
  destruct i as [n|b|b|l|l]; cbn [enc item_wf] in *; bools;
    repeat match goal with H : bool_decide _ = true |- _ => apply bool_decide_eq_true in H end.
  - eapply run_bind; [by apply (run_cbor_hdr p CBOR_UINT n)|]. apply run_ret.
  - apply has_app in H as [Ha1 Ha2]. rewrite zlen_app, Z.add_assoc.
    eapply run_bind; [apply (run_cbor_hdr p CBOR_BYTES (zlen b)); [done|apply Hlen; lia|done]|].
    eapply run_bind; [by apply run_advance|apply run_ret].
  - apply has_app in H as [Ha1 Ha2]. rewrite zlen_app, Z.add_assoc.
    eapply run_bind; [apply (run_cbor_hdr p CBOR_TEXT (zlen b)); [done|apply Hlen; lia|done]|].
    eapply run_bind; [by apply run_advance|apply run_ret].
  - apply has_app in H as [Ha1 Ha2]. rewrite zlen_app, Z.add_assoc.
    eapply run_bind; [apply (run_cbor_hdr p CBOR_ARRAY (zlen l)); [done|by apply Hlen|done]|].
    by eapply Hloop.
  - apply has_app in H as [Ha1 Ha2]. rewrite zlen_app, Z.add_assoc.
    pose proof (zlen_nonneg l).
    assert (Hev : 2 * (zlen l / 2) = zlen l).
    { match goal with He : Z.even _ = true |- _ => apply Z.even_spec in He as [m ->] end.
      by rewrite (Z.mul_comm 2 m), Z.div_mul, Z.mul_comm by done. }
    eapply run_bind; [apply (run_cbor_hdr p CBOR_MAP (zlen l / 2)); [done|unfold fits; lia|done]|].
    cbv beta iota. change (CBOR_MAP =? CBOR_UINT) with false.
    cbn [orb]. unfold u64. rewrite Hev, Z.mod_small by lia. by eapply Hloop.
Qed.

Lemma run_cbor_skip p i :
  item_wf i = true -> has p (enc i) -> run p cbor_skip tt (p + zlen (enc i)).
Proof.
  intros Hwf H. pose proof (has_bound _ _ H). unfold runs, cbor_skip, bytes_left.
  cbn [c_end c_p]. apply run_cbor_skip_fuel; [done| |done]. unfold zlen in *. lia.
Qed.
End Reads.

(** ** Properties *)

(** A file in which no string head announces two gigabytes or more is read
    safely whatever else its bytes are: from any cursor position, skipping an
    item (of any nesting and any declared count) ends, never reads outside the
    array, and on success has moved the cursor forward and not past the limit. *)
Theorem cbor_skip_total arr base fin p :
  mem_ok arr base fin -> base <= p <= fin ->
  (exists p', p < p' <= fin /\ cbor_skip (mk_cbor arr base p fin) = Ok (tt, mk_cbor arr base p' fin)) \/
  (exists e, cbor_skip (mk_cbor arr base p fin) = Err e).
Proof.
  intros Hm Hp. pose proof (safe_cbor_skip arr base fin Hm _ p Hp (Nat.le_refl _)) as H.
  destruct (cbor_skip _) as [[[] c]|e| |]; [left|right; by exists e|done..].
  destruct H as (p' & -> & ? & _). exists p'. split; [lia|done].
Qed.

(** A nest of arrays cut short is refused. *)
Lemma cbor_skip_total_witness :
  let arr := [0x84; 0x82; 0x01; 0x61; 0x41] in
  mem_ok arr 0x20000000 0x20000005 /\
  ((exists p', 0x20000000 < p' <= 0x20000005 /\
     cbor_skip (mk_cbor arr 0x20000000 0x20000000 0x20000005) = Ok (tt, mk_cbor arr 0x20000000 p' 0x20000005)) \/
   (exists e, cbor_skip (mk_cbor arr 0x20000000 0x20000000 0x20000005) = Err e)).
Proof.
  assert (H : mem_ok [0x84; 0x82; 0x01; 0x61; 0x41] 0x20000000 0x20000005)
    by (split; vm_decide).
  split; [exact H|]. apply cbor_skip_total; [exact H|lia].
Defined.

(** Skipping consumes exactly one item: on the encoding of any item, of any
    depth, wherever it lies in a file, [cbor_skip] succeeds with the cursor just
    behind it. *)
Theorem cbor_skip_consumes arr base pre post i :
  0 <= base -> base + zlen arr < 2 ^ 32 -> item_wf i = true -> arr = pre ++ enc i ++ post ->
  let fin := base + zlen arr in
  let p := base + zlen pre in
  cbor_skip (mk_cbor arr base p fin) = Ok (tt, mk_cbor arr base (p + zlen (enc i)) fin).
Proof.
  intros Hb Hs Hwf Harr fin p. apply (run_cbor_skip arr base fin Hb eq_refl Hs); [done|].
  by exists pre, post.
Qed.

Lemma cbor_skip_consumes_witness :
  let i := IMap [IText [0x61]; IArray [IUint 300; IBytes [1; 2]]] in
  let arr := [0x17] ++ enc i ++ [0x18] in
  item_wf i = true /\
  cbor_skip (mk_cbor arr 0x1000 (0x1000 + zlen [0x17]) (0x1000 + zlen arr)) =
    Ok (tt, mk_cbor arr 0x1000 (0x1000 + zlen [0x17] + zlen (enc i)) (0x1000 + zlen arr)).
Proof.
  intros i arr. split; [reflexivity|].
  by apply (cbor_skip_consumes arr 0x1000 [0x17] [0x18] i).
Defined.

(** The bound check adds a 64-bit length to a 32-bit pointer: a length close to
    2^32 wraps it, is accepted, and moves the cursor back before the string. *)
Lemma cbor_str_long_length_wraps :
  cbor_str CBOR_TEXT (cbor_init [0x7A; 0xFF; 0xFF; 0xFF; 0xFB; 0x61; 0x62] 0x20000000 7)
  = Ok ((0x20000005, 0xFFFFFFFB),
        mk_cbor [0x7A; 0xFF; 0xFF; 0xFF; 0xFB; 0x61; 0x62] 0x20000000 0x20000000 0x20000007).
Proof. reflexivity. Qed.
