(* ===== verification/CfgFile.v ===== *)
(** The read-only config store ([node/cfg_file.c]): rows of 256 bytes at the
    top of flash, one entry per row, looked up by a four-character name. *)
From S2P Require Import Prelude Crc8.

Definition CFG_NAME_LEN : Z := 4.
Definition CFG_FILE_MAX : Z := 256.
Definition CFG_STORE_MAGIC : Z := 0x10C0FFEE.
Definition CFG_STORE_ROW_SZ : Z := 256.
Definition CFG_STORE_DATA_MAX : Z := 240.
Definition CFG_REGION_LEN : Z := 64 * 1024.
Definition CFG_REGION_ROWS : Z := CFG_REGION_LEN / CFG_STORE_ROW_SZ.

Record cfg_entry_t := mk_cfg_entry {
  ce_magic : Z; ce_seq : Z; ce_name : list Z; ce_len : Z; ce_crc : Z; ce_data : list Z
}.

(** The row seen as the struct (little-endian words, no padding but [pad[2]]). *)
Definition le32 (l : list Z) (i : Z) : Z :=
  zget 0 l i + 2 ^ 8 * zget 0 l (i + 1) + 2 ^ 16 * zget 0 l (i + 2) + 2 ^ 24 * zget 0 l (i + 3).
Definition row_entry (row : list Z) : cfg_entry_t :=
  mk_cfg_entry (le32 row 0) (le32 row 4) (take 4 (drop 8 row)) (zget 0 row 12) (zget 0 row 13)
    (take 240 (drop 16 row)).

Definition entry_crc (name : list Z) (len : Z) (data : list Z) : Z :=
  let c := foldl bus_crc8_update 0xFF name in
  let c := bus_crc8_update c len in
  let c := foldl bus_crc8_update c (take (Z.to_nat len) data) in
  u8 (Z.lxor c 0xFF).

Definition entry_valid (e : cfg_entry_t) : bool :=
  (ce_magic e =? CFG_STORE_MAGIC) && negb (zget 0 (ce_name e) 0 =? 0xFF)
  && (ce_len e <=? CFG_STORE_DATA_MAX)
  && (entry_crc (ce_name e) (ce_len e) (ce_data e) =? ce_crc e).

(** One turn of the scan: [best] after row [row]. *)
Definition cfg_scan (name : list Z) (best : option cfg_entry_t) (row : list Z) : option cfg_entry_t :=
  let e := row_entry row in
  if negb (entry_valid e) then best
  else if negb (bool_decide (ce_name e = name)) then best
  else match best with
       | None => Some e
       | Some b => if ce_seq b <? ce_seq e then Some e else best
       end.

(** The return code, and on 0 the bytes copied to [buf] ([*out_len] of them). *)
Definition cfg_load (region : list (list Z)) (name : list Z) (cap : Z) : Z * list Z :=
  match foldl (cfg_scan name) None region with
  | None => (-1, [])
  | Some best =>
      if cap <? ce_len best then (-2, [])
      else (0, take (Z.to_nat (ce_len best)) (ce_data best))
  end.

(** [flash] is [XIP_BASE + PICO_FLASH_SIZE_BYTES], the end of the flash window. *)
Definition CFG_REGION_BASE (flash : Z) : Z := u32 (flash - CFG_REGION_LEN).
Definition cfg_layout_ok (flash flash_binary_end : Z) : bool :=
  flash_binary_end <=? CFG_REGION_BASE flash.

(** ** Specification *)

(** A row that holds a valid entry of that name. *)
Definition row_matches (name row : list Z) : Prop :=
  entry_valid (row_entry row) = true /\ ce_name (row_entry row) = name.
#[export] Instance row_matches_dec name row : Decision (row_matches name row).
Proof. unfold row_matches. apply _. Defined.

(** The entry the scan keeps: the first of the highest sequence number. *)
Definition is_latest (region : list (list Z)) (name : list Z) (e : cfg_entry_t) : Prop :=
  exists pre row post, region = pre ++ row :: post /\ e = row_entry row /\ row_matches name row /\
    Forall (fun r => row_matches name r -> ce_seq (row_entry r) < ce_seq e) pre /\
    Forall (fun r => row_matches name r -> ce_seq (row_entry r) <= ce_seq e) post.

(** Building a row, as the host's image tool does. *)
Definition le32_bytes (x : Z) : list Z :=
  [x mod 2 ^ 8; x / 2 ^ 8 mod 2 ^ 8; x / 2 ^ 16 mod 2 ^ 8; x / 2 ^ 24 mod 2 ^ 8].
Definition row_of (seq : Z) (name data : list Z) : list Z :=
  le32_bytes CFG_STORE_MAGIC ++ le32_bytes seq ++ name
  ++ [zlen data; entry_crc name (zlen data) data; 0xFF; 0xFF]
  ++ data ++ replicate (240 - length data) 0xFF.

(** A row named "idnt", used by the examples. *)
Definition sample_row : list Z := row_of 7 [0x69; 0x64; 0x6E; 0x74] [0xA1; 0x61; 0x76; 0x01].

(** ** Lemmas *)

Lemma cfg_scan_skip name best row : ~ row_matches name row -> cfg_scan name best row = best.
Proof.
  intros H. unfold cfg_scan. destruct (entry_valid _) eqn:E; [|done]. simpl.
  case_bool_decide; [|done]. by destruct H.
Qed.

Lemma cfg_scan_match name best row :
  row_matches name row -> cfg_scan name best row =
  match best with
  | None => Some (row_entry row)
  | Some b => if ce_seq b <? ce_seq (row_entry row) then Some (row_entry row) else best
  end.
Proof.
  intros [H1 H2]. unfold cfg_scan. rewrite H1. simpl. by rewrite bool_decide_true.
Qed.

(** The loop invariant. *)
Lemma cfg_scan_spec name region :
  match foldl (cfg_scan name) None region with
  | None => Forall (fun r => ~ row_matches name r) region
  | Some e => is_latest region name e
  end.
Proof.
  induction region as [|row region IH] using rev_ind; [constructor|].
  rewrite foldl_app. cbn [foldl]. destruct (decide (row_matches name row)) as [Hm|Hm].
  - rewrite (cfg_scan_match _ _ _ Hm). destruct (foldl _ _ _) as [b|].
    + destruct IH as (pre & r & post & -> & -> & Hr & Hpre & Hpost).
      destruct (Z.ltb_spec (ce_seq (row_entry r)) (ce_seq (row_entry row))).
      * exists (pre ++ r :: post), row, []. split_and!; try done.
        apply Forall_app. split; [|constructor; [done|]].
        -- eapply Forall_impl; [exact Hpre|]. intros x Hx Hxm. specialize (Hx Hxm). lia.
        -- eapply Forall_impl; [exact Hpost|]. intros x Hx Hxm. specialize (Hx Hxm). lia.
      * exists pre, r, (post ++ [row]). rewrite <- app_assoc. split_and!; try done.
        apply Forall_app. split; [done|]. by constructor.
    + exists region, row, []. split_and!; try done.
      eapply Forall_impl; [exact IH|]. by intros x Hx Hxm.
  - rewrite (cfg_scan_skip _ _ _ Hm). destruct (foldl _ _ _) as [b|].
    + destruct IH as (pre & r & post & -> & -> & Hr & Hpre & Hpost).
      exists pre, r, (post ++ [row]). rewrite <- app_assoc. split_and!; try done.
      apply Forall_app. split; [done|]. by constructor.
    + apply Forall_app. split; [done|]. by constructor.
Qed.

Lemma is_latest_matches region name e :
  is_latest region name e -> entry_valid e = true /\ ce_name e = name.
Proof. by intros (pre & row & post & _ & -> & [H1 H2] & _). Qed.

(** What a successful load returned. *)
Lemma cfg_load_ok region name cap d :
  cfg_load region name cap = (0, d) ->
  exists e, is_latest region name e /\ ce_len e <= cap /\ ce_len e <= CFG_STORE_DATA_MAX /\
    d = take (Z.to_nat (ce_len e)) (ce_data e).
Proof.
  unfold cfg_load. pose proof (cfg_scan_spec name region) as H.
  destruct (foldl _ _ _) as [e|]; [|done]. destruct (Z.ltb_spec cap (ce_len e)); [done|].
  intros [= <-]. exists e. split_and!; try done.
  apply is_latest_matches in H as [H _]. unfold entry_valid in H. bools. lia.
Qed.

Lemma cfg_load_len region name cap d :
  cfg_load region name cap = (0, d) -> zlen d <= CFG_STORE_DATA_MAX.
Proof.
  intros H. destruct (cfg_load_ok _ _ _ _ H) as (e & _ & _ & Hl & ->).
  unfold zlen. rewrite length_take. unfold CFG_STORE_DATA_MAX in *. lia.
Qed.

Lemma cfg_load_bytes region name cap d :
  Forall bytes_ok region -> cfg_load region name cap = (0, d) -> bytes_ok d.
Proof.
  intros Hr H. destruct (cfg_load_ok _ _ _ _ H) as (e & (pre & row & post & -> & -> & _) & _ & _ & ->).
  apply Forall_take. cbn [row_entry ce_data]. apply Forall_take, Forall_drop.
  by apply Forall_app in Hr as [_ Hr]; apply Forall_cons in Hr as [Hr _].
Qed.

Lemma entry_crc_crc8 name len data :
  bytes_ok (name ++ [len] ++ data) ->
  entry_crc name len data = bus_crc8 (name ++ [len] ++ take (Z.to_nat len) data).
Proof.
  intros H. unfold entry_crc, bus_crc8. rewrite !foldl_app. cbn [foldl].
  apply u8_id, lxor_fits; [lia| |done]. apply crc8_fold_fits, bus_crc8_update_fits.
Qed.

Lemma bus_crc8_insert l i b b' :
  bytes_ok l -> l !! i = Some b -> fits 8 b' -> b <> b' -> bus_crc8 (<[i:=b']> l) <> bus_crc8 l.
Proof.
  intros Hl Hi Hb' Hne Heq. pose proof (Forall_lookup_1 _ _ _ _ Hl Hi) as Hb.
  pose proof (lookup_lt_Some _ _ _ Hi).
  revert Heq. rewrite (insert_take_drop l i b') by done.
  rewrite <- (take_drop_middle l i b Hi) at 3.
  apply bus_crc8_detects; try done; [by apply Forall_take|by apply Forall_drop].
Qed.

(** The bytes a row's CRC covers. *)
Definition row_covered (row : list Z) : list Z :=
  take 5 (drop 8 row) ++ take (Z.to_nat (zget 0 row 12)) (take 240 (drop 16 row)).

Lemma nth_take_last {A} (d : A) n l : (n < length l)%nat -> take n l ++ [nth n l d] = take (S n) l.
Proof.
  intros H. destruct (lookup_lt_is_Some_2 _ _ H) as [x Hx].
  rewrite (nth_lookup_Some _ _ _ _ Hx). by rewrite (take_S_r _ _ _ Hx).
Qed.

Lemma entry_valid_crc row :
  bytes_ok row -> length row = 256%nat ->
  entry_valid (row_entry row) = true ->
  bus_crc8 (row_covered row) = zget 0 row 13 /\ zget 0 row 12 <= 240 /\
  ce_magic (row_entry row) = CFG_STORE_MAGIC.
Proof.
  intros Hb Hl H. unfold entry_valid in H. cbn [row_entry ce_name ce_len ce_data ce_crc ce_magic] in H.
  bools. split_and!; [|done|done]. etrans; [|eassumption]. symmetry.
  assert (H12 : fits 8 (zget 0 row 12)).
  { destruct (lookup_lt_is_Some_2 row 12 ltac:(lia)) as [x Hx].
    rewrite (zget_lookup 0 x) by (done || lia). by eapply Forall_lookup_1. }
  rewrite entry_crc_crc8.
  - unfold row_covered. f_equal. rewrite app_assoc. f_equal.
    assert (Hn : zget 0 row 12 = nth 4 (drop 8 row) 0).
    { destruct (lookup_lt_is_Some_2 row 12 ltac:(lia)) as [x Hx].
      rewrite (zget_lookup 0 x) by (done || lia).
      symmetry. apply nth_lookup_Some. by rewrite lookup_drop. }
    rewrite Hn. apply nth_take_last. rewrite length_drop. lia.
  - apply Forall_app. split; [by apply Forall_take, Forall_drop|].
    apply Forall_app. split; [by constructor|by apply Forall_take, Forall_drop].
Qed.

Lemma row_len_fits row : bytes_ok row -> length row = 256%nat -> fits 8 (zget 0 row 12).
Proof.
  intros Hb Hl. destruct (lookup_lt_is_Some_2 row 12 ltac:(lia)) as [x Hx].
  rewrite (zget_lookup 0 x) by (done || lia). by eapply Forall_lookup_1.
Qed.

Lemma zget_insert_ne row (i : nat) b j :
  0 <= j -> Z.to_nat j <> i -> zget 0 (<[i := b]> row) j = zget 0 row j.
Proof.
  intros Hj Hne. unfold zget. destruct (Z.ltb_spec j 0); [done|].
  by rewrite !nth_lookup, list_lookup_insert_ne by done.
Qed.

Lemma row_entry_bad_crc row :
  bytes_ok row -> length row = 256%nat -> bus_crc8 (row_covered row) <> zget 0 row 13 ->
  entry_valid (row_entry row) = false.
Proof.
  intros Hb Hl Hne. destruct (entry_valid _) eqn:E; [|done].
  by destruct (entry_valid_crc row Hb Hl E) as (? & _).
Qed.

Lemma row_covered_insert row i b :
  length row = 256%nat -> (8 <= i)%nat -> i <> 12%nat -> i <> 13%nat ->
  Z.of_nat i < 16 + zget 0 row 12 -> (i < 14 \/ 16 <= i < 256)%nat ->
  exists j, (j < length (row_covered row))%nat /\ row_covered row !! j = row !! i /\
    row_covered (<[i := b]> row) = <[j := b]> (row_covered row).
Proof.
  intros Hl H8 H12 H13 Hlen Hi. unfold row_covered. rewrite zget_insert_ne by lia.
  destruct (decide (i < 14)%nat) as [Hs|Hs].
  - exists (i - 8)%nat. rewrite length_app, !length_take, !length_drop, Hl.
    split_and!; [lia| |].
    + rewrite lookup_app_l by (rewrite length_take, length_drop; lia).
      rewrite lookup_take_lt, lookup_drop by lia. f_equal. lia.
    + rewrite (drop_insert_ge row 8 i), take_insert_lt by lia.
      rewrite insert_app_l by (rewrite length_take, length_drop; lia).
      by rewrite (drop_insert_lt row 16 i) by lia.
  - exists (5 + (i - 16))%nat. rewrite length_app, !length_take, !length_drop, Hl.
    split_and!; [lia| |].
    + rewrite lookup_app_r by (rewrite length_take, length_drop; lia).
      rewrite length_take, length_drop, Hl, !lookup_take_lt, lookup_drop by lia. f_equal. lia.
    + rewrite insert_app_r_alt by (rewrite length_take, length_drop; lia).
      rewrite length_take, length_drop, Hl, (drop_insert_ge row 16 i), !take_insert_lt by lia.
      f_equal; [|f_equal; lia].
      rewrite (drop_insert_ge row 8 i) by lia. by rewrite take_insert_ge by lia.
Qed.

Lemma row_covered_insert_crc row b : row_covered (<[13%nat := b]> row) = row_covered row.
Proof.
  unfold row_covered. rewrite zget_insert_ne by lia.
  by rewrite (drop_insert_ge row 8 13), take_insert_ge, (drop_insert_lt row 16 13) by lia.
Qed.

Lemma zget_insert_eq row (i : nat) b : (i < length row)%nat -> zget 0 (<[i := b]> row) (Z.of_nat i) = b.
Proof.
  intros Hi. apply zget_lookup; [lia|]. rewrite Nat2Z.id. by apply list_lookup_insert_eq.
Qed.

Lemma zget_of_nat row (i : nat) : (i < length row)%nat -> row !! i = Some (zget 0 row (Z.of_nat i)).
Proof.
  intros Hi. destruct (lookup_lt_is_Some_2 _ _ Hi) as [x Hx]. rewrite Hx. f_equal. symmetry.
  apply zget_lookup; [lia|]. by rewrite Nat2Z.id.
Qed.

Lemma le32_insert row (i : nat) b : (i < 4)%nat -> (i < length row)%nat ->
  le32 (<[i := b]> row) 0 = le32 row 0 + 2 ^ (8 * Z.of_nat i) * (b - zget 0 row (Z.of_nat i)).
Proof.
  intros Hi Hl. pose proof (zget_insert_eq row i b Hl) as He.
  assert (Hn : forall k : nat, k <> i -> zget 0 (<[i := b]> row) (Z.of_nat k) = zget 0 row (Z.of_nat k))
    by (intros; apply zget_insert_ne; lia).
  unfold le32. change 0 with (Z.of_nat 0) at 2 4 6 8 10 12 14 16.
  change (Z.of_nat 0 + 1) with (Z.of_nat 1). change (Z.of_nat 0 + 2) with (Z.of_nat 2).
  change (Z.of_nat 0 + 3) with (Z.of_nat 3).
  destruct i as [|[|[|[|?]]]]; [..|lia].
  - rewrite He, (Hn 1%nat), (Hn 2%nat), (Hn 3%nat) by done. change (8 * Z.of_nat 0) with 0. lia.
  - rewrite He, (Hn 0%nat), (Hn 2%nat), (Hn 3%nat) by done. change (8 * Z.of_nat 1) with 8. lia.
  - rewrite He, (Hn 0%nat), (Hn 1%nat), (Hn 3%nat) by done. change (8 * Z.of_nat 2) with 16. lia.
  - rewrite He, (Hn 0%nat), (Hn 1%nat), (Hn 2%nat) by done. change (8 * Z.of_nat 3) with 24. lia.
Qed.

(** The loader's result in terms of the specification. *)
Lemma cfg_load_cases region name cap :
  (Forall (fun r => ~ row_matches name r) region /\ cfg_load region name cap = (-1, [])) \/
  (exists e, is_latest region name e /\
     cfg_load region name cap =
       if cap <? ce_len e then (-2, []) else (0, take (Z.to_nat (ce_len e)) (ce_data e))).
Proof.
  unfold cfg_load. pose proof (cfg_scan_spec name region) as H.
  destruct (foldl _ _ _) as [e|]; [right; by exists e|by left].
Qed.

Lemma is_latest_unique region name e e' :
  is_latest region name e -> is_latest region name e' -> e = e'.
Proof.
  intros (p1 & r1 & q1 & -> & -> & Hm1 & Hp1 & Hq1) (p2 & r2 & q2 & Heq & -> & Hm2 & Hp2 & Hq2).
  destruct (decide (length p1 < length p2)%nat) as [Hlt|Hge].
  { (* the first lies before the second *)
    assert (H1 : p2 !! length p1 = Some r1).
    { rewrite <- (lookup_app_l p2 (r2 :: q2)) by lia. rewrite <- Heq. by apply list_lookup_middle. }
    assert (H2 : q1 !! (length p2 - S (length p1))%nat = Some r2).
    { assert (H : (p1 ++ r1 :: q1) !! length p2 = Some r2) by (rewrite Heq; by apply list_lookup_middle).
      rewrite lookup_app_r in H by lia.
      replace (length p2 - length p1)%nat with (S (length p2 - S (length p1))) in H by lia. done. }
    rewrite Forall_lookup in Hp2, Hq1. specialize (Hp2 _ _ H1 Hm1). specialize (Hq1 _ _ H2 Hm2). lia. }
  destruct (decide (length p2 < length p1)%nat) as [Hlt|Hge'].
  { assert (H1 : p1 !! length p2 = Some r2).
    { rewrite <- (lookup_app_l p1 (r1 :: q1)) by lia. rewrite Heq. by apply list_lookup_middle. }
    assert (H2 : q2 !! (length p1 - S (length p2))%nat = Some r1).
    { assert (H : (p2 ++ r2 :: q2) !! length p1 = Some r1) by (rewrite <- Heq; by apply list_lookup_middle).
      rewrite lookup_app_r in H by lia.
      replace (length p1 - length p2)%nat with (S (length p1 - S (length p2))) in H by lia. done. }
    rewrite Forall_lookup in Hp1, Hq2. specialize (Hp1 _ _ H1 Hm2). specialize (Hq2 _ _ H2 Hm1). lia. }
  destruct (app_inj_1 p1 p2 (r1 :: q1) (r2 :: q2) ltac:(lia) Heq) as [_ [= -> _]]. done.
Qed.

Lemma le32_cons a b c d l : le32 (a :: b :: c :: d :: l) 0 = a + 2 ^ 8 * b + 2 ^ 16 * c + 2 ^ 24 * d.
Proof. reflexivity. Qed.

Lemma le32_bytes_val x post : fits 32 x -> le32 (le32_bytes x ++ post) 0 = x.
Proof.
  intros Hx. unfold le32_bytes. cbn [app]. rewrite le32_cons. unfold fits in Hx.
  change (2 ^ 8) with 256. change (2 ^ 16) with (256 * 256).
  change (2 ^ 24) with (256 * 256 * 256). rewrite <- !Z.div_div by lia.
  pose proof (Z.div_mod x 256 ltac:(done)). pose proof (Z.div_mod (x / 256) 256 ltac:(done)).
  pose proof (Z.div_mod (x / 256 / 256) 256 ltac:(done)).
  rewrite (Z.mod_small (x / 256 / 256 / 256)).
  { set (m0 := x mod 256) in *. set (m1 := (x / 256) mod 256) in *.
    set (m2 := (x / 256 / 256) mod 256) in *. set (d3 := x / 256 / 256 / 256) in *.
    set (d2 := x / 256 / 256) in *. set (d1 := x / 256) in *. clearbody m0 m1 m2 d3.
    clearbody d2. clearbody d1. lia. }
  rewrite !Z.div_div by lia. split; [apply Z.div_pos; lia|apply Z.div_lt_upper_bound; lia].
Qed.

Lemma le32_bytes_app x pre post :
  fits 32 x -> le32 (pre ++ le32_bytes x ++ post) (zlen pre) = x.
Proof.
  intros Hx. etrans; [|exact (le32_bytes_val x post Hx)].
  unfold le32. rewrite !(zget_app_r 0 pre) by lia. by rewrite Z.sub_diag, !Z.add_simpl_l.
Qed.

Lemma row_entry_of seq name data :
  fits 32 seq -> length name = 4%nat -> (length data <= 240)%nat ->
  let e := row_entry (row_of seq name data) in
  ce_magic e = CFG_STORE_MAGIC /\ ce_seq e = seq /\ ce_name e = name /\ ce_len e = zlen data /\
  ce_crc e = entry_crc name (zlen data) data /\ take (Z.to_nat (zlen data)) (ce_data e) = data.
Proof.
  intros Hs Hn Hd. destruct name as [|n0 [|n1 [|n2 [|n3 [|]]]]]; try done.
  cbv zeta. cbn [row_entry ce_magic ce_seq ce_name ce_len ce_crc ce_data]. unfold row_of.
  split_and!.
  - by apply (le32_bytes_app CFG_STORE_MAGIC []).
  - by apply (le32_bytes_app seq (le32_bytes CFG_STORE_MAGIC)).
  - done.
  - done.
  - done.
  - cbn [le32_bytes app drop]. rewrite take_take.
    replace (Z.to_nat (zlen data) `min` 240)%nat with (length data) by (unfold zlen; lia).
    by rewrite drop_0, take_app_length.
Qed.

(** Loading a row written for a name. *)
Lemma cfg_load_row pre post seq name data cap :
  fits 32 seq -> length name = 4%nat -> bytes_ok name -> zget 0 name 0 <> 0xFF ->
  bytes_ok data -> zlen data <= 240 -> zlen data <= cap ->
  Forall (fun r => row_matches name r -> ce_seq (row_entry r) < seq) pre ->
  Forall (fun r => row_matches name r -> ce_seq (row_entry r) <= seq) post ->
  cfg_load (pre ++ row_of seq name data :: post) name cap = (0, data).
Proof.
  intros Hs Hn Hnb Hn0 Hdb Hd Hcap Hpre Hpost.
  destruct (row_entry_of seq name data Hs Hn ltac:(unfold zlen in Hd; lia)) as (H1 & H2 & H3 & H4 & H5 & H6).
  assert (Hm : row_matches name (row_of seq name data)).
  { split; [|done]. unfold entry_valid. rewrite H1, H3, H4, H5.
    rewrite Z.eqb_refl. destruct (Z.eqb_spec (zget 0 name 0) 0xFF); [done|].
    unfold CFG_STORE_DATA_MAX. destruct (Z.leb_spec (zlen data) 240); [|lia]. cbn [negb andb].
    apply Z.eqb_eq. unfold entry_crc. rewrite H6.
    by replace (take (Z.to_nat (zlen data)) data) with data by (unfold zlen; by rewrite Nat2Z.id, firstn_all). }
  assert (HL : is_latest (pre ++ row_of seq name data :: post) name (row_entry (row_of seq name data))).
  { exists pre, (row_of seq name data), post. rewrite H2. by split_and!. }
  destruct (cfg_load_cases (pre ++ row_of seq name data :: post) name cap) as [[HF _]|(e & He & ->)].
  { apply Forall_app in HF as [_ HF]. by apply Forall_cons in HF as [HF _]. }
  rewrite (is_latest_unique _ _ _ _ He HL), H4. destruct (Z.ltb_spec cap (zlen data)); [lia|].
  by rewrite H6.
Qed.

(** ** Properties *)

(** C39. The loader returns the matching valid entry with the highest sequence
    number, the earliest such row on a tie, copied whole; [-1] exactly when no row
    holds a valid entry of that name, [-2] when the caller's buffer is too small. *)
Theorem cfg_load_latest_wins region name cap :
  (forall e, is_latest region name e <->
     foldl (cfg_scan name) None region = Some e) /\
  ((cfg_load region name cap).1 = -1 <-> Forall (fun r => ~ row_matches name r) region) /\
  (forall d, cfg_load region name cap = (0, d) <->
     exists e, is_latest region name e /\ ce_len e <= cap /\ d = take (Z.to_nat (ce_len e)) (ce_data e)) /\
  ((cfg_load region name cap).1 = -2 <-> exists e, is_latest region name e /\ cap < ce_len e).
Proof.
  assert (Hno : Forall (fun r => ~ row_matches name r) region -> forall e, ~ is_latest region name e).
  { intros HF e (pre & r & post & -> & _ & Hm & _). apply Forall_app in HF as [_ HF].
    by apply Forall_cons in HF as [HF _]. }
  split_and!.
  - intros e. pose proof (cfg_scan_spec name region) as H. destruct (foldl _ _ _) as [e0|].
    + split; [intros He; f_equal; by eapply is_latest_unique|intros [= <-]; done].
    + split; [intros He; by destruct (Hno H e)|done].
  - destruct (cfg_load_cases region name cap) as [[HF ->]|(e & He & ->)]; [by split|].
    split; [by destruct (cap <? ce_len e)|intros HF; by destruct (Hno HF e)].
  - intros d. destruct (cfg_load_cases region name cap) as [[HF ->]|(e & He & ->)].
    + split; [done|intros (e & He & _); by destruct (Hno HF e)].
    + destruct (Z.ltb_spec cap (ce_len e)); split; try done.
      * intros (e' & He' & ? & _). assert (e' = e) by (by eapply is_latest_unique). subst. lia.
      * intros [= <-]. by exists e.
      * intros (e' & He' & _ & ->). assert (e' = e) by (by eapply is_latest_unique). by subst.
  - destruct (cfg_load_cases region name cap) as [[HF ->]|(e & He & ->)].
    + split; [done|intros (e & He & _); by destruct (Hno HF e)].
    + destruct (Z.ltb_spec cap (ce_len e)); split; try done; [by exists e|].
      intros (e' & He' & ?). assert (e' = e) by (by eapply is_latest_unique). subst. lia.
Qed.

(** One changed byte in the magic word, the name, the stored CRC or the
    payload of a valid row makes the row invalid, so the loader skips it. *)
Theorem cfg_row_corruption_detected row i b :
  bytes_ok row -> length row = 256%nat -> entry_valid (row_entry row) = true ->
  fits 8 b -> row !! i <> Some b ->
  ((i < 4)%nat \/ (8 <= i < 12)%nat \/ i = 13%nat \/
     ((16 <= i)%nat /\ Z.of_nat i < 16 + zget 0 row 12)) ->
  entry_valid (row_entry (<[i := b]> row)) = false.
Proof.
  intros Hb Hl Hv Hbb Hne Hi. destruct (entry_valid_crc row Hb Hl Hv) as (Hcrc & Hlen & Hmag).
  pose proof (row_len_fits row Hb Hl) as [H0 _].
  assert (Hil : (i < length row)%nat) by lia.
  rewrite (zget_of_nat row i Hil) in Hne.
  assert (Hbi : bytes_ok (<[i:=b]> row)) by (by apply Forall_insert).
  destruct (decide (i < 4)%nat) as [H4|H4].
  { (* the magic word differs *)
    unfold entry_valid. cbn [row_entry ce_magic] in *.
    destruct (Z.eqb_spec (le32 (<[i:=b]> row) 0) CFG_STORE_MAGIC) as [Heq|]; [|done].
    exfalso. apply Hne. f_equal. rewrite <- Hmag, le32_insert in Heq by done.
    assert (H2 : 0 < 2 ^ (8 * Z.of_nat i)) by (apply Z.pow_pos_nonneg; lia). nia. }
  apply row_entry_bad_crc; [done|by rewrite length_insert|].
  destruct (decide (i = 13%nat)) as [->|H13].
  - rewrite row_covered_insert_crc, (zget_insert_eq row 13 b Hil : zget 0 _ 13 = _), Hcrc.
    intros Heq. apply Hne. by f_equal.
  - destruct (row_covered_insert row i b Hl) as (j & Hj & Hji & ->); [lia..|].
    rewrite zget_insert_ne by lia. rewrite <- Hcrc.
    eapply bus_crc8_insert; [|rewrite Hji; by apply zget_of_nat|done|intros Heq; apply Hne; by f_equal].
    unfold row_covered. apply Forall_app. split; [by apply Forall_take, Forall_drop|].
    by apply Forall_take, Forall_take, Forall_drop.
Qed.

Lemma cfg_row_corruption_detected_witness :
  entry_valid (row_entry sample_row) = true /\
  entry_valid (row_entry (<[17%nat := 0x62]> sample_row)) = false.
Proof.
  split; [reflexivity|].
  apply (cfg_row_corruption_detected sample_row 17 0x62);
    [vm_decide|reflexivity|reflexivity|vm_decide|vm_decide|].
  right; right; right. split; [lia|reflexivity].
Defined.

(** Writing a row and loading its name back gives the payload, when the other
    rows hold no newer entry of that name. *)
Theorem cfg_load_roundtrip pre post seq name data cap :
  fits 32 seq -> length name = 4%nat -> bytes_ok name -> zget 0 name 0 <> 0xFF ->
  bytes_ok data -> zlen data <= 240 -> zlen data <= cap ->
  Forall (fun r => row_matches name r -> ce_seq (row_entry r) < seq) pre ->
  Forall (fun r => row_matches name r -> ce_seq (row_entry r) <= seq) post ->
  cfg_load (pre ++ row_of seq name data :: post) name cap = (0, data).
Proof. apply cfg_load_row. Qed.

Lemma cfg_load_roundtrip_witness :
  cfg_load ([replicate 256 0xFF] ++ sample_row :: [replicate 256 0xFF]) [0x69; 0x64; 0x6E; 0x74] 256
  = (0, [0xA1; 0x61; 0x76; 0x01]).
Proof.
  apply cfg_load_roundtrip; vm_decide.
Defined.
