(* ===== verification/BootFiles.v ===== *)
(** The boot-time configuration files ([node/boot_identity.c],
    [node/boot_netcfg.c], [node/boot_roster.c], [node/boot_hwio.c]): each loads an
    entry of the config store and parses its CBOR map key by key. The local
    buffer [buf] lies at the address [base]. *)
From Stdlib Require Import Ascii.
From S2P Require Import Prelude BusFrame CfgFile CborMin.

(** ** Variants ([node/variants.h]) *)
Definition VARIANT_BUS_CTRL_USB : Z := 1.
Definition VARIANT_BUS_CTRL_WIFI : Z := 2.
Definition VARIANT_SLAVE_RS485 : Z := 3.
Definition variant_is_master (v : Z) : bool :=
  (v =? VARIANT_BUS_CTRL_USB) || (v =? VARIANT_BUS_CTRL_WIFI).
Definition variant_supported (v : Z) : bool :=
  (v =? VARIANT_BUS_CTRL_USB) || (v =? VARIANT_SLAVE_RS485).

(** Load the entry [name] and parse it; [missing] when the loader fails. *)
Definition read_file {A} (region : list (list Z)) (base : Z) (name : string) (missing : Z)
    (m : parser A) : res A :=
  let '(rc, data) := cfg_load region (chars name) CFG_FILE_MAX in
  if rc <? 0 then Err missing
  else match m (cbor_init data base (zlen data)) with
       | Ok (a, _) => Ok a
       | Err e => Err e
       | Oob => Oob
       | NoFuel => NoFuel
       end.

(** [copy_text(dst, sizeof dst, s, n)]: truncated to fit, NUL-terminated. *)
Definition copy_text (dst s : list Z) : list Z :=
  let n := if zlen dst <=? zlen s then zlen dst - 1 else zlen s in
  take (Z.to_nat n) s ++ 0 :: drop (Z.to_nat (n + 1)) dst.

(** A string value copied into the field [dst]. *)
Definition text_into (dst : list Z) (err : Z) : parser (list Z) :=
  t <-- orelse (cbor_str CBOR_TEXT) err;;
  bs <-- mem_slice t.1 t.2;; pret (copy_text dst bs).

(** ** 'idnt' *)
Module Identity.
Definition IDENT_ERR_MISSING : Z := -1.
Definition IDENT_ERR_FORMAT : Z := -2.
Definition IDENT_ERR_SCHEMA : Z := -3.
Definition IDENT_ERR_CHIP : Z := -4.
Definition IDENT_ERR_VARIANT : Z := -5.
Definition IDENT_ERR_UUID : Z := -6.
Definition IDENT_ERR_ADDR : Z := -7.
Definition IDENT_SCHEMA_VER : Z := 1.
Definition CHIP_PICO : Z := 0.
Definition CHIP_PICO2 : Z := 1.
Definition PICO_UNIQUE_BOARD_ID_SIZE_BYTES : Z := 8.

Record identity_t := mk_identity { chip : Z; variant : Z; addr : Z; baud : Z; uuid : list Z }.

Definition BUILD_CHIP (pico_rp2350 : bool) : Z := if pico_rp2350 then CHIP_PICO2 else CHIP_PICO.

(** The locals of the key loop. *)
Record ident_vars := mk_ident_vars {
  iv_v : Z; iv_ch : Z; iv_vr : Z; iv_ad : Z; iv_sp : Z; iv_uid : Z * Z; iv_seen : Z
}.
#[global] Instance eta_ident_vars : Settable ident_vars := fun s =>
  mk_ident_vars (iv_v s) (iv_ch s) (iv_vr s) (iv_ad s) (iv_sp s) (iv_uid s) (iv_seen s).

Definition S_V : Z := 1.
Definition S_CH : Z := 2.
Definition S_VR : Z := 4.
Definition S_AD : Z := 8.
Definition S_ID : Z := 16.
Definition ident_vars0 : ident_vars :=
  mk_ident_vars 0 (2 ^ 64 - 1) (2 ^ 64 - 1) (2 ^ 64 - 1) 0 (0, 0) 0.
Definition see (bit : Z) (s : ident_vars) : ident_vars := s <| iv_seen ::= fun x => Z.lor x bit |>.

Definition u : parser Z := orelse cbor_uint IDENT_ERR_FORMAT.

Definition ident_key (s : ident_vars) : parser ident_vars :=
  k <-- orelse (cbor_str CBOR_TEXT) IDENT_ERR_FORMAT;;
  is_v <-- CBOR_KEY k (chars "v");; if (is_v : bool) then x <-- u;; pret (see S_V (s <| iv_v := x |>)) else
  is_ch <-- CBOR_KEY k (chars "ch");; if (is_ch : bool) then x <-- u;; pret (see S_CH (s <| iv_ch := x |>)) else
  is_vr <-- CBOR_KEY k (chars "vr");; if (is_vr : bool) then x <-- u;; pret (see S_VR (s <| iv_vr := x |>)) else
  is_ad <-- CBOR_KEY k (chars "ad");; if (is_ad : bool) then x <-- u;; pret (see S_AD (s <| iv_ad := x |>)) else
  is_sp <-- CBOR_KEY k (chars "sp");; if (is_sp : bool) then x <-- u;; pret (s <| iv_sp := x |>) else
  is_id <-- CBOR_KEY k (chars "id");; if (is_id : bool)
    then x <-- orelse (cbor_str CBOR_BYTES) IDENT_ERR_FORMAT;; pret (see S_ID (s <| iv_uid := x |>)) else
  orelse cbor_skip IDENT_ERR_FORMAT;;; pret s.

(** The checks behind the loop, in order, then the result. *)
Definition ident_check (build_chip : Z) (board_id : list Z) (s : ident_vars) : parser identity_t :=
  if negb (iv_seen s =? Z.lor S_V (Z.lor S_CH (Z.lor S_VR (Z.lor S_AD S_ID)))) then pfail IDENT_ERR_FORMAT
  else if negb (iv_v s =? IDENT_SCHEMA_VER) then pfail IDENT_ERR_SCHEMA
  else if negb (iv_ch s =? build_chip) then pfail IDENT_ERR_CHIP
  else if negb (variant_supported (u8 (iv_vr s))) then pfail IDENT_ERR_VARIANT
  else if negb ((iv_uid s).2 =? PICO_UNIQUE_BOARD_ID_SIZE_BYTES) then pfail IDENT_ERR_UUID
  else
    uid <-- mem_slice (iv_uid s).1 (iv_uid s).2;;
    if negb (bool_decide (uid = board_id)) then pfail IDENT_ERR_UUID
    else
      if variant_is_master (u8 (iv_vr s))
      then if negb (iv_ad s =? BUS_ADDR_MASTER) then pfail IDENT_ERR_ADDR
           else pret (mk_identity (u8 (iv_ch s)) (u8 (iv_vr s)) (u8 (iv_ad s)) (u32 (iv_sp s)) uid)
      else if (iv_ad s <? BUS_ADDR_SLAVE_MIN) || (BUS_ADDR_SLAVE_MAX <? iv_ad s) then pfail IDENT_ERR_ADDR
           else pret (mk_identity (u8 (iv_ch s)) (u8 (iv_vr s)) (u8 (iv_ad s)) (u32 (iv_sp s)) uid).

Definition ident_parse (build_chip : Z) (board_id : list Z) : parser identity_t :=
  np <-- orelse (cbor_open CBOR_MAP) IDENT_ERR_FORMAT;;
  s <-- for_n np ident_key ident_vars0;;
  ident_check build_chip board_id s.

(** [Err] is the negative return code, with [*out] untouched. *)
Definition boot_read_identity (region : list (list Z)) (base : Z) (pico_rp2350 : bool)
    (board_id : list Z) : res identity_t :=
  read_file region base "idnt" IDENT_ERR_MISSING (ident_parse (BUILD_CHIP pico_rp2350) board_id).
End Identity.

(** ** 'slvr' *)
Module Roster.
Definition ROSTER_ERR_MISSING : Z := -1.
Definition ROSTER_ERR_FORMAT : Z := -2.
Definition ROSTER_ERR_SCHEMA : Z := -3.
Definition ROSTER_SCHEMA_VER : Z := 1.
Definition ROSTER_FILE_MAX : Z := 32.

Record roster_slave_t := mk_roster_slave { rs_addr : Z; rs_variant : Z; rs_flags : Z }.
(** [s] holds the [n] slaves parsed so far; the entries behind are zero. *)
Record roster_cfg_t := mk_roster_cfg {
  grant_period_ms : Z; window_us : Z; max_misses : Z; tcp_retries : Z; rc_s : list roster_slave_t
}.

Record roster_vars := mk_roster_vars {
  rv_v : Z; rv_p : Z; rv_w : Z; rv_m : Z; rv_r : Z; rv_got : bool; rv_s : list roster_slave_t
}.
#[global] Instance eta_roster_vars : Settable roster_vars := fun s =>
  mk_roster_vars (rv_v s) (rv_p s) (rv_w s) (rv_m s) (rv_r s) (rv_got s) (rv_s s).
Definition roster_vars0 : roster_vars := mk_roster_vars 0 0 0 0 0 false [].

Definition u : parser Z := orelse cbor_uint ROSTER_ERR_FORMAT.

(** One [[addr, variant, flags, ..]] entry. *)
Definition roster_slave (s : roster_vars) : parser roster_vars :=
  nf <-- orelse (cbor_open CBOR_ARRAY) ROSTER_ERR_FORMAT;;
  if nf <? 3 then pfail ROSTER_ERR_FORMAT
  else
    a <-- u;; v <-- u;; f <-- u;;
    for_n (nf - 3) (fun _ => orelse cbor_skip ROSTER_ERR_FORMAT) tt;;;
    pret (if zlen (rv_s s) <? ROSTER_FILE_MAX
          then s <| rv_s ::= fun l => l ++ [mk_roster_slave (u8 a) (u8 v) (u8 f)] |> else s).

Definition roster_key (s : roster_vars) : parser roster_vars :=
  k <-- orelse (cbor_str CBOR_TEXT) ROSTER_ERR_FORMAT;;
  is_v <-- CBOR_KEY k (chars "v");;
    if (is_v : bool) then x <-- u;; pret (s <| rv_v := x |> <| rv_got := true |>) else
  is_p <-- CBOR_KEY k (chars "p");; if (is_p : bool) then x <-- u;; pret (s <| rv_p := x |>) else
  is_w <-- CBOR_KEY k (chars "w");; if (is_w : bool) then x <-- u;; pret (s <| rv_w := x |>) else
  is_m <-- CBOR_KEY k (chars "m");; if (is_m : bool) then x <-- u;; pret (s <| rv_m := x |>) else
  is_r <-- CBOR_KEY k (chars "r");; if (is_r : bool) then x <-- u;; pret (s <| rv_r := x |>) else
  is_s <-- CBOR_KEY k (chars "s");; if (is_s : bool)
    then ns <-- orelse (cbor_open CBOR_ARRAY) ROSTER_ERR_FORMAT;; for_n ns roster_slave s else
  orelse cbor_skip ROSTER_ERR_FORMAT;;; pret s.

Definition roster_check (s : roster_vars) : parser roster_cfg_t :=
  if negb (rv_got s) then pfail ROSTER_ERR_FORMAT
  else if negb (rv_v s =? ROSTER_SCHEMA_VER) then pfail ROSTER_ERR_SCHEMA
  else pret (mk_roster_cfg (u16 (rv_p s)) (u16 (rv_w s)) (u8 (rv_m s)) (u8 (rv_r s)) (rv_s s)).

Definition roster_parse : parser roster_cfg_t :=
  np <-- orelse (cbor_open CBOR_MAP) ROSTER_ERR_FORMAT;;
  s <-- for_n np roster_key roster_vars0;;
  roster_check s.

Definition boot_read_roster (region : list (list Z)) (base : Z) : res roster_cfg_t :=
  read_file region base "slvr" ROSTER_ERR_MISSING roster_parse.
End Roster.

(** ** 'neti' *)
Module Netcfg.
Definition NETI_SSID_MAX : Z := 33.
Definition NETI_PASS_MAX : Z := 64.
Definition NETI_AP_MAX : Z := 4.
Definition NETI_ERR_MISSING : Z := -1.
Definition NETI_ERR_FORMAT : Z := -2.
Definition NETI_ERR_SCHEMA : Z := -3.
Definition NETI_SCHEMA_MIN : Z := 1.
Definition NETI_SCHEMA_MAX : Z := 2.

Record netap_t := mk_netap { ssid : list Z; pass : list Z }.
#[global] Instance eta_netap_t : Settable netap_t := fun a => mk_netap (ssid a) (pass a).
Record netcfg_t := mk_netcfg { n_ap : Z; present : Z; ip : list Z; port : Z; ap : list netap_t }.
#[global] Instance eta_netcfg_t : Settable netcfg_t := fun c =>
  mk_netcfg (n_ap c) (present c) (ip c) (port c) (ap c).

Definition netap0 : netap_t := mk_netap (replicate 33 0) (replicate 64 0).
(** [memset(out, 0, sizeof *out)]. *)
Definition netcfg0 : netcfg_t := mk_netcfg 0 0 [0; 0; 0; 0] 0 (replicate 4 netap0).

(** [false] is turned into [NETI_ERR_FORMAT] by the caller. *)
Definition ap_key (a : netap_t) : parser netap_t :=
  k <-- cbor_str CBOR_TEXT;;
  is_ss <-- CBOR_KEY k (chars "ss");; if (is_ss : bool)
    then t <-- text_into (ssid a) CBOR_FALSE;; pret (a <| ssid := t |>) else
  is_pw <-- CBOR_KEY k (chars "pw");; if (is_pw : bool)
    then t <-- text_into (pass a) CBOR_FALSE;; pret (a <| pass := t |>) else
  cbor_skip;;; pret a.
Definition parse_ap (a : netap_t) : parser netap_t :=
  np <-- cbor_open CBOR_MAP;; for_n np ap_key a.

(** One element of "aps"; [j] counts them. *)
Definition aps_elem (s : netcfg_t * Z) : parser (netcfg_t * Z) :=
  let '(out, j) := s in
  if j <? NETI_AP_MAX
  then a <-- orelse (parse_ap (zget netap0 (ap out) j)) NETI_ERR_FORMAT;;
       pret (out <| ap ::= fun l => zset l j a |>, u64 (j + 1))
  else orelse cbor_skip NETI_ERR_FORMAT;;; pret (out, u64 (j + 1)).

Record net_vars := mk_net_vars { nv_out : netcfg_t; nv_v : Z; nv_seen : bool }.
#[global] Instance eta_net_vars : Settable net_vars := fun s =>
  mk_net_vars (nv_out s) (nv_v s) (nv_seen s).

Definition ap0 (f : netap_t -> netap_t) (c : netcfg_t) : netcfg_t :=
  c <| ap ::= fun l => zset l 0 (f (zget netap0 l 0)) |>
    <| n_ap ::= fun n => if n <? 1 then 1 else n |>.

Definition netcfg_key (s : net_vars) : parser net_vars :=
  k <-- orelse (cbor_str CBOR_TEXT) NETI_ERR_FORMAT;;
  is_v <-- CBOR_KEY k (chars "v");; if (is_v : bool)
    then x <-- orelse cbor_uint NETI_ERR_FORMAT;; pret (s <| nv_v := x |> <| nv_seen := true |>) else
  is_ip <-- CBOR_KEY k (chars "ip");; if (is_ip : bool)
    then t <-- orelse (cbor_str CBOR_BYTES) NETI_ERR_FORMAT;;
         if negb (t.2 =? 4) then pfail NETI_ERR_FORMAT
         else bs <-- mem_slice t.1 4;; pret (s <| nv_out ::= fun c => c <| ip := bs |> |>) else
  is_pt <-- CBOR_KEY k (chars "pt");; if (is_pt : bool)
    then x <-- orelse cbor_uint NETI_ERR_FORMAT;; pret (s <| nv_out ::= fun c => c <| port := u16 x |> |>) else
  is_ss <-- CBOR_KEY k (chars "ss");; if (is_ss : bool)
    then t <-- text_into (ssid (zget netap0 (ap (nv_out s)) 0)) NETI_ERR_FORMAT;;
         pret (s <| nv_out ::= ap0 (fun a => a <| ssid := t |>) |>) else
  is_pw <-- CBOR_KEY k (chars "pw");; if (is_pw : bool)
    then t <-- text_into (pass (zget netap0 (ap (nv_out s)) 0)) NETI_ERR_FORMAT;;
         pret (s <| nv_out ::= ap0 (fun a => a <| pass := t |>) |>) else
  is_aps <-- CBOR_KEY k (chars "aps");; if (is_aps : bool)
    then na <-- orelse (cbor_open CBOR_ARRAY) NETI_ERR_FORMAT;;
         r <-- for_n na aps_elem (nv_out s, 0);;
         pret (s <| nv_out := r.1 <| n_ap := if NETI_AP_MAX <? na then NETI_AP_MAX else u8 na |> |>) else
  orelse cbor_skip NETI_ERR_FORMAT;;; pret s.

Definition netcfg_check (s : net_vars) : parser netcfg_t :=
  if negb (nv_seen s) then pfail NETI_ERR_FORMAT
  else if (nv_v s <? NETI_SCHEMA_MIN) || (NETI_SCHEMA_MAX <? nv_v s) then pfail NETI_ERR_SCHEMA
  else if (n_ap (nv_out s) =? 0) || (zget 0 (ssid (zget netap0 (ap (nv_out s)) 0)) 0 =? 0)
  then pfail NETI_ERR_FORMAT
  else pret (nv_out s <| present := 1 |>).

Definition netcfg_parse : parser netcfg_t :=
  np <-- orelse (cbor_open CBOR_MAP) NETI_ERR_FORMAT;;
  s <-- for_n np netcfg_key (mk_net_vars netcfg0 0 false);;
  netcfg_check s.

(** [boot_parse_netcfg(buf, len, out)] with [buf] at [base]. *)
Definition boot_parse_netcfg (buf : list Z) (base : Z) : res netcfg_t :=
  match netcfg_parse (cbor_init buf base (zlen buf)) with
  | Ok (c, _) => Ok c | Err e => Err e | Oob => Oob | NoFuel => NoFuel
  end.

Definition boot_read_netcfg (region : list (list Z)) (base : Z) : res netcfg_t :=
  read_file region base "neti" NETI_ERR_MISSING netcfg_parse.
End Netcfg.

(** ** 'hwio' *)
Module Hwio.
Definition HWIO_MODE_GPIO : Z := 1.
Definition HWIO_MODE__MAX : Z := 7.
Definition HWIO_ERR_MISSING : Z := -1.
Definition HWIO_ERR_FORMAT : Z := -2.
Definition HWIO_ERR_SCHEMA : Z := -3.
Definition HWIO_ERR_ROLE : Z := -4.
Definition HWIO_ADC_NCH : Z := 3.
Definition HWIO_SCHEMA_VER : Z := 2.
Definition HIL_GPIO_COUNT : Z := 8.

Record hwio_adc_t := mk_hwio_adc { label : list Z; unit_ : list Z; scale_num : Z; scale_den : Z }.
#[global] Instance eta_hwio_adc_t : Settable hwio_adc_t := fun a =>
  mk_hwio_adc (label a) (unit_ a) (scale_num a) (scale_den a).
Record hwio_t := mk_hwio { io_mode : Z; pin : list Z; adc : list hwio_adc_t }.
#[global] Instance eta_hwio_t : Settable hwio_t := fun h => mk_hwio (io_mode h) (pin h) (adc h).

Definition adc0 : hwio_adc_t := mk_hwio_adc (replicate 16 0) (replicate 8 0) 0 0.
(** The fail-safe defaults. *)
Definition hwio0 : hwio_t := mk_hwio HWIO_MODE_GPIO (replicate 8 0) (replicate 3 adc0).

Definition adc_key (a : hwio_adc_t) : parser hwio_adc_t :=
  k <-- orelse (cbor_str CBOR_TEXT) HWIO_ERR_FORMAT;;
  is_l <-- CBOR_KEY k (chars "l");; if (is_l : bool)
    then t <-- text_into (label a) HWIO_ERR_FORMAT;; pret (a <| label := t |>) else
  is_u <-- CBOR_KEY k (chars "u");; if (is_u : bool)
    then t <-- text_into (unit_ a) HWIO_ERR_FORMAT;; pret (a <| unit_ := t |>) else
  is_n <-- CBOR_KEY k (chars "n");; if (is_n : bool)
    then x <-- orelse cbor_uint HWIO_ERR_FORMAT;; pret (a <| scale_num := u32 x |>) else
  is_d <-- CBOR_KEY k (chars "d");; if (is_d : bool)
    then x <-- orelse cbor_uint HWIO_ERR_FORMAT;; pret (a <| scale_den := u32 x |>) else
  orelse cbor_skip HWIO_ERR_FORMAT;;; pret a.
Definition parse_adc_entry (a : hwio_adc_t) : parser hwio_adc_t :=
  np <-- orelse (cbor_open CBOR_MAP) HWIO_ERR_FORMAT;; for_n np adc_key a.

(** The "io" and "ad" loops; the index runs along. *)
Definition io_elem (s : hwio_t * Z) : parser (hwio_t * Z) :=
  let '(tmp, j) := s in
  b <-- orelse cbor_uint HWIO_ERR_FORMAT;;
  if 0xFF <? b then pfail HWIO_ERR_ROLE
  else pret (tmp <| pin ::= fun l => zset l j (u8 b) |>, j + 1).
Definition ad_elem (s : hwio_t * Z) : parser (hwio_t * Z) :=
  let '(tmp, j) := s in
  if j <? HWIO_ADC_NCH
  then a <-- parse_adc_entry (zget adc0 (adc tmp) j);;
       pret (tmp <| adc ::= fun l => zset l j a |>, u64 (j + 1))
  else orelse cbor_skip HWIO_ERR_FORMAT;;; pret (tmp, u64 (j + 1)).

Record hwio_vars := mk_hwio_vars { hv_tmp : hwio_t; hv_v : Z; hv_seen : bool }.
#[global] Instance eta_hwio_vars : Settable hwio_vars := fun s =>
  mk_hwio_vars (hv_tmp s) (hv_v s) (hv_seen s).

Definition hwio_key (s : hwio_vars) : parser hwio_vars :=
  k <-- orelse (cbor_str CBOR_TEXT) HWIO_ERR_FORMAT;;
  is_v <-- CBOR_KEY k (chars "v");; if (is_v : bool)
    then x <-- orelse cbor_uint HWIO_ERR_FORMAT;; pret (s <| hv_v := x |> <| hv_seen := true |>) else
  is_m <-- CBOR_KEY k (chars "m");; if (is_m : bool)
    then m <-- orelse cbor_uint HWIO_ERR_FORMAT;;
         if HWIO_MODE__MAX <=? m then pfail HWIO_ERR_ROLE
         else pret (s <| hv_tmp ::= fun h => h <| io_mode := u8 m |> |>) else
  is_io <-- CBOR_KEY k (chars "io");; if (is_io : bool)
    then n <-- orelse (cbor_open CBOR_ARRAY) HWIO_ERR_FORMAT;;
         if HIL_GPIO_COUNT <? n then pfail HWIO_ERR_ROLE
         else r <-- for_n n io_elem (hv_tmp s, 0);; pret (s <| hv_tmp := r.1 |>) else
  is_ad <-- CBOR_KEY k (chars "ad");; if (is_ad : bool)
    then n <-- orelse (cbor_open CBOR_ARRAY) HWIO_ERR_FORMAT;;
         r <-- for_n n ad_elem (hv_tmp s, 0);; pret (s <| hv_tmp := r.1 |>) else
  orelse cbor_skip HWIO_ERR_FORMAT;;; pret s.

Definition hwio_check (s : hwio_vars) : parser hwio_t :=
  if negb (hv_seen s) then pfail HWIO_ERR_FORMAT
  else if negb (hv_v s =? HWIO_SCHEMA_VER) then pfail HWIO_ERR_SCHEMA
  else pret (hv_tmp s).

Definition hwio_parse : parser hwio_t :=
  np <-- orelse (cbor_open CBOR_MAP) HWIO_ERR_FORMAT;;
  s <-- for_n np hwio_key (mk_hwio_vars hwio0 0 false);;
  hwio_check s.

(** The return code and [*out]: the defaults unless the whole file is good. *)
Definition boot_read_hwio (region : list (list Z)) (base : Z) : res (Z * hwio_t) :=
  match read_file region base "hwio" HWIO_ERR_MISSING hwio_parse with
  | Ok h => Ok (0, h)
  | Err e => Ok (e, hwio0)
  | Oob => Oob
  | NoFuel => NoFuel
  end.
End Hwio.

(** ** Specification *)

(** Every row is a flash row whose text lengths are sane, and the stack buffer is
    in the low half of the address space. *)
Definition store_ok (region : list (list Z)) (base : Z) : Prop :=
  Forall (fun row => bytes_ok row /\ lengths_sane (take 240 (drop 16 row))) region /\
  0 <= base /\ base + 240 <= 2 ^ 31.

(** [m] ends on every cursor; results satisfy [P]. *)
Definition well {A} (P : A -> Prop) (m : parser A) : Prop :=
  forall arr base fin B, mem_ok arr base fin -> safe arr base fin B 0 P m.

(** What the boot may run with: this silicon, this board, an implemented
    variant, and an address of the role the variant implies. *)
Definition identity_ok (build : Z) (board : list Z) (id : Identity.identity_t) : Prop :=
  Identity.chip id = build /\ Identity.uuid id = board /\
  variant_supported (Identity.variant id) = true /\ fits 32 (Identity.baud id) /\
  if variant_is_master (Identity.variant id) then Identity.addr id = BUS_ADDR_MASTER
  else BUS_ADDR_SLAVE_MIN <= Identity.addr id <= BUS_ADDR_SLAVE_MAX.

(** *** 'slvr' *)
Definition slave_ok (x : Roster.roster_slave_t) : Prop :=
  fits 8 (Roster.rs_addr x) /\ fits 8 (Roster.rs_variant x) /\ fits 8 (Roster.rs_flags x).

Definition slaves_ok (l : list Roster.roster_slave_t) : Prop :=
  zlen l <= Roster.ROSTER_FILE_MAX /\ Forall slave_ok l.

Definition roster_ok (c : Roster.roster_cfg_t) : Prop :=
  slaves_ok (Roster.rc_s c) /\ fits 16 (Roster.grant_period_ms c) /\ fits 16 (Roster.window_us c) /\
  fits 8 (Roster.max_misses c) /\ fits 8 (Roster.tcp_retries c).

(** A NUL-terminated text in a field of [n] bytes. *)
Definition text_ok (n : nat) (t : list Z) : Prop := length t = n /\ 0 ∈ t /\ bytes_ok t.

Definition ap_ok (a : Netcfg.netap_t) : Prop :=
  text_ok 33 (Netcfg.ssid a) /\ text_ok 64 (Netcfg.pass a).

Definition aps_ok (l : list Netcfg.netap_t) : Prop := length l = 4%nat /\ Forall ap_ok l.

Definition netcfg_ok (c : Netcfg.netcfg_t) : Prop :=
  aps_ok (Netcfg.ap c) /\ 0 <= Netcfg.n_ap c <= Netcfg.NETI_AP_MAX /\ length (Netcfg.ip c) = 4%nat /\
  fits 16 (Netcfg.port c).

(** *** 'hwio' *)
Definition adc_ok (a : Hwio.hwio_adc_t) : Prop :=
  text_ok 16 (Hwio.label a) /\ text_ok 8 (Hwio.unit_ a) /\
  fits 32 (Hwio.scale_num a) /\ fits 32 (Hwio.scale_den a).

Definition hwio_ok (h : Hwio.hwio_t) : Prop :=
  0 <= Hwio.io_mode h < Hwio.HWIO_MODE__MAX /\
  (length (Hwio.pin h) = 8%nat /\ bytes_ok (Hwio.pin h)) /\
  (length (Hwio.adc h) = 3%nat /\ Forall adc_ok (Hwio.adc h)).

(** The 'idnt' body the commissioning tool writes. *)
Definition idnt_item (v ch vr ad sp : Z) (id : list Z) : item :=
  IMap [IText (chars "v"); IUint v; IText (chars "ch"); IUint ch; IText (chars "vr"); IUint vr;
        IText (chars "ad"); IUint ad; IText (chars "sp"); IUint sp; IText (chars "id"); IBytes id].

(** The verdict on its fields: the first check that fails, else the identity. *)
Definition idnt_verdict (build : Z) (board : list Z) (v ch vr ad sp : Z) (id : list Z) :
    res Identity.identity_t :=
  if negb (v =? 1) then Err Identity.IDENT_ERR_SCHEMA
  else if negb (ch =? build) then Err Identity.IDENT_ERR_CHIP
  else if negb (variant_supported (u8 vr)) then Err Identity.IDENT_ERR_VARIANT
  else if negb (bool_decide (id = board)) then Err Identity.IDENT_ERR_UUID
  else if negb (if variant_is_master (u8 vr) then ad =? 0 else (1 <=? ad) && (ad <=? 0x7E))
  then Err Identity.IDENT_ERR_ADDR
  else Ok (Identity.mk_identity (u8 ch) (u8 vr) (u8 ad) (u32 sp) id).

Definition seen_all (v ch vr ad sp : Z) (uid : Z * Z) : Identity.ident_vars :=
  Identity.mk_ident_vars v ch vr ad sp uid 31.

(** A configuration that holds one identity row, used by the examples. *)
Definition sample_board : list Z := [0xE6; 0x61; 0x58; 0x53; 0x83; 0x2F; 0x1A; 0x29].

Definition sample_idnt : list (list Z) :=
  [replicate 256 0xFF; row_of 3 (chars "idnt") (enc (idnt_item 1 0 3 9 115200 sample_board))].

(** ** Safety and well-formedness of the four readers *)

Lemma lengths_sane_take n l : lengths_sane l -> lengths_sane (take n l).
Proof.
  unfold lengths_sane. rewrite !Forall_forall. intros H i Hi.
  rewrite elem_of_seq, length_take in Hi. specialize (H i). rewrite elem_of_seq in H.
  specialize (H ltac:(lia)). unfold sane_at in *. rewrite lookup_take_lt by lia.
  assert (Hz : forall j, 0 <= j -> (zget 0 (take n l) j <? 0x80) = true \/ zget 0 (take n l) j = zget 0 l j).
  { intros j Hj. unfold zget. destruct (Z.ltb_spec j 0); [lia|]. rewrite !nth_lookup.
    destruct (decide (Z.to_nat j < n)%nat); [right; by rewrite lookup_take_lt|left].
    by rewrite lookup_take_ge by lia. }
  destruct (l !! i) as [b|]; [|done].
  destruct (bool_decide (b ∈ [90; 122])); [|destruct (bool_decide (b ∈ [91; 123])); [|done]].
  - destruct (Hz (Z.of_nat i + 1) ltac:(lia)) as [->| ->]; done.
  - destruct (Hz (Z.of_nat i + 5) ltac:(lia)) as [->| ->]; done.
Qed.

Lemma load_mem_ok region base name d :
  store_ok region base -> cfg_load region name CFG_FILE_MAX = (0, d) -> mem_ok d base (base + zlen d).
Proof.
  intros (Hr & Hb & Hs) H. pose proof (cfg_load_len _ _ _ _ H) as Hl.
  pose proof (zlen_nonneg d). unfold CFG_STORE_DATA_MAX in Hl.
  assert (Hby : bytes_ok d).
  { eapply cfg_load_bytes; [|exact H]. eapply Forall_impl; [exact Hr|]. by intros x [? _]. }
  split; try done; try lia.
  destruct (cfg_load_ok _ _ _ _ H) as (e & (pre & row & post & -> & -> & _) & _ & _ & ->).
  apply Forall_app in Hr as [_ Hr]. apply Forall_cons in Hr as [[_ Hr] _].
  by apply lengths_sane_take.
Qed.

(** Loading and parsing either succeeds with a good value or fails with a code. *)
Lemma read_file_total {A} (P : A -> Prop) region base name missing (m : parser A) :
  store_ok region base -> well P m ->
  (exists a, read_file region base name missing m = Ok a /\ P a) \/
  (exists e, read_file region base name missing m = Err e).
Proof.
  intros Hst Hm. unfold read_file.
  destruct (cfg_load_cases region (chars name) CFG_FILE_MAX) as [[_ ->]|(e & He & Hl)];
    [right; by eexists|].
  destruct (cfg_load region (chars name) CFG_FILE_MAX) as [rc d] eqn:E.
  destruct (Z.ltb_spec CFG_FILE_MAX (ce_len e)); simplify_eq; [right; by eexists|].
  change (0 <? 0) with false. cbv iota.
  pose proof (load_mem_ok _ _ _ _ Hst E) as Hmem. set (d := take _ _) in *.
  pose proof (zlen_nonneg d). assert (Hf : u32 (base + zlen d) = base + zlen d).
  { destruct Hmem as [? ? ? _ _]. apply u32_id. unfold fits. lia. }
  unfold cbor_init. rewrite Hf.
  pose proof (Hm d base (base + zlen d) _ Hmem base ltac:(lia) (Nat.le_refl _)) as Hs.
  destruct (m _) as [[a c]|code| |]; [left|right; by eexists|done|done].
  destruct Hs as (p' & _ & _ & Ha). by exists a.
Qed.

(** *** Composing safe parsers *)
Lemma safe_seq0 arr base fin B {A A'} (P : A -> Prop) (Q : A' -> Prop) m f :
  safe arr base fin B 0 P m -> (forall a, P a -> safe arr base fin B 0 Q (f a)) ->
  safe arr base fin B 0 Q (pbind m f).
Proof. intros Hm Hf. change 0 with (0 + 0) at 1. by eapply safe_bind. Qed.

Lemma safe_seq1 arr base fin B {A A'} (P : A -> Prop) (Q : A' -> Prop) m f :
  safe arr base fin B 1 P m -> (forall a, P a -> safe arr base fin B 0 Q (f a)) ->
  safe arr base fin B 1 Q (pbind m f).
Proof. intros Hm Hf. change 1 with (1 + 0) at 1. by eapply safe_bind. Qed.

Lemma safe_10 arr base fin B {A} (P : A -> Prop) m : safe arr base fin B 1 P m -> safe arr base fin B 0 P m.
Proof. intros H. eapply safe_weaken; [exact H|done|lia|done]. Qed.

Create HintDb safe_db.

(** One step through a parser's text. *)
Ltac safe_atom :=
  lazymatch goal with
  | |- safe _ _ _ _ _ _ (orelse _ _) => apply safe_orelse; safe_atom
  | |- safe _ _ _ _ _ _ cbor_uint => apply safe_cbor_uint; assumption
  | |- safe _ _ _ _ _ _ (cbor_open _) => apply safe_cbor_open; assumption
  | |- safe _ _ _ _ _ _ (cbor_str _) => apply safe_cbor_str; [assumption|auto]
  | |- safe _ _ _ _ _ _ cbor_skip => apply safe_cbor_skip; assumption
  | |- safe _ _ _ _ _ _ (CBOR_KEY _ _) => apply safe_CBOR_KEY; assumption
  | |- safe _ _ _ _ _ _ (mem_slice _ _) => apply safe_mem_slice; assumption
  | |- _ => solve [eauto 3 with safe_db]
  end.
Ltac safe_step :=
  lazymatch goal with
  | |- safe _ _ _ _ _ _ (pfail _) => apply safe_fail
  | |- safe _ _ _ _ _ _ (if ?b then _ else _) => let E := fresh "E" in destruct b eqn:E
  | |- safe _ _ _ _ 0 _ (pbind _ _) =>
      eapply safe_seq0; [first [apply safe_10; safe_atom|safe_atom]|intros ? ?; cbv beta in * |-]
  | |- safe _ _ _ _ 1 _ (pbind _ _) => eapply safe_seq1; [safe_atom|intros ? ?; cbv beta in * |-]
  end.

(** *** 'idnt' *)
Lemma safe_ident_key arr base fin B s :
  mem_ok arr base fin ->
  let P := fun s => Z.testbit (Identity.iv_seen s) 4 = true -> slice_ok base fin (Identity.iv_uid s) in
  P s -> safe arr base fin B 1 P (Identity.ident_key s).
Proof.
  intros Hm P Hs. unfold Identity.ident_key, Identity.u.
  assert (Hbit : forall bit s', Z.testbit bit 4 = false -> P s' -> P (Identity.see bit s')).
  { intros bit s' Hb Hs' H. apply Hs'. unfold Identity.see, field_map in H. cbn [Identity.iv_seen] in H.
    by rewrite Z.lor_spec, Hb, orb_false_r in H. }
  repeat safe_step; apply safe_ret; try (apply Hbit; [done|exact Hs]); try exact Hs.
  intros _. assumption.
Qed.

Lemma ident_parse_well build board :
  fits 8 build -> well (identity_ok build board) (Identity.ident_parse build board).
Proof.
  intros Hbf arr base fin B Hm. unfold Identity.ident_parse. safe_step.
  eapply safe_seq0.
  { eapply (safe_for_n arr base fin B
      (fun s => Z.testbit (Identity.iv_seen s) 4 = true -> slice_ok base fin (Identity.iv_uid s)));
      [done|]. intros s Hs. by apply safe_ident_key. }
  intros s Hs. cbv beta in Hs. unfold Identity.ident_check. repeat safe_step.
  assert (Hsl : slice_ok base fin (Identity.iv_uid s)).
  { bools. apply Hs. match goal with E : Identity.iv_seen s = _ |- _ => rewrite E end. done. }
  repeat safe_step; apply safe_ret; bools;
    match goal with E : Identity.iv_ch s = _ |- _ => rewrite E end;
    match goal with E : bool_decide _ = true |- _ => apply bool_decide_eq_true in E end;
    unfold identity_ok; cbn [Identity.chip Identity.uuid Identity.variant Identity.baud Identity.addr];
    match goal with E : variant_is_master _ = _ |- _ => rewrite E end;
    (refine (conj (u8_id _ Hbf) (conj _ (conj _ (conj (u32_fits _) _)))); [done|by bools|]).
  - match goal with E : Identity.iv_ad s = _ |- _ => by rewrite E end.
  - rewrite u8_id by (unfold fits, BUS_ADDR_SLAVE_MIN, BUS_ADDR_SLAVE_MAX in *; lia). lia.
Qed.

Lemma safe_for_skip arr base fin B n err :
  mem_ok arr base fin ->
  safe arr base fin B 0 (fun _ : unit => True) (for_n n (fun _ => orelse cbor_skip err) tt).
Proof. intros Hm. apply safe_for_n; [done|]. intros _ _. safe_atom. Qed.
#[export] Hint Resolve safe_for_skip : safe_db.

Lemma safe_roster_slave arr base fin B s :
  mem_ok arr base fin -> slaves_ok (Roster.rv_s s) ->
  safe arr base fin B 1 (fun s => slaves_ok (Roster.rv_s s)) (Roster.roster_slave s).
Proof.
  intros Hm [Hl Hs]. unfold Roster.roster_slave, Roster.u. repeat safe_step.
  apply safe_ret. destruct (Z.ltb_spec (zlen (Roster.rv_s s)) Roster.ROSTER_FILE_MAX); [|done].
  unfold field_map. cbn [Roster.rv_s]. split.
  - rewrite zlen_app. change (zlen [_]) with 1. lia.
  - apply Forall_app. split; [done|]. constructor; [|constructor]. split_and!; apply u8_fits.
Qed.

Lemma safe_roster_slaves arr base fin B n s :
  mem_ok arr base fin -> slaves_ok (Roster.rv_s s) ->
  safe arr base fin B 0 (fun s => slaves_ok (Roster.rv_s s)) (for_n n Roster.roster_slave s).
Proof.
  intros Hm Hs. apply (safe_for_n arr base fin B (fun s => slaves_ok (Roster.rv_s s))); [done|].
  intros s' Hs'. by apply safe_roster_slave.
Qed.

Lemma safe_roster_key arr base fin B s :
  mem_ok arr base fin -> slaves_ok (Roster.rv_s s) ->
  safe arr base fin B 1 (fun s => slaves_ok (Roster.rv_s s)) (Roster.roster_key s).
Proof.
  intros Hm Hs. unfold Roster.roster_key, Roster.u.
  repeat safe_step; try (apply safe_ret; exact Hs). by apply safe_roster_slaves.
Qed.

Lemma roster_parse_well : well roster_ok Roster.roster_parse.
Proof.
  intros arr base fin B Hm. unfold Roster.roster_parse. safe_step. eapply safe_seq0.
  { eapply (safe_for_n arr base fin B (fun s => slaves_ok (Roster.rv_s s))).
    - split; [done|constructor].
    - intros s Hs. by apply safe_roster_key. }
  intros s Hs. cbv beta in Hs. unfold Roster.roster_check. repeat safe_step. apply safe_ret.
  split_and!; try apply u8_fits; try apply u16_fits; done.
Qed.

(** *** 'neti' *)

Lemma copy_text_ok n dst s :
  (0 < n)%nat -> text_ok n dst -> bytes_ok s -> text_ok n (copy_text dst s).
Proof.
  intros Hn (Hl & _ & Hb) Hs. unfold copy_text, zlen. rewrite Hl.
  set (k := if _ <=? _ then _ else _).
  assert (Hk : 0 <= k < Z.of_nat n /\ k <= Z.of_nat (length s)).
  { subst k. destruct (Z.leb_spec (Z.of_nat n) (Z.of_nat (length s))); lia. }
  clearbody k. split_and!.
  - rewrite length_app, length_take. cbn [length]. rewrite length_drop. lia.
  - apply elem_of_app. right. constructor.
  - apply Forall_app. split; [by apply Forall_take|]. constructor; [done|by apply Forall_drop].
Qed.

Lemma safe_text_into arr base fin B n dst err :
  mem_ok arr base fin -> (0 < n)%nat -> text_ok n dst ->
  safe arr base fin B 0 (text_ok n) (text_into dst err).
Proof.
  intros Hm Hn Ht. unfold text_into. repeat safe_step. apply safe_ret.
  match goal with H : _ /\ bytes_ok _ |- _ => destruct H end. by apply copy_text_ok.
Qed.

Lemma aps_ok_get l j : aps_ok l -> ap_ok (zget Netcfg.netap0 l j).
Proof.
  intros [Hl Ha]. assert (H0 : ap_ok Netcfg.netap0) by vm_decide.
  unfold zget. destruct (j <? 0); [done|]. rewrite nth_lookup.
  destruct (l !! Z.to_nat j) eqn:E; [by eapply Forall_lookup_1|done].
Qed.

Lemma aps_ok_set l j a : aps_ok l -> ap_ok a -> aps_ok (zset l j a).
Proof.
  intros [Hl Ha] H. split; [by rewrite zlen_zset|]. unfold zset. destruct (j <? 0); [done|].
  by apply Forall_insert.
Qed.

Lemma safe_parse_ap arr base fin B a :
  mem_ok arr base fin -> ap_ok a -> safe arr base fin B 1 ap_ok (Netcfg.parse_ap a).
Proof.
  intros Hm Ha. unfold Netcfg.parse_ap. safe_step. apply safe_for_n; [done|]. clear a Ha.
  intros a [Hs Hp]. unfold Netcfg.ap_key.
  assert (Ht := safe_text_into arr base fin B 33 (Netcfg.ssid a) CBOR_FALSE Hm ltac:(lia) Hs).
  assert (Ht' := safe_text_into arr base fin B 64 (Netcfg.pass a) CBOR_FALSE Hm ltac:(lia) Hp).
  repeat safe_step; apply safe_ret; by split.
Qed.

Lemma safe_aps_elem arr base fin B s :
  mem_ok arr base fin -> netcfg_ok s.1 ->
  safe arr base fin B 1 (fun s => netcfg_ok s.1) (Netcfg.aps_elem s).
Proof.
  intros Hm. destruct s as [out j]. cbn [fst]. intros (Ha & Hr). unfold Netcfg.aps_elem.
  assert (Hp := safe_parse_ap arr base fin B _ Hm (aps_ok_get _ j Ha)).
  repeat safe_step; apply safe_ret; cbn [fst]; [|by split].
  unfold field_map. split; [|done]. cbn [Netcfg.ap]. by apply aps_ok_set.
Qed.

Lemma ap0_ok f c : netcfg_ok c -> (forall a, ap_ok a -> ap_ok (f a)) -> netcfg_ok (Netcfg.ap0 f c).
Proof.
  intros (Ha & Hn & Hr) Hf. unfold Netcfg.ap0, field_map, netcfg_ok.
  cbn [Netcfg.ap Netcfg.n_ap Netcfg.ip Netcfg.port]. split; [|split; [|exact Hr]].
  - apply aps_ok_set; [done|]. by apply Hf, aps_ok_get.
  - unfold Netcfg.NETI_AP_MAX in *. destruct (Z.ltb_spec (Netcfg.n_ap c) 1); lia.
Qed.

Lemma safe_netcfg_key arr base fin B s :
  mem_ok arr base fin -> netcfg_ok (Netcfg.nv_out s) ->
  safe arr base fin B 1 (fun s => netcfg_ok (Netcfg.nv_out s)) (Netcfg.netcfg_key s).
Proof.
  intros Hm Hs. pose proof Hs as (Ha & Hn & Hip & Hpt). unfold Netcfg.netcfg_key.
  destruct (aps_ok_get _ 0 Ha) as [Hss Hpw].
  assert (Ht := safe_text_into arr base fin B 33 _ Netcfg.NETI_ERR_FORMAT Hm ltac:(lia) Hss).
  assert (Ht' := safe_text_into arr base fin B 64 _ Netcfg.NETI_ERR_FORMAT Hm ltac:(lia) Hpw).
  assert (Haps : forall na, safe arr base fin B 0 (fun s => netcfg_ok s.1)
    (for_n na Netcfg.aps_elem (Netcfg.nv_out s, 0))).
  { intros na. apply (safe_for_n arr base fin B (fun s => netcfg_ok s.1)); [done|].
    intros s' Hs'. by apply safe_aps_elem. }
  repeat safe_step.
  2: { bools. match goal with E : snd ?t = 4 |- _ => rewrite <- E end.
       repeat safe_step. apply safe_ret. destruct_and!. unfold field_map, netcfg_ok.
       cbn [Netcfg.nv_out Netcfg.ap Netcfg.n_ap Netcfg.ip Netcfg.port].
       do 2 (split; [done|]). split; [|done]. unfold zlen in *. lia. }
  all: apply safe_ret; try exact Hs; try done.
  - unfold field_map, netcfg_ok. cbn [Netcfg.nv_out Netcfg.ap Netcfg.n_ap Netcfg.ip Netcfg.port].
    do 3 (split; [done|]). apply u16_fits.
  - unfold field_map at 1. cbn [Netcfg.nv_out]. apply ap0_ok; [done|]. by intros ? [? ?].
  - unfold field_map at 1. cbn [Netcfg.nv_out]. apply ap0_ok; [done|]. by intros ? [? ?].
  - match goal with H : netcfg_ok _ |- _ => destruct H as (? & ? & ?) end.
    unfold field_map, netcfg_ok. cbn [Netcfg.nv_out Netcfg.ap Netcfg.n_ap Netcfg.ip Netcfg.port].
    split; [done|split; [|done]]. unfold Netcfg.NETI_AP_MAX.
    match goal with |- context [4 <? ?n] => destruct (Z.ltb_spec 4 n) end; [lia|].
    match goal with H : fits 64 ?n |- context [u8 ?n] => destruct H; rewrite u8_id; [lia|unfold fits; lia] end.
Qed.

Lemma netcfg_parse_well :
  well (fun c => netcfg_ok c /\ Netcfg.present c = 1 /\ 1 <= Netcfg.n_ap c /\
    zget 0 (Netcfg.ssid (zget Netcfg.netap0 (Netcfg.ap c) 0)) 0 <> 0) Netcfg.netcfg_parse.
Proof.
  intros arr base fin B Hm. unfold Netcfg.netcfg_parse. safe_step. eapply safe_seq0.
  { eapply (safe_for_n arr base fin B (fun s => netcfg_ok (Netcfg.nv_out s))).
    - vm_decide.
    - intros s Hs. by apply safe_netcfg_key. }
  intros s Hs. cbv beta in Hs. unfold Netcfg.netcfg_check. repeat safe_step. apply safe_ret. bools.
  destruct Hs as (? & ? & ?). unfold field_map, netcfg_ok.
  cbn [Netcfg.nv_out Netcfg.ap Netcfg.n_ap Netcfg.ip Netcfg.port Netcfg.present].
  split; [done|]. split; [done|]. split; [lia|done].
Qed.

Lemma safe_parse_adc arr base fin B a :
  mem_ok arr base fin -> adc_ok a -> safe arr base fin B 1 adc_ok (Hwio.parse_adc_entry a).
Proof.
  intros Hm Ha. unfold Hwio.parse_adc_entry. safe_step. apply safe_for_n; [done|]. clear a Ha.
  intros a (Hl & Hu & Hn & Hd). unfold Hwio.adc_key.
  assert (Ht := safe_text_into arr base fin B 16 (Hwio.label a) Hwio.HWIO_ERR_FORMAT Hm ltac:(lia) Hl).
  assert (Ht' := safe_text_into arr base fin B 8 (Hwio.unit_ a) Hwio.HWIO_ERR_FORMAT Hm ltac:(lia) Hu).
  repeat safe_step; apply safe_ret; unfold adc_ok, field_map;
    cbn [Hwio.label Hwio.unit_ Hwio.scale_num Hwio.scale_den];
    repeat (split; [first [done|apply u32_fits]|]); first [done|apply u32_fits].
Qed.

Lemma safe_io_elem arr base fin B s :
  mem_ok arr base fin -> hwio_ok s.1 -> safe arr base fin B 1 (fun s => hwio_ok s.1) (Hwio.io_elem s).
Proof.
  intros Hm. destruct s as [h j]. cbn [fst]. intros (Hi & [Hl Hp] & Ha). unfold Hwio.io_elem.
  repeat safe_step. apply safe_ret. unfold field_map, hwio_ok. cbn [fst Hwio.io_mode Hwio.pin Hwio.adc].
  split; [done|]. split; [|done]. split; [by rewrite zlen_zset|]. unfold zset. destruct (j <? 0); [done|].
  apply Forall_insert; [done|apply u8_fits].
Qed.

Lemma safe_ad_elem arr base fin B s :
  mem_ok arr base fin -> hwio_ok s.1 -> safe arr base fin B 1 (fun s => hwio_ok s.1) (Hwio.ad_elem s).
Proof.
  intros Hm. destruct s as [h j]. cbn [fst]. intros (Hi & Hp & [Hl Ha]). unfold Hwio.ad_elem.
  assert (Hj : adc_ok (zget Hwio.adc0 (Hwio.adc h) j)).
  { assert (adc_ok Hwio.adc0) by vm_decide. unfold zget. destruct (j <? 0); [done|].
    rewrite nth_lookup. destruct (Hwio.adc h !! Z.to_nat j) eqn:E; [by eapply Forall_lookup_1|done]. }
  assert (Ht := safe_parse_adc arr base fin B _ Hm Hj).
  repeat safe_step; apply safe_ret; [|by split]. unfold field_map, hwio_ok.
  cbn [fst Hwio.io_mode Hwio.pin Hwio.adc]. do 2 (split; [done|]). split; [by rewrite zlen_zset|].
  unfold zset. destruct (j <? 0); [done|]. by apply Forall_insert.
Qed.

Lemma safe_hwio_key arr base fin B s :
  mem_ok arr base fin -> hwio_ok (Hwio.hv_tmp s) ->
  safe arr base fin B 1 (fun s => hwio_ok (Hwio.hv_tmp s)) (Hwio.hwio_key s).
Proof.
  intros Hm Hs. unfold Hwio.hwio_key.
  assert (Hio : forall n, safe arr base fin B 0 (fun s => hwio_ok s.1)
    (for_n n Hwio.io_elem (Hwio.hv_tmp s, 0))).
  { intros n. apply (safe_for_n arr base fin B (fun s => hwio_ok s.1)); [done|].
    intros s' Hs'. by apply safe_io_elem. }
  assert (Had : forall n, safe arr base fin B 0 (fun s => hwio_ok s.1)
    (for_n n Hwio.ad_elem (Hwio.hv_tmp s, 0))).
  { intros n. apply (safe_for_n arr base fin B (fun s => hwio_ok s.1)); [done|].
    intros s' Hs'. by apply safe_ad_elem. }
  repeat safe_step; apply safe_ret; try exact Hs; try done.
  destruct Hs as (? & ? & ?). unfold field_map, hwio_ok. cbn [Hwio.hv_tmp Hwio.io_mode Hwio.pin Hwio.adc].
  split; [|done]. bools. unfold Hwio.HWIO_MODE__MAX in *.
  match goal with H : fits 64 ?n |- context [u8 ?n] => destruct H; rewrite u8_id; [lia|unfold fits; lia] end.
Qed.

Lemma hwio_parse_well : well hwio_ok Hwio.hwio_parse.
Proof.
  intros arr base fin B Hm. unfold Hwio.hwio_parse. safe_step. eapply safe_seq0.
  { eapply (safe_for_n arr base fin B (fun s => hwio_ok (Hwio.hv_tmp s))).
    - vm_decide.
    - intros s Hs. by apply safe_hwio_key. }
  intros s Hs. unfold Hwio.hwio_check. repeat safe_step. by apply safe_ret.
Qed.

(** ** What a well-formed identity file does *)

Section File.
Context (arr : list Z) (base fin : Z).
Context (Hbase : 0 <= base) (Hfin : fin = base + zlen arr) (Hspace : fin < 2 ^ 32).
#[local] Abbreviation has := (holds arr base).
#[local] Abbreviation run := (runs arr base fin).

(** Reading a key, and comparing it. *)
Lemma run_key p k e {A} (body : Z * Z -> parser A) a p' :
  zlen k < 2 ^ 32 -> has p (enc (IText k)) ->
  (forall s, has s k -> run (p + zlen (enc (IText k))) (body (s, zlen k)) a p') ->
  run p (pbind (orelse (cbor_str CBOR_TEXT) e) body) a p'.
Proof.
  intros Hk H Hb. destruct (run_cbor_str arr base fin Hbase Hfin Hspace p CBOR_TEXT k ltac:(done) Hk H)
    as (s & Hs & Hr).
  eapply run_bind; [by apply run_orelse|]. by apply Hb.
Qed.

Lemma run_if_key p s k key {A} (m1 m2 : parser A) a p' :
  has s k -> run p (if bool_decide (k = key) then m1 else m2) a p' ->
  run p (eq <-- CBOR_KEY (s, zlen k) key;; if (eq : bool) then m1 else m2) a p'.
Proof. intros Hs H. eapply run_bind; [by apply (run_CBOR_KEY arr base fin Hfin)|exact H]. Qed.

Lemma run_u p n e {A} (f : Z -> parser A) a p' :
  fits 64 n -> has p (enc (IUint n)) -> run (p + zlen (enc (IUint n))) (f n) a p' ->
  run p (pbind (orelse cbor_uint e) f) a p'.
Proof. intros Hn H Hf. eapply run_bind; [by apply run_orelse, run_cbor_uint|exact Hf]. Qed.

(** A key followed by a number. *)
Lemma run_ident_uint p k x (s s' : Identity.ident_vars) :
  zlen k < 2 ^ 32 -> fits 64 x -> has p (enc (IText k) ++ enc (IUint x)) ->
  (k, s') ∈ [(chars "v", Identity.see Identity.S_V (s <| Identity.iv_v := x |>));
             (chars "ch", Identity.see Identity.S_CH (s <| Identity.iv_ch := x |>));
             (chars "vr", Identity.see Identity.S_VR (s <| Identity.iv_vr := x |>));
             (chars "ad", Identity.see Identity.S_AD (s <| Identity.iv_ad := x |>));
             (chars "sp", s <| Identity.iv_sp := x |>)] ->
  run p (Identity.ident_key s) s' (p + zlen (enc (IText k) ++ enc (IUint x))).
Proof.
  intros Hk Hx H Hin. apply (has_app arr base fin Hfin) in H as [H1 H2]. rewrite zlen_app, Z.add_assoc.
  unfold Identity.ident_key. eapply run_key; [done|done|]. intros a Ha.
  repeat (apply elem_of_cons in Hin as [Hin|Hin]; [injection Hin as -> -> |]); [..|by apply elem_of_nil in Hin].
  all: repeat (apply run_if_key; [exact Ha|];
    match goal with |- context [bool_decide (?x = ?y)] =>
      let b := eval vm_compute in (bool_decide (x = y)) in
      change (bool_decide (x = y)) with b; cbv iota end).
  all: unfold Identity.u; eapply run_u; [exact Hx|exact H2|apply run_ret].
Qed.

Lemma run_ident_id p id :
  zlen id < 2 ^ 32 -> has p (enc (IText (chars "id")) ++ enc (IBytes id)) ->
  exists a, has a id /\ forall s : Identity.ident_vars,
    run p (Identity.ident_key s) (Identity.see Identity.S_ID (s <| Identity.iv_uid := (a, zlen id) |>))
      (p + zlen (enc (IText (chars "id")) ++ enc (IBytes id))).
Proof.
  intros Hid H. apply (has_app arr base fin Hfin) in H as [H1 H2]. rewrite zlen_app, Z.add_assoc.
  destruct (run_cbor_str arr base fin Hbase Hfin Hspace _ CBOR_BYTES id ltac:(unfold CBOR_BYTES; lia) Hid H2)
    as (a & Ha & Hr).
  exists a. split; [done|]. intros s. unfold Identity.ident_key. eapply (run_key p (chars "id")); [done|exact H1|]. intros k Hk.
  repeat (apply run_if_key; [exact Hk|];
    match goal with |- context [bool_decide (?x = ?y)] =>
      let b := eval vm_compute in (bool_decide (x = y)) in
      change (bool_decide (x = y)) with b; cbv iota end).
  eapply run_bind; [by apply run_orelse|apply run_ret].
Qed.

Lemma has_pair p a b c : has p (a ++ b ++ c) -> has p (a ++ b) /\ has (p + zlen (a ++ b)) c.
Proof. intros H. rewrite app_assoc in H. by apply (has_app arr base fin Hfin). Qed.

(** All six pairs, in the order the tool writes them. *)
Lemma run_ident_loop p v ch vr ad sp id :
  fits 64 v -> fits 64 ch -> fits 64 vr -> fits 64 ad -> fits 64 sp -> zlen id < 2 ^ 32 ->
  has p (concat (map enc [IText (chars "v"); IUint v; IText (chars "ch"); IUint ch; IText (chars "vr");
    IUint vr; IText (chars "ad"); IUint ad; IText (chars "sp"); IUint sp; IText (chars "id"); IBytes id])) ->
  exists a p', has a id /\
    run p (for_n 6 Identity.ident_key Identity.ident_vars0) (seen_all v ch vr ad sp (a, zlen id)) p'.
Proof.
  intros Hv Hch Hvr Had Hsp Hid H.
  pose proof (has_bound arr base fin Hfin _ _ H) as Hbd.
  pose proof (concat_enc_length [IText (chars "v"); IUint v; IText (chars "ch"); IUint ch;
    IText (chars "vr"); IUint vr; IText (chars "ad"); IUint ad; IText (chars "sp"); IUint sp;
    IText (chars "id"); IBytes id]) as Hlen.
  change (zlen [_; _; _; _; _; _; _; _; _; _; _; _]) with 12 in Hlen.
  cbn [map concat] in H. apply has_pair in H as [Hp1 H]. apply has_pair in H as [Hp2 H].
  apply has_pair in H as [Hp3 H]. apply has_pair in H as [Hp4 H]. apply has_pair in H as [Hp5 H].
  apply has_pair in H as [Hp6 _].
  destruct (run_ident_id _ id Hid Hp6) as (a & Ha & Hr).
  exists a. eexists. split; [exact Ha|].
  apply run_for_n; [lia|lia|]. intros fuel Hf. do 6 (destruct fuel as [|fuel]; [lia|]).
  eapply run_rep_S; [lia|eapply (run_ident_uint _ (chars "v")); [done|exact Hv|exact Hp1|apply list_elem_of_here]|].
  eapply run_rep_S; [lia|eapply (run_ident_uint _ (chars "ch")); [done|exact Hch|exact Hp2|
    do 1 apply list_elem_of_further; apply list_elem_of_here]|].
  eapply run_rep_S; [lia|eapply (run_ident_uint _ (chars "vr")); [done|exact Hvr|exact Hp3|
    do 2 apply list_elem_of_further; apply list_elem_of_here]|].
  eapply run_rep_S; [lia|eapply (run_ident_uint _ (chars "ad")); [done|exact Had|exact Hp4|
    do 3 apply list_elem_of_further; apply list_elem_of_here]|].
  eapply run_rep_S; [lia|eapply (run_ident_uint _ (chars "sp")); [done|exact Hsp|exact Hp5|
    do 4 apply list_elem_of_further; apply list_elem_of_here]|].
  eapply run_rep_S; [lia|apply Hr|]. by apply run_rep_nil.
Qed.

Lemma run_ident_check p build board v ch vr ad sp a id :
  zlen board = 8 -> has a id ->
  Identity.ident_check build board (seen_all v ch vr ad sp (a, zlen id)) (mk_cbor arr base p fin) =
  match idnt_verdict build board v ch vr ad sp id with
  | Ok x => Ok (x, mk_cbor arr base p fin)
  | Err e => Err e | Oob => Oob | NoFuel => NoFuel
  end.
Proof.
  intros Hb Ha. unfold Identity.ident_check, idnt_verdict, seen_all.
  cbn [Identity.iv_seen Identity.iv_v Identity.iv_ch Identity.iv_vr Identity.iv_ad Identity.iv_sp
    Identity.iv_uid fst snd].
  change (31 =? _) with true. cbn [negb]. unfold Identity.IDENT_SCHEMA_VER.
  destruct (negb (v =? 1)); [done|]. destruct (negb (ch =? build)); [done|].
  destruct (negb (variant_supported (u8 vr))); [done|]. unfold Identity.PICO_UNIQUE_BOARD_ID_SIZE_BYTES.
  destruct (Z.eqb_spec (zlen id) 8) as [E|E]; cbn [negb].
  2: { rewrite bool_decide_false; [done|]. by intros ->. }
  pose proof (run_mem_slice arr base fin Hfin p a id Ha) as Hs. unfold runs in Hs.
  unfold pbind. rewrite Hs. destruct (bool_decide (id = board)); [cbn [negb]|done].
  destruct (variant_is_master (u8 vr)).
  - unfold BUS_ADDR_MASTER. by destruct (ad =? 0).
  - unfold BUS_ADDR_SLAVE_MIN, BUS_ADDR_SLAVE_MAX. rewrite (Z.leb_antisym ad 1), (Z.leb_antisym 0x7E ad).
    by destruct (ad <? 1), (0x7E <? ad).
Qed.

Lemma run_ident_parse p build board v ch vr ad sp id :
  fits 64 v -> fits 64 ch -> fits 64 vr -> fits 64 ad -> fits 64 sp -> zlen id < 2 ^ 32 ->
  zlen board = 8 -> has p (enc (idnt_item v ch vr ad sp id)) ->
  exists c, Identity.ident_parse build board (mk_cbor arr base p fin) =
    match idnt_verdict build board v ch vr ad sp id with
    | Ok x => Ok (x, c) | Err e => Err e | Oob => Oob | NoFuel => NoFuel
    end.
Proof.
  intros Hv Hch Hvr Had Hsp Hid Hb H. unfold idnt_item in H. cbn [enc] in H.
  apply (has_app arr base fin Hfin) in H as [H1 H2].
  change (zlen _ / 2) with 6 in H1, H2.
  pose proof (run_cbor_open arr base fin Hbase Hfin Hspace p CBOR_MAP 6 ltac:(done) ltac:(done) H1) as Hr1.
  destruct (run_ident_loop _ _ _ _ _ _ _ Hv Hch Hvr Had Hsp Hid H2) as (a & p' & Ha & Hr2).
  exists (mk_cbor arr base p' fin). unfold Identity.ident_parse, pbind, orelse.
  unfold runs in Hr1, Hr2. rewrite Hr1, Hr2. by apply run_ident_check.
Qed.
End File.

(** ** Properties *)



(** A store holding the file the commissioning tool writes is read back as the
    verdict on its six fields: accepted with exactly those values, or refused with
    the code of the first check that fails. *)
Theorem boot_identity_roundtrip pre post seq base rp2350 board v ch vr ad sp id :
  let body := enc (idnt_item v ch vr ad sp id) in
  fits 64 v -> fits 64 ch -> fits 64 vr -> fits 64 ad -> fits 64 sp -> zlen board = 8 ->
  fits 32 seq -> bytes_ok body -> zlen body <= 240 -> 0 <= base -> base + 240 < 2 ^ 32 ->
  Forall (fun r => row_matches (chars "idnt") r -> ce_seq (row_entry r) < seq) pre ->
  Forall (fun r => row_matches (chars "idnt") r -> ce_seq (row_entry r) <= seq) post ->
  Identity.boot_read_identity (pre ++ row_of seq (chars "idnt") body :: post) base rp2350 board =
  idnt_verdict (Identity.BUILD_CHIP rp2350) board v ch vr ad sp id.
Proof.
  intros body Hv Hch Hvr Had Hsp Hb Hs Hby Hl Hbase Hspace Hpre Hpost.
  unfold Identity.boot_read_identity, read_file.
  assert (HL : cfg_load (pre ++ row_of seq (chars "idnt") body :: post) (chars "idnt") CFG_FILE_MAX = (0, body)).
  { assert (Hnb : bytes_ok (chars "idnt")) by vm_decide.
    apply cfg_load_row; try assumption; [done|done|unfold CFG_FILE_MAX; lia]. }
  rewrite HL. change (0 <? 0) with false. cbv iota.
  pose proof (zlen_nonneg body) as Hn. unfold cbor_init. rewrite u32_id by (unfold fits; lia).
  assert (Hid : zlen id < 2 ^ 32).
  { assert (H : zlen id <= zlen body); [|lia]. unfold body, idnt_item. cbn [enc map concat].
    rewrite !zlen_app. repeat match goal with |- context [zlen (enc_hdr ?a ?b)] =>
      pose proof (zlen_nonneg (enc_hdr a b)); generalize dependent (zlen (enc_hdr a b)); intros end.
    repeat match goal with |- context [zlen (chars ?a)] =>
      pose proof (zlen_nonneg (chars a)); generalize dependent (zlen (chars a)); intros end.
    change (zlen []) with 0. lia. }
  destruct (run_ident_parse body base (base + zlen body) Hbase eq_refl ltac:(lia) base
    (Identity.BUILD_CHIP rp2350) board v ch vr ad sp id Hv Hch Hvr Had Hsp Hid Hb) as (c & ->).
  { exists [], []. rewrite app_nil_r. split; [done|]. change (zlen []) with 0. lia. }
  by destruct (idnt_verdict _ _ _ _ _ _ _ _).
Qed.

Lemma boot_identity_roundtrip_witness :
  Identity.boot_read_identity sample_idnt 0x20040000 false sample_board =
    idnt_verdict 0 sample_board 1 0 3 9 115200 sample_board /\
  idnt_verdict 0 sample_board 1 0 3 9 115200 sample_board =
    Ok (Identity.mk_identity 0 3 9 115200 sample_board).
Proof.
  split; [|reflexivity].
  apply (boot_identity_roundtrip [replicate 256 0xFF] [] 3 0x20040000 false sample_board
    1 0 3 9 115200 sample_board); vm_decide.
Defined.

(** All four boot files are read in bounds: for any store contents with sane text
    lengths every reader terminates without reading outside its buffer, and what it
    accepts is well-formed: a roster of at most 32 byte triples; at most four access
    points whose texts are NUL-terminated inside their fields, the first one named; a
    pin map of eight bytes, a known I/O mode and three ADC annotations, which stay at
    the fail-safe defaults whenever the code is not 0. *)
Theorem boot_readers_total region base rp2350 board :
  store_ok region base ->
  (match Identity.boot_read_identity region base rp2350 board with
   | Ok id => identity_ok (Identity.BUILD_CHIP rp2350) board id
   | Err e => True | Oob => False | NoFuel => False end) /\
  (match Roster.boot_read_roster region base with
   | Ok c => roster_ok c | Err e => True | Oob => False | NoFuel => False end) /\
  (match Netcfg.boot_read_netcfg region base with
   | Ok c => netcfg_ok c /\ Netcfg.present c = 1 /\ 1 <= Netcfg.n_ap c /\
       zget 0 (Netcfg.ssid (zget Netcfg.netap0 (Netcfg.ap c) 0)) 0 <> 0
   | Err e => True | Oob => False | NoFuel => False end) /\
  (match Hwio.boot_read_hwio region base with
   | Ok (rc, h) => hwio_ok h /\ (rc <> 0 -> h = Hwio.hwio0)
   | Err e => False | Oob => False | NoFuel => False end).
Proof.
  intros Hst. assert (Hb : fits 8 (Identity.BUILD_CHIP rp2350)) by (by destruct rp2350).
  split; [|split; [|split]].
  - unfold Identity.boot_read_identity.
    by destruct (read_file_total _ region base "idnt" Identity.IDENT_ERR_MISSING _ Hst
      (ident_parse_well _ board Hb)) as [(a & -> & Ha)|(e & ->)].
  - unfold Roster.boot_read_roster.
    by destruct (read_file_total _ region base "slvr" Roster.ROSTER_ERR_MISSING _ Hst roster_parse_well)
      as [(a & -> & Ha)|(e & ->)].
  - unfold Netcfg.boot_read_netcfg.
    by destruct (read_file_total _ region base "neti" Netcfg.NETI_ERR_MISSING _ Hst netcfg_parse_well)
      as [(a & -> & Ha)|(e & ->)].
  - unfold Hwio.boot_read_hwio.
    destruct (read_file_total _ region base "hwio" Hwio.HWIO_ERR_MISSING _ Hst hwio_parse_well)
      as [(a & -> & Ha)|(e & ->)]; [done|]. split; [vm_decide|done].
Qed.

Lemma boot_readers_total_witness :
  store_ok sample_idnt 0x20040000 /\
  match Hwio.boot_read_hwio sample_idnt 0x20040000 with
  | Ok (rc, h) => hwio_ok h /\ (rc <> 0 -> h = Hwio.hwio0)
  | Err e => False | Oob => False | NoFuel => False end.
Proof.
  assert (Hst : store_ok sample_idnt 0x20040000) by vm_decide. split; [exact Hst|].
  apply (boot_readers_total sample_idnt 0x20040000 false sample_board Hst).
Defined.

(** The variant is compared after truncation to a byte: 257 counts as 1. *)
Lemma boot_identity_variant_truncates :
  idnt_verdict 0 sample_board 1 0 257 0 0 sample_board =
  Ok (Identity.mk_identity 0 1 0 0 sample_board).
Proof. reflexivity. Qed.
