(* ===== verification/IlPinTable.v ===== *)
(** Interlock pin names ([node/interlock/il_pin_table.c]): "gpN", "adcK" and
    "ainK", in any case. A label is the list of its [len] characters. *)
From S2P Require Import Prelude.

Definition BOARD_PIN_ADC_NONE : Z := 0xFF.
Definition IL_NGPIO : Z := 30.

Record board_pin_t := mk_board_pin { gpio : Z; adc_channel : Z }.

Definition board_pin_phys_id (bp : board_pin_t) : Z := gpio bp.

(** Fold 'A'..'Z' (0x41..0x5A) to lower case. *)
Definition lower (a : Z) : Z := if (0x41 <=? a) && (a <=? 0x5A) then a - 0x41 + 0x61 else a.
Definition ci_eq (a b : Z) : bool := lower a =? lower b.

Fixpoint parse_digits (v : Z) (s : list Z) : option Z :=
  match s with
  | [] => Some v
  | c :: s => if (c <? 0x30) || (0x39 <? c) then None else parse_digits (v * 10 + (c - 0x30)) s
  end.
Definition parse_uint (s : list Z) : option Z :=
  if (zlen s =? 0) || (3 <? zlen s) then None else parse_digits 0 s.

Definition adc_channel_for_gpio (g : Z) : Z :=
  if (26 <=? g) && (g <=? 28) then g - 26 else BOARD_PIN_ADC_NONE.

Definition board_pin_lookup (label : list Z) : option board_pin_t :=
  let at_ i := zget 0 label i in
  if zlen label <? 3 then None
  else if ci_eq (at_ 0) 0x61 &&
       ((ci_eq (at_ 1) 0x64 && ci_eq (at_ 2) 0x63) || (ci_eq (at_ 1) 0x69 && ci_eq (at_ 2) 0x6E))
  then match parse_uint (drop 3 label) with
       | None => None
       | Some k => if 2 <? k then None else Some (mk_board_pin (26 + k) k)
       end
  else if ci_eq (at_ 0) 0x67 && ci_eq (at_ 1) 0x70
  then match parse_uint (drop 2 label) with
       | None => None
       | Some n => if IL_NGPIO <=? n then None else Some (mk_board_pin n (adc_channel_for_gpio n))
       end
  else None.

(** ** Lemmas *)

Lemma parse_digits_nonneg s : forall v n, 0 <= v -> parse_digits v s = Some n -> 0 <= n.
Proof.
  induction s as [|c s IH]; intros v n Hv; cbn [parse_digits]; [congruence|].
  destruct ((c <? 0x30) || (0x39 <? c)) eqn:E; [done|]. bools. apply IH. lia.
Qed.

(** A resolved pin is one of the chip's, with the ADC channel of its GPIO. *)
Lemma board_pin_lookup_ok label bp :
  board_pin_lookup label = Some bp ->
  0 <= gpio bp < IL_NGPIO /\ adc_channel bp = adc_channel_for_gpio (gpio bp).
Proof.
  unfold board_pin_lookup, IL_NGPIO.
  destruct (zlen label <? 3); [done|]. destruct (_ && _).
  - destruct (parse_uint _) as [k|] eqn:E; [|done]. unfold parse_uint in E.
    destruct ((_ =? 0) || _); [done|]. apply parse_digits_nonneg in E; [|done].
    destruct (Z.ltb_spec 2 k); [done|]. intros [= <-]. cbn [gpio adc_channel].
    unfold adc_channel_for_gpio. destruct (Z.leb_spec 26 (26 + k)), (Z.leb_spec (26 + k) 28); cbn [andb]; lia.
  - destruct (_ && _); [|done]. destruct (parse_uint _) as [n|] eqn:E; [|done]. unfold parse_uint in E.
    destruct ((_ =? 0) || _); [done|]. apply parse_digits_nonneg in E; [|done].
    destruct (Z.leb_spec 30 n); [done|]. intros [= <-]. cbn [gpio adc_channel]. lia.
Qed.
