(* ===== verification/IlHal.v ===== *)
(** The interlock pin HAL ([node/interlock/il_hal_rp2040.c]): the ownership
    table, and the SDK calls it makes on the pins as a log. *)
From stdpp Require Import relations.
From S2P Require Import Prelude.

Definition HAL_PIN_TABLE_SIZE : Z := 30.
Definition HAL_PIN_MODE_UNCLAIMED : Z := 0.
Definition HAL_PIN_MODE_GPIO_IN : Z := 1.
Definition HAL_PIN_MODE_GPIO_IN_PU : Z := 2.
Definition HAL_PIN_MODE_GPIO_IN_PD : Z := 3.
Definition HAL_PIN_MODE_GPIO_OUT : Z := 4.
Definition HAL_PIN_MODE_ADC_SCAN : Z := 5.

Definition HAL_PIN_CLAIM_OK : Z := 0.
Definition HAL_PIN_CLAIM_NO_SUCH_PIN : Z := 1.
Definition HAL_PIN_CLAIM_RESERVED : Z := 2.
Definition HAL_PIN_CLAIM_TAKEN : Z := 3.
Definition HAL_PIN_CLAIM_CAP_MISSING : Z := 4.
Definition HAL_PIN_CLAIM_BAD_MODE : Z := 5.
Definition HAL_PIN_CLAIM_VALUE_MISMATCH : Z := 6.

Record hal_pin_claim_record_t := mk_claim {
  slot_mask : Z; mode : Z; ok_value : Z; err_value : Z; adc_channel : Z; open_drain : Z
}.
#[export] Instance eta_claim : Settable hal_pin_claim_record_t := fun c =>
  mk_claim (slot_mask c) (mode c) (ok_value c) (err_value c) (adc_channel c) (open_drain c).
#[export] Instance claim_eq_dec : EqDecision hal_pin_claim_record_t.
Proof. solve_decision. Defined.

(** The SDK calls. *)
Inductive gpio_op :=
| GpioInit (id : Z) | GpioSetDir (id : Z) (out : bool) | GpioPut (id v : Z)
| GpioPullUp (id : Z) | GpioDisablePulls (id : Z).

Record hal_t := mk_hal {
  g_claims : list hal_pin_claim_record_t; g_claims_initialised : bool; gpio_log : list gpio_op
}.
#[export] Instance eta_hal : Settable hal_t := fun h =>
  mk_hal (g_claims h) (g_claims_initialised h) (gpio_log h).

(** The firmware's side of the HAL: which pins hwio exposes, for what. *)
Class IlPlat := {
  il_plat_pin_reserved : Z -> bool;
  il_plat_pin_cap : Z -> Z -> bool;
  il_plat_adc_channel : Z -> Z
}.

Definition claim0 : hal_pin_claim_record_t := mk_claim 0 0 0 0 0 0.
Definition claim_free : hal_pin_claim_record_t := mk_claim 0 HAL_PIN_MODE_UNCLAIMED 0 0 0xFF 0.
(** Static storage at boot. *)
Definition hal0 : hal_t := mk_hal (replicate 30 claim0) false [].

Definition ensure_initialised (h : hal_t) : hal_t :=
  if g_claims_initialised h then h
  else h <| g_claims := replicate 30 claim_free |> <| g_claims_initialised := true |>.

Definition claim_of (h : hal_t) (id : Z) : hal_pin_claim_record_t := zget claim0 (g_claims h) id.
Definition set_claim (id : Z) (f : hal_pin_claim_record_t -> hal_pin_claim_record_t) (h : hal_t) : hal_t :=
  h <| g_claims ::= fun l => zset l id (f (zget claim0 l id)) |>.
Definition log (ops : list gpio_op) (h : hal_t) : hal_t := h <| gpio_log ::= fun l => l ++ ops |>.

(** [(il_slotmask_t)(1u << slot)] *)
Definition slot_bit (slot : Z) : Z := u16 (u32 (Z.shiftl 1 slot)).

Section Hal.
Context `{IlPlat}.

Definition hal_pin_claim (phys_id slot m : Z) (h : hal_t) : Z * hal_t :=
  let h := ensure_initialised h in
  if HAL_PIN_TABLE_SIZE <=? phys_id then (HAL_PIN_CLAIM_NO_SUCH_PIN, h)
  else if negb (m =? HAL_PIN_MODE_GPIO_IN) && negb (m =? HAL_PIN_MODE_GPIO_IN_PU)
          && negb (m =? HAL_PIN_MODE_GPIO_IN_PD) then (HAL_PIN_CLAIM_BAD_MODE, h)
  else if il_plat_pin_reserved phys_id then (HAL_PIN_CLAIM_RESERVED, h)
  else if negb (il_plat_pin_cap phys_id m) then (HAL_PIN_CLAIM_CAP_MISSING, h)
  else
    let c := claim_of h phys_id in
    if negb (slot_mask c =? 0) && negb (slot_mask c =? slot_bit slot) then (HAL_PIN_CLAIM_TAKEN, h)
    else (HAL_PIN_CLAIM_OK,
          set_claim phys_id (fun c => c <| slot_mask := slot_bit slot |> <| mode := m |>
                                        <| ok_value := 0 |> <| err_value := 0 |>) h).

Definition hal_pin_claim_adc (phys_id slot : Z) (h : hal_t) : Z * hal_t :=
  let h := ensure_initialised h in
  if HAL_PIN_TABLE_SIZE <=? phys_id then (HAL_PIN_CLAIM_NO_SUCH_PIN, h)
  else
    let ch := il_plat_adc_channel phys_id in
    if ch =? 0xFF then (HAL_PIN_CLAIM_CAP_MISSING, h)
    else if il_plat_pin_reserved phys_id then (HAL_PIN_CLAIM_RESERVED, h)
    else (HAL_PIN_CLAIM_OK,
          set_claim phys_id (fun c => c <| slot_mask ::= fun m => Z.lor m (slot_bit slot) |>
                                        <| mode := HAL_PIN_MODE_ADC_SCAN |> <| ok_value := 0 |>
                                        <| err_value := 0 |> <| adc_channel := ch |>) h).

(** The calls that put [value] on a claimed output. *)
Definition hal_pin_apply_output (id value : Z) (h : hal_t) : hal_t :=
  let od := open_drain (claim_of h id) in
  if nz od then
    if nz value then
      log [GpioSetDir id false; if od =? 2 then GpioPullUp id else GpioDisablePulls id] h
    else log [GpioPut id 0; GpioSetDir id true] h
  else log [GpioPut id (if nz value then 1 else 0); GpioSetDir id true] h.

Definition hal_pin_claim_output (phys_id slot ok err od : Z) (h : hal_t) : Z * hal_t :=
  let h := ensure_initialised h in
  if HAL_PIN_TABLE_SIZE <=? phys_id then (HAL_PIN_CLAIM_NO_SUCH_PIN, h)
  else if (1 <? ok) || (1 <? err) || (2 <? od) then (HAL_PIN_CLAIM_BAD_MODE, h)
  else if ok =? err then (HAL_PIN_CLAIM_VALUE_MISMATCH, h)
  else if il_plat_pin_reserved phys_id then (HAL_PIN_CLAIM_RESERVED, h)
  else if negb (il_plat_pin_cap phys_id HAL_PIN_MODE_GPIO_OUT) then (HAL_PIN_CLAIM_CAP_MISSING, h)
  else
    let c := claim_of h phys_id in
    if negb (slot_mask c =? 0) then
      if negb (mode c =? HAL_PIN_MODE_GPIO_OUT) then (HAL_PIN_CLAIM_TAKEN, h)
      else if negb (ok_value c =? ok) || negb (err_value c =? err) || negb (open_drain c =? od)
      then (HAL_PIN_CLAIM_VALUE_MISMATCH, h)
      else (HAL_PIN_CLAIM_OK,
            set_claim phys_id (fun c => c <| slot_mask ::= fun m => Z.lor m (slot_bit slot) |>) h)
    else
      let h := log [GpioInit phys_id] h in
      let h := set_claim phys_id (fun c => c <| open_drain := od |> <| ok_value := ok |> <| err_value := err |>) h in
      let h := hal_pin_apply_output phys_id ok h in
      (HAL_PIN_CLAIM_OK,
       set_claim phys_id (fun c => c <| slot_mask := slot_bit slot |> <| mode := HAL_PIN_MODE_GPIO_OUT |>) h).
End Hal.

(** [il_plat_adc_latest] is what the shared area holds at the time of the call. *)
Definition hal_pin_read_adc (adc_latest : Z -> Z) (phys_id : Z) (h : hal_t) : Z :=
  let h := ensure_initialised h in
  if HAL_PIN_TABLE_SIZE <=? phys_id then 0
  else
    let c := claim_of h phys_id in
    if negb (mode c =? HAL_PIN_MODE_ADC_SCAN) || (adc_channel c =? 0xFF) then 0
    else adc_latest (adc_channel c).

(** One turn of the release loop. *)
Definition release_pin (slot id : Z) (h : hal_t) : hal_t :=
  if Z.land (slot_mask (claim_of h id)) (slot_bit slot) =? 0 then h
  else
    let h := set_claim id (fun c => c <| slot_mask ::= fun m => Z.land m (u16 (Z.lnot (slot_bit slot))) |>) h in
    let c := claim_of h id in
    if slot_mask c =? 0 then
      let h := if mode c =? HAL_PIN_MODE_GPIO_OUT
               then log [GpioSetDir id false; GpioDisablePulls id] h else h in
      set_claim id (fun c => c <| mode := HAL_PIN_MODE_UNCLAIMED |> <| ok_value := 0 |> <| err_value := 0 |>
                               <| open_drain := 0 |> <| adc_channel := 0xFF |>) h
    else h.

(** [for (id = 0; id < HAL_PIN_TABLE_SIZE; id++)] *)
Definition for_pins (f : Z -> hal_t -> hal_t) (h : hal_t) : hal_t :=
  foldl (fun h id => f (Z.of_nat id) h) h (seq 0 30).
Definition hal_pin_release_slot (slot : Z) (h : hal_t) : hal_t :=
  for_pins (release_pin slot) (ensure_initialised h).

Definition hal_pin_get_owners (phys_id : Z) (h : hal_t) : Z :=
  if HAL_PIN_TABLE_SIZE <=? phys_id then 0 else slot_mask (claim_of (ensure_initialised h) phys_id).
Definition hal_pin_get_mode (phys_id : Z) (h : hal_t) : Z :=
  if HAL_PIN_TABLE_SIZE <=? phys_id then HAL_PIN_MODE_UNCLAIMED else mode (claim_of (ensure_initialised h) phys_id).

(** [while (m) { m &= m - 1; bits++; }], at most 16 turns. *)
Fixpoint popcount (fuel : nat) (m bits : Z) : option Z :=
  if m =? 0 then Some bits
  else match fuel with
       | O => None
       | S fuel => popcount fuel (Z.land m (u16 (m - 1))) (bits + 1)
       end.

Definition claim_consistent (c : hal_pin_claim_record_t) : bool :=
  if slot_mask c =? 0 then true
  else if (mode c =? HAL_PIN_MODE_GPIO_OUT) || (mode c =? HAL_PIN_MODE_ADC_SCAN) then true
  else match popcount 16 (slot_mask c) 0 with Some bits => bits <=? 1 | None => false end.
Definition hal_pin_check_consistency (h : hal_t) : bool :=
  forallb claim_consistent (g_claims (ensure_initialised h)).

(** [gpio_get] is the pin's level at the time of the call. *)
Definition hal_pin_read (gpio_get : Z -> bool) (phys_id : Z) : Z :=
  if HAL_PIN_TABLE_SIZE <=? phys_id then 0 else if gpio_get phys_id then 1 else 0.

Definition drive_pin (veto_mask managed_mask id : Z) (h : hal_t) : hal_t :=
  let c := claim_of h id in
  if slot_mask c =? 0 then h
  else if negb (mode c =? HAL_PIN_MODE_GPIO_OUT) then h
  else if Z.land (slot_mask c) managed_mask =? 0 then h
  else hal_pin_apply_output id (if nz (Z.land (slot_mask c) veto_mask) then err_value c else ok_value c) h.
Definition hal_pin_drive_outputs (veto_mask managed_mask : Z) (h : hal_t) : hal_t :=
  for_pins (drive_pin veto_mask managed_mask) (ensure_initialised h).

(** ** The bus controller's platform ([app/bus_controller/main.c]), over the frozen
    hwio roles of GP2 to GP9 *)
Definition INTERLOCK_VETO_PIN : Z := 0.
Definition INTERLOCK_IN_PIN : Z := 1.
Definition HIL_GPIO_BASE : Z := 2.
Definition HIL_GPIO_COUNT : Z := 8.
Definition ADC0_GPIO : Z := 26.
Definition ADC_NCH : Z := 3.
Definition HWIO_ROLE_INPUT : Z := 1.
Definition HWIO_ROLE_INPUT_PULLUP : Z := 2.
Definition HWIO_ROLE_INPUT_PULLDOWN : Z := 3.
Definition HWIO_ROLE_OUTPUT : Z := 4.

Definition is_hil (g : Z) : bool := (HIL_GPIO_BASE <=? g) && (g <? HIL_GPIO_BASE + HIL_GPIO_COUNT).
Definition is_adc (g : Z) : bool := (ADC0_GPIO <=? g) && (g <? ADC0_GPIO + ADC_NCH).
Definition bc_pin_reserved (g : Z) : bool :=
  if g =? INTERLOCK_VETO_PIN then false
  else if g =? INTERLOCK_IN_PIN then false
  else if is_hil g then false
  else if is_adc g then false
  else true.
Definition bc_pin_cap (g_hwio_role : list Z) (g m : Z) : bool :=
  if m =? HAL_PIN_MODE_GPIO_OUT then
    if g =? INTERLOCK_VETO_PIN then true
    else if is_hil g then zget 0 g_hwio_role (g - HIL_GPIO_BASE) =? HWIO_ROLE_OUTPUT
    else false
  else if g =? INTERLOCK_IN_PIN then true
  else if is_hil g then
    let r := zget 0 g_hwio_role (g - HIL_GPIO_BASE) in
    (r =? HWIO_ROLE_INPUT) || (r =? HWIO_ROLE_INPUT_PULLUP) || (r =? HWIO_ROLE_INPUT_PULLDOWN)
  else false.
Definition bc_adc_channel (g : Z) : Z := if is_adc g then u8 (g - ADC0_GPIO) else 0xFF.
Definition bc_plat (g_hwio_role : list Z) : IlPlat := {|
  il_plat_pin_reserved := bc_pin_reserved; il_plat_pin_cap := bc_pin_cap g_hwio_role;
  il_plat_adc_channel := bc_adc_channel
|}.
(** GP2 to GP5 inputs, GP6 to GP9 outputs: the examples' hwio map. *)
Definition open_plat : IlPlat := bc_plat [1; 1; 2; 3; 4; 4; 4; 4].

(** ** Specification *)

Definition input_mode (m : Z) : Prop :=
  m = HAL_PIN_MODE_GPIO_IN \/ m = HAL_PIN_MODE_GPIO_IN_PU \/ m = HAL_PIN_MODE_GPIO_IN_PD.

(** What a table entry may look like. *)
Inductive claim_ok (c : hal_pin_claim_record_t) : Prop :=
| co_free : slot_mask c = 0 -> mode c = HAL_PIN_MODE_UNCLAIMED -> claim_ok c
| co_input s : 0 <= s < 16 -> slot_mask c = 2 ^ s -> input_mode (mode c) -> claim_ok c
| co_output : 0 < slot_mask c < 2 ^ 16 -> mode c = HAL_PIN_MODE_GPIO_OUT ->
    0 <= ok_value c <= 1 -> 0 <= err_value c <= 1 -> ok_value c <> err_value c ->
    0 <= open_drain c <= 2 -> claim_ok c
| co_adc : 0 < slot_mask c < 2 ^ 16 -> mode c = HAL_PIN_MODE_ADC_SCAN -> adc_channel c <> 0xFF -> claim_ok c.

Definition hal_ok (h : hal_t) : Prop :=
  let h := ensure_initialised h in length (g_claims h) = 30%nat /\ Forall claim_ok (g_claims h).

(** Everything the callers of the HAL can do to it, for slots of the mask. *)
Inductive hal_step `{IlPlat} : hal_t -> hal_t -> Prop :=
| hs_claim id slot m h : 0 <= id -> 0 <= slot < 16 -> hal_step h (hal_pin_claim id slot m h).2
| hs_adc id slot h : 0 <= id -> 0 <= slot < 16 -> hal_step h (hal_pin_claim_adc id slot h).2
| hs_output id slot ok err od h : 0 <= id -> 0 <= slot < 16 -> 0 <= ok -> 0 <= err -> 0 <= od ->
    hal_step h (hal_pin_claim_output id slot ok err od h).2
| hs_release slot h : 0 <= slot < 16 -> hal_step h (hal_pin_release_slot slot h)
| hs_drive veto managed h : hal_step h (hal_pin_drive_outputs veto managed h).

(** The SDK calls that realise a level on an output of kind [od]. *)
Definition output_ops (id od value : Z) : list gpio_op :=
  if nz od then
    if nz value then [GpioSetDir id false; if od =? 2 then GpioPullUp id else GpioDisablePulls id]
    else [GpioPut id 0; GpioSetDir id true]
  else [GpioPut id (if nz value then 1 else 0); GpioSetDir id true].

(** What the drive phase owes a pin: nothing, or the OR-of-vetoes level. *)
Definition drive_spec (veto managed : Z) (h : hal_t) (id : Z) : list gpio_op :=
  let c := claim_of h id in
  if (mode c =? HAL_PIN_MODE_GPIO_OUT) && nz (Z.land (slot_mask c) managed)
  then output_ops id (open_drain c) (if nz (Z.land (slot_mask c) veto) then err_value c else ok_value c)
  else [].

(** A state whose table is set up and sound. *)
Definition hal_good (h : hal_t) : Prop :=
  g_claims_initialised h = true /\ length (g_claims h) = 30%nat /\ Forall claim_ok (g_claims h).

(** The pin's owners without [slot]; the last one out frees the pin. *)
Definition mask_without (slot m : Z) : Z := Z.land m (u16 (Z.lnot (slot_bit slot))).

(** ** Lemmas *)

Lemma slot_bit_val slot : 0 <= slot < 16 -> slot_bit slot = 2 ^ slot.
Proof.
  intros Hs. unfold slot_bit, u16, u32. rewrite Z.shiftl_1_l.
  pose proof (Z.pow_pos_nonneg 2 slot ltac:(lia) ltac:(lia)).
  pose proof (Z.pow_lt_mono_r 2 slot 16 ltac:(lia) ltac:(lia) ltac:(lia)).
  rewrite !Z.mod_small; rewrite ?Z.mod_small; lia.
Qed.

Lemma slot_bit_pos slot : 0 <= slot < 16 -> 0 < slot_bit slot < 2 ^ 16.
Proof.
  intros Hs. rewrite slot_bit_val by done. split; [apply Z.pow_pos_nonneg; lia|].
  apply Z.pow_lt_mono_r; lia.
Qed.

Lemma lor_mask m slot : fits 16 m -> 0 <= slot < 16 -> 0 < Z.lor m (slot_bit slot) < 2 ^ 16.
Proof.
  intros Hm Hs. pose proof (slot_bit_pos slot Hs) as Hb.
  assert (H0 : 0 <= Z.lor m (slot_bit slot)) by (apply Z.lor_nonneg; unfold fits in Hm; lia).
  assert (Hne : Z.lor m (slot_bit slot) <> 0).
  { intros E. apply Z.lor_eq_0_iff in E. lia. }
  split; [lia|]. destruct (Z.eq_dec (Z.lor m (slot_bit slot)) 0); [lia|].
  apply Z.log2_lt_pow2; [lia|]. rewrite Z.log2_lor by (unfold fits in Hm; lia).
  apply Z.max_lub_lt.
  - destruct (Z.eq_dec m 0) as [-> |]; [done|]. apply Z.log2_lt_pow2; unfold fits in Hm; lia.
  - apply Z.log2_lt_pow2; lia.
Qed.

Lemma land_mask m k : fits 16 m -> 0 <= k -> 0 <= Z.land m k < 2 ^ 16.
Proof.
  intros Hm Hk. assert (H0 : 0 <= Z.land m k) by (apply Z.land_nonneg; lia). split; [done|].
  destruct (Z.eq_dec (Z.land m k) 0) as [-> |]; [done|]. apply Z.log2_lt_pow2; [lia|].
  eapply Z.le_lt_trans; [apply Z.log2_land; unfold fits in Hm; lia|].
  eapply Z.le_lt_trans; [apply Z.le_min_l|].
  destruct (Z.eq_dec m 0) as [-> |]; [done|]. apply Z.log2_lt_pow2; unfold fits in Hm; lia.
Qed.

Lemma claim_ok_mask c : claim_ok c -> fits 16 (slot_mask c).
Proof.
  unfold fits. intros [-> _|s Hs -> _|? _|? _]; try lia. split; [apply Z.pow_nonneg; lia|].
  apply Z.pow_lt_mono_r; lia.
Qed.

Lemma claim_ok_nonzero c : claim_ok c -> slot_mask c <> 0 ->
  mode c <> HAL_PIN_MODE_UNCLAIMED.
Proof.
  unfold input_mode. intros [? ?|s Hs ? Hm|? Hm|? Hm] Hne; try done; rewrite ?Hm; try done.
  destruct Hm as [->|[-> | ->]]; done.
Qed.

Lemma ensure_idem h : g_claims_initialised h = true -> ensure_initialised h = h.
Proof. intros E. unfold ensure_initialised. by rewrite E. Qed.
Lemma ensure_initialised_done h : g_claims_initialised (ensure_initialised h) = true.
Proof. unfold ensure_initialised. destruct (g_claims_initialised h) eqn:E; [done|]. reflexivity. Qed.

Lemma hal_good_ensure h : hal_ok h -> hal_good (ensure_initialised h).
Proof. intros [Hl Hf]. split; [apply ensure_initialised_done|done]. Qed.
Lemma hal_good_ok h : hal_good h -> hal_ok h.
Proof. intros (Hi & Hl & Hf). unfold hal_ok. by rewrite ensure_idem. Qed.

Lemma claim_of_ok h id : hal_good h -> 0 <= id < 30 -> claim_ok (claim_of h id).
Proof.
  intros (_ & Hl & Hf) Hid. destruct (lookup_lt_is_Some_2 (g_claims h) (Z.to_nat id) ltac:(lia)) as [c Hc].
  unfold claim_of. rewrite (zget_lookup claim0 c) by (done || lia). by eapply Forall_lookup_1.
Qed.

Lemma set_claim_good id f h :
  hal_good h -> (0 <= id < 30 -> claim_ok (f (claim_of h id))) -> hal_good (set_claim id f h).
Proof.
  intros (Hi & Hl & Hf) H. unfold hal_good, set_claim, field_map. cbn [g_claims g_claims_initialised].
  split; [done|]. split; [by rewrite zlen_zset|]. unfold zset.
  destruct (Z.ltb_spec id 0); [done|]. destruct (decide (id < 30)) as [Hlt|Hge].
  - apply Forall_insert; [done|]. by apply H.
  - by rewrite list_insert_ge by lia.
Qed.

Lemma claim_of_set_eq id f h : hal_good h -> 0 <= id < 30 -> claim_of (set_claim id f h) id = f (claim_of h id).
Proof.
  intros (_ & Hl & _) Hid. unfold claim_of, set_claim, field_map. cbn [g_claims].
  apply zget_zset_eq. unfold zlen. lia.
Qed.
Lemma claim_of_set_ne id id' f h : id <> id' -> 0 <= id' -> claim_of (set_claim id f h) id' = claim_of h id'.
Proof. intros. unfold claim_of, set_claim, field_map. cbn [g_claims]. by apply zget_zset_ne. Qed.

Lemma log_good ops h : hal_good h -> hal_good (log ops h).
Proof. done. Qed.
Lemma claim_of_log ops h id : claim_of (log ops h) id = claim_of h id.
Proof. done. Qed.

Lemma apply_output_log id v h :
  hal_pin_apply_output id v h = log (output_ops id (open_drain (claim_of h id)) v) h.
Proof. unfold hal_pin_apply_output, output_ops. by destruct (nz (open_drain _)), (nz v). Qed.

Lemma for_pins_ind (P : hal_t -> Prop) f h :
  P h -> (forall id h, 0 <= id < 30 -> P h -> P (f id h)) -> P (for_pins f h).
Proof.
  intros Hh Hf. unfold for_pins.
  assert (H : Forall (fun i => 0 <= Z.of_nat i < 30) (seq 0 30)).
  { apply Forall_forall. intros i Hi%elem_of_seq. lia. }
  revert h Hh. induction H as [|i l Hi _ IH]; intros h Hh; [done|]. cbn [foldl]. by apply IH, Hf.
Qed.

(** *** Every operation keeps the table sound *)
Section Invariant.
Context `{IlPlat}.

Lemma claim_good id slot m h :
  hal_good h -> 0 <= id -> 0 <= slot < 16 -> hal_good (hal_pin_claim id slot m h).2.
Proof.
  intros Hg Hid Hs. unfold hal_pin_claim. rewrite ensure_idem by apply Hg.
  destruct (HAL_PIN_TABLE_SIZE <=? id); [done|].
  match goal with |- context [if ?b then (HAL_PIN_CLAIM_BAD_MODE, _) else _] => destruct b eqn:Em end; [done|].
  destruct (il_plat_pin_reserved id); [done|]. destruct (negb (il_plat_pin_cap id m)); [done|].
  cbv zeta. match goal with |- context [if ?b then (HAL_PIN_CLAIM_TAKEN, _) else _] => destruct b end; [done|].
  apply set_claim_good; [done|]. intros _.
  apply (co_input _ slot); [done| |].
  - unfold field_map. cbn [slot_mask]. by apply slot_bit_val.
  - unfold field_map, input_mode. cbn [mode]. revert Em.
    destruct (Z.eqb_spec m HAL_PIN_MODE_GPIO_IN); [by left|].
    destruct (Z.eqb_spec m HAL_PIN_MODE_GPIO_IN_PU); [by right; left|].
    destruct (Z.eqb_spec m HAL_PIN_MODE_GPIO_IN_PD); [by right; right|done].
Qed.

Lemma claim_adc_good id slot h :
  hal_good h -> 0 <= id -> 0 <= slot < 16 -> hal_good (hal_pin_claim_adc id slot h).2.
Proof.
  intros Hg Hid Hs. unfold hal_pin_claim_adc. rewrite ensure_idem by apply Hg.
  destruct (HAL_PIN_TABLE_SIZE <=? id); [done|]. cbv zeta.
  destruct (Z.eqb_spec (il_plat_adc_channel id) 0xFF); [done|]. destruct (il_plat_pin_reserved id); [done|].
  apply set_claim_good; [done|]. intros Hr. pose proof (claim_ok_mask _ (claim_of_ok h id Hg Hr)).
  apply co_adc; unfold field_map; cbn [slot_mask mode adc_channel]; [|done|done]. by apply lor_mask.
Qed.

Lemma claim_output_good id slot ok err od h :
  hal_good h -> 0 <= id -> 0 <= slot < 16 -> 0 <= ok -> 0 <= err -> 0 <= od ->
  hal_good (hal_pin_claim_output id slot ok err od h).2.
Proof.
  intros Hg Hid Hs Hok Herr Hod. unfold hal_pin_claim_output. rewrite ensure_idem by apply Hg.
  unfold HAL_PIN_TABLE_SIZE. destruct (Z.leb_spec 30 id); [done|]. destruct ((1 <? ok) || (1 <? err) || (2 <? od)) eqn:Ev; [done|].
  destruct (Z.eqb_spec ok err); [done|]. destruct (il_plat_pin_reserved id); [done|].
  destruct (negb (il_plat_pin_cap _ _)); [done|]. cbv zeta. bools.
  pose proof (claim_of_ok h id Hg ltac:(lia)) as Hc.
  destruct (Z.eqb_spec (slot_mask (claim_of h id)) 0) as [E0|E0]; cbn [negb].
  - (* the first claim *)
    apply set_claim_good.
    + rewrite apply_output_log. apply log_good, set_claim_good; [done|]. intros _.
      rewrite claim_of_log. destruct Hc; [|lia|lia|lia]. by apply co_free.
    + intros _. rewrite apply_output_log, claim_of_log, claim_of_set_eq by (done || lia).
      apply co_output; unfold field_map; cbn [slot_mask mode ok_value err_value open_drain]; try lia.
      by apply slot_bit_pos.
  - destruct (Z.eqb_spec (mode (claim_of h id)) HAL_PIN_MODE_GPIO_OUT) as [Em|]; [|done]. cbn [negb].
    match goal with |- context [if ?b then (HAL_PIN_CLAIM_VALUE_MISMATCH, _) else _] => destruct b end; [done|].
    apply set_claim_good; [done|]. intros _.
    pose proof (claim_ok_mask _ Hc) as Hf.
    destruct Hc as [?|s ? ? Hm|? ? ? ? ? ?|? Hm]; [done|..].
    + unfold input_mode in Hm. rewrite Em in Hm. by destruct Hm as [?|[?|?]].
    + apply co_output; unfold field_map; cbn [slot_mask mode ok_value err_value open_drain]; try done.
      by apply lor_mask.
    + by rewrite Em in Hm.
Qed.

End Invariant.

Lemma zset_zset {A} (l : list A) i v w : zset (zset l i v) i w = zset l i w.
Proof. unfold zset. destruct (i <? 0); [done|]. apply list_insert_insert_eq. Qed.

Lemma set_claim_twice id f g h : hal_good h -> 0 <= id < 30 ->
  set_claim id g (set_claim id f h) = set_claim id (fun c => g (f c)) h.
Proof.
  intros (_ & Hl & _) Hid. unfold set_claim, field_map. cbn [g_claims g_claims_initialised gpio_log].
  rewrite zset_zset, zget_zset_eq; [done|]. unfold zlen. lia.
Qed.

Lemma set_claim_ext id f g h : f (claim_of h id) = g (claim_of h id) -> set_claim id f h = set_claim id g h.
Proof. unfold set_claim, claim_of, field_map. by intros ->. Qed.

Lemma log_nil h : log [] h = h.
Proof. destruct h. unfold log, field_map. cbn. by rewrite app_nil_r. Qed.

Lemma release_pin_eq slot id h : hal_good h -> 0 <= id < 30 ->
  let c := claim_of h id in
  let m' := mask_without slot (slot_mask c) in
  release_pin slot id h =
  if Z.land (slot_mask c) (slot_bit slot) =? 0 then h
  else if m' =? 0 then
    log (if mode c =? HAL_PIN_MODE_GPIO_OUT then [GpioSetDir id false; GpioDisablePulls id] else [])
      (set_claim id (fun _ => claim_free) h)
  else set_claim id (fun c => c <| slot_mask := m' |>) h.
Proof.
  intros Hg Hid c m'. unfold release_pin. fold c. destruct (Z.land (slot_mask c) (slot_bit slot) =? 0); [done|].
  rewrite !claim_of_set_eq by done. fold c. unfold field_map. cbn [slot_mask mode ok_value err_value adc_channel open_drain].
  fold (mask_without slot (slot_mask c)). fold m'. destruct (Z.eqb_spec m' 0) as [E|E]; [|done].
  assert (Hlog : forall f g o, set_claim id g (log o (set_claim id f h)) = log o (set_claim id (fun c => g (f c)) h)).
  { intros f g o. rewrite <- (set_claim_twice id f g h) by done. done. }
  destruct (mode c =? HAL_PIN_MODE_GPIO_OUT); [rewrite Hlog; f_equal|rewrite set_claim_twice, log_nil by done];
    apply set_claim_ext; fold c; cbn [slot_mask mode ok_value err_value adc_channel open_drain];
    fold (mask_without slot (slot_mask c)); fold m'; by rewrite E.
Qed.

Lemma mask_without_range slot m : fits 16 m -> 0 <= mask_without slot m < 2 ^ 16.
Proof. intros Hm. apply land_mask; [done|apply u16_fits]. Qed.

(** Removing a bit, bit by bit. *)
Lemma mask_without_bit slot m i : fits 16 m -> 0 <= slot < 16 -> 0 <= i ->
  Z.testbit (mask_without slot m) i = Z.testbit m i && negb (i =? slot).
Proof.
  intros Hm Hs Hi. unfold mask_without. rewrite slot_bit_val by done. rewrite Z.land_spec.
  unfold u16. destruct (Z.ltb_spec i 16).
  - rewrite Z.mod_pow2_bits_low by done. rewrite Z.lnot_spec, Z.pow2_bits_eqb by lia.
    by rewrite (Z.eqb_sym slot i).
  - replace m with (m mod 2 ^ 16) by by apply Z.mod_small.
    rewrite !Z.mod_pow2_bits_high by lia. by rewrite andb_false_r.
Qed.

Lemma release_pin_good slot id h :
  hal_good h -> 0 <= slot < 16 -> 0 <= id < 30 -> hal_good (release_pin slot id h).
Proof.
  intros Hg Hs Hid. rewrite release_pin_eq by done. pose proof (claim_of_ok h id Hg Hid) as Hc.
  pose proof (claim_ok_mask _ Hc) as Hf.
  destruct (Z.eqb_spec (Z.land (slot_mask (claim_of h id)) (slot_bit slot)) 0) as [|Hne]; [done|].
  destruct (Z.eqb_spec (mask_without slot (slot_mask (claim_of h id))) 0) as [|Hm].
  - apply log_good, set_claim_good; [done|]. intros _. by apply co_free.
  - apply set_claim_good; [done|]. intros _. pose proof (mask_without_range slot _ Hf).
    destruct Hc as [E0 ?|s Hs' Em Him|? ? ? ? ? ?|? ? ?].
    + rewrite E0, Z.land_0_l in Hne. done.
    + destruct Hm. rewrite Em in Hne, Hf. rewrite Em. apply Z.bits_inj'. intros i Hi. rewrite Z.bits_0.
      rewrite mask_without_bit by done. rewrite Z.pow2_bits_eqb by lia.
      destruct (Z.eqb_spec s i) as [<- |]; [|done].
      destruct (Z.eqb_spec s slot); [done|]. destruct Hne. rewrite slot_bit_val by done.
      apply Z.bits_inj'. intros j Hj. rewrite Z.land_spec, !Z.pow2_bits_eqb, Z.bits_0 by lia.
      destruct (Z.eqb_spec s j), (Z.eqb_spec slot j); try done. lia.
    + apply co_output; unfold field_map; cbn [slot_mask mode ok_value err_value open_drain]; try done. lia.
    + apply co_adc; unfold field_map; cbn [slot_mask mode adc_channel]; try done. lia.
Qed.

Lemma release_slot_good slot h :
  hal_good (ensure_initialised h) -> 0 <= slot < 16 -> hal_good (hal_pin_release_slot slot h).
Proof.
  intros Hg Hs. unfold hal_pin_release_slot. apply for_pins_ind; [done|].
  intros id h' Hid Hg'. by apply release_pin_good.
Qed.

(** *** The drive phase, as the calls it makes *)
Lemma drive_pin_log veto managed id h :
  drive_pin veto managed id h = log (drive_spec veto managed h id) h.
Proof.
  unfold drive_pin, drive_spec. assert (Hnil : h = log [] h).
  { destruct h. unfold log, field_map. cbn. by rewrite app_nil_r. }
  destruct (Z.eqb_spec (slot_mask (claim_of h id)) 0) as [-> |].
  { rewrite !Z.land_0_l. by rewrite andb_false_r. }
  destruct (mode (claim_of h id) =? HAL_PIN_MODE_GPIO_OUT); cbn [negb andb]; [|exact Hnil].
  change (nz (Z.land (slot_mask (claim_of h id)) managed))
    with (negb (Z.land (slot_mask (claim_of h id)) managed =? 0)).
  destruct (Z.land (slot_mask (claim_of h id)) managed =? 0); cbn [negb]; [exact Hnil|].
  apply apply_output_log.
Qed.

Lemma log_log o1 o2 h : log o2 (log o1 h) = log (o1 ++ o2) h.
Proof. unfold log, field_map. cbn [gpio_log g_claims g_claims_initialised]. by rewrite app_assoc. Qed.

Lemma for_pins_log (spec : hal_t -> Z -> list gpio_op) f h :
  (forall id h, f id h = log (spec h id) h) -> (forall o h id, spec (log o h) id = spec h id) ->
  for_pins f h = log (concat (map (spec h) (map Z.of_nat (seq 0 30)))) h.
Proof.
  intros Hf Hs. unfold for_pins.
  assert (H : forall l o, foldl (fun h id => f (Z.of_nat id) h) (log o h) l
    = log (o ++ concat (map (spec h) (map Z.of_nat l))) h).
  { induction l as [|i l IH]; intros o; cbn [foldl map concat]; [by rewrite app_nil_r|].
    rewrite Hf, log_log, IH, Hs. by rewrite <- app_assoc. }
  pose proof (H (seq 0 30) []) as E. rewrite log_nil in E. exact E.
Qed.

Lemma drive_outputs_log veto managed h :
  g_claims_initialised h = true ->
  hal_pin_drive_outputs veto managed h =
  log (concat (map (drive_spec veto managed h) (map Z.of_nat (seq 0 30)))) h.
Proof.
  intros Hi. unfold hal_pin_drive_outputs. rewrite ensure_idem by done.
  apply for_pins_log; [intros; apply drive_pin_log|done].
Qed.

(** A sound table passes the code's own consistency check. *)
Lemma popcount_pow2 s fuel bits : 0 <= s < 16 -> popcount (S fuel) (2 ^ s) bits = Some (bits + 1).
Proof.
  intros Hs. pose proof (Z.pow_pos_nonneg 2 s ltac:(lia) ltac:(lia)). cbn [popcount].
  destruct (Z.eqb_spec (2 ^ s) 0); [lia|].
  assert (E : Z.land (2 ^ s) (u16 (2 ^ s - 1)) = 0).
  { pose proof (Z.pow_lt_mono_r 2 s 16 ltac:(lia) ltac:(lia) ltac:(lia)). unfold u16.
    rewrite Z.mod_small by lia. replace (2 ^ s - 1) with (Z.ones s) by (rewrite Z.ones_equiv; lia). rewrite Z.land_ones by lia.
    apply Z.mod_same. lia. }
  rewrite E. by destruct fuel.
Qed.

Lemma claim_ok_consistent c : claim_ok c -> claim_consistent c = true.
Proof.
  unfold claim_consistent. intros [-> ?|s Hs -> Hm|? -> ? ? ? ?|? -> ?]; [done|..].
  - destruct (2 ^ s =? 0); [done|]. destruct (_ || _); [done|].
    by rewrite (popcount_pow2 s 15 0 Hs).
  - by destruct (_ =? 0).
  - by destruct (_ =? 0).
Qed.

Lemma hal_good_consistent h : hal_good h -> hal_pin_check_consistency h = true.
Proof.
  intros (Hi & _ & Hf). unfold hal_pin_check_consistency. rewrite ensure_idem by done.
  apply forallb_forall. intros c Hc%list_elem_of_In. rewrite Forall_forall in Hf.
  by apply claim_ok_consistent, Hf.
Qed.

Lemma hal_ok_reach `{IlPlat} h h' : hal_ok h -> hal_step h h' -> hal_ok h'.
Proof.
  intros Hok Hs. apply hal_good_ensure in Hok as Hg.
  destruct Hs as [id slot m h Hid Hs|id slot h Hid Hs|id slot ok err od h Hid Hs ? ? ?|slot h Hs|veto managed h].
  - assert (E : hal_pin_claim id slot m h = hal_pin_claim id slot m (ensure_initialised h)).
    { unfold hal_pin_claim. by rewrite (ensure_idem (ensure_initialised h)) by apply Hg. }
    rewrite E. by apply hal_good_ok, claim_good.
  - assert (E : hal_pin_claim_adc id slot h = hal_pin_claim_adc id slot (ensure_initialised h)).
    { unfold hal_pin_claim_adc. by rewrite (ensure_idem (ensure_initialised h)) by apply Hg. }
    rewrite E. by apply hal_good_ok, claim_adc_good.
  - assert (E : hal_pin_claim_output id slot ok err od h = hal_pin_claim_output id slot ok err od (ensure_initialised h)).
    { unfold hal_pin_claim_output. by rewrite (ensure_idem (ensure_initialised h)) by apply Hg. }
    rewrite E. by apply hal_good_ok, claim_output_good.
  - by apply hal_good_ok, release_slot_good.
  - apply hal_good_ok. unfold hal_pin_drive_outputs. apply for_pins_ind; [done|].
    intros id h' _ Hg'. rewrite drive_pin_log. by apply log_good.
Qed.

(** ** Properties *)



(** C35. OR of vetoes: one drive phase puts on every output pin with a managed owner
    its error level if any of its owners is vetoing and its OK level otherwise, once,
    as the pin's kind (push-pull or open-drain) requires, and touches no other pin. *)
Theorem hal_drive_or_of_vetoes veto managed h :
  g_claims_initialised h = true ->
  g_claims (hal_pin_drive_outputs veto managed h) = g_claims h /\
  gpio_log (hal_pin_drive_outputs veto managed h) =
  gpio_log h ++ concat (map (fun id =>
    let c := claim_of h id in
    if (mode c =? HAL_PIN_MODE_GPIO_OUT) && nz (Z.land (slot_mask c) managed)
    then output_ops id (open_drain c) (if nz (Z.land (slot_mask c) veto) then err_value c else ok_value c)
    else []) (map Z.of_nat (seq 0 30))).
Proof. intros Hi. rewrite drive_outputs_log by done. done. Qed.

Lemma hal_drive_or_of_vetoes_witness :
  let h := (@hal_pin_claim_output open_plat 0 5 1 0 1 (@hal_pin_claim_output open_plat 0 1 1 0 1 hal0).2).2 in
  gpio_log (hal_pin_drive_outputs 32 0x3FF h) = gpio_log h ++ [GpioPut 0 0; GpioSetDir 0 true].
Proof.
  intros h. etrans; [apply (proj2 (hal_drive_or_of_vetoes 32 0x3FF h eq_refl))|].
  vm_compute. reflexivity.
Defined.
