(* ===== verification/InterlockDsl.v ===== *)
(** The interlock text language ([node/interlock/interlock_dsl.c]): a
    recursive-descent parser over the text still to be read. The C parser keeps
    a position; here the state keeps the rest of the text, whose length gives the
    position back. *)
From Stdlib Require Import Ascii.
From S2P Require Import Prelude IlPinTable.

(** The characters of a C string literal. *)
Definition lit (s : string) : list Z :=
  map (fun a => Z.of_N (N_of_ascii a)) (String.list_ascii_of_string s).

(** ** Data ([interlock.h]) *)
Definition IL_NAME_MAX : Z := 16.
Definition IL_DSL_MAX : Z := 128.
Definition IL_MAX_INPUTS : Z := 7.
Definition IL_MAX_WATCHES : Z := 8.
Definition IL_MAX_OUTPUTS : Z := 2.

Definition IL_PIN_MODE_IN : Z := 0.
Definition IL_PIN_MODE_IN_PU : Z := 1.
Definition IL_PIN_MODE_IN_PD : Z := 2.
Definition IL_PIN_MODE_OUT : Z := 3.
Definition IL_PIN_MODE_ADC : Z := 4.
Definition IL_PIN_MODE_VIRTUAL : Z := 5.
Definition IL_PIN_MODE_ADC_STREAM : Z := 6.

Definition IL_VIRT_T_SINCE_M2S : Z := 0xF0.
Definition IL_VIRT_UPTIME : Z := 0xF1.
Definition IL_VIRT_STACK_HWM : Z := 0xF2.
Definition IL_VIRT_NODES_DEAD : Z := 0xF3.
Definition IL_VIRT_ADC_BASE : Z := 0xE0.
Definition IL_VIRT_ADC_COUNT : Z := 12.

Definition IL_OP_EQ : Z := 0.
Definition IL_OP_NE : Z := 1.
Definition IL_OP_LT : Z := 2.
Definition IL_OP_GT : Z := 3.
Definition IL_OP_LE : Z := 4.
Definition IL_OP_GE : Z := 5.

Definition IL_TF_UNEVALUATED : Z := 0.
Definition IL_TF_TRUE : Z := 1.
Definition IL_TF_FALSE : Z := 2.

Record il_input_t := mk_input {
  in_phys : Z; in_mode : Z; oversample_exp : Z; sh_cyc : Z; debounce_depth : Z; hyst : Z
}.
Record il_watch_t := mk_watch { input_idx : Z; op : Z; threshold : Z; group : Z }.
Record il_output_t := mk_output { out_phys : Z; ok_val : Z; err_val : Z; od : Z }.
#[export] Instance eta_output : Settable il_output_t := fun o =>
  mk_output (out_phys o) (ok_val o) (err_val o) (od o).

(** The arrays as the lists of their used entries: the counts are the lengths. *)
Record il_inst_t := mk_inst {
  name : list Z; tf_state : Z;
  inputs : list il_input_t; watches : list il_watch_t; outputs : list il_output_t
}.
#[export] Instance eta_inst : Settable il_inst_t := fun i =>
  mk_inst (name i) (tf_state i) (inputs i) (watches i) (outputs i).
Definition inst0 : il_inst_t := mk_inst (replicate 16 0) 0 [] [] [].

Definition IL_PARSE_OK : Z := 0.
Definition IL_PARSE_UNEXPECTED_CHAR : Z := 1.
Definition IL_PARSE_BAD_NUMBER : Z := 3.
Definition IL_PARSE_UNKNOWN_KEYWORD : Z := 4.
Definition IL_PARSE_UNKNOWN_PIN : Z := 5.
Definition IL_PARSE_UNKNOWN_MODE : Z := 6.
Definition IL_PARSE_TOO_MANY_INPUTS : Z := 7.
Definition IL_PARSE_TOO_MANY_WATCHES : Z := 8.
Definition IL_PARSE_TOO_MANY_OUTPUTS : Z := 9.
Definition IL_PARSE_NAME_TOO_LONG : Z := 10.
Definition IL_PARSE_DUPLICATE_PIN : Z := 11.
Definition IL_PARSE_WATCH_INPUT_UNDECL : Z := 12.
Definition IL_PARSE_OUTPUT_UNDECL : Z := 13.
Definition IL_PARSE_OUTPUT_VALUE_MISMATCH : Z := 14.
Definition IL_PARSE_MISSING_OUT_OK : Z := 15.
Definition IL_PARSE_MISSING_OUT_ERR : Z := 16.
Definition IL_PARSE_EMPTY : Z := 17.
Definition IL_PARSE_UNKNOWN_OP : Z := 18.
Definition IL_PARSE_OVERSAMPLE_OUT_OF_RANGE : Z := 19.
Definition IL_PARSE_SH_OUT_OF_RANGE : Z := 20.
Definition IL_PARSE_MODIFIER_ON_GPIO : Z := 21.
Definition IL_PARSE_THRESHOLD_OUT_OF_RANGE : Z := 22.
Definition IL_PARSE_HYST_NOT_ON_ADC : Z := 23.
Definition IL_PARSE_DEBOUNCE_NOT_ON_GPIO : Z := 24.
Definition IL_PARSE_DEBOUNCE_OUT_OF_RANGE : Z := 25.
Definition IL_PARSE_UNKNOWN_VIRTUAL : Z := 26.
Definition IL_PARSE_HYST_ON_EQ_NE : Z := 27.

(** ** Parser state *)
Record parser_t := mk_parser { rest : list Z; inst : il_inst_t }.
#[export] Instance eta_parser : Settable parser_t := fun p => mk_parser (rest p) (inst p).

Inductive pres (A : Type) := POk (a : A) (p : parser_t) | PErr (st : Z) (p : parser_t) | PFuel.
Arguments POk {A} a p.
Arguments PErr {A} st p.
Arguments PFuel {A}.

Definition dsl (A : Type) := parser_t -> pres A.
Definition dret {A} (a : A) : dsl A := fun p => POk a p.
Definition dfail {A} (st : Z) : dsl A := fun p => PErr st p.
Definition dbind {A B} (m : dsl A) (f : A -> dsl B) : dsl B := fun p =>
  match m p with POk a p => f a p | PErr st p => PErr st p | PFuel => PFuel end.
Definition dinst : dsl il_inst_t := fun p => POk (inst p) p.
Definition dmodify (f : il_inst_t -> il_inst_t) : dsl unit := fun p => POk tt (p <| inst ::= f |>).

Declare Scope dsl_scope.
Notation "x <-- m ;; k" := (dbind m (fun x => k))
  (at level 100, m at next level, right associativity) : dsl_scope.
Notation "m ;;; k" := (dbind m (fun _ => k)) (at level 100, right associativity) : dsl_scope.
#[local] Open Scope dsl_scope.

(** ** Characters *)
Definition at_end (p : parser_t) : bool := match rest p with [] => true | _ => false end.
Definition peek (p : parser_t) : Z := match rest p with [] => 0 | c :: _ => c end.
Definition is_space (c : Z) : bool := (c =? 0x20) || (c =? 0x09) || (c =? 0x0D) || (c =? 0x0A).
Definition is_ident_start (c : Z) : bool :=
  ((0x61 <=? c) && (c <=? 0x7A)) || ((0x41 <=? c) && (c <=? 0x5A)) || (c =? 0x5F).
Definition is_digit (c : Z) : bool := (0x30 <=? c) && (c <=? 0x39).
Definition is_ident_cont (c : Z) : bool := is_ident_start c || is_digit c.

(** [while (!at_end(p) && q( *p)) p->pos++]: what is passed over, and the rest. *)
Fixpoint span (q : Z -> bool) (l : list Z) : list Z * list Z :=
  match l with
  | [] => ([], [])
  | c :: l => if q c then let '(a, b) := span q l in (c :: a, b) else ([], c :: l)
  end.

Definition skip_ws : dsl unit := fun p => POk tt (p <| rest ::= fun l => (span is_space l).2 |>).
(** [false] is [None]; the length of an identifier is a byte. *)
Definition read_ident : dsl (option (list Z)) :=
  skip_ws;;; fun p =>
  if at_end p || negb (is_ident_start (peek p)) then POk None p
  else let '(id, r) := span is_ident_cont (rest p) in
       POk (Some (take (Z.to_nat (u8 (zlen id))) id)) (p <| rest := r |>).

Definition hex_digit (c : Z) : option Z :=
  if is_digit c then Some (c - 0x30)
  else if (0x61 <=? c) && (c <=? 0x66) then Some (c - 0x61 + 10)
  else if (0x41 <=? c) && (c <=? 0x46) then Some (c - 0x41 + 10)
  else None.
Definition is_hex (c : Z) : bool := match hex_digit c with Some _ => true | None => false end.
Definition hex_step (v c : Z) : Z := u32 (Z.lor (u32 (Z.shiftl v 4)) (default 0 (hex_digit c))).
Definition dec_step (v c : Z) : Z := u32 (v * 10 + (c - 0x30)).

Definition read_number : dsl (option Z) :=
  skip_ws;;; fun p =>
  let go q step l :=
    let '(ds, r) := span q l in
    POk (match ds with [] => None | _ => Some (u16 (foldl step 0 ds)) end) (p <| rest := r |>) in
  match rest p with
  | [] => POk None p
  | 0x30 :: c :: l => if (c =? 0x78) || (c =? 0x58) then go is_hex hex_step l else go is_digit dec_step (rest p)
  | _ => go is_digit dec_step (rest p)
  end.

Definition consume_char (want : Z) : dsl bool :=
  skip_ws;;; fun p =>
  match rest p with
  | c :: l => if c =? want then POk true (p <| rest := l |>) else POk false p
  | [] => POk false p
  end.

(** ** Words *)
Definition ident_equals (s : list Z) (l : string) : bool := bool_decide (s = lit l).
Definition is_param_mod (s : list Z) (prefix : string) : bool :=
  let plen := length (lit prefix) in
  if (length s <=? plen)%nat then false
  else bool_decide (take plen s = lit prefix) && forallb is_digit (drop plen s).
Fixpoint param_digits (v : Z) (s : list Z) : option Z :=
  match s with
  | [] => Some (u16 v)
  | c :: s => let v := u32 (v * 10 + (c - 0x30)) in if 65535 <? v then None else param_digits v s
  end.
Definition parse_param_mod_value (s : list Z) (prefix : string) : option Z :=
  param_digits 0 (drop (length (lit prefix)) s).

Definition is_known_modifier (s : list Z) : bool :=
  ident_equals s "in" || ident_equals s "out" || ident_equals s "adc" || ident_equals s "up"
  || ident_equals s "down" || is_param_mod s "oversample_" || is_param_mod s "sh_"
  || is_param_mod s "hyst_" || is_param_mod s "debounce_".

Definition k_virt_pins : list (string * Z) :=
  [("_t_since_m2s"%string, IL_VIRT_T_SINCE_M2S); ("_uptime"%string, IL_VIRT_UPTIME);
   ("_stack_hwm"%string, IL_VIRT_STACK_HWM); ("_nodesdead"%string, IL_VIRT_NODES_DEAD);
   ("_adc0min"%string, IL_VIRT_ADC_BASE + 0); ("_adc0max"%string, IL_VIRT_ADC_BASE + 1);
   ("_adc0avg"%string, IL_VIRT_ADC_BASE + 2); ("_adc0rms"%string, IL_VIRT_ADC_BASE + 3);
   ("_adc1min"%string, IL_VIRT_ADC_BASE + 4); ("_adc1max"%string, IL_VIRT_ADC_BASE + 5);
   ("_adc1avg"%string, IL_VIRT_ADC_BASE + 6); ("_adc1rms"%string, IL_VIRT_ADC_BASE + 7);
   ("_adc2min"%string, IL_VIRT_ADC_BASE + 8); ("_adc2max"%string, IL_VIRT_ADC_BASE + 9);
   ("_adc2avg"%string, IL_VIRT_ADC_BASE + 10); ("_adc2rms"%string, IL_VIRT_ADC_BASE + 11)].
Definition virt_lookup (s : list Z) : Z :=
  match find (fun e => ident_equals s e.1) k_virt_pins with Some e => e.2 | None => 0xFF end.

Definition samplenum_to_exp (n : Z) : Z :=
  if n =? 1 then 0 else if n =? 2 then 1 else if n =? 4 then 2 else if n =? 8 then 3
  else if n =? 16 then 4 else 0xFF.

Definition find_input_idx (i : il_inst_t) (phys : Z) : option nat :=
  find_index (fun x => in_phys x =? phys) (inputs i).
Definition find_output_idx (i : il_inst_t) (phys : Z) : option nat :=
  find_index (fun x => out_phys x =? phys) (outputs i).

(** ** Sections *)
Definition drest : dsl (list Z) := fun p => POk (rest p) p.
Definition dseek (r : list Z) : dsl unit := fun p => POk tt (p <| rest := r |>).

Definition ch_comma : Z := 0x2C.
Definition ch_lparen : Z := 0x28.
Definition ch_rparen : Z := 0x29.
Definition ch_colon : Z := 0x3A.
Definition ch_bar : Z := 0x7C.
Definition ch_semi : Z := 0x3B.
Definition ch_lbrack : Z := 0x5B.
Definition ch_rbrack : Z := 0x5D.

(** [if (!consume_char(p, c)) return IL_PARSE_UNEXPECTED_CHAR;] and the same for an identifier. *)
Definition expect (c : Z) : dsl unit :=
  b <-- consume_char c;; if (b : bool) then dret tt else dfail IL_PARSE_UNEXPECTED_CHAR.
Definition need_ident : dsl (list Z) :=
  i <-- read_ident;; match i with Some id => dret id | None => dfail IL_PARSE_UNEXPECTED_CHAR end.
Definition need_number : dsl Z :=
  n <-- read_number;; match n with Some v => dret v | None => dfail IL_PARSE_BAD_NUMBER end.

(** "(a,b,..)" after the parenthesis: at most nine labels, ten turns. *)
Fixpoint pin_list (fuel : nat) (acc : list (list Z)) : dsl (list (list Z)) :=
  match fuel with
  | O => fun _ => PFuel
  | S fuel =>
      if IL_MAX_INPUTS + IL_MAX_OUTPUTS <=? zlen acc then dfail IL_PARSE_TOO_MANY_INPUTS
      else
        id <-- need_ident;;
        more <-- consume_char ch_comma;;
        if (more : bool) then pin_list fuel (acc ++ [id])
        else expect ch_rparen;;; dret (acc ++ [id])
  end.

(** The modifier list of a group, at most four entries, five turns. A comma
    belongs to the list only when a known modifier follows; else it is given back. *)
Fixpoint mod_list (fuel : nat) (acc : list (list Z)) : dsl (list (list Z)) :=
  match fuel with
  | O => fun _ => PFuel
  | S fuel =>
      if 4 <=? zlen acc then dfail IL_PARSE_UNKNOWN_MODE
      else
        id <-- need_ident;;
        pre_comma <-- drest;;
        comma <-- consume_char ch_comma;;
        if negb comma then dret (acc ++ [id])
        else
          skip_ws;;;
          at_ident <-- drest;;
          pk <-- (fun p => POk (peek p) p);;
          if pk =? ch_lparen then dseek pre_comma;;; dret (acc ++ [id])
          else if negb (is_ident_start pk) then dseek pre_comma;;; dret (acc ++ [id])
          else
            ns <-- need_ident;;
            if negb (is_known_modifier ns) then dseek pre_comma;;; dret (acc ++ [id])
            else dseek at_ident;;; mod_list fuel (acc ++ [id])
  end.

(** What a group's modifiers settle. *)
Record cfg_mods := mk_mods {
  cm_mode : Z; cm_input : bool; cm_adc : bool; cm_od : Z;
  cm_exp : Z; cm_sh : Z; cm_hyst : Z; cm_debounce : Z
}.
#[export] Instance eta_mods : Settable cfg_mods := fun m =>
  mk_mods (cm_mode m) (cm_input m) (cm_adc m) (cm_od m) (cm_exp m) (cm_sh m) (cm_hyst m) (cm_debounce m).

Definition cfg_mode (s : list Z) : dsl cfg_mods :=
  if ident_equals s "in" then dret (mk_mods IL_PIN_MODE_IN true false 0 0 4 0 0)
  else if ident_equals s "out" then dret (mk_mods IL_PIN_MODE_OUT false false 0 0 4 0 0)
  else if ident_equals s "oc" then dret (mk_mods IL_PIN_MODE_OUT false false 1 0 4 0 0)
  else if ident_equals s "adc" then dret (mk_mods IL_PIN_MODE_ADC true true 0 0 4 0 0)
  else dfail IL_PARSE_UNKNOWN_MODE.

Definition qual_adc (s : list Z) (m : cfg_mods) : dsl cfg_mods :=
  if is_param_mod s "oversample_" then
    match parse_param_mod_value s "oversample_" with
    | None => dfail IL_PARSE_OVERSAMPLE_OUT_OF_RANGE
    | Some n => let e := samplenum_to_exp n in
        if e =? 0xFF then dfail IL_PARSE_OVERSAMPLE_OUT_OF_RANGE else dret (m <| cm_exp := e |>)
    end
  else if is_param_mod s "sh_" then
    match parse_param_mod_value s "sh_" with
    | None => dfail IL_PARSE_SH_OUT_OF_RANGE
    | Some n => if 63 <? n then dfail IL_PARSE_SH_OUT_OF_RANGE else dret (m <| cm_sh := u8 n |>)
    end
  else if is_param_mod s "hyst_" then
    match parse_param_mod_value s "hyst_" with
    | None => dfail IL_PARSE_THRESHOLD_OUT_OF_RANGE
    | Some n => dret (m <| cm_hyst := n |>)
    end
  else if is_param_mod s "debounce_" then dfail IL_PARSE_DEBOUNCE_NOT_ON_GPIO
  else dfail IL_PARSE_UNKNOWN_MODE.

Definition qual_input (s : list Z) (m : cfg_mods) : dsl cfg_mods :=
  if ident_equals s "up" then dret (m <| cm_mode := IL_PIN_MODE_IN_PU |>)
  else if ident_equals s "down" then dret (m <| cm_mode := IL_PIN_MODE_IN_PD |>)
  else if is_param_mod s "debounce_" then
    match parse_param_mod_value s "debounce_" with
    | None => dfail IL_PARSE_DEBOUNCE_OUT_OF_RANGE
    | Some n => if (n <? 2) || (15 <? n) then dfail IL_PARSE_DEBOUNCE_OUT_OF_RANGE
                else dret (m <| cm_debounce := u8 n |>)
    end
  else if is_param_mod s "hyst_" then dfail IL_PARSE_HYST_NOT_ON_ADC
  else if is_param_mod s "oversample_" || is_param_mod s "sh_" then dfail IL_PARSE_MODIFIER_ON_GPIO
  else dfail IL_PARSE_UNKNOWN_MODE.

Definition qual_output (s : list Z) (m : cfg_mods) : dsl cfg_mods :=
  if nz (cm_od m) && ident_equals s "up" then dret (m <| cm_od := 2 |>)
  else if is_param_mod s "hyst_" then dfail IL_PARSE_HYST_NOT_ON_ADC
  else if is_param_mod s "debounce_" then dfail IL_PARSE_DEBOUNCE_NOT_ON_GPIO
  else if is_param_mod s "oversample_" || is_param_mod s "sh_" then dfail IL_PARSE_MODIFIER_ON_GPIO
  else dfail IL_PARSE_UNKNOWN_MODE.

Definition cfg_qual (m : cfg_mods) (s : list Z) : dsl cfg_mods :=
  if cm_adc m then qual_adc s m else if cm_input m then qual_input s m else qual_output s m.
Fixpoint cfg_quals (m : cfg_mods) (l : list (list Z)) : dsl cfg_mods :=
  match l with [] => dret m | s :: l => m <-- cfg_qual m s;; cfg_quals m l end.

Definition opt_some {A} (o : option A) : bool := match o with Some _ => true | None => false end.

(** Record one pin of the group. *)
Definition cfg_pin (m : cfg_mods) (label : list Z) : dsl unit :=
  match board_pin_lookup label with
  | None => dfail IL_PARSE_UNKNOWN_PIN
  | Some bp =>
      let phys := board_pin_phys_id bp in
      i <-- dinst;;
      if opt_some (find_input_idx i phys) then dfail IL_PARSE_DUPLICATE_PIN
      else if opt_some (find_output_idx i phys) then dfail IL_PARSE_DUPLICATE_PIN
      else if cm_input m then
        if IL_MAX_INPUTS <=? zlen (inputs i) then dfail IL_PARSE_TOO_MANY_INPUTS
        else
          let a := cm_adc m in
          dmodify (fun i => i <| inputs ::= fun l => l ++
            [mk_input phys (cm_mode m) (if a then cm_exp m else 0) (if a then cm_sh m else 0)
               (if a then 0 else cm_debounce m) (if a then cm_hyst m else 0)] |>)
      else
        if IL_MAX_OUTPUTS <=? zlen (outputs i) then dfail IL_PARSE_TOO_MANY_OUTPUTS
        else dmodify (fun i => i <| outputs ::= fun l => l ++ [mk_output phys 0 0 (cm_od m)] |>)
  end.
Fixpoint cfg_pins (m : cfg_mods) (l : list (list Z)) : dsl unit :=
  match l with [] => dret tt | s :: l => cfg_pin m s;;; cfg_pins m l end.

(** One group "pins:mods". *)
Definition cfg_group : dsl unit :=
  skip_ws;;;
  paren <-- consume_char ch_lparen;;
  pins <-- (if (paren : bool) then pin_list 10 [] else (id <-- need_ident;; dret [id]));;
  expect ch_colon;;;
  mods <-- mod_list 5 [];;
  m <-- cfg_mode (zget [] mods 0);;
  m <-- cfg_quals m (tail mods);;
  cfg_pins m pins.

Fixpoint parse_cfg (fuel : nat) : dsl unit :=
  match fuel with
  | O => fun _ => PFuel
  | S fuel =>
      cfg_group;;;
      more <-- consume_char ch_comma;;
      if (more : bool) then parse_cfg fuel else dret tt
  end.

(** "A1" or "A1_avg_khz1": the operand of ADC mode. *)
Fixpoint find_us (l : list Z) (i : nat) : nat :=  (* index of the first '_', else the length *)
  match l with [] => i | c :: l => if c =? 0x5F then i else find_us l (S i) end.
Definition resolve_adc_stream (s : list Z) : dsl nat :=
  let u1 := find_us s 0 in
  match board_pin_lookup (take u1 s) with
  | None => dfail IL_PARSE_UNKNOWN_PIN
  | Some bp =>
      let ain := adc_channel bp in
      let add stat win : dsl nat :=
        i <-- dinst;;
        match find_index (fun x => (in_mode x =? IL_PIN_MODE_ADC_STREAM) && (in_phys x =? ain)
                 && (oversample_exp x =? stat) && (sh_cyc x =? win)) (inputs i) with
        | Some k => dret k
        | None =>
            if IL_MAX_INPUTS <=? zlen (inputs i) then dfail IL_PARSE_TOO_MANY_INPUTS
            else dmodify (fun i => i <| inputs ::= fun l => l ++
                   [mk_input ain IL_PIN_MODE_ADC_STREAM stat win 0 0] |>);;; dret (length (inputs i))
        end in
      if (u1 <? length s)%nat then
        let u2 := find_us (drop (S u1) s) (S u1) in
        if (length s <=? u2)%nat then dfail IL_PARSE_UNEXPECTED_CHAR
        else
          let ss := take (u2 - u1 - 1) (drop (u1 + 1) s) in
          let ws := drop (u2 + 1) s in
          stat <-- (if ident_equals ss "avg" then dret 1 else if ident_equals ss "min" then dret 2
                    else if ident_equals ss "max" then dret 3 else if ident_equals ss "rms" then dret 4
                    else dfail IL_PARSE_UNKNOWN_MODE);;
          win <-- (if ident_equals ws "khz1" then dret 0 else if ident_equals ws "hz100" then dret 1
                   else if ident_equals ws "hz10" then dret 2 else dfail IL_PARSE_UNKNOWN_MODE);;
          add stat win
      else add 0 0
  end.

(** The comparison of a three-part clause; the two-part form means [eq]. *)
Definition watch_op : dsl Z :=
  skip_ws;;;
  pk <-- (fun p => POk (peek p) p);;
  if is_ident_start pk then
    s <-- need_ident;;
    o <-- (if ident_equals s "eq" then dret IL_OP_EQ else if ident_equals s "ne" then dret IL_OP_NE
           else if ident_equals s "lt" then dret IL_OP_LT else if ident_equals s "gt" then dret IL_OP_GT
           else if ident_equals s "le" then dret IL_OP_LE else if ident_equals s "ge" then dret IL_OP_GE
           else dfail IL_PARSE_UNKNOWN_OP);;
    expect ch_colon;;; dret o
  else dret IL_OP_EQ.

(** The index of the input a clause watches; virtual inputs declare themselves. *)
Definition watch_input (adc_mode : bool) (lbl : list Z) : dsl nat :=
  if adc_mode then resolve_adc_stream lbl
  else if zget 0 lbl 0 =? 0x5F then
    let virt := virt_lookup lbl in
    if virt =? 0xFF then dfail IL_PARSE_UNKNOWN_VIRTUAL
    else
      i <-- dinst;;
      match find_input_idx i virt with
      | Some k => dret k
      | None =>
          if IL_MAX_INPUTS <=? zlen (inputs i) then dfail IL_PARSE_TOO_MANY_INPUTS
          else dmodify (fun i => i <| inputs ::= fun l => l ++
                 [mk_input virt IL_PIN_MODE_VIRTUAL 0 0 0 0] |>);;; dret (length (inputs i))
      end
  else
    match board_pin_lookup lbl with
    | None => dfail IL_PARSE_UNKNOWN_PIN
    | Some bp =>
        i <-- dinst;;
        match find_input_idx i (board_pin_phys_id bp) with
        | Some k => dret k
        | None => dfail IL_PARSE_WATCH_INPUT_UNDECL
        end
    end.

Definition input0 : il_input_t := mk_input 0 0 0 0 0 0.
Definition watch_clause (adc_mode : bool) (cur_group : Z) : dsl unit :=
  lbl <-- need_ident;;
  expect ch_colon;;;
  o <-- watch_op;;
  val <-- need_number;;
  idx <-- watch_input adc_mode lbl;;
  i <-- dinst;;
  if nz (hyst (nth idx (inputs i) input0)) && ((o =? IL_OP_EQ) || (o =? IL_OP_NE))
  then dfail IL_PARSE_HYST_ON_EQ_NE
  else if IL_MAX_WATCHES <=? zlen (watches i) then dfail IL_PARSE_TOO_MANY_WATCHES
  else dmodify (fun i => i <| watches ::= fun l => l ++ [mk_watch (u8 (Z.of_nat idx)) o val cur_group] |>).

Fixpoint parse_watch (fuel : nat) (adc_mode : bool) (cur_group : Z) : dsl unit :=
  match fuel with
  | O => fun _ => PFuel
  | S fuel =>
      watch_clause adc_mode cur_group;;;
      comma <-- consume_char ch_comma;;
      if (comma : bool) then parse_watch fuel adc_mode cur_group
      else
        bar <-- consume_char ch_bar;;
        if (bar : bool) then parse_watch fuel adc_mode (u8 (cur_group + 1)) else dret tt
  end.

Definition out_pin (is_ok : bool) : dsl unit :=
  lbl <-- need_ident;;
  expect ch_colon;;;
  val <-- need_number;;
  if 1 <? val then dfail IL_PARSE_BAD_NUMBER
  else
    match board_pin_lookup lbl with
    | None => dfail IL_PARSE_UNKNOWN_PIN
    | Some bp =>
        i <-- dinst;;
        match find_output_idx i (board_pin_phys_id bp) with
        | None => dfail IL_PARSE_OUTPUT_UNDECL
        | Some k => dmodify (fun i => i <| outputs ::= fun l => alter (fun o =>
                      if is_ok then o <| ok_val := u8 val |> else o <| err_val := u8 val |>) k l |>)
        end
    end.
Fixpoint parse_out_block (fuel : nat) (is_ok : bool) : dsl unit :=
  match fuel with
  | O => fun _ => PFuel
  | S fuel =>
      out_pin is_ok;;;
      more <-- consume_char ch_comma;;
      if (more : bool) then parse_out_block fuel is_ok else dret tt
  end.

(** ** The driver *)

(** Turns enough for any loop over the text: every turn reads a character. *)
Definition fuelled {A} (m : nat -> dsl A) : dsl A := fun p => m (S (length (rest p))) p.

(** One ";keyword[..]" section; [seen] holds [seen_out_ok] and [seen_out_err]. *)
Definition il_section (adc_mode : bool) (seen : bool * bool) : dsl (bool * bool) :=
  kw <-- need_ident;;
  expect ch_lbrack;;;
  seen <-- (if ident_equals kw "cfg" then fuelled parse_cfg;;; dret seen
            else if ident_equals kw "watch" then fuelled (fun f => parse_watch f adc_mode 0);;; dret seen
            else if ident_equals kw "out_ok" then fuelled (fun f => parse_out_block f true);;; dret (true, seen.2)
            else if ident_equals kw "out_err" then fuelled (fun f => parse_out_block f false);;; dret (seen.1, true)
            else dfail IL_PARSE_UNKNOWN_KEYWORD);;
  expect ch_rbrack;;;
  dret seen.
Fixpoint il_sections (fuel : nat) (adc_mode : bool) (seen : bool * bool) : dsl (bool * bool) :=
  match fuel with
  | O => fun _ => PFuel
  | S fuel =>
      semi <-- consume_char ch_semi;;
      if (semi : bool) then seen <-- il_section adc_mode seen;; il_sections fuel adc_mode seen
      else dret seen
  end.

Definition il_name : dsl unit :=
  n <-- need_ident;;
  if IL_NAME_MAX <=? zlen n then dfail IL_PARSE_NAME_TOO_LONG
  else dmodify (fun i => i <| name := n ++ replicate (16 - length n) 0 |>).

(** The checks behind the text; they leave [err_offset] alone. *)
Definition il_outputs_check (seen : bool * bool) (i : il_inst_t) : Z :=
  if zlen (outputs i) =? 0 then IL_PARSE_OK
  else if negb seen.1 then IL_PARSE_MISSING_OUT_OK
  else if negb seen.2 then IL_PARSE_MISSING_OUT_ERR
  else if existsb (fun o => ok_val o =? err_val o) (outputs i) then IL_PARSE_OUTPUT_VALUE_MISMATCH
  else IL_PARSE_OK.

Definition il_text (adc_mode : bool) : dsl (bool * bool) :=
  il_name;;;
  seen <-- fuelled (fun f => il_sections f adc_mode (false, false));;
  skip_ws;;;
  fun p => if negb (at_end p) then PErr IL_PARSE_UNEXPECTED_CHAR p else POk seen p.

(** Status, error offset where the code stores one, and the instance. [None]: the
    parser would not stop. *)
Definition il_parse_impl (text : list Z) (adc_mode : bool) : option (Z * option Z * il_inst_t) :=
  if zlen text =? 0 then Some (IL_PARSE_EMPTY, None, inst0)
  else match il_text adc_mode (mk_parser text inst0) with
       | PFuel => None
       | PErr st p => Some (st, Some (zlen text - zlen (rest p)), inst p)
       | POk seen p =>
           let st := il_outputs_check seen (inst p) in
           Some (st, None, if st =? IL_PARSE_OK then inst p <| tf_state := IL_TF_UNEVALUATED |> else inst p)
       end.
Definition il_parse (text : list Z) := il_parse_impl text false.
Definition il_parse_adc (text : list Z) := il_parse_impl text true.

(** ** Specification: what an accepted interlock looks like *)

Definition directional (o : Z) : Prop := o = IL_OP_LT \/ o = IL_OP_GT \/ o = IL_OP_LE \/ o = IL_OP_GE.

Inductive input_ok (x : il_input_t) : Prop :=
| io_gpio : (in_mode x = IL_PIN_MODE_IN \/ in_mode x = IL_PIN_MODE_IN_PU \/ in_mode x = IL_PIN_MODE_IN_PD) ->
    0 <= in_phys x < 30 -> debounce_depth x = 0 \/ 2 <= debounce_depth x <= 15 -> hyst x = 0 -> input_ok x
| io_adc : in_mode x = IL_PIN_MODE_ADC -> 0 <= in_phys x < 30 -> 0 <= oversample_exp x <= 4 ->
    0 <= sh_cyc x <= 63 -> debounce_depth x = 0 -> fits 16 (hyst x) -> input_ok x
| io_virtual : in_mode x = IL_PIN_MODE_VIRTUAL -> In (in_phys x) (map snd k_virt_pins) ->
    debounce_depth x = 0 -> hyst x = 0 -> input_ok x
| io_stream : in_mode x = IL_PIN_MODE_ADC_STREAM -> debounce_depth x = 0 -> hyst x = 0 -> input_ok x.

Definition output_ok (o : il_output_t) : Prop :=
  0 <= out_phys o < 30 /\ 0 <= ok_val o <= 1 /\ 0 <= err_val o <= 1 /\ 0 <= od o <= 2.
Definition watch_ok (ins : list il_input_t) (w : il_watch_t) : Prop :=
  (exists x, ins !! Z.to_nat (input_idx w) = Some x /\ (hyst x <> 0 -> directional (op w))) /\
  0 <= input_idx w /\ 0 <= op w <= 5 /\ fits 16 (threshold w) /\ 0 <= group w < IL_MAX_WATCHES.

Record inst_wf (adc : bool) (i : il_inst_t) : Prop := {
  iw_name : length (name i) = 16%nat /\ 0 ∈ name i;
  iw_inputs : zlen (inputs i) <= IL_MAX_INPUTS /\ Forall input_ok (inputs i);
  iw_watches : zlen (watches i) <= IL_MAX_WATCHES /\ Forall (watch_ok (inputs i)) (watches i);
  iw_outputs : zlen (outputs i) <= IL_MAX_OUTPUTS /\ Forall output_ok (outputs i);
  iw_distinct : adc = false -> NoDup (map in_phys (inputs i) ++ map out_phys (outputs i))
}.

(** What the modifiers can settle. *)
Definition mods_ok (m : cfg_mods) : Prop :=
  (if cm_adc m then cm_input m = true /\ cm_mode m = IL_PIN_MODE_ADC /\ 0 <= cm_exp m <= 4 /\
     0 <= cm_sh m <= 63 /\ fits 16 (cm_hyst m)
   else cm_input m = true ->
     (cm_mode m = IL_PIN_MODE_IN \/ cm_mode m = IL_PIN_MODE_IN_PU \/ cm_mode m = IL_PIN_MODE_IN_PD) /\
     (cm_debounce m = 0 \/ 2 <= cm_debounce m <= 15)) /\
  0 <= cm_od m <= 2.

(** [m] keeps the instance well-formed and never runs out of turns; on success it
    has read at least [k] characters. *)
Definition dokp (adc : bool) (k : nat) {A} (Q : A -> il_inst_t -> Prop) (m : dsl A) (p : parser_t) : Prop :=
  match m p with
  | POk a p' => (length (rest p') + k <= length (rest p))%nat /\ inst_wf adc (inst p') /\ Q a (inst p')
  | PErr st p' => (length (rest p') <= length (rest p))%nat /\ st <> IL_PARSE_OK
  | PFuel => False
  end.
Definition dok (adc : bool) (k : nat) {A} (Q : A -> il_inst_t -> Prop) (m : dsl A) : Prop :=
  forall p, inst_wf adc (inst p) -> dokp adc k Q m p.

(** ** Lemmas *)

Lemma span_rest q l : (length (span q l).2 <= length l)%nat.
Proof.
  induction l as [|c l IH]; cbn [span]; [done|]. destruct (q c); [|done].
  destruct (span q l) as [a b]. simpl in *. lia.
Qed.

Lemma span_first q c l : q c = true -> (length (span q (c :: l)).2 <= length l)%nat.
Proof.
  intros Hc. cbn [span]. rewrite Hc. pose proof (span_rest q l). by destruct (span q l).
Qed.

Lemma span_all q l : Forall (fun c => q c = true) (span q l).1.
Proof.
  induction l as [|c l IH]; cbn [span]; [constructor|]. destruct (q c) eqn:E; [|constructor].
  destruct (span q l) as [a b]. constructor; done.
Qed.

(** Reading steps: they change the rest of the text only. *)
Lemma skip_ws_run p : exists r, (length r <= length (rest p))%nat /\ skip_ws p = POk tt (mk_parser r (inst p)).
Proof. exists (span is_space (rest p)).2. split; [apply span_rest|done]. Qed.

Lemma read_ident_run p :
  (exists r, (length r <= length (rest p))%nat /\ read_ident p = POk None (mk_parser r (inst p))) \/
  (exists r id, (length r < length (rest p))%nat /\ read_ident p = POk (Some id) (mk_parser r (inst p))).
Proof.
  unfold read_ident, dbind. destruct (skip_ws_run p) as (r & Hr & ->). cbn [rest inst at_end peek].
  destruct r as [|c r]; [left; exists []; done|]. unfold at_end, peek. cbn [rest].
  destruct (is_ident_start c) eqn:Ec; cbn [orb negb]; [right|left; by exists (c :: r)].
  assert (Hc : is_ident_cont c = true) by (unfold is_ident_cont; by rewrite Ec).
  pose proof (span_first is_ident_cont c r Hc) as Hs. destruct (span is_ident_cont (c :: r)) as [id r'].
  exists r', (take (Z.to_nat (u8 (zlen id))) id). split; [simpl in *; lia|done].
Qed.

Lemma consume_char_run w p :
  (exists r, (length r <= length (rest p))%nat /\ consume_char w p = POk false (mk_parser r (inst p))) \/
  (exists r, (length r < length (rest p))%nat /\ consume_char w p = POk true (mk_parser r (inst p))).
Proof.
  unfold consume_char, dbind. destruct (skip_ws_run p) as (r & Hr & ->). cbn [rest inst].
  destruct r as [|c r]; [left; by exists []|]. destruct (c =? w).
  - right. exists r. simpl in *. split; [lia|done].
  - left. by exists (c :: r).
Qed.

Lemma read_number_run p :
  (exists r, (length r <= length (rest p))%nat /\ read_number p = POk None (mk_parser r (inst p))) \/
  (exists r v, (length r < length (rest p))%nat /\ fits 16 v /\
     read_number p = POk (Some v) (mk_parser r (inst p))).
Proof.
  unfold read_number, dbind. destruct (skip_ws_run p) as (r & Hr & ->). cbn [rest inst].
  set (go := fun (q : Z -> bool) (step : Z -> Z -> Z) (l : list Z) =>
    let '(ds, r0) := span q l in
    POk match ds with [] => None | _ :: _ => Some (u16 (foldl step 0 ds)) end
      (mk_parser r (inst p) <| rest := r0 |>)).
  assert (Hgo : forall q step l, (length l <= length (rest p))%nat ->
    (exists r, (length r <= length (rest p))%nat /\ go q step l = POk None (mk_parser r (inst p))) \/
    (exists r v, (length r < length (rest p))%nat /\ fits 16 v /\ go q step l = POk (Some v) (mk_parser r (inst p)))).
  { intros q step l Hl. unfold go. pose proof (span_rest q l) as Hs.
    assert (Hd : (length (span q l).1 + length (span q l).2 = length l)%nat).
    { clear. induction l as [|c l IH]; cbn [span]; [done|]. destruct (q c); [|done].
      destruct (span q l). simpl in *. lia. }
    destruct (span q l) as [ds r0]. simpl in *. destruct ds as [|d ds].
    - left. exists r0. split; [lia|done].
    - right. exists r0, (u16 (foldl step 0 (d :: ds))). simpl in *.
      split; [lia|]. split; [apply u16_fits|done]. }
  destruct r as [|c r]; [left; by exists []|].
  assert (Hdec := Hgo is_digit dec_step (c :: r) Hr).
  destruct (decide (c = 0x30)) as [-> |Hc].
  - destruct r as [|c' l]; [exact Hdec|].
    destruct ((c' =? 0x78) || (c' =? 0x58)); [|exact Hdec]. apply Hgo. simpl in *. lia.
  - assert (E : match c with
      | 48 => match r with [] => go is_digit dec_step (c :: r)
              | c' :: l => if (c' =? 0x78) || (c' =? 0x58) then go is_hex hex_step l
                           else go is_digit dec_step (c :: r) end
      | _ => go is_digit dec_step (c :: r) end = go is_digit dec_step (c :: r)).
    { repeat case_match; try done. all: subst; done. }
    destruct r; exact Hdec || (rewrite <- E in Hdec; exact Hdec).
Qed.

Section Dok.
Context (adc : bool).

Lemma dok_ret {A} (Q : A -> il_inst_t -> Prop) a p :
  inst_wf adc (inst p) -> Q a (inst p) -> dokp adc 0 Q (dret a) p.
Proof. intros Hp Ha. unfold dokp, dret. split; [lia|done]. Qed.

Lemma dok_fail {A} k (Q : A -> il_inst_t -> Prop) st p :
  st <> IL_PARSE_OK -> dokp adc k Q (dfail st) p.
Proof. unfold dokp, dfail. intros H. split; [lia|done]. Qed.

Lemma dok_weaken {A} k k' (Q Q' : A -> il_inst_t -> Prop) m p :
  dokp adc k Q m p -> (k' <= k)%nat -> (forall a i, Q a i -> Q' a i) -> dokp adc k' Q' m p.
Proof.
  intros H Hk HQ. unfold dokp in *. destruct (m p) as [a p'|st p'|]; [|done..].
  destruct H as (? & ? & ?). split; [lia|]. split; [done|by apply HQ].
Qed.

Lemma dok_10 {A} (Q : A -> il_inst_t -> Prop) m p : dokp adc 1 Q m p -> dokp adc 0 Q m p.
Proof. intros H. eapply dok_weaken; [exact H|lia|done]. Qed.

(** The rest of a sequence is checked at the states the first part can leave. *)
Lemma dok_bind {A B} k1 k2 (Q1 : A -> il_inst_t -> Prop) (Q2 : B -> il_inst_t -> Prop) m f p :
  dokp adc k1 Q1 m p ->
  (forall a p', inst_wf adc (inst p') -> Q1 a (inst p') ->
     (length (rest p') + k1 <= length (rest p))%nat -> dokp adc k2 Q2 (f a) p') ->
  dokp adc (k1 + k2) Q2 (dbind m f) p.
Proof.
  intros Hm Hf. unfold dokp in *. unfold dbind. destruct (m p) as [a p'|st p'|]; [|done..].
  destruct Hm as (Hl & Hw & HQ). specialize (Hf a p' Hw HQ Hl).
  destruct (f a p') as [b p2|st p2|]; [|destruct Hf; split; [lia|done]|done].
  destruct Hf as (? & ? & ?). split; [lia|done].
Qed.

Lemma dok_skip_ws p : inst_wf adc (inst p) -> dokp adc 0 (fun _ i => i = inst p) skip_ws p.
Proof.
  intros Hp. destruct (skip_ws_run p) as (r & Hr & E). unfold dokp. rewrite E.
  cbn [rest inst]. split; [lia|done].
Qed.

Lemma dok_need_ident p : inst_wf adc (inst p) -> dokp adc 1 (fun _ i => i = inst p) need_ident p.
Proof.
  intros Hp. unfold dokp, need_ident, dbind.
  destruct (read_ident_run p) as [(r & Hr & ->)|(r & id & Hr & ->)]; cbn [rest inst].
  - split; [exact Hr|done].
  - split; [simpl; lia|done].
Qed.

Lemma dok_need_number p :
  inst_wf adc (inst p) -> dokp adc 1 (fun v i => fits 16 v /\ i = inst p) need_number p.
Proof.
  intros Hp. unfold dokp, need_number, dbind.
  destruct (read_number_run p) as [(r & Hr & ->)|(r & v & Hr & Hv & ->)]; cbn [rest inst].
  - split; [exact Hr|done].
  - split; [simpl; lia|done].
Qed.

Lemma dok_expect c p : inst_wf adc (inst p) -> dokp adc 1 (fun _ i => i = inst p) (expect c) p.
Proof.
  intros Hp. unfold dokp, expect, dbind.
  destruct (consume_char_run c p) as [(r & Hr & ->)|(r & Hr & ->)]; cbn [rest inst].
  - split; [exact Hr|done].
  - split; [simpl; lia|done].
Qed.

(** A character read or not: when it is, one has been read. *)
Lemma dok_consume {B} c k (Q : B -> il_inst_t -> Prop) (f : bool -> dsl B) p :
  inst_wf adc (inst p) ->
  (forall r, (length r < length (rest p))%nat -> dokp adc k Q (f true) (mk_parser r (inst p))) ->
  (forall r, (length r <= length (rest p))%nat -> dokp adc k Q (f false) (mk_parser r (inst p))) ->
  dokp adc k Q (dbind (consume_char c) f) p.
Proof.
  intros Hp Ht Hf. unfold dokp, dbind in *.
  destruct (consume_char_run c p) as [(r & Hr & E)|(r & Hr & E)]; rewrite E; cbn [rest inst].
  - specialize (Hf r Hr). destruct (f false _) as [b p'|st p'|]; [|simpl in *; destruct Hf; split; [lia|done]|done].
    destruct Hf as (? & ? & ?). simpl in *. split; [lia|done].
  - specialize (Ht r Hr). destruct (f true _) as [b p'|st p'|]; [|simpl in *; destruct Ht; split; [lia|done]|done].
    destruct Ht as (? & ? & ?). simpl in *. split; [lia|done].
Qed.
End Dok.

(** *** The cfg section *)

Section Cfg.
Context (adc : bool).

Lemma dok_pin_list fuel : forall acc p,
  inst_wf adc (inst p) -> (length acc <= 9)%nat -> (10 <= fuel + length acc)%nat ->
  dokp adc 1 (fun _ _ => True) (pin_list fuel acc) p.
Proof.
  induction fuel as [|fuel IH]; intros acc p Hp Hacc Hf; cbn [pin_list]; [lia|].
  unfold IL_MAX_INPUTS, IL_MAX_OUTPUTS, zlen. destruct (Z.leb_spec (7 + 2) (Z.of_nat (length acc))); [by apply dok_fail|].
  eapply (dok_bind _ 1 0); [by apply dok_need_ident|]. intros id p1 Hp1 _ _.
  apply dok_consume; [done| |]; intros r Hr.
  - apply dok_10, IH; [done|rewrite length_app; cbn [length]; lia..].
  - apply dok_10. eapply (dok_bind _ 1 0); [by apply dok_expect|].
    intros [] p2 Hp2 _ _. by apply dok_ret.
Qed.

(** The comma is given back exactly when no modifier follows. *)
Lemma dok_mod_list fuel : forall acc p,
  inst_wf adc (inst p) -> (length acc <= 4)%nat -> (5 <= fuel + length acc)%nat ->
  dokp adc 1 (fun l i => l <> [] /\ i = inst p) (mod_list fuel acc) p.
Proof.
  induction fuel as [|fuel IH]; intros acc p Hp Hacc Hf; cbn [mod_list]; [lia|].
  unfold zlen. destruct (Z.leb_spec 4 (Z.of_nat (length acc))); [by apply dok_fail|].
  assert (Hne : forall id : list Z, acc ++ [id] <> []) by (intros id E; by destruct acc).
  eapply (dok_bind _ 1 0); [by apply dok_need_ident|]. intros id p1 Hp1 <- _.
  (* from the identifier on: the comma, and what follows it *)
  unfold dokp, dbind, drest. destruct (consume_char_run ch_comma p1) as [(r & Hr & ->)|(r & Hr & ->)];
    cbn [negb rest inst].
  { unfold dret. cbn [rest inst]. split; [lia|]. split; [done|]. split; [apply Hne|done]. }
  destruct (skip_ws_run (mk_parser r (inst p1))) as (r2 & Hr2 & ->). cbn [rest inst] in *.
  unfold peek. cbn [rest inst].
  assert (Hback : match (dseek (rest p1);;; dret (acc ++ [id])) (mk_parser r2 (inst p1)) with
    | POk a p' => (length (rest p') + 0 <= length (rest p1))%nat /\ inst_wf adc (inst p') /\ a <> [] /\ inst p' = inst p1
    | PErr st p' => (length (rest p') <= length (rest p1))%nat /\ st <> IL_PARSE_OK
    | PFuel => False end).
  { unfold dbind, dseek, dret, field_map. cbn [rest inst]. split; [lia|]. split; [done|]. split; [apply Hne|done]. }
  unfold dbind in Hback. destruct (_ =? ch_lparen); [exact Hback|]. destruct (negb (is_ident_start _)); [exact Hback|].
  unfold need_ident at 1, dbind. destruct (read_ident_run (mk_parser r2 (inst p1))) as [(r3 & Hr3 & ->)|(r3 & ns & Hr3 & ->)];
    cbn [rest inst] in *; [unfold dfail; cbn [rest]; split; [lia|done]|]. unfold dret at 1.
  destruct (negb (is_known_modifier ns)); [exact Hback|]. unfold dseek, field_map. cbn [rest inst].
  assert (HIH : dokp adc 1 (fun l i => l <> [] /\ i = inst p1) (mod_list fuel (acc ++ [id])) (mk_parser r2 (inst p1))).
  { apply (IH (acc ++ [id]) (mk_parser r2 (inst p1)) Hp1); rewrite length_app; cbn [length]; lia. }
  unfold dokp in HIH. destruct (mod_list fuel _ _) as [l p'|st p'|]; [|cbn [rest] in *; destruct HIH; split; [lia|done]|done].
  cbn [rest] in *. destruct HIH as (? & ? & ?). split; [lia|done].
Qed.

Lemma param_digits_fits s : forall v n, param_digits v s = Some n -> fits 16 n.
Proof.
  induction s as [|c s IH]; intros v n; cbn [param_digits].
  - intros [= <-]. apply u16_fits.
  - destruct (65535 <? _); [done|apply IH].
Qed.

Lemma samplenum_exp n : samplenum_to_exp n <> 0xFF -> 0 <= samplenum_to_exp n <= 4.
Proof. unfold samplenum_to_exp. repeat case_match; lia. Qed.

Lemma dok_cfg_mode s p : inst_wf adc (inst p) -> dokp adc 0 (fun m i => mods_ok m /\ i = inst p) (cfg_mode s) p.
Proof.
  intros Hp. unfold cfg_mode.
  destruct (ident_equals s "in"); [|destruct (ident_equals s "out"); [|destruct (ident_equals s "oc");
    [|destruct (ident_equals s "adc"); [|by apply dok_fail]]]]; (apply dok_ret; [done|]); (split; [|done]);
    (split; cbn; [|lia]); try done.
  intros _. auto.
Qed.


Lemma dok_cfg_qual m s p :
  inst_wf adc (inst p) -> mods_ok m -> dokp adc 0 (fun m i => mods_ok m /\ i = inst p) (cfg_qual m s) p.
Proof.
  intros Hp [Hm Hod]. unfold cfg_qual.
  assert (Hpar : forall pre n, parse_param_mod_value s pre = Some n -> fits 16 n).
  { intros pre n E. by eapply param_digits_fits. }
  destruct (cm_adc m) eqn:Ea; [|destruct (cm_input m) eqn:Ei].
  - unfold qual_adc. destruct Hm as (H1 & H2 & H3 & H4 & H5).
    destruct (is_param_mod s "oversample_").
    { destruct (parse_param_mod_value s "oversample_") as [n|]; [|by apply dok_fail].
      destruct (Z.eqb_spec (samplenum_to_exp n) 0xFF); [by apply dok_fail|]. apply dok_ret; [done|].
      split; [|done]. split; unfold field_map; cbn; [|done]. rewrite Ea. by pose proof (samplenum_exp n ltac:(done)). }
    destruct (is_param_mod s "sh_").
    { destruct (parse_param_mod_value s "sh_") as [n|] eqn:E; [|by apply dok_fail]. apply Hpar in E.
      destruct (Z.ltb_spec 63 n); [by apply dok_fail|]. apply dok_ret; [done|].
      split; [|done]. split; unfold field_map; cbn; [|done]. rewrite Ea. unfold fits in E.
      rewrite u8_id by (unfold fits; lia). split_and!; done || lia. }
    destruct (is_param_mod s "hyst_").
    { destruct (parse_param_mod_value s "hyst_") as [n|] eqn:E; [|by apply dok_fail]. apply Hpar in E.
      apply dok_ret; [done|]. split; [|done]. split; unfold field_map; cbn; [|done]. by rewrite Ea. }
    destruct (is_param_mod s "debounce_"); by apply dok_fail.
  - unfold qual_input. destruct (Hm eq_refl) as [H1 H2].
    destruct (ident_equals s "up"); [|destruct (ident_equals s "down");
      [|destruct (is_param_mod s "debounce_"); [|destruct (is_param_mod s "hyst_");
        [by apply dok_fail|destruct (_ || _); by apply dok_fail]]]].
    + apply dok_ret; [done|]. split; [|done]. split; unfold field_map; cbn; [|done]. rewrite Ea. auto.
    + apply dok_ret; [done|]. split; [|done]. split; unfold field_map; cbn; [|done]. rewrite Ea. auto.
    + destruct (parse_param_mod_value s "debounce_") as [n|] eqn:E; [|by apply dok_fail].
      destruct (Z.ltb_spec n 2); [by apply dok_fail|]. destruct (Z.ltb_spec 15 n); [by apply dok_fail|].
      apply dok_ret; [done|]. split; [|done]. split; unfold field_map; cbn; [|done]. rewrite Ea.
      rewrite u8_id by (unfold fits; lia). intros _. split; [done|lia].
  - unfold qual_output. destruct (_ && _).
    + apply dok_ret; [done|]. split; [|done]. split; unfold field_map; cbn; [|lia]. rewrite Ea, Ei. done.
    + destruct (is_param_mod s "hyst_"); [by apply dok_fail|]. destruct (is_param_mod s "debounce_"); [by apply dok_fail|].
      destruct (_ || _); by apply dok_fail.
Qed.

Lemma dok_cfg_quals l : forall m p,
  inst_wf adc (inst p) -> mods_ok m -> dokp adc 0 (fun m i => mods_ok m /\ i = inst p) (cfg_quals m l) p.
Proof.
  induction l as [|s l IH]; intros m p Hp Hm; cbn [cfg_quals]; [by apply dok_ret|].
  eapply (dok_bind _ 0 0); [by apply dok_cfg_qual|]. intros m' p' Hp' [Hm' <-] _. by apply IH.
Qed.

Lemma dok_dinst p : inst_wf adc (inst p) -> dokp adc 0 (fun a i => a = i /\ i = inst p) dinst p.
Proof. intros Hp. unfold dokp, dinst. split; [lia|done]. Qed.

Lemma dok_dmodify (Q : unit -> il_inst_t -> Prop) f p :
  inst_wf adc (f (inst p)) -> Q tt (f (inst p)) -> dokp adc 0 Q (dmodify f) p.
Proof. intros Hw HQ. unfold dokp, dmodify, field_map. cbn [rest inst]. split; [lia|done]. Qed.

Lemma inst_wf_add_input i x :
  inst_wf adc i -> ~ (IL_MAX_INPUTS <= zlen (inputs i)) -> input_ok x ->
  (adc = false -> in_phys x ∉ map in_phys (inputs i) ++ map out_phys (outputs i)) ->
  inst_wf adc (i <| inputs ::= fun l => l ++ [x] |>).
Proof.
  intros [H1 [H2 H2'] [H3 H3'] H4 H5] Hn Hx Hd. unfold field_map.
  split; cbn [name inputs watches outputs]; [done|..|done|].
  - split; [rewrite zlen_app; change (zlen [x]) with 1; lia|]. apply Forall_app. by split; [|constructor].
  - split; [done|]. eapply Forall_impl; [exact H3'|]. intros w ((y & Hy & Hh) & Hr). split; [|done].
    exists y. split; [|done]. by apply lookup_app_l_Some.
  - intros Ha. rewrite map_app. cbn [map]. specialize (H5 Ha). specialize (Hd Ha).
    rewrite <- app_assoc. apply NoDup_app in H5 as (Ha1 & Ha2 & Ha3). rewrite elem_of_app in Hd.
    apply NoDup_app. split; [done|]. split.
    + intros z Hz [-> |Hz']%elem_of_cons; [tauto|]. by apply (Ha2 z).
    + apply NoDup_cons. split; [tauto|done].
Qed.

Lemma inst_wf_add_output i o :
  inst_wf adc i -> ~ (IL_MAX_OUTPUTS <= zlen (outputs i)) -> output_ok o ->
  (adc = false -> out_phys o ∉ map in_phys (inputs i) ++ map out_phys (outputs i)) ->
  inst_wf adc (i <| outputs ::= fun l => l ++ [o] |>).
Proof.
  intros [H1 H2 H3 [H4 H4'] H5] Hn Ho Hd. unfold field_map.
  split; cbn [name inputs watches outputs]; [done..| |].
  - split; [rewrite zlen_app; change (zlen [o]) with 1; lia|]. apply Forall_app. by split; [|constructor].
  - intros Ha. rewrite map_app. cbn [map]. rewrite app_assoc. apply NoDup_app. split; [by apply H5|].
    split; [|apply NoDup_singleton]. intros z Hz ->%list_elem_of_singleton. by apply Hd.
Qed.

Lemma find_index_map {A} (g : A -> Z) z l :
  find_index (fun x => g x =? z) l = None -> z ∉ map g l.
Proof.
  intros H%find_index_None Hz. apply list_elem_of_fmap in Hz as (x & -> & Hx).
  rewrite Forall_forall in H. specialize (H x Hx). by rewrite Z.eqb_refl in H.
Qed.

Lemma dok_cfg_pin m s p :
  inst_wf adc (inst p) -> mods_ok m -> dokp adc 0 (fun _ _ => True) (cfg_pin m s) p.
Proof.
  intros Hp [Hm Hod]. unfold cfg_pin. destruct (board_pin_lookup s) as [bp|] eqn:Eb; [|by apply dok_fail].
  apply board_pin_lookup_ok in Eb as [Hg _]. unfold IL_NGPIO in Hg. unfold board_pin_phys_id.
  eapply (dok_bind _ 0 0); [by apply dok_dinst|]. intros i p1 Hp1 [-> Hi] _.
  destruct (find_input_idx _ _) eqn:Ei; [by apply dok_fail|]. cbn [opt_some].
  destruct (find_output_idx _ _) eqn:Eo; [by apply dok_fail|]. cbn [opt_some].
  apply (find_index_map in_phys) in Ei. apply (find_index_map out_phys) in Eo.
  destruct (cm_input m) eqn:Em.
  - destruct (Z.leb_spec IL_MAX_INPUTS (zlen (inputs (inst p1)))); [by apply dok_fail|].
    apply dok_dmodify; [|done]. apply inst_wf_add_input; [done|lia| |].
    + destruct (cm_adc m).
      * apply io_adc; cbn; try tauto; try lia.
      * destruct (Hm eq_refl) as [H1 H2]. by apply io_gpio.
    + intros _. cbn [in_phys]. rewrite elem_of_app. tauto.
  - destruct (Z.leb_spec IL_MAX_OUTPUTS (zlen (outputs (inst p1)))); [by apply dok_fail|].
    apply dok_dmodify; [|done]. apply inst_wf_add_output; [done|lia| |].
    + unfold output_ok. cbn. lia.
    + intros _. cbn [out_phys]. rewrite elem_of_app. tauto.
Qed.

Lemma dok_cfg_pins m l : forall p,
  inst_wf adc (inst p) -> mods_ok m -> dokp adc 0 (fun _ _ => True) (cfg_pins m l) p.
Proof.
  induction l as [|s l IH]; intros p Hp Hm; cbn [cfg_pins]; [by apply dok_ret|].
  eapply (dok_bind _ 0 0); [by apply dok_cfg_pin|]. intros [] p' Hp' _ _. by apply IH.
Qed.

Lemma dok_cfg_group p : inst_wf adc (inst p) -> dokp adc 1 (fun _ _ => True) cfg_group p.
Proof.
  intros Hp. unfold cfg_group.
  eapply (dok_bind _ 0 1); [by apply dok_skip_ws|]. intros [] p1 Hp1 _ _.
  assert (Htail : forall (pins : list (list Z)) q, inst_wf adc (inst q) ->
    dokp adc 1 (fun _ _ => True) (expect ch_colon;;; mods <-- mod_list 5 [];; m <-- cfg_mode (zget [] mods 0);;
      m <-- cfg_quals m (tail mods);; cfg_pins m pins) q).
  { intros pins q Hq. eapply (dok_bind _ 1 0); [by apply dok_expect|]. intros [] q1 Hq1 _ _.
    eapply (dok_bind _ 0 0); [apply dok_10, dok_mod_list; [done|simpl; lia..]|]. intros mods q2 Hq2 _ _.
    eapply (dok_bind _ 0 0); [by apply dok_cfg_mode|]. intros m q3 Hq3 [Hm _] _.
    eapply (dok_bind _ 0 0); [by apply dok_cfg_quals|]. intros m' q4 Hq4 [Hm' _] _. by apply dok_cfg_pins. }
  apply dok_consume; [done| |]; intros r Hr.
  - eapply (dok_bind _ 0 1); [apply dok_10, dok_pin_list; [done|simpl; lia..]|]. intros pins q Hq _ _. by apply Htail.
  - eapply (dok_bind _ 0 1).
    + apply dok_10. eapply (dok_bind _ 1 0); [by apply dok_need_ident|]. intros id q Hq _ _.
      by apply (dok_ret _ (fun _ _ => True)).
    + intros pins q Hq _ _. by apply Htail.
Qed.

Lemma dok_parse_cfg fuel : forall p,
  inst_wf adc (inst p) -> (length (rest p) < fuel)%nat -> dokp adc 0 (fun _ _ => True) (parse_cfg fuel) p.
Proof.
  induction fuel as [|fuel IH]; intros p Hp Hf; [lia|]. cbn [parse_cfg]. apply dok_10.
  eapply (dok_bind _ 1 0); [by apply dok_cfg_group|]. intros [] p1 Hp1 _ Hl.
  apply dok_consume; [done| |]; intros r Hr; [|by apply dok_ret]. apply IH; cbn [rest inst]; [done|lia].
Qed.

(** *** The watch section *)
Lemma dok_find_add (q : il_input_t -> bool) x p :
  inst_wf adc (inst p) -> input_ok x ->
  (find_index q (inputs (inst p)) = None -> adc = false ->
     in_phys x ∉ map in_phys (inputs (inst p)) ++ map out_phys (outputs (inst p))) ->
  dokp adc 0 (fun k i => (k < length (inputs i))%nat /\ watches i = watches (inst p))
    (i <-- dinst;;
     match find_index q (inputs i) with
     | Some k => dret k
     | None => if IL_MAX_INPUTS <=? zlen (inputs i) then dfail IL_PARSE_TOO_MANY_INPUTS
               else dmodify (fun i => i <| inputs ::= fun l => l ++ [x] |>);;; dret (length (inputs i))
     end) p.
Proof.
  intros Hp Hx Hd. eapply (dok_bind _ 0 0); [by apply dok_dinst|]. intros i p1 Hp1 [-> Hi] _.
  rewrite <- Hi in Hd |- *. destruct (find_index q _) as [k|] eqn:E.
  - apply dok_ret; [done|]. split; [|done]. apply find_index_Some in E as (l1 & y & l2 & -> & -> & _).
    rewrite length_app. simpl. lia.
  - destruct (Z.leb_spec IL_MAX_INPUTS (zlen (inputs (inst p1)))); [by apply dok_fail|].
    eapply (dok_bind _ 0 0).
    + apply (dok_dmodify (fun _ i => length (inputs i) = S (length (inputs (inst p1))) /\ watches i = watches (inst p1))).
      * apply inst_wf_add_input; [done|lia|done|by apply Hd].
      * unfold field_map. cbn [inputs watches]. split; [|done]. rewrite length_app. simpl. lia.
    + intros [] p2 Hp2 [Hl Hw] _. apply dok_ret; [done|]. split; [lia|done].
Qed.

Lemma dok_resolve s p :
  adc = true -> inst_wf adc (inst p) ->
  dokp adc 0 (fun k i => (k < length (inputs i))%nat /\ watches i = watches (inst p)) (resolve_adc_stream s) p.
Proof.
  intros Ha Hp. unfold resolve_adc_stream. destruct (board_pin_lookup _) as [bp|]; [|by apply dok_fail].
  cbv zeta. assert (Hadd : forall ain stat win q, inst_wf adc (inst q) ->
    dokp adc 0 (fun k i => (k < length (inputs i))%nat /\ watches i = watches (inst q))
      (i <-- dinst;;
       match find_index (fun x => (in_mode x =? IL_PIN_MODE_ADC_STREAM) && (in_phys x =? ain)
               && (oversample_exp x =? stat) && (sh_cyc x =? win)) (inputs i) with
       | Some k => dret k
       | None => if IL_MAX_INPUTS <=? zlen (inputs i) then dfail IL_PARSE_TOO_MANY_INPUTS
                 else dmodify (fun i => i <| inputs ::= fun l => l ++
                   [mk_input ain IL_PIN_MODE_ADC_STREAM stat win 0 0] |>);;; dret (length (inputs i))
       end) q).
  { intros ain stat win q Hq. apply dok_find_add; [done|by apply io_stream|]. by rewrite Ha. }
  destruct (_ <? _)%nat; [|by apply Hadd]. destruct (_ <=? _)%nat; [by apply dok_fail|].
  eapply (dok_bind _ 0 0 (fun _ i => i = inst p)).
  { repeat match goal with |- context [if ident_equals ?a ?b then _ else _] => destruct (ident_equals a b) end;
      first [by apply dok_ret|by apply dok_fail]. }
  intros stat p1 Hp1 E1 _. rewrite <- E1. eapply (dok_bind _ 0 0 (fun _ i => i = inst p1)).
  { repeat match goal with |- context [if ident_equals ?a ?b then _ else _] => destruct (ident_equals a b) end;
      first [by apply dok_ret|by apply dok_fail]. }
  intros win p2 Hp2 E2 _. rewrite <- E2. by apply Hadd.
Qed.

Lemma dok_watch_op p : inst_wf adc (inst p) -> dokp adc 0 (fun o i => 0 <= o <= 5 /\ i = inst p) watch_op p.
Proof.
  intros Hp. unfold watch_op. eapply (dok_bind _ 0 0); [by apply dok_skip_ws|]. intros [] p1 Hp1 <- _.
  eapply (dok_bind _ 0 0 (fun _ i => i = inst p1)). { unfold dokp. split; [lia|done]. }
  intros pk p2 Hp2 <- _. destruct (is_ident_start pk); [|by apply dok_ret].
  eapply (dok_bind _ 0 0); [by apply dok_10, dok_need_ident|]. intros s p3 Hp3 <- _.
  eapply (dok_bind _ 0 0 (fun o i => 0 <= o <= 5 /\ i = inst p3)).
  { repeat match goal with |- context [if ident_equals ?a ?b then _ else _] => destruct (ident_equals a b) end;
      first [by apply dok_ret|by apply dok_fail]. }
  intros o p4 Hp4 [Ho <-] _. eapply (dok_bind _ 0 0); [by apply dok_10, dok_expect|]. intros [] p5 Hp5 <- _.
  by apply dok_ret.
Qed.

Lemma virt_lookup_in s : virt_lookup s <> 0xFF -> In (virt_lookup s) (map snd k_virt_pins).
Proof.
  unfold virt_lookup. destruct (find _ _) as [e|] eqn:E; [|done]. intros _.
  apply find_some in E as [E _]. by apply in_map.
Qed.

Lemma virt_range z : In z (map snd k_virt_pins) -> 0xE0 <= z <= 0xF3.
Proof. vm_compute map. cbn. intros H. repeat (destruct H as [<- | H]; [lia|]). destruct H. Qed.

Lemma dok_watch_input s p :
  inst_wf adc (inst p) ->
  dokp adc 0 (fun k i => (k < length (inputs i))%nat /\ watches i = watches (inst p)) (watch_input adc s) p.
Proof.
  intros Hp. destruct (decide (adc = true)) as [Ea|Ea].
  { replace (watch_input adc s) with (resolve_adc_stream s) by by rewrite Ea. by apply dok_resolve. }
  apply not_true_is_false in Ea. replace (watch_input adc s) with (watch_input false s) by by rewrite Ea.
  unfold watch_input.
  destruct (zget 0 s 0 =? 0x5F).
  - destruct (Z.eqb_spec (virt_lookup s) 0xFF); [by apply dok_fail|].
    pose proof (virt_lookup_in s ltac:(done)) as Hv. unfold find_input_idx.
    apply dok_find_add; [done|by apply io_virtual|]. intros Hn _. cbn [in_phys]. rewrite elem_of_app.
    intros [H|H]; [by apply (find_index_map in_phys) in Hn|].
    apply virt_range in Hv. apply list_elem_of_fmap in H as (o & Ho & Hin).
    destruct Hp as [_ _ _ [_ Hf] _]. rewrite Forall_forall in Hf. destruct (Hf o Hin) as (Hr & _). lia.
  - destruct (board_pin_lookup s) as [bp|]; [|by apply dok_fail].
    eapply (dok_bind _ 0 0); [by apply dok_dinst|]. intros i p1 Hp1 [-> <-] _.
    destruct (find_input_idx _ _) as [k|] eqn:E; [|by apply dok_fail]. apply dok_ret; [done|]. split; [|done].
    apply find_index_Some in E as (l1 & y & l2 & -> & -> & _). rewrite length_app. simpl. lia.
Qed.

Lemma dok_watch_clause g p :
  inst_wf adc (inst p) -> 0 <= g <= zlen (watches (inst p)) ->
  dokp adc 1 (fun _ i => g < zlen (watches i)) (watch_clause adc g) p.
Proof.
  intros Hp Hg. unfold watch_clause.
  eapply (dok_bind _ 1 0); [by apply dok_need_ident|]. intros lbl p1 Hp1 E1 _. rewrite <- E1 in Hg.
  eapply (dok_bind _ 0 0); [by apply dok_10, dok_expect|]. intros [] p2 Hp2 E2 _. rewrite <- E2 in Hg.
  eapply (dok_bind _ 0 0); [by apply dok_watch_op|]. intros o p3 Hp3 [Ho E3] _. rewrite <- E3 in Hg.
  eapply (dok_bind _ 0 0); [by apply dok_10, dok_need_number|]. intros v p4 Hp4 [Hv E4] _. rewrite <- E4 in Hg.
  eapply (dok_bind _ 0 0); [by apply dok_watch_input|]. intros k p5 Hp5 [Hk E5] _. rewrite <- E5 in Hg.
  eapply (dok_bind _ 0 0); [by apply dok_dinst|]. intros i p6 Hp6 [-> E6] _. rewrite <- E6 in Hk, Hg.
  destruct (_ && _) eqn:Eh; [by apply dok_fail|].
  destruct (Z.leb_spec IL_MAX_WATCHES (zlen (watches (inst p6)))); [by apply dok_fail|].
  apply dok_dmodify; [|unfold field_map; cbn [watches]; rewrite zlen_app; change (zlen [_]) with 1; lia].
  destruct Hp6 as [H1 [H2 H2'] [H3 H3'] H4 H5]. unfold field_map.
  split; cbn [name inputs watches outputs]; try done.
  split; [rewrite zlen_app; change (zlen [_]) with 1; lia|]. apply Forall_app. split; [done|].
  constructor; [|constructor]. unfold IL_MAX_INPUTS, zlen in H2.
  assert (Hu : u8 (Z.of_nat k) = Z.of_nat k) by (apply u8_id; unfold fits; lia).
  unfold watch_ok. cbn [input_idx op threshold group]. rewrite Hu, Nat2Z.id.
  split; [|split; [lia|split; [done|split; [done|cbn; lia]]]].
  destruct (lookup_lt_is_Some_2 _ _ Hk) as [x Hx]. exists x. split; [done|]. intros Hh.
  rewrite (nth_lookup_Some _ _ _ _ Hx) in Eh. unfold nz in Eh.
  destruct (Z.eqb_spec (hyst x) 0); [done|]. cbn [negb andb] in Eh. bools.
  unfold directional, IL_OP_EQ, IL_OP_NE, IL_OP_LT, IL_OP_GT, IL_OP_LE, IL_OP_GE in *. lia.
Qed.

Lemma dok_parse_watch fuel : forall g p,
  inst_wf adc (inst p) -> 0 <= g <= zlen (watches (inst p)) -> (length (rest p) < fuel)%nat ->
  dokp adc 0 (fun _ _ => True) (parse_watch fuel adc g) p.
Proof.
  induction fuel as [|fuel IH]; intros g p Hp Hg Hf; [lia|]. cbn [parse_watch]. apply dok_10.
  eapply (dok_bind _ 1 0); [by apply dok_watch_clause|]. intros [] p1 Hp1 Hg1 Hl.
  apply dok_consume; [done| |]; intros r Hr; [apply IH; cbn [rest inst]; done || lia|].
  apply dok_consume; [done| |]; cbn [rest inst]; intros r2 Hr2; [|by apply dok_ret].
  destruct Hp1 as [? ? [Hw ?] ? ?]. rewrite u8_id by (unfold fits, IL_MAX_WATCHES in *; lia).
  apply IH; cbn [rest inst]; [by split|lia..].
Qed.

(** *** The output blocks *)
Lemma dok_out_pin b p : inst_wf adc (inst p) -> dokp adc 1 (fun _ _ => True) (out_pin b) p.
Proof.
  intros Hp. unfold out_pin.
  eapply (dok_bind _ 1 0); [by apply dok_need_ident|]. intros lbl p1 Hp1 _ _.
  eapply (dok_bind _ 0 0); [by apply dok_10, dok_expect|]. intros [] p2 Hp2 _ _.
  eapply (dok_bind _ 0 0); [by apply dok_10, dok_need_number|]. intros v p3 Hp3 [Hv _] _.
  destruct (Z.ltb_spec 1 v); [by apply dok_fail|]. destruct (board_pin_lookup lbl) as [bp|]; [|by apply dok_fail].
  eapply (dok_bind _ 0 0); [by apply dok_dinst|]. intros i p4 Hp4 [-> _] _.
  destruct (find_output_idx _ _) as [k|]; [|by apply dok_fail].
  apply dok_dmodify; [|done]. destruct Hp4 as [H1 H2 H3 [H4 H4'] H5]. unfold field_map at 1 2.
  unfold fits in Hv. rewrite u8_id by (unfold fits; lia).
  split; cbn [name inputs watches outputs]; [done..| |].
  - unfold zlen. rewrite length_alter. split; [done|]. apply Forall_alter; [done|].
    intros o _ (? & ? & ? & ?). destruct b; unfold output_ok, field_map; cbn; lia.
  - intros Ha. specialize (H5 Ha).
    assert (E : map out_phys (alter (fun o => if b then o <| ok_val := v |> else o <| err_val := v |>) k (outputs (inst p4)))
      = map out_phys (outputs (inst p4))).
    { clear. revert k. induction (outputs (inst p4)) as [|o l IH]; intros [|k]; cbn; try done.
      - f_equal. by destruct b.
      - f_equal. apply IH. }
    match goal with |- NoDup (_ ++ ?l) => replace l with (map out_phys (outputs (inst p4))) end; done.
Qed.

Lemma dok_parse_out_block fuel b : forall p,
  inst_wf adc (inst p) -> (length (rest p) < fuel)%nat ->
  dokp adc 0 (fun _ _ => True) (parse_out_block fuel b) p.
Proof.
  induction fuel as [|fuel IH]; intros p Hp Hf; [lia|]. cbn [parse_out_block]. apply dok_10.
  eapply (dok_bind _ 1 0); [by apply dok_out_pin|]. intros [] p1 Hp1 _ Hl.
  apply dok_consume; [done| |]; intros r Hr; [|by apply dok_ret]. apply IH; cbn [rest inst]; [done|lia].
Qed.

(** *** The driver *)
Lemma dok_fuelled (m : nat -> dsl unit) p :
  inst_wf adc (inst p) ->
  (forall f, (length (rest p) < f)%nat -> dokp adc 0 (fun _ _ => True) (m f) p) ->
  dokp adc 0 (fun _ _ => True) (fuelled m) p.
Proof. intros Hp H. unfold dokp, fuelled in *. apply (H (S (length (rest p)))). lia. Qed.

Lemma dok_il_section seen p :
  inst_wf adc (inst p) -> dokp adc 1 (fun _ _ => True) (il_section adc seen) p.
Proof.
  intros Hp. unfold il_section.
  eapply (dok_bind _ 1 0); [by apply dok_need_ident|]. intros kw p1 Hp1 _ _.
  eapply (dok_bind _ 0 0); [by apply dok_10, dok_expect|]. intros [] p2 Hp2 _ _.
  eapply (dok_bind _ 0 0 (fun _ _ => True)).
  { assert (Hf : forall (m : nat -> dsl unit) r, (forall f, (length (rest p2) < f)%nat -> dokp adc 0 (fun _ _ => True) (m f) p2) ->
      dokp adc 0 (fun _ _ => True) (fuelled m;;; dret (A := bool * bool) r) p2).
    { intros m r Hm. eapply (dok_bind _ 0 0); [by apply dok_fuelled|]. intros [] q Hq _ _. by apply dok_ret. }
    destruct (ident_equals kw "cfg"); [apply Hf; intros; by apply dok_parse_cfg|].
    destruct (ident_equals kw "watch"); [apply Hf; intros; apply dok_parse_watch; [done|pose proof (zlen_nonneg (watches (inst p2))); lia|done]|].
    destruct (ident_equals kw "out_ok"); [apply Hf; intros; by apply dok_parse_out_block|].
    destruct (ident_equals kw "out_err"); [apply Hf; intros; by apply dok_parse_out_block|by apply dok_fail]. }
  intros seen' p3 Hp3 _ _.
  eapply (dok_bind _ 0 0); [by apply dok_10, dok_expect|]. intros [] p4 Hp4 _ _. by apply dok_ret.
Qed.

Lemma dok_il_sections fuel : forall seen p,
  inst_wf adc (inst p) -> (length (rest p) < fuel)%nat ->
  dokp adc 0 (fun _ _ => True) (il_sections fuel adc seen) p.
Proof.
  induction fuel as [|fuel IH]; intros seen p Hp Hf; [lia|]. cbn [il_sections].
  apply dok_consume; [done| |]; intros r Hr; [|by apply dok_ret].
  apply dok_10. eapply (dok_bind _ 1 0); [by apply dok_il_section|]. intros seen' p1 Hp1 _ Hl.
  apply IH; [done|]. cbn [rest inst] in *. lia.
Qed.

Lemma dok_il_name p : inst_wf adc (inst p) -> dokp adc 0 (fun _ _ => True) il_name p.
Proof.
  intros Hp. unfold il_name. eapply (dok_bind _ 0 0); [by apply dok_10, dok_need_ident|].
  intros n p1 Hp1 _ _. unfold IL_NAME_MAX, zlen. destruct (Z.leb_spec 16 (Z.of_nat (length n))); [by apply dok_fail|].
  apply dok_dmodify; [|done]. destruct Hp1 as [_ H2 H3 H4 H5]. unfold field_map.
  split; cbn [name inputs watches outputs]; try done. rewrite length_app, length_replicate. split; [lia|].
  apply elem_of_app. right. apply elem_of_replicate. split; [done|lia].
Qed.

Lemma inst0_wf : inst_wf adc inst0.
Proof.
  split; [|split; [vm_compute; discriminate|constructor]..|].
  - split; [done|]. by apply list_elem_of_here.
  - intros _. constructor.
Qed.

Lemma dok_il_text p : inst_wf adc (inst p) -> dokp adc 0 (fun _ _ => True) (il_text adc) p.
Proof.
  intros Hp. unfold il_text. eapply (dok_bind _ 0 0); [by apply dok_il_name|]. intros [] p1 Hp1 _ _.
  eapply (dok_bind _ 0 0 (fun _ _ => True)).
  { unfold fuelled, dokp. apply (dok_il_sections (S (length (rest p1))) (false, false) p1 Hp1). lia. }
  intros seen p2 Hp2 _ _. eapply (dok_bind _ 0 0); [by apply dok_skip_ws|]. intros [] p3 Hp3 _ _.
  unfold dokp. destruct (negb (at_end p3)); [done|]. split; [lia|done].
Qed.
End Cfg.

(** The parser always stops; what it accepts is well-formed, with outputs that
    tell OK from error. *)
Lemma il_parse_impl_spec adc text :
  exists st off i, il_parse_impl text adc = Some (st, off, i) /\
    (match off with Some o => 0 <= o <= zlen text | None => True end) /\
    (st = IL_PARSE_OK -> inst_wf adc i /\ tf_state i = IL_TF_UNEVALUATED /\
       Forall (fun o => ok_val o <> err_val o) (outputs i)).
Proof.
  unfold il_parse_impl. destruct (zlen text =? 0); [by exists IL_PARSE_EMPTY, None, inst0|].
  pose proof (dok_il_text adc (mk_parser text inst0) (inst0_wf adc)) as H. unfold dokp in H.
  destruct (il_text adc _) as [seen p|st p|]; [| |done].
  - destruct H as (_ & Hw & _). eexists _, _, _. split; [reflexivity|]. split; [done|].
    intros Hst. rewrite Hst. cbn. destruct Hw as [H1 H2 H3 H4 H5].
    split; [by split|]. split; [done|]. unfold il_outputs_check in Hst.
    destruct (Z.eqb_spec (zlen (outputs (inst p))) 0) as [E|_].
    { unfold field_map; cbn [outputs]. unfold zlen in E. by destruct (outputs (inst p)). }
    destruct (negb seen.1); [done|]. destruct (negb seen.2); [done|].
    destruct (existsb _ _) eqn:Ex; [done|]. unfold field_map; cbn [outputs].
    apply Forall_forall. intros o Ho Heq.
    assert (existsb (fun o => ok_val o =? err_val o) (outputs (inst p)) = true); [|congruence].
    apply existsb_exists. exists o. split; [by apply list_elem_of_In|]. by apply Z.eqb_eq.
  - eexists _, _, _. split; [reflexivity|]. split; [cbn [rest] in H; unfold zlen; destruct H; lia|].
    destruct H as [_ H]. by intros ->.
Qed.

(** C33. Both entry points of the parser stop on every text and return a status;
    an error offset lies inside the text; and an interlock they accept is
    well-formed: counts within the arrays, every pin on the header, every watch on
    an existing input, hysteresis only under a directional operator, no pin used
    twice (device texts), a name with its terminator, OK and error values that
    differ on every output, and a slot that starts unevaluated. *)
Theorem il_parse_total_wf text :
  (exists r, il_parse text = Some r) /\ (exists r, il_parse_adc text = Some r) /\
  forall adc st off i, il_parse_impl text adc = Some (st, off, i) ->
    (forall o, off = Some o -> 0 <= o <= zlen text) /\
    (st = IL_PARSE_OK -> inst_wf adc i /\ tf_state i = IL_TF_UNEVALUATED /\
       Forall (fun o => ok_val o <> err_val o) (outputs i)).
Proof.
  assert (Ht : forall adc, exists r, il_parse_impl text adc = Some r).
  { intros adc. destruct (il_parse_impl_spec adc text) as (st & off & i & E & _). eauto. }
  split; [apply Ht|]. split; [apply Ht|]. intros adc st off i E.
  destruct (il_parse_impl_spec adc text) as (st' & off' & i' & E' & Ho & Hw).
  rewrite E in E'. injection E' as <- <- <-. split; [|done]. intros o ->. exact Ho.
Qed.

(** A text as it is written, and what the parser makes of it. *)
Example parse_estop :
  il_parse (lit "estop;cfg[gp2:in,up,debounce_3,gp0:oc];watch[gp2:1];out_ok[gp0:1];out_err[gp0:0]") =
  Some (IL_PARSE_OK, None,
    mk_inst (lit "estop" ++ replicate 11 0) IL_TF_UNEVALUATED
      [mk_input 2 IL_PIN_MODE_IN_PU 0 0 3 0] [mk_watch 0 IL_OP_EQ 1 0] [mk_output 0 1 0 1]).
Proof. vm_compute. reflexivity. Qed.

(** The open-collector output with its pull-up is written [oc,up]; the [oc:up] of
    the comments is not in the grammar. *)
Lemma parse_oc_up :
  (exists i, il_parse (lit "e;cfg[gp0:oc,up];out_ok[gp0:1];out_err[gp0:0]") = Some (IL_PARSE_OK, None, i)
     /\ map od (outputs i) = [2]) /\
  (exists i, il_parse (lit "e;cfg[gp0:oc:up];out_ok[gp0:1];out_err[gp0:0]")
     = Some (IL_PARSE_UNEXPECTED_CHAR, Some 12, i)).
Proof. split; eexists; vm_compute; [split; reflexivity|reflexivity]. Qed.

(** A stream text may name a pin that has no ADC channel. *)
Lemma parse_stream_no_channel :
  exists i, il_parse_adc (lit "a;watch[gp5_avg_hz10:gt:9]") = Some (IL_PARSE_OK, None, i)
    /\ map in_phys (inputs i) = [BOARD_PIN_ADC_NONE].
Proof. eexists. vm_compute. split; reflexivity. Qed.
