(* ===== verification/Interlock.v ===== *)
(** The interlock framework ([node/interlock/interlock.c]) and its bring-up
    ([app/bus_controller/main.c]): slots that survive a reset, the boot decision,
    arming and disarming, the tick with its latches and veto, the status blocks.

    A function that calls [verify_persist_or_panic] may not return: its result is a
    value, a panic with the state the reset will find, or a loop that does not end. *)
From S2P Require Import Prelude CfgFile IlPinTable IlHal InterlockDsl.

(** ** Constants ([interlock.h], [interlock.c]) *)
Definition INTERLOCK_MAGIC : Z := 0xCD51AC73.
Definition INTERLOCK_PERSIST_VERSION : Z := 10.
Definition INTERLOCK_MAX_SLOTS : Z := 10.
Definition INTERLOCK_MAX_BOOT_ATTEMPTS : Z := 3.
Definition INTERLOCK_ID_NONE : Z := 0.
Definition INTERLOCK_ID_NOOP : Z := 1.
Definition INTERLOCK_ID_DSL : Z := 2.
Definition INTERLOCK_CRASHED_SLOT_NONE : Z := 0xFF.
Definition INTERLOCK_SLOT_EMPTY : Z := 0.
Definition INTERLOCK_SLOT_ARMED : Z := 1.
Definition INTERLOCK_SLOT_POISONED : Z := 2.
Definition SHELL_STATUS_OK : Z := 0.
Definition SHELL_STATUS_BAD_ARGS : Z := 2.
Definition SHELL_STATUS_BUSY : Z := 5.
Definition PANIC_NONE : Z := 0.
Definition PANIC_PERSIST_MAGIC_BAD : Z := 2.
Definition PANIC_PERSIST_VERSION_BAD : Z := 3.
Definition PANIC_PERSIST_SIZE_BAD : Z := 4.
Definition IL_GRACE_MS : Z := 250.
Definition IL_STATUS_BUFFER_VERSION : Z := 3.
Definition IL_STATUS_SLOT_NAME_MAX : Z := 8.

(** ** Data *)
Record interlock_slot_persist_t := mk_slot { sl_state : Z; sl_id : Z; boot_counter : Z; latched : Z }.
#[export] Instance eta_slot : Settable interlock_slot_persist_t := fun s =>
  mk_slot (sl_state s) (sl_id s) (boot_counter s) (latched s).
Definition slot0 : interlock_slot_persist_t := mk_slot INTERLOCK_SLOT_EMPTY INTERLOCK_ID_NONE 0 0.

Record interlock_crash_record_t := mk_crash {
  last_pc : Z; last_lr : Z; last_rstsr : Z; last_crashed_slot : Z;
  panic_code : Z; panic_arg : Z; panic_sp : Z
}.
#[export] Instance eta_crash : Settable interlock_crash_record_t := fun c =>
  mk_crash (last_pc c) (last_lr c) (last_rstsr c) (last_crashed_slot c) (panic_code c) (panic_arg c) (panic_sp c).
Definition crash0 : interlock_crash_record_t := mk_crash 0 0 0 INTERLOCK_CRASHED_SLOT_NONE PANIC_NONE 0 0.

(** The record in the RAM that a reset leaves alone. *)
Record interlock_persist_t := mk_persist {
  magic : Z; version : Z; self_size : Z;
  slots : list interlock_slot_persist_t; crash : interlock_crash_record_t;
  insts : list il_inst_t; dsl_len : list Z; dsl_text : list (list Z); cfg_fingerprint : Z
}.
#[export] Instance eta_persist : Settable interlock_persist_t := fun p =>
  mk_persist (magic p) (version p) (self_size p) (slots p) (crash p) (insts p) (dsl_len p)
    (dsl_text p) (cfg_fingerprint p).

(** [sizeof(il_inst_t)] and [sizeof(interlock_persist_t)]. *)
Definition sizeof_inst : Z := 16 + 4 + 8 * IL_MAX_INPUTS + 8 * IL_MAX_WATCHES + 4 * IL_MAX_OUTPUTS.
Definition sizeof_persist : Z :=
  8 + 4 * INTERLOCK_MAX_SLOTS + 24 + sizeof_inst * INTERLOCK_MAX_SLOTS + 2 * INTERLOCK_MAX_SLOTS
  + IL_DSL_MAX * INTERLOCK_MAX_SLOTS + 4.

(** One slot's part of [g_input_shift_reg], [g_input_debounced], [g_watch_last_pass]. *)
Record slot_rt := mk_rt { shift_reg : list Z; debounced : list Z; last_pass : list Z }.
#[export] Instance eta_rt : Settable slot_rt := fun r => mk_rt (shift_reg r) (debounced r) (last_pass r).
Definition rt0 : slot_rt := mk_rt (replicate 7 0) (replicate 7 0) (replicate 8 0).

Record il_status_slot_t := mk_status_slot { st_state : Z; st_id : Z; st_tf : Z; st_bc : Z;
  st_name : list Z; st_veto : Z }.
#[export] Instance eta_status_slot : Settable il_status_slot_t := fun s =>
  mk_status_slot (st_state s) (st_id s) (st_tf s) (st_bc s) (st_name s) (st_veto s).
Definition status_slot0 : il_status_slot_t := mk_status_slot 0 0 0 0 (replicate 8 0) 0.
Record il_status_buffer_t := mk_status {
  sb_version : Z; sb_num_slots : Z; status_seq : Z; crash_panic_code : Z; stack_hwm_bytes : Z;
  sb_slots : list il_status_slot_t; input_vals : list (list Z)
}.
#[export] Instance eta_status : Settable il_status_buffer_t := fun b =>
  mk_status (sb_version b) (sb_num_slots b) (status_seq b) (crash_panic_code b) (stack_hwm_bytes b)
    (sb_slots b) (input_vals b).
Definition status0 : il_status_buffer_t :=
  mk_status 0 0 0 0 0 (replicate 10 status_slot0) (replicate 10 (replicate 7 0)).

(** All the statics of the framework, its HAL, and the bring-up's diagnostics. *)
Record il_state := mk_il {
  persist : interlock_persist_t; runtime : list slot_rt; active_slot : Z; clear_request : bool;
  grace_until : Z; status : il_status_buffer_t; repush_req : bool; hal : hal_t;
  armfail : Z; ilcf_rc : Z
}.
#[export] Instance eta_il : Settable il_state := fun s =>
  mk_il (persist s) (runtime s) (active_slot s) (clear_request s) (grace_until s) (status s)
    (repush_req s) (hal s) (armfail s) (ilcf_rc s).
(** A reset with [p] in the surviving RAM: everything else is as the linker set it. *)
Definition il_reset (p : interlock_persist_t) : il_state :=
  mk_il p (replicate 10 rt0) INTERLOCK_CRASHED_SLOT_NONE false 0 status0 false hal0 0 0.

Inductive res (A : Type) := Done (a : A) (s : il_state) | Panic (s : il_state) | Hang.
Arguments Done {A} a s.
Arguments Panic {A} s.
Arguments Hang {A}.
Definition il (A : Type) := il_state -> res A.
Definition ibind {A B} (m : il A) (f : A -> il B) : il B := fun s =>
  match m s with Done a s => f a s | Panic s => Panic s | Hang => Hang end.
Definition iret {A} (a : A) : il A := fun s => Done a s.
Definition imod (f : il_state -> il_state) : il unit := fun s => Done tt (f s).
Fixpoint ifor {A} (l : list A) (f : A -> il unit) : il unit :=
  match l with [] => iret tt | x :: l => ibind (f x) (fun _ => ifor l f) end.

Declare Scope il_scope.
Notation "x <~ m ;; k" := (ibind m (fun x => k))
  (at level 100, m at next level, right associativity) : il_scope.
Notation "m ;~ k" := (ibind m (fun _ => k)) (at level 100, right associativity) : il_scope.
#[local] Open Scope il_scope.

(** What a read of the hardware or of another part's variable returns, at one moment. *)
Record env := mk_env {
  gpio_get : Z -> bool; adc_latest : Z -> Z; adc_stat : Z -> Z -> Z; millis : Z;
  g_stack_hwm_bytes : Z; g_last_m2s_rx_ms : Z; g_il_nodes_dead : Z
}.
(** A tick reads at many moments: one per input, and around. *)
Record tick_env := mk_tick_env {
  at_clear : env; at_input : Z -> Z -> env; at_latch : env; at_status : env
}.

(** [for (slot = 0; slot < INTERLOCK_MAX_SLOTS; slot++)] *)
Definition slot_ids : list Z := [0; 1; 2; 3; 4; 5; 6; 7; 8; 9].
Definition slot_of (s : il_state) (i : Z) : interlock_slot_persist_t := zget slot0 (slots (persist s)) i.
Definition inst_of (s : il_state) (i : Z) : il_inst_t := zget inst0 (insts (persist s)) i.
Definition rt_of (s : il_state) (i : Z) : slot_rt := zget rt0 (runtime s) i.
Definition set_slot (i : Z) (f : interlock_slot_persist_t -> interlock_slot_persist_t) (s : il_state) : il_state :=
  s <| persist ::= fun p => p <| slots ::= fun l => zset l i (f (zget slot0 l i)) |> |>.
Definition set_inst (i : Z) (f : il_inst_t -> il_inst_t) (s : il_state) : il_state :=
  s <| persist ::= fun p => p <| insts ::= fun l => zset l i (f (zget inst0 l i)) |> |>.
Definition set_dsl_len (i v : Z) (s : il_state) : il_state :=
  s <| persist ::= fun p => p <| dsl_len ::= fun l => zset l i v |> |>.
Definition set_dsl_text (i : Z) (f : list Z -> list Z) (s : il_state) : il_state :=
  s <| persist ::= fun p => p <| dsl_text ::= fun l => zset l i (f (zget [] l i)) |> |>.
Definition set_rt (i : Z) (r : slot_rt) (s : il_state) : il_state :=
  s <| runtime ::= fun l => zset l i r |>.
Definition armed (s : il_state) (i : Z) : bool := sl_state (slot_of s i) =? INTERLOCK_SLOT_ARMED.

(** ** Requests and the grace window *)
Definition interlock_request_global_clear (s : il_state) : il_state := s <| clear_request := true |>.
Definition il_in_grace (ms : Z) (s : il_state) : bool := 0 <? s32 (grace_until s - ms).
Definition interlock_begin_grace (ms : Z) (s : il_state) : il_state := s <| grace_until := u32 (ms + IL_GRACE_MS) |>.
Definition interlock_request_repush (s : il_state) : il_state := s <| repush_req := true |>.
Definition interlock_take_repush (s : il_state) : bool * il_state := (repush_req s, s <| repush_req := false |>).

Definition clear_slot_runtime (slot : Z) (s : il_state) : il_state := set_rt slot rt0 s.

(** ** Virtual inputs *)
Definition read_virtual_input (e : env) (virt_id : Z) : Z :=
  let now_ms := millis e in
  if virt_id =? IL_VIRT_T_SINCE_M2S then
    let dt_s := u32 (now_ms - g_last_m2s_rx_ms e) / 1000 in
    if 65535 <? dt_s then 65535 else u16 dt_s
  else if virt_id =? IL_VIRT_UPTIME then
    let up_s := now_ms / 1000 in
    if 65535 <? up_s then 65535 else u16 up_s
  else if virt_id =? IL_VIRT_STACK_HWM then g_stack_hwm_bytes e
  else if virt_id =? IL_VIRT_NODES_DEAD then g_il_nodes_dead e
  else if (IL_VIRT_ADC_BASE <=? virt_id) && (virt_id <? IL_VIRT_ADC_BASE + IL_VIRT_ADC_COUNT) then
    let off := u8 (virt_id - IL_VIRT_ADC_BASE) in
    adc_stat e (u8 (off / 4)) (u8 (off mod 4 + 1))
  else 0.

(** ** The registry of compiled modes *)
Definition interlock_set_slot_tf (slot tf : Z) (s : il_state) : il_state :=
  if INTERLOCK_MAX_SLOTS <=? slot then s else set_inst slot (fun i => i <| tf_state := u8 tf |>) s.

Record interlock_def_t := mk_def {
  def_name : list Z; def_init : Z -> il_state -> il_state;
  def_tick : Z -> il_state -> il_state; def_terminate : Z -> il_state -> il_state
}.
Definition noop_init (slot : Z) (s : il_state) : il_state := s.
Definition noop_tick (slot : Z) (s : il_state) : il_state := interlock_set_slot_tf slot IL_TF_TRUE s.
Definition noop_terminate (slot : Z) (s : il_state) : il_state := s.
Definition g_interlocks : list interlock_def_t :=
  [mk_def (lit "noop") noop_init noop_tick noop_terminate].
Definition g_interlock_count : Z := u8 (zlen g_interlocks).
Definition def_at (i : Z) : interlock_def_t :=
  zget (mk_def [] noop_init noop_tick noop_terminate) g_interlocks i.
Definition compiled (id : Z) : bool := negb (id =? INTERLOCK_ID_NONE) && (id <=? g_interlock_count).

(** A callback, with the slot on record as the active one. *)
Definition with_active (slot : Z) (f : il_state -> il_state) (s : il_state) : il_state :=
  f (s <| active_slot := slot |>) <| active_slot := INTERLOCK_CRASHED_SLOT_NONE |>.

(** ** Boot decision *)
Definition slot_valid (p : interlock_persist_t) (i : Z) : bool :=
  let s := zget slot0 (slots p) i in
  let L := zget 0 (dsl_len p) i in
  if INTERLOCK_SLOT_POISONED <? sl_state s then false
  else if negb (sl_id s =? INTERLOCK_ID_NONE) && negb (sl_id s =? INTERLOCK_ID_NOOP)
          && negb (sl_id s =? INTERLOCK_ID_DSL) then false
  else if (sl_state s =? INTERLOCK_SLOT_ARMED) && (sl_id s =? INTERLOCK_ID_NONE) then false
  else if (sl_state s =? INTERLOCK_SLOT_ARMED) && (sl_id s =? INTERLOCK_ID_DSL)
          && ((L =? 0) || (IL_DSL_MAX <=? L)) then false
  else true.
Definition persist_is_valid (p : interlock_persist_t) : bool :=
  if negb (magic p =? INTERLOCK_MAGIC) then false
  else if negb (version p =? INTERLOCK_PERSIST_VERSION) then false
  else if negb (self_size p =? u16 sizeof_persist) then false
  else if negb (forallb (slot_valid p) slot_ids) then false
  else if negb (last_crashed_slot (crash p) =? INTERLOCK_CRASHED_SLOT_NONE)
          && (INTERLOCK_MAX_SLOTS <=? last_crashed_slot (crash p)) then false
  else true.

(** Every field is written, whatever the RAM held. *)
Definition persist_cold_init : interlock_persist_t :=
  mk_persist INTERLOCK_MAGIC INTERLOCK_PERSIST_VERSION (u16 sizeof_persist) (replicate 10 slot0) crash0
    (replicate 10 inst0) (replicate 10 0) (replicate 10 (replicate 128 0)) 0.

Definition boot_slot (s : interlock_slot_persist_t) : interlock_slot_persist_t :=
  if sl_state s =? INTERLOCK_SLOT_ARMED then
    if INTERLOCK_MAX_BOOT_ATTEMPTS <=? boot_counter s then s <| sl_state := INTERLOCK_SLOT_POISONED |>
    else s <| boot_counter := u8 (boot_counter s + 1) |>
  else s.
Definition interlock_boot_decide (s : il_state) : il_state :=
  if negb (persist_is_valid (persist s)) then s <| persist := persist_cold_init |>
  else foldl (fun s i => set_slot i boot_slot s) s slot_ids.

Definition interlock_armed_count (s : il_state) : Z :=
  foldl (fun n i => if armed s i then u8 (n + 1) else n) 0 slot_ids.

Definition interlock_summary_flags (s : il_state) : Z :=
  let sb := status s in
  foldl (fun f i =>
    if (i <? sb_num_slots sb) && ((st_state (zget status_slot0 (sb_slots sb) i) =? INTERLOCK_SLOT_ARMED)
       && (st_tf (zget status_slot0 (sb_slots sb) i) =? IL_TF_FALSE)) then Z.lor f 1 else f) 0 slot_ids.

Section Framework.
(** What the platform decides, and the two registers a panic records. *)
Context `{IlPlat} (sp_reg caller_pc : Z).

(** ** Panics *)
Definition il_panic {A} (code arg : Z) : il A := fun s =>
  Panic (s <| persist ::= fun p => p <| crash :=
    mk_crash caller_pc 0 0 (active_slot s) (u8 code) arg sp_reg |> |>).

Definition verify_persist_or_panic : il unit := fun s =>
  let p := persist s in
  if negb (magic p =? INTERLOCK_MAGIC) then il_panic PANIC_PERSIST_MAGIC_BAD (magic p) s
  else if negb (version p =? INTERLOCK_PERSIST_VERSION) then il_panic PANIC_PERSIST_VERSION_BAD (version p) s
  else if negb (self_size p =? u16 sizeof_persist) then il_panic PANIC_PERSIST_SIZE_BAD (self_size p) s
  else Done tt s.

(** ** Slot administration *)
Definition interlock_arm_slot_compiled (slot id : Z) : il Z :=
  verify_persist_or_panic;~ fun s =>
  if INTERLOCK_MAX_SLOTS <=? slot then Done SHELL_STATUS_BAD_ARGS s
  else if id =? INTERLOCK_ID_NONE then Done SHELL_STATUS_BAD_ARGS s
  else if id =? INTERLOCK_ID_DSL then Done SHELL_STATUS_BAD_ARGS s
  else if g_interlock_count <? id then Done SHELL_STATUS_BAD_ARGS s
  else if armed s slot then Done SHELL_STATUS_BUSY s
  else
    let s := set_slot slot (fun _ => mk_slot INTERLOCK_SLOT_ARMED id 0 0) s in
    let s := set_inst slot (fun _ => inst0) s in
    let s := clear_slot_runtime slot s in
    Done SHELL_STATUS_OK (with_active slot (def_init (def_at (id - 1)) slot) s).
Definition interlock_arm_slot_noop (slot : Z) : il Z := interlock_arm_slot_compiled slot INTERLOCK_ID_NOOP.

Definition interlock_disarm_slot (slot : Z) : il Z :=
  verify_persist_or_panic;~ fun s =>
  if INTERLOCK_MAX_SLOTS <=? slot then Done SHELL_STATUS_BAD_ARGS s
  else
    let id := sl_id (slot_of s slot) in
    let s := if armed s slot && negb (id =? INTERLOCK_ID_NONE) && negb (id =? INTERLOCK_ID_DSL)
                && (id <=? g_interlock_count)
             then with_active slot (def_terminate (def_at (id - 1)) slot) s else s in
    let s := s <| hal ::= hal_pin_release_slot slot |> in
    let s := set_slot slot (fun _ => mk_slot INTERLOCK_SLOT_EMPTY INTERLOCK_ID_NONE 0 0) s in
    let s := set_inst slot (fun _ => inst0) s in
    let s := set_dsl_len slot 0 s in
    Done SHELL_STATUS_OK (clear_slot_runtime slot s).

Definition map_input_mode (il_mode : Z) : Z :=
  if il_mode =? IL_PIN_MODE_IN then HAL_PIN_MODE_GPIO_IN
  else if il_mode =? IL_PIN_MODE_IN_PU then HAL_PIN_MODE_GPIO_IN_PU
  else if il_mode =? IL_PIN_MODE_IN_PD then HAL_PIN_MODE_GPIO_IN_PD
  else if il_mode =? IL_PIN_MODE_ADC then HAL_PIN_MODE_ADC_SCAN
  else HAL_PIN_MODE_UNCLAIMED.

(** One input of [claim_inst_pins]; [hal_pin_claim_adc] does nothing with the
    oversampling and sample-and-hold arguments. *)
Definition claim_input (slot : Z) (x : il_input_t) (h : hal_t) : Z * hal_t :=
  if in_mode x =? IL_PIN_MODE_VIRTUAL then (HAL_PIN_CLAIM_OK, h)
  else if in_mode x =? IL_PIN_MODE_ADC then hal_pin_claim_adc (in_phys x) slot h
  else
    let m := map_input_mode (in_mode x) in
    if m =? HAL_PIN_MODE_UNCLAIMED then (HAL_PIN_CLAIM_BAD_MODE, h)
    else hal_pin_claim (in_phys x) slot m h.
Definition claim_output (slot : Z) (o : il_output_t) (h : hal_t) : Z * hal_t :=
  hal_pin_claim_output (out_phys o) slot (ok_val o) (err_val o) (od o) h.
(** The loops: they stop at the first claim that fails. *)
Fixpoint claim_all {A} (claim : A -> hal_t -> Z * hal_t) (l : list A) (h : hal_t) : Z * hal_t :=
  match l with
  | [] => (HAL_PIN_CLAIM_OK, h)
  | x :: l =>
      let '(cs, h) := claim x h in
      if negb (cs =? HAL_PIN_CLAIM_OK) then (cs, h) else claim_all claim l h
  end.
Definition claim_inst_pins (slot : Z) (i : il_inst_t) (h : hal_t) : Z * hal_t :=
  let '(cs, h) := claim_all (claim_input slot) (inputs i) h in
  if negb (cs =? HAL_PIN_CLAIM_OK) then (cs, hal_pin_release_slot slot h)
  else
    let '(cs, h) := claim_all (claim_output slot) (outputs i) h in
    if negb (cs =? HAL_PIN_CLAIM_OK) then (cs, hal_pin_release_slot slot h)
    else (HAL_PIN_CLAIM_OK, h).

(** Status and the three bytes of [err_payload]. *)
Definition interlock_set_slot_dsl (slot : Z) (text : list Z) : il (Z * list Z) :=
  verify_persist_or_panic;~ fun s =>
  let text_len := zlen text in
  if INTERLOCK_MAX_SLOTS <=? slot then Done (SHELL_STATUS_BAD_ARGS, [0; 0; 0]) s
  else if (text_len =? 0) || (IL_DSL_MAX <=? text_len) then Done (SHELL_STATUS_BAD_ARGS, [0; 0; 0]) s
  else if armed s slot then Done (SHELL_STATUS_BUSY, [0; 0; 0]) s
  else
    match il_parse text with
    | None => Hang
    | Some (pst, off, parsed) =>
        let err_off := default 0 off in
        if negb (pst =? IL_PARSE_OK) then
          Done (SHELL_STATUS_BAD_ARGS, [u8 pst; lo8 err_off; u8 (Z.land (Z.shiftr err_off 8) 0xFF)]) s
        else
          let '(cs, h) := claim_inst_pins slot parsed (hal s) in
          let s := s <| hal := h |> in
          if negb (cs =? HAL_PIN_CLAIM_OK) then Done (SHELL_STATUS_BUSY, [0xFF; u8 cs; 0]) s
          else
            let s := set_inst slot (fun _ => parsed) s in
            let s := set_dsl_len slot text_len s in
            let s := set_dsl_text slot (fun l => text ++ [0] ++ drop (S (length text)) l) s in
            let s := set_slot slot (fun _ => mk_slot INTERLOCK_SLOT_ARMED INTERLOCK_ID_DSL 0 0) s in
            Done (SHELL_STATUS_OK, [0; 0; 0]) (clear_slot_runtime slot s)
    end.

(** ** Warm restore *)
Definition poison (slot : Z) (s : il_state) : il_state :=
  set_slot slot (fun sl => sl <| sl_state := INTERLOCK_SLOT_POISONED |>) s.
Definition restore_slot (slot : Z) : il unit := fun s =>
  let sl := slot_of s slot in
  if negb (sl_state sl =? INTERLOCK_SLOT_ARMED) then Done tt s
  else if negb (sl_id sl =? INTERLOCK_ID_DSL) then
    let s := if compiled (sl_id sl) then with_active slot (def_init (def_at (sl_id sl - 1)) slot) s else s in
    Done tt (clear_slot_runtime slot s)
  else
    let text_len := zget 0 (dsl_len (persist s)) slot in
    if (text_len =? 0) || (IL_DSL_MAX <=? text_len) then Done tt (poison slot s)
    else
      match il_parse (take (Z.to_nat text_len) (zget [] (dsl_text (persist s)) slot)) with
      | None => Hang
      | Some (pst, _, parsed) =>
          if negb (pst =? IL_PARSE_OK) then Done tt (poison slot s)
          else
            let '(cs, h) := claim_inst_pins slot parsed (hal s) in
            let s := s <| hal := h |> in
            if negb (cs =? HAL_PIN_CLAIM_OK) then Done tt (poison slot s)
            else Done tt (clear_slot_runtime slot
                   (set_inst slot (fun _ => parsed <| tf_state := IL_TF_UNEVALUATED |>) s))
      end.
Definition interlock_warm_restore : il unit :=
  verify_persist_or_panic;~ ifor slot_ids restore_slot.

(** ** Evaluation *)

(** The inner loop of [il_dnf_result]: whether group [g] has a clause, and whether
    none of its clauses before the [break] fails. *)
Fixpoint group_scan (g : Z) (ws : list il_watch_t) (wpass : list bool) : bool * bool :=
  match ws with
  | [] => (false, true)
  | w :: ws =>
      if negb (group w =? g) then group_scan g ws (tail wpass)
      else if negb (default false (head wpass)) then (true, false)
      else (true, (group_scan g ws (tail wpass)).2)
  end.
(** [for (uint8_t g = 0; g <= max_group; g++)]: the counter wraps at 255. *)
Fixpoint dnf_groups (fuel : nat) (max_group g : Z) (ws : list il_watch_t) (wpass : list bool) : option bool :=
  match fuel with
  | O => None
  | S fuel =>
      if max_group <? g then Some false
      else let '(grp_has, grp_pass) := group_scan g ws wpass in
           if grp_has && grp_pass then Some true else dnf_groups fuel max_group (u8 (g + 1)) ws wpass
  end.
(** [None]: the loop over the groups does not end (256 turns and more). *)
Definition il_dnf_result (i : il_inst_t) (wpass : list bool) : option bool :=
  if zlen (watches i) =? 0 then Some true
  else
    let max_group := foldl (fun m w => if m <? group w then group w else m) 0 (watches i) in
    dnf_groups 257 max_group 0 (watches i) wpass.

(** A GPIO sample through the shift register of input [k]. *)
Definition debounce (depth k raw : Z) (r : slot_rt) : Z * slot_rt :=
  let mask := u16 (u32 (Z.shiftl 1 depth) - 1) in
  let sr := u16 (Z.land (Z.lor (Z.shiftl (zget 0 (shift_reg r) k) 1) (Z.land raw 1)) mask) in
  let r := r <| shift_reg ::= fun l => zset l k sr |> in
  let r := if sr =? mask then r <| debounced ::= fun l => zset l k 1 |>
           else if sr =? 0 then r <| debounced ::= fun l => zset l k 0 |> else r in
  (zget 0 (debounced r) k, r).

Definition eval_input (e : env) (h : hal_t) (k : Z) (x : il_input_t) (r : slot_rt) : Z * slot_rt :=
  if in_mode x =? IL_PIN_MODE_ADC then (hal_pin_read_adc (adc_latest e) (in_phys x) h, r)
  else if in_mode x =? IL_PIN_MODE_VIRTUAL then (read_virtual_input e (in_phys x), r)
  else
    let raw := u16 (Z.land (hal_pin_read (gpio_get e) (in_phys x)) 1) in
    if 2 <=? debounce_depth x then debounce (debounce_depth x) k raw r else (raw, r).
Fixpoint eval_inputs (ev : Z -> env) (h : hal_t) (k : Z) (l : list il_input_t) (r : slot_rt) : list Z * slot_rt :=
  match l with
  | [] => ([], r)
  | x :: l =>
      let '(v, r) := eval_input (ev k) h k x r in
      let '(vs, r) := eval_inputs ev h (k + 1) l r in (v :: vs, r)
  end.

(** The threshold once the hysteresis of a passing watch relaxes it. *)
Definition teff (o t hys : Z) (last : bool) : Z :=
  if negb (hys =? 0) && last then
    if (o =? IL_OP_GT) || (o =? IL_OP_GE) then if hys <? t then u16 (t - hys) else 0
    else if (o =? IL_OP_LT) || (o =? IL_OP_LE) then
      let sum := u32 (t + hys) in if 65535 <? sum then 65535 else u16 sum
    else t
  else t.
Definition watch_pass (vals : list Z) (ins : list il_input_t) (last : bool) (w : il_watch_t) : bool :=
  let v := zget 0 vals (input_idx w) in
  let t := threshold w in
  let te := teff (op w) t (hyst (zget input0 ins (input_idx w))) last in
  if op w =? IL_OP_EQ then v =? t
  else if op w =? IL_OP_NE then negb (v =? t)
  else if op w =? IL_OP_LT then v <? te
  else if op w =? IL_OP_GT then te <? v
  else if op w =? IL_OP_LE then v <=? te
  else if op w =? IL_OP_GE then te <=? v
  else false.
(** All the watches, each against its own last result. *)
Fixpoint eval_watches (vals : list Z) (ins : list il_input_t) (last : list Z) (ws : list il_watch_t) : list bool :=
  match ws with
  | [] => []
  | w :: ws => watch_pass vals ins (nz (default 0 (head last))) w :: eval_watches vals ins (tail last) ws
  end.

(** The results in [out_input_vals] and [tf_state]; [g_active_interlock_slot] stays. *)
Definition eval_slot (ev : Z -> env) (slot : Z) : il (list Z) := fun s =>
  let s := s <| active_slot := slot |> in
  let i := inst_of s slot in
  let '(vs, r) := eval_inputs ev (hal s) 0 (inputs i) (rt_of s slot) in
  let vals := vs ++ replicate (7 - length vs) 0 in
  let wpass := eval_watches vals (inputs i) (last_pass r) (watches i) in
  let r := r <| last_pass ::= fun l => map (fun b : bool => if b then 1 else 0) wpass ++ drop (length wpass) l |> in
  match il_dnf_result i wpass with
  | None => Hang
  | Some tf => Done vals (set_inst slot (fun i => i <| tf_state := if tf then IL_TF_TRUE else IL_TF_FALSE |>)
                           (set_rt slot r s))
  end.

(** ** The tick *)

(** Phase 0: a requested clear drops every latch and opens the grace window. *)
Definition tick_clear (e : env) (s : il_state) : il_state :=
  if clear_request s then
    let s := s <| clear_request := false |> in
    let s := foldl (fun s i => set_slot i (fun sl => sl <| latched := 0 |>) s) s slot_ids in
    interlock_begin_grace (millis e) s
  else s.
(** Phase 1: evaluate. *)
Definition tick_eval (ev : Z -> Z -> env) (slot : Z) : il unit := fun s =>
  let sl := slot_of s slot in
  if negb (sl_state sl =? INTERLOCK_SLOT_ARMED) then Done tt s
  else if sl_id sl =? INTERLOCK_ID_DSL then
    (vals <~ eval_slot (ev slot) slot;;
     imod (fun s => s <| status ::= fun b => b <| input_vals ::= fun l => zset l slot vals |> |>)) s
  else if compiled (sl_id sl) then
    Done tt (def_tick (def_at (sl_id sl - 1)) slot (s <| active_slot := slot |>))
  else Done tt s.
(** Phase 1b: latch, unless in grace. *)
Definition tick_latch (slot : Z) (s : il_state) : il_state :=
  if negb (armed s slot) then s
  else if tf_state (inst_of s slot) =? IL_TF_FALSE
  then set_slot slot (fun sl => sl <| latched := 1 |>) s else s.
(** Phase 2: the union of the latched slots drives the outputs. *)
Definition veto_mask (s : il_state) : Z :=
  foldl (fun m i => if negb (armed s i) then m
                    else if nz (latched (slot_of s i)) then Z.lor m (slot_bit i) else m) 0 slot_ids.
Definition managed_mask : Z := u16 (u32 (Z.shiftl 1 INTERLOCK_MAX_SLOTS) - 1).
(** Phase 3: the status buffer; [status_seq] counts the transitions. *)
Definition status_name (s : il_state) (slot : Z) : list Z :=
  let sl := slot_of s slot in
  if armed s slot && (sl_id sl =? INTERLOCK_ID_DSL) then take 8 (name (inst_of s slot))
  else if armed s slot && compiled (sl_id sl) then
    let n := take 8 (def_name (def_at (sl_id sl - 1))) in n ++ replicate (8 - length n) 0
  else replicate 8 0.
Definition tick_status (veto slot : Z) (s : il_state) : il_state :=
  let sl := slot_of s slot in
  let old := zget status_slot0 (sb_slots (status s)) slot in
  let new_tf := if armed s slot then tf_state (inst_of s slot) else IL_TF_UNEVALUATED in
  let changed := negb (st_state old =? sl_state sl) || negb (st_tf old =? new_tf) in
  let new := mk_status_slot (sl_state sl) (sl_id sl) new_tf (boot_counter sl) (status_name s slot)
               (Z.land (Z.shiftr veto slot) 1) in
  s <| status ::= fun b => b <| status_seq ::= fun q => if changed then u16 (q + 1) else q |>
                             <| sb_slots ::= fun l => zset l slot new |> |>.
Definition tick_status_end (e : env) (s : il_state) : il_state :=
  s <| status ::= fun b => b <| sb_version := IL_STATUS_BUFFER_VERSION |> <| sb_num_slots := INTERLOCK_MAX_SLOTS |>
         <| crash_panic_code := panic_code (crash (persist s)) |>
         <| stack_hwm_bytes := g_stack_hwm_bytes e |> |>.

(** Between slots no slot is on record as active. *)
Definition idle (s : il_state) : il_state := s <| active_slot := INTERLOCK_CRASHED_SLOT_NONE |>.
(** Phases 1b, 2 and 3 over all the slots. *)
Definition tick_latches (e : env) (s : il_state) : il_state :=
  if negb (il_in_grace (millis e) s) then foldl (fun s i => tick_latch i s) s slot_ids else s.
Definition tick_drive (veto : Z) (s : il_state) : il_state := s <| hal ::= hal_pin_drive_outputs veto managed_mask |>.
Definition tick_report (veto : Z) (e : env) (s : il_state) : il_state :=
  tick_status_end e (foldl (fun s i => tick_status veto i s) s slot_ids).

Definition interlock_tick_all (te : tick_env) : il unit :=
  verify_persist_or_panic;~
  imod (tick_clear (at_clear te));~
  ifor slot_ids (tick_eval (at_input te));~
  imod (fun s =>
    let s := tick_latches (at_latch te) (idle s) in
    let veto := veto_mask s in
    tick_report veto (at_status te) (tick_drive veto s)).

(** ** Status access *)
Definition interlock_get_slot (slot : Z) : il (option interlock_slot_persist_t) :=
  verify_persist_or_panic;~ fun s =>
  if INTERLOCK_MAX_SLOTS <=? slot then Done None s else Done (Some (slot_of s slot)) s.
Definition interlock_get_crash : il interlock_crash_record_t :=
  verify_persist_or_panic;~ fun s => Done (crash (persist s)) s.

(** ** Status blocks *)
Definition le32_of (x : Z) : list Z :=
  [u8 x; u8 (Z.shiftr x 8); u8 (Z.shiftr x 16); u8 (Z.shiftr x 24)].
(** The name field: up to its NUL, then NULs. *)
Fixpoint name_field (k : nat) (n : list Z) : list Z :=
  match k with
  | O => []
  | S k => let ch := default 0 (head n) in
           u8 ch :: (if ch =? 0 then replicate k 0 else name_field k (tail n))
  end.
Definition status_v2_slot (s : il_state) (i : Z) : list Z :=
  let sl := slot_of s i in
  let '(tf, n) := if sl_id sl =? INTERLOCK_ID_DSL then (tf_state (inst_of s i), name (inst_of s i))
                  else if sl_id sl =? INTERLOCK_ID_NOOP then (0, lit "noop") else (0, []) in
  [sl_state sl; sl_id sl; boot_counter sl; tf] ++ name_field 16 n.
(** The [n] bytes written. *)
Definition interlock_build_status_v2 : il (list Z) :=
  verify_persist_or_panic;~ fun s =>
  let c := crash (persist s) in
  Done ([2; INTERLOCK_MAX_SLOTS] ++ concat (map (status_v2_slot s) slot_ids)
        ++ le32_of (last_pc c) ++ le32_of (last_lr c) ++ le32_of (last_rstsr c) ++ [last_crashed_slot c]) s.

End Framework.

(** [main.c]: the bytes of a status reply of at most [cap], with the levels of the
    veto pin and of the interlock input. *)
Definition il_status_pack (gpio : Z -> bool) (cap : Z) (s : il_state) : list Z :=
  if cap <? 3 then []
  else
    let gveto := existsb (fun i => armed s i && nz (latched (slot_of s i))) slot_ids in
    let rows := foldl (fun r i =>
      if u8 (3 + zlen r + 4) <=? cap then
        if sl_state (slot_of s i) =? INTERLOCK_SLOT_EMPTY then r
        else r ++ [i; sl_state (slot_of s i); tf_state (inst_of s i); latched (slot_of s i)]
      else r) [] slot_ids in
    let out := [1; if gveto then 1 else 0; u8 (zlen rows / 4)] ++ rows in
    if u8 (zlen out + 2) <=? cap
    then out ++ [if gpio INTERLOCK_VETO_PIN then 1 else 0; if gpio INTERLOCK_IN_PIN then 1 else 0] else out.

(** ** The boot line: the characters written so far, never [cap] of them *)
Definition emit_char (cap c : Z) (b : list Z) : list Z := if zlen b + 1 <? cap then b ++ [c] else b.
Definition emit_str (cap : Z) (s : string) (b : list Z) : list Z := foldl (fun b c => emit_char cap c b) b (lit s).
Definition hex_char (n : Z) : Z := zget 0 (lit "0123456789abcdef") n.
Definition emit_hex32 (cap v : Z) (b : list Z) : list Z :=
  if cap <=? zlen b + 10 then b
  else b ++ lit "0x" ++ map (fun i => hex_char (Z.land (Z.shiftr v (i * 4)) 0xF)) [7; 6; 5; 4; 3; 2; 1; 0].
(** [tmp], last digit first: at most four turns. *)
Fixpoint dec_digits (n : nat) (v : Z) : list Z :=
  match n with O => [] | S n => if v =? 0 then [] else (0x30 + v mod 10) :: dec_digits n (v / 10) end.
Definition emit_dec_small (cap v : Z) (b : list Z) : list Z :=
  foldl (fun b c => emit_char cap c b) b (rev (if v =? 0 then [0x30] else dec_digits 4 v)).
Definition slot_state_char (st : Z) : Z :=
  if st =? INTERLOCK_SLOT_EMPTY then 0x45 else if st =? INTERLOCK_SLOT_ARMED then 0x41
  else if st =? INTERLOCK_SLOT_POISONED then 0x50 else 0x3F.
Definition boot_line_slot (p : interlock_persist_t) (cap : Z) (b : list Z) (i : Z) : list Z :=
  let s := zget slot0 (slots p) i in
  emit_dec_small cap (boot_counter s) (emit_str cap ":" (emit_dec_small cap (sl_id s) (emit_str cap ":"
    (emit_char cap (slot_state_char (sl_state s)) (emit_str cap "=" (emit_dec_small cap i (emit_str cap " sl" b))))))).
(** The line, and whether the terminator is stored behind it. *)
Definition interlock_format_boot_line (bufsize : Z) (p : interlock_persist_t) : list Z * bool :=
  if bufsize =? 0 then ([], false)
  else
    let c := crash p in
    let b := emit_str bufsize "[BOOT_IL]" [] in
    let b := foldl (boot_line_slot p bufsize) b slot_ids in
    let b := emit_hex32 bufsize (last_pc c) (emit_str bufsize " pc=" b) in
    let b := emit_hex32 bufsize (last_lr c) (emit_str bufsize " lr=" b) in
    let b := emit_hex32 bufsize (last_rstsr c) (emit_str bufsize " rs=" b) in
    let b := emit_str bufsize " cs=" b in
    let b := if last_crashed_slot c =? INTERLOCK_CRASHED_SLOT_NONE then emit_char bufsize 0x2D b
             else emit_dec_small bufsize (last_crashed_slot c) b in
    let b := if negb (panic_code c =? PANIC_NONE) then
               let b := emit_dec_small bufsize (panic_code c) (emit_str bufsize " pn=" b) in
               let b := emit_hex32 bufsize (panic_arg c) (emit_str bufsize " pa=" b) in
               emit_hex32 bufsize (panic_sp c) (emit_str bufsize " psp=" b)
             else b in
    (b, zlen b <? bufsize).

(** ** Bring-up ([interlock_thread2_start]) *)
Definition il_cfg_name (slot : Z) : list Z := lit "ilc" ++ [u8 (0x30 + slot)].
Definition fnv_byte (fp b : Z) : Z := u32 (Z.lxor fp b * 16777619).
Definition config_slots : list Z := [1; 2; 3; 4; 5; 6; 7; 8; 9].
(** A config file of a slot: [None] when absent or empty. *)
Definition slot_file (region : list (list Z)) (slot : Z) : option (list Z) :=
  let '(rc, d) := cfg_load region (il_cfg_name slot) CFG_FILE_MAX in
  if negb (rc =? 0) || (zlen d =? 0) then None else Some d.
Definition interlock_cfg_fingerprint (region : list (list Z)) : Z :=
  foldl (fun fp slot =>
    match slot_file region slot with
    | None => fp
    | Some d => foldl fnv_byte (fnv_byte fp (slot + 1)) d
    end) 2166136261 config_slots.

Definition gp1_il : list Z :=
  lit "gp1il;cfg[(gp1):in,up,debounce_4,(gp0):oc,up];watch[gp1:1];watch[_nodesdead:0];out_ok[gp0:1];out_err[gp0:0]".

Definition note_armfail (v : Z) (s : il_state) : il_state :=
  if armfail s =? 0 then s <| armfail := v |> else s.

Section BringUp.
Context `{IlPlat} (sp_reg caller_pc : Z).

Definition arm_from_config (region : list (list Z)) (slot : Z) : il unit :=
  match slot_file region slot with
  | None => iret tt
  | Some d =>
      r <~ interlock_set_slot_dsl sp_reg caller_pc slot (take (Z.to_nat (u16 (zlen d))) d);;
      if r.1 =? SHELL_STATUS_OK then imod (fun s => s <| ilcf_rc ::= fun n => u8 (n + 1) |>)
      else imod (note_armfail (u32 (Z.lor (Z.lor (Z.lor (Z.shiftl slot 24) (Z.shiftl r.1 16))
                                            (Z.shiftl (zget 0 r.2 0) 8)) (zget 0 r.2 1))))
  end.
(** The config slots, when the flashed config changed or nothing is armed. *)
Definition config_bringup (region : list (list Z)) : il unit := fun s =>
  let fp := interlock_cfg_fingerprint region in
  if negb (fp =? cfg_fingerprint (persist s)) || (interlock_armed_count s =? 0) then
    (ifor config_slots (fun slot => interlock_disarm_slot sp_reg caller_pc slot;~ iret tt);~
     imod (fun s => s <| ilcf_rc := 0 |>);~
     ifor config_slots (arm_from_config region);~
     imod (fun s => s <| persist ::= fun p => p <| cfg_fingerprint := fp |> |>)) s
  else Done tt (s <| ilcf_rc := interlock_armed_count s |>).
(** The built-in GP1 interlock in slot 0. *)
Definition builtin_preserved (s : il_state) : bool :=
  armed s 0 && (zget 0 (dsl_len (persist s)) 0 =? zlen gp1_il)
  && bool_decide (take (length gp1_il) (zget [] (dsl_text (persist s)) 0) = gp1_il).
Definition builtin_bringup : il unit := fun s =>
  if builtin_preserved s then Done tt s
  else (interlock_disarm_slot sp_reg caller_pc 0;~
        r <~ interlock_set_slot_dsl sp_reg caller_pc 0 gp1_il;;
        if r.1 =? SHELL_STATUS_OK then iret tt
        else imod (note_armfail (u32 (Z.lor (Z.lor (Z.shiftl r.1 16) (Z.shiftl (zget 0 r.2 0) 8)) (zget 0 r.2 1))))) s.
Definition interlock_thread2_start (region : list (list Z)) (ms : Z) : il unit :=
  imod (fun s => s <| hal ::= log [GpioInit INTERLOCK_IN_PIN; GpioSetDir INTERLOCK_IN_PIN false;
                                   GpioPullUp INTERLOCK_IN_PIN] |>);~
  interlock_warm_restore sp_reg caller_pc;~
  config_bringup region;~
  builtin_bringup;~
  imod (interlock_begin_grace ms).
End BringUp.

(** ** Specification of the voting *)

(** Group [g] has a clause and all its clauses passed. *)
Definition group_sat (g : Z) (ws : list il_watch_t) (wpass : list bool) : Prop :=
  (exists w, w ∈ ws /\ group w = g) /\
  forall n w, ws !! n = Some w -> group w = g -> wpass !! n = Some true.

(** The value of a register whose newest sample is the low bit. *)
Fixpoint bits (l : list bool) : Z := match l with [] => 0 | b :: l => Z.b2z b + 2 * bits l end.
Definition rt_ok (r : slot_rt) : Prop :=
  length (shift_reg r) = 7%nat /\ length (debounced r) = 7%nat /\ length (last_pass r) = 8%nat.

Definition dnf_example : il_inst_t :=
  mk_inst [] 0 [] [mk_watch 0 0 1 0; mk_watch 0 0 1 0; mk_watch 0 0 1 1] [].

(** ** Lemmas *)

Lemma head_lookup {A} (l : list A) : head l = l !! 0%nat.
Proof. by destruct l. Qed.
Lemma tail_lookup {A} (l : list A) n : tail l !! n = l !! S n.
Proof. by destruct l. Qed.

Lemma group_scan_has g ws : forall wpass, (group_scan g ws wpass).1 = true <-> exists w, w ∈ ws /\ group w = g.
Proof.
  induction ws as [|w ws IH]; intros wpass; cbn [group_scan].
  { split; [done|]. by intros (w & ?%not_elem_of_nil & _). }
  destruct (Z.eqb_spec (group w) g) as [E|E]; cbn [negb].
  - split; [|by destruct (negb _)]. intros _. exists w. split; [apply list_elem_of_here|done].
  - rewrite IH. split; intros (w' & Hin & Hg); exists w'; (split; [|done]).
    + by apply list_elem_of_further.
    + by apply elem_of_cons in Hin as [-> |].
Qed.

Lemma group_scan_pass g ws : forall wpass, (group_scan g ws wpass).2 = true <->
  forall n w, ws !! n = Some w -> group w = g -> wpass !! n = Some true.
Proof.
  induction ws as [|w ws IH]; intros wpass; cbn [group_scan]; [done|].
  assert (Hcons : (forall n w0, (w :: ws) !! n = Some w0 -> group w0 = g -> wpass !! n = Some true) <->
    (group w = g -> wpass !! 0%nat = Some true) /\
    (forall n w0, ws !! n = Some w0 -> group w0 = g -> tail wpass !! n = Some true)).
  { split.
    - intros H. split; [by apply (H 0%nat)|]. intros n w0 Hn Hg. rewrite tail_lookup. by apply (H (S n) w0).
    - intros [H0 H1] [|n] w0; cbn; [by intros [= <-]|]. intros Hn Hg. rewrite <- tail_lookup. by eapply H1. }
  rewrite Hcons. destruct (Z.eqb_spec (group w) g) as [E|E]; cbn [negb].
  - rewrite head_lookup. destruct (wpass !! 0%nat) as [[]|] eqn:E0; simpl.
    + rewrite IH. by split; [|intros [_ H]].
    + split; [done|]. intros [H _]. by specialize (H E).
    + split; [done|]. intros [H _]. by specialize (H E).
  - rewrite IH. by split; [|intros [_ H]].
Qed.

Lemma group_sat_scan g ws wpass :
  group_sat g ws wpass <-> (group_scan g ws wpass).1 && (group_scan g ws wpass).2 = true.
Proof. unfold group_sat. by rewrite andb_true_iff, group_scan_has, group_scan_pass. Qed.

Lemma dnf_groups_spec ws wpass max_group : max_group <= 254 -> forall fuel g,
  0 <= g <= max_group + 1 -> max_group + 1 - g < Z.of_nat fuel ->
  exists b, dnf_groups fuel max_group g ws wpass = Some b /\
    (b = true <-> exists g', g <= g' <= max_group /\ group_sat g' ws wpass).
Proof.
  intros Hm. induction fuel as [|fuel IH]; intros g Hg Hf; [lia|]. cbn [dnf_groups].
  destruct (Z.ltb_spec max_group g) as [Hlt|Hle].
  - exists false. split; [done|]. split; [done|]. intros (g' & ? & _). lia.
  - pose proof (group_sat_scan g ws wpass) as Hs. destruct (group_scan g ws wpass) as [has pass]. cbn [fst snd] in Hs.
    destruct (has && pass).
    + exists true. split; [done|]. split; [|done]. intros _. exists g. split; [lia|by apply Hs].
    + rewrite u8_id by (unfold fits; lia). destruct (IH (g + 1)) as (b & E & Hb); [lia..|].
      exists b. split; [done|]. rewrite Hb. split; intros (g' & Hr & H'); exists g'; (split; [|done]); [lia|].
      destruct (decide (g' = g)) as [-> |]; [|lia]. by apply Hs in H'.
Qed.

Lemma max_group_spec ws : forall m, 0 <= m <= 254 -> Forall (fun w => 0 <= group w <= 254) ws ->
  let r := foldl (fun m w => if m <? group w then group w else m) m ws in
  m <= r <= 254 /\ Forall (fun w => group w <= r) ws.
Proof.
  induction ws as [|w ws IH]; intros m Hm Hf; cbn [foldl]; [split; [lia|constructor]|].
  apply Forall_cons in Hf as [Hw Hf].
  destruct (IH (if m <? group w then group w else m)) as [Hr Hg]; [by destruct (m <? group w)|done|].
  set (r := foldl _ _ ws) in *. destruct (Z.ltb_spec m (group w)); (split; [lia|]); constructor; done || lia.
Qed.

Lemma il_dnf_total i wpass :
  Forall (fun w => 0 <= group w <= 254) (watches i) ->
  exists b, il_dnf_result i wpass = Some b /\
    (b = true <-> watches i = [] \/ exists g, group_sat g (watches i) wpass).
Proof.
  intros Hf. unfold il_dnf_result. destruct (Z.eqb_spec (zlen (watches i)) 0) as [E|E].
  { exists true. split; [done|]. split; [|done]. intros _. left. unfold zlen in E. by destruct (watches i). }
  destruct (max_group_spec (watches i) 0 ltac:(lia) Hf) as [Hm Hg]. set (mg := foldl _ _ _) in *.
  destruct (dnf_groups_spec (watches i) wpass mg ltac:(lia) 257 0) as (b & Eb & Hb); [lia..|].
  exists b. split; [done|]. rewrite Hb. split.
  - intros (g & _ & Hs). right. by exists g.
  - intros [E0|(g & Hs)]; [by rewrite E0 in E|]. exists g. split; [|done].
    destruct Hs as [(w & Hin & <-) _]. rewrite Forall_forall in Hg, Hf. by pose proof (Hg w Hin); pose proof (Hf w Hin); lia.
Qed.

(** *** The debounce filter *)

Lemma bits_range l : 0 <= bits l < 2 ^ zlen l.
Proof.
  induction l as [|b l IH]; [done|]. cbn [bits]. unfold zlen in *. cbn [length].
  rewrite Nat2Z.inj_succ, Z.pow_succ_r by lia. destruct b; cbn [Z.b2z]; lia.
Qed.

(** Shifting a sample in drops the oldest. *)
Lemma bits_shift b l : bits (take (length l) (b :: l)) = (2 * bits l + Z.b2z b) mod 2 ^ zlen l.
Proof.
  revert b. induction l as [|c l IH]; intros b; [cbn; by rewrite Z.mod_1_r|].
  cbn [length firstn bits]. fold (take (length l) (c :: l)). rewrite IH. unfold zlen. cbn [length].
  rewrite Nat2Z.inj_succ, Z.pow_succ_r by lia. fold (zlen l).
  pose proof (bits_range l). set (m := 2 ^ zlen l) in *. set (x := bits l) in *.
  assert (0 <= (2 * x + Z.b2z c) mod m < m) by (apply Z.mod_pos_bound; lia).
  apply Z.mod_unique with (q := (2 * x + Z.b2z c) / m); [left; destruct b; cbn [Z.b2z]; lia|].
  pose proof (Z.div_mod (2 * x + Z.b2z c) m ltac:(lia)). lia.
Qed.

Lemma bits_ones l : bits l = 2 ^ zlen l - 1 <-> Forall (fun b => b = true) l.
Proof.
  induction l as [|b l IH]; [split; [constructor|done]|]. pose proof (bits_range l) as Hr. cbn [bits].
  rewrite Forall_cons, <- IH. unfold zlen in *. cbn [length]. rewrite Nat2Z.inj_succ, Z.pow_succ_r by lia.
  destruct b; cbn [Z.b2z]; (split; [intros H|intros [? ?]]); try (split; [done|]); done || lia.
Qed.
Lemma bits_zero l : bits l = 0 <-> Forall (fun b => b = false) l.
Proof.
  induction l as [|b l IH]; [split; [constructor|done]|]. pose proof (bits_range l) as Hr. cbn [bits].
  rewrite Forall_cons, <- IH. destruct b; cbn [Z.b2z]; (split; [intros H|intros [? ?]]); try (split; [done|]); done || lia.
Qed.

(** One sample: the register holds the last [depth] samples, and the output is the
    vote of the window when it is unanimous, else what it was. *)
Lemma debounce_step w k raw r :
  (2 <= length w <= 15)%nat -> 0 <= k < 7 -> rt_ok r -> zget 0 (shift_reg r) k = bits w ->
  let w' := take (length w) (raw :: w) in
  let '(v, r') := debounce (zlen w) k (Z.b2z raw) r in
  rt_ok r' /\ zget 0 (shift_reg r') k = bits w' /\ zget 0 (debounced r') k = v /\
  v = (if forallb id w' then 1 else if forallb negb w' then 0 else zget 0 (debounced r) k).
Proof.
  intros Hw Hk (Hr1 & Hr2 & Hr3) Hsr w'. unfold debounce. rewrite Hsr.
  assert (Hz : 2 <= zlen w <= 15) by (unfold zlen; lia).
  assert (Hp : 0 < 2 ^ zlen w < 2 ^ 16) by (split; [apply Z.pow_pos_nonneg|apply Z.pow_lt_mono_r]; lia).
  assert (Hmask : u16 (u32 (Z.shiftl 1 (zlen w)) - 1) = 2 ^ zlen w - 1).
  { rewrite Z.shiftl_1_l. rewrite u32_id by (unfold fits; lia). apply u16_id. unfold fits. lia. }
  assert (Hin : u16 (Z.land (Z.lor (Z.shiftl (bits w) 1) (Z.land (Z.b2z raw) 1)) (2 ^ zlen w - 1)) = bits w').
  { assert (E : Z.lor (Z.shiftl (bits w) 1) (Z.land (Z.b2z raw) 1) = 2 * bits w + Z.b2z raw).
    { rewrite Z.shiftl_mul_pow2 by lia. change (2 ^ 1) with 2. rewrite (Z.mul_comm _ 2).
      rewrite <- Z.add_nocarry_lor; [by destruct raw|].
      apply Z.bits_inj'. intros n Hn. rewrite Z.land_spec, Z.bits_0.
      destruct (decide (n = 0)) as [-> |]; [by rewrite Z.testbit_even_0|].
      replace (Z.testbit (Z.land (Z.b2z raw) 1) n) with false; [by rewrite andb_false_r|].
      destruct raw; cbn; symmetry; [apply (Z.bits_above_log2 1 n); cbn; lia|apply Z.testbit_0_l]. }
    rewrite E. replace (2 ^ zlen w - 1) with (Z.ones (zlen w)) by (rewrite Z.ones_equiv; lia).
    rewrite Z.land_ones by lia. rewrite <- bits_shift. fold w'. apply u16_id. unfold fits.
    pose proof (bits_range w') as Hr. replace (zlen w') with (zlen w) in Hr; [lia|].
    unfold zlen, w'. rewrite length_take. cbn [length]. lia. }
  rewrite Hmask, Hin. assert (Hlw : zlen w' = zlen w) by (unfold zlen, w'; rewrite length_take; cbn [length]; lia).
  unfold field_map. cbn [shift_reg debounced last_pass].
  assert (H1 : forallb id w' = (bits w' =? 2 ^ zlen w - 1)).
  { apply eq_true_iff_eq. rewrite Z.eqb_eq, <- Hlw, bits_ones, forallb_forall, Forall_forall.
    split; intros H x Hx; apply H; by apply list_elem_of_In. }
  assert (H0 : forallb negb w' = (bits w' =? 0)).
  { apply eq_true_iff_eq. rewrite Z.eqb_eq, bits_zero, forallb_forall, Forall_forall.
    split; intros H x Hx; [apply negb_true_iff|apply negb_true_iff]; apply H; by apply list_elem_of_In. }
  rewrite H1, H0. assert (zlen (shift_reg r) = 7 /\ zlen (debounced r) = 7) as [??] by (unfold zlen; lia).
  destruct (bits w' =? 2 ^ zlen w - 1), (bits w' =? 0); unfold rt_ok; cbn [shift_reg debounced last_pass];
    rewrite ?zlen_zset, ?zget_zset_eq by lia; done.
Qed.

(** *** The boot line *)
Lemma emit_char_bound cap c b : zlen b < cap -> zlen (emit_char cap c b) < cap.
Proof.
  unfold emit_char. destruct (Z.ltb_spec (zlen b + 1) cap); [|done]. rewrite zlen_app. change (zlen [c]) with 1. lia.
Qed.
Lemma emit_chars_bound cap l : forall b, zlen b < cap -> zlen (foldl (fun b c => emit_char cap c b) b l) < cap.
Proof. induction l as [|c l IH]; intros b Hb; cbn [foldl]; [done|]. by apply IH, emit_char_bound. Qed.
Lemma emit_str_bound cap s b : zlen b < cap -> zlen (emit_str cap s b) < cap.
Proof. apply emit_chars_bound. Qed.
Lemma emit_dec_bound cap v b : zlen b < cap -> zlen (emit_dec_small cap v b) < cap.
Proof. apply emit_chars_bound. Qed.
Lemma emit_hex_bound cap v b : zlen b < cap -> zlen (emit_hex32 cap v b) < cap.
Proof.
  intros Hb. unfold emit_hex32. destruct (Z.leb_spec cap (zlen b + 10)); [done|].
  rewrite !zlen_app. change (zlen (lit "0x")) with 2.
  match goal with |- context [zlen (map ?f ?l)] => change (zlen (map f l)) with 8 end. lia.
Qed.
Create HintDb il_emit.
#[export] Hint Resolve emit_char_bound emit_str_bound emit_dec_bound emit_hex_bound : il_emit.

(** The line never fills the buffer: its terminator is always stored inside. *)
Lemma format_boot_line_bound bufsize p : 0 < bufsize ->
  zlen (interlock_format_boot_line bufsize p).1 < bufsize /\ (interlock_format_boot_line bufsize p).2 = true.
Proof.
  intros Hb. unfold interlock_format_boot_line. destruct (Z.eqb_spec bufsize 0); [lia|]. cbn [fst snd].
  assert (H0 : zlen (foldl (boot_line_slot p bufsize) (emit_str bufsize "[BOOT_IL]" []) slot_ids) < bufsize).
  { assert (Hs : zlen (emit_str bufsize "[BOOT_IL]" []) < bufsize) by (apply emit_str_bound; exact Hb).
    revert Hs. generalize (emit_str bufsize "[BOOT_IL]" []). induction slot_ids as [|i l IH]; intros b Hs; cbn [foldl]; [done|].
    apply IH. unfold boot_line_slot. auto 12 with il_emit. }
  set (b0 := foldl _ _ _) in *. clearbody b0.
  match goal with |- zlen ?b < _ /\ _ => assert (H1 : zlen b < bufsize); [|split; [done|by apply Z.ltb_lt]] end.
  destruct (negb _); destruct (_ =? _); auto 20 with il_emit.
Qed.

Lemma Done_inj {A} (a a' : A) s s' : Done a s = Done a' s' -> a = a' /\ s = s'.
Proof. by intros [= -> ->]. Qed.
Lemma name_field_len k : forall n, length (name_field k n) = k.
Proof.
  induction k as [|k IH]; intros n; cbn [name_field length]; [done|]. destruct (_ =? 0); [by rewrite length_replicate|by rewrite IH].
Qed.
(** The reply of [interlock_build_status_v2]: 215 bytes for ten slots. *)
Lemma build_status_v2_len `{IlPlat} sp pc s b s' :
  interlock_build_status_v2 sp pc s = Done b s' -> zlen b = 215 /\ s' = s.
Proof.
  unfold interlock_build_status_v2, ibind. destruct (verify_persist_or_panic sp pc s) as [[] s1|s1|] eqn:E; [|done..].
  assert (s1 = s) as ->.
  { unfold verify_persist_or_panic, il_panic in E. repeat case_match; try done. by injection E. }
  intros [<- <-]%Done_inj. split; [|done].
  assert (Hs : forall i, length (status_v2_slot s i) = 20%nat).
  { intros i. unfold status_v2_slot. repeat case_match; by rewrite length_app, name_field_len. }
  assert (Hc : forall l, length (concat (map (status_v2_slot s) l)) = (20 * length l)%nat).
  { induction l as [|i l IH]; [done|]. cbn [map concat length]. rewrite length_app, Hs, IH. lia. }
  unfold zlen. by rewrite !length_app, Hc.
Qed.

(** ** Properties *)

(** C25. The vote of an interlock: for group numbers up to 254 the loop over the groups
    ends, and the result is true exactly when there is no clause or some group has all
    its clauses passing (an OR of ANDs); with a single group it is their AND. *)
Theorem il_dnf_voting i wpass :
  Forall (fun w => 0 <= group w <= 254) (watches i) ->
  exists b, il_dnf_result i wpass = Some b /\
    (b = true <-> watches i = [] \/ exists g, group_sat g (watches i) wpass) /\
    (Forall (fun w => group w = 0) (watches i) ->
     (b = true <-> forall n, (n < length (watches i))%nat -> wpass !! n = Some true)).
Proof.
  intros Hf. destruct (il_dnf_total i wpass Hf) as (b & E & Hb). exists b. split; [done|]. split; [done|].
  intros H0. rewrite Forall_forall in H0. rewrite Hb. split.
  - intros [-> |(g & (w & Hin & Hg) & Hall)] n Hn; [cbn in Hn; lia|].
    destruct (lookup_lt_is_Some_2 _ _ Hn) as [w' Hw']. apply (Hall n w' Hw').
    rewrite <- Hg, (H0 w Hin). apply H0. by eapply list_elem_of_lookup_2.
  - intros Hall. destruct (watches i) as [|w ws] eqn:Ew; [by left|]. right. exists 0. split.
    + exists w. split; [apply list_elem_of_here|]. apply H0, list_elem_of_here.
    + intros n w' Hn _. apply Hall. by eapply lookup_lt_Some.
Qed.
Lemma il_dnf_voting_witness :
  il_dnf_result dnf_example [true; false; true] = Some true /\
  exists b, il_dnf_result dnf_example [true; false; false] = Some b.
Proof.
  split; [reflexivity|].
  destruct (il_dnf_voting dnf_example [true; false; false]) as (b & E & _); [repeat constructor; discriminate|].
  by exists b.
Defined.

(** Debounce: with a register that holds the last [depth] samples (2 to 15), one
    more sample makes it hold the new last [depth]; the output then changes only when
    all of them agree with the new value, and it does follow as soon as they do. *)
Theorem debounce_window w k raw r :
  (2 <= length w <= 15)%nat -> 0 <= k < 7 -> rt_ok r -> zget 0 (shift_reg r) k = bits w ->
  let w' := take (length w) (raw :: w) in
  let v := (debounce (zlen w) k (Z.b2z raw) r).1 in
  let r' := (debounce (zlen w) k (Z.b2z raw) r).2 in
  rt_ok r' /\ zget 0 (shift_reg r') k = bits w' /\ zget 0 (debounced r') k = v /\
  (v <> zget 0 (debounced r) k -> Forall (fun b => Z.b2z b = v) w') /\
  (Forall (fun b => b = raw) w' -> v = Z.b2z raw).
Proof.
  intros Hw Hk Hr Hsr w' v r'. pose proof (debounce_step w k raw r Hw Hk Hr Hsr) as H. fold w' in H.
  subst v r'. destruct (debounce _ _ _ _) as [v r']. destruct H as (H1 & H2 & H3 & Hv). cbn [fst snd].
  split; [done|]. split; [done|]. split; [done|]. rewrite Hv. clear Hv.
  assert (Hall : forall b, Forall (fun c => c = b) w' -> forallb (fun c => if b then id c else negb c) w' = true).
  { intros b Hf. apply forallb_forall. intros c Hc%list_elem_of_In. rewrite Forall_forall in Hf.
    rewrite (Hf c Hc). by destruct b. }
  assert (Hne : exists b l, w' = b :: l).
  { unfold w'. destruct w as [|b l]; [simpl in Hw; lia|]. cbn. eauto. }
  split.
  - intros Hc. apply Forall_forall. intros b Hb. destruct (forallb id w') eqn:E1.
    { rewrite forallb_forall in E1. apply list_elem_of_In, E1 in Hb. by destruct b. }
    destruct (forallb negb w') eqn:E0; [|done]. rewrite forallb_forall in E0.
    apply list_elem_of_In, E0 in Hb. by destruct b.
  - intros Hf. specialize (Hall raw Hf). destruct raw; [by change (forallb id w') with (forallb (fun c => id c) w'); rewrite Hall|].
    destruct (forallb id w') eqn:E1; [|by change (forallb negb w') with (forallb (fun c => negb c) w'); rewrite Hall].
    destruct Hne as (b & l & E). rewrite E in *. cbn in Hall, E1. by destruct b.
Qed.
Lemma debounce_window_witness :
  let r := rt0 <| shift_reg := [3; 0; 0; 0; 0; 0; 0] |> in
  (debounce 3 0 1 r).1 = 1 /\ zget 0 (debounced (debounce 3 0 1 r).2) 0 = (debounce 3 0 1 r).1.
Proof.
  intros r. split; [reflexivity|].
  exact (proj1 (proj2 (proj2 (debounce_window [true; true; false] 0 true r
    ltac:(simpl; lia) ltac:(lia) ltac:(by vm_compute) eq_refl)))).
Defined.
