(* ===== verification/InterlockPins.v ===== *)
(** The interlock framework's view of the pin HAL: which slot holds which outputs.
    Claims, failed claims with their rollback, and releases move from view to view. *)
From S2P Require Import Prelude IlHal InterlockDsl Interlock.

(** ** Specification *)

(** A pin with an ADC channel takes no GPIO claim. *)
Class IlPlatOk `{IlPlat} : Prop :=
  plat_adc_excl : forall id m, il_plat_adc_channel id <> 0xFF -> il_plat_pin_cap id m = false.

(** The outputs each slot holds, [None] for a slot that holds no pin. *)
Definition view : Type := Z -> option (list il_output_t).
Definition upd (D : view) (slot : Z) (v : option (list il_output_t)) : view :=
  fun t => if t =? slot then v else D t.

Section View.
Context `{IlPlat}.

Definition owned (h : hal_t) (t : Z) (o : il_output_t) : Prop :=
  let c := claim_of h (out_phys o) in
  0 <= out_phys o < 30 /\ Z.testbit (slot_mask c) t = true /\ mode c = HAL_PIN_MODE_GPIO_OUT /\
  ok_value c = ok_val o /\ err_value c = err_val o /\ open_drain c = od o /\
  il_plat_pin_cap (out_phys o) HAL_PIN_MODE_GPIO_OUT = true.
Record hal_inv (D : view) (h : hal_t) : Prop := {
  hi_good : hal_good h;
  hi_owned : forall t outs o, D t = Some outs -> o ∈ outs -> owned h t o;
  hi_bits : forall id t, 0 <= id < 30 -> 0 <= t -> Z.testbit (slot_mask (claim_of h id)) t = true ->
    exists outs, D t = Some outs /\ (mode (claim_of h id) = HAL_PIN_MODE_GPIO_OUT -> id ∈ map out_phys outs)
}.

(** The effect of a claim: one table entry, the others as they were. *)
Definition claim_eff (h h' : hal_t) (id : Z) (c' : hal_pin_claim_record_t) : Prop :=
  hal_good h' /\ claim_of h' id = c' /\ forall id', 0 <= id' -> id' <> id -> claim_of h' id' = claim_of h id'.
End View.

(** *** The release loop, pin by pin *)
Definition released (slot : Z) (c : hal_pin_claim_record_t) : hal_pin_claim_record_t :=
  if Z.land (slot_mask c) (slot_bit slot) =? 0 then c
  else if mask_without slot (slot_mask c) =? 0 then claim_free
  else c <| slot_mask := mask_without slot (slot_mask c) |>.

(** ** Lemmas *)

Lemma upd_eq D slot v : upd D slot v slot = v.
Proof. unfold upd. by rewrite Z.eqb_refl. Qed.
Lemma upd_ne D slot v t : t <> slot -> upd D slot v t = D t.
Proof. unfold upd. intros. by destruct (Z.eqb_spec t slot). Qed.

Lemma slot_bit_test slot t : 0 <= slot < 16 -> 0 <= t -> Z.testbit (slot_bit slot) t = (slot =? t).
Proof. intros Hs Ht. rewrite slot_bit_val by done. apply Z.pow2_bits_eqb; lia. Qed.

Lemma mask_zero_bit m t : m = 0 -> Z.testbit m t = false.
Proof. intros ->. apply Z.testbit_0_l. Qed.

Section Claims.
Context `{IlPlat}.

Lemma set_claim_eff h id f :
  hal_good h -> 0 <= id < 30 -> hal_good (set_claim id f h) -> claim_eff h (set_claim id f h) id (f (claim_of h id)).
Proof.
  intros Hg Hid Hg'. split; [done|]. split; [by apply claim_of_set_eq|].
  intros id' H0 Hne. by apply claim_of_set_ne.
Qed.

Lemma hal_pin_claim_eff id slot m h :
  hal_good h -> 0 <= id -> 0 <= slot < 16 ->
  let r := hal_pin_claim id slot m h in let c := claim_of h id in
  (r.1 <> HAL_PIN_CLAIM_OK /\ r.2 = h) \/
  (r.1 = HAL_PIN_CLAIM_OK /\ 0 <= id < 30 /\ (slot_mask c = 0 \/ slot_mask c = slot_bit slot) /\ input_mode m /\
   claim_eff h r.2 id (mk_claim (slot_bit slot) m 0 0 (adc_channel c) (open_drain c))).
Proof.
  intros Hg Hid Hs r c. pose proof (claim_good id slot m h Hg Hid Hs) as Hg'. revert Hg'. subst r.
  unfold hal_pin_claim. rewrite ensure_idem by apply Hg.
  unfold HAL_PIN_TABLE_SIZE. destruct (Z.leb_spec 30 id); [by intros; left|].
  match goal with |- context [if ?b then (HAL_PIN_CLAIM_BAD_MODE, _) else _] => destruct b eqn:Em end; [by intros; left|].
  destruct (il_plat_pin_reserved id); [by intros; left|]. destruct (negb (il_plat_pin_cap id m)); [by intros; left|].
  cbv zeta. fold c.
  match goal with |- context [if ?b then (HAL_PIN_CLAIM_TAKEN, _) else _] => destruct b eqn:Et end; [by intros; left|]. cbn [fst snd]. intros Hg'. right.
  split; [done|]. split; [lia|]. split; [bools; lia|]. split.
  - unfold input_mode. bools. unfold HAL_PIN_MODE_GPIO_IN, HAL_PIN_MODE_GPIO_IN_PU, HAL_PIN_MODE_GPIO_IN_PD in *. lia.
  - pose proof (set_claim_eff h id _ Hg ltac:(lia) Hg') as E. by unfold field_map in E.
Qed.

Lemma hal_pin_claim_adc_eff id slot h :
  hal_good h -> 0 <= id -> 0 <= slot < 16 ->
  let r := hal_pin_claim_adc id slot h in let c := claim_of h id in
  (r.1 <> HAL_PIN_CLAIM_OK /\ r.2 = h) \/
  (r.1 = HAL_PIN_CLAIM_OK /\ 0 <= id < 30 /\ il_plat_adc_channel id <> 0xFF /\
   claim_eff h r.2 id (mk_claim (Z.lor (slot_mask c) (slot_bit slot)) HAL_PIN_MODE_ADC_SCAN 0 0
                         (il_plat_adc_channel id) (open_drain c))).
Proof.
  intros Hg Hid Hs r c. pose proof (claim_adc_good id slot h Hg Hid Hs) as Hg'. revert Hg'. subst r.
  unfold hal_pin_claim_adc. rewrite ensure_idem by apply Hg.
  unfold HAL_PIN_TABLE_SIZE. destruct (Z.leb_spec 30 id); [by intros; left|]. cbv zeta.
  destruct (Z.eqb_spec (il_plat_adc_channel id) 0xFF); [by intros; left|].
  destruct (il_plat_pin_reserved id); [by intros; left|]. cbn [fst snd]. intros Hg'. right.
  split; [done|]. split; [lia|]. split; [done|].
  pose proof (set_claim_eff h id _ Hg ltac:(lia) Hg') as E. by unfold field_map in E.
Qed.

Lemma hal_pin_claim_output_eff id slot ok err o h :
  hal_good h -> 0 <= id -> 0 <= slot < 16 -> 0 <= ok -> 0 <= err -> 0 <= o ->
  let r := hal_pin_claim_output id slot ok err o h in let c := claim_of h id in
  (r.1 <> HAL_PIN_CLAIM_OK /\ r.2 = h) \/
  (r.1 = HAL_PIN_CLAIM_OK /\ 0 <= id < 30 /\ il_plat_pin_cap id HAL_PIN_MODE_GPIO_OUT = true /\
   (slot_mask c = 0 \/ (mode c = HAL_PIN_MODE_GPIO_OUT /\ ok_value c = ok /\ err_value c = err /\ open_drain c = o)) /\
   claim_eff h r.2 id (mk_claim (Z.lor (slot_mask c) (slot_bit slot)) HAL_PIN_MODE_GPIO_OUT ok err (adc_channel c) o)).
Proof.
  intros Hg Hid Hs Hok Herr Hod r c. pose proof (claim_output_good id slot ok err o h Hg Hid Hs Hok Herr Hod) as Hg'.
  revert Hg'. subst r. unfold hal_pin_claim_output. rewrite ensure_idem by apply Hg.
  unfold HAL_PIN_TABLE_SIZE. destruct (Z.leb_spec 30 id); [by intros; left|].
  match goal with |- context [if ?b then (HAL_PIN_CLAIM_BAD_MODE, _) else _] => destruct b eqn:Eb end; [by intros; left|]. destruct (ok =? err); [by intros; left|]. destruct (il_plat_pin_reserved id); [by intros; left|].
  destruct (il_plat_pin_cap id HAL_PIN_MODE_GPIO_OUT); cbn [negb]; [|by intros; left]. cbv zeta. fold c.
  destruct (Z.eqb_spec (slot_mask c) 0) as [E0|E0]; cbn [negb].
  - cbn [fst snd]. intros Hg'. right. split; [done|]. split; [lia|]. split; [done|]. split; [by intros; left|]. rewrite E0.
    split; [done|]. rewrite apply_output_log. split.
    + unfold claim_of, set_claim, log, field_map. cbn [g_claims]. rewrite zget_zset_eq; [cbn; rewrite zget_zset_eq; [done|]|];
        destruct Hg as (_ & Hl & _); unfold zlen; rewrite ?zlen_zset; lia.
    + intros id' Hi Hne. by rewrite claim_of_set_ne, claim_of_log, claim_of_set_ne by done.
  - destruct (Z.eqb_spec (mode c) HAL_PIN_MODE_GPIO_OUT) as [Em|]; cbn [negb]; [|by intros; left].
    match goal with |- context [if ?b then (HAL_PIN_CLAIM_VALUE_MISMATCH, _) else _] => destruct b eqn:Ev end; [by intros; left|]. cbn [fst snd]. intros Hg'. right. bools.
    split; [done|]. split; [lia|]. split; [done|]. split; [right; lia|].
    pose proof (set_claim_eff h id _ Hg ltac:(lia) Hg') as E. unfold field_map in E. fold c in E.
    rewrite Em in E. replace (ok_value c) with ok in E by lia. replace (err_value c) with err in E by lia.
    by replace (open_drain c) with o in E by lia.
Qed.
End Claims.

(** *** The view through claims and releases *)
Section Views.
Context `{!IlPlat}.

Lemma hal_inv_grow D slot h : hal_inv D h -> D slot = None -> hal_inv (upd D slot (Some [])) h.
Proof.
  intros [Hg Ho Hb] Hn. split; [done|..].
  - intros t outs o. destruct (decide (t = slot)) as [-> |]; [rewrite upd_eq; intros [= <-]; by intros ?%not_elem_of_nil|].
    rewrite upd_ne by done. apply Ho.
  - intros id t Hid Ht Hbit. destruct (Hb id t Hid Ht Hbit) as (outs & HD & Hin).
    exists outs. split; [|done]. rewrite upd_ne; [done|]. congruence.
Qed.

(** A claim that sets one entry: what is left to show of the view. *)
Lemma hal_inv_eff D D' h h' id c' :
  hal_inv D h -> claim_eff h h' id c' -> 0 <= id < 30 ->
  (forall t outs o, D' t = Some outs -> o ∈ outs -> out_phys o <> id -> exists outs', D t = Some outs' /\ o ∈ outs') ->
  (forall t outs o, D' t = Some outs -> o ∈ outs -> out_phys o = id -> owned h' t o) ->
  (forall t outs, D t = Some outs -> exists outs', D' t = Some outs' /\ outs ⊆ outs') ->
  (forall t, 0 <= t -> Z.testbit (slot_mask c') t = true ->
     exists outs, D' t = Some outs /\ (mode c' = HAL_PIN_MODE_GPIO_OUT -> id ∈ map out_phys outs)) ->
  hal_inv D' h'.
Proof.
  intros [Hg Ho Hb] (Hg' & Hc & Hne) Hid Hold Hid' Hmono Hbit. split; [done|..].
  - intros t outs o HD Hin. destruct (decide (out_phys o = id)) as [E|E]; [by eapply Hid'|].
    destruct (Hold t outs o HD Hin E) as (outs' & HD' & Hin'). destruct (Ho t outs' o HD' Hin') as [Hr Hrest].
    split; [done|]. rewrite Hne by (done || lia). done.
  - intros i t Hi Ht. destruct (decide (i = id)) as [-> |E]; [rewrite Hc; by apply Hbit|].
    rewrite Hne by (done || lia). intros Hbi. destruct (Hb i t Hi Ht Hbi) as (outs & HD & Hin).
    destruct (Hmono t outs HD) as (outs' & HD' & Hsub). exists outs'. split; [done|].
    intros Hm. specialize (Hin Hm). apply list_elem_of_fmap in Hin as (o & -> & Hin).
    apply list_elem_of_fmap. exists o. auto.
Qed.

Lemma owned_bit h t o : owned h t o -> 0 <= t.
Proof.
  intros (_ & Hb & _). destruct (Z.ltb_spec t 0); [|done]. by rewrite Z.testbit_neg_r in Hb.
Qed.

Lemma hal_inv_input D slot x h h' :
  IlPlatOk -> hal_inv D h -> D slot = Some [] -> 0 <= slot < 16 -> input_ok x ->
  claim_input slot x h = (HAL_PIN_CLAIM_OK, h') -> hal_inv D h'.
Proof.
  intros Hp HI HD Hs Hx. unfold claim_input.
  destruct (in_mode x =? IL_PIN_MODE_VIRTUAL); [by intros [= <-]|]. pose proof (hi_good _ _ HI) as Hg.
  destruct (Z.eqb_spec (in_mode x) IL_PIN_MODE_ADC) as [Ea|Ea].
  - assert (Hr : 0 <= in_phys x) by (destruct Hx as [[Hm|[Hm|Hm]]|?|Hm|Hm]; rewrite ?Hm in Ea; done || lia).
    destruct (hal_pin_claim_adc_eff (in_phys x) slot h Hg Hr Hs) as [[Hne _]|(_ & Hid & Hch & He)];
      intros E; rewrite E in *; [done|]. cbn [fst snd] in *.
    eapply (hal_inv_eff D D); [done|exact He|done|eauto| |eauto|].
    + intros t outs o HDt Hin Eo. destruct (hi_owned _ _ HI t outs o HDt Hin) as (? & ? & ? & ? & ? & ? & Hcap).
      rewrite Eo, Hp in Hcap by done. done.
    + intros t Ht. cbn [slot_mask mode]. rewrite Z.lor_spec, slot_bit_test by done. intros [Hb|Hb]%orb_true_iff.
      * destruct (hi_bits _ _ HI (in_phys x) t Hid Ht Hb) as (outs & HDt & _). by exists outs.
      * apply Z.eqb_eq in Hb as <-. by exists [].
  - destruct (Z.eqb_spec (map_input_mode (in_mode x)) HAL_PIN_MODE_UNCLAIMED) as [|Hu]; [done|].
    assert (Hr : 0 <= in_phys x).
    { destruct Hx as [[Hm|[Hm|Hm]]|?|Hm|Hm]; try lia; rewrite Hm in Hu, Ea; try done; by destruct Hu. }
    destruct (hal_pin_claim_eff (in_phys x) slot (map_input_mode (in_mode x)) h Hg Hr Hs)
      as [[Hne _]|(_ & Hid & Hmask & Him & He)]; intros E; rewrite E in *; [done|]. cbn [fst snd] in *.
    eapply (hal_inv_eff D D); [done|exact He|done|eauto| |eauto|].
    + intros t outs o HDt Hin Eo. destruct (hi_owned _ _ HI t outs o HDt Hin) as (_ & Hb & _).
      assert (Ht : 0 <= t) by (eapply owned_bit, (hi_owned _ _ HI); done). rewrite Eo in Hb.
      destruct Hmask as [Em|Em]; rewrite Em in Hb; [by rewrite Z.testbit_0_l in Hb|].
      rewrite slot_bit_test in Hb by done. apply Z.eqb_eq in Hb as <-. rewrite HD in HDt. injection HDt as <-.
      by apply not_elem_of_nil in Hin.
    + intros t Ht. cbn [slot_mask mode]. rewrite slot_bit_test by done. intros Hb%Z.eqb_eq. subst t.
      exists []. split; [done|]. intros Em. unfold input_mode in Him. rewrite Em in Him. by destruct Him as [|[|]].
Qed.

Lemma hal_inv_output D slot outs o h h' :
  hal_inv D h -> D slot = Some outs -> 0 <= slot < 16 -> output_ok o ->
  claim_output slot o h = (HAL_PIN_CLAIM_OK, h') -> hal_inv (upd D slot (Some (outs ++ [o]))) h'.
Proof.
  intros HI HD Hs (Hr & Hok & Herr & Hod) E. pose proof (hi_good _ _ HI) as Hg. unfold claim_output in E.
  destruct (hal_pin_claim_output_eff (out_phys o) slot (ok_val o) (err_val o) (od o) h Hg ltac:(lia) Hs
    ltac:(lia) ltac:(lia) ltac:(lia)) as [[Hne _]|(_ & Hid & Hcap & Hc & He)]; rewrite E in *; [done|].
  cbn [fst snd] in *. destruct He as (Hg' & Hc' & Hother).
  assert (Hnew : forall t, 0 <= t -> Z.testbit (slot_mask (claim_of h' (out_phys o))) t
    = Z.testbit (slot_mask (claim_of h (out_phys o))) t || (slot =? t)).
  { intros t Ht. rewrite Hc'. cbn [slot_mask]. by rewrite Z.lor_spec, slot_bit_test by done. }
  eapply (hal_inv_eff D); [done|by split|done|..].
  - intros t outs0 o' HDt Hin Hne. destruct (decide (t = slot)) as [-> |].
    + rewrite upd_eq in HDt. injection HDt as <-. exists outs. split; [done|].
      apply elem_of_app in Hin as [ | ->%list_elem_of_singleton]; done.
    + rewrite upd_ne in HDt by done. by exists outs0.
  - intros t outs0 o' HDt Hin Eo. unfold owned. cbv zeta. rewrite Eo.
    assert (Hcase : (t = slot /\ o' = o) \/ (exists outs1, D t = Some outs1 /\ o' ∈ outs1)).
    { destruct (decide (t = slot)) as [-> |]; [|rewrite upd_ne in HDt by done; eauto].
      rewrite upd_eq in HDt. injection HDt as <-. apply elem_of_app in Hin as [ | ->%list_elem_of_singleton]; eauto. }
    split; [done|]. destruct Hcase as [[-> ->]|(outs1 & HDo & Hino)].
    + rewrite Hnew by lia. rewrite Z.eqb_refl, orb_true_r. rewrite Hc'. done.
    + destruct (hi_owned _ _ HI t outs1 o' HDo Hino) as (_ & Hb & Hm & H1 & H2 & H3 & _).
      assert (Ht : 0 <= t) by (eapply owned_bit, (hi_owned _ _ HI); done). rewrite Eo in *.
      rewrite Hnew, Hb by done. split; [done|]. rewrite Hc'. cbn [mode ok_value err_value open_drain].
      destruct Hc as [E0|(_ & E1 & E2 & E3)]; [by rewrite E0, Z.testbit_0_l in Hb|].
      rewrite <- H1, <- H2, <- H3, E1, E2, E3. done.
  - intros t outs0 HDt. destruct (decide (t = slot)) as [-> |].
    + exists (outs ++ [o]). rewrite upd_eq. split; [done|]. rewrite HD in HDt. injection HDt as <-.
      intros z Hz. apply elem_of_app. by left.
    + exists outs0. by rewrite upd_ne.
  - intros t Ht. rewrite <- Hc', Hnew by done. intros [Hb|Hb]%orb_true_iff.
    + destruct (hi_bits _ _ HI _ t Hid Ht Hb) as (outs0 & HDt & Hin).
      destruct Hc as [E0|(Em & _)]; [by rewrite E0, Z.testbit_0_l in Hb|]. specialize (Hin Em).
      destruct (decide (t = slot)) as [-> |]; [|exists outs0; by rewrite upd_ne].
      exists (outs ++ [o]). rewrite upd_eq. split; [done|]. rewrite HD in HDt. injection HDt as <-.
      intros _. rewrite map_app. apply elem_of_app. by left.
    + apply Z.eqb_eq in Hb as <-. exists (outs ++ [o]). rewrite upd_eq. split; [done|].
      intros _. rewrite map_app. apply elem_of_app. right. by apply list_elem_of_singleton.
Qed.

(** A claim that fails changes nothing. *)
Lemma claim_input_fails slot x h cs h' :
  hal_good h -> 0 <= slot < 16 -> input_ok x -> claim_input slot x h = (cs, h') -> cs <> HAL_PIN_CLAIM_OK -> h' = h.
Proof.
  intros Hg Hs Hx E Hne. unfold claim_input in E.
  assert (Hr : in_mode x <> IL_PIN_MODE_VIRTUAL -> map_input_mode (in_mode x) <> HAL_PIN_MODE_UNCLAIMED -> 0 <= in_phys x).
  { intros Hv Hu. destruct Hx as [[Hm|[Hm|Hm]]|?|Hm|Hm]; try lia; rewrite Hm in Hu, Hv; done. }
  destruct (Z.eqb_spec (in_mode x) IL_PIN_MODE_VIRTUAL); [by injection E|].
  destruct (Z.eqb_spec (in_mode x) IL_PIN_MODE_ADC) as [Ea|Ea].
  - destruct (hal_pin_claim_adc_eff (in_phys x) slot h Hg ltac:(apply Hr; [done|by rewrite Ea]) Hs) as [[_ E2]|(E1 & _)];
      rewrite E in *; cbn [fst snd] in *; [done|by destruct Hne].
  - destruct (Z.eqb_spec (map_input_mode (in_mode x)) HAL_PIN_MODE_UNCLAIMED); [by injection E|].
    destruct (hal_pin_claim_eff (in_phys x) slot (map_input_mode (in_mode x)) h Hg ltac:(by apply Hr) Hs) as [[_ E2]|(E1 & _)];
      rewrite E in *; cbn [fst snd] in *; [done|by destruct Hne].
Qed.
Lemma claim_output_fails slot o h cs h' :
  hal_good h -> 0 <= slot < 16 -> output_ok o -> claim_output slot o h = (cs, h') -> cs <> HAL_PIN_CLAIM_OK -> h' = h.
Proof.
  intros Hg Hs (Hr & Hok & Herr & Hod) E Hne. unfold claim_output in E.
  destruct (hal_pin_claim_output_eff (out_phys o) slot (ok_val o) (err_val o) (od o) h Hg ltac:(lia) Hs
    ltac:(lia) ltac:(lia) ltac:(lia)) as [[_ E2]|(E1 & _)]; rewrite E in *; cbn [fst snd] in *; [done|by destruct Hne].
Qed.

Lemma hal_inv_ext D D' h : (forall t, D t = D' t) -> hal_inv D h -> hal_inv D' h.
Proof.
  intros HD [Hg Ho Hb]. split; [done|..].
  - intros t outs o Ht. rewrite <- HD in Ht. by apply Ho.
  - intros id t Hid Ht Hbit. rewrite <- HD. by apply Hb.
Qed.

Lemma release_pin_eff slot id h : hal_good h -> 0 <= slot < 16 -> 0 <= id < 30 ->
  claim_eff h (release_pin slot id h) id (released slot (claim_of h id)).
Proof.
  intros Hg Hs Hid. split; [by apply release_pin_good|]. rewrite release_pin_eq by done. unfold released.
  destruct (_ =? 0); [done|]. destruct (_ =? 0).
  - rewrite claim_of_log, claim_of_set_eq by done. split; [done|]. intros. by rewrite claim_of_log, claim_of_set_ne.
  - rewrite claim_of_set_eq by done. split; [done|]. intros. by rewrite claim_of_set_ne.
Qed.

Lemma release_slot_claims slot h : hal_good h -> 0 <= slot < 16 ->
  hal_good (hal_pin_release_slot slot h) /\
  forall id, 0 <= id < 30 -> claim_of (hal_pin_release_slot slot h) id = released slot (claim_of h id).
Proof.
  intros Hg Hs. unfold hal_pin_release_slot. rewrite ensure_idem by apply Hg. unfold for_pins.
  assert (Hl : forall l h, NoDup l -> Forall (fun i => 0 <= Z.of_nat i < 30) l -> hal_good h ->
    let h' := foldl (fun h id => release_pin slot (Z.of_nat id) h) h l in
    hal_good h' /\ forall id, 0 <= id < 30 ->
      claim_of h' id = if decide (Z.to_nat id ∈ l) then released slot (claim_of h id) else claim_of h id).
  { induction l as [|i l IH]; intros h0 Hnd Hf Hg0; cbn [foldl].
    - split; [done|]. intros id _. by rewrite decide_False by apply not_elem_of_nil.
    - apply NoDup_cons in Hnd as [Hi Hnd]. apply Forall_cons in Hf as [Hi0 Hf].
      destruct (release_pin_eff slot (Z.of_nat i) h0 Hg0 Hs Hi0) as (Hg1 & Hc1 & Hn1).
      destruct (IH _ Hnd Hf Hg1) as [Hg2 Hc2]. split; [done|]. intros id Hid. rewrite Hc2 by done.
      destruct (decide (Z.to_nat id = i)) as [<- |Hne].
      + rewrite decide_False by done. rewrite decide_True by apply list_elem_of_here.
        rewrite Z2Nat.id in * by lia. exact Hc1.
      + rewrite Hn1 by lia. destruct (decide (Z.to_nat id ∈ l)) as [Hin|Hin].
        * by rewrite decide_True by by apply list_elem_of_further.
        * rewrite decide_False; [done|]. by intros [?|?]%elem_of_cons. }
  destruct (Hl (seq 0 30) h (NoDup_seq 0 30)) as [Hg' Hc]; [|done|].
  - apply Forall_forall. intros i Hi%elem_of_seq. lia.
  - split; [done|]. intros id Hid. rewrite Hc by done. rewrite decide_True; [done|]. apply elem_of_seq. lia.
Qed.

Lemma released_bits slot c t : fits 16 (slot_mask c) -> 0 <= slot < 16 -> 0 <= t ->
  Z.testbit (slot_mask (released slot c)) t = Z.testbit (slot_mask c) t && negb (t =? slot).
Proof.
  intros Hf Hs Ht. unfold released. destruct (Z.eqb_spec (Z.land (slot_mask c) (slot_bit slot)) 0) as [E|E].
  - destruct (Z.eqb_spec t slot) as [-> |]; [|by rewrite andb_true_r].
    assert (Hb : Z.testbit (Z.land (slot_mask c) (slot_bit slot)) slot = false) by by rewrite E, Z.testbit_0_l.
    rewrite Z.land_spec, slot_bit_test, Z.eqb_refl, andb_true_r in Hb by done. by rewrite Hb.
  - rewrite <- mask_without_bit by done. destruct (Z.eqb_spec (mask_without slot (slot_mask c)) 0) as [E0|]; [|done].
    by rewrite E0.
Qed.
(** What another owner sees of it. *)
Lemma released_other slot c t : fits 16 (slot_mask c) -> 0 <= slot < 16 -> 0 <= t -> t <> slot ->
  Z.testbit (slot_mask c) t = true ->
  mode (released slot c) = mode c /\ ok_value (released slot c) = ok_value c /\
  err_value (released slot c) = err_value c /\ open_drain (released slot c) = open_drain c.
Proof.
  intros Hf Hs Ht Hne Hb. pose proof (released_bits slot c t Hf Hs Ht) as Hr. rewrite Hb in Hr.
  unfold released in *. destruct (_ =? 0); [done|]. destruct (_ =? 0); [|done].
  destruct (Z.eqb_spec t slot); [done|]. by rewrite Z.testbit_0_l in Hr.
Qed.

Lemma hal_inv_release D slot h :
  hal_inv D h -> 0 <= slot < 16 -> hal_inv (upd D slot None) (hal_pin_release_slot slot h).
Proof.
  intros [Hg Ho Hb] Hs. destruct (release_slot_claims slot h Hg Hs) as [Hg' Hc].
  assert (Hf : forall id, 0 <= id < 30 -> fits 16 (slot_mask (claim_of h id))).
  { intros id Hid. by apply claim_ok_mask, claim_of_ok. }
  split; [done|..].
  - intros t outs o HD Hin. destruct (decide (t = slot)) as [-> |Hne]; [by rewrite upd_eq in HD|].
    rewrite upd_ne in HD by done. pose proof (owned_bit h t o (Ho t outs o HD Hin)) as Ht.
    destruct (Ho t outs o HD Hin) as (Hid & Hbit & Hrest). unfold owned. rewrite Hc by done. cbv zeta.
    destruct (released_other slot _ t (Hf _ Hid) Hs Ht Hne Hbit) as (-> & -> & -> & ->).
    rewrite released_bits, Hbit by (done || by apply Hf). destruct (Z.eqb_spec t slot); [done|]. done.
  - intros id t Hid Ht. rewrite Hc, released_bits by (done || by apply Hf). intros [Hbit Hne]%andb_true_iff.
    destruct (Z.eqb_spec t slot); [done|]. destruct (Hb id t Hid Ht Hbit) as (outs & HD & Hin).
    exists outs. rewrite upd_ne by done. split; [done|].
    by destruct (released_other slot _ t (Hf _ Hid) Hs Ht n Hbit) as (-> & _).
Qed.

(** *** [claim_inst_pins]: all the pins of an interlock, or none *)
Lemma claim_inputs_inv D slot l : forall h cs h',
  IlPlatOk -> D slot = Some [] -> 0 <= slot < 16 -> Forall input_ok l -> hal_inv D h ->
  claim_all (claim_input slot) l h = (cs, h') -> hal_inv D h'.
Proof.
  induction l as [|x l IH]; intros h cs h' Hp HD Hs Hf HI; cbn [claim_all]; [by intros [= _ <-]|].
  apply Forall_cons in Hf as [Hx Hf]. destruct (claim_input slot x h) as [c1 h1] eqn:E1.
  destruct (Z.eqb_spec c1 HAL_PIN_CLAIM_OK) as [-> |Hne]; cbn [negb].
  - apply IH; try done. by eapply hal_inv_input.
  - intros [= _ <-]. by rewrite (claim_input_fails slot x h c1 h1 (hi_good _ _ HI) Hs Hx E1 Hne).
Qed.

Lemma claim_outputs_inv D slot l : forall outs h cs h',
  0 <= slot < 16 -> Forall output_ok l -> hal_inv (upd D slot (Some outs)) h ->
  claim_all (claim_output slot) l h = (cs, h') ->
  (cs = HAL_PIN_CLAIM_OK -> hal_inv (upd D slot (Some (outs ++ l))) h') /\
  exists outs', hal_inv (upd D slot (Some outs')) h'.
Proof.
  induction l as [|o l IH]; intros outs h cs h' Hs Hf HI; cbn [claim_all].
  { intros [= <- <-]. rewrite app_nil_r. eauto. }
  apply Forall_cons in Hf as [Ho Hf]. destruct (claim_output slot o h) as [c1 h1] eqn:E1.
  destruct (Z.eqb_spec c1 HAL_PIN_CLAIM_OK) as [-> |Hne]; cbn [negb].
  - intros E. replace (outs ++ o :: l) with ((outs ++ [o]) ++ l) by by rewrite <- app_assoc.
    apply (IH (outs ++ [o]) h1 cs h' Hs Hf); [|done]. apply (hal_inv_ext (upd (upd D slot (Some outs)) slot (Some (outs ++ [o])))).
    { intros t. unfold upd. by destruct (t =? slot). }
    eapply hal_inv_output; try done. apply upd_eq.
  - intros [= <- <-]. split; [done|]. exists outs.
    by rewrite (claim_output_fails slot o h c1 h1 (hi_good _ _ HI) Hs Ho E1 Hne).
Qed.

Lemma claim_inst_pins_inv D slot i h :
  IlPlatOk -> D slot = None -> 0 <= slot < 16 -> Forall input_ok (inputs i) -> Forall output_ok (outputs i) ->
  hal_inv D h ->
  let r := claim_inst_pins slot i h in
  (r.1 = HAL_PIN_CLAIM_OK /\ hal_inv (upd D slot (Some (outputs i))) r.2) \/
  (r.1 <> HAL_PIN_CLAIM_OK /\ hal_inv D r.2).
Proof.
  intros Hp HD Hs Hi Ho HI r. subst r. unfold claim_inst_pins.
  assert (Hback : forall v h', hal_inv (upd D slot v) h' -> hal_inv D (hal_pin_release_slot slot h')).
  { intros v h' HI'. apply (hal_inv_ext (upd (upd D slot v) slot None)); [|by apply hal_inv_release].
    intros t. unfold upd. by destruct (Z.eqb_spec t slot) as [-> |]. }
  destruct (claim_all (claim_input slot) (inputs i) h) as [c1 h1] eqn:E1.
  pose proof (claim_inputs_inv (upd D slot (Some [])) slot _ h c1 h1 Hp (upd_eq _ _ _) Hs Hi
    (hal_inv_grow D slot h HI HD) E1) as H1.
  destruct (Z.eqb_spec c1 HAL_PIN_CLAIM_OK) as [-> |Hne]; cbn [negb].
  - destruct (claim_all (claim_output slot) (outputs i) h1) as [c2 h2] eqn:E2.
    destruct (claim_outputs_inv D slot _ [] h1 c2 h2 Hs Ho H1 E2) as [Hok (outs' & Hany)].
    destruct (Z.eqb_spec c2 HAL_PIN_CLAIM_OK) as [-> |Hne]; cbn [negb]; [left|right].
    + split; [done|]. by apply Hok.
    + split; [done|]. by eapply Hback.
  - right. split; [done|]. by eapply Hback.
Qed.

(** A table not yet set up counts as the one [ensure_initialised] makes of it. *)
Lemma claim_input_ensure slot x h :
  let r := claim_input slot x h in let r' := claim_input slot x (ensure_initialised h) in
  r.1 = r'.1 /\ ensure_initialised r.2 = r'.2.
Proof.
  assert (Hi : ensure_initialised (ensure_initialised h) = ensure_initialised h)
    by by apply ensure_idem, ensure_initialised_done.
  pose proof (ensure_initialised_done h) as Hd.
  assert (Hset : forall id f, ensure_initialised (set_claim id f (ensure_initialised h)) = set_claim id f (ensure_initialised h)).
  { intros id f. by apply ensure_idem. }
  unfold claim_input. destruct (_ =? IL_PIN_MODE_VIRTUAL); [done|]. destruct (_ =? IL_PIN_MODE_ADC).
  - unfold hal_pin_claim_adc. rewrite Hi. cbv zeta. repeat case_match; cbn [fst snd]; by rewrite ?Hset, ?Hi.
  - destruct (_ =? HAL_PIN_MODE_UNCLAIMED); [done|]. unfold hal_pin_claim. rewrite Hi. cbv zeta.
    repeat match goal with |- context [if ?b then _ else _] => destruct b end; cbn [fst snd]; by rewrite ?Hset, ?Hi.
Qed.
Lemma claim_output_ensure slot o h :
  let r := claim_output slot o h in let r' := claim_output slot o (ensure_initialised h) in
  r.1 = r'.1 /\ ensure_initialised r.2 = r'.2.
Proof.
  assert (Hi : ensure_initialised (ensure_initialised h) = ensure_initialised h)
    by by apply ensure_idem, ensure_initialised_done.
  pose proof (ensure_initialised_done h) as Hd. unfold claim_output, hal_pin_claim_output. rewrite Hi. cbv zeta.
  repeat match goal with |- context [if ?b then _ else _] => destruct b end; cbn [fst snd]; rewrite ?Hi; try done;
    (split; [done|]); apply ensure_idem; rewrite ?apply_output_log; done.
Qed.
Lemma claim_all_ensure {A} (claim : A -> hal_t -> Z * hal_t) l :
  (forall x h, let r := claim x h in let r' := claim x (ensure_initialised h) in
     r.1 = r'.1 /\ ensure_initialised r.2 = r'.2) ->
  forall h, let r := claim_all claim l h in let r' := claim_all claim l (ensure_initialised h) in
     r.1 = r'.1 /\ ensure_initialised r.2 = r'.2.
Proof.
  intros Hc. induction l as [|x l IH]; intros h; cbn [claim_all].
  { split; [done|]. done. }
  destruct (Hc x h) as [H1 H2]. destruct (claim x h) as [c1 h1], (claim x (ensure_initialised h)) as [c2 h2].
  cbn [fst snd] in *. subst c2 h2. destruct (negb _); [done|]. apply IH.
Qed.
Lemma claim_inst_pins_ensure slot i h :
  let r := claim_inst_pins slot i h in let r' := claim_inst_pins slot i (ensure_initialised h) in
  r.1 = r'.1 /\ ensure_initialised r.2 = r'.2.
Proof.
  unfold claim_inst_pins. assert (Hrel : forall h, g_claims_initialised (hal_pin_release_slot slot h) = true).
  { intros h0. unfold hal_pin_release_slot. apply for_pins_ind; [apply ensure_initialised_done|].
    intros id h1 _ H1. unfold release_pin. repeat case_match; done. }
  assert (Hre : forall h, hal_pin_release_slot slot (ensure_initialised h) = hal_pin_release_slot slot h).
  { intros h0. unfold hal_pin_release_slot. by rewrite (ensure_idem (ensure_initialised h0)) by apply ensure_initialised_done. }
  destruct (claim_all_ensure (claim_input slot) (inputs i) (claim_input_ensure slot) h) as [H1 H2].
  destruct (claim_all (claim_input slot) _ h) as [c1 h1], (claim_all (claim_input slot) _ (ensure_initialised h)) as [c2 h2].
  cbn [fst snd] in *. subst c2 h2. destruct (negb _); cbn [fst snd]; [by rewrite Hre, ensure_idem by apply Hrel|].
  destruct (claim_all_ensure (claim_output slot) (outputs i) (claim_output_ensure slot) h1) as [H1 H2].
  destruct (claim_all (claim_output slot) _ h1) as [c3 h3], (claim_all (claim_output slot) _ (ensure_initialised h1)) as [c4 h4].
  cbn [fst snd] in *. subst c4 h4. destruct (negb _); cbn [fst snd]; [by rewrite Hre, ensure_idem by apply Hrel|done].
Qed.
End Views.
