(* ===== verification/InterlockSafety.v ===== *)
(** What the interlock framework guarantees: the state it keeps from boot on, and what
    a tick and a bring-up do to the outputs. *)
From S2P Require Import Prelude CfgFile IlPinTable IlHal InterlockDsl Interlock InterlockPins.
#[local] Open Scope il_scope.

(** ** Specification *)

(** *** The state *)
Definition live (s : il_state) (i : Z) : bool := armed s i && (sl_id (slot_of s i) =? INTERLOCK_ID_DSL).
(** The pins of the first [k] slots, as the state declares them. *)
Definition view_of (k : Z) (s : il_state) : view :=
  fun t => if (t <? k) && live s t then Some (outputs (inst_of s t)) else None.

Definition slot_ok (sl : interlock_slot_persist_t) : Prop :=
  0 <= sl_state sl <= 2 /\ 0 <= sl_id sl <= 2 /\ (sl_state sl = INTERLOCK_SLOT_ARMED -> sl_id sl <> INTERLOCK_ID_NONE) /\
  fits 8 (boot_counter sl) /\ fits 8 (latched sl).
(** The arrays have their sizes. *)
Definition persist_shape (p : interlock_persist_t) : Prop :=
  length (slots p) = 10%nat /\ length (insts p) = 10%nat /\ length (dsl_len p) = 10%nat /\
  length (dsl_text p) = 10%nat /\ Forall (fun t => length t = 128%nat) (dsl_text p).
(** What RAM can hold at all. *)
Definition ram_ok (p : interlock_persist_t) : Prop :=
  persist_shape p /\
  Forall (fun sl => fits 8 (sl_state sl) /\ fits 8 (sl_id sl) /\ fits 8 (boot_counter sl) /\ fits 8 (latched sl)) (slots p) /\
  Forall (fits 16) (dsl_len p).
Definition header_ok (p : interlock_persist_t) : Prop :=
  magic p = INTERLOCK_MAGIC /\ version p = INTERLOCK_PERSIST_VERSION /\ self_size p = u16 sizeof_persist.
Definition stat_ok (b : il_status_buffer_t) : Prop :=
  length (sb_slots b) = 10%nat /\ length (input_vals b) = 10%nat.

(** The invariant, with the interlocks of the first [k] slots set up. *)
Record il_inv `{IlPlat} (k : Z) (s : il_state) : Prop := {
  iv_header : header_ok (persist s);
  iv_shape : persist_shape (persist s);
  iv_rt : length (runtime s) = 10%nat /\ Forall rt_ok (runtime s);
  iv_stat : stat_ok (status s);
  iv_slots : forall i, 0 <= i < 10 -> slot_ok (slot_of s i);
  iv_text : forall i, 0 <= i < 10 -> live s i = true -> 0 < zget 0 (dsl_len (persist s)) i < IL_DSL_MAX;
  iv_inst : forall i, 0 <= i < k -> live s i = true -> inst_wf false (inst_of s i);
  iv_hal : hal_inv (view_of k s) (ensure_initialised (hal s))
}.

(** What the watches of slot [i] say of a tick's samples, against the state before it. *)
Definition slot_wpass (ev : Z -> Z -> env) (s : il_state) (i : Z) : list bool :=
  let x := inst_of s i in
  let '(vs, r) := eval_inputs (ev i) (hal s) 0 (inputs x) (rt_of s i) in
  eval_watches (vs ++ replicate (7 - length vs) 0) (inputs x) (last_pass r) (watches x).
(** The vote: an OR of ANDs. *)
Definition slot_pass (ev : Z -> Z -> env) (s : il_state) (i : Z) : Prop :=
  watches (inst_of s i) = [] \/ exists g, group_sat g (watches (inst_of s i)) (slot_wpass ev s i).
(** Some interlock that declares [pin] as an output is armed and latched. *)
Definition tripped (s : il_state) (pin : Z) : bool :=
  existsb (fun j => live s j && nz (latched (slot_of s j))
                    && existsb (fun o => out_phys o =? pin) (outputs (inst_of s j))) slot_ids.
(** What an evaluation leaves alone. *)
Definition eval_frame (s s' : il_state) : Prop :=
  slots (persist s') = slots (persist s) /\ hal s' = hal s /\ grace_until s' = grace_until s /\
  clear_request s' = clear_request s /\
  forall j, inputs (inst_of s' j) = inputs (inst_of s j) /\ watches (inst_of s' j) = watches (inst_of s j) /\
    outputs (inst_of s' j) = outputs (inst_of s j).

(** The calls other threads make once the framework is up. *)
Inductive il_op :=
| OpArm (slot id : Z) | OpDisarm (slot : Z) | OpSetDsl (slot : Z) (text : list Z) | OpTick (te : tick_env)
| OpClear | OpGrace (ms : Z) | OpRepush | OpTakeRepush | OpGetSlot (slot : Z) | OpGetCrash | OpStatusV2.
Definition il_exec `{IlPlat} (sp pc : Z) (o : il_op) : il unit :=
  match o with
  | OpArm slot id => interlock_arm_slot_compiled sp pc slot id;~ iret tt
  | OpDisarm slot => interlock_disarm_slot sp pc slot;~ iret tt
  | OpSetDsl slot text => interlock_set_slot_dsl sp pc slot text;~ iret tt
  | OpTick te => interlock_tick_all sp pc te
  | OpClear => imod interlock_request_global_clear
  | OpGrace ms => imod (interlock_begin_grace ms)
  | OpRepush => imod interlock_request_repush
  | OpTakeRepush => imod (fun s => (interlock_take_repush s).2)
  | OpGetSlot slot => interlock_get_slot sp pc slot;~ iret tt
  | OpGetCrash => interlock_get_crash sp pc;~ iret tt
  | OpStatusV2 => interlock_build_status_v2 sp pc;~ iret tt
  end.
Definition op_ok (o : il_op) : Prop :=
  match o with
  | OpArm slot id => 0 <= slot /\ 0 <= id
  | OpDisarm slot | OpSetDsl slot _ | OpGetSlot slot => 0 <= slot
  | _ => True
  end.

(** [m] returns, from every state that satisfies [P], in one that satisfies [Q]. *)
Definition returns {A} (P : il_state -> Prop) (m : il A) (Q : A -> il_state -> Prop) : Prop :=
  forall s, P s -> exists a s', m s = Done a s' /\ Q a s'.

(** *** Steps *)
(** A slot given up: EMPTY, its pins free. *)
Definition empty_slot (slot : Z) (s : il_state) : il_state :=
  clear_slot_runtime slot (set_dsl_len slot 0 (set_inst slot (fun _ => inst0)
    (set_slot slot (fun _ => mk_slot INTERLOCK_SLOT_EMPTY INTERLOCK_ID_NONE 0 0)
      (s <| hal ::= hal_pin_release_slot slot |>)))).
(** A slot armed with an interlock whose pins have been claimed. *)
Definition armed_slot (slot : Z) (text : list Z) (i : il_inst_t) (s : il_state) : il_state :=
  clear_slot_runtime slot (set_slot slot (fun _ => mk_slot INTERLOCK_SLOT_ARMED INTERLOCK_ID_DSL 0 0)
    (set_dsl_text slot (fun l => text ++ [0] ++ drop (S (length text)) l)
      (set_dsl_len slot (zlen text) (set_inst slot (fun _ => i) s)))).
Definition latch_now (s : il_state) (i : Z) : bool := armed s i && (tf_state (inst_of s i) =? IL_TF_FALSE).

(** One tick, from the state before to the state after. *)
Record tick_effect `{IlPlat} (te : tick_env) (s s' : il_state) : Prop := {
  te_good : il_inv 10 s';
  te_clear : clear_request s' = false;
  te_live : forall i, 0 <= i < 10 -> live s' i = live s i /\ armed s' i = armed s i /\
    outputs (inst_of s' i) = outputs (inst_of s i);
  te_pass : forall i, 0 <= i < 10 -> live s i = true ->
    tf_state (inst_of s' i) = IL_TF_TRUE /\ slot_pass (at_input te) s i \/
    tf_state (inst_of s' i) = IL_TF_FALSE /\ ~ slot_pass (at_input te) s i;
  te_latch : forall i, 0 <= i < 10 -> latched (slot_of s' i) =
    if latch_now s' i && negb (il_in_grace (millis (at_latch te)) s') then 1
    else if clear_request s then 0 else latched (slot_of s i);
  te_grace : grace_until s' = if clear_request s then u32 (millis (at_clear te) + IL_GRACE_MS) else grace_until s;
  te_drive : exists calls : Z -> list gpio_op,
    gpio_log (hal s') = gpio_log (hal s) ++ concat (map calls (map Z.of_nat (seq 0 30))) /\
    forall i o, live s' i = true -> o ∈ outputs (inst_of s' i) ->
      calls (out_phys o) = output_ops (out_phys o) (od o) (if tripped s' (out_phys o) then err_val o else ok_val o)
}.
(** *** Warm restore leaves the other slots alone *)
Definition keeps0 (s s' : il_state) : Prop :=
  slot_of s' 0 = slot_of s 0 /\ inst_of s' 0 = inst_of s 0 /\
  zget 0 (dsl_len (persist s')) 0 = zget 0 (dsl_len (persist s)) 0 /\
  zget [] (dsl_text (persist s')) 0 = zget [] (dsl_text (persist s)) 0 /\
  cfg_fingerprint (persist s') = cfg_fingerprint (persist s).

(** *** Concrete states *)
(** The built-in interlock, parsed. *)
Definition gp1_inst : il_inst_t :=
  mk_inst (lit "gp1il" ++ replicate 11 0) IL_TF_UNEVALUATED
    [mk_input 1 IL_PIN_MODE_IN_PU 0 0 4 0; mk_input IL_VIRT_NODES_DEAD IL_PIN_MODE_VIRTUAL 0 0 0 0]
    [mk_watch 0 IL_OP_EQ 1 0; mk_watch 1 IL_OP_EQ 0 0] [mk_output 0 1 0 2].
(** A platform state after a cold boot without config files: the built-in alone. *)
Definition up_state : il_state :=
  match @interlock_thread2_start open_plat 0 0 [] 1000 (interlock_boot_decide (il_reset persist_cold_init)) with
  | Done _ s => s | _ => il_reset persist_cold_init end.
Definition env0 : env := mk_env (fun _ => true) (fun _ => 0) (fun _ _ => 0) 2000 0 0 0.
Definition tick0 : tick_env := mk_tick_env env0 (fun _ _ => env0) env0 env0.
Definition ops0 : list il_op := [OpTick tick0; OpClear; OpSetDsl 3 (lit "x;cfg[gp2:in];watch[gp2:1]"); OpTick tick0; OpDisarm 0].
(** The interlock input is low throughout. *)
Definition env_low (ms : Z) : env := mk_env (fun _ => false) (fun _ => 0) (fun _ _ => 0) ms 0 0 0.
Definition tick_low (ms : Z) : tick_env := mk_tick_env (env_low ms) (fun _ _ => env_low ms) (env_low ms) (env_low ms).
Definition tripped_state : il_state :=
  match interlock_tick_all 0 0 (tick_low 2000) up_state with Done _ s => interlock_request_global_clear s | _ => up_state end.
Definition state_of {A} (s0 : il_state) (r : res A) : il_state := match r with Done _ s => s | _ => s0 end.
(** [n] warm resets in a row, each followed by a bring-up. *)
Fixpoint warm_boots (n : nat) (s : il_state) : il_state :=
  match n with
  | O => s
  | S n => warm_boots n (state_of s (@interlock_thread2_start open_plat 0 0 [] 5000
             (interlock_boot_decide (il_reset (persist s)))))
  end.
(** A config file that claims GP1 as an input takes it before the built-in does: slot 0
    stays empty, and only the diagnostic word tells. *)
Definition gp1_taken : il_state :=
  state_of up_state (@interlock_thread2_start open_plat 0 0
    [row_of 1 (il_cfg_name 1) (lit "x;cfg[gp1:in];watch[gp1:1]")] 1000 (interlock_boot_decide (il_reset persist_cold_init))).
(** The poll's summary bit follows the live vote: it is off while a recovered but latched
    interlock still holds its output. *)
Definition recovered_state : il_state :=
  let tick ms s := state_of s (interlock_tick_all 0 0
    (let e := mk_env (fun _ => true) (fun _ => 0) (fun _ _ => 0) ms 0 0 0 in mk_tick_env e (fun _ _ => e) e e) s) in
  tick 2010 (tick 2008 (tick 2006 (tick 2004 (state_of up_state (interlock_tick_all 0 0 (tick_low 2000) up_state))))).

(** ** Lemmas *)

Section Views.
Context `{!IlPlat}.

(** *** Reading the state after a write *)

(** The fields of a state given as a record. *)
Ltac il_reduce :=
  unfold live, armed, slot_of, inst_of, persist_shape;
  cbn [persist runtime active_slot clear_request grace_until status repush_req hal armfail ilcf_rc
       magic version self_size slots crash insts dsl_len dsl_text cfg_fingerprint
       sl_state sl_id boot_counter latched].
(** The entry just written, or another one. *)
Ltac il_get := repeat first [rewrite zget_zset_eq by (unfold zlen in *; rewrite ?zlen_zset; lia)
                            |rewrite zget_zset_ne by (done || lia)].

Lemma slot_of_set s i f j : length (slots (persist s)) = 10%nat -> 0 <= i < 10 -> 0 <= j ->
  slot_of (set_slot i f s) j = if j =? i then f (slot_of s i) else slot_of s j.
Proof.
  intros Hl Hi Hj. unfold slot_of, set_slot, field_map. cbn [persist slots].
  destruct (Z.eqb_spec j i) as [-> |]; [apply zget_zset_eq; unfold zlen; lia|by apply zget_zset_ne].
Qed.
Lemma inst_of_set s i f j : length (insts (persist s)) = 10%nat -> 0 <= i < 10 -> 0 <= j ->
  inst_of (set_inst i f s) j = if j =? i then f (inst_of s i) else inst_of s j.
Proof.
  intros Hl Hi Hj. unfold inst_of, set_inst, field_map. cbn [persist insts].
  destruct (Z.eqb_spec j i) as [-> |]; [apply zget_zset_eq; unfold zlen; lia|by apply zget_zset_ne].
Qed.

Lemma zget_out {A} (d : A) l i : ~ (0 <= i < zlen l) -> zget d l i = d.
Proof.
  unfold zget, zlen. intros Hn. destruct (Z.ltb_spec i 0); [done|]. apply nth_overflow. lia.
Qed.
Lemma live_range s i : length (slots (persist s)) = 10%nat -> live s i = true -> 0 <= i < 10.
Proof.
  intros Hl Hlv. destruct (decide (0 <= i < 10)) as [|Hn]; [done|]. unfold live, armed, slot_of in Hlv.
  rewrite zget_out in Hlv by (unfold zlen; lia). done.
Qed.

Lemma slot_ids_in i : i ∈ slot_ids <-> 0 <= i < 10.
Proof.
  split.
  - unfold slot_ids. rewrite !elem_of_cons, elem_of_nil. lia.
  - intros Hi. unfold slot_ids. rewrite !elem_of_cons. lia.
Qed.

(** A step that leaves the pins alone and every slot's interlock as declared. *)
Lemma il_inv_same k s s' :
  il_inv k s -> header_ok (persist s') -> persist_shape (persist s') ->
  length (runtime s') = 10%nat /\ Forall rt_ok (runtime s') -> stat_ok (status s') ->
  (forall j, 0 <= j < 10 -> live s' j = live s j /\ slot_ok (slot_of s' j) /\
     outputs (inst_of s' j) = outputs (inst_of s j) /\ (inst_wf false (inst_of s j) -> inst_wf false (inst_of s' j)) /\
     zget 0 (dsl_len (persist s')) j = zget 0 (dsl_len (persist s)) j) ->
  hal_inv (view_of k s) (ensure_initialised (hal s')) -> il_inv k s'.
Proof.
  intros [H1 H2 H3 H4 H5 H6 H7 H8] H1' H2' H3' H4' Hj Hh. split; try done.
  - intros i Hi. by apply Hj.
  - intros i Hi. destruct (Hj i Hi) as (-> & _ & _ & _ & ->). by apply H6.
  - intros i Hi Hl. pose proof (live_range s' i (proj1 H2') Hl) as Hr. destruct (Hj i Hr) as (E & _ & _ & Hw & _).
    rewrite E in Hl. apply Hw. by apply H7.
  - eapply hal_inv_ext; [|exact Hh]. intros t. unfold view_of. destruct (t <? k); cbn [andb]; [|done].
    destruct (decide (0 <= t < 10)) as [Hr|Hn].
    + by destruct (Hj t Hr) as (-> & _ & -> & _).
    + assert (E : forall s0, persist_shape (persist s0) -> live s0 t = false).
      { intros s0 Hs0. apply not_true_is_false. intros Hl. by apply (live_range s0 t (proj1 Hs0)) in Hl. }
      by rewrite !E.
Qed.

(** A step on slot [i] alone, its pins included. *)
Lemma il_inv_change k k' s s' i v :
  il_inv k s -> 0 <= i < 10 -> (forall t, t <> i -> (t <? k') = (t <? k)) ->
  header_ok (persist s') -> persist_shape (persist s') ->
  length (runtime s') = 10%nat /\ Forall rt_ok (runtime s') -> stat_ok (status s') ->
  (forall j, 0 <= j < 10 -> j <> i -> slot_of s' j = slot_of s j /\ inst_of s' j = inst_of s j /\
     zget 0 (dsl_len (persist s')) j = zget 0 (dsl_len (persist s)) j) ->
  slot_ok (slot_of s' i) ->
  (live s' i = true -> 0 < zget 0 (dsl_len (persist s')) i < IL_DSL_MAX) ->
  (i < k' -> live s' i = true -> inst_wf false (inst_of s' i)) ->
  v = (if (i <? k') && live s' i then Some (outputs (inst_of s' i)) else None) ->
  hal_inv (upd (view_of k s) i v) (ensure_initialised (hal s')) -> il_inv k' s'.
Proof.
  intros [H1 H2 H3 H4 H5 H6 H7 H8] Hi Hk H1' H2' H3' H4' Hj Hs Ht Hw -> Hh.
  assert (Hlive : forall j, 0 <= j < 10 -> j <> i -> live s' j = live s j).
  { intros j Hr Hne. unfold live, armed. by destruct (Hj j Hr Hne) as (-> & _). }
  split; try done.
  - intros j Hr. destruct (decide (j = i)) as [-> |Hne]; [done|]. destruct (Hj j Hr Hne) as (-> & _). by apply H5.
  - intros j Hr. destruct (decide (j = i)) as [-> |Hne]; [done|]. rewrite Hlive by done.
    destruct (Hj j Hr Hne) as (_ & _ & ->). by apply H6.
  - intros j Hjk Hl. pose proof (live_range s' j (proj1 H2') Hl) as Hr.
    destruct (decide (j = i)) as [-> |Hne]; [apply Hw; [lia|done]|]. rewrite Hlive in Hl by done.
    destruct (Hj j Hr Hne) as (_ & -> & _). apply H7; [|done].
    pose proof (Hk j Hne). destruct (Z.ltb_spec j k'), (Z.ltb_spec j k); try done; lia.
  - eapply hal_inv_ext; [|exact Hh]. intros t. destruct (decide (t = i)) as [-> |Hne]; [by rewrite upd_eq|].
    rewrite upd_ne by done. unfold view_of. rewrite Hk by done. destruct (t <? k); cbn [andb]; [|done].
    destruct (decide (0 <= t < 10)) as [Hr|Hn].
    + rewrite Hlive by done. by destruct (Hj t Hr Hne) as (_ & -> & _).
    + assert (E : forall s0, persist_shape (persist s0) -> live s0 t = false).
      { intros s0 Hs0. apply not_true_is_false. intros Hl. by apply (live_range s0 t (proj1 Hs0)) in Hl. }
      by rewrite !E.
Qed.

(** *** Sequencing operations that return *)
Lemma returns_bind {A B} (P : il_state -> Prop) (m : il A) (f : A -> il B) Q R :
  returns P m Q -> (forall a, returns (Q a) (f a) R) -> returns P (ibind m f) R.
Proof.
  intros Hm Hf s Hs. destruct (Hm s Hs) as (a & s' & E & HQ). unfold ibind. rewrite E. by apply Hf.
Qed.
Lemma returns_mod (P : il_state -> Prop) f (Q : unit -> il_state -> Prop) :
  (forall s, P s -> Q tt (f s)) -> returns P (imod f) Q.
Proof. intros Hf s Hs. exists tt, (f s). split; [done|]. by apply Hf. Qed.
Lemma returns_for {A} (P : il_state -> Prop) (l : list A) f :
  (forall x, x ∈ l -> returns P (f x) (fun _ => P)) -> returns P (ifor l f) (fun _ => P).
Proof.
  induction l as [|x l IH]; intros Hf; cbn [ifor].
  - intros s Hs. by exists tt, s.
  - eapply returns_bind; [apply Hf, list_elem_of_here|]. intros []. apply IH.
    intros y Hy. apply Hf. by apply list_elem_of_further.
Qed.
Lemma returns_weaken {A} (P P' : il_state -> Prop) (m : il A) (Q Q' : A -> il_state -> Prop) :
  returns P m Q -> (forall s, P' s -> P s) -> (forall a s, Q a s -> Q' a s) -> returns P' m Q'.
Proof. intros Hm HP HQ s Hs. destruct (Hm s (HP s Hs)) as (a & s' & E & Hq). eauto. Qed.

Section Ops.
Context (sp pc : Z) (Hplat : IlPlatOk).
#[local] Abbreviation good := (il_inv 10).

Lemma verify_returns k : returns (il_inv k) (verify_persist_or_panic sp pc) (fun _ => il_inv k).
Proof.
  intros s Hs. exists tt, s. split; [|done]. destruct (iv_header _ _ Hs) as (E1 & E2 & E3).
  unfold verify_persist_or_panic. by rewrite E1, E2, E3, !Z.eqb_refl.
Qed.

(** The parts of the state a slot-local step writes. *)
Lemma rt_ok_set s i r : length (runtime s) = 10%nat /\ Forall rt_ok (runtime s) -> rt_ok r ->
  length (runtime (set_rt i r s)) = 10%nat /\ Forall rt_ok (runtime (set_rt i r s)).
Proof.
  intros [Hl Hf] Hr. unfold set_rt, field_map. cbn [runtime]. split; [by rewrite zlen_zset|].
  unfold zset. destruct (i <? 0); [done|]. by apply Forall_insert.
Qed.
Lemma rt0_ok : rt_ok rt0.
Proof. done. Qed.
Lemma rt_of_ok s i : Forall rt_ok (runtime s) -> rt_ok (rt_of s i).
Proof.
  intros Hf. unfold rt_of, zget. destruct (i <? 0); [done|]. rewrite nth_lookup.
  destruct (runtime s !! Z.to_nat i) eqn:E; [|done]. by eapply Forall_lookup_1.
Qed.

Lemma text_set (l : list (list Z)) i t : Forall (fun t => length t = 128%nat) l -> length t = 128%nat ->
  Forall (fun t => length t = 128%nat) (zset l i t).
Proof. intros Hf Ht. unfold zset. destruct (i <? 0); [done|]. by apply Forall_insert. Qed.

Lemma slot_ok_empty : slot_ok (mk_slot INTERLOCK_SLOT_EMPTY INTERLOCK_ID_NONE 0 0).
Proof. by vm_compute. Qed.
Lemma slot_ok_armed id : id = INTERLOCK_ID_NOOP \/ id = INTERLOCK_ID_DSL ->
  slot_ok (mk_slot INTERLOCK_SLOT_ARMED id 0 0).
Proof. by intros [-> | ->]; vm_compute. Qed.

Lemma release_ensure slot h :
  hal_pin_release_slot slot (ensure_initialised h) = hal_pin_release_slot slot h.
Proof.
  unfold hal_pin_release_slot. by rewrite (ensure_idem (ensure_initialised h)) by apply ensure_initialised_done.
Qed.

Lemma empty_slot_eq slot s : empty_slot slot s =
  mk_il (let p := persist s in mk_persist (magic p) (version p) (self_size p)
           (zset (slots p) slot (mk_slot INTERLOCK_SLOT_EMPTY INTERLOCK_ID_NONE 0 0)) (crash p)
           (zset (insts p) slot inst0) (zset (dsl_len p) slot 0) (dsl_text p) (cfg_fingerprint p))
    (zset (runtime s) slot rt0) (active_slot s) (clear_request s) (grace_until s) (status s) (repush_req s)
    (hal_pin_release_slot slot (hal s)) (armfail s) (ilcf_rc s).
Proof. reflexivity. Qed.

Lemma empty_slot_inv slot s : good s -> 0 <= slot < 10 -> good (empty_slot slot s).
Proof.
  intros Hs Hr. pose proof Hs as [H1 H2 H3 H4 H5 H6 H7 H8]. pose proof H2 as (L1 & L2 & L3 & L4 & L5).
  rewrite empty_slot_eq. cbv zeta. eapply (il_inv_change 10 10 s _ slot None); try done.
  - il_reduce. by rewrite !zlen_zset.
  - by apply rt_ok_set.
  - intros j Hj Hne. il_reduce. by il_get.
  - il_reduce. il_get. apply slot_ok_empty.
  - il_reduce. by il_get.
  - il_reduce. by il_get.
  - il_reduce. il_get. by rewrite andb_false_r.
  - il_reduce. rewrite <- release_ensure. assert (H16 : 0 <= slot < 16) by lia.
    pose proof (hal_inv_release _ slot _ H8 H16) as HI. rewrite ensure_idem; [done|].
    apply (hi_good _ _ HI).
Qed.

(** The active slot is bookkeeping for the crash record only. *)
Lemma il_inv_active k a s : il_inv k s -> il_inv k (s <| active_slot := a |>).
Proof. intros [H1 H2 H3 H4 H5 H6 H7 H8]. by split. Qed.
Lemma callback_noop (f : interlock_def_t -> Z -> il_state -> il_state) (b : bool) slot id s :
  (forall slot s, f (mk_def (lit "noop") noop_init noop_tick noop_terminate) slot s = s) ->
  (b = true -> id = INTERLOCK_ID_NOOP) ->
  exists a, (if b then with_active slot (f (def_at (id - 1)) slot) s else s) = s <| active_slot := a |>.
Proof.
  intros Hf Hid. destruct b.
  - rewrite (Hid eq_refl). exists INTERLOCK_CRASHED_SLOT_NONE. unfold with_active.
    change (def_at (INTERLOCK_ID_NOOP - 1)) with (mk_def (lit "noop") noop_init noop_tick noop_terminate).
    by rewrite Hf.
  - exists (active_slot s). by destruct s.
Qed.

Lemma disarm_returns slot : 0 <= slot ->
  returns good (interlock_disarm_slot sp pc slot) (fun r s' => good s' /\
    (slot < 10 -> r = SHELL_STATUS_OK /\ slot_of s' slot = mk_slot INTERLOCK_SLOT_EMPTY INTERLOCK_ID_NONE 0 0)).
Proof.
  intros Hr. eapply returns_bind; [apply verify_returns|]. intros [] s Hs. unfold INTERLOCK_MAX_SLOTS.
  destruct (Z.leb_spec 10 slot) as [Hge|Hlt]; [exists SHELL_STATUS_BAD_ARGS, s; split; [done|split; [done|lia]]|].
  set (b := _ && _ && _ && _). destruct (callback_noop def_terminate b slot (sl_id (slot_of s slot)) s) as [a Ea]; [done|..].
  { intros Hb. subst b. bools. destruct (iv_slots _ _ Hs slot ltac:(lia)) as (_ & Hid & _).
    unfold INTERLOCK_ID_NONE, INTERLOCK_ID_DSL, INTERLOCK_ID_NOOP in *. lia. }
  rewrite Ea. eexists _, (empty_slot slot (s <| active_slot := a |>)). split; [reflexivity|].
  split; [apply empty_slot_inv; [by apply il_inv_active|lia]|]. intros _. split; [done|].
  rewrite empty_slot_eq. unfold field_map. il_reduce. destruct (iv_shape _ _ Hs) as (L1 & _). by il_get.
Qed.

Lemma armed_slot_eq slot text i s : armed_slot slot text i s =
  mk_il (let p := persist s in mk_persist (magic p) (version p) (self_size p)
           (zset (slots p) slot (mk_slot INTERLOCK_SLOT_ARMED INTERLOCK_ID_DSL 0 0)) (crash p)
           (zset (insts p) slot i) (zset (dsl_len p) slot (zlen text))
           (zset (dsl_text p) slot (text ++ [0] ++ drop (S (length text)) (zget [] (dsl_text p) slot))) (cfg_fingerprint p))
    (zset (runtime s) slot rt0) (active_slot s) (clear_request s) (grace_until s) (status s) (repush_req s)
    (hal s) (armfail s) (ilcf_rc s).
Proof. reflexivity. Qed.

Lemma text_of_len s i : persist_shape (persist s) -> 0 <= i < 10 -> length (zget [] (dsl_text (persist s)) i) = 128%nat.
Proof.
  intros (_ & _ & _ & L4 & L5) Hi. destruct (lookup_lt_is_Some_2 (dsl_text (persist s)) (Z.to_nat i) ltac:(lia)) as [t Ht].
  rewrite (zget_lookup [] t) by (done || lia). by eapply Forall_lookup_1 in L5.
Qed.

(** A slot that is not live holds no pin. *)
Lemma view_dead k s slot : armed s slot = false -> view_of k s slot = None.
Proof. intros Ha. unfold view_of, live. rewrite Ha. by rewrite andb_false_r. Qed.

Lemma claim_slot_inv k i slot s :
  il_inv k s -> 0 <= slot < 10 -> view_of k s slot = None -> inst_wf false i ->
  let r := claim_inst_pins slot i (hal s) in
  (r.1 = HAL_PIN_CLAIM_OK /\ hal_inv (upd (view_of k s) slot (Some (outputs i))) (ensure_initialised r.2)) \/
  (r.1 <> HAL_PIN_CLAIM_OK /\ hal_inv (view_of k s) (ensure_initialised r.2)).
Proof.
  intros Hs Hr Hv [_ [_ Hin] _ [_ Hout] _]. cbv zeta.
  destruct (claim_inst_pins_ensure slot i (hal s)) as [-> ->].
  apply claim_inst_pins_inv; try done. all: try lia. apply Hs.
Qed.

Lemma armed_slot_inv slot text i s h :
  good s -> 0 <= slot < 10 -> inst_wf false i -> 0 < zlen text < IL_DSL_MAX ->
  hal_inv (upd (view_of 10 s) slot (Some (outputs i))) (ensure_initialised h) ->
  good (armed_slot slot text i (s <| hal := h |>)).
Proof.
  intros Hs Hr Hi Ht Hh. pose proof Hs as [H1 H2 H3 H4 H5 H6 H7 H8]. pose proof H2 as (L1 & L2 & L3 & L4 & L5).
  pose proof (text_of_len s slot H2 Hr) as Hlt. rewrite armed_slot_eq. unfold field_map. cbv zeta.
  eapply (il_inv_change 10 10 s _ slot (Some (outputs i))); try done.
  - il_reduce. rewrite !zlen_zset. split; [done|]. split; [done|]. split; [done|]. split; [done|].
    apply text_set; [done|]. rewrite !length_app, length_drop, Hlt. unfold zlen, IL_DSL_MAX in Ht. simpl. lia.
  - by apply rt_ok_set.
  - intros j Hj Hne. il_reduce. by il_get.
  - il_reduce. il_get. apply slot_ok_armed. by right.
  - intros _. il_reduce. by il_get.
  - intros _ _. il_reduce. by il_get.
  - il_reduce. il_get. destruct (Z.ltb_spec slot 10); [done|lia].
Qed.

Lemma set_hal_inv k s h : il_inv k s -> hal_inv (view_of k s) (ensure_initialised h) -> il_inv k (s <| hal := h |>).
Proof. intros [H1 H2 H3 H4 H5 H6 H7 H8] Hh. by split. Qed.

Lemma set_dsl_returns slot text : 0 <= slot ->
  returns good (interlock_set_slot_dsl sp pc slot text) (fun r s' => good s').
Proof.
  intros Hr. eapply returns_bind; [apply verify_returns|]. intros [] s Hs. cbv zeta.
  unfold INTERLOCK_MAX_SLOTS. destruct (Z.leb_spec 10 slot) as [Hge|Hlt]; [by eexists _, s|].
  destruct ((zlen text =? 0) || (IL_DSL_MAX <=? zlen text)) eqn:Et; [by eexists _, s|].
  destruct (armed s slot) eqn:Ea; [by eexists _, s|].
  destruct (il_parse_impl_spec false text) as (pst & off & i & Ep & _ & Hok). unfold il_parse. rewrite Ep.
  destruct (Z.eqb_spec pst IL_PARSE_OK) as [E|E]; cbn [negb]; [|by eexists _, s].
  destruct (Hok E) as (Hwf & _ & _).
  pose proof (claim_slot_inv 10 i slot s Hs ltac:(lia) (view_dead 10 s slot Ea) Hwf) as Hc. cbv zeta in Hc.
  destruct (claim_inst_pins slot i (hal s)) as [cs h]. cbn [fst snd] in Hc.
  destruct Hc as [[-> Hh]|[Hne Hh]]; cbn [Z.eqb negb HAL_PIN_CLAIM_OK].
  - eexists _, (armed_slot slot text i (s <| hal := h |>)). split; [reflexivity|]. apply armed_slot_inv; try done.
    apply orb_false_iff in Et as [E1 E2]. pose proof (zlen_nonneg text). lia.
  - destruct (Z.eqb_spec cs HAL_PIN_CLAIM_OK); [done|]. cbn [negb]. eexists _, _. split; [reflexivity|].
    by apply set_hal_inv.
Qed.

Lemma arm_compiled_returns slot id : 0 <= slot ->
  0 <= id -> returns good (interlock_arm_slot_compiled sp pc slot id) (fun r s' => good s').
Proof.
  intros Hr Hid. eapply returns_bind; [apply verify_returns|]. intros [] s Hs. unfold INTERLOCK_MAX_SLOTS.
  destruct (Z.leb_spec 10 slot) as [Hge|Hlt]; [by eexists _, s|].
  destruct (Z.eqb_spec id INTERLOCK_ID_NONE); [by eexists _, s|].
  destruct (Z.eqb_spec id INTERLOCK_ID_DSL); [by eexists _, s|].
  destruct (Z.ltb_spec g_interlock_count id); [by eexists _, s|]. destruct (armed s slot) eqn:Ea; [by eexists _, s|].
  assert (id = INTERLOCK_ID_NOOP) as ->.
  { change g_interlock_count with 1 in *. unfold INTERLOCK_ID_NONE, INTERLOCK_ID_NOOP in *. lia. }
  eexists _, _. split; [reflexivity|]. unfold with_active.
  change (def_init (def_at (INTERLOCK_ID_NOOP - 1))) with noop_init. unfold noop_init.
  do 2 apply il_inv_active. pose proof Hs as [H1 H2 H3 H4 H5 H6 H7 H8]. pose proof H2 as (L1 & L2 & L3 & L4 & L5).
  match goal with |- good ?x => assert (E : x =
    mk_il (let p := persist s in mk_persist (magic p) (version p) (self_size p)
           (zset (slots p) slot (mk_slot INTERLOCK_SLOT_ARMED INTERLOCK_ID_NOOP 0 0)) (crash p)
           (zset (insts p) slot inst0) (dsl_len p) (dsl_text p) (cfg_fingerprint p))
    (zset (runtime s) slot rt0) (active_slot s) (clear_request s) (grace_until s) (status s) (repush_req s)
    (hal s) (armfail s) (ilcf_rc s)) by reflexivity; rewrite E; clear E end.
  cbv zeta. eapply (il_inv_change 10 10 s _ slot None); try done.
  - il_reduce. by rewrite !zlen_zset.
  - by apply rt_ok_set.
  - intros j Hj Hne. il_reduce. by il_get.
  - il_reduce. il_get. apply slot_ok_armed. by left.
  - il_reduce. by il_get.
  - il_reduce. by il_get.
  - il_reduce. il_get. by rewrite andb_false_r.
  - eapply hal_inv_ext; [|exact H8]. intros t. destruct (decide (t = slot)) as [-> |Hne].
    + by rewrite upd_eq, view_dead.
    + by rewrite upd_ne.
Qed.

(** *** Warm restore, slot by slot *)
Lemma view_unsettled k s slot : k <= slot -> view_of k s slot = None.
Proof. intros Hk. unfold view_of. by destruct (Z.ltb_spec slot k); [lia|]. Qed.

Lemma il_inv_skip k s : il_inv k s -> 0 <= k < 10 -> live s k = false -> il_inv (k + 1) s.
Proof.
  intros Hs Hk Hl. pose proof Hs as [H1 H2 H3 H4 H5 H6 H7 H8]. eapply (il_inv_change k (k + 1) s s k None); try done.
  - intros t Ht. destruct (Z.ltb_spec t (k + 1)), (Z.ltb_spec t k); done || lia.
  - by apply H5.
  - by apply H6.
  - by rewrite Hl.
  - by rewrite Hl, andb_false_r.
  - eapply hal_inv_ext; [|exact H8]. intros t. destruct (decide (t = k)) as [-> |Hne].
    + rewrite upd_eq. apply view_unsettled. lia.
    + by rewrite upd_ne.
Qed.

Lemma poison_inv k s : il_inv k s -> 0 <= k < 10 -> il_inv (k + 1) (poison k s).
Proof.
  intros Hs Hk. pose proof Hs as [H1 H2 H3 H4 H5 H6 H7 H8]. pose proof H2 as (L1 & L2 & L3 & L4 & L5).
  assert (E : poison k s =
    mk_il (let p := persist s in mk_persist (magic p) (version p) (self_size p)
           (zset (slots p) k (let sl := slot_of s k in mk_slot INTERLOCK_SLOT_POISONED (sl_id sl) (boot_counter sl) (latched sl)))
           (crash p) (insts p) (dsl_len p) (dsl_text p) (cfg_fingerprint p))
    (runtime s) (active_slot s) (clear_request s) (grace_until s) (status s) (repush_req s)
    (hal s) (armfail s) (ilcf_rc s)) by reflexivity.
  rewrite E. clear E. cbv zeta. eapply (il_inv_change k (k + 1) s _ k None); try done.
  - intros t Ht. destruct (Z.ltb_spec t (k + 1)), (Z.ltb_spec t k); done || lia.
  - il_reduce. by rewrite !zlen_zset.
  - intros j Hj Hne. il_reduce. by il_get.
  - il_reduce. il_get. destruct (H5 k Hk) as (_ & Hid & _ & Hb & Hl). unfold slot_ok.
    cbn [sl_state sl_id boot_counter latched]. split; [by vm_compute|]. done.
  - il_reduce. by il_get.
  - il_reduce. by il_get.
  - il_reduce. il_get. by rewrite andb_false_r.
  - eapply hal_inv_ext; [|exact H8]. intros t. destruct (decide (t = k)) as [-> |Hne].
    + rewrite upd_eq. apply view_unsettled. lia.
    + by rewrite upd_ne.
Qed.

Lemma set_rt_inv k i r s : il_inv k s -> rt_ok r -> il_inv k (set_rt i r s).
Proof. intros [H1 H2 H3 H4 H5 H6 H7 H8] Hr. split; try done. by apply rt_ok_set. Qed.

Lemma inst_wf_tf i v : inst_wf false i -> inst_wf false (i <| tf_state := v |>).
Proof. by intros [H1 H2 H3 H4 H5]. Qed.

Lemma restored_inv k i h s : il_inv k s -> 0 <= k < 10 -> live s k = true -> inst_wf false i ->
  hal_inv (upd (view_of k s) k (Some (outputs i))) (ensure_initialised h) ->
  il_inv (k + 1) (clear_slot_runtime k (set_inst k (fun _ => i) (s <| hal := h |>))).
Proof.
  intros Hs Hk Hl Hi Hh. pose proof Hs as [H1 H2 H3 H4 H5 H6 H7 H8]. pose proof H2 as (L1 & L2 & L3 & L4 & L5).
  apply set_rt_inv; [|done].
  assert (E : set_inst k (fun _ => i) (s <| hal := h |>) =
    mk_il (let p := persist s in mk_persist (magic p) (version p) (self_size p) (slots p)
           (crash p) (zset (insts p) k i) (dsl_len p) (dsl_text p) (cfg_fingerprint p))
    (runtime s) (active_slot s) (clear_request s) (grace_until s) (status s) (repush_req s)
    h (armfail s) (ilcf_rc s)) by reflexivity.
  rewrite E. clear E. cbv zeta. eapply (il_inv_change k (k + 1) s _ k (Some (outputs i))); try done.
  - intros t Ht. destruct (Z.ltb_spec t (k + 1)), (Z.ltb_spec t k); done || lia.
  - il_reduce. by rewrite !zlen_zset.
  - intros j Hj Hne. il_reduce. by il_get.
  - by apply H5.
  - by apply H6.
  - intros _ _. il_reduce. by il_get.
  - revert Hl. il_reduce. intros ->. il_get. destruct (Z.ltb_spec k (k + 1)); [done|lia].
Qed.

Lemma restore_slot_returns k : 0 <= k < 10 -> returns (il_inv k) (restore_slot k) (fun _ => il_inv (k + 1)).
Proof.
  intros Hk s Hs. unfold restore_slot. cbv zeta.
  destruct (sl_state (slot_of s k) =? INTERLOCK_SLOT_ARMED) eqn:Ea; cbn [negb].
  2: { eexists _, s. split; [done|]. apply il_inv_skip; [done..|]. unfold live, armed. by rewrite Ea. }
  destruct (sl_id (slot_of s k) =? INTERLOCK_ID_DSL) eqn:Ed; cbn [negb].
  2: { destruct (callback_noop def_init (compiled (sl_id (slot_of s k))) k (sl_id (slot_of s k)) s) as [a Eq]; [done|..].
    { unfold compiled. intros Hb. bools. change g_interlock_count with 1 in *.
      destruct (iv_slots _ _ Hs k Hk) as (_ & Hid & _). unfold INTERLOCK_ID_NONE, INTERLOCK_ID_NOOP in *. lia. }
    rewrite Eq. eexists _, _. split; [reflexivity|]. apply set_rt_inv; [|done]. apply il_inv_active, il_inv_skip; [done..|].
    unfold live. by rewrite Ed, andb_false_r. }
  assert (Hl : live s k = true) by (unfold live, armed; by rewrite Ea, Ed).
  destruct (_ || _); [eexists _, _; split; [reflexivity|by apply poison_inv]|].
  destruct (il_parse_impl_spec false (take (Z.to_nat (zget 0 (dsl_len (persist s)) k)) (zget [] (dsl_text (persist s)) k)))
    as (pst & off & i & Ep & _ & Hok). unfold il_parse. rewrite Ep.
  destruct (Z.eqb_spec pst IL_PARSE_OK) as [E|E]; cbn [negb]; [|eexists _, _; split; [reflexivity|by apply poison_inv]].
  destruct (Hok E) as (Hwf & _ & _).
  pose proof (claim_slot_inv k i k s Hs Hk (view_unsettled k s k ltac:(lia)) Hwf) as Hc. cbv zeta in Hc.
  destruct (claim_inst_pins k i (hal s)) as [cs h]. cbn [fst snd] in Hc.
  destruct Hc as [[-> Hh]|[Hne Hh]].
  - eexists _, _. split; [reflexivity|]. apply restored_inv; try done. by apply inst_wf_tf.
  - destruct (Z.eqb_spec cs HAL_PIN_CLAIM_OK); [done|]. cbn [negb]. eexists _, _. split; [reflexivity|].
    apply poison_inv; [by apply set_hal_inv|done].
Qed.

Lemma warm_restore_returns : returns (il_inv 0) (interlock_warm_restore sp pc) (fun _ => good).
Proof.
  eapply returns_bind; [apply verify_returns|]. intros []. unfold slot_ids. cbn [ifor].
  do 10 (eapply returns_bind; [apply restore_slot_returns; lia|intros []]). intros s Hs. by exists tt, s.
Qed.

(** *** The tick: evaluation *)
Lemma debounce_rt_ok d k v r : rt_ok r -> rt_ok (debounce d k v r).2.
Proof.
  intros (H1 & H2 & H3). unfold debounce, field_map. cbn [shift_reg debounced last_pass snd].
  repeat case_match; unfold rt_ok; cbn [shift_reg debounced last_pass]; by rewrite ?zlen_zset.
Qed.
Lemma eval_inputs_rt_ok ev h l : forall k r, rt_ok r -> rt_ok (eval_inputs ev h k l r).2.
Proof.
  induction l as [|x l IH]; intros k r Hr; cbn [eval_inputs]; [done|].
  assert (H1 : rt_ok (eval_input (ev k) h k x r).2).
  { unfold eval_input. destruct (_ =? IL_PIN_MODE_ADC); [done|]. destruct (_ =? IL_PIN_MODE_VIRTUAL); [done|].
    cbv zeta. destruct (2 <=? _); [by apply debounce_rt_ok|done]. }
  destruct (eval_input _ _ _ _ _) as [v r1]. cbn [snd] in H1. specialize (IH (k + 1) r1 H1).
  by destruct (eval_inputs _ _ _ _ _) as [vs r2].
Qed.
Lemma eval_watches_len vals ins ws : forall last, length (eval_watches vals ins last ws) = length ws.
Proof. induction ws as [|w ws IH]; intros last; cbn [eval_watches length]; [done|]. by rewrite IH. Qed.

Lemma set_tf_inv k i v s : il_inv k s -> 0 <= i < 10 -> il_inv k (set_inst i (fun x => x <| tf_state := v |>) s).
Proof.
  intros Hs Hi. pose proof Hs as [H1 H2 H3 H4 H5 H6 H7 H8]. pose proof H2 as (L1 & L2 & L3 & L4 & L5).
  eapply (il_inv_same k s); try done.
  - destruct H2 as (? & ? & ? & ? & ?). unfold persist_shape, set_inst, field_map. cbn [persist slots insts dsl_len dsl_text].
    by rewrite zlen_zset.
  - intros j Hj. split; [done|]. split; [by apply H5|]. rewrite inst_of_set by (done || lia).
    destruct (Z.eqb_spec j i) as [-> |]; [|done]. split; [done|]. split; [apply inst_wf_tf|done].
Qed.

Lemma set_status_inv k f s : il_inv k s -> stat_ok (f (status s)) -> il_inv k (s <| status ::= f |>).
Proof. intros [H1 H2 H3 H4 H5 H6 H7 H8] Hf. by split. Qed.

Lemma eval_frame_tf i v s : length (insts (persist s)) = 10%nat -> 0 <= i < 10 ->
  forall j, let s' := set_inst i (fun x => x <| tf_state := v |>) s in
  inputs (inst_of s' j) = inputs (inst_of s j) /\ watches (inst_of s' j) = watches (inst_of s j) /\
  outputs (inst_of s' j) = outputs (inst_of s j).
Proof.
  intros Hl Hi j s'. destruct (decide (0 <= j)) as [Hj|Hj].
  - subst s'. rewrite inst_of_set by done. by destruct (Z.eqb_spec j i) as [-> |].
  - unfold inst_of. rewrite !zget_out by lia. done.
Qed.

Lemma tick_eval_spec ev i s :
  good s -> 0 <= i < 10 ->
  exists s', tick_eval ev i s = Done tt s' /\ good s' /\ eval_frame s s' /\
    (forall j, 0 <= j -> j <> i -> inst_of s' j = inst_of s j /\ rt_of s' j = rt_of s j) /\
    (live s i = true -> tf_state (inst_of s' i) = IL_TF_TRUE /\ slot_pass ev s i \/
                        tf_state (inst_of s' i) = IL_TF_FALSE /\ ~ slot_pass ev s i).
Proof.
  intros Hs Hi. pose proof Hs as [H1 H2 H3 H4 H5 H6 H7 H8]. pose proof H2 as (L1 & L2 & L3 & L4 & L5).
  unfold tick_eval. cbv zeta.
  destruct (sl_state (slot_of s i) =? INTERLOCK_SLOT_ARMED) eqn:Ea; cbn [negb].
  2: { exists s. split; [done|]. split; [done|]. split; [done|]. split; [done|].
       unfold live, armed. by rewrite Ea. }
  destruct (sl_id (slot_of s i) =? INTERLOCK_ID_DSL) eqn:Ed.
  2: { destruct (compiled (sl_id (slot_of s i))) eqn:Ec.
       2: { exists s. split; [done|]. split; [done|]. split; [done|]. split; [done|]. unfold live. by rewrite Ed, andb_false_r. }
       assert (E1 : sl_id (slot_of s i) = INTERLOCK_ID_NOOP).
       { unfold compiled in Ec. bools. change g_interlock_count with 1 in *.
         destruct (H5 i Hi) as (_ & Hid & _). unfold INTERLOCK_ID_NONE, INTERLOCK_ID_NOOP in *. lia. }
       rewrite E1. change (def_tick (def_at (INTERLOCK_ID_NOOP - 1))) with noop_tick.
       unfold noop_tick, interlock_set_slot_tf, INTERLOCK_MAX_SLOTS. destruct (Z.leb_spec 10 i); [lia|].
       eexists. split; [reflexivity|]. split; [apply set_tf_inv; [by apply il_inv_active|done]|].
       split; [split; [done|]; split; [done|]; split; [done|]; split; [done|];
         match goal with |- context [set_inst i _ ?s1] => exact (eval_frame_tf i (u8 IL_TF_TRUE) s1 L2 Hi) end|].
       split; [|unfold live; by rewrite Ed, andb_false_r].
       intros j Hj Hne. split; [|done].
       match goal with |- context [set_inst i _ ?s1] => rewrite (inst_of_set s1) by (done || lia) end.
       by destruct (Z.eqb_spec j i). }
  assert (Hl : live s i = true) by (unfold live, armed; by rewrite Ea, Ed).
  pose proof (H7 i Hi Hl) as [_ [W1 _] [W2 W3] _ _].
  unfold ibind, eval_slot. cbv zeta.
  change (inst_of (s <| active_slot := i |>) i) with (inst_of s i).
  change (rt_of (s <| active_slot := i |>) i) with (rt_of s i).
  change (hal (s <| active_slot := i |>)) with (hal s). set (x := inst_of s i) in *.
  pose proof (eval_inputs_rt_ok (ev i) (hal s) (inputs x) 0 (rt_of s i) (rt_of_ok s i (proj2 H3))) as Hrt.
  assert (Hwp : slot_wpass ev s i = let '(vs, r) := eval_inputs (ev i) (hal s) 0 (inputs x) (rt_of s i) in
    eval_watches (vs ++ replicate (7 - length vs) 0) (inputs x) (last_pass r) (watches x)) by reflexivity.
  destruct (eval_inputs (ev i) (hal s) 0 (inputs x) (rt_of s i)) as [vs r]. cbn [snd] in Hrt.
  rewrite <- Hwp. assert (Hgr : Forall (fun w => 0 <= group w <= 254) (watches x)).
  { eapply Forall_impl; [exact W3|]. intros w (_ & _ & _ & _ & Hg). unfold IL_MAX_WATCHES in Hg. lia. }
  destruct (il_dnf_total x (slot_wpass ev s i) Hgr) as (b & -> & Hb).
  eexists. split; [reflexivity|].
  assert (Hlw : length (slot_wpass ev s i) = length (watches x)) by (rewrite Hwp; apply eval_watches_len).
  split; [|split; [|split]].
  - apply set_status_inv.
    + apply set_tf_inv; [|done]. apply set_rt_inv; [by apply il_inv_active|].
      destruct Hrt as (R1 & R2 & R3). split; [done|]. split; [done|]. unfold field_map. cbn [last_pass].
      rewrite length_app, length_map, length_drop, Hlw, R3. unfold zlen, IL_MAX_WATCHES in W2. lia.
    + unfold stat_ok, field_map. cbn [sb_slots input_vals]. rewrite zlen_zset. exact H4.
  - split; [done|]. split; [done|]. split; [done|]. split; [done|]. intros j.
    match goal with |- context [set_inst i (fun x => x <| tf_state := ?v |>) ?s1] =>
      exact (eval_frame_tf i v s1 L2 Hi j) end.
  - intros j Hj Hne. split.
    + match goal with |- inst_of ?a j = _ => change (inst_of a j) with
        (inst_of (set_inst i (fun x => x <| tf_state := if b then IL_TF_TRUE else IL_TF_FALSE |>) s) j) end.
      rewrite inst_of_set by (done || lia). by destruct (Z.eqb_spec j i).
    + unfold rt_of. match goal with |- zget rt0 (runtime ?a) j = _ => change (runtime a) with
        (zset (runtime s) i (r <| last_pass ::= fun l =>
           map (fun b : bool => if b then 1 else 0) (slot_wpass ev s i) ++ drop (length (slot_wpass ev s i)) l |>)) end.
      by apply zget_zset_ne; [|lia].
  - intros _. match goal with |- context [inst_of ?a i] => change (inst_of a i) with
        (inst_of (set_inst i (fun x => x <| tf_state := if b then IL_TF_TRUE else IL_TF_FALSE |>) s) i) end.
    rewrite inst_of_set by (done || lia). rewrite Z.eqb_refl. unfold slot_pass. fold x.
    unfold field_map. cbn [tf_state]. destruct b; [left; split; [done|by apply Hb]|right; split; [done|]].
    intros Hp. by apply Hb in Hp.
Qed.

Lemma live_frame s s' i : slots (persist s') = slots (persist s) -> live s' i = live s i.
Proof. intros E. unfold live, armed, slot_of. by rewrite E. Qed.

Lemma slot_pass_same ev s s' i : hal s' = hal s -> inst_of s' i = inst_of s i -> rt_of s' i = rt_of s i ->
  slot_pass ev s' i <-> slot_pass ev s i.
Proof. intros E1 E2 E3. unfold slot_pass, slot_wpass. by rewrite E1, E2, E3. Qed.

Lemma tick_eval_all ev l : forall s,
  good s -> NoDup l -> Forall (fun i => 0 <= i < 10) l ->
  exists s', ifor l (tick_eval ev) s = Done tt s' /\ good s' /\ eval_frame s s' /\
    (forall j, 0 <= j -> j ∉ l -> inst_of s' j = inst_of s j /\ rt_of s' j = rt_of s j) /\
    (forall i, i ∈ l -> live s i = true ->
       tf_state (inst_of s' i) = IL_TF_TRUE /\ slot_pass ev s i \/
       tf_state (inst_of s' i) = IL_TF_FALSE /\ ~ slot_pass ev s i).
Proof.
  induction l as [|i l IH]; intros s Hs Hnd Hf; cbn [ifor].
  { exists s. split; [done|]. split; [done|]. split; [done|]. split; [done|]. by intros i ?%not_elem_of_nil. }
  apply NoDup_cons in Hnd as [Hi Hnd]. apply Forall_cons in Hf as [Hr Hf].
  destruct (tick_eval_spec ev i s Hs Hr) as (s1 & E1 & Hs1 & Hfr1 & Hsame1 & Hev1).
  destruct (IH s1 Hs1 Hnd Hf) as (s2 & E2 & Hs2 & Hfr2 & Hsame2 & Hev2). exists s2.
  pose proof Hfr1 as (F1 & F2 & F3 & F4 & F5). pose proof Hfr2 as (G1 & G2 & G3 & G4 & G5).
  split; [unfold ibind; by rewrite E1|]. split; [done|]. split; [|split].
  - split; [congruence|]. split; [congruence|]. split; [congruence|]. split; [congruence|].
    intros j. destruct (F5 j) as (-> & -> & ->) || (destruct (F5 j) as (<- & <- & <-)). apply G5.
  - intros j Hj [Hne Hn]%not_elem_of_cons. destruct (Hsame1 j Hj Hne) as [<- <-]. by apply Hsame2.
  - intros k [-> |Hk]%elem_of_cons Hl.
    + destruct (Hsame2 i ltac:(lia) Hi) as [-> _]. by apply Hev1.
    + assert (Hne : k <> i) by congruence. rewrite Forall_forall in Hf. pose proof (Hf k Hk).
      destruct (Hsame1 k ltac:(lia) Hne) as [E3 E4].
      rewrite <- (slot_pass_same ev s s1 k F2 E3 E4). apply Hev2; [done|]. by rewrite (live_frame s s1 k F1).
Qed.

(** *** The tick: clear, latch, veto *)
Lemma set_slots_eq f s : length (slots (persist s)) = 10%nat ->
  foldl (fun s i => set_slot i f s) s slot_ids = s <| persist ::= fun p => p <| slots ::= map f |> |>.
Proof.
  destruct s as [p rt a c g st rq h af rc], p as [m v sz sl cr ins dl dt fp]. cbn [persist slots]. intros Hl.
  do 10 (destruct sl as [|? sl]; [done|]). by destruct sl.
Qed.

Lemma zget_map {A B} (d : A) (d' : B) (f : A -> B) l i : 0 <= i < zlen l -> zget d' (map f l) i = f (zget d l i).
Proof.
  unfold zget, zlen. intros Hi. destruct (Z.ltb_spec i 0); [lia|].
  rewrite (nth_indep _ d' (f d)) by (rewrite length_map; lia). apply map_nth.
Qed.

Lemma set_slots_inv k f s :
  il_inv k s -> (forall sl, slot_ok sl -> slot_ok (f sl) /\ sl_state (f sl) = sl_state sl /\ sl_id (f sl) = sl_id sl) ->
  il_inv k (s <| persist ::= fun p => p <| slots ::= map f |> |>).
Proof.
  intros Hs Hf. pose proof Hs as [H1 H2 H3 H4 H5 H6 H7 H8]. pose proof H2 as (L1 & L2 & L3 & L4 & L5).
  eapply (il_inv_same k s); try done.
  - unfold persist_shape, field_map. cbn [persist slots insts dsl_len dsl_text]. by rewrite length_map.
  - intros j Hj. unfold live, armed, slot_of, field_map. cbn [persist slots insts dsl_len dsl_text].
    rewrite (zget_map slot0) by (unfold zlen; lia). fold (slot_of s j).
    destruct (Hf _ (H5 j Hj)) as (Hok & -> & ->). done.
Qed.

Lemma set_slot_inv k i f s :
  il_inv k s -> 0 <= i < 10 ->
  (forall sl, slot_ok sl -> slot_ok (f sl) /\ sl_state (f sl) = sl_state sl /\ sl_id (f sl) = sl_id sl) ->
  il_inv k (set_slot i f s).
Proof.
  intros Hs Hi Hf. pose proof Hs as [H1 H2 H3 H4 H5 H6 H7 H8]. pose proof H2 as (L1 & L2 & L3 & L4 & L5).
  eapply (il_inv_same k s); try done.
  - unfold persist_shape, set_slot, field_map. cbn [persist slots insts dsl_len dsl_text]. by rewrite zlen_zset.
  - intros j Hj. unfold live, armed. rewrite slot_of_set by (done || lia).
    destruct (Z.eqb_spec j i) as [-> |]; [|split; [done|split; [by apply H5|done]]].
    destruct (Hf _ (H5 i Hi)) as (Hok & -> & ->). done.
Qed.

Lemma latched_ok v sl : fits 8 v -> slot_ok sl ->
  slot_ok (sl <| latched := v |>) /\ sl_state (sl <| latched := v |>) = sl_state sl /\ sl_id (sl <| latched := v |>) = sl_id sl.
Proof. intros Hv (H1 & H2 & H3 & H4 & H5). done. Qed.

Lemma tick_clear_spec e s : good s ->
  good (tick_clear e s) /\ hal (tick_clear e s) = hal s /\ insts (persist (tick_clear e s)) = insts (persist s) /\
  runtime (tick_clear e s) = runtime s /\
  grace_until (tick_clear e s) = (if clear_request s then u32 (millis e + IL_GRACE_MS) else grace_until s) /\
  forall i, 0 <= i < 10 -> slot_of (tick_clear e s) i =
    if clear_request s then slot_of s i <| latched := 0 |> else slot_of s i.
Proof.
  intros Hs. unfold tick_clear. destruct (clear_request s); [|done]. cbv zeta.
  set (s1 := s <| clear_request := false |>).
  assert (Hs1 : good s1) by (destruct Hs; by split). pose proof (iv_shape _ _ Hs1) as (L1 & _).
  rewrite set_slots_eq by done. split.
  - assert (Hs2 : good (s1 <| persist ::= fun p => p <| slots ::= map (fun sl => sl <| latched := 0 |>) |> |>)).
    { apply set_slots_inv; [done|]. intros sl. apply latched_ok. by vm_compute. }
    destruct Hs2. by split.
  - do 4 (split; [done|]). intros i Hi. unfold slot_of, interlock_begin_grace, field_map.
    cbn [persist slots]. rewrite (zget_map slot0); [done|].
    change (0 <= i < zlen (slots (persist s))). pose proof (iv_shape _ _ Hs) as (L0 & _). unfold zlen. lia.
Qed.

Lemma tick_latch_all l : forall s, good s -> NoDup l -> Forall (fun i => 0 <= i < 10) l ->
  let s' := foldl (fun s i => tick_latch i s) s l in
  good s' /\ hal s' = hal s /\ insts (persist s') = insts (persist s) /\ grace_until s' = grace_until s /\
  forall j, 0 <= j < 10 -> slot_of s' j =
    if bool_decide (j ∈ l) && latch_now s j then slot_of s j <| latched := 1 |> else slot_of s j.
Proof.
  induction l as [|i l IH]; intros s Hs Hnd Hf; cbn [foldl].
  { split; [done|]. split; [done|]. split; [done|]. split; [done|]. intros j _.
    by rewrite bool_decide_eq_false_2 by apply not_elem_of_nil. }
  apply NoDup_cons in Hnd as [Hi Hnd]. apply Forall_cons in Hf as [Hr Hf].
  pose proof (iv_shape _ _ Hs) as (L1 & L2 & _).
  assert (E1 : tick_latch i s = if latch_now s i then set_slot i (fun sl => sl <| latched := 1 |>) s else s).
  { unfold tick_latch, latch_now. by destruct (armed s i). }
  assert (Hs1 : good (tick_latch i s)).
  { rewrite E1. destruct (latch_now s i); [|done]. apply set_slot_inv; [done..|]. intros sl. apply latched_ok. by vm_compute. }
  assert (Hslot : forall j, 0 <= j < 10 -> slot_of (tick_latch i s) j =
    if (j =? i) && latch_now s i then slot_of s j <| latched := 1 |> else slot_of s j).
  { intros j Hj. rewrite E1. destruct (latch_now s i); [|by rewrite andb_false_r]. rewrite andb_true_r.
    rewrite slot_of_set by (done || lia). by destruct (Z.eqb_spec j i) as [-> |]. }
  assert (Hrest : hal (tick_latch i s) = hal s /\ insts (persist (tick_latch i s)) = insts (persist s) /\
    grace_until (tick_latch i s) = grace_until s) by (rewrite E1; by destruct (latch_now s i)).
  destruct Hrest as (R1 & R2 & R3). destruct (IH _ Hs1 Hnd Hf) as (Hs2 & -> & -> & -> & Hslot2). split; [done|].
  split; [done|]. split; [done|]. split; [done|]. intros j Hj. rewrite Hslot2 by done.
  assert (Hln : j <> i -> latch_now (tick_latch i s) j = latch_now s j).
  { intros Hne. unfold latch_now, armed, inst_of. rewrite R2, Hslot by done. destruct (Z.eqb_spec j i); done. }
  rewrite Hslot by done. destruct (Z.eqb_spec j i) as [-> |Hne]; cbn [andb].
  - rewrite (bool_decide_eq_false_2 (i ∈ l)) by done. by rewrite bool_decide_eq_true_2 by apply list_elem_of_here.
  - rewrite Hln by done. destruct (decide (j ∈ l)) as [Hin|Hin].
    + rewrite (bool_decide_eq_true_2 (j ∈ l)) by done. by rewrite bool_decide_eq_true_2 by by apply list_elem_of_further.
    + rewrite (bool_decide_eq_false_2 (j ∈ l)) by done. by rewrite bool_decide_eq_false_2 by by apply not_elem_of_cons.
Qed.

Lemma veto_mask_bit s j : 0 <= j ->
  Z.testbit (veto_mask s) j = (j <? 10) && armed s j && nz (latched (slot_of s j)).
Proof.
  intros Hj. unfold veto_mask.
  assert (Hf : forall l m, Forall (fun i => 0 <= i < 10) l ->
    Z.testbit (foldl (fun m i => if negb (armed s i) then m
       else if nz (latched (slot_of s i)) then Z.lor m (slot_bit i) else m) m l) j =
    Z.testbit m j || (bool_decide (j ∈ l) && armed s j && nz (latched (slot_of s j)))).
  { induction l as [|i l IH]; intros m Hf; cbn [foldl].
    { rewrite bool_decide_eq_false_2 by apply not_elem_of_nil. by rewrite orb_false_r. }
    apply Forall_cons in Hf as [Hr Hf]. rewrite IH by done.
    assert (Hd : bool_decide (j ∈ i :: l) = (j =? i) || bool_decide (j ∈ l)).
    { apply eq_true_iff_eq. rewrite orb_true_iff, !bool_decide_eq_true, Z.eqb_eq. apply elem_of_cons. }
    rewrite Hd. destruct (Z.eqb_spec j i) as [-> |Hne]; cbn [orb].
    - destruct (armed s i), (nz (latched (slot_of s i))); cbn [negb]; rewrite ?andb_false_r; try done.
      rewrite Z.lor_spec, slot_bit_test, Z.eqb_refl by lia. by rewrite !orb_true_r.
    - destruct (armed s i), (nz (latched (slot_of s i))); cbn [negb]; try done.
      rewrite Z.lor_spec, slot_bit_test by lia. destruct (Z.eqb_spec i j); [done|]. by rewrite orb_false_r. }
  rewrite Hf.
  - rewrite Z.testbit_0_l. cbn [orb]. f_equal. f_equal. apply eq_true_iff_eq.
    rewrite bool_decide_eq_true, slot_ids_in, Z.ltb_lt. lia.
  - apply Forall_forall. intros i Hi. by apply slot_ids_in.
Qed.
Lemma managed_bit j : 0 <= j < 10 -> Z.testbit managed_mask j = true.
Proof.
  intros Hj. change managed_mask with (Z.ones 10). apply Z.ones_spec_low. lia.
Qed.

Lemma land_nonzero a b j : 0 <= j -> Z.testbit a j = true -> Z.testbit b j = true -> nz (Z.land a b) = true.
Proof.
  intros Hj Ha Hb. unfold nz. destruct (Z.eqb_spec (Z.land a b) 0) as [E|]; [|done].
  assert (Z.testbit (Z.land a b) j = true) by by rewrite Z.land_spec, Ha, Hb. by rewrite E, Z.testbit_0_l in *.
Qed.
Lemma nonzero_land a b : fits 16 a -> nz (Z.land a b) = true -> exists j, 0 <= j /\ Z.testbit a j = true /\ Z.testbit b j = true.
Proof.
  intros Ha Hn. unfold nz in Hn. apply negb_true_iff, Z.eqb_neq in Hn.
  assert (H0 : 0 <= Z.land a b) by (apply Z.land_nonneg; left; apply Ha).
  exists (Z.log2 (Z.land a b)). split; [apply Z.log2_nonneg|].
  assert (Hb : Z.testbit (Z.land a b) (Z.log2 (Z.land a b)) = true) by (apply Z.bit_log2; lia).
  rewrite Z.land_spec in Hb. by apply andb_true_iff in Hb.
Qed.

(** What the veto phase puts on the outputs, in the framework's own terms. *)
Lemma drive_declared s i o :
  good s -> live s i = true -> o ∈ outputs (inst_of s i) ->
  drive_spec (veto_mask s) managed_mask (ensure_initialised (hal s)) (out_phys o) =
  output_ops (out_phys o) (od o) (if tripped s (out_phys o) then err_val o else ok_val o).
Proof.
  intros Hs Hl Ho. pose proof (iv_shape _ _ Hs) as (L1 & _). pose proof (live_range s i L1 Hl) as Hi.
  set (h := ensure_initialised (hal s)). pose proof (iv_hal _ _ Hs) as HI. fold h in HI.
  assert (Hv : forall j, 0 <= j < 10 -> live s j = true -> view_of 10 s j = Some (outputs (inst_of s j))).
  { intros j Hj Hlj. unfold view_of. rewrite Hlj. destruct (Z.ltb_spec j 10); [done|lia]. }
  destruct (hi_owned _ _ HI i _ o (Hv i Hi Hl) Ho) as (Hid & Hb & Hm & E1 & E2 & E3 & _).
  unfold drive_spec. cbv zeta. rewrite Hm, E1, E2, E3. change (HAL_PIN_MODE_GPIO_OUT =? HAL_PIN_MODE_GPIO_OUT) with true.
  rewrite (land_nonzero _ managed_mask i) by (try done; try lia; by apply managed_bit). cbn [andb]. f_equal.
  assert (Ht : nz (Z.land (slot_mask (claim_of h (out_phys o))) (veto_mask s)) = tripped s (out_phys o)); [|by rewrite Ht].
  apply eq_true_iff_eq. unfold tripped. rewrite existsb_exists. split.
  - intros (j & Hj & Hbj & Hvj)%nonzero_land; [|by apply claim_ok_mask, claim_of_ok; [apply HI|]].
    rewrite veto_mask_bit in Hvj by done. apply andb_true_iff in Hvj as [[Hj10 Ha]%andb_true_iff Hn].
    destruct (hi_bits _ _ HI (out_phys o) j Hid Hj Hbj) as (outs & HD & Hin). specialize (Hin Hm).
    unfold view_of in HD. rewrite Hj10 in HD. cbn [andb] in HD. destruct (live s j) eqn:Hlj; [|done]. injection HD as <-.
    exists j. split; [apply list_elem_of_In, slot_ids_in; apply Z.ltb_lt in Hj10; lia|]. rewrite Hlj, Hn. cbn [andb].
    apply existsb_exists. apply list_elem_of_fmap in Hin as (o' & Eo & Hin). exists o'.
    split; [by apply list_elem_of_In|]. by apply Z.eqb_eq.
  - intros (j & Hj & Hcond). apply list_elem_of_In, slot_ids_in in Hj.
    apply andb_true_iff in Hcond as [[Hlj Hn]%andb_true_iff Hex]. apply existsb_exists in Hex as (o' & Hin & Eo).
    apply Z.eqb_eq in Eo. apply list_elem_of_In in Hin.
    destruct (hi_owned _ _ HI j _ o' (Hv j Hj Hlj) Hin) as (_ & Hbj & _). rewrite Eo in Hbj.
    apply (land_nonzero _ _ j); [lia|done|]. rewrite veto_mask_bit, Hn by lia.
    apply andb_true_iff in Hlj as [-> _]. by destruct (Z.ltb_spec j 10); [|lia].
Qed.

(** *** The tick: status, and the whole *)
Lemma tick_status_all veto l : forall s,
  let s' := foldl (fun s i => tick_status veto i s) s l in
  persist s' = persist s /\ runtime s' = runtime s /\ hal s' = hal s /\ grace_until s' = grace_until s /\
  clear_request s' = clear_request s /\ (stat_ok (status s) -> stat_ok (status s')).
Proof.
  induction l as [|i l IH]; intros s; cbn [foldl]; [done|].
  destruct (IH (tick_status veto i s)) as (-> & -> & -> & -> & -> & Hs). do 5 (split; [done|]).
  intros Hok. apply Hs. unfold tick_status, stat_ok, field_map. cbn [status sb_slots input_vals].
  by rewrite zlen_zset.
Qed.

Lemma drive_hal_inv D h veto managed :
  hal_inv D (ensure_initialised h) -> hal_inv D (ensure_initialised (hal_pin_drive_outputs veto managed h)).
Proof.
  intros HI. assert (E : hal_pin_drive_outputs veto managed h = hal_pin_drive_outputs veto managed (ensure_initialised h)).
  { unfold hal_pin_drive_outputs. by rewrite (ensure_idem (ensure_initialised h)) by apply ensure_initialised_done. }
  rewrite E, drive_outputs_log by apply ensure_initialised_done. destruct HI as [Hg Ho Hb].
  rewrite ensure_idem by apply Hg. by split.
Qed.

Lemma drive_log h veto managed :
  gpio_log (hal_pin_drive_outputs veto managed h) =
  gpio_log h ++ concat (map (drive_spec veto managed (ensure_initialised h)) (map Z.of_nat (seq 0 30))).
Proof.
  assert (E : hal_pin_drive_outputs veto managed h = hal_pin_drive_outputs veto managed (ensure_initialised h)).
  { unfold hal_pin_drive_outputs. by rewrite (ensure_idem (ensure_initialised h)) by apply ensure_initialised_done. }
  rewrite E, drive_outputs_log by apply ensure_initialised_done. unfold log, field_map. cbn [gpio_log].
  f_equal. unfold ensure_initialised. by destruct (g_claims_initialised h).
Qed.

Lemma latch_clear_request l : forall s, clear_request (foldl (fun s i => tick_latch i s) s l) = clear_request s.
Proof.
  induction l as [|i l IH]; intros s; cbn [foldl]; [done|]. rewrite IH. unfold tick_latch.
  destruct (negb (armed s i)); [done|]. by destruct (_ =? _).
Qed.

Lemma drive_claims h veto managed :
  g_claims (ensure_initialised (hal_pin_drive_outputs veto managed h)) = g_claims (ensure_initialised h).
Proof.
  assert (E : hal_pin_drive_outputs veto managed h = hal_pin_drive_outputs veto managed (ensure_initialised h)).
  { unfold hal_pin_drive_outputs. by rewrite (ensure_idem (ensure_initialised h)) by apply ensure_initialised_done. }
  rewrite E, drive_outputs_log by apply ensure_initialised_done. rewrite ensure_idem; [done|].
  apply ensure_initialised_done.
Qed.

Lemma slot_ids_nodup : NoDup slot_ids.
Proof. apply (bool_decide_unpack _). vm_compute. exact I. Qed.
Lemma slot_ids_range : Forall (fun i => 0 <= i < 10) slot_ids.
Proof. apply Forall_forall. intros i. apply slot_ids_in. Qed.

Lemma tick_latches_spec e s : good s ->
  let s' := tick_latches e s in
  good s' /\ hal s' = hal s /\ insts (persist s') = insts (persist s) /\ grace_until s' = grace_until s /\
  clear_request s' = clear_request s /\
  forall i, 0 <= i < 10 -> slot_of s' i =
    if latch_now s i && negb (il_in_grace (millis e) s) then slot_of s i <| latched := 1 |> else slot_of s i.
Proof.
  intros Hs. unfold tick_latches. destruct (il_in_grace (millis e) s); cbn [negb].
  - do 5 (split; [done|]). intros i _. by rewrite andb_false_r.
  - destruct (tick_latch_all slot_ids s Hs slot_ids_nodup slot_ids_range) as (Hg & Hh & Hin & Hgr & Hl).
    do 4 (split; [done|]). split; [apply latch_clear_request|]. intros i Hi. rewrite Hl by done.
    rewrite bool_decide_eq_true_2 by by apply slot_ids_in. by rewrite andb_true_r.
Qed.

Lemma tick_report_spec veto e s : good s ->
  let s' := tick_report veto e s in
  good s' /\ persist s' = persist s /\ hal s' = hal s /\ grace_until s' = grace_until s /\ clear_request s' = clear_request s.
Proof.
  intros Hs. unfold tick_report. destruct (tick_status_all veto slot_ids s) as (E1 & E2 & E3 & E4 & E5 & E6).
  revert E1 E2 E3 E4 E5 E6. generalize (foldl (fun s i => tick_status veto i s) s slot_ids). intros s2 E1 E2 E3 E4 E5 E6.
  split; [|done]. destruct s2 as [p rt a c g st rq h af rc]. cbn [persist runtime hal grace_until clear_request status] in *.
  subst p rt h g c. destruct Hs as [A1 A2 A3 A4 A5 A6 A7 A8]. split; [exact A1|exact A2|exact A3|exact (E6 A4)|exact A5|exact A6|exact A7|exact A8].
Qed.

Lemma veto_mask_persist s s' : persist s' = persist s -> veto_mask s' = veto_mask s.
Proof. intros E. unfold veto_mask, armed, slot_of. by rewrite E. Qed.

Lemma tick_drive_inv k veto s : il_inv k s -> il_inv k (tick_drive veto s).
Proof.
  intros [A1 A2 A3 A4 A5 A6 A7 A8].
  split; [exact A1|exact A2|exact A3|exact A4|exact A5|exact A6|exact A7|]. exact (drive_hal_inv _ _ veto managed_mask A8).
Qed.
Lemma idle_inv k s : il_inv k s -> il_inv k (idle s).
Proof. apply il_inv_active. Qed.

Lemma tick_drive_fields veto s :
  persist (tick_drive veto s) = persist s /\ grace_until (tick_drive veto s) = grace_until s /\
  clear_request (tick_drive veto s) = clear_request s /\
  hal (tick_drive veto s) = hal_pin_drive_outputs veto managed_mask (hal s).
Proof. done. Qed.

(** The end of the tick, behind the evaluation. *)
Lemma tick_rest_spec te s s1 veto s' : good s ->
  tick_latches (at_latch te) (idle s) = s1 -> veto_mask s1 = veto ->
  tick_report veto (at_status te) (tick_drive veto s1) = s' ->
  good s' /\ clear_request s' = clear_request s /\ grace_until s' = grace_until s /\
  insts (persist s') = insts (persist s) /\
  (forall i, 0 <= i < 10 -> slot_of s' i =
     if latch_now s i && negb (il_in_grace (millis (at_latch te)) s') then slot_of s i <| latched := 1 |> else slot_of s i) /\
  gpio_log (hal s') = gpio_log (hal s) ++
    concat (map (drive_spec (veto_mask s') managed_mask (ensure_initialised (hal s))) (map Z.of_nat (seq 0 30))) /\
  g_claims (ensure_initialised (hal s')) = g_claims (ensure_initialised (hal s)).
Proof.
  intros Hs E1 Hv E2. pose proof (tick_latches_spec (at_latch te) _ (idle_inv 10 s Hs)) as H1.
  cbv zeta in H1. rewrite E1 in H1. destruct H1 as (G1 & Hh1 & Hi1 & Hg1 & Hc1 & Hs1).
  destruct (tick_report_spec veto (at_status te) _ (tick_drive_inv 10 veto s1 G1)) as (G3 & Hp3 & Hh3 & Hg3 & Hc3).
  destruct (tick_drive_fields veto s1) as (D1 & D2 & D3 & D4). rewrite E2 in *. rewrite D1 in Hp3.
  rewrite D2 in Hg3. rewrite D3 in Hc3. rewrite D4 in Hh3. clear E1 E2 D1 D2 D3 D4.
  split; [done|]. split; [by rewrite Hc3, Hc1|]. split; [by rewrite Hg3, Hg1|]. split; [by rewrite Hp3, Hi1|]. split; [|split].
  - intros i Hi. unfold slot_of at 1. rewrite Hp3. fold (slot_of s1 i). rewrite Hs1 by done.
    assert (Eg : il_in_grace (millis (at_latch te)) s' = il_in_grace (millis (at_latch te)) (idle s)).
    { unfold il_in_grace. by rewrite Hg3, Hg1. }
    by rewrite Eg.
  - rewrite Hh3, drive_log, Hh1. by rewrite (veto_mask_persist s1 s' Hp3), Hv.
  - by rewrite Hh3, drive_claims, Hh1.
Qed.

Lemma tick_effect_holds te s : good s ->
  exists s', interlock_tick_all sp pc te s = Done tt s' /\ tick_effect te s s'.
Proof.
  intros Hs. destruct (verify_returns 10 s Hs) as ([] & s0 & E0 & _).
  assert (s0 = s) as ->.
  { destruct (iv_header _ _ Hs) as (H1 & H2 & H3). unfold verify_persist_or_panic in E0.
    rewrite H1, H2, H3, !Z.eqb_refl in E0. by injection E0. }
  destruct (tick_clear_spec (at_clear te) s Hs) as (G1 & Hh1 & Hi1 & Hr1 & Hgr1 & Hs1).
  assert (Hc1 : clear_request (tick_clear (at_clear te) s) = false).
  { unfold tick_clear. destruct (clear_request s) eqn:E; [|done]. pose proof (iv_shape _ _ Hs) as (L1 & _).
    cbv zeta. by rewrite set_slots_eq. }
  destruct (tick_eval_all (at_input te) slot_ids _ G1 slot_ids_nodup slot_ids_range) as (s2 & E2 & G2 & Hf2 & _ & Hev2).
  destruct (tick_rest_spec te s2 _ _ _ G2 eq_refl eq_refl eq_refl) as (G3 & Hc3 & Hgr3 & Hi3 & Hs3 & Hlog3 & Hcl3).
  set (s3 := tick_report _ _ _) in *.
  exists s3. split.
  { unfold interlock_tick_all, ibind at 1. rewrite E0. unfold ibind at 1, imod at 1. unfold ibind. rewrite E2. done. }
  clearbody s3. revert G1 Hh1 Hi1 Hr1 Hgr1 Hs1 Hc1 E2 Hf2 Hev2. generalize (tick_clear (at_clear te) s).
  intros s1 G1 Hh1 Hi1 Hr1 Hgr1 Hs1 Hc1 E2 (F1 & F2 & F3 & F4 & F5) Hev2.
  assert (Hinst1 : forall i, inst_of s1 i = inst_of s i) by (intros i; unfold inst_of; by rewrite Hi1).
  assert (Hinst3 : forall i, inst_of s3 i = inst_of s2 i) by (intros i; unfold inst_of; by rewrite Hi3).
  assert (Hsl2 : forall i, slot_of s2 i = slot_of s1 i) by (intros i; unfold slot_of; by rewrite F1).
  assert (Hst : forall i, 0 <= i < 10 -> sl_state (slot_of s3 i) = sl_state (slot_of s i) /\ sl_id (slot_of s3 i) = sl_id (slot_of s i)).
  { intros i Hi. rewrite Hs3, Hsl2, Hs1 by done. by destruct (_ && _), (clear_request s). }
  assert (Hlv : forall i, 0 <= i < 10 -> live s3 i = live s i /\ armed s3 i = armed s i).
  { intros i Hi. unfold live, armed. by destruct (Hst i Hi) as [-> ->]. }
  assert (Hln : forall i, 0 <= i < 10 -> latch_now s3 i = latch_now s2 i).
  { intros i Hi. unfold latch_now. rewrite Hinst3. destruct (Hlv i Hi) as [_ ->]. f_equal.
    unfold armed. rewrite Hsl2, Hs1 by done. by destruct (clear_request s). }
  split.
  - done.
  - congruence.
  - intros i Hi. destruct (Hlv i Hi) as [-> ->]. split; [done|]. split; [done|]. rewrite Hinst3.
    destruct (F5 i) as (_ & _ & ->). by rewrite Hinst1.
  - intros i Hi Hl. rewrite Hinst3. assert (Hl1 : live s1 i = true).
    { rewrite <- Hl. unfold live, armed. rewrite Hs1 by done. by destruct (clear_request s). }
    assert (Hsame : slot_pass (at_input te) s1 i <-> slot_pass (at_input te) s i).
    { apply slot_pass_same; [done|done|]. unfold rt_of. by rewrite Hr1. }
    rewrite <- Hsame. apply Hev2; [by apply slot_ids_in|done].
  - intros i Hi. rewrite Hln, Hs3, Hsl2, Hs1 by done. destruct (_ && _); [by destruct (clear_request s)|].
    by destruct (clear_request s).
  - by rewrite Hgr3, F3.
  - exists (drive_spec (veto_mask s3) managed_mask (ensure_initialised (hal s2))). split; [by rewrite Hlog3, F2, Hh1|].
    intros i o Hl Ho. rewrite <- (drive_declared s3 i o G3 Hl Ho).
    assert (Ec : forall id, claim_of (ensure_initialised (hal s3)) id = claim_of (ensure_initialised (hal s2)) id).
    { intros id. unfold claim_of. by rewrite Hcl3. }
    unfold drive_spec. by rewrite Ec.
Qed.

(** *** From a reset to the first tick *)
Lemma log_inv k ops s : il_inv k s -> il_inv k (s <| hal ::= log ops |>).
Proof.
  intros [A1 A2 A3 A4 A5 A6 A7 A8]. split; [exact A1|exact A2|exact A3|exact A4|exact A5|exact A6|exact A7|].
  change (hal (s <| hal ::= log ops |>)) with (log ops (hal s)).
  assert (E : ensure_initialised (log ops (hal s)) = log ops (ensure_initialised (hal s))).
  { unfold ensure_initialised. change (g_claims_initialised (log ops (hal s))) with (g_claims_initialised (hal s)).
    by destruct (g_claims_initialised (hal s)). }
  rewrite E. destruct A8 as [Hg Ho Hb]. by split.
Qed.

Lemma hal0_inv : hal_inv (fun _ => None) (ensure_initialised hal0).
Proof.
  split; [|done|].
  - split; [done|]. split; [done|]. change (Forall claim_ok (replicate 30 claim_free)).
    apply Forall_replicate. by apply co_free.
  - intros id t Hid Ht. assert (E : claim_of (ensure_initialised hal0) id = claim_free).
    { unfold claim_of. apply zget_lookup; [lia|]. change (g_claims (ensure_initialised hal0)) with (replicate 30 claim_free).
      apply lookup_replicate_2. lia. }
    rewrite E. cbn [slot_mask claim_free]. by rewrite Z.testbit_0_l.
Qed.

Lemma fresh_inv p : header_ok p -> persist_shape p ->
  (forall i, 0 <= i < 10 -> slot_ok (zget slot0 (slots p) i)) ->
  (forall i, 0 <= i < 10 -> live (il_reset p) i = true -> 0 < zget 0 (dsl_len p) i < IL_DSL_MAX) ->
  il_inv 0 (il_reset p).
Proof.
  intros H1 H2 H3 H4. split; [exact H1|exact H2| | |exact H3|exact H4|..].
  - split; [done|]. change (runtime (il_reset p)) with (replicate 10 rt0). by apply Forall_replicate.
  - done.
  - intros i Hi. lia.
  - eapply hal_inv_ext; [|exact hal0_inv]. intros t. unfold view_of.
    destruct (Z.ltb_spec t 0); cbn [andb]; [|done]. destruct (live (il_reset p) t) eqn:E; [|done].
    apply live_range in E; [lia|apply H2].
Qed.

Lemma boot_slot_ok sl : slot_ok sl -> slot_ok (boot_slot sl) /\ sl_id (boot_slot sl) = sl_id sl /\
  (sl_state (boot_slot sl) = INTERLOCK_SLOT_ARMED -> sl_state sl = INTERLOCK_SLOT_ARMED).
Proof.
  intros (H1 & H2 & H3 & H4 & H5). unfold boot_slot, INTERLOCK_SLOT_ARMED in *. destruct (Z.eqb_spec (sl_state sl) 1) as [E|E].
  - destruct (INTERLOCK_MAX_BOOT_ATTEMPTS <=? boot_counter sl); unfold slot_ok, field_map;
      cbn [sl_state sl_id boot_counter latched].
    + split; [|done]. split; [by vm_compute|]. split; [done|]. split; [done|]. done.
    + split; [|done]. split; [done|]. split; [done|]. split; [done|]. split; [apply u8_fits|done].
  - done.
Qed.

Lemma valid_inv p : ram_ok p -> persist_is_valid p = true -> il_inv 0 (il_reset p).
Proof.
  intros (Hshape & Hslots & Hlen) Hv. unfold persist_is_valid in Hv.
  destruct (Z.eqb_spec (magic p) INTERLOCK_MAGIC) as [E1|]; cbn [negb] in Hv; [|done].
  destruct (Z.eqb_spec (version p) INTERLOCK_PERSIST_VERSION) as [E2|]; cbn [negb] in Hv; [|done].
  destruct (Z.eqb_spec (self_size p) (u16 sizeof_persist)) as [E3|]; cbn [negb] in Hv; [|done].
  destruct (forallb (slot_valid p) slot_ids) eqn:Ef; cbn [negb] in Hv; [|done]. clear Hv.
  rewrite forallb_forall in Ef. pose proof Hshape as (L1 & L2 & L3 & L4 & L5).
  assert (Hi : forall i, 0 <= i < 10 -> slot_valid p i = true /\
    (let sl := zget slot0 (slots p) i in fits 8 (sl_state sl) /\ fits 8 (sl_id sl) /\ fits 8 (boot_counter sl) /\ fits 8 (latched sl)) /\
    fits 16 (zget 0 (dsl_len p) i)).
  { intros i Hi. split; [apply Ef, list_elem_of_In; by apply slot_ids_in|].
    destruct (lookup_lt_is_Some_2 (slots p) (Z.to_nat i) ltac:(lia)) as [sl Hsl].
    destruct (lookup_lt_is_Some_2 (dsl_len p) (Z.to_nat i) ltac:(lia)) as [n Hn].
    rewrite (zget_lookup slot0 sl), (zget_lookup 0 n) by (done || lia). split.
    - by eapply (Forall_lookup_1 _ _ _ _ Hslots Hsl).
    - by eapply (Forall_lookup_1 _ _ _ _ Hlen Hn). }
  apply fresh_inv; [done|done|..].
  - intros i Hr. destruct (Hi i Hr) as (Hval & (B1 & B2 & B3 & B4) & _). unfold slot_valid in Hval. cbv zeta in Hval.
    set (sl := zget slot0 (slots p) i) in *. unfold slot_ok, fits in *.
    unfold INTERLOCK_SLOT_POISONED, INTERLOCK_SLOT_ARMED, INTERLOCK_ID_NONE, INTERLOCK_ID_NOOP, INTERLOCK_ID_DSL in *.
    destruct (Z.ltb_spec 2 (sl_state sl)); [done|].
    destruct (Z.eqb_spec (sl_id sl) 0), (Z.eqb_spec (sl_id sl) 1), (Z.eqb_spec (sl_id sl) 2); cbn [negb andb] in Hval; try done;
      destruct (Z.eqb_spec (sl_state sl) 1); cbn [andb] in Hval; try done; (split; [lia|]; split; [lia|]; split; [lia|done]).
  - intros i Hr Hl. destruct (Hi i Hr) as (Hval & _ & Hn). unfold slot_valid in Hval. cbv zeta in Hval.
    apply andb_true_iff in Hl as [Ha Hd]. unfold armed, slot_of in Ha, Hd.
    change (slots (persist (il_reset p))) with (slots p) in *.
    rewrite Ha, Hd in Hval. cbn [andb] in Hval. unfold fits in Hn.
    destruct ((zget 0 (dsl_len p) i =? 0) || (IL_DSL_MAX <=? zget 0 (dsl_len p) i)) eqn:E.
    + by repeat match type of Hval with (if ?b then _ else _) = _ => destruct b; try done end.
    + apply orb_false_iff in E as [E1' E2']. lia.
Qed.

Lemma nth_replicate_default {A} (x : A) k n : nth n (replicate k x) x = x.
Proof. revert n. induction k as [|k IH]; intros [|n]; cbn; auto. Qed.

Lemma cold_inv : il_inv 0 (il_reset persist_cold_init).
Proof.
  apply fresh_inv.
  - done.
  - split; [done|]. split; [done|]. split; [done|]. split; [done|].
    change (dsl_text persist_cold_init) with (replicate 10 (replicate 128 0)). apply Forall_replicate. by rewrite length_replicate.
  - intros i Hi. unfold zget. destruct (i <? 0); [apply slot_ok_empty|].
    change (slots persist_cold_init) with (replicate 10 slot0). rewrite nth_replicate_default. apply slot_ok_empty.
  - intros i Hi. unfold live, armed, slot_of, zget. destruct (i <? 0); [done|].
    change (slots (persist (il_reset persist_cold_init))) with (replicate 10 slot0). by rewrite nth_replicate_default.
Qed.

Lemma boot_inv p : ram_ok p -> il_inv 0 (interlock_boot_decide (il_reset p)).
Proof.
  intros Hram. unfold interlock_boot_decide. change (persist (il_reset p)) with p.
  destruct (persist_is_valid p) eqn:Ev; cbn [negb]; [|exact cold_inv].
  pose proof (valid_inv p Hram Ev) as Hv. pose proof (iv_shape _ _ Hv) as (L1 & L2 & L3 & L4 & L5).
  rewrite set_slots_eq by done. destruct Hv as [A1 A2 A3 A4 A5 A6 A7 A8].
  change (il_reset p <| persist ::= fun p => p <| slots ::= map boot_slot |> |>) with
    (il_reset (p <| slots ::= map boot_slot |>)).
  assert (Hz : forall i, 0 <= i < 10 -> zget slot0 (map boot_slot (slots p)) i = boot_slot (zget slot0 (slots p) i)).
  { intros i Hi. apply (zget_map slot0). change (length (slots (persist (il_reset p)))) with (length (slots p)) in L1.
    unfold zlen. lia. }
  apply fresh_inv.
  - exact A1.
  - unfold persist_shape, field_map. cbn [slots insts dsl_len dsl_text]. rewrite length_map. exact A2.
  - intros i Hi. change (slots (p <| slots ::= map boot_slot |>)) with (map boot_slot (slots p)). rewrite Hz by done.
    apply boot_slot_ok. by apply A5.
  - intros i Hi Hl. apply A6; [done|]. revert Hl. unfold live, armed, slot_of.
    change (slots (persist (il_reset (p <| slots ::= map boot_slot |>)))) with (map boot_slot (slots p)). rewrite Hz by done.
    change (slots (persist (il_reset p))) with (slots p). destruct (boot_slot_ok _ (A5 i Hi)) as (_ & Eid & Est).
    unfold slot_of in *. change (slots (persist (il_reset p))) with (slots p) in *. rewrite Eid.
    intros [Ha Hd]%andb_true_iff. apply Z.eqb_eq in Ha. by rewrite (Est Ha), Hd.
Qed.

(** *** Every call of the framework's interface *)
Lemma arm_from_config_returns region slot : 0 <= slot ->
  returns good (arm_from_config sp pc region slot) (fun _ => good).
Proof.
  intros Hs. unfold arm_from_config. destruct (slot_file region slot) as [d|]; [|intros s Hg; by exists tt, s].
  eapply returns_bind; [by apply set_dsl_returns|]. intros r. destruct (r.1 =? SHELL_STATUS_OK).
  - apply returns_mod. intros s Hg. by destruct Hg.
  - apply returns_mod. intros s Hg. unfold note_armfail. destruct (armfail s =? 0); [by destruct Hg|done].
Qed.

Lemma fingerprint_inv fp s : good s -> good (s <| persist ::= fun p => p <| cfg_fingerprint := fp |> |>).
Proof. by intros [A1 A2 A3 A4 A5 A6 A7 A8]; split. Qed.

Lemma config_bringup_returns region : returns good (config_bringup sp pc region) (fun _ => good).
Proof.
  intros s Hs. unfold config_bringup. cbv zeta. destruct (_ || _); [|exists tt, (s <| ilcf_rc := interlock_armed_count s |>); split; [done|by destruct Hs]].
  assert (Hpos : forall slot, slot ∈ config_slots -> 0 <= slot).
  { intros slot. unfold config_slots. rewrite !elem_of_cons, elem_of_nil. lia. }
  revert s Hs. fold (returns good (ifor config_slots (fun slot => interlock_disarm_slot sp pc slot;~ iret tt);~
     imod (fun s => s <| ilcf_rc := 0 |>);~ ifor config_slots (arm_from_config sp pc region);~
     imod (fun s => s <| persist ::= fun p => p <| cfg_fingerprint := interlock_cfg_fingerprint region |> |>)) (fun _ => good)).
  eapply returns_bind.
  { apply returns_for. intros slot Hin. eapply returns_bind; [by apply disarm_returns, Hpos|].
    intros r s [Hs _]. by exists tt, s. }
  intros []. eapply returns_bind; [apply (returns_mod good _ (fun _ => good)); intros s Hs; by destruct Hs|].
  intros []. eapply returns_bind; [apply returns_for; intros slot Hin; by apply arm_from_config_returns, Hpos|].
  intros []. apply returns_mod. intros s Hs. by apply fingerprint_inv.
Qed.

Lemma builtin_bringup_returns : returns good (builtin_bringup sp pc) (fun _ => good).
Proof.
  intros s Hs. unfold builtin_bringup. destruct (builtin_preserved s); [by exists tt, s|]. revert s Hs.
  fold (returns good (interlock_disarm_slot sp pc 0;~ r <~ interlock_set_slot_dsl sp pc 0 gp1_il;;
        if r.1 =? SHELL_STATUS_OK then iret tt
        else imod (note_armfail (u32 (Z.lor (Z.lor (Z.shiftl r.1 16) (Z.shiftl (zget 0 r.2 0) 8)) (zget 0 r.2 1)))))
    (fun _ => good)).
  eapply returns_bind; [by apply disarm_returns|]. intros r0. apply (returns_weaken good _ _ (fun _ => good)); [|by intros s [Hs _]|done].
  eapply returns_bind; [by apply set_dsl_returns|]. intros r. destruct (r.1 =? SHELL_STATUS_OK); [intros s Hs; by exists tt, s|].
  apply returns_mod. intros s Hs. unfold note_armfail. destruct (armfail s =? 0); [by destruct Hs|done].
Qed.

Lemma bringup_returns region ms : returns (il_inv 0) (interlock_thread2_start sp pc region ms) (fun _ => good).
Proof.
  unfold interlock_thread2_start. eapply returns_bind; [apply (returns_mod (il_inv 0) _ (fun _ => il_inv 0)); intros s; apply log_inv|].
  intros []. eapply returns_bind; [apply warm_restore_returns|]. intros [].
  eapply returns_bind; [apply config_bringup_returns|]. intros []. eapply returns_bind; [apply builtin_bringup_returns|].
  intros []. apply returns_mod. intros s Hs. by destruct Hs.
Qed.

Lemma exec_returns o : op_ok o -> returns good (il_exec sp pc o) (fun _ => good).
Proof.
  assert (Hbind : forall A (m : il A), returns good m (fun _ => good) -> returns good (m;~ iret tt) (fun _ => good)).
  { intros A m Hm. eapply returns_bind; [exact Hm|]. intros a s Hs. by exists tt, s. }
  assert (Hstay : forall A (f : il_state -> A), returns good (verify_persist_or_panic sp pc;~ fun s => Done (f s) s) (fun _ => good)).
  { intros A f. eapply returns_bind; [apply verify_returns|]. intros [] s Hs. by exists (f s), s. }
  destruct o as [slot id|slot|slot text|te| |ms| | |slot| |]; cbn [op_ok il_exec]; intros Hok.
  - apply Hbind. apply arm_compiled_returns; lia.
  - apply Hbind. eapply returns_weaken; [by apply disarm_returns|done|by intros r s [Hs _]].
  - apply Hbind. by apply set_dsl_returns.
  - intros s Hs. destruct (tick_effect_holds te s Hs) as (s' & E & He). exists tt, s'. split; [done|apply He].
  - apply returns_mod. intros s Hs. by destruct Hs.
  - apply returns_mod. intros s Hs. by destruct Hs.
  - apply returns_mod. intros s Hs. by destruct Hs.
  - apply returns_mod. intros s Hs. by destruct Hs.
  - apply Hbind. unfold interlock_get_slot. eapply returns_bind; [apply verify_returns|]. intros [] s Hs.
    destruct (_ <=? _); by eexists _, s.
  - apply Hbind. apply Hstay.
  - apply Hbind. apply Hstay.
Qed.

Lemma run_returns ops : Forall op_ok ops -> returns good (ifor ops (il_exec sp pc)) (fun _ => good).
Proof.
  intros Hf. apply returns_for. intros o Ho. apply exec_returns. rewrite Forall_forall in Hf. by apply Hf.
Qed.
End Ops.
End Views.

Section Restore.
Context `{IlPlat} (Hplat : IlPlatOk).

Lemma keeps0_trans s1 s2 s3 : keeps0 s1 s2 -> keeps0 s2 s3 -> keeps0 s1 s3.
Proof. unfold keeps0. intuition congruence. Qed.
Lemma keeps0_rt k r s : keeps0 s (set_rt k r s).
Proof. done. Qed.
Lemma keeps0_poison k s : 0 < k -> keeps0 s (poison k s).
Proof.
  intros Hk. split; [|done]. unfold slot_of, poison, set_slot, field_map. cbn [persist slots].
  rewrite zget_zset_ne by lia. done.
Qed.
Lemma keeps0_inst k f s : 0 < k -> keeps0 s (set_inst k f s).
Proof.
  intros Hk. split; [done|]. split; [|done]. unfold inst_of, set_inst, field_map. cbn [persist insts].
  by rewrite zget_zset_ne by lia.
Qed.
Lemma keeps0_hal h s : keeps0 s (s <| hal := h |>).
Proof. done. Qed.

Lemma restore_keeps0 k s : 0 < k < 10 -> il_inv k s ->
  exists s', restore_slot k s = Done tt s' /\ il_inv (k + 1) s' /\ keeps0 s s'.
Proof.
  intros Hk Hs. destruct (restore_slot_returns Hplat k ltac:(lia) s Hs) as ([] & s' & E & Hs'). exists s'.
  split; [done|]. split; [done|]. revert E. unfold restore_slot. cbv zeta.
  destruct (negb _); [by intros [= <-]|]. destruct (negb _).
  { destruct (callback_noop def_init (compiled (sl_id (slot_of s k))) k (sl_id (slot_of s k)) s) as [a Eq]; [done|..].
    { unfold compiled. intros Hb. bools. change g_interlock_count with 1 in *.
      destruct (iv_slots _ _ Hs k ltac:(lia)) as (_ & Hid & _). unfold INTERLOCK_ID_NONE, INTERLOCK_ID_NOOP in *. lia. }
    rewrite Eq. intros [_ <-]%Done_inj. done. }
  destruct (_ || _); [intros [_ <-]%Done_inj; apply keeps0_poison; lia|].
  destruct (il_parse _) as [[[pst off] i]|]; [|done].
  destruct (negb _); [intros [_ <-]%Done_inj; apply keeps0_poison; lia|].
  destruct (claim_inst_pins k i (hal s)) as [cs h].
  destruct (negb _); intros [_ <-]%Done_inj.
  - eapply keeps0_trans; [apply (keeps0_hal h)|apply keeps0_poison; lia].
  - eapply keeps0_trans; [apply (keeps0_hal h)|]. eapply keeps0_trans; [|apply keeps0_rt].
    apply keeps0_inst. lia.
Qed.

Lemma armed_count_pos s : armed s 0 = true -> interlock_armed_count s <> 0.
Proof.
  intros Ha. unfold interlock_armed_count, slot_ids. cbn [foldl]. rewrite Ha.
  assert (Hmono : forall l n, 0 < n -> n + zlen l <= 255 ->
    0 < foldl (fun n i => if armed s i then u8 (n + 1) else n) n l).
  { induction l as [|i l IH]; intros n Hn Hb; cbn [foldl]; [done|].
    unfold zlen in *. cbn [length] in Hb. destruct (armed s i); apply IH; try lia;
      rewrite u8_id by (unfold fits; lia); lia. }
  pose proof (Hmono [1; 2; 3; 4; 5; 6; 7; 8; 9] (u8 (0 + 1)) ltac:(by vm_compute) ltac:(by vm_compute)) as Hp.
  cbn [foldl] in Hp. lia.
Qed.
End Restore.

(** *** The bus controller's platform *)
#[export] Instance bc_plat_ok roles : @IlPlatOk (bc_plat roles).
Proof.
  intros id m. cbn [il_plat_adc_channel il_plat_pin_cap bc_plat]. unfold bc_adc_channel, bc_pin_cap.
  destruct (is_adc id) eqn:E; [|done]. intros _. unfold is_adc, ADC0_GPIO, ADC_NCH in E.
  unfold is_hil, INTERLOCK_VETO_PIN, INTERLOCK_IN_PIN, HIL_GPIO_BASE, HIL_GPIO_COUNT. bools.
  destruct (Z.eqb_spec id 0); [lia|]. destruct (Z.eqb_spec id 1); [lia|].
  destruct (Z.leb_spec 2 id), (Z.ltb_spec id (2 + 8)); cbn [andb]; try lia; by destruct (m =? _).
Qed.

Lemma gp1_parses : il_parse gp1_il = Some (IL_PARSE_OK, None, gp1_inst).
Proof. vm_compute. reflexivity. Qed.

(** Its claims on a fresh HAL succeed, whatever the hwio roles. *)
Lemma gp1_claims roles ops : exists h,
  @claim_inst_pins (bc_plat roles) 0 gp1_inst (log ops hal0) = (HAL_PIN_CLAIM_OK, h).
Proof. eexists. cbn. reflexivity. Qed.

(** *** Slot 0 through a warm bring-up *)
Section Warm.
Context (roles : list Z) (sp pc : Z).
#[local] Abbreviation plat := (bc_plat roles).

Lemma restore_builtin s sl :
  @il_inv plat 0 s -> hal s = log [GpioInit INTERLOCK_IN_PIN; GpioSetDir INTERLOCK_IN_PIN false; GpioPullUp INTERLOCK_IN_PIN] hal0 ->
  slot_of s 0 = sl -> sl_state sl = INTERLOCK_SLOT_ARMED -> sl_id sl = INTERLOCK_ID_DSL ->
  zget 0 (dsl_len (persist s)) 0 = zlen gp1_il ->
  take (length gp1_il) (zget [] (dsl_text (persist s)) 0) = gp1_il ->
  exists s', @restore_slot plat 0 s = Done tt s' /\ @il_inv plat 1 s' /\ slot_of s' 0 = sl /\
    inst_of s' 0 = gp1_inst /\ dsl_len (persist s') = dsl_len (persist s) /\
    dsl_text (persist s') = dsl_text (persist s) /\ cfg_fingerprint (persist s') = cfg_fingerprint (persist s).
Proof.
  intros Hs Hh Hsl Hst Hid Hlen Htxt.
  destruct (@restore_slot_returns plat (bc_plat_ok roles) 0 ltac:(lia) s Hs) as ([] & s' & E & Hs').
  exists s'. split; [done|]. split; [done|]. pose proof (iv_shape _ _ Hs) as (_ & L2 & _).
  unfold restore_slot in E. cbv zeta in E. rewrite Hsl, Hst, Hid, Hlen in E.
  change (zlen gp1_il) with 107 in E. change (Z.to_nat 107) with (length gp1_il) in E. rewrite Htxt, gp1_parses in E.
  change (negb (INTERLOCK_SLOT_ARMED =? INTERLOCK_SLOT_ARMED)) with false in E.
  change (negb (INTERLOCK_ID_DSL =? INTERLOCK_ID_DSL)) with false in E.
  change ((107 =? 0) || (IL_DSL_MAX <=? 107)) with false in E.
  change (negb (IL_PARSE_OK =? IL_PARSE_OK)) with false in E. rewrite Hh in E.
  destruct (gp1_claims roles [GpioInit INTERLOCK_IN_PIN; GpioSetDir INTERLOCK_IN_PIN false; GpioPullUp INTERLOCK_IN_PIN]) as [h Ec].
  rewrite Ec in E. change (negb (HAL_PIN_CLAIM_OK =? HAL_PIN_CLAIM_OK)) with false in E.
  apply Done_inj in E as [_ <-]. split; [exact Hsl|]. split; [|done].
  unfold inst_of, clear_slot_runtime, set_rt, set_inst, field_map. cbn [persist insts].
  rewrite zget_zset_eq; [done|]. unfold zlen. lia.
Qed.

Lemma warm_restore_keeps0 s s1 :
  @il_inv plat 0 s -> @restore_slot plat 0 s = Done tt s1 -> @il_inv plat 1 s1 ->
  exists s', @interlock_warm_restore plat sp pc s = Done tt s' /\ @il_inv plat 10 s' /\ keeps0 s1 s'.
Proof.
  intros Hs E1 Hs1. unfold interlock_warm_restore, ibind at 1.
  destruct (iv_header _ _ Hs) as (M1 & M2 & M3). unfold verify_persist_or_panic.
  rewrite M1, M2, M3, !Z.eqb_refl. cbn [negb]. unfold slot_ids. cbn [ifor]. unfold ibind at 1. rewrite E1.
  assert (Hall : forall l k s2, @il_inv plat k s2 -> 0 < k -> (forall n i, l !! n = Some i -> i = k + Z.of_nat n) ->
    k + zlen l = 10 -> exists s', ifor l (@restore_slot plat) s2 = Done tt s' /\ @il_inv plat 10 s' /\ keeps0 s2 s').
  { induction l as [|i l IH]; intros k s2 Hs2 Hk Hl Hlen; cbn [ifor].
    - exists s2. split; [done|]. unfold zlen in Hlen. cbn [length] in Hlen. replace 10 with k by lia. done.
    - assert (i = k) as -> by (specialize (Hl 0%nat i eq_refl); lia). unfold zlen in *. cbn [length] in Hlen.
      destruct (@restore_keeps0 plat (bc_plat_ok roles) k s2 ltac:(lia) Hs2) as (s3 & E3 & Hs3 & Hk3).
      destruct (IH (k + 1) s3 Hs3 ltac:(lia)) as (s' & E' & Hs' & Hk').
      + intros n j Hn. specialize (Hl (S n) j Hn). lia.
      + lia.
      + exists s'. unfold ibind. rewrite E3. split; [done|]. split; [done|]. by eapply keeps0_trans. }
  apply (Hall [1; 2; 3; 4; 5; 6; 7; 8; 9] 1 s1 Hs1); [lia| |done].
  intros n i Hn. do 9 (destruct n as [|n]; [cbn in Hn; injection Hn; lia|]). done.
Qed.

Lemma config_unchanged region s :
  cfg_fingerprint (persist s) = interlock_cfg_fingerprint region -> armed s 0 = true ->
  @config_bringup plat sp pc region s = Done tt (s <| ilcf_rc := interlock_armed_count s |>).
Proof.
  intros Hf Ha. unfold config_bringup. cbv zeta. rewrite Hf, Z.eqb_refl.
  destruct (Z.eqb_spec (interlock_armed_count s) 0) as [E|]; [by apply armed_count_pos in E|done].
Qed.
End Warm.

Lemma cold_ram_ok : ram_ok persist_cold_init.
Proof.
  split; [exact (@iv_shape open_plat _ _ (@cold_inv open_plat))|].
  split; apply (bool_decide_unpack _); vm_compute; exact I.
Qed.
Lemma up_state_good : @il_inv open_plat 10 up_state.
Proof.
  destruct (@bringup_returns open_plat 0 0 (bc_plat_ok _) [] 1000 (interlock_boot_decide (il_reset persist_cold_init)))
    as ([] & s & E & Hs); [apply (@boot_inv open_plat), cold_ram_ok|]. unfold up_state. by rewrite E.
Qed.

Lemma request_inv `{IlPlat} k s : il_inv k s -> il_inv k (interlock_request_global_clear s).
Proof. intros [A1 A2 A3 A4 A5 A6 A7 A8]. by split. Qed.
Lemma begin_grace_inv `{IlPlat} k ms s : il_inv k s -> il_inv k (interlock_begin_grace ms s).
Proof. intros [A1 A2 A3 A4 A5 A6 A7 A8]. by split. Qed.
Lemma ilcf_rc_inv `{IlPlat} k n s : il_inv k s -> il_inv k (s <| ilcf_rc := n |>).
Proof. intros [A1 A2 A3 A4 A5 A6 A7 A8]. by split. Qed.

Lemma grace_open mc d : 0 <= d < 250 -> (0 <? s32 (u32 (mc + IL_GRACE_MS) - u32 (mc + d))) = true.
Proof.
  intros Hd. unfold s32. assert (E : u32 (u32 (mc + IL_GRACE_MS) - u32 (mc + d)) = 250 - d).
  { unfold u32. rewrite <- Zminus_mod. replace (mc + IL_GRACE_MS - (mc + d)) with (250 - d) by (unfold IL_GRACE_MS; lia).
    apply Z.mod_small. lia. }
  rewrite E. destruct (Z.ltb_spec (250 - d) (2 ^ 31)); [|lia]. apply Z.ltb_lt. lia.
Qed.

(** ** Properties *)

(** C20. The interlock framework keeps running: whatever the reset-surviving RAM holds,
    whatever configuration is flashed, and whatever calls follow the bring-up (ticks on
    any inputs, arming, disarming and re-arming of slots with any text, clears, status
    reads), nothing panics and nothing loops, and the framework's invariant holds at the
    end: valid header and slots, well-formed interlocks, and a pin table in which every
    output of an armed interlock is claimed by its slot at its levels and every owner
    of a pin is an armed interlock that declares it. *)
Theorem interlock_never_panics `{IlPlat} sp pc p region ms ops :
  IlPlatOk -> ram_ok p -> Forall op_ok ops ->
  exists s, ((interlock_thread2_start sp pc region ms);~ (ifor ops (il_exec sp pc)))
              (interlock_boot_decide (il_reset p)) = Done tt s /\ il_inv 10 s.
Proof.
  intros Hp Hram Hops.
  assert (Hr : returns (il_inv 0) (interlock_thread2_start sp pc region ms;~ ifor ops (il_exec sp pc)) (fun _ => il_inv 10)).
  { eapply returns_bind; [by apply bringup_returns|]. intros []. by apply run_returns. }
  destruct (Hr _ (boot_inv p Hram)) as ([] & s & E & Hs). by exists s.
Qed.
Lemma interlock_never_panics_witness :
  op_ok (OpDisarm 0) /\
  exists s, (@interlock_thread2_start open_plat 0 0 [] 1000;~ ifor ops0 (@il_exec open_plat 0 0))
              (interlock_boot_decide (il_reset persist_cold_init)) = Done tt s /\ @il_inv open_plat 10 s.
Proof.
  split; [vm_compute; discriminate|].
  apply (@interlock_never_panics open_plat 0 0 persist_cold_init [] 1000 ops0 (bc_plat_ok _) cold_ram_ok).
  repeat (constructor; [vm_compute; first [exact I|discriminate]|]). constructor.
Defined.

(** C3. One tick, from any state of the invariant: it returns; every armed interlock's
    state becomes the vote of its watches on this tick's samples; a slot is latched
    afterwards exactly when it tripped outside the grace window or was latched and no
    clear was requested; and every output that an armed interlock declares is driven, once,
    to its error level if some armed interlock on that pin is latched and to its OK
    level otherwise. *)
Theorem tick_latch_veto `{IlPlat} sp pc te s :
  il_inv 10 s ->
  exists s', interlock_tick_all sp pc te s = Done tt s' /\ tick_effect te s s'.
Proof. intros Hs. by apply tick_effect_holds. Qed.
Lemma tick_latch_veto_witness :
  armed up_state 0 = true /\
  exists s', interlock_tick_all 0 0 tick0 up_state = Done tt s' /\ @tick_effect open_plat tick0 up_state s'.
Proof.
  split; [vm_compute; reflexivity|].
  exact (@tick_latch_veto open_plat 0 0 tick0 up_state up_state_good).
Defined.

Lemma tripped_state_good : @il_inv open_plat 10 tripped_state.
Proof.
  destruct (@tick_effect_holds open_plat 0 0 (tick_low 2000) up_state up_state_good) as (s & E & [Hs _ _ _ _ _ _]).
  unfold tripped_state. rewrite E. by apply request_inv.
Qed.


(** ** Boundaries of those guarantees *)

(** Three warm resets keep the trip; at the fourth the boot-loop guard poisons slot 0
    and the bring-up re-arms it at once, with the latch gone. *)
Lemma fourth_warm_boot_drops_trip :
  slot_of (warm_boots 3 tripped_state) 0 = mk_slot INTERLOCK_SLOT_ARMED INTERLOCK_ID_DSL 3 1 /\
  slot_of (warm_boots 4 tripped_state) 0 = mk_slot INTERLOCK_SLOT_ARMED INTERLOCK_ID_DSL 0 0.
Proof. split; vm_compute; reflexivity. Qed.

Lemma config_displaces_builtin :
  armed gp1_taken 1 = true /\ armed gp1_taken 0 = false /\ armfail gp1_taken = 0x05FF03.
Proof. vm_compute. done. Qed.

Lemma summary_misses_latched :
  latched (slot_of recovered_state 0) = 1 /\ tripped recovered_state INTERLOCK_VETO_PIN = true /\
  interlock_summary_flags recovered_state = 0.
Proof. vm_compute. done. Qed.
