(* ===== verification/CflBase.v ===== *)
(** What the engine's components share ([app/bus_controller/engine]): the result
    of code that may raise [EXCEPTION], and the 32-bit build's block sizes. *)
From S2P Require Import Prelude.

Definition BLOCK_ALIGNMENT : Z := 4.
Definition MIN_BLOCK_SIZE : Z := 8.

(** [EXCEPTION(msg)] does not return: [cfl_exception_handler] disables interrupts and
    spins until the watchdog resets the chip. [Endless] is a loop that outlives its fuel. *)
Inductive cfl (A : Type) := Ret (a : A) | EXCEPTION (msg : string) | Endless.
Arguments Ret {A} a.
Arguments EXCEPTION {A} msg.
Arguments Endless {A}.

Definition cbind {A B} (m : cfl A) (f : A -> cfl B) : cfl B :=
  match m with Ret a => f a | EXCEPTION msg => EXCEPTION msg | Endless => Endless end.
(** [if (!p) EXCEPTION(msg);] *)
Definition not_null {A B} (p : option A) (msg : string) (f : A -> cfl B) : cfl B :=
  match p with Some a => f a | None => EXCEPTION msg end.
(** [if (b) EXCEPTION(msg);] *)
Definition raise_if {B} (b : bool) (msg : string) (k : cfl B) : cfl B :=
  if b then EXCEPTION msg else k.

Declare Scope cfl_scope.
Notation "x <- m ;; k" := (cbind m (fun x => k))
  (at level 100, m at next level, right associativity) : cfl_scope.
Notation "'let?' p := e 'or' msg 'in' k" := (not_null e msg%string (fun p => k))
  (at level 10, p name, e at level 100, msg at level 0, k at level 200) : cfl_scope.
Notation "'raise?' b 'with' msg ; k" := (raise_if b msg%string k)
  (at level 10, b at level 100, msg at level 0, k at level 200) : cfl_scope.

(** [m] ends, and if it returns, its result satisfies [P]. *)
Definition ensures {A} (m : cfl A) (P : A -> Prop) : Prop :=
  match m with Ret a => P a | EXCEPTION _ => True | Endless => False end.

(** The smallest multiple of [a] that is at least [x]. *)
Definition ceil_to (a x : Z) : Z := a * ((x + a - 1) / a).

Lemma cbind_Ret {A B} (m : cfl A) (f : A -> cfl B) b :
  cbind m f = Ret b -> exists a, m = Ret a /\ f a = Ret b.
Proof. destruct m; [by eauto|done..]. Qed.
Lemma cbind_assoc {A B C} (m : cfl A) (f : A -> cfl B) (g : B -> cfl C) :
  cbind (cbind m f) g = cbind m (fun x => cbind (f x) g).
Proof. by destruct m. Qed.
Lemma raise_if_Ret {B} b msg (k : cfl B) r : raise_if b msg k = Ret r -> b = false /\ k = Ret r.
Proof. by destruct b. Qed.

Lemma ensures_bind {A B} (m : cfl A) (f : A -> cfl B) P Q :
  ensures m P -> (forall a, P a -> ensures (f a) Q) -> ensures (cbind m f) Q.
Proof. destruct m; cbn; auto. Qed.
Lemma ensures_raise {B} b msg (k : cfl B) Q : (b = false -> ensures k Q) -> ensures (raise_if b msg k) Q.
Proof. destruct b; cbn; auto. Qed.
Lemma ensures_not_null {A B} (p : option A) msg (f : A -> cfl B) Q :
  (forall a, p = Some a -> ensures (f a) Q) -> ensures (not_null p msg f) Q.
Proof. destruct p; cbn; auto. Qed.
Lemma ensures_ends {A} (m : cfl A) P : ensures m P -> m <> Endless.
Proof. by intros H ->. Qed.
Lemma ensures_weaken {A} (m : cfl A) (P Q : A -> Prop) : ensures m P -> (forall a, P a -> Q a) -> ensures m Q.
Proof. destruct m; cbn; auto. Qed.

(** Invert a returning computation through its checks. *)
Ltac cfl_inv :=
  repeat match goal with
  | H : raise_if _ _ _ = Ret _ |- _ => apply raise_if_Ret in H as [? H]
  | H : cbind _ _ = Ret _ |- _ => apply cbind_Ret in H as (? & ? & H)
  | H : Ret _ = Ret _ |- _ => injection H as H
  | H : EXCEPTION _ = Ret _ |- _ => discriminate H
  | H : Endless = Ret _ |- _ => discriminate H
  end.

(** ** Powers of two *)

Lemma land_pred_pow2 a : 0 < a -> Z.land a (a - 1) = 0 -> exists k, 0 <= k /\ a = 2 ^ k.
Proof.
  intros Ha Hl. pose proof (Z.log2_spec a Ha) as [Hlo Hhi]. pose proof (Z.log2_nonneg a) as Hk.
  exists (Z.log2 a). split; [done|]. destruct (Z.eq_dec a (2 ^ Z.log2 a)) as [E|E]; [done|exfalso].
  assert (Z.log2 (a - 1) = Z.log2 a) as E1 by (apply Z.log2_unique; lia).
  assert (Z.testbit (Z.land a (a - 1)) (Z.log2 a) = true) as Hb.
  { rewrite Z.land_spec, Z.bit_log2 by done. rewrite <- E1. rewrite Z.bit_log2 by lia. done. }
  by rewrite Hl, Z.bits_0 in Hb.
Qed.

(** Clearing the low bits rounds down. *)
Lemma land_lnot_pow2 x k : 0 <= k -> Z.land x (Z.lnot (2 ^ k - 1)) = 2 ^ k * (x / 2 ^ k).
Proof.
  intros Hk. rewrite <- Z.ldiff_land. replace (2 ^ k - 1) with (Z.ones k) by (rewrite Z.ones_equiv; lia).
  rewrite Z.ldiff_ones_r by done. rewrite Z.shiftr_div_pow2, Z.shiftl_mul_pow2 by done. lia.
Qed.
Lemma land_u32_r x y : fits 32 x -> Z.land x (u32 y) = Z.land x y.
Proof.
  intros Hx. unfold u32. rewrite <- !Z.land_ones by done.
  rewrite Z.land_comm, <- Z.land_assoc, (Z.land_comm (Z.ones 32)), (Z.land_comm y).
  rewrite Z.land_ones by done. by rewrite Z.mod_small by apply Hx.
Qed.
Lemma land_ones_mod x k : 0 <= k -> Z.land x (2 ^ k - 1) = x mod 2 ^ k.
Proof. intros Hk. rewrite <- Z.land_ones, Z.ones_equiv by done. f_equal. Qed.

Lemma ceil_to_spec a x : 0 < a -> x <= ceil_to a x < x + a /\ ceil_to a x mod a = 0.
Proof.
  intros Ha. unfold ceil_to. pose proof (Z.div_mod (x + a - 1) a ltac:(lia)).
  pose proof (Z.mod_pos_bound (x + a - 1) a Ha). split; [lia|]. rewrite Z.mul_comm. by apply Z.mod_mul; lia.
Qed.
Lemma ceil_to_least a x y : 0 < a -> x <= y -> y mod a = 0 -> ceil_to a x <= y.
Proof.
  intros Ha Hxy Hy. unfold ceil_to. apply Z.mod_divide in Hy as [q ->]; [|lia].
  rewrite (Z.mul_comm q). apply Z.mul_le_mono_nonneg_l; [lia|].
  assert ((x + a - 1) / a < q + 1); [|lia]. apply Z.div_lt_upper_bound; lia.
Qed.
