(* ===== verification/CflPerm.v ===== *)
(** The engine's permanent allocator ([engine/src/cfl_perm.c]): a bump pointer over
    a pool of at most 64 KiB, never freed.

    A [CflPerm *] is an option ([None] is NULL); addresses are 32-bit. *)
From S2P Require Import Prelude CflBase.
#[local] Open Scope cfl_scope.

Definition PERM_MAGIC_NONE : Z := 0.
Definition PERM_MAGIC_CREATE : Z := 0x5045.
Definition PERM_MAGIC_MALLOC : Z := 0x504D.
Definition PERM_ALIGNMENT : Z := BLOCK_ALIGNMENT.
Definition MIN_ALLOC_SIZE : Z := MIN_BLOCK_SIZE.

Record CflPermStats := mk_stats {
  total_allocations : Z; current_used_bytes : Z; peak_used_bytes : Z;
  largest_allocation : Z; smallest_allocation : Z
}.
#[export] Instance eta_stats : Settable CflPermStats := fun s =>
  mk_stats (total_allocations s) (current_used_bytes s) (peak_used_bytes s)
    (largest_allocation s) (smallest_allocation s).
Definition stats0 : CflPermStats := mk_stats 0 0 0 0 0.

(** [pool] is the address of the pool (0 is NULL), [pool_mem] its bytes. *)
Record CflPerm := mk_perm {
  pool : Z; pool_mem : list Z; pool_size : Z; used : Z; perm_magic : Z;
  initialized : bool; owns_pool : bool; stats : CflPermStats
}.
#[export] Instance eta_perm : Settable CflPerm := fun p =>
  mk_perm (pool p) (pool_mem p) (pool_size p) (used p) (perm_magic p) (initialized p)
    (owns_pool p) (stats p).

(** ** Helpers *)
Definition is_power_of_2 (value : Z) : bool := negb (value =? 0) && (Z.land value (value - 1) =? 0).

(** 16-bit: the sum is formed as an int and truncated on return. *)
Definition align_up (value alignment : Z) : cfl Z :=
  raise? (alignment =? 0) || negb (Z.land alignment (alignment - 1) =? 0)
    with "align_up: Alignment must be power of 2";
  Ret (u16 (Z.land (value + alignment - 1) (Z.lnot (u16 (alignment - 1))))).

Definition idx_to_ptr (p : CflPerm) (idx : Z) : cfl Z :=
  raise? pool_size p <=? idx with "idx_to_ptr: Index out of bounds";
  Ret (u32 (pool p + idx)).

Definition update_stats (allocated_size : Z) (p : CflPerm) : CflPerm :=
  p <| stats ::= fun s =>
    let s := s <| total_allocations ::= fun n => u16 (n + 1) |> <| current_used_bytes := used p |> in
    let s := if peak_used_bytes s <? used p then s <| peak_used_bytes := used p |> else s in
    let s := if largest_allocation s <? allocated_size then s <| largest_allocation := allocated_size |> else s in
    if (total_allocations s =? 1) || (allocated_size <? smallest_allocation s)
    then s <| smallest_allocation := allocated_size |> else s |>.

(** ** Lifecycle *)
Definition perm0 : CflPerm := mk_perm 0 [] 0 0 PERM_MAGIC_NONE false false stats0.
Definition cfl_perm_set_instance : CflPerm := perm0.

(** What [malloc] returned is an argument; the bytes of a fresh block are not
    read before they are written. *)
Definition cfl_perm_create (malloced : option Z) : cfl CflPerm :=
  let? _a := malloced or "cfl_perm_create: Failed to allocate memory" in
  Ret (perm0 <| perm_magic := PERM_MAGIC_CREATE |>).

(** The pointers given to [free], in order; [self] is the structure's own address. *)
Definition cfl_perm_destroy (self : Z) (perm : option CflPerm) : cfl (list Z) :=
  let? p := perm or "cfl_perm_destroy: NULL perm pointer" in
  raise? negb (perm_magic p =? PERM_MAGIC_CREATE)
    with "cfl_perm_destroy: wrong destroy path (was not created with cfl_perm_create)";
  Ret ((if owns_pool p && nz (pool p) then [pool p] else []) ++ [self]).

Definition cfl_perm_init (perm : option CflPerm) (buffer buffer_size : Z) : cfl CflPerm :=
  let? p := perm or "cfl_perm_init: NULL perm pointer" in
  raise? buffer =? 0 with "cfl_perm_init: NULL buffer pointer";
  raise? buffer_size <? MIN_ALLOC_SIZE with "cfl_perm_init: Buffer too small";
  Ret (mk_perm buffer (replicate (Z.to_nat buffer_size) 0) buffer_size 0 (perm_magic p) true false stats0).

(** The structure is not cleared: [raw] is what malloc left in it. *)
Definition cfl_perm_malloc_create (raw : CflPerm) (m_struct m_pool : option Z) (size : Z) : cfl CflPerm :=
  let? _a := m_struct or "cfl_perm_malloc_create: Failed to allocate perm structure" in
  let? buf := m_pool or "cfl_perm_malloc_create: Failed to allocate pool memory" in
  p <- cfl_perm_init (Some (raw <| pool := buf |>)) buf size;;
  Ret (p <| perm_magic := PERM_MAGIC_MALLOC |> <| owns_pool := true |>).

Definition cfl_perm_malloc_destroy (self : Z) (perm : option CflPerm) : cfl (list Z) :=
  let? p := perm or "cfl_perm_malloc_destroy: NULL perm pointer" in
  raise? negb (perm_magic p =? PERM_MAGIC_MALLOC)
    with "cfl_perm_malloc_destroy: wrong destroy path (was not created with cfl_perm_malloc_create)";
  Ret ((if nz (pool p) then [pool p] else []) ++ [self]).

Definition cfl_perm_reset (perm : option CflPerm) : cfl CflPerm :=
  let? p := perm or "cfl_perm_reset: NULL perm pointer" in
  raise? pool p =? 0 with "cfl_perm_reset: NULL pool pointer";
  Ret (mk_perm (pool p) (replicate (Z.to_nat (pool_size p)) 0) (pool_size p) 0 (perm_magic p) true
         (owns_pool p) stats0).

(** ** Allocation *)
Definition cfl_perm_alloc_aligned (perm : option CflPerm) (size_bytes alignment : Z) : cfl (Z * CflPerm) :=
  let? p := perm or "cfl_perm_alloc_aligned: NULL perm pointer" in
  raise? negb (initialized p) with "cfl_perm_alloc_aligned: Allocator not initialized";
  raise? size_bytes =? 0 with "cfl_perm_alloc_aligned: Zero size allocation";
  raise? (alignment =? 0) || negb (is_power_of_2 alignment)
    with "cfl_perm_alloc_aligned: Alignment must be power of 2";
  size_bytes <- align_up size_bytes PERM_ALIGNMENT;;
  let size_bytes := if size_bytes <? MIN_ALLOC_SIZE then MIN_ALLOC_SIZE else size_bytes in
  let current_addr := u32 (pool p + used p) in
  let aligned_addr := Z.land (u32 (current_addr + (alignment - 1))) (u32 (Z.lnot (alignment - 1))) in
  let padding := u16 (aligned_addr - current_addr) in
  let total_needed := u16 (padding + size_bytes) in
  raise? pool_size p <? used p + total_needed with "cfl_perm_alloc_aligned: Out of memory";
  let ret_idx := u16 (used p + padding) in
  Ret (ret_idx, update_stats size_bytes (p <| used ::= fun u => u16 (u + total_needed) |>)).
Definition cfl_perm_alloc (perm : option CflPerm) (size_bytes : Z) : cfl (Z * CflPerm) :=
  cfl_perm_alloc_aligned perm size_bytes PERM_ALIGNMENT.

Definition cfl_perm_alloc_pointer_aligned (perm : option CflPerm) (size_bytes alignment : Z) : cfl (Z * CflPerm) :=
  r <- cfl_perm_alloc_aligned perm size_bytes alignment;;
  ptr <- idx_to_ptr r.2 r.1;; Ret (ptr, r.2).
Definition cfl_perm_alloc_pointer (perm : option CflPerm) (size_bytes : Z) : cfl (Z * CflPerm) :=
  r <- cfl_perm_alloc perm size_bytes;;
  ptr <- idx_to_ptr r.2 r.1;; Ret (ptr, r.2).

(** ** Conversion and diagnostics *)
Definition cfl_perm_ptr (perm : option CflPerm) (idx : Z) : cfl Z :=
  let? p := perm or "cfl_perm_ptr: NULL perm pointer" in
  raise? negb (initialized p) with "cfl_perm_ptr: Allocator not initialized";
  idx_to_ptr p idx.
Definition cfl_perm_ptr_to_idx (perm : option CflPerm) (ptr : Z) : cfl Z :=
  let? p := perm or "cfl_perm_ptr_to_idx: NULL perm pointer" in
  raise? negb (initialized p) with "cfl_perm_ptr_to_idx: Allocator not initialized";
  raise? ptr =? 0 with "cfl_perm_ptr_to_idx: NULL pointer";
  raise? (ptr <? pool p) || (u32 (pool p + pool_size p) <=? ptr)
    with "cfl_perm_ptr_to_idx: Pointer out of bounds";
  Ret (u16 (ptr - pool p)).

Definition cfl_perm_used_bytes (perm : option CflPerm) : Z :=
  match perm with Some p => if initialized p then used p else 0 | None => 0 end.
Definition cfl_perm_free_bytes (perm : option CflPerm) : Z :=
  match perm with Some p => if initialized p then u16 (pool_size p - used p) else 0 | None => 0 end.
Definition cfl_perm_get_stats (perm : option CflPerm) : cfl CflPermStats :=
  match perm with
  | Some p => if initialized p then Ret (stats p) else EXCEPTION "cfl_perm_get_stats: Invalid parameters"
  | None => EXCEPTION "cfl_perm_get_stats: Invalid parameters"
  end.
Definition cfl_perm_validate (perm : option CflPerm) : bool :=
  match perm with
  | Some p =>
      if negb (initialized p) then false
      else if pool_size p <? used p then false
      else if negb (current_used_bytes (stats p) =? used p) then false
      else if peak_used_bytes (stats p) <? used p then false
      else true
  | None => false
  end.

(** ** Specification *)

(** A sequence of allocations: the indices returned, and the allocator. *)
Fixpoint allocs (p : CflPerm) (reqs : list (Z * Z)) : cfl (list Z * CflPerm) :=
  match reqs with
  | [] => Ret ([], p)
  | r :: reqs =>
      a <- cfl_perm_alloc_aligned (Some p) r.1 r.2;;
      b <- allocs a.2 reqs;; Ret (a.1 :: b.1, b.2)
  end.

(** The bytes a request takes. *)
Definition rounded (size : Z) : Z := Z.max MIN_ALLOC_SIZE (ceil_to PERM_ALIGNMENT size).

(** A request the 16-bit sums can hold: a nonzero size, a power of two. *)
Definition req_ok (r : Z * Z) : Prop := 0 < r.1 /\ 0 < r.2 /\ is_power_of_2 r.2 = true /\ r.1 + r.2 <= 65533.
#[export] Instance req_ok_dec r : Decision (req_ok r).
Proof. unfold req_ok. apply _. Defined.

Definition perm_ok (p : CflPerm) : Prop :=
  cfl_perm_validate (Some p) = true /\ 0 < pool p /\ pool p + 2 ^ 17 <= 2 ^ 32 /\
  0 <= used p /\ fits 16 (pool_size p).

(** Where the blocks of [reqs] lie: in the pool behind [from], aligned, each behind
    the ones before. *)
Definition layout (base size from : Z) (reqs : list (Z * Z)) (idxs : list Z) : Prop :=
  length idxs = length reqs /\
  (forall i idx r, idxs !! i = Some idx -> reqs !! i = Some r ->
    from <= idx /\ idx + rounded r.1 <= size /\ (base + idx) mod r.2 = 0) /\
  (forall i j a b r, (i < j)%nat -> idxs !! i = Some a -> reqs !! i = Some r -> idxs !! j = Some b ->
    a + rounded r.1 <= b).
(** No place for [r] at or behind [from]. *)
Definition no_room (base size from : Z) (r : Z * Z) : Prop :=
  forall idx, from <= idx -> (base + idx) mod r.2 = 0 -> size < idx + rounded r.1.

Definition example_perm : CflPerm := match cfl_perm_init (Some cfl_perm_set_instance) 0x20000002 256 with
  Ret p => p | _ => cfl_perm_set_instance end.

(** ** Lemmas *)

Lemma is_power_of_2_inv a : 0 < a -> is_power_of_2 a = true -> exists k, 0 <= k /\ a = 2 ^ k.
Proof. unfold is_power_of_2. intros Ha H. bools. by apply land_pred_pow2. Qed.

Lemma pow2_16_bound a : 0 < a -> is_power_of_2 a = true -> a < 2 ^ 16 -> a <= 2 ^ 15.
Proof.
  intros Ha Hp Hb. apply is_power_of_2_inv in Hp as (k & Hk & ->); [|done].
  apply Z.pow_lt_mono_r_iff in Hb; [|lia..]. apply Z.pow_le_mono_r; lia.
Qed.

Lemma align_up_ok size : 0 < size <= 65532 -> align_up size PERM_ALIGNMENT = Ret (ceil_to 4 size).
Proof.
  intros Hs. transitivity (Ret (u16 (Z.land (size + 4 - 1) (Z.lnot (2 ^ 2 - 1))))); [done|].
  rewrite land_lnot_pow2 by lia. change (2 ^ 2 * ((size + 4 - 1) / 2 ^ 2)) with (ceil_to 4 size).
  destruct (ceil_to_spec 4 size ltac:(lia)) as [H1 H2].
  f_equal. apply u16_id. unfold fits. Z.to_euclidean_division_equations. lia.
Qed.

Lemma aligned_addr_ok x a : 0 < a -> is_power_of_2 a = true -> 0 <= x -> x + a < 2 ^ 32 ->
  Z.land (u32 (x + (a - 1))) (u32 (Z.lnot (a - 1))) = ceil_to a x.
Proof.
  intros Ha Hp Hx Hb. apply is_power_of_2_inv in Hp as (k & Hk & ->); [|done].
  rewrite land_u32_r by apply u32_fits. rewrite u32_id by (unfold fits; lia).
  rewrite land_lnot_pow2 by done. unfold ceil_to. do 2 f_equal. lia.
Qed.

Lemma rounded_bound size : 0 < size -> size <= rounded size <= Z.max 8 (size + 3).
Proof.
  intros Hs. unfold rounded. change MIN_ALLOC_SIZE with 8. change PERM_ALIGNMENT with 4.
  destruct (ceil_to_spec 4 size ltac:(lia)) as [H _]. lia.
Qed.

(** One allocation: the first aligned address behind the blocks in use, or no memory. *)
Lemma alloc_aligned_spec p r : perm_ok p -> req_ok r ->
  let at_ := ceil_to r.2 (pool p + used p) - pool p in
  cfl_perm_alloc_aligned (Some p) r.1 r.2 =
    if pool_size p <? at_ + rounded r.1 then EXCEPTION "cfl_perm_alloc_aligned: Out of memory"
    else Ret (at_, update_stats (rounded r.1) (p <| used := at_ + rounded r.1 |>)).
Proof.
  destruct r as [size a]. intros (Hv & H0 & Htop & Hu & Hsz) (Hs & Ha & Hpow & Hsum) at_. cbn [fst snd] in *.
  unfold cfl_perm_validate in Hv. destruct (initialized p) eqn:Hi; [cbn [negb] in Hv|done].
  destruct (pool_size p <? used p) eqn:Hup; [done|]. bools. unfold fits in Hsz. change (2 ^ 16) with 65536 in Hsz.
  unfold cfl_perm_alloc_aligned. cbn [not_null]. rewrite Hi, Hpow. cbn [negb raise_if].
  rewrite (proj2 (Z.eqb_neq size 0)), (proj2 (Z.eqb_neq a 0)) by lia. cbn [orb raise_if].
  rewrite align_up_ok by lia. cbn [cbind].
  assert ((if ceil_to 4 size <? MIN_ALLOC_SIZE then MIN_ALLOC_SIZE else ceil_to 4 size) = rounded size) as ->.
  { unfold rounded. change PERM_ALIGNMENT with 4. destruct (Z.ltb_spec (ceil_to 4 size) MIN_ALLOC_SIZE); lia. }
  rewrite (u32_id (pool p + used p)) by (unfold fits; lia).
  rewrite aligned_addr_ok by (done || lia).
  destruct (ceil_to_spec a (pool p + used p) Ha) as [Hc _].
  pose proof (rounded_bound size Hs) as Hr. pose proof (pow2_16_bound a Ha Hpow ltac:(lia)) as Ha15.
  assert (ceil_to a (pool p + used p) = pool p + at_) as Eat by (unfold at_; lia).
  rewrite Eat. replace (pool p + at_ - (pool p + used p)) with (at_ - used p) by lia.
  rewrite (u16_id (at_ - used p)) by (unfold fits; lia).
  rewrite (u16_id (at_ - used p + rounded size)) by (unfold fits; lia).
  replace (used p + (at_ - used p + rounded size)) with (at_ + rounded size) by lia.
  destruct (Z.ltb_spec (pool_size p) (at_ + rounded size)); [done|]. cbn [raise_if].
  rewrite u16_id by (unfold fits; lia). f_equal. f_equal; [lia|]. f_equal.
  unfold field_map. f_equal. rewrite u16_id by (unfold fits; lia). lia.
Qed.

Lemma update_stats_used n p :
  current_used_bytes (stats (update_stats n p)) = used p /\ used p <= peak_used_bytes (stats (update_stats n p)).
Proof.
  unfold update_stats. destruct p as [? ? ? u ? ? ? [? ? pk lg sm]]. usimpl.
  destruct (Z.ltb_spec pk u); usimpl; destruct (Z.ltb_spec lg n); usimpl; destruct (_ || _); usimpl; lia.
Qed.

Lemma alloc_keeps_ok p r at_ : perm_ok p -> req_ok r -> used p <= at_ -> at_ + rounded r.1 <= pool_size p ->
  perm_ok (update_stats (rounded r.1) (p <| used := at_ + rounded r.1 |>)).
Proof.
  intros (Hv & H0 & Htop & Hu & Hsz) (Hs & _) Hat Hfit. pose proof (rounded_bound _ Hs) as Hr.
  set (q := p <| used := _ |>). destruct (update_stats_used (rounded r.1) q) as [Ec Ep].
  split; [|split; [done|split; [done|split; [cbn; lia|done]]]].
  unfold cfl_perm_validate. change (used (update_stats (rounded r.1) q)) with (used q). rewrite Ec, Z.eqb_refl.
  rewrite (proj2 (Z.ltb_ge (peak_used_bytes _) _)) by done. cbn [initialized update_stats field_map].
  unfold cfl_perm_validate in Hv. destruct p as [? ? ? ? ? i ? ?]. cbn in Hv |- *. destruct i; [|done]. cbn.
  cbn in Hfit. by rewrite (proj2 (Z.ltb_ge _ _)) by lia.
Qed.

Lemma allocs_layout reqs : forall p, perm_ok p -> Forall req_ok reqs ->
  match allocs p reqs with
  | Ret (idxs, q) => cfl_perm_validate (Some q) = true /\ layout (pool p) (pool_size p) (used p) reqs idxs
  | EXCEPTION msg => msg = "cfl_perm_alloc_aligned: Out of memory"%string /\
      exists pre r post idxs q, reqs = pre ++ r :: post /\ allocs p pre = Ret (idxs, q) /\
        no_room (pool p) (pool_size p) (used q) r
  | Endless => False
  end.
Proof.
  induction reqs as [|r reqs IH]; intros p Hp Hreqs.
  { split; [apply Hp|]. repeat split; intros *; by rewrite ?lookup_nil. }
  apply Forall_cons in Hreqs as [Hr Hreqs]. cbn [allocs]. rewrite alloc_aligned_spec by done.
  pose proof Hr as (Hs & Ha & _). destruct (ceil_to_spec r.2 (pool p + used p) Ha) as [Hc Hm].
  set (at_ := ceil_to r.2 (pool p + used p) - pool p) in *.
  destruct (Z.ltb_spec (pool_size p) (at_ + rounded r.1)) as [Hout|Hfit]; cbn [cbind].
  { split; [done|]. exists [], r, reqs, [], p. repeat split; try done. intros idx Hi Hal.
    pose proof (ceil_to_least r.2 (pool p + used p) (pool p + idx) Ha ltac:(lia) Hal). lia. }
  cbn [fst snd]. set (q := update_stats _ _).
  assert (perm_ok q) as Hq by (apply alloc_keeps_ok; (done || lia)).
  assert (pool q = pool p /\ pool_size q = pool_size p /\ used q = at_ + rounded r.1) as (Eb & Es & Eu) by done.
  specialize (IH q Hq Hreqs). rewrite Eb, Es in IH. pose proof (rounded_bound _ Hs) as Hrb.
  destruct (allocs q reqs) as [[idxs q']|msg|]; cbn [cbind fst snd]; [|destruct IH as (-> & pre & r' & post & js & q' & -> & E & H)|done].
  - destruct IH as (Hv & Hlen & Hin & Hord). split; [done|]. rewrite Eu in Hin. split; [cbn; lia|]. split.
    + intros [|i] idx r' Hi Hr'; cbn in Hi, Hr'.
      * injection Hi as <-. injection Hr' as <-. repeat split; [lia..|]. by replace (pool p + at_) with (ceil_to r.2 (pool p + used p)) by (unfold at_; lia).
      * destruct (Hin _ _ _ Hi Hr'). split; [lia|done].
    + intros [|i] [|j] a b r' Hij Hi Hr' Hj; [lia| |lia|]; cbn in Hi, Hr', Hj.
      * injection Hi as <-. injection Hr' as <-. destruct (lookup_lt_is_Some_2 reqs j) as [r0 Hr0]; [apply lookup_lt_Some in Hj; lia|].
        by destruct (Hin _ _ _ Hj Hr0).
      * eapply (Hord i j); [lia|done..].
  - split; [done|]. exists (r :: pre), r', post, (at_ :: js), q'. split; [done|]. split; [|done].
    cbn [allocs]. rewrite alloc_aligned_spec by done. fold at_.
    rewrite (proj2 (Z.ltb_ge _ _)) by lia. cbn [cbind fst snd]. fold q. by rewrite E.
Qed.

(** A request of 65533 bytes or more rounds up past the 16-bit size: 8 bytes are reserved. *)
Lemma alloc_size_wraps : exists q, cfl_perm_alloc (Some example_perm) 65535 = Ret (2, q) /\ used q = 10.
Proof. eexists. split; [vm_compute; reflexivity|done]. Qed.

Lemma init_ok perm p base size :
  cfl_perm_init perm base size = Ret p -> 0 < base -> base + 2 ^ 17 <= 2 ^ 32 -> fits 16 size ->
  perm_ok p /\ pool p = base /\ pool_size p = size /\ used p = 0.
Proof.
  intros Hinit Hb Htop Hsz. unfold cfl_perm_init in Hinit. destruct perm as [p0|]; [|done]. cbn [not_null] in Hinit.
  apply raise_if_Ret in Hinit as [_ Hinit]. apply raise_if_Ret in Hinit as [_ Hinit]. injection Hinit as <-.
  repeat split; try done; [|apply Hsz..]. unfold cfl_perm_validate.
  cbn [initialized pool_size used stats negb stats0 current_used_bytes peak_used_bytes].
  by rewrite (proj2 (Z.ltb_ge _ _)) by apply Hsz.
Qed.

(** ** Property *)

(** From initialisation on, whatever sizes and alignments are asked for, each as
    long as the 16-bit sums can hold it: the blocks handed out lie inside the pool, at
    the alignment asked for, behind each other without overlap, every one at least as
    long as asked, and the allocator passes its own validation. The only way to fail is
    [EXCEPTION] "Out of memory", at a request for which the rest of the pool has no
    place. *)
Theorem perm_alloc_disjoint perm p base size reqs :
  cfl_perm_init perm base size = Ret p -> 0 < base -> base + 2 ^ 17 <= 2 ^ 32 -> fits 16 size ->
  Forall req_ok reqs ->
  match allocs p reqs with
  | Ret (idxs, q) => cfl_perm_validate (Some q) = true /\ layout base size 0 reqs idxs /\
      Forall (fun r => r.1 <= rounded r.1) reqs
  | EXCEPTION msg => msg = "cfl_perm_alloc_aligned: Out of memory"%string /\
      exists pre r post idxs q, reqs = pre ++ r :: post /\ allocs p pre = Ret (idxs, q) /\
        no_room base size (used q) r
  | Endless => False
  end.
Proof.
  intros Hinit Hb Htop Hsz Hreqs. destruct (init_ok _ _ _ _ Hinit Hb Htop Hsz) as (Hp & <- & <- & Hu).
  pose proof (allocs_layout reqs p Hp Hreqs) as Hl. rewrite Hu in Hl.
  destruct (allocs p reqs) as [[idxs q]|msg|]; [|exact Hl..]. destruct Hl as [Hv Hl].
  split; [exact Hv|]. split; [exact Hl|].
  eapply Forall_impl; [exact Hreqs|]. intros r (Hs & _). apply (rounded_bound _ Hs).
Qed.

Lemma perm_alloc_disjoint_witness :
  (exists q, allocs example_perm [(5, 4); (20, 16); (1, 2)] = Ret ([2; 14; 34], q)) /\
  match allocs example_perm [(5, 4); (20, 16); (1, 2)] with
  | Ret (idxs, q) => cfl_perm_validate (Some q) = true /\ layout 0x20000002 256 0 [(5, 4); (20, 16); (1, 2)] idxs /\
      Forall (fun r => r.1 <= rounded r.1) [(5, 4); (20, 16); (1, 2)]
  | EXCEPTION msg => msg = "cfl_perm_alloc_aligned: Out of memory"%string /\
      exists pre r post idxs q, [(5, 4); (20, 16); (1, 2)] = pre ++ r :: post /\ allocs example_perm pre = Ret (idxs, q) /\
        no_room 0x20000002 256 (used q) r
  | Endless => False
  end.
Proof.
  split; [eexists; vm_compute; reflexivity|].
  apply (perm_alloc_disjoint (Some cfl_perm_set_instance)); [vm_compute; reflexivity|done|done|vm_decide|vm_decide].
Defined.
