(* ===== verification/CflHeap.v ===== *)
(** The engine's heap ([engine/src/cfl_heap.c]): a first-fit allocator whose block
    headers and footers live in the pool itself. The pool is its bytes; a block is
    named by the offset of its header.

    A block is [magic size flags node_id padding], 16 bits each, then [size] data
    bytes (of which the first [padding] are unused), then the footer magic. *)
From S2P Require Import Prelude CflBase.
From S2P Require Import CflPerm.
#[local] Open Scope cfl_scope.

Definition INVALID_HEAP_IDX : Z := 0xFFFF.
Definition NODE_ID_NONE : Z := 0xFFFF.
Definition BLOCK_MAGIC_FREE : Z := 0xF2EE.
Definition BLOCK_MAGIC_ALLOC : Z := 0xA10C.
Definition BLOCK_FOOTER_MAGIC : Z := 0xF007.
Definition HEADER_SIZE : Z := 10.
Definition FOOTER_SIZE : Z := 2.
Definition FLAG_ALLOCATED : Z := 1.
Definition sizeof_CflHeap : Z := 24.

(** ** The pool as bytes, 16-bit fields little-endian *)
Definition read16 (m : list Z) (i : Z) : Z := le16 (zget 0 m i) (zget 0 m (i + 1)).
Definition write16 (m : list Z) (i v : Z) : list Z := zset (zset m i (lo8 v)) (i + 1) (hi8 v).

Definition magic (m : list Z) (block : Z) : Z := read16 m block.
Definition size (m : list Z) (block : Z) : Z := read16 m (block + 2).
Definition flags (m : list Z) (block : Z) : Z := read16 m (block + 4).
Definition node_id (m : list Z) (block : Z) : Z := read16 m (block + 6).
Definition padding (m : list Z) (block : Z) : Z := read16 m (block + 8).
Definition set_magic (m : list Z) (block v : Z) : list Z := write16 m block v.
Definition set_size (m : list Z) (block v : Z) : list Z := write16 m (block + 2) v.
Definition set_flags (m : list Z) (block v : Z) : list Z := write16 m (block + 4) v.
Definition set_node_id (m : list Z) (block v : Z) : list Z := write16 m (block + 6) v.
Definition set_padding (m : list Z) (block v : Z) : list Z := write16 m (block + 8) v.

Record CflHeapStats := mk_heap_stats {
  hs_total_allocations : Z; hs_total_frees : Z; hs_current_blocks : Z; hs_current_used_bytes : Z;
  hs_peak_used_bytes : Z; hs_largest_free_block : Z; hs_free_blocks : Z; hs_allocated_blocks : Z
}.
#[export] Instance eta_heap_stats : Settable CflHeapStats := fun s =>
  mk_heap_stats (hs_total_allocations s) (hs_total_frees s) (hs_current_blocks s) (hs_current_used_bytes s)
    (hs_peak_used_bytes s) (hs_largest_free_block s) (hs_free_blocks s) (hs_allocated_blocks s).
Definition heap_stats0 : CflHeapStats := mk_heap_stats 0 0 0 0 0 0 0 0.

(** [h_pool] is the pool's address, [h_mem] its bytes. *)
Record CflHeap := mk_heap {
  h_pool : Z; h_mem : list Z; h_size : Z; h_initialized : bool; h_owns_pool : bool; h_stats : CflHeapStats
}.
#[export] Instance eta_heap : Settable CflHeap := fun h =>
  mk_heap (h_pool h) (h_mem h) (h_size h) (h_initialized h) (h_owns_pool h) (h_stats h).

(** ** Internal helpers *)
Definition heap_align_up (value alignment : Z) : cfl Z :=
  raise? (alignment =? 0) || negb (Z.land alignment (alignment - 1) =? 0)
    with "align_up: Alignment must be power of 2";
  Ret (u16 (Z.land (value + alignment - 1) (Z.lnot (alignment - 1)))).
Definition heap_is_power_of_2 (value : Z) : bool := negb (value =? 0) && (Z.land value (value - 1) =? 0).

Definition is_allocated (m : list Z) (block : Z) : bool := nz (Z.land (flags m block) FLAG_ALLOCATED).
Definition set_footer (m : list Z) (block : Z) : list Z :=
  write16 m (block + HEADER_SIZE + size m block) BLOCK_FOOTER_MAGIC.
Definition mark_allocated (m : list Z) (block id : Z) : list Z :=
  let m := set_flags m block (Z.lor (flags m block) FLAG_ALLOCATED) in
  let m := set_magic m block BLOCK_MAGIC_ALLOC in
  set_node_id m block id.
Definition mark_free (m : list Z) (block : Z) : list Z :=
  let m := set_flags m block (u16 (Z.land (flags m block) (Z.lnot FLAG_ALLOCATED))) in
  let m := set_magic m block BLOCK_MAGIC_FREE in
  set_node_id m block NODE_ID_NONE.
Definition validate_block (m : list Z) (block : Z) : bool :=
  if negb (magic m block =? BLOCK_MAGIC_FREE) && negb (magic m block =? BLOCK_MAGIC_ALLOC) then false
  else read16 m (block + HEADER_SIZE + size m block) =? BLOCK_FOOTER_MAGIC.
Definition get_next_block (h : CflHeap) (block : Z) : option Z :=
  let ptr := block + HEADER_SIZE + size (h_mem h) block + FOOTER_SIZE in
  if h_size h <=? ptr then None else Some ptr.
Definition ptr_to_idx (h : CflHeap) (ptr : Z) : cfl Z :=
  raise? ptr =? 0 with "ptr_to_idx: NULL pointer";
  Ret (u16 (ptr - h_pool h)).
Definition heap_idx_to_ptr (h : CflHeap) (idx : Z) : cfl Z :=
  raise? h_size h <=? idx with "idx_to_ptr: Index out of bounds";
  Ret (h_pool h + idx).
Definition block_to_data_ptr (m : list Z) (block : Z) : Z := block + HEADER_SIZE + padding m block.

(** [block = pool; while (block != NULL) { ...; block = get_next_block(heap, block); }],
    for a body that leaves the pool alone: the blocks it visits. [walk_complete] shows
    that the fuel never ends a walk. *)
Fixpoint walk_from (fuel : nat) (h : CflHeap) (block : Z) : list Z :=
  match fuel with
  | O => []
  | S fuel => block :: match get_next_block h block with Some next => walk_from fuel h next | None => [] end
  end.
Definition walk_fuel (h : CflHeap) (block : Z) : nat := S (Z.to_nat ((h_size h - block) / 12)).
Definition walk (h : CflHeap) : list Z := walk_from (walk_fuel h 0) h 0.

(** ** Statistics and coalescing *)
Record heap_sums := mk_sums { su_used : Z; su_free : Z; su_alloc : Z; su_largest : Z; su_total : Z }.
Definition heap_update_stats (h : CflHeap) : CflHeap :=
  let m := h_mem h in
  let s := fold_left (fun s block =>
      if is_allocated m block
      then mk_sums (u16 (su_used s + (HEADER_SIZE + size m block + FOOTER_SIZE))) (su_free s)
             (u16 (su_alloc s + 1)) (su_largest s) (u16 (su_total s + 1))
      else mk_sums (su_used s) (u16 (su_free s + 1)) (su_alloc s)
             (if su_largest s <? size m block then size m block else su_largest s) (u16 (su_total s + 1)))
    (walk h) (mk_sums 0 0 0 0 0) in
  h <| h_stats ::= fun st =>
    mk_heap_stats (hs_total_allocations st) (hs_total_frees st) (su_total s) (su_used s)
      (if hs_peak_used_bytes st <? su_used s then su_used s else hs_peak_used_bytes st)
      (su_largest s) (su_free s) (su_alloc s) |>.

Definition merge_mem (m : list Z) (block next : Z) : list Z :=
  let m := set_size m block (u16 (size m block + (HEADER_SIZE + size m next + FOOTER_SIZE))) in
  let m := set_padding m block 0 in
  set_footer m block.
(** [None] when the loop outlives its fuel. *)
Fixpoint coalesce_loop (fuel : nat) (h : CflHeap) (block : Z) : option CflHeap :=
  match fuel with
  | O => None
  | S fuel =>
      let m := h_mem h in
      match get_next_block h block with
      | Some next =>
          if negb (is_allocated m block) && negb (is_allocated m next) then
            coalesce_loop fuel (h <| h_mem := merge_mem m block next |>) block
          else coalesce_loop fuel h next
      | None => Some h
      end
  end.
Definition coalesce_free_blocks (h : CflHeap) : cfl CflHeap :=
  match coalesce_loop (walk_fuel h 0) h 0 with Some h => Ret h | None => Endless end.

(** ** Lifecycle *)
Definition write_free_block (m : list Z) (block sz : Z) : list Z :=
  let m := set_magic m block BLOCK_MAGIC_FREE in
  let m := set_size m block sz in
  let m := set_flags m block 0 in
  let m := set_node_id m block NODE_ID_NONE in
  let m := set_padding m block 0 in
  set_footer m block.

(** The pool of [n] bytes at [addr] as one free block. *)
Definition heap_fresh (addr n : Z) (owns : bool) : CflHeap :=
  let m := replicate (Z.to_nat n) 0 in
  let m := write_free_block m 0 (u16 (n - HEADER_SIZE - FOOTER_SIZE)) in
  heap_update_stats (mk_heap addr m n true owns heap_stats0).

Definition cfl_heap_init (perm : option CflPerm) (buffer_size : Z) : cfl (CflHeap * CflPerm) :=
  let? _p := perm or "cfl_heap_init: NULL perm pointer" in
  raise? buffer_size <? HEADER_SIZE + MIN_BLOCK_SIZE + FOOTER_SIZE with "cfl_heap_init: Buffer too small";
  a <- cfl_perm_alloc_pointer perm sizeof_CflHeap;;
  b <- cfl_perm_alloc_pointer (Some a.2) buffer_size;;
  Ret (heap_fresh b.1 buffer_size false, b.2).

Definition cfl_heap_reset (heap : option CflHeap) : cfl CflHeap :=
  let? h := heap or "cfl_heap_reset: NULL heap pointer" in
  raise? h_pool h =? 0 with "cfl_heap_reset: NULL pool pointer";
  Ret (heap_fresh (h_pool h) (h_size h) (h_owns_pool h)).

(** ** Allocation *)

(** The padding that aligns the data of [block]. *)
Definition align_padding (h : CflHeap) (block alignment : Z) : Z :=
  let data_addr := u32 (h_pool h + block + HEADER_SIZE) in
  let aligned_addr := Z.land (u32 (data_addr + alignment - 1)) (u32 (Z.lnot (alignment - 1))) in
  u16 (aligned_addr - data_addr).

(** The body of the loop for the first block that fits: the writes to the pool, and all of it. *)
Definition take_mem (m : list Z) (block id pad total_needed : Z) : list Z :=
  let remainder := u16 (size m block - total_needed) in
  let m :=
    if HEADER_SIZE + MIN_BLOCK_SIZE + FOOTER_SIZE <=? remainder then
      let new_block := block + HEADER_SIZE + total_needed + FOOTER_SIZE in
      let m := write_free_block m new_block (u16 (remainder - HEADER_SIZE - FOOTER_SIZE)) in
      set_size m block total_needed
    else m in
  let m := set_padding m block pad in
  let m := mark_allocated m block id in
  set_footer m block.
Definition take_block (h : CflHeap) (block id pad total_needed : Z) : CflHeap :=
  let m := take_mem (h_mem h) block id pad total_needed in
  heap_update_stats (h <| h_mem := m |> <| h_stats ::= fun s => s <| hs_total_allocations ::= fun n => u16 (n + 1) |> |>).

Fixpoint alloc_loop (h : CflHeap) (blocks : list Z) (id size_bytes alignment : Z) : cfl (Z * CflHeap) :=
  match blocks with
  | [] => EXCEPTION "cfl_heap_arena_alloc_aligned: Out of memory"
  | block :: blocks =>
      let m := h_mem h in
      raise? negb (validate_block m block) with "cfl_heap_arena_alloc_aligned: Heap corruption detected";
      if is_allocated m block then alloc_loop h blocks id size_bytes alignment
      else
        let pad := align_padding h block alignment in
        let total_needed := u16 (pad + size_bytes) in
        if total_needed <=? size m block then
          let data_addr := u32 (h_pool h + block + HEADER_SIZE) in
          let aligned_addr := Z.land (u32 (data_addr + alignment - 1)) (u32 (Z.lnot (alignment - 1))) in
          let h := take_block h block id pad total_needed in
          idx <- ptr_to_idx h aligned_addr;;
          Ret (idx, h)
        else alloc_loop h blocks id size_bytes alignment
  end.

Definition cfl_heap_arena_alloc_aligned (heap : option CflHeap) (requesting_node_id size_bytes alignment : Z) :
    cfl (Z * CflHeap) :=
  let? h := heap or "cfl_heap_arena_alloc_aligned: NULL heap pointer" in
  raise? negb (h_initialized h) with "cfl_heap_arena_alloc_aligned: Heap not initialized";
  raise? size_bytes =? 0 with "cfl_heap_arena_alloc_aligned: Zero size allocation";
  raise? (alignment =? 0) || negb (heap_is_power_of_2 alignment)
    with "cfl_heap_arena_alloc_aligned: Alignment must be power of 2";
  size_bytes <- heap_align_up size_bytes BLOCK_ALIGNMENT;;
  let size_bytes := if size_bytes <? MIN_BLOCK_SIZE then MIN_BLOCK_SIZE else size_bytes in
  alloc_loop h (walk h) requesting_node_id size_bytes alignment.

Definition cfl_heap_malloc (heap : option CflHeap) (size_bytes : Z) : cfl (Z * CflHeap) :=
  cfl_heap_arena_alloc_aligned heap NODE_ID_NONE size_bytes BLOCK_ALIGNMENT.

(** ** Free *)

(** [ptr >= block_data && ptr < block_end], as offsets into the pool. *)
Definition holds_data (m : list Z) (idx block : Z) : bool :=
  let block_data := block_to_data_ptr m block in
  let block_end := block_data + (size m block - padding m block) in
  (block_data <=? idx) && (idx <? block_end).

Definition free_mem (m : list Z) (block : Z) : list Z :=
  let m := mark_free m block in
  let m := set_padding m block 0 in
  set_footer m block.
Definition cfl_heap_free (heap : option CflHeap) (idx : Z) : cfl CflHeap :=
  let? h := heap or "cfl_heap_free: NULL heap pointer" in
  raise? negb (h_initialized h) with "cfl_heap_free: Heap not initialized";
  raise? h_size h <=? idx with "cfl_heap_free: Invalid heap index";
  let m := h_mem h in
  let? target_block := List.find (holds_data m idx) (walk h)
    or "cfl_heap_free: Invalid pointer - not found in any block" in
  raise? (target_block <? 0) || (h_size h <=? target_block) with "cfl_heap_free: Block pointer out of bounds";
  raise? negb (validate_block m target_block) with "cfl_heap_free: Heap corruption detected";
  raise? negb (is_allocated m target_block) with "cfl_heap_free: Double free detected";
  let h := h <| h_mem := free_mem m target_block |> <| h_stats ::= fun s => s <| hs_total_frees ::= fun n => u16 (n + 1) |> |> in
  h <- coalesce_free_blocks h;;
  Ret (heap_update_stats h).

(** ** Pointers and indices *)
Definition cfl_heap_ptr (heap : option CflHeap) (idx : Z) : cfl Z :=
  let? h := heap or "cfl_heap_ptr: invalid heap" in
  raise? negb (h_initialized h) with "cfl_heap_ptr: invalid heap";
  heap_idx_to_ptr h idx.
Definition cfl_heap_ptr_to_idx (heap : option CflHeap) (ptr : Z) : cfl Z :=
  let? h := heap or "cfl_heap_ptr_to_idx: invalid heap" in
  raise? negb (h_initialized h) with "cfl_heap_ptr_to_idx: invalid heap";
  raise? ptr =? 0 with "cfl_heap_ptr_to_idx: NULL pointer";
  raise? (ptr <? h_pool h) || (h_pool h + h_size h <=? ptr) with "cfl_heap_ptr_to_idx: Pointer out of bounds";
  Ret (u16 (ptr - h_pool h)).

(** [None]: NULL. *)
Definition cfl_heap_malloc_pointer (heap : option CflHeap) (size_bytes : Z) : cfl (option Z * CflHeap) :=
  let? h := heap or "cfl_heap_malloc_pointer: invalid heap" in
  raise? negb (h_initialized h) with "cfl_heap_malloc_pointer: invalid heap";
  r <- cfl_heap_malloc (Some h) size_bytes;;
  if r.1 =? INVALID_HEAP_IDX then Ret (None, r.2)
  else ptr <- cfl_heap_ptr (Some r.2) r.1;; Ret (Some ptr, r.2).
Definition cfl_heap_free_pointer (heap : option CflHeap) (ptr : Z) : cfl CflHeap :=
  let? h := heap or "cfl_heap_free_pointer: invalid heap" in
  raise? negb (h_initialized h) with "cfl_heap_free_pointer: invalid heap";
  raise? ptr =? 0 with "cfl_heap_free_pointer: NULL pointer";
  idx <- cfl_heap_ptr_to_idx (Some h) ptr;;
  cfl_heap_free (Some h) idx.

(** ** Diagnostics *)
Definition cfl_heap_used_bytes (heap : option CflHeap) : Z :=
  match heap with Some h => if h_initialized h then hs_current_used_bytes (h_stats h) else 0 | None => 0 end.
Definition cfl_heap_free_bytes (heap : option CflHeap) : Z :=
  match heap with
  | Some h => if h_initialized h then u16 (h_size h - hs_current_used_bytes (h_stats h)) else 0
  | None => 0
  end.
(** The statistics copied out, and the heap with its own brought up to date. *)
Definition cfl_heap_get_stats (heap : option CflHeap) : cfl (CflHeapStats * CflHeap) :=
  let? h := heap or "cfl_heap_get_stats: Invalid parameters" in
  raise? negb (h_initialized h) with "cfl_heap_get_stats: Invalid parameters";
  let h := heap_update_stats h in Ret (h_stats h, h).
Definition cfl_heap_dump_stats (heap : option CflHeap) : option CflHeap :=
  match heap with Some h => Some (if h_initialized h then heap_update_stats h else h) | None => None end.

Fixpoint validate_loop (h : CflHeap) (blocks : list Z) (total_size : Z) : bool :=
  match blocks with
  | [] => true
  | block :: blocks =>
      if negb (validate_block (h_mem h) block) then false
      else
        let total_size := u16 (total_size + (HEADER_SIZE + size (h_mem h) block + FOOTER_SIZE)) in
        if h_size h <? total_size then false else validate_loop h blocks total_size
  end.
Definition cfl_heap_validate (heap : option CflHeap) : bool :=
  match heap with
  | Some h => if h_initialized h then validate_loop h (walk h) 0 else false
  | None => false
  end.

(** The arguments the callback is called with, in order: the data's index into the
    pool, its length, allocated or not, the node. *)
Definition cfl_heap_walk (heap : option CflHeap) : list (Z * Z * bool * Z) :=
  match heap with
  | Some h =>
      if h_initialized h then
        let m := h_mem h in
        map (fun block => (block_to_data_ptr m block, u16 (size m block - padding m block),
                           is_allocated m block, node_id m block))
          (List.filter (validate_block m) (walk h))
      else []
  | None => []
  end.

Definition cfl_heap_get_node_id (heap : option CflHeap) (idx : Z) : cfl Z :=
  let? h := heap or "cfl_heap_get_node_id: invalid heap" in
  raise? negb (h_initialized h) with "cfl_heap_get_node_id: invalid heap";
  raise? h_size h <=? idx with "cfl_heap_get_node_id: Invalid heap index";
  let? block := List.find (holds_data (h_mem h) idx) (walk h)
    or "cfl_heap_get_node_id: Pointer not found in any block" in
  Ret (node_id (h_mem h) block).

(** ** Specification: the pool as a list of blocks *)
Record blk := mk_blk { b_size : Z; b_pad : Z; b_owner : option Z }.
Definition b_free (b : blk) : bool := match b_owner b with None => true | Some _ => false end.
Definition b_span (b : blk) : Z := b_size b + 12.
Definition free_blk (sz : Z) : blk := mk_blk sz 0 None.
Definition span (bs : list blk) : Z := foldr (fun b n => b_span b + n) 0 bs.
Definition blk_ok (b : blk) : Prop :=
  MIN_BLOCK_SIZE + b_pad b <= b_size b /\ 0 <= b_pad b /\ (b_owner b = None -> b_pad b = 0) /\
  (forall id, b_owner b = Some id -> fits 16 id).

(** [b] is what the bytes say at [block]. *)
Definition blk_at (m : list Z) (block : Z) (b : blk) : Prop :=
  magic m block = (if b_free b then BLOCK_MAGIC_FREE else BLOCK_MAGIC_ALLOC) /\
  size m block = b_size b /\ flags m block = (if b_free b then 0 else FLAG_ALLOCATED) /\
  node_id m block = default NODE_ID_NONE (b_owner b) /\ padding m block = b_pad b /\
  read16 m (block + HEADER_SIZE + b_size b) = BLOCK_FOOTER_MAGIC.
Fixpoint tiles (m : list Z) (block : Z) (bs : list blk) : Prop :=
  match bs with [] => True | b :: bs => blk_at m block b /\ blk_ok b /\ tiles m (block + b_span b) bs end.

Fixpoint offsets (block : Z) (bs : list blk) : list Z :=
  match bs with [] => [] | b :: bs => block :: offsets (block + b_span b) bs end.

(** No free block behind a free block. *)
Fixpoint coalesced (bs : list blk) : Prop :=
  match bs with
  | b :: ((n :: _) as bs') => (b_free b && b_free n = false) /\ coalesced bs'
  | _ => True
  end.

(** What [heap_update_stats] counts. *)
Definition used_in (bs : list blk) : Z := span (List.filter (fun b => negb (b_free b)) bs).
Definition largest_in (bs : list blk) : Z := foldr (fun b n => Z.max (b_size b) n) 0 (List.filter b_free bs).
Definition stats_ok (st : CflHeapStats) (bs : list blk) : Prop :=
  hs_current_blocks st = zlen bs /\ hs_current_used_bytes st = used_in bs /\
  hs_largest_free_block st = largest_in bs /\ hs_free_blocks st = zlen (List.filter b_free bs) /\
  hs_allocated_blocks st = zlen (List.filter (fun b => negb (b_free b)) bs) /\
  hs_current_used_bytes st <= hs_peak_used_bytes st.

(** The pool is exactly [bs], the statistics are those of [bs]. *)
Definition heap_tiled (h : CflHeap) (bs : list blk) : Prop :=
  h_initialized h = true /\ zlen (h_mem h) = h_size h /\ 0 < h_size h < 2 ^ 16 /\
  0 < h_pool h /\ h_pool h + 2 ^ 17 <= 2 ^ 32 /\ tiles (h_mem h) 0 bs /\ span bs = h_size h.
Definition heap_ok (h : CflHeap) (bs : list blk) : Prop :=
  heap_tiled h bs /\ coalesced bs /\ stats_ok (h_stats h) bs.

(** ** Specification: allocation and live objects *)

(** Where the data of a free block at [block] would start for alignment [al]. *)
Definition data_at (base al block : Z) : Z := ceil_to al (base + block + 10) - base.
Definition pad_at (base al block : Z) : Z := data_at base al block - (block + 10).
(** What the free block [b] becomes. *)
Definition split (b : blk) (pad sz id : Z) : list blk :=
  if 20 <=? b_size b - (pad + sz)
  then [mk_blk (pad + sz) pad (Some id); free_blk (b_size b - (pad + sz) - 12)]
  else [mk_blk (b_size b) pad (Some id)].
(** No block of [bs], the first at [block], has room. *)
Fixpoint no_fit (base al sz block : Z) (bs : list blk) : Prop :=
  match bs with
  | [] => True
  | b :: bs => (b_free b = true -> b_size b < pad_at base al block + sz) /\ no_fit base al sz (block + b_span b) bs
  end.

(** [coalesce_free_blocks] from [b] on. *)
Fixpoint coal (b : blk) (bs : list blk) : list blk :=
  match bs with
  | [] => [b]
  | n :: bs => if b_free b && b_free n then coal (free_blk (b_size b + 12 + b_size n)) bs else b :: coal n bs
  end.
(** The allocated objects in address order: index, node, bytes. *)
Definition slice (m : list Z) (i n : Z) : list Z := take (Z.to_nat n) (drop (Z.to_nat i) m).
Fixpoint objs (m : list Z) (block : Z) (bs : list blk) : list (Z * Z * list Z) :=
  match bs with
  | [] => []
  | b :: bs =>
      match b_owner b with
      | None => []
      | Some id => [(block + 10 + b_pad b, id, slice m (block + 10 + b_pad b) (b_size b - b_pad b))]
      end ++ objs m (block + b_span b) bs
  end.
(** What the heap's own walk reports as allocated. *)
Definition live (h : CflHeap) : list (Z * Z * list Z) :=
  omap (fun '(i, n, alloc, id) => if alloc : bool then Some (i, id, slice (h_mem h) i n) else None)
    (cfl_heap_walk (Some h)).

Definition agree (lo hi : Z) (m m' : list Z) : Prop := forall i, lo <= i < hi -> zget 0 m' i = zget 0 m i.

(** A block's words: its header's five and its footer. *)
Definition blk_word (block sz i : Z) : Prop := block <= i < block + 10 \/ block + 10 + sz <= i < block + 12 + sz.
(** [m'] is [m] with [b] written at [block] and nothing else touched. *)
Definition writes_blk (m m' : list Z) (block : Z) (b : blk) : Prop :=
  zlen m' = zlen m /\ blk_at m' block b /\
  (forall i, 0 <= i -> ~ blk_word block (b_size b) i -> zget 0 m' i = zget 0 m i).
(** A request the 16-bit sums can hold. *)
Definition heap_req_ok (id sz al : Z) : Prop := req_ok (sz, al) /\ fits 16 al /\ fits 16 id.
(** [idx] is one of the data bytes of [b]. *)
Definition in_data (block : Z) (b : blk) (idx : Z) : Prop := block + 10 + b_pad b <= idx < block + 10 + b_size b.
(** The bytes of free blocks stay so when blocks merge. *)
Definition free_at (off : Z) (bs : list blk) (idx : Z) : Prop :=
  exists pre b post, bs = pre ++ b :: post /\ b_free b = true /\ in_data (off + span pre) b idx.
(** An operation of a client: the heap's, and a byte stored into a pool index. *)
Inductive heap_op := HAlloc (id sz al : Z) | HFree (idx : Z) | HWrite (idx v : Z).
Definition heap_exec (h : CflHeap) (op : heap_op) : cfl (option Z * CflHeap) :=
  match op with
  | HAlloc id sz al => r <- cfl_heap_arena_alloc_aligned (Some h) id sz al;; Ret (Some r.1, r.2)
  | HFree idx => h' <- cfl_heap_free (Some h) idx;; Ret (None, h')
  | HWrite idx v => Ret (None, h <| h_mem ::= fun m => zset m idx v |>)
  end.
(** [idx] is a byte of the object [o]. *)
Definition inside (idx : Z) (o : Z * Z * list Z) : Prop := o.1.1 <= idx < o.1.1 + zlen o.2.
(** The objects lie in the pool of [limit] bytes, each behind the ones before. *)
Fixpoint store_ok (from limit : Z) (s : list (Z * Z * list Z)) : Prop :=
  match s with
  | [] => from <= limit
  | o :: s => from <= o.1.1 /\ 0 < zlen o.2 /\ store_ok (o.1.1 + zlen o.2) limit s
  end.
(** What the client may do: requests the 16-bit sums can hold, an index to free, a byte
    into an object of its own. *)
Definition legal (s : list (Z * Z * list Z)) (op : heap_op) : Prop :=
  match op with
  | HAlloc id sz al => heap_req_ok id sz al
  | HFree idx => 0 <= idx
  | HWrite idx v => fits 8 v /\ Exists (inside idx) s
  end.
(** What an operation does to the objects: an allocation adds one, with any bytes; a
    free takes away the one the index is inside; a store changes one byte. *)
Inductive store_step (base : Z) : list (Z * Z * list Z) -> heap_op -> option Z -> list (Z * Z * list Z) -> Prop :=
  | step_alloc s1 s2 id sz al idx d : sz <= zlen d -> (base + idx) mod al = 0 ->
      store_step base (s1 ++ s2) (HAlloc id sz al) (Some idx) (s1 ++ (idx, id, d) :: s2)
  | step_free s1 s2 o idx : inside idx o -> store_step base (s1 ++ o :: s2) (HFree idx) None (s1 ++ s2)
  | step_write s1 s2 i id d idx v : inside idx (i, id, d) ->
      store_step base (s1 ++ (i, id, d) :: s2) (HWrite idx v) None (s1 ++ (i, id, zset d (idx - i) v) :: s2).
(** Why an operation raises: no free run of the walk has room for the request; the index
    is beyond the pool, in a free run (a second free), or in no block's data. *)
Definition no_room_for (h : CflHeap) (sz al : Z) : Prop :=
  forall i n id, (i, n, false, id) ∈ cfl_heap_walk (Some h) ->
    i + n < ceil_to al (h_pool h + i) - h_pool h + rounded sz.
Definition free_raises (h : CflHeap) (idx : Z) (msg : string) : Prop :=
  Forall (fun o => ~ inside idx o) (live h) /\
  ((h_size h <= idx /\ msg = "cfl_heap_free: Invalid heap index"%string) \/
   (idx < h_size h /\ exists i n id, (i, n, false, id) ∈ cfl_heap_walk (Some h) /\ i <= idx < i + n /\
      msg = "cfl_heap_free: Double free detected"%string) \/
   (idx < h_size h /\ (forall i n a id, (i, n, a, id) ∈ cfl_heap_walk (Some h) -> ~ (i <= idx < i + n)) /\
      msg = "cfl_heap_free: Invalid pointer - not found in any block"%string)).
Definition raises (h : CflHeap) (op : heap_op) (msg : string) : Prop :=
  match op with
  | HAlloc id sz al => msg = "cfl_heap_arena_alloc_aligned: Out of memory"%string /\ no_room_for h sz al
  | HFree idx => free_raises h idx msg
  | HWrite _ _ => False
  end.
(** What a client can bring a heap of [n] bytes at [addr] to. *)
Inductive heap_reach (addr n : Z) : CflHeap -> Prop :=
  | heap_reach_fresh owns : heap_reach addr n (heap_fresh addr n owns)
  | heap_reach_op h op r h' : heap_reach addr n h -> legal (live h) op -> heap_exec h op = Ret (r, h') ->
      heap_reach addr n h'.
Definition heap_inv (addr n : Z) (h : CflHeap) : Prop := h_pool h = addr /\ h_size h = n /\ exists bs, heap_ok h bs.
Definition example_heap : CflHeap := heap_fresh 0x20000000 128 false.
Definition example_ops : list heap_op := [HAlloc 3 10 4; HAlloc 4 8 16; HFree 12; HWrite 49 7].
Fixpoint heap_run (h : CflHeap) (ops : list heap_op) : cfl (list (option Z) * CflHeap) :=
  match ops with
  | [] => Ret ([], h)
  | op :: ops => r <- heap_exec h op;; s <- heap_run r.2 ops;; Ret (r.1 :: s.1, s.2)
  end.
Fixpoint legal_run (h : CflHeap) (ops : list heap_op) : Prop :=
  match ops with
  | [] => True
  | op :: ops => legal (live h) op /\ match heap_exec h op with Ret r => legal_run r.2 ops | _ => True end
  end.
Definition example_used : CflHeap := match heap_run example_heap example_ops with Ret r => r.2 | _ => example_heap end.
(** A header overwritten so that its size is 65524 hangs the next free: the merge adds
    nothing to the block and does not go on. *)
Definition overrun_heap : CflHeap :=
  let m := write_free_block (replicate 64 0) 0 20 in
  mk_heap 0x20000000 (set_size (write_free_block m 32 20) 32 65524) 64 true false heap_stats0.

(** ** Bytes and 16-bit fields *)
Lemma zlen_write16 m i v : zlen (write16 m i v) = zlen m.
Proof. unfold write16, zlen. by rewrite !zlen_zset. Qed.
Lemma read16_write16_eq m i v : 0 <= i -> i + 1 < zlen m -> fits 16 v -> read16 (write16 m i v) i = v.
Proof.
  intros Hi Hl Hv. unfold read16, write16.
  rewrite zget_zset_ne by lia. rewrite !zget_zset_eq by (unfold zlen in *; rewrite ?zlen_zset; lia).
  by apply le16_lo_hi.
Qed.
Lemma zget_write16_ne m i j v : 0 <= j -> j < i \/ i + 1 < j -> zget 0 (write16 m i v) j = zget 0 m j.
Proof. intros Hj Hd. unfold write16. by rewrite !zget_zset_ne by lia. Qed.
Lemma read16_write16_ne m i j v : 0 <= j -> j + 1 < i \/ i + 1 < j -> read16 (write16 m i v) j = read16 m j.
Proof. intros Hj Hd. unfold read16. by rewrite !zget_write16_ne by lia. Qed.
Lemma read16_agree m m' i lo hi : agree lo hi m m' -> lo <= i -> i + 2 <= hi -> read16 m' i = read16 m i.
Proof. intros H Hlo Hhi. unfold read16. by rewrite !H by lia. Qed.

Ltac side16 := rewrite ?zlen_write16; first [lia | done | unfold fits; lia].
Ltac mem16 :=
  repeat first
    [ rewrite read16_write16_eq by side16
    | rewrite read16_write16_ne by side16 ].
Ltac fields16 := unfold magic, size, flags, node_id, padding, set_magic, set_size, set_flags, set_node_id,
  set_padding, set_footer, HEADER_SIZE, FOOTER_SIZE in *.

Lemma blk_at_agree m m' block b :
  0 <= b_size b -> (forall i, blk_word block (b_size b) i -> zget 0 m' i = zget 0 m i) ->
  blk_at m block b -> blk_at m' block b.
Proof.
  intros Hsz Ha (E1 & E2 & E3 & E4 & E5 & E6). unfold blk_at. fields16.
  rewrite !(read16_agree m m' _ block (block + 10)) by (lia || (intros i Hi; apply Ha; left; lia)).
  rewrite (read16_agree m m' (block + 10 + b_size b) (block + 10 + b_size b) (block + 12 + b_size b))
    by (lia || (intros i Hi; apply Ha; right; lia)).
  done.
Qed.

Lemma write_free_block_spec m block sz :
  0 <= block -> fits 16 sz -> block + 12 + sz <= zlen m ->
  writes_blk m (write_free_block m block sz) block (free_blk sz).
Proof.
  intros Hb Hsz Hl. pose proof (proj1 Hsz). unfold write_free_block.
  set (m5 := set_padding _ _ _).
  assert (size m5 block = sz) as Es by (subst m5; fields16; by mem16).
  unfold set_footer. rewrite Es. split; [|split].
  - subst m5. fields16. by rewrite !zlen_write16.
  - subst m5. unfold blk_at. fields16. cbn [b_size b_pad b_owner free_blk b_free default].
    repeat split; by mem16.
  - intros i Hi Hw. subst m5. fields16. unfold blk_word in Hw. cbn [b_size free_blk] in Hw.
    by rewrite !zget_write16_ne by lia.
Qed.

Lemma free_mem_spec m block b :
  0 <= block -> fits 16 (b_size b) -> block + 12 + b_size b <= zlen m -> blk_at m block b -> b_free b = false ->
  writes_blk m (free_mem m block) block (free_blk (b_size b)).
Proof.
  intros Hb Hsz Hl (E1 & E2 & E3 & E4 & E5 & E6) Hf. rewrite Hf in *. pose proof (proj1 Hsz).
  unfold free_mem. set (m5 := set_padding _ _ _).
  assert (size m5 block = b_size b) as Es.
  { subst m5. unfold mark_free. fields16. by mem16. }
  unfold set_footer. rewrite Es. subst m5. unfold mark_free. rewrite E3.
  change (u16 (Z.land FLAG_ALLOCATED (Z.lnot FLAG_ALLOCATED))) with 0.
  split; [|split].
  - fields16. by rewrite !zlen_write16.
  - unfold blk_at. fields16. cbn [b_size b_pad b_owner free_blk b_free default]. repeat split; by mem16.
  - intros i Hi Hw. fields16. unfold blk_word in Hw. cbn [b_size free_blk] in Hw.
    by rewrite !zget_write16_ne by lia.
Qed.

Lemma mark_taken_spec m block sz pad id :
  0 <= block -> fits 16 sz -> fits 16 pad -> fits 16 id -> block + 12 + sz <= zlen m ->
  size m block = sz -> flags m block = 0 ->
  writes_blk m (set_footer (mark_allocated (set_padding m block pad) block id) block) block (mk_blk sz pad (Some id)).
Proof.
  intros Hb Hsz Hpad Hid Hl E2 E3. pose proof (proj1 Hsz). set (m5 := mark_allocated _ _ _).
  assert (size m5 block = sz) as Es by (subst m5; unfold mark_allocated; fields16; by mem16).
  assert (flags (set_padding m block pad) block = 0) as Ef by (fields16; by mem16).
  unfold set_footer. rewrite Es. subst m5. unfold mark_allocated. rewrite Ef.
  change (Z.lor 0 FLAG_ALLOCATED) with 1.
  split; [|split].
  - fields16. by rewrite !zlen_write16.
  - unfold blk_at. fields16. cbn [b_size b_pad b_owner b_free default]. repeat split; by mem16.
  - intros i Hi Hw. fields16. unfold blk_word in Hw. cbn [b_size] in Hw. by rewrite !zget_write16_ne by lia.
Qed.

Lemma merge_mem_spec m block b n :
  0 <= block -> 0 <= b_size b -> 0 <= b_size n -> fits 16 (b_size b + 12 + b_size n) ->
  block + 24 + b_size b + b_size n <= zlen m ->
  blk_at m block b -> b_free b = true -> blk_at m (block + b_span b) n ->
  writes_blk m (merge_mem m block (block + b_span b)) block (free_blk (b_size b + 12 + b_size n)).
Proof.
  intros Hb Hs1 Hs2 Hsz Hl (E1 & E2 & E3 & E4 & E5 & E6) Hf (_ & F2 & _). rewrite Hf in *.
  unfold b_free in Hf. destruct (b_owner b); [done|]. cbn [default] in E4.
  unfold merge_mem. rewrite E2, F2. change (HEADER_SIZE + b_size n + FOOTER_SIZE) with (10 + b_size n + 2).
  replace (b_size b + (10 + b_size n + 2)) with (b_size b + 12 + b_size n) by lia. rewrite u16_id by done.
  set (m5 := set_padding _ _ _).
  assert (size m5 block = b_size b + 12 + b_size n) as Es by (subst m5; fields16; by mem16).
  unfold set_footer. rewrite Es. subst m5. split; [|split].
  - fields16. by rewrite !zlen_write16.
  - unfold blk_at. fields16. cbn [b_size b_pad b_owner free_blk b_free default]. repeat split; by mem16.
  - intros i Hi Hw. fields16. unfold blk_word in Hw. cbn [b_size free_blk] in Hw.
    by rewrite !zget_write16_ne by lia.
Qed.

(** ** Tilings *)
Lemma span_cons b bs : span (b :: bs) = b_size b + 12 + span bs.
Proof. done. Qed.
Lemma zlen_cons {A} (x : A) l : zlen (x :: l) = 1 + zlen l.
Proof. unfold zlen. cbn [length]. lia. Qed.
Lemma span_app bs cs : span (bs ++ cs) = span bs + span cs.
Proof. induction bs as [|b bs IH]; [done|]. cbn [app]. rewrite !span_cons. lia. Qed.
Lemma tiles_app m block bs cs : tiles m block (bs ++ cs) <-> tiles m block bs /\ tiles m (block + span bs) cs.
Proof.
  revert block. induction bs as [|b bs IH]; intros block; cbn [tiles app].
  { rewrite Z.add_0_r. tauto. }
  rewrite IH, span_cons. unfold b_span.
  replace (block + (b_size b + 12 + span bs)) with (block + (b_size b + 12) + span bs) by lia. tauto.
Qed.
Lemma tiles_span m block bs : tiles m block bs -> 20 * zlen bs <= span bs.
Proof.
  revert block. induction bs as [|b bs IH]; intros block H; [done|]. destruct H as (_ & (H1 & H2 & _) & H).
  apply IH in H. rewrite span_cons, zlen_cons. change MIN_BLOCK_SIZE with 8 in H1. lia.
Qed.
Lemma tiles_agree m m' block bs :
  agree block (block + span bs) m m' -> tiles m block bs -> tiles m' block bs.
Proof.
  revert block. induction bs as [|b bs IH]; intros block Ha; [done|]. intros (Hb & Hok & H).
  pose proof (tiles_span _ _ _ H). pose proof (zlen_nonneg bs). destruct Hok as (O1 & O2 & O3).
  change MIN_BLOCK_SIZE with 8 in O1. rewrite span_cons in Ha.
  split; [|split; [done|]].
  - apply (blk_at_agree m); [lia| |done]. intros i Hi. apply Ha. unfold blk_word in Hi. lia.
  - apply IH; [|done]. intros i Hi. apply Ha. unfold b_span in Hi. lia.
Qed.

(** ** Walks *)
Lemma read16_nonneg m i : bytes_ok m -> 0 <= read16 m i.
Proof.
  intros Hm. assert (forall j, fits 8 (zget 0 m j)) as Hb.
  { intros j. unfold zget. destruct (j <? 0); [done|]. destruct (nth_in_or_default (Z.to_nat j) m 0) as [Hin|Heq].
    - unfold bytes_ok in Hm. rewrite Forall_forall in Hm. apply Hm. by apply list_elem_of_In.
    - by rewrite Heq. }
  unfold read16. rewrite le16_val by apply Hb. pose proof (Hb i). pose proof (Hb (i + 1)). unfold fits in *. lia.
Qed.
(** Every step goes forward by twelve bytes or more, whatever the pool holds. *)
Lemma next_fuel h block next : bytes_ok (h_mem h) -> get_next_block h block = Some next ->
  block + 12 <= next < h_size h /\ (S (walk_fuel h next) <= walk_fuel h block)%nat.
Proof.
  intros Hm En. unfold get_next_block in En. case_match eqn:El; [done|]. injection En as <-. bools.
  pose proof (read16_nonneg (h_mem h) (block + 2) Hm) as Hs.
  change (read16 (h_mem h) (block + 2)) with (size (h_mem h) block) in Hs.
  change HEADER_SIZE with 10 in *. change FOOTER_SIZE with 2 in *. set (next := block + 10 + size (h_mem h) block + 2) in *.
  split; [lia|]. unfold walk_fuel. replace (h_size h - block) with (h_size h - block - 12 + 1 * 12) by lia.
  rewrite Z.div_add by done. pose proof (Z.div_le_mono (h_size h - next) (h_size h - block - 12) 12 ltac:(lia) ltac:(lia)).
  pose proof (Z.div_pos (h_size h - next) 12 ltac:(lia) ltac:(lia)). lia.
Qed.
Lemma walk_from_fuel h f1 : bytes_ok (h_mem h) -> forall f2 block,
  (walk_fuel h block <= f1)%nat -> (walk_fuel h block <= f2)%nat -> walk_from f1 h block = walk_from f2 h block.
Proof.
  intros Hm. induction f1 as [|f1 IH]; intros [|f2] block H1 H2; try (unfold walk_fuel in *; lia).
  cbn [walk_from]. f_equal. destruct (get_next_block h block) as [next|] eqn:En; [|done].
  apply next_fuel in En as [_ Hn]; [|done]. apply IH; lia.
Qed.
(** The fuel never ends a walk: it is the C loop's own unfolding, and it ends. *)
Lemma walk_complete h block : bytes_ok (h_mem h) ->
  walk_from (walk_fuel h block) h block =
    block :: match get_next_block h block with Some next => walk_from (walk_fuel h next) h next | None => [] end.
Proof.
  intros Hm. unfold walk_fuel at 1. cbn [walk_from]. f_equal. destruct (get_next_block h block) as [next|] eqn:En; [|done].
  apply next_fuel in En as [_ Hn]; [|done]. apply walk_from_fuel; [done| |lia].
  unfold walk_fuel in Hn at 2. lia.
Qed.

Lemma next_tiles h bs block b : blk_at (h_mem h) block b -> blk_ok b -> block + b_span b + span bs = h_size h ->
  tiles (h_mem h) (block + b_span b) bs ->
  get_next_block h block = match bs with [] => None | _ => Some (block + b_span b) end.
Proof.
  intros (_ & E2 & _) _ Hsp Ht. unfold get_next_block. rewrite E2. change HEADER_SIZE with 10. change FOOTER_SIZE with 2.
  unfold b_span in *. destruct bs as [|c bs].
  - cbn [span foldr] in Hsp. by rewrite (proj2 (Z.leb_le _ _)) by (cbn in *; lia).
  - apply tiles_span in Ht. rewrite zlen_cons in Ht. pose proof (zlen_nonneg bs).
    rewrite (proj2 (Z.leb_gt _ _)) by lia. f_equal. lia.
Qed.
Lemma walk_tiles h bs : forall block fuel, tiles (h_mem h) block bs -> block + span bs = h_size h -> bs <> [] ->
  (length bs <= fuel)%nat -> walk_from fuel h block = offsets block bs.
Proof.
  induction bs as [|b bs IH]; intros block fuel Ht Hsp Hne Hf; [done|]. destruct fuel as [|fuel]; [cbn in Hf; lia|].
  destruct Ht as (Hb & Hok & Ht). rewrite span_cons in Hsp. cbn [walk_from offsets]. f_equal.
  rewrite (next_tiles h bs block b) by (done || (unfold b_span; lia)).
  destruct bs as [|c bs]; [done|]. apply IH; [done|unfold b_span; lia|done|cbn in *; lia].
Qed.
Lemma heap_walk_ok h bs : heap_tiled h bs -> walk h = offsets 0 bs.
Proof.
  intros (Hi & Hl & Hs & Hp1 & Hp2 & Ht & Hsp). pose proof (tiles_span _ _ _ Ht) as H20. unfold walk. apply walk_tiles; [done..| |].
  - intros ->. cbn in Hsp. lia.
  - unfold walk_fuel. rewrite Z.sub_0_r. pose proof (Z.div_mod (h_size h) 12 ltac:(lia)).
    pose proof (Z.mod_pos_bound (h_size h) 12 ltac:(lia)). unfold zlen in H20. lia.
Qed.

Lemma is_allocated_at m block b : blk_at m block b -> is_allocated m block = negb (b_free b).
Proof. intros (_ & _ & E3 & _). unfold is_allocated. rewrite E3. by destruct (b_free b). Qed.
Lemma validate_block_at m block b : blk_at m block b -> validate_block m block = true.
Proof.
  intros (E1 & E2 & _ & _ & _ & E6). unfold validate_block. rewrite E1, E2, E6. by destruct (b_free b).
Qed.

(** ** Statistics *)
Lemma used_cons b bs : used_in (b :: bs) = (if b_free b then 0 else b_size b + 12) + used_in bs.
Proof. unfold used_in. cbn [List.filter]. destruct (b_free b); cbn [negb]; [done|]. by rewrite span_cons. Qed.
Lemma largest_cons b bs : largest_in (b :: bs) = (if b_free b then Z.max (b_size b) (largest_in bs) else largest_in bs).
Proof. unfold largest_in. cbn [List.filter]. by destruct (b_free b). Qed.
Lemma used_bounds m block bs : tiles m block bs -> 0 <= used_in bs <= span bs /\ 0 <= largest_in bs.
Proof.
  revert block. induction bs as [|b bs IH]; intros block H; [done|]. destruct H as (_ & (O1 & O2 & _) & H).
  change MIN_BLOCK_SIZE with 8 in O1. apply IH in H. rewrite used_cons, largest_cons, span_cons. destruct (b_free b); lia.
Qed.
Lemma zlen_filter_le {A} (p : A -> bool) l : zlen (List.filter p l) <= zlen l.
Proof. induction l as [|x l IH]; [done|]. cbn [List.filter]. destruct (p x); rewrite ?zlen_cons; lia. Qed.

Lemma stats_fold m bs : forall block u fr al la tot, tiles m block bs ->
  0 <= u -> 0 <= fr -> 0 <= al -> 0 <= la -> 0 <= tot ->
  u + span bs < 2 ^ 16 -> fr + zlen bs < 2 ^ 16 -> al + zlen bs < 2 ^ 16 -> tot + zlen bs < 2 ^ 16 ->
  fold_left (fun s block =>
      if is_allocated m block
      then mk_sums (u16 (su_used s + (HEADER_SIZE + size m block + FOOTER_SIZE))) (su_free s)
             (u16 (su_alloc s + 1)) (su_largest s) (u16 (su_total s + 1))
      else mk_sums (su_used s) (u16 (su_free s + 1)) (su_alloc s)
             (if su_largest s <? size m block then size m block else su_largest s) (u16 (su_total s + 1)))
    (offsets block bs) (mk_sums u fr al la tot) =
  mk_sums (u + used_in bs) (fr + zlen (List.filter b_free bs))
    (al + zlen (List.filter (fun b => negb (b_free b)) bs)) (Z.max la (largest_in bs)) (tot + zlen bs).
Proof.
  induction bs as [|b bs IH]; intros block u fr al la tot Ht Hu Hfr Hal Hla Htot Hb1 Hb2 Hb3 Hb4.
  { change (used_in []) with 0. change (largest_in []) with 0. change (zlen _) with 0. cbn [offsets fold_left]. f_equal; lia. }
  destruct Ht as (Hb & (O1 & O2 & _) & Ht). change MIN_BLOCK_SIZE with 8 in O1.
  cbn [offsets fold_left]. rewrite (is_allocated_at _ _ _ Hb). pose proof Hb as (_ & E2 & _). rewrite E2.
  change HEADER_SIZE with 10. change FOOTER_SIZE with 2. rewrite span_cons in Hb1. rewrite zlen_cons in *.
  pose proof (zlen_nonneg bs). pose proof (tiles_span _ _ _ Ht).
  rewrite used_cons, largest_cons. cbn [List.filter].
  destruct (b_free b); cbn [negb su_used su_free su_alloc su_largest su_total];
    rewrite !u16_id by (unfold fits; lia); rewrite (IH (block + b_span b)) by (done || lia || (destruct (la <? b_size b); lia));
    rewrite ?zlen_cons; f_equal; try lia.
  destruct (Z.ltb_spec la (b_size b)); lia.
Qed.

Lemma update_stats_ok h bs : heap_tiled h bs -> stats_ok (h_stats (heap_update_stats h)) bs.
Proof.
  intros Ht. pose proof (heap_walk_ok _ _ Ht) as Hw. destruct Ht as (Hi & Hl & Hs & Hp1 & Hp2 & Ht & Hsp).
  pose proof (tiles_span _ _ _ Ht). pose proof (zlen_nonneg bs). pose proof (used_bounds _ _ _ Ht).
  unfold heap_update_stats. rewrite Hw. rewrite (stats_fold _ bs 0 0 0 0 0 0) by (done || lia).
  cbn [su_used su_free su_alloc su_largest su_total]. unfold field_map. cbn [h_stats].
  unfold stats_ok. cbn [hs_current_blocks hs_current_used_bytes hs_largest_free_block hs_free_blocks hs_allocated_blocks hs_peak_used_bytes].
  repeat split; try lia. destruct (Z.ltb_spec (hs_peak_used_bytes (h_stats h)) (0 + used_in bs)); lia.
Qed.

(** ** Validation *)
Lemma validate_loop_ok h bs : forall block total, tiles (h_mem h) block bs -> 0 <= total ->
  total + span bs <= h_size h -> h_size h < 2 ^ 16 -> validate_loop h (offsets block bs) total = true.
Proof.
  induction bs as [|b bs IH]; intros block total Ht Htot Hs Hsz; [done|]. destruct Ht as (Hb & (O1 & O2 & _) & Ht).
  change MIN_BLOCK_SIZE with 8 in O1. rewrite span_cons in Hs. pose proof (tiles_span _ _ _ Ht). pose proof (zlen_nonneg bs).
  cbn [offsets validate_loop]. rewrite (validate_block_at _ _ _ Hb). cbn [negb]. pose proof Hb as (_ & E2 & _). rewrite E2.
  change HEADER_SIZE with 10. change FOOTER_SIZE with 2. rewrite u16_id by (unfold fits; lia).
  rewrite (proj2 (Z.ltb_ge _ _)) by lia. apply IH; (done || lia).
Qed.
Lemma heap_validate_ok h bs : heap_tiled h bs -> cfl_heap_validate (Some h) = true.
Proof.
  intros Ht. pose proof (heap_walk_ok _ _ Ht) as Hw. destruct Ht as (Hi & Hl & Hs & _ & _ & Ht & Hsp).
  unfold cfl_heap_validate. rewrite Hi, Hw. apply validate_loop_ok; (done || lia).
Qed.

(** ** Rewriting a stretch of the pool *)
Lemma tiles_replace m m' pre mid mid' post :
  tiles m 0 (pre ++ mid ++ post) -> span mid' = span mid -> tiles m' (span pre) mid' ->
  (forall i, 0 <= i -> ~ (span pre <= i < span pre + span mid) -> zget 0 m' i = zget 0 m i) ->
  tiles m' 0 (pre ++ mid' ++ post).
Proof.
  intros Ht Hsp Hm Ha. rewrite !tiles_app in Ht |- *. rewrite Z.add_0_l in *. destruct Ht as (Hpre & Hmid & Hpost).
  pose proof (tiles_span _ _ _ Hpre). pose proof (tiles_span _ _ _ Hmid). pose proof (tiles_span _ _ _ Hpost).
  pose proof (zlen_nonneg pre). pose proof (zlen_nonneg mid). pose proof (zlen_nonneg post).
  split; [|split; [done|]].
  - apply (tiles_agree m); [|done]. intros i Hi. apply Ha; lia.
  - rewrite Hsp. apply (tiles_agree m); [|done]. intros i Hi. apply Ha; lia.
Qed.

Lemma coalesced_app pre b post :
  coalesced (pre ++ b :: post) <-> coalesced (pre ++ [b]) /\ coalesced (b :: post).
Proof.
  induction pre as [|p [|q pre] IH].
  - cbn [app]. split; [intros H; by split|by intros [_ H]].
  - cbn [app coalesced] in *. tauto.
  - cbn [app coalesced] in *. tauto.
Qed.
Lemma coalesced_last pre b b' : (b_free b' = true -> b_free b = true) -> coalesced (pre ++ [b]) -> coalesced (pre ++ [b']).
Proof.
  intros Hf. induction pre as [|p [|q pre] IH]; [done| |].
  - cbn [app coalesced]. intros [H _]. split; [|done]. destruct (b_free b'); [by rewrite (Hf eq_refl) in H|apply andb_false_r].
  - cbn [app coalesced] in *. tauto.
Qed.
Lemma coalesced_head b b' post : (b_free b' = true -> b_free b = true) -> coalesced (b :: post) -> coalesced (b' :: post).
Proof.
  intros Hf. destruct post as [|c post]; [done|]. cbn [coalesced]. intros [H ?]. split; [|done].
  destruct (b_free b'); [by rewrite (Hf eq_refl) in H|done].
Qed.

(** ** Allocation *)
Lemma blk_ok_alloc sz pad id : 8 + pad <= sz -> 0 <= pad -> fits 16 id -> blk_ok (mk_blk sz pad (Some id)).
Proof. intros. split; [done|]. split; [done|]. split; [done|]. by intros ? [= <-]. Qed.
Lemma blk_ok_free sz : 8 <= sz -> blk_ok (free_blk sz).
Proof. intros. split; [done|]. split; [done|]. by split. Qed.
Lemma span_split b pad sz id : span (split b pad sz id) = span [b].
Proof. unfold split. destruct (20 <=? _); rewrite !span_cons; cbn [b_size free_blk]; lia. Qed.
Lemma coalesced_split pre b post pad sz id : b_free b = true ->
  coalesced (pre ++ b :: post) -> coalesced (pre ++ split b pad sz id ++ post).
Proof.
  intros Hf [Hpre Hpost]%coalesced_app. unfold split. destruct (20 <=? _); cbn [app].
  - apply coalesced_app. split; [by apply (coalesced_last pre b)|]. split; [done|]. by apply (coalesced_head b).
  - apply coalesced_app. split; [by apply (coalesced_last pre b)|by apply (coalesced_head b)].
Qed.

Lemma take_mem_spec m block b pad sz id :
  0 <= block -> blk_at m block b -> b_free b = true -> fits 16 (b_size b) -> block + b_span b <= zlen m ->
  0 <= pad -> MIN_BLOCK_SIZE <= sz -> pad + sz <= b_size b -> fits 16 id ->
  let m' := take_mem m block id pad (pad + sz) in
  zlen m' = zlen m /\ tiles m' block (split b pad sz id) /\
  (forall i, 0 <= i -> ~ (block <= i < block + b_span b) -> zget 0 m' i = zget 0 m i).
Proof.
  intros Hb (E1 & E2 & E3 & E4 & E5 & E6) Hf Hsz Hl Hpad H8 Hfit Hid. rewrite Hf in *. unfold b_span in *.
  change MIN_BLOCK_SIZE with 8 in H8. unfold fits in *. change (2 ^ 16) with 65536 in *. unfold take_mem. rewrite E2.
  rewrite (u16_id (b_size b - _)) by (unfold fits; lia).
  change (HEADER_SIZE + MIN_BLOCK_SIZE + FOOTER_SIZE) with 20. change HEADER_SIZE with 10. change FOOTER_SIZE with 2.
  unfold split. destruct (Z.leb_spec 20 (b_size b - (pad + sz))) as [Hr|Hr]; cbv zeta.
  - rewrite (u16_id (_ - 10 - 2)) by (unfold fits; lia).
    set (nb := block + 10 + (pad + sz) + 2). set (r := b_size b - (pad + sz) - 10 - 2).
    destruct (write_free_block_spec m nb r) as (L1 & B1 & F1); [lia|unfold fits; lia|lia|].
    unfold blk_word in F1. cbn [b_size free_blk] in F1. set (m1 := write_free_block m nb r) in *. set (m2 := set_size m1 block (pad + sz)).
    assert (flags m1 block = 0) as Ef.
    { rewrite <- E3. apply (read16_agree m m1 _ block nb); [|lia..]. intros i Hi. apply F1; lia. }
    assert (zlen m2 = zlen m) as L2 by (subst m2; fields16; by rewrite zlen_write16).
    destruct (mark_taken_spec m2 block (pad + sz) pad id) as (L3 & B3 & F3); try (unfold fits; lia).
    { subst m2. unfold size, set_size. apply read16_write16_eq; [lia| |unfold fits]; lia. }
    { subst m2. unfold flags, set_size in *. by rewrite read16_write16_ne by lia. }
    set (m' := set_footer _ _) in *. cbn [b_size] in F3. unfold blk_word in F3. split; [lia|]. split.
    + split; [done|]. split; [apply blk_ok_alloc; (done || lia)|].
      split; [|split; [|done]].
      * apply (blk_at_agree m1); [cbn; lia| |]; cbn [b_size free_blk]; replace (b_size b - (pad + sz) - 12) with r by lia;
          unfold b_span; cbn [b_size]; replace (block + (pad + sz + 12)) with nb by lia; [|done].
        intros i Hi. unfold blk_word in Hi. rewrite F3 by lia. subst m2. unfold set_size. by apply zget_write16_ne; lia.
      * apply blk_ok_free. lia.
    + intros i Hi Hout.
      rewrite F3 by lia. subst m2. unfold set_size. rewrite zget_write16_ne by lia. apply F1; lia.
  - destruct (mark_taken_spec m block (b_size b) pad id) as (L3 & B3 & F3); try (done || (unfold fits; lia)).
    set (m' := set_footer _ _) in *. split; [lia|]. split.
    + split; [done|]. split; [|done]. apply blk_ok_alloc; (done || lia).
    + intros i Hi Hout. apply F3; [done|]. unfold blk_word. cbn [b_size]. lia.
Qed.

Lemma heap_pow2 al : 0 < al -> heap_is_power_of_2 al = true -> fits 16 al -> al <= 2 ^ 15.
Proof. intros H1 H2 H3. apply pow2_16_bound; [done..|apply H3]. Qed.
Lemma aligned_data h al block : 0 < h_pool h -> h_pool h + 2 ^ 17 <= 2 ^ 32 -> 0 <= block < 2 ^ 16 ->
  0 < al -> heap_is_power_of_2 al = true -> fits 16 al ->
  let data_addr := u32 (h_pool h + block + HEADER_SIZE) in
  Z.land (u32 (data_addr + al - 1)) (u32 (Z.lnot (al - 1))) = h_pool h + data_at (h_pool h) al block /\
  align_padding h block al = pad_at (h_pool h) al block /\ 0 <= pad_at (h_pool h) al block < al.
Proof.
  intros Hp1 Hp2 Hb Ha Hpow Hal. pose proof (heap_pow2 _ Ha Hpow Hal) as H15. change (2 ^ 15) with 32768 in H15.
  change HEADER_SIZE with 10. cbv zeta.
  assert (u32 (h_pool h + block + 10) = h_pool h + block + 10) as Ed by (apply u32_id; unfold fits; lia).
  assert (Z.land (u32 (h_pool h + block + 10 + al - 1)) (u32 (Z.lnot (al - 1))) = ceil_to al (h_pool h + block + 10)) as Ec.
  { rewrite <- aligned_addr_ok by (done || lia). do 2 f_equal. lia. }
  destruct (ceil_to_spec al (h_pool h + block + 10) Ha) as [Hc _].
  assert (0 <= pad_at (h_pool h) al block < al) as Hpad by (unfold pad_at, data_at; lia).
  split; [|split; [|done]].
  - rewrite Ed, Ec. unfold data_at. lia.
  - unfold align_padding. change HEADER_SIZE with 10. rewrite Ed, Ec. unfold pad_at, data_at in *.
    rewrite u16_id by (unfold fits; lia). lia.
Qed.

Lemma heap_tiled_at h pre b post : heap_tiled h (pre ++ b :: post) ->
  blk_at (h_mem h) (span pre) b /\ blk_ok b /\ 0 <= span pre /\ span pre + b_span b <= h_size h /\
  zlen (h_mem h) = h_size h /\ h_size h < 65536.
Proof.
  intros (_ & Hl & Hs & _ & _ & Ht & Hsp). change (2 ^ 16) with 65536 in Hs. apply tiles_app in Ht as [Hpre Hpost].
  rewrite Z.add_0_l in Hpost. destruct Hpost as (Hb & Hok & Hpost). pose proof (tiles_span _ _ _ Hpre).
  pose proof (tiles_span _ _ _ Hpost). pose proof (zlen_nonneg pre). pose proof (zlen_nonneg post).
  rewrite span_app, span_cons in Hsp. unfold b_span in *. split; [done|]. split; [done|]. lia.
Qed.

#[export] Instance heap_req_ok_dec id sz al : Decision (heap_req_ok id sz al).
Proof. unfold heap_req_ok, fits. apply _. Defined.

Lemma alloc_loop_spec h id sz al bs : forall pre, heap_tiled h (pre ++ bs) ->
  0 < al -> heap_is_power_of_2 al = true -> fits 16 al -> MIN_BLOCK_SIZE <= sz -> sz + al <= 65536 ->
  match alloc_loop h (offsets (span pre) bs) id sz al with
  | Ret (idx, h') => exists mid b post, bs = mid ++ b :: post /\ b_free b = true /\
      no_fit (h_pool h) al sz (span pre) mid /\
      let block := span (pre ++ mid) in
      let pad := pad_at (h_pool h) al block in
      pad + sz <= b_size b /\ idx = data_at (h_pool h) al block /\ h' = take_block h block id pad (pad + sz)
  | EXCEPTION msg => msg = "cfl_heap_arena_alloc_aligned: Out of memory"%string /\ no_fit (h_pool h) al sz (span pre) bs
  | Endless => False
  end.
Proof.
  induction bs as [|b bs IH]; intros pre Ht Ha Hpow Hal H8 Hsum; [done|].
  destruct (heap_tiled_at _ _ _ _ Ht) as (Hb & Hok & Hpre & Hend & Hlen & Hmax).
  pose proof Ht as (_ & _ & _ & Hp1 & Hp2 & _). pose proof Hb as (_ & E2 & _). unfold b_span in Hend.
  destruct Hok as (O1 & O2 & O3 & _). change MIN_BLOCK_SIZE with 8 in *.
  assert (b_free b = false \/ b_size b < pad_at (h_pool h) al (span pre) + sz ->
    no_fit (h_pool h) al sz (span pre) [b]) as Hskip.
  { intros Hs. split; [|done]. intros Hf. destruct Hs as [Hs|Hs]; [congruence|done]. }
  assert (b_free b = false \/ b_size b < pad_at (h_pool h) al (span pre) + sz ->
    match alloc_loop h (offsets (span pre + b_span b) bs) id sz al with
    | Ret (idx, h') => exists mid b0 post, b :: bs = mid ++ b0 :: post /\ b_free b0 = true /\
        no_fit (h_pool h) al sz (span pre) mid /\
        let block := span (pre ++ mid) in
        let pad := pad_at (h_pool h) al block in
        pad + sz <= b_size b0 /\ idx = data_at (h_pool h) al block /\ h' = take_block h block id pad (pad + sz)
    | EXCEPTION msg => msg = "cfl_heap_arena_alloc_aligned: Out of memory"%string /\
        no_fit (h_pool h) al sz (span pre) (b :: bs)
    | Endless => False
    end) as Hnext.
  { intros Hs. apply Hskip in Hs as [Hs _]. specialize (IH (pre ++ [b])). rewrite <- app_assoc in IH. specialize (IH Ht Ha Hpow Hal H8 Hsum).
    rewrite span_app in IH. replace (span pre + span [b]) with (span pre + b_span b) in IH by (rewrite span_cons; unfold b_span; cbn; lia).
    destruct (alloc_loop h (offsets (span pre + b_span b) bs) id sz al) as [[idx h']|msg|]; [|by destruct IH as [-> ?]|done].
    destruct IH as (mid & b0 & post & -> & Hf & Hnf & IH). rewrite <- app_assoc in IH. exists (b :: mid), b0, post.
    by repeat split; try done; apply IH. }
  cbn [offsets alloc_loop]. rewrite (validate_block_at _ _ _ Hb), (is_allocated_at _ _ _ Hb), E2. cbn [negb raise_if].
  destruct (b_free b) eqn:Hf; cbn [negb]; [|apply Hnext; by left].
  destruct (aligned_data h al (span pre)) as (Ed & Ep & Hpad); [(done || lia)..|]. cbv zeta in Ed. rewrite Ep, Ed.
  rewrite u16_id by (unfold fits; lia).
  destruct (Z.leb_spec (pad_at (h_pool h) al (span pre) + sz) (b_size b)) as [Hfit|Hfit]; [|apply Hnext; right; lia].
  unfold ptr_to_idx. assert (pad_at (h_pool h) al (span pre) = data_at (h_pool h) al (span pre) - (span pre + 10)) as Edef by done.
  rewrite (proj2 (Z.eqb_neq _ 0)) by lia. cbn [raise_if cbind]. exists [], b, bs. rewrite app_nil_r. repeat split; try (done || lia).
  change (h_pool (take_block h (span pre) id _ _)) with (h_pool h). rewrite Z.add_simpl_l. apply u16_id. unfold fits. lia.
Qed.

(** ** Live objects *)
Lemma slice_agree m m' i n : 0 <= i -> 0 <= n -> zlen m' = zlen m -> i + n <= zlen m -> agree i (i + n) m m' ->
  slice m' i n = slice m i n.
Proof.
  intros Hi Hn Hl Hin Ha. unfold slice, zlen in *. apply list_eq. intros j.
  destruct (decide (j < Z.to_nat n)%nat) as [Hj|Hj].
  - rewrite !lookup_take_lt, !lookup_drop by done.
    specialize (Ha (i + Z.of_nat j) ltac:(lia)). unfold zget in Ha.
    rewrite (proj2 (Z.ltb_ge _ _)) in Ha by lia. replace (Z.to_nat (i + Z.of_nat j)) with (Z.to_nat i + j)%nat in Ha by lia.
    rewrite !nth_lookup in Ha.
    destruct (lookup_lt_is_Some_2 m (Z.to_nat i + j)) as [x Hx]; [lia|].
    destruct (lookup_lt_is_Some_2 m' (Z.to_nat i + j)) as [y Hy]; [lia|].
    rewrite Hx, Hy in *. cbn in Ha. by subst.
  - by rewrite !lookup_take_ge by lia.
Qed.
Lemma slice_length m i n : 0 <= i -> 0 <= n -> i + n <= zlen m -> zlen (slice m i n) = n.
Proof. intros Hi Hn Hl. unfold slice, zlen in *. rewrite length_take, length_drop. lia. Qed.

Lemma objs_app m block bs cs : objs m block (bs ++ cs) = objs m block bs ++ objs m (block + span bs) cs.
Proof.
  revert block. induction bs as [|b bs IH]; intros block; cbn [app objs]; [by rewrite Z.add_0_r|].
  rewrite IH, <- app_assoc, span_cons. unfold b_span.
  by replace (block + (b_size b + 12) + span bs) with (block + (b_size b + 12 + span bs)) by lia.
Qed.
Lemma objs_agree m m' bs : forall block, 0 <= block -> tiles m block bs -> zlen m' = zlen m ->
  block + span bs <= zlen m -> agree block (block + span bs) m m' -> objs m' block bs = objs m block bs.
Proof.
  induction bs as [|b bs IH]; intros block H0 Ht Hl Hin Ha; [done|]. destruct Ht as (Hb & (O1 & O2 & _) & Ht).
  change MIN_BLOCK_SIZE with 8 in O1. rewrite span_cons in *. pose proof (tiles_span _ _ _ Ht). pose proof (zlen_nonneg bs).
  cbn [objs]. f_equal.
  - destruct (b_owner b); [|done]. do 2 f_equal. apply slice_agree; [lia..|]. intros i Hi. apply Ha. lia.
  - apply IH; unfold b_span; [lia|done|done|lia|]. intros i Hi. apply Ha. lia.
Qed.

Lemma objs_replace m m' pre mid mid' post :
  tiles m 0 (pre ++ mid ++ post) -> span (pre ++ mid ++ post) <= zlen m -> zlen m' = zlen m -> span mid' = span mid ->
  (forall i, 0 <= i -> ~ (span pre <= i < span pre + span mid) -> zget 0 m' i = zget 0 m i) ->
  objs m' 0 (pre ++ mid' ++ post) =
    objs m 0 pre ++ objs m' (span pre) mid' ++ objs m (span pre + span mid) post.
Proof.
  intros Ht Hsp Hl Hm F. rewrite !tiles_app, Z.add_0_l in Ht. destruct Ht as (Tpre & Tmid & Tpost).
  pose proof (tiles_span _ _ _ Tpost). pose proof (tiles_span _ _ _ Tpre). pose proof (tiles_span _ _ _ Tmid).
  pose proof (zlen_nonneg post). pose proof (zlen_nonneg pre). pose proof (zlen_nonneg mid).
  rewrite !span_app in Hsp. rewrite !objs_app, Hm, Z.add_0_l.
  rewrite (objs_agree m m' pre 0) by (done || lia || (intros i Hi; apply F; lia)).
  by rewrite (objs_agree m m' post) by (done || lia || (intros i Hi; apply F; lia)).
Qed.

Lemma walk_report_objs m bs : forall block, 0 <= block -> tiles m block bs -> block + span bs <= 65535 ->
  omap (fun '(i, n, alloc, id) => if alloc : bool then Some (i, id, slice m i n) else None)
    (map (fun block => (block_to_data_ptr m block, u16 (size m block - padding m block), is_allocated m block, node_id m block))
      (List.filter (validate_block m) (offsets block bs))) = objs m block bs.
Proof.
  induction bs as [|b bs IH]; intros block H0 Ht Hmax; [done|]. destruct Ht as (Hb & (O1 & O2 & O3 & O4) & Ht).
  change MIN_BLOCK_SIZE with 8 in O1. rewrite span_cons in *. pose proof (tiles_span _ _ _ Ht). pose proof (zlen_nonneg bs).
  cbn [offsets List.filter]. rewrite (validate_block_at _ _ _ Hb). cbn [map omap list_omap]. rewrite (is_allocated_at _ _ _ Hb).
  pose proof Hb as (_ & E2 & _ & E4 & E5 & _). unfold block_to_data_ptr. rewrite E2, E4, E5. change HEADER_SIZE with 10.
  rewrite u16_id by (unfold fits; lia).
  specialize (IH (block + b_span b) ltac:(unfold b_span; lia) Ht ltac:(unfold b_span; lia)). cbn [objs].
  unfold b_free in *. destruct (b_owner b) as [id|]; cbn [negb default app]; [f_equal|]; exact IH.
Qed.
Lemma live_objs h bs : heap_tiled h bs -> live h = objs (h_mem h) 0 bs.
Proof.
  intros Ht. pose proof (heap_walk_ok _ _ Ht) as Hw. destruct Ht as (Hi & Hl & Hs & _ & _ & Ht & Hsp).
  unfold live, cfl_heap_walk. rewrite Hi, Hw. apply walk_report_objs; (done || lia).
Qed.

Lemma take_block_ok h pre b post id al sz :
  heap_ok h (pre ++ b :: post) -> b_free b = true -> 0 < al -> heap_is_power_of_2 al = true -> fits 16 al -> fits 16 id ->
  let block := span pre in let pad := pad_at (h_pool h) al block in
  MIN_BLOCK_SIZE <= sz -> pad + sz <= b_size b ->
  let h' := take_block h block id pad (pad + sz) in
  heap_ok h' (pre ++ split b pad sz id ++ post) /\
  (forall i, 0 <= i -> ~ (block <= i < block + b_span b) -> zget 0 (h_mem h') i = zget 0 (h_mem h) i) /\
  (exists d, sz <= zlen d /\ data_at (h_pool h) al block + zlen d + 2 <= block + b_span b /\
    live h' = objs (h_mem h) 0 pre ++ (data_at (h_pool h) al block, id, d) :: objs (h_mem h) (block + b_span b) post) /\
  live h = objs (h_mem h) 0 pre ++ objs (h_mem h) (block + b_span b) post.
Proof.
  intros (Ht & Hc & Hst) Hf Ha Hpow Hal Hid block pad H8 Hfit h'.
  destruct (heap_tiled_at _ _ _ _ Ht) as (Hb & Hok & Hpre & Hend & Hlen & Hmax). fold block in Hb, Hpre, Hend.
  pose proof Ht as (Hi & _ & Hs & Hp1 & Hp2 & Htl & Hsp). unfold b_span in Hend. destruct Hok as (O1 & O2 & _).
  change MIN_BLOCK_SIZE with 8 in *. destruct (aligned_data h al block) as (_ & _ & Hpad); [(done || lia)..|]. fold pad in Hpad.
  destruct (take_mem_spec (h_mem h) block b pad sz id) as (L & T & F); try (done || lia || (unfold fits, b_span; lia)).
  assert (h_mem h' = take_mem (h_mem h) block id pad (pad + sz)) as Em by done. rewrite <- Em in *.
  assert (tiles (h_mem h') 0 (pre ++ split b pad sz id ++ post)) as T'.
  { apply (tiles_replace (h_mem h) _ pre [b]); [done|apply span_split|done|]. intros i H0 Hout. apply F; [done|].
    rewrite span_cons in Hout. change (span []) with 0 in Hout. unfold b_span. unfold block. lia. }
  assert (heap_tiled h' (pre ++ split b pad sz id ++ post)) as Ht'.
  { split; [done|]. split; [by rewrite L|]. do 4 (split; [done|]).
    by rewrite !span_app, span_split, <- (span_app [b] post), <- span_app. }
  split; [split; [done|split]|split; [done|split]].
  - by apply coalesced_split.
  - by apply update_stats_ok.
  - rewrite (live_objs _ _ Ht'), (objs_replace (h_mem h) _ pre [b]) by
      (done || apply span_split || (cbn [app]; lia) || (intros i H0 Hout; apply F; [done|];
        rewrite span_cons in Hout; change (span []) with 0 in Hout; unfold b_span; unfold block; lia)).
    fold block. replace (block + span [b]) with (block + b_span b) by (rewrite span_cons; change (span []) with 0; unfold b_span; lia).
    assert (block + 10 + pad = data_at (h_pool h) al block) as Ed by (unfold pad, pad_at; lia).
    unfold split. destruct (Z.leb_spec 20 (b_size b - (pad + sz))); cbn [objs b_owner free_blk app b_pad b_size];
      rewrite Ed; eexists; (split; [|split; [|reflexivity]]); rewrite slice_length by (unfold pad, pad_at in *; lia); unfold b_span; lia.
  - rewrite (live_objs _ _ Ht), objs_app, Z.add_0_l. fold block. cbn [objs]. unfold b_free in Hf. by destruct (b_owner b).
Qed.

(** ** Coalescing and free *)
Lemma coal_coalesced b bs : coalesced (coal b bs) /\ exists c cs, coal b bs = c :: cs /\ (b_free c = b_free b).
Proof.
  revert b. induction bs as [|n bs IH]; intros b; cbn [coal].
  { split; [done|]. by exists b, []. }
  destruct (b_free b && b_free n) eqn:E.
  - destruct (IH (free_blk (b_size b + 12 + b_size n))) as (Hc & c & cs & Ec & Ef). split; [done|].
    exists c, cs. split; [done|]. rewrite Ef. by apply andb_prop in E as [-> _].
  - destruct (IH n) as (Hc & c & cs & Ec & Ef). split; [|by exists b, (coal n bs)].
    rewrite Ec in *. split; [by rewrite Ef|exact Hc].
Qed.

(** Replacing a stretch of the pool by blocks without live objects of the same span. *)
Lemma heap_replace h m' pre mid mid' post :
  heap_tiled h (pre ++ mid ++ post) -> zlen m' = zlen (h_mem h) -> span mid' = span mid -> tiles m' (span pre) mid' ->
  (forall i, 0 <= i -> ~ (span pre <= i < span pre + span mid) -> zget 0 m' i = zget 0 (h_mem h) i) ->
  heap_tiled (h <| h_mem := m' |>) (pre ++ mid' ++ post) /\
  objs m' 0 (pre ++ mid' ++ post) =
    objs (h_mem h) 0 pre ++ objs m' (span pre) mid' ++ objs (h_mem h) (span pre + span mid) post.
Proof.
  intros (Hi & Hlen & Hs & Hp1 & Hp2 & Ht & Hsp) Hl Hm Tm F. split.
  - split; [done|]. split; [exact (eq_trans Hl Hlen)|]. do 3 (split; [done|]).
    split; [by apply (tiles_replace (h_mem h) _ pre mid)|]. transitivity (h_size h); [|done].
    rewrite <- Hsp, !span_app. lia.
  - apply objs_replace; (done || lia).
Qed.

Lemma merge_step h pre b n bs : heap_tiled h (pre ++ b :: n :: bs) -> b_free b = true -> b_free n = true ->
  let h1 := h <| h_mem := merge_mem (h_mem h) (span pre) (span pre + b_span b) |> in
  let bs1 := pre ++ free_blk (b_size b + 12 + b_size n) :: bs in
  heap_tiled h1 bs1 /\ objs (h_mem h1) 0 bs1 = objs (h_mem h) 0 (pre ++ b :: n :: bs).
Proof.
  intros Ht Hb Hn h1 bs1. destruct (heap_tiled_at _ _ _ _ Ht) as (Bb & (O1 & O2 & _) & Hpre & Hend & Hlen & Hmax).
  pose proof Ht as Ht2. rewrite (app_assoc pre [b] (n :: bs) : pre ++ b :: n :: bs = _) in Ht2.
  destruct (heap_tiled_at _ _ _ _ Ht2) as (Bn & (N1 & N2 & _) & Hpre2 & Hend2 & _).
  assert (span (pre ++ [b]) = span pre + b_span b) as Epre by (rewrite span_app, span_cons; change (span []) with 0; unfold b_span; lia).
  rewrite Epre in *. unfold b_span in Hend, Hend2, Hpre2. change MIN_BLOCK_SIZE with 8 in *.
  destruct (merge_mem_spec (h_mem h) (span pre) b n) as (L & B & F); try (done || lia || (unfold fits; lia)).
  cbn [b_size free_blk] in F. unfold blk_word in F.
  assert (span [free_blk (b_size b + 12 + b_size n)] = span [b; n]) as Esp by (rewrite !span_cons; cbn; lia).
  destruct (heap_replace h (merge_mem (h_mem h) (span pre) (span pre + b_span b)) pre [b; n]
    [free_blk (b_size b + 12 + b_size n)] bs) as [T O]; try done.
  - split; [done|]. split; [|done]. apply blk_ok_free. lia.
  - intros i H0 Hout. apply F; [done|]. rewrite <- Esp, span_cons in Hout. cbn in Hout. lia.
  - split; [done|]. change (h_mem h1) with (merge_mem (h_mem h) (span pre) (span pre + b_span b)).
    transitivity (objs (h_mem h) 0 pre ++ [] ++ objs (h_mem h) (span pre + span [b; n]) bs); [exact O|].
    rewrite (objs_app _ 0 pre), Z.add_0_l. cbn [objs app]. unfold b_free in Hb, Hn.
    destruct (b_owner b), (b_owner n); try done. cbn [app]. do 2 f_equal. rewrite !span_cons. unfold b_span. cbn. lia.
Qed.

Lemma coalesce_loop_spec bs : forall fuel h pre b, heap_tiled h (pre ++ b :: bs) -> (length bs < fuel)%nat ->
  exists m', let h' := h <| h_mem := m' |> in coalesce_loop fuel h (span pre) = Some h' /\
    heap_tiled h' (pre ++ coal b bs) /\ objs m' 0 (pre ++ coal b bs) = objs (h_mem h) 0 (pre ++ b :: bs).
Proof.
  induction bs as [|n bs IH]; intros fuel h pre b Ht Hf; (destruct fuel as [|fuel]; [lia|]);
    destruct (heap_tiled_at _ _ _ _ Ht) as (Bb & Ob & Hpre & Hend & _); cbn [coalesce_loop].
  - pose proof Ht as (_ & _ & _ & _ & _ & _ & Hsp).
    rewrite (next_tiles h [] _ b) by (done || (rewrite <- Hsp, span_app, span_cons; unfold b_span; cbn; lia)).
    exists (h_mem h). cbn [coal]. by destruct h.
  - rewrite (next_tiles h (n :: bs) _ b).
    2, 3: done.
    2: { destruct Ht as (_ & _ & _ & _ & _ & _ & Hsp). rewrite <- Hsp, span_app, !span_cons. unfold b_span. lia. }
    2: { destruct Ht as (_ & _ & _ & _ & _ & Ht & _). apply tiles_app in Ht as [_ Ht]. by destruct Ht as (_ & _ & Ht). }
    pose proof Ht as Ht2. rewrite (app_assoc pre [b] (n :: bs) : pre ++ b :: n :: bs = _) in Ht2.
    assert (span (pre ++ [b]) = span pre + b_span b) as Epre by (rewrite span_app, span_cons; change (span []) with 0; unfold b_span; lia).
    destruct (heap_tiled_at _ _ _ _ Ht2) as (Bn & _). rewrite Epre in Bn.
    rewrite (is_allocated_at _ _ _ Bb), (is_allocated_at _ _ _ Bn), !negb_involutive. cbn [coal].
    destruct (b_free b && b_free n) eqn:Ef.
    + apply andb_prop in Ef as [Hb Hn]. destruct (merge_step h pre b n bs Ht Hb Hn) as [T O].
      destruct (IH fuel _ pre _ T ltac:(cbn in Hf; lia)) as (m' & E & T' & O'). exists m'. split; [exact E|].
      split; [exact T'|]. by rewrite O'.
    + destruct (IH fuel h (pre ++ [b]) n Ht2 ltac:(cbn in Hf; lia)) as (m' & E & T' & O'). rewrite Epre in E.
      rewrite <- app_assoc in T'.
      rewrite <- (app_assoc pre [b] (coal n bs)), <- (app_assoc pre [b] (n :: bs)) in O'.
      exists m'. split; [exact E|]. split; [exact T'|exact O'].
Qed.

Lemma find_holds m idx bs : forall block, tiles m block bs ->
  match List.find (holds_data m idx) (offsets block bs) with
  | Some t => exists pre b post, bs = pre ++ b :: post /\ t = block + span pre /\ in_data t b idx
  | None => forall pre b post, bs = pre ++ b :: post -> ~ in_data (block + span pre) b idx
  end.
Proof.
  induction bs as [|b bs IH]; intros block Ht; cbn [offsets List.find]; [by intros [|??]|].
  destruct Ht as (Hb & Hok & Ht). pose proof Hb as (_ & E2 & _ & _ & E5 & _).
  assert (holds_data m idx block = true <-> in_data block b idx) as Hh.
  { unfold holds_data, block_to_data_ptr, in_data. rewrite E2, E5, andb_true_iff, Z.leb_le, Z.ltb_lt. change HEADER_SIZE with 10. lia. }
  destruct (holds_data m idx block).
  - exists [], b, bs. rewrite Z.add_0_r. by rewrite <- Hh.
  - specialize (IH _ Ht). destruct (List.find _ _) as [t|].
    + destruct IH as (pre & c & post & -> & -> & Hin). exists (b :: pre), c, post. rewrite span_cons.
      unfold b_span in *. by replace (block + (b_size b + 12 + span pre)) with (block + (b_size b + 12) + span pre) by lia.
    + intros [|p pre] c post [= -> ->]; [rewrite Z.add_0_r; by rewrite <- Hh|]. rewrite span_cons.
      replace (block + (b_size p + 12 + span pre)) with (block + b_span p + span pre) by (unfold b_span; lia). by apply IH with post.
Qed.

Lemma free_at_cons c cs off idx :
  free_at off (c :: cs) idx <-> (b_free c = true /\ in_data off c idx) \/ free_at (off + b_span c) cs idx.
Proof.
  split.
  - intros ([|p pre] & d & post & [= -> ->] & Hf & Hin); [left; by rewrite Z.add_0_r in Hin|right].
    exists pre, d, post. rewrite span_cons in Hin. unfold b_span.
    by replace (off + (b_size p + 12) + span pre) with (off + (b_size p + 12 + span pre)) by lia.
  - intros [[Hf Hin]|(pre & d & post & -> & Hf & Hin)].
    + exists [], c, cs. by rewrite Z.add_0_r.
    + exists (c :: pre), d, post. rewrite span_cons. unfold b_span in Hin.
      by replace (off + (b_size c + 12 + span pre)) with (off + (b_size c + 12) + span pre) by lia.
Qed.
Lemma coal_free_at bs : forall b off idx, 0 <= b_size b -> Forall blk_ok bs -> (b_free b = true -> b_pad b = 0) ->
  free_at off (b :: bs) idx -> free_at off (coal b bs) idx.
Proof.
  induction bs as [|n bs IH]; intros b off idx Hb Hok Hp Hin; cbn [coal]; [done|].
  apply Forall_cons in Hok as [(O1 & O2 & O3 & _) Hok]. change MIN_BLOCK_SIZE with 8 in O1.
  assert (b_free n = true -> b_pad n = 0) as Hpn by (unfold b_free; intros; apply O3; by destruct (b_owner n)).
  destruct (b_free b && b_free n) eqn:E.
  - apply andb_prop in E as [Eb En]. specialize (Hp Eb). specialize (Hpn En). apply IH; [cbn; lia|done|done|].
    rewrite (free_at_cons b), (free_at_cons n) in Hin. rewrite free_at_cons.
    unfold in_data, b_span in *. cbn [b_size free_blk b_free b_owner b_pad].
    replace (off + (b_size b + 12 + b_size n + 12)) with (off + (b_size b + 12) + (b_size n + 12)) by lia.
    rewrite Hp, Hpn in Hin. destruct Hin as [[_ ?]|[[_ ?]|?]]; [left; split; [done|lia]..|by right].
  - rewrite free_at_cons in Hin |- *. destruct Hin as [?|Hin]; [by left|right]. apply IH; [lia|done..].
Qed.
(** Merging makes no allocated block. *)
Lemma coal_allocated bs : forall b c, c ∈ coal b bs -> b_free c = false -> c ∈ b :: bs.
Proof.
  induction bs as [|n bs IH]; intros b c; cbn [coal]; [done|]. destruct (b_free b && b_free n).
  - intros Hc Hf. destruct (proj1 (elem_of_cons _ _ _) (IH _ _ Hc Hf)) as [E|?]; [by subst c|]. by do 2 apply list_elem_of_further.
  - intros [-> |Hc]%elem_of_cons Hf; [apply list_elem_of_here|]. apply list_elem_of_further. by apply IH.
Qed.
Lemma tiles_all_ok m bs : forall off, tiles m off bs -> Forall blk_ok bs.
Proof. induction bs as [|b bs IH]; intros off; [done|]. intros (_ & ? & ?). constructor; [done|by eapply IH]. Qed.

Lemma free_block_ok h pre b post : heap_ok h (pre ++ b :: post) -> b_free b = false ->
  exists h' bs', coalesce_free_blocks (h <| h_mem := free_mem (h_mem h) (span pre) |>
      <| h_stats ::= fun s => s <| hs_total_frees ::= fun n => u16 (n + 1) |> |>) = Ret h' /\
    heap_ok (heap_update_stats h') bs' /\ (forall c, c ∈ bs' -> b_free c = false -> c ∈ pre ++ b :: post) /\
    (forall idx, in_data (span pre) b idx -> free_at 0 bs' idx) /\
    h_pool h' = h_pool h /\ h_size h' = h_size h /\
    live (heap_update_stats h') = objs (h_mem h) 0 pre ++ objs (h_mem h) (span pre + b_span b) post.
Proof.
  intros (Ht & Hc & _) Hf. destruct (heap_tiled_at _ _ _ _ Ht) as (Bb & (O1 & O2 & _) & Hpre & Hend & Hlen & Hmax).
  unfold b_span in Hend. change MIN_BLOCK_SIZE with 8 in *.
  destruct (free_mem_spec (h_mem h) (span pre) b) as (L & B & F); try (done || lia || (unfold fits; lia)).
  cbn [b_size free_blk] in F. unfold blk_word in F.
  destruct (heap_replace h (free_mem (h_mem h) (span pre)) pre [b] [free_blk (b_size b)] post) as [T O]; try done.
  { split; [done|]. split; [|done]. apply blk_ok_free. lia. }
  { intros i H0 Hout. apply F; [done|]. rewrite span_cons in Hout. change (span []) with 0 in Hout. lia. }
  set (h1 := h <| h_mem := _ |> <| h_stats ::= _ |>).
  assert (exists c cs, pre ++ [free_blk (b_size b)] ++ post = c :: cs) as (c & cs & Ec) by (destruct pre; cbn; eauto).
  assert (heap_tiled h1 ([] ++ c :: cs)) as T1 by (cbn [app]; rewrite <- Ec; exact T).
  destruct (coalesce_loop_spec cs (walk_fuel h1 0) h1 [] c T1) as (m' & E & T' & O').
  { destruct T1 as (_ & _ & _ & _ & _ & Tt & Hsp). apply tiles_span in Tt. cbn [app] in Tt, Hsp. rewrite zlen_cons, Hsp in Tt.
    unfold walk_fuel. rewrite Z.sub_0_r. pose proof (Z.div_mod (h_size h1) 12 ltac:(lia)).
    pose proof (Z.mod_pos_bound (h_size h1) 12 ltac:(lia)). unfold zlen in Tt. lia. }
  change (span []) with 0 in E. exists (h1 <| h_mem := m' |>), (coal c cs). unfold coalesce_free_blocks. rewrite E.
  split; [done|]. split; [split; [exact T'|split; [apply coal_coalesced|by apply update_stats_ok]]|].
  split.
  { intros d Hd Hdf. apply coal_allocated in Hd; [|done]. rewrite <- Ec in Hd.
    apply elem_of_app in Hd as [Hd|[Hd|Hd]%elem_of_cons]; [apply elem_of_app; by left|by subst d|].
    apply elem_of_app. right. by apply list_elem_of_further. }
  split.
  { intros idx Hin. assert (Forall blk_ok (c :: cs)) as [Hokc Hoks]%Forall_cons.
    { destruct T1 as (_ & _ & _ & _ & _ & Tt & _). by apply tiles_all_ok in Tt. }
    destruct Hokc as (C1 & C2 & C3 & _). change MIN_BLOCK_SIZE with 8 in C1.
    apply coal_free_at; [lia|done|intros Hcf; apply C3; unfold b_free in Hcf; by destruct (b_owner c)|].
    rewrite <- Ec. exists pre, (free_blk (b_size b)), post. split; [done|]. split; [done|].
    unfold in_data in *. cbn [b_size b_pad free_blk]. lia. }
  split; [done|]. split; [done|].
  rewrite (live_objs _ (coal c cs)) by exact T'.
  transitivity (objs m' 0 (coal c cs)); [done|]. cbn [app] in O'. rewrite O', <- Ec.
  transitivity (objs (h_mem h) 0 pre ++ [] ++ objs (h_mem h) (span pre + span [b]) post); [exact O|].
  cbn [app]. do 2 f_equal. rewrite span_cons. change (span []) with 0. unfold b_span. lia.
Qed.

(** ** Specification: the client's view *)

#[export] Instance inside_dec idx o : Decision (inside idx o).
Proof. unfold inside. apply _. Defined.

#[export] Instance legal_dec s op : Decision (legal s op).
Proof. destruct op; cbn [legal]; unfold fits; apply _. Defined.

(** ** The operations on a heap in order *)
Lemma heap_fresh_ok addr n owns : 0 < addr -> addr + 2 ^ 17 <= 2 ^ 32 -> 20 <= n < 2 ^ 16 ->
  heap_ok (heap_fresh addr n owns) [free_blk (n - 12)] /\ live (heap_fresh addr n owns) = [].
Proof.
  intros Ha Htop Hn. change (2 ^ 16) with 65536 in Hn. unfold heap_fresh. change HEADER_SIZE with 10. change FOOTER_SIZE with 2.
  replace (n - 10 - 2) with (n - 12) by lia. rewrite u16_id by (unfold fits; lia).
  assert (zlen (replicate (Z.to_nat n) 0) = n) as Hl by (unfold zlen; rewrite length_replicate; lia).
  destruct (write_free_block_spec (replicate (Z.to_nat n) 0) 0 (n - 12)) as (L & B & _); [lia|unfold fits; lia|lia|].
  set (h := mk_heap addr _ n true owns heap_stats0). assert (heap_tiled h [free_blk (n - 12)]) as Ht.
  { split; [done|]. split; [exact (eq_trans L Hl)|]. split; [cbn; lia|]. split; [done|]. split; [done|]. split.
    - split; [done|]. split; [|done]. apply blk_ok_free. lia.
    - rewrite span_cons. cbn. lia. }
  split; [split; [exact Ht|split; [done|by apply update_stats_ok]]|]. by rewrite (live_objs _ [free_blk (n - 12)]) by exact Ht.
Qed.

Lemma rounded_eq sz : 0 < sz <= 65532 -> heap_align_up sz BLOCK_ALIGNMENT = Ret (ceil_to 4 sz) /\
  (if ceil_to 4 sz <? MIN_BLOCK_SIZE then MIN_BLOCK_SIZE else ceil_to 4 sz) = rounded sz.
Proof.
  intros Hs. split.
  - pose proof (align_up_ok sz Hs) as E. unfold align_up, heap_align_up in *. rewrite <- E. done.
  - unfold rounded. change PERM_ALIGNMENT with 4. change MIN_ALLOC_SIZE with MIN_BLOCK_SIZE.
    destruct (Z.ltb_spec (ceil_to 4 sz) MIN_BLOCK_SIZE); lia.
Qed.

(** The free runs of the walk are the free blocks. *)
Lemma walk_report h bs : heap_tiled h bs ->
  cfl_heap_walk (Some h) = map (fun block => (block_to_data_ptr (h_mem h) block, u16 (size (h_mem h) block - padding (h_mem h) block),
    is_allocated (h_mem h) block, node_id (h_mem h) block)) (offsets 0 bs).
Proof.
  intros Ht. pose proof (heap_walk_ok _ _ Ht) as Hw. destruct Ht as (Hi & _ & _ & _ & _ & Ht & _).
  unfold cfl_heap_walk. rewrite Hi, Hw. f_equal. clear Hw. revert Ht. generalize 0. induction bs as [|b bs IH]; intros block Ht; [done|].
  destruct Ht as (Hb & _ & Ht). cbn [offsets List.filter]. by rewrite (validate_block_at _ _ _ Hb), IH.
Qed.
Lemma in_offsets block bs : forall o,
  In block (offsets o bs) <-> exists pre b post, bs = pre ++ b :: post /\ block = o + span pre.
Proof.
  induction bs as [|b bs IH]; intros o; cbn [offsets In].
  - split; [done|]. intros (pre & b & post & H & _). by destruct pre.
  - rewrite IH. split.
    + intros [-> |(pre & c & post & -> & E)]; [exists [], b, bs; split; [done|]; change (span []) with 0; lia|].
      exists (b :: pre), c, post. split; [done|]. rewrite span_cons. unfold b_span in E. lia.
    + intros ([|p pre] & c & post & [= -> ->] & E); [left; change (span []) with 0 in E; lia|right]. exists pre, c, post.
      split; [done|]. rewrite span_cons in E. unfold b_span. lia.
Qed.
Lemma walk_report_blk h bs : heap_tiled h bs -> forall i n a id,
  (i, n, a, id) ∈ cfl_heap_walk (Some h) <->
  exists pre b post, bs = pre ++ b :: post /\ i = span pre + 10 + b_pad b /\ n = b_size b - b_pad b /\ a = negb (b_free b) /\
    id = default NODE_ID_NONE (b_owner b).
Proof.
  intros Ht i n a id. rewrite (walk_report _ _ Ht), list_elem_of_In, in_map_iff.
  assert (forall pre b post, bs = pre ++ b :: post ->
    (block_to_data_ptr (h_mem h) (span pre), u16 (size (h_mem h) (span pre) - padding (h_mem h) (span pre)),
      is_allocated (h_mem h) (span pre), node_id (h_mem h) (span pre)) =
    (span pre + 10 + b_pad b, b_size b - b_pad b, negb (b_free b), default NODE_ID_NONE (b_owner b))) as Hat.
  { intros pre b post ->. destruct (heap_tiled_at _ _ _ _ Ht) as (Bb & (O1 & O2 & _) & Hpre & Hend & Hlen & Hmax).
    unfold b_span in Hend. change MIN_BLOCK_SIZE with 8 in O1.
    rewrite (is_allocated_at _ _ _ Bb). destruct Bb as (_ & E2 & _ & E4 & E5 & _). unfold block_to_data_ptr.
    rewrite E2, E4, E5, u16_id by (unfold fits; lia). done. }
  split.
  - intros (block & E & Hin). apply in_offsets in Hin as (pre & b & post & -> & ->). rewrite Z.add_0_l, (Hat pre b post eq_refl) in E.
    injection E as <- <- <- <-. by exists pre, b, post.
  - intros (pre & b & post & -> & -> & -> & -> & ->). exists (span pre). split; [by apply Hat with post|]. apply in_offsets. by exists pre, b, post.
Qed.

Lemma no_fit_walk h bs al sz : heap_tiled h bs -> no_fit (h_pool h) al (rounded sz) 0 bs -> no_room_for h sz al.
Proof.
  intros Ht Hnf i n id Hin. apply (walk_report_blk _ _ Ht) in Hin as (pre & b & post & -> & -> & -> & Hf & _).
  destruct (heap_tiled_at _ _ _ _ Ht) as (_ & (_ & _ & O3 & _) & _). symmetry in Hf. apply negb_false_iff in Hf.
  assert (b_pad b = 0) as -> by (apply O3; unfold b_free in Hf; by destruct (b_owner b)). clear -Hnf Hf.
  assert (forall o, no_fit (h_pool h) al (rounded sz) o (pre ++ b :: post) -> b_size b < pad_at (h_pool h) al (o + span pre) + rounded sz) as Hg.
  { clear Hnf. induction pre as [|p pre IH]; intros o; cbn [app no_fit].
    - intros [Hx _]. rewrite Z.add_0_r. by apply Hx.
    - intros [_ Hx]. apply IH in Hx. rewrite span_cons. unfold b_span in Hx.
      by replace (o + (b_size p + 12 + span pre)) with (o + (b_size p + 12) + span pre) by lia. }
  apply Hg in Hnf. unfold pad_at, data_at in Hnf. rewrite Z.add_0_l in Hnf.
  replace (h_pool h + (span pre + 10 + 0)) with (h_pool h + span pre + 10) by lia. lia.
Qed.

(** Allocation takes the first free block with room. *)
Lemma heap_alloc_take h bs id sz al : heap_ok h bs -> heap_req_ok id sz al ->
  match cfl_heap_arena_alloc_aligned (Some h) id sz al with
  | Ret (idx, h') => exists pre b post, bs = pre ++ b :: post /\ b_free b = true /\
      let pad := pad_at (h_pool h) al (span pre) in
      pad + rounded sz <= b_size b /\ idx = data_at (h_pool h) al (span pre) /\
      h' = take_block h (span pre) id pad (pad + rounded sz)
  | EXCEPTION msg => msg = "cfl_heap_arena_alloc_aligned: Out of memory"%string /\ no_fit (h_pool h) al (rounded sz) 0 bs
  | Endless => False
  end.
Proof.
  intros Hok ((Hs & Ha & Hpow & Hsum) & Hal & Hid). cbn [fst snd] in *. pose proof Hok as (Ht & _).
  pose proof Ht as (Hi & _). destruct (rounded_eq sz ltac:(lia)) as [Er Em]. pose proof (rounded_bound sz Hs) as Hr.
  assert (8 <= rounded sz) as H8 by (unfold rounded; change MIN_ALLOC_SIZE with 8; lia).
  unfold cfl_heap_arena_alloc_aligned. cbn [not_null]. rewrite Hi. cbn [negb raise_if].
  rewrite (proj2 (Z.eqb_neq sz 0)), (proj2 (Z.eqb_neq al 0)) by lia.
  change (heap_is_power_of_2 al) with (is_power_of_2 al). rewrite Hpow. cbn [negb orb raise_if]. rewrite Er. cbn [cbind].
  rewrite Em, (heap_walk_ok _ _ Ht).
  pose proof (alloc_loop_spec h id (rounded sz) al bs [] Ht Ha Hpow Hal H8) as Hl. cbn [app] in Hl.
  change (span []) with 0 in Hl.
  assert (rounded sz + al <= 65536) as Hsum2.
  { pose proof (heap_pow2 _ Ha Hpow Hal). change (2 ^ 15) with 32768 in *. lia. }
  specialize (Hl Hsum2). destruct (alloc_loop h (offsets 0 bs) id (rounded sz) al) as [[idx h']|msg|]; [|exact Hl|done].
  destruct Hl as (pre & b & post & -> & Hf & _ & Hfit & -> & ->). by exists pre, b, post.
Qed.
Lemma heap_alloc_spec h bs id sz al : heap_ok h bs -> heap_req_ok id sz al ->
  match cfl_heap_arena_alloc_aligned (Some h) id sz al with
  | Ret (idx, h') => h_pool h' = h_pool h /\ h_size h' = h_size h /\ (exists bs', heap_ok h' bs') /\
      exists s1 s2 d, live h = s1 ++ s2 /\ live h' = s1 ++ (idx, id, d) :: s2 /\ rounded sz <= zlen d /\
        (h_pool h + idx) mod al = 0 /\ 0 <= idx /\ idx + zlen d <= h_size h
  | EXCEPTION msg => msg = "cfl_heap_arena_alloc_aligned: Out of memory"%string /\ no_room_for h sz al
  | Endless => False
  end.
Proof.
  intros Hok Hreq. pose proof (heap_alloc_take h bs id sz al Hok Hreq) as Hl. pose proof Hok as (Ht & _).
  destruct Hreq as ((Hs & Ha & Hpow & Hsum) & Hal & Hid). cbn [fst snd] in *. pose proof (rounded_bound sz Hs) as Hr.
  assert (8 <= rounded sz) as H8 by (unfold rounded; change MIN_ALLOC_SIZE with 8; lia).
  destruct (cfl_heap_arena_alloc_aligned (Some h) id sz al) as [[idx h']|msg|]; [|destruct Hl as [-> Hl]|done].
  - destruct Hl as (pre & b & post & -> & Hf & Hfit & -> & ->).
    destruct (take_block_ok h pre b post id al (rounded sz)) as (Hok' & _ & (d & Hd & Hend & Hl') & Hl); try done.
    split; [done|]. split; [done|]. split; [by eexists|]. exists (objs (h_mem h) 0 pre), (objs (h_mem h) (span pre + b_span b) post), d.
    destruct (heap_tiled_at _ _ _ _ Ht) as (_ & _ & Hpre & Hin & _ & Hmax). pose proof Ht as (_ & _ & _ & Hp1 & Hp2 & _).
    do 3 (split; [done|]). unfold data_at in *. destruct (ceil_to_spec al (h_pool h + span pre + 10) Ha) as [Hc Hm].
    split; [by replace (h_pool h + _) with (ceil_to al (h_pool h + span pre + 10)) by lia|]. lia.
  - split; [done|]. by apply (no_fit_walk _ bs).
Qed.

Lemma tiles_at m o pre b post : tiles m o (pre ++ b :: post) -> 0 <= span pre /\ blk_at m (o + span pre) b /\ blk_ok b.
Proof.
  intros [Ht (Hb & Hok & _)]%tiles_app. apply tiles_span in Ht. pose proof (zlen_nonneg pre). split; [lia|done].
Qed.
Lemma in_data_unique m idx pre : forall o b post pre' b' post', tiles m o (pre ++ b :: post) ->
  pre ++ b :: post = pre' ++ b' :: post' -> in_data (o + span pre) b idx -> in_data (o + span pre') b' idx -> b = b'.
Proof.
  unfold in_data. induction pre as [|p pre IH]; intros o b post [|p' pre'] b' post' Ht E H1 H2; cbn [app] in *.
  - by injection E.
  - injection E as -> ->. destruct Ht as (_ & (O1 & O2 & _) & Ht). apply tiles_at in Ht as (Hs & _ & (_ & O3 & _)).
    rewrite span_cons in H2. change (span []) with 0 in *. lia.
  - injection E as -> _. destruct Ht as (_ & (O1 & O2 & _) & Ht). apply tiles_at in Ht as (Hs & _ & (_ & O3 & _)).
    rewrite span_cons in H1. change (span []) with 0 in *. lia.
  - injection E as -> E. destruct Ht as (_ & _ & Ht). rewrite span_cons in H1, H2. unfold b_span in Ht.
    eapply (IH _ _ _ pre' b'); [exact Ht|exact E|lia..].
Qed.

Lemma objs_blk m bs : forall off o, 0 <= off -> tiles m off bs -> off + span bs <= zlen m -> o ∈ objs m off bs ->
  exists pre b post, bs = pre ++ b :: post /\ b_free b = false /\ o.1.1 = off + span pre + 10 + b_pad b /\
    zlen o.2 = b_size b - b_pad b.
Proof.
  induction bs as [|b bs IH]; intros off o H0 Ht Hl Ho; cbn [objs] in Ho; [by apply elem_of_nil in Ho|].
  destruct Ht as (Hb & (O1 & O2 & _) & Ht). change MIN_BLOCK_SIZE with 8 in O1. rewrite span_cons in Hl.
  pose proof (tiles_span _ _ _ Ht). pose proof (zlen_nonneg bs). apply elem_of_app in Ho as [Ho|Ho].
  - unfold b_free. destruct (b_owner b) as [id|] eqn:Eo; [|by apply elem_of_nil in Ho]. apply list_elem_of_singleton in Ho as ->.
    exists [], b, bs. rewrite Eo. change (span []) with 0. cbn [fst snd]. rewrite slice_length by lia. repeat split; lia.
  - apply IH in Ho as (pre & c & post & -> & Hf & E1 & E2); [|unfold b_span; lia|done|unfold b_span; lia].
    exists (b :: pre), c, post. rewrite span_cons. unfold b_span in E1. repeat split; (done || lia).
Qed.
Lemma live_blk h bs idx : heap_tiled h bs -> Exists (inside idx) (live h) ->
  exists pre b post, bs = pre ++ b :: post /\ b_free b = false /\ in_data (span pre) b idx.
Proof.
  intros Ht Hex. apply Exists_exists in Hex as (o & Ho & Hin). rewrite (live_objs _ _ Ht) in Ho.
  destruct Ht as (_ & Hl & Hs & _ & _ & Ht & Hsp). apply objs_blk in Ho as (pre & b & post & -> & Hf & E1 & E2); [|done|done|lia].
  exists pre, b, post. split; [done|]. split; [done|]. unfold inside, in_data in *. lia.
Qed.

(** Free. *)
Lemma heap_free_spec h bs idx : heap_ok h bs -> 0 <= idx ->
  match cfl_heap_free (Some h) idx with
  | Ret h' => h_pool h' = h_pool h /\ h_size h' = h_size h /\ 
      (exists bs', heap_ok h' bs' /\ free_at 0 bs' idx /\ forall c, c ∈ bs' -> b_free c = false -> c ∈ bs) /\
      exists s1 o s2, live h = s1 ++ o :: s2 /\ live h' = s1 ++ s2 /\ inside idx o
  | EXCEPTION msg => free_raises h idx msg
  | Endless => False
  end.
Proof.
  intros Hok Hidx. pose proof Hok as (Ht & _). pose proof Ht as (Hi & Hlen & Hs & _ & _ & Tl & Hsp).
  assert ((forall pre b post, bs = pre ++ b :: post -> b_free b = false -> ~ in_data (span pre) b idx) ->
    Forall (fun o => ~ inside idx o) (live h)) as Hout.
  { intros Hno. apply Forall_Exists_neg. intros Hex. apply (live_blk _ _ _ Ht) in Hex as (pre & b & post & E & Hf & Hin).
    by apply (Hno pre b post). }
  unfold cfl_heap_free. cbn [not_null]. rewrite Hi. cbn [negb raise_if].
  destruct (Z.leb_spec (h_size h) idx) as [Hbig|Hbig]; cbn [raise_if].
  { split; [|by left]. apply Hout. intros pre b post -> _ Hin.
    destruct (heap_tiled_at _ _ _ _ Ht) as (_ & _ & _ & Hend & _). unfold in_data, b_span in *. lia. }
  pose proof (find_holds (h_mem h) idx bs 0 Tl) as Hfind. rewrite (heap_walk_ok _ _ Ht).
  destruct (List.find _ _) as [t|]; cbn [not_null].
  - destruct Hfind as (pre & b & post & -> & -> & Hin). rewrite Z.add_0_l in *.
    destruct (heap_tiled_at _ _ _ _ Ht) as (Bb & (O1 & O2 & _) & Hpre & Hend & _). change MIN_BLOCK_SIZE with 8 in O1.
    rewrite (proj2 (Z.ltb_ge _ 0)), (proj2 (Z.leb_gt (h_size h) _)) by (unfold b_span in Hend; lia). cbn [orb raise_if].
    rewrite (validate_block_at _ _ _ Bb), (is_allocated_at _ _ _ Bb). cbn [negb raise_if]. rewrite negb_involutive.
    destruct (b_free b) eqn:Hf; cbn [raise_if].
    + split.
      * apply Hout. intros pre' b' post' E Hf' Hin'. rewrite (in_data_unique (h_mem h) idx pre 0 b post pre' b' post') in Hf; try done. congruence.
      * right. left. split; [done|]. exists (span pre + 10 + b_pad b), (b_size b - b_pad b), (default NODE_ID_NONE (b_owner b)).
        split; [|unfold in_data in Hin; split; [lia|done]]. apply (walk_report_blk _ _ Ht). exists pre, b, post. by rewrite Hf.
    + destruct (free_block_ok _ _ _ _ Hok Hf) as (h' & bs' & E & Hok' & Hal & Hfree & Ep & Es & El). rewrite E. cbn [cbind].
      split; [done|]. split; [done|]. split; [exists bs'; split; [done|split; [by apply Hfree|exact Hal]]|].
      assert (live h = objs (h_mem h) 0 pre ++ objs (h_mem h) (span pre) [b] ++ objs (h_mem h) (span pre + b_span b) post) as El0.
      { rewrite (live_objs _ _ Ht). rewrite (app_assoc pre [b] post : pre ++ b :: post = _). rewrite !objs_app, <- app_assoc.
        rewrite span_app, span_cons. change (span []) with 0. unfold b_span. do 3 f_equal. lia. }
      rewrite El0, El. cbn [objs]. unfold b_free in Hf. destruct (b_owner b) as [id|]; [|done].
      eexists _, _, _. split; [reflexivity|]. split; [done|]. unfold inside, in_data in *. cbn [fst snd].
      destruct (heap_tiled_at _ _ _ _ Ht) as (_ & _ & _ & _ & Hl & _). unfold b_span in Hend. rewrite slice_length; lia.
  - split; [by apply Hout; intros pre b post E _; apply (Hfind pre b post)|]. right. right. split; [done|]. split; [|done].
    intros i n a id Hin Hr. apply (walk_report_blk _ _ Ht) in Hin as (pre & b & post & E & -> & -> & _).
    apply (Hfind pre b post E). unfold in_data. lia.
Qed.

(** Stores into an object. *)
Lemma slice_zset m i n idx v : 0 <= i -> i <= idx < i + n -> i + n <= zlen m ->
  slice (zset m idx v) i n = zset (slice m i n) (idx - i) v.
Proof.
  intros Hi Hr Hl. unfold slice, zset, zlen in *. rewrite !(proj2 (Z.ltb_ge _ _)) by lia.
  apply list_eq. intros j. destruct (decide (j < Z.to_nat n)%nat) as [Hj|Hj].
  - rewrite lookup_take_lt, lookup_drop by done. destruct (decide (j = Z.to_nat (idx - i))) as [->|Hne].
    + replace (Z.to_nat i + Z.to_nat (idx - i))%nat with (Z.to_nat idx) by lia.
      rewrite !list_lookup_insert_eq; [done| |lia]. rewrite length_take, length_drop. lia.
    + rewrite !list_lookup_insert_ne by lia. by rewrite lookup_take_lt, lookup_drop by done.
  - rewrite lookup_take_ge by lia. symmetry. apply lookup_ge_None. rewrite length_insert, length_take. lia.
Qed.

Lemma heap_write_spec h bs idx v : heap_ok h bs -> Exists (inside idx) (live h) ->
  let h' := h <| h_mem ::= fun m => zset m idx v |> in
  heap_ok h' bs /\ exists s1 i id d s2, live h = s1 ++ (i, id, d) :: s2 /\ inside idx (i, id, d) /\
    live h' = s1 ++ (i, id, zset d (idx - i) v) :: s2.
Proof.
  intros (Ht & Hc & Hst) Hex h'. destruct (live_blk _ _ _ Ht Hex) as (pre & b & post & -> & Hf & Hin).
  destruct (heap_tiled_at _ _ _ _ Ht) as (Bb & (O1 & O2 & O3) & Hpre & Hend & Hl & Hmax). change MIN_BLOCK_SIZE with 8 in O1.
  unfold in_data in Hin. unfold b_span in Hend.
  assert (forall i, 0 <= i -> i <> idx -> zget 0 (zset (h_mem h) idx v) i = zget 0 (h_mem h) i) as F.
  { intros i Hi Hne. apply zget_zset_ne; lia. }
  destruct (heap_replace h (zset (h_mem h) idx v) pre [b] [b] post) as [T O]; try done.
  { unfold zlen. by rewrite zlen_zset. }
  { split; [|done]. apply (blk_at_agree (h_mem h)); [lia| |done]. intros i Hi. unfold blk_word in Hi. apply F; lia. }
  { intros i Hi Hout. rewrite span_cons in Hout. change (span []) with 0 in Hout. apply F; lia. }
  split; [by split|]. rewrite (live_objs h' (pre ++ b :: post) T), (live_objs _ _ Ht).
  change (h_mem h') with (zset (h_mem h) idx v). change (b :: post) with ([b] ++ post). rewrite O, !objs_app, Z.add_0_l.
  cbn [objs]. unfold b_free in Hf. destruct (b_owner b) as [id|]; [|done]. cbn [app].
  eexists _, _, _, _, _. split; [reflexivity|]. split.
  - unfold inside. cbn [fst snd]. rewrite slice_length; lia.
  - by rewrite slice_zset by lia.
Qed.

Lemma store_ok_from a b limit s : b <= a -> a <= limit -> store_ok a limit s -> store_ok b limit s.
Proof. destruct s as [|o s]; cbn [store_ok]; [lia|]. intros ?? [? ?]. split; [lia|done]. Qed.
Lemma objs_store_ok m bs : forall off, 0 <= off -> tiles m off bs -> off + span bs <= zlen m ->
  store_ok off (off + span bs) (objs m off bs).
Proof.
  induction bs as [|b bs IH]; intros off H0 Ht Hl; cbn [objs app].
  { change (span []) with 0. cbn [store_ok]. lia. }
  destruct Ht as (_ & (O1 & O2 & _) & Ht). change MIN_BLOCK_SIZE with 8 in O1. rewrite span_cons in *.
  pose proof (tiles_span _ _ _ Ht). pose proof (zlen_nonneg bs). specialize (IH (off + b_span b)). unfold b_span in *.
  replace (off + (b_size b + 12) + span bs) with (off + (b_size b + 12 + span bs)) in IH by lia.
  specialize (IH ltac:(lia) Ht Hl). destruct (b_owner b) as [id|]; cbn [app store_ok fst snd].
  - rewrite slice_length by lia. split; [lia|]. split; [lia|]. apply (store_ok_from (off + (b_size b + 12))); [lia..|done].
  - apply (store_ok_from (off + (b_size b + 12))); [lia..|done].
Qed.
Lemma live_store_ok h bs : heap_ok h bs -> store_ok 0 (h_size h) (live h).
Proof.
  intros (Ht & _). rewrite (live_objs _ _ Ht). destruct Ht as (_ & Hl & Hs & _ & _ & Ht & Hsp).
  rewrite <- Hsp, <- (Z.add_0_l (span bs)). apply objs_store_ok; [done|done|lia].
Qed.

(** ** What the heap promises its clients: the extents (index, length) of the live objects *)
Definition extents (h : CflHeap) : list (Z * Z) := map (fun o => (o.1.1, zlen o.2)) (live h).

Lemma store_ok_bounds limit s : forall from, store_ok from limit s ->
  from <= limit /\ Forall (fun o => from <= o.1.1 /\ 0 < zlen o.2 /\ o.1.1 + zlen o.2 <= limit) s.
Proof.
  induction s as [|o s IH]; intros from H; [done|]. destruct H as (H1 & H2 & H). apply IH in H as [H3 H]. split; [lia|].
  constructor; [lia|]. eapply Forall_impl; [exact H|]. cbn beta. intros p. lia.
Qed.
Lemma store_ok_disjoint limit s : forall from, store_ok from limit s -> forall o p, o ∈ s -> p ∈ s ->
  (o.1.1, zlen o.2) = (p.1.1, zlen p.2) \/ o.1.1 + zlen o.2 <= p.1.1 \/ p.1.1 + zlen p.2 <= o.1.1.
Proof.
  induction s as [|q s IH]; intros from H o p Ho Hp; [by apply elem_of_nil in Ho|]. destruct H as (_ & _ & H).
  pose proof (proj2 (store_ok_bounds _ _ _ H)) as Hb. rewrite Forall_forall in Hb.
  apply elem_of_cons in Ho as [-> |Ho], Hp as [-> |Hp].
  - by left.
  - right. left. by apply Hb.
  - right. right. by apply Hb.
  - by eapply IH.
Qed.
Lemma extents_disjoint h bs e f : heap_ok h bs -> e ∈ extents h -> f ∈ extents h ->
  e = f \/ e.1 + e.2 <= f.1 \/ f.1 + f.2 <= e.1.
Proof.
  intros Hok He Hf. unfold extents in *. rewrite list_elem_of_In, in_map_iff in He, Hf.
  destruct He as (o & <- & Ho), Hf as (p & <- & Hp). rewrite <- list_elem_of_In in Ho, Hp.
  by apply (store_ok_disjoint _ _ _ (live_store_ok _ _ Hok)).
Qed.
Lemma extents_bounds h bs e : heap_ok h bs -> e ∈ extents h -> 0 <= e.1 /\ 0 < e.2 /\ e.1 + e.2 <= h_size h.
Proof.
  intros Hok He. unfold extents in He. rewrite list_elem_of_In, in_map_iff in He. destruct He as (o & <- & Ho).
  rewrite <- list_elem_of_In in Ho. pose proof (proj2 (store_ok_bounds _ _ _ (live_store_ok _ _ Hok))) as Hb.
  rewrite Forall_forall in Hb. by apply Hb.
Qed.

(** Allocation adds one extent. *)
Lemma heap_alloc_extents h bs id sz al idx h' : heap_ok h bs -> heap_req_ok id sz al ->
  cfl_heap_arena_alloc_aligned (Some h) id sz al = Ret (idx, h') ->
  h_pool h' = h_pool h /\ h_size h' = h_size h /\ (exists bs', heap_ok h' bs') /\
  exists len, rounded sz <= len /\ (h_pool h + idx) mod al = 0 /\
    (forall e, e ∈ extents h' <-> e = (idx, len) \/ e ∈ extents h) /\
    (forall e, e ∈ extents h -> e.1 <> idx).
Proof.
  intros Hok Hreq E. pose proof (heap_alloc_spec h bs id sz al Hok Hreq) as Ha. rewrite E in Ha.
  destruct Ha as (Ep & Es & (bs' & Hok') & s1 & s2 & d & E1 & E2 & Hd & Hal & _).
  split; [done|]. split; [done|]. split; [by exists bs'|]. exists (zlen d). split; [done|]. split; [done|].
  assert (extents h' = map (fun o => (o.1.1, zlen o.2)) s1 ++ (idx, zlen d) :: map (fun o => (o.1.1, zlen o.2)) s2) as X2
    by (unfold extents; by rewrite E2, map_app).
  assert (extents h = map (fun o => (o.1.1, zlen o.2)) s1 ++ map (fun o => (o.1.1, zlen o.2)) s2) as X1
    by (unfold extents; by rewrite E1, map_app).
  split.
  - intros e. rewrite X1, X2, !elem_of_app, elem_of_cons. tauto.
  - intros e He Heq. pose proof (live_store_ok _ _ Hok') as Hs. rewrite E2 in Hs.
    clear -Hs He Heq X1. revert Hs. generalize 0. rewrite X1 in He. clear X1.
    induction s1 as [|o s1 IH]; cbn [app map store_ok fst snd] in *; intros from.
    + intros (_ & Hpos & Hs). apply store_ok_bounds in Hs as [_ Hs]. rewrite Forall_forall in Hs.
      rewrite list_elem_of_In, in_map_iff in He. destruct He as (p & <- & Hp). rewrite <- list_elem_of_In in Hp.
      apply Hs in Hp. cbn in Heq. lia.
    + intros (_ & Hpos & Hs). apply elem_of_cons in He as [-> |He]; [|by eapply IH].
      apply store_ok_bounds in Hs as [_ Hs]. apply Forall_app in Hs as [_ Hs]. apply Forall_cons in Hs as [Hs _].
      cbn in *. lia.
Qed.
(** Freeing the start of an extent takes it away. *)
Lemma heap_free_extents h bs e : heap_ok h bs -> e ∈ extents h ->
  exists h', cfl_heap_free (Some h) e.1 = Ret h' /\ h_pool h' = h_pool h /\ h_size h' = h_size h /\
    (exists bs', heap_ok h' bs') /\ (forall f, f ∈ extents h' <-> f ∈ extents h /\ f.1 <> e.1).
Proof.
  intros Hok He. pose proof (extents_bounds _ _ _ Hok He) as Hb. pose proof (heap_free_spec h bs e.1 Hok ltac:(lia)) as Hf.
  pose proof He as He2. unfold extents in He2. rewrite list_elem_of_In, in_map_iff in He2. destruct He2 as (o & Eo & Ho).
  rewrite <- list_elem_of_In in Ho. assert (inside e.1 o) as Hin by (rewrite <- Eo in *; unfold inside; cbn in *; lia).
  destruct (cfl_heap_free (Some h) e.1) as [h'|msg|]; [|destruct Hf as [Hf _]; rewrite Forall_forall in Hf; by apply Hf in Ho|done].
  destruct Hf as (Ep & Es & (bs' & Hok' & _) & s1 & p & s2 & E1 & E2 & Hp). exists h'. split; [done|]. split; [done|]. split; [done|].
  split; [by exists bs'|].
  assert (p ∈ live h) as Hpl by (rewrite E1; apply elem_of_app; right; by left).
  assert (p.1.1 = e.1) as Epe.
  { destruct (store_ok_disjoint _ _ _ (live_store_ok _ _ Hok) o p Ho Hpl) as [E|[?|?]]; [|unfold inside in *; lia..].
    rewrite <- Eo. by injection E. }
  assert (extents h' = map (fun o => (o.1.1, zlen o.2)) s1 ++ map (fun o => (o.1.1, zlen o.2)) s2) as X2
    by (unfold extents; by rewrite E2, map_app).
  assert (extents h = map (fun o => (o.1.1, zlen o.2)) s1 ++ (p.1.1, zlen p.2) :: map (fun o => (o.1.1, zlen o.2)) s2) as X1
    by (unfold extents; by rewrite E1, map_app).
  pose proof (live_store_ok _ _ Hok) as Hs. rewrite E1 in Hs. intros f. rewrite X1, X2, !elem_of_app, elem_of_cons.
  assert (forall q, q ∈ s1 \/ q ∈ s2 -> q.1.1 <> p.1.1) as Hne.
  { clear -Hs. revert Hs. generalize 0. induction s1 as [|q s1 IH]; cbn [app store_ok]; intros from (_ & Hpos & Hs).
    - intros q [Hq|Hq]; [by apply elem_of_nil in Hq|]. apply store_ok_bounds in Hs as [_ Hs]. rewrite Forall_forall in Hs.
      apply Hs in Hq. lia.
    - intros r [Hr|Hr]; [apply elem_of_cons in Hr as [-> |Hr]|]; [|by eapply IH; [exact Hs|left]|by eapply IH; [exact Hs|right]].
      apply store_ok_bounds in Hs as [_ Hs]. apply Forall_app in Hs as [_ Hs]. apply Forall_cons in Hs as [Hs _]. lia. }
  assert (forall g l, g ∈ map (fun o : Z * Z * list Z => (o.1.1, zlen o.2)) l -> exists q, q ∈ l /\ g.1 = q.1.1) as Hmap.
  { intros g l Hg. rewrite list_elem_of_In, in_map_iff in Hg. destruct Hg as (q & <- & Hq). exists q. by rewrite list_elem_of_In. }
  rewrite <- Epe. split.
  - intros Hf. split; [tauto|]. destruct Hf as [Hf|Hf]; apply Hmap in Hf as (q & Hq & ->); apply Hne; tauto.
  - intros [[?|[-> |?]] Hn]; [by left|done|by right].
Qed.
(** A store into an object leaves the extents. *)
Lemma heap_write_extents h bs idx v : heap_ok h bs -> Exists (inside idx) (live h) ->
  let h' := h <| h_mem ::= fun m => zset m idx v |> in heap_ok h' bs /\ extents h' = extents h.
Proof.
  intros Hok Hex h'. destruct (heap_write_spec h bs idx v Hok Hex) as (Hok' & s1 & i & id & d & s2 & E1 & _ & E2).
  split; [done|]. unfold extents. fold h' in E2. rewrite E1, E2, !map_app. cbn [map fst snd]. unfold zlen. by rewrite zlen_zset.
Qed.

Lemma heap_exec_spec h bs op : heap_ok h bs -> legal (live h) op ->
  match heap_exec h op with
  | Ret (r, h') => h_pool h' = h_pool h /\ h_size h' = h_size h /\ (exists bs', heap_ok h' bs') /\
      store_step (h_pool h) (live h) op r (live h')
  | EXCEPTION msg => raises h op msg
  | Endless => False
  end.
Proof.
  intros Hok Hlegal. destruct op as [id sz al|idx|idx v]; cbn [heap_exec legal raises] in *.
  - pose proof (heap_alloc_spec h bs id sz al Hok Hlegal) as Ha. destruct (cfl_heap_arena_alloc_aligned _ _ _ _) as [[idx h']|msg|]; cbn [cbind fst snd]; [|done..].
    destruct Ha as (Ep & Es & Hok' & s1 & s2 & d & -> & -> & Hd & Hal & _). do 3 (split; [done|]).
    apply step_alloc; [|done]. destruct Hlegal as ((Hs & _) & _). cbn [fst] in Hs. pose proof (rounded_bound sz Hs). lia.
  - pose proof (heap_free_spec h bs idx Hok Hlegal) as Hf. destruct (cfl_heap_free _ _) as [h'|msg|]; cbn [cbind]; [|done..].
    destruct Hf as (Ep & Es & (bs' & Hok' & _) & s1 & o & s2 & -> & -> & Hin).
    do 2 (split; [done|]). split; [by exists bs'|]. by apply step_free.
  - destruct Hlegal as [Hv Hex]. destruct (heap_write_spec h bs idx v Hok Hex) as (Hok' & s1 & i & id & d & s2 & -> & Hin & El).
    split; [done|]. split; [done|]. split; [by exists bs|]. rewrite El. by apply step_write.
Qed.

Lemma heap_reach_inv addr n h : 0 < addr -> addr + 2 ^ 17 <= 2 ^ 32 -> 20 <= n < 2 ^ 16 ->
  heap_reach addr n h -> heap_inv addr n h.
Proof.
  intros Ha Htop Hn Hr. induction Hr as [owns|h op r h' _ (Ep & Es & bs & Hok) Hlegal E].
  - split; [done|]. split; [done|]. eexists. by apply heap_fresh_ok.
  - pose proof (heap_exec_spec h bs op Hok Hlegal) as He. rewrite E in He. destruct He as (Ep' & Es' & Hok' & _).
    split; [congruence|]. split; [congruence|done].
Qed.

(** An index in a free block: a double free. *)
Lemma free_at_raises h bs idx : heap_ok h bs -> free_at 0 bs idx ->
  cfl_heap_free (Some h) idx = EXCEPTION "cfl_heap_free: Double free detected".
Proof.
  intros Hok (pre & b & post & -> & Hf & Hin). rewrite Z.add_0_l in Hin. pose proof Hok as (Ht & _).
  destruct (heap_tiled_at _ _ _ _ Ht) as (Bb & (O1 & O2 & _) & Hpre & Hend & _). change MIN_BLOCK_SIZE with 8 in O1.
  pose proof (heap_free_spec h _ idx Hok ltac:(unfold in_data in Hin; lia)) as Hs.
  assert ((span pre + 10 + b_pad b, b_size b - b_pad b, false, default NODE_ID_NONE (b_owner b)) ∈ cfl_heap_walk (Some h)) as Hw.
  { apply (walk_report_blk _ _ Ht). exists pre, b, post. by rewrite Hf. }
  assert (~ Exists (inside idx) (live h)) as Hno.
  { intros Hex. apply (live_blk _ _ _ Ht) in Hex as (pre' & b' & post' & E & Hf' & Hin').
    pose proof Ht as (_ & _ & _ & _ & _ & Tl & _).
    rewrite (in_data_unique (h_mem h) idx pre 0 b post pre' b' post') in Hf; try done. congruence. }
  unfold in_data, b_span in *. destruct (cfl_heap_free (Some h) idx) as [h'|msg|]; [|f_equal|done].
  - destruct Hs as (_ & _ & _ & s1 & o & s2 & E & _ & Ho). exfalso. apply Hno. rewrite E. apply Exists_app. right. by constructor.
  - destruct Hs as [_ [[? _]|[(_ & _ & _ & _ & _ & _ & ->)|(_ & Hn & _)]]]; [lia|done|].
    exfalso. apply (Hn _ _ _ _ Hw). lia.
Qed.

Lemma objs_nil m bs : forall off, objs m off bs = [] -> Forall (fun b => b_free b = true) bs.
Proof.
  induction bs as [|b bs IH]; intros off H; [done|]. cbn [objs] in H. constructor.
  - unfold b_free. by destruct (b_owner b).
  - apply app_eq_nil in H as [_ H]. by eapply IH.
Qed.
Lemma heap_drained h bs : heap_ok h bs -> live h = [] -> bs = [free_blk (h_size h - 12)].
Proof.
  intros (Ht & Hc & _) Hl. rewrite (live_objs _ _ Ht) in Hl. apply objs_nil in Hl.
  destruct Ht as (_ & _ & Hs & _ & _ & Ht & Hsp). destruct bs as [|b [|c bs]].
  - cbn in Hsp. lia.
  - destruct Ht as (_ & (_ & _ & O3 & _) & _). rewrite span_cons in Hsp. change (span []) with 0 in Hsp.
    apply Forall_cons in Hl as [Hf _]. destruct b as [sz pad [o|]]; [done|]. cbn in *. rewrite O3 by done. unfold free_blk. do 2 f_equal. lia.
  - apply Forall_cons in Hl as [Hb [Hcf _]%Forall_cons]. destruct Hc as [Hc _]. by rewrite Hb, Hcf in Hc.
Qed.

#[export] Instance legal_run_dec h ops : Decision (legal_run h ops).
Proof. revert h. induction ops as [|op ops IH]; intros h; cbn [legal_run]; [apply _|]. destruct (heap_exec h op); apply _. Defined.
Lemma heap_run_reach addr n ops : forall h rs h', heap_reach addr n h -> legal_run h ops -> heap_run h ops = Ret (rs, h') ->
  heap_reach addr n h'.
Proof.
  induction ops as [|op ops IH]; intros h rs h' Hr Hl E; cbn [heap_run legal_run] in *; [by injection E as <- <-|].
  destruct Hl as [Hl Hls]. destruct (heap_exec h op) as [[r h1]|msg|] eqn:Ex; cbn [cbind fst snd] in *; [|done..].
  destruct (heap_run h1 ops) as [[rs' h2]|msg|] eqn:E2; cbn [cbind fst snd] in *; [|done..]. injection E as <- <-.
  eapply IH; [|done|done]. by eapply heap_reach_op.
Qed.
Lemma example_pool_ok : 0 < 0x20000000 /\ 0x20000000 + 2 ^ 17 <= 2 ^ 32 /\ 20 <= 128 < 2 ^ 16.
Proof. done. Qed.
Lemma example_used_reach : heap_reach 0x20000000 128 example_used.
Proof.
  assert (heap_run example_heap example_ops = Ret ([Some 12; Some 48; None; None], example_used)) as E by (vm_compute; reflexivity).
  assert (legal_run example_heap example_ops) as Hl by vm_decide.
  exact (heap_run_reach _ _ _ _ _ _ (heap_reach_fresh _ _ false) Hl E).
Qed.

(** A request whose padding and rounded size pass 65535 takes a block too short for it:
    the 16-bit [total_needed] wraps. Here 65532 bytes are "allocated" from 116. *)
Lemma alloc_total_wraps :
  match cfl_heap_arena_alloc_aligned (Some example_heap) 1 65532 16 with
  | Ret (idx, h') => idx = 16 /\ cfl_heap_walk (Some h') = [(16, 65532, true, 1); (24, 102, false, NODE_ID_NONE)]
  | _ => False
  end.
Proof. vm_compute. by split. Qed.
(** 65533 bytes and more round up to nothing: 8 bytes are handed out. *)
Lemma alloc_size_wraps_heap :
  match cfl_heap_malloc (Some example_heap) 65535 with
  | Ret (idx, h') => idx = 12 /\
      cfl_heap_walk (Some h') = [(12, 8, true, NODE_ID_NONE); (32, 94, false, NODE_ID_NONE)]
  | _ => False
  end.
Proof. vm_compute. by split. Qed.
(** In a pool of an odd size the last footer is a 16-bit access at an odd address. *)
Lemma odd_pool_misaligned : size (h_mem (heap_fresh 0x20000000 129 false)) 0 = 117 /\ (0x20000000 + 0 + HEADER_SIZE + 117) mod 2 = 1.
Proof. by vm_compute. Qed.

Lemma coalesce_endless : forall fuel, coalesce_loop fuel overrun_heap 0 = None.
Proof.
  induction fuel as [|fuel IH]; [done|]. cbn [coalesce_loop].
  assert (get_next_block overrun_heap 0 = Some 32) as -> by by vm_compute.
  assert (negb (is_allocated (h_mem overrun_heap) 0) && negb (is_allocated (h_mem overrun_heap) 32) = true) as -> by by vm_compute.
  assert (merge_mem (h_mem overrun_heap) 0 32 = h_mem overrun_heap) as -> by by vm_compute. exact IH.
Qed.

(** ** Properties *)

(** C14. The heap is an object store. From a fresh pool, whatever the client allocates,
    frees and stores in bytes of its own objects: the live objects (what the heap's own
    walk reports as allocated) lie inside the pool, each behind the ones before, and the
    heap passes its own validation. An allocation adds one object, at least as long as
    asked and aligned, and leaves every byte of the others; a free takes away exactly the
    object its index is inside; a store changes one byte of one object. An operation never
    hangs, and raises only for its reason: no free run has room for the request, or the
    freed index is beyond the pool, in a free run, or in no block's data. *)
Theorem heap_refines_store addr n h :
  0 < addr -> addr + 2 ^ 17 <= 2 ^ 32 -> 20 <= n < 2 ^ 16 -> heap_reach addr n h ->
  store_ok 0 n (live h) /\ cfl_heap_validate (Some h) = true /\
  forall op, legal (live h) op ->
    match heap_exec h op with
    | Ret (r, h') => store_step addr (live h) op r (live h')
    | EXCEPTION msg => raises h op msg
    | Endless => False
    end.
Proof.
  intros Ha Htop Hn Hr. destruct (heap_reach_inv _ _ _ Ha Htop Hn Hr) as (<- & <- & bs & Hok).
  split; [by apply (live_store_ok h bs)|]. split; [by apply (heap_validate_ok h bs), Hok|].
  intros op Hl. pose proof (heap_exec_spec h bs op Hok Hl) as He. destruct (heap_exec h op) as [[r h']|msg|]; [|done..].
  by destruct He as (_ & _ & _ & Hs).
Qed.

Lemma heap_refines_store_witness :
  live example_used = [(48, 4, [0; 7; 0; 0; 0; 0; 0; 0])] /\
  store_ok 0 128 (live example_used) /\ cfl_heap_validate (Some example_used) = true /\
  forall op, legal (live example_used) op ->
    match heap_exec example_used op with
    | Ret (r, h') => store_step 0x20000000 (live example_used) op r (live h')
    | EXCEPTION msg => raises example_used op msg
    | Endless => False
    end.
Proof.
  split; [vm_compute; reflexivity|].
  apply (heap_refines_store 0x20000000 128 example_used); [done|done|done|apply example_used_reach].
Defined.

(** C40. A second free of an index that was just freed is caught: it raises "Double free
    detected", whatever the free merged the block with. *)
Theorem heap_double_free_raises addr n h idx h' :
  0 < addr -> addr + 2 ^ 17 <= 2 ^ 32 -> 20 <= n < 2 ^ 16 -> heap_reach addr n h -> 0 <= idx ->
  cfl_heap_free (Some h) idx = Ret h' ->
  cfl_heap_free (Some h') idx = EXCEPTION "cfl_heap_free: Double free detected".
Proof.
  intros Ha Htop Hn Hr Hidx E. destruct (heap_reach_inv _ _ _ Ha Htop Hn Hr) as (_ & _ & bs & Hok).
  pose proof (heap_free_spec h bs idx Hok Hidx) as Hf. rewrite E in Hf. destruct Hf as (_ & _ & (bs' & Hok' & Hat & _) & _).
  by apply (free_at_raises h' bs').
Qed.

Lemma heap_double_free_raises_witness : exists h', cfl_heap_free (Some example_used) 50 = Ret h' /\
  cfl_heap_free (Some h') 50 = EXCEPTION "cfl_heap_free: Double free detected".
Proof.
  destruct (cfl_heap_free (Some example_used) 50) as [h'|msg|] eqn:E; [|vm_compute in E; discriminate E..].
  exists h'. split; [reflexivity|].
  pose proof example_pool_ok as (P1 & P2 & P3).
  apply (heap_double_free_raises 0x20000000 128 example_used 50 h' P1 P2 P3 example_used_reach); [lia|exact E].
Defined.

(** No fragmentation outlives the objects: when the client has freed everything, in
    whatever order, the pool is one free run of all its bytes again, and the statistics
    say so. *)
Theorem heap_drains addr n h :
  0 < addr -> addr + 2 ^ 17 <= 2 ^ 32 -> 20 <= n < 2 ^ 16 -> heap_reach addr n h -> live h = [] ->
  cfl_heap_walk (Some h) = [(10, n - 12, false, NODE_ID_NONE)] /\ cfl_heap_free_bytes (Some h) = n /\
  hs_largest_free_block (h_stats h) = n - 12.
Proof.
  intros Ha Htop Hn Hr Hl. destruct (heap_reach_inv _ _ _ Ha Htop Hn Hr) as (_ & <- & bs & Hok).
  pose proof (heap_drained _ _ Hok Hl) as ->. destruct Hok as (Ht & _ & Hu & Hus & Hla & _).
  pose proof Ht as (Hi & _ & Hs & _ & _ & (Hb & _) & _). change (2 ^ 16) with 65536 in Hs. split; [|split].
  - rewrite (walk_report _ _ Ht). cbn [offsets map]. rewrite (is_allocated_at _ _ _ Hb).
    destruct Hb as (_ & E2 & _ & E4 & E5 & _). unfold block_to_data_ptr. rewrite E2, E4, E5. cbn [b_size b_pad free_blk b_owner default].
    rewrite u16_id by (unfold fits; lia). do 4 f_equal. lia.
  - unfold cfl_heap_free_bytes. rewrite Hi, Hus. change (used_in _) with 0. rewrite u16_id; [lia|unfold fits; lia].
  - rewrite Hla. unfold largest_in. cbn. lia.
Qed.

Lemma heap_drains_witness : exists h', cfl_heap_free (Some example_used) 48 = Ret h' /\
  cfl_heap_walk (Some h') = [(10, 128 - 12, false, NODE_ID_NONE)] /\ cfl_heap_free_bytes (Some h') = 128 /\
  hs_largest_free_block (h_stats h') = 128 - 12.
Proof.
  destruct (cfl_heap_free (Some example_used) 48) as [h'|msg|] eqn:E; [|vm_compute in E; discriminate E..].
  exists h'. split; [reflexivity|]. pose proof example_pool_ok as (P1 & P2 & P3).
  apply (heap_drains 0x20000000 128 h' P1 P2 P3).
  - apply (heap_reach_op _ _ example_used (HFree 48) None h' example_used_reach); [cbn [legal]; lia|]. cbn [heap_exec]. rewrite E. reflexivity.
  - assert (match cfl_heap_free (Some example_used) 48 with Ret h' => live h' = [] | _ => False end) as H by (vm_compute; reflexivity).
    rewrite E in H. exact H.
Defined.

(** Every walk over the blocks ends, whatever bytes the pool holds, a corrupt heap
    included: [walk] is the C loop's own unfolding step by step, and has at most one block
    for every twelve bytes of the pool and one more. *)
Theorem heap_walk_terminates h :
  bytes_ok (h_mem h) -> 0 <= h_size h ->
  walk h = 0 :: match get_next_block h 0 with Some next => walk_from (walk_fuel h next) h next | None => [] end /\
  (forall block, walk_from (walk_fuel h block) h block =
    block :: match get_next_block h block with Some next => walk_from (walk_fuel h next) h next | None => [] end) /\
  zlen (walk h) <= h_size h / 12 + 1.
Proof.
  intros Hm Hs. split; [by apply walk_complete|]. split; [intros block; by apply walk_complete|].
  assert (forall fuel block, (length (walk_from fuel h block) <= fuel)%nat) as Hlen.
  { induction fuel as [|fuel IH]; intros block; [done|]. cbn [walk_from length].
    destruct (get_next_block h block) as [next|]; [|cbn; lia]. specialize (IH next). lia. }
  unfold walk, zlen. specialize (Hlen (walk_fuel h 0) 0). unfold walk_fuel at 2 in Hlen. rewrite Z.sub_0_r in Hlen.
  pose proof (Z.div_pos (h_size h) 12 Hs ltac:(lia)). lia.
Qed.

Lemma heap_walk_terminates_witness :
  walk overrun_heap = [0; 32] /\
  walk overrun_heap = 0 :: match get_next_block overrun_heap 0 with
    Some next => walk_from (walk_fuel overrun_heap next) overrun_heap next | None => [] end /\
  (forall block, walk_from (walk_fuel overrun_heap block) overrun_heap block =
    block :: match get_next_block overrun_heap block with
      Some next => walk_from (walk_fuel overrun_heap next) overrun_heap next | None => [] end) /\
  zlen (walk overrun_heap) <= h_size overrun_heap / 12 + 1.
Proof.
  split; [vm_compute; reflexivity|]. apply (heap_walk_terminates overrun_heap); [vm_decide|done].
Defined.
