(* ===== verification/CflArena.v ===== *)
(** The engine's arenas ([engine/src/cfl_heap_arena_allocate.c]): bump allocators for the
    nodes of a tree, each in a heap block of its own; allocator 0 lies in the permanent pool. *)
From S2P Require Import Prelude CflBase.
From S2P Require Import CflPerm CflHeap.
#[local] Open Scope cfl_scope.

Definition ARENA_ALIGNMENT : Z := 4.
Definition NO_ALLOCATOR : Z := 0xFF.
Definition INVALID_MEMORY_IDX : Z := 0xFFFF.
Definition sizeof_CflHeapArenaSystem : Z := 32.
Definition sizeof_CflHeapArenaControl : Z := 10.

Record CflHeapArenaControl := mk_control {
  ac_memory_idx : Z; ac_size : Z; ac_used : Z; ac_owner_node_id : Z; ac_id : Z; ac_pad : Z
}.
#[export] Instance eta_control : Settable CflHeapArenaControl := fun c =>
  mk_control (ac_memory_idx c) (ac_size c) (ac_used c) (ac_owner_node_id c) (ac_id c) (ac_pad c).
Definition control0 : CflHeapArenaControl := mk_control 0 0 0 0 0 0.

(** [as_arenas]: an entry is NULL or the address of a control block, given by its index.
    A node table is [None] when its pointer is NULL. [as_mem0]: the bytes of allocator 0. *)
Record CflHeapArenaSystem := mk_arenas {
  as_heap : CflHeap; as_max : Z; as_blocks : list CflHeapArenaControl; as_arenas : list (option Z);
  as_node_ids : option (list Z); as_node_mem : option (list Z); as_nodes : Z;
  as_next : Z; as_active : Z; as_buf0 : Z; as_mem0 : list Z
}.
#[export] Instance eta_arenas : Settable CflHeapArenaSystem := fun s =>
  mk_arenas (as_heap s) (as_max s) (as_blocks s) (as_arenas s) (as_node_ids s) (as_node_mem s) (as_nodes s)
    (as_next s) (as_active s) (as_buf0 s) (as_mem0 s).

(** ** Internal helpers *)
Definition arena_align_up (value alignment : Z) : Z :=
  u16 (Z.land (value + alignment - 1) (Z.lnot (u16 (alignment - 1)))).

(** [for (i = 0; i < max; ++i)], from [i] on with [n] rounds left. *)
Fixpoint find_free_loop (n : nat) (sys : CflHeapArenaSystem) (i : Z) : cfl (Z * CflHeapArenaSystem) :=
  match n with
  | O => EXCEPTION "find_free_id: All allocator IDs exhausted"
  | S n =>
      let id := u8 ((as_next sys + i) mod as_max sys) in
      match zget None (as_arenas sys) id with
      | None => Ret (id, sys <| as_next := u8 ((id + 1) mod as_max sys) |>)
      | Some _ => find_free_loop n sys (i + 1)
      end
  end.
Definition find_free_id (sys : CflHeapArenaSystem) : cfl (Z * CflHeapArenaSystem) :=
  find_free_loop (Z.to_nat (as_max sys)) sys 0.

Definition release_id (id : Z) (sys : CflHeapArenaSystem) : CflHeapArenaSystem :=
  if id <? as_max sys then sys <| as_arenas ::= fun a => zset a id None |> else sys.
Definition get_arena (sys : CflHeapArenaSystem) (id : Z) : cfl (option Z) :=
  raise? as_max sys <=? id with "get_arena: Invalid allocator ID";
  Ret (zget None (as_arenas sys) id).
Definition block_of (sys : CflHeapArenaSystem) (arena : Z) : CflHeapArenaControl := zget control0 (as_blocks sys) arena.
Definition arena_base_ptr (sys : CflHeapArenaSystem) (arena : Z) : cfl Z :=
  if ac_id (block_of sys arena) =? 0 then Ret (as_buf0 sys)
  else cfl_heap_ptr (Some (as_heap sys)) (ac_memory_idx (block_of sys arena)).

(** The pointer, the offset stored through [out_offset], and the system. *)
Definition arena_bump_alloc (sys : CflHeapArenaSystem) (arena size_bytes alignment : Z) :
    cfl (Z * Z * CflHeapArenaSystem) :=
  base <- arena_base_ptr sys arena;;
  let a := block_of sys arena in
  let current_addr := u32 (base + ac_used a) in
  let mask := u32 (alignment - 1) in
  let aligned_addr := Z.land (u32 (current_addr + mask)) (u32 (Z.lnot mask)) in
  let padding := u16 (aligned_addr - current_addr) in
  let total_needed := u16 (padding + size_bytes) in
  raise? ac_size a <? ac_used a + total_needed with "arena_bump_alloc: Arena exhausted - insufficient space";
  let out_offset := u16 (ac_used a + padding) in
  Ret (aligned_addr, out_offset,
    sys <| as_blocks ::= fun bs => zset bs arena (a <| ac_used := u16 (ac_used a + total_needed) |>) |>).

Definition validate_alloc_args {B} (sys : option CflHeapArenaSystem) (node_index size_bytes : Z)
    (k : CflHeapArenaSystem -> list Z -> cfl B) : cfl B :=
  let? sys := sys or "arena_alloc: NULL system pointer" in
  raise? size_bytes =? 0 with "arena_alloc: size_bytes is zero";
  let? ids := as_node_ids sys or "arena_alloc: Arena system not initialized" in
  raise? as_nodes sys <=? node_index with "arena_alloc: node_index out of bounds";
  k sys ids.

(** ** Lifecycle *)
Definition cfl_heap_arena_system_create (perm : option CflPerm) (heap : option CflHeap)
    (max_allocator_count total_node_count allocator_0_size : Z) : cfl (CflHeapArenaSystem * CflPerm) :=
  let? perm := perm or "cfl_heap_arena_system_create: NULL perm pointer" in
  let? heap := heap or "cfl_heap_arena_system_create: NULL heap pointer" in
  raise? allocator_0_size =? 0 with "cfl_heap_arena_system_create: allocator_0_size is zero";
  r <- cfl_perm_alloc_pointer (Some perm) sizeof_CflHeapArenaSystem;;
  r <- cfl_perm_alloc_pointer (Some r.2) (u16 (max_allocator_count * sizeof_CflHeapArenaControl));;
  r <- cfl_perm_alloc_pointer (Some r.2) (u16 (max_allocator_count * 4));;
  r <- cfl_perm_alloc_pointer (Some r.2) total_node_count;;
  r <- cfl_perm_alloc_pointer (Some r.2) (u16 (total_node_count * 2));;
  let allocator_0_size := arena_align_up allocator_0_size ARENA_ALIGNMENT in
  r <- cfl_perm_alloc_pointer (Some r.2) allocator_0_size;;
  let blocks := replicate (Z.to_nat max_allocator_count) control0 in
  let arenas := replicate (Z.to_nat max_allocator_count) None in
  Ret (mk_arenas heap max_allocator_count
         (zset blocks 0 (mk_control 0 allocator_0_size 0 0xFFFF 0 0)) (zset arenas 0 (Some 0))
         (Some (replicate (Z.to_nat total_node_count) 0))
         (Some (replicate (Z.to_nat total_node_count) INVALID_MEMORY_IDX)) total_node_count
         1 0 r.1 (replicate (Z.to_nat allocator_0_size) 0), r.2).

(** [for (i = 1; i < max; ++i)], from [i] on with [n] rounds left. *)
Fixpoint reset_loop (n : nat) (sys : CflHeapArenaSystem) (i : Z) : cfl CflHeapArenaSystem :=
  match n with
  | O => Ret sys
  | S n =>
      match zget None (as_arenas sys) i with
      | Some arena =>
          h <- cfl_heap_free (Some (as_heap sys)) (ac_memory_idx (block_of sys arena));;
          let sys := sys <| as_heap := h |> in
          let sys := sys <| as_blocks ::= fun bs => zset bs arena control0 |> in
          reset_loop n (sys <| as_arenas ::= fun a => zset a i None |>) (i + 1)
      | None => reset_loop n sys (i + 1)
      end
  end.
Definition cfl_heap_arena_system_reset (sys : option CflHeapArenaSystem) : cfl CflHeapArenaSystem :=
  let? sys := sys or "cfl_heap_arena_system_reset: NULL system pointer" in
  let? ids := as_node_ids sys or "cfl_heap_arena_system_reset: Arena system not initialized" in
  let? mem := as_node_mem sys or "cfl_heap_arena_system_reset: Arena system not initialized" in
  sys <- reset_loop (Z.to_nat (as_max sys - 1)) sys 1;;
  let sys :=
    match zget None (as_arenas sys) 0 with
    | Some arena =>
        let a := block_of sys arena in
        sys <| as_blocks ::= fun bs => zset bs arena (a <| ac_used := 0 |>) |>
            <| as_mem0 ::= fun m => replicate (Z.to_nat (ac_size a)) 0 ++ drop (Z.to_nat (ac_size a)) m |>
    | None => sys
    end in
  Ret (mk_arenas (as_heap sys) (as_max sys) (as_blocks sys) (as_arenas sys)
         (Some (replicate (Z.to_nat (as_nodes sys)) 0 ++ drop (Z.to_nat (as_nodes sys)) ids))
         (Some (replicate (Z.to_nat (as_nodes sys)) INVALID_MEMORY_IDX ++ drop (Z.to_nat (as_nodes sys)) mem))
         (as_nodes sys) 1 0 (as_buf0 sys) (as_mem0 sys)).

(** ** Arena create and destroy *)
Definition cfl_heap_arena_create (sys : option CflHeapArenaSystem) (owner_node_id size_bytes : Z) :
    cfl (Z * CflHeapArenaSystem) :=
  let? sys := sys or "cfl_heap_arena_create: NULL system pointer" in
  raise? size_bytes =? 0 with "cfl_heap_arena_create: size_bytes is zero";
  let? ids := as_node_ids sys or "cfl_heap_arena_create: Arena system not initialized" in
  raise? as_nodes sys <=? owner_node_id with "cfl_heap_arena_create: owner_node_id out of bounds";
  let size_bytes := arena_align_up size_bytes ARENA_ALIGNMENT in
  f <- find_free_id sys;;
  let id := f.1 in
  let sys := f.2 in
  d <- cfl_heap_malloc (Some (as_heap sys)) size_bytes;;
  let data_idx := d.1 in
  raise? data_idx =? INVALID_HEAP_IDX with "cfl_heap_arena_create: Heap exhausted";
  Ret (id, mk_arenas d.2 (as_max sys) (zset (as_blocks sys) id (mk_control data_idx size_bytes 0 owner_node_id id 0))
             (zset (as_arenas sys) id (Some id)) (Some (zset ids owner_node_id id)) (as_node_mem sys) (as_nodes sys)
             (as_next sys) (as_active sys) (as_buf0 sys) (as_mem0 sys)).

(** The nodes' tables after [id] is gone: one pass over the nodes. *)
Fixpoint clear_nodes (n : nat) (ids mem : list Z) (id i : Z) : list Z * list Z :=
  match n with
  | O => (ids, mem)
  | S n =>
      if zget 0 ids i =? id then clear_nodes n (zset ids i 0) (zset mem i INVALID_MEMORY_IDX) id (i + 1)
      else clear_nodes n ids mem id (i + 1)
  end.

Definition cfl_heap_arena_destroy (sys : option CflHeapArenaSystem) (id owner_node_id : Z) : cfl CflHeapArenaSystem :=
  let? sys := sys or "cfl_heap_arena_destroy: NULL system pointer" in
  let? ids := as_node_ids sys or "cfl_heap_arena_destroy: Arena system not initialized" in
  raise? as_max sys <=? id with "cfl_heap_arena_destroy: Invalid allocator ID";
  raise? id =? 0 with "cfl_heap_arena_destroy: Cannot destroy allocator 0 (permanent)";
  let? arena := zget None (as_arenas sys) id or "cfl_heap_arena_destroy: Allocator ID not in use" in
  raise? negb (ac_owner_node_id (block_of sys arena) =? owner_node_id)
    with "cfl_heap_arena_destroy: Node does not own this arena";
  let cleared := clear_nodes (Z.to_nat (as_nodes sys)) ids (default [] (as_node_mem sys)) id 0 in
  let active := if as_active sys =? id then 0 else as_active sys in
  h <- cfl_heap_free (Some (as_heap sys)) (ac_memory_idx (block_of sys arena));;
  let sys := mk_arenas h (as_max sys) (zset (as_blocks sys) arena control0) (zset (as_arenas sys) id None)
               (Some cleared.1) (match as_node_mem sys with Some _ => Some cleared.2 | None => None end)
               (as_nodes sys) (as_next sys) active (as_buf0 sys) (as_mem0 sys) in
  Ret (release_id id sys).

(** ** Allocator contexts *)
Definition cfl_heap_arena_set_active_allocator (sys : option CflHeapArenaSystem) (owner_node_id : Z) :
    cfl CflHeapArenaSystem :=
  let? sys := sys or "cfl_heap_arena_set_active_allocator: NULL system pointer" in
  let? ids := as_node_ids sys or "cfl_heap_arena_set_active_allocator: Arena system not initialized" in
  raise? as_nodes sys <=? owner_node_id with "cfl_heap_arena_set_active_allocator: owner_node_id out of bounds";
  Ret (sys <| as_active := zget 0 ids owner_node_id |>).
Definition cfl_heap_arena_set_active_allocator_id (sys : option CflHeapArenaSystem) (allocator_id : Z) :
    cfl CflHeapArenaSystem :=
  let? sys := sys or "cfl_heap_arena_set_active_allocator_id: NULL system pointer" in
  raise? as_max sys <=? allocator_id with "cfl_heap_arena_set_active_allocator_id: allocator_id out of bounds";
  let? _a := zget None (as_arenas sys) allocator_id
    or "cfl_heap_arena_set_active_allocator_id: allocator_id not in use" in
  Ret (sys <| as_active := allocator_id |>).
Definition cfl_heap_arena_set_node_allocator (sys : option CflHeapArenaSystem) (requesting_node_id : Z) :
    cfl CflHeapArenaSystem :=
  let? sys := sys or "cfl_heap_arena_set_node_allocator: NULL system pointer" in
  let? ids := as_node_ids sys or "cfl_heap_arena_set_node_allocator: Arena system not initialized" in
  raise? as_nodes sys <=? requesting_node_id with "cfl_heap_arena_set_node_allocator: requesting_node_id out of bounds";
  Ret (sys <| as_node_ids := Some (zset ids requesting_node_id (as_active sys)) |>).

(** ** Allocation *)
Definition cfl_arena_system_alloc_aligned (sys : option CflHeapArenaSystem) (requesting_node_id size_bytes alignment : Z) :
    cfl (Z * CflHeapArenaSystem) :=
  validate_alloc_args sys requesting_node_id size_bytes (fun sys ids =>
  let allocator_id := zget 0 ids requesting_node_id in
  raise? allocator_id =? NO_ALLOCATOR with "cfl_arena_system_alloc_aligned: Node has no allocator assigned";
  p <- get_arena sys allocator_id;;
  let? arena := p or "cfl_arena_system_alloc_aligned: Invalid arena for allocator ID" in
  r <- arena_bump_alloc sys arena size_bytes alignment;;
  let '(ptr, offset, sys) := r in
  Ret (ptr, sys <| as_node_mem ::= fmap (fun mem => zset mem requesting_node_id offset) |>)).
Definition cfl_arena_system_alloc (sys : option CflHeapArenaSystem) (requesting_node_id size_bytes : Z) :
    cfl (Z * CflHeapArenaSystem) :=
  cfl_arena_system_alloc_aligned sys requesting_node_id size_bytes ARENA_ALIGNMENT.

Definition cfl_arena_additional_alloc_aligned (sys : option CflHeapArenaSystem) (node_index size_bytes alignment : Z) :
    cfl (Z * CflHeapArenaSystem) :=
  validate_alloc_args sys node_index size_bytes (fun sys ids =>
  let allocator_id := zget 0 ids node_index in
  raise? allocator_id =? NO_ALLOCATOR with "cfl_arena_additional_alloc_aligned: Node has no allocator assigned";
  p <- get_arena sys allocator_id;;
  let? arena := p or "cfl_arena_additional_alloc_aligned: Invalid arena for allocator ID" in
  r <- arena_bump_alloc sys arena size_bytes alignment;;
  let '(ptr, _, sys) := r in
  Ret (ptr, sys)).
Definition cfl_arena_additional_alloc (sys : option CflHeapArenaSystem) (node_index size_bytes : Z) :
    cfl (Z * CflHeapArenaSystem) :=
  cfl_arena_additional_alloc_aligned sys node_index size_bytes ARENA_ALIGNMENT.

Definition cfl_arena_alloc_from_active_aligned (sys : option CflHeapArenaSystem) (node_index size_bytes alignment : Z) :
    cfl (Z * CflHeapArenaSystem) :=
  validate_alloc_args sys node_index size_bytes (fun sys ids =>
  let allocator_id := as_active sys in
  raise? allocator_id =? NO_ALLOCATOR with "cfl_arena_alloc_from_active_aligned: No active allocator context set";
  p <- get_arena sys allocator_id;;
  let? arena := p or "cfl_arena_alloc_from_active_aligned: Invalid arena for active context" in
  r <- arena_bump_alloc sys arena size_bytes alignment;;
  let '(ptr, offset, sys) := r in
  Ret (ptr, sys <| as_node_mem ::= fmap (fun mem => zset mem node_index offset) |>
                <| as_node_ids := Some (zset ids node_index allocator_id) |>)).
Definition cfl_arena_alloc_from_active (sys : option CflHeapArenaSystem) (node_index size_bytes : Z) :
    cfl (Z * CflHeapArenaSystem) :=
  cfl_arena_alloc_from_active_aligned sys node_index size_bytes ARENA_ALIGNMENT.

(** ** Node accessors *)

(** [None]: NULL. *)
Definition cfl_heap_arena_get_node_ptr (sys : option CflHeapArenaSystem) (node_id : Z) : cfl (option Z) :=
  let? sys := sys or "cfl_heap_arena_get_node_ptr: NULL system pointer" in
  let? ids := as_node_ids sys or "cfl_heap_arena_get_node_ptr: Arena system not initialized" in
  let? mem := as_node_mem sys or "cfl_heap_arena_get_node_ptr: Arena system not initialized" in
  raise? as_nodes sys <=? node_id with "cfl_heap_arena_get_node_ptr: node_id out of bounds";
  let memory_idx := zget 0 mem node_id in
  if memory_idx =? INVALID_MEMORY_IDX then Ret None else
  let allocator_id := zget 0 ids node_id in
  raise? allocator_id =? NO_ALLOCATOR with "cfl_heap_arena_get_node_ptr: Node has no allocator assigned";
  p <- get_arena sys allocator_id;;
  let? arena := p or "cfl_heap_arena_get_node_ptr: Invalid arena for allocator ID" in
  base <- arena_base_ptr sys arena;;
  Ret (Some (u32 (base + memory_idx))).

Definition cfl_heap_arena_get_node_allocator_id (sys : option CflHeapArenaSystem) (node_id : Z) : cfl Z :=
  let? sys := sys or "cfl_heap_arena_get_node_allocator_id: invalid system" in
  let? ids := as_node_ids sys or "cfl_heap_arena_get_node_allocator_id: invalid system" in
  raise? as_nodes sys <=? node_id with "cfl_heap_arena_get_node_allocator_id: node_id out of bounds";
  Ret (zget 0 ids node_id).
Definition cfl_heap_arena_set_node_allocator_id (sys : option CflHeapArenaSystem) (node_id allocator_id : Z) :
    cfl CflHeapArenaSystem :=
  let? sys := sys or "cfl_heap_arena_set_node_allocator_id: invalid system" in
  let? ids := as_node_ids sys or "cfl_heap_arena_set_node_allocator_id: invalid system" in
  raise? as_nodes sys <=? node_id with "cfl_heap_arena_set_node_allocator_id: node_id out of bounds";
  Ret (sys <| as_node_ids := Some (zset ids node_id allocator_id) |>).
Definition cfl_heap_arena_get_node_memory_index (sys : option CflHeapArenaSystem) (node_id : Z) : cfl Z :=
  let? sys := sys or "cfl_heap_arena_get_node_memory_index: invalid system" in
  let? mem := as_node_mem sys or "cfl_heap_arena_get_node_memory_index: invalid system" in
  raise? as_nodes sys <=? node_id with "cfl_heap_arena_get_node_memory_index: node_id out of bounds";
  Ret (zget 0 mem node_id).
Definition cfl_heap_arena_set_node_memory_index (sys : option CflHeapArenaSystem) (node_id memory_idx : Z) :
    cfl CflHeapArenaSystem :=
  let? sys := sys or "cfl_heap_arena_set_node_memory_index: invalid system" in
  let? mem := as_node_mem sys or "cfl_heap_arena_set_node_memory_index: invalid system" in
  raise? as_nodes sys <=? node_id with "cfl_heap_arena_set_node_memory_index: node_id out of bounds";
  Ret (sys <| as_node_mem := Some (zset mem node_id memory_idx) |>).

(** ** Diagnostics *)
Definition cfl_heap_arena_used_bytes (sys : option CflHeapArenaSystem) (id : Z) : cfl Z :=
  let? sys := sys or "cfl_heap_arena_used_bytes: NULL system pointer" in
  p <- get_arena sys id;;
  let? arena := p or "cfl_heap_arena_used_bytes: Allocator ID not in use" in
  Ret (ac_used (block_of sys arena)).
Definition cfl_heap_arena_free_bytes (sys : option CflHeapArenaSystem) (id : Z) : cfl Z :=
  let? sys := sys or "cfl_heap_arena_free_bytes: NULL system pointer" in
  p <- get_arena sys id;;
  let? arena := p or "cfl_heap_arena_free_bytes: Allocator ID not in use" in
  Ret (u16 (ac_size (block_of sys arena) - ac_used (block_of sys arena))).

Record CflHeapArenaStats := mk_arena_stats { ar_active_count : Z; ar_total_data_allocated : Z; ar_total_data_used : Z }.
(** What is returned; the table it prints is not modelled. *)
Definition cfl_heap_arena_dump_stats (sys : option CflHeapArenaSystem) : cfl CflHeapArenaStats :=
  let? sys := sys or "cfl_heap_arena_dump_stats: NULL system pointer" in
  Ret (fold_left (fun stats entry =>
    match entry with
    | None => stats
    | Some arena =>
        let a := block_of sys arena in
        mk_arena_stats (u32 (ar_active_count stats + 1)) (u32 (ar_total_data_allocated stats + ac_size a))
          (u32 (ar_total_data_used stats + ac_used a))
    end) (take (Z.to_nat (as_max sys)) (as_arenas sys)) (mk_arena_stats 0 0 0)).

(** ** Specification: a client of the arenas *)

(** The engine's calls, and a byte stored into a pool index. *)
Inductive arena_op :=
  | ACreate (owner sz : Z) | ADestroy (id owner : Z) | AReset
  | ASetActive (node : Z) | ASetActiveId (id : Z) | ASetNode (node : Z) | ASetNodeId (node id : Z)
  | ASetNodeMem (node idx : Z)
  | AAlloc (node sz al : Z) | AAdditional (node sz al : Z) | AFromActive (node sz al : Z)
  | AWrite (idx v : Z)
  (** The node functions' own use of the heap the arenas lie in. *)
  | AHeapAlloc (sz : Z) | AHeapFree (idx : Z).
Definition some_result (m : cfl (Z * CflHeapArenaSystem)) : cfl (option Z * CflHeapArenaSystem) :=
  r <- m;; Ret (Some r.1, r.2).
Definition no_result (m : cfl CflHeapArenaSystem) : cfl (option Z * CflHeapArenaSystem) := s <- m;; Ret (None, s).
Definition arena_exec (s : CflHeapArenaSystem) (op : arena_op) : cfl (option Z * CflHeapArenaSystem) :=
  match op with
  | ACreate owner sz => some_result (cfl_heap_arena_create (Some s) owner sz)
  | ADestroy id owner => no_result (cfl_heap_arena_destroy (Some s) id owner)
  | AReset => no_result (cfl_heap_arena_system_reset (Some s))
  | ASetActive node => no_result (cfl_heap_arena_set_active_allocator (Some s) node)
  | ASetActiveId id => no_result (cfl_heap_arena_set_active_allocator_id (Some s) id)
  | ASetNode node => no_result (cfl_heap_arena_set_node_allocator (Some s) node)
  | ASetNodeId node id => no_result (cfl_heap_arena_set_node_allocator_id (Some s) node id)
  | ASetNodeMem node idx => no_result (cfl_heap_arena_set_node_memory_index (Some s) node idx)
  | AAlloc node sz al => some_result (cfl_arena_system_alloc_aligned (Some s) node sz al)
  | AAdditional node sz al => some_result (cfl_arena_additional_alloc_aligned (Some s) node sz al)
  | AFromActive node sz al => some_result (cfl_arena_alloc_from_active_aligned (Some s) node sz al)
  | AWrite idx v => Ret (None, s <| as_heap ::= fun h => h <| h_mem ::= fun m => zset m idx v |> |>)
  | AHeapAlloc sz => some_result (r <- cfl_heap_malloc (Some (as_heap s)) sz;; Ret (r.1, s <| as_heap := r.2 |>))
  | AHeapFree idx => no_result (h <- cfl_heap_free (Some (as_heap s)) idx;; Ret (s <| as_heap := h |>))
  end.

Definition in_use (s : CflHeapArenaSystem) (id : Z) : Prop := zget None (as_arenas s) id = Some id.
#[export] Instance in_use_dec s id : Decision (in_use s id).
Proof. unfold in_use. apply _. Defined.
(** An arena's data start at [idx]. *)
Definition held (s : CflHeapArenaSystem) (idx : Z) : Prop :=
  Exists (fun i => in_use s i /\ i <> 0 /\ ac_memory_idx (block_of s i) = idx) (seqZ 0 (as_max s)).
#[export] Instance held_dec s idx : Decision (held s idx).
Proof. unfold held. apply _. Defined.
(** A request the 16-bit sums can hold. *)
Definition arena_req_ok (node sz al : Z) : Prop :=
  0 <= node /\ 0 < sz /\ 0 < al <= 128 /\ is_power_of_2 al = true /\ sz + al <= 65536.
#[export] Instance arena_req_ok_dec node sz al : Decision (arena_req_ok node sz al).
Proof. unfold arena_req_ok. apply _. Defined.
Definition arena_legal (s : CflHeapArenaSystem) (op : arena_op) : Prop :=
  match op with
  | ACreate owner sz => 0 <= owner /\ 0 < sz <= 65528
  | ADestroy id _ | ASetActiveId id => 0 <= id
  | AReset => True
  | ASetActive node | ASetNode node | ASetNodeMem node _ => 0 <= node
  | ASetNodeId node id => 0 <= node /\ in_use s id
  | AAlloc node sz al | AAdditional node sz al | AFromActive node sz al => arena_req_ok node sz al
  | AWrite idx v => Exists (inside idx) (live (as_heap s))
  | AHeapAlloc sz => 0 < sz <= 65528
  | AHeapFree idx => idx ∈ map fst (extents (as_heap s)) /\ ~ held s idx
  end.
#[export] Instance arena_legal_dec s op : Decision (arena_legal s op).
Proof. destruct op; cbn [arena_legal]; apply _. Defined.

(** The allocations that live on, newest first: arena, pointer, length. *)
Definition arena_allocs (s : CflHeapArenaSystem) (op : arena_op) (r : option Z) (allocs : list (Z * Z * Z)) :
    list (Z * Z * Z) :=
  let of_node node := zget 0 (default [] (as_node_ids s)) node in
  match op, r with
  | AAlloc node sz _, Some ptr | AAdditional node sz _, Some ptr => (of_node node, ptr, sz) :: allocs
  | AFromActive node sz _, Some ptr => (as_active s, ptr, sz) :: allocs
  | ADestroy id _, _ => List.filter (fun a => negb (a.1.1 =? id)) allocs
  | AReset, _ => []
  | _, _ => allocs
  end.

(** Where an arena's data lie. *)
Definition base_of (s : CflHeapArenaSystem) (id : Z) : Z :=
  if id =? 0 then as_buf0 s else h_pool (as_heap s) + ac_memory_idx (block_of s id).

(** The heap is in order and every arena in use has an object of its own there; other objects are
    the node functions'. *)
Record arenas_core (s : CflHeapArenaSystem) : Prop := {
  ok_heap : exists bs, heap_ok (as_heap s) bs;
  ok_max : 1 <= as_max s <= 255;
  ok_blocks : zlen (as_blocks s) = as_max s;
  ok_arenas : zlen (as_arenas s) = as_max s;
  ok_zero : in_use s 0;
  ok_entry : forall i k, zget None (as_arenas s) i = Some k ->
    k = i /\ ac_id (block_of s i) = i /\ 0 <= ac_used (block_of s i) <= ac_size (block_of s i) /\ ac_size (block_of s i) < 2 ^ 16;
  ok_held : forall i, in_use s i -> i <> 0 ->
    exists len, (ac_memory_idx (block_of s i), len) ∈ extents (as_heap s) /\ ac_size (block_of s i) <= len;
  ok_inj : forall i j, in_use s i -> in_use s j -> i <> 0 -> j <> 0 ->
    ac_memory_idx (block_of s i) = ac_memory_idx (block_of s j) -> i = j;
  ok_buf : 0 < as_buf0 s /\ as_buf0 s + 2 ^ 17 <= 2 ^ 32 /\
    (as_buf0 s + ac_size (block_of s 0) <= h_pool (as_heap s) \/
     h_pool (as_heap s) + h_size (as_heap s) <= as_buf0 s)
}.
(** Every node's arena, and the active one, is in use. *)
Record nodes_ok (s : CflHeapArenaSystem) : Prop := {
  ok_ids : exists ids, as_node_ids s = Some ids /\ zlen ids = as_nodes s /\
    forall j, 0 <= j < as_nodes s -> in_use s (zget 0 ids j);
  ok_mem : exists mem, as_node_mem s = Some mem /\ zlen mem = as_nodes s;
  ok_active : in_use s (as_active s)
}.
Definition apart (a b : Z * Z * Z) : Prop := a.1.2 + a.2 <= b.1.2 \/ b.1.2 + b.2 <= a.1.2.
#[export] Instance apart_dec a b : Decision (apart a b).
Proof. unfold apart. apply _. Defined.
(** An allocation lies below its arena's bump pointer. *)
Definition alloc_in (s : CflHeapArenaSystem) (a : Z * Z * Z) : Prop :=
  in_use s a.1.1 /\ base_of s a.1.1 <= a.1.2 /\ a.1.2 + a.2 <= base_of s a.1.1 + ac_used (block_of s a.1.1).
Definition allocs_ok (s : CflHeapArenaSystem) (allocs : list (Z * Z * Z)) : Prop :=
  Forall (alloc_in s) allocs /\ ForallOrdPairs (fun a b => a.1.1 = b.1.1 -> apart a b) allocs.
Definition arenas_ok (s : CflHeapArenaSystem) (allocs : list (Z * Z * Z)) : Prop :=
  arenas_core s /\ nodes_ok s /\ allocs_ok s allocs.

(** The node tables and the cursors play no part in [arenas_core] and [allocs_ok]. *)
Definition same_tables (s s' : CflHeapArenaSystem) : Prop :=
  as_heap s' = as_heap s /\ as_max s' = as_max s /\ as_blocks s' = as_blocks s /\ as_arenas s' = as_arenas s /\
  as_buf0 s' = as_buf0 s.
(** The bump pointer of [i] moves up. *)
Definition set_used (s : CflHeapArenaSystem) (i u : Z) : CflHeapArenaSystem :=
  s <| as_blocks ::= fun bs => zset bs i (block_of s i <| ac_used := u |>) |>.
Definition add_arena (s : CflHeapArenaSystem) (h : CflHeap) (id idx sz owner : Z) : CflHeapArenaSystem :=
  s <| as_heap := h |> <| as_blocks ::= fun bs => zset bs id (mk_control idx sz 0 owner id 0) |>
    <| as_arenas ::= fun a => zset a id (Some id) |>.
Definition remove_arena (s : CflHeapArenaSystem) (h : CflHeap) (id : Z) : CflHeapArenaSystem :=
  s <| as_heap := h |> <| as_blocks ::= fun bs => zset bs id control0 |> <| as_arenas ::= fun a => zset a id None |>.
Definition exhausted (s : CflHeapArenaSystem) (id sz al : Z) : Prop :=
  base_of s id + ac_size (block_of s id) < ceil_to al (base_of s id + ac_used (block_of s id)) + sz.
Definition alloc_raises (s : CflHeapArenaSystem) (node id sz al : Z) (msg : string) : Prop :=
  (as_nodes s <= node /\ msg = "arena_alloc: node_index out of bounds"%string) \/
  (msg = "arena_bump_alloc: Arena exhausted - insufficient space"%string /\ exhausted s id sz al).
Definition arena_raises (s : CflHeapArenaSystem) (op : arena_op) (msg : string) : Prop :=
  let of_node node := zget 0 (default [] (as_node_ids s)) node in
  match op with
  | ACreate owner sz =>
      (as_nodes s <= owner /\ msg = "cfl_heap_arena_create: owner_node_id out of bounds"%string) \/
      (msg = "find_free_id: All allocator IDs exhausted"%string /\ forall id, 0 <= id < as_max s -> in_use s id) \/
      (msg = "cfl_heap_arena_alloc_aligned: Out of memory"%string /\ no_room_for (as_heap s) (ceil_to 4 sz) BLOCK_ALIGNMENT)
  | ADestroy id owner =>
      (as_max s <= id /\ msg = "cfl_heap_arena_destroy: Invalid allocator ID"%string) \/
      (id = 0 /\ msg = "cfl_heap_arena_destroy: Cannot destroy allocator 0 (permanent)"%string) \/
      (~ in_use s id /\ msg = "cfl_heap_arena_destroy: Allocator ID not in use"%string) \/
      (ac_owner_node_id (block_of s id) <> owner /\ msg = "cfl_heap_arena_destroy: Node does not own this arena"%string)
  | ASetActive node =>
      as_nodes s <= node /\ msg = "cfl_heap_arena_set_active_allocator: owner_node_id out of bounds"%string
  | ASetActiveId id =>
      (as_max s <= id /\ msg = "cfl_heap_arena_set_active_allocator_id: allocator_id out of bounds"%string) \/
      (~ in_use s id /\ msg = "cfl_heap_arena_set_active_allocator_id: allocator_id not in use"%string)
  | ASetNode node =>
      as_nodes s <= node /\ msg = "cfl_heap_arena_set_node_allocator: requesting_node_id out of bounds"%string
  | ASetNodeId node _ =>
      as_nodes s <= node /\ msg = "cfl_heap_arena_set_node_allocator_id: node_id out of bounds"%string
  | ASetNodeMem node _ =>
      as_nodes s <= node /\ msg = "cfl_heap_arena_set_node_memory_index: node_id out of bounds"%string
  | AAlloc node sz al | AAdditional node sz al => alloc_raises s node (of_node node) sz al msg
  | AFromActive node sz al => alloc_raises s node (as_active s) sz al msg
  | AHeapAlloc sz => msg = "cfl_heap_arena_alloc_aligned: Out of memory"%string /\ no_room_for (as_heap s) sz BLOCK_ALIGNMENT
  | AReset | AWrite _ _ | AHeapFree _ => False
  end.
(** What the caller gets: the pointer, at the alignment asked for, behind the arena's other
    allocations. *)
Definition alloc_result (s : CflHeapArenaSystem) (allocs : list (Z * Z * Z)) (node id sz al : Z)
    (post : Z -> CflHeapArenaSystem -> CflHeapArenaSystem) (r : cfl (Z * CflHeapArenaSystem)) : Prop :=
  match r with
  | Ret (ptr, s') => arenas_ok s' ((id, ptr, sz) :: allocs) /\ ptr mod al = 0 /\
      ptr = ceil_to al (base_of s id + ac_used (block_of s id)) /\ s' = post (ptr - base_of s id) (set_used s id (ptr + sz - base_of s id))
  | EXCEPTION msg => alloc_raises s node id sz al msg
  | Endless => False
  end.
(** How [cfl_runtime_create] sets them up, from the permanent allocator it has. *)
Definition arena_boot (p : CflPerm) (heap_size max_allocator_count total_node_count allocator_0_size : Z) :
    cfl (CflHeapArenaSystem * CflPerm) :=
  h <- cfl_heap_init (Some p) heap_size;;
  cfl_heap_arena_system_create (Some h.2) (Some h.1) max_allocator_count total_node_count allocator_0_size.
Definition boot_params_ok (p : CflPerm) (heap_size max nodes size0 : Z) : Prop :=
  perm_ok p /\ CflPerm.pool p + 2 ^ 18 <= 2 ^ 32 /\ 20 <= heap_size <= 65528 /\ 1 <= max <= 255 /\
  1 <= nodes <= 32764 /\ 0 < size0 <= 65528.
Inductive arena_reach (p : CflPerm) (heap_size max nodes size0 : Z) : CflHeapArenaSystem -> list (Z * Z * Z) -> Prop :=
  | arena_reach_boot s q : arena_boot p heap_size max nodes size0 = Ret (s, q) -> arena_reach p heap_size max nodes size0 s []
  | arena_reach_op s allocs op r s' : arena_reach p heap_size max nodes size0 s allocs -> arena_legal s op ->
      arena_exec s op = Ret (r, s') -> arena_reach p heap_size max nodes size0 s' (arena_allocs s op r allocs).
Definition example_pool : CflPerm :=
  match cfl_perm_init (Some cfl_perm_set_instance) 0x20000000 2048 with Ret p => p | _ => cfl_perm_set_instance end.
Definition example_arenas : CflHeapArenaSystem :=
  match arena_boot example_pool 512 4 6 64 with
  | Ret r => r.1
  | _ => mk_arenas (heap_fresh 1 20 false) 0 [] [] None None 0 0 0 0 []
  end.
(** Node 2 makes an arena for its children; nodes 3 and 1 allocate from it and from arena 0; a node
    function takes 8 bytes of the heap. *)
Definition example_calls : list arena_op :=
  [ACreate 2 100; ASetActive 2; AFromActive 3 10 4; AAlloc 2 9 8; AAdditional 1 20 4; AHeapAlloc 8; AAlloc 1 4 4].
Fixpoint arena_run (s : CflHeapArenaSystem) (allocs : list (Z * Z * Z)) (ops : list arena_op) :
    cfl (CflHeapArenaSystem * list (Z * Z * Z)) :=
  match ops with
  | [] => Ret (s, allocs)
  | op :: ops => r <- arena_exec s op;; arena_run r.2 (arena_allocs s op r.1 allocs) ops
  end.
Fixpoint legal_calls (s : CflHeapArenaSystem) (ops : list arena_op) : Prop :=
  match ops with
  | [] => True
  | op :: ops => arena_legal s op /\ match arena_exec s op with Ret r => legal_calls r.2 ops | _ => True end
  end.
Definition example_busy : CflHeapArenaSystem * list (Z * Z * Z) :=
  match arena_run example_arenas [] example_calls with Ret r => r | _ => (example_arenas, []) end.

(** ** Lemmas *)
Lemma zget_Some_range {A} (l : list (option A)) i x : zget None l i = Some x -> 0 <= i < zlen l.
Proof.
  unfold zget, zlen. destruct (Z.ltb_spec i 0); [done|]. intros Hn. split; [done|].
  destruct (Nat.lt_ge_cases (Z.to_nat i) (length l)); [lia|]. by rewrite nth_overflow in Hn.
Qed.
Lemma in_use_range s i : arenas_core s -> in_use s i -> 0 <= i < as_max s.
Proof. intros Hc Hi. rewrite <- (ok_arenas s Hc). by eapply zget_Some_range. Qed.

Lemma arena_align_ok sz : 0 < sz <= 65528 -> arena_align_up sz ARENA_ALIGNMENT = ceil_to 4 sz /\
  sz <= ceil_to 4 sz <= 65528.
Proof.
  intros Hs. unfold arena_align_up. change (Z.lnot (u16 (ARENA_ALIGNMENT - 1))) with (Z.lnot (2 ^ 2 - 1)).
  rewrite land_lnot_pow2 by lia. change (2 ^ 2 * ((sz + ARENA_ALIGNMENT - 1) / 2 ^ 2)) with (ceil_to 4 sz).
  destruct (ceil_to_spec 4 sz ltac:(lia)) as [H1 H2]. assert (ceil_to 4 sz <= 65528) by (apply ceil_to_least; (lia || done)).
  rewrite u16_id by (unfold fits; lia). lia.
Qed.

(** [find_free_id] hands out an id of the table that is not in use. *)
Lemma find_free_spec s : 1 <= as_max s <= 255 -> forall n i,
  match find_free_loop n s i with
  | Ret (id, s') => 0 <= id < as_max s /\ zget None (as_arenas s) id = None /\
      s' = s <| as_next := u8 ((id + 1) mod as_max s) |>
  | EXCEPTION msg => msg = "find_free_id: All allocator IDs exhausted"%string /\
      forall j, i <= j < i + Z.of_nat n -> zget None (as_arenas s) ((as_next s + j) mod as_max s) <> None
  | Endless => False
  end.
Proof.
  intros Hm. induction n as [|n IH]; intros i; cbn [find_free_loop]; [split; [done|lia]|].
  pose proof (Z.mod_pos_bound (as_next s + i) (as_max s) ltac:(lia)) as Hb. rewrite (u8_id (_ mod _)) by (unfold fits; lia).
  destruct (zget None (as_arenas s) ((as_next s + i) mod as_max s)) eqn:E; [|done].
  specialize (IH (i + 1)). destruct (find_free_loop n s (i + 1)) as [[id s']|msg|]; [done| |done]. destruct IH as [-> IH].
  split; [done|]. intros j Hj. destruct (Z.eq_dec j i) as [-> |Hne]; [congruence|]. apply IH. lia.
Qed.

(** The data of an arena: inside the heap's object, or the permanent buffer. *)
Lemma region_bounds s i : arenas_core s -> in_use s i ->
  0 < base_of s i /\ base_of s i + ac_size (block_of s i) + 2 ^ 16 <= 2 ^ 32 /\
  (i <> 0 -> h_pool (as_heap s) <= base_of s i /\
     base_of s i + ac_size (block_of s i) <= h_pool (as_heap s) + h_size (as_heap s)).
Proof.
  intros Hc Hi. unfold base_of. destruct (Z.eqb_spec i 0) as [-> |Hne].
  - destruct (ok_buf s Hc) as (H1 & H2 & _), (ok_entry s Hc 0 0 Hi) as (_ & _ & Hu & Hs). split; [done|]. split; [lia|done].
  - destruct (ok_held s Hc i Hi Hne) as (len & He & Hl), (ok_heap s Hc) as (bs & Hok).
    pose proof (extents_bounds _ _ _ Hok He) as Hb. cbn [fst snd] in Hb. destruct Hok as ((_ & _ & Hs & Hp1 & Hp2 & _) & _).
    destruct (ok_entry s Hc i i Hi) as (_ & _ & Hu & _). lia.
Qed.
(** The data of different arenas do not meet. *)
Lemma region_apart s i j : arenas_core s -> in_use s i -> in_use s j -> i <> j ->
  base_of s i + ac_size (block_of s i) <= base_of s j \/ base_of s j + ac_size (block_of s j) <= base_of s i.
Proof.
  intros Hc Hi Hj Hne. destruct (region_bounds s i Hc Hi) as (_ & _ & Ri), (region_bounds s j Hc Hj) as (_ & _ & Rj).
  destruct (ok_buf s Hc) as (_ & _ & Hbuf). destruct (Z.eq_dec i 0) as [-> |Hi0]; [|destruct (Z.eq_dec j 0) as [-> |Hj0]].
  - specialize (Rj ltac:(congruence)). unfold base_of at 1 4. cbn [Z.eqb]. lia.
  - specialize (Ri Hi0). unfold base_of at 2 3. cbn [Z.eqb]. lia.
  - destruct (ok_held s Hc i Hi Hi0) as (li & Ei & Li), (ok_held s Hc j Hj Hj0) as (lj & Ej & Lj), (ok_heap s Hc) as (bs & Hok).
    destruct (extents_disjoint _ _ _ _ Hok Ei Ej) as [E|Hd].
    + injection E as E _. exfalso. apply Hne. by apply (ok_inj s Hc).
    + unfold base_of. rewrite (proj2 (Z.eqb_neq i 0)), (proj2 (Z.eqb_neq j 0)) by done. cbn [fst snd] in Hd. lia.
Qed.
Lemma base_ptr_ok s i : arenas_core s -> in_use s i -> arena_base_ptr s i = Ret (base_of s i).
Proof.
  intros Hc Hi. destruct (ok_entry s Hc i i Hi) as (_ & Eid & _). unfold arena_base_ptr, base_of. rewrite Eid.
  destruct (Z.eqb_spec i 0) as [-> |Hne]; [done|]. destruct (ok_held s Hc i Hi Hne) as (len & He & _), (ok_heap s Hc) as (bs & Hok).
  pose proof (extents_bounds _ _ _ Hok He) as Hb. cbn [fst snd] in Hb. destruct Hok as ((Hin & _) & _).
  unfold cfl_heap_ptr, heap_idx_to_ptr. cbn [not_null]. rewrite Hin. cbn [negb raise_if].
  by rewrite (proj2 (Z.leb_gt _ _)) by lia.
Qed.

Lemma core_same s s' allocs : same_tables s s' -> arenas_core s /\ allocs_ok s allocs -> arenas_core s' /\ allocs_ok s' allocs.
Proof.
  destruct s, s'. unfold same_tables. cbn. intros (-> & -> & -> & -> & ->) [[] Ha]. split; [constructor; assumption|exact Ha].
Qed.
Lemma in_use_same s s' i : same_tables s s' -> in_use s' i <-> in_use s i.
Proof. intros (_ & _ & _ & E & _). unfold in_use. by rewrite E. Qed.

Lemma block_of_set s i c j : 0 <= i < zlen (as_blocks s) -> 0 <= j ->
  zget control0 (zset (as_blocks s) i c) j = if j =? i then c else block_of s j.
Proof.
  intros Hi Hj. destruct (Z.eqb_spec j i) as [-> |Hne]; [by apply zget_zset_eq|]. by apply zget_zset_ne.
Qed.

Lemma block_of_used s i u j : arenas_core s -> in_use s i -> in_use s j ->
  block_of (set_used s i u) j = if j =? i then block_of s i <| ac_used := u |> else block_of s j.
Proof.
  intros Hc Hi Hj. apply in_use_range in Hi, Hj; [|done..]. apply block_of_set; [by rewrite (ok_blocks s Hc)|lia].
Qed.
Lemma set_used_core s i u : arenas_core s -> in_use s i -> 0 <= u <= ac_size (block_of s i) -> arenas_core (set_used s i u).
Proof.
  intros Hc Hi Hu. assert (forall j, in_use s j ->
    ac_memory_idx (block_of (set_used s i u) j) = ac_memory_idx (block_of s j) /\
    ac_size (block_of (set_used s i u) j) = ac_size (block_of s j) /\ ac_id (block_of (set_used s i u) j) = ac_id (block_of s j)) as Hb.
  { intros j Hj. rewrite block_of_used by done. by destruct (Z.eqb_spec j i) as [-> |Hne]. }
  pose proof Hc as [H1 H2 H3 H4 H5 H6 H7 H9 H10]. constructor; try assumption.
  - cbn. unfold zlen in *. by rewrite zlen_zset.
  - intros j k Hk. pose proof (H6 j k Hk) as (-> & E1 & E2 & E3). destruct (Hb j Hk) as (_ & -> & ->). do 2 (split; [done|]).
    split; [|done]. rewrite block_of_used by done. destruct (Z.eqb_spec j i) as [-> |Hne]; [exact Hu|done].
  - intros j Hj Hne. destruct (Hb j Hj) as (-> & -> & _). by apply H7.
  - intros j k Hj Hk Hj0 Hk0. destruct (Hb j Hj) as (-> & _), (Hb k Hk) as (-> & _). by apply H9.
  - by destruct (Hb 0 H5) as (_ & -> & _).
Qed.
Lemma base_of_used s i u j : arenas_core s -> in_use s i -> in_use s j -> base_of (set_used s i u) j = base_of s j.
Proof.
  intros Hc Hi Hj. unfold base_of. rewrite block_of_used by done. by destruct (Z.eqb_spec j i) as [-> |].
Qed.
(** A new allocation behind the bump pointer. *)
Lemma set_used_allocs s i ptr sz allocs : arenas_core s -> in_use s i ->
  base_of s i + ac_used (block_of s i) <= ptr -> 0 < sz -> ptr + sz - base_of s i <= ac_size (block_of s i) ->
  allocs_ok s allocs -> allocs_ok (set_used s i (ptr + sz - base_of s i)) ((i, ptr, sz) :: allocs).
Proof.
  intros Hc Hi Hptr Hsz Hend [Hin Hap]. destruct (ok_entry s Hc i i Hi) as (_ & _ & Hu & _). split.
  - constructor.
    + split; [done|]. cbn [fst snd]. rewrite base_of_used, block_of_used, Z.eqb_refl by done. cbn. lia.
    + eapply Forall_impl; [exact Hin|]. intros a (Ha & Hlo & Hhi). split; [done|].
      rewrite base_of_used, block_of_used by done. split; [done|].
      destruct (Z.eqb_spec a.1.1 i) as [E|]; [|done]. rewrite E in *. cbn. lia.
  - constructor; [|done]. eapply List.Forall_impl; [|exact Hin]. intros a (Ha & Hlo & Hhi) E. cbn [fst snd] in *.
    rewrite <- E in *. unfold apart. cbn [fst snd]. lia.
Qed.

Lemma bump_alloc_spec s i sz al : arenas_core s -> in_use s i -> 0 < sz -> 0 < al <= 128 -> is_power_of_2 al = true ->
  sz + al <= 65536 ->
  match arena_bump_alloc s i sz al with
  | Ret (ptr, off, s') => ptr = ceil_to al (base_of s i + ac_used (block_of s i)) /\
      base_of s i + ac_used (block_of s i) <= ptr /\ ptr mod al = 0 /\
      ptr + sz - base_of s i <= ac_size (block_of s i) /\ off = ptr - base_of s i /\
      s' = set_used s i (ptr + sz - base_of s i)
  | EXCEPTION msg => msg = "arena_bump_alloc: Arena exhausted - insufficient space"%string /\
      base_of s i + ac_size (block_of s i) < ceil_to al (base_of s i + ac_used (block_of s i)) + sz
  | Endless => False
  end.
Proof.
  intros Hc Hi Hs Ha Hpow Hsum. destruct (region_bounds s i Hc Hi) as (Hb & Htop & _).
  destruct (ok_entry s Hc i i Hi) as (_ & _ & Hu & Hsz). change (2 ^ 16) with 65536 in *. change (2 ^ 32) with 4294967296 in Htop.
  unfold arena_bump_alloc. rewrite base_ptr_ok by done. cbn [cbind]. set (cur := base_of s i + ac_used (block_of s i)).
  destruct (ceil_to_spec al cur ltac:(lia)) as [Hcl Hm].
  rewrite (u32_id cur) by (unfold fits; change (2 ^ 32) with 4294967296; lia).
  rewrite (u32_id (al - 1)) by (unfold fits; change (2 ^ 32) with 4294967296; lia).
  rewrite aligned_addr_ok by (done || (change (2 ^ 32) with 4294967296; lia)).
  rewrite (u16_id (ceil_to al cur - cur)) by (unfold fits; lia). rewrite (u16_id (_ + sz)) by (unfold fits; lia).
  destruct (Z.ltb_spec (ac_size (block_of s i)) (ac_used (block_of s i) + (ceil_to al cur - cur + sz))) as [Hout|Hfit]; cbn [raise_if].
  { split; [done|]. lia. }
  rewrite !u16_id by (unfold fits; lia). split; [done|]. do 3 (split; [lia || done|]). split; [lia|]. unfold set_used.
  by replace (ac_used (block_of s i) + (ceil_to al cur - cur + sz)) with (ceil_to al cur + sz - base_of s i) by lia.
Qed.

(** ** Arenas come and go *)
Lemma zget_zset {A} (d : A) l i j v : 0 <= i < zlen l -> zget d (zset l i v) j = if j =? i then v else zget d l j.
Proof.
  intros Hi. destruct (Z.eqb_spec j i) as [-> |Hne]; [by apply zget_zset_eq|].
  destruct (Z.lt_ge_cases j 0) as [Hj|Hj]; [|by apply zget_zset_ne].
  unfold zget. by rewrite !(proj2 (Z.ltb_lt _ _)) by done.
Qed.
Lemma alloc_in_same s s' a : alloc_in s a -> in_use s' a.1.1 -> base_of s' a.1.1 = base_of s a.1.1 ->
  block_of s' a.1.1 = block_of s a.1.1 -> alloc_in s' a.
Proof. intros (H1 & H2 & H3) Hi Eb Ec. unfold alloc_in. by rewrite Eb, Ec. Qed.

Lemma block_of_add s h id idx sz owner j : 0 <= id < zlen (as_blocks s) ->
  block_of (add_arena s h id idx sz owner) j = if j =? id then mk_control idx sz 0 owner id 0 else block_of s j.
Proof. intros Hi. by apply zget_zset. Qed.
Lemma in_use_add s h id idx sz owner j : 0 <= id < zlen (as_arenas s) ->
  in_use (add_arena s h id idx sz owner) j <-> j = id \/ in_use s j.
Proof.
  intros Hi. unfold in_use. cbn. rewrite zget_zset by done. destruct (Z.eqb_spec j id) as [-> |Hne]; [split; [by left|done]|].
  split; [by right|by intros [?|?]].
Qed.
Lemma add_arena_ok s h bs id idx len sz owner allocs : arenas_core s /\ allocs_ok s allocs ->
  0 <= id < as_max s -> zget None (as_arenas s) id = None -> heap_ok h bs ->
  h_pool h = h_pool (as_heap s) -> h_size h = h_size (as_heap s) ->
  (forall e, e ∈ extents h <-> e = (idx, len) \/ e ∈ extents (as_heap s)) ->
  (forall e, e ∈ extents (as_heap s) -> e.1 <> idx) -> 0 <= sz <= len -> sz < 2 ^ 16 ->
  let s' := add_arena s h id idx sz owner in arenas_core s' /\ allocs_ok s' allocs.
Proof.
  intros [Hc [Hin Hap]] Hid Hnew Hok Ep Es Hext Hfresh Hsz H16 s'.
  pose proof Hc as [H1 H2 H3 H4 H5 H6 H7 H9 H10].
  assert (forall j, block_of s' j = if j =? id then mk_control idx sz 0 owner id 0 else block_of s j) as Hb
    by (intros j; apply block_of_add; lia).
  assert (forall j, in_use s' j <-> j = id \/ in_use s j) as Hu by (intros j; apply in_use_add; lia).
  assert (forall j, in_use s j -> j <> id) as Hne by (intros j Hj ->; unfold in_use in Hj; congruence).
  assert (forall j, in_use s j -> block_of s' j = block_of s j) as Hold.
  { intros j Hj. rewrite Hb. by rewrite (proj2 (Z.eqb_neq j id)) by by apply Hne. }
  assert (block_of s' id = mk_control idx sz 0 owner id 0) as Hself by (by rewrite Hb, Z.eqb_refl).
  assert (id <> 0) as Hid0 by (symmetry; by apply Hne).
  split; [constructor|split].
  - by exists bs.
  - done.
  - cbn. unfold zlen in *. by rewrite zlen_zset.
  - cbn. unfold zlen in *. by rewrite zlen_zset.
  - apply Hu. by right.
  - intros i k Hk. cbn in Hk. rewrite zget_zset in Hk by lia. rewrite Hb. destruct (Z.eqb_spec i id) as [-> |].
    + injection Hk as <-. cbn. lia.
    + by apply H6.
  - intros i Hi Hi0. apply Hu in Hi as [-> |Hi]; [rewrite Hself|rewrite (Hold i Hi)]; cbn [ac_memory_idx ac_size].
    + exists len. split; [apply Hext; by left|lia].
    + destruct (H7 i Hi Hi0) as (l & Hl & Hle). exists l. split; [apply Hext; by right|done].
  - intros i j Hi Hj Hi0 Hj0. apply Hu in Hi as [-> |Hi], Hj as [-> |Hj]; rewrite ?Hself, ?(Hold i Hi), ?(Hold j Hj); cbn [ac_memory_idx].
    + done.
    + intros E. destruct (H7 j Hj Hj0) as (l & Hl & _). by destruct (Hfresh _ Hl).
    + intros E. destruct (H7 i Hi Hi0) as (l & Hl & _). by destruct (Hfresh _ Hl).
    + by apply H9.
  - rewrite (Hold 0 H5). cbn. by rewrite Ep, Es.
  - eapply Forall_impl; [exact Hin|]. intros a Ha. pose proof Ha as (Hau & _). apply (alloc_in_same s); [done|apply Hu; by right| |by apply Hold].
    unfold base_of. rewrite (Hold _ Hau). cbn. by rewrite Ep.
  - done.
Qed.

Lemma ForallOrdPairs_filter {A} (R : A -> A -> Prop) (p : A -> bool) l :
  ForallOrdPairs R l -> ForallOrdPairs R (List.filter p l).
Proof.
  induction 1 as [|a l Ha Hl IH]; cbn; [constructor|]. destruct (p a); [|done]. constructor; [|done].
  rewrite List.Forall_forall in *. intros x Hx. apply List.filter_In in Hx as [Hx _]. by apply Ha.
Qed.
Lemma remove_arena_ok s id : arenas_core s -> in_use s id -> id <> 0 ->
  exists h, cfl_heap_free (Some (as_heap s)) (ac_memory_idx (block_of s id)) = Ret h /\
    let s' := remove_arena s h id in
    arenas_core s' /\ (forall j, in_use s' j <-> j <> id /\ in_use s j) /\
    (forall e, e ∈ extents h <-> e ∈ extents (as_heap s) /\ e.1 <> ac_memory_idx (block_of s id)) /\
    (forall allocs, allocs_ok s allocs -> allocs_ok s' (List.filter (fun a => negb (a.1.1 =? id)) allocs)).
Proof.
  intros Hc Hi Hi0. pose proof Hc as [H1 H2 H3 H4 H5 H6 H7 H9 H10]. pose proof (in_use_range _ _ Hc Hi) as Hr.
  destruct (H7 id Hi Hi0) as (len & He & Hl), H1 as (bs & Hok).
  destruct (heap_free_extents _ _ _ Hok He) as (h & E & Ep & Es & Hok' & Hext). cbn [fst snd] in *.
  exists h. split; [done|]. set (s' := remove_arena s h id).
  assert (forall j, block_of s' j = if j =? id then control0 else block_of s j) as Hb by (intros j; apply zget_zset; lia).
  assert (forall j, in_use s' j <-> j <> id /\ in_use s j) as Hu.
  { intros j. unfold in_use. cbn. rewrite zget_zset by lia. destruct (Z.eqb_spec j id) as [-> |Hne]; [split; [done|by intros [? _]]|].
    split; [by split|by intros [_ ?]]. }
  assert (forall j, in_use s' j -> block_of s' j = block_of s j) as Hold.
  { intros j [Hj _]%Hu. rewrite Hb. by rewrite (proj2 (Z.eqb_neq j id)). }
  split; [constructor|split; [done|split; [exact Hext|]]].
  - done.
  - done.
  - cbn. unfold zlen in *. by rewrite zlen_zset.
  - cbn. unfold zlen in *. by rewrite zlen_zset.
  - apply Hu. split; [by symmetry|done].
  - intros i k Hk. cbn in Hk. rewrite zget_zset in Hk by lia. rewrite Hb. destruct (Z.eqb_spec i id) as [-> |]; [done|by apply H6].
  - intros i Hi' Hne. rewrite (Hold i Hi'). apply Hu in Hi' as [Hneq Hi']. destruct (H7 i Hi' Hne) as (l & Hl' & Hle).
    exists l. split; [|done]. apply Hext. split; [done|]. cbn. intros Eq. apply Hneq. by apply H9.
  - intros i j Hi' Hj Hin0 Hjn0. rewrite (Hold i Hi'), (Hold j Hj). apply Hu in Hi' as [_ Hi'], Hj as [_ Hj]. by apply H9.
  - rewrite (Hold 0) by (apply Hu; split; [by symmetry|done]). cbn. by rewrite Ep, Es.
  - intros allocs [Hin Hap]. split; [|by apply ForallOrdPairs_filter].
    rewrite Forall_forall in *. intros a. rewrite list_elem_of_In, List.filter_In, <- list_elem_of_In. intros [Ha Hne].
    apply negb_true_iff, Z.eqb_neq in Hne. pose proof (Hin a Ha) as Hai. pose proof Hai as (Hau & _).
    assert (in_use s' a.1.1) as Hau' by by apply Hu. apply (alloc_in_same s); [done|done| |by apply Hold].
    unfold base_of. rewrite (Hold _ Hau'). cbn. by rewrite Ep.
Qed.

(** ** Specification: why a call raises *)

(** ** The calls keep the invariant *)
Lemma nodes_set s s' ids node id : nodes_ok s -> as_node_ids s = Some ids -> as_node_ids s' = Some (zset ids node id) ->
  as_nodes s' = as_nodes s -> 0 <= node < as_nodes s -> in_use s' id -> (forall j, in_use s j -> in_use s' j) ->
  exists ids', as_node_ids s' = Some ids' /\ zlen ids' = as_nodes s' /\
    forall j, 0 <= j < as_nodes s' -> in_use s' (zget 0 ids' j).
Proof.
  intros Hn E E' En Hr Hid Hmono. destruct (ok_ids s Hn) as (ids0 & E0 & Hl & Hu). rewrite E in E0. injection E0 as <-.
  exists (zset ids node id). split; [done|]. rewrite En. split; [unfold zlen in *; by rewrite zlen_zset|].
  intros j Hj. rewrite zget_zset by lia. destruct (j =? node); [done|]. by apply Hmono, Hu.
Qed.

Lemma in_use_none s id : arenas_core s -> ~ in_use s id -> zget None (as_arenas s) id = None.
Proof.
  intros Hc Hn. destruct (zget None (as_arenas s) id) as [k|] eqn:E; [|done]. exfalso. apply Hn.
  destruct (ok_entry s Hc id k E) as (-> & _). done.
Qed.

Lemma arena_create_ok s allocs owner sz : arenas_ok s allocs -> 0 <= owner -> 0 < sz <= 65528 ->
  match cfl_heap_arena_create (Some s) owner sz with
  | Ret (id, s') => arenas_ok s' allocs /\ ~ in_use s id /\ in_use s' id /\ sz <= ac_size (block_of s' id)
  | EXCEPTION msg => arena_raises s (ACreate owner sz) msg
  | Endless => False
  end.
Proof.
  intros (Hc & Hn & Ha) Ho Hs. destruct (ok_ids s Hn) as (ids & Eids & Hlids & Hids), (ok_mem s Hn) as (mem & Emem & Hlmem).
  unfold cfl_heap_arena_create. cbn [not_null]. rewrite (proj2 (Z.eqb_neq sz 0)), Eids by lia. cbn [not_null raise_if].
  destruct (Z.leb_spec (as_nodes s) owner) as [Hob|Hob]; cbn [raise_if]; [by left|].
  destruct (arena_align_ok sz Hs) as [-> Hsz]. pose proof (find_free_spec s (ok_max s Hc) (Z.to_nat (as_max s)) 0) as Hf.
  fold (find_free_id s) in Hf. pose proof (ok_max s Hc) as Hm.
  destruct (find_free_id s) as [[id s1]|msg|]; cbn [cbind fst snd]; [| |done].
  2: { destruct Hf as [-> Hf]. right. left. split; [done|]. intros id Hid.
       specialize (Hf ((id - as_next s) mod as_max s)). pose proof (Z.mod_pos_bound (id - as_next s) (as_max s) ltac:(lia)).
       rewrite Zplus_mod_idemp_r in Hf. replace (as_next s + (id - as_next s)) with id in Hf by lia.
       rewrite (Z.mod_small id) in Hf by lia.
       destruct (decide (in_use s id)) as [|Hno]; [done|]. exfalso. apply Hf; [lia|]. by apply in_use_none. }
  destruct Hf as (Hid & Hnew & ->). destruct (ok_heap s Hc) as (bs & Hok).
  assert (heap_req_ok NODE_ID_NONE (ceil_to 4 sz) BLOCK_ALIGNMENT) as Hreq.
  { split; [|split; [vm_compute; done|vm_compute; done]]. unfold req_ok. cbn [fst snd]. change BLOCK_ALIGNMENT with 4. repeat split; (done || lia). }
  unfold cfl_heap_malloc. change (as_heap (s <| as_next := _ |>)) with (as_heap s).
  pose proof (heap_alloc_spec _ _ _ _ _ Hok Hreq) as Hx.
  destruct (cfl_heap_arena_alloc_aligned _ _ _ _) as [[idx h]|msg|] eqn:E; cbn [cbind fst snd]; [clear Hx| |done].
  2: { right. right. exact Hx. }
  destruct (heap_alloc_extents _ _ _ _ _ _ _ Hok Hreq E) as (Ep & Es & (bs' & Hok') & len & Hlen & _ & Hext & Hfresh).
  assert ((idx, len) ∈ extents h) as Hin by (apply Hext; by left). pose proof (extents_bounds _ _ _ Hok' Hin) as Hb. cbn [fst snd] in Hb.
  pose proof Hok' as ((_ & _ & Hhs & _) & _). change (2 ^ 16) with 65536 in Hhs. pose proof (rounded_bound (ceil_to 4 sz) ltac:(lia)) as Hrb.
  assert (8 <= rounded (ceil_to 4 sz)) by (unfold rounded; change MIN_ALLOC_SIZE with 8; lia).
  rewrite (proj2 (Z.eqb_neq idx INVALID_HEAP_IDX)) by (change INVALID_HEAP_IDX with 65535; lia). cbn [raise_if].
  destruct (add_arena_ok s h bs' id idx len (ceil_to 4 sz) owner allocs) as [Hc' Ha']; try done; [lia|change (2 ^ 16) with 65536; lia|].
  set (sa := add_arena _ _ _ _ _ _) in *. set (s' := mk_arenas _ _ _ _ _ _ _ _ _ _ _).
  assert (same_tables sa s') as Hsame by done. destruct (core_same _ _ _ Hsame (conj Hc' Ha')) as [Hc2 Ha2].
  assert (forall j, in_use s' j <-> j = id \/ in_use s j) as Hu.
  { intros j. apply (in_use_add s h id idx (ceil_to 4 sz) owner). rewrite (ok_arenas s Hc). lia. }
  split; [split; [done|split; [|done]]|].
  - constructor.
    + apply (nodes_set s s' ids owner id); try done; [apply Hu; by left|]. intros j Hj. apply Hu. by right.
    + by exists mem.
    + apply Hu. right. apply (ok_active s Hn).
  - split; [unfold in_use; congruence|]. split; [apply Hu; by left|].
    change (block_of s' id) with (block_of sa id). unfold sa. rewrite block_of_add, Z.eqb_refl by (rewrite (ok_blocks s Hc); lia). cbn. lia.
Qed.

Lemma clear_nodes_spec id n : forall ids mem i, 0 <= i -> i + Z.of_nat n = zlen ids -> zlen mem = zlen ids ->
  let r := clear_nodes n ids mem id i in
  zlen r.1 = zlen ids /\ zlen r.2 = zlen ids /\
  forall j, 0 <= j < zlen ids ->
    zget 0 r.1 j = (if (i <=? j) && (zget 0 ids j =? id) then 0 else zget 0 ids j) /\
    zget 0 r.2 j = (if (i <=? j) && (zget 0 ids j =? id) then INVALID_MEMORY_IDX else zget 0 mem j).
Proof.
  induction n as [|n IH]; intros ids mem i Hi Hl Hm; cbn [clear_nodes].
  { split; [done|]. split; [done|]. intros j Hj. by rewrite (proj2 (Z.leb_gt _ _)) by lia. }
  destruct (Z.eqb_spec (zget 0 ids i) id) as [E|E].
  - assert (zlen (zset ids i 0) = zlen ids) as L1 by (unfold zlen; by rewrite zlen_zset).
    assert (zlen (zset mem i INVALID_MEMORY_IDX) = zlen ids) as L2 by (rewrite <- Hm; unfold zlen; by rewrite zlen_zset).
    destruct (IH (zset ids i 0) (zset mem i INVALID_MEMORY_IDX) (i + 1)) as (I1 & I2 & I3); [lia..|]. rewrite L1 in *.
    split; [done|]. split; [done|]. intros j Hj. destruct (I3 j Hj) as [-> ->]. rewrite !zget_zset by lia.
    destruct (Z.eqb_spec j i) as [-> |Hne].
    + by rewrite (proj2 (Z.leb_gt (i + 1) i)), Z.leb_refl, (proj2 (Z.eqb_eq _ _) E) by lia.
    + by replace (i + 1 <=? j) with (i <=? j) by (destruct (Z.leb_spec i j), (Z.leb_spec (i + 1) j); lia || done).
  - destruct (IH ids mem (i + 1)) as (I1 & I2 & I3); [lia..|]. split; [done|]. split; [done|]. intros j Hj.
    destruct (I3 j Hj) as [-> ->]. destruct (Z.eq_dec j i) as [-> |Hne].
    + by rewrite (proj2 (Z.leb_gt (i + 1) i)), (proj2 (Z.eqb_neq _ _) E), Z.leb_refl by lia.
    + by replace (i + 1 <=? j) with (i <=? j) by (destruct (Z.leb_spec i j), (Z.leb_spec (i + 1) j); lia || done).
Qed.

Lemma arena_destroy_ok s allocs id owner : arenas_ok s allocs -> 0 <= id ->
  match cfl_heap_arena_destroy (Some s) id owner with
  | Ret s' => arenas_ok s' (List.filter (fun a => negb (a.1.1 =? id)) allocs)
  | EXCEPTION msg => arena_raises s (ADestroy id owner) msg
  | Endless => False
  end.
Proof.
  intros (Hc & Hn & Ha) Hid. destruct (ok_ids s Hn) as (ids & Eids & Hlids & Hids), (ok_mem s Hn) as (mem & Emem & Hlmem).
  unfold cfl_heap_arena_destroy. cbn [not_null]. rewrite Eids, Emem. cbn [not_null]. change (default [] (Some mem)) with mem.
  destruct (Z.leb_spec (as_max s) id) as [Hob|Hob]; cbn [raise_if]; [by left|].
  destruct (Z.eqb_spec id 0) as [-> |Hid0]; cbn [raise_if]; [right; by left|].
  destruct (zget None (as_arenas s) id) as [k|] eqn:Ek; cbn [not_null].
  2: { right. right. left. split; [unfold in_use; congruence|done]. }
  destruct (ok_entry s Hc id k Ek) as (-> & _). assert (in_use s id) as Hi by exact Ek.
  destruct (Z.eqb_spec (ac_owner_node_id (block_of s id)) owner) as [Eo|Eo]; cbn [negb raise_if]; [|by repeat right].
  destruct (remove_arena_ok s id Hc Hi Hid0) as (h & E & Hc' & Hu & _ & Ha'). rewrite E. cbn [cbind].
  pose proof (clear_nodes_spec id (Z.to_nat (as_nodes s)) ids mem 0 ltac:(lia)) as Hcl.
  destruct Hcl as (L1 & L2 & Hcl); [pose proof (zlen_nonneg ids); lia|lia|].
  set (cl := clear_nodes _ _ _ _ _) in *. specialize (Ha' allocs Ha).
  set (s' := mk_arenas _ _ _ _ _ _ _ _ _ _ _). unfold release_id. change (as_max s') with (as_max s).
  rewrite (proj2 (Z.ltb_lt _ _)) by lia.
  assert (forall j, zget None (zset (zset (as_arenas s) id None) id None) j = zget None (zset (as_arenas s) id None) j) as Hidem.
  { intros j. assert (zset (zset (as_arenas s) id None) id None = zset (as_arenas s) id None) as ->; [|done].
    unfold zset. destruct (id <? 0); [done|]. apply list_insert_insert_eq. }
  assert (zset (zset (as_arenas s) id None) id None = zset (as_arenas s) id None) as Eidem.
  { unfold zset. destruct (id <? 0); [done|]. apply list_insert_insert_eq. }
  set (s2 := s' <| as_arenas ::= _ |>).
  assert (same_tables (remove_arena s h id) s2) as Hsame by (repeat split; exact Eidem).
  destruct (core_same _ _ _ Hsame (conj Hc' Ha')) as [Hc2 Ha2]. split; [done|split; [|done]].
  assert (forall j, in_use s2 j <-> j <> id /\ in_use s j) as Hu2 by (intros j; rewrite (in_use_same _ _ _ Hsame); apply Hu).
  assert (in_use s2 0) as H0 by (apply Hu2; split; [by symmetry|apply (ok_zero s Hc)]).
  constructor.
  - change (as_nodes s2) with (as_nodes s). exists cl.1. split; [done|]. split; [lia|]. intros j Hj.
    destruct (Hcl j ltac:(lia)) as [-> _]. rewrite (proj2 (Z.leb_le 0 j)) by lia. cbn [andb].
    destruct (Z.eqb_spec (zget 0 ids j) id) as [_|Hne]; [done|]. apply Hu2. split; [done|]. apply Hids. lia.
  - change (as_nodes s2) with (as_nodes s). exists cl.2. split; [done|lia].
  - change (as_active s2) with (if as_active s =? id then 0 else as_active s).
    destruct (Z.eqb_spec (as_active s) id) as [_|Hne]; [done|]. apply Hu2. split; [done|apply (ok_active s Hn)].
Qed.

Lemma held_iff s idx : arenas_core s -> held s idx <-> exists i, in_use s i /\ i <> 0 /\ ac_memory_idx (block_of s i) = idx.
Proof.
  intros Hc. unfold held. rewrite Exists_exists. split; [intros (i & _ & H); by exists i|].
  intros (i & Hi & H). exists i. split; [|done]. apply elem_of_seqZ. pose proof (in_use_range _ _ Hc Hi). lia.
Qed.
(** The arenas other than 0 go one by one. *)
Lemma reset_loop_ok n : forall s i, arenas_core s -> 1 <= i -> i + Z.of_nat n = as_max s -> (forall j, in_use s j -> j <> 0 -> i <= j) ->
  exists s', reset_loop n s i = Ret s' /\ arenas_core s' /\ (forall j, in_use s' j -> j = 0) /\
    as_max s' = as_max s /\ as_node_ids s' = as_node_ids s /\ as_node_mem s' = as_node_mem s /\ as_nodes s' = as_nodes s /\
    as_buf0 s' = as_buf0 s /\ h_pool (as_heap s') = h_pool (as_heap s) /\
    (forall e, e ∈ extents (as_heap s') <-> e ∈ extents (as_heap s) /\ ~ held s e.1).
Proof.
  induction n as [|n IH]; intros s i Hc Hi Hn Hlow; cbn [reset_loop].
  { assert (forall j, in_use s j -> j = 0) as Hz.
    { intros j Hj. destruct (Z.eq_dec j 0) as [|Hne]; [done|]. pose proof (Hlow j Hj Hne). pose proof (in_use_range _ _ Hc Hj). lia. }
    exists s. do 9 (split; [done|]). intros e. rewrite held_iff by done. split; [|by intros [? _]].
    intros He. split; [done|]. intros (j & Hj & Hj0 & _). by apply Hj0, Hz. }
  destruct (zget None (as_arenas s) i) as [k|] eqn:Ek.
  - destruct (ok_entry s Hc i k Ek) as (-> & _). assert (in_use s i) as Hiu by exact Ek.
    destruct (remove_arena_ok s i Hc Hiu ltac:(lia)) as (h & E & Hc' & Hu & Hx & _). rewrite E. cbn [cbind].
    destruct (ok_held s Hc i Hiu ltac:(lia)) as (len & He & _). destruct (ok_heap s Hc) as (bs & Hok).
    destruct (heap_free_extents _ _ _ Hok He) as (h2 & E2 & Ep & _). cbn [fst] in E2. rewrite E in E2. injection E2 as <-.
    destruct (IH (remove_arena s h i) (i + 1) Hc') as (s' & E3 & Hc3 & Hz & Em & Ei & Eme & En & Eb & Eh & Hx3); [lia|cbn; lia| |].
    { intros j [Hne Hj]%Hu Hj0. pose proof (Hlow j Hj Hj0). lia. }
    exists s'. split; [exact E3|]. do 7 (split; [done|]). split; [rewrite Eh; exact Ep|].
    intros e. rewrite Hx3, !held_iff by done. change (as_heap (remove_arena s h i)) with h. rewrite Hx.
    assert (forall j, j <> i -> block_of (remove_arena s h i) j = block_of s j) as Hb.
    { intros j Hne. unfold block_of. cbn. pose proof (in_use_range _ _ Hc Hiu). rewrite zget_zset by (rewrite (ok_blocks s Hc); lia).
      by rewrite (proj2 (Z.eqb_neq j i)). }
    split.
    + intros [[H1 H2] H3]. split; [done|]. intros (j & Hj & Hj0 & Ej). destruct (Z.eq_dec j i) as [-> |Hne]; [congruence|].
      apply H3. exists j. split; [by apply Hu|]. by rewrite Hb.
    + intros [H1 H2]. split; [split; [done|]|].
      * intros Eq. apply H2. exists i. split; [done|]. split; [lia|done].
      * intros (j & [Hne Hj]%Hu & Hj0 & Ej). apply H2. exists j. by rewrite Hb in Ej.
  - apply IH; [done|lia|lia|]. intros j Hj Hj0. pose proof (Hlow j Hj Hj0). assert (j <> i); [|lia].
    intros ->. unfold in_use in Hj. congruence.
Qed.

Lemma arena_reset_ok s allocs : arenas_ok s allocs ->
  exists s', cfl_heap_arena_system_reset (Some s) = Ret s' /\ arenas_ok s' [] /\
    (forall e, e ∈ extents (as_heap s') <-> e ∈ extents (as_heap s) /\ ~ held s e.1) /\
    (forall j, in_use s' j -> j = 0) /\ ac_used (block_of s' 0) = 0 /\
    (forall node, 0 <= node < as_nodes s' -> cfl_heap_arena_get_node_ptr (Some s') node = Ret None) /\
    h_pool (as_heap s') = h_pool (as_heap s).
Proof.
  intros (Hc & Hn & Ha). destruct (ok_ids s Hn) as (ids & Eids & Hlids & Hids), (ok_mem s Hn) as (mem & Emem & Hlmem).
  unfold cfl_heap_arena_system_reset. cbn [not_null]. rewrite Eids, Emem. cbn [not_null]. pose proof (ok_max s Hc).
  destruct (reset_loop_ok (Z.to_nat (as_max s - 1)) s 1 Hc) as (s1 & E & Hc1 & Hz & Em & Ei & Eme & En & Eb & Eh & Hx); [lia|lia| |].
  { intros j Hj Hj0. pose proof (in_use_range _ _ Hc Hj). lia. }
  rewrite E. cbn [cbind]. pose proof (ok_zero s1 Hc1) as H0. unfold in_use in H0. rewrite H0.
  set (s2 := s1 <| as_blocks ::= _ |> <| as_mem0 ::= _ |>). set (s3 := mk_arenas _ _ _ _ _ _ _ _ _ _ _).
  exists s3. split; [done|]. pose proof (ok_entry s1 Hc1 0 0 H0) as (_ & _ & Hu0 & _).
  assert (same_tables (set_used s1 0 0) s3) as Hsame by done.
  destruct (core_same (set_used s1 0 0) s3 [] Hsame) as [Hc3 Ha3].
  { split; [apply set_used_core; (done || lia)|]. split; constructor. }
  assert (in_use s3 0) as H03 by apply (ok_zero s3 Hc3).
  assert (as_nodes s3 = as_nodes s) as En3 by exact En. pose proof (zlen_nonneg ids).
  assert (forall (x : Z) l, zlen l = as_nodes s -> replicate (Z.to_nat (as_nodes s)) x ++ drop (Z.to_nat (as_nodes s)) l =
    replicate (Z.to_nat (as_nodes s)) x) as Hrep.
  { intros x l Hl. rewrite drop_ge by (unfold zlen in Hl; lia). apply app_nil_r. }
  assert (as_node_ids s3 = Some (replicate (Z.to_nat (as_nodes s)) 0)) as Ei3.
  { unfold s3. cbn [as_node_ids]. change (as_nodes s2) with (as_nodes s1). rewrite En. by rewrite Hrep. }
  assert (as_node_mem s3 = Some (replicate (Z.to_nat (as_nodes s)) INVALID_MEMORY_IDX)) as Em3.
  { unfold s3. cbn [as_node_mem]. change (as_nodes s2) with (as_nodes s1). rewrite En. by rewrite Hrep. }
  assert (forall (x : Z) j, 0 <= j < as_nodes s -> zget 0 (replicate (Z.to_nat (as_nodes s)) x) j = x) as Hget.
  { intros x j Hj. apply zget_lookup; [lia|]. apply lookup_replicate. split; [done|lia]. }
  split; [split; [done|split; [|done]]|].
  { constructor.
    - eexists. split; [exact Ei3|]. rewrite En3. split; [unfold zlen; rewrite length_replicate; lia|]. intros j Hj. by rewrite Hget.
    - eexists. split; [exact Em3|]. rewrite En3. unfold zlen. rewrite length_replicate. lia.
    - done. }
  split; [exact Hx|]. split; [exact Hz|]. split.
  { change (block_of s3 0) with (block_of (set_used s1 0 0) 0). by rewrite block_of_used. }
  split; [|exact Eh]. intros node Hnode. unfold cfl_heap_arena_get_node_ptr. cbn [not_null]. rewrite Ei3, Em3. cbn [not_null].
  rewrite (proj2 (Z.leb_gt _ _)) by lia. cbn [raise_if]. rewrite Hget by lia. done.
Qed.

(** The tables the nodes keep, when arenas in use stay in use. *)
Lemma nodes_ok_same s s' : nodes_ok s -> as_node_ids s' = as_node_ids s -> as_nodes s' = as_nodes s ->
  (exists mem, as_node_mem s' = Some mem /\ zlen mem = as_nodes s) -> in_use s' (as_active s') ->
  (forall j, in_use s j -> in_use s' j) -> nodes_ok s'.
Proof.
  intros Hn E1 E2 Hm Ha Hu. destruct (ok_ids s Hn) as (ids & Eids & Hl & Hids). constructor; [|by rewrite E2|done].
  exists ids. rewrite E1, E2. split; [done|]. split; [done|]. intros j Hj. by apply Hu, Hids.
Qed.
Lemma bump_step s allocs id sz al : arenas_ok s allocs -> in_use s id -> 0 < sz -> 0 < al <= 128 ->
  is_power_of_2 al = true -> sz + al <= 65536 ->
  match arena_bump_alloc s id sz al with
  | Ret (ptr, off, s1) => s1 = set_used s id (ptr + sz - base_of s id) /\ arenas_core s1 /\
      allocs_ok s1 ((id, ptr, sz) :: allocs) /\ off = ptr - base_of s id /\ ptr mod al = 0 /\
      ptr = ceil_to al (base_of s id + ac_used (block_of s id))
  | EXCEPTION msg => msg = "arena_bump_alloc: Arena exhausted - insufficient space"%string /\ exhausted s id sz al
  | Endless => False
  end.
Proof.
  intros (Hc & Hn & Ha) Hi Hs Hal Hpow Hsum. pose proof (bump_alloc_spec s id sz al Hc Hi Hs Hal Hpow Hsum) as Hb.
  destruct (arena_bump_alloc s id sz al) as [[[ptr off] s1]|msg|]; [|done..]. destruct Hb as (Ep & Hlo & Hm & Hhi & Eo & ->).
  destruct (ok_entry s Hc id id Hi) as (_ & _ & Hu & _).
  split; [done|]. split; [apply set_used_core; (done || lia)|]. split; [by apply set_used_allocs|done].
Qed.

Lemma id_in_use s allocs node : arenas_ok s allocs -> 0 <= node < as_nodes s ->
  let id := zget 0 (default [] (as_node_ids s)) node in in_use s id /\ id <> NO_ALLOCATOR.
Proof.
  intros (Hc & Hn & _) Hnode id. destruct (ok_ids s Hn) as (ids & Eids & Hl & Hids). subst id. rewrite Eids. change (default [] (Some ids)) with ids.
  assert (in_use s (zget 0 ids node)) as Hi by by apply Hids. split; [done|]. pose proof (in_use_range _ _ Hc Hi).
  pose proof (ok_max s Hc). change NO_ALLOCATOR with 255. lia.
Qed.
Lemma active_in_use s allocs : arenas_ok s allocs -> in_use s (as_active s) /\ as_active s <> NO_ALLOCATOR.
Proof.
  intros (Hc & Hn & _). pose proof (ok_active s Hn) as Hi. split; [done|]. pose proof (in_use_range _ _ Hc Hi).
  pose proof (ok_max s Hc). change NO_ALLOCATOR with 255. lia.
Qed.

Lemma store_mem_ok node off s1 : nodes_ok s1 -> 0 <= node < as_nodes s1 ->
  let s2 := s1 <| as_node_mem ::= fmap (fun mem => zset mem node off) |> in same_tables s1 s2 /\ nodes_ok s2.
Proof.
  intros Hn Hnode s2. split; [done|]. destruct (ok_mem s1 Hn) as (mem & E & Hl).
  apply (nodes_ok_same s1); try done; [|apply (ok_active s1 Hn)].
  exists (zset mem node off). split; [|unfold zlen in *; by rewrite zlen_zset]. unfold s2. cbn. by rewrite E.
Qed.

(** What the three allocating calls share. *)
Lemma alloc_result_gen s allocs node sz al : arenas_ok s allocs -> arena_req_ok node sz al ->
  forall id, (0 <= node < as_nodes s -> in_use s id /\ id <> NO_ALLOCATOR) -> forall post m1 m2,
  (forall off s1, nodes_ok s1 -> as_node_ids s1 = as_node_ids s -> in_use s1 id -> 0 <= node < as_nodes s1 ->
     same_tables s1 (post off s1) /\ nodes_ok (post off s1)) ->
  alloc_result s allocs node id sz al post
    (raise? as_nodes s <=? node with "arena_alloc: node_index out of bounds";
     raise? id =? NO_ALLOCATOR with m1;
     p <- get_arena s id;;
     let? arena := p or m2 in
     r <- arena_bump_alloc s arena sz al;;
     Ret (r.1.1, post r.1.2 r.2)).
Proof.
  intros Hok (Hnode & Hs & Hal & Hpow & Hsum) id Hid post m1 m2 Hpost. unfold alloc_result.
  destruct (Z.leb_spec (as_nodes s) node) as [Hob|Hob]; cbn [raise_if]; [by left|].
  destruct (Hid ltac:(lia)) as [Hi Hne].
  rewrite (proj2 (Z.eqb_neq id NO_ALLOCATOR)) by done. cbn [raise_if]. pose proof Hok as (Hc & Hn & _).
  pose proof (in_use_range _ _ Hc Hi). unfold get_arena. rewrite (proj2 (Z.leb_gt _ _)) by lia. cbn [raise_if cbind].
  pose proof Hi as Hi2. unfold in_use in Hi2. rewrite Hi2. cbn [not_null].
  pose proof (bump_step s allocs id sz al Hok Hi Hs Hal Hpow Hsum) as Hb.
  destruct (arena_bump_alloc s id sz al) as [[[ptr off] s1]|msg|]; cbn [cbind fst snd]; [|by right|done].
  destruct Hb as (-> & Hc1 & Ha1 & -> & Hm & Ep). set (s1 := set_used _ _ _) in *.
  assert (nodes_ok s1) as Hn1.
  { apply (nodes_ok_same s); try done; [apply (ok_mem s Hn)|apply (ok_active s Hn)]. }
  destruct (Hpost (ptr - base_of s id) s1 Hn1) as [Hsame Hn2]; [done..|].
  destruct (core_same _ _ _ Hsame (conj Hc1 Ha1)) as [Hc2 Ha2].
  split; [by split|]. split; [done|]. done.
Qed.

(** Run an allocating call along [Hg], the shared result. *)
Ltac alloc_call s id Hg :=
  destruct (as_nodes s <=? _); cbn [raise_if] in *; [exact Hg|];
  destruct (id =? NO_ALLOCATOR); cbn [raise_if] in *; [exact Hg|];
  destruct (get_arena s id) as [[?|]|?|]; cbn [cbind not_null] in *; [|exact Hg..];
  destruct (arena_bump_alloc s _ _ _) as [[[? ?] ?]|?|]; cbn [cbind fst snd] in *; exact Hg.

Section alloc_calls.
Context (s : CflHeapArenaSystem) (allocs : list (Z * Z * Z)) (node sz al : Z) (ids : list Z).
Hypothesis Hok : arenas_ok s allocs.
Hypothesis Hreq : arena_req_ok node sz al.
Hypothesis Eids : as_node_ids s = Some ids.

Lemma alloc_args_ok : (sz =? 0) = false /\
  (0 <= node < as_nodes s -> in_use s (zget 0 ids node) /\ zget 0 ids node <> NO_ALLOCATOR).
Proof.
  pose proof Hreq as (_ & Hs & _). split; [apply Z.eqb_neq; lia|]. intros Hn.
  pose proof (id_in_use s allocs node Hok Hn) as Hi. by rewrite Eids in Hi.
Qed.
Ltac start_call := destruct alloc_args_ok as [Es Hid];
  unfold cfl_arena_system_alloc_aligned, cfl_arena_additional_alloc_aligned, cfl_arena_alloc_from_active_aligned,
    validate_alloc_args; cbn [not_null]; rewrite Es; cbn [raise_if]; rewrite Eids; cbn [not_null].

Lemma system_alloc_result :
  alloc_result s allocs node (zget 0 ids node) sz al
    (fun off s1 => s1 <| as_node_mem ::= fmap (fun mem => zset mem node off) |>)
    (cfl_arena_system_alloc_aligned (Some s) node sz al).
Proof.
  start_call. pose proof (alloc_result_gen s allocs node sz al Hok Hreq _ Hid _
    "cfl_arena_system_alloc_aligned: Node has no allocator assigned"
    "cfl_arena_system_alloc_aligned: Invalid arena for allocator ID"
    (fun off s1 Hn1 _ _ Hr => store_mem_ok node off s1 Hn1 Hr)) as Hg.
  alloc_call s (zget 0 ids node) Hg.
Qed.
Lemma additional_alloc_result :
  alloc_result s allocs node (zget 0 ids node) sz al (fun _ s1 => s1)
    (cfl_arena_additional_alloc_aligned (Some s) node sz al).
Proof.
  start_call. pose proof (alloc_result_gen s allocs node sz al Hok Hreq _ Hid (fun _ s1 => s1)
    "cfl_arena_additional_alloc_aligned: Node has no allocator assigned"
    "cfl_arena_additional_alloc_aligned: Invalid arena for allocator ID") as Hg.
  specialize (Hg ltac:(by intros)). alloc_call s (zget 0 ids node) Hg.
Qed.
Lemma active_alloc_result :
  alloc_result s allocs node (as_active s) sz al
    (fun off s1 => s1 <| as_node_mem ::= fmap (fun mem => zset mem node off) |>
                      <| as_node_ids := Some (zset ids node (as_active s)) |>)
    (cfl_arena_alloc_from_active_aligned (Some s) node sz al).
Proof.
  start_call. pose proof (alloc_result_gen s allocs node sz al Hok Hreq (as_active s)
    (fun _ => active_in_use s allocs Hok)
    (fun off s1 => s1 <| as_node_mem ::= fmap (fun mem => zset mem node off) |>
                      <| as_node_ids := Some (zset ids node (as_active s)) |>)
    "cfl_arena_alloc_from_active_aligned: No active allocator context set"
    "cfl_arena_alloc_from_active_aligned: Invalid arena for active context") as Hg.
  match type of Hg with ?P -> _ => assert P as Hp; [|specialize (Hg Hp); clear Hp; alloc_call s (as_active s) Hg] end.
  intros off s1 Hn1 Ei1 Hi1 Hr. destruct (store_mem_ok node off s1 Hn1 Hr) as [_ Hn2]. split; [done|]. constructor.
  - apply (nodes_set s1 _ ids node (as_active s)); try done. congruence.
  - apply (ok_mem _ Hn2).
  - apply (ok_active s1 Hn1).
Qed.
End alloc_calls.

Lemma arena_write_ok s allocs idx v : arenas_ok s allocs -> Exists (inside idx) (live (as_heap s)) ->
  arenas_ok (s <| as_heap ::= fun h => h <| h_mem ::= fun m => zset m idx v |> |>) allocs.
Proof.
  intros (Hc & Hn & Ha) Hex. pose proof Hc as [H1 H2 H3 H4 H5 H6 H7 H9 H10]. destruct H1 as (bs & Hok).
  destruct (heap_write_extents _ bs idx v Hok Hex) as [Hok' Hext]. set (s' := s <| as_heap ::= _ |>).
  change (extents (as_heap s') = extents (as_heap s)) in Hext. split; [|split].
  - constructor; try assumption; [by exists bs|..]; rewrite Hext; assumption.
  - by destruct Hn.
  - exact Ha.
Qed.

(** The heap's other clients: a fresh object, apart from the arenas', and one given back. *)
Lemma arena_heap_ok s h' allocs : arenas_ok s allocs -> (exists bs, heap_ok h' bs) ->
  h_pool h' = h_pool (as_heap s) -> h_size h' = h_size (as_heap s) ->
  (forall e, e ∈ extents (as_heap s) -> held s e.1 -> e ∈ extents h') ->
  arenas_ok (s <| as_heap := h' |>) allocs.
Proof.
  intros (Hc & Hn & Ha) Hok Ep Es Hx. pose proof Hc as [H1 H2 H3 H4 H5 H6 H7 H9 H10]. set (s' := s <| as_heap := h' |>).
  assert (forall i, base_of s' i = base_of s i) as Eb by (intros i; unfold base_of; cbn; by rewrite Ep).
  split; [|split].
  - constructor; try assumption.
    + intros i Hi Hi0. destruct (H7 i Hi Hi0) as (len & He & Hl). exists len. split; [|done]. apply Hx; [done|].
      apply held_iff; [done|]. by exists i.
    + cbn. by rewrite Ep, Es.
  - by destruct Hn.
  - destruct Ha as [Hin Hap]. split; [|done]. eapply Forall_impl; [exact Hin|]. intros a (A1 & A2 & A3). unfold alloc_in. by rewrite Eb.
Qed.
Lemma arena_heap_alloc_ok s allocs sz : arenas_ok s allocs -> 0 < sz <= 65528 ->
  match cfl_heap_malloc (Some (as_heap s)) sz with
  | Ret (idx, h') => arenas_ok (s <| as_heap := h' |>) allocs /\ ~ held s idx /\ h_pool h' = h_pool (as_heap s) /\
      h_size h' = h_size (as_heap s) /\ (h_pool (as_heap s) + idx) mod 4 = 0 /\
      exists len, rounded sz <= len /\ (forall e, e ∈ extents h' <-> e = (idx, len) \/ e ∈ extents (as_heap s)) /\
        (forall e, e ∈ extents (as_heap s) -> e.1 <> idx)
  | EXCEPTION msg => arena_raises s (AHeapAlloc sz) msg
  | Endless => False
  end.
Proof.
  intros Hok Hs. pose proof Hok as (Hc & _). destruct (ok_heap s Hc) as (bs & Hh).
  assert (heap_req_ok NODE_ID_NONE sz BLOCK_ALIGNMENT) as Hreq.
  { split; [|split; [vm_compute; done|vm_compute; done]]. unfold req_ok. cbn [fst snd]. change BLOCK_ALIGNMENT with 4. repeat split; (done || lia). }
  unfold cfl_heap_malloc. pose proof (heap_alloc_spec _ _ _ _ _ Hh Hreq) as Hx.
  destruct (cfl_heap_arena_alloc_aligned _ _ _ _) as [[idx h]|msg|] eqn:E; [clear Hx|exact Hx|done].
  destruct (heap_alloc_extents _ _ _ _ _ _ _ Hh Hreq E) as (Ep & Es & Hok' & len & Hlen & Hm & Hext & Hfresh).
  split; [apply arena_heap_ok; try done; intros e He _; apply Hext; by right|]. split.
  { rewrite held_iff by done. intros (i & Hi & Hi0 & Eq). destruct (ok_held s Hc i Hi Hi0) as (l & He & _). by apply (Hfresh _ He). }
  do 3 (split; [done|]). by exists len.
Qed.
Lemma arena_heap_free_ok s allocs e : arenas_ok s allocs -> e ∈ extents (as_heap s) -> ~ held s e.1 ->
  exists h', cfl_heap_free (Some (as_heap s)) e.1 = Ret h' /\ arenas_ok (s <| as_heap := h' |>) allocs /\
    h_pool h' = h_pool (as_heap s) /\ h_size h' = h_size (as_heap s) /\
    (forall f, f ∈ extents h' <-> f ∈ extents (as_heap s) /\ f.1 <> e.1).
Proof.
  intros Hok He Hh. pose proof Hok as (Hc & _). destruct (ok_heap s Hc) as (bs & Hb).
  destruct (heap_free_extents _ _ _ Hb He) as (h' & E & Ep & Es & Hok' & Hx). exists h'. split; [done|]. split; [|done].
  apply arena_heap_ok; try done. intros f Hf Hhf. apply Hx. split; [done|]. intros Eq. apply Hh. by rewrite <- Eq.
Qed.

(** The calls that only move the cursors. *)
Lemma arena_cursor_ok s s' allocs : arenas_ok s allocs -> same_tables s s' -> nodes_ok s' -> arenas_ok s' allocs.
Proof. intros (Hc & Hn & Ha) Hsame Hn'. destruct (core_same _ _ allocs Hsame (conj Hc Ha)). by split. Qed.

Lemma arena_exec_spec s allocs op : arenas_ok s allocs -> arena_legal s op ->
  match arena_exec s op with
  | Ret (r, s') => arenas_ok s' (arena_allocs s op r allocs)
  | EXCEPTION msg => arena_raises s op msg
  | Endless => False
  end.
Proof.
  intros Hok Hlegal. pose proof Hok as (Hc & Hn & Ha).
  destruct (ok_ids s Hn) as (ids & Eids & Hlids & Hids), (ok_mem s Hn) as (mem & Emem & Hlmem). pose proof (ok_active s Hn) as Hact.
  assert (default [] (as_node_ids s) = ids) as Edef by by rewrite Eids.
  destruct op as [owner sz|id owner| |node|id|node|node id|node idx|node sz al|node sz al|node sz al|idx v|sz|idx];
    cbn [arena_exec arena_legal arena_raises arena_allocs] in *; rewrite ?Edef; unfold some_result, no_result.
  - pose proof (arena_create_ok s allocs owner sz Hok (proj1 Hlegal) (proj2 Hlegal)) as H.
    destruct (cfl_heap_arena_create _ _ _) as [[id s']|msg|]; cbn [cbind fst snd]; [apply H|exact H..].
  - pose proof (arena_destroy_ok s allocs id owner Hok Hlegal) as H. by destruct (cfl_heap_arena_destroy _ _ _).
  - destruct (arena_reset_ok s allocs Hok) as (s' & -> & H & _). exact H.
  - unfold cfl_heap_arena_set_active_allocator. cbn [not_null]. rewrite Eids. cbn [not_null].
    destruct (Z.leb_spec (as_nodes s) node) as [Hob|Hob]; cbn [raise_if cbind]; [done|].
    apply (arena_cursor_ok s); [done|done|]. apply (nodes_ok_same s); try done; [by exists mem|]. apply Hids. lia.
  - unfold cfl_heap_arena_set_active_allocator_id. cbn [not_null].
    destruct (Z.leb_spec (as_max s) id) as [Hob|Hob]; cbn [raise_if cbind]; [by left|].
    destruct (zget None (as_arenas s) id) as [k|] eqn:E; cbn [not_null cbind]; [|right; split; [unfold in_use; congruence|done]].
    destruct (ok_entry s Hc id k E) as (-> & _).
    apply (arena_cursor_ok s); [done|done|]. apply (nodes_ok_same s); try done. by exists mem.
  - unfold cfl_heap_arena_set_node_allocator. cbn [not_null]. rewrite Eids. cbn [not_null].
    destruct (Z.leb_spec (as_nodes s) node) as [Hob|Hob]; cbn [raise_if cbind]; [done|].
    apply (arena_cursor_ok s); [done|done|]. constructor; [|by exists mem|done].
    apply (nodes_set s _ ids node (as_active s)); done.
  - unfold cfl_heap_arena_set_node_allocator_id. cbn [not_null]. rewrite Eids. cbn [not_null].
    destruct (Z.leb_spec (as_nodes s) node) as [Hob|Hob]; cbn [raise_if cbind]; [done|].
    apply (arena_cursor_ok s); [done|done|]. constructor; [|by exists mem|done].
    apply (nodes_set s _ ids node id); try done; [split; [apply Hlegal|done]|apply Hlegal].
  - unfold cfl_heap_arena_set_node_memory_index. cbn [not_null]. rewrite Emem. cbn [not_null].
    destruct (Z.leb_spec (as_nodes s) node) as [Hob|Hob]; cbn [raise_if cbind]; [done|].
    apply (arena_cursor_ok s); [done|done|]. apply (nodes_ok_same s); try done.
    exists (zset mem node idx). split; [done|]. unfold zlen in *. by rewrite zlen_zset.
  - pose proof (system_alloc_result s allocs node sz al ids Hok Hlegal Eids) as H. unfold alloc_result in H.
    destruct (cfl_arena_system_alloc_aligned _ _ _ _) as [[ptr s']|msg|]; cbn [cbind fst snd]; [apply H|exact H..].
  - pose proof (additional_alloc_result s allocs node sz al ids Hok Hlegal Eids) as H. unfold alloc_result in H.
    destruct (cfl_arena_additional_alloc_aligned _ _ _ _) as [[ptr s']|msg|]; cbn [cbind fst snd]; [apply H|exact H..].
  - pose proof (active_alloc_result s allocs node sz al ids Hok Hlegal Eids) as H. unfold alloc_result in H.
    destruct (cfl_arena_alloc_from_active_aligned _ _ _ _) as [[ptr s']|msg|]; cbn [cbind fst snd]; [apply H|exact H..].
  - cbn [cbind]. by apply arena_write_ok.
  - pose proof (arena_heap_alloc_ok s allocs sz Hok Hlegal) as H.
    destruct (cfl_heap_malloc _ _) as [[idx h']|msg|]; cbn [cbind fst snd]; [apply H|exact H..].
  - destruct Hlegal as [Hin Hh]. rewrite list_elem_of_In, in_map_iff in Hin. destruct Hin as (e & <- & He). rewrite <- list_elem_of_In in He.
    destruct (arena_heap_free_ok s allocs e Hok He Hh) as (h' & -> & H & _). exact H.
Qed.

(** ** Creation *)

(** [cfl_perm_alloc_pointer] on an allocator in order: a place behind what is in use. *)
Lemma perm_pointer_ok p sz r : perm_ok p -> 0 < sz <= 65528 -> cfl_perm_alloc_pointer (Some p) sz = Ret r ->
  exists at_, r.1 = CflPerm.pool p + at_ /\ CflPerm.used p <= at_ /\ at_ + sz <= CflPerm.used r.2 /\ perm_ok r.2 /\
    CflPerm.pool r.2 = CflPerm.pool p /\ CflPerm.pool_size r.2 = CflPerm.pool_size p /\ CflPerm.used r.2 <= CflPerm.pool_size p.
Proof.
  intros Hp Hs E. unfold cfl_perm_alloc_pointer, cfl_perm_alloc in E.
  assert (req_ok (sz, PERM_ALIGNMENT)) as Hreq.
  { unfold req_ok. cbn [fst snd]. change PERM_ALIGNMENT with 4. repeat split; (done || lia). }
  pose proof (alloc_aligned_spec p (sz, PERM_ALIGNMENT) Hp Hreq) as Ha. cbn [fst snd] in Ha. rewrite Ha in E. clear Ha.
  set (at_ := ceil_to _ _ - _) in *. destruct (ceil_to_spec 4 (CflPerm.pool p + CflPerm.used p) ltac:(done)) as [Hc _].
  pose proof (rounded_bound sz ltac:(lia)) as Hr.
  assert (CflPerm.used p <= at_) as Hat by (unfold at_; change PERM_ALIGNMENT with 4; lia).
  destruct (Z.ltb_spec (CflPerm.pool_size p) (at_ + rounded sz)) as [Hout|Hfit]; cbn [cbind fst snd] in E; [done|].
  pose proof (alloc_keeps_ok p (sz, PERM_ALIGNMENT) at_ Hp Hreq Hat Hfit) as Hok'. cbn [fst] in Hok'.
  set (q := CflPerm.update_stats _ _) in *. unfold idx_to_ptr in E. change (CflPerm.pool_size q) with (CflPerm.pool_size p) in E.
  rewrite (proj2 (Z.leb_gt _ _)) in E by lia. cbn [raise_if cbind] in E. injection E as <-. cbn [fst snd].
  pose proof Hp as (_ & Hp0 & Htop & Hu0 & Hfs). exists at_. change (CflPerm.pool q) with (CflPerm.pool p).
  split; [apply u32_id; unfold fits in *; lia|]. split; [done|]. change (CflPerm.used q) with (at_ + rounded sz).
  split; [lia|]. split; [done|]. split; [done|]. split; [done|lia].
Qed.

Lemma heap_init_ok p heap_size h q : perm_ok p -> CflPerm.pool p + 2 ^ 18 <= 2 ^ 32 -> 20 <= heap_size <= 65528 ->
  cfl_heap_init (Some p) heap_size = Ret (h, q) ->
  heap_ok h [free_blk (heap_size - 12)] /\ live h = [] /\ perm_ok q /\ CflPerm.pool q = CflPerm.pool p /\
  h_pool h + heap_size <= CflPerm.pool q + CflPerm.used q /\ h_size h = heap_size.
Proof.
  intros Hp Htop Hs E. unfold cfl_heap_init in E. cbn [not_null] in E.
  change (HEADER_SIZE + MIN_BLOCK_SIZE + FOOTER_SIZE) with 20 in E. rewrite (proj2 (Z.ltb_ge _ _)) in E by lia. cbn [raise_if] in E.
  apply cbind_Ret in E as (a & Ea & E). apply cbind_Ret in E as (b & Eb & E). injection E as <- <-.
  destruct (perm_pointer_ok p sizeof_CflHeap a Hp ltac:(done) Ea) as (at1 & E1 & U1 & U2 & Hp1 & Epool1 & Esz1 & Uf1).
  destruct (perm_pointer_ok a.2 heap_size b Hp1 ltac:(lia) Eb) as (at2 & E2 & U3 & U4 & Hp2 & Epool2 & Esz2 & Uf2).
  pose proof Hp as (_ & Hp0 & _ & Hu0 & Hfs). change sizeof_CflHeap with 24 in *. unfold fits in Hfs.
  change (2 ^ 16) with 65536 in Hfs. change (2 ^ 18) with 262144 in Htop.
  change (2 ^ 32) with 4294967296 in Htop.
  destruct (heap_fresh_ok b.1 heap_size false) as [Hok Hl]; [lia|change (2 ^ 17) with 131072; change (2 ^ 32) with 4294967296; lia|change (2 ^ 16) with 65536; lia|].
  split; [done|]. split; [done|]. split; [done|]. split; [congruence|]. split; [|done].
  change (h_pool (heap_fresh b.1 heap_size false)) with b.1. lia.
Qed.

Lemma arena_system_create_ok p h bs max nodes size0 s q : perm_ok p -> CflPerm.pool p + 2 ^ 18 <= 2 ^ 32 ->
  heap_ok h bs -> live h = [] -> h_pool h + h_size h <= CflPerm.pool p + CflPerm.used p ->
  1 <= max <= 255 -> 1 <= nodes <= 32764 -> 0 < size0 <= 65528 ->
  cfl_heap_arena_system_create (Some p) (Some h) max nodes size0 = Ret (s, q) -> arenas_ok s [].
Proof.
  intros Hp Htop Hok Hl Hbelow Hm Hn Hs E. unfold cfl_heap_arena_system_create in E. cbn [not_null] in E.
  rewrite (proj2 (Z.eqb_neq size0 0)) in E by lia. cbn [raise_if] in E.
  destruct (arena_align_ok size0 Hs) as [Eal Hal]. rewrite Eal in E.
  rewrite !u16_id in E by (unfold fits; change sizeof_CflHeapArenaControl with 10; lia).
  apply cbind_Ret in E as (r1 & E1 & E). destruct (perm_pointer_ok p sizeof_CflHeapArenaSystem r1 Hp ltac:(done) E1) as (a1 & _ & V1 & V1' & P1 & B1 & _ & _).
  apply cbind_Ret in E as (r2 & E2 & E).
  destruct (perm_pointer_ok r1.2 (max * 10) r2 P1 ltac:(lia) E2) as (a2 & _ & V2 & V2' & P2 & B2 & _ & _).
  apply cbind_Ret in E as (r3 & E3 & E). destruct (perm_pointer_ok r2.2 (max * 4) r3 P2 ltac:(lia) E3) as (a3 & _ & V3 & V3' & P3 & B3 & _ & _).
  apply cbind_Ret in E as (r4 & E4 & E). destruct (perm_pointer_ok r3.2 nodes r4 P3 ltac:(lia) E4) as (a4 & _ & V4 & V4' & P4 & B4 & _ & _).
  apply cbind_Ret in E as (r5 & E5 & E). destruct (perm_pointer_ok r4.2 (nodes * 2) r5 P4 ltac:(lia) E5) as (a5 & _ & V5 & V5' & P5 & B5 & _ & _).
  apply cbind_Ret in E as (r6 & E6 & E). destruct (perm_pointer_ok r5.2 (ceil_to 4 size0) r6 P5 ltac:(lia) E6) as (a6 & R6 & V6 & V6' & P6 & B6 & S6 & U6).
  injection E as <- <-. change sizeof_CflHeapArenaControl with 10 in *. change sizeof_CflHeapArenaSystem with 32 in *.
  pose proof Hp as (_ & Hp0 & _ & Hu0 & _). pose proof P5 as (_ & _ & _ & _ & Hf5). unfold fits in Hf5. change (2 ^ 16) with 65536 in Hf5.
  change (2 ^ 18) with 262144 in Htop. change (2 ^ 32) with 4294967296 in Htop.
  set (blocks := replicate _ control0). set (arenas := replicate _ None).
  assert (zlen blocks = max) as Lb by (unfold zlen, blocks; rewrite length_replicate; lia).
  assert (zlen arenas = max) as La by (unfold zlen, arenas; rewrite length_replicate; lia).
  set (s := mk_arenas _ _ _ _ _ _ _ _ _ _ _).
  assert (forall j, block_of s j = if j =? 0 then mk_control 0 (ceil_to 4 size0) 0 0xFFFF 0 0 else zget control0 blocks j) as Hb
    by (intros j; apply zget_zset; lia).
  assert (forall j k, zget None (as_arenas s) j = Some k -> j = 0 /\ k = 0) as Hu.
  { intros j k. change (as_arenas s) with (zset arenas 0 (Some 0)). rewrite zget_zset by lia. destruct (Z.eqb_spec j 0) as [-> |Hne]; [by intros [= <-]|].
    intros E. exfalso. pose proof (zget_Some_range _ _ _ E) as Hr. unfold zlen in Hr.
    assert (zget None arenas j = None) as Enone; [|congruence]. apply zget_lookup; [lia|]. unfold arenas in *.
    apply lookup_replicate. rewrite length_replicate in Hr. split; [done|lia]. }
  assert (in_use s 0) as H0.
  { unfold in_use. change (as_arenas s) with (zset arenas 0 (Some 0)). by rewrite zget_zset by lia. }
  assert (block_of s 0 = mk_control 0 (ceil_to 4 size0) 0 0xFFFF 0 0) as Hb0 by (by rewrite Hb).
  split; [constructor|split; [constructor|split; constructor]]; try done.
  - by exists bs.
  - transitivity (zlen blocks); [unfold zlen; by rewrite <- (zlen_zset blocks 0 (mk_control 0 (ceil_to 4 size0) 0 0xFFFF 0 0))|done].
  - transitivity (zlen arenas); [unfold zlen; by rewrite <- (zlen_zset arenas 0 (Some 0))|done].
  - intros i k Hk. apply Hu in Hk as [-> ->]. rewrite Hb0. cbn. change (Z.pow_pos 2 16) with 65536. lia.
  - intros i Hi Hi0. by apply Hu in Hi as [-> _].
  - intros i j Hi Hj Hi0. by apply Hu in Hi as [-> _].
  - rewrite Hb0. cbn [as_buf0 s as_heap ac_size]. change (2 ^ 17) with 131072. change (2 ^ 32) with 4294967296. lia.
  - exists (replicate (Z.to_nat nodes) 0). split; [done|]. split; [unfold zlen; rewrite length_replicate; cbn; lia|].
    intros j Hj. assert (zget 0 (replicate (Z.to_nat nodes) 0) j = 0) as ->; [|done].
    apply zget_lookup; [lia|]. apply lookup_replicate. cbn in Hj. split; [done|lia].
  - exists (replicate (Z.to_nat nodes) INVALID_MEMORY_IDX). split; [done|]. unfold zlen. rewrite length_replicate. cbn. lia.
Qed.

Lemma arena_reach_ok p heap_size max nodes size0 s allocs : boot_params_ok p heap_size max nodes size0 ->
  arena_reach p heap_size max nodes size0 s allocs -> arenas_ok s allocs.
Proof.
  intros (Hp & Htop & Hh & Hm & Hn & Hs0). induction 1 as [s q E|s allocs op r s' _ IH Hl E].
  - unfold arena_boot in E. apply cbind_Ret in E as ([h p1] & E1 & E). cbn [fst snd] in E.
    destruct (heap_init_ok p heap_size h p1 Hp Htop Hh E1) as (Hok & Hlive & Hp1 & Epool & Hb & Esz).
    apply (arena_system_create_ok p1 h [free_blk (heap_size - 12)] max nodes size0 s q); try done; [by rewrite Epool|by rewrite Esz].
  - pose proof (arena_exec_spec s allocs op IH Hl) as Hx. by rewrite E in Hx.
Qed.

(** Allocations are apart, those of different arenas too. *)
Lemma allocs_apart s allocs : arenas_core s -> allocs_ok s allocs -> ForallOrdPairs apart allocs.
Proof.
  intros Hc [Hin Hap]. induction Hap as [|a l Ha Hl IH]; [constructor|]. apply Forall_cons in Hin as [Hin1 Hin].
  constructor; [|by apply IH]. rewrite List.Forall_forall in *. intros b Hb. specialize (Ha b Hb).
  specialize (Hin b Hb).
  destruct (Z.eq_dec a.1.1 b.1.1) as [E|Hne]; [by apply Ha|]. destruct Hin1 as (Hi & Hlo & Hhi), Hin as (Hi' & Hlo' & Hhi').
  destruct (ok_entry s Hc _ _ Hi) as (_ & _ & Hu & _), (ok_entry s Hc _ _ Hi') as (_ & _ & Hu' & _).
  unfold apart. destruct (region_apart s _ _ Hc Hi Hi' Hne); lia.
Qed.

(** ** Examples *)
Lemma example_pool_perm : boot_params_ok example_pool 512 4 6 64.
Proof. unfold boot_params_ok, perm_ok, fits. repeat split; vm_compute; done. Qed.
#[export] Instance legal_calls_dec s ops : Decision (legal_calls s ops).
Proof. revert s. induction ops as [|op ops IH]; intros s; cbn [legal_calls]; [apply _|]. destruct (arena_exec s op); apply _. Defined.
Lemma arena_run_reach p hs max nodes size0 ops : forall s allocs s' allocs',
  arena_reach p hs max nodes size0 s allocs -> legal_calls s ops -> arena_run s allocs ops = Ret (s', allocs') ->
  arena_reach p hs max nodes size0 s' allocs'.
Proof.
  induction ops as [|op ops IH]; intros s allocs s' allocs' Hr Hl E; cbn [arena_run legal_calls] in *; [by injection E as <- <-|].
  destruct Hl as [Hl Hls]. destruct (arena_exec s op) as [[r s1]|msg|] eqn:Ex; cbn [cbind fst snd] in *; [|done..].
  eapply IH; [by eapply arena_reach_op|done|done].
Qed.
Lemma example_arenas_reach : arena_reach example_pool 512 4 6 64 example_arenas [].
Proof.
  destruct (arena_boot example_pool 512 4 6 64) as [[s q]|msg|] eqn:E; [|vm_compute in E; discriminate E..].
  assert (example_arenas = s) as -> by (unfold example_arenas; by rewrite E). by eapply arena_reach_boot.
Qed.
Lemma example_busy_reach : arena_reach example_pool 512 4 6 64 example_busy.1 example_busy.2.
Proof.
  assert (arena_run example_arenas [] example_calls = Ret (example_busy.1, example_busy.2)) as E by (vm_compute; reflexivity).
  assert (legal_calls example_arenas example_calls) as Hl by vm_decide.
  exact (arena_run_reach _ _ _ _ _ _ _ _ _ _ example_arenas_reach Hl E).
Qed.

(** A node that has memory and then creates an arena: its offset is kept, its arena is
    the new one, and its pointer is past the end of the new arena's 8 bytes. *)
Lemma stale_offset :
  match arena_run example_arenas [] [AAlloc 1 40 4; AAlloc 1 4 4; ACreate 1 8] with
  | Ret r => exists ptr, cfl_heap_arena_get_node_ptr (Some r.1) 1 = Ret (Some ptr) /\ base_of r.1 1 + 8 < ptr
  | _ => False
  end.
Proof. vm_compute. eexists. split; reflexivity. Qed.
(** With 256 allocators or more, id 255 is handed out, which is [NO_ALLOCATOR]. *)
Lemma id_is_no_allocator :
  match find_free_id (mk_arenas (heap_fresh 1 20 false) 300 [] (replicate 300 None) None None 0 255 0 0 []) with
  | Ret r => r.1 = NO_ALLOCATOR
  | _ => False
  end.
Proof. vm_compute. reflexivity. Qed.
(** [arena_bump_alloc] does not look at its alignment: 3 gives an odd address, 0 the NULL pointer. *)
Lemma alignment_unchecked :
  match arena_bump_alloc (set_used example_arenas 0 1) 0 4 3, arena_bump_alloc (example_arenas <| as_buf0 := 0x2000FFF0 |>) 0 4 0 with
  | Ret r, Ret r' => Z.odd r.1.1 = true /\ r'.1.1 = 0
  | _, _ => False
  end.
Proof. vm_compute. by split. Qed.

(** ** Properties *)

(** C15. Two allocations never overlap. From the runtime's set-up (the heap and the arena
    system out of the permanent pool), whatever nodes create and destroy arenas, move the
    active context, allocate from their own arena or the active one, and store bytes into
    the heap's objects: the pointers handed out and not yet released by a destroy or a
    reset are pairwise apart, each lies in the data of the arena it came from, below its
    bump pointer, and the data of the arenas in use (the heap objects, the permanent
    buffer) are apart from one another; the heap passes its validation. *)
Theorem arena_allocs_disjoint p heap_size max nodes size0 s allocs :
  boot_params_ok p heap_size max nodes size0 -> arena_reach p heap_size max nodes size0 s allocs ->
  ForallOrdPairs apart allocs /\ Forall (alloc_in s) allocs /\ cfl_heap_validate (Some (as_heap s)) = true /\
  forall i j, in_use s i -> in_use s j -> i <> j ->
    base_of s i + ac_size (block_of s i) <= base_of s j \/ base_of s j + ac_size (block_of s j) <= base_of s i.
Proof.
  intros Hp Hr. destruct (arena_reach_ok _ _ _ _ _ _ _ Hp Hr) as (Hc & _ & Ha).
  split; [by apply (allocs_apart s)|]. split; [apply Ha|]. split.
  - destruct (ok_heap s Hc) as (bs & Hok). apply (heap_validate_ok _ bs), Hok.
  - intros i j Hi Hj Hne. by apply region_apart.
Qed.

Lemma arena_allocs_disjoint_witness :
  map (fun a => (a.1.1, a.2)) example_busy.2 = [(0, 4); (0, 20); (1, 9); (1, 10)] /\
  ForallOrdPairs apart example_busy.2 /\ Forall (alloc_in example_busy.1) example_busy.2 /\
  cfl_heap_validate (Some (as_heap example_busy.1)) = true /\
  forall i j, in_use example_busy.1 i -> in_use example_busy.1 j -> i <> j ->
    base_of example_busy.1 i + ac_size (block_of example_busy.1 i) <= base_of example_busy.1 j \/
    base_of example_busy.1 j + ac_size (block_of example_busy.1 j) <= base_of example_busy.1 i.
Proof.
  split; [vm_compute; reflexivity|].
  apply (arena_allocs_disjoint example_pool 512 4 6 64); [apply example_pool_perm|apply example_busy_reach].
Defined.



(** A reset gives the arenas back, and nothing else: it returns, the heap's objects are those
    that were no arena's, only allocator 0 is left, empty, and no node has a pointer. *)
Theorem arena_reset_drains p heap_size max nodes size0 s allocs :
  boot_params_ok p heap_size max nodes size0 -> arena_reach p heap_size max nodes size0 s allocs ->
  exists s', cfl_heap_arena_system_reset (Some s) = Ret s' /\
    (forall e, e ∈ extents (as_heap s') <-> e ∈ extents (as_heap s) /\ ~ held s e.1) /\
    (forall i, in_use s' i -> i = 0) /\ ac_used (block_of s' 0) = 0 /\
    forall node, 0 <= node < as_nodes s' -> cfl_heap_arena_get_node_ptr (Some s') node = Ret None.
Proof.
  intros Hp Hr. destruct (arena_reset_ok s allocs (arena_reach_ok _ _ _ _ _ _ _ Hp Hr)) as (s' & E & _ & Hl & Hz & Hu & Hn & _).
  by exists s'.
Qed.

Lemma arena_reset_drains_witness :
  exists s', cfl_heap_arena_system_reset (Some example_busy.1) = Ret s' /\
    (forall e, e ∈ extents (as_heap s') <-> e ∈ extents (as_heap example_busy.1) /\ ~ held example_busy.1 e.1) /\
    (forall i, in_use s' i -> i = 0) /\ ac_used (block_of s' 0) = 0 /\
    forall node, 0 <= node < as_nodes s' -> cfl_heap_arena_get_node_ptr (Some s') node = Ret None.
Proof.
  apply (arena_reset_drains example_pool 512 4 6 64 example_busy.1 example_busy.2);
    [apply example_pool_perm|apply example_busy_reach].
Defined.
