(* ===== verification/CflEventQueue.v ===== *)
(** The engine's event queue ([engine/src/cfl_event_queue.c]): two rings, the high
    priority one served first. A payload is its 32-bit pattern. *)
From S2P Require Import Prelude CflBase CflPerm.
#[local] Open Scope cfl_scope.

Definition CFL_EVENT_MALLOC_FLAG : Z := 1.
Definition CFL_EVENT_PRIORITY_LOW : Z := 0.
Definition CFL_EVENT_PRIORITY_HIGH : Z := 1.
Definition CFL_EVENT_TYPE_PTR : Z := 0.
Definition CFL_EVENT_TYPE_INT : Z := 1.
Definition CFL_EVENT_TYPE_UINT : Z := 2.
Definition CFL_EVENT_TYPE_FLOAT : Z := 3.
Definition CFL_EVENT_TYPE_NODE_ID : Z := 4.
Definition CFL_EVENT_TYPE_JSON_RECORD : Z := 5.
Definition CFL_EVENT_TYPE_STREAMING_DATA : Z := 6.
Definition CFL_EVENT_TYPE_STREAMING_COLLECTED_PACKETS : Z := 7.
Definition CFL_EVENT_TYPE_NULL : Z := 8.
Definition CFL_EVENT_QUEUE_MIN_SIZE : Z := 2.

Record CFL_EVENT_DATA_T := mk_event {
  ev_node_id : Z; event_type : Z; ev_flags : Z; event_id : Z; queue_number : Z; ev_data : Z
}.
Definition event0 : CFL_EVENT_DATA_T := mk_event 0 0 0 0 0 0.
(** [events] is the array behind the pointer. *)
Record CFL_EVENT_RING_T := mk_ering {
  head : Z; tail : Z; capacity : Z; mask : Z; events : list CFL_EVENT_DATA_T
}.
#[export] Instance eta_ering : Settable CFL_EVENT_RING_T := fun r =>
  mk_ering (head r) (tail r) (capacity r) (mask r) (events r).
Record CFL_EVENT_QUEUE_T := mk_queue {
  high_priority : CFL_EVENT_RING_T; low_priority : CFL_EVENT_RING_T;
  queue_id : Z; max_total_depth : Z; max_high_depth : Z
}.
#[export] Instance eta_queue : Settable CFL_EVENT_QUEUE_T := fun q =>
  mk_queue (high_priority q) (low_priority q) (queue_id q) (max_total_depth q) (max_high_depth q).
(** [sizeof] in the 32-bit build. *)
Definition sizeof_event : Z := 12.
Definition sizeof_queue : Z := 2 * (4 * 2 + 4) + 4 * 2.

(** ** Rings *)

(** [while (power < size) power <<= 1;] in 16 bits: sixteen turns at most. *)
Fixpoint pow2_loop (fuel : nat) (power size : Z) : cfl Z :=
  match fuel with
  | O => Endless
  | S fuel => if power <? size then pow2_loop fuel (u16 (Z.shiftl power 1)) size else Ret power
  end.
Definition round_up_power_of_2 (size : Z) : cfl Z :=
  if size <? CFL_EVENT_QUEUE_MIN_SIZE then Ret CFL_EVENT_QUEUE_MIN_SIZE
  else if 32768 <? size then Ret 32768
  else pow2_loop 16 1 size.

Definition init_ring (cap : Z) (cells : list CFL_EVENT_DATA_T) : CFL_EVENT_RING_T :=
  mk_ering 0 0 cap (u16 (cap - 1)) cells.
Definition ring_is_full (r : CFL_EVENT_RING_T) : bool := Z.land (head r + 1) (mask r) =? tail r.
Definition ring_is_empty (r : CFL_EVENT_RING_T) : bool := head r =? tail r.
Definition ring_count (r : CFL_EVENT_RING_T) : Z := u16 (Z.land (head r - tail r) (mask r)).
Definition ring_push (e : CFL_EVENT_DATA_T) (r : CFL_EVENT_RING_T) : CFL_EVENT_RING_T :=
  r <| events ::= fun l => zset l (head r) e |> <| head := u16 (Z.land (head r + 1) (mask r)) |>.
Definition ring_peek (r : CFL_EVENT_RING_T) : CFL_EVENT_DATA_T := zget event0 (events r) (tail r).
Definition ring_pop (r : CFL_EVENT_RING_T) : CFL_EVENT_DATA_T * CFL_EVENT_RING_T :=
  (ring_peek r, r <| tail ::= fun t => u16 (Z.land (t + 1) (mask r)) |>).

(** The pointers freed, and the ring. *)
Fixpoint ring_clear_loop (fuel : nat) (freed : list Z) (r : CFL_EVENT_RING_T) : cfl (list Z * CFL_EVENT_RING_T) :=
  match fuel with
  | O => Endless
  | S fuel =>
      if ring_is_empty r then Ret (freed, r)
      else
        let '(e, r) := ring_pop r in
        if nz (Z.land (ev_flags e) CFL_EVENT_MALLOC_FLAG) then
          raise? negb (event_type e =? CFL_EVENT_TYPE_PTR)
            with "ring_clear: malloc_flag set on non-pointer event type";
          ring_clear_loop fuel (if nz (ev_data e) then freed ++ [ev_data e] else freed) r
        else ring_clear_loop fuel freed r
  end.
Definition ring_clear (r : CFL_EVENT_RING_T) : cfl (list Z * CFL_EVENT_RING_T) :=
  ring_clear_loop (S (Z.to_nat (capacity r))) [] r.

Definition update_queue_stats (q : CFL_EVENT_QUEUE_T) : CFL_EVENT_QUEUE_T :=
  let high_depth := ring_count (high_priority q) in
  let q := if max_high_depth q <? high_depth then q <| max_high_depth := high_depth |> else q in
  let total_depth := u16 (high_depth + ring_count (low_priority q)) in
  if max_total_depth q <? total_depth then q <| max_total_depth := total_depth |> else q.

(** ** The queue *)

(** [g_next_queue_id] is threaded. The three blocks come from the permanent
    allocator; the arrays are zeroed pool memory. *)
Definition cfl_create_event_queue (high_size low_size : Z) (perm : option CflPerm) (g_next_queue_id : Z)
    : cfl (CFL_EVENT_QUEUE_T * CflPerm * Z) :=
  let? p := perm or "cfl_create_event_queue: NULL perm pointer" in
  raise? negb (initialized p) with "cfl_create_event_queue: Perm allocator not initialized";
  high_capacity <- round_up_power_of_2 high_size;;
  low_capacity <- round_up_power_of_2 low_size;;
  let control_size := sizeof_queue in
  let high_array_size := u16 (high_capacity * sizeof_event) in
  let low_array_size := u16 (low_capacity * sizeof_event) in
  let total_needed := u16 (control_size + high_array_size + low_array_size) in
  raise? cfl_perm_free_bytes (Some p) <? total_needed
    with "cfl_create_event_queue: Insufficient memory in perm allocator";
  q <- cfl_perm_alloc_pointer (Some p) control_size;;
  raise? q.1 =? 0 with "cfl_create_event_queue: Failed to allocate control structure";
  h <- cfl_perm_alloc_pointer (Some q.2) high_array_size;;
  raise? h.1 =? 0 with "cfl_create_event_queue: Failed to allocate high priority array";
  l <- cfl_perm_alloc_pointer (Some h.2) low_array_size;;
  raise? l.1 =? 0 with "cfl_create_event_queue: Failed to allocate low priority array";
  Ret (mk_queue (init_ring high_capacity (replicate (Z.to_nat high_capacity) event0))
         (init_ring low_capacity (replicate (Z.to_nat low_capacity) event0)) g_next_queue_id 0 0,
       l.2, u16 (g_next_queue_id + 1)).

Definition cfl_clear_queue (queue : option CFL_EVENT_QUEUE_T) : cfl (list Z * CFL_EVENT_QUEUE_T) :=
  let? q := queue or "cfl_clear_queue: NULL queue_control pointer" in
  h <- ring_clear (high_priority q);;
  l <- ring_clear (low_priority q);;
  Ret (h.1 ++ l.1, q <| high_priority := h.2 |> <| low_priority := l.2 |>).

Definition cfl_send_event (queue : option CFL_EVENT_QUEUE_T) (priority node_id etype : Z) (malloc_flag : bool)
    (eid data : Z) : cfl CFL_EVENT_QUEUE_T :=
  let? q := queue or "cfl_send_event: NULL queue_control pointer" in
  raise? negb (priority =? CFL_EVENT_PRIORITY_LOW) && negb (priority =? CFL_EVENT_PRIORITY_HIGH)
    with "cfl_send_event: Invalid priority level";
  raise? CFL_EVENT_TYPE_NULL <? etype with "cfl_send_event: Invalid event_type";
  let high := priority =? CFL_EVENT_PRIORITY_HIGH in
  raise? ring_is_full (if high then high_priority q else low_priority q) with "cfl_send_event: ring is full";
  let event := mk_event (u16 node_id) (u8 etype) (if malloc_flag then CFL_EVENT_MALLOC_FLAG else 0)
                 (u16 eid) (queue_id q) data in
  Ret (update_queue_stats
         (if high then q <| high_priority ::= ring_push event |> else q <| low_priority ::= ring_push event |>)).

(** [None]: false is returned and [*event_data] is left alone. *)
Definition cfl_pop_event (queue : option CFL_EVENT_QUEUE_T) (event_data : option unit)
    : cfl (option CFL_EVENT_DATA_T * CFL_EVENT_QUEUE_T) :=
  let? q := queue or "cfl_pop_event: NULL queue_control pointer" in
  let? _d := event_data or "cfl_pop_event: NULL event_data pointer" in
  if negb (ring_is_empty (high_priority q)) then
    let '(e, r) := ring_pop (high_priority q) in Ret (Some e, q <| high_priority := r |>)
  else if negb (ring_is_empty (low_priority q)) then
    let '(e, r) := ring_pop (low_priority q) in Ret (Some e, q <| low_priority := r |>)
  else Ret (None, q).
Definition cfl_peek_event (queue : option CFL_EVENT_QUEUE_T) (event_data : option unit)
    : cfl (option CFL_EVENT_DATA_T) :=
  let? q := queue or "cfl_peek_event: NULL queue_control pointer" in
  let? _d := event_data or "cfl_peek_event: NULL event_data pointer" in
  if negb (ring_is_empty (high_priority q)) then Ret (Some (ring_peek (high_priority q)))
  else if negb (ring_is_empty (low_priority q)) then Ret (Some (ring_peek (low_priority q)))
  else Ret None.

Definition cfl_queue_number (event_data : option CFL_EVENT_DATA_T) : cfl Z :=
  let? e := event_data or "cfl_queue_number: NULL event_data pointer" in Ret (queue_number e).
Definition cfl_high_priority_count (queue : option CFL_EVENT_QUEUE_T) : cfl Z :=
  let? q := queue or "cfl_high_priority_count: NULL queue_control pointer" in Ret (ring_count (high_priority q)).
Definition cfl_low_priority_count (queue : option CFL_EVENT_QUEUE_T) : cfl Z :=
  let? q := queue or "cfl_low_priority_count: NULL queue_control pointer" in Ret (ring_count (low_priority q)).
Definition cfl_total_event_count (queue : option CFL_EVENT_QUEUE_T) : cfl Z :=
  let? q := queue or "cfl_total_event_count: NULL queue_control pointer" in
  Ret (ring_count (high_priority q) + ring_count (low_priority q)).
Definition cfl_get_max_total_depth (queue : option CFL_EVENT_QUEUE_T) : cfl Z :=
  let? q := queue or "cfl_get_max_total_depth: NULL queue_control pointer" in Ret (max_total_depth q).
Definition cfl_get_max_high_depth (queue : option CFL_EVENT_QUEUE_T) : cfl Z :=
  let? q := queue or "cfl_get_max_high_depth: NULL queue_control pointer" in Ret (max_high_depth q).
Definition cfl_reset_queue_stats (queue : option CFL_EVENT_QUEUE_T) : cfl CFL_EVENT_QUEUE_T :=
  let? q := queue or "cfl_reset_queue_stats: NULL queue_control pointer" in
  Ret (q <| max_total_depth := 0 |> <| max_high_depth := 0 |>).

(** ** Typed senders: the value is put in the union and read back as a pointer. *)
Section Senders.
Context (queue : option CFL_EVENT_QUEUE_T) (priority node_id eid : Z).

Definition cfl_send_unsigned_event (value : Z) : cfl CFL_EVENT_QUEUE_T :=
  cfl_send_event queue priority node_id CFL_EVENT_TYPE_UINT false eid (u32 value).
Definition cfl_send_integer_event (value : Z) : cfl CFL_EVENT_QUEUE_T :=
  cfl_send_event queue priority node_id CFL_EVENT_TYPE_INT false eid (u32 value).
(** The argument is the float's bit pattern. *)
Definition cfl_send_float_event (value_bits : Z) : cfl CFL_EVENT_QUEUE_T :=
  cfl_send_event queue priority node_id CFL_EVENT_TYPE_FLOAT false eid value_bits.
Definition cfl_send_data_event (malloc_flag : bool) (data : Z) : cfl CFL_EVENT_QUEUE_T :=
  cfl_send_event queue priority node_id CFL_EVENT_TYPE_PTR malloc_flag eid data.
Definition cfl_send_null_event : cfl CFL_EVENT_QUEUE_T :=
  cfl_send_event queue priority node_id CFL_EVENT_TYPE_NULL false eid 0.
Definition cfl_send_json_record_event (record_index : Z) : cfl CFL_EVENT_QUEUE_T :=
  cfl_send_event queue priority node_id CFL_EVENT_TYPE_JSON_RECORD false eid (u32 record_index).
Definition cfl_send_node_id_event (node_index : Z) : cfl CFL_EVENT_QUEUE_T :=
  cfl_send_event queue priority node_id CFL_EVENT_TYPE_NODE_ID false eid (u32 node_index).
Definition cfl_send_streaming_data_event (data : Z) : cfl CFL_EVENT_QUEUE_T :=
  cfl_send_event queue priority node_id CFL_EVENT_TYPE_STREAMING_DATA false eid data.
Definition cfl_send_streaming_collected_packets_event (data : Z) : cfl CFL_EVENT_QUEUE_T :=
  cfl_send_event queue priority node_id CFL_EVENT_TYPE_STREAMING_COLLECTED_PACKETS false eid data.
End Senders.

(** ** Specification: two bounded FIFOs *)

Inductive qop :=
| OpSend (priority node_id etype : Z) (malloc_flag : bool) (eid data : Z)
| OpPop | OpPeek | OpClear | OpReset | OpCounts.
Inductive qout :=
| OutSent | OutEvent (e : option CFL_EVENT_DATA_T) | OutFreed (ptrs : list Z) | OutReset
| OutCounts (high low total max_total max_high : Z).

(** The outputs of a run, and how it ends. *)
Fixpoint run {S : Type} (step : S -> qop -> cfl (qout * S)) (s : S) (ops : list qop) : list qout * cfl unit :=
  match ops with
  | [] => ([], Ret tt)
  | op :: ops =>
      match step s op with
      | Ret (o, s) => let '(os, r) := run step s ops in (o :: os, r)
      | EXCEPTION msg => ([], EXCEPTION msg)
      | Endless => ([], Endless)
      end
  end.

Definition queue_step (q : CFL_EVENT_QUEUE_T) (op : qop) : cfl (qout * CFL_EVENT_QUEUE_T) :=
  match op with
  | OpSend priority node_id etype malloc_flag eid data =>
      q <- cfl_send_event (Some q) priority node_id etype malloc_flag eid data;; Ret (OutSent, q)
  | OpPop => r <- cfl_pop_event (Some q) (Some tt);; Ret (OutEvent r.1, r.2)
  | OpPeek => e <- cfl_peek_event (Some q) (Some tt);; Ret (OutEvent e, q)
  | OpClear => r <- cfl_clear_queue (Some q);; Ret (OutFreed r.1, r.2)
  | OpReset => q <- cfl_reset_queue_stats (Some q);; Ret (OutReset, q)
  | OpCounts =>
      h <- cfl_high_priority_count (Some q);; l <- cfl_low_priority_count (Some q);;
      t <- cfl_total_event_count (Some q);; mt <- cfl_get_max_total_depth (Some q);;
      mh <- cfl_get_max_high_depth (Some q);; Ret (OutCounts h l t mt mh, q)
  end.

Record fifos := mk_fifos {
  f_high : list CFL_EVENT_DATA_T; f_low : list CFL_EVENT_DATA_T; f_cap_high : Z; f_cap_low : Z;
  f_id : Z; f_max_total : Z; f_max_high : Z
}.
(** A ring of capacity [c] holds [c - 1] events; a size is rounded up to a power of
    two from 2 to 32768. *)
Definition cap_of (size : Z) : Z := if 32768 <? size then 32768 else 2 ^ Z.log2_up (Z.max 2 size).

Definition mallocd (e : CFL_EVENT_DATA_T) : bool := nz (Z.land (ev_flags e) CFL_EVENT_MALLOC_FLAG).
Definition bad_malloc (e : CFL_EVENT_DATA_T) : bool := mallocd e && negb (event_type e =? CFL_EVENT_TYPE_PTR).
Definition freed_by (l : list CFL_EVENT_DATA_T) : list Z :=
  map ev_data (filter (fun e => mallocd e && nz (ev_data e) = true) l).

Definition fifos_send (f : fifos) (high : bool) (e : CFL_EVENT_DATA_T) : fifos :=
  let h := if high then f_high f ++ [e] else f_high f in
  let l := if high then f_low f else f_low f ++ [e] in
  mk_fifos h l (f_cap_high f) (f_cap_low f) (f_id f)
    (Z.max (f_max_total f) (zlen h + zlen l)) (Z.max (f_max_high f) (zlen h)).
Definition fifos_next (f : fifos) : option CFL_EVENT_DATA_T * fifos :=
  match f_high f, f_low f with
  | e :: h, _ => (Some e, mk_fifos h (f_low f) (f_cap_high f) (f_cap_low f) (f_id f) (f_max_total f) (f_max_high f))
  | [], e :: l => (Some e, mk_fifos [] l (f_cap_high f) (f_cap_low f) (f_id f) (f_max_total f) (f_max_high f))
  | [], [] => (None, f)
  end.
Definition fifos_step (f : fifos) (op : qop) : cfl (qout * fifos) :=
  match op with
  | OpSend priority node_id etype malloc_flag eid data =>
      raise? negb (priority =? CFL_EVENT_PRIORITY_LOW) && negb (priority =? CFL_EVENT_PRIORITY_HIGH)
        with "cfl_send_event: Invalid priority level";
      raise? CFL_EVENT_TYPE_NULL <? etype with "cfl_send_event: Invalid event_type";
      let high := priority =? CFL_EVENT_PRIORITY_HIGH in
      raise? (if high then zlen (f_high f) + 1 =? f_cap_high f else zlen (f_low f) + 1 =? f_cap_low f)
        with "cfl_send_event: ring is full";
      Ret (OutSent, fifos_send f high (mk_event (u16 node_id) (u8 etype)
                      (if malloc_flag then CFL_EVENT_MALLOC_FLAG else 0) (u16 eid) (f_id f) data))
  | OpPop => Ret (OutEvent (fifos_next f).1, (fifos_next f).2)
  | OpPeek => Ret (OutEvent (fifos_next f).1, f)
  | OpClear =>
      raise? existsb bad_malloc (f_high f ++ f_low f) with "ring_clear: malloc_flag set on non-pointer event type";
      Ret (OutFreed (freed_by (f_high f ++ f_low f)),
           mk_fifos [] [] (f_cap_high f) (f_cap_low f) (f_id f) (f_max_total f) (f_max_high f))
  | OpReset => Ret (OutReset, mk_fifos (f_high f) (f_low f) (f_cap_high f) (f_cap_low f) (f_id f) 0 0)
  | OpCounts => Ret (OutCounts (zlen (f_high f)) (zlen (f_low f)) (zlen (f_high f) + zlen (f_low f))
                       (f_max_total f) (f_max_high f), f)
  end.

(** The events of [l] lie in [r] from [tail] on, around the end of the array. *)
Record ring_repr (c : Z) (r : CFL_EVENT_RING_T) (l : list CFL_EVENT_DATA_T) : Prop := {
  rr_cap : 2 <= c <= 32768 /\ capacity r = c /\ zlen (events r) = c;
  rr_mask x : Z.land x (mask r) = x mod c;
  rr_tail : 0 <= tail r < c;
  rr_len : zlen l < c;
  rr_head : head r = (tail r + zlen l) mod c;
  rr_cells i e : l !! i = Some e -> zget event0 (events r) ((tail r + Z.of_nat i) mod c) = e
}.
Record queue_repr (q : CFL_EVENT_QUEUE_T) (f : fifos) : Prop := {
  qr_high : ring_repr (f_cap_high f) (high_priority q) (f_high f);
  qr_low : ring_repr (f_cap_low f) (low_priority q) (f_low f);
  qr_id : queue_id q = f_id f;
  qr_max_total : max_total_depth q = f_max_total f;
  qr_max_high : max_high_depth q = f_max_high f
}.

(** Clearing frees what it pops, unless it meets a pointer flag on another type. *)
Definition clear_result (c : Z) (freed : list Z) (l : list CFL_EVENT_DATA_T) (m : cfl (list Z * CFL_EVENT_RING_T)) : Prop :=
  match m with
  | Ret (fr, r) => existsb bad_malloc l = false /\ fr = freed ++ freed_by l /\ ring_repr c r []
  | EXCEPTION msg => existsb bad_malloc l = true /\ msg = "ring_clear: malloc_flag set on non-pointer event type"%string
  | Endless => False
  end.

(** ** Lemmas *)

Lemma mod_wrap c x : 0 <= x < 2 * c -> x mod c = if x <? c then x else x - c.
Proof.
  intros Hx. destruct (Z.ltb_spec x c); [apply Z.mod_small; lia|].
  symmetry. apply (Z.mod_unique _ _ 1); lia.
Qed.

Section Ring.
Context (c : Z) (r : CFL_EVENT_RING_T) (l : list CFL_EVENT_DATA_T) (Hr : ring_repr c r l).

Lemma repr_head : head r = if tail r + zlen l <? c then tail r + zlen l else tail r + zlen l - c.
Proof using Hr. destruct Hr as [? ? ? ? Hh ?]. rewrite Hh. apply mod_wrap. pose proof (zlen_nonneg l). lia. Qed.

Lemma ring_is_full_spec : ring_is_full r = (zlen l + 1 =? c).
Proof using Hr.
  pose proof repr_head as Eh. destruct Hr as [? Hm ? ? _ _]. unfold ring_is_full. pose proof (zlen_nonneg l).
  rewrite Hm. apply eq_true_iff_eq. rewrite !Z.eqb_eq.
  destruct (Z.ltb_spec (tail r + zlen l) c); rewrite Eh, mod_wrap by lia;
    match goal with |- context [?a <? c] => destruct (Z.ltb_spec a c) end; lia.
Qed.
Lemma ring_is_empty_spec : ring_is_empty r = match l with [] => true | _ => false end.
Proof using Hr.
  pose proof repr_head as Eh. destruct Hr as [? _ ? ? _ _]. unfold ring_is_empty. pose proof (zlen_nonneg l).
  replace (match l with [] => true | _ => false end) with (zlen l =? 0) by (by destruct l).
  apply eq_true_iff_eq. rewrite !Z.eqb_eq, Eh. destruct (Z.ltb_spec (tail r + zlen l) c); lia.
Qed.
Lemma ring_count_spec : ring_count r = zlen l.
Proof using Hr.
  pose proof repr_head as Eh. destruct Hr as [? Hm ? ? _ _]. unfold ring_count. pose proof (zlen_nonneg l).
  rewrite Hm, Eh. destruct (Z.ltb_spec (tail r + zlen l) c).
  - rewrite Z.mod_small by lia. rewrite u16_id by (unfold fits; lia). lia.
  - rewrite <- (Z.mod_unique (tail r + zlen l - c - tail r) c (-1) (zlen l)) by lia.
    apply u16_id. unfold fits. lia.
Qed.

Lemma ring_push_repr e : zlen l + 1 <> c -> ring_repr c (ring_push e r) (l ++ [e]).
Proof using Hr.
  intros Hf. pose proof repr_head as Eh. destruct Hr as [(Hc & Hcap & Hlen) Hm Ht Hl Hh Hcells].
  pose proof (zlen_nonneg l). destruct r as [h t cp m ev]. unfold ring_push. usimpl.
  assert (0 <= h < c) as Hhb by (rewrite Eh; case_match; bools; lia).
  constructor; cbn.
  - split; [done|]. split; [done|]. unfold zlen in *. by rewrite zlen_zset.
  - done.
  - done.
  - rewrite zlen_app. unfold zlen in *. cbn. lia.
  - rewrite Hm, zlen_app, Hh, Zplus_mod_idemp_l. change (zlen [e]) with 1. rewrite Z.add_assoc.
    apply u16_id. unfold fits. pose proof (Z.mod_pos_bound (t + zlen l + 1) c ltac:(lia)). lia.
  - intros i x Hi. apply lookup_app_Some in Hi as [Hi|[Hi Hx]].
    + pose proof (lookup_lt_Some _ _ _ Hi) as Hil. rewrite zget_zset_ne; [by apply Hcells| |].
      * rewrite Hh. unfold zlen in *. rewrite !mod_wrap by lia. repeat case_match; bools; lia.
      * apply Z.mod_pos_bound. lia.
    + assert (i = length l) as -> by (apply lookup_lt_Some in Hx; cbn in Hx; lia).
      rewrite Nat.sub_diag in Hx. injection Hx as ->. fold (zlen l). rewrite <- Hh.
      apply zget_zset_eq. lia.
Qed.
End Ring.

Lemma ring_pop_repr c r e l : ring_repr c r (e :: l) ->
  (ring_pop r).1 = e /\ ring_repr c (ring_pop r).2 l.
Proof.
  intros Hr. pose proof (repr_head _ _ _ Hr) as Eh. destruct Hr as [(Hc & Hcap & Hlen) Hm Ht Hl Hh Hcells].
  assert (zlen (e :: l) = zlen l + 1) as El by (unfold zlen; cbn; lia). pose proof (zlen_nonneg l).
  split.
  - unfold ring_pop, ring_peek. cbn [fst]. rewrite <- (Hcells 0%nat e) by done.
    rewrite Z.add_0_r, Z.mod_small by done. done.
  - destruct r as [h t cp m ev]. unfold ring_pop. usimpl. rewrite El in *.
    pose proof (Z.mod_pos_bound (t + 1) c ltac:(lia)) as Hb.
    assert (u16 (Z.land (t + 1) m) = (t + 1) mod c) as Et by (rewrite Hm; apply u16_id; unfold fits; lia).
    constructor; cbn; rewrite ?Et; try done; try lia.
    + rewrite Hh, Zplus_mod_idemp_l. f_equal. lia.
    + intros i x Hi. rewrite Zplus_mod_idemp_l. rewrite <- (Hcells (S i) x) by done. do 2 f_equal. lia.
Qed.

Lemma freed_by_cons e l : freed_by (e :: l) = (if mallocd e && nz (ev_data e) then [ev_data e] else []) ++ freed_by l.
Proof.
  unfold freed_by. destruct (mallocd e && nz (ev_data e)) eqn:E; cbn [app];
    [rewrite filter_cons_True by done|rewrite filter_cons_False by (by rewrite E)]; done.
Qed.
Lemma freed_by_app l k : freed_by (l ++ k) = freed_by l ++ freed_by k.
Proof. unfold freed_by. by rewrite filter_app, map_app. Qed.

Lemma ring_clear_loop_spec c l : forall fuel freed r, ring_repr c r l -> (length l < fuel)%nat ->
  clear_result c freed l (ring_clear_loop fuel freed r).
Proof.
  induction l as [|e l IH]; intros [|fuel] freed r Hr Hf; cbn [length] in Hf; try lia; cbn [ring_clear_loop];
    rewrite (ring_is_empty_spec _ _ _ Hr).
  { split; [done|]. split; [|done]. cbn. by rewrite app_nil_r. }
  destruct (ring_pop_repr _ _ _ _ Hr) as [He Hr']. destruct (ring_pop r) as [e' r']. cbn [fst snd] in *. subst e'.
  fold (mallocd e). destruct (mallocd e) eqn:Em.
  - destruct (event_type e =? CFL_EVENT_TYPE_PTR) eqn:Et; cbn [negb raise_if].
    + pose proof (IH fuel (if nz (ev_data e) then freed ++ [ev_data e] else freed) r' Hr' ltac:(lia)) as H.
      destruct (ring_clear_loop fuel _ r') as [[fr q]|msg|]; cbn [clear_result existsb] in *; [|unfold bad_malloc at 1; rewrite Em, Et; exact H|done].
      unfold bad_malloc at 1. rewrite Em, Et. destruct H as (H1 & -> & H2). split; [done|]. split; [|done].
      rewrite freed_by_cons, Em. cbn [andb]. by destruct (nz (ev_data e)); rewrite <- ?app_assoc.
    + cbn. unfold bad_malloc at 1. by rewrite Em, Et.
  - pose proof (IH fuel freed r' Hr' ltac:(lia)) as H.
    destruct (ring_clear_loop fuel freed r') as [[fr q]|msg|]; cbn [clear_result existsb] in *; [|unfold bad_malloc at 1; rewrite Em; exact H|done].
    unfold bad_malloc at 1. rewrite Em, freed_by_cons, Em. done.
Qed.
Lemma ring_clear_spec c r l : ring_repr c r l -> clear_result c [] l (ring_clear r).
Proof.
  intros Hr. apply ring_clear_loop_spec; [done|]. destruct Hr as [(? & -> & _) _ _ Hl _ _]. unfold zlen in Hl. lia.
Qed.

Lemma update_queue_stats_repr q f (high : bool) e :
  ring_repr (f_cap_high f) (high_priority q) (f_high (fifos_send f high e)) ->
  ring_repr (f_cap_low f) (low_priority q) (f_low (fifos_send f high e)) ->
  queue_id q = f_id f -> max_total_depth q = f_max_total f -> max_high_depth q = f_max_high f ->
  queue_repr (update_queue_stats q) (fifos_send f high e).
Proof.
  intros Hh Hl Hi Hmt Hmh. unfold fifos_send in *. cbn [f_high f_low] in *.
  set (h := if high then f_high f ++ [e] else f_high f) in *.
  set (l := if high then f_low f else f_low f ++ [e]) in *. clearbody h l.
  assert (u16 (zlen h + zlen l) = zlen h + zlen l) as Eu.
  { apply u16_id. destruct Hh as [(? & _) _ _ ? _ _], Hl as [(? & _) _ _ ? _ _].
    pose proof (zlen_nonneg h). pose proof (zlen_nonneg l). unfold fits. lia. }
  destruct q as [qh ql qi mt mh]. cbn in *. subst. unfold update_queue_stats. cbn [high_priority max_high_depth].
  rewrite (ring_count_spec _ _ _ Hh). destruct (Z.ltb_spec (f_max_high f) (zlen h)); usimpl;
    rewrite (ring_count_spec _ _ _ Hl), Eu; destruct (Z.ltb_spec (f_max_total f) (zlen h + zlen l));
    constructor; cbn; (done || lia).
Qed.

Lemma queue_step_refines q f op : queue_repr q f ->
  match queue_step q op, fifos_step f op with
  | Ret (o, q'), Ret (o', f') => o = o' /\ queue_repr q' f'
  | EXCEPTION m, EXCEPTION m' => m = m'
  | _, _ => False
  end.
Proof.
  intros Hq. pose proof Hq as [Hh Hl Hi Hmt Hmh]. destruct op as [priority node_id etype malloc_flag eid data| | | | |];
    cbn [queue_step fifos_step].
  - unfold cfl_send_event. cbn [not_null]. destruct (_ && _) eqn:Ep; [done|].
    destruct (CFL_EVENT_TYPE_NULL <? etype) eqn:Et; [done|]. cbn [raise_if].
    destruct (priority =? CFL_EVENT_PRIORITY_HIGH) eqn:Eh.
    + rewrite (ring_is_full_spec _ _ _ Hh). destruct (Z.eqb_spec (zlen (f_high f) + 1) (f_cap_high f)); [done|].
      cbn [raise_if cbind]. split; [done|]. rewrite Hi.
      apply update_queue_stats_repr; destruct q; usimpl; try done. by apply ring_push_repr.
    + rewrite (ring_is_full_spec _ _ _ Hl). destruct (Z.eqb_spec (zlen (f_low f) + 1) (f_cap_low f)); [done|].
      cbn [raise_if cbind]. split; [done|]. rewrite Hi.
      apply update_queue_stats_repr; destruct q; usimpl; try done. by apply ring_push_repr.
  - unfold cfl_pop_event, fifos_next. cbn [not_null].
    rewrite (ring_is_empty_spec _ _ _ Hh), (ring_is_empty_spec _ _ _ Hl).
    destruct (f_high f) as [|e h] eqn:Ef; [destruct (f_low f) as [|e l] eqn:El|]; cbn [negb cbind fst snd].
    + done.
    + destruct (ring_pop_repr _ _ _ _ Hl) as [He Hl']. destruct (ring_pop (low_priority q)) as [e' r']. cbn [fst snd cbind] in *.
      split; [by subst|]. destruct q. by constructor.
    + destruct (ring_pop_repr _ _ _ _ Hh) as [He Hh']. destruct (ring_pop (high_priority q)) as [e' r']. cbn [fst snd cbind] in *.
      split; [by subst|]. destruct q. by constructor.
  - unfold cfl_peek_event, fifos_next. cbn [not_null].
    rewrite (ring_is_empty_spec _ _ _ Hh), (ring_is_empty_spec _ _ _ Hl).
    destruct (f_high f) as [|e h] eqn:Ef; [destruct (f_low f) as [|e l] eqn:El|]; cbn [negb cbind fst snd].
    + done.
    + destruct (ring_pop_repr _ _ _ _ Hl) as [He _]. split; [|done]. by rewrite <- He.
    + destruct (ring_pop_repr _ _ _ _ Hh) as [He _]. split; [|done]. by rewrite <- He.
  - unfold cfl_clear_queue. cbn [not_null]. rewrite existsb_app, freed_by_app.
    pose proof (ring_clear_spec _ _ _ Hh) as Ch. pose proof (ring_clear_spec _ _ _ Hl) as Cl.
    destruct (ring_clear (high_priority q)) as [[fh rh]|m|]; cbn [cbind fst snd clear_result] in *; [|by destruct Ch as [-> ->]|done].
    destruct Ch as (-> & -> & Hh').
    destruct (ring_clear (low_priority q)) as [[fl rl]|m|]; cbn [cbind fst snd clear_result] in *; [|by destruct Cl as [-> ->]|done].
    destruct Cl as (-> & -> & Hl'). cbn. split; [done|]. destruct q. by constructor.
  - cbn. split; [done|]. destruct q. by constructor.
  - cbn. rewrite (ring_count_spec _ _ _ Hh), (ring_count_spec _ _ _ Hl), Hmt, Hmh. done.
Qed.

Lemma pow2_loop_spec n size : 0 <= n <= 15 -> size <= 2 ^ n -> (0 < n -> 2 ^ (n - 1) < size) ->
  forall j k fuel, 0 <= k -> k + Z.of_nat j = n -> (j < fuel)%nat -> pow2_loop fuel (2 ^ k) size = Ret (2 ^ n).
Proof.
  intros Hn Hup Hlo. induction j as [|j IH]; intros k [|fuel] Hk Hkn Hf; try lia; cbn [pow2_loop].
  - replace k with n by lia. by rewrite (proj2 (Z.ltb_ge _ _)).
  - rewrite (proj2 (Z.ltb_lt _ _)).
    + rewrite Z.shiftl_mul_pow2 by lia. change (2 ^ 1) with 2. rewrite Z.mul_comm, <- Z.pow_succ_r by done.
      rewrite u16_id; [apply IH; lia|]. split; [apply Z.pow_nonneg; lia|]. apply Z.pow_lt_mono_r; lia.
    + apply Z.le_lt_trans with (2 ^ (n - 1)); [apply Z.pow_le_mono_r; lia|]. apply Hlo. lia.
Qed.
Lemma round_up_spec size : round_up_power_of_2 size = Ret (cap_of size).
Proof.
  unfold round_up_power_of_2, cap_of, CFL_EVENT_QUEUE_MIN_SIZE. destruct (Z.ltb_spec size 2).
  { rewrite (proj2 (Z.ltb_ge _ _)) by lia. by rewrite Z.max_l by lia. }
  destruct (Z.ltb_spec 32768 size); [done|]. rewrite Z.max_r by lia.
  pose proof (Z.log2_up_spec size ltac:(lia)) as [Hlo Hup].
  assert (Z.log2_up size <= 15) by (apply (Z.log2_up_le_mono size 32768); lia). pose proof (Z.log2_up_nonneg size).
  apply (pow2_loop_spec (Z.log2_up size) size) with (j := Z.to_nat (Z.log2_up size)) (k := 0); try lia.
Qed.
Lemma cap_of_pow2 size : exists k, 1 <= k <= 15 /\ cap_of size = 2 ^ k.
Proof.
  unfold cap_of. destruct (Z.ltb_spec 32768 size); [by exists 15|].
  exists (Z.log2_up (Z.max 2 size)). split; [|done]. split.
  - apply (Z.log2_up_le_mono 2). lia.
  - apply (Z.log2_up_le_mono _ 32768). lia.
Qed.

Lemma init_ring_repr size :
  ring_repr (cap_of size) (init_ring (cap_of size) (replicate (Z.to_nat (cap_of size)) event0)) [].
Proof.
  destruct (cap_of_pow2 size) as (k & Hk & ->).
  assert (2 <= 2 ^ k <= 32768) by (split; [apply (Z.pow_le_mono_r 2 1 k); lia|apply (Z.pow_le_mono_r 2 k 15); lia]).
  constructor; cbn.
  - split; [done|]. split; [done|]. unfold zlen. rewrite length_replicate. lia.
  - intros x. rewrite u16_id by (unfold fits; lia). apply land_ones_mod. lia.
  - lia.
  - change (zlen []) with 0. lia.
  - change (0 = 0 mod 2 ^ k). by rewrite Z.mod_0_l by lia.
  - done.
Qed.

Lemma create_repr hs ls perm id q p id' : cfl_create_event_queue hs ls perm id = Ret (q, p, id') ->
  queue_repr q (mk_fifos [] [] (cap_of hs) (cap_of ls) id 0 0).
Proof.
  unfold cfl_create_event_queue. rewrite !round_up_spec. cbn [cbind]. destruct perm as [p0|]; [|done]. cbn [not_null].
  intros H. cfl_inv. subst. constructor; try done; apply init_ring_repr.
Qed.

(** A ring of 8192 events asks for 32768 bytes: the size is formed in 16 bits, so
    the queue is created over an array a third of its length. *)
Lemma create_queue_size_wraps :
  match (p <- cfl_perm_init (Some cfl_perm_set_instance) 0x20000000 40000;; cfl_create_event_queue 8192 2 (Some p) 0) with
  | Ret (q, p, _) => capacity (high_priority q) = 8192 /\ used p < 8192 * sizeof_event
  | _ => False
  end.
Proof. vm_compute. by split. Qed.

(** ** Property *)


