(* ===== verification/CtTreeWalker.v ===== *)
(** The engine's tree walker ([engine/src/CT_Tree_Walker.c]): a depth-first walk with
    an explicit stack, steered by the return codes of a callback. *)
From S2P Require Import Prelude CflBase.
#[local] Open Scope cfl_scope.

Inductive CT_ReturnCode :=
| CT_CONTINUE | CT_SKIP_CHILDREN | CT_STOP_BRANCH | CT_STOP_SIBLINGS | CT_STOP_LEVEL | CT_STOP_ALL.
Definition CT_FLAG_VISITED : Z := 0x01.
Definition CT_FLAG_USER_MASK : Z := 0xF0.
Definition MAX_CHILDREN_BUFFER : Z := 256.

Record CT_StackEntry := mk_entry { node_id : Z; level : Z; child_index : Z }.
#[export] Instance eta_entry : Settable CT_StackEntry := fun e => mk_entry (node_id e) (level e) (child_index e).

Section Walker.
(** [U] is what [user_handle] points to: the callbacks read and write it. *)
Context {U : Type}.

(** The ids written to [children_out]; their number is the return value. Both callbacks
    may raise. *)
Definition CT_GetChildrenFunc : Type := U -> Z -> cfl (list Z).
Definition CT_ApplyFunc : Type := U -> Z -> Z -> list Z -> cfl (CT_ReturnCode * U * list Z).

(** [flags] is the array behind the pointer; the user data is threaded beside. *)
Record CT_TreeWalker := mk_walker {
  max_nodes : Z; flags : list Z; get_children : CT_GetChildrenFunc; apply_func : CT_ApplyFunc;
  max_level : Z; max_node_id : Z; stop_all : bool
}.
#[export] Instance eta_walker : Settable CT_TreeWalker := fun w =>
  mk_walker (max_nodes w) (flags w) (get_children w) (apply_func w) (max_level w) (max_node_id w) (stop_all w).

(** [for (i = 0; i < max_nodes; i++) flags[i] &= CT_FLAG_USER_MASK;] *)
Definition clear_engine_flags (w : CT_TreeWalker) : CT_TreeWalker :=
  w <| flags ::= fun l => map (fun f => Z.land f CT_FLAG_USER_MASK) (take (Z.to_nat (max_nodes w)) l)
                           ++ drop (Z.to_nat (max_nodes w)) l |>.

(** What the loop keeps: the walker, the user data, and the stack with its top first. *)
Record walk_state := mk_walk { walker : CT_TreeWalker; user : U; stack : list CT_StackEntry }.

Definition visited (w : CT_TreeWalker) (id : Z) : bool := nz (Z.land (zget 0 (flags w) id) CT_FLAG_VISITED).
Definition mark (id : Z) (w : CT_TreeWalker) : CT_TreeWalker :=
  w <| flags ::= fun l => zset l id (Z.lor (zget 0 l id) CT_FLAG_VISITED) |>.

(** The second half of a turn: the next child of [cur]. *)
Definition walk_child (capacity : Z) (cur : CT_StackEntry) (below : list CT_StackEntry) (w : CT_TreeWalker) (u : U)
    : cfl (walk_state + CT_ReturnCode * CT_TreeWalker * U) :=
  children <- get_children w u (node_id cur);;
  raise? MAX_CHILDREN_BUFFER <? zlen children with "walk_iterative: get_children returned too many children";
  if zlen children <=? child_index cur then Ret (inl (mk_walk w u below))
  else
    let child_id := zget 0 children (child_index cur) in
    let stk := (cur <| child_index := u32 (child_index cur + 1) |>) :: below in
    raise? max_nodes w <=? child_id with "walk_iterative: child_id exceeds max_nodes from get_children";
    raise? max_node_id w <? child_id with "walk_iterative: child_id exceeds max_node_id from get_children";
    if visited w child_id then Ret (inl (mk_walk w u stk))
    else
      raise? s32 capacity <=? zlen stk with "walk_iterative: stack overflow - increase stack_capacity";
      Ret (inl (mk_walk w u (mk_entry child_id (u32 (level cur + 1)) 0 :: stk))).

(** One turn of the loop over a stack with top [cur]: the next state, or the result. *)
Definition walk_step (capacity : Z) (cur : CT_StackEntry) (below : list CT_StackEntry) (w : CT_TreeWalker) (u : U)
    : cfl (walk_state + CT_ReturnCode * CT_TreeWalker * U) :=
  if stop_all w then Ret (inr (CT_STOP_ALL, w, u))
  else
    raise? max_nodes w <=? node_id cur with "walk_iterative: node_id exceeds max_nodes during traversal";
    raise? max_node_id w <? node_id cur with "walk_iterative: node_id exceeds max_node_id during traversal";
    if visited w (node_id cur) then
      if child_index cur =? 0 then Ret (inl (mk_walk w u below)) else walk_child capacity cur below w u
    else
      let w := mark (node_id cur) w in
      if max_level w <? level cur then Ret (inl (mk_walk w u below))
      else
        r <- apply_func w u (node_id cur) (level cur) (flags w);;
        let '(ret, u, fl) := r in
        let w := w <| flags := fl |> in
        match ret with
        | CT_STOP_ALL => Ret (inr (CT_STOP_ALL, w <| stop_all := true |>, u))
        | CT_STOP_BRANCH | CT_SKIP_CHILDREN => Ret (inl (mk_walk w u below))
        | CT_STOP_SIBLINGS => Ret (inl (mk_walk w u (tail below)))
        | CT_STOP_LEVEL => Ret (inl (mk_walk (w <| max_level := level cur |>) u below))
        | CT_CONTINUE => walk_child capacity cur below w u
        end.

(** [while (stack_top >= 0)], with the code's own count of its turns. *)
Fixpoint walk_loop (fuel : nat) (iteration_count max_iterations capacity : Z) (s : walk_state)
    : cfl (CT_ReturnCode * CT_TreeWalker * U) :=
  match stack s with
  | [] => Ret (CT_CONTINUE, walker s, user s)
  | cur :: below =>
      match fuel with
      | O => Endless
      | S fuel =>
          let n := u32 (iteration_count + 1) in
          raise? max_iterations <? n with "walk_iterative: iteration count exceeded limit - possible infinite loop";
          r <- walk_step capacity cur below (walker s) (user s);;
          match r with
          | inl s => walk_loop fuel n max_iterations capacity s
          | inr res => Ret res
          end
      end
  end.

Definition walk_iterative (w : CT_TreeWalker) (u : U) (root_id capacity : Z) : cfl (CT_ReturnCode * CT_TreeWalker * U) :=
  raise? capacity =? 0 with "walk_iterative: stack_capacity is 0";
  raise? max_nodes w <=? root_id with "walk_iterative: root_id exceeds max_nodes";
  raise? max_node_id w <? root_id with "walk_iterative: root_id exceeds max_node_id";
  let max_iterations := u32 (u32 (max_node_id w + 1) * (MAX_CHILDREN_BUFFER + 1)) in
  walk_loop (S (Z.to_nat max_iterations)) 0 max_iterations capacity (mk_walk w u [mk_entry root_id 0 0]).

(** ** Public operations *)

Definition ct_walker_init (walker_mem : option unit) (nodes : Z) (fl : option (list Z))
    (children : option CT_GetChildrenFunc) (apply : option CT_ApplyFunc) : cfl CT_TreeWalker :=
  let? _w := walker_mem or "ct_walker_init: walker is NULL" in
  let? fl := fl or "ct_walker_init: flags is NULL" in
  let? children := children or "ct_walker_init: get_children is NULL" in
  let? apply := apply or "ct_walker_init: apply_func is NULL" in
  raise? nodes =? 0 with "ct_walker_init: max_nodes is 0";
  Ret (clear_engine_flags (mk_walker nodes fl children apply 0xFFFF (u32 (nodes - 1)) false)).

Definition ct_walker_walk (walker_ptr : option CT_TreeWalker) (u : U) (root_id : Z) (stack_mem : option unit)
    (capacity level_limit id_limit : Z) : cfl (CT_ReturnCode * CT_TreeWalker * U) :=
  let? w := walker_ptr or "ct_walker_walk: walker is NULL" in
  let? _s := stack_mem or "ct_walker_walk: stack is NULL" in
  raise? capacity =? 0 with "ct_walker_walk: stack_capacity is 0";
  raise? max_nodes w <=? root_id with "ct_walker_walk: root_id exceeds max_nodes";
  raise? max_nodes w <? id_limit with "ct_walker_walk: max_node_id exceeds walker max_nodes";
  let w := mk_walker (max_nodes w) (flags w) (get_children w) (apply_func w) level_limit id_limit false in
  walk_iterative (clear_engine_flags w) u root_id capacity.

Definition ct_walker_reset (walker_ptr : option CT_TreeWalker) : cfl CT_TreeWalker :=
  let? w := walker_ptr or "ct_walker_reset: walker is NULL" in
  Ret (clear_engine_flags w <| stop_all := false |>).
Definition ct_walker_is_visited (walker_ptr : option CT_TreeWalker) (id : Z) : cfl bool :=
  let? w := walker_ptr or "ct_walker_is_visited: walker is NULL" in
  raise? max_nodes w <=? id with "ct_walker_is_visited: node_id out of bounds";
  Ret (visited w id).
Definition ct_walker_set_user_flags (walker_ptr : option CT_TreeWalker) (id flags_to_set : Z) : cfl CT_TreeWalker :=
  let? w := walker_ptr or "ct_walker_set_user_flags: walker is NULL" in
  raise? max_nodes w <=? id with "ct_walker_set_user_flags: node_id out of bounds";
  Ret (w <| flags ::= fun l =>
         zset l id (Z.lor (Z.land (zget 0 l id) (u8 (Z.lnot CT_FLAG_USER_MASK))) (Z.land flags_to_set CT_FLAG_USER_MASK)) |>).
Definition ct_walker_get_user_flags (walker_ptr : option CT_TreeWalker) (id : Z) : cfl Z :=
  let? w := walker_ptr or "ct_walker_get_user_flags: walker is NULL" in
  raise? max_nodes w <=? id with "ct_walker_get_user_flags: node_id out of bounds";
  Ret (Z.land (zget 0 (flags w) id) CT_FLAG_USER_MASK).
Definition ct_walker_update_functions (walker_ptr : option CT_TreeWalker) (apply : option CT_ApplyFunc)
    (children : option CT_GetChildrenFunc) : cfl CT_TreeWalker :=
  let? w := walker_ptr or "ct_walker_update_functions: walker is NULL" in
  let w := match apply with Some f => w <| apply_func := f |> | None => w end in
  Ret (match children with Some f => w <| get_children := f |> | None => w end).

(** [saved_flags] is the backup buffer. *)
Record CT_WalkerContext := mk_context {
  saved_flags : option (list Z); saved_stop_all : bool; saved_max_level : Z; saved_max_node_id : Z;
  saved_apply_func : CT_ApplyFunc
}.
Definition ct_walker_save_context (walker_ptr : option CT_TreeWalker) (context : option unit)
    (backup_flags_buffer : option (list Z)) : cfl CT_WalkerContext :=
  let? w := walker_ptr or "ct_walker_save_context: walker is NULL" in
  let? _c := context or "ct_walker_save_context: context is NULL" in
  let? buf := backup_flags_buffer or "ct_walker_save_context: backup_flags_buffer is NULL" in
  let n := Z.to_nat (max_nodes w) in
  Ret (mk_context (Some (take n (flags w) ++ drop n buf)) (stop_all w) (max_level w) (max_node_id w) (apply_func w)).
Definition ct_walker_restore_context (walker_ptr : option CT_TreeWalker) (context : option CT_WalkerContext)
    : cfl CT_TreeWalker :=
  let? w := walker_ptr or "ct_walker_restore_context: walker is NULL" in
  let? c := context or "ct_walker_restore_context: context is NULL" in
  let? fl := saved_flags c or "ct_walker_restore_context: saved_flags is NULL" in
  let n := Z.to_nat (max_nodes w) in
  Ret (mk_walker (max_nodes w) (take n fl ++ drop n (flags w)) (get_children w) (saved_apply_func c)
         (saved_max_level c) (saved_max_node_id c) (saved_stop_all c)).
End Walker.
Arguments CT_GetChildrenFunc : clear implicits.
Arguments CT_ApplyFunc : clear implicits.
Arguments CT_TreeWalker : clear implicits.
Arguments walk_state : clear implicits.
Arguments CT_WalkerContext : clear implicits.

(** ** Specification: recursive depth-first traversal of a tree *)

Inductive tree := Node (id : Z) (kids : list tree).
Definition root (t : tree) : Z := let 'Node id _ := t in id.
Fixpoint ids (t : tree) : list Z := let 'Node id kids := t in id :: concat (map ids kids).
Fixpoint depth (t : tree) : Z := let 'Node _ kids := t in 1 + foldr (fun t m => Z.max (depth t) m) 0 kids.

(** How a subtree ends: go on, leave the remaining siblings out, or end the walk. *)
Inductive signal := Next | StopSiblings | StopAll.

Section Seq.
Context {S : Type} (f : tree -> S -> cfl (signal * S)).
Fixpoint dfs_seq (ts : list tree) (s : S) : cfl (signal * S) :=
  match ts with
  | [] => Ret (Next, s)
  | t :: ts =>
      r <- f t s;;
      match r with
      | (Next, s) => dfs_seq ts s
      | (StopSiblings, s) => Ret (Next, s)
      | (StopAll, s) => Ret (StopAll, s)
      end
  end.
End Seq.

Section Dfs.
Context {U : Type}.
Fixpoint dfs (lvl : Z) (t : tree) (s : CT_TreeWalker U * U) : cfl (signal * (CT_TreeWalker U * U)) :=
  let 'Node id kids := t in
  let w := mark id s.1 in
  if max_level w <? lvl then Ret (Next, (w, s.2))
  else
    r <- apply_func w s.2 id lvl (flags w);;
    let '(ret, u, fl) := r in
    let w := w <| flags := fl |> in
    match ret with
    | CT_CONTINUE => dfs_seq (dfs (lvl + 1)) kids (w, u)
    | CT_SKIP_CHILDREN | CT_STOP_BRANCH => Ret (Next, (w, u))
    | CT_STOP_SIBLINGS => Ret (StopSiblings, (w, u))
    | CT_STOP_LEVEL => Ret (Next, (w <| max_level := lvl |>, u))
    | CT_STOP_ALL => Ret (StopAll, (w <| stop_all := true |>, u))
    end.

(** The walk as its documentation has it. *)
Definition dfs_walk (t : tree) (w : CT_TreeWalker U) (u : U) : cfl (CT_ReturnCode * CT_TreeWalker U * U) :=
  r <- dfs 0 t (w, u);;
  match r with (StopAll, (w, u)) => Ret (CT_STOP_ALL, w, u) | (_, (w, u)) => Ret (CT_CONTINUE, w, u) end.

(** [get_children] gives this tree whatever the user data, within the limits. *)
Fixpoint tree_of (children : CT_GetChildrenFunc U) (nodes id_limit : Z) (t : tree) : Prop :=
  let 'Node id kids := t in
  (0 <= id < nodes /\ id <= id_limit) /\ zlen kids <= MAX_CHILDREN_BUFFER /\
  (forall u, children u id = Ret (map root kids)) /\
  foldr (fun t P => tree_of children nodes id_limit t /\ P) True kids.

(** On user data that satisfies [P], which it keeps, the callback may use the user flags as
    it likes, but leaves the visited bits. *)
Definition keeps_visited (P : U -> Prop) (apply : CT_ApplyFunc U) (nodes : Z) : Prop := forall u id lvl fl ret u' fl',
  P u -> zlen fl = nodes -> apply u id lvl fl = Ret (ret, u', fl') ->
  P u' /\ length fl' = length fl /\
  forall i, Z.land (zget 0 fl' i) CT_FLAG_VISITED = Z.land (zget 0 fl i) CT_FLAG_VISITED.
End Dfs.

(** The visits of an undisturbed walk: each node with its level. *)
Fixpoint preorder (lvl : Z) (t : tree) : list (Z * Z) :=
  let 'Node id kids := t in (id, lvl) :: concat (map (preorder (lvl + 1)) kids).
Definition record_visits (u : list (Z * Z)) (id lvl : Z) (fl : list Z) : cfl (CT_ReturnCode * list (Z * Z) * list Z) :=
  Ret (CT_CONTINUE, u ++ [(id, lvl)], fl).

(** Five nodes; the callback lists its visits and steers by node id. *)
Definition ex_tree : tree := Node 0 [Node 1 [Node 3 []; Node 4 []]; Node 2 []].
Definition ex_children (u : list (Z * Z)) (id : Z) : cfl (list Z) :=
  Ret (if id =? 0 then [1; 2] else if id =? 1 then [3; 4] else []).
Definition ex_apply (u : list (Z * Z)) (id lvl : Z) (fl : list Z) : cfl (CT_ReturnCode * list (Z * Z) * list Z) :=
  Ret (if id =? 3 then CT_STOP_SIBLINGS else CT_CONTINUE, u ++ [(id, lvl)], fl).
Definition ex_walker : CT_TreeWalker (list (Z * Z)) :=
  mk_walker 5 [0; 0x11; 1; 0; 0] ex_children ex_apply 0xFFFF 4 false.

(** ** Runs of the loop *)

Section Steps.
Context {U : Type} (capacity : Z).

(** [n] turns from a state reach a state, or the end of the walk: its result or an exception. *)
Inductive steps : nat -> walk_state U -> cfl (walk_state U + CT_ReturnCode * CT_TreeWalker U * U) -> Prop :=
| steps_0 s : steps 0 s (Ret (inl s))
| steps_S n w u cur below s r : walk_step capacity cur below w u = Ret (inl s) -> steps n s r ->
    steps (S n) (mk_walk w u (cur :: below)) r
| steps_end w u cur below r : walk_step capacity cur below w u = r -> (forall s, r <> Ret (inl s)) ->
    steps 1 (mk_walk w u (cur :: below)) r.

(** Where the turns spent on a subtree leave the loop, with [below] under its entry. *)
Definition outcome (r : cfl (signal * (CT_TreeWalker U * U))) (below : list CT_StackEntry)
    : cfl (walk_state U + CT_ReturnCode * CT_TreeWalker U * U) :=
  r <- r;;
  Ret match r with
  | (Next, s) => inl (mk_walk s.1 s.2 below)
  | (StopSiblings, s) => inl (mk_walk s.1 s.2 (tail below))
  | (StopAll, s) => inr (CT_STOP_ALL, s.1, s.2)
  end.
End Steps.

Definition sizes (ts : list tree) : nat := length (concat (map ids ts)).

(** The walker during a walk. *)
Record w_ok {U} (children : CT_GetChildrenFunc U) (apply : CT_ApplyFunc U) (nodes id_limit : Z)
    (w : CT_TreeWalker U) : Prop := {
  ok_nodes : max_nodes w = nodes; ok_limit : max_node_id w = id_limit;
  ok_children : get_children w = children; ok_apply : apply_func w = apply;
  ok_go : stop_all w = false; ok_flags : zlen (flags w) = nodes
}.
(** Only the visited bits of [l] changed. *)
Definition frame {U} (l : list Z) (w w' : CT_TreeWalker U) : Prop :=
  forall i, 0 <= i -> i ∉ l -> visited w' i = visited w i.

Section SimSpec.
Context {U : Type} (P : U -> Prop) (children : CT_GetChildrenFunc U) (apply : CT_ApplyFunc U).
Context (nodes id_limit capacity : Z).

(** What is to be shown of a subtree or of the rest of a list of children. *)
Definition sim (l : list Z) (w : CT_TreeWalker U) (r : cfl (signal * (CT_TreeWalker U * U))) : Prop :=
  forall sg s, r = Ret (sg, s) -> sg <> StopAll ->
  w_ok children apply nodes id_limit s.1 /\ frame l w s.1 /\ P s.2.

Definition tree_sim (t : tree) : Prop := forall lvl below w u,
  w_ok children apply nodes id_limit w -> P u -> tree_of children nodes id_limit t -> NoDup (ids t) -> (forall i, i ∈ ids t -> visited w i = false) ->
  zlen below + depth t <= capacity -> 0 <= lvl -> lvl + depth t < 2 ^ 32 ->
  sim (ids t) w (dfs lvl t (w, u)) /\
  exists n, (n < 2 * length (ids t))%nat /\
    steps capacity n (mk_walk w u (mk_entry (root t) lvl 0 :: below))
      (outcome (dfs lvl t (w, u)) below).
End SimSpec.

(** What a walk keeps of the flags and the user data, when the callbacks and the walker's
    own writes do, at the nodes of [N]. *)
Definition cleared (n : Z) (l : list Z) : list Z :=
  map (fun f => Z.land f CT_FLAG_USER_MASK) (take (Z.to_nat n) l) ++ drop (Z.to_nat n) l.
Record walk_keeps {U} (children : CT_GetChildrenFunc U) (apply : CT_ApplyFunc U) (N : Z -> Prop)
    (Inv : list Z -> U -> Prop) : Prop := {
  keeps_clear : forall n fl u, Inv fl u -> Inv (cleared n fl) u;
  keeps_mark : forall fl u id, N id -> Inv fl u -> Inv (zset fl id (Z.lor (zget 0 fl id) CT_FLAG_VISITED)) u;
  keeps_apply : forall fl u id lvl, N id -> Inv fl u ->
    match apply u id lvl fl with Ret (_, u', fl') => Inv fl' u' | EXCEPTION _ => True | Endless => False end;
  keeps_children : forall u id, N id ->
    match children u id with Ret l => Forall N l | EXCEPTION _ => True | Endless => False end
}.
Definition entry_in (N : Z -> Prop) (e : CT_StackEntry) : Prop := N (node_id e) /\ 0 <= child_index e /\ 0 <= level e.
Definition walk_inv {U} (children : CT_GetChildrenFunc U) (apply : CT_ApplyFunc U) (nodes : Z)
    (Inv : list Z -> U -> Prop) (w : CT_TreeWalker U) (u : U) : Prop :=
  (get_children w = children /\ max_nodes w = nodes /\ 0 <= max_level w) /\ apply_func w = apply /\ Inv (flags w) u.
Definition keeps_walk {U} (children : CT_GetChildrenFunc U) (apply : CT_ApplyFunc U) (nodes : Z) (N : Z -> Prop)
    (Inv : list Z -> U -> Prop) (r : cfl (walk_state U + CT_ReturnCode * CT_TreeWalker U * U)) : Prop :=
  match r with
  | Ret (inl s) => walk_inv children apply nodes Inv (walker s) (user s) /\ Forall (entry_in N) (stack s)
  | Ret (inr (_, w, u)) => walk_inv children apply nodes Inv w u
  | EXCEPTION _ => True
  | Endless => False
  end.

(** ** Lemmas *)

Lemma steps_app {U} capacity n m (s s' : walk_state U) r :
  steps capacity n s (Ret (inl s')) -> steps capacity m s' r -> steps capacity (n + m) s r.
Proof.
  intros H. remember (Ret (inl s')) as r' eqn:E. induction H as [| |? ? ? ? ? ? Hne]; intros Hm; simplify_eq; cbn; [done| |].
  - econstructor; [done|]. by apply IHsteps.
  - by destruct (Hne s').
Qed.

Lemma walk_loop_steps {U} capacity n (s : walk_state U) r : steps capacity n s r ->
  forall fuel count max_iter, 0 <= count -> count + Z.of_nat n <= max_iter -> max_iter < 2 ^ 32 ->
  walk_loop (n + fuel) count max_iter capacity s =
    (r <- r;;
     match r with
     | inl s' => walk_loop fuel (count + Z.of_nat n) max_iter capacity s'
     | inr res => Ret res
     end).
Proof.
  induction 1 as [s|n w u cur below s r Hs Hn IH|w u cur below r Hs Hne]; intros fuel count max_iter Hc Hm Hmax.
  - cbn. by rewrite Z.add_0_r.
  - cbn [Nat.add walk_loop stack]. rewrite u32_id by (unfold fits; lia).
    rewrite (proj2 (Z.ltb_ge _ _)) by lia. cbn [raise_if walker user]. rewrite Hs. cbn [cbind].
    rewrite IH by lia. destruct r as [[s'|]| |]; [|done..]. cbn [cbind]. f_equal. lia.
  - cbn [Nat.add walk_loop stack]. rewrite u32_id by (unfold fits; lia).
    rewrite (proj2 (Z.ltb_ge _ _)) by lia. cbn [raise_if walker user]. rewrite Hs.
    destruct r as [[s'|]| |]; [|done..]. by destruct (Hne s').
Qed.

Lemma tree_ind_list (P : tree -> Prop) :
  (forall id kids, Forall P kids -> P (Node id kids)) -> forall t, P t.
Proof.
  intros H. fix IH 1. intros [id kids]. apply H. induction kids as [|t kids IHk]; constructor; [apply IH|done].
Qed.

Lemma sizes_cons t ts : sizes (t :: ts) = (length (ids t) + sizes ts)%nat.
Proof. unfold sizes. cbn. by rewrite length_app. Qed.
Lemma root_in t : root t ∈ ids t.
Proof. destruct t. cbn. apply list_elem_of_here. Qed.
Lemma depth_pos t : 1 <= depth t.
Proof. induction t as [id kids H] using tree_ind_list. cbn. induction H as [|t ts]; cbn; lia. Qed.
Lemma depth_kids id kids t : t ∈ kids -> 1 + depth t <= depth (Node id kids).
Proof.
  intros Ht. cbn [depth]. induction kids as [|t' ts IH]; [by apply not_elem_of_nil in Ht|]. cbn [foldr].
  apply elem_of_cons in Ht as [-> | Ht]; [lia|]. specialize (IH Ht). lia.
Qed.
Lemma dfs_node {U} lvl id kids (s : CT_TreeWalker U * U) : dfs lvl (Node id kids) s =
  let w := mark id s.1 in
  if max_level w <? lvl then Ret (Next, (w, s.2))
  else
    r <- apply_func w s.2 id lvl (flags w);;
    let '(ret, u, fl) := r in
    let w := w <| flags := fl |> in
    match ret with
    | CT_CONTINUE => dfs_seq (dfs (lvl + 1)) kids (w, u)
    | CT_SKIP_CHILDREN | CT_STOP_BRANCH => Ret (Next, (w, u))
    | CT_STOP_SIBLINGS => Ret (StopSiblings, (w, u))
    | CT_STOP_LEVEL => Ret (Next, (w <| max_level := lvl |>, u))
    | CT_STOP_ALL => Ret (StopAll, (w <| stop_all := true |>, u))
    end.
Proof. done. Qed.

Lemma frame_trans {U} l (w1 w2 w3 : CT_TreeWalker U) : frame l w1 w2 -> frame l w2 w3 -> frame l w1 w3.
Proof. intros A B i Hi Hn. by rewrite B, A. Qed.
Lemma frame_weaken {U} l k (w w' : CT_TreeWalker U) : frame l w w' -> (forall i, i ∈ l -> i ∈ k) -> frame k w w'.
Proof. intros A H i Hi Hn. apply A; [done|naive_solver]. Qed.

Section Sim.
Context {U : Type} (P : U -> Prop) (children : CT_GetChildrenFunc U) (apply : CT_ApplyFunc U).
Context (nodes id_limit capacity : Z) (Happly : keeps_visited P apply nodes) (Hcap : 0 <= capacity < 2 ^ 31).

#[local] Abbreviation wok := (w_ok children apply nodes id_limit).
#[local] Abbreviation tree_ok := (tree_of children nodes id_limit).
#[local] Abbreviation sim := (sim P children apply nodes id_limit).
#[local] Abbreviation tree_sim := (tree_sim P children apply nodes id_limit capacity).

Lemma mark_ok id w : wok w -> wok (mark id w).
Proof using Type. intros [? ? ? ? ? Hf]. destruct w. constructor; try done. cbn in *. unfold zlen in *. by rewrite zlen_zset. Qed.
Lemma mark_frame id (w : CT_TreeWalker U) : frame [id] w (mark id w).
Proof using Type.
  intros i Hi Hne. destruct w. unfold visited, mark. usimpl. rewrite zget_zset_ne; [done| |done].
  intros ->. apply Hne, list_elem_of_here.
Qed.
Lemma mark_visited id w : wok w -> 0 <= id < nodes -> visited (mark id w) id = true.
Proof using Type.
  intros [? ? ? ? ? Hf] Hid. destruct w as [mn fl gc ap ml mi st]. unfold mark, visited. usimpl.
  rewrite zget_zset_eq by lia. unfold nz, CT_FLAG_VISITED.
  apply negb_true_iff, Z.eqb_neq. intros E. apply (f_equal (fun x => Z.testbit x 0)) in E.
  rewrite Z.land_spec, Z.lor_spec, Z.bits_0 in E. change (Z.testbit 1 0) with true in E.
  by rewrite orb_true_r in E.
Qed.
Lemma apply_ok w u id lvl ret u' fl : wok w -> P u -> apply_func w u id lvl (flags w) = Ret (ret, u', fl) ->
  wok (w <| flags := fl |>) /\ P u' /\ (forall i, visited (w <| flags := fl |>) i = visited w i).
Proof using Happly.
  intros [? ? ? Ha ? Hf] Hp E. rewrite Ha in E. pose proof (Happly _ _ _ _ _ _ _ Hp Hf E) as H.
  destruct H as (Hp' & Hl & Hv), w. split; [constructor; try done; cbn in *; unfold zlen in *; congruence|]. split; [done|].
  intros i. unfold visited. cbn in *. by rewrite Hv.
Qed.

Lemma walk_child_done id lvl k below w u kids : wok w -> (forall u, children u id = Ret (map root kids)) ->
  zlen kids <= MAX_CHILDREN_BUFFER -> zlen kids <= k ->
  walk_child capacity (mk_entry id lvl k) below w u = Ret (inl (mk_walk w u below)).
Proof using Type.
  intros [? ? Hc ? ? ?] Hk Hn Hlen. unfold walk_child. rewrite Hc. cbn [node_id child_index]. rewrite Hk. cbn [cbind].
  unfold zlen in *. rewrite length_map. rewrite (proj2 (Z.ltb_ge _ _)), (proj2 (Z.leb_le _ _)) by done. done.
Qed.
Lemma walk_child_push id lvl k below w u kids t : wok w -> (forall u, children u id = Ret (map root kids)) ->
  zlen kids <= MAX_CHILDREN_BUFFER -> kids !! k = Some t -> tree_ok t -> visited w (root t) = false ->
  zlen below + 1 < capacity -> 0 <= lvl -> lvl + 1 < 2 ^ 32 ->
  walk_child capacity (mk_entry id lvl (Z.of_nat k)) below w u =
    Ret (inl (mk_walk w u (mk_entry (root t) (lvl + 1) 0 :: mk_entry id lvl (Z.of_nat (S k)) :: below))).
Proof using Hcap.
  intros [Hn Hl Hc ? ? ?] Hk Hlen Hkt Ht Hv Hd Hlv Hlv'. unfold walk_child. rewrite Hc. cbn [node_id child_index level]. rewrite Hk. cbn [cbind].
  pose proof (lookup_lt_Some _ _ _ Hkt) as Hlt. unfold zlen, MAX_CHILDREN_BUFFER in *. rewrite length_map.
  rewrite (proj2 (Z.ltb_ge _ _)), (proj2 (Z.leb_gt _ _)) by lia. cbn [raise_if].
  assert (zget 0 (map root kids) (Z.of_nat k) = root t) as ->.
  { apply zget_lookup; [lia|]. rewrite Nat2Z.id, list_lookup_fmap. change (root <$> (kids !! k) = Some (root t)). by rewrite Hkt. }
  destruct t as [tid tk]. cbn [root] in *. destruct Ht as ((? & ?) & _).
  rewrite Hn, Hl, (proj2 (Z.leb_gt _ _)), (proj2 (Z.ltb_ge _ _)) by lia. cbn [raise_if]. rewrite Hv. cbn [length].
  assert (s32 capacity = capacity) as -> by (unfold s32; rewrite u32_id by (unfold fits; lia); by rewrite (proj2 (Z.ltb_lt _ _)) by lia).
  rewrite (proj2 (Z.leb_gt _ _)) by lia. cbn [raise_if]. usimpl.
  rewrite !u32_id by (unfold fits; lia). do 6 f_equal. lia.
Qed.

(** A turn at an entry that was left for a child: the next child. *)
Lemma walk_step_again id lvl k below w u : wok w -> visited w id = true -> 0 <= id < nodes -> id <= id_limit ->
  0 < k -> walk_step capacity (mk_entry id lvl k) below w u = walk_child capacity (mk_entry id lvl k) below w u.
Proof using Type.
  intros [Hn Hl ? ? Hgo ?] Hv Hid Hlim Hk. unfold walk_step. cbn [node_id child_index].
  rewrite Hgo, Hn, Hl, Hv, (proj2 (Z.leb_gt _ _)), (proj2 (Z.ltb_ge _ _)), (proj2 (Z.eqb_neq k 0)) by lia. done.
Qed.
(** The first turn at an entry. *)
Lemma walk_step_first id lvl below w u : wok w -> 0 <= id < nodes -> id <= id_limit -> visited w id = false ->
  walk_step capacity (mk_entry id lvl 0) below w u =
    let w := mark id w in
    if max_level w <? lvl then Ret (inl (mk_walk w u below))
    else
      r <- apply_func w u id lvl (flags w);;
      let '(ret, u, fl) := r in
      let w := w <| flags := fl |> in
      match ret with
      | CT_STOP_ALL => Ret (inr (CT_STOP_ALL, w <| stop_all := true |>, u))
      | CT_STOP_BRANCH | CT_SKIP_CHILDREN => Ret (inl (mk_walk w u below))
      | CT_STOP_SIBLINGS => Ret (inl (mk_walk w u (tail below)))
      | CT_STOP_LEVEL => Ret (inl (mk_walk (w <| max_level := lvl |>) u below))
      | CT_CONTINUE => walk_child capacity (mk_entry id lvl 0) below w u
      end.
Proof using Type.
  intros [Hn Hl ? ? Hgo ?] Hid Hlim Hv. unfold walk_step. cbn [node_id child_index level].
  rewrite Hgo, Hn, Hl, Hv, (proj2 (Z.leb_gt _ _)), (proj2 (Z.ltb_ge _ _)) by lia. done.
Qed.

Lemma tree_ids_bound t i : tree_ok t -> i ∈ ids t -> 0 <= i < nodes /\ i <= id_limit.
Proof using Type.
  induction t as [id kids IH] using tree_ind_list. cbn [tree_of ids]. intros (Hid & _ & _ & Hk) [-> | Hi]%elem_of_cons; [done|].
  clear Hid. induction IH as [|t ts Ht _ IHts]; cbn in *; [by apply not_elem_of_nil in Hi|].
  destruct Hk as [H1 H2]. apply elem_of_app in Hi as [Hi|Hi]; [by apply Ht|by apply IHts].
Qed.
Lemma trees_ids_bound ts i : foldr (fun t P => tree_ok t /\ P) True ts -> i ∈ concat (map ids ts) -> 0 <= i.
Proof using Type.
  induction ts as [|t ts IH]; cbn; [by intros _ ?%not_elem_of_nil|].
  intros [Ht Hts] [Hi|Hi]%elem_of_app; [destruct (tree_ids_bound t i Ht Hi); lia|by apply IH].
Qed.

(** The children from number [k] on, from the turn that takes the next one. *)
Lemma kids_sim id lvl kids below : (forall u, children u id = Ret (map root kids)) ->
  zlen kids <= MAX_CHILDREN_BUFFER -> 0 <= id < nodes -> id <= id_limit -> 0 <= lvl ->
  forall ts k w u, drop k kids = ts -> Forall tree_sim ts -> foldr (fun t P => tree_ok t /\ P) True ts ->
  wok w -> P u -> visited w id = true -> NoDup (concat (map ids ts)) -> id ∉ concat (map ids ts) ->
  (forall i, i ∈ concat (map ids ts) -> visited w i = false) ->
  (forall t, t ∈ ts -> zlen below + 1 + depth t <= capacity /\ lvl + 1 + depth t < 2 ^ 32) ->
  let r := dfs_seq (dfs (lvl + 1)) ts (w, u) in
  sim (concat (map ids ts)) w r /\
  exists n s, (n <= 2 * sizes ts)%nat /\
    walk_child capacity (mk_entry id lvl (Z.of_nat k)) below w u = Ret (inl s) /\
    steps capacity n s (outcome r below).
Proof using Happly Hcap.
  intros Hk Hlen Hid Hlim Hlvl. induction ts as [|t ts IH]; intros k w u Hdrop Hsim Htree Hw Hp Hvis Hnd Hnin Hnv Hdep; cbn zeta.
  { cbn [dfs_seq]. split; [by intros ? ? [= <- <-] _; split_and!|]. exists 0%nat, (mk_walk w u below). split; [lia|].
    split; [|constructor]. apply (walk_child_done _ _ _ _ _ _ kids); try done.
    apply (f_equal length) in Hdrop. rewrite length_drop in Hdrop. cbn in Hdrop. unfold zlen. lia. }
  assert (kids !! k = Some t) as Hkt by (by rewrite <- (Nat.add_0_r k), <- lookup_drop, Hdrop).
  assert (drop (S k) kids = ts) as Hdrop' by (by erewrite drop_S in Hdrop by done; injection Hdrop).
  apply Forall_cons in Hsim as [Ht Hsim]. cbn [foldr] in Htree. destruct Htree as [Htt Htree].
  cbn [map concat] in Hnd, Hnin, Hnv. apply NoDup_app in Hnd as (Hnd1 & Hdisj & Hnd2).
  rewrite not_elem_of_app in Hnin. destruct Hnin as [Hnin1 Hnin2].
  destruct (Hdep t) as [Hd1 Hd2]; [apply list_elem_of_here|]. pose proof (depth_pos t) as Hdp.
  destruct (Ht (lvl + 1) (mk_entry id lvl (Z.of_nat (S k)) :: below) w u) as (Hs1 & n1 & Hn1 & Hst1); try done; try lia.
  { intros i Hi. apply Hnv, elem_of_app. by left. }
  { unfold zlen in *. cbn [length]. lia. }
  assert (walk_child capacity (mk_entry id lvl (Z.of_nat k)) below w u =
    Ret (inl (mk_walk w u (mk_entry (root t) (lvl + 1) 0 :: mk_entry id lvl (Z.of_nat (S k)) :: below)))) as Hpush.
  { apply (walk_child_push _ _ _ _ _ _ kids); try done; try lia. apply Hnv, elem_of_app. left. apply root_in. }
  assert (forall r, steps capacity n1 (mk_walk w u (mk_entry (root t) (lvl + 1) 0 :: mk_entry id lvl (Z.of_nat (S k)) :: below)) r ->
    exists n s, (n <= 2 * sizes (t :: ts))%nat /\ walk_child capacity (mk_entry id lvl (Z.of_nat k)) below w u = Ret (inl s) /\
      steps capacity n s r) as Hend.
  { intros r Hr. exists n1. eexists. split; [rewrite sizes_cons; lia|split; done]. }
  cbn [dfs_seq]. destruct (dfs (lvl + 1) t (w, u)) as [[sg [w1 u1]]|msg|] eqn:Ed; cbn [cbind] in *; unfold outcome in Hst1; cbn [cbind] in Hst1;
    [|split; [intros ? ? [=]|]; by apply Hend..].
  specialize (Hs1 _ _ eq_refl). unfold sim in *. cbn [fst snd] in *.
  destruct sg; cbn [fst snd tail] in *.
  - destruct Hs1 as (Hw1 & Hf1 & Hp1); [done|].
    destruct (IH (S k) w1 u1) as (Hs2 & n2 & s2 & Hn2 & Hc2 & Hst2); try done.
    { rewrite Hf1; [done|lia|done]. }
    { intros i Hi. rewrite Hf1; [apply Hnv, elem_of_app; by right| |].
      - by apply (trees_ids_bound ts).
      - intros Hi1. by apply (Hdisj i). }
    { intros t' Ht'. apply Hdep. by apply list_elem_of_further. }
    split.
    + intros sg s Eq Hne. destruct (Hs2 sg s Eq Hne) as (Hw2 & Hf2 & Hp2). split; [done|]. split; [|done]. eapply frame_trans.
      * eapply frame_weaken; [done|]. intros i Hi. apply elem_of_app. by left.
      * eapply frame_weaken; [done|]. intros i Hi. apply elem_of_app. by right.
    + exists (n1 + S n2)%nat, (mk_walk w u (mk_entry (root t) (lvl + 1) 0 :: mk_entry id lvl (Z.of_nat (S k)) :: below)).
      rewrite sizes_cons. split; [lia|]. split; [done|]. eapply steps_app; [done|].
      apply (steps_S _ _ _ _ _ _ s2); [|done]. rewrite walk_step_again; [done|done| |done|done|lia].
      rewrite Hf1; [done|lia|done].
  - split; [|by apply Hend].
    intros ? ? [= <- <-] _. destruct Hs1 as (Hw1 & Hf1 & Hp1); [done|]. split; [done|]. split; [|done]. eapply frame_weaken; [done|].
    intros i Hi. apply elem_of_app. by left.
  - split; [|by apply Hend]. by intros ? ? [= <- <-].
Qed.

(** A tree, from the turn that visits its root. *)
Lemma dfs_sim t : tree_sim t.
Proof using Happly Hcap.
  induction t as [id kids IH] using tree_ind_list. intros lvl below w u Hw Hp Ht Hnd Hnv Hd Hl Hld.
  cbn [tree_of] in Ht. destruct Ht as ((Hid & Hlim) & Hlen & Hk & Hkids).
  cbn [ids] in *. apply NoDup_cons in Hnd as [Hnin Hnd].
  pose proof (depth_kids id kids) as Hdk.
  assert (visited w id = false) as Hv0 by (apply Hnv, list_elem_of_here).
  assert (wok (mark id w)) as Hmw by by apply mark_ok.
  assert (frame (id :: concat (map ids kids)) w (mark id w)) as Hmf.
  { eapply frame_weaken; [apply mark_frame|]. intros i ->%list_elem_of_singleton. apply list_elem_of_here. }
  pose proof (mark_visited id w Hw Hid) as Hmv.
  rewrite dfs_node. cbn [fst snd root]. cbv zeta.
  pose proof (walk_step_first id lvl below w u Hw Hid Hlim Hv0) as Hstep. cbv zeta in Hstep.
  destruct (max_level (mark id w) <? lvl) eqn:Eml.
  { split; [intros ? ? [= <- <-] _; cbn; by split_and!|]. exists 1%nat. split; [cbn; lia|]. eapply steps_S; [done|constructor]. }
  destruct (apply_func (mark id w) u id lvl (flags (mark id w))) as [[[ret u1] fl]|msg|] eqn:Ea; cbn [cbind] in *;
    [|(split; [by intros ? ?|]); exists 1%nat; (split; [cbn; lia|]); by apply steps_end; [rewrite Hstep|]..].
  destruct (apply_ok _ _ _ _ _ _ _ Hmw Hp Ea) as (Hw1 & Hp1 & Hv1). set (w1 := mark id w <| flags := fl |>) in *.
  assert (frame (id :: concat (map ids kids)) w w1) as Hf1.
  { eapply frame_trans; [done|]. intros i _ _. apply Hv1. }
  destruct ret.
  - destruct (kids_sim id lvl kids below Hk Hlen Hid Hlim Hl kids 0 w1 u1) as (Hs & n & s1 & Hn & Hc & Hst); try done.
    { by rewrite Hv1. }
    { intros i Hi. rewrite Hv1, mark_frame.
      - apply Hnv. by apply list_elem_of_further.
      - by apply (trees_ids_bound kids).
      - intros ->%list_elem_of_singleton. done. }
    { intros t Ht. specialize (Hdk t Ht). cbn [depth] in *. lia. }
    split.
    + intros sg s Eq Hne. destruct (Hs sg s Eq Hne) as (Hw2 & Hf2 & Hp2). split; [done|]. split; [|done]. eapply frame_trans; [done|].
      eapply frame_weaken; [done|]. intros i Hi. by apply list_elem_of_further.
    + exists (S n). split; [cbn [length]; unfold sizes in Hn; lia|]. eapply steps_S; [|done]. by rewrite Hstep.
  - split; [intros ? ? [= <- <-] _; cbn; by split_and!|]. exists 1%nat. split; [cbn; lia|]. eapply steps_S; [done|constructor].
  - split; [intros ? ? [= <- <-] _; cbn; by split_and!|]. exists 1%nat. split; [cbn; lia|]. eapply steps_S; [done|constructor].
  - split; [intros ? ? [= <- <-] _; cbn; by split_and!|]. exists 1%nat. split; [cbn; lia|]. eapply steps_S; [done|constructor].
  - split; [|exists 1%nat; split; [cbn; lia|]; eapply steps_S; [done|constructor]].
    intros ? ? [= <- <-] _. split; [|by split]. cbn [snd fst]. clear -Hw1. clearbody w1. destruct w1, Hw1. by constructor.
  - split; [by intros ? ? [= <- <-]|]. exists 1%nat. split; [cbn; lia|]. by eapply steps_end.
Qed.
End Sim.

Lemma length_bounded (l : list Z) m : NoDup l -> (forall i, i ∈ l -> 0 <= i <= m) -> zlen l <= Z.max 0 (m + 1).
Proof.
  intros Hnd Hb. assert (l ⊆+ seqZ 0 (m + 1)) as H.
  { apply NoDup_submseteq; [done|]. intros i Hi. apply elem_of_seqZ. specialize (Hb i Hi). lia. }
  apply submseteq_length in H. rewrite length_seqZ in H. unfold zlen. lia.
Qed.

Lemma clear_unvisited {U} (w : CT_TreeWalker U) i : zlen (flags w) = max_nodes w -> 0 <= i < max_nodes w ->
  visited (clear_engine_flags w) i = false.
Proof.
  intros Hf Hi. destruct w as [mn fl gc ap ml mi st]. unfold visited, clear_engine_flags. usimpl. unfold zlen in Hf.
  rewrite take_ge, drop_ge, app_nil_r by lia.
  destruct (lookup_lt_is_Some_2 fl (Z.to_nat i)) as [f Hl]; [lia|].
  erewrite (zget_lookup _ (Z.land f CT_FLAG_USER_MASK)); [|lia|by rewrite list_lookup_fmap, Hl].
  unfold nz, CT_FLAG_USER_MASK, CT_FLAG_VISITED. rewrite <- Z.land_assoc. by rewrite Z.land_0_r.
Qed.
Lemma clear_keeps_length {U} (w : CT_TreeWalker U) : zlen (flags (clear_engine_flags w)) = zlen (flags w).
Proof.
  destruct w as [mn fl gc ap ml mi st]. unfold clear_engine_flags, zlen. usimpl.
  rewrite length_app, length_map, length_take, length_drop. lia.
Qed.

(** With a callback that records its calls and never interferes, the specification
    visits the tree in preorder. *)
Lemma dfs_visits_preorder t : forall lvl (w : CT_TreeWalker (list (Z * Z))) u,
  apply_func w = record_visits -> lvl + depth t - 1 <= max_level w ->
  exists w', dfs lvl t (w, u) = Ret (Next, (w', u ++ preorder lvl t)) /\
    apply_func w' = record_visits /\ max_level w' = max_level w.
Proof.
  induction t as [id kids IH] using tree_ind_list. intros lvl w u Ha Hm. rewrite dfs_node. cbn [fst snd]. cbv zeta.
  cbn [depth] in Hm. change (max_level (mark id w)) with (max_level w). change (apply_func (mark id w)) with (apply_func w).
  assert (0 <= foldr (fun t m => Z.max (depth t) m) 0 kids) as Hd0 by (clear; induction kids; cbn; lia).
  rewrite Ha, (proj2 (Z.ltb_ge _ _)) by lia. cbn [record_visits cbind].
  set (w1 := mark id w <| flags := _ |>). assert (apply_func w1 = record_visits /\ max_level w1 = max_level w) as [Ha1 Hm1] by done.
  clearbody w1. rewrite <- Hm1 in Hm |- *. clear Hm1. cbn [preorder]. rewrite (cons_middle (id, lvl) u (concat _)), app_assoc.
  generalize (u ++ [(id, lvl)]). clear u Ha Hd0. revert w1 Ha1 Hm.
  induction IH as [|t ts Ht _ IHts]; intros w1 Ha1 Hm u; cbn [dfs_seq map concat foldr] in *; [exists w1; by rewrite app_nil_r|].
  destruct (Ht (lvl + 1) w1 u Ha1) as (w2 & -> & E3 & E4); [lia|]. cbn [cbind].
  destruct (IHts w2 E3) with (l := u ++ preorder (lvl + 1) t) as (w3 & -> & F3 & F4); [lia|].
  exists w3. by rewrite app_assoc, F4, E4.
Qed.

(** A walk over a tree, from the public entry point. *)
Lemma walk_is_dfs {U} (P : U -> Prop) (t : tree) (w : CT_TreeWalker U) u capacity level_limit id_limit :
  keeps_visited P (apply_func w) (max_nodes w) -> P u -> tree_of (get_children w) (max_nodes w) id_limit t -> NoDup (ids t) ->
  zlen (flags w) = max_nodes w -> id_limit <= max_nodes w -> (id_limit + 1) * 257 < 2 ^ 32 ->
  depth t <= capacity < 2 ^ 31 ->
  ct_walker_walk (Some w) u (root t) (Some tt) capacity level_limit id_limit =
    dfs_walk t (clear_engine_flags
      (mk_walker (max_nodes w) (flags w) (get_children w) (apply_func w) level_limit id_limit false)) u.
Proof.
  intros Ha Hp Ht Hnd Hfl Hlim Hit Hcap. pose proof (depth_pos t) as Hdp.
  destruct (tree_ids_bound _ _ _ t (root t) Ht (root_in t)) as [Hr0 Hr1].
  pose proof (length_bounded (ids t) id_limit Hnd) as Hsize. unfold zlen in Hsize.
  unfold ct_walker_walk. cbn [not_null]. set (w0 := mk_walker _ _ _ _ _ _ _).
  rewrite (proj2 (Z.eqb_neq _ _)), (proj2 (Z.leb_gt _ _)), (proj2 (Z.ltb_ge _ _)) by lia. cbn [raise_if].
  assert (zlen (flags w0) = max_nodes w0) as Hf0 by done.
  assert (w_ok (get_children w) (apply_func w) (max_nodes w) id_limit (clear_engine_flags w0)) as Hok.
  { constructor; try done. by rewrite clear_keeps_length. }
  destruct (dfs_sim P (get_children w) (apply_func w) (max_nodes w) id_limit capacity Ha ltac:(lia) t 0 [] (clear_engine_flags w0) u)
    as (_ & n & Hn & Hst); try done; try (cbn; lia).
  { intros i Hi. apply clear_unvisited; [done|]. by destruct (tree_ids_bound _ _ _ t i Ht Hi). }
  { unfold zlen; cbn [length]; lia. }
  set (w1 := clear_engine_flags w0) in *. assert (max_nodes w1 = max_nodes w /\ max_node_id w1 = id_limit) as [En El] by done.
  clearbody w1. unfold walk_iterative. rewrite En, El.
  rewrite (proj2 (Z.eqb_neq _ _)), (proj2 (Z.leb_gt _ _)), (proj2 (Z.ltb_ge _ _)) by lia. cbn [raise_if].
  unfold MAX_CHILDREN_BUFFER. rewrite (u32_id (id_limit + 1)) by (unfold fits; lia).
  rewrite (u32_id ((id_limit + 1) * _)) by (unfold fits; lia). set (mx := (id_limit + 1) * (256 + 1)) in *.
  assert (Z.of_nat n <= mx) as Hnm.
  { assert (Z.of_nat (length (ids t)) <= Z.max 0 (id_limit + 1)); [apply Hsize|lia].
    intros i Hi. destruct (tree_ids_bound _ _ _ t i Ht Hi). lia. }
  replace (S (Z.to_nat mx)) with (n + S (Z.to_nat mx - n))%nat by lia.
  rewrite (walk_loop_steps _ _ _ _ Hst) by lia. unfold dfs_walk.
  destruct (dfs 0 t (w1, u)) as [[[| |] [w2 u2]]| |]; done.
Qed.

(** ** Invariants of a walk *)

Section WalkInvariant.
Context {U : Type} (children : CT_GetChildrenFunc U) (apply : CT_ApplyFunc U) (nodes : Z).
Context (N : Z -> Prop) (Inv : list Z -> U -> Prop) (Hsteps : walk_keeps children apply N Inv).

#[local] Abbreviation inv := (walk_inv children apply nodes Inv).
#[local] Abbreviation entries := (Forall (entry_in N)).

Lemma walk_child_inv capacity cur below w u : inv w u -> entry_in N cur -> entries below ->
  keeps_walk children apply nodes N Inv (walk_child capacity cur below w u).
Proof using Hsteps.
  intros Hw (Hc & Hk & Hlv) Hb. pose proof Hw as ((Egc & _) & _). unfold walk_child. rewrite Egc.
  pose proof (keeps_children _ _ _ _ Hsteps u (node_id cur) Hc) as Hl.
  destruct (children u (node_id cur)) as [l| |]; cbn [cbind]; [|done..].
  destruct (MAX_CHILDREN_BUFFER <? zlen l); cbn [raise_if]; [done|].
  destruct (Z.leb_spec (zlen l) (child_index cur)) as [Hx|Hx]; [by split|].
  destruct (max_nodes w <=? _); cbn [raise_if]; [done|]. destruct (max_node_id w <? _); cbn [raise_if]; [done|].
  assert (entries (cur <| child_index := u32 (child_index cur + 1) |> :: below)) as Hs.
  { apply Forall_cons. split; [|done]. destruct cur. split; [done|]. split; [cbn; apply u32_fits|done]. }
  destruct (visited w _); [by split|]. destruct (s32 capacity <=? _); cbn [raise_if]; [done|].
  split; [done|]. apply Forall_cons. split; [|done]. split; [|split; [done|apply u32_fits]]. cbn [node_id].
  destruct (lookup_lt_is_Some_2 l (Z.to_nat (child_index cur))) as [x Ex]; [unfold zlen in Hx; lia|].
  rewrite (zget_lookup _ x _ _ Hk Ex). by eapply Forall_lookup_1.
Qed.

Lemma walk_step_inv capacity cur below w u : inv w u -> entry_in N cur -> entries below ->
  keeps_walk children apply nodes N Inv (walk_step capacity cur below w u).
Proof using Hsteps.
  intros Hw Hc Hb. pose proof Hw as ((Egc & En) & Eap & Hi). unfold walk_step.
  destruct (stop_all w); [done|].
  destruct (max_nodes w <=? _); cbn [raise_if]; [done|]. destruct (max_node_id w <? _); cbn [raise_if]; [done|].
  destruct (visited w (node_id cur)).
  { destruct (child_index cur =? 0); [by split|]. by apply walk_child_inv. }
  assert (inv (mark (node_id cur) w) u) as Hm.
  { destruct w. split; [done|]. split; [done|]. by apply (keeps_mark _ _ _ _ Hsteps); [apply Hc|]. }
  destruct (max_level _ <? _); [by split|]. change (apply_func (mark (node_id cur) w)) with (apply_func w). rewrite Eap.
  pose proof (keeps_apply _ _ _ _ Hsteps _ u (node_id cur) (level cur) (proj1 Hc) (proj2 (proj2 Hm))) as Ha.
  destruct (apply u _ _ _) as [[[ret u1] fl]| |]; cbn [cbind]; [|done..].
  assert (inv (mark (node_id cur) w <| flags := fl |>) u1) as Hw1 by by destruct w.
  destruct ret; try (by split); try (by destruct w).
  - by apply walk_child_inv.
  - split; [done|]. by destruct Hb.
  - split; [|done]. destruct Hw1 as ((? & ? & _) & ? & ?), Hc as (_ & _ & Hlv). destruct w. by split_and!.
Qed.

Lemma walk_loop_inv capacity max_iter : max_iter < 2 ^ 32 - 1 ->
  forall fuel count s, 0 <= count <= max_iter -> max_iter < count + Z.of_nat fuel ->
  inv (walker s) (user s) -> entries (stack s) ->
  match walk_loop fuel count max_iter capacity s with
  | Ret (_, w, u) => inv w u | EXCEPTION _ => True | Endless => False
  end.
Proof using Hsteps.
  intros Hmax. induction fuel as [|fuel IH]; intros count s Hc Hf Hi Hs; [lia|]. cbn [walk_loop].
  destruct (stack s) as [|cur below]; [done|]. apply Forall_cons in Hs as [Hcur Hb].
  rewrite u32_id by (unfold fits; lia). destruct (Z.ltb_spec max_iter (count + 1)); cbn [raise_if]; [done|].
  pose proof (walk_step_inv capacity cur below _ _ Hi Hcur Hb) as Hstep.
  destruct (walk_step _ _ _ _ _) as [[s'|[[rc w] u]]| |]; cbn [cbind]; [|done..].
  apply IH; [lia|lia|apply Hstep..].
Qed.
End WalkInvariant.

(** A walk keeps what its callback keeps, and ends. *)
Lemma walk_keeps_inv {U} (w : CT_TreeWalker U) N Inv u root_id capacity level_limit id_limit :
  walk_keeps (get_children w) (apply_func w) N Inv -> N root_id -> Inv (flags w) u -> 0 <= level_limit -> 0 <= id_limit ->
  (id_limit + 1) * 257 < 2 ^ 32 - 1 ->
  match ct_walker_walk (Some w) u root_id (Some tt) capacity level_limit id_limit with
  | Ret (_, w', u') => walk_inv (get_children w) (apply_func w) (max_nodes w) Inv w' u' | EXCEPTION _ => True | Endless => False
  end.
Proof.
  intros Hk Hr Hi Hlv H0 Hlim. unfold ct_walker_walk. cbn [not_null].
  destruct (capacity =? 0) eqn:Ec; cbn [raise_if]; [done|]. destruct (max_nodes w <=? root_id) eqn:Er; cbn [raise_if]; [done|].
  destruct (max_nodes w <? id_limit); cbn [raise_if]; [done|]. unfold walk_iterative. rewrite Ec. cbn [raise_if].
  set (w0 := clear_engine_flags _). change (max_nodes w0) with (max_nodes w). rewrite Er. cbn [raise_if].
  change (max_node_id w0) with id_limit.
  destruct (id_limit <? root_id); cbn [raise_if]; [done|].
  unfold MAX_CHILDREN_BUFFER. rewrite (u32_id (id_limit + 1)) by (unfold fits; lia).
  rewrite (u32_id ((id_limit + 1) * _)) by (unfold fits; lia).
  apply walk_loop_inv with (N := N); [done|lia|lia|lia| |].
  - split; [done|]. split; [done|]. cbn [walker user]. by apply (keeps_clear _ _ _ _ Hk).
  - by apply Forall_singleton.
Qed.

Lemma cleared_len n l : zlen (cleared n l) = zlen l.
Proof. unfold cleared, zlen. rewrite length_app, length_map, length_take, length_drop. lia. Qed.
Lemma cleared_user n l i : Z.land (zget 0 (cleared n l) i) CT_FLAG_USER_MASK = Z.land (zget 0 l i) CT_FLAG_USER_MASK.
Proof.
  unfold cleared. set (m := Z.to_nat n). clearbody m. rewrite <- (take_drop m l) at 3. generalize (take m l) (drop m l). clear.
  intros l1 l2. unfold zget. destruct (i <? 0); [done|]. generalize (Z.to_nat i). clear i. intros k. revert k.
  induction l1 as [|f l1 IH]; intros [|k]; cbn; [done|done| |apply IH]. by rewrite <- Z.land_assoc.
Qed.
Lemma zset_cases (l : list Z) i j v : zget 0 (zset l i v) j = zget 0 l j \/ (i = j /\ zget 0 (zset l i v) j = v).
Proof.
  destruct (Z.ltb_spec j 0) as [Hj|Hj].
  { left. unfold zget. by rewrite (proj2 (Z.ltb_lt j 0)). }
  destruct (Z.eq_dec i j) as [-> | Hne]; [|left; apply zget_zset_ne; [done|congruence]].
  destruct (Z.ltb_spec j (zlen l)) as [Hl|Hl]; [right; split; [done|]; by apply zget_zset_eq|left].
  unfold zset. rewrite (proj2 (Z.ltb_ge j 0)) by done. rewrite list_insert_ge; [done|unfold zlen in Hl; lia].
Qed.
Lemma marked_user l id i : Z.land (zget 0 (zset l id (Z.lor (zget 0 l id) CT_FLAG_VISITED)) i) CT_FLAG_USER_MASK =
  Z.land (zget 0 l i) CT_FLAG_USER_MASK.
Proof.
  destruct (zset_cases l id i (Z.lor (zget 0 l id) CT_FLAG_VISITED)) as [-> | [-> ->]]; [done|].
  rewrite Z.land_lor_distr_l. change (Z.land CT_FLAG_VISITED CT_FLAG_USER_MASK) with 0. by rewrite Z.lor_0_r.
Qed.

(** The first visit is the root's: what its callback establishes is kept by the rest. *)
Lemma walk_keeps_inv_root {U} (w : CT_TreeWalker U) N (Inv : list Z -> U -> Prop) u root_id capacity level_limit id_limit :
  walk_keeps (get_children w) (apply_func w) N Inv -> N root_id -> 0 <= root_id < max_nodes w -> zlen (flags w) = max_nodes w ->
  (forall fl, zlen fl = max_nodes w -> (forall i, 0 <= i -> Z.land (zget 0 fl i) 0xF0 = Z.land (zget 0 (flags w) i) 0xF0) ->
    match apply_func w u root_id 0 fl with
    | Ret (CT_CONTINUE, u', fl') => Inv fl' u' | Ret _ => False | EXCEPTION _ => True | Endless => False end) ->
  0 <= level_limit -> 0 <= id_limit -> (id_limit + 1) * 257 < 2 ^ 32 - 1 ->
  match ct_walker_walk (Some w) u root_id (Some tt) capacity level_limit id_limit with
  | Ret (_, w', u') => walk_inv (get_children w) (apply_func w) (max_nodes w) Inv w' u' | EXCEPTION _ => True | Endless => False
  end.
Proof.
  intros Hk Hr Hrange Hlen Happ Hlv H0 Hlim. unfold ct_walker_walk. cbn [not_null].
  destruct (capacity =? 0) eqn:Ec; cbn [raise_if]; [done|]. destruct (max_nodes w <=? root_id) eqn:Er; cbn [raise_if]; [done|].
  destruct (max_nodes w <? id_limit); cbn [raise_if]; [done|]. unfold walk_iterative. rewrite Ec. cbn [raise_if].
  set (w0 := clear_engine_flags _). change (max_nodes w0) with (max_nodes w). rewrite Er. cbn [raise_if].
  change (max_node_id w0) with id_limit. destruct (id_limit <? root_id) eqn:El; cbn [raise_if]; [done|].
  unfold MAX_CHILDREN_BUFFER. rewrite (u32_id (id_limit + 1)) by (unfold fits; lia).
  rewrite (u32_id ((id_limit + 1) * _)) by (unfold fits; lia). set (mx := (id_limit + 1) * (256 + 1)).
  cbn [walk_loop stack]. rewrite u32_id by (unfold fits; lia). destruct (mx <? 0 + 1) eqn:Em; cbn [raise_if]; [done|].
  cbn [walker user]. unfold walk_step. change (stop_all w0) with false. change (max_nodes w0) with (max_nodes w).
  change (max_node_id w0) with id_limit. cbn [node_id child_index level]. rewrite Er, El. cbn [raise_if].
  assert (visited w0 root_id = false) as -> by by apply clear_unvisited.
  change (max_level (mark root_id w0)) with level_limit. rewrite (proj2 (Z.ltb_ge _ _)) by done.
  change (apply_func (mark root_id w0)) with (apply_func w). set (w1 := mark root_id w0).
  assert (zlen (flags w1) = max_nodes w) as Hl1.
  { rewrite <- Hlen, <- (cleared_len (max_nodes w) (flags w)). destruct w. cbn. unfold zlen. by rewrite zlen_zset. }
  assert (forall i, 0 <= i -> Z.land (zget 0 (flags w1) i) CT_FLAG_USER_MASK = Z.land (zget 0 (flags w) i) CT_FLAG_USER_MASK) as Hu.
  { intros i Hi. transitivity (Z.land (zget 0 (cleared (max_nodes w) (flags w)) i) CT_FLAG_USER_MASK); [|apply cleared_user]. subst w1 w0. destruct w as [mn fl gc ap ml mi st]. cbn [flags max_nodes].
    apply marked_user. }
  specialize (Happ (flags w1) Hl1 Hu). destruct (apply_func w u root_id 0 (flags w1)) as [[[ret u1] fl]| |]; cbn [cbind]; [|done..].
  destruct ret; try done. set (w2 := w1 <| flags := fl |>).
  assert (walk_inv (get_children w) (apply_func w) (max_nodes w) Inv w2 u1) as Hi by (subst w2 w1 w0; by destruct w).
  pose proof (walk_child_inv _ _ (max_nodes w) N Inv Hk capacity (mk_entry root_id 0 0) [] w2 u1 Hi (conj Hr (conj (Z.le_refl 0) (Z.le_refl 0))) ltac:(constructor)) as Hc.
  destruct (walk_child capacity _ [] w2 u1) as [[s'|[[rc w'] u']]| |]; cbn [cbind]; [|done..].
  apply Z.ltb_ge in Em. apply walk_loop_inv with (N := N); [done|lia|lia|lia|apply Hc..].
Qed.

(** ** Property *)

(** C4. When the children callback describes a tree with distinct ids in range, not
    deeper than the stack and with at most 256 children to a node, and the visiting
    callback, on user data of a kind it keeps, leaves the visited bits alone, the iterative walk returns - its own
    runaway count is never reached and no check raises - and its result, the calls of
    the callback in their order with their levels and flags, and what the callback did
    to the user data are those of the recursive depth-first traversal: skip-children
    and stop-branch leave a subtree out, stop-siblings also the rest of its siblings,
    stop-level makes the current level the deepest, stop-all ends the walk. *)
Theorem walker_refines_dfs {U} (P : U -> Prop) (t : tree) (w : CT_TreeWalker U) u capacity level_limit id_limit :
  keeps_visited P (apply_func w) (max_nodes w) -> P u -> tree_of (get_children w) (max_nodes w) id_limit t -> NoDup (ids t) ->
  zlen (flags w) = max_nodes w -> id_limit <= max_nodes w -> (id_limit + 1) * 257 < 2 ^ 32 ->
  depth t <= capacity < 2 ^ 31 ->
  ct_walker_walk (Some w) u (root t) (Some tt) capacity level_limit id_limit =
    dfs_walk t (clear_engine_flags
      (mk_walker (max_nodes w) (flags w) (get_children w) (apply_func w) level_limit id_limit false)) u.
Proof. exact (walk_is_dfs P t w u capacity level_limit id_limit). Qed.

Lemma walker_refines_dfs_witness :
  ct_walker_walk (Some ex_walker) [] 0 (Some tt) 3 0xFFFF 4 =
    dfs_walk ex_tree (clear_engine_flags (mk_walker 5 [0; 0x11; 1; 0; 0] ex_children ex_apply 0xFFFF 4 false)) [] /\
  exists w, dfs_walk ex_tree (clear_engine_flags (mk_walker 5 [0; 0x11; 1; 0; 0] ex_children ex_apply 0xFFFF 4 false)) [] =
    Ret (CT_CONTINUE, w, [(0, 0); (1, 1); (3, 2); (2, 1)]).
Proof.
  split; [|eexists; vm_compute; reflexivity].
  apply (walker_refines_dfs (fun _ => True) ex_tree ex_walker); try done; [|vm_decide]. by intros ? ? ? ? ? ? ? ? ? [= <- <- <-].
Defined.
