(* ===== verification/CflEngine.v ===== *)
(** The chain-tree engine ([engine/src/cfl_engine.c]): an event is executed by walking the
    node's subtree ([CtTreeWalker]) with a callback that initialises a node on its first visit,
    calls its main function and acts on the code that returns; a subtree is terminated by marking
    it in a nested walk and disabling the marked nodes from the last to the first.

    A [chaintree_handle] is the const image in flash; its counts are the lengths of its arrays. The
    function tables are lists of functions over the runtime handle, so that the theorems are about
    any node functions. [R] is the part of the handle the engine itself does not look at (queue,
    arenas, timers, the application's data). The members [cfl_runtime_create] allocates before
    anything runs are values, not pointers, and the NULL guards on them have no counterpart; the
    event, which there is none of before the first, is an option. The array behind [handle->flags]
    is also the walker's: a walk takes it from the handle and puts it back, around every callback. *)
From S2P Require Import Prelude CflBase CtTreeWalker CflEventQueue.
#[local] Open Scope cfl_scope.

(** Mark for termination, node initialised, node enabled. *)
Definition CT_FLAG_USER1 : Z := 0x20.
Definition CT_FLAG_USER2 : Z := 0x40.
Definition CT_FLAG_USER3 : Z := 0x80.
Definition LINK_COUNT_MASK : Z := 0x7FFF.
Definition AUTO_START_BIT : Z := 0x8000.
Definition NO_PARENT : Z := 0xFFFF.

Definition CFL_INIT_EVENT : Z := 0.
Definition CFL_TERMINATE_EVENT : Z := 1.

(** What a main function returns. *)
Definition CFL_CONTINUE : Z := 0.
Definition CFL_HALT : Z := 1.
Definition CFL_TERMINATE : Z := 2.
Definition CFL_RESET : Z := 3.
Definition CFL_DISABLE : Z := 4.
Definition CFL_SKIP_CONTINUE : Z := 5.
Definition CFL_TERMINATE_SYSTEM : Z := 6.

(** The members of a node and of a knowledge base the engine reads: [node_index] is the position
    in the array, the names and aliases are never used by it. *)
Record chaintree_node_t := mk_cnode {
  parent_index : Z; node_depth : Z; link_start : Z; link_count : Z; main_function_index : Z;
  init_function_index : Z; aux_function_index : Z; term_function_index : Z; node_data_id : Z
}.
Definition cnode0 : chaintree_node_t := mk_cnode NO_PARENT 0 0 0 0 0 0 0 0.

Record chaintree_kb_info_t := mk_kb {
  root_node_index : Z; start_index : Z; kb_nodes : Z; max_depth : Z; memory_factor : Z
}.
Definition kb0 : chaintree_kb_info_t := mk_kb 0 0 0 0 0.

(** What the walker keeps between walks; its functions are those of the walk at hand. *)
Record walker_regs := mk_regs { wr_max_nodes : Z; wr_max_level : Z; wr_max_node_id : Z; wr_stop_all : bool }.

Section Handle.
Context {R : Type}.

Record cfl_handle := mk_handle {
  h_flags : list Z; h_backup_flags : list Z; h_walker : walker_regs;
  event_data_ptr : option CFL_EVENT_DATA_T;
  cfl_engine_flag : bool; cfl_node_execution_count : Z; node_start_index : Z;
  kb_start_index : Z; kb_node_count : Z; kb_max_level : Z; current_kb_idx : Z; h_max_level : Z;
  rest : R
}.
#[export] Instance eta_handle : Settable cfl_handle := fun h =>
  mk_handle (h_flags h) (h_backup_flags h) (h_walker h) (event_data_ptr h) (cfl_engine_flag h)
    (cfl_node_execution_count h) (node_start_index h) (kb_start_index h) (kb_node_count h) (kb_max_level h)
    (current_kb_idx h) (h_max_level h) (rest h).

(** [data] is the pointer handed through. *)
Definition main_function_t : Type := cfl_handle -> Z -> Z -> Z -> Z -> Z -> cfl (Z * cfl_handle).
Definition one_shot_function_t : Type := cfl_handle -> Z -> cfl cfl_handle.
Definition boolean_function_t : Type := cfl_handle -> Z -> Z -> Z -> Z -> cfl (bool * cfl_handle).

Record chaintree_handle := mk_flash {
  nodes : list chaintree_node_t; link_table : list Z; kb_table : list chaintree_kb_info_t;
  main_functions : list main_function_t; one_shot_functions : list one_shot_function_t;
  boolean_functions : list boolean_function_t
}.
End Handle.
Arguments cfl_handle : clear implicits.
Arguments main_function_t : clear implicits.
Arguments one_shot_function_t : clear implicits.
Arguments boolean_function_t : clear implicits.
Arguments chaintree_handle : clear implicits.

(** [for (...) f(handle, i);] over a list of indices. *)
Fixpoint each {H} (f : H -> Z -> cfl H) (l : list Z) (h : H) : cfl H :=
  match l with [] => Ret h | i :: l => h <- f h i;; each f l h end.
(** [for (int i = hi; i >= lo; i--)]. *)
Definition down (hi lo : Z) : list Z := reverse (seqZ lo (hi - lo + 1)).

Section Engine.
Context {R : Type} (flash_handle : chaintree_handle R).

Definition node_count : Z := zlen (nodes flash_handle).
Definition kb_count : Z := zlen (kb_table flash_handle).
Definition link_table_size : Z := zlen (link_table flash_handle).
Definition node_at (i : Z) : chaintree_node_t := zget cnode0 (nodes flash_handle) i.
Definition links_of (i : Z) : Z := Z.land (link_count (node_at i)) LINK_COUNT_MASK.
Definition link_at (i : Z) : Z := zget 0 (link_table flash_handle) i.

(** ** Flags *)

Definition flag_of (h : cfl_handle R) (i : Z) : Z := zget 0 (h_flags h) i.
Definition set_flag (i v : Z) (h : cfl_handle R) : cfl_handle R := h <| h_flags ::= fun l => zset l i v |>.
Definition has (f bits : Z) : bool := nz (Z.land f bits).

Definition cfl_engine_node_is_enabled (h : cfl_handle R) (i : Z) : cfl bool :=
  raise? node_count <=? i with "cfl_engine_node_is_enabled: node_index out of bounds";
  Ret (has (flag_of h i) CT_FLAG_USER3).
Definition cfl_engine_node_is_initialized (h : cfl_handle R) (i : Z) : cfl bool :=
  raise? node_count <=? i with "cfl_engine_node_is_initialized: node_index out of bounds";
  Ret (has (flag_of h i) CT_FLAG_USER2 && has (flag_of h i) CT_FLAG_USER3).

Definition without_user (f : Z) : Z := Z.land f (u8 (Z.lnot CT_FLAG_USER_MASK)).
Definition cfl_disable_node_flag (h : cfl_handle R) (i : Z) : cfl (cfl_handle R) :=
  raise? node_count <=? i with "cfl_disable_node_flag: node_index out of bounds";
  Ret (set_flag i (without_user (flag_of h i)) h).
Definition cfl_enable_node (h : cfl_handle R) (i : Z) : cfl (cfl_handle R) :=
  raise? node_count <=? i with "cfl_enable_node: node_index out of bounds";
  Ret (set_flag i (Z.lor (without_user (flag_of h i)) CT_FLAG_USER3) h).
Definition cfl_set_node_initialization_flag (h : cfl_handle R) (i : Z) : cfl (cfl_handle R) :=
  raise? node_count <=? i with "cfl_set_node_initialization_flag: node_index out of bounds";
  Ret (set_flag i (Z.lor (flag_of h i) CT_FLAG_USER2) h).
Definition cfl_disable_all_node_flags (h : cfl_handle R) : cfl_handle R :=
  h <| h_flags ::= fun l => map without_user (take (Z.to_nat node_count) l) ++ drop (Z.to_nat node_count) l |>.
Definition cfl_reset_node_id (h : cfl_handle R) (i : Z) : cfl (cfl_handle R) := cfl_enable_node h i.

(** Aux first, then the termination one-shot, and only if the node ran. *)
Definition cfl_disable_node (h : cfl_handle R) (i : Z) : cfl (cfl_handle R) :=
  raise? node_count <=? i with "cfl_disable_node: node_index out of bounds";
  let both := Z.lor CT_FLAG_USER3 CT_FLAG_USER2 in
  if negb (Z.land (flag_of h i) both =? both) then cfl_disable_node_flag h i
  else
    let node := node_at i in
    h <- (if aux_function_index node =? 0 then Ret h
          else
            let? aux := boolean_functions flash_handle !! Z.to_nat (aux_function_index node)
              or "cfl_disable_node: aux_function_index out of bounds" in
            r <- aux h i CFL_EVENT_TYPE_NULL CFL_TERMINATE_EVENT 0;; Ret r.2);;
    h <- (if term_function_index node =? 0 then Ret h
          else
            let? term := one_shot_functions flash_handle !! Z.to_nat (term_function_index node)
              or "cfl_disable_node: term_function_index out of bounds" in
            term h i);;
    cfl_disable_node_flag h i.

(** ** The walks *)

(** The loop over a node's links, [n] of them copied. *)
Fixpoint copy_links (links : list Z) (n : Z) : cfl (list Z) :=
  match links with
  | [] => Ret []
  | link_id :: links =>
      raise? MAX_CHILDREN_BUFFER <=? n with "cfl_get_forward_enabled_links: max_links exceeded";
      raise? node_count <=? link_id with "cfl_get_forward_enabled_links: link_id out of bounds";
      out <- copy_links links (n + 1);; Ret (link_id :: out)
  end.
Definition cfl_get_forward_enabled_links (_ : cfl_handle R) (i : Z) : cfl (list Z) :=
  raise? node_count <=? i with "cfl_get_forward_enabled_links: node_id out of bounds";
  let start := link_start (node_at i) in
  let count := links_of i in
  raise? (0 <? count) && (link_table_size <=? start)
    with "cfl_get_forward_enabled_links: link_start out of bounds";
  raise? (0 <? count) && (link_table_size <? start + count)
    with "cfl_get_forward_enabled_links: link range exceeds table size";
  copy_links (map (fun k => link_at (start + k)) (seqZ 0 count)) 0.

(** A callback of the walker that works on the handle: it sees the shared flags there. *)
Definition on_handle (f : cfl_handle R -> Z -> cfl (CT_ReturnCode * cfl_handle R)) : CT_ApplyFunc (cfl_handle R) :=
  fun h i _ fl => r <- f (h <| h_flags := fl |>) i;; Ret (r.1, r.2, h_flags r.2).
Definition walker_of (f : cfl_handle R -> Z -> cfl (CT_ReturnCode * cfl_handle R)) (h : cfl_handle R)
    : CT_TreeWalker (cfl_handle R) :=
  let w := h_walker h in
  mk_walker (wr_max_nodes w) (h_flags h) cfl_get_forward_enabled_links (on_handle f) (wr_max_level w)
    (wr_max_node_id w) (wr_stop_all w).
Definition put_walker (w : CT_TreeWalker (cfl_handle R)) (h : cfl_handle R) : cfl_handle R :=
  h <| h_flags := flags w |> <| h_walker := mk_regs (max_nodes w) (max_level w) (max_node_id w) (stop_all w) |>.

(** [ct_walker_walk(handle->walker, handle, root, stack, handle->max_level,
    handle->walker->max_level, node_count)], the registers it sets seen by the callbacks. *)
Definition engine_walk (f : cfl_handle R -> Z -> cfl (CT_ReturnCode * cfl_handle R)) (h : cfl_handle R) (root : Z)
    : cfl (cfl_handle R) :=
  let regs := mk_regs (wr_max_nodes (h_walker h)) (wr_max_level (h_walker h)) node_count false in
  r <- ct_walker_walk (Some (walker_of f h)) (h <| h_walker := regs |>) root (Some tt) (h_max_level h)
         (wr_max_level (h_walker h)) node_count;;
  Ret (put_walker r.1.2 r.2).

(** [ct_walker_save_context], [ct_walker_update_functions], the walk on the second stack, and
    [ct_walker_restore_context]: what the callback left in the backup becomes the flags. *)
Definition nested_walk (f : cfl_handle R -> Z -> cfl (CT_ReturnCode * cfl_handle R)) (h : cfl_handle R) (root : Z)
    : cfl (cfl_handle R) :=
  ctx <- ct_walker_save_context (Some (walker_of f h)) (Some tt) (Some (h_backup_flags h));;
  let h := match saved_flags ctx with Some fl => h <| h_backup_flags := fl |> | None => h end in
  h <- engine_walk f h root;;
  w <- ct_walker_restore_context (Some (walker_of f h))
         (Some (mk_context (Some (h_backup_flags h)) (saved_stop_all ctx) (saved_max_level ctx)
                  (saved_max_node_id ctx) (saved_apply_func ctx)));;
  Ret (put_walker w h).

(** ** Termination *)

Definition cfl_mark_node_for_termination (h : cfl_handle R) (i : Z) : cfl (CT_ReturnCode * cfl_handle R) :=
  raise? node_count <=? i with "cfl_mark_node_for_termination: node_index out of bounds";
  Ret (CT_CONTINUE,
       if has (flag_of h i) CT_FLAG_USER3
       then h <| h_backup_flags ::= fun l => zset l i (Z.lor (zget 0 l i) CT_FLAG_USER1) |> else h).

Definition disable_marked (h : cfl_handle R) (i : Z) : cfl (cfl_handle R) :=
  if has (flag_of h i) CT_FLAG_USER1
  then cfl_disable_node (set_flag i (Z.land (flag_of h i) (u8 (Z.lnot CT_FLAG_USER1))) h) i
  else Ret h.

Definition cfl_terminate_node_tree (h : cfl_handle R) (node_id : Z) : cfl (cfl_handle R) :=
  raise? node_count <=? node_id with "cfl_terminate_node_tree: node_id out of bounds";
  if negb (has (flag_of h node_id) CT_FLAG_USER2) then Ret h
  else if links_of node_id =? 0 then cfl_disable_node h node_id
  else
    h <- nested_walk cfl_mark_node_for_termination h node_id;;
    if kb_node_count h =? 0 then Ret h
    else
      raise? u32 (-1 - kb_node_count h) <? kb_start_index h
        with "cfl_terminate_node_tree: kb range calculation overflow";
      let end_index := u32 (kb_start_index h + kb_node_count h - 1) in
      raise? node_count <=? end_index with "cfl_terminate_node_tree: end_index out of bounds";
      raise? node_id <? kb_start_index h with "cfl_terminate_node_tree: node_id below kb_start_index";
      each disable_marked (down end_index node_id) h.

Definition cfl_terminate_all_nodes_in_kb (h : cfl_handle R) (start_node count : Z) : cfl (cfl_handle R) :=
  each cfl_disable_node (down (s32 (start_node + count - 1)) start_node) h.

(** ** Execution *)

(** First visit: init one-shot, aux with [CFL_INIT_EVENT], then the flag. *)
Definition initialize_node (init : one_shot_function_t R) (aux : boolean_function_t R) (h : cfl_handle R) (i : Z)
    : cfl (cfl_handle R) :=
  let node := node_at i in
  h <- (if init_function_index node =? 0 then Ret h else init h i);;
  h <- (if aux_function_index node =? 0 then Ret h
        else r <- aux h i CFL_EVENT_TYPE_NULL CFL_INIT_EVENT 0;; Ret r.2);;
  cfl_set_node_initialization_flag h i.

(** The [switch] on what the main function of node [i] returned. *)
Definition act_on (code : Z) (h : cfl_handle R) (i : Z) : cfl (CT_ReturnCode * cfl_handle R) :=
  let parent := parent_index (node_at i) in
  if code =? CFL_CONTINUE then Ret (CT_CONTINUE, h)
  else if code =? CFL_HALT then Ret (CT_STOP_SIBLINGS, h)
  else if code =? CFL_RESET then
    h <- cfl_terminate_node_tree h parent;; h <- cfl_reset_node_id h parent;; Ret (CT_CONTINUE, h)
  else if code =? CFL_DISABLE then h <- cfl_terminate_node_tree h i;; Ret (CT_SKIP_CHILDREN, h)
  else if code =? CFL_SKIP_CONTINUE then Ret (CT_SKIP_CHILDREN, h)
  else if code =? CFL_TERMINATE then
    if negb (parent =? NO_PARENT) then h <- cfl_terminate_node_tree h parent;; Ret (CT_SKIP_CHILDREN, h)
    else h <- cfl_disable_node h i;; Ret (CT_STOP_ALL, h)
  else if code =? CFL_TERMINATE_SYSTEM then
    h <- cfl_terminate_node_tree (h <| cfl_engine_flag := false |>) (node_start_index h);; Ret (CT_STOP_ALL, h)
  else EXCEPTION "cfl_execute_node: invalid return code".

Definition cfl_execute_node (h : cfl_handle R) (i : Z) : cfl (CT_ReturnCode * cfl_handle R) :=
  raise? node_count <=? i with "cfl_execute_node: node_id out of bounds";
  let node := node_at i in
  let? main_function := main_functions flash_handle !! Z.to_nat (main_function_index node)
    or "cfl_execute_node: main_function_index out of bounds" in
  let? one_shot_function := one_shot_functions flash_handle !! Z.to_nat (init_function_index node)
    or "cfl_execute_node: init_function_index out of bounds" in
  let? boolean_function := boolean_functions flash_handle !! Z.to_nat (aux_function_index node)
    or "cfl_execute_node: aux_function_index out of bounds" in
  enabled <- cfl_engine_node_is_enabled h i;;
  if negb enabled then Ret (CT_SKIP_CHILDREN, h)
  else
    let h := h <| cfl_node_execution_count ::= fun n => u32 (n + 1) |> in
    initialized <- cfl_engine_node_is_initialized h i;;
    h <- (if negb initialized then initialize_node one_shot_function boolean_function h i else Ret h);;
    let? event := event_data_ptr h or "cfl_execute_node: event_data_ptr is NULL" in
    r <- main_function h (aux_function_index node) i (event_type event) (event_id event) (ev_data event);;
    act_on r.1 (r.2 <| cfl_engine_flag := true |>) i.

Definition cfl_execute_event (h : cfl_handle R) : cfl (bool * cfl_handle R) :=
  let? event := event_data_ptr h or "cfl_execute_event: event_data_ptr is NULL" in
  let node_index := ev_node_id event in
  raise? node_index <? kb_start_index h with "cfl_execute_event: node_id out of bounds too low";
  raise? (0 <? kb_node_count h) && (u32 (-1 - kb_node_count h) <? kb_start_index h)
    with "cfl_execute_event: kb range calculation overflow";
  raise? u32 (kb_start_index h + kb_node_count h) <=? node_index
    with "cfl_execute_event: node_id out of bounds too high";
  raise? node_count <=? node_index with "cfl_execute_event: node_id out of bounds";
  enabled <- cfl_engine_node_is_enabled h node_index;;
  if negb enabled then Ret (false, h)
  else
    let h := h <| cfl_engine_flag := true |> <| cfl_node_execution_count := 0 |>
               <| node_start_index := node_index |> in
    h <- engine_walk cfl_execute_node h node_index;;
    let h := if (cfl_node_execution_count h =? 0) || negb (cfl_engine_flag h)
             then h <| cfl_engine_flag := false |> else h in
    Ret (cfl_engine_flag h, h).

(** ** Life cycle *)

Definition cfl_engine_create (h : cfl_handle R) : cfl (cfl_handle R) :=
  w <- ct_walker_init (Some tt) node_count (Some (h_flags h)) (Some cfl_get_forward_enabled_links)
         (Some (on_handle cfl_execute_node));;
  Ret (put_walker w h).
Definition cfl_engine_init (h : cfl_handle R) : cfl (cfl_handle R) := Ret (cfl_disable_all_node_flags h).
Definition cfl_engine_init_test (h : cfl_handle R) (start_node count : Z) : cfl (cfl_handle R) :=
  raise? node_count <=? start_node with "cfl_engine_init_test: start_node out of bounds";
  raise? (0 <? count) && (u32 (node_count - count) <? start_node)
    with "cfl_engine_init_test: range exceeds node_count";
  h <- each cfl_disable_node_flag (seqZ start_node count) h;;
  cfl_enable_node h start_node.
End Engine.

(** Compute the fields of an updated handle, innermost update first. *)
Ltac hsimpl :=
  cbv beta iota delta [field_map eta_handle put_walker set_flag h_flags h_backup_flags h_walker event_data_ptr cfl_engine_flag
    cfl_node_execution_count node_start_index kb_start_index kb_node_count kb_max_level current_kb_idx
    h_max_level rest wr_max_nodes wr_max_level wr_max_node_id wr_stop_all
    max_nodes flags max_level max_node_id stop_all].
