(* ===== verification/CflTerminate.v ===== *)
(** Terminating a subtree ([cfl_terminate_node_tree] of [CflEngine]): what the nested marking walk
    does, for any links; and, over a tree of nodes, just which nodes are torn down and in which
    order. *)
From S2P Require Import Prelude CflBase CtTreeWalker CflEventQueue CflEngine.
#[local] Open Scope cfl_scope.

(** ** What the marking walk leaves *)

Section Spec.
Context {R : Type} (flash : chaintree_handle R).

(** The arrays [cfl_runtime_create] allocates have an element for every node, and the walker
    was set up for that many; node numbers have 16 bits. *)
Definition wired (h : cfl_handle R) : Prop :=
  (wr_max_nodes (h_walker h) = node_count flash /\ 0 <= wr_max_level (h_walker h)) /\ zlen (h_backup_flags h) = node_count flash /\
  node_count flash < 2 ^ 16.
Definition sized (h : cfl_handle R) : Prop := wired h /\ zlen (h_flags h) = node_count flash.

(** Only termination marks were added. *)
Definition marks (h h' : cfl_handle R) : Prop :=
  (exists fl, h' = h <| h_flags := fl |> <| h_backup_flags := fl |>) /\
  zlen (h_flags h') = zlen (h_flags h) /\
  forall i, flag_of h' i = flag_of h i \/ flag_of h' i = Z.lor (flag_of h i) CT_FLAG_USER1.

(** What the callback of a marking walk keeps, over flags [fl0]. *)
Definition mark_inv (h0 : cfl_handle R) (fl0 fl : list Z) (u : cfl_handle R) : Prop :=
  zlen fl = node_count flash /\ zlen (h_backup_flags u) = node_count flash /\
  (exists a b, u = h0 <| h_flags := a |> <| h_backup_flags := b |>) /\
  forall i, zget 0 (h_backup_flags u) i = zget 0 fl0 i \/ zget 0 (h_backup_flags u) i = Z.lor (zget 0 fl0 i) CT_FLAG_USER1.

(** The backup after the enabled nodes among [l] were marked. *)
Definition marked (en : Z -> bool) (l : list Z) (bk : list Z) : list Z :=
  imap (fun k f => if bool_decide (Z.of_nat k ∈ l) && en (Z.of_nat k) then Z.lor f CT_FLAG_USER1 else f) bk.
Definition enabled_in (w : CT_TreeWalker (cfl_handle R)) (i : Z) : bool := has (zget 0 (flags w) i) CT_FLAG_USER3.
(** From [w], [u] the nodes [l] were visited by a marking walk. *)
Definition mark_visits (l : list Z) (w : CT_TreeWalker (cfl_handle R)) (u : cfl_handle R)
    (w' : CT_TreeWalker (cfl_handle R)) (u' : cfl_handle R) : Prop :=
  (apply_func w' = apply_func w /\ max_level w' = max_level w /\ max_nodes w' = max_nodes w) /\
  zlen (flags w') = zlen (flags w) /\ (forall i, enabled_in w' i = enabled_in w i) /\
  exists a, u' = u <| h_flags := a |> <| h_backup_flags := marked (enabled_in w) l (h_backup_flags u) |>.

(** Node functions that do not use the engine: they work on the rest of the handle. *)
Definition lift_boolean (g : R -> Z -> Z -> Z -> Z -> bool * R) : boolean_function_t R := fun h i ty ev data =>
  let r := g (rest h) i ty ev data in Ret (r.1, h <| rest := r.2 |>).
Definition lift_one_shot (g : R -> Z -> R) : one_shot_function_t R := fun h i => Ret (h <| rest := g (rest h) i |>).

Definition lift_main (g : R -> Z -> Z -> Z -> Z -> Z -> Z * R) : main_function_t R := fun h a i ty ev data =>
  let r := g (rest h) a i ty ev data in Ret (r.1, h <| rest := r.2 |>).

(** The image holds this tree: its nodes' links are their children, in order. *)
Fixpoint tree_in (t : tree) : Prop :=
  let 'Node i kids := t in
  0 <= i < node_count flash /\ zlen kids <= MAX_CHILDREN_BUFFER /\ links_of flash i = zlen kids /\
  (0 < zlen kids -> 0 <= link_start (node_at flash i) /\
                    link_start (node_at flash i) + zlen kids <= link_table_size flash) /\
  map (fun k => link_at flash (link_start (node_at flash i) + k)) (seqZ 0 (zlen kids)) = map root kids /\
  foldr (fun t P => tree_in t /\ P) True kids.

Definition running (h : cfl_handle R) (i : Z) : bool :=
  has (flag_of h i) CT_FLAG_USER2 && has (flag_of h i) CT_FLAG_USER3.
Definition enabled (h : cfl_handle R) (i : Z) : bool := has (flag_of h i) CT_FLAG_USER3.

Context (bs : list (R -> Z -> Z -> Z -> Z -> bool * R)) (os : list (R -> Z -> R)).

(** The calls that end a node: aux with [CFL_TERMINATE_EVENT], then the termination one-shot. *)
Definition end_node (i : Z) (x : R) : R :=
  let node := node_at flash i in
  let x := if aux_function_index node =? 0 then x
           else match bs !! Z.to_nat (aux_function_index node) with
                | Some g => (g x i CFL_EVENT_TYPE_NULL CFL_TERMINATE_EVENT 0).2 | None => x end in
  if term_function_index node =? 0 then x
  else match os !! Z.to_nat (term_function_index node) with Some g => g x i | None => x end.
Definition end_nodes (l : list Z) (x : R) : R := fold_left (fun x i => end_node i x) l x.

(** The flags after the nodes of [l] have been disabled. *)
Definition disabled_flags (P : Z -> bool) (fl : list Z) : list Z :=
  imap (fun i f => if P (Z.of_nat i) then without_user f else f) fl.
(** A node's function numbers are in the tables. *)
Definition functions_ok (i : Z) : Prop :=
  (aux_function_index (node_at flash i) = 0 \/ is_Some (bs !! Z.to_nat (aux_function_index (node_at flash i)))) /\
  (term_function_index (node_at flash i) = 0 \/ is_Some (os !! Z.to_nat (term_function_index (node_at flash i)))).
End Spec.

(** A knowledge base of five nodes; the aux and one-shot functions list the calls, by node and
    event or function number. Node 2 was enabled and never visited, node 3 is disabled. *)
Definition call_log : Type := list (Z * Z).
Definition ex_bs : list (call_log -> Z -> Z -> Z -> Z -> bool * call_log) :=
  [fun x _ _ _ _ => (false, x); fun x i _ ev _ => (false, x ++ [(i, ev)])].
Definition ex_os : list (call_log -> Z -> call_log) :=
  [fun x _ => x; fun x i => x ++ [(i, 101)]; fun x i => x ++ [(i, 102)]].
Definition ex_nodes : list chaintree_node_t :=
  [mk_cnode NO_PARENT 0 0 2 0 1 1 2 0; mk_cnode 0 1 2 2 0 1 1 2 0; mk_cnode 1 2 0 0 0 1 1 2 0;
   mk_cnode 1 2 0 0 0 1 1 2 0; mk_cnode 0 1 0 AUTO_START_BIT 0 1 0 2 0].
Definition ex_kb_tree : tree := Node 0 [Node 1 [Node 2 []; Node 3 []]; Node 4 []].
Definition ex_flash (mains : list (main_function_t call_log)) : chaintree_handle call_log :=
  mk_flash ex_nodes [1; 4; 2; 3] [mk_kb 0 0 5 2 64] mains (map lift_one_shot ex_os) (map lift_boolean ex_bs).
Definition ex_handle : cfl_handle call_log :=
  mk_handle [0xC1; 0xC1; 0x80; 0; 0xC0] [0; 0; 0; 0; 0] (mk_regs 5 0xFFFF 4 false) None false 0 0 0 5 3 0 3 [].

(** ** Lemmas *)

Lemma land_lor_r a b c : Z.land (Z.lor a b) c = Z.lor (Z.land a c) (Z.land b c).
Proof. apply Z.land_lor_distr_l. Qed.
Lemma has_lor f a b : Z.land a b = 0 -> has (Z.lor f a) b = has f b.
Proof. intros H. unfold has. by rewrite land_lor_r, H, Z.lor_0_r. Qed.
Lemma has_land f a b : Z.land a b = b -> has (Z.land f a) b = has f b.
Proof. intros H. unfold has. by rewrite <- Z.land_assoc, H. Qed.

Lemma land_pow2 f k : 0 <= k -> Z.land f (2 ^ k) = if Z.testbit f k then 2 ^ k else 0.
Proof.
  intros Hk. apply Z.bits_inj'. intros n Hn. rewrite Z.land_spec, Z.pow2_bits_eqb by done.
  destruct (Z.eqb_spec k n) as [-> | Hne].
  - rewrite andb_true_r. destruct (Z.testbit f n); [by rewrite Z.pow2_bits_true|by rewrite Z.bits_0].
  - rewrite andb_false_r. destruct (Z.testbit f k); [by rewrite Z.pow2_bits_false|by rewrite Z.bits_0].
Qed.
Lemma both_flags f : has f CT_FLAG_USER2 && has f CT_FLAG_USER3 =
  (Z.land f (Z.lor CT_FLAG_USER3 CT_FLAG_USER2) =? Z.lor CT_FLAG_USER3 CT_FLAG_USER2).
Proof.
  unfold has. rewrite Z.land_lor_distr_r. change CT_FLAG_USER2 with (2 ^ 6). change CT_FLAG_USER3 with (2 ^ 7).
  rewrite !land_pow2 by done. by destruct (Z.testbit f 6), (Z.testbit f 7).
Qed.

Lemma has_mark f : has (Z.lor f CT_FLAG_USER1) CT_FLAG_USER1 = true.
Proof.
  unfold has. rewrite land_lor_r. change CT_FLAG_USER1 with (2 ^ 5). rewrite land_pow2 by done. by destruct (Z.testbit f 5).
Qed.

Section Facts.
Context {R : Type} (flash : chaintree_handle R).

Lemma flag_set_eq (h : cfl_handle R) i v : 0 <= i < zlen (h_flags h) -> flag_of (set_flag i v h) i = v.
Proof. intros Hi. destruct h. by apply zget_zset_eq. Qed.
Lemma flag_set_ne (h : cfl_handle R) i j v : 0 <= j -> i <> j -> flag_of (set_flag i v h) j = flag_of h j.
Proof. intros Hj Hne. destruct h. apply zget_zset_ne; [done|congruence]. Qed.
Lemma set_flag_len (h : cfl_handle R) i v : zlen (h_flags (set_flag i v h)) = zlen (h_flags h).
Proof. destruct h. cbn. unfold zlen. by rewrite zlen_zset. Qed.
Lemma flag_neg (h : cfl_handle R) i : i < 0 -> flag_of h i = 0.
Proof. intros Hi. unfold flag_of, zget. by rewrite (proj2 (Z.ltb_lt _ _)). Qed.

Lemma copy_links_ok l n : Forall (fun i => i < node_count flash) l -> n + zlen l <= MAX_CHILDREN_BUFFER ->
  copy_links flash l n = Ret l.
Proof.
  revert n. induction l as [|i l IH]; intros n Hl Hn; [done|]. apply Forall_cons in Hl as [Hi Hl]. cbn [copy_links].
  unfold zlen in Hn. cbn [length] in Hn. rewrite (proj2 (Z.leb_gt _ _)), (proj2 (Z.leb_gt _ _)) by lia. cbn [raise_if].
  rewrite IH; [done|done|unfold zlen; lia].
Qed.
Lemma copy_links_ends l : forall n, copy_links flash l n <> Endless.
Proof.
  induction l as [|i l IH]; intros n; [done|]. cbn [copy_links]. do 2 (destruct (_ <=? _); cbn [raise_if]; [done|]).
  specialize (IH (n + 1)). by destruct (copy_links flash l (n + 1)).
Qed.
Lemma links_ends h i : cfl_get_forward_enabled_links flash h i <> Endless.
Proof.
  unfold cfl_get_forward_enabled_links. do 3 (destruct (_ : bool); cbn [raise_if]; [done|]). apply copy_links_ends.
Qed.

Lemma trees_in_roots kids : foldr (fun t P => tree_in flash t /\ P) True kids ->
  Forall (fun i => i < node_count flash) (map root kids).
Proof.
  induction kids as [|t kids IH]; cbn; [by constructor|]. intros [Ht Hk]. constructor; [|by apply IH].
  destruct t. apply Ht.
Qed.
Lemma tree_in_tree_of t : tree_in flash t -> tree_of (cfl_get_forward_enabled_links flash) (node_count flash) (node_count flash) t.
Proof.
  induction t as [i kids IH] using tree_ind_list. cbn [tree_in tree_of]. intros (Hi & Hlen & Hl & Hr & Hm & Hk).
  split; [lia|]. split; [done|]. split.
  - intros u. unfold cfl_get_forward_enabled_links. rewrite (proj2 (Z.leb_gt _ _)) by lia. cbn [raise_if].
    rewrite Hl, Hm. destruct (Z.ltb_spec 0 (zlen kids)) as [Hp|Hp]; cbn [andb raise_if].
    + destruct (Hr Hp). rewrite (proj2 (Z.leb_gt _ _)), (proj2 (Z.ltb_ge _ _)) by lia. cbn [raise_if].
      apply copy_links_ok; [by apply trees_in_roots|]. unfold zlen in *. rewrite length_map. lia.
    + apply copy_links_ok; [by apply trees_in_roots|]. unfold zlen in *. rewrite length_map. lia.
  - clear -IH Hk. induction IH as [|t ts Ht _ IHts]; cbn in *; [done|]. destruct Hk as [H1 H2].
    split; [by apply Ht|by apply IHts].
Qed.

Lemma mark_walk_keeps (h0 : cfl_handle R) fl0 :
  walk_keeps (cfl_get_forward_enabled_links flash) (on_handle (cfl_mark_node_for_termination flash)) (fun _ => True)
    (mark_inv flash h0 fl0).
Proof.
  constructor.
  - intros n fl u [Hl Hi]. split; [by rewrite cleared_len|done].
  - intros fl u id _ [Hl Hi]. split; [unfold zlen in *; by rewrite zlen_zset|done].
  - intros fl u id lvl _ (Hl & Hb & (a & b & ->) & Hm). unfold on_handle, cfl_mark_node_for_termination.
    destruct (_ <=? id); cbn [raise_if cbind]; [done|].     destruct (has _ _); cbn [fst snd].
    + destruct h0. unfold mark_inv. usimpl. split; [done|]. split; [unfold zlen in *; by rewrite zlen_zset|]. split; [by eexists _, _|].
      intros i. destruct (zset_cases b id i (Z.lor (zget 0 b id) CT_FLAG_USER1)) as [-> | [-> ->]]; [done|].
      right. destruct (Hm i) as [-> | ->]; [done|]. by rewrite <- Z.lor_assoc.
    + destruct h0. unfold mark_inv. usimpl. split; [done|]. split; [done|]. split; [by eexists _, _|done].
  - intros u id _. pose proof (links_ends u id) as Hne.
    destruct (cfl_get_forward_enabled_links flash u id) as [l| |]; [|done|done]. apply Forall_true. done.
Qed.

(** The nested walk takes its flags from the backup. *)
Lemma nested_of_walk (h : cfl_handle R) i (K : list Z -> Prop) : sized flash h ->
  (forall h1 u0 w, u0 = h1 <| h_walker := mk_regs (wr_max_nodes (h_walker h1)) (wr_max_level (h_walker h1)) (node_count flash) false |> ->
    w = walker_of flash (cfl_mark_node_for_termination flash) h1 -> h1 = h <| h_backup_flags := h_flags h |> ->
    mark_inv flash u0 (h_flags h) (h_flags h) u0 ->
    match ct_walker_walk (Some w) u0 i (Some tt) (h_max_level h1) (wr_max_level (h_walker h1)) (node_count flash) with
    | Ret (_, w', u') => walk_inv (get_children w) (apply_func w) (max_nodes w)
        (fun fl u => mark_inv flash u0 (h_flags h) fl u /\ K (h_backup_flags u)) w' u'
    | EXCEPTION _ => True | Endless => False end) ->
  match nested_walk flash (cfl_mark_node_for_termination flash) h i with
  | Ret h' => (marks h h' /\ sized flash h') /\ K (h_flags h') | EXCEPTION _ => True | Endless => False end.
Proof.
  intros (((Hn & Hlw) & Hb & Hsz) & Hf) Hwalk. unfold nested_walk, ct_walker_save_context. cbn [not_null cbind saved_flags].
  set (bk := take _ _ ++ _). assert (bk = h_flags h) as Ebk.
  { subst bk. cbn [walker_of max_nodes flags]. rewrite Hn. rewrite take_ge, drop_ge; [by rewrite app_nil_r|unfold zlen in *; lia..]. }
  clearbody bk. subst bk. set (h1 := h <| h_backup_flags := _ |>). unfold engine_walk.
  set (u0 := h1 <| h_walker := _ |>). set (w := walker_of _ _ h1).
  specialize (Hwalk h1 u0 w eq_refl eq_refl eq_refl).
  destruct h as [fl bk [wn wl wi ws] ev ef ec ns ks kc km ck ml r]. cbn in Hn, Hb, Hf.
  specialize (Hwalk ltac:(split; [done|split; [done|split; [by eexists _, _|by left]]])).
  destruct (ct_walker_walk _ _ _ _ _ _ _) as [[[rc w'] u']| |]; cbn [cbind]; [|done..].
  destruct Hwalk as ((_ & En & _) & _ & (Hl & Hbl & (a & b & ->) & Hm) & HK). cbn in Hbl, Hm, HK. cbn.
  rewrite En. change (max_nodes w) with wn.
  rewrite take_ge, drop_ge, app_nil_r by (unfold zlen in *; lia). subst u0 h1. unfold marks, sized, wired, flag_of. hsimpl.
  split; [|done]. split; [|done]. split; [by exists b|]. split; [congruence|done].
Qed.

(** The marking walk, whatever the links: it ends, and adds marks at most. *)
Lemma nested_mark (h : cfl_handle R) i : sized flash h ->
  ensures (nested_walk flash (cfl_mark_node_for_termination flash) h i) (fun h' => marks h h' /\ sized flash h').
Proof.
  intros Hs. apply (ensures_weaken _ (fun h' => (marks h h' /\ sized flash h') /\ True)); [|by intros h' [? _]].
  apply (nested_of_walk h i (fun _ => True) Hs).
  intros h1 u0 w _ -> Eh Hi. assert (0 <= node_count flash < 2 ^ 16) as H0 by (split; [unfold node_count, zlen; lia|apply Hs]).
  pose proof (walk_keeps_inv (walker_of flash (cfl_mark_node_for_termination flash) h1) (fun _ => True) (mark_inv flash u0 (h_flags h)) u0 i
    (h_max_level h1) (wr_max_level (h_walker h1)) (node_count flash) (mark_walk_keeps u0 (h_flags h)) I) as Hw.
  assert (flags (walker_of flash (cfl_mark_node_for_termination flash) h1) = h_flags h) as Ef by (rewrite Eh; by destruct h).
  rewrite Ef in Hw. assert (0 <= wr_max_level (h_walker h1)) as Hlw by (rewrite Eh; destruct Hs as [((_ & Hlw) & _) _]; by destruct h).
  specialize (Hw Hi Hlw (proj1 H0) ltac:(lia)).
  destruct (ct_walker_walk _ _ _ _ _ _ _) as [[[rc w'] u']| |]; [|done..]. destruct Hw as (A & B & C).
  split; [exact A|]. split; [exact B|]. by split.
Qed.

(** The root of a marking walk is marked if it is enabled. *)
Lemma nested_mark_root (h : cfl_handle R) i : sized flash h -> 0 <= i < node_count flash -> enabled h i = true ->
  ensures (nested_walk flash (cfl_mark_node_for_termination flash) h i) (fun h' => (marks h h' /\ sized flash h') /\
    has (flag_of h' i) CT_FLAG_USER1 = true).
Proof.
  intros Hs Hr Hen. assert (0 <= wr_max_level (h_walker h)) as Hlv by apply Hs. apply (nested_of_walk h i (fun bk => has (zget 0 bk i) CT_FLAG_USER1 = true) Hs).
  intros h1 u0 w Eu -> Eh Hi. assert (0 <= node_count flash < 2 ^ 16) as H0 by (split; [lia|apply Hs]).
  apply walk_keeps_inv_root with (N := fun _ => True); try done.
  - pose proof (mark_walk_keeps u0 (h_flags h)) as [K1 K2 K3 K4]. constructor;
      [intros n fl u [Hm Hk]; split; [by apply K1|done]|intros fl u id Hid [Hm Hk]; split; [by apply K2|done]| |done].
    intros fl u id lvl _ [Hm Hk]. specialize (K3 fl u id lvl I Hm). cbn [apply_func walker_of] in *.
    unfold on_handle, cfl_mark_node_for_termination in *. destruct (_ <=? id); cbn [raise_if cbind fst snd] in *; [done|].
    split; [done|]. clear K3. destruct (has (flag_of _ _) _); [|by destruct u].
    destruct u as [fl' bk w ev ef ec ns ks kc km ck ml r]. hsimpl. cbn in Hk.
    destruct (zset_cases bk id i (Z.lor (zget 0 bk id) CT_FLAG_USER1)) as [-> | [-> ->]]; [done|apply has_mark].
  - rewrite Eh. destruct Hs as [((Hn & _) & _) _]. destruct h. cbn in *. by rewrite Hn.
  - rewrite Eh. destruct Hs as [((Hn & _) & _) Hf]. destruct h. cbn in *. congruence.
  - intros fl Hl Hu. destruct (mark_walk_keeps u0 (h_flags h)) as [_ _ K3 _].
    assert (mark_inv flash u0 (h_flags h) fl u0) as Hi'.
    { destruct Hi as (_ & Hi). split; [|exact Hi]. rewrite Hl, Eh. destruct Hs as [((Hn & _) & _) _]. by destruct h. }
    specialize (K3 fl u0 i 0 I Hi'). cbn [apply_func walker_of] in *. unfold on_handle, cfl_mark_node_for_termination in *.
    rewrite (proj2 (Z.leb_gt _ _)) in * by lia. cbn [raise_if cbind fst snd] in *.
    assert (has (flag_of (u0 <| h_flags := fl |>) i) CT_FLAG_USER3 = true) as E3.
    { rewrite <- Hen. unfold enabled. assert (forall f, has f CT_FLAG_USER3 = has (Z.land f CT_FLAG_USER_MASK) CT_FLAG_USER3) as Hm
        by (intros f; by rewrite has_land).
      rewrite (Hm (flag_of h i)), Hm. f_equal. specialize (Hu i (proj1 Hr)). rewrite Eh in Hu. by destruct u0, h. }
    rewrite E3 in *. split; [exact K3|]. destruct Hi as (_ & Hbl & _). destruct u0 as [fl' bk w ev ef ec ns ks kc km ck ml r]. hsimpl.
    cbn in Hbl. rewrite zget_zset_eq by lia. apply has_mark.
  - rewrite Eh. by destruct h.
  - lia.
  - lia.
Qed.

(** ** Disabling *)

Section Lifted.
Context (bs : list (R -> Z -> Z -> Z -> Z -> bool * R)) (os : list (R -> Z -> R)).
Context (Hbs : boolean_functions flash = map lift_boolean bs) (Hos : one_shot_functions flash = map lift_one_shot os).

Lemma disable_running h i : sized flash h -> 0 <= i < node_count flash -> functions_ok flash bs os i ->
  running h i = true ->
  cfl_disable_node flash h i = Ret (set_flag i (without_user (flag_of h i)) (h <| rest ::= end_node flash bs os i |>)).
Proof using Hbs Hos.
  intros Hs Hi [Ha Ht] Hr. unfold cfl_disable_node. rewrite (proj2 (Z.leb_gt _ _)) by lia. cbn [raise_if].
  unfold running in Hr. rewrite both_flags in Hr. rewrite Hr. cbn [negb].
  rewrite Hbs, Hos, !list_lookup_fmap. unfold end_node.
  destruct h as [fl bk w ev ef ec ns ks kc km ck ml r].
  unfold lift_boolean, lift_one_shot, cfl_disable_node_flag.
  destruct (Z.eqb_spec (aux_function_index (node_at flash i)) 0) as [Ea|Ea],
    (Z.eqb_spec (term_function_index (node_at flash i)) 0) as [Et|Et];
    try (destruct Ha as [? | [ga Ega]]; [done|rewrite Ega]); try (destruct Ht as [? | [gt Egt]]; [done|rewrite Egt]);
    cbn [not_null fmap option_fmap option_map cbind fst snd]; rewrite (proj2 (Z.leb_gt _ _)) by lia; cbn [raise_if];
    unfold flag_of; hsimpl; done.
Qed.

Lemma unmark_without_user f : without_user (Z.land f (u8 (Z.lnot CT_FLAG_USER1))) = without_user f.
Proof. unfold without_user. by rewrite <- Z.land_assoc. Qed.
Lemma running_unmark (h : cfl_handle R) i : 0 <= i < zlen (h_flags h) ->
  running (set_flag i (Z.land (flag_of h i) (u8 (Z.lnot CT_FLAG_USER1))) h) i = running h i.
Proof. intros Hi. unfold running. rewrite flag_set_eq by done. by rewrite !has_land. Qed.
Lemma set_flag_twice i v w (h : cfl_handle R) : set_flag i v (set_flag i w h) = set_flag i v h.
Proof.
  destruct h as [fl bk w' ev ef ec ns ks kc km ck ml r]. hsimpl. f_equal. unfold zset.
  destruct (i <? 0); [done|]. by rewrite list_insert_insert_eq.
Qed.

Lemma disable_marked_node h i : sized flash h -> 0 <= i < node_count flash -> functions_ok flash bs os i ->
  has (flag_of h i) CT_FLAG_USER1 = true ->
  disable_marked flash h i = Ret (set_flag i (without_user (flag_of h i))
    (h <| rest ::= fun x => if running h i then end_node flash bs os i x else x |>)).
Proof using Hbs Hos.
  intros Hs Hi Hf Hm. unfold disable_marked. rewrite Hm. pose proof Hs as [Hw Hl].
  set (v := Z.land (flag_of h i) _). pose proof (running_unmark h i) as Hr. fold v in Hr. rewrite Hl in Hr. specialize (Hr Hi).
  assert (flag_of (set_flag i v h) i = v) as Efl by (apply flag_set_eq; lia).
  destruct (running h i) eqn:Er.
  - rewrite disable_running; [|split; [by destruct h|by rewrite set_flag_len]|done|done|done].
    rewrite Efl. subst v. rewrite unmark_without_user.
    transitivity (Ret (A := cfl_handle R) (set_flag i (without_user (flag_of h i))
      (set_flag i (Z.land (flag_of h i) (u8 (Z.lnot CT_FLAG_USER1))) (h <| rest ::= end_node flash bs os i |>)))); [|by rewrite set_flag_twice].
    by destruct h.
  - unfold cfl_disable_node, cfl_disable_node_flag. rewrite (proj2 (Z.leb_gt _ _)) by lia. cbn [raise_if].
    rewrite <- both_flags. unfold running in Hr. rewrite Hr. cbn [negb]. rewrite Efl. subst v.
    rewrite unmark_without_user, set_flag_twice. by destruct h.
Qed.

Lemma disabled_flags_cons i l fl fl' : 0 <= i -> i ∉ l ->
  fl' = (if has (zget 0 fl i) CT_FLAG_USER1 then zset fl i (without_user (zget 0 fl i)) else fl) ->
  disabled_flags (fun j => bool_decide (j ∈ i :: l) && has (zget 0 fl j) CT_FLAG_USER1) fl =
  disabled_flags (fun j => bool_decide (j ∈ l) && has (zget 0 fl' j) CT_FLAG_USER1) fl'.
Proof.
  intros Hi Hn Hfl'. unfold disabled_flags. apply list_eq. intros k. rewrite !list_lookup_imap.
  destruct (decide (k = Z.to_nat i)) as [-> | Hk].
  - rewrite Z2Nat.id by done. rewrite bool_decide_eq_true_2 by apply list_elem_of_here. rewrite bool_decide_eq_false_2 by done.
    cbn [andb]. destruct (fl !! Z.to_nat i) as [f|] eqn:Ef.
    + assert (zget 0 fl i = f) as Eg by by apply zget_lookup. cbn [fmap option_fmap option_map]. rewrite Eg in Hfl' |- *. subst fl'. destruct (has f CT_FLAG_USER1).
      * unfold zset. rewrite (proj2 (Z.ltb_ge _ _)) by done. rewrite list_lookup_insert_eq by (by eapply lookup_lt_Some).
        done.
      * by rewrite Ef.
    + assert (fl' !! Z.to_nat i = None) as ->; [|done]. subst fl'. destruct (has _ _); [|done].
      apply lookup_ge_None. rewrite zlen_zset. by apply lookup_ge_None.
  - assert (fl' !! k = fl !! k) as ->.
    { subst fl'. destruct (has _ _); [|done]. unfold zset. rewrite (proj2 (Z.ltb_ge _ _)) by done. by apply list_lookup_insert_ne. }
    assert (zget 0 fl' (Z.of_nat k) = zget 0 fl (Z.of_nat k)) as ->.
    { subst fl'. destruct (has _ _); [|done]. apply zget_zset_ne; lia. }
    assert (bool_decide (Z.of_nat k ∈ i :: l) = bool_decide (Z.of_nat k ∈ l)) as ->; [|done].
    apply bool_decide_ext. rewrite elem_of_cons. split; [intros [E|?]; [lia|done]|by right].
Qed.

Lemma filter_ext_in (f g : Z -> bool) (l : list Z) : (forall j, j ∈ l -> f j = g j) -> filter f l = filter g l.
Proof.
  induction l as [|i l IH]; intros H; [done|]. rewrite !filter_cons, (H i) by apply list_elem_of_here.
  rewrite IH; [done|]. intros j Hj. apply H. by apply list_elem_of_further.
Qed.

(** The loop over [l] disables the marked nodes of [l], those that ran with their calls. *)
Lemma disable_marked_each l : forall h, sized flash h -> NoDup l -> Forall (fun i => 0 <= i < node_count flash) l ->
  Forall (fun i => has (flag_of h i) CT_FLAG_USER1 = true -> functions_ok flash bs os i) l ->
  each (disable_marked flash) l h = Ret (h
    <| h_flags := disabled_flags (fun j => bool_decide (j ∈ l) && has (flag_of h j) CT_FLAG_USER1) (h_flags h) |>
    <| rest ::= end_nodes flash bs os (filter (fun j => has (flag_of h j) CT_FLAG_USER1 && running h j) l) |>).
Proof using Hbs Hos.
  induction l as [|i l IH]; intros h Hs Hnd Hr Hf.
  { cbn [each]. destruct h as [fl bk w ev ef ec ns ks kc km ck ml r]. hsimpl. f_equal. f_equal. unfold disabled_flags.
    symmetry. rewrite <- (list_fmap_id fl) at 2. rewrite <- (imap_const id). apply imap_ext. intros j f _.
    by rewrite bool_decide_eq_false_2 by apply not_elem_of_nil. }
  apply NoDup_cons in Hnd as [Hni Hnd]. apply Forall_cons in Hr as [Hi Hr]. apply Forall_cons in Hf as [Hfi Hf].
  cbn [each]. set (h1 := if has (flag_of h i) CT_FLAG_USER1 then set_flag i (without_user (flag_of h i))
    (h <| rest ::= fun x => if running h i then end_node flash bs os i x else x |>) else h).
  assert (disable_marked flash h i = Ret h1) as ->.
  { subst h1. destruct (has (flag_of h i) CT_FLAG_USER1) eqn:Em; [by apply disable_marked_node; auto|].
    unfold disable_marked. by rewrite Em. }
  cbn [cbind]. assert (forall j, j ∈ l -> flag_of h1 j = flag_of h j) as Hsame.
  { intros j Hj. subst h1. destruct (has _ _); [|done].
    rewrite flag_set_ne; [by destruct h|by apply (proj1 (Forall_forall _ l) Hr)|by intros ->]. }
  assert (sized flash h1) as Hs1.
  { subst h1. destruct (has _ _); [|done]. destruct Hs as [Hw Hl]. split; [by destruct h|]. rewrite set_flag_len. by destruct h. }
  rewrite IH; [|done|done|done|].
  - rewrite (filter_ext_in (fun j => has (flag_of h1 j) CT_FLAG_USER1 && running h1 j)
      (fun j => has (flag_of h j) CT_FLAG_USER1 && running h j)) by (intros j Hj; unfold running; by rewrite Hsame).
    pose proof (disabled_flags_cons i l (h_flags h) (h_flags h1) (proj1 Hi) Hni) as Hd.
    change (fun j => bool_decide (j ∈ i :: l) && has (flag_of h j) CT_FLAG_USER1) with
      (fun j => bool_decide (j ∈ i :: l) && has (zget 0 (h_flags h) j) CT_FLAG_USER1).
    rewrite Hd; [|subst h1; unfold flag_of; by destruct (has _ _); destruct h]. clear Hd.
    change (fun j => bool_decide (j ∈ l) && has (flag_of h1 j) CT_FLAG_USER1) with
      (fun j => bool_decide (j ∈ l) && has (zget 0 (h_flags h1) j) CT_FLAG_USER1).
    rewrite filter_cons. generalize (disabled_flags (fun j => bool_decide (j ∈ l) && has (zget 0 (h_flags h1) j) CT_FLAG_USER1) (h_flags h1)).
    intros fl1. generalize (filter (fun j => has (flag_of h j) CT_FLAG_USER1 && running h j) l). intros l1.
    clear -h1. subst h1. destruct (has (flag_of h i) CT_FLAG_USER1); cbn [andb]; [|by destruct h].
    destruct (running h i) eqn:Er; by destruct h.
  - rewrite Forall_forall in Hf |- *. intros j Hj. rewrite Hsame by done. by apply Hf.
Qed.
End Lifted.

(** ** The marking walk over a tree *)

Lemma marked_len en l bk : zlen (marked en l bk) = zlen bk.
Proof. unfold marked, zlen. by rewrite length_imap. Qed.
Lemma marked_get en l fl j : 0 <= j < zlen fl ->
  zget 0 (marked en l fl) j = if bool_decide (j ∈ l) && en j then Z.lor (zget 0 fl j) CT_FLAG_USER1 else zget 0 fl j.
Proof.
  intros Hj. destruct (lookup_lt_is_Some_2 fl (Z.to_nat j)) as [f Ef]; [unfold zlen in Hj; lia|].
  rewrite (zget_lookup 0 f fl j) by (done || lia). apply zget_lookup; [lia|]. unfold marked.
  rewrite list_lookup_imap, Ef. cbn. by rewrite Z2Nat.id by lia.
Qed.
Lemma marked_ext en en' l bk : (forall i, en i = en' i) -> marked en l bk = marked en' l bk.
Proof. intros H. unfold marked. apply imap_ext. intros k f _. by rewrite H. Qed.
Lemma marked_app en l1 l2 bk : marked en (l1 ++ l2) bk = marked en l2 (marked en l1 bk).
Proof.
  unfold marked. apply list_eq. intros k. rewrite !list_lookup_imap. destruct (bk !! k) as [f|]; [|done]. cbn. f_equal.
  destruct (en (Z.of_nat k)); [|by rewrite !andb_false_r]. rewrite !andb_true_r.
  destruct (bool_decide_reflect (Z.of_nat k ∈ l1)) as [H1|H1], (bool_decide_reflect (Z.of_nat k ∈ l2)) as [H2|H2];
    (first [rewrite bool_decide_eq_true_2 by (rewrite elem_of_app; tauto)
           |rewrite bool_decide_eq_false_2 by (rewrite elem_of_app; tauto)]); try done.
  by rewrite <- Z.lor_assoc.
Qed.
Lemma marked_nil en bk : marked en [] bk = bk.
Proof. unfold marked. apply list_eq. intros k. rewrite list_lookup_imap. by destruct (bk !! k). Qed.
Lemma marked_one en i bk : 0 <= i -> marked en [i] bk = if en i then zset bk i (Z.lor (zget 0 bk i) CT_FLAG_USER1) else bk.
Proof.
  intros Hi. unfold marked. apply list_eq. intros k. rewrite list_lookup_imap. destruct (decide (k = Z.to_nat i)) as [-> | Hk].
  - rewrite Z2Nat.id by done. rewrite bool_decide_eq_true_2 by apply list_elem_of_here. cbn [andb].
    destruct (bk !! Z.to_nat i) as [f|] eqn:Ef; cbn.
    + destruct (en i); [|done]. unfold zset. rewrite (proj2 (Z.ltb_ge _ _)) by done.
      rewrite list_lookup_insert_eq by (by eapply lookup_lt_Some). by rewrite (zget_lookup _ f).
    + destruct (en i); [|done]. symmetry. apply lookup_ge_None. rewrite zlen_zset. by apply lookup_ge_None.
  - rewrite bool_decide_eq_false_2 by (rewrite list_elem_of_singleton; lia). cbn [andb].
    transitivity (bk !! k); [by destruct (bk !! k)|]. destruct (en i); [|done].
    unfold zset. rewrite (proj2 (Z.ltb_ge _ _)) by done. by rewrite list_lookup_insert_ne.
Qed.

Lemma mark_visits_trans l1 l2 w1 (u1 : cfl_handle R) w2 u2 w3 u3 : mark_visits l1 w1 u1 w2 u2 -> mark_visits l2 w2 u2 w3 u3 ->
  mark_visits (l1 ++ l2) w1 u1 w3 u3.
Proof.
  intros ((Ea & Em & En) & El & Een & a & ->) ((Fa & Fm & Fn) & Fl & Fen & b & ->). split; [split_and!; congruence|]. split; [congruence|].
  split; [congruence|]. exists b. rewrite marked_app. rewrite (marked_ext (enabled_in w2) (enabled_in w1)) by done.
  by destruct u1.
Qed.

Lemma mark_visit (w : CT_TreeWalker (cfl_handle R)) u i lvl : 0 <= i < node_count flash ->
  apply_func w = on_handle (cfl_mark_node_for_termination flash) ->
  exists u' fl, apply_func (mark i w) u i lvl (flags (mark i w)) = Ret (CT_CONTINUE, u', fl) /\
    mark_visits [i] w u (mark i w <| flags := fl |>) u'.
Proof.
  intros Hi Ha. set (w1 := mark i w). change (apply_func w1) with (apply_func w). rewrite Ha.
  assert (forall j, enabled_in w1 j = enabled_in w j) as Hen.
  { intros j. subst w1. destruct w as [mn fl gc ap ml mi st]. unfold enabled_in. usimpl.
    destruct (zset_cases fl i j (Z.lor (zget 0 fl i) CT_FLAG_VISITED)) as [-> | [-> ->]]; [done|]. by apply has_lor. }
  unfold on_handle, cfl_mark_node_for_termination. rewrite (proj2 (Z.leb_gt _ _)) by lia. cbn [raise_if cbind fst snd].
  set (u1 := u <| h_flags := flags w1 |>). eexists _, _. split; [done|].
  assert (has (flag_of u1 i) CT_FLAG_USER3 = enabled_in w i) as -> by by rewrite <- Hen; destruct u.
  assert (zlen (flags w1) = zlen (flags w)) as Hl by (destruct w; cbn; unfold zlen; by rewrite zlen_zset).
  destruct (enabled_in w i) eqn:Ee.
  - split; [by destruct w|]. split; [|split].
    + destruct u. done.
    + intros j. by rewrite <- Hen; destruct u, w.
    + exists (flags w1). rewrite marked_one, Ee by lia. by destruct u.
  - split; [by destruct w|]. split; [|split].
    + by destruct u.
    + intros j. by rewrite <- Hen; destruct u, w.
    + exists (flags w1). rewrite marked_one, Ee by lia. by destruct u.
Qed.

Lemma dfs_marks t : forall lvl w u, tree_in flash t -> apply_func w = on_handle (cfl_mark_node_for_termination flash) ->
  lvl + depth t - 1 <= max_level w ->
  exists w' u', dfs lvl t (w, u) = Ret (Next, (w', u')) /\ mark_visits (ids t) w u w' u'.
Proof.
  induction t as [i kids IH] using tree_ind_list. intros lvl w u Ht Ha Hm. rewrite dfs_node. cbn [fst snd]. cbv zeta.
  cbn [depth ids tree_in] in *. destruct Ht as (Hi & _ & _ & _ & _ & Hk).
  assert (0 <= foldr (fun t m => Z.max (depth t) m) 0 kids) as Hd0 by (clear; induction kids; cbn; lia).
  change (max_level (mark i w)) with (max_level w). rewrite (proj2 (Z.ltb_ge _ _)) by lia.
  destruct (mark_visit w u i lvl Hi Ha) as (u1 & fl & -> & Hv). cbn [cbind].
  set (w1 := mark i w <| flags := fl |>) in *. clearbody w1. change (i :: concat (map ids kids)) with ([i] ++ concat (map ids kids)).
  assert (exists w' u', dfs_seq (dfs (lvl + 1)) kids (w1, u1) = Ret (Next, (w', u')) /\
    mark_visits (concat (map ids kids)) w1 u1 w' u') as (w' & u' & -> & Hv2); [|by eexists _, _; split; [|eapply mark_visits_trans]].
  destruct Hv as ((Ea & Em & _) & _). rewrite Ha in Ea. rewrite <- Em in Hm. clear Ha Em Hd0 w u Hi. revert w1 u1 Ea Hm.
  induction IH as [|t ts Ht _ IHts]; intros w1 u1 Ea Hm; cbn [dfs_seq map concat foldr] in *.
  - eexists _, _. split; [done|]. split; [done|]. split; [done|]. split; [done|]. exists (h_flags u1).
    rewrite marked_nil. by destruct u1.
  - destruct Hk as [Hk1 Hk2]. destruct (Ht (lvl + 1) w1 u1 Hk1 Ea) as (w2 & u2 & -> & Hv1); [lia|]. cbn [cbind].
    pose proof Hv1 as ((Ea2 & Em2 & _) & _). rewrite Ea in Ea2.
    destruct (IHts Hk2 w2 u2 Ea2) as (w3 & u3 & -> & Hv2); [lia|].
    eexists _, _. split; [done|]. by eapply mark_visits_trans.
Qed.
End Facts.

(** ** Property *)

Section Tree.
Context {R : Type} (flash : chaintree_handle R).

Lemma clear_keeps_enabled (w : CT_TreeWalker (cfl_handle R)) i : enabled_in (clear_engine_flags w) i = enabled_in w i.
Proof.
  assert (forall f, has f CT_FLAG_USER3 = has (Z.land f CT_FLAG_USER_MASK) CT_FLAG_USER3) as Hu by (intros f; by rewrite has_land).
  unfold enabled_in. rewrite Hu, (Hu (zget 0 (flags w) i)). f_equal. apply cleared_user.
Qed.

Lemma mark_keeps_visited n : keeps_visited (fun _ => True) (on_handle (cfl_mark_node_for_termination flash)) n.
Proof.
  intros u id lvl fl ret u' fl' _ _ H. unfold on_handle, cfl_mark_node_for_termination in H. cfl_inv.
  destruct (_ <=? id); cbn in *; [done|]. simplify_eq. split; [done|].
  by destruct (has _ _); destruct u.
Qed.

Lemma nested_mark_tree (h : cfl_handle R) t : sized flash h -> tree_in flash t -> NoDup (ids t) ->
  depth t <= h_max_level h < 2 ^ 31 -> depth t <= wr_max_level (h_walker h) + 1 ->
  let fl := marked (enabled h) (ids t) (h_flags h) in
  nested_walk flash (cfl_mark_node_for_termination flash) h (root t) = Ret (h <| h_flags := fl |> <| h_backup_flags := fl |>).
Proof.
  intros (((Hn & Hlw) & Hb & Hsz) & Hf) Ht Hnd Hd Hl fl. unfold nested_walk, ct_walker_save_context. cbn [not_null cbind saved_flags].
  set (bk := take _ _ ++ _). assert (bk = h_flags h) as Ebk.
  { subst bk. cbn [walker_of max_nodes flags]. rewrite Hn. rewrite take_ge, drop_ge; [by rewrite app_nil_r|unfold zlen in *; lia..]. }
  clearbody bk. subst bk. set (h1 := h <| h_backup_flags := _ |>). unfold engine_walk.
  set (u0 := h1 <| h_walker := _ |>). set (w := walker_of _ _ h1).
  assert (max_nodes w = node_count flash) as Ew by by destruct h.
  rewrite (walk_is_dfs (fun _ => True)); [|by apply mark_keeps_visited|done|rewrite Ew; by apply tree_in_tree_of|done| | | |];
    [|destruct h; rewrite Ew; exact Hf|by rewrite Ew|lia|by destruct h].
  unfold dfs_walk. set (w0 := clear_engine_flags _).
  assert (0 + depth t - 1 <= max_level w0) as Hlv by (destruct h; cbn in *; lia).
  destruct (dfs_marks flash t 0 w0 u0 Ht eq_refl Hlv) as (w' & u' & -> & (_ & _ & Emn) & Hfl & _ & a & ->).
  assert (forall i, enabled_in w0 i = enabled h i) as Hen by (intros i; subst w0; rewrite clear_keeps_enabled; by destruct h).
  rewrite (marked_ext _ _ _ _ Hen). assert (zlen (flags w') = node_count flash) as Hwl.
  { rewrite Hfl. subst w0. rewrite clear_keeps_length. by destruct h. }
  assert (max_nodes w' = node_count flash) as Hmn by (rewrite Emn; exact Ew).
  assert (zlen fl = node_count flash) as Hfll by (subst fl; by rewrite marked_len).
  assert (marked (enabled h) (ids t) (h_backup_flags u0) = fl) as -> by by destruct h.
  clearbody fl. clear -Hwl Hmn Hfll Hn. cbn [cbind fst snd]. unfold ct_walker_restore_context. cbn [not_null saved_flags cbind].
  destruct w' as [mn wfl gc ap ml' mi st]. cbn in Hwl, Hmn. destruct h as [fl0 bk [wn wl wi ws] ev ef ec ns ks kc km ck ml r].
  subst u0 h1. cbn in Hn. unfold walker_of. hsimpl.
  rewrite take_ge, drop_ge, app_nil_r by (unfold zlen in *; lia). by rewrite Hmn, Hn.
Qed.

(** The flags after marking the enabled nodes of [l] and disabling the marked ones of [rng]. *)
Lemma disabled_marked (h : cfl_handle R) (l rng : list Z) : (forall i, i ∈ l -> i ∈ rng) ->
  (forall i, i ∈ rng -> has (flag_of h i) CT_FLAG_USER1 = false) ->
  let fl := marked (enabled h) l (h_flags h) in
  disabled_flags (fun j => bool_decide (j ∈ rng) && has (zget 0 fl j) CT_FLAG_USER1) fl =
  disabled_flags (fun j => bool_decide (j ∈ l) && enabled h j) (h_flags h) /\
  forall j, j ∈ rng -> 0 <= j < zlen (h_flags h) ->
    has (zget 0 fl j) CT_FLAG_USER1 = bool_decide (j ∈ l) && enabled h j /\
    has (zget 0 fl j) CT_FLAG_USER2 = has (flag_of h j) CT_FLAG_USER2 /\
    has (zget 0 fl j) CT_FLAG_USER3 = has (flag_of h j) CT_FLAG_USER3.
Proof.
  intros Hin Hno fl.
  assert (forall j, j ∈ rng -> 0 <= j < zlen (h_flags h) ->
    has (zget 0 fl j) CT_FLAG_USER1 = bool_decide (j ∈ l) && enabled h j) as H1.
  { intros j Hj Hr. subst fl. rewrite marked_get by done. destruct (bool_decide (j ∈ l) && enabled h j); [|by apply Hno].
    apply has_mark. }
  split.
  - unfold disabled_flags. apply list_eq. intros k. rewrite !list_lookup_imap. subst fl.
    destruct (lt_dec k (length (h_flags h))) as [Hk|Hk].
    2: { rewrite !(proj2 (lookup_ge_None _ _)); [done|lia|]. unfold marked. rewrite length_imap. lia. }
    destruct (lookup_lt_is_Some_2 (h_flags h) k Hk) as [f Ef]. rewrite Ef. unfold marked at 2. rewrite list_lookup_imap, Ef. cbn.
    f_equal. assert (0 <= Z.of_nat k < zlen (h_flags h)) as Hr by (unfold zlen; lia).
    destruct (decide (Z.of_nat k ∈ rng)) as [Hj|Hj].
    + rewrite (bool_decide_eq_true_2 _ Hj), (H1 _ Hj Hr). cbn [andb]. destruct (bool_decide (Z.of_nat k ∈ l) && enabled h (Z.of_nat k)); [|done].
      unfold without_user. rewrite land_lor_r. by rewrite Z.lor_0_r.
    + assert (Z.of_nat k ∉ l) as Hl by (intros Hl; by apply Hj, Hin).
      by rewrite !bool_decide_eq_false_2.
  - intros j Hj Hr. split; [by apply H1|]. subst fl. rewrite marked_get by done.
    destruct (bool_decide (j ∈ l) && enabled h j); [|done]. by rewrite !has_lor.
Qed.
Lemma disabled_ext (P Q : Z -> bool) fl : (forall j, P j = Q j) -> disabled_flags P fl = disabled_flags Q fl.
Proof. intros H. unfold disabled_flags. apply imap_ext. intros k f _. by rewrite H. Qed.
Lemma elem_of_down i hi lo : i ∈ down hi lo <-> lo <= i <= hi.
Proof. unfold down. rewrite elem_of_reverse, elem_of_seqZ. lia. Qed.
Lemma disabled_one (h : cfl_handle R) i (P : Z -> bool) : 0 <= i ->
  disabled_flags (fun j => bool_decide (j ∈ [i]) && P j) (h_flags h) =
  if P i then zset (h_flags h) i (without_user (flag_of h i)) else h_flags h.
Proof.
  intros Hi. unfold disabled_flags, flag_of. generalize (h_flags h). intros fl. apply list_eq. intros k. rewrite list_lookup_imap.
  destruct (decide (k = Z.to_nat i)) as [-> | Hk].
  - rewrite Z2Nat.id by done. rewrite bool_decide_eq_true_2 by apply list_elem_of_here. cbn [andb].
    destruct (P i); [|by destruct (fl !! Z.to_nat i)]. unfold zset. rewrite (proj2 (Z.ltb_ge _ _)) by done.
    destruct (fl !! Z.to_nat i) as [f|] eqn:Ef; cbn.
    + rewrite list_lookup_insert_eq by (by eapply lookup_lt_Some). by rewrite (zget_lookup _ f).
    + symmetry. apply lookup_ge_None. rewrite length_insert. by apply lookup_ge_None.
  - rewrite bool_decide_eq_false_2 by (rewrite list_elem_of_singleton; lia). cbn [andb].
    transitivity (fl !! k); [by destruct (fl !! k)|]. destruct (P i); [|done].
    unfold zset. rewrite (proj2 (Z.ltb_ge _ _)) by done. by rewrite list_lookup_insert_ne.
Qed.
Lemma filter_no_marked (P : Z -> bool) (l : list Z) : (forall j, j ∈ l -> P j = false) -> filter P l = [].
Proof.
  induction l as [|i l IH]; intros H; [done|]. rewrite filter_cons, (H i) by apply list_elem_of_here.
  apply IH. intros j Hj. apply H. by apply list_elem_of_further.
Qed.
Lemma down_last hi lo : lo <= hi -> down hi lo = down hi (lo + 1) ++ [lo].
Proof.
  intros H. unfold down. replace (hi - lo + 1) with (Z.succ (hi - (lo + 1) + 1)) by lia.
  rewrite seqZ_cons by lia. rewrite reverse_cons. do 3 f_equal; lia.
Qed.
Lemma filter_down_last hi lo (P : Z -> bool) : lo <= hi ->
  filter (fun j => bool_decide (j ∈ [lo]) && P j) (down hi lo) = if P lo then [lo] else [].
Proof.
  intros H. rewrite down_last, filter_app by done. rewrite filter_no_marked.
  2: { intros j Hj. apply elem_of_down in Hj. rewrite bool_decide_eq_false_2; [done|]. rewrite list_elem_of_singleton. lia. }
  cbn [app]. rewrite filter_cons, bool_decide_eq_true_2 by apply list_elem_of_here. by destruct (P lo).
Qed.
Lemma nodup_down hi lo : NoDup (down hi lo).
Proof. unfold down. rewrite reverse_Permutation. apply NoDup_seqZ. Qed.
End Tree.

(** A node enabled but not yet visited is left enabled: the early return is for nodes never
    initialised, enabled or not. *)
Lemma terminate_spares_unvisited {R} (flash : chaintree_handle R) h i : i < node_count flash ->
  has (flag_of h i) CT_FLAG_USER2 = false -> cfl_terminate_node_tree flash h i = Ret h.
Proof.
  intros Hi Hu. unfold cfl_terminate_node_tree. rewrite (proj2 (Z.leb_gt _ _)) by done. cbn [raise_if]. by rewrite Hu.
Qed.
(** [CFL_TERMINATE] from a root is handled; [CFL_RESET] is not. *)
Lemma reset_of_root_raises {R} (flash : chaintree_handle R) h i : node_count flash < 2 ^ 16 ->
  parent_index (node_at flash i) = NO_PARENT ->
  act_on flash CFL_RESET h i = EXCEPTION "cfl_terminate_node_tree: node_id out of bounds".
Proof.
  intros Hn Hp. unfold act_on. rewrite Hp. cbv zeta. change (CFL_RESET =? CFL_CONTINUE) with false.
  change (CFL_RESET =? CFL_HALT) with false. change (CFL_RESET =? CFL_RESET) with true. cbn match.
  unfold cfl_terminate_node_tree. by rewrite (proj2 (Z.leb_le _ _)) by (unfold NO_PARENT; lia).
Qed.


