(* ===== verification/CflExecute.v ===== *)
(** Executing an event ([cfl_execute_event] of [CflEngine]) as a recursive interpreter of the
    tree of nodes: no stack, no counter of turns, the return codes of the main functions deciding
    how the recursion goes on. *)
From S2P Require Import Prelude CflBase CtTreeWalker CflEventQueue CflEngine CflTerminate.
#[local] Open Scope cfl_scope.

Section Spec.
Context {R : Type} (flash : chaintree_handle R).

Definition visit (i : Z) (h : cfl_handle R) : cfl_handle R := set_flag i (Z.lor (flag_of h i) CT_FLAG_VISITED) h.

(** A node is marked visited and executed; then its children are interpreted in order, left
    out, or the rest of its siblings with them. *)
Fixpoint interpret (t : tree) (h : cfl_handle R) : cfl (signal * cfl_handle R) :=
  let 'Node i kids := t in
  r <- cfl_execute_node flash (visit i h) i;;
  match r.1 with
  | CT_CONTINUE => dfs_seq interpret kids r.2
  | CT_SKIP_CHILDREN | CT_STOP_BRANCH | CT_STOP_LEVEL => Ret (Next, r.2)
  | CT_STOP_SIBLINGS => Ret (StopSiblings, r.2)
  | CT_STOP_ALL => Ret (StopAll, r.2)
  end.

Definition walk_regs (h : cfl_handle R) (stopped : bool) : walker_regs :=
  mk_regs (node_count flash) (wr_max_level (h_walker h)) (node_count flash) stopped.
Definition start_event (i : Z) (h : cfl_handle R) : cfl_handle R :=
  let h := h <| cfl_engine_flag := true |> <| cfl_node_execution_count := 0 |> <| node_start_index := i |> in
  h <| h_walker := walk_regs h false |> <| h_flags ::= cleared (node_count flash) |>.
Definition finish_event (r : signal * cfl_handle R) : bool * cfl_handle R :=
  let h := r.2 <| h_walker := walk_regs r.2 (match r.1 with StopAll => true | _ => false end) |> in
  let h := if (cfl_node_execution_count h =? 0) || negb (cfl_engine_flag h) then h <| cfl_engine_flag := false |> else h in
  (cfl_engine_flag h, h).

(** What a node function may not touch: the walker, its visited bits and the size of the
    arrays. *)
Definition tame (h h' : cfl_handle R) : Prop :=
  h_walker h' = h_walker h /\ zlen (h_flags h') = zlen (h_flags h) /\
  zlen (h_backup_flags h') = zlen (h_backup_flags h) /\
  forall i, Z.land (flag_of h' i) CT_FLAG_VISITED = Z.land (flag_of h i) CT_FLAG_VISITED.
Record functions_tame : Prop := {
  mains_tame : Forall (fun f => forall h a i ty ev data r, sized flash h -> f h a i ty ev data = Ret r -> tame h r.2)
    (main_functions flash);
  one_shots_tame : Forall (fun f => forall h i r, sized flash h -> f h i = Ret r -> tame h r) (one_shot_functions flash);
  booleans_tame : Forall (fun f => forall h i ty ev data r, sized flash h -> f h i ty ev data = Ret r -> tame h r.2)
    (boolean_functions flash)
}.
End Spec.

Ltac split_if H := match type of H with (if ?b then _ else _) = _ => destruct b eqn:? end.

(** The example's main function lists its calls; node 1 halts the walk of its siblings. *)
Definition ex_main (x : call_log) (a i ty ev data : Z) : Z * call_log :=
  (if i =? 1 then CFL_HALT else CFL_CONTINUE, x ++ [(i, 200 + ev)]).
Definition ex_event (node ev : Z) : CFL_EVENT_DATA_T := mk_event node CFL_EVENT_TYPE_NULL 0 ev 0 0.
Definition ex_ready : cfl_handle call_log :=
  mk_handle [0x80; 0xC0; 0x80; 0x80; 0xC0] [0; 0; 0; 0; 0] (mk_regs 5 0xFFFF 4 false) (Some (ex_event 0 4)) false 0 0 0 5 3 0 3 [].

Section Tame.
Context {R : Type} (flash : chaintree_handle R) (Hfn : functions_tame flash).

#[local] Abbreviation tame := (@tame R).
#[export] Instance tame_po : PreOrder tame.
Proof.
  split; [intros h; by split_and!|]. intros a b c (A1 & A2 & A3 & A4) (B1 & B2 & B3 & B4). split_and!; congruence.
Qed.
Lemma tame_sized h h' : sized flash h -> tame h h' -> sized flash h'.
Proof using Type. intros (((A & A') & B & C) & D) (E & F & G & _). split; [|congruence]. rewrite <- E in A, A'. split; [done|]. split; [congruence|done]. Qed.

Lemma set_flag_tame (h : cfl_handle R) i v : Z.land v CT_FLAG_VISITED = Z.land (flag_of h i) CT_FLAG_VISITED -> tame h (set_flag i v h).
Proof using Type.
  intros Hv. destruct h as [fl bk w ev ef ec ns ks kc km ck ml r]. split; [done|]. split; [by rewrite set_flag_len|]. split; [done|].
  intros j. unfold flag_of, set_flag in *. hsimpl. destruct (zset_cases fl i j v) as [-> | [-> ->]]; done.
Qed.
Lemma without_user_visited f : Z.land (without_user f) CT_FLAG_VISITED = Z.land f CT_FLAG_VISITED.
Proof using Type. unfold without_user. by rewrite <- Z.land_assoc. Qed.
Lemma lor_visited f b : Z.land b CT_FLAG_VISITED = 0 -> Z.land (Z.lor f b) CT_FLAG_VISITED = Z.land f CT_FLAG_VISITED.
Proof using Type. intros H. by rewrite land_lor_r, H, Z.lor_0_r. Qed.

Lemma disable_flag_tame h i r : cfl_disable_node_flag flash h i = Ret r -> tame h r.
Proof using Type.
  unfold cfl_disable_node_flag. intros H. cfl_inv. subst r. apply set_flag_tame. by rewrite without_user_visited.
Qed.
Lemma enable_tame h i r : cfl_enable_node flash h i = Ret r -> tame h r.
Proof using Type.
  unfold cfl_enable_node. intros H. cfl_inv. subst r. apply set_flag_tame. by rewrite lor_visited, without_user_visited.
Qed.
Lemma set_initialized_tame h i r : cfl_set_node_initialization_flag flash h i = Ret r -> tame h r.
Proof using Type.
  unfold cfl_set_node_initialization_flag. intros H. cfl_inv. subst r. apply set_flag_tame. by rewrite lor_visited.
Qed.

Lemma one_shot_tame k f h i r : one_shot_functions flash !! k = Some f -> sized flash h -> f h i = Ret r -> tame h r.
Proof using Hfn. intros Hk Hs. by eapply (Forall_lookup_1 _ _ _ _ (one_shots_tame _ Hfn) Hk). Qed.
Lemma boolean_tame k f h i ty ev data r : boolean_functions flash !! k = Some f -> sized flash h ->
  f h i ty ev data = Ret r -> tame h r.2.
Proof using Hfn. intros Hk Hs. by eapply (Forall_lookup_1 _ _ _ _ (booleans_tame _ Hfn) Hk). Qed.
Lemma main_tame k f h a i ty ev data r : main_functions flash !! k = Some f -> sized flash h ->
  f h a i ty ev data = Ret r -> tame h r.2.
Proof using Hfn. intros Hk Hs. by eapply (Forall_lookup_1 _ _ _ _ (mains_tame _ Hfn) Hk). Qed.

Lemma disable_tame h i r : sized flash h -> cfl_disable_node flash h i = Ret r -> tame h r.
Proof using Hfn.
  unfold cfl_disable_node. intros Hs H. apply raise_if_Ret in H as [_ H]. cbv zeta in H.
  split_if H; [by eapply disable_flag_tame|].
  apply cbind_Ret in H as (h1 & H1 & H). assert (tame h h1) as T1.
  { split_if H1; [simplify_eq; reflexivity|]. destruct (boolean_functions flash !! _) as [f|] eqn:Ef; [|done]. cbn [not_null] in H1.
    apply cbind_Ret in H1 as (r1 & H1 & [= <-]). by eapply boolean_tame. }
  assert (sized flash h1) as Hs1 by by eapply tame_sized.
  apply cbind_Ret in H as (h2 & H2 & H). assert (tame h1 h2) as T2.
  { split_if H2; [simplify_eq; reflexivity|]. destruct (one_shot_functions flash !! _) as [f|] eqn:Ef; [|done].
    by eapply one_shot_tame. }
  etrans; [done|]. etrans; [done|]. by eapply disable_flag_tame.
Qed.
Lemma each_tame f l : (forall h i r, sized flash h -> f h i = Ret r -> tame h r) ->
  forall h r, sized flash h -> each f l h = Ret r -> tame h r.
Proof using Type.
  intros Hf. induction l as [|i l IH]; cbn [each]; intros h r Hs H; [simplify_eq; reflexivity|].
  apply cbind_Ret in H as (h1 & H1 & H). pose proof (Hf _ _ _ Hs H1) as T1. etrans; [done|].
  eapply IH; [|done]. by eapply tame_sized.
Qed.
Lemma disable_marked_tame h i r : sized flash h -> disable_marked flash h i = Ret r -> tame h r.
Proof using Hfn.
  unfold disable_marked. intros Hs H. split_if H; [|simplify_eq; reflexivity].
  assert (tame h (set_flag i (Z.land (flag_of h i) (u8 (Z.lnot CT_FLAG_USER1))) h)) as T.
  { apply set_flag_tame. by rewrite <- Z.land_assoc. }
  etrans; [exact T|]. eapply disable_tame; [|done]. by eapply tame_sized.
Qed.
Lemma marks_tame h h' : sized flash h' -> sized flash h -> marks h h' -> tame h h'.
Proof using Type.
  intros Hs' Hs ((fl & E) & Hl & Hm). assert (h_walker h' = h_walker h) as Ew by (rewrite E; by destruct h).
  destruct Hs as ((_ & B & _) & _), Hs' as ((_ & B' & _) & _).
  split; [done|]. split; [done|]. split; [congruence|]. intros i. destruct (Hm i) as [-> | ->]; [done|]. by apply lor_visited.
Qed.

Lemma terminate_tame h i r : sized flash h -> cfl_terminate_node_tree flash h i = Ret r -> tame h r.
Proof using Hfn.
  unfold cfl_terminate_node_tree. intros Hs H. apply raise_if_Ret in H as [_ H].
  split_if H; [simplify_eq; reflexivity|]. split_if H; [by eapply disable_tame|].
  pose proof (nested_mark flash h i Hs) as Hm. apply cbind_Ret in H as (h1 & H1 & H). rewrite H1 in Hm. destruct Hm as [Hm Hs1].
  pose proof (marks_tame _ _ Hs1 Hs Hm) as T1. etrans; [done|].
  split_if H; [simplify_eq; reflexivity|]. cfl_inv. eapply each_tame; [apply disable_marked_tame|done|done].
Qed.
Lemma initialize_tame k1 k2 init aux h i r : one_shot_functions flash !! k1 = Some init -> boolean_functions flash !! k2 = Some aux ->
  sized flash h -> initialize_node flash init aux h i = Ret r -> tame h r.
Proof using Hfn.
  unfold initialize_node. intros Hi Ha Hs H. cbv zeta in H. apply cbind_Ret in H as (h1 & H1 & H).
  assert (tame h h1) as T1. { split_if H1; [simplify_eq; reflexivity|]. by eapply one_shot_tame. }
  assert (sized flash h1) as Hs1 by by eapply tame_sized. apply cbind_Ret in H as (h2 & H2 & H).
  assert (tame h1 h2) as T2.
  { split_if H2; [simplify_eq; reflexivity|]. apply cbind_Ret in H2 as (r1 & H2 & [= <-]). by eapply boolean_tame. }
  etrans; [done|]. etrans; [done|]. by eapply set_initialized_tame.
Qed.
Lemma act_on_tame code h i r : sized flash h -> act_on flash code h i = Ret r -> tame h r.2 /\ r.1 <> CT_STOP_LEVEL.
Proof using Hfn.
  unfold act_on. intros Hs H.
  repeat match type of H with
  | (if ?b then _ else _) = _ => destruct b
  | EXCEPTION _ = _ => discriminate H
  end; try (by simplify_eq); repeat (let h1 := fresh "h" in let H1 := fresh "H" in apply cbind_Ret in H as (h1 & H1 & H));
    simplify_eq; cbn [fst snd]; split; try done; try reflexivity; try (by eapply terminate_tame); try (by eapply disable_tame).
  - etrans; [by eapply terminate_tame|by eapply enable_tame].
  - assert (tame h (h <| cfl_engine_flag := false |>)) as T by by destruct h.
    etrans; [exact T|]. eapply terminate_tame; [by eapply tame_sized|done].
Qed.
Lemma execute_tame h i r : sized flash h -> cfl_execute_node flash h i = Ret r -> tame h r.2 /\ r.1 <> CT_STOP_LEVEL.
Proof using Hfn.
  unfold cfl_execute_node. intros Hs H. apply raise_if_Ret in H as [Hi H]. cbv zeta in H.
  destruct (main_functions flash !! _) as [main|] eqn:Em; [|done]. destruct (one_shot_functions flash !! _) as [init|] eqn:Eo; [|done].
  destruct (boolean_functions flash !! _) as [aux|] eqn:Eb; [|done]. cbn [not_null] in H.
  unfold cfl_engine_node_is_enabled in H. rewrite Hi in H. cbn [raise_if cbind] in H. split_if H; [simplify_eq; by split; [reflexivity|]|].
  unfold cfl_engine_node_is_initialized in H. rewrite Hi in H. cbn [raise_if cbind] in H. set (h1 := h <| cfl_node_execution_count ::= _ |>) in *.
  assert (tame h h1) as T1 by by destruct h. assert (sized flash h1) as Hs1 by by eapply tame_sized. clearbody h1.
  apply cbind_Ret in H as (h2 & H2 & H). assert (tame h1 h2) as T2.
  { split_if H2; [by eapply initialize_tame|simplify_eq; reflexivity]. }
  assert (sized flash h2) as Hs2 by by eapply tame_sized.
  destruct (event_data_ptr h2) as [e|]; [|done]. cbn [not_null] in H. apply cbind_Ret in H as ([code h3] & H3 & H).
  pose proof (main_tame _ _ _ _ _ _ _ _ _ Em Hs2 H3) as T3. cbn [fst snd] in *.
  set (h4 := h3 <| cfl_engine_flag := true |>) in *. assert (tame h3 h4) as T4 by by destruct h3.
  assert (sized flash h4) as Hs4 by (eapply tame_sized; [|exact T4]; by eapply tame_sized).
  destruct (act_on_tame _ _ _ _ Hs4 H) as [T5 Hr]. split; [|done]. by repeat (etrans; [done|]).
Qed.
End Tame.

(** Functions on the rest of the handle are tame. *)
Lemma lifted_tame {R} (flash : chaintree_handle R) ms os bs : main_functions flash = map lift_main ms ->
  one_shot_functions flash = map lift_one_shot os -> boolean_functions flash = map lift_boolean bs -> functions_tame flash.
Proof.
  intros Hm Ho Hb. constructor; rewrite ?Hm, ?Ho, ?Hb; apply Forall_fmap, Forall_true; intros g h; intros;
    unfold lift_main, lift_one_shot, lift_boolean in *; simplify_eq; by destruct h.
Qed.

(** ** The walk is the interpreter *)

Section Interpret.
Context {R : Type} (flash : chaintree_handle R) (Hfn : functions_tame flash).

(** The walker and the handle after an interpreted subtree. *)
Definition walked (w : CT_TreeWalker (cfl_handle R)) (r : signal * cfl_handle R)
    : signal * (CT_TreeWalker (cfl_handle R) * cfl_handle R) :=
  (r.1, (w <| flags := h_flags r.2 |> <| stop_all := match r.1 with StopAll => true | _ => stop_all w end |>, r.2)).
Definition live_walk (w : CT_TreeWalker (cfl_handle R)) (u : cfl_handle R) : Prop :=
  apply_func w = on_handle (cfl_execute_node flash) /\ wired flash u /\ zlen (flags w) = node_count flash.

Lemma interpret_sized t : forall h r, sized flash h -> interpret flash t h = Ret r ->
  sized flash r.2 /\ h_walker r.2 = h_walker h.
Proof using Hfn.
  induction t as [i kids IH] using tree_ind_list. intros h r Hs H. cbn [interpret] in H.
  apply cbind_Ret in H as ([rc h1] & H1 & H). cbn [fst snd] in H.
  assert (sized flash (visit i h)) as Hv. { destruct Hs. split; [by destruct h|]. unfold visit. by rewrite set_flag_len. }
  destruct (execute_tame flash Hfn _ _ _ Hv H1) as [T _]. cbn [snd] in T.
  assert (sized flash h1) as Hs1 by by eapply tame_sized. destruct T as [Ew _]. clear H1 Hv Hs.
  assert (h_walker h1 = h_walker h) as Ew1 by by destruct h. clear Ew.
  destruct rc; try (simplify_eq; by split).
  revert h1 Hs1 Ew1 H. induction IH as [|t ts Ht _ IHts]; intros h1 Hs1 Ew1 H; cbn [dfs_seq] in H; [simplify_eq; by split|].
  apply cbind_Ret in H as ([sg h2] & H2 & H). destruct (Ht _ _ Hs1 H2) as [Hs2 Ew2]. cbn [snd] in Hs2, Ew2. rewrite Ew1 in Ew2.
  destruct sg; [by eapply IHts|simplify_eq; by split..].
Qed.

Lemma dfs_interprets t : forall lvl w u, live_walk w u -> lvl + depth t - 1 <= max_level w ->
  dfs lvl t (w, u) = (r <- interpret flash t (u <| h_flags := flags w |>);; Ret (walked w r)).
Proof using Hfn.
  induction t as [i kids IH] using tree_ind_list. intros lvl w u (Ha & Hw & Hl) Hm. rewrite dfs_node. cbn [fst snd]. cbv zeta.
  cbn [depth] in Hm. assert (0 <= foldr (fun t m => Z.max (depth t) m) 0 kids) as Hd0 by (clear; induction kids; cbn; lia).
  change (max_level (mark i w)) with (max_level w). rewrite (proj2 (Z.ltb_ge _ _)) by lia.
  change (apply_func (mark i w)) with (apply_func w). rewrite Ha. unfold on_handle. cbn [interpret].
  assert (u <| h_flags := flags (mark i w) |> = visit i (u <| h_flags := flags w |>)) as -> by by destruct u, w.
  assert (sized flash (visit i (u <| h_flags := flags w |>))) as Hs.
  { split; [by destruct u|]. unfold visit. rewrite set_flag_len. by destruct u. }
  destruct (cfl_execute_node flash _ i) as [[rc h1]| |] eqn:E; cbn [cbind fst snd]; [|done..].
  destruct (execute_tame flash Hfn _ _ _ Hs E) as [T Hne]. cbn [fst snd] in *. pose proof (tame_sized flash _ _ Hs T) as Hs1.
  set (w1 := mark i w <| flags := h_flags h1 |>). assert (w1 = w <| flags := h_flags h1 |>) as Ew by by destruct w.
  destruct rc; try done; try (cbn [cbind]; unfold walked; cbn [fst snd]; rewrite Ew; by destruct w).
  assert (dfs_seq (dfs (lvl + 1)) kids (w1, h1) = (r <- dfs_seq (interpret flash) kids h1;; Ret (walked w1 r))) as ->.
  2: { destruct (dfs_seq (interpret flash) kids h1) as [[sg h2]| |]; [|done..]. cbn [cbind]. rewrite Ew. by destruct w. }
  assert (live_walk w1 h1 /\ flags w1 = h_flags h1 /\ max_level w1 = max_level w) as (Hlw & Hfl & Eml).
  { rewrite Ew. destruct Hs1 as [? ?]. by destruct w. }
  rewrite <- Eml in Hm. clearbody w1. clear -IH Hfn Hlw Hfl Hs1 Hm. revert w1 h1 Hlw Hfl Hs1 Hm.
  induction IH as [|t ts Ht _ IHts]; intros w1 h1 Hlw Hfl Hs1 Hm; cbn [dfs_seq foldr] in *.
  { cbn [cbind]. unfold walked. cbn [fst snd]. rewrite <- Hfl. by destruct w1. }
  rewrite Ht; [|done|lia]. assert (h1 <| h_flags := flags w1 |> = h1) as -> by (rewrite Hfl; by destruct h1).
  destruct (interpret flash t h1) as [[sg h2]| |] eqn:E; [|done..]. cbn [cbind]. unfold walked at 1. cbn [fst snd].
  destruct (interpret_sized _ _ _ Hs1 E) as [Hs2 _]. cbn [snd] in Hs2.
  destruct sg; [|by cbn [cbind]; unfold walked; destruct w1..].
  rewrite IHts; [|destruct Hlw as (? & _ & _), Hs2; by destruct w1|by destruct w1|done|by destruct w1; cbn in *; lia].
  destruct (dfs_seq (interpret flash) ts h2) as [[sg h3]| |]; [|done..]. cbn [cbind]. by destruct w1.
Qed.

Lemma execute_keeps_visited : keeps_visited (wired flash) (on_handle (cfl_execute_node flash)) (node_count flash).
Proof using Hfn.
  intros u i lvl fl ret u' fl' Hw Hl H. unfold on_handle in H. apply cbind_Ret in H as ([rc h1] & H1 & H). cbn [fst snd] in H.
  assert (sized flash (u <| h_flags := fl |>)) as Hs by (split; by destruct u).
  destruct (execute_tame flash Hfn _ _ _ Hs H1) as [T _]. cbn [snd] in T. simplify_eq.
  pose proof (tame_sized flash _ _ Hs T) as [Hw' _]. destruct T as (_ & T2 & _ & T4). split; [done|].
  split; [destruct u; unfold zlen in *; cbn in *; lia|]. intros j. specialize (T4 j). by destruct u.
Qed.

Lemma start_sized i h : sized flash h -> sized flash (start_event flash i h).
Proof using Type.
  intros (((Hn & Hlw) & Hb & Hsz) & Hf). destruct h as [fl bk [wn wl wi ws] ev ef ec ns ks kc km ck ml r].
  split; [done|]. unfold start_event. hsimpl. by rewrite cleared_len.
Qed.
End Interpret.

(** What [event_interprets_tree] says. *)
Lemma execute_event_interprets {R} (flash : chaintree_handle R) (h : cfl_handle R) (t : tree) (e : CFL_EVENT_DATA_T) :
  functions_tame flash -> sized flash h -> tree_in flash t -> NoDup (ids t) ->
  event_data_ptr h = Some e -> ev_node_id e = root t ->
  0 <= kb_start_index h <= root t -> root t < kb_start_index h + kb_node_count h <= node_count flash ->
  depth t <= h_max_level h < 2 ^ 31 -> depth t <= wr_max_level (h_walker h) + 1 ->
  cfl_execute_event flash h =
    if enabled h (root t)
    then r <- interpret flash t (start_event flash (root t) h);; Ret (finish_event flash r)
    else Ret (false, h).
Proof.
  intros Hfn Hs Ht Hnd He Hn Hk0 Hk1 Hd Hl. unfold cfl_execute_event. rewrite He. cbn [not_null]. rewrite Hn.
  pose proof Hs as (((Hwn & Hlw) & Hb & Hsz) & Hf). unfold cfl_engine_node_is_enabled.
  assert (u32 (-1 - kb_node_count h) = 2 ^ 32 - 1 - kb_node_count h) as ->.
  { unfold u32. symmetry. apply (Z.mod_unique_pos _ _ (-1)); lia. }
  rewrite u32_id by (unfold fits; lia). rewrite (proj2 (Z.ltb_ge (root t) _)) by lia.
  rewrite (proj2 (Z.ltb_ge (2 ^ 32 - 1 - _) _)), andb_false_r, !(proj2 (Z.leb_gt _ _)) by lia. cbn [raise_if cbind].
  fold (enabled h (root t)). destruct (enabled h (root t)); [|done]. cbn [negb].
  set (h1 := h <| cfl_engine_flag := true |> <| cfl_node_execution_count := 0 |> <| node_start_index := root t |>).
  unfold engine_walk. set (u0 := h1 <| h_walker := _ |>). set (w := walker_of _ _ h1).
  assert (max_nodes w = node_count flash) as Ew by by destruct h.
  rewrite (walk_is_dfs (wired flash)); [|rewrite Ew; by apply execute_keeps_visited|by destruct h|rewrite Ew; by apply tree_in_tree_of|done| | | |];
    [|destruct h; rewrite Ew; exact Hf|by rewrite Ew|lia|by destruct h].
  unfold dfs_walk. set (w0 := clear_engine_flags _).
  rewrite (dfs_interprets flash Hfn); [| |by destruct h; cbn in *; lia].
  2: { split; [done|]. split; [by destruct h|]. subst w0. rewrite clear_keeps_length. by destruct h. }
  assert (u0 <| h_flags := flags w0 |> = start_event flash (root t) h) as ->.
  { subst w0 u0 w h1. destruct h as [fl bk [wn wl wi ws] ev ef ec ns ks kc km ck ml r]. cbn in Hwn. subst wn. done. }
  destruct (interpret flash t _) as [[sg h2]| |] eqn:E; [|done..]. cbn [cbind].
  destruct (interpret_sized flash Hfn _ _ _ (start_sized flash (root t) h Hs) E) as [_ Ew2]. cbn [snd] in Ew2.
  assert (put_walker (walked w0 (sg, h2)).2.1 h2 = h2 <| h_walker := walk_regs flash h2 (match sg with StopAll => true | _ => false end) |>) as Ep.
  { unfold walk_regs. rewrite Ew2. subst w0 w h1. unfold put_walker.
    destruct h as [fl bk [wn wl wi ws] ev ef ec ns ks kc km ck ml r]. cbn in Hwn. subst wn. by destruct h2, sg. }
  unfold finish_event. cbn [fst snd]. rewrite <- Ep. by destruct sg.
Qed.

(** C11. Executing an event is interpreting the tree under its node. For an event inside the
    knowledge base's window, on a node whose links make a tree no deeper than the stack, and with
    node functions of any behaviour that leave the walker alone, [cfl_execute_event] either finds
    the node disabled and returns false with nothing changed, or does just what the recursive
    interpreter does, exceptions included: initialise a node on its first visit, call its main
    function with the event, go on to its children in order, or leave them out, or leave out the
    rest of its siblings, or end, as the return code says. It returns whether a node ran and the
    system was not told to stop. *)
Theorem event_interprets_tree {R} (flash : chaintree_handle R) (h : cfl_handle R) (t : tree) (e : CFL_EVENT_DATA_T) :
  functions_tame flash -> sized flash h -> tree_in flash t -> NoDup (ids t) ->
  event_data_ptr h = Some e -> ev_node_id e = root t ->
  0 <= kb_start_index h <= root t -> root t < kb_start_index h + kb_node_count h <= node_count flash ->
  depth t <= h_max_level h < 2 ^ 31 -> depth t <= wr_max_level (h_walker h) + 1 ->
  cfl_execute_event flash h =
    if enabled h (root t)
    then r <- interpret flash t (start_event flash (root t) h);; Ret (finish_event flash r)
    else Ret (false, h).
Proof. apply execute_event_interprets. Qed.

Lemma event_interprets_tree_witness :
  cfl_execute_event (ex_flash [lift_main ex_main]) ex_ready =
    (if enabled ex_ready (root ex_kb_tree)
     then r <- interpret (ex_flash [lift_main ex_main]) ex_kb_tree
                 (start_event (ex_flash [lift_main ex_main]) (root ex_kb_tree) ex_ready);;
          Ret (finish_event (ex_flash [lift_main ex_main]) r)
     else Ret (false, ex_ready)) /\
  match cfl_execute_event (ex_flash [lift_main ex_main]) ex_ready with
  | Ret (ran, h) => ran = true /\ rest h = [(0, 101); (0, 0); (0, 204); (1, 204)]
  | _ => False
  end.
Proof.
  split; [|by vm_compute].
  apply (event_interprets_tree (ex_flash [lift_main ex_main]) ex_ready ex_kb_tree (ex_event 0 4));
    [by apply (lifted_tame _ [ex_main] ex_os ex_bs)|..]; try (by vm_decide); by vm_compute.
Defined.
