(* ===== verification/CflLifecycle.v ===== *)
(** The life cycle of nodes: with node functions whose answers are an arbitrary function of the
    whole history, and which enable and terminate nodes as they like, the calls a node gets are
    complete sessions - started once, ended once, its main function called only in between. *)
From S2P Require Import Prelude CflBase CtTreeWalker CflEventQueue CflEngine CflTerminate CflExecute.
#[local] Open Scope cfl_scope.

(** The calls the engine makes: by function number, node and event. *)
Inductive call := COneShot (k i : Z) | CAux (k i ty ev : Z) | CMain (k i ev : Z).
Definition call_node (c : call) : Z := match c with COneShot _ i => i | CAux _ i _ _ => i | CMain _ i _ => i end.
Definition calls_of (i : Z) (l : list call) : list call := filter (fun c => bool_decide (call_node c = i)) l.

(** What a node function does, by the calls up to its own: nodes it enables and, for a main
    function, terminates, and what it returns. *)
Inductive action := AEnable (j : Z) | ATerminate (j : Z).
Record behaviour := mk_behaviour {
  says_one_shot : list call -> list Z; says_aux : list call -> list Z * bool;
  says_main : list call -> list action * Z
}.

Section Image.
Context (ns : list chaintree_node_t) (links : list Z) (kbs : list chaintree_kb_info_t).
Context (n_main n_one_shot n_aux : nat) (b : behaviour).

#[local] Abbreviation handle := (cfl_handle (list call)).

(** Functions enable a node as the engine's own do: when it is not running. *)
Definition enable_idle (h : handle) (j : Z) : cfl handle :=
  if running h j then Ret h else cfl_enable_node (mk_flash ns links kbs [] [] []) h j.
Definition logged (c : call) (h : handle) : handle := h <| rest ::= fun l => l ++ [c] |>.
Definition one_shot_of (k : nat) : one_shot_function_t (list call) := fun h i =>
  let h := logged (COneShot (Z.of_nat k) i) h in each enable_idle (says_one_shot b (rest h)) h.
Definition aux_of (k : nat) : boolean_function_t (list call) := fun h i ty ev _ =>
  let h := logged (CAux (Z.of_nat k) i ty ev) h in
  h' <- each enable_idle (says_aux b (rest h)).1 h;; Ret ((says_aux b (rest h)).2, h').
Definition base : chaintree_handle (list call) :=
  mk_flash ns links kbs [] (map one_shot_of (seq 0 n_one_shot)) (map aux_of (seq 0 n_aux)).

Fixpoint perform (acts : list action) (h : handle) : cfl handle :=
  match acts with
  | [] => Ret h
  | AEnable j :: acts => h <- enable_idle h j;; perform acts h
  | ATerminate j :: acts => h <- cfl_terminate_node_tree base h j;; perform acts h
  end.
Definition main_of (k : nat) : main_function_t (list call) := fun h _ i _ ev _ =>
  let h := logged (CMain (Z.of_nat k) i ev) h in
  h' <- perform (says_main b (rest h)).1 h;; Ret ((says_main b (rest h)).2, h').
Definition image : chaintree_handle (list call) :=
  mk_flash ns links kbs (map main_of (seq 0 n_main)) (map one_shot_of (seq 0 n_one_shot)) (map aux_of (seq 0 n_aux)).

(** ** Sessions *)

Definition start_calls (i : Z) : list call :=
  let node := node_at image i in
  (if init_function_index node =? 0 then [] else [COneShot (init_function_index node) i]) ++
  (if aux_function_index node =? 0 then [] else [CAux (aux_function_index node) i CFL_EVENT_TYPE_NULL CFL_INIT_EVENT]).
Definition end_calls (i : Z) : list call :=
  let node := node_at image i in
  (if aux_function_index node =? 0 then [] else [CAux (aux_function_index node) i CFL_EVENT_TYPE_NULL CFL_TERMINATE_EVENT]) ++
  (if term_function_index node =? 0 then [] else [COneShot (term_function_index node) i]).
(** The calls of node [i] so far; the flag says whether a session is open. *)
Inductive sessions (i : Z) : bool -> list call -> Prop :=
| session_none : sessions i false []
| session_start l : sessions i false l -> sessions i true (l ++ start_calls i)
| session_main l ev : sessions i true l -> sessions i true (l ++ [CMain (main_function_index (node_at image i)) i ev])
| session_end l : sessions i true l -> sessions i false (l ++ end_calls i).

(** Function numbers are unsigned, node numbers have 16 bits. *)
Definition indices_ok : Prop := Forall (fun node => 0 <= main_function_index node /\ 0 <= init_function_index node /\
  0 <= aux_function_index node /\ 0 <= term_function_index node /\ 0 <= parent_index node) ns /\ zlen ns < 2 ^ 16.
(** A knowledge base's window: its nodes' parents precede its end and its links stay inside. *)
Definition in_window (start count i : Z) : Prop := start <= i < start + count.
Record window_ok (start count : Z) : Prop := {
  win_range : 0 <= start /\ 0 < count /\ start + count <= zlen ns;
  win_parent : forall i, in_window start count i -> parent_index (node_at image i) < start + count \/
    parent_index (node_at image i) = NO_PARENT;
  win_links : forall i k, in_window start count i -> 0 <= k < links_of image i ->
    in_window start count (link_at image (link_start (node_at image i) + k))
}.

(** ** Histories *)

Definition idle_range (h : handle) (start count : Z) : Prop := forall i, in_window start count i -> running h i = false.
Inductive life_reach : handle -> Prop :=
| life_boot h : sized image h -> (forall i, running h i = false) -> rest h = [] -> life_reach h
| life_init_test h start count h' : life_reach h -> idle_range h start count -> 0 <= start -> 0 < count ->
    cfl_engine_init_test image h start count = Ret h' -> life_reach h'
| life_event h e start count r : life_reach h -> window_ok start count ->
    cfl_execute_event image (h <| event_data_ptr := Some e |> <| kb_start_index := start |> <| kb_node_count := count |>) = Ret r ->
    life_reach r.2
| life_kill h start count h' : life_reach h -> 0 <= start -> start + count < 2 ^ 31 ->
    cfl_terminate_all_nodes_in_kb image h start count = Ret h' -> life_reach h'.

Record life_ok (h : handle) : Prop := {
  life_sized : sized image h;
  life_sessions : forall i, 0 <= i -> sessions i (running h i) (calls_of i (rest h))
}.
Definition same_window (h h' : handle) : Prop :=
  kb_start_index h' = kb_start_index h /\ kb_node_count h' = kb_node_count h.

(** The flags of running nodes stay, and no node begins or ceases to run. *)
Record idle_step (h h' : handle) : Prop := {
  idle_sized : sized image h -> sized image h';
  idle_walker : h_walker h' = h_walker h;
  idle_window : same_window h h';
  idle_flags : forall j, running h j = true -> flag_of h' j = flag_of h j;
  idle_running : forall j, running h j = false -> running h' j = false;
  idle_enabled : forall j, enabled h j = true -> enabled h' j = true
}.

(** Node [i] does not run any more; no other node began or ceased to. *)
Definition settles (i : Z) (h h' : handle) : Prop :=
  same_window h h' /\ h_walker h' = h_walker h /\ running h' i = false /\
  forall j, i <> j -> (running h j = true -> flag_of h' j = flag_of h j) /\ (running h j = false -> running h' j = false).
End Image.

(** The example's nodes enable their children when they start; on event 5 node 2 resets its
    parent, and node 3 terminates node 4. *)
Definition ex_behaviour : behaviour := mk_behaviour
  (fun l => match last l with Some (COneShot 1 0) => [1; 4] | Some (COneShot 1 1) => [2; 3] | _ => [] end)
  (fun _ => ([], false))
  (fun l => match last l with
            | Some (CMain _ 2 5) => ([], CFL_RESET)
            | Some (CMain _ 3 _) => ([ATerminate 4; AEnable 2], CFL_CONTINUE)
            | _ => ([], CFL_CONTINUE) end).
Definition ex_image : chaintree_handle (list call) := image ex_nodes [1; 4; 2; 3] [] 1 3 2 ex_behaviour.
Definition ex_boot : cfl_handle (list call) :=
  mk_handle [0; 0; 0; 0; 0] [0; 0; 0; 0; 0] (mk_regs 5 0xFFFF 4 false) None false 0 0 0 0 0 0 3 [].
Definition ex_send (h : cfl_handle (list call)) (ev : Z) : cfl (bool * cfl_handle (list call)) :=
  cfl_execute_event ex_image (h <| event_data_ptr := Some (ex_event 0 ev) |> <| kb_start_index := 0 |> <| kb_node_count := 5 |>).
Definition ret_or {A} (d : A) (m : cfl A) : A := match m with Ret a => a | _ => d end.
Definition ex_started : cfl_handle (list call) := Eval vm_compute in ret_or ex_boot (cfl_engine_init_test ex_image ex_boot 0 5).
Definition ex_ran : cfl_handle (list call) := Eval vm_compute in (ret_or (false, ex_boot) (ex_send ex_started 4)).2.
Definition ex_ended : cfl_handle (list call) := Eval vm_compute in (ret_or (false, ex_boot) (ex_send ex_ran 5)).2.

(** ** Idle steps *)

Lemma has_lor_bit f k : 0 <= k -> has (Z.lor f (2 ^ k)) (2 ^ k) = true.
Proof.
  intros Hk. unfold has, nz. rewrite land_pow2, Z.lor_spec, Z.pow2_bits_true, orb_true_r by done.
  apply negb_true_iff, Z.eqb_neq. pose proof (Z.pow_pos_nonneg 2 k). lia.
Qed.
Lemma flag_set_cases {R} (h : cfl_handle R) i j v :
  flag_of (set_flag i v h) j = flag_of h j \/ (i = j /\ flag_of (set_flag i v h) j = v).
Proof. destruct h. unfold flag_of. apply zset_cases. Qed.

Section Proofs.
Context (ns : list chaintree_node_t) (links : list Z) (kbs : list chaintree_kb_info_t).
Context (n_main n_one_shot n_aux : nat) (b : behaviour).

#[local] Abbreviation handle := (cfl_handle (list call)).
#[local] Abbreviation img := (image ns links kbs n_main n_one_shot n_aux b).
#[local] Abbreviation step := (idle_step ns links kbs n_main n_one_shot n_aux b).
#[local] Abbreviation ok := (life_ok ns links kbs n_main n_one_shot n_aux b).
#[local] Abbreviation session := (sessions ns links kbs n_main n_one_shot n_aux b).

#[local] Instance step_po : PreOrder step.
Proof.
  split; [intros h; by constructor|]. intros h1 h2 h3 [A1 A2 [A3 A3'] A4 A5 A6] [B1 B2 [B3 B3'] B4 B5 B6].
  assert (forall j, running h1 j = true -> running h2 j = true) as Hr by (intros j Hj; unfold running in *; by rewrite A4).
  constructor; [auto|congruence|split; congruence| |auto|auto]. intros j Hj. rewrite B4, A4; auto.
Qed.
Lemma idle_same h h' j : step h h' -> running h' j = running h j.
Proof. intros [_ _ _ A4 A5 _]. destruct (running h j) eqn:E; [|by apply A5]. unfold running in *. by rewrite A4. Qed.

Lemma enable_idle_ok h j : ensures (enable_idle ns links kbs h j) (fun h' => step h h' /\ rest h' = rest h).
Proof.
  unfold enable_idle, cfl_enable_node. destruct (running h j) eqn:Er; cbn [ensures]; [by split|].
  apply ensures_raise. intros _. cbn [ensures]. set (v := Z.lor _ _). split; [|by destruct h].
  assert (has v CT_FLAG_USER2 = false) as H2. { unfold v, without_user, has. rewrite land_lor_r, <- Z.land_assoc.
    change (Z.land (u8 (Z.lnot CT_FLAG_USER_MASK)) CT_FLAG_USER2) with 0. by rewrite Z.land_0_r. }
  assert (has v CT_FLAG_USER3 = true) as H3 by (apply (has_lor_bit _ 7); done).
  constructor; [|by destruct h|by destruct h| | |].
  - intros [Hw Hl]. split; [by destruct h|]. by rewrite set_flag_len.
  - intros k Hk. destruct (flag_set_cases h j k v) as [E | [-> _]]; [exact E|congruence].
  - intros k Hk. unfold running in *. destruct (flag_set_cases h j k v) as [-> | [-> ->]]; [done|by rewrite H2].
  - intros k Hk. unfold enabled in *. destruct (flag_set_cases h j k v) as [-> | [-> ->]]; done.
Qed.
Lemma enable_all_ok l : forall h, ensures (each (enable_idle ns links kbs) l h) (fun h' => step h h' /\ rest h' = rest h).
Proof.
  induction l as [|j l IH]; intros h; cbn [each]; [by split|]. eapply ensures_bind; [apply enable_idle_ok|].
  intros h1 [S1 E1]. eapply ensures_weaken; [apply IH|]. intros h2 [S2 E2]. split; [by etrans|congruence].
Qed.
Lemma logged_step c h : step h (logged c h).
Proof. destruct h. by constructor. Qed.
Lemma logged_all c l h : ensures (each (enable_idle ns links kbs) l (logged c h)) (fun h' => step h h' /\ rest h' = rest h ++ [c]).
Proof.
  eapply ensures_weaken; [apply enable_all_ok|]. intros h' [S1 ->]. split; [|by destruct h].
  etrans; [apply logged_step|done].
Qed.

Lemma one_shot_ok k f h i : one_shot_functions img !! k = Some f ->
  ensures (f h i) (fun h' => step h h' /\ rest h' = rest h ++ [COneShot (Z.of_nat k) i]).
Proof. intros Hf. apply list_lookup_fmap_Some in Hf as (k' & -> & [-> _]%lookup_seq). apply logged_all. Qed.
Lemma aux_ok k f h i ty ev data : boolean_functions img !! k = Some f ->
  ensures (f h i ty ev data) (fun r => step h r.2 /\ rest r.2 = rest h ++ [CAux (Z.of_nat k) i ty ev]).
Proof.
  intros Hf. apply list_lookup_fmap_Some in Hf as (k' & -> & [-> _]%lookup_seq). unfold aux_of.
  eapply ensures_bind; [apply logged_all|]. intros h' Hh. exact Hh.
Qed.

(** ** What the operations keep *)

Lemma calls_app i l1 l2 : calls_of i (l1 ++ l2) = calls_of i l1 ++ calls_of i l2.
Proof. apply filter_app. Qed.
Lemma calls_same i l : Forall (fun c => call_node c = i) l -> calls_of i l = l.
Proof.
  induction 1 as [|c l Hc _ IH]; [done|]. unfold calls_of in *. rewrite filter_cons. by rewrite bool_decide_eq_true_2, IH.
Qed.
Lemma calls_other i j l : i <> j -> Forall (fun c => call_node c = i) l -> calls_of j l = [].
Proof.
  intros Hne. induction 1 as [|c l Hc _ IH]; [done|]. unfold calls_of in *. rewrite filter_cons.
  rewrite bool_decide_eq_false_2, IH by congruence. done.
Qed.

Lemma one_call (t : bool) c i : call_node c = i -> Forall (fun c' => call_node c' = i) (if t then [] else [c]).
Proof. intros <-. destruct t; [apply Forall_nil_2|by apply Forall_singleton]. Qed.

(** After calls to node [i] alone the other nodes' sessions are as they were. *)
Lemma others_sessions h h' i cs : ok h -> step h h' -> rest h' = rest h ++ cs -> Forall (fun c => call_node c = i) cs ->
  forall j, 0 <= j -> i <> j -> session j (running h' j) (calls_of j (rest h')).
Proof.
  intros [_ Hs] S E Hc j Hj Hne. rewrite E, calls_app, (calls_other i j cs), app_nil_r by done.
  rewrite (idle_same _ _ _ S). by apply Hs.
Qed.

Context (Hix : indices_ok ns).

Lemma node_indices i : let node := node_at img i in 0 <= main_function_index node /\ 0 <= init_function_index node /\
  0 <= aux_function_index node /\ 0 <= term_function_index node /\ 0 <= parent_index node.
Proof using Hix.
  unfold node_at, zget. destruct (i <? 0); [done|]. destruct Hix as [Hf _].
  destruct (nth_in_or_default (Z.to_nat i) ns cnode0) as [Hin|Hd]; cbn [nodes image]; [|by rewrite Hd].
  apply (proj1 (List.Forall_forall _ ns) Hf _ Hin).
Qed.

Lemma without_user_idle f : has (without_user f) CT_FLAG_USER2 = false.
Proof.
  unfold has, without_user. rewrite <- Z.land_assoc.
  change (Z.land (u8 (Z.lnot CT_FLAG_USER_MASK)) CT_FLAG_USER2) with 0. by rewrite Z.land_0_r.
Qed.

(** Clearing the flags of a node whose session, if any, has just ended. *)
Lemma disable_flag_ok h i : sized img h -> 0 <= i -> session i false (calls_of i (rest h)) ->
  (forall j, 0 <= j -> i <> j -> session j (running h j) (calls_of j (rest h))) ->
  ensures (cfl_disable_node_flag img h i) (fun h' => ok h' /\ settles i h h').
Proof.
  intros [Hw Hl] Hi Hs Ho. unfold cfl_disable_node_flag. apply ensures_raise. intros Hn%Z.leb_gt. cbn [ensures].
  set (v := without_user _). assert (flag_of (set_flag i v h) i = v) as Ev by (apply flag_set_eq; lia).
  assert (forall j, i <> j -> flag_of (set_flag i v h) j = flag_of h j) as Eo.
  { intros j Hne. by destruct (flag_set_cases h i j v) as [E | [-> _]]. }
  assert (running (set_flag i v h) i = false) as Er by (unfold running; rewrite Ev; unfold v; by rewrite without_user_idle).
  split; [constructor|split; [by destruct h|split; [by destruct h|split; [done|]]]].
  - split; [by destruct h|]. by rewrite set_flag_len.
  - intros j Hj. assert (rest (set_flag i v h) = rest h) as -> by by destruct h.
    destruct (Z.eq_dec i j) as [<- | Hne]; [by rewrite Er|]. assert (running (set_flag i v h) j = running h j) as ->; [|by apply Ho].
    unfold running. by rewrite Eo.
  - intros j Hne. split; [by intros; apply Eo|]. intros Hj. unfold running in *. by rewrite Eo.
Qed.

Lemma disable_ok h i : ok h -> 0 <= i -> ensures (cfl_disable_node img h i) (fun h' => ok h' /\ settles i h h').
Proof using Hix.
  intros Hok Hi. pose proof Hok as [Hsz Hs]. unfold cfl_disable_node. apply ensures_raise. intros Hn.
  rewrite <- both_flags. fold (running h i). cbv zeta.
  destruct (running h i) eqn:Er; cbn [negb].
  2: { apply disable_flag_ok; [done|done| |by intros j Hj _; apply Hs]. rewrite <- Er. by apply Hs. }
  destruct (node_indices i) as (_ & _ & Ha & Ht & _).
  eapply (ensures_bind _ _ (fun h1 => step h h1 /\ rest h1 = rest h ++
    (if aux_function_index (node_at img i) =? 0 then []
     else [CAux (aux_function_index (node_at img i)) i CFL_EVENT_TYPE_NULL CFL_TERMINATE_EVENT]))).
  { destruct (aux_function_index (node_at img i) =? 0); [split; [reflexivity|by rewrite app_nil_r]|]. apply ensures_not_null. intros f Hf.
    eapply ensures_bind; [by apply (aux_ok _ _ _ _ _ _ _ Hf)|]. intros r. cbn [ensures]. by rewrite Z2Nat.id. }
  intros h1 [S1 E1]. eapply (ensures_bind _ _ (fun h2 => step h1 h2 /\ rest h2 = rest h1 ++
    (if term_function_index (node_at img i) =? 0 then [] else [COneShot (term_function_index (node_at img i)) i]))).
  { destruct (term_function_index (node_at img i) =? 0); [split; [reflexivity|by rewrite app_nil_r]|]. apply ensures_not_null. intros f Hf.
    eapply ensures_weaken; [by apply (one_shot_ok _ _ _ _ Hf)|]. intros h2. by rewrite Z2Nat.id. }
  intros h2 [S2 E2]. assert (step h h2) as S by by etrans. rewrite E1, <- app_assoc in E2.
  change (rest h2 = rest h ++ end_calls ns links kbs n_main n_one_shot n_aux b i) in E2.
  assert (Forall (fun c => call_node c = i) (end_calls ns links kbs n_main n_one_shot n_aux b i)) as Hc.
  { apply Forall_app. split; by apply one_call. }
  eapply ensures_weaken; [apply disable_flag_ok|].
  - by apply S.
  - done.
  - rewrite E2, calls_app, (calls_same i (end_calls _ _ _ _ _ _ _ _)) by done. constructor. rewrite <- Er. by apply Hs.
  - intros j Hj Hne. by apply (others_sessions h h2 i _ Hok S E2 Hc).
  - intros h3 [Hok3 (W & Ew & R & O)]. split; [done|]. destruct S as [_ A2 [A3 A3'] A4 A5 _]. destruct W as [W W'].
    split; [split; congruence|]. split; [congruence|]. split; [done|]. intros j Hne. destruct (O j Hne) as [O1 O2]. split.
    + intros Hr. rewrite O1, A4; [done|done|]. unfold running in *. by rewrite A4.
    + intros Hr. by apply O2, A5.
Qed.

(** Termination marks change nothing else. *)
Lemma marks_ok h h' : ok h -> marks h h' -> sized img h' ->
  ok h' /\ same_window h h' /\ h_walker h' = h_walker h /\ forall j, running h' j = running h j.
Proof.
  intros [Hsz Hs] ((fl & E) & _ & Hm) Hs'. assert (forall j, running h' j = running h j) as Hr.
  { intros j. unfold running. destruct (Hm j) as [-> | ->]; [done|]. by rewrite !has_lor. }
  assert (rest h' = rest h /\ h_walker h' = h_walker h /\ same_window h h') as (Er & Ew & W) by (rewrite E; by destruct h).
  split; [|done]. constructor; [done|]. intros j Hj. rewrite Hr, Er. by apply Hs.
Qed.

Lemma settles_weaken h h' i j : settles i h h' -> running h j = false -> running h' j = false.
Proof. intros (_ & _ & Hr & Ho) Hj. destruct (Z.eq_dec i j) as [<- | Hne]; [done|]. by apply Ho. Qed.

(** One turn of the loop over the marked nodes. *)
Lemma disable_marked_ok h i : ok h -> 0 <= i ->
  ensures (disable_marked img h i) (fun h' => (ok h' /\ same_window h h' /\ h_walker h' = h_walker h) /\
    (forall j, running h j = false -> running h' j = false) /\
    (has (flag_of h i) CT_FLAG_USER1 = true -> running h' i = false) /\
    (forall j, i <> j -> running h j = true -> flag_of h' j = flag_of h j)).
Proof using Hix.
  intros Hok Hi. unfold disable_marked. destruct (has _ _) eqn:Em; cbn [ensures]; [|by split_and!].
  set (h1 := set_flag i _ h). assert (forall j, running h1 j = running h j /\ (i <> j -> flag_of h1 j = flag_of h j)) as Hr.
  { intros j. unfold running. destruct (flag_set_cases h i j (Z.land (flag_of h i) (u8 (Z.lnot CT_FLAG_USER1)))) as [E | [-> E]];
      fold h1 in E; rewrite E; [done|]. by rewrite !has_land. }
  assert (ok h1) as Hok1.
  { destruct Hok as [[Hw Hl] Hs]. constructor; [split; [by destruct h|by unfold h1; rewrite set_flag_len]|].
    intros j Hj. rewrite (proj1 (Hr j)). assert (rest h1 = rest h) as -> by by destruct h. by apply Hs. }
  eapply ensures_weaken; [by apply disable_ok|]. intros h2 [Hok2 ((W1 & W2) & Ew & R & O)].
  split; [split; [done|split; [split; [rewrite W1|rewrite W2]|rewrite Ew]; by destruct h]|]. split; [|split; [done|]].
  - intros j Hj. apply (settles_weaken h1 _ i); [by split_and!|]. by rewrite (proj1 (Hr j)).
  - intros j Hne Hj. destruct (Hr j) as [Hr1 Hr2]. rewrite <- Hr2 by done. apply O; [done|]. by rewrite Hr1.
Qed.

(** The loop down to [lo] ends the session of [lo], if it was marked. *)
Lemma disable_down_ok l lo : forall h, ok h -> 0 <= lo -> Forall (fun i => 0 <= i) l ->
  (running h lo = true -> has (flag_of h lo) CT_FLAG_USER1 = true) ->
  ensures (each (disable_marked img) (l ++ [lo]) h) (fun h' => ok h' /\ same_window h h' /\ running h' lo = false).
Proof using Hix.
  induction l as [|i l IH]; intros h Hok Hlo Hl Hm; cbn [app each].
  - eapply ensures_bind; [by apply disable_marked_ok|]. intros h1 ((Hok1 & W & _) & R & M & _). cbn [ensures]. split; [done|]. split; [done|].
    destruct (running h lo) eqn:Er; [by apply M, Hm|by apply R].
  - apply Forall_cons in Hl as [Hi Hl]. eapply ensures_bind; [by apply disable_marked_ok|].
    intros h1 ((Hok1 & [W1 W2] & _) & R & M & O). eapply ensures_weaken; [apply IH; [done|done|done|]|].
    + intros Hr1. destruct (running h lo) eqn:Er; [|by rewrite R in Hr1].
      destruct (Z.eq_dec i lo) as [-> | Hne]; [|rewrite O; by auto]. rewrite M in Hr1; [done|by apply Hm].
    + intros h2 (Hok2 & [W3 W4] & R2). split; [done|]. split; [split; congruence|done].
Qed.

Lemma terminate_ok h i : ok h -> 0 <= i ->
  ensures (cfl_terminate_node_tree img h i) (fun h' => (ok h' /\ same_window h h') /\
    (0 <= kb_start_index h -> 0 < kb_node_count h -> kb_start_index h + kb_node_count h <= node_count img ->
     i < kb_start_index h + kb_node_count h -> running h' i = false)).
Proof using Hix.
  intros Hok Hi. unfold cfl_terminate_node_tree. apply ensures_raise. intros Hn%Z.leb_gt.
  destruct (has (flag_of h i) CT_FLAG_USER2) eqn:E2; cbn [negb].
  2: { cbn [ensures]. split; [by split|]. intros _ _ _ _. unfold running. by rewrite E2. }
  destruct (links_of img i =? 0).
  { eapply ensures_weaken; [by apply disable_ok|]. intros h' [Hok' (W & _ & R & _)]. by split; [split|]. }
  assert (sized img h) as Hsz by apply Hok.
  eapply (ensures_bind _ _ (fun h1 => (ok h1 /\ same_window h h1) /\ (running h1 i = true -> has (flag_of h1 i) CT_FLAG_USER1 = true))).
  { destruct (enabled h i) eqn:Een.
    - eapply ensures_weaken; [by apply nested_mark_root|]. intros h1 [[Hm Hs1] Hu].
      destruct (marks_ok h h1 Hok Hm Hs1) as (Hok1 & W & _ & _). by split; [split|].
    - eapply ensures_weaken; [by apply nested_mark|]. intros h1 [Hm Hs1].
      destruct (marks_ok h h1 Hok Hm Hs1) as (Hok1 & W & _ & Hr). split; [by split|]. rewrite Hr. unfold running. unfold enabled in Een.
      rewrite Een, andb_false_r. done. }
  intros h1 [[Hok1 [W1 W2]] Hm]. rewrite W1, W2.
  destruct (Z.eqb_spec (kb_node_count h) 0) as [Hz|Hz]; [cbn [ensures]; split; [done|lia]|].
  do 3 (apply ensures_raise; intros ?).
  destruct (Z.le_gt_cases i (u32 (kb_start_index h + kb_node_count h - 1))) as [Hle|Hgt].
  - rewrite down_last by done. eapply ensures_weaken; [apply disable_down_ok; [done|done| |done]|].
    + apply Forall_forall. intros j Hj%elem_of_down. lia.
    + intros h2 (Hok2 & [W3 W4] & R). split; [split; [done|split; congruence]|done].
  - assert (down (u32 (kb_start_index h + kb_node_count h - 1)) i = []) as ->.
    { unfold down. by rewrite seqZ_nil by lia. }
    cbn [each ensures]. split; [done|]. intros K0 K1 K2 K3. exfalso.
    assert (node_count img < 2 ^ 16) by apply Hsz. rewrite u32_id in Hgt by (unfold fits; lia). lia.
Qed.

Lemma terminate_any h i : ok h -> ensures (cfl_terminate_node_tree img h i) (fun h' => ok h' /\ same_window h h').
Proof using Hix.
  intros Hok. destruct (Z.le_gt_cases 0 i) as [Hi|Hi].
  - eapply ensures_weaken; [by apply terminate_ok|]. by intros h' [? _].
  - unfold cfl_terminate_node_tree. apply ensures_raise. intros _. by rewrite flag_neg.
Qed.

Lemma enable_ok h i : ok h -> running h i = false -> ensures (cfl_enable_node img h i) (fun h' => ok h' /\ same_window h h').
Proof.
  intros Hok Hr. pose proof (enable_idle_ok h i) as H. unfold enable_idle in H. rewrite Hr in H.
  change (cfl_enable_node (mk_flash ns links kbs [] [] []) h i) with (cfl_enable_node img h i) in H.
  eapply ensures_weaken; [exact H|]. intros h' [S E]. split; [|apply S]. destruct Hok as [Hsz Hs].
  constructor; [by apply S|]. intros j Hj. rewrite (idle_same _ _ _ S), E. by apply Hs.
Qed.
Lemma enable_idle_life h j : ok h -> ensures (enable_idle ns links kbs h j) (fun h' => ok h' /\ same_window h h').
Proof.
  intros Hok. eapply ensures_weaken; [apply enable_idle_ok|]. intros h' [S E]. split; [|apply S]. destruct Hok as [Hsz Hs].
  constructor; [by apply S|]. intros k Hk. rewrite (idle_same _ _ _ S), E. by apply Hs.
Qed.

Lemma perform_ok acts : forall h, ok h ->
  ensures (perform ns links kbs n_one_shot n_aux b acts h) (fun h' => ok h' /\ same_window h h').
Proof using Hix.
  induction acts as [|a acts IH]; intros h Hok; cbn [perform]; [by split|].
  assert (forall h1, ok h1 /\ same_window h h1 ->
    ensures (perform ns links kbs n_one_shot n_aux b acts h1) (fun h' => ok h' /\ same_window h h')) as Hk.
  { intros h1 [Hok1 [W1 W2]]. eapply ensures_weaken; [by apply IH|]. intros h2 [Hok2 [W3 W4]]. split; [done|split; congruence]. }
  destruct a as [j|j]; (eapply ensures_bind; [|exact Hk]); [by apply enable_idle_life|].
  change (cfl_terminate_node_tree (base ns links kbs n_one_shot n_aux b) h j) with (cfl_terminate_node_tree img h j).
  by apply terminate_any.
Qed.

Lemma main_ok f h a i ty ev data : main_functions img !! Z.to_nat (main_function_index (node_at img i)) = Some f ->
  ok h -> 0 <= i -> running h i = true -> ensures (f h a i ty ev data) (fun r => ok r.2 /\ same_window h r.2).
Proof using Hix.
  intros Hf Hok Hi Hr. apply list_lookup_fmap_Some in Hf as (k & -> & [-> _]%lookup_seq). unfold main_of.
  cbn [Nat.add]. rewrite Z2Nat.id by apply node_indices. set (c := CMain _ i ev). pose proof (logged_step c h) as S.
  assert (ok (logged c h)) as Hok1.
  { destruct Hok as [Hsz Hs]. constructor; [by apply S|]. intros j Hj. rewrite (idle_same _ _ _ S).
    assert (rest (logged c h) = rest h ++ [c]) as -> by by destruct h. rewrite calls_app.
    destruct (Z.eq_dec i j) as [<- | Hne].
    - rewrite (calls_same i [c]) by by apply Forall_singleton. rewrite Hr. apply session_main. rewrite <- Hr. by apply Hs.
    - rewrite (calls_other i j [c]), app_nil_r; [by apply Hs|done|by apply Forall_singleton]. }
  eapply ensures_bind; [by apply perform_ok|]. intros h' [Hok' [W1 W2]]. cbn [ensures snd]. split; [done|].
  destruct S as [_ _ [W3 W4] _ _ _]. split; congruence.
Qed.

Lemma initialize_ok init aux h i : one_shot_functions img !! Z.to_nat (init_function_index (node_at img i)) = Some init ->
  boolean_functions img !! Z.to_nat (aux_function_index (node_at img i)) = Some aux ->
  ok h -> 0 <= i -> enabled h i = true -> running h i = false ->
  ensures (initialize_node img init aux h i) (fun h' => (ok h' /\ same_window h h') /\ running h' i = true).
Proof using Hix.
  intros Hin Hau Hok Hi Hen Hr. pose proof Hok as [Hsz Hs]. unfold initialize_node. destruct (node_indices i) as (_ & Hi0 & Ha0 & _). cbv zeta.
  eapply (ensures_bind _ _ (fun h1 => step h h1 /\ rest h1 = rest h ++
    (if init_function_index (node_at img i) =? 0 then [] else [COneShot (init_function_index (node_at img i)) i]))).
  { destruct (init_function_index (node_at img i) =? 0); [split; [reflexivity|by rewrite app_nil_r]|].
    eapply ensures_weaken; [by apply (one_shot_ok _ _ _ _ Hin)|]. intros h1. by rewrite Z2Nat.id. }
  intros h1 [S1 E1]. eapply (ensures_bind _ _ (fun h2 => step h1 h2 /\ rest h2 = rest h1 ++
    (if aux_function_index (node_at img i) =? 0 then []
     else [CAux (aux_function_index (node_at img i)) i CFL_EVENT_TYPE_NULL CFL_INIT_EVENT]))).
  { destruct (aux_function_index (node_at img i) =? 0); [split; [reflexivity|by rewrite app_nil_r]|].
    eapply ensures_bind; [by apply (aux_ok _ _ _ _ _ _ _ Hau)|]. intros r. cbn [ensures]. by rewrite Z2Nat.id. }
  intros h2 [S2 E2]. assert (step h h2) as S by by etrans. rewrite E1, <- app_assoc in E2.
  change (rest h2 = rest h ++ start_calls ns links kbs n_main n_one_shot n_aux b i) in E2.
  assert (Forall (fun c => call_node c = i) (start_calls ns links kbs n_main n_one_shot n_aux b i)) as Hc.
  { apply Forall_app. split; by apply one_call. }
  unfold cfl_set_node_initialization_flag. apply ensures_raise. intros Hn%Z.leb_gt. cbn [ensures].
  assert (sized img h2) as Hs2 by by apply S. set (v := Z.lor _ _).
  assert (flag_of (set_flag i v h2) i = v) as Ev by (apply flag_set_eq; destruct Hs2; lia).
  assert (running (set_flag i v h2) i = true) as Er.
  { unfold running. rewrite Ev. unfold v. rewrite (has_lor_bit _ 6), has_lor by done. by apply (idle_enabled _ _ _ _ _ _ _ _ _ S). }
  assert (rest (set_flag i v h2) = rest h2) as Ere by by destruct h2.
  split; [split; [constructor|]|done].
  - destruct Hs2. split; [by destruct h2|by rewrite set_flag_len].
  - intros j Hj. rewrite Ere. destruct (Z.eq_dec i j) as [<- | Hne].
    + rewrite Er, E2, calls_app, (calls_same i (start_calls _ _ _ _ _ _ _ _)) by done. constructor. rewrite <- Hr. by apply Hs.
    + assert (running (set_flag i v h2) j = running h2 j) as ->; [|by apply (others_sessions h h2 i _ Hok S E2 Hc)].
      unfold running. destruct (flag_set_cases h2 i j v) as [-> | [-> _]]; [done|by destruct Hne].
  - destruct S as [_ _ [W1 W2] _ _ _]. by destruct h2.
Qed.

Context (start count : Z) (Hwin : window_ok ns links kbs n_main n_one_shot n_aux b start count).

Definition windowed (h : handle) : Prop := ok h /\ kb_start_index h = start /\ kb_node_count h = count.
Lemma windowed_step h h' : windowed h -> ok h' /\ same_window h h' -> windowed h'.
Proof. intros (_ & A & B) [Hok [C D]]. split; [done|split; congruence]. Qed.

Lemma act_on_ok code h i : windowed h -> in_window start count i -> ensures (act_on img code h i) (fun r => windowed r.2).
Proof using Hix Hwin.
  intros Hw Hi. pose proof Hw as (Hok & Ws & Wc). unfold act_on. cbv zeta.
  assert (node_count img < 2 ^ 16) as Hsz by apply Hok. destruct Hwin as [(Hr0 & Hr1 & Hr2) Hpar _].
  repeat match goal with |- ensures (if ?t then _ else _) _ => destruct t eqn:? end; try (by cbn [ensures]).
  - assert (parent_index (node_at img i) < start + count \/ parent_index (node_at img i) = NO_PARENT) as Hp by by apply Hpar.
    destruct (node_indices i) as (_ & _ & _ & _ & Hp0). destruct Hp as [Hp|Hp].
    + eapply ensures_bind; [by apply terminate_ok|]. intros h1 [[Hok1 W1] Hrun].
      eapply ensures_bind; [apply (enable_ok h1); [done|apply Hrun; rewrite ?Ws, ?Wc; lia || exact Hr2]|].
      intros h2 Hk2. cbn [ensures snd]. eapply windowed_step; [|exact Hk2]. eapply windowed_step; [exact Hw|by split].
    + unfold cfl_terminate_node_tree. rewrite Hp, (proj2 (Z.leb_le _ _)); [done|]. unfold NO_PARENT. lia.
  - eapply ensures_bind; [by apply terminate_any|]. intros h1 Hk. cbn [ensures snd]. by eapply windowed_step.
  - eapply ensures_bind; [by apply terminate_any|]. intros h1 Hk. cbn [ensures snd]. by eapply windowed_step.
  - eapply ensures_bind; [apply disable_ok; [done|unfold in_window in Hi; lia]|]. intros h1 [Hk (W & _)]. cbn [ensures snd].
    by eapply windowed_step.
  - assert (windowed (h <| cfl_engine_flag := false |>)) as Hw1.
    { destruct Hok as [A B]. by destruct h. }
    eapply ensures_bind; [apply terminate_any, Hw1|]. intros h1 Hk. cbn [ensures snd]. by eapply windowed_step.
Qed.

Lemma execute_ok h i : windowed h -> in_window start count i -> ensures (cfl_execute_node img h i) (fun r => windowed r.2).
Proof using Hix Hwin.
  intros Hw Hi. assert (0 <= i) as Hi0 by (destruct Hwin as [? _ _]; unfold in_window in Hi; lia).
  unfold cfl_execute_node, cfl_engine_node_is_enabled, cfl_engine_node_is_initialized. apply ensures_raise. intros Hn. rewrite Hn. cbv zeta.
  apply ensures_not_null. intros main Hm. apply ensures_not_null. intros init Hin. apply ensures_not_null. intros aux Hau.
  cbn [raise_if cbind]. destruct (has (flag_of h i) CT_FLAG_USER3) eqn:Een; cbn [negb]; [|exact Hw].
  set (h0 := h <| cfl_node_execution_count ::= _ |>). assert (windowed h0) as Hw0 by (destruct Hw as ([A B] & D); by destruct h).
  assert (flag_of h0 i = flag_of h i) as Ef by by destruct h. clearbody h0. clear Hw. fold (running h0 i). rewrite <- Ef in Een.
  eapply (ensures_bind _ _ (fun h1 => windowed h1 /\ running h1 i = true)).
  { destruct (running h0 i) eqn:Er; cbn [negb]; [by split|]. eapply ensures_weaken; [apply (initialize_ok init aux); try done; apply Hw0|].
    intros h1 [Hk Hr]. split; [|done]. by eapply windowed_step. }
  intros h1 [Hw1 Hr1]. apply ensures_not_null. intros e He. eapply ensures_bind; [apply (main_ok main); try done; apply Hw1|].
  intros [code h2] Hk. cbn [fst snd] in *. apply act_on_ok; [|done].
  destruct (windowed_step _ _ Hw1 Hk) as ([A B] & D). by destruct h2.
Qed.

(** ** Events *)

Lemma windowed_flags u fl fl' : windowed (u <| h_flags := fl |>) -> zlen fl' = zlen fl ->
  (forall i, Z.land (zget 0 fl' i) CT_FLAG_USER_MASK = Z.land (zget 0 fl i) CT_FLAG_USER_MASK) -> windowed (u <| h_flags := fl' |>).
Proof.
  intros ([[Hw Hl] Hs] & W) Hlen Hu. assert (forall f k, Z.land CT_FLAG_USER_MASK k = k -> has f k = has (Z.land f CT_FLAG_USER_MASK) k) as Hm.
  { intros f k Hk. by rewrite has_land. }
  assert (forall j, running (u <| h_flags := fl' |>) j = running (u <| h_flags := fl |>) j) as Hr.
  { intros j. unfold running. assert (flag_of (u <| h_flags := fl' |>) j = zget 0 fl' j /\ flag_of (u <| h_flags := fl |>) j = zget 0 fl j)
      as [-> ->] by by destruct u.
    rewrite (Hm (zget 0 fl' j) CT_FLAG_USER2), (Hm (zget 0 fl' j) CT_FLAG_USER3), Hu by done. by rewrite !has_land. }
  split; [constructor|by destruct u].
  - split; [by destruct u|]. destruct u. cbn in *. by rewrite Hlen.
  - intros j Hj. rewrite Hr. assert (rest (u <| h_flags := fl' |>) = rest (u <| h_flags := fl |>)) as -> by by destruct u. by apply Hs.
Qed.

Lemma copy_links_all (P : Z -> Prop) l : forall n, Forall P l -> ensures (copy_links img l n) (Forall P).
Proof.
  induction l as [|j l IH]; intros n Hf; cbn [copy_links]; [apply Forall_nil_2|]. apply Forall_cons in Hf as [Hj Hf].
  do 2 (apply ensures_raise; intros _). eapply ensures_bind; [by apply IH|]. intros out Ho. by apply Forall_cons.
Qed.
Lemma links_in_window u i : in_window start count i ->
  ensures (cfl_get_forward_enabled_links img u i) (Forall (in_window start count)).
Proof using Hwin.
  intros Hi. unfold cfl_get_forward_enabled_links. apply ensures_raise. intros _. cbv zeta.
  do 2 (apply ensures_raise; intros _).
  assert (Forall (in_window start count) (map (fun k => link_at img (link_start (node_at img i) + k)) (seqZ 0 (links_of img i)))) as Hf.
  { apply Forall_fmap, Forall_forall. intros k Hk%elem_of_seqZ. apply (win_links _ _ _ _ _ _ _ _ _ Hwin i k Hi). lia. }
  revert Hf. apply copy_links_all.
Qed.

Lemma event_walk_keeps : walk_keeps (cfl_get_forward_enabled_links img) (on_handle (cfl_execute_node img)) (in_window start count)
  (fun fl u => windowed (u <| h_flags := fl |>)).
Proof using Hix Hwin.
  constructor.
  - intros n fl u Hw. apply (windowed_flags u fl); [done|apply cleared_len|apply cleared_user].
  - intros fl u i _ Hw. apply (windowed_flags u fl); [done|unfold zlen; by rewrite zlen_zset|]. intros j. apply marked_user.
  - intros fl u i lvl Hi Hw. pose proof (execute_ok _ i Hw Hi) as He. unfold on_handle.
    destruct (cfl_execute_node img _ i) as [[rc h']| |]; cbn [cbind fst snd]; [|done..]. cbn [ensures snd] in He. by destruct h'.
  - intros u i Hi. apply (links_in_window u i Hi).
Qed.

Lemma event_ok h e : ok h -> ensures (cfl_execute_event img
  (h <| event_data_ptr := Some e |> <| kb_start_index := start |> <| kb_node_count := count |>)) (fun r => ok r.2).
Proof using Hix Hwin.
  intros Hok. set (h1 := h <| event_data_ptr := _ |> <| kb_start_index := _ |> <| kb_node_count := _ |>).
  assert (windowed h1) as Hw by (destruct Hok as [A B]; by destruct h).
  assert (event_data_ptr h1 = Some e) as Ee by by destruct h. clearbody h1. unfold cfl_execute_event. rewrite Ee. cbn [not_null].
  pose proof Hw as (Hok1 & -> & ->). assert (node_count img < 2 ^ 16) as Hsz by apply Hok1.
  destruct Hwin as [(Hr0 & Hr1 & Hr2) _ _]. cbv zeta. change (zlen ns) with (node_count img) in Hr2.
  apply ensures_raise; intros Hlo%Z.ltb_ge. apply ensures_raise; intros _. apply ensures_raise; intros Hhi%Z.leb_gt.
  apply ensures_raise; intros Hn. rewrite u32_id in Hhi by (unfold fits; lia).
  unfold cfl_engine_node_is_enabled. rewrite Hn. cbn [raise_if cbind]. destruct (has _ _); cbn [negb]; [|done].
  set (h2 := h1 <| cfl_engine_flag := true |> <| cfl_node_execution_count := 0 |> <| node_start_index := ev_node_id e |>).
  assert (windowed h2) as Hw2 by (destruct Hw as ([A B] & D); by destruct h1). clearbody h2.
  eapply (ensures_bind _ _ windowed).
  - unfold engine_walk. set (u0 := h2 <| h_walker := _ |>). set (w := walker_of _ _ h2).
    assert (windowed (u0 <| h_flags := h_flags h2 |>)) as Hi0.
    { destruct Hw2 as ([((A1 & A2 & A3) & A4) B] & D). unfold u0. destruct h2. split; [|done]. by constructor. }
    assert (0 <= wr_max_level (h_walker h2)) as Hlv by apply Hw2. assert (0 <= node_count img) as H0 by lia.
    pose proof (walk_keeps_inv w (in_window start count) (fun fl u => windowed (u <| h_flags := fl |>)) u0 (ev_node_id e) (h_max_level h2)
      (wr_max_level (h_walker h2)) (node_count img) event_walk_keeps ltac:(by split) Hi0 Hlv H0 ltac:(lia)) as Hk.
    destruct (ct_walker_walk _ _ _ _ _ _ _) as [[[rc w'] u']| |] eqn:Ewalk; cbn [cbind]; [|done..]. cbn [ensures fst snd].
    destruct Hk as ((_ & En & Eml) & _ & Hwf).
    assert (put_walker w' u' = u' <| h_flags := flags w' |> <| h_walker := mk_regs (max_nodes w') (max_level w') (max_node_id w') (stop_all w') |>) as -> by done.
    destruct Hwf as ([(((A1 & A2) & A3 & A4) & A5) B] & D). destruct u'. split; [|done]. constructor; [|done].
    split; [split; [split; [|done]|done]|done]. transitivity (max_nodes w'); [done|]. rewrite En. subst w. destruct Hw2 as ([(((E1 & _) & _) & _) _] & _). exact E1.
  - intros h3 Hw3. cbn [ensures snd]. destruct ((cfl_node_execution_count h3 =? 0) || negb (cfl_engine_flag h3)); [|apply Hw3].
    destruct Hw3 as ([A B] & D). by destruct h3.
Qed.
End Proofs.

Section Reach.
Context (ns : list chaintree_node_t) (links : list Z) (kbs : list chaintree_kb_info_t).
Context (n_main n_one_shot n_aux : nat) (b : behaviour) (Hix : indices_ok ns).

#[local] Abbreviation img := (image ns links kbs n_main n_one_shot n_aux b).
#[local] Abbreviation ok := (life_ok ns links kbs n_main n_one_shot n_aux b).

Lemma each_disable_ok l : forall h, ok h -> Forall (fun i => 0 <= i) l -> ensures (each (cfl_disable_node img) l h) ok.
Proof using Hix.
  induction l as [|i l IH]; intros h Hok Hl; cbn [each]; [done|]. apply Forall_cons in Hl as [Hi Hl].
  eapply ensures_bind; [by apply disable_ok|]. intros h1 [Hok1 _]. by apply IH.
Qed.
Lemma each_disable_flag_ok l : forall h, ok h -> Forall (fun i => 0 <= i /\ running h i = false) l ->
  ensures (each (cfl_disable_node_flag img) l h) (fun h' => ok h' /\ forall i, running h i = false -> running h' i = false).
Proof.
  induction l as [|i l IH]; intros h Hok Hl; cbn [each]; [by split|]. apply Forall_cons in Hl as [[Hi Hr] Hl].
  pose proof Hok as [Hsz Hs]. eapply ensures_bind.
  - apply disable_flag_ok; [done|done|rewrite <- Hr; by apply Hs|by intros j Hj _; apply Hs].
  - intros h1 [Hok1 Hst]. assert (forall j, running h j = false -> running h1 j = false) as Hr1 by (intros j; by eapply settles_weaken).
    eapply ensures_weaken; [apply IH; [done|]|].
    + eapply Forall_impl; [done|]. intros j [? ?]. split; [done|by apply Hr1].
    + intros h2 [Hok2 Hr2]. split; [done|]. intros j Hj. by apply Hr2, Hr1.
Qed.
Lemma init_test_ok h start count : ok h -> idle_range h start count -> 0 <= start -> 0 < count ->
  ensures (cfl_engine_init_test img h start count) ok.
Proof.
  intros Hok Hidle Hs Hc. unfold cfl_engine_init_test. do 2 (apply ensures_raise; intros _). eapply ensures_bind.
  - apply each_disable_flag_ok; [done|]. apply Forall_forall. intros i Hi%elem_of_seqZ. split; [lia|].
    apply Hidle. unfold in_window. lia.
  - intros h1 [Hok1 Hr]. eapply ensures_weaken; [apply enable_ok; [done|]|by intros h2 [? _]].
    apply Hr, Hidle. unfold in_window. lia.
Qed.

Lemma life_reach_ok h : life_reach ns links kbs n_main n_one_shot n_aux b h -> ok h.
Proof using Hix.
  assert (forall (A : Type) (m : cfl A) (P : A -> Prop) a, ensures m P -> m = Ret a -> P a) as Hret by (intros A m P a H ->; exact H).
  induction 1 as [h Hsz Hr Hn|h start count h' _ IH Hi H0 H1 E|h e start count r _ IH Hw E|h start count h' _ IH H0 H1 E].
  - constructor; [done|]. intros j Hj. rewrite Hr, Hn. constructor.
  - by apply (Hret _ _ _ _ (init_test_ok h start count IH Hi H0 H1)).
  - by apply (Hret _ _ _ _ (event_ok _ _ _ _ _ _ _ Hix start count Hw h e IH)).
  - refine (Hret _ _ _ _ (each_disable_ok _ h IH _) E). apply Forall_forall. intros i Hi%elem_of_down. lia.
Qed.
End Reach.


Lemma ex_indices : indices_ok ex_nodes.
Proof. split; [|done]. unfold ex_nodes. rewrite !Forall_cons, Forall_nil. by vm_decide. Qed.
Lemma ex_window_ok : window_ok ex_nodes [1; 4; 2; 3] [] 1 3 2 ex_behaviour 0 5.
Proof.
  assert (forall i, in_window 0 5 i -> i ∈ seqZ 0 5) as Hin by (intros i Hi; apply elem_of_seqZ; exact Hi).
  constructor; [done| |].
  - intros i Hi%Hin. revert i Hi. apply (proj1 (Forall_forall (fun i => parent_index (node_at ex_image i) < 5 \/
      parent_index (node_at ex_image i) = NO_PARENT) (seqZ 0 5))). by vm_decide.
  - assert (Forall (fun i => Forall (fun k => 0 <= link_at ex_image (link_start (node_at ex_image i) + k) < 5)
      (seqZ 0 (links_of ex_image i))) (seqZ 0 5)) as Hl by by vm_decide.
    intros i k Hi%Hin Hk. rewrite Forall_forall in Hl. specialize (Hl i Hi). rewrite Forall_forall in Hl. apply Hl, elem_of_seqZ. exact Hk.
Qed.

Lemma ex_reach : life_reach ex_nodes [1; 4; 2; 3] [] 1 3 2 ex_behaviour ex_ended.
Proof.
  apply (life_event _ _ _ _ _ _ _ ex_ran (ex_event 0 5) 0 5 (true, ex_ended)); [|apply ex_window_ok|by vm_compute].
  apply (life_event _ _ _ _ _ _ _ ex_started (ex_event 0 4) 0 5 (true, ex_ran)); [|apply ex_window_ok|by vm_compute].
  assert (forall i, running ex_boot i = false) as Hr.
  { intros i. unfold running, flag_of. assert (zget 0 (h_flags ex_boot) i = 0) as ->; [|done].
    unfold zget. destruct (i <? 0); [done|].
    destruct (nth_in_or_default (Z.to_nat i) (h_flags ex_boot) 0) as [Hin|E]; [|done]. cbn in Hin. by intuition. }
  apply (life_init_test _ _ _ _ _ _ _ ex_boot 0 5); [|by intros i _|done|done|by vm_compute].
  by apply life_boot.
Qed.



