(* ===== verification/JsonDecoder.v ===== *)
(** The decoder of the node data in flash ([engine/src/json_node_decoder.c]): a JSON value is a
    run of records in preorder, each a tag and a 32-bit word; a path such as [a.b[2].c] is followed
    by scanning keys and skipping the values between them.

    The NULL guards on contexts and output pointers have no counterpart. A string is the bytes up to
    the NUL; where the table lacks one, C reads on and the model stops. The printing functions are
    compiled under [JSON_DEBUG] only and are left out. The conversions between [float] and [int32_t]
    belong to the compiler's run time and are arguments. *)
From S2P Require Import Prelude CflBase CflEngine.
#[local] Open Scope cfl_scope.

Definition JSON_TYPE_STRING : Z := 0.
Definition JSON_TYPE_INT32 : Z := 1.
Definition JSON_TYPE_FLOAT32 : Z := 2.
Definition JSON_TYPE_NULL : Z := 3.
Definition JSON_TYPE_BOOL : Z := 4.
Definition JSON_TYPE_ARRAY : Z := 5.
Definition JSON_TYPE_OBJECT : Z := 6.

(** [j_value] is the union's word: an offset, a count, or the bits of an [int32_t] or a [float]; a
    [bool_value] is its low byte. *)
Record json_record_t := mk_json { object_type : Z; j_value : Z }.
Definition json0 : json_record_t := mk_json 0 0.
Record record_control_t := mk_region { start_position : Z; num_records : Z }.
Definition region0 : record_control_t := mk_region 0 0.
Record json_decoder_ctx_t := mk_ctx {
  records : list json_record_t; strings : list Z; controls : list record_control_t; current_control_idx : Z
}.
Definition records_count (ctx : json_decoder_ctx_t) : Z := zlen (records ctx).
Definition strings_size (ctx : json_decoder_ctx_t) : Z := zlen (strings ctx).
Definition controls_count (ctx : json_decoder_ctx_t) : Z := zlen (controls ctx).

(** The tables of [chaintree_handle_t] the decoder reads. *)
Record node_data_tables := mk_tables {
  node_data_records : list json_record_t; node_data_strings : list Z; node_data_controls : list record_control_t
}.
Definition json_decoder_init {R} (flash_handle : chaintree_handle R) (tables : node_data_tables) (node_index : Z)
    : cfl json_decoder_ctx_t :=
  raise? node_count flash_handle <=? node_index with "json_decoder_init: node_count out of bounds";
  Ret (mk_ctx (node_data_records tables) (node_data_strings tables) (node_data_controls tables)
         (node_data_id (node_at flash_handle node_index))).
Definition json_decoder_init_from_runtime {R} (flash_handle : chaintree_handle R) (tables : node_data_tables)
    (node_id : Z) : cfl json_decoder_ctx_t := json_decoder_init flash_handle tables node_id.

(** ** Records *)

Definition json_get_record (ctx : json_decoder_ctx_t) (i : Z) : option json_record_t :=
  if records_count ctx <=? i then None else Some (zget json0 (records ctx) i).
Definition json_get_string (ctx : json_decoder_ctx_t) (offset : Z) : option Z :=
  if strings_size ctx <=? offset then None else Some offset.
Fixpoint to_nul (l : list Z) : list Z :=
  match l with [] => [] | c :: l => if c =? 0 then [] else c :: to_nul l end.
Definition str_at (ctx : json_decoder_ctx_t) (offset : Z) : list Z := to_nul (drop (Z.to_nat offset) (strings ctx)).
(** [strcmp(key_str, key) == 0]. *)
Definition str_is (ctx : json_decoder_ctx_t) (offset : Z) (key : list Z) : bool :=
  bool_decide (str_at ctx offset = key).

(** [for (uint32_t i = 0; i < count; i += 2)] over keys and values, and [i++] over elements;
    [n] is more than the rounds a loop that ends takes. *)
Fixpoint pairs_size (sub : Z -> cfl Z) (n : nat) (count i size child : Z) : cfl Z :=
  match n with
  | O => Endless
  | S n =>
      if count <=? i then Ret size
      else
        value_size <- sub (u32 (child + 1));;
        pairs_size sub n count (u32 (i + 2)) (u32 (size + 1 + value_size)) (u32 (child + 1 + value_size))
  end.
Fixpoint elems_size (sub : Z -> cfl Z) (n : nat) (count i size child : Z) : cfl Z :=
  match n with
  | O => Endless
  | S n =>
      if count <=? i then Ret size
      else
        elem_size <- sub child;;
        elems_size sub n count (u32 (i + 1)) (u32 (size + elem_size)) (u32 (child + elem_size))
  end.
Definition rounds (count : Z) : nat := S (Z.to_nat count).
(** Children have larger indices, so that the recursion is as deep as the table is long at most. *)
Fixpoint subtree_size (fuel : nat) (ctx : json_decoder_ctx_t) (i : Z) : cfl Z :=
  match fuel with
  | O => Endless
  | S fuel =>
      match json_get_record ctx i with
      | None => Ret 1
      | Some r =>
          if object_type r =? JSON_TYPE_OBJECT
          then pairs_size (subtree_size fuel ctx) (rounds (j_value r)) (j_value r) 0 1 (u32 (i + 1))
          else if object_type r =? JSON_TYPE_ARRAY
          then elems_size (subtree_size fuel ctx) (rounds (j_value r)) (j_value r) 0 1 (u32 (i + 1))
          else Ret 1
      end
  end.
Definition json_calc_subtree_size (ctx : json_decoder_ctx_t) (i : Z) : cfl Z :=
  subtree_size (S (length (records ctx))) ctx i.

Fixpoint find_key (n : nat) (ctx : json_decoder_ctx_t) (key : list Z) (count i child : Z) : cfl Z :=
  match n with
  | O => Endless
  | S n =>
      if count <=? i then EXCEPTION "json_find_object_child: Key not found"
      else
        let next :=
          value_size <- json_calc_subtree_size ctx (u32 (child + 1));;
          find_key n ctx key count (u32 (i + 2)) (u32 (child + 1 + value_size)) in
        match json_get_record ctx child with
        | Some key_record =>
            if negb (object_type key_record =? JSON_TYPE_STRING) then
              if u32 (i + 1) <? count then next else find_key n ctx key count (u32 (i + 2)) (u32 (child + 1))
            else
              match json_get_string ctx (j_value key_record) with
              | Some key_str => if str_is ctx key_str key then Ret (u32 (child + 1)) else next
              | None => next
              end
        | None => if u32 (i + 1) <? count then next else find_key n ctx key count (u32 (i + 2)) (u32 (child + 1))
        end
  end.
Definition json_find_object_child (ctx : json_decoder_ctx_t) (parent_record : Z) (key : list Z) : cfl Z :=
  let? parent := json_get_record ctx parent_record or "json_find_object_child: Invalid parent record" in
  raise? negb (object_type parent =? JSON_TYPE_OBJECT) with "json_find_object_child: Parent is not an object";
  find_key (rounds (j_value parent)) ctx key (j_value parent) 0 (u32 (parent_record + 1)).

(** [index] elements skipped. *)
Fixpoint skip_elems (n : nat) (ctx : json_decoder_ctx_t) (child : Z) : cfl Z :=
  match n with
  | O => Ret child
  | S n => elem_size <- json_calc_subtree_size ctx child;; skip_elems n ctx (u32 (child + elem_size))
  end.
Definition json_get_array_child (ctx : json_decoder_ctx_t) (parent_record index : Z) : cfl Z :=
  let? parent := json_get_record ctx parent_record or "json_get_array_child: Invalid parent record" in
  raise? negb (object_type parent =? JSON_TYPE_ARRAY) with "json_get_array_child: Parent is not an array";
  raise? j_value parent <=? index with "json_get_array_child: Array index out of bounds";
  skip_elems (Z.to_nat index) ctx (u32 (parent_record + 1)).

(** ** Paths: characters without the NUL *)

Definition DOT : Z := 46.
Definition LBRACKET : Z := 91.
Definition RBRACKET : Z := 93.
Definition KEY_BUF_SIZE : Z := 64.
Definition isdigit (c : Z) : bool := (48 <=? c) && (c <=? 57).

Fixpoint take_key (n : nat) (p : list Z) : list Z * list Z :=
  match n, p with
  | S n, c :: p' =>
      if (c =? DOT) || (c =? LBRACKET) then ([], p) else let r := take_key n p' in (c :: r.1, r.2)
  | _, _ => ([], p)
  end.
Fixpoint scan_index (acc : Z) (p : list Z) : Z * list Z :=
  match p with
  | c :: p' => if isdigit c then scan_index (s32 (acc * 10 + (c - 48))) p' else (acc, p)
  | [] => (acc, [])
  end.
Definition skip_char (c : Z) (p : list Z) : list Z :=
  match p with c' :: p' => if c' =? c then p' else p | [] => [] end.
(** Key, index or -1, and the rest of the path. *)
Definition parse_path_component (path : list Z) : list Z * Z * list Z :=
  let '(key, p) := take_key (Z.to_nat (KEY_BUF_SIZE - 1)) path in
  let '(index, p) :=
    match p with
    | c :: p' => if c =? LBRACKET then let '(n, p) := scan_index 0 p' in (n, skip_char RBRACKET p) else (-1, p)
    | [] => (-1, [])
    end in
  (key, index, skip_char DOT p).

(** Every round consumes a character. *)
Fixpoint navigate (fuel : nat) (ctx : json_decoder_ctx_t) (current_record : Z) (path : list Z) : cfl Z :=
  match path, fuel with
  | [], _ => Ret current_record
  | _, O => Endless
  | _, S fuel =>
      let '(key, array_index, next_path) := parse_path_component path in
      r <- (match key with [] => Ret current_record | _ => json_find_object_child ctx current_record key end);;
      r <- (if 0 <=? array_index then json_get_array_child ctx r array_index else Ret r);;
      navigate fuel ctx r next_path
  end.
Definition json_navigate_path (ctx : json_decoder_ctx_t) (root_record : Z) (path : list Z) : cfl Z :=
  navigate (length path) ctx root_record path.

(** ** Values *)

Section Values.
Context (float_to_int32 int32_to_float : Z -> Z) (ctx : json_decoder_ctx_t).

Definition json_get_int32 (i : Z) : cfl Z :=
  let? r := json_get_record ctx i or "json_get_int32: Invalid record index" in
  if object_type r =? JSON_TYPE_INT32 then Ret (s32 (j_value r))
  else if object_type r =? JSON_TYPE_FLOAT32 then Ret (float_to_int32 (j_value r))
  else EXCEPTION "json_get_int32: Type mismatch - expected INT32 or FLOAT32".
(** The bits of the [float]. *)
Definition json_get_float32 (i : Z) : cfl Z :=
  let? r := json_get_record ctx i or "json_get_float32: Invalid record index" in
  if object_type r =? JSON_TYPE_FLOAT32 then Ret (j_value r)
  else if object_type r =? JSON_TYPE_INT32 then Ret (int32_to_float (s32 (j_value r)))
  else EXCEPTION "json_get_float32: Type mismatch - expected FLOAT32 or INT32".
Definition json_get_bool (i : Z) : cfl bool :=
  let? r := json_get_record ctx i or "json_get_bool: Invalid record index" in
  raise? negb (object_type r =? JSON_TYPE_BOOL) with "json_get_bool: Type mismatch - expected BOOL";
  Ret (nz (u8 (j_value r))).
(** A pointer into the string table. *)
Definition json_get_string_value (i : Z) : cfl Z :=
  let? r := json_get_record ctx i or "json_get_string_value: Invalid record index" in
  raise? negb (object_type r =? JSON_TYPE_STRING) with "json_get_string_value: Type mismatch - expected STRING";
  let? s := json_get_string ctx (j_value r) or "json_get_string_value: Invalid string offset" in
  Ret s.
Definition json_is_null (i : Z) : bool :=
  match json_get_record ctx i with Some r => object_type r =? JSON_TYPE_NULL | None => false end.

Definition json_extract_int32 (root : Z) (path : list Z) : cfl Z :=
  target <- json_navigate_path ctx root path;; json_get_int32 target.
Definition json_extract_float32 (root : Z) (path : list Z) : cfl Z :=
  target <- json_navigate_path ctx root path;; json_get_float32 target.
Definition json_extract_bool (root : Z) (path : list Z) : cfl bool :=
  target <- json_navigate_path ctx root path;; json_get_bool target.
Definition json_extract_string (root : Z) (path : list Z) : cfl Z :=
  target <- json_navigate_path ctx root path;; json_get_string_value target.

Definition json_get_child_count (i : Z) : cfl Z :=
  let? r := json_get_record ctx i or "json_get_child_count: Invalid record index" in
  raise? negb (object_type r =? JSON_TYPE_ARRAY) && negb (object_type r =? JSON_TYPE_OBJECT)
    with "json_get_child_count: Record is not a container type";
  Ret (j_value r).
Definition json_extract_array_length (root : Z) (path : list Z) : cfl Z :=
  target <- json_navigate_path ctx root path;;
  let? r := json_get_record ctx target or "json_extract_array_length: Invalid target record" in
  raise? negb (object_type r =? JSON_TYPE_ARRAY) with "json_extract_array_length: Target is not an array";
  Ret (j_value r).
Definition json_extract_array_int32 (root : Z) (path : list Z) (index : Z) : cfl Z :=
  array <- json_navigate_path ctx root path;;
  element <- json_get_array_child ctx array index;;
  json_get_int32 element.

(** *** On the region of the node the context was set up for *)

Definition on_region {A} (msg : string) (f : Z -> cfl A) : cfl A :=
  raise? controls_count ctx <=? current_control_idx ctx with msg;
  f (start_position (zget region0 (controls ctx) (current_control_idx ctx))).
Definition json_extract_int32_runtime (path : list Z) : cfl Z :=
  on_region "json_extract_int32_runtime: Invalid control index" (fun root => json_extract_int32 root path).
Definition json_extract_float32_runtime (path : list Z) : cfl Z :=
  on_region "json_extract_float32_runtime: Invalid control index" (fun root => json_extract_float32 root path).
Definition json_extract_bool_runtime (path : list Z) : cfl bool :=
  on_region "json_extract_bool_runtime: Invalid control index" (fun root => json_extract_bool root path).
Definition json_extract_string_runtime (path : list Z) : cfl Z :=
  on_region "json_extract_string_runtime: Invalid control index" (fun root => json_extract_string root path).
Definition json_extract_array_length_runtime (path : list Z) : cfl Z :=
  on_region "json_extract_array_length_runtime: Invalid control index" (fun root => json_extract_array_length root path).
Definition json_extract_array_int32_runtime (path : list Z) (index : Z) : cfl Z :=
  on_region "json_extract_array_int32_runtime: Invalid control index"
    (fun root => json_extract_array_int32 root path index).
Definition json_navigate_path_runtime (path : list Z) : cfl Z :=
  on_region "json_navigate_path_runtime: Invalid control index" (fun root => json_navigate_path ctx root path).

(** [json_validate_records]: the records [i] up to [fin], [n] left. *)
Fixpoint validate_records (n : nat) (i fin : Z) : cfl unit :=
  match n with
  | O => Ret tt
  | S n =>
      let r := zget json0 (records ctx) i in
      raise? JSON_TYPE_OBJECT <? object_type r with "json_validate_records: Invalid record type";
      raise? (object_type r =? JSON_TYPE_STRING) && (strings_size ctx <=? j_value r)
        with "json_validate_records: String offset out of bounds";
      raise? ((object_type r =? JSON_TYPE_OBJECT) || (object_type r =? JSON_TYPE_ARRAY))
             && (fin <? u32 (i + 1 + j_value r))
        with "json_validate_records: Container children extend beyond control region";
      validate_records n (i + 1) fin
  end.
Definition json_validate_records (control_idx : Z) : cfl unit :=
  raise? controls_count ctx <=? control_idx with "json_validate_records: Invalid control index";
  let control := zget region0 (controls ctx) control_idx in
  let fin := u32 (start_position control + num_records control) in
  raise? records_count ctx <? fin with "json_validate_records: Control region extends beyond records array";
  validate_records (Z.to_nat (fin - start_position control)) (start_position control) fin.
End Values.
