(* ===== verification/JsonPaths.v ===== *)
(** The decoder of [JsonDecoder] against JSON values: a value is laid out over a run of records
    ([rep]), a path is followed in the value ([follow]), and the decoder finds on the records what
    following finds in the value, or raises what it names. *)
From S2P Require Import Prelude CflBase CflEngine JsonDecoder.
#[local] Open Scope cfl_scope.

Inductive json :=
| JString (s : list Z) | JInt (n : Z) | JFloat (bits : Z) | JNull | JBool (b : bool)
| JArray (l : list json) | JObject (m : list (list Z * json)).

(** [rep j i e]: the records from [i] up to [e] are [j]. *)
Inductive rep (ctx : json_decoder_ctx_t) : json -> Z -> Z -> Prop :=
| rep_string i off : json_get_record ctx i = Some (mk_json JSON_TYPE_STRING off) -> off < strings_size ctx ->
    rep ctx (JString (str_at ctx off)) i (i + 1)
| rep_int i w : json_get_record ctx i = Some (mk_json JSON_TYPE_INT32 w) -> rep ctx (JInt (s32 w)) i (i + 1)
| rep_float i w : json_get_record ctx i = Some (mk_json JSON_TYPE_FLOAT32 w) -> rep ctx (JFloat w) i (i + 1)
| rep_null i w : json_get_record ctx i = Some (mk_json JSON_TYPE_NULL w) -> rep ctx JNull i (i + 1)
| rep_bool i w : json_get_record ctx i = Some (mk_json JSON_TYPE_BOOL w) -> rep ctx (JBool (nz (u8 w))) i (i + 1)
| rep_array i l e : json_get_record ctx i = Some (mk_json JSON_TYPE_ARRAY (zlen l)) -> reps ctx l (i + 1) e ->
    rep ctx (JArray l) i e
| rep_object i m e : json_get_record ctx i = Some (mk_json JSON_TYPE_OBJECT (2 * zlen m)) ->
    rep_pairs ctx m (i + 1) e -> rep ctx (JObject m) i e
with reps (ctx : json_decoder_ctx_t) : list json -> Z -> Z -> Prop :=
| reps_nil i : reps ctx [] i i
| reps_cons j l i k e : rep ctx j i k -> reps ctx l k e -> reps ctx (j :: l) i e
with rep_pairs (ctx : json_decoder_ctx_t) : list (list Z * json) -> Z -> Z -> Prop :=
| pairs_nil i : rep_pairs ctx [] i i
| pairs_cons off j m i k e : json_get_record ctx i = Some (mk_json JSON_TYPE_STRING off) -> off < strings_size ctx ->
    rep ctx j (i + 1) k -> rep_pairs ctx m k e -> rep_pairs ctx ((str_at ctx off, j) :: m) i e.
Scheme rep_ind' := Induction for rep Sort Prop
  with reps_ind' := Induction for reps Sort Prop
  with rep_pairs_ind' := Induction for rep_pairs Sort Prop.
Combined Scheme rep_mutind from rep_ind', reps_ind', rep_pairs_ind'.

(** A component of a path: a key and the digits of an index, either of which may be missing. *)
Record component := mk_component { c_key : list Z; c_index : option (list Z) }.
Definition index_of (digits : list Z) : Z := fold_left (fun acc c => acc * 10 + (c - 48)) digits 0.
Definition render1 (c : component) : list Z :=
  c_key c ++ match c_index c with Some digits => LBRACKET :: digits ++ [RBRACKET] | None => [] end.
(** The index as the parser returns it. *)
Definition index_z (c : component) : Z := match c_index c with Some digits => index_of digits | None => -1 end.
Fixpoint render (p : list component) : list Z :=
  match p with
  | [] => []
  | [c] => render1 c
  | c :: p => render1 c ++ DOT :: render p
  end.
(** What fits the key buffer and an [int32_t]. *)
Record component_ok (c : component) : Prop := {
  co_key : Forall (fun x => x <> DOT /\ x <> LBRACKET) (c_key c) /\ zlen (c_key c) < KEY_BUF_SIZE;
  co_index digits : c_index c = Some digits -> Forall (fun x => isdigit x = true) digits /\ index_of digits < 2 ^ 31;
  co_some : c_key c <> [] \/ c_index c <> None
}.

Fixpoint child_of (key : list Z) (m : list (list Z * json)) : option json :=
  match m with [] => None | (k, j) :: m => if bool_decide (k = key) then Some j else child_of key m end.
Definition follow_key (key : list Z) (j : json) : cfl json :=
  match j with
  | JObject m => match child_of key m with Some j => Ret j | None => EXCEPTION "json_find_object_child: Key not found" end
  | _ => EXCEPTION "json_find_object_child: Parent is not an object"
  end.
Definition follow_index (i : Z) (j : json) : cfl json :=
  match j with
  | JArray l => match l !! Z.to_nat i with Some j => Ret j | None => EXCEPTION "json_get_array_child: Array index out of bounds" end
  | _ => EXCEPTION "json_get_array_child: Parent is not an array"
  end.
Definition follow1 (c : component) (j : json) : cfl json :=
  j <- match c_key c with [] => Ret j | key => follow_key key j end;;
  match c_index c with Some digits => follow_index (index_of digits) j | None => Ret j end.
Fixpoint follow (p : list component) (j : json) : cfl json :=
  match p with [] => Ret j | c :: p => j <- follow1 c j;; follow p j end.

(** What the getters make of a value. *)
Definition as_int32 (float_to_int32 : Z -> Z) (j : json) : cfl Z :=
  match j with
  | JInt n => Ret n
  | JFloat bits => Ret (float_to_int32 bits)
  | _ => EXCEPTION "json_get_int32: Type mismatch - expected INT32 or FLOAT32"
  end.
Definition as_bool (j : json) : cfl bool :=
  match j with JBool b => Ret b | _ => EXCEPTION "json_get_bool: Type mismatch - expected BOOL" end.
Definition as_string (j : json) : cfl (list Z) :=
  match j with JString s => Ret s | _ => EXCEPTION "json_get_string_value: Type mismatch - expected STRING" end.
Definition as_length (j : json) : cfl Z :=
  match j with JArray l => Ret (zlen l) | _ => EXCEPTION "json_extract_array_length: Target is not an array" end.

(** [{"a": [7, {"b": true}], "c": "a"}]. *)
Definition ex_ctx : json_decoder_ctx_t :=
  mk_ctx [mk_json 6 4; mk_json 0 0; mk_json 5 2; mk_json 1 7; mk_json 6 2; mk_json 0 2; mk_json 4 1;
          mk_json 0 4; mk_json 0 0] [97; 0; 98; 0; 99; 0] [mk_region 0 9] 0.
Definition ex_json : json :=
  JObject [([97], JArray [JInt 7; JObject [([98], JBool true)]]); ([99], JString [97])].
Definition ex_path : list component := [mk_component [97] (Some [49]); mk_component [98] None].

(** Decide comparisons of the tags. *)
Ltac open_tag :=
  repeat match goal with
  | |- context [?a =? ?b] =>
      let r := eval cbv in (a =? b) in
      match r with true => change (a =? b) with true | false => change (a =? b) with false end
  end; cbn [negb andb orb]; cbv iota.

Section Layout.
Context (ctx : json_decoder_ctx_t).
(** [node_data_records_count] is a [uint16_t]. *)
Context (Hcount : fits 16 (records_count ctx)).

Lemma record_bound i r : json_get_record ctx i = Some r -> i + 1 <= records_count ctx.
Proof. unfold json_get_record. destruct (Z.leb_spec (records_count ctx) i); [done|lia]. Qed.

Lemma rep_bounds :
  (forall j i e, rep ctx j i e -> i + 1 <= e <= records_count ctx) /\
  (forall l i e, reps ctx l i e -> i + zlen l <= e /\ (i <= records_count ctx -> e <= records_count ctx)) /\
  (forall m i e, rep_pairs ctx m i e -> i + 2 * zlen m <= e /\ (i <= records_count ctx -> e <= records_count ctx)).
Proof.
  apply rep_mutind; intros;
    repeat match goal with H : json_get_record _ _ = Some _ |- _ => apply record_bound in H end;
    unfold zlen in *; cbn [length] in *; lia.
Qed.

(** *** Sizes *)

Lemma size_of_rep :
  (forall j i e, rep ctx j i e -> forall fuel, 0 <= i -> e - i <= Z.of_nat fuel -> subtree_size fuel ctx i = Ret (e - i)) /\
  (forall l c e, reps ctx l c e -> forall fuel n count i size, 0 <= i -> 0 <= c -> 0 <= size <= c -> c <= records_count ctx ->
     e - c <= Z.of_nat fuel -> count = i + zlen l -> count < 2 ^ 32 -> zlen l < Z.of_nat n ->
     elems_size (subtree_size fuel ctx) n count i size c = Ret (size + (e - c))) /\
  (forall m c e, rep_pairs ctx m c e -> forall fuel n count i size, 0 <= i -> 0 <= c -> 0 <= size <= c -> c <= records_count ctx ->
     e - c <= Z.of_nat fuel -> count = i + 2 * zlen m -> count < 2 ^ 32 -> zlen m < Z.of_nat n ->
     pairs_size (subtree_size fuel ctx) n count i size c = Ret (size + (e - c))).
Proof.
  destruct rep_bounds as (B1 & B2 & B3). unfold fits in Hcount.
  apply rep_mutind.
  1-5: intros i w He; intros; destruct fuel as [|fuel]; [lia|]; cbn; rewrite He; cbn; f_equal; lia.
  - intros i l e Hr Hl IH fuel Hi Hf. pose proof (record_bound _ _ Hr). destruct (B2 _ _ _ Hl) as [H1 H2].
    unfold zlen in *. destruct fuel as [|fuel]; [lia|]. cbn [subtree_size]. rewrite Hr. cbn [object_type j_value].
    open_tag.
    rewrite u32_id by (unfold fits; lia). rewrite (IH fuel _ _ 0 1); try (unfold rounds, zlen in *; lia).
    f_equal. lia.
  - intros i m e Hr Hm IH fuel Hi Hf. pose proof (record_bound _ _ Hr). destruct (B3 _ _ _ Hm) as [H1 H2].
    unfold zlen in *. destruct fuel as [|fuel]; [lia|]. cbn [subtree_size]. rewrite Hr. cbn [object_type j_value].
    open_tag.
    rewrite u32_id by (unfold fits; lia). rewrite (IH fuel _ _ 0 1); try (unfold rounds, zlen in *; lia).
    f_equal. lia.
  - intros c fuel n count i size. intros. unfold zlen in *; cbn [length] in *. destruct n as [|n]; [lia|]. cbn.
    destruct (Z.leb_spec count i); [f_equal|]; lia.
  - intros j l c k e Hj IHj Hl IHl fuel n count i size. intros. destruct n as [|n]; [unfold zlen in *; lia|].
    destruct (B1 _ _ _ Hj) as [H7 H8]. destruct (B2 _ _ _ Hl) as [H9 H10].
    cbn [elems_size]. destruct (Z.leb_spec count i); [unfold zlen in *; cbn in *; lia|].
    rewrite IHj by (unfold zlen in *; lia). cbn [cbind]. unfold zlen in *; cbn [length] in *.
    rewrite !u32_id by (unfold fits; lia). replace (c + (k - c)) with k by lia. rewrite (IHl fuel n count); try lia. f_equal. lia.
  - intros c fuel n count i size. intros. unfold zlen in *; cbn [length] in *. destruct n as [|n]; [lia|]. cbn.
    destruct (Z.leb_spec count i); [f_equal|]; lia.
  - intros off j m c k e Hr Hoff Hj IHj Hm IHm fuel n count i size. intros. destruct n as [|n]; [unfold zlen in *; lia|].
    destruct (B1 _ _ _ Hj) as [H7 H8]. destruct (B3 _ _ _ Hm) as [H9 H10].
    cbn [pairs_size]. destruct (Z.leb_spec count i); [unfold zlen in *; cbn in *; lia|].
    unfold zlen in *; cbn [length] in *. rewrite (u32_id (c + 1)) by (unfold fits; lia).
    rewrite IHj by lia. cbn [cbind].
    rewrite !u32_id by (unfold fits; lia). replace (c + 1 + (k - (c + 1))) with k by lia. rewrite (IHm fuel n count); try lia. f_equal. lia.
Qed.

Lemma calc_size j i e : rep ctx j i e -> 0 <= i -> json_calc_subtree_size ctx i = Ret (e - i).
Proof.
  intros Hj Hi. destruct size_of_rep as [S _]. apply (S j); [done..|].
  destruct rep_bounds as [B _]. specialize (B _ _ _ Hj). unfold records_count, zlen in B. lia.
Qed.

(** *** Steps *)

Lemma find_key_rep key m c e : rep_pairs ctx m c e -> forall n count i, 0 <= i -> 0 <= c <= records_count ctx ->
  count = i + 2 * zlen m -> count < 2 ^ 32 -> zlen m < Z.of_nat n ->
  match child_of key m with
  | Some j => exists k e', find_key n ctx key count i c = Ret k /\ rep ctx j k e' /\ 0 <= k
  | None => find_key n ctx key count i c = EXCEPTION "json_find_object_child: Key not found"
  end.
Proof.
  unfold fits in Hcount. destruct rep_bounds as (B1 & _ & B3). induction 1 as [c|off j m c k e Hr Hoff Hj Hm IH].
  - intros n count i. intros. unfold zlen in *; cbn [length] in *. destruct n as [|n]; [lia|]. cbn.
    destruct (Z.leb_spec count i); [done|lia].
  - intros n count i. intros. destruct (B1 _ _ _ Hj) as [H4 H5]. unfold zlen in *; cbn [length] in *.
    destruct n as [|n]; [lia|]. cbn [find_key child_of]. destruct (Z.leb_spec count i); [lia|].
    rewrite Hr. cbn [object_type j_value]. open_tag. unfold json_get_string.
    destruct (Z.leb_spec (strings_size ctx) off); [lia|]. rewrite u32_id by (unfold fits; lia). unfold str_is.
    case_bool_decide as Hk.
    + exists (c + 1), k. split_and!; [done..|lia].
    + rewrite (calc_size _ _ _ Hj) by lia. cbn [cbind]. rewrite !u32_id by (unfold fits; lia).
      replace (c + 1 + (k - (c + 1))) with k by lia. apply IH; lia.
Qed.
Lemma skip_elems_rep l c e : reps ctx l c e -> forall n, 0 <= c ->
  match l !! n with
  | Some j => exists k e', skip_elems n ctx c = Ret k /\ rep ctx j k e' /\ 0 <= k
  | None => True
  end.
Proof.
  unfold fits in Hcount. destruct rep_bounds as (B1 & _ & _). induction 1 as [|j l c k e Hj Hl IH]; intros n Hc; [done|].
  destruct (B1 _ _ _ Hj) as [H4 H5]. destruct n as [|n]; cbn [lookup list_lookup skip_elems].
  { exists c, k. done. }
  rewrite (calc_size _ _ _ Hj) by done. cbn [cbind]. rewrite !u32_id by (unfold fits; lia).
  replace (c + (k - c)) with k by lia. apply IH. lia.
Qed.

Lemma follow_key_rep key j i e : rep ctx j i e -> 0 <= i ->
  match follow_key key j with
  | Ret j' => exists k e', json_find_object_child ctx i key = Ret k /\ rep ctx j' k e' /\ 0 <= k
  | m => json_find_object_child ctx i key = (_ <- m;; Endless)
  end.
Proof.
  unfold fits in Hcount. intros Hj Hi. destruct rep_bounds as (_ & _ & B3). unfold json_find_object_child.
  destruct Hj as [i off Hr|i w Hr|i w Hr|i w Hr|i w Hr|i l e Hr|i m e Hr Hm]; rewrite Hr;
    cbn [not_null object_type j_value follow_key]; open_tag; cbn [raise_if]; try done.
  pose proof (record_bound _ _ Hr). destruct (B3 _ _ _ Hm) as [H1 H2]. rewrite u32_id by (unfold fits; lia).
  pose proof (zlen_nonneg m).
  assert (zlen m < Z.of_nat (rounds (2 * zlen m))) as Hn by (unfold rounds; lia).
  pose proof (find_key_rep key m (i + 1) e Hm _ (2 * zlen m) 0 ltac:(lia) ltac:(lia) ltac:(lia) ltac:(lia) Hn) as Hf.
  destruct (child_of key m); [exact Hf|by rewrite Hf].
Qed.
Lemma follow_index_rep n j i e : rep ctx j i e -> 0 <= i -> 0 <= n ->
  match follow_index n j with
  | Ret j' => exists k e', json_get_array_child ctx i n = Ret k /\ rep ctx j' k e' /\ 0 <= k
  | m => json_get_array_child ctx i n = (_ <- m;; Endless)
  end.
Proof.
  unfold fits in Hcount. intros Hj Hi Hn. unfold json_get_array_child.
  destruct Hj as [i off Hr|i w Hr|i w Hr|i w Hr|i w Hr|i l e Hr Hl|i m e Hr]; rewrite Hr; cbn; try done.
  pose proof (record_bound _ _ Hr). rewrite u32_id by (unfold fits; lia).
  pose proof (skip_elems_rep l (i + 1) e Hl (Z.to_nat n)) as Hs. destruct (l !! Z.to_nat n) as [j|] eqn:Ej.
  - apply lookup_lt_Some in Ej. unfold zlen. destruct (Z.leb_spec (Z.of_nat (length l)) n); [lia|]. apply Hs. lia.
  - apply lookup_ge_None in Ej. unfold zlen. by destruct (Z.leb_spec (Z.of_nat (length l)) n); [|lia].
Qed.

(** *** Paths *)

Lemma take_key_all n k rest : Forall (fun x => x <> DOT /\ x <> LBRACKET) k -> (length k <= n)%nat ->
  match rest with [] => True | c :: _ => c = DOT \/ c = LBRACKET end -> take_key n (k ++ rest) = (k, rest).
Proof.
  revert n. induction k as [|c k IH]; intros n Hk Hn Hr.
  - destruct n, rest as [|c rest]; try done. cbn. destruct Hr as [-> | ->]; done.
  - apply Forall_cons in Hk as [[H1 H2] Hk]. destruct n as [|n]; [cbn in Hn; lia|]. cbn in *.
    destruct (Z.eqb_spec c DOT), (Z.eqb_spec c LBRACKET); try done. cbn. rewrite IH by (done || lia). done.
Qed.
Lemma index_mono ds : forall acc, 0 <= acc -> Forall (fun x => isdigit x = true) ds ->
  acc <= fold_left (fun acc c => acc * 10 + (c - 48)) ds acc.
Proof.
  induction ds as [|c ds IH]; intros acc Ha Hd; [done|]. apply Forall_cons in Hd as [Hc Hd]. cbn.
  unfold isdigit in Hc. bools. specialize (IH (acc * 10 + (c - 48))). specialize (IH ltac:(lia) Hd). lia.
Qed.
Lemma scan_all ds rest : forall acc, 0 <= acc -> Forall (fun x => isdigit x = true) ds ->
  fold_left (fun acc c => acc * 10 + (c - 48)) ds acc < 2 ^ 31 -> scan_index acc (ds ++ RBRACKET :: rest) =
  (fold_left (fun acc c => acc * 10 + (c - 48)) ds acc, RBRACKET :: rest).
Proof.
  induction ds as [|c ds IH]; intros acc Ha Hd Hf; [done|]. apply Forall_cons in Hd as [Hc Hd]. cbn in *.
  rewrite Hc. unfold isdigit in Hc. bools. pose proof (index_mono ds (acc * 10 + (c - 48)) ltac:(lia) Hd).
  assert (s32 (acc * 10 + (c - 48)) = acc * 10 + (c - 48)) as ->; [|by apply IH; [lia|..]].
  unfold s32, u32. rewrite Z.mod_small by lia. destruct (Z.ltb_spec (acc * 10 + (c - 48)) (2 ^ 31)); lia.
Qed.

Lemma parse_component c rest : component_ok c -> match rest with [] => True | x :: _ => x = DOT end ->
  parse_path_component (render1 c ++ rest) = (c_key c, index_z c, tail rest).
Proof.
  intros [[Hk Hl] Hi _] Hr. unfold parse_path_component, render1, index_z. rewrite <- app_assoc.
  assert ((length (c_key c) <= Z.to_nat (KEY_BUF_SIZE - 1))%nat) by (unfold zlen, KEY_BUF_SIZE in *; lia).
  destruct (c_index c) as [ds|].
  - destruct (Hi ds eq_refl) as [Hd Hx]. rewrite take_key_all; [|done|done|by right].
    cbn [app]. change (LBRACKET =? LBRACKET) with true. cbv iota. rewrite <- app_assoc. cbn [app].
    unfold index_of in *. rewrite scan_all by (done || lia). destruct rest as [|x rest]; [done|subst x; done].
  - cbn [app]. rewrite take_key_all; [|done|done|destruct rest; auto].
    destruct rest as [|x rest]; [done|subst x; done].
Qed.
Lemma render1_cons c : component_ok c -> exists x l, render1 c = x :: l.
Proof.
  intros [_ _ H]. unfold render1. destruct (c_key c); [|cbn; eauto]. destruct (c_index c); [cbn; eauto|]. by destruct H.
Qed.

Lemma navigate_rep p : forall fuel j i e, Forall component_ok p -> (length (render p) <= fuel)%nat ->
  rep ctx j i e -> 0 <= i ->
  match follow p j with
  | Ret j' => exists k e', navigate fuel ctx i (render p) = Ret k /\ rep ctx j' k e' /\ 0 <= k
  | m => navigate fuel ctx i (render p) = (_ <- m;; Endless)
  end.
Proof.
  induction p as [|c p IH]; intros fuel j i e Hp Hf Hj Hi.
  { exists i, e. by destruct fuel. }
  apply Forall_cons in Hp as [Hc Hp].
  set (rest := match p with [] => [] | _ => DOT :: render p end).
  assert (render (c :: p) = render1 c ++ rest /\ tail rest = render p) as [Er Et].
  { unfold rest. destruct p; cbn [render tail]; [by rewrite app_nil_r|done]. }
  destruct (render1_cons c Hc) as (x & l & El).
  assert (forall r, navigate fuel ctx r (render (c :: p)) =
    (r <- (match c_key c with [] => Ret r | _ => json_find_object_child ctx r (c_key c) end);;
     r <- (if 0 <=? index_z c then json_get_array_child ctx r (index_z c) else Ret r);;
     navigate (pred fuel) ctx r (render p))) as En.
  { intros r. rewrite Er in *. rewrite El in *. destruct fuel as [|fuel]; [cbn in Hf; lia|]. cbn [navigate app pred].
    rewrite app_comm_cons, <- El, (parse_component c rest Hc), Et; [done|]. unfold rest. by destruct p. }
  assert ((length (render p) <= pred fuel)%nat) as Hf'.
  { rewrite Er, El in Hf. rewrite <- Et. cbn [length app] in Hf. rewrite length_app in Hf. destruct rest; cbn in *; lia. }
  rewrite En. cbn [follow]. unfold follow1.
  assert (match c_key c with [] => Ret j | key => follow_key key j end =
          if decide (c_key c = []) then Ret j else follow_key (c_key c) j) as -> by (by destruct (c_key c)).
  assert (match c_key c with [] => Ret i | _ => json_find_object_child ctx i (c_key c) end =
          if decide (c_key c = []) then Ret i else json_find_object_child ctx i (c_key c)) as -> by (by destruct (c_key c)).
  assert (match (if decide (c_key c = []) then Ret j else follow_key (c_key c) j) with
    | Ret j' => exists k e', (if decide (c_key c = []) then Ret i else json_find_object_child ctx i (c_key c)) = Ret k /\
                  rep ctx j' k e' /\ 0 <= k
    | m => (if decide (c_key c = []) then Ret i else json_find_object_child ctx i (c_key c)) = (_ <- m;; Endless) end) as H1.
  { destruct (decide (c_key c = [])); [by eauto|]. exact (follow_key_rep _ _ _ _ Hj Hi). }
  destruct (if decide (c_key c = []) then Ret j else follow_key (c_key c) j) as [j1|msg|]; [|by rewrite H1..].
  destruct H1 as (k1 & e1 & -> & Hj1 & Hk1). cbn [cbind].
  assert (match (match c_index c with Some digits => follow_index (index_of digits) j1 | None => Ret j1 end) with
    | Ret j' => exists k e', (if 0 <=? index_z c then json_get_array_child ctx k1 (index_z c) else Ret k1) = Ret k /\
                  rep ctx j' k e' /\ 0 <= k
    | m => (if 0 <=? index_z c then json_get_array_child ctx k1 (index_z c) else Ret k1) = (_ <- m;; Endless) end) as H2.
  { unfold index_z. destruct (c_index c) as [ds|] eqn:Ei; [|by cbn; eauto]. destruct (co_index _ Hc _ Ei) as [Hd _].
    pose proof (index_mono ds 0 ltac:(lia) Hd). unfold index_of in *. destruct (Z.leb_spec 0 (fold_left (fun acc c => acc * 10 + (c - 48)) ds 0)); [|lia].
    by apply (follow_index_rep _ _ _ e1). }
  destruct (match c_index c with Some digits => follow_index (index_of digits) j1 | None => Ret j1 end) as [j2|msg|];
    [|by rewrite H2..].
  destruct H2 as (k2 & e2 & -> & Hj2 & Hk2). cbn [cbind]. by apply (IH _ _ _ e2).
Qed.

Lemma extract_rep {A} (get : Z -> cfl A) (as_ : json -> cfl A) j i e p :
  (forall j' k e', rep ctx j' k e' -> get k = as_ j') -> rep ctx j i e -> 0 <= i -> Forall component_ok p ->
  (target <- json_navigate_path ctx i (render p);; get target) = (j' <- follow p j;; as_ j').
Proof.
  intros Hget Hj Hi Hp. pose proof (navigate_rep p (length (render p)) j i e Hp (le_n _) Hj Hi) as H.
  unfold json_navigate_path. destruct (follow p j) as [j'|msg|]; [|by rewrite H..].
  destruct H as (k & e' & -> & Hj' & _). by apply (Hget _ _ e').
Qed.
Lemma get_int32_rep f2i j k e : rep ctx j k e -> json_get_int32 f2i ctx k = as_int32 f2i j.
Proof. unfold json_get_int32. by destruct 1 as [? ? ->|? ? ->|? ? ->|? ? ->|? ? ->|? ? ? ->|? ? ? ->]. Qed.
Lemma get_bool_rep j k e : rep ctx j k e -> json_get_bool ctx k = as_bool j.
Proof. unfold json_get_bool. by destruct 1 as [? ? ->|? ? ->|? ? ->|? ? ->|? ? ->|? ? ? ->|? ? ? ->]. Qed.
Lemma get_string_rep j k e : rep ctx j k e ->
  (off <- json_get_string_value ctx k;; Ret (str_at ctx off)) = as_string j.
Proof.
  unfold json_get_string_value, json_get_string. destruct 1 as [? off -> Hoff|? ? ->|? ? ->|? ? ->|? ? ->|? ? ? ->|? ? ? ->]; cbn; try done.
  by destruct (Z.leb_spec (strings_size ctx) off); [lia|].
Qed.
Lemma get_length_rep j k e : rep ctx j k e ->
  (let? r := json_get_record ctx k or "json_extract_array_length: Invalid target record" in
   raise? negb (object_type r =? JSON_TYPE_ARRAY) with "json_extract_array_length: Target is not an array";
   Ret (j_value r)) = as_length j.
Proof. by destruct 1 as [? ? ->|? ? ->|? ? ->|? ? ->|? ? ->|? ? ? ->|? ? ? ->]. Qed.
End Layout.

(** C13. The decoder reads the JSON value that the records lay out. For records of any value [j],
    nested as deep as it is, and every path of keys and indices that fits the key buffer, each
    extraction gives what following the path in [j] gives, and where there is nothing at its end,
    or a value of another type, it raises that reason: it never loops and never reads the value of
    another key. *)
Theorem json_paths_refine_tree ctx j i e p float_to_int32 :
  fits 16 (records_count ctx) -> rep ctx j i e -> 0 <= i -> Forall component_ok p ->
  json_extract_int32 float_to_int32 ctx i (render p) = (j' <- follow p j;; as_int32 float_to_int32 j') /\
  json_extract_bool ctx i (render p) = (j' <- follow p j;; as_bool j') /\
  (off <- json_extract_string ctx i (render p);; Ret (str_at ctx off)) = (j' <- follow p j;; as_string j') /\
  json_extract_array_length ctx i (render p) = (j' <- follow p j;; as_length j') /\
  (forall n, 0 <= n -> json_extract_array_int32 float_to_int32 ctx i (render p) n =
    (a <- follow p j;; j' <- follow_index n a;; as_int32 float_to_int32 j')).
Proof.
  intros Hc Hj Hi Hp. split_and!.
  - by apply (extract_rep ctx Hc _ _ j i e); [apply get_int32_rep|..].
  - by apply (extract_rep ctx Hc _ _ j i e); [apply get_bool_rep|..].
  - unfold json_extract_string. rewrite cbind_assoc. by apply (extract_rep ctx Hc _ _ j i e); [apply get_string_rep|..].
  - by apply (extract_rep ctx Hc _ _ j i e); [apply get_length_rep|..].
  - intros n Hn. pose proof (navigate_rep ctx Hc p (length (render p)) j i e Hp (le_n _) Hj Hi) as H.
    unfold json_extract_array_int32, json_navigate_path. destruct (follow p j) as [a|msg|]; [|by rewrite H..].
    destruct H as (k & e' & -> & Ha & Hk). cbn [cbind]. pose proof (follow_index_rep ctx Hc n a k e' Ha Hk Hn) as H.
    destruct (follow_index n a) as [j'|msg|]; [|by rewrite H..]. destruct H as (k' & e'' & -> & Hj' & _).
    by apply (get_int32_rep _ _ _ _ e'').
Qed.
Lemma ex_rep : rep ex_ctx ex_json 0 9.
Proof.
  apply (rep_object _ 0 [_; _]); [done|]. apply (pairs_cons ex_ctx 0 _ _ 1 7 9); [done..| |].
  - apply (rep_array _ 2 [_; _]); [done|]. apply (reps_cons _ _ _ 3 4); [by apply (rep_int ex_ctx 3 7)|].
    apply (reps_cons _ _ _ 4 7); [|constructor]. apply (rep_object _ 4 [_]); [done|].
    apply (pairs_cons ex_ctx 2 _ _ 5 7 7); [done..| |constructor]. by apply (rep_bool ex_ctx 6 1).
  - apply (pairs_cons ex_ctx 4 _ _ 7 9 9); [done..| |constructor]. by apply (rep_string ex_ctx 8 0).
Qed.
Lemma ex_path_ok : Forall component_ok ex_path.
Proof.
  repeat apply Forall_cons_2; [| |done]; (split; [by vm_decide| |by left]); intros ds Hds; cbn in Hds; simplify_eq.
  by vm_decide.
Qed.
Lemma json_paths_refine_tree_witness :
  render ex_path = chars "a[1].b" /\ json_extract_bool ex_ctx 0 (render ex_path) = Ret true.
Proof.
  split; [done|].
  apply (json_paths_refine_tree ex_ctx ex_json 0 9 ex_path (fun z => z)); [by vm_decide|exact ex_rep|done|exact ex_path_ok].
Defined.
