(* ===== verification/CflImage.v ===== *)
(** The chain-tree image the firmware is built with ([app/bus_controller/kb0/incr/*.c], the
    pipeline's output for [kb0.lua]): three knowledge bases whose roots are gates over columns, a
    column per command: wait for the command's event, run its handler, reset the column.

    The tables are data; the functions they name are in [CflNodeFns] and the handle that joins both
    is [KbApp.g_chaintree_handle]. *)
From S2P Require Import Prelude CflBase CflEngine JsonDecoder.

(** kb0: the monitor, a column per command. *)
Definition nodes_kb0 : list chaintree_node_t :=
  [mk_cnode 65535 0 3 0x0002 3 8 2 9 2;
   mk_cnode 0 1 5 0x8003 1 6 1 7 65535;
   mk_cnode 1 2 8 0x0000 5 10 3 11 3;
   mk_cnode 1 2 8 0x0000 2 12 0 0 65535;
   mk_cnode 1 2 8 0x0000 4 0 0 0 65535;
   mk_cnode 0 1 8 0x8003 1 6 1 7 65535;
   mk_cnode 5 2 11 0x0000 5 10 3 11 4;
   mk_cnode 5 2 11 0x0000 2 13 0 0 65535;
   mk_cnode 5 2 11 0x0000 4 0 0 0 65535].
(** kb1: the ADC. *)
Definition nodes_kb1 : list chaintree_node_t :=
  [mk_cnode 65535 0 11 0x0001 3 8 2 9 5;
   mk_cnode 9 1 12 0x8003 1 6 1 7 65535;
   mk_cnode 10 2 15 0x0000 5 10 3 11 6;
   mk_cnode 10 2 15 0x0000 2 1 0 0 65535;
   mk_cnode 10 2 15 0x0000 4 0 0 0 65535].
(** kbapp: its root, the columns of [CMD_APP_ECHO] and [CMD_APP_ECHO_TO]. *)
Definition nodes_kbapp_echo : list chaintree_node_t :=
  [mk_cnode 65535 0 15 0x0004 3 8 2 9 7;
   mk_cnode 14 1 19 0x8003 1 6 1 7 65535;
   mk_cnode 15 2 22 0x0000 5 10 3 11 8;
   mk_cnode 15 2 22 0x0000 2 2 0 0 65535;
   mk_cnode 15 2 22 0x0000 4 0 0 0 65535;
   mk_cnode 14 1 22 0x8003 1 6 1 7 65535;
   mk_cnode 19 2 25 0x0000 5 10 3 11 9;
   mk_cnode 19 2 25 0x0000 2 3 0 0 65535;
   mk_cnode 19 2 25 0x0000 4 0 0 0 65535].
(** kbapp: the columns of [CMD_APP_IL_CLEAR] and [CMD_APP_OP]. *)
Definition nodes_kbapp_op : list chaintree_node_t :=
  [mk_cnode 14 1 25 0x8003 1 6 1 7 65535;
   mk_cnode 23 2 28 0x0000 5 10 3 11 10;
   mk_cnode 23 2 28 0x0000 2 4 0 0 65535;
   mk_cnode 23 2 28 0x0000 4 0 0 0 65535;
   mk_cnode 14 1 0 0x8003 1 6 1 7 65535;
   mk_cnode 27 2 3 0x0000 5 10 3 11 0;
   mk_cnode 27 2 3 0x0000 2 5 0 0 65535;
   mk_cnode 27 2 3 0x0000 4 0 0 0 65535].
(** The pipeline's metadata: roots of the knowledge bases [*_functions], gaps, the event strings. *)
Definition nodes_metadata : list chaintree_node_t :=
  [mk_cnode 65535 0 15 0x0000 0 0 0 0 65535;
   mk_cnode 0xFFFF 0 0 0 0 0 0 0 0xFFFF;
   mk_cnode 0xFFFF 0 0 0 0 0 0 0 0xFFFF;
   mk_cnode 0xFFFF 0 0 0 0 0 0 0 0xFFFF;
   mk_cnode 0xFFFF 0 0 0 0 0 0 0 0xFFFF;
   mk_cnode 0xFFFF 0 0 0 0 0 0 0 0xFFFF;
   mk_cnode 65535 0 3 0x0000 0 0 0 0 65535;
   mk_cnode 0xFFFF 0 0 0 0 0 0 0 0xFFFF;
   mk_cnode 0xFFFF 0 0 0 0 0 0 0 0xFFFF;
   mk_cnode 0xFFFF 0 0 0 0 0 0 0 0xFFFF;
   mk_cnode 0xFFFF 0 0 0 0 0 0 0 0xFFFF;
   mk_cnode 0xFFFF 0 0 0 0 0 0 0 0xFFFF;
   mk_cnode 65535 0 11 0x0000 0 0 0 0 65535;
   mk_cnode 0xFFFF 0 0 0 0 0 0 0 0xFFFF;
   mk_cnode 0xFFFF 0 0 0 0 0 0 0 0xFFFF;
   mk_cnode 0xFFFF 0 0 0 0 0 0 0 0xFFFF;
   mk_cnode 0xFFFF 0 0 0 0 0 0 0 0xFFFF;
   mk_cnode 0xFFFF 0 0 0 0 0 0 0 0xFFFF;
   mk_cnode 0xFFFF 0 0 0 0 0 0 0 0xFFFF;
   mk_cnode 0xFFFF 0 0 0 0 0 0 0 0xFFFF;
   mk_cnode 0xFFFF 0 0 0 0 0 0 0 0xFFFF;
   mk_cnode 0xFFFF 0 0 0 0 0 0 0 0xFFFF;
   mk_cnode 65535 0 3 0x0000 0 0 0 0 1].
Definition ct_nodes : list chaintree_node_t :=
  nodes_kb0 ++ nodes_kb1 ++ nodes_kbapp_echo ++ nodes_kbapp_op ++ nodes_metadata.
Definition ct_link_table : list Z :=
  [28; 29; 30; 1; 5; 2; 3; 4; 6; 7; 8; 10; 11; 12; 13; 15; 19; 23; 27; 16; 17; 18; 20; 21; 22; 24; 25; 26].
Definition ct_kb_table : list chaintree_kb_info_t :=
  [mk_kb 0 0 9 2 10; mk_kb 9 9 5 2 10; mk_kb 14 14 17 2 10; mk_kb 31 31 1 0 10; mk_kb 37 37 1 0 10; mk_kb 43 43 1 0 10].
Definition ct_kb_names : list (list Z) :=
  [chars "kb0"; chars "kb1"; chars "kbapp"; chars "kb1_functions"; chars "kbapp_functions"; chars "kb0_functions"].
Definition ct_main_function_names : list (list Z) :=
  [chars "CFL_NULL"; chars "CFL_COLUMN_MAIN"; chars "CFL_DISABLE"; chars "CFL_GATE_NODE_MAIN"; chars "CFL_RESET"; chars "CFL_WAIT"].
Definition ct_main_function_usage_count : list Z := [0; 7; 7; 3; 7; 7].
Definition ct_event_strings : list (list Z) :=
  [chars "CFL_INIT_EVENT"; chars "CFL_TERMINATE_EVENT"; chars "CFL_START_TESTS";
   chars "CFL_TERMINATE_TESTS"; chars "CFL_TIMER_EVENT"; chars "CFL_SECOND_EVENT";
   chars "CFL_MINUTE_EVENT"; chars "CFL_HOUR_EVENT"; chars "CFL_DAY_EVENT";
   chars "CFL_WEEK_EVENT"; chars "CFL_MONTH_EVENT"; chars "CFL_YEAR_EVENT";
   chars "CFL_RAISE_EXCEPTION_EVENT"; chars "CFL_TURN_HEARTBEAT_ON_EVENT"; chars "CFL_TURN_HEARTBEAT_OFF_EVENT";
   chars "CFL_HEARTBEAT_EVENT"; chars "CFL_SET_EXCEPTION_STEP_EVENT"; chars "CFL_CHANGE_STATE_EVENT";
   chars "CFL_RESET_STATE_MACHINE_EVENT"; chars "CFL_TERMINATE_STATE_MACHINE_EVENT"; chars "CMD_MON_PING";
   chars "CMD_MON_SNAPSHOT"; chars "CMD_ADC_READ"; chars "CMD_APP_ECHO";
   chars "CMD_APP_ECHO_TO"; chars "CMD_APP_IL_CLEAR"; chars "CMD_APP_OP"].
Definition node_data_0 : list json_record_t :=
  [mk_json 6 2; mk_json 0 0; mk_json 6 12; mk_json 0 10; mk_json 1 3600; mk_json 0 18;
   mk_json 6 2; mk_json 0 29; mk_json 0 43; mk_json 0 55; mk_json 1 14; mk_json 0 73;
   mk_json 1 5; mk_json 0 88; mk_json 4 1; mk_json 0 99; mk_json 6 4; mk_json 0 112;
   mk_json 1 1; mk_json 0 124; mk_json 1 26].
Definition node_data_1 : list json_record_t :=
  [mk_json 6 2; mk_json 0 0; mk_json 6 54; mk_json 0 133; mk_json 1 4; mk_json 0 149;
   mk_json 1 14; mk_json 0 178; mk_json 1 8; mk_json 0 192; mk_json 1 9; mk_json 0 207;
   mk_json 1 11; mk_json 0 222; mk_json 1 3; mk_json 0 242; mk_json 1 22; mk_json 0 255;
   mk_json 1 15; mk_json 0 275; mk_json 1 0; mk_json 0 290; mk_json 1 23; mk_json 0 303;
   mk_json 1 24; mk_json 0 319; mk_json 1 10; mk_json 0 335; mk_json 1 25; mk_json 0 352;
   mk_json 1 6; mk_json 0 369; mk_json 1 26; mk_json 0 380; mk_json 1 12; mk_json 0 406;
   mk_json 1 20; mk_json 0 419; mk_json 1 18; mk_json 0 449; mk_json 1 21; mk_json 0 466;
   mk_json 1 5; mk_json 0 483; mk_json 1 16; mk_json 0 512; mk_json 1 13; mk_json 0 540;
   mk_json 1 2; mk_json 0 556; mk_json 1 1; mk_json 0 576; mk_json 1 19; mk_json 0 610;
   mk_json 1 7; mk_json 0 625; mk_json 1 17].
Definition node_data_2 : list json_record_t :=
  [mk_json 6 2; mk_json 0 0; mk_json 6 2; mk_json 0 648; mk_json 0 656].
Definition node_data_3 : list json_record_t :=
  [mk_json 6 2; mk_json 0 0; mk_json 6 12; mk_json 0 10; mk_json 1 3600; mk_json 0 18;
   mk_json 6 2; mk_json 0 29; mk_json 0 43; mk_json 0 55; mk_json 1 14; mk_json 0 73;
   mk_json 1 5; mk_json 0 88; mk_json 4 1; mk_json 0 99; mk_json 6 4; mk_json 0 112;
   mk_json 1 1; mk_json 0 124; mk_json 1 20].
Definition node_data_4 : list json_record_t :=
  [mk_json 6 2; mk_json 0 0; mk_json 6 12; mk_json 0 10; mk_json 1 3600; mk_json 0 18;
   mk_json 6 2; mk_json 0 29; mk_json 0 43; mk_json 0 55; mk_json 1 14; mk_json 0 73;
   mk_json 1 5; mk_json 0 88; mk_json 4 1; mk_json 0 99; mk_json 6 4; mk_json 0 112;
   mk_json 1 1; mk_json 0 124; mk_json 1 21].
Definition node_data_5 : list json_record_t :=
  [mk_json 6 2; mk_json 0 0; mk_json 6 2; mk_json 0 648; mk_json 0 656].
Definition node_data_6 : list json_record_t :=
  [mk_json 6 2; mk_json 0 0; mk_json 6 12; mk_json 0 10; mk_json 1 3600; mk_json 0 18;
   mk_json 6 2; mk_json 0 29; mk_json 0 43; mk_json 0 55; mk_json 1 14; mk_json 0 73;
   mk_json 1 5; mk_json 0 88; mk_json 4 1; mk_json 0 99; mk_json 6 4; mk_json 0 112;
   mk_json 1 1; mk_json 0 124; mk_json 1 22].
Definition node_data_7 : list json_record_t :=
  [mk_json 6 2; mk_json 0 0; mk_json 6 2; mk_json 0 648; mk_json 0 656].
Definition node_data_8 : list json_record_t :=
  [mk_json 6 2; mk_json 0 0; mk_json 6 12; mk_json 0 10; mk_json 1 3600; mk_json 0 18;
   mk_json 6 2; mk_json 0 29; mk_json 0 43; mk_json 0 55; mk_json 1 14; mk_json 0 73;
   mk_json 1 5; mk_json 0 88; mk_json 4 1; mk_json 0 99; mk_json 6 4; mk_json 0 112;
   mk_json 1 1; mk_json 0 124; mk_json 1 23].
Definition node_data_9 : list json_record_t :=
  [mk_json 6 2; mk_json 0 0; mk_json 6 12; mk_json 0 10; mk_json 1 3600; mk_json 0 18;
   mk_json 6 2; mk_json 0 29; mk_json 0 43; mk_json 0 55; mk_json 1 14; mk_json 0 73;
   mk_json 1 5; mk_json 0 88; mk_json 4 1; mk_json 0 99; mk_json 6 4; mk_json 0 112;
   mk_json 1 1; mk_json 0 124; mk_json 1 24].
Definition node_data_10 : list json_record_t :=
  [mk_json 6 2; mk_json 0 0; mk_json 6 12; mk_json 0 10; mk_json 1 3600; mk_json 0 18;
   mk_json 6 2; mk_json 0 29; mk_json 0 43; mk_json 0 55; mk_json 1 14; mk_json 0 73;
   mk_json 1 5; mk_json 0 88; mk_json 4 1; mk_json 0 99; mk_json 6 4; mk_json 0 112;
   mk_json 1 1; mk_json 0 124; mk_json 1 25].
Definition ct_node_data_records : list json_record_t :=
  node_data_0 ++ node_data_1 ++ node_data_2 ++ node_data_3 ++ node_data_4 ++ node_data_5 ++
  node_data_6 ++ node_data_7 ++ node_data_8 ++ node_data_9 ++ node_data_10.
(** The table is written as bytes in the source, NULs included. *)
Definition ct_node_data_strings : list Z :=
  concat (map (fun s => chars s ++ [0])
   ["node_dict"; "timeout"; "error_data";
    "error_message"; "cmd timeout"; "error_function_id";
    "time_out_event"; "reset_flag"; "wait_fn_data";
    "event_count"; "event_id"; "CFL_TIMER_EVENT";
    "CFL_TURN_HEARTBEAT_OFF_EVENT"; "CFL_DAY_EVENT"; "CFL_WEEK_EVENT";
    "CFL_YEAR_EVENT"; "CFL_TERMINATE_TESTS"; "CMD_ADC_READ";
    "CFL_HEARTBEAT_EVENT"; "CFL_INIT_EVENT"; "CMD_APP_ECHO";
    "CMD_APP_ECHO_TO"; "CFL_MONTH_EVENT"; "CMD_APP_IL_CLEAR";
    "CFL_MINUTE_EVENT"; "CMD_APP_OP"; "CFL_RAISE_EXCEPTION_EVENT";
    "CMD_MON_PING"; "CFL_RESET_STATE_MACHINE_EVENT"; "CMD_MON_SNAPSHOT";
    "CFL_SECOND_EVENT"; "CFL_SET_EXCEPTION_STEP_EVENT"; "CFL_TURN_HEARTBEAT_ON_EVENT";
    "CFL_START_TESTS"; "CFL_TERMINATE_EVENT"; "CFL_TERMINATE_STATE_MACHINE_EVENT";
    "CFL_HOUR_EVENT"; "CFL_CHANGE_STATE_EVENT"; "version";
    "1.0.0"]%string).
Definition ct_node_data_controls : list record_control_t :=
  [mk_region 0 21; mk_region 21 57; mk_region 78 5; mk_region 83 21;
   mk_region 104 21; mk_region 125 5; mk_region 130 21; mk_region 151 5;
   mk_region 156 21; mk_region 177 21; mk_region 198 21].
Definition ct_node_data : node_data_tables :=
  mk_tables ct_node_data_records ct_node_data_strings ct_node_data_controls.
(** [.node_count] of the handle: the nodes array has 54 elements. *)
Definition ct_node_count : Z := 35.

(** [event_index_t]: the commands' events. *)
Definition EVENT_CMD_MON_PING : Z := 20.
Definition EVENT_CMD_MON_SNAPSHOT : Z := 21.
Definition EVENT_CMD_ADC_READ : Z := 22.
Definition EVENT_CMD_APP_ECHO : Z := 23.
Definition EVENT_CMD_APP_ECHO_TO : Z := 24.
Definition EVENT_CMD_APP_IL_CLEAR : Z := 25.
Definition EVENT_CMD_APP_OP : Z := 26.
