(* ===== verification/CflBlackboard.v ===== *)
(** The blackboard ([engine/src/cfl_blackboard.c], [fnv1a.c], the shipped descriptor of
    [kb0/incr/chaintree_handle_blackboard.c]): a byte array out of the permanent allocator whose
    fields are found by the FNV-1a hash of their names.

    A pointer into the blackboard is an offset; the typed accessors load and store little endian,
    and an access that would leave the array, which C makes, is an exception here. A [float] is its
    32-bit pattern. *)
From S2P Require Import Prelude CflBase CflPerm.
#[local] Open Scope cfl_scope.

Record cfl_bb_field_t := mk_field { name_hash : Z; f_offset : Z; f_size : Z }.
#[export] Instance field_eq_dec : EqDecision cfl_bb_field_t.
Proof. solve_decision. Defined.
Record cfl_bb_record_t := mk_record {
  r_name_hash : Z; total_size : Z; bb_fields : list cfl_bb_field_t; defaults : option (list Z)
}.
Record cfl_bb_const_record_t := mk_const {
  c_name_hash : Z; c_total_size : Z; c_fields : option (list cfl_bb_field_t); c_data : option (list Z)
}.
Record cfl_bb_table_t := mk_bb_table { bb_blackboard : option cfl_bb_record_t; const_records : list cfl_bb_const_record_t }.

(** The handle's members: [blackboard_size] is the length of the bytes, 0 without any. *)
Record cfl_bb := mk_bb { blackboard : option (list Z); bb_desc : option cfl_bb_record_t }.

(** ** Names *)

Definition FNV1A_OFFSET_BASIS : Z := 2166136261.
Definition FNV1A_PRIME : Z := 16777619.
Definition fnv1a_32_len (str : list Z) (len : Z) : Z :=
  foldl (fun hash c => u32 (Z.lxor hash (u8 c) * FNV1A_PRIME)) FNV1A_OFFSET_BASIS (take (Z.to_nat len) str).
(** Up to the NUL. *)
Definition fnv1a_32 (str : list Z) : Z := fnv1a_32_len str (zlen str).
Definition cfl_bb_hash (str : list Z) : Z := fnv1a_32 str.
Definition find_field (fields : list cfl_bb_field_t) (hash : Z) : option cfl_bb_field_t :=
  List.find (fun f => name_hash f =? hash) fields.

(** ** Lifecycle *)

Definition zeros (n : Z) : list Z := replicate (Z.to_nat n) 0.
Definition fill (desc : cfl_bb_record_t) (size : Z) : list Z :=
  match defaults desc with Some d => take (Z.to_nat size) d | None => zeros size end.
Definition cfl_bb_init (bb_table : option cfl_bb_table_t) (perm : CflPerm) : cfl (cfl_bb * CflPerm) :=
  match bb_table ≫= bb_blackboard with
  | None => Ret (mk_bb None None, perm)
  | Some desc =>
      if total_size desc =? 0 then Ret (mk_bb None (Some desc), perm)
      else
        r <- cfl_perm_alloc_pointer (Some perm) (total_size desc);;
        raise? r.1 =? 0 with "cfl_bb_init: failed to allocate blackboard";
        Ret (mk_bb (Some (fill desc (total_size desc))) (Some desc), r.2)
  end.
Definition cfl_bb_reset (b : cfl_bb) : cfl_bb :=
  match blackboard b with
  | None => b
  | Some m =>
      if zlen m =? 0 then b
      else mk_bb (Some (match bb_desc b with Some desc => fill desc (zlen m) | None => zeros (zlen m) end)) (bb_desc b)
  end.

(** ** Access *)

(** Where the field lies; [None] is NULL. The handle may be NULL. *)
Definition cfl_bb_field_by_hash (handle : option cfl_bb) (hash : Z) : cfl (option Z) :=
  match handle with
  | Some (mk_bb (Some m) (Some desc)) =>
      match find_field (bb_fields desc) hash with
      | Some field =>
          raise? zlen m <? f_offset field + f_size field with "cfl_bb_field_by_hash: field exceeds blackboard size";
          Ret (Some (f_offset field))
      | None => Ret None
      end
  | _ => Ret None
  end.
Definition cfl_bb_field_by_name (handle : option cfl_bb) (name : option (list Z)) : cfl (option Z) :=
  match name with Some name => cfl_bb_field_by_hash handle (cfl_bb_hash name) | None => Ret None end.

(** [n] bytes, the lowest first. *)
Fixpoint to_bytes (n : nat) (x : Z) : list Z := match n with O => [] | S n => u8 x :: to_bytes n (Z.shiftr x 8) end.
Definition of_bytes (l : list Z) : Z := foldr (fun b x => b + 256 * x) 0 l.
Definition load (m : list Z) (n : nat) (off : Z) : cfl Z :=
  raise? zlen m <? off + Z.of_nat n with "read past the blackboard";
  Ret (of_bytes (take n (drop (Z.to_nat off) m))).
Definition store (m : list Z) (n : nat) (off x : Z) : cfl (list Z) :=
  raise? zlen m <? off + Z.of_nat n with "write past the blackboard";
  Ret (take (Z.to_nat off) m ++ to_bytes n x ++ drop (Z.to_nat off + n) m).

Definition bytes_of (b : cfl_bb) : list Z := default [] (blackboard b).
Definition bb_set (n : nat) (handle : option cfl_bb) (hash value : Z) : cfl (bool * option cfl_bb) :=
  ptr <- cfl_bb_field_by_hash handle hash;;
  match ptr, handle with
  | Some off, Some b => m <- store (bytes_of b) n off value;; Ret (true, Some (mk_bb (Some m) (bb_desc b)))
  | _, _ => Ret (false, handle)
  end.
Definition bb_get (n : nat) (handle : option cfl_bb) (hash default_val : Z) : cfl Z :=
  ptr <- cfl_bb_field_by_hash handle hash;;
  match ptr, handle with Some off, Some b => load (bytes_of b) n off | _, _ => Ret default_val end.
Definition cfl_bb_set_int32 : option cfl_bb -> Z -> Z -> cfl (bool * option cfl_bb) := bb_set 4.
Definition cfl_bb_get_int32 (handle : option cfl_bb) (hash default_val : Z) : cfl Z :=
  x <- bb_get 4 handle hash default_val;; Ret (s32 x).
Definition cfl_bb_set_float : option cfl_bb -> Z -> Z -> cfl (bool * option cfl_bb) := bb_set 4.
Definition cfl_bb_get_float : option cfl_bb -> Z -> Z -> cfl Z := bb_get 4.
Definition cfl_bb_set_uint32 : option cfl_bb -> Z -> Z -> cfl (bool * option cfl_bb) := bb_set 4.
Definition cfl_bb_get_uint32 : option cfl_bb -> Z -> Z -> cfl Z := bb_get 4.
Definition cfl_bb_set_uint16 : option cfl_bb -> Z -> Z -> cfl (bool * option cfl_bb) := bb_set 2.
Definition cfl_bb_get_uint16 : option cfl_bb -> Z -> Z -> cfl Z := bb_get 2.

(** ** Constant records *)

Definition cfl_bb_const_find (bb_table : option cfl_bb_table_t) (hash : Z) : option cfl_bb_const_record_t :=
  match bb_table with Some table => List.find (fun r => c_name_hash r =? hash) (const_records table) | None => None end.
Definition cfl_bb_const_field_by_hash (record : option cfl_bb_const_record_t) (hash : Z) : option Z :=
  match record with
  | Some (mk_const _ size (Some fields) (Some _)) =>
      match find_field fields hash with
      | Some field => if size <? f_offset field + f_size field then None else Some (f_offset field)
      | None => None
      end
  | _ => None
  end.

(** ** The shipped blackboard *)

Definition ct_bb_names : list (list Z) :=
  map chars ["adc0_mean"; "adc0_max"; "adc0_rms"; "adc1_mean"; "adc1_max"; "adc1_rms"; "adc2_mean"; "adc2_max"; "adc2_rms";
    "gpio_raw"; "gpio_deb"; "cnt0"; "cnt1"; "cnt2"; "cnt3"; "cnt4"; "cnt5"; "cnt6"; "cnt7"]%string.
(** The hashes are zero in the image and set by [ct_bb_init_hashes]. *)
Definition ct_bb_fields : list cfl_bb_field_t := map (fun i => mk_field 0 (4 * i) 4) (seqZ 0 19).
Definition ct_bb_defaults : list Z := zeros 76.
Definition ct_bb_record : cfl_bb_record_t := mk_record 0 76 ct_bb_fields (Some ct_bb_defaults).
Definition ct_bb_init_hashes (record : cfl_bb_record_t) : cfl_bb_record_t :=
  mk_record (cfl_bb_hash (chars "adc_streams")) (total_size record)
    (zip_with (fun f name => mk_field (cfl_bb_hash name) (f_offset f) (f_size f)) (bb_fields record) ct_bb_names) (defaults record).
Definition ct_bb_table (record : cfl_bb_record_t) : cfl_bb_table_t := mk_bb_table (Some record) [].

(** ** What a descriptor promises *)

Definition apart (f g : cfl_bb_field_t) : Prop := f_offset f + f_size f <= f_offset g \/ f_offset g + f_size g <= f_offset f.
#[export] Instance apart_dec f g : Decision (apart f g).
Proof. unfold apart. apply _. Defined.
(** Names are told apart by their hashes, fields lie in the array and do not overlap. *)
Record bb_ok (b : cfl_bb) : Prop := {
  bk_bytes : bytes_ok (bytes_of b);
  bk_desc : exists m desc, b = mk_bb (Some m) (Some desc) /\
    NoDup (map name_hash (bb_fields desc)) /\
    Forall (fun f => 0 <= f_offset f /\ 0 < f_size f /\ f_offset f + f_size f <= zlen m) (bb_fields desc) /\
    Forall (fun f => Forall (fun g => f = g \/ apart f g) (bb_fields desc)) (bb_fields desc)
}.
Definition has_field (b : cfl_bb) (f : cfl_bb_field_t) : Prop := exists desc, bb_desc b = Some desc /\ f ∈ bb_fields desc.
Definition ct_bb : cfl_bb := mk_bb (Some ct_bb_defaults) (Some (ct_bb_init_hashes ct_bb_record)).

(** ** Lemmas *)

Lemma to_bytes_length n : forall x, length (to_bytes n x) = n.
Proof. induction n as [|n IH]; intros x; [done|]. cbn. by rewrite IH. Qed.
Lemma to_bytes_ok n : forall x, bytes_ok (to_bytes n x).
Proof. induction n as [|n IH]; intros x; [constructor|]. apply Forall_cons. split; [apply u8_fits|apply IH]. Qed.
Lemma of_to_bytes n : forall x, of_bytes (to_bytes n x) = x mod 2 ^ (8 * Z.of_nat n).
Proof.
  induction n as [|n IH]; intros x; [by rewrite Z.mod_1_r|]. cbn [to_bytes of_bytes foldr]. fold (of_bytes (to_bytes n (Z.shiftr x 8))).
  rewrite IH, Z.shiftr_div_pow2 by lia. unfold u8. change (2 ^ 8) with 256.
  replace (8 * Z.of_nat (S n)) with (8 + 8 * Z.of_nat n) by lia. rewrite Z.pow_add_r by lia. change (2 ^ 8) with 256.
  assert (0 < 2 ^ (8 * Z.of_nat n)) as Hp by (apply Z.pow_pos_nonneg; lia). rewrite Z.rem_mul_r by lia. done.
Qed.

Lemma field_found b f : bb_ok b -> has_field b f -> cfl_bb_field_by_hash (Some b) (name_hash f) = Ret (Some (f_offset f)) /\
  0 <= f_offset f /\ 0 < f_size f /\ f_offset f + f_size f <= zlen (bytes_of b).
Proof.
  intros [_ (m & desc & -> & Hnd & Hin & _)] (desc' & Ed & Hf). cbn [bb_desc] in Ed. injection Ed as <-. cbn [cfl_bb_field_by_hash].
  change (bytes_of _) with m. assert (find_field (bb_fields desc) (name_hash f) = Some f) as ->.
  { clear Hin. unfold find_field. induction (bb_fields desc) as [|g l IH]; [by apply elem_of_nil in Hf|]. cbn in Hnd. apply NoDup_cons in Hnd as [Hg Hnd].
    cbn. apply elem_of_cons in Hf as [-> |Hf]; [by rewrite Z.eqb_refl|]. destruct (Z.eqb_spec (name_hash g) (name_hash f)) as [E|]; [|by apply IH].
    exfalso. apply Hg. rewrite E. apply list_elem_of_fmap. by exists f. }
  rewrite Forall_forall in Hin. destruct (Hin f Hf) as (H1 & H2 & H3). rewrite (proj2 (Z.ltb_ge _ _)) by lia. done.
Qed.
(** Stored and loaded. *)
Lemma store_ok m n off x : 0 <= off -> off + Z.of_nat n <= zlen m -> bytes_ok m ->
  exists m', store m n off x = Ret m' /\ zlen m' = zlen m /\ bytes_ok m' /\ load m' n off = Ret (x mod 2 ^ (8 * Z.of_nat n)) /\
    forall k at_, 0 <= at_ -> at_ + Z.of_nat k <= off \/ off + Z.of_nat n <= at_ -> load m' k at_ = load m k at_.
Proof.
  intros H0 Hle Hb. unfold store. rewrite (proj2 (Z.ltb_ge _ _)) by lia. cbn [raise_if]. set (m' := _ ++ _). exists m'. unfold zlen in Hle.
  assert (length (take (Z.to_nat off) m) = Z.to_nat off) as Et by (rewrite length_take; lia).
  assert (length m' = length m) as El. { unfold m'. rewrite !length_app, Et, to_bytes_length, length_drop. lia. }
  split; [done|]. split; [unfold zlen; by rewrite El|]. split.
  { unfold m'. apply Forall_app. split; [by apply Forall_take|]. apply Forall_app. split; [apply to_bytes_ok|by apply Forall_drop]. }
  split.
  - unfold load. rewrite (proj2 (Z.ltb_ge _ _)) by (unfold zlen; lia). cbn [raise_if]. f_equal. rewrite <- of_to_bytes. f_equal.
    unfold m'. rewrite drop_app_length' by done. by rewrite take_app_length' by by rewrite to_bytes_length.
  - intros k at_ Ha Hout. unfold load, zlen. rewrite El. destruct (_ <? _) eqn:E; [done|]. cbn [raise_if]. apply Z.ltb_ge in E. do 2 f_equal.
    unfold m'. destruct Hout as [Hout|Hout].
    + rewrite drop_app_le by lia. rewrite take_app_le by (rewrite length_drop, Et; lia). rewrite !take_drop_commute, take_take.
      by rewrite Nat.min_l by lia.
    + rewrite drop_app_ge by lia. rewrite Et, drop_app_ge by (rewrite to_bytes_length; lia). rewrite to_bytes_length, drop_drop.
      do 2 f_equal. lia.
Qed.

Lemma pairs_apart (l : list cfl_bb_field_t) f g : Forall (fun f => Forall (fun g => f = g \/ apart f g) l) l -> f ∈ l -> g ∈ l -> f <> g -> apart f g.
Proof.
  intros Hp Hf Hg Hne. rewrite Forall_forall in Hp. specialize (Hp f Hf). rewrite Forall_forall in Hp. by destruct (Hp g Hg).
Qed.
(** Setting one field is reading it back, and leaves the others. *)
Lemma set_field b f n v : bb_ok b -> has_field b f -> f_size f = Z.of_nat n ->
  exists b', bb_set n (Some b) (name_hash f) v = Ret (true, Some b') /\ bb_ok b' /\ bb_desc b' = bb_desc b /\
    (forall d, bb_get n (Some b') (name_hash f) d = Ret (v mod 2 ^ (8 * Z.of_nat n))) /\
    (forall g k d, has_field b g -> g <> f -> f_size g = Z.of_nat k -> bb_get k (Some b') (name_hash g) d = bb_get k (Some b) (name_hash g) d).
Proof.
  intros Hok Hf Hs. destruct (field_found b f Hok Hf) as (E & Hf0 & Hf1 & Hf2).
  destruct (store_ok (bytes_of b) n (f_offset f) v Hf0 ltac:(lia) (bk_bytes b Hok)) as (m' & Es & El & Hb & Eld & Eother).
  set (b' := mk_bb (Some m') (bb_desc b)). assert (bb_ok b') as Hok'.
  { constructor; [done|]. destruct Hok as [_ (m & desc & -> & Hnd & Hin & Hap)]. exists m', desc. split; [done|]. split; [done|]. split; [|done].
    change (bytes_of _) with m in El. by rewrite El. }
  exists b'. split; [unfold bb_set; rewrite E; cbn [cbind]; by rewrite Es|]. split; [done|]. split; [done|]. split.
  - intros d. unfold bb_get. destruct (field_found b' f Hok' Hf) as (-> & _). exact Eld.
  - intros g k d Hg Hne Hk. unfold bb_get. destruct (field_found b' g Hok' Hg) as (-> & Hg0 & _), (field_found b g Hok Hg) as (-> & _). cbn [cbind].
    apply Eother; [done|]. destruct Hok as [_ (m & desc & -> & _ & _ & Hap)]. destruct Hf as (d1 & E1 & Hf), Hg as (d2 & E2 & Hg).
    cbn [bb_desc] in E1, E2. injection E1 as <-. injection E2 as <-. destruct (pairs_apart _ g f Hap Hg Hf Hne) as [?|?]; [left|right]; lia.
Qed.
Lemma s32_wraps v : - 2 ^ 31 <= v < 2 ^ 31 -> s32 (v mod 2 ^ 32) = v.
Proof. intros Hv. unfold s32, u32. Z.to_euclidean_division_equations. destruct (_ <? _) eqn:E; lia. Qed.

(** The shipped descriptor keeps the promise: in particular no two of its names have the same hash. *)
Lemma ct_bb_ok : bb_ok ct_bb.
Proof.
  constructor; [by apply Forall_replicate|]. eexists _, _. split; [reflexivity|]. split; [vm_decide|].
  split; vm_decide.
Qed.


