(* ===== verification/CflNodeFns.v ===== *)
(** The functions the nodes of a chain tree are made of ([engine/src/cfl_common_functions.c] and the
    built-in ones of [cfl_main_functions.c], [cfl_one_shot_functions.c], [cfl_boolean_functions.c]),
    over the part of the runtime handle they share: the arenas with the heap, the memory behind the
    nodes' pointers, the event queue, the knowledge bases' table.

    A function is given the image it looks its nodes, links and functions up in. The memory is typed:
    a pointer leads to a struct, and the bytes that the heap and the arenas keep for it are theirs
    ([CflHeap], [CflArena]). A pointer nothing was written to reads as zeros; a NULL pointer that is
    followed is an exception. *)
From S2P Require Import Prelude CflBase CflHeap CflArena CflEventQueue CtTreeWalker CflEngine JsonDecoder CflBlackboard.
From stdpp Require Import gmap.
#[local] Open Scope Z_scope.
#[local] Open Scope cfl_scope.

Definition CFL_TIMER_EVENT : Z := 4.
Definition CFL_SECOND_EVENT : Z := 5.

(** [error_message] is never set. *)
Record cfl_wait_fn_data_t := mk_wait {
  timeout : Z; time_out_event : Z; error_function : Z; reset_flag : bool; event_count : Z; auxiliary_data : Z
}.
#[export] Instance eta_wait : Settable cfl_wait_fn_data_t := fun w =>
  mk_wait (timeout w) (time_out_event w) (error_function w) (reset_flag w) (event_count w) (auxiliary_data w).
Record cfl_verify_fn_data_t := mk_verify { v_reset_flag : bool; v_error_function : Z; v_auxiliary_data : Z }.
Record cfl_wait_for_event_boolean_fn_data_t := mk_wait_for { wf_event_id : Z; wf_event_count : Z }.
Record cfl_for_fn_data_t := mk_for { number_of_iterations : Z; for_iteration : Z }.
Record cfl_watch_dog_fn_data_t := mk_watch_dog {
  current_count : Z; wd_time_count : Z; wd_fn_id : Z; wd_enabled : bool; wd_reset : bool
}.
#[export] Instance eta_watch_dog : Settable cfl_watch_dog_fn_data_t := fun w =>
  mk_watch_dog (current_count w) (wd_time_count w) (wd_fn_id w) (wd_enabled w) (wd_reset w).
Record cfl_df_mask_fn_data_t := mk_df_mask { required_bitmask : Z; excluded_bitmask : Z; node_state : bool }.
Record cfl_start_stop_tests_fn_data_t := mk_tests { stop_tests : list Z; start_tests : list Z }.
(** [sizeof] in the 32-bit build. *)
Definition sizeof_wait : Z := 28.
Definition sizeof_verify : Z := 12.
Definition sizeof_wait_for_event : Z := 8.
Definition sizeof_for : Z := 8.
Definition sizeof_while : Z := 8.
Definition sizeof_watch_dog : Z := 16.
Definition sizeof_df_mask : Z := 12.
Definition sizeof_int32 : Z := 4.

(** What a pointer leads to; of a while node's struct only the count is used. *)
Inductive cell :=
| CWait (w : cfl_wait_fn_data_t) | CVerify (v : cfl_verify_fn_data_t)
| CWaitForEvent (a : cfl_wait_for_event_boolean_fn_data_t) | CFor (f : cfl_for_fn_data_t) | CWhile (iteration : Z)
| CWatchDog (w : cfl_watch_dog_fn_data_t) | CDfMask (m : cfl_df_mask_fn_data_t) | CJoin (parent : Z)
| CTests (t : cfl_start_stop_tests_fn_data_t).

(** The members of the runtime handle the engine does not look at. The heap is the one the arenas
    hold. [user_handle] is the application's. *)
Record cfl_runtime (A : Type) := mk_runtime {
  arena_system : CflHeapArenaSystem; memory : gmap Z cell; event_queue : CFL_EVENT_QUEUE_T;
  shaddow_bitmask : Z; bitmask : Z;
  active_test_bitmap : list Z; active_test_count : Z; kb_allocator_ids : list Z; test_has_arena : list Z;
  main_function_ids : list Z; shared_bb : cfl_bb; user_handle : A
}.
Arguments mk_runtime {A}.
Arguments arena_system {A}.
Arguments memory {A}.
Arguments event_queue {A}.
Arguments shaddow_bitmask {A}.
Arguments bitmask {A}.
Arguments active_test_bitmap {A}.
Arguments active_test_count {A}.
Arguments kb_allocator_ids {A}.
Arguments test_has_arena {A}.
Arguments main_function_ids {A}.
Arguments shared_bb {A}.
Arguments user_handle {A}.
#[export] Instance eta_runtime {A} : Settable (cfl_runtime A) := fun x =>
  mk_runtime (arena_system x) (memory x) (event_queue x) (shaddow_bitmask x) (bitmask x) (active_test_bitmap x)
    (active_test_count x) (kb_allocator_ids x) (test_has_arena x) (main_function_ids x) (shared_bb x) (user_handle x).

(** ** Memory *)

Section Memory.
Context {A : Type}.
#[local] Abbreviation handle := (cfl_handle (cfl_runtime A)).

Definition set_rest (f : cfl_runtime A -> cfl_runtime A) (h : handle) : handle := h <| rest ::= f |>.
Definition set_arenas (s : CflHeapArenaSystem) (h : handle) : handle := set_rest (fun x => x <| arena_system := s |>) h.
Definition set_queue (q : CFL_EVENT_QUEUE_T) (h : handle) : handle := set_rest (fun x => x <| event_queue := q |>) h.
Definition heap_of (h : handle) : CflHeap := as_heap (arena_system (rest h)).
Definition set_heap (hp : CflHeap) (h : handle) : handle := set_arenas (arena_system (rest h) <| as_heap := hp |>) h.

Definition read (h : handle) (ptr : Z) : option cell := memory (rest h) !! ptr.
Definition write (ptr : Z) (c : cell) (h : handle) : handle := set_rest (fun x => x <| memory ::= <[ptr := c]> |>) h.
Definition read_wait (h : handle) (ptr : Z) : cfl_wait_fn_data_t :=
  match read h ptr with Some (CWait w) => w | _ => mk_wait 0 0 0 false 0 0 end.
Definition read_verify (h : handle) (ptr : Z) : cfl_verify_fn_data_t :=
  match read h ptr with Some (CVerify v) => v | _ => mk_verify false 0 0 end.
Definition read_wait_for (h : handle) (ptr : Z) : cfl_wait_for_event_boolean_fn_data_t :=
  match read h ptr with Some (CWaitForEvent a) => a | _ => mk_wait_for 0 0 end.
Definition read_for (h : handle) (ptr : Z) : cfl_for_fn_data_t :=
  match read h ptr with Some (CFor f) => f | _ => mk_for 0 0 end.
Definition read_while (h : handle) (ptr : Z) : Z := match read h ptr with Some (CWhile n) => n | _ => 0 end.
Definition read_watch_dog (h : handle) (ptr : Z) : cfl_watch_dog_fn_data_t :=
  match read h ptr with Some (CWatchDog w) => w | _ => mk_watch_dog 0 0 0 false false end.
Definition read_df_mask (h : handle) (ptr : Z) : cfl_df_mask_fn_data_t :=
  match read h ptr with Some (CDfMask m) => m | _ => mk_df_mask 0 0 false end.
Definition read_join (h : handle) (ptr : Z) : Z := match read h ptr with Some (CJoin p) => p | _ => 0 end.
Definition read_tests (h : handle) (ptr : Z) : cfl_start_stop_tests_fn_data_t :=
  match read h ptr with Some (CTests t) => t | _ => mk_tests [] [] end.

Definition node_ptr (h : handle) (i : Z) : cfl (option Z) := cfl_heap_arena_get_node_ptr (Some (arena_system (rest h))) i.
Definition heap_malloc (h : handle) (size : Z) : cfl (option Z * handle) :=
  r <- cfl_heap_malloc_pointer (Some (heap_of h)) size;; Ret (r.1, set_heap r.2 h).
Definition heap_free (h : handle) (ptr : Z) : cfl handle :=
  hp <- cfl_heap_free_pointer (Some (heap_of h)) ptr;; Ret (set_heap hp h).

(** [true]: the node has memory already. *)
Definition cfl_allocate_state (h : handle) (i : Z) : cfl bool :=
  memory_index <- cfl_heap_arena_get_node_memory_index (Some (arena_system (rest h))) i;;
  Ret (negb (memory_index =? INVALID_MEMORY_IDX)).
Definition cfl_additional_arena_alloc (h : handle) (i size : Z) : cfl (Z * handle) :=
  r <- cfl_arena_additional_alloc (Some (arena_system (rest h))) i size;;
  raise? r.1 =? 0 with "cfl_additional_arena_alloc: Failed to allocate memory";
  Ret (r.1, set_arenas r.2 h).
Definition cfl_smart_arena_alloc (h : handle) (i size : Z) : cfl (option Z * handle) :=
  memory_index <- cfl_heap_arena_get_node_memory_index (Some (arena_system (rest h))) i;;
  if memory_index =? INVALID_MEMORY_IDX then
    r <- cfl_arena_system_alloc (Some (arena_system (rest h))) i size;; Ret (Some r.1, set_arenas r.2 h)
  else ptr <- node_ptr h i;; Ret (ptr, h).
End Memory.

(** ** Common functions *)

(** The digits, the lowest first: [while (value > 0) temp[i++] = '0' + value % 10, value /= 10]. *)
Fixpoint digits_of (fuel : nat) (value : Z) : list Z :=
  match fuel with
  | O => []
  | S fuel => if 0 <? value then (48 + value mod 10) :: digits_of fuel (value / 10) else []
  end.
(** What is written into the buffer, NUL included; a [uint16_t] has five digits at most. *)
Definition cfl_uint16_to_str (value : Z) : list Z :=
  if value =? 0 then [48; 0] else reverse (digits_of 5 value) ++ [0].

Section Common.
Context {A : Type} (flash_handle : chaintree_handle (cfl_runtime A)).
#[local] Abbreviation handle := (cfl_handle (cfl_runtime A)).

(** [link_table[link_start + i]] for the links of a node. *)
Definition links_list (i : Z) : list Z :=
  map (fun k => link_at flash_handle (link_start (node_at flash_handle i) + k)) (seqZ 0 (links_of flash_handle i)).
(** The checks before a loop over the links of a node, under the name of the function. *)
Definition check_links {B} (who : string) (i : Z) (k : cfl B) : cfl B :=
  raise? node_count flash_handle <=? i with (String.append who ": node_index out of bounds");
  let start := link_start (node_at flash_handle i) in
  let count := links_of flash_handle i in
  raise? (0 <? count) && (link_table_size flash_handle <=? start) with (String.append who ": link_start out of bounds");
  raise? (0 <? count) && (link_table_size flash_handle <? start + count) with (String.append who ": link range exceeds table size");
  k.
Definition check_link {B} (who : string) (link_id : Z) (k : cfl B) : cfl B :=
  raise? node_count flash_handle <=? link_id with (String.append who ": link_id out of bounds"); k.

Definition cfl_enable_all_nodes (h : handle) (i : Z) : cfl handle :=
  check_links "cfl_enable_all_nodes" i
    (each (fun h link_id => check_link "cfl_enable_all_nodes" link_id (cfl_enable_node flash_handle h link_id)) (links_list i) h).
Definition cfl_enable_all_children (h : handle) (i : Z) : cfl handle := cfl_enable_all_nodes h i.
Definition cfl_enable_auto_start_nodes (h : handle) (i : Z) : cfl handle :=
  check_links "cfl_enable_auto_start_nodes" i
    (each (fun h link_id => check_link "cfl_enable_auto_start_nodes" link_id
       (if nz (Z.land (link_count (node_at flash_handle link_id)) AUTO_START_BIT)
        then cfl_enable_node flash_handle h link_id else Ret h)) (links_list i) h).

(** The first enabled link ends the loop. *)
Fixpoint active_children (h : handle) (links : list Z) : cfl Z :=
  match links with
  | [] => Ret CFL_DISABLE
  | link_id :: links =>
      enabled <- cfl_engine_node_is_enabled flash_handle h link_id;;
      if enabled : bool then Ret CFL_CONTINUE else active_children h links
  end.
Definition cfl_verify_active_children (h : handle) (i : Z) : cfl Z := active_children h (links_list i).
Definition cfl_disable_all_children (h : handle) (i : Z) : cfl handle :=
  each (fun h link_id =>
          enabled <- cfl_engine_node_is_enabled flash_handle h link_id;;
          if enabled : bool then cfl_terminate_node_tree flash_handle h link_id else Ret h) (links_list i) h.
Definition child_link {B} (i child : Z) (k : Z -> cfl B) : cfl B :=
  raise? links_of flash_handle i <=? child with "cfl_enable_child: node_index out of bounds";
  k (link_at flash_handle (link_start (node_at flash_handle i) + child)).
Definition cfl_enable_child (h : handle) (i child : Z) : cfl handle := child_link i child (cfl_enable_node flash_handle h).
(** As it is written: the child is enabled. *)
Definition cfl_disable_child (h : handle) (i child : Z) : cfl handle := child_link i child (cfl_enable_node flash_handle h).
Definition cfl_child_is_enabled (h : handle) (i child : Z) : cfl bool :=
  child_link i child (cfl_engine_node_is_enabled flash_handle h).

Definition CFL_EVENT_BROADCAST_NODE : Z := 0xFFFF.
Definition CFL_STOP_START_TESTS_EVENT : Z := 0xFFF0.
Definition CFL_TERMINATE_SYSTEM_EVENT : Z := 0xFFFF.
Definition cfl_stop_start_tests (h : handle) (ptr : Z) : cfl handle :=
  q <- cfl_send_data_event (Some (event_queue (rest h))) CFL_EVENT_PRIORITY_LOW CFL_EVENT_BROADCAST_NODE
         CFL_STOP_START_TESTS_EVENT false ptr;;
  Ret (set_queue q h).

(** A call through a function table; past its end C calls whatever the word there points to. *)
Definition call_boolean (k : Z) (h : handle) (i ty ev data : Z) : cfl (bool * handle) :=
  let? f := boolean_functions flash_handle !! Z.to_nat k or "boolean function index out of the table" in
  f h i ty ev data.
Definition call_one_shot (k : Z) (h : handle) (i : Z) : cfl handle :=
  let? f := one_shot_functions flash_handle !! Z.to_nat k or "one-shot function index out of the table" in f h i.
End Common.

(** ** Boolean functions *)

Section Booleans.
Context {A : Type} (float_to_int32 : Z -> Z) (tables : node_data_tables) (flash_handle : chaintree_handle (cfl_runtime A)).
#[local] Abbreviation handle := (cfl_handle (cfl_runtime A)).
#[local] Abbreviation boolean_fn := (boolean_function_t (cfl_runtime A)).

(** [json_decoder_init_from_runtime] and an extraction from the node's data. *)
Definition extract_int32 (i : Z) (path : string) : cfl Z :=
  ctx <- json_decoder_init_from_runtime flash_handle tables i;; json_extract_int32_runtime float_to_int32 ctx (chars path).
Definition extract_bool (i : Z) (path : string) : cfl bool :=
  ctx <- json_decoder_init_from_runtime flash_handle tables i;; json_extract_bool_runtime ctx (chars path).

Definition cfl_null_boolean_fn : boolean_fn := fun h _ _ _ _ => Ret (false, h).
Definition cfl_bool_false_boolean_fn : boolean_fn := fun h _ _ _ _ => Ret (false, h).
Definition cfl_column_null_boolean_fn : boolean_fn := fun h _ _ _ _ => Ret (false, h).
Definition cfl_gate_node_null_boolean_fn : boolean_fn := fun h _ _ _ _ => Ret (false, h).
Definition cfl_state_machine_null_boolean_fn : boolean_fn := fun h _ _ _ _ => Ret (false, h).

(** The events still to come are counted down in memory of its own, taken from the heap at the init
    event and given back at the terminate event. *)
Definition cfl_wait_for_event_boolean_fn : boolean_fn := fun h i _ ev _ =>
  p <- node_ptr h i;;
  let? ptr := p or "cfl_wait_for_event_boolean_fn: failed to get node pointer" in
  if ev =? CFL_INIT_EVENT then
    r <- heap_malloc h sizeof_wait_for_event;;
    let h := r.2 in
    let? aux := r.1 or "cfl_wait_for_event_boolean_fn: failed to allocate auxiliary_data" in
    event_id <- extract_int32 i "node_dict.wait_fn_data.event_id";;
    event_count <- extract_int32 i "node_dict.wait_fn_data.event_count";;
    let h := write aux (CWaitForEvent (mk_wait_for event_id event_count)) h in
    Ret (false, write ptr (CWait (read_wait h ptr <| auxiliary_data := aux |>)) h)
  else if ev =? CFL_TERMINATE_EVENT then
    let aux := auxiliary_data (read_wait h ptr) in
    h <- (if nz aux then heap_free h aux else Ret h);; Ret (false, h)
  else
    let aux := auxiliary_data (read_wait h ptr) in
    raise? aux =? 0 with "cfl_wait_for_event_boolean_fn: auxiliary_data is NULL";
    let a := read_wait_for h aux in
    if ev =? u32 (wf_event_id a) then
      let left := s32 (wf_event_count a - 1) in
      Ret (left =? 0, write aux (CWaitForEvent (mk_wait_for (wf_event_id a) left)) h)
    else Ret (false, h).

(** [((uint64_t)mask->required_bitmask & bitmask) == (uint64_t)mask->required_bitmask], and no
    excluded bit. *)
Definition mask_met (m : cfl_df_mask_fn_data_t) (bits : Z) : bool :=
  (Z.land (u64 (required_bitmask m)) bits =? u64 (required_bitmask m)) && (Z.land (u64 (excluded_bitmask m)) bits =? 0).
Definition cfl_wait_for_bitmask_boolean_fn : boolean_fn := fun h i _ ev _ =>
  p <- node_ptr h i;;
  let? ptr := p or "cfl_wait_for_bitmask_boolean_fn: failed to get node pointer" in
  h <- (if (ev =? CFL_INIT_EVENT) && (auxiliary_data (read_wait h ptr) =? 0) then
          required <- extract_int32 i "node_dict.wait_fn_data.required_bitmask";;
          excluded <- extract_int32 i "node_dict.wait_fn_data.excluded_bitmask";;
          r <- heap_malloc h sizeof_df_mask;;
          let h := r.2 in
          let? aux := r.1 or "cfl_wait_for_bitmask_boolean_fn: failed to allocate auxiliary_data" in
          let h := write ptr (CWait (read_wait h ptr <| auxiliary_data := aux |>)) h in
          Ret (write aux (CDfMask (mk_df_mask required excluded false)) h)
        else Ret h);;
  if negb (ev =? CFL_TIMER_EVENT) then Ret (false, h)
  else Ret (mask_met (read_df_mask h (auxiliary_data (read_wait h ptr))) (bitmask (rest h)), h).
End Booleans.

(** ** One-shot functions *)

Section OneShots.
Context {A : Type} (float_to_int32 : Z -> Z) (tables : node_data_tables) (flash_handle : chaintree_handle (cfl_runtime A)).
#[local] Abbreviation handle := (cfl_handle (cfl_runtime A)).
#[local] Abbreviation one_shot_fn := (one_shot_function_t (cfl_runtime A)).
#[local] Abbreviation int32_of := (extract_int32 float_to_int32 tables flash_handle).
#[local] Abbreviation bool_of := (extract_bool tables flash_handle).

Definition cfl_null_one_shot_fn : one_shot_fn := fun h _ => Ret h.
Definition cfl_column_init_one_shot_fn : one_shot_fn := fun h i => cfl_enable_all_nodes flash_handle h i.
Definition cfl_column_term_one_shot_fn : one_shot_fn := fun h _ => Ret h.
Definition cfl_gate_node_init_one_shot_fn : one_shot_fn := fun h i => cfl_enable_auto_start_nodes flash_handle h i.
Definition cfl_gate_node_term_one_shot_fn : one_shot_fn := fun h _ => Ret h.
Definition cfl_fork_init_one_shot_fn : one_shot_fn := fun h i => cfl_enable_all_nodes flash_handle h i.
Definition cfl_fork_term_one_shot_fn : one_shot_fn := fun h _ => Ret h.

(** The event's value is the node's own index. *)
Definition cfl_send_named_event_one_shot_fn : one_shot_fn := fun h i =>
  eid <- int32_of i "node_dict.event_id";;
  node <- int32_of i "node_dict.node_id";;
  q <- cfl_send_node_id_event (Some (event_queue (rest h))) CFL_EVENT_PRIORITY_LOW (u32 node) (u32 eid) i;;
  Ret (set_queue q h).

(** Memory is taken and filled on the first init only. *)
Definition first_time (size : Z) (fill : handle -> Z -> cfl handle) : one_shot_fn := fun h i =>
  already_allocated <- cfl_allocate_state h i;;
  if already_allocated : bool then Ret h
  else
    r <- cfl_smart_arena_alloc h i size;;
    let? ptr := r.1 or "NULL pointer followed" in fill r.2 ptr.
Definition cfl_verify_init_one_shot_fn : one_shot_fn := fun h i =>
  first_time sizeof_verify (fun h ptr =>
    reset <- bool_of i "node_dict.reset_flag";;
    error <- int32_of i "node_dict.error_function_id";;
    Ret (write ptr (CVerify (mk_verify reset (u32 error) 0)) h)) h i.
Definition cfl_verify_term_one_shot_fn : one_shot_fn := fun h _ => Ret h.
(** A wait that starts again keeps the count it has. *)
Definition cfl_wait_init_one_shot_fn : one_shot_fn := fun h i =>
  first_time sizeof_wait (fun h ptr =>
    reset <- bool_of i "node_dict.reset_flag";;
    time <- int32_of i "node_dict.timeout";;
    event <- int32_of i "node_dict.time_out_event";;
    error <- int32_of i "node_dict.error_function_id";;
    Ret (write ptr (CWait (mk_wait (u32 time) (u32 event) (u32 error) reset 0 0)) h)) h i.
Definition cfl_wait_term_one_shot_fn : one_shot_fn := fun h _ => Ret h.
Definition cfl_join_init_one_shot_fn : one_shot_fn := fun h i =>
  first_time sizeof_int32 (fun h ptr => parent <- int32_of i "node_dict.parent_node_name";; Ret (write ptr (CJoin parent) h)) h i.
Definition cfl_join_term_one_shot_fn : one_shot_fn := fun h _ => Ret h.
Definition cfl_join_sequence_element_init_one_shot_fn : one_shot_fn := fun h i => cfl_join_init_one_shot_fn h i.
Definition cfl_join_sequence_element_term_one_shot_fn : one_shot_fn := fun h _ => Ret h.

(** The node's memory, taken on the first init: the pointer, whether it was there, the handle. *)
Definition node_memory {B} (size : Z) (h : handle) (i : Z) (k : bool -> Z -> handle -> cfl B) : cfl B :=
  already_allocated <- cfl_allocate_state h i;;
  r <- (if already_allocated : bool then ptr <- node_ptr h i;; Ret (ptr, h) else cfl_smart_arena_alloc h i size);;
  let? ptr := r.1 or "NULL pointer followed" in k already_allocated ptr r.2.
Definition first_link (i : Z) : Z := link_at flash_handle (link_start (node_at flash_handle i)).
Definition cfl_while_init_one_shot_fn : one_shot_fn := fun h i =>
  node_memory sizeof_while h i (fun _ ptr h => cfl_enable_node flash_handle (write ptr (CWhile 0) h) (first_link i)).
Definition cfl_while_term_one_shot_fn : one_shot_fn := fun h _ => Ret h.
Definition cfl_for_init_one_shot_fn : one_shot_fn := fun h i =>
  node_memory sizeof_for h i (fun already_allocated ptr h =>
    n <- (if already_allocated then Ret (number_of_iterations (read_for h ptr)) else int32_of i "node_dict.number_of_iterations");;
    cfl_enable_node flash_handle (write ptr (CFor (mk_for n 0)) h) (first_link i)).
Definition cfl_for_term_one_shot_fn : one_shot_fn := fun h _ => Ret h.
Definition cfl_df_mask_init_one_shot_fn : one_shot_fn := fun h i =>
  node_memory sizeof_df_mask h i (fun already_allocated ptr h =>
    if already_allocated then
      Ret (write ptr (CDfMask (mk_df_mask (required_bitmask (read_df_mask h ptr)) (excluded_bitmask (read_df_mask h ptr)) false)) h)
    else
      required <- int32_of i "node_dict.column_data.required_bitmask";;
      excluded <- int32_of i "node_dict.column_data.excluded_bitmask";;
      Ret (write ptr (CDfMask (mk_df_mask required excluded false)) h)).
Definition cfl_df_mask_term_one_shot_fn : one_shot_fn := fun h _ => Ret h.

Definition cfl_watch_dog_init_one_shot_fn : one_shot_fn := fun h i =>
  node_memory sizeof_watch_dog h i (fun already_allocated ptr h =>
    if already_allocated then
      Ret (write ptr (CWatchDog (read_watch_dog h ptr <| current_count := 0 |> <| wd_enabled := false |>)) h)
    else
      time <- int32_of i "node_dict.wd_time_count";;
      reset <- bool_of i "node_dict.wd_reset";;
      fn <- int32_of i "node_dict.wd_fn_id";;
      Ret (write ptr (CWatchDog (mk_watch_dog 0 time fn false reset)) h)).
Definition cfl_watch_dog_term_one_shot_fn : one_shot_fn := fun h _ => Ret h.
(** The watch dog a node names. *)
Definition on_watch_dog (msg : string) (f : cfl_watch_dog_fn_data_t -> cfl_watch_dog_fn_data_t) : one_shot_fn := fun h i =>
  watch_dog_node_id <- int32_of i "node_dict.node_id";;
  p <- node_ptr h (u16 watch_dog_node_id);;
  let? ptr := p or msg in Ret (write ptr (CWatchDog (f (read_watch_dog h ptr))) h).
Definition cfl_pat_watch_dog_one_shot_fn : one_shot_fn :=
  on_watch_dog "cfl_pat_watch_dog_one_shot_fn: failed to get node pointer" (fun w => w <| current_count := 0 |>).
Definition cfl_enable_watch_dog_one_shot_fn : one_shot_fn :=
  on_watch_dog "cfl_enable_watch_dog_one_shot_fn: failed to get node pointer"
    (fun w => w <| wd_enabled := true |> <| current_count := 0 |>).
Definition cfl_disable_watch_dog_one_shot_fn : one_shot_fn :=
  on_watch_dog "cfl_disable_watch_dog_one_shot_fn: failed to get node pointer"
    (fun w => w <| wd_enabled := false |> <| current_count := 0 |>).

(** The [int32_t] is extended with its sign. *)
Definition cfl_clear_bitmask_one_shot_fn : one_shot_fn := fun h i =>
  mask <- int32_of i "node_dict.bit_mask";;
  Ret (set_rest (fun x => x <| shaddow_bitmask ::= fun b => Z.land b (u64 (Z.lnot mask)) |>) h).
Definition cfl_set_bitmask_one_shot_fn : one_shot_fn := fun h i =>
  mask <- int32_of i "node_dict.bit_mask";;
  Ret (set_rest (fun x => x <| shaddow_bitmask ::= fun b => Z.lor b (u64 mask) |>) h).

(** [f] on every node of the array [node_dict.nodes], from element [k] on with [n] left. *)
Fixpoint each_listed (msg : string) (f : handle -> Z -> cfl handle) (ctx : json_decoder_ctx_t) (array : Z) (n : nat) (k : Z)
    (h : handle) : cfl handle :=
  match n with
  | O => Ret h
  | S n =>
      element <- json_get_array_child ctx array k;;
      node_id <- json_get_int32 float_to_int32 ctx element;;
      raise? (node_id <? 0) || (node_count flash_handle <=? u32 node_id) with msg;
      h <- f h node_id;;
      each_listed msg f ctx array n (k + 1) h
  end.
(** The region is read without the check the extractions make; of a node without data C reads past
    the table here. *)
Definition on_listed (msg : string) (f : handle -> Z -> cfl handle) : one_shot_fn := fun h i =>
  ctx <- json_decoder_init_from_runtime flash_handle tables i;;
  let region := zget region0 (controls ctx) (current_control_idx ctx) in
  array <- json_navigate_path ctx (start_position region) (chars "node_dict.nodes");;
  count <- json_get_child_count ctx array;;
  each_listed msg f ctx array (Z.to_nat count) 0 h.
Definition cfl_disable_nodes_one_shot_fn : one_shot_fn :=
  on_listed "cfl_disable_nodes_one_shot_fn: node_id out of bounds" (cfl_terminate_node_tree flash_handle).
Definition cfl_enable_nodes_one_shot_fn : one_shot_fn :=
  on_listed "cfl_enable_nodes_one_shot_fn: node_id out of bounds" (cfl_enable_node flash_handle).
End OneShots.

(** ** Main functions *)

Section Mains.
Context {A : Type} (flash_handle : chaintree_handle (cfl_runtime A)).
#[local] Abbreviation handle := (cfl_handle (cfl_runtime A)).
#[local] Abbreviation main_fn := (main_function_t (cfl_runtime A)).

Definition cfl_null_main_fn : main_fn := fun h _ _ _ _ _ => Ret (CFL_CONTINUE, h).
Definition cfl_disable_main_fn : main_fn := fun h _ _ _ _ _ => Ret (CFL_DISABLE, h).
Definition cfl_halt_main_fn : main_fn := fun h _ _ _ _ _ => Ret (CFL_HALT, h).
Definition cfl_reset_main_fn : main_fn := fun h _ _ _ _ _ => Ret (CFL_RESET, h).
Definition cfl_terminate_main_fn : main_fn := fun h _ _ _ _ _ => Ret (CFL_TERMINATE, h).
Definition cfl_terminate_system_main_fn : main_fn := fun h _ _ _ _ _ => Ret (CFL_TERMINATE_SYSTEM, h).

(** Goes on while a child is enabled. *)
Fixpoint any_child (h : handle) (links : list Z) : cfl Z :=
  match links with
  | [] => Ret CFL_DISABLE
  | link_id :: links =>
      check_link flash_handle "cfl_column_main_main_fn" link_id
        (enabled <- cfl_engine_node_is_enabled flash_handle h link_id;;
         if enabled : bool then Ret CFL_CONTINUE else any_child h links)
  end.
Definition cfl_column_main_main_fn : main_fn := fun h aux i ty ev data =>
  if negb (ev =? CFL_TIMER_EVENT) then Ret (CFL_CONTINUE, h)
  else
    raise? node_count flash_handle <=? i with "cfl_column_main_main_fn: node_index out of bounds";
    r <- call_boolean flash_handle aux h i ty ev data;;
    let h := r.2 in
    if r.1 : bool then Ret (CFL_DISABLE, h)
    else
      code <- check_links flash_handle "cfl_column_main_main_fn" i (any_child h (links_list flash_handle i));;
      Ret (code, h).
Definition cfl_local_arena_main_main_fn : main_fn := cfl_column_main_main_fn.
Definition cfl_gate_node_main_main_fn : main_fn := cfl_column_main_main_fn.
Definition cfl_fork_main_main_fn : main_fn := cfl_column_main_main_fn.
Definition cfl_sequence_start_main_main_fn : main_fn := cfl_column_main_main_fn.

Definition cfl_verify_main_fn : main_fn := fun h aux i ty ev data =>
  r <- call_boolean flash_handle aux h i ty ev data;;
  let h := r.2 in
  if r.1 : bool then Ret (CFL_CONTINUE, h)
  else
    p <- node_ptr h i;;
    let? ptr := p or "cfl_verify_main_fn: failed to get node pointer" in
    h <- call_one_shot flash_handle (v_error_function (read_verify h ptr)) h i;;
    Ret (if v_reset_flag (read_verify h ptr) then CFL_RESET else CFL_TERMINATE, h).

(** Halts its siblings until the boolean function is true; every [time_out_event] counts. *)
Definition cfl_wait_main_fn : main_fn := fun h aux i ty ev data =>
  r <- call_boolean flash_handle aux h i ty ev data;;
  let h := r.2 in
  if r.1 : bool then Ret (CFL_DISABLE, h)
  else
    p <- node_ptr h i;;
    let? ptr := p or "cfl_wait_main_fn: failed to get node pointer" in
    let w := read_wait h ptr in
    if timeout w =? 0 then Ret (CFL_HALT, h)
    else if time_out_event w =? ev then
      let w := w <| event_count := u32 (event_count w + 1) |> in
      let h := write ptr (CWait w) h in
      if timeout w <=? event_count w then
        h <- call_one_shot flash_handle (error_function w) h i;;
        Ret (if reset_flag (read_wait h ptr) then CFL_RESET else CFL_TERMINATE, h)
      else Ret (CFL_HALT, h)
    else Ret (CFL_HALT, h).

Definition cfl_join_main_main_fn : main_fn := fun h _ i _ _ _ =>
  p <- node_ptr h i;;
  let? ptr := p or "cfl_join_main_main_fn: failed to get node pointer" in
  enabled <- cfl_engine_node_is_enabled flash_handle h (u16 (read_join h ptr));;
  Ret (if enabled : bool then CFL_HALT else CFL_DISABLE, h).
Definition cfl_join_sequence_element_main_fn : main_fn := cfl_join_main_main_fn.

Definition cfl_for_main_main_fn : main_fn := fun h aux i ty ev data =>
  r <- call_boolean flash_handle aux h i ty ev data;;
  let h := r.2 in
  if r.1 : bool then Ret (CFL_DISABLE, h)
  else
    let link_id := first_link flash_handle i in
    enabled <- cfl_engine_node_is_enabled flash_handle h link_id;;
    if enabled : bool then Ret (CFL_CONTINUE, h)
    else
      p <- node_ptr h i;;
      let? ptr := p or "cfl_for_main_main_fn: failed to get node pointer" in
      let n := number_of_iterations (read_for h ptr) in
      let k := s32 (for_iteration (read_for h ptr) + 1) in
      let h := write ptr (CFor (mk_for n k)) h in
      if n <=? k then Ret (CFL_DISABLE, h)
      else h <- cfl_enable_node flash_handle h link_id;; Ret (CFL_CONTINUE, h).
Definition cfl_while_main_main_fn : main_fn := fun h aux i ty ev data =>
  let link_id := first_link flash_handle i in
  enabled <- cfl_engine_node_is_enabled flash_handle h link_id;;
  if enabled : bool then Ret (CFL_CONTINUE, h)
  else
    p <- node_ptr h i;;
    let? ptr := p or "cfl_while_main_main_fn: failed to get node pointer" in
    r <- call_boolean flash_handle aux (write ptr (CWhile (s32 (read_while h ptr + 1))) h) i ty ev data;;
    let h := r.2 in
    if r.1 : bool then h <- cfl_enable_node flash_handle h link_id;; Ret (CFL_CONTINUE, h)
    else Ret (CFL_DISABLE, h).
Definition cfl_watch_dog_main_main_fn : main_fn := fun h aux i ty ev data =>
  r <- call_boolean flash_handle aux h i ty ev data;;
  let h := r.2 in
  if r.1 : bool then Ret (CFL_DISABLE, h)
  else
    p <- node_ptr h i;;
    let? ptr := p or "cfl_watch_dog_main_main_fn: failed to get node pointer" in
    let w := read_watch_dog h ptr in
    if negb (wd_enabled w) || negb (ev =? CFL_TIMER_EVENT) then Ret (CFL_CONTINUE, h)
    else
      let w := w <| current_count := s32 (current_count w + 1) |> in
      let h := write ptr (CWatchDog w) h in
      if wd_time_count w <=? current_count w then
        h <- call_one_shot flash_handle (wd_fn_id w) h i;;
        Ret (if wd_reset (read_watch_dog h ptr) then CFL_RESET else CFL_TERMINATE, h)
      else Ret (CFL_CONTINUE, h).

(** The children are enabled when the mask comes to hold and terminated when it no longer does. *)
Definition cfl_df_mask_main_main_fn : main_fn := fun h aux i ty ev data =>
  r <- call_boolean flash_handle aux h i ty ev data;;
  let h := r.2 in
  if r.1 : bool then Ret (CFL_DISABLE, h)
  else
    p <- node_ptr h i;;
    let? ptr := p or "cfl_df_mask_main_main_fn: failed to get node pointer" in
    let m := read_df_mask h ptr in
    let set h state := write ptr (CDfMask (mk_df_mask (required_bitmask m) (excluded_bitmask m) state)) h in
    h <- (if ev =? CFL_TIMER_EVENT then
            let conditions_met := mask_met m (bitmask (rest h)) in
            if negb (node_state m) && conditions_met then
              h <- each (cfl_enable_node flash_handle) (links_list flash_handle i) h;; Ret (set h true)
            else if node_state m && negb conditions_met then
              h <- each (cfl_terminate_node_tree flash_handle) (links_list flash_handle i) h;; Ret (set h false)
            else Ret h
          else Ret h);;
    Ret (if node_state (read_df_mask h ptr) then CFL_CONTINUE else CFL_SKIP_CONTINUE, h).
End Mains.
