(* ===== verification/CflRuntime.v ===== *)
(** The runtime ([engine/src/cfl_runtime.c]): which knowledge bases are active, the timer's events,
    and the run loop that drains the event queue and routes every event to the knowledge base that
    owns its node.

    [cfl_timer_wait] is not the engine's: it is an argument, which gives the mask of what changed and
    may do anything to the handle (the firmware queues its commands there). A run is over a finite
    list of its inputs, a cycle for each. An event that is executed may queue others, so that a drain
    has fuel. Printing and the time stamps ([double]) are left out. *)
From S2P Require Import Prelude CflBase CflPerm CflHeap CflArena CflEventQueue CtTreeWalker CflEngine CflBlackboard CflNodeFns.
From stdpp Require Import gmap.
#[local] Open Scope Z_scope.
#[local] Open Scope cfl_scope.

Definition CFL_MINUTE_EVENT : Z := 6.
Definition CFL_HOUR_EVENT : Z := 7.
Definition CFL_DAY_EVENT : Z := 8.
Definition CFL_WEEK_EVENT : Z := 9.
Definition CFL_YEAR_EVENT : Z := 11.
Definition CFL_CHANGED_SECOND : Z := 0x01.
Definition CFL_CHANGED_MINUTE : Z := 0x02.
Definition CFL_CHANGED_HOUR : Z := 0x04.
Definition CFL_CHANGED_DAY : Z := 0x08.
Definition CFL_CHANGED_DOW : Z := 0x10.
Definition CFL_CHANGED_DOY : Z := 0x20.
Definition NO_KB : Z := 0xFFFF.

(** How a run ends: at a terminate event or with no knowledge base active, or still going when the
    inputs are used up. *)
Inductive outcome (H : Type) := Stopped (h : H) | Running (h : H).
Arguments Stopped {H} h.
Arguments Running {H} h.

(** [1u << (kb_idx % 32)] of the word [kb_idx / 32]. *)
Definition test_bit (k : Z) : Z := Z.shiftl 1 (k mod 32).
Definition test_is_active (bitmap : list Z) (k : Z) : bool := nz (Z.land (zget 0 bitmap (k / 32)) (test_bit k)).
Definition test_active_set (bitmap : list Z) (k : Z) : list Z :=
  zset bitmap (k / 32) (Z.lor (zget 0 bitmap (k / 32)) (test_bit k)).
Definition test_active_clr (bitmap : list Z) (k : Z) : list Z :=
  zset bitmap (k / 32) (Z.land (zget 0 bitmap (k / 32)) (u32 (Z.lnot (test_bit k)))).

(** The parameters the code reads; [perm_buffer] is an address. *)
Record cfl_runtime_create_params_t := mk_params {
  perm_buffer : Z; perm_buffer_size : Z; heap_size : Z; max_allocator_count : Z; total_node_count : Z;
  allocator_0_size : Z; event_queue_high_priority_size : Z; event_queue_low_priority_size : Z
}.
(** [sizeof] in the 32-bit build. *)
Definition sizeof_runtime_handle : Z := 176.
Definition sizeof_main_function_data : Z := 18.
Definition sizeof_CT_StackEntry : Z := 12.
Definition sizeof_CT_TreeWalker : Z := 32.
Definition sizeof_CT_WalkerContext : Z := 20.
Definition sizeof_json_decoder_ctx : Z := 32.

Section Runtime.
Context {A : Type} (flash_handle : chaintree_handle (cfl_runtime A)).
#[local] Abbreviation handle := (cfl_handle (cfl_runtime A)).

Definition kb_at (k : Z) : chaintree_kb_info_t := zget kb0 (kb_table flash_handle) k.
Definition TEST_IS_ACTIVE (h : handle) (k : Z) : bool := test_is_active (active_test_bitmap (rest h)) k.
Definition TEST_ACTIVE_SET (k : Z) (h : handle) : handle := set_rest (fun x => x <| active_test_bitmap ::= fun b => test_active_set b k |>) h.
Definition TEST_ACTIVE_CLR (k : Z) (h : handle) : handle := set_rest (fun x => x <| active_test_bitmap ::= fun b => test_active_clr b k |>) h.

(** ** Knowledge bases *)

(** [for (i = start; i < start + count; i++) cfl_heap_arena_set_node_allocator_id(...)]. *)
Definition assign_allocator (k id : Z) (h : handle) : cfl handle :=
  each (fun h i => s <- cfl_heap_arena_set_node_allocator_id (Some (arena_system (rest h))) i id;; Ret (set_arenas s h))
    (seqZ (start_index (kb_at k)) (kb_nodes (kb_at k))) h.
(** What is kept of the arena of [k]. *)
Definition note_arena (k id has_arena : Z) (h : handle) : handle :=
  set_rest (fun x => x <| kb_allocator_ids ::= fun l => zset l k id |> <| test_has_arena ::= fun l => zset l k has_arena |>) h.
Definition count_tests (d : Z) (h : handle) : handle := set_rest (fun x => x <| active_test_count ::= fun n => u32 (n + d) |>) h.

Definition cfl_add_test_by_index (h : handle) (k : Z) : cfl (bool * handle) :=
  raise? kb_count flash_handle <=? k with "cfl_add_test_by_index: kb_index out of bounds";
  if TEST_IS_ACTIVE h k then Ret (false, h)
  else
    let kb := kb_at k in
    r <- cfl_heap_arena_create (Some (arena_system (rest h))) (start_index kb) (u16 (kb_nodes kb * memory_factor kb));;
    let arena_id := r.1 in
    raise? arena_id =? 0xFF with "cfl_add_test_by_index: Arena allocation failed";
    h <- assign_allocator k arena_id (set_arenas r.2 h);;
    h <- cfl_engine_init_test flash_handle (note_arena k arena_id 1 h) (start_index kb) (kb_nodes kb);;
    Ret (true, count_tests 1 (TEST_ACTIVE_SET k h)).

Definition cfl_delete_test_by_index (h : handle) (k : Z) : cfl (bool * handle) :=
  if (kb_count flash_handle <=? k) || negb (TEST_IS_ACTIVE h k) then Ret (false, h)
  else
    h <- (if nz (zget 0 (test_has_arena (rest h)) k) then
            let kb := kb_at k in
            let arena_id := zget 0 (kb_allocator_ids (rest h)) k in
            h <- cfl_terminate_all_nodes_in_kb flash_handle h (start_index kb) (kb_nodes kb);;
            _ <- cfl_heap_arena_used_bytes (Some (arena_system (rest h))) arena_id;;
            _ <- cfl_heap_arena_free_bytes (Some (arena_system (rest h))) arena_id;;
            s <- cfl_heap_arena_destroy (Some (arena_system (rest h))) arena_id (start_index kb);;
            h <- assign_allocator k 0xFF (set_arenas s h);;
            Ret (note_arena k 0xFF 0 h)
          else Ret h);;
    Ret (true, count_tests (-1) (TEST_ACTIVE_CLR k h)).

Fixpoint each_test (f : handle -> Z -> cfl (bool * handle)) (l : list Z) (h : handle) : cfl handle :=
  match l with [] => Ret h | k :: l => r <- f h k;; each_test f l r.2 end.
Definition process_stop_start_tests (h : handle) (ptr : Z) : cfl handle :=
  let t := read_tests h ptr in
  h <- each_test cfl_delete_test_by_index (stop_tests t) h;;
  each_test cfl_add_test_by_index (start_tests t) h.

(** ** Timer events *)

Definition cfl_send_system_event_to_test (h : handle) (k eid etype : Z) (malloc_flag : bool) (data : Z) : cfl handle :=
  if negb (TEST_IS_ACTIVE h k) then Ret h
  else
    let kb := kb_at k in
    enabled <- cfl_engine_node_is_enabled flash_handle h (start_index kb);;
    if enabled : bool then
      q <- cfl_send_event (Some (event_queue (rest h))) CFL_EVENT_PRIORITY_LOW (start_index kb) etype malloc_flag eid data;;
      Ret (set_queue q h)
    else Ret h.
(** The event of every change, in the order of the code; [data] is the address of the result. *)
Definition timer_events (changed_mask : Z) : list Z :=
  CFL_TIMER_EVENT :: List.map snd (List.filter (fun p => nz (Z.land changed_mask p.1))
    [(CFL_CHANGED_SECOND, CFL_SECOND_EVENT); (CFL_CHANGED_MINUTE, CFL_MINUTE_EVENT); (CFL_CHANGED_HOUR, CFL_HOUR_EVENT);
     (CFL_CHANGED_DAY, CFL_DAY_EVENT); (CFL_CHANGED_DOW, CFL_WEEK_EVENT); (CFL_CHANGED_DOY, CFL_YEAR_EVENT)]).
Definition cfl_generate_timer_events (h : handle) (k changed_mask data : Z) : cfl handle :=
  each (fun h eid => cfl_send_system_event_to_test h k eid CFL_EVENT_TYPE_PTR false data) (timer_events changed_mask) h.

(** ** The run loop *)

(** [for (k = 0; k < kb_count; k++)]. *)
Definition kbs : list Z := seqZ 0 (kb_count flash_handle).
Definition owns (h : handle) (node_id k : Z) : bool :=
  TEST_IS_ACTIVE h k && (start_index (kb_at k) <=? node_id) && (node_id <? start_index (kb_at k) + kb_nodes (kb_at k)).
Definition cfl_find_owning_active_kb (h : handle) (node_id : Z) : Z :=
  default NO_KB (List.find (owns h node_id) kbs).

(** The window of [k], as the loop and the routing set it. *)
Definition enter_kb (k : Z) (h : handle) : handle :=
  h <| current_kb_idx := k |> <| kb_start_index := start_index (kb_at k) |> <| kb_node_count := kb_nodes (kb_at k) |>
    <| kb_max_level := max_depth (kb_at k) + 1 |>.

(** [event_data] is a variable of the loop and [event_data_ptr] points to it once an event has been
    executed: a pop changes what it points to. *)
Definition pop (h : handle) : cfl (CFL_EVENT_DATA_T * handle) :=
  r <- cfl_pop_event (Some (event_queue (rest h))) (Some tt);;
  let event := default (default event0 (event_data_ptr h)) r.1 in
  Ret (event, set_queue r.2 h <| event_data_ptr ::= fmap (fun _ => event) |>).

Definition execute_routed (h : handle) (event : CFL_EVENT_DATA_T) : cfl handle :=
  let owner := cfl_find_owning_active_kb h (ev_node_id event) in
  if owner =? NO_KB then
    raise? node_count flash_handle <=? ev_node_id event with "cfl_runtime_run: event node_id out of range";
    Ret h
  else
    r <- cfl_execute_event flash_handle (enter_kb owner h <| event_data_ptr := Some event |>);;
    if r.1 : bool then Ret r.2
    else r <- cfl_delete_test_by_index r.2 (current_kb_idx r.2);; Ret r.2.

(** [while (cfl_total_event_count(...) > 0)]; [true]: a terminate event ended the run. *)
Fixpoint drain (fuel : nat) (h : handle) : cfl (bool * handle) :=
  n <- cfl_total_event_count (Some (event_queue (rest h)));;
  if n <=? 0 then Ret (false, h)
  else
    match fuel with
    | O => Endless
    | S fuel =>
        r <- pop h;;
        let event := r.1 in
        let h := r.2 in
        if event_id event =? CFL_TERMINATE_SYSTEM_EVENT then Ret (true, h)
        else
          h <- (if event_id event =? CFL_STOP_START_TESTS_EVENT then process_stop_start_tests h (ev_data event)
                else execute_routed h event);;
          drain fuel h
    end.

(** The pass of an active knowledge base. *)
Definition kb_pass (fuel : nat) (changed_mask data : Z) (h : handle) (k : Z) : cfl (bool * handle) :=
  h <- cfl_generate_timer_events (enter_kb k h) k changed_mask data;;
  r <- drain fuel (set_rest (fun x => x <| bitmask := shaddow_bitmask x |>) h);;
  let h := r.2 in
  if r.1 : bool then Ret (true, h)
  else
    enabled <- cfl_engine_node_is_enabled flash_handle h (start_index (kb_at k));;
    if enabled : bool then Ret (false, h) else r <- cfl_delete_test_by_index h k;; Ret (false, r.2).
(** Whether the run was told to stop, whether there was an active knowledge base. *)
Fixpoint cycle (fuel : nat) (changed_mask data : Z) (l : list Z) (loop_flag : bool) (h : handle) : cfl (bool * bool * handle) :=
  match l with
  | [] => Ret (false, loop_flag, h)
  | k :: l =>
      if TEST_IS_ACTIVE h k then
        r <- kb_pass fuel changed_mask data h k;;
        if r.1 : bool then Ret (true, true, r.2) else cycle fuel changed_mask data l true r.2
      else cycle fuel changed_mask data l loop_flag h
  end.

Section Run.
Context {I : Type} (cfl_timer_wait : I -> handle -> cfl (Z * handle)) (tick_result : Z).

Fixpoint run_cycles (fuel : nat) (inputs : list I) (h : handle) : cfl (outcome handle) :=
  match inputs with
  | [] => Ret (Running h)
  | input :: inputs =>
      t <- cfl_timer_wait input h;;
      r <- cycle fuel t.1 tick_result kbs false t.2;;
      let '(stop, loop_flag, h) := r in
      if stop || negb loop_flag then Ret (Stopped h) else run_cycles fuel inputs h
  end.
(** [first] is the wait of [cfl_set_timer_reference]. *)
Definition cfl_runtime_run (fuel : nat) (first : I) (inputs : list I) (h : handle) : cfl (outcome handle) :=
  t <- cfl_timer_wait first h;;
  run_cycles fuel inputs (set_rest (fun x => x <| shaddow_bitmask := 0 |> <| bitmask := 0 |>) t.2).
End Run.

(** ** Creation and reset *)

Definition cfl_calculate_max_level : Z := foldr (fun kb n => Z.max (max_depth kb) n) 0 (kb_table flash_handle) + 1.
(** Of a list of names, the first that is [name]; -1: none is. *)
Definition index_of (names : list (list Z)) (name : list Z) : Z :=
  match find_index (fun x => bool_decide (x = name)) names with Some i => Z.of_nat i | None => -1 end.
Definition cfl_calculate_arrena_number (names : list (list Z)) (main_function_usage_count : list Z) : Z :=
  let index := index_of names (chars "CFL_LOCAL_ARENA_MAIN") in
  if index =? -1 then u16 (kb_count flash_handle + 1)
  else u16 (kb_count flash_handle + zget 0 main_function_usage_count index + 1).
(** In the order of the ids. *)
Definition cfl_find_main_ids (names : list (list Z)) : list Z :=
  map (fun name => u16 (index_of names (chars name)))
    ["CFL_STATE_MACHINE_MAIN"; "CFL_SEQUENCE_PASS_MAIN"; "CFL_SEQUENCE_FAIL_MAIN"; "CFL_SUPERVISOR_MAIN";
     "CFL_EXCEPTION_CATCH_ALL_MAIN"; "CFL_EXCEPTION_CATCH_MAIN"; "CFL_CONTROLLED_NODE_MAIN";
     "CFL_JSON_CONTROLLED_NODE_MAIN"; "CFL_CBOR_CONTROLLED_NODE_MAIN"]%string.

(** [cfl_perm_alloc_pointer] for each of the sizes. *)
Fixpoint perm_allocs (sizes : list Z) (perm : CflPerm) : cfl CflPerm :=
  match sizes with
  | [] => Ret perm
  | size :: sizes => r <- cfl_perm_alloc_pointer (Some perm) size;; perm_allocs sizes r.2
  end.
(** [user] is the application's state; the pool is zeroed memory, what the code does not set is 0. *)
Definition cfl_runtime_create (user : A) (params : cfl_runtime_create_params_t) (names : list (list Z))
    (bb_table : option cfl_bb_table_t) (g_next_queue_id : Z) : cfl (handle * CflPerm * Z) :=
  let n := total_node_count params in
  raise? negb (n =? node_count flash_handle)
    with "cfl_runtime_create: params->total_node_count doesn't match flash_handle->node_count";
  perm <- cfl_perm_init (Some cfl_perm_set_instance) (perm_buffer params) (perm_buffer_size params);;
  r <- cfl_perm_alloc_pointer (Some perm) sizeof_runtime_handle;;
  raise? r.1 =? 0 with "cfl_runtime_create: Failed to allocate memory for handle";
  perm <- perm_allocs [sizeof_main_function_data] r.2;;
  a <- arena_boot perm (heap_size params) (max_allocator_count params) n (allocator_0_size params);;
  q <- cfl_create_event_queue (event_queue_high_priority_size params) (event_queue_low_priority_size params) (Some a.2) g_next_queue_id;;
  let '(queue, perm, id) := q in
  raise? 65535 <? n with "cfl_runtime_create: Flags array size exceeds uint16_t limit";
  perm <- perm_allocs [n; n] perm;;
  let max_level := cfl_calculate_max_level in
  let stack_size := sizeof_CT_StackEntry * max_level in
  raise? 65535 <? stack_size with "cfl_runtime_create: Stack size exceeds uint16_t limit";
  perm <- perm_allocs [stack_size; stack_size; sizeof_CT_TreeWalker; sizeof_CT_WalkerContext; sizeof_json_decoder_ctx] perm;;
  b <- cfl_bb_init bb_table perm;;
  let words := (kb_count flash_handle + 31) / 32 in
  perm <- perm_allocs [words * 4; kb_count flash_handle; kb_count flash_handle] b.2;;
  let per_kb v := replicate (Z.to_nat (kb_count flash_handle)) v in
  let x := mk_runtime a.1 ∅ queue 0 0 (replicate (Z.to_nat words) 0) 0 (per_kb 0xFF) (per_kb 0) (cfl_find_main_ids names) b.1 user in
  let zeros := replicate (Z.to_nat n) 0 in
  h <- cfl_engine_create flash_handle (mk_handle zeros zeros (mk_regs 0 0 0 false) None false 0 0 0 0 0 0 max_level x);;
  Ret (h, perm, id).

(** The pointers [cfl_clear_queue] frees, and the handle. *)
Definition cfl_runtime_reset (h : handle) : cfl (list Z * handle) :=
  let h := h <| h_max_level := cfl_calculate_max_level |> in
  s <- cfl_heap_arena_system_reset (Some (arena_system (rest h)));;
  q <- cfl_clear_queue (Some (event_queue (rest h)));;
  let h := set_rest (fun x => x <| bitmask := 0 |> <| shaddow_bitmask := 0 |> <| shared_bb ::= cfl_bb_reset |>) (set_queue q.2 (set_arenas s h)) in
  h <- cfl_engine_init flash_handle h;;
  let n := Z.to_nat (node_count flash_handle) in
  let h := h <| h_flags ::= fun l => replicate n 0 ++ drop n l |> in
  h <- each (fun h k =>
         if TEST_IS_ACTIVE h k then cfl_engine_init_test flash_handle h (start_index (kb_at k)) (kb_nodes (kb_at k))
         else Ret h) kbs h;;
  Ret (q.1, h).
End Runtime.
