(* ===== verification/CflStore.v ===== *)
(** The memory of the nodes, as the node functions rely on it: a struct of its own per node, out of
    its knowledge base's arena ([CflArena]), and objects out of the heap the arenas lie in
    ([CflHeap]). [node_store] states what is promised: which calls return, and that no two pointers
    are the same. [store_is] keeps the promise for the arenas and the heap; that the heap never runs
    out is counted on its blocks: of so many allocated ones, each small, some free one has room. *)
From S2P Require Import Prelude CflBase CflPerm CflHeap CflArena.
#[local] Open Scope Z_scope.
#[local] Open Scope cfl_scope.

(** ** The promise *)

(** [ws]: the nodes that have a struct, with the pointers, newest first. [live]: the heap objects. *)
Definition ptrs_of (ws : list (Z * Z)) : list Z := map snd ws.
Definition struct_of (ws : list (Z * Z)) (w : Z) : option Z := snd <$> List.find (fun x => x.1 =? w) ws.
Definition without (p : Z) (live : list Z) : list Z := List.filter (fun q => negb (q =? p)) live.

(** [holds s ws live]: the arenas hold just these. [nodes]: the nodes that may have a struct, of
    [size] bytes; the heap objects are of [aux] bytes, as many at a time as there are nodes. *)
Class node_store (nodes : list Z) (size aux : Z) (holds : CflHeapArenaSystem -> list (Z * Z) -> list Z -> Prop) := {
  ns_distinct s ws live : holds s ws live -> NoDup (ptrs_of ws ++ live) /\ Forall (fun p => p <> 0) (ptrs_of ws ++ live);
  ns_index s ws live w : holds s ws live -> w ∈ nodes ->
    exists i, cfl_heap_arena_get_node_memory_index (Some s) w = Ret i /\
      (i =? INVALID_MEMORY_IDX) = match struct_of ws w with Some _ => false | None => true end;
  ns_ptr s ws live w p : holds s ws live -> w ∈ nodes -> struct_of ws w = Some p ->
    cfl_heap_arena_get_node_ptr (Some s) w = Ret (Some p);
  ns_struct s ws live w : holds s ws live -> w ∈ nodes -> struct_of ws w = None ->
    exists p s', cfl_arena_system_alloc (Some s) w size = Ret (p, s') /\ holds s' ((w, p) :: ws) live;
  ns_malloc s ws live : holds s ws live -> zlen live < zlen nodes ->
    exists p h, cfl_heap_malloc_pointer (Some (as_heap s)) aux = Ret (Some p, h) /\ holds (s <| as_heap := h |>) ws (p :: live);
  ns_free s ws live p : holds s ws live -> p ∈ live ->
    exists h, cfl_heap_free_pointer (Some (as_heap s)) p = Ret h /\ holds (s <| as_heap := h |>) ws (without p live)
}.

(** ** Room in the heap *)

(** Every allocated block has [n] bytes at most. *)
Definition small (n : Z) (bs : list blk) : Prop := Forall (fun b => b_free b = false -> b_size b <= n) bs.
Definition allocated (bs : list blk) : list blk := List.filter (fun b => negb (b_free b)) bs.
Definition free_head (bs : list blk) : Z := match bs with b :: _ => if b_free b then 1 else 0 | [] => 0 end.

(** [small], on the bytes of the heap: from [block] on, with [fuel] blocks at most. *)
Fixpoint small_from (fuel : nat) (n : Z) (h : CflHeap) (block : Z) : bool :=
  if h_size h <=? block then true
  else
    match fuel with
    | O => false
    | S fuel => ((flags (h_mem h) block =? 0) || (size (h_mem h) block <=? n)) && small_from fuel n h (block + (size (h_mem h) block + 12))
    end.

(** ** The arenas and the heap *)

Section Spec.
Context (nodes : list Z) (arena_of : Z -> Z) (size aux : Z).
Definition in_arena (a : Z) (l : list Z) : list Z := List.filter (fun w => arena_of w =? a) l.
(** The largest block there is: an arena's, with padding and what splitting leaves. *)
Definition BLOCK_MAX : Z := 200.
Record store_is (s : CflHeapArenaSystem) (ws : list (Z * Z)) (live : list Z) : Prop := {
  st_arenas : arenas_ok s (map (fun x => (arena_of x.1, x.2, size)) ws);
  st_small : exists bs, heap_ok (as_heap s) bs /\ small BLOCK_MAX bs;
  st_nodes w : w ∈ nodes -> 0 <= w < as_nodes s /\ zget 0 (default [] (as_node_ids s)) w = arena_of w;
  st_mem w : w ∈ nodes -> zget 0 (default [] (as_node_mem s)) w =
    match struct_of ws w with Some p => p - base_of s (arena_of w) | None => INVALID_MEMORY_IDX end;
  st_ws : NoDup (map fst ws) /\ forall w, w ∈ map fst ws -> w ∈ nodes;
  st_used w : w ∈ nodes -> base_of s (arena_of w) mod 4 = 0 /\ arena_of w <> 0 /\
    ac_used (block_of s (arena_of w)) = size * zlen (in_arena (arena_of w) (map fst ws)) /\
    size * zlen (in_arena (arena_of w) nodes) <= ac_size (block_of s (arena_of w));
  st_live : NoDup live /\ forall p, p ∈ live ->
    (exists len, (p - h_pool (as_heap s), len) ∈ extents (as_heap s)) /\ ~ held s (p - h_pool (as_heap s));
  st_extents e : e ∈ extents (as_heap s) -> held s e.1 \/ h_pool (as_heap s) + e.1 ∈ live;
  st_room : let k := as_max s + zlen nodes in k * (BLOCK_MAX + 12) + (k + 1) * (rounded aux + 14) < h_size (as_heap s)
}.
End Spec.

(** ** Lemmas *)

Lemma pad_bound base al block : 0 < al -> 0 <= pad_at base al block < al.
Proof. intros Ha. unfold pad_at, data_at. pose proof (proj1 (ceil_to_spec al (base + block + 10) Ha)). lia. Qed.

Lemma free_head_bound bs : 0 <= free_head bs <= 1.
Proof. destruct bs as [|c bs]; cbn; [lia|]. destruct (b_free c); lia. Qed.
(** No room for [sz]: the blocks do not span more than this. *)
Lemma no_fit_span n base al sz bs : 0 < al -> 0 <= sz -> forall off, Forall blk_ok bs -> coalesced bs -> small n bs ->
  no_fit base al sz off bs ->
  span bs <= zlen (allocated bs) * (n + 12) + (zlen (allocated bs) + free_head bs) * (sz + al + 10).
Proof.
  intros Ha Hsz. induction bs as [|b bs IH]; intros off Hok Hc Hs Hn; [cbn [span foldr allocated List.filter free_head]; change (zlen (@nil blk)) with 0; lia|].
  apply Forall_cons in Hok as [Hb Hok]. apply Forall_cons in Hs as [Hs1 Hs]. destruct Hn as [Hn1 Hn].
  assert (coalesced bs) as Hc' by (destruct bs; [done|apply Hc]). specialize (IH _ Hok Hc' Hs Hn). rewrite span_cons.
  destruct Hb as (Hb1 & Hb2 & _). change MIN_BLOCK_SIZE with 8 in Hb1. pose proof (pad_bound base al off Ha).
  unfold allocated in *. cbn [List.filter free_head]. destruct (b_free b) eqn:Ef; cbn [negb].
  - assert (free_head bs = 0) as E0. { destruct bs as [|c bs]; [done|]. destruct Hc as [Hc _]. cbn. rewrite Ef in Hc. cbn in Hc. by rewrite Hc. }
    rewrite E0 in IH. specialize (Hn1 eq_refl). set (a := zlen _) in *. rewrite Z.add_0_r in IH. rewrite Z.mul_add_distr_r. lia.
  - specialize (Hs1 eq_refl). rewrite zlen_cons. pose proof (zlen_nonneg (List.filter (fun b => negb (b_free b)) bs)).
    pose proof (free_head_bound bs). set (a := zlen _) in *. set (u := sz + al + 10) in *.
    assert (free_head bs * u <= u) by nia. nia.
Qed.

(** The live objects are the allocated blocks. *)
Lemma objs_count m bs : forall off, zlen (objs m off bs) = zlen (allocated bs).
Proof.
  induction bs as [|b bs IH]; intros off; [done|]. cbn [objs]. unfold allocated, b_free in *. cbn [List.filter].
  destruct (b_owner b); cbn [negb app]; rewrite ?zlen_cons; by rewrite IH.
Qed.
Lemma extents_count h bs : heap_ok h bs -> zlen (extents h) = zlen (allocated bs).
Proof.
  intros [Ht _]. unfold extents. rewrite (live_objs _ _ Ht). rewrite <- (objs_count (h_mem h) bs 0). unfold zlen. by rewrite length_map.
Qed.
Lemma extents_nodup h bs : heap_ok h bs -> NoDup (map fst (extents h)).
Proof.
  intros Hok. pose proof (live_store_ok _ _ Hok) as Hs. unfold extents. revert Hs. generalize 0. induction (live h) as [|o l IH]; intros from Hs; [constructor|].
  destruct Hs as (_ & Hp & Hs). cbn. constructor; [|by eapply IH]. intros Hin. rewrite list_elem_of_In, map_map, in_map_iff in Hin.
  destruct Hin as (q & Eq & Hq). apply store_ok_bounds in Hs as [_ Hs]. rewrite <- list_elem_of_In in Hq. rewrite Forall_forall in Hs.
  apply Hs in Hq. cbn in Eq. lia.
Qed.

Lemma span_le_size h bs : heap_ok h bs -> span bs = h_size h /\ Forall blk_ok bs /\ coalesced bs.
Proof. intros ((_ & _ & _ & _ & _ & Ht & Hsp) & Hc & _). split; [done|]. split; [by eapply tiles_all_ok|done]. Qed.

Lemma malloc_req sz : 0 < sz <= 65528 -> heap_req_ok NODE_ID_NONE sz BLOCK_ALIGNMENT.
Proof.
  intros Hs. split; [|split; [vm_compute; done|vm_compute; done]]. unfold req_ok. cbn [fst snd]. change BLOCK_ALIGNMENT with 4.
  repeat split; (done || lia).
Qed.
(** With few small blocks there is room. *)
Lemma malloc_room h bs n sz : heap_ok h bs -> small n bs -> 0 < sz <= 65528 -> 0 <= n ->
  zlen (extents h) * (n + 12) + (zlen (extents h) + 1) * (rounded sz + 14) < h_size h ->
  exists idx h', cfl_heap_malloc (Some h) sz = Ret (idx, h').
Proof.
  intros Hok Hs Hz Hn Hroom. unfold cfl_heap_malloc. pose proof (heap_alloc_take _ _ _ _ _ Hok (malloc_req sz Hz)) as Ht.
  destruct (cfl_heap_arena_alloc_aligned _ _ _ _) as [[idx h']|msg|]; [by eexists _, _| |done].
  destruct Ht as [_ Hnf]. exfalso. destruct (span_le_size _ _ Hok) as (Hsp & Hbs & Hc).
  assert (0 <= rounded sz) as Hrz by (pose proof (rounded_bound sz ltac:(lia)); lia).
  pose proof (no_fit_span n _ _ _ bs (eq_refl : 0 < BLOCK_ALIGNMENT) Hrz 0 Hbs Hc Hs Hnf) as Hspan. rewrite (extents_count _ _ Hok) in Hroom.
  change BLOCK_ALIGNMENT with 4 in Hspan. pose proof (zlen_nonneg (allocated bs)). pose proof (rounded_bound sz ltac:(lia)) as Hr.
  pose proof (free_head_bound bs). set (a := zlen _) in *. set (u := rounded sz + 4 + 10) in *.
  assert ((a + free_head bs) * u <= (a + 1) * u) by nia. nia.
Qed.
Lemma malloc_small h bs n sz idx h' : heap_ok h bs -> small n bs -> 0 < sz <= 65528 -> rounded sz + 22 <= n ->
  cfl_heap_malloc (Some h) sz = Ret (idx, h') -> exists bs', heap_ok h' bs' /\ small n bs'.
Proof.
  intros Hok Hs Hz Hn E. unfold cfl_heap_malloc in E. pose proof (heap_alloc_take _ _ _ _ _ Hok (malloc_req sz Hz)) as Ht.
  rewrite E in Ht. destruct Ht as (pre & b & post & -> & Hf & Hfit & -> & ->). pose proof (malloc_req sz Hz) as ((_ & Ha & Hpow & _) & Hal & Hid).
  cbn [fst snd] in *. pose proof (rounded_bound sz ltac:(lia)) as Hr.
  destruct (take_block_ok h pre b post NODE_ID_NONE BLOCK_ALIGNMENT (rounded sz) Hok Hf Ha Hpow Hal Hid) as (Hok' & _); [|done|].
  { unfold rounded. change MIN_ALLOC_SIZE with 8. change MIN_BLOCK_SIZE with 8. lia. }
  eexists. split; [exact Hok'|]. apply Forall_app in Hs as [Hs1 Hs]. apply Forall_cons in Hs as [_ Hs2]. apply Forall_app. split; [done|].
  apply Forall_app. split; [|done]. set (pad := pad_at _ _ _) in *. pose proof (pad_bound (h_pool h) BLOCK_ALIGNMENT (span pre) Ha) as Hp.
  change BLOCK_ALIGNMENT with 4 in Hp. unfold split. destruct (Z.leb_spec 20 (b_size b - (pad + rounded sz))).
  - constructor; [|constructor; [done|constructor]]. cbn. intros _. unfold pad. change BLOCK_ALIGNMENT with 4. lia.
  - constructor; [|constructor]. cbn. intros _. unfold pad in *. change BLOCK_ALIGNMENT with 4 in *. lia.
Qed.
Lemma free_small h bs n idx h' : heap_ok h bs -> small n bs -> 0 <= idx -> cfl_heap_free (Some h) idx = Ret h' ->
  exists bs', heap_ok h' bs' /\ small n bs'.
Proof.
  intros Hok Hs Hi E. pose proof (heap_free_spec h bs idx Hok Hi) as Hf. rewrite E in Hf. destruct Hf as (_ & _ & (bs' & Hok' & _ & Hal) & _).
  exists bs'. split; [done|]. apply Forall_forall. intros c Hc Hfr. unfold small in Hs. rewrite Forall_forall in Hs. by apply (Hs c); [apply Hal|].
Qed.

Lemma span_pos bs : Forall blk_ok bs -> 0 <= span bs.
Proof.
  induction bs as [|b bs IH]; [done|]. intros (H & Hbs)%Forall_cons. rewrite span_cons. specialize (IH Hbs). destruct H as (H1 & H2 & _).
  unfold b_span. change MIN_BLOCK_SIZE with 8 in H1. lia.
Qed.
Lemma small_checked fuel n h bs : heap_ok h bs -> small_from fuel n h 0 = true -> small n bs.
Proof.
  intros Hok. destruct (span_le_size _ _ Hok) as (Hsp & Hbs & _). destruct Hok as ((_ & _ & _ & _ & _ & Ht & _) & _). revert Hsp Ht Hbs.
  change (span bs = h_size h) with (0 + span bs = h_size h). generalize 0. revert bs.
  induction fuel as [|fuel IH]; intros [|b bs] block Hsp Ht Hbs Hc; try (by constructor); rewrite span_cons in Hsp; cbn [small_from] in Hc;
    apply Forall_cons in Hbs as [(Hb1 & Hb2 & _) Hbs]; pose proof (span_pos _ Hbs) as Hn; unfold b_span in *; change MIN_BLOCK_SIZE with 8 in Hb1;
    rewrite (proj2 (Z.leb_gt _ _)) in Hc by lia; [done|]. destruct Ht as ((_ & Es & Ef & _) & _ & Ht). rewrite Es, Ef in Hc.
  apply andb_true_iff in Hc as [Hc1 Hc2]. apply Forall_cons. split.
  - intros Hf. rewrite Hf in Hc1. apply orb_true_iff in Hc1 as [Hc1|Hc1]; [done|]. by apply Z.leb_le.
  - eapply IH; [|exact Ht|done|exact Hc2]. unfold b_span. lia.
Qed.

(** ** The promise kept *)

Section Store.
Context (nodes : list Z) (arena_of : Z -> Z) (size aux : Z).
Hypothesis Hnodes : NoDup nodes.
Hypothesis Hsize : 0 < size <= 1000 /\ size mod 4 = 0.
Hypothesis Haux : 0 < aux /\ rounded aux + 22 <= BLOCK_MAX.
#[local] Abbreviation holds := (store_is nodes arena_of size aux).
#[local] Abbreviation alloc_of := (fun x : Z * Z => (arena_of x.1, x.2, size)).

Lemma elem_map {X Y} (f : X -> Y) x l : x ∈ l -> f x ∈ map f l.
Proof. intros Hx. apply list_elem_of_In, in_map. by apply list_elem_of_In. Qed.
Lemma elem_map_inv {X Y} (f : X -> Y) y l : y ∈ map f l -> exists x, y = f x /\ x ∈ l.
Proof. intros Hy. apply list_elem_of_In, in_map_iff in Hy as (x & <- & Hx). exists x. by rewrite list_elem_of_In. Qed.
Lemma struct_of_in ws w p : struct_of ws w = Some p -> (w, p) ∈ ws.
Proof.
  unfold struct_of. destruct (List.find _ ws) as [[v q]|] eqn:E; cbn; [|done]. intros [= ->].
  apply find_some in E as [Hin Ev]. apply Z.eqb_eq in Ev. cbn in Ev. subst v. by apply list_elem_of_In.
Qed.
Lemma struct_of_none ws w : struct_of ws w = None -> w ∉ map fst ws.
Proof.
  unfold struct_of. destruct (List.find _ ws) eqn:E; [done|]. intros _ Hin. apply elem_map_inv in Hin as (x & -> & Hx). apply list_elem_of_In in Hx.
  pose proof (find_none _ _ E _ Hx) as Hf. cbn in Hf. by rewrite Z.eqb_refl in Hf.
Qed.
Lemma struct_of_cons ws w v p : struct_of ((v, p) :: ws) w = if v =? w then Some p else struct_of ws w.
Proof. unfold struct_of. cbn [List.find fst]. by destruct (v =? w). Qed.

(** A struct lies in its node's arena. *)
Lemma st_in s ws live w p : holds s ws live -> (w, p) ∈ ws -> w ∈ nodes /\ in_use s (arena_of w) /\
  base_of s (arena_of w) <= p /\ p + size <= base_of s (arena_of w) + ac_used (block_of s (arena_of w)).
Proof.
  intros Hs Hin. destruct (st_arenas _ _ _ _ _ _ _ Hs) as (_ & _ & Hal & _). rewrite Forall_forall in Hal.
  split; [apply (st_ws _ _ _ _ _ _ _ Hs); by apply (elem_map fst) in Hin|].
  apply (Hal (alloc_of (w, p))). by apply (elem_map alloc_of).
Qed.
Lemma st_in_use s ws live w : holds s ws live -> w ∈ nodes -> 0 <= w < as_nodes s /\ in_use s (arena_of w) /\ arena_of w <> NO_ALLOCATOR.
Proof.
  intros Hs Hw. destruct (st_nodes _ _ _ _ _ _ _ Hs w Hw) as [Hr E]. split; [done|]. rewrite <- E.
  exact (id_in_use _ _ _ (st_arenas _ _ _ _ _ _ _ Hs) Hr).
Qed.
Lemma ptr_bounds s ws live w p : holds s ws live -> (w, p) ∈ ws ->
  0 < p < 2 ^ 32 /\ 0 <= p - base_of s (arena_of w) < 65535.
Proof.
  intros Hs Hin. destruct (st_in _ _ _ _ _ Hs Hin) as (Hw & Hi & Hlo & Hhi). destruct (st_arenas _ _ _ _ _ _ _ Hs) as (Hc & _).
  destruct (region_bounds _ _ Hc Hi) as (Hb1 & Hb2 & _), (ok_entry _ Hc _ _ Hi) as (_ & _ & Hu & Hsz). lia.
Qed.

(** The struct of a node is in an arena, that is within an extent the arena holds. *)
Lemma ptr_extent s ws live w p : holds s ws live -> (w, p) ∈ ws ->
  exists e, e ∈ extents (as_heap s) /\ held s e.1 /\ h_pool (as_heap s) + e.1 <= p < h_pool (as_heap s) + e.1 + e.2.
Proof.
  intros Hs Hin. destruct (st_in _ _ _ _ _ Hs Hin) as (Hw & Hi & Hlo & Hhi). destruct (st_arenas _ _ _ _ _ _ _ Hs) as (Hc & _).
  destruct (st_used _ _ _ _ _ _ _ Hs w Hw) as (_ & Hne & _). destruct (ok_held _ Hc _ Hi Hne) as (len & He & Hl).
  eexists. split; [exact He|]. cbn [fst snd]. split; [apply held_iff; [done|]; by exists (arena_of w)|].
  destruct (ok_entry _ Hc _ _ Hi) as (_ & _ & Hu & _). unfold base_of in *. rewrite (proj2 (Z.eqb_neq _ _) Hne) in *. lia.
Qed.
Lemma live_not_ptr s ws live w p : holds s ws live -> (w, p) ∈ ws -> p ∉ live.
Proof.
  intros Hs Hin Hl. destruct (ptr_extent _ _ _ _ _ Hs Hin) as (e & He & Hh & Hp).
  destruct (st_live _ _ _ _ _ _ _ Hs) as [_ Hlive]. destruct (Hlive p Hl) as [(len & Hf) Hnh].
  destruct (st_arenas _ _ _ _ _ _ _ Hs) as (Hc & _). destruct (ok_heap _ Hc) as (bs & Hb).
  pose proof (extents_bounds _ _ _ Hb Hf) as Hf2. cbn [fst snd] in Hf2.
  destruct (extents_disjoint _ _ _ _ Hb He Hf) as [-> |[Hd|Hd]]; [done|cbn [fst snd] in Hd; lia..].
Qed.
Lemma live_bounds s ws live p : holds s ws live -> p ∈ live ->
  h_pool (as_heap s) <= p < h_pool (as_heap s) + h_size (as_heap s) /\ h_initialized (as_heap s) = true /\
  0 < h_pool (as_heap s) /\ h_pool (as_heap s) + 2 ^ 17 <= 2 ^ 32 /\ h_size (as_heap s) < 2 ^ 16.
Proof.
  intros Hs Hl. destruct (st_live _ _ _ _ _ _ _ Hs) as [_ Hlive]. destruct (Hlive p Hl) as [(len & Hf) _].
  destruct (st_arenas _ _ _ _ _ _ _ Hs) as (Hc & _). destruct (ok_heap _ Hc) as (bs & Hb).
  pose proof (extents_bounds _ _ _ Hb Hf) as Hf2. cbn [fst snd] in Hf2. destruct Hb as ((Hi & _ & Hsz & Hp1 & Hp2 & _) & _).
  split; [lia|]. split; [done|]. lia.
Qed.
Lemma structs_nodup s ws live : holds s ws live -> NoDup (ptrs_of ws).
Proof.
  intros Hs. destruct (st_arenas _ _ _ _ _ _ _ Hs) as (Hc & _ & Ha). pose proof (allocs_apart _ _ Hc Ha) as Hap.
  unfold ptrs_of. clear -Hap Hsize. induction ws as [|[w p] ws IH]; [constructor|]. cbn [map] in *. inversion Hap as [|? ? Hf Ho]; subst.
  constructor; [|by apply IH]. intros Hin. apply elem_map_inv in Hin as ([v q] & Eq & Hx). cbn in Eq. subst q.
  rewrite Forall_forall in Hf. specialize (Hf _ (elem_map alloc_of _ _ Hx)). unfold apart in Hf. cbn [fst snd] in Hf. lia.
Qed.
Lemma store_distinct s ws live : holds s ws live -> NoDup (ptrs_of ws ++ live) /\ Forall (fun p => p <> 0) (ptrs_of ws ++ live).
Proof.
  intros Hs. split.
  - apply NoDup_app. split; [by eapply structs_nodup|]. split; [|apply (st_live _ _ _ _ _ _ _ Hs)].
    intros p Hp. apply elem_map_inv in Hp as ([w q] & -> & Hx). by eapply live_not_ptr.
  - apply Forall_app. split; apply Forall_forall; intros p Hp.
    + apply elem_map_inv in Hp as ([w q] & -> & Hx). apply (ptr_bounds _ _ _ _ _ Hs) in Hx. cbn. lia.
    + apply (live_bounds _ _ _ _ Hs) in Hp. lia.
Qed.
Lemma store_index s ws live w : holds s ws live -> w ∈ nodes ->
  exists i, cfl_heap_arena_get_node_memory_index (Some s) w = Ret i /\
    (i =? INVALID_MEMORY_IDX) = match struct_of ws w with Some _ => false | None => true end.
Proof.
  intros Hs Hw. destruct (st_in_use _ _ _ _ Hs Hw) as (Hr & _ & _). destruct (st_arenas _ _ _ _ _ _ _ Hs) as (_ & Hn & _).
  destruct (ok_mem _ Hn) as (mem & Em & _). pose proof (st_mem _ _ _ _ _ _ _ Hs w Hw) as Hm. rewrite Em in Hm.
  unfold cfl_heap_arena_get_node_memory_index. cbn [not_null]. rewrite Em. cbn [not_null].
  rewrite (proj2 (Z.leb_gt _ _)) by lia. cbn [raise_if]. eexists. split; [reflexivity|].
  unfold default, id in Hm. rewrite Hm. destruct (struct_of ws w) as [p|] eqn:E; [|done]. apply struct_of_in in E.
  apply (ptr_bounds _ _ _ _ _ Hs) in E. apply Z.eqb_neq. change INVALID_MEMORY_IDX with 65535. lia.
Qed.
Lemma store_ptr s ws live w p : holds s ws live -> w ∈ nodes -> struct_of ws w = Some p ->
  cfl_heap_arena_get_node_ptr (Some s) w = Ret (Some p).
Proof.
  intros Hs Hw Ep. destruct (st_in_use _ _ _ _ Hs Hw) as (Hr & Hi & Hna). destruct (st_arenas _ _ _ _ _ _ _ Hs) as (Hc & Hn & _).
  destruct (ok_mem _ Hn) as (mem & Em & _), (ok_ids _ Hn) as (ids & Eids & _).
  pose proof (st_mem _ _ _ _ _ _ _ Hs w Hw) as Hm. destruct (st_nodes _ _ _ _ _ _ _ Hs w Hw) as [_ Ea]. rewrite Em, Ep in Hm. rewrite Eids in Ea.
  unfold default, id in Hm, Ea.
  pose proof (ptr_bounds _ _ _ _ _ Hs (struct_of_in _ _ _ Ep)) as [Hp Hoff].
  unfold cfl_heap_arena_get_node_ptr. cbn [not_null]. rewrite Eids. cbn [not_null]. rewrite Em. cbn [not_null].
  rewrite (proj2 (Z.leb_gt _ _)) by lia. cbn [raise_if]. rewrite Hm, Ea. change INVALID_MEMORY_IDX with 65535.
  rewrite (proj2 (Z.eqb_neq _ _)) by lia. rewrite (proj2 (Z.eqb_neq _ _)) by done. cbn [raise_if].
  pose proof (in_use_range _ _ Hc Hi). unfold get_arena. rewrite (proj2 (Z.leb_gt _ _)) by lia. cbn [raise_if cbind].
  pose proof Hi as Hi2. unfold in_use in Hi2. rewrite Hi2. cbn [not_null]. rewrite (base_ptr_ok _ _ Hc Hi). cbn [cbind].
  do 2 f_equal. replace (base_of s (arena_of w) + (p - base_of s (arena_of w))) with p by lia. apply u32_id. unfold fits. lia.
Qed.

(** A struct more. *)
Lemma count_room (ws : list (Z * Z)) w : NoDup (map fst ws) -> (forall v, v ∈ map fst ws -> v ∈ nodes) -> w ∈ nodes -> w ∉ map fst ws ->
  zlen (in_arena arena_of (arena_of w) (map fst ws)) + 1 <= zlen (in_arena arena_of (arena_of w) nodes).
Proof.
  intros Hnd Hin Hw Hni. set (l := in_arena _ _ (map fst ws)).
  assert (NoDup (w :: l)) as Hnd2.
  { constructor; [|apply NoDup_ListNoDup, List.NoDup_filter; by apply NoDup_ListNoDup]. intros Hx. apply list_elem_of_In, filter_In in Hx as [Hx _]. apply Hni. by apply list_elem_of_In. }
  assert (length (w :: l) <= length (in_arena arena_of (arena_of w) nodes))%nat as Hle; [|unfold zlen; cbn in Hle; lia].
  apply NoDup_incl_length; [by apply NoDup_ListNoDup|]. intros v [<- |Hv]; apply filter_In.
  - split; [by apply list_elem_of_In|apply Z.eqb_refl].
  - apply filter_In in Hv as [Hv He]. split; [|done]. apply list_elem_of_In, Hin. by apply list_elem_of_In.
Qed.
Lemma ceil_to_aligned x : x mod 4 = 0 -> ceil_to 4 x = x.
Proof. intros Hm. destruct (ceil_to_spec 4 x ltac:(lia)) as [Hb Hc]. Z.to_euclidean_division_equations. lia. Qed.
Lemma held_used s i u x : arenas_core s -> in_use s i -> held (set_used s i u) x <-> held s x.
Proof.
  intros Hc Hi. unfold held. rewrite !Exists_exists. apply exist_proper. intros j. apply and_iff_compat_l. change (in_use (set_used s i u) j) with (in_use s j).
  destruct (decide (in_use s j)) as [Hj|]; [|tauto]. rewrite block_of_used by done. destruct (Z.eqb_spec j i) as [-> |]; [|done]. by cbn.
Qed.
Lemma store_struct s ws live w : holds s ws live -> w ∈ nodes -> struct_of ws w = None ->
  exists p s', cfl_arena_system_alloc (Some s) w size = Ret (p, s') /\ holds s' ((w, p) :: ws) live.
Proof.
  intros Hs Hw Hnone. apply struct_of_none in Hnone as Hni. destruct (st_in_use _ _ _ _ Hs Hw) as (Hr & Hi & Hna).
  pose proof (st_arenas _ _ _ _ _ _ _ Hs) as Hok. pose proof Hok as (Hc & Hn & _).
  destruct (ok_ids _ Hn) as (ids & Eids & _). destruct (st_nodes _ _ _ _ _ _ _ Hs w Hw) as [_ Ea]. rewrite Eids in Ea. unfold default, id in Ea.
  destruct (st_ws _ _ _ _ _ _ _ Hs) as [Hnd Hsub]. destruct (st_used _ _ _ _ _ _ _ Hs w Hw) as (Hb4 & Hne & Hu & Hroom).
  pose proof (count_room ws w Hnd Hsub Hw Hni) as Hcount. destruct Hsize as [Hsz Hs4].
  assert (arena_req_ok w size ARENA_ALIGNMENT) as Hreq. { unfold arena_req_ok. change ARENA_ALIGNMENT with 4. repeat split; (done || lia). }
  pose proof (system_alloc_result s _ w size ARENA_ALIGNMENT ids Hok Hreq Eids) as Hres. rewrite Ea in Hres.
  assert (ceil_to 4 (base_of s (arena_of w) + ac_used (block_of s (arena_of w))) = base_of s (arena_of w) + ac_used (block_of s (arena_of w))) as Eceil.
  { apply ceil_to_aligned. rewrite Z.add_mod, Hb4, Hu, Z.mul_mod, Hs4 by done. done. }
  unfold cfl_arena_system_alloc. destruct (cfl_arena_system_alloc_aligned _ _ _ _) as [[p s']|msg|]; [|exfalso|done].
  2:{ destruct Hres as [[Hob _]|[_ Hex]]; [lia|]. unfold exhausted in Hex. change ARENA_ALIGNMENT with 4 in Hex. rewrite Eceil in Hex. nia. }
  exists p, s'. split; [done|]. destruct Hres as (Hok' & _ & Ep & ->). change ARENA_ALIGNMENT with 4 in Ep. rewrite Eceil in Ep.
  set (u := p + size - base_of s (arena_of w)) in *. set (s1 := set_used s (arena_of w) u) in *. set (s2 := s1 <| as_node_mem ::= _ |>) in *.
  assert (forall v, v ∈ nodes -> base_of s2 (arena_of v) = base_of s (arena_of v)) as Hbase.
  { intros v Hv. change (base_of s2 (arena_of v)) with (base_of s1 (arena_of v)). apply base_of_used; [done..|]. by apply (st_in_use _ _ _ _ Hs Hv). }
  assert (forall x, held s2 x <-> held s x) as Hheld by (intros x; apply (held_used s (arena_of w) u x Hc Hi)).
  constructor.
  - exact Hok'.
  - apply (st_small _ _ _ _ _ _ _ Hs).
  - apply (st_nodes _ _ _ _ _ _ _ Hs).
  - intros v Hv. rewrite (Hbase v Hv), struct_of_cons. destruct (ok_mem _ Hn) as (mem & Em & Hlm).
    pose proof (st_mem _ _ _ _ _ _ _ Hs v Hv) as Hm. unfold s2, s1. cbn. rewrite Em in Hm |- *. cbn. unfold default, id in *.
    pose proof (st_in_use _ _ _ _ Hs Hv) as (Hrv & _). rewrite zget_zset by lia. rewrite (Z.eqb_sym v w). by destruct (Z.eqb_spec w v) as [-> |].
  - cbn [map fst]. split; [by constructor|]. intros v Hv. apply elem_of_cons in Hv as [-> |Hv]; [done|by apply Hsub].
  - intros v Hv. rewrite (Hbase v Hv). destruct (st_used _ _ _ _ _ _ _ Hs v Hv) as (V1 & V2 & V3 & V4).
    split; [done|]. split; [done|]. change (block_of s2 (arena_of v)) with (block_of s1 (arena_of v)). unfold s1.
    rewrite block_of_used by (try done; by apply (st_in_use _ _ _ _ Hs Hv)). cbn [map fst]. unfold in_arena. cbn [List.filter]. rewrite (Z.eqb_sym (arena_of w)).
    destruct (Z.eqb_spec (arena_of v) (arena_of w)) as [E|E]; cbn [ac_used ac_size].
    + rewrite zlen_cons. rewrite E in *. fold (in_arena arena_of (arena_of w) (map fst ws)). fold (in_arena arena_of (arena_of w) nodes). cbn. subst u. split; [lia|exact Hroom].
    + split; [exact V3|exact V4].
  - split; [apply (st_live _ _ _ _ _ _ _ Hs)|]. intros q Hq. rewrite Hheld. by apply (st_live _ _ _ _ _ _ _ Hs).
  - intros e He. rewrite Hheld. by apply (st_extents _ _ _ _ _ _ _ Hs).
  - apply (st_room _ _ _ _ _ _ _ Hs).
Qed.

(** Every extent is an arena's or a live object: there are not too many. *)
Lemma extents_few s ws live : holds s ws live -> zlen (extents (as_heap s)) <= as_max s + zlen live.
Proof.
  intros Hs. destruct (st_arenas _ _ _ _ _ _ _ Hs) as (Hc & _). destruct (ok_heap _ Hc) as (bs & Hb). pose proof (ok_max _ Hc) as Hmax.
  set (l := map (fun i => ac_memory_idx (block_of s i)) (seqZ 0 (as_max s)) ++ map (fun p => p - h_pool (as_heap s)) live).
  assert (length (map fst (extents (as_heap s))) <= length l)%nat as Hle.
  { apply NoDup_incl_length; [apply NoDup_ListNoDup; by eapply extents_nodup|]. intros x Hx. apply list_elem_of_In, elem_map_inv in Hx as (e & -> & He).
    apply list_elem_of_In, elem_of_app. destruct (st_extents _ _ _ _ _ _ _ Hs e He) as [Hh|Hl].
    - left. apply held_iff in Hh as (i & Hi & _ & <-); [|done]. apply (elem_map (fun i => ac_memory_idx (block_of s i))), elem_of_seqZ. pose proof (in_use_range _ _ Hc Hi). lia.
    - right. replace e.1 with (h_pool (as_heap s) + e.1 - h_pool (as_heap s)) by lia. by apply (elem_map (fun p => p - h_pool (as_heap s))). }
  unfold l in Hle. rewrite length_app, !length_map, length_seqZ in Hle. unfold zlen in *. lia.
Qed.
(** What stays when only the heap changes. *)
Lemma store_heap s h ws live live' : holds s ws live -> h_pool h = h_pool (as_heap s) -> h_size h = h_size (as_heap s) ->
  arenas_ok (s <| as_heap := h |>) (map alloc_of ws) -> (exists bs, heap_ok h bs /\ small BLOCK_MAX bs) ->
  (NoDup live' /\ forall p, p ∈ live' -> (exists len, (p - h_pool h, len) ∈ extents h) /\ ~ held s (p - h_pool h)) ->
  (forall e, e ∈ extents h -> held s e.1 \/ h_pool h + e.1 ∈ live') -> holds (s <| as_heap := h |>) ws live'.
Proof.
  intros Hs Ep Es Hok Hsm Hl He. set (s' := s <| as_heap := h |>).
  assert (forall i, base_of s' i = base_of s i) as Eb by (intros i; unfold base_of; cbn; by rewrite Ep).
  constructor; try assumption.
  - apply (st_nodes _ _ _ _ _ _ _ Hs).
  - intros w Hw. rewrite Eb. by apply (st_mem _ _ _ _ _ _ _ Hs).
  - apply (st_ws _ _ _ _ _ _ _ Hs).
  - intros w Hw. rewrite Eb. by apply (st_used _ _ _ _ _ _ _ Hs).
  - pose proof (st_room _ _ _ _ _ _ _ Hs) as Hr. cbn zeta in *. change (as_heap s') with h. change (as_max s') with (as_max s). by rewrite Es.
Qed.
Lemma store_malloc s ws live : holds s ws live -> zlen live < zlen nodes ->
  exists p h, cfl_heap_malloc_pointer (Some (as_heap s)) aux = Ret (Some p, h) /\ holds (s <| as_heap := h |>) ws (p :: live).
Proof.
  intros Hs Hfew. pose proof (st_arenas _ _ _ _ _ _ _ Hs) as Hok. pose proof Hok as (Hc & _). destruct (st_small _ _ _ _ _ _ _ Hs) as (bs & Hb & Hsm).
  destruct Haux as [Ha0 Ha1]. pose proof (rounded_bound aux Ha0) as Hr. change BLOCK_MAX with 200 in *. assert (0 < aux <= 65528) as Haq by lia.
  pose proof (extents_few _ _ _ Hs) as Hx. pose proof (st_room _ _ _ _ _ _ _ Hs) as Hroom. cbn zeta in Hroom. change BLOCK_MAX with 200 in Hroom.
  destruct (malloc_room (as_heap s) bs 200 aux Hb Hsm Haq ltac:(lia)) as (idx & h & E).
  { pose proof (zlen_nonneg (extents (as_heap s))). set (x := zlen (extents _)) in *. set (k := as_max s + zlen nodes) in *. assert (x <= k) by lia. nia. }
  pose proof (arena_heap_alloc_ok s _ aux Hok Haq) as Hres. rewrite E in Hres.
  destruct Hres as (Hok' & Hnh & Ep & Es & Hal & len & Hlen & Hext & Hfresh).
  destruct (malloc_small _ _ 200 _ _ _ Hb Hsm Haq ltac:(lia) E) as (bs' & Hb' & Hsm').
  assert ((idx, len) ∈ extents h) as Hin by (apply Hext; by left). pose proof (extents_bounds _ _ _ Hb' Hin) as Hbd. cbn [fst snd] in Hbd.
  pose proof Hb as ((Hinit & _ & Hsz & Hp1 & Hp2 & _) & _). pose proof Hb' as ((Hinit' & _ & Hsz' & _) & _).
  exists (h_pool h + idx), h. split.
  { unfold cfl_heap_malloc_pointer. cbn [not_null]. rewrite Hinit. cbn [negb raise_if]. rewrite E. cbn [cbind fst snd]. change INVALID_HEAP_IDX with 65535.
    rewrite (proj2 (Z.eqb_neq _ _)) by lia. unfold cfl_heap_ptr, heap_idx_to_ptr. cbn [not_null]. rewrite Hinit'. cbn [negb raise_if].
    by rewrite (proj2 (Z.leb_gt _ _)) by lia. }
  destruct (st_live _ _ _ _ _ _ _ Hs) as [Hnd Hlive]. apply (store_heap s h ws live); try done; [by exists bs'| |].
  - split.
    + constructor; [|done]. intros Hl. destruct (Hlive _ Hl) as [(l & He) _]. apply (Hfresh _ He). cbn. lia.
    + intros p Hp. apply elem_of_cons in Hp as [-> |Hp].
      * replace (h_pool h + idx - h_pool h) with idx by lia. split; [by exists len|done].
      * rewrite Ep. destruct (Hlive p Hp) as [(l & He) Hh]. split; [exists l; apply Hext; by right|done].
  - intros e He. apply Hext in He as [-> |He]; [right; by left|]. destruct (st_extents _ _ _ _ _ _ _ Hs e He) as [|Hl]; [by left|]. right. rewrite Ep. by right.
Qed.
Lemma store_free s ws live p : holds s ws live -> p ∈ live ->
  exists h, cfl_heap_free_pointer (Some (as_heap s)) p = Ret h /\ holds (s <| as_heap := h |>) ws (without p live).
Proof.
  intros Hs Hp. pose proof (st_arenas _ _ _ _ _ _ _ Hs) as Hok. destruct (st_small _ _ _ _ _ _ _ Hs) as (bs & Hb & Hsm).
  destruct (st_live _ _ _ _ _ _ _ Hs) as [Hnd Hlive]. destruct (Hlive p Hp) as [(len & He) Hnh].
  destruct (arena_heap_free_ok s _ _ Hok He Hnh) as (h & E & Hok' & Ep & Es & Hext). cbn [fst] in E, Hext.
  destruct (live_bounds _ _ _ _ Hs Hp) as (Hpb & Hinit & Hp1 & Hp2 & Hsz). exists h. split.
  { unfold cfl_heap_free_pointer. cbn [not_null]. rewrite Hinit. cbn [negb raise_if]. rewrite (proj2 (Z.eqb_neq _ _)) by lia. cbn [raise_if].
    unfold cfl_heap_ptr_to_idx. cbn [not_null]. rewrite Hinit. cbn [negb raise_if]. rewrite (proj2 (Z.eqb_neq _ _)) by lia. cbn [raise_if].
    rewrite (proj2 (Z.ltb_ge _ _)), (proj2 (Z.leb_gt _ _)) by lia. cbn [orb raise_if cbind]. by rewrite u16_id by (unfold fits; lia). }
  assert (forall q, q ∈ without p live <-> q ∈ live /\ q <> p) as Hw.
  { intros q. unfold without. rewrite !list_elem_of_In, filter_In, negb_true_iff, Z.eqb_neq. done. }
  apply (store_heap s h ws live); try done; [apply (free_small (as_heap s) bs BLOCK_MAX (p - h_pool (as_heap s)) h); (done || lia)| |].
  - split; [apply NoDup_ListNoDup, List.NoDup_filter; by apply NoDup_ListNoDup|]. intros q Hq. apply Hw in Hq as [Hq Hne].
    destruct (Hlive q Hq) as [(l & Hl) Hh]. rewrite Ep. split; [|done]. exists l. apply Hext. split; [done|]. cbn. lia.
  - intros e Hee. apply Hext in Hee as [Hee Hne]. destruct (st_extents _ _ _ _ _ _ _ Hs e Hee) as [|Hl]; [by left|]. right. rewrite Ep. apply Hw. split; [done|]. lia.
Qed.

#[export] Instance arenas_store : node_store nodes size aux holds.
Proof.
  constructor; [exact store_distinct|exact store_index|exact store_ptr|exact store_struct|exact store_malloc|exact store_free].
Qed.
End Store.
