(* ===== verification/KbApp.v ===== *)
(** The shipped image with its functions ([app/bus_controller/kb0/incr/chaintree_handle.c],
    [chaintree_handle_functions.c], [kb0/user_functions.c]): the tables of [CflImage], the engine's
    node functions of [CflNodeFns], and the application's hooks, which are weak symbols the firmware
    overrides: they are a parameter here. A hook may look at the whole handle; what it changes is the
    application's own state. *)
From S2P Require Import Prelude CflBase CflEventQueue CtTreeWalker CflEngine JsonDecoder CflNodeFns CflImage.
#[local] Open Scope Z_scope.
#[local] Open Scope cfl_scope.

(** [void kb0_on_ping(void *handle, unsigned node_index)] and so on: the application's state after
    the call. *)
Record app_hooks (A : Type) := mk_hooks {
  kb0_on_ping : cfl_handle (cfl_runtime A) -> Z -> A;
  kb0_on_snapshot : cfl_handle (cfl_runtime A) -> Z -> A;
  kb0_on_cmd_timeout : cfl_handle (cfl_runtime A) -> Z -> A;
  kb1_on_adc : cfl_handle (cfl_runtime A) -> Z -> A;
  kbapp_on_echo : cfl_handle (cfl_runtime A) -> Z -> A;
  kbapp_on_echo_to : cfl_handle (cfl_runtime A) -> Z -> A;
  kbapp_on_il_clear : cfl_handle (cfl_runtime A) -> Z -> A;
  kbapp_on_op : cfl_handle (cfl_runtime A) -> Z -> A
}.
Arguments kb0_on_ping {A}.
Arguments kb0_on_snapshot {A}.
Arguments kb0_on_cmd_timeout {A}.
Arguments kb1_on_adc {A}.
Arguments kbapp_on_echo {A}.
Arguments kbapp_on_echo_to {A}.
Arguments kbapp_on_il_clear {A}.
Arguments kbapp_on_op {A}.
(** The weak definitions do nothing. *)
Definition weak_hooks {A} : app_hooks A :=
  let f := fun h (_ : Z) => user_handle (rest h) in mk_hooks A f f f f f f f f.

Section App.
Context {A : Type} (hooks : app_hooks A) (float_to_int32 : Z -> Z).
#[local] Abbreviation handle := (cfl_handle (cfl_runtime A)).
#[local] Abbreviation one_shot_fn := (one_shot_function_t (cfl_runtime A)).
#[local] Abbreviation boolean_fn := (boolean_function_t (cfl_runtime A)).
#[local] Abbreviation main_fn := (main_function_t (cfl_runtime A)).

Definition user_fn (hook : handle -> Z -> A) : one_shot_fn := fun h i =>
  Ret (set_rest (fun x => x <| user_handle := hook h i |>) h).
Definition mon_ping_reply_one_shot_fn : one_shot_fn := user_fn (kb0_on_ping hooks).
Definition mon_snapshot_one_shot_fn : one_shot_fn := user_fn (kb0_on_snapshot hooks).
Definition mon_cmd_timeout_one_shot_fn : one_shot_fn := user_fn (kb0_on_cmd_timeout hooks).
Definition adc_read_one_shot_fn : one_shot_fn := user_fn (kb1_on_adc hooks).
Definition app_echo_one_shot_fn : one_shot_fn := user_fn (kbapp_on_echo hooks).
Definition app_echo_to_one_shot_fn : one_shot_fn := user_fn (kbapp_on_echo_to hooks).
Definition app_il_clear_one_shot_fn : one_shot_fn := user_fn (kbapp_on_il_clear hooks).
Definition app_op_one_shot_fn : one_shot_fn := user_fn (kbapp_on_op hooks).

(** The tables of the image; a function is given those it can reach: the boolean and one-shot
    functions the nodes, the main functions these two tables too. *)
Definition image_nodes : list chaintree_node_t := take (Z.to_nat ct_node_count) ct_nodes.
Definition image_tables (mains : list main_fn) (one_shots : list one_shot_fn) (booleans : list boolean_fn) :
    chaintree_handle (cfl_runtime A) :=
  mk_flash image_nodes ct_link_table ct_kb_table mains one_shots booleans.
Definition ct_boolean_functions : list boolean_fn :=
  [cfl_null_boolean_fn; cfl_column_null_boolean_fn; cfl_gate_node_null_boolean_fn;
   cfl_wait_for_event_boolean_fn float_to_int32 ct_node_data (image_tables [] [] [])].
Definition ct_one_shot_functions : list one_shot_fn :=
  [cfl_null_one_shot_fn; adc_read_one_shot_fn; app_echo_one_shot_fn; app_echo_to_one_shot_fn; app_il_clear_one_shot_fn;
   app_op_one_shot_fn; cfl_column_init_one_shot_fn (image_tables [] [] []); cfl_column_term_one_shot_fn;
   cfl_gate_node_init_one_shot_fn (image_tables [] [] []); cfl_gate_node_term_one_shot_fn;
   cfl_wait_init_one_shot_fn float_to_int32 ct_node_data (image_tables [] [] []); cfl_wait_term_one_shot_fn;
   mon_ping_reply_one_shot_fn; mon_snapshot_one_shot_fn; mon_cmd_timeout_one_shot_fn].
Definition call_tables : chaintree_handle (cfl_runtime A) := image_tables [] ct_one_shot_functions ct_boolean_functions.
Definition ct_main_functions : list main_fn :=
  [cfl_null_main_fn; cfl_column_main_main_fn call_tables; cfl_disable_main_fn;
   cfl_gate_node_main_main_fn call_tables; cfl_reset_main_fn; cfl_wait_main_fn call_tables].
Definition g_chaintree_handle : chaintree_handle (cfl_runtime A) :=
  image_tables ct_main_functions ct_one_shot_functions ct_boolean_functions.
End App.
