(* ===== verification/KbServe.v ===== *)
(** What the shipped knowledge bases do with an event: every column of a knowledge base waits for the
    event of its command; when it comes the handler is called, once, and the column starts over.

    [serve] is the specification: a column is armed or not, and has counted some seconds. [view]
    relates it to the runtime handle: flags, structs and heap objects of the waits. The memory is
    used through [CflStore.node_store] alone. *)
From S2P Require Import Prelude CflBase CflHeap CflArena CflEventQueue CtTreeWalker CflEngine CflTerminate CflExecute JsonDecoder CflBlackboard CflNodeFns CflImage CflStore KbApp.
From stdpp Require Import gmap.
#[local] Open Scope Z_scope.
#[local] Open Scope cfl_scope.

(** ** Columns *)

(** A column at node [c]: its leaves are the wait [c + 1], the handler [c + 2], whose init function is
    the hook, and the reset [c + 3]. *)
Record column := mk_column { c_node : Z; c_handler : Z; c_event : Z }.
#[export] Instance column_eq_dec : EqDecision column.
Proof. solve_decision. Defined.
Definition kb0_columns : list column := [mk_column 1 12 EVENT_CMD_MON_PING; mk_column 5 13 EVENT_CMD_MON_SNAPSHOT].
Definition kb1_columns : list column := [mk_column 10 1 EVENT_CMD_ADC_READ].
Definition kbapp_columns : list column :=
  [mk_column 15 2 EVENT_CMD_APP_ECHO; mk_column 19 3 EVENT_CMD_APP_ECHO_TO; mk_column 23 4 EVENT_CMD_APP_IL_CLEAR; mk_column 27 5 EVENT_CMD_APP_OP].
Definition all_columns : list column := kb0_columns ++ kb1_columns ++ kbapp_columns.
Definition wait_of (c : column) : Z := c_node c + 1.
Definition waits : list Z := map wait_of all_columns.
Definition col_tree (c : column) : tree :=
  Node (c_node c) [Node (c_node c + 1) []; Node (c_node c + 2) []; Node (c_node c + 3) []].
Definition kb_tree (root : Z) (cols : list column) : tree := Node root (map col_tree cols).
(** A knowledge base: its root, the size of its window, its columns. *)
Record served_kb := mk_served { k_root : Z; k_count : Z; k_columns : list column }.
Definition served_kbs : list served_kb := [mk_served 0 9 kb0_columns; mk_served 9 5 kb1_columns; mk_served 14 17 kbapp_columns].
Definition node_of (c : column) (j : Z) : Prop := c_node c <= j <= c_node c + 3.
Definition COMMAND_TIMEOUT : Z := 3600.
Definition TIMEOUT_HANDLER : Z := 14.

(** ** Specification *)

Definition upd {B} (f : Z -> B) (i : Z) (v : B) : Z -> B := fun j => if j =? i then v else f j.

(** Is the column armed, the seconds counted: that count goes on when the column starts over. *)
Definition col_state : Type := bool * Z.
(** The state after an event, and the one-shot functions of the application that were called, with
    their nodes. *)
Definition column_step (ev : Z) (c : column) (x : col_state) : col_state * list (Z * Z) :=
  if ev =? c_event c then ((false, x.2), [(c_handler c, c_node c + 2)])
  else if ev =? CFL_SECOND_EVENT then
    let n := u32 (x.2 + 1) in
    if COMMAND_TIMEOUT <=? n then ((false, n), [(TIMEOUT_HANDLER, wait_of c)]) else ((true, n), [])
  else ((true, x.2), []).
Fixpoint serve (ev : Z) (cols : list column) (x : Z -> col_state) : (Z -> col_state) * list (Z * Z) :=
  match cols with
  | [] => (x, [])
  | c :: cols =>
      let r := column_step ev c (x (wait_of c)) in
      let q := serve ev cols (upd x (wait_of c) r.1) in (q.1, r.2 ++ q.2)
  end.

(** ** The handle *)

(** What the nodes of a column are, in the image. *)
Record column_ok (nodes : Z -> chaintree_node_t) (c : column) : Prop := {
  co_range : 0 < c_node c /\ c_node c + 3 < 35;
  co_col : main_function_index (nodes (c_node c)) = 1 /\ init_function_index (nodes (c_node c)) = 6 /\
    aux_function_index (nodes (c_node c)) = 1 /\ term_function_index (nodes (c_node c)) = 7;
  co_wait : let w := nodes (c_node c + 1) in parent_index w = c_node c /\ link_count w = 0 /\ main_function_index w = 5 /\
    init_function_index w = 10 /\ aux_function_index w = 3 /\ term_function_index w = 11;
  co_handler : let d := nodes (c_node c + 2) in parent_index d = c_node c /\ link_count d = 0 /\ main_function_index d = 2 /\
    init_function_index d = c_handler c /\ aux_function_index d = 0 /\ term_function_index d = 0;
  co_reset : let r := nodes (c_node c + 3) in parent_index r = c_node c /\ link_count r = 0 /\ main_function_index r = 4 /\
    init_function_index r = 0 /\ aux_function_index r = 0 /\ term_function_index r = 0
}.
Record kb_ok (nodes : Z -> chaintree_node_t) (k : served_kb) : Prop := {
  ko_window : 0 <= k_root k /\ 0 < k_count k /\ k_root k + k_count k <= 35;
  ko_columns : Forall (fun c => c ∈ all_columns /\ k_root k < c_node c /\ c_node c + 3 < k_root k + k_count k) (k_columns k);
  ko_nodup : NoDup (k_columns k);
  ko_some : exists c cols, k_columns k = c :: cols;
  ko_root : main_function_index (nodes (k_root k)) = 3 /\ init_function_index (nodes (k_root k)) = 8 /\ aux_function_index (nodes (k_root k)) = 2
}.
(** The bits of a flag byte that are the engine's. *)
Definition ubits (f : Z) : Z := Z.land f CT_FLAG_USER_MASK.

Section Serve.
Context {A : Type} (hooks : app_hooks A) (float_to_int32 : Z -> Z).
Context (holds : CflHeapArenaSystem -> list (Z * Z) -> list Z -> Prop) `{Hstore : node_store waits sizeof_wait sizeof_wait_for_event holds}.
#[local] Abbreviation handle := (cfl_handle (cfl_runtime A)).
#[local] Abbreviation image := (g_chaintree_handle hooks float_to_int32).

(** What executing an event leaves of the rest. *)
Definition frame (x : cfl_runtime A) : CFL_EVENT_QUEUE_T * Z * Z * list Z * Z * list Z * list Z * cfl_bb :=
  (event_queue x, shaddow_bitmask x, bitmask x, active_test_bitmap x, active_test_count x, kb_allocator_ids x, test_has_arena x, shared_bb x).
(** A wait that was started once: the events it still waits for, if armed, and the seconds counted. *)
Definition wait_state : Type := option (option Z * Z).
Definition wait_ok (mem : gmap Z cell) (ptr aux : option Z) (event : Z) (x : wait_state) : Prop :=
  match ptr, x with
  | None, None => aux = None
  | Some p, Some (left_, n) => exists a,
      mem !! p = Some (CWait (mk_wait COMMAND_TIMEOUT CFL_SECOND_EVENT TIMEOUT_HANDLER true n a)) /\
      match left_ with
      | Some k => aux = Some a /\ mem !! a = Some (CWaitForEvent (mk_wait_for event k))
      | None => aux = None
      end
  | _, _ => False
  end.
Record waits_ok (x : cfl_runtime A) (st : Z -> wait_state) (ws : list (Z * Z)) (live : list Z) (aux : Z -> option Z) : Prop := {
  wo_holds : holds (arena_system x) ws live;
  wo_live : live ≡ₚ omap aux waits;
  wo_wait c : c ∈ all_columns -> wait_ok (memory x) (struct_of ws (wait_of c)) (aux (wait_of c)) (c_event c) (st (wait_of c))
}.

(** The application's hooks, by their number in the image. *)
Definition hook_of (k : Z) : option (handle -> Z -> A) :=
  match k with
  | 1 => Some (kb1_on_adc hooks) | 2 => Some (kbapp_on_echo hooks) | 3 => Some (kbapp_on_echo_to hooks)
  | 4 => Some (kbapp_on_il_clear hooks) | 5 => Some (kbapp_on_op hooks) | 12 => Some (kb0_on_ping hooks)
  | 13 => Some (kb0_on_snapshot hooks) | 14 => Some (kb0_on_cmd_timeout hooks) | _ => None
  end.
(** [called e u l u']: the calls [l] in that order, with [e] the event of the handle, make [u'] of [u]. *)
Inductive called (e : CFL_EVENT_DATA_T) : A -> list (Z * Z) -> A -> Prop :=
| called_nil u : called e u [] u
| called_cons h k i f l u : hook_of k = Some f -> event_data_ptr h = Some e ->
    called e (f h i) l u -> called e (user_handle (rest h)) ((k, i) :: l) u.

Record vstate := mk_v { v_fl : Z -> Z; v_st : Z -> wait_state; v_user : A; v_count : Z }.
Section View.
Context (e : CFL_EVENT_DATA_T) (lo cnt : Z) (fr : CFL_EVENT_QUEUE_T * Z * Z * list Z * Z * list Z * list Z * cfl_bb).
Record view (h : handle) (s : vstate) : Prop := {
  vw_sized : sized image h;
  vw_event : event_data_ptr h = Some e;
  vw_window : kb_start_index h = lo /\ kb_node_count h = cnt;
  vw_levels : 3 <= h_max_level h < 2 ^ 31 /\ 2 <= wr_max_level (h_walker h);
  vw_on : cfl_engine_flag h = true;
  vw_exec : cfl_node_execution_count h = v_count s;
  vw_flags i : 0 <= i < 35 -> ubits (flag_of h i) = v_fl s i;
  vw_waits : exists ws live aux, waits_ok (rest h) (v_st s) ws live aux;
  vw_user : user_handle (rest h) = v_user s;
  vw_frame : frame (rest h) = fr
}.
End View.

End Serve.
Arguments v_fl {A}.
Arguments v_st {A}.
Arguments v_user {A}.
Arguments v_count {A}.
Arguments mk_v {A}.
#[export] Instance eta_vstate {A} : Settable (vstate (A := A)) := fun s => mk_v (v_fl s) (v_st s) (v_user s) (v_count s).

(** ** States *)

Section States.
Context {A : Type}.
(** A pointer is one node's. *)
Definition owns_ptr (ws : list (Z * Z)) (aux : Z -> option Z) (w p : Z) : Prop := struct_of ws w = Some p \/ aux w = Some p.
Definition disarm (st : Z -> wait_state) (w : Z) : Z -> wait_state :=
  upd st w (match st w with Some (_, n) => Some (None, n) | None => None end).
(** What disabling node [j] of column [c] comes to. *)
Definition disabled (c : column) (j : Z) (s : vstate) : vstate (A := A) :=
  mk_v (upd (v_fl s) j 0) (if (j =? wait_of c) && (Z.land (v_fl s j) 0xC0 =? 0xC0) then disarm (v_st s) j else v_st s)
    (v_user s) (v_count s).
Definition armed_if_running (c : column) (s : vstate (A := A)) : Prop :=
  Z.land (v_fl s (wait_of c)) 0xC0 = 0xC0 -> exists k n, v_st s (wait_of c) = Some (Some k, n).
(** The subtree's enabled nodes are marked. *)
Definition mark_col (c : column) (s : vstate (A := A)) : vstate :=
  s <| v_fl ::= fun f j => if bool_decide (j ∈ ids (col_tree c)) && has (f j) CT_FLAG_USER3 then Z.lor (f j) CT_FLAG_USER1 else f j |>.
Definition unmark (c : column) (j : Z) (s : vstate (A := A)) : vstate := if has (v_fl s j) CT_FLAG_USER1 then disabled c j s else s.
(** The column's enabled nodes are disabled, an armed wait gives its object back. *)
Definition torn (c : column) (s : vstate (A := A)) : vstate :=
  mk_v (fun j => if bool_decide (j ∈ ids (col_tree c)) && has (v_fl s j) CT_FLAG_USER3 then 0 else v_fl s j)
    (if Z.land (v_fl s (wait_of c)) 0xC0 =? 0xC0 then disarm (v_st s) (wait_of c) else v_st s) (v_user s) (v_count s).
Definition in_window (lo cnt : Z) (c : column) : Prop := c ∈ all_columns /\ lo <= c_node c /\ c_node c + 3 < lo + cnt.
Definition unmarked (lo cnt : Z) (s : vstate (A := A)) : Prop := forall i, lo <= i < lo + cnt -> has (v_fl s i) CT_FLAG_USER1 = false.
Definition tick (s : vstate (A := A)) : vstate := mk_v (v_fl s) (v_st s) (v_user s) (v_count s + 1).
Record nodes_are (s : vstate (A := A)) (c : column) (a b d r : Z) (x : wait_state) : Prop := {
  na_col : v_fl s (c_node c) = a; na_wait : v_fl s (wait_of c) = b; na_handler : v_fl s (c_node c + 2) = d;
  na_reset : v_fl s (c_node c + 3) = r; na_st : v_st s (wait_of c) = x
}.
(** The wait before: not started this time, or armed. *)
Definition before_wait (b : Z) (x : wait_state) (n : Z) : Prop :=
  b = 0x80 /\ (x = None /\ n = 0 \/ x = Some (None, n)) \/ b = 0xC0 /\ x = Some (Some 1, n).
(** The wait is running. *)
Definition waiting (c : column) (n : Z) (s : vstate (A := A)) : vstate :=
  mk_v (upd (v_fl s) (wait_of c) 0xC0) (upd (v_st s) (wait_of c) (Some (Some 1, n))) (v_user s) (v_count s + 1).
Definition before_column (a b d r : Z) : Prop := (a, b, d, r) = (0x80, 0, 0, 0) \/ (a, b, d, r) = (0xC0, 0xC0, 0x80, 0x80).
(** What executing the wait comes to, with [n] seconds counted: the walk's code, the calls, the flags
    of the column's nodes and the wait's state. *)
Definition wait_out (ev : Z) (c : column) (n : Z) : CT_ReturnCode * list (Z * Z) * (Z * Z * Z * Z * wait_state) :=
  if ev =? c_event c then (CT_SKIP_CHILDREN, [], (0xC0, 0, 0x80, 0x80, Some (None, n)))
  else if ev =? CFL_SECOND_EVENT then
    let n := u32 (n + 1) in
    if COMMAND_TIMEOUT <=? n then (CT_CONTINUE, [(TIMEOUT_HANDLER, wait_of c)], (0x80, 0, 0, 0, Some (None, n)))
    else (CT_STOP_SIBLINGS, [], (0xC0, 0xC0, 0x80, 0x80, Some (Some 1, n)))
  else (CT_STOP_SIBLINGS, [], (0xC0, 0xC0, 0x80, 0x80, Some (Some 1, n))).
Definition col_in (c : column) (x : col_state) (s : vstate (A := A)) : Prop :=
  if x.1 then nodes_are s c 0xC0 0xC0 0x80 0x80 (Some (Some 1, x.2))
  else exists y, nodes_are s c 0x80 0 0 0 y /\ (y = None /\ x.2 = 0 \/ y = Some (None, x.2)).
Definition flag_value (f : Z) : Prop := f = 0 \/ f = 0x80 \/ f = 0xC0.
(** Before the root's first event its columns are off. *)
Definition col_off (c : column) (x : col_state) (s : vstate (A := A)) : Prop :=
  x.1 = false /\ exists y, nodes_are s c 0 0 0 0 y /\ (y = None /\ x.2 = 0 \/ y = Some (None, x.2)).
Definition kb_in (k : served_kb) (x : Z -> col_state) (s : vstate (A := A)) : Prop :=
  v_fl s (k_root k) = 0xC0 /\ (forall c, c ∈ k_columns k -> col_in c (x (wait_of c)) s) \/
  v_fl s (k_root k) = 0x80 /\ (forall c, c ∈ k_columns k -> col_off c (x (wait_of c)) s).
Definition enable_columns (cols : list column) (fl : Z -> Z) : Z -> Z := fun i => if bool_decide (i ∈ map c_node cols) then 0x80 else fl i.
Definition outside (k : served_kb) (i : Z) : Prop := i <> k_root k /\ forall c, c ∈ k_columns k -> ~ node_of c i.
Definition rest_only (h h' : cfl_handle (cfl_runtime A)) : Prop := exists x, h' = h <| rest := x |>.
End States.

(** ** What executing a node, an event does *)

Section Relations.
Context {A : Type} (hooks : app_hooks A) (float_to_int32 : Z -> Z) (holds : CflHeapArenaSystem -> list (Z * Z) -> list Z -> Prop).
#[local] Abbreviation handle := (cfl_handle (cfl_runtime A)).
#[local] Abbreviation image := (g_chaintree_handle hooks float_to_int32).
(** What the execution of a column's nodes may change: [l] was called, at most [k] nodes ran. *)
Record stepped (e : CFL_EVENT_DATA_T) (c : column) (l : list (Z * Z)) (k : Z) (s s' : vstate (A := A)) : Prop := {
  sp_fl i : ~ node_of c i -> v_fl s' i = v_fl s i;
  sp_st c' : c' ∈ all_columns -> c' <> c -> v_st s' (wait_of c') = v_st s (wait_of c');
  sp_called : called hooks e (v_user s) l (v_user s');
  sp_count : v_count s <= v_count s' <= v_count s + k
}.
Record served (e : CFL_EVENT_DATA_T) (cols : list column) (l : list (Z * Z)) (s s' : vstate (A := A)) : Prop := {
  sv_fl i : (forall c, c ∈ cols -> ~ node_of c i) -> v_fl s' i = v_fl s i;
  sv_st c' : c' ∈ all_columns -> c' ∉ cols -> v_st s' (wait_of c') = v_st s (wait_of c');
  sv_called : called hooks e (v_user s) l (v_user s');
  sv_count : v_count s <= v_count s' <= v_count s + 4 * zlen cols
}.
Definition goes (e : CFL_EVENT_DATA_T) (lo cnt : Z) (fr : CFL_EVENT_QUEUE_T * Z * Z * list Z * Z * list Z * list Z * cfl_bb) (c : column) (s : vstate) (k : Z) (o : CT_ReturnCode * list (Z * Z) * (Z * Z * Z * Z * wait_state)) (r : CT_ReturnCode * handle) : Prop :=
  let '(rc, l, (a, b, d, rs, x)) := o in
  r.1 = rc /\ exists s', view hooks float_to_int32 holds e lo cnt fr r.2 s' /\ stepped e c l k s s' /\ nodes_are s' c a b d rs x.
(** Between events: the columns are in the states [x], the application in [u]. *)
Definition resting (h : handle) (x : Z -> col_state) (s : vstate (A := A)) : Prop :=
  sized image h /\ (3 <= h_max_level h < 2 ^ 31 /\ 2 <= wr_max_level (h_walker h)) /\
  (forall i, 0 <= i < 35 -> ubits (flag_of h i) = v_fl s i) /\ (exists ws live aux, waits_ok holds (rest h) (v_st s) ws live aux) /\
  user_handle (rest h) = v_user s /\ (forall i, 0 <= i < 35 -> has (v_fl s i) CT_FLAG_USER1 = false) /\ forall k, k ∈ served_kbs -> kb_in k x s.
Definition serving (h : handle) (x : Z -> col_state) (u : A) : Prop := exists s, resting h x s /\ v_user s = u.
End Relations.
(** [m] returns, and [P] holds of what it returns. *)
Definition gives {X} (m : cfl X) (P : X -> Prop) : Prop := exists x, m = Ret x /\ P x.

(** ** Lemmas *)

Lemma gives_ret {X} (x : X) (P : X -> Prop) : P x -> gives (Ret x) P.
Proof. by exists x. Qed.
Lemma gives_bind {X Y} (m : cfl X) (f : X -> cfl Y) P Q : gives m P -> (forall x, P x -> gives (f x) Q) -> gives (cbind m f) Q.
Proof. intros (x & -> & Hx) Hf. by apply Hf. Qed.
Lemma gives_weaken {X} (m : cfl X) (P Q : X -> Prop) : gives m P -> (forall x, P x -> Q x) -> gives m Q.
Proof. intros (x & -> & Hx) H. exists x. auto. Qed.

(** *** Flags *)

Lemma ubits_has f b : Z.land b CT_FLAG_USER_MASK = b -> has f b = has (ubits f) b.
Proof. intros H. unfold has, ubits. by rewrite <- Z.land_assoc, (Z.land_comm CT_FLAG_USER_MASK), H. Qed.
Lemma ubits_lor f b : ubits (Z.lor f b) = Z.lor (ubits f) (Z.land b CT_FLAG_USER_MASK).
Proof. apply land_lor_r. Qed.
Lemma ubits_without f : ubits (without_user f) = 0.
Proof. unfold ubits, without_user. rewrite <- Z.land_assoc. apply Z.land_0_r. Qed.
Lemma ubits_land f b : ubits (Z.land f b) = Z.land (ubits f) b.
Proof. unfold ubits. by rewrite <- !Z.land_assoc, (Z.land_comm b). Qed.

(** *** Lists *)

Lemma omap_upd (f : Z -> option Z) w a (l : list Z) : NoDup l -> w ∈ l -> f w = None -> omap (upd f w (Some a)) l ≡ₚ a :: omap f l.
Proof.
  intros Hnd Hw Hf. assert (forall l : list Z, w ∉ l -> omap (upd f w (Some a)) l = omap f l) as Hno.
  { clear. induction l as [|v l IH]; intros Hn; [done|]. apply not_elem_of_cons in Hn as [Hv Hn]. cbn. rewrite (IH Hn). unfold upd.
    by rewrite (proj2 (Z.eqb_neq v w)) by congruence. }
  induction Hnd as [|v l Hv Hnd IH]; [by apply elem_of_nil in Hw|]. apply elem_of_cons in Hw as [<- |Hw].
  - cbn. rewrite (Hno l Hv), Hf. unfold upd. by rewrite Z.eqb_refl.
  - cbn. assert (upd f w (Some a) v = f v) as -> by (unfold upd; by rewrite (proj2 (Z.eqb_neq v w)) by (intros ->; done)).
    destruct (f v); [|by apply IH]. rewrite (IH Hw). apply Permutation_swap.
Qed.
Lemma omap_clear (f : Z -> option Z) w a (l : list Z) : NoDup l -> w ∈ l -> f w = Some a -> omap f l ≡ₚ a :: omap (upd f w None) l.
Proof.
  intros Hnd Hw Hf. rewrite <- (omap_upd (upd f w None) w a l Hnd Hw); [|unfold upd; by rewrite Z.eqb_refl].
  assert (forall v, upd (upd f w None) w (Some a) v = f v) as E by (intros v; unfold upd; by destruct (Z.eqb_spec v w) as [-> |]).
  clear Hnd Hw. induction l as [|v l IH]; [done|]. cbn. rewrite E. by destruct (f v); rewrite IH.
Qed.
Lemma without_perm a (live r : list Z) : NoDup live -> live ≡ₚ a :: r -> without a live ≡ₚ r.
Proof.
  intros Hnd Hp. assert (NoDup (a :: r)) as Hnd2 by by rewrite <- Hp. apply NoDup_cons in Hnd2 as [Ha Hr].
  apply NoDup_Permutation; [apply NoDup_ListNoDup, List.NoDup_filter; by apply NoDup_ListNoDup|done|].
  intros x. unfold without. rewrite list_elem_of_In, filter_In, negb_true_iff, Z.eqb_neq, <- list_elem_of_In, Hp, elem_of_cons.
  split; [intros [[-> |?] ?]; done|]. intros Hx. split; [by right|]. intros ->. done.
Qed.
Lemma omap_nodup_inj (f : Z -> option Z) (l : list Z) x y a : NoDup (omap f l) -> x ∈ l -> y ∈ l -> f x = Some a -> f y = Some a -> x = y.
Proof.
  induction l as [|v l IH]; intros Hnd Hx Hy Ex Ey; [by apply elem_of_nil in Hx|]. cbn in Hnd.
  assert (forall z, z ∈ l -> f z = Some a -> a ∈ omap f l) as Hin by (intros z Hz Ez; apply list_elem_of_omap; by exists z).
  apply elem_of_cons in Hx as [-> |Hx], Hy as [-> |Hy]; [done|..].
  - rewrite Ex in Hnd. apply NoDup_cons in Hnd as [Hn _]. exfalso. eauto.
  - rewrite Ey in Hnd. apply NoDup_cons in Hnd as [Hn _]. exfalso. eauto.
  - apply IH; try done. destruct (f v); [by apply NoDup_cons in Hnd as [_ ?]|done].
Qed.

(** *** The image *)

Lemma all_columns_ok c : c ∈ all_columns -> column_ok (zget cnode0 image_nodes) c.
Proof.
  assert (Forall (column_ok (zget cnode0 image_nodes)) all_columns) as H by (repeat constructor).
  rewrite Forall_forall in H. apply H.
Qed.
Lemma waits_nodup : NoDup waits.
Proof. vm_decide. Qed.
Lemma wait_in c : c ∈ all_columns -> wait_of c ∈ waits.
Proof. intros Hc. by apply (elem_map wait_of). Qed.
Lemma wait_inj c c' : c ∈ all_columns -> c' ∈ all_columns -> wait_of c = wait_of c' -> c = c'.
Proof.
  assert (Forall (fun c => Forall (fun c' => wait_of c = wait_of c' -> c = c') all_columns) all_columns) as H.
  { repeat (constructor; [repeat (constructor; [intros E; (reflexivity || discriminate E)|]); constructor|]). constructor. }
  rewrite Forall_forall in H. intros Hc Hc'. specialize (H c Hc). rewrite Forall_forall in H. by apply H.
Qed.
Lemma column_tree {A} (ms : list (main_function_t (cfl_runtime A))) os bs c : c ∈ all_columns ->
  tree_in (image_tables ms os bs) (col_tree c) /\ NoDup (ids (col_tree c)) /\ depth (col_tree c) = 2.
Proof.
  intros Hc. split; [|split].
  - revert c Hc. rewrite <- Forall_forall. repeat (apply Forall_cons; split); try (by apply Forall_nil); vm_compute; intuition (done || congruence).
  - cbn. rewrite !NoDup_cons, !elem_of_cons, !elem_of_nil. split_and!; (lia || constructor).
  - done.
Qed.
Lemma column_links {A} (ms : list (main_function_t (cfl_runtime A))) os bs c : c ∈ all_columns ->
  links_list (image_tables ms os bs) (c_node c) = [c_node c + 1; c_node c + 2; c_node c + 3] /\
  (forall B who (k : cfl B), check_links (image_tables ms os bs) who (c_node c) k = k) /\
  nz (Z.land (link_count (zget cnode0 image_nodes (c_node c))) AUTO_START_BIT) = true.
Proof. intros Hc. revert c Hc. rewrite <- Forall_forall. repeat constructor. Qed.
Lemma columns_apart c c' i : c ∈ all_columns -> c' ∈ all_columns -> c <> c' -> node_of c i -> ~ node_of c' i.
Proof.
  assert (Forall (fun c => Forall (fun c' => c = c' \/ c_node c + 3 < c_node c' \/ c_node c' + 3 < c_node c) all_columns) all_columns) as H.
  { repeat (constructor; [repeat (constructor; [(by left) || (right; cbn; lia)|]); constructor|]). constructor. }
  rewrite Forall_forall in H. intros Hc Hc' Hne. specialize (H c Hc). rewrite Forall_forall in H. specialize (H c' Hc'). unfold node_of. intros Hi Hi'. destruct H as [?|[?|?]]; [done|lia..].
Qed.
Lemma serve_other ev cols : forall x w, w ∉ map wait_of cols -> (serve ev cols x).1 w = x w.
Proof.
  induction cols as [|c cols IH]; intros x w Hw; [done|]. cbn [map] in Hw. apply not_elem_of_cons in Hw as [Hne Hw]. cbn [serve fst]. rewrite IH by done.
  unfold upd. by rewrite (proj2 (Z.eqb_neq _ _)).
Qed.
Lemma served_ok k : k ∈ served_kbs -> kb_ok (zget cnode0 image_nodes) k.
Proof.
  revert k. rewrite <- Forall_forall. repeat (apply Forall_cons; split); try (by apply Forall_nil); (constructor; [done| |vm_decide|by do 2 eexists|done]);
    repeat (apply Forall_cons; split); try (by apply Forall_nil); (split; [vm_decide|done]).
Qed.
Lemma served_tree {A} (ms : list (main_function_t (cfl_runtime A))) os bs k : k ∈ served_kbs ->
  let t := kb_tree (k_root k) (k_columns k) in
  tree_in (image_tables ms os bs) t /\ NoDup (ids t) /\ depth t = 3 /\
  links_list (image_tables ms os bs) (k_root k) = map c_node (k_columns k) /\
  (forall B who (q : cfl B), check_links (image_tables ms os bs) who (k_root k) q = q).
Proof.
  cbn zeta. revert k. rewrite <- Forall_forall. repeat (apply Forall_cons; split); try (by apply Forall_nil);
    (split; [vm_compute; intuition (done || congruence)|split; [vm_decide|by split_and!]]).
Qed.
Lemma wait_data {A} (float_to_int32 : Z -> Z) (ms : list (main_function_t (cfl_runtime A))) c : c ∈ all_columns ->
  let int32_of := extract_int32 float_to_int32 ct_node_data (image_tables ms [] []) (wait_of c) in
  extract_bool ct_node_data (image_tables ms [] []) (wait_of c) "node_dict.reset_flag" = Ret true /\
  int32_of "node_dict.timeout" = Ret COMMAND_TIMEOUT /\ int32_of "node_dict.time_out_event" = Ret CFL_SECOND_EVENT /\
  int32_of "node_dict.error_function_id" = Ret TIMEOUT_HANDLER /\
  int32_of "node_dict.wait_fn_data.event_id" = Ret (c_event c) /\ int32_of "node_dict.wait_fn_data.event_count" = Ret 1.
Proof.
  cbn zeta. intros Hc. revert c Hc. rewrite <- Forall_forall. repeat constructor; vm_compute; reflexivity.
Qed.

(** *** The memory of the waits *)

Section Memory.
Context {A : Type} (holds : CflHeapArenaSystem -> list (Z * Z) -> list Z -> Prop) `{Hstore : node_store waits sizeof_wait sizeof_wait_for_event holds}.
#[local] Abbreviation ok := (@waits_ok A holds).

Lemma struct_of_ptrs ws w p : struct_of ws w = Some p -> p ∈ ptrs_of ws.
Proof. intros H. apply struct_of_in in H. by apply (elem_map snd) in H. Qed.
Lemma structs_inj ws w w' p : NoDup (ptrs_of ws) -> struct_of ws w = Some p -> struct_of ws w' = Some p -> w = w'.
Proof.
  induction ws as [|[v q] ws IH]; intros Hnd; [done|]. cbn in Hnd. apply NoDup_cons in Hnd as [Hq Hnd].
  rewrite !struct_of_cons. destruct (Z.eqb_spec v w) as [E|], (Z.eqb_spec v w') as [E'|]; intros E1 E2; [congruence|..].
  - injection E1 as ->. apply struct_of_ptrs in E2. done.
  - injection E2 as ->. apply struct_of_ptrs in E1. done.
  - by apply IH.
Qed.

Lemma owner_unique s ws live aux c c' p : holds s ws live -> live ≡ₚ omap aux waits -> c ∈ all_columns -> c' ∈ all_columns ->
  owns_ptr ws aux (wait_of c) p -> owns_ptr ws aux (wait_of c') p -> wait_of c = wait_of c'.
Proof using Hstore.
  intros Hh Hl Hc Hc' H1 H2. destruct (ns_distinct _ _ _ Hh) as [Hnd _]. apply NoDup_app in Hnd as (Hws & Hd & Hlive).
  assert (forall c, c ∈ all_columns -> aux (wait_of c) = Some p -> p ∈ live) as Hin.
  { intros d Hd' E. rewrite Hl. apply list_elem_of_omap. exists (wait_of d). split; [by apply wait_in|done]. }
  destruct H1 as [H1|H1], H2 as [H2|H2].
  - by eapply structs_inj.
  - exfalso. apply (Hd p); [by eapply struct_of_ptrs|by apply (Hin c')].
  - exfalso. apply (Hd p); [by eapply struct_of_ptrs|by apply (Hin c)].
  - rewrite Hl in Hlive. by eapply omap_nodup_inj; [exact Hlive|by apply wait_in..| |].
Qed.
(** The state of one wait changes; what is written is its own. *)
Lemma waits_upd x st ws live aux c x' ws' live' aux' v : ok x st ws live aux -> c ∈ all_columns ->
  holds (arena_system x') ws' live' -> live' ≡ₚ omap aux' waits ->
  (forall w, w <> wait_of c -> struct_of ws' w = struct_of ws w /\ aux' w = aux w) ->
  (forall c' p, c' ∈ all_columns -> wait_of c' <> wait_of c -> owns_ptr ws aux (wait_of c') p -> memory x' !! p = memory x !! p) ->
  wait_ok (memory x') (struct_of ws' (wait_of c)) (aux' (wait_of c)) (c_event c) v ->
  ok x' (upd st (wait_of c) v) ws' live' aux'.
Proof using Type.
  intros [Hh Hl Hw] Hc Hh' Hl' Hsame Hmem Hv. constructor; [done|done|]. intros c' Hc'. unfold upd.
  destruct (Z.eqb_spec (wait_of c') (wait_of c)) as [E|Hne].
  - apply (wait_inj _ _ Hc' Hc) in E as ->. done.
  - destruct (Hsame _ Hne) as [-> Ea]. rewrite Ea. specialize (Hw c' Hc'). unfold wait_ok in *.
    destruct (struct_of ws (wait_of c')) as [p|] eqn:Ep, (st (wait_of c')) as [[left_ n]|]; try done.
    destruct Hw as (a & Hm & Hleft). exists a. split; [rewrite (Hmem c' p); [done..|by left]|]. destruct left_; [|done].
    destruct Hleft as [Eq Ha]. split; [done|]. rewrite (Hmem c' a); [done..|by right].
Qed.
End Memory.

(** *** The functions leave the walker alone *)

Section Tame.
Context {A : Type} (hooks : app_hooks A) (float_to_int32 : Z -> Z).
#[local] Abbreviation handle := (cfl_handle (cfl_runtime A)).
#[local] Abbreviation image := (g_chaintree_handle hooks float_to_int32).

Lemma rest_refl (h : handle) : rest_only h h.
Proof. exists (rest h). by destruct h. Qed.
Lemma rest_trans (h1 h2 h3 : handle) : rest_only h1 h2 -> rest_only h2 h3 -> rest_only h1 h3.
Proof. intros (x & ->) (y & ->). exists y. by destruct h1. Qed.
Lemma rest_set g (h : handle) : rest_only h (set_rest g h).
Proof. exists (g (rest h)). by destruct h. Qed.
Lemma rest_tame (h h' : handle) : rest_only h h' -> tame h h'.
Proof. intros (x & ->). by destruct h. Qed.
Lemma rest_heap hp (h : handle) : rest_only h (set_heap hp h).
Proof. apply rest_set. Qed.
Lemma malloc_rest (h : handle) size r : heap_malloc h size = Ret r -> rest_only h r.2.
Proof. unfold heap_malloc. intros H. apply cbind_Ret in H as (q & _ & [= <-]). apply rest_set. Qed.
Lemma free_rest (h : handle) p r : heap_free h p = Ret r -> rest_only h r.
Proof. unfold heap_free. intros H. apply cbind_Ret in H as (q & _ & [= <-]). apply rest_set. Qed.
Lemma smart_rest (h : handle) i size r : cfl_smart_arena_alloc h i size = Ret r -> rest_only h r.2.
Proof.
  unfold cfl_smart_arena_alloc. intros H. apply cbind_Ret in H as (q & _ & H). destruct (_ =? _); apply cbind_Ret in H as (q2 & _ & [= <-]); [apply rest_set|apply rest_refl].
Qed.
Lemma wait_event_rest (h : handle) i ty ev data r :
  cfl_wait_for_event_boolean_fn float_to_int32 ct_node_data (image_tables [] [] []) h i ty ev data = Ret r -> rest_only h r.2.
Proof.
  unfold cfl_wait_for_event_boolean_fn. intros H. apply cbind_Ret in H as ([p|] & _ & H); [|done]. cbn [not_null] in H.
  destruct (ev =? CFL_INIT_EVENT); [|destruct (ev =? CFL_TERMINATE_EVENT)].
  - apply cbind_Ret in H as (q & E & H). apply malloc_rest in E. destruct q.1; [|done]. cbn [not_null] in H.
    apply cbind_Ret in H as (id & _ & H). apply cbind_Ret in H as (n & _ & [= <-]). eapply rest_trans; [exact E|]. eapply rest_trans; apply rest_set.
  - apply cbind_Ret in H as (h1 & E & [= <-]). destruct (nz _); [by apply free_rest in E|]. injection E as <-. apply rest_refl.
  - apply raise_if_Ret in H as [_ H]. destruct (ev =? _); injection H as <-; [apply rest_set|apply rest_refl].
Qed.
Lemma wait_init_rest (h : handle) i r :
  cfl_wait_init_one_shot_fn float_to_int32 ct_node_data (image_tables [] [] []) h i = Ret r -> rest_only h r.
Proof.
  unfold cfl_wait_init_one_shot_fn, first_time. intros H. apply cbind_Ret in H as ([] & _ & H); [injection H as <-; apply rest_refl|].
  apply cbind_Ret in H as (q & E & H). apply smart_rest in E. destruct q.1; [|done]. cbn [not_null] in H.
  do 4 (apply cbind_Ret in H as (? & _ & H)). injection H as <-. eapply rest_trans; [exact E|apply rest_set].
Qed.
(** Enabling links. *)
Lemma links_tame (f : handle -> Z -> cfl handle) who i h r : sized image h ->
  (forall h i r, f h i = Ret r -> tame h r) ->
  check_links (image_tables (A := A) [] [] []) who i (each (fun h link_id => check_link (image_tables (A := A) [] [] []) who link_id (f h link_id))
    (links_list (image_tables (A := A) [] [] []) i) h) = Ret r -> tame h r.
Proof.
  intros Hs Hf H. unfold check_links in H. do 3 (apply raise_if_Ret in H as [_ H]). revert H. apply (each_tame image); [|done].
  intros h1 j r1 _ H. unfold check_link in H. apply raise_if_Ret in H as [_ H]. by eapply Hf.
Qed.
Lemma one_shots_are_tame : Forall (fun f => forall h i r, sized image h -> f h i = Ret r -> tame h r) (one_shot_functions image).
Proof.
  assert (forall h : handle, tame h h) as Hrefl by done.
  repeat (apply Forall_cons; split); try (by apply Forall_nil);
    try (intros h i r Hs H; injection H as <-; first [done|apply rest_tame, rest_set]).
  - intros h i r Hs. apply links_tame; [done|]. intros h1 j r1. apply (enable_tame (image_tables [] [] [])).
  - intros h i r Hs. apply links_tame; [done|]. intros h1 j r1 H. destruct (nz _); [|by injection H as <-]. by apply (enable_tame (image_tables [] [] [])) in H.
  - intros h i r Hs H. by eapply rest_tame, wait_init_rest.
Qed.
Lemma booleans_are_tame : Forall (fun f => forall h i ty ev data r, sized image h -> f h i ty ev data = Ret r -> tame h r.2) (boolean_functions image).
Proof.
  repeat (apply Forall_cons; split); try (by apply Forall_nil); try (intros h i ty ev data r Hs H; injection H as <-; done).
  intros h i ty ev data r Hs H. by eapply rest_tame, wait_event_rest.
Qed.
Lemma call_boolean_tame k h i ty ev data r : sized image h -> call_boolean (call_tables hooks float_to_int32) k h i ty ev data = Ret r -> tame h r.2.
Proof.
  intros Hs H. unfold call_boolean in H. destruct (boolean_functions _ !! _) as [f|] eqn:Ef; [|done]. cbn [not_null] in H.
  by apply (Forall_lookup_1 _ _ _ _ booleans_are_tame Ef _ _ _ _ _ _ Hs H).
Qed.
Lemma call_one_shot_tame k h i r : sized image h -> call_one_shot (call_tables hooks float_to_int32) k h i = Ret r -> tame h r.
Proof.
  intros Hs H. unfold call_one_shot in H. destruct (one_shot_functions _ !! _) as [f|] eqn:Ef; [|done]. cbn [not_null] in H.
  by apply (Forall_lookup_1 _ _ _ _ one_shots_are_tame Ef _ _ _ Hs H).
Qed.
Lemma column_main_tame h a i ty ev data r : sized image h -> cfl_column_main_main_fn (call_tables hooks float_to_int32) h a i ty ev data = Ret r -> tame h r.2.
Proof.
  intros Hs H. unfold cfl_column_main_main_fn in H. destruct (negb _); [by injection H as <-|]. apply raise_if_Ret in H as [_ H].
  apply cbind_Ret in H as (q & E & H). apply (call_boolean_tame _ _ _ _ _ _ _ Hs) in E. destruct q.1; [by injection H as <-|].
  by apply cbind_Ret in H as (code & _ & [= <-]).
Qed.
Lemma wait_main_tame h a i ty ev data r : sized image h -> cfl_wait_main_fn (call_tables hooks float_to_int32) h a i ty ev data = Ret r -> tame h r.2.
Proof.
  intros Hs H. unfold cfl_wait_main_fn in H. apply cbind_Ret in H as (q & E & H). apply (call_boolean_tame _ _ _ _ _ _ _ Hs) in E.
  destruct q.1; [by injection H as <-|]. apply cbind_Ret in H as ([p|] & _ & H); [|done]. cbn [not_null] in H.
  destruct (_ =? 0); [by injection H as <-|]. destruct (_ =? ev); [|by injection H as <-].
  set (h1 := write p _ q.2) in *. assert (tame q.2 h1) as T1 by apply rest_tame, rest_set.
  destruct (_ <=? _); [|injection H as <-; by etrans]. apply cbind_Ret in H as (h2 & E2 & [= <-]).
  apply call_one_shot_tame in E2; [by do 2 (etrans; [done|])|]. eapply tame_sized; [eapply tame_sized; [exact Hs|exact E]|exact T1].
Qed.
Lemma image_tame : functions_tame image.
Proof.
  constructor; [|apply one_shots_are_tame|apply booleans_are_tame].
  repeat (apply Forall_cons; split); try (by apply Forall_nil); intros h a i ty ev data r Hs H;
    first [by injection H as <-|by eapply column_main_tame|by eapply wait_main_tame].
Qed.
End Tame.
