(* ===== verification/KbNodes.v ===== *)
(** The operations of the engine and of the node functions on a handle in the relation [KbServe.view],
    up to executing each kind of node of a column, a column and a knowledge base. *)
From S2P Require Import Prelude CflBase CflHeap CflArena CflEventQueue CtTreeWalker CflEngine CflTerminate CflExecute JsonDecoder CflBlackboard CflNodeFns CflImage CflStore KbApp KbServe.
From stdpp Require Import gmap.
#[local] Open Scope Z_scope.
#[local] Open Scope cfl_scope.

(** *** Operations on the view *)

Lemma omap_short {X Y} (f : X -> option Y) (l : list X) : (length (omap f l) <= length l)%nat.
Proof. induction l as [|x l IH]; [done|]. cbn. destruct (f x); cbn; lia. Qed.

Section Ops.
Context {A : Type} (hooks : app_hooks A) (float_to_int32 : Z -> Z).
Context (holds : CflHeapArenaSystem -> list (Z * Z) -> list Z -> Prop) `{Hstore : node_store waits sizeof_wait sizeof_wait_for_event holds}.
Context (e : CFL_EVENT_DATA_T) (lo cnt : Z) (fr : CFL_EVENT_QUEUE_T * Z * Z * list Z * Z * list Z * list Z * cfl_bb).
#[local] Abbreviation handle := (cfl_handle (cfl_runtime A)).
#[local] Abbreviation image := (g_chaintree_handle hooks float_to_int32).
#[local] Abbreviation vw := (view hooks float_to_int32 holds e lo cnt fr).
#[local] Abbreviation ok := (@waits_ok A holds).
#[local] Abbreviation in_window := (in_window lo cnt).
#[local] Abbreviation unmarked := (unmarked lo cnt).
#[local] Abbreviation stepped := (stepped hooks e).
#[local] Abbreviation served := (served hooks e).
#[local] Abbreviation goes := (goes hooks float_to_int32 holds e lo cnt fr).
#[local] Abbreviation wait_for_event := (cfl_wait_for_event_boolean_fn float_to_int32 ct_node_data (image_tables [] [] []) : boolean_function_t (cfl_runtime A)).

Lemma view_rest h s x st u : vw h s -> (exists ws live aux, ok x st ws live aux) -> user_handle x = u ->
  frame x = frame (rest h) -> vw (h <| rest := x |>) (s <| v_st := st |> <| v_user := u |>).
Proof using Type.
  intros [H1 H2 H3 H4 H5 H6 H7 H8 H9 H10] Hw Hu Hf. destruct h as [fl bk w ev ef ec ns ks kc km ck ml r]. destruct s.
  constructor; try assumption. cbn. cbn in Hf. by rewrite Hf.
Qed.
Lemma view_flag h s i v x : vw h s -> 0 <= i < 35 -> ubits v = x -> vw (set_flag i v h) (s <| v_fl ::= fun f => upd f i x |>).
Proof using Type.
  intros [H1 H2 H3 H4 H5 H6 H7 H8 H9 H10] Hi <-. destruct H1 as [(W1 & W2 & W3) Hlen]. destruct h as [fl bk w ev ef ec ns ks kc km ck ml r]. destruct s as [f0 st0 u0 n0].
  constructor; try assumption.
  - split; [done|]. by rewrite set_flag_len.
  - intros j Hj. change (v_fl _ j) with (upd f0 i (ubits v) j). unfold upd. destruct (Z.eqb_spec j i) as [-> |Hne].
    + rewrite flag_set_eq; [done|]. rewrite Hlen. exact Hi.
    + rewrite flag_set_ne by (lia || congruence). by apply H7.
Qed.
(** Only the values at the columns' nodes count. *)
Lemma view_ext h s s' : vw h s -> (forall i, 0 <= i < 35 -> v_fl s' i = v_fl s i) -> (forall c, c ∈ all_columns -> v_st s' (wait_of c) = v_st s (wait_of c)) ->
  v_user s' = v_user s -> v_count s' = v_count s -> vw h s'.
Proof using Type.
  intros [H1 H2 H3 H4 H5 H6 H7 H8 H9 H10] Ef Es Eu Ec. constructor; try assumption; [by rewrite Ec| | |by rewrite Eu].
  - intros i Hi. rewrite (Ef i Hi). by apply H7.
  - destruct H8 as (ws & live & aux & [Hh Hl Hw]). exists ws, live, aux. constructor; [done..|]. intros c Hc. rewrite (Es c Hc). by apply Hw.
Qed.
Lemma view_bit h s i b : vw h s -> 0 <= i < 35 -> Z.land b CT_FLAG_USER_MASK = b -> has (flag_of h i) b = has (v_fl s i) b.
Proof using Type. intros Hv Hi Hb. rewrite ubits_has by done. by rewrite (vw_flags _ _ _ _ _ _ _ _ _ Hv i Hi). Qed.

(** **** The wait *)

Lemma store_index_of h s c ws live aux : vw h s -> c ∈ all_columns -> ok (rest h) (v_st s) ws live aux ->
  cfl_allocate_state h (wait_of c) = Ret (match v_st s (wait_of c) with Some _ => true | None => false end).
Proof using Hstore.
  intros Hv Hc [Hh Hl Hw]. unfold cfl_allocate_state. destruct (ns_index _ _ _ _ Hh (wait_in c Hc)) as (i & -> & Ei). cbn [cbind].
  rewrite Ei. specialize (Hw c Hc). unfold wait_ok in Hw. by destruct (struct_of ws _), (v_st s _) as [[? ?]|].
Qed.
(** The struct of a wait that was started. *)
Lemma wait_ptr h s c left_ n : vw h s -> c ∈ all_columns -> v_st s (wait_of c) = Some (left_, n) ->
  exists ws live aux p a, ok (rest h) (v_st s) ws live aux /\ struct_of ws (wait_of c) = Some p /\ node_ptr h (wait_of c) = Ret (Some p) /\
    read h p = Some (CWait (mk_wait COMMAND_TIMEOUT CFL_SECOND_EVENT TIMEOUT_HANDLER true n a)) /\
    match left_ with
    | Some k => aux (wait_of c) = Some a /\ read h a = Some (CWaitForEvent (mk_wait_for (c_event c) k)) /\ a <> 0 /\ a <> p /\ a ∈ live
    | None => aux (wait_of c) = None
    end.
Proof using Hstore.
  intros Hv Hc Est. destruct (vw_waits _ _ _ _ _ _ _ _ _ Hv) as (ws & live & aux & Hok). pose proof Hok as [Hh Hl Hw].
  specialize (Hw c Hc). unfold wait_ok in Hw. rewrite Est in Hw. destruct (struct_of ws (wait_of c)) as [p|] eqn:Ep; [|done].
  destruct Hw as (a & Hm & Hleft). exists ws, live, aux, p, a. split; [done|]. split; [done|].
  split; [by apply (ns_ptr _ _ _ _ _ Hh (wait_in c Hc) Ep)|]. split; [done|]. destruct left_ as [k|]; [|done]. destruct Hleft as [Ea Ha].
  assert (a ∈ live) as Hal. { rewrite Hl. apply list_elem_of_omap. exists (wait_of c). split; [by apply wait_in|done]. }
  destruct (ns_distinct _ _ _ Hh) as [Hnd Hnz]. split; [done|]. split; [done|]. split.
  { rewrite Forall_forall in Hnz. apply Hnz, elem_of_app. by right. }
  split; [|done]. intros ->. apply NoDup_app in Hnd as (_ & Hd & _). apply (Hd p); [by eapply struct_of_ptrs|done].
Qed.
(** A store by one wait into its own memory. *)
Lemma view_write h s c x' v ws live aux ws' live' aux' : vw h s -> c ∈ all_columns -> ok (rest h) (v_st s) ws live aux ->
  holds (arena_system x') ws' live' -> live' ≡ₚ omap aux' waits ->
  (forall w, w <> wait_of c -> struct_of ws' w = struct_of ws w /\ aux' w = aux w) ->
  (forall q, ~ owns_ptr ws' aux' (wait_of c) q -> memory x' !! q = memory (rest h) !! q) ->
  wait_ok (memory x') (struct_of ws' (wait_of c)) (aux' (wait_of c)) (c_event c) v ->
  user_handle x' = user_handle (rest h) -> frame x' = frame (rest h) ->
  vw (h <| rest := x' |>) (s <| v_st ::= fun st => upd st (wait_of c) v |>).
Proof using Hstore.
  intros Hv Hc Hok Hh' Hl' Hsame Hmem Hwc Hu Hf.
  apply (view_ext _ (s <| v_st := upd (v_st s) (wait_of c) v |> <| v_user := v_user s |>)); [|by destruct s..].
  apply view_rest; [done| |by rewrite Hu, (vw_user _ _ _ _ _ _ _ _ _ Hv)|done].
  exists ws', live', aux'. apply (waits_upd holds (rest h) (v_st s) ws live aux c); try done.
  intros c' p Hc' Hne Ho. apply Hmem. intros Hq. apply Hne.
  assert (owns_ptr ws' aux' (wait_of c') p) as Ho'. { destruct (Hsame _ Hne) as [E1 E2]. unfold owns_ptr. by rewrite E1, E2. }
  by apply (owner_unique holds _ _ _ _ _ _ _ Hh' Hl' Hc' Hc Ho' Hq).
Qed.
Lemma wait_init h s c ms : vw h s -> c ∈ all_columns ->
  gives (cfl_wait_init_one_shot_fn float_to_int32 ct_node_data (image_tables ms [] []) h (wait_of c))
    (fun h' => vw h' (s <| v_st ::= fun st => upd st (wait_of c) (Some (default (None, 0) (st (wait_of c)))) |>)).
Proof using Hstore.
  intros Hv Hc. destruct (vw_waits _ _ _ _ _ _ _ _ _ Hv) as (ws & live & aux & Hok). unfold cfl_wait_init_one_shot_fn, first_time.
  rewrite (store_index_of h s c ws live aux Hv Hc Hok). cbn [cbind]. destruct (v_st s (wait_of c)) as [[left_ n]|] eqn:Est.
  { apply gives_ret. apply (view_ext _ _ _ Hv); try by destruct s. intros c' Hc'. destruct s. cbn in *. unfold upd.
    destruct (Z.eqb_spec (wait_of c') (wait_of c)) as [E|]; [|done]. by rewrite E, Est. }
  pose proof Hok as [Hh Hl Hw]. pose proof (Hw c Hc) as Hwc. unfold wait_ok in Hwc. rewrite Est in Hwc. destruct (struct_of ws (wait_of c)) as [?|] eqn:Ews; [done|].
  unfold cfl_smart_arena_alloc. destruct (ns_index _ _ _ _ Hh (wait_in c Hc)) as (i & -> & Ei). rewrite Ews in Ei. cbn [cbind]. rewrite Ei.
  destruct (ns_struct _ _ _ _ Hh (wait_in c Hc) Ews) as (p & s' & -> & Hh'). cbn [cbind fst snd not_null].
  destruct (wait_data float_to_int32 ms c Hc) as (-> & -> & -> & -> & _). cbn [cbind]. apply gives_ret.
  set (cl := CWait _). set (x' := rest h <| arena_system := s' |> <| memory ::= <[p := cl]> |>).
  assert (write p cl (set_arenas s' h) = h <| rest := x' |>) as -> by by destruct h.
  apply (view_ext _ (s <| v_st ::= fun st => upd st (wait_of c) (Some (None, 0)) |>)); [|by destruct s..| |by destruct s|by destruct s].
  2: { intros c' Hc'. destruct s. cbn in *. unfold upd. by destruct (_ =? _); rewrite ?Est. }
  assert (struct_of ((wait_of c, p) :: ws) (wait_of c) = Some p) as Ep by (by rewrite struct_of_cons, Z.eqb_refl).
  apply (view_write h s c x' _ ws live aux ((wait_of c, p) :: ws) live aux Hv Hc Hok Hh' Hl); try done.
  - intros w Hne. rewrite struct_of_cons. by rewrite (proj2 (Z.eqb_neq _ _)) by congruence.
  - intros q Hq. apply lookup_insert_ne. intros <-. apply Hq. by left.
  - rewrite Ep. exists 0. rewrite Hwc. split; [apply lookup_insert_eq|done].
Qed.

(** At the init event the object with the count is taken from the heap. *)
Lemma wait_event_init h s c n ty data : vw h s -> c ∈ all_columns -> v_st s (wait_of c) = Some (None, n) ->
  gives (wait_for_event h (wait_of c) ty CFL_INIT_EVENT data)
    (fun r => vw r.2 (s <| v_st ::= fun st => upd st (wait_of c) (Some (Some 1, n)) |>)).
Proof using Hstore.
  intros Hv Hc Est. destruct (wait_ptr h s c None n Hv Hc Est) as (ws & live & aux & p & a0 & Hok & Ep & Eptr & Hm & Ea).
  pose proof Hok as [Hh Hl Hw]. unfold cfl_wait_for_event_boolean_fn. rewrite Eptr. cbn [cbind not_null]. change (CFL_INIT_EVENT =? CFL_INIT_EVENT) with true. cbv iota.
  assert (zlen live < zlen waits) as Hfew.
  { pose proof (omap_upd aux (wait_of c) 0 waits waits_nodup (wait_in c Hc) Ea) as Hp. apply Permutation_length in Hp.
    pose proof (omap_short (upd aux (wait_of c) (Some 0)) waits). apply Permutation_length in Hl. unfold zlen. cbn [length] in Hp. lia. }
  destruct (ns_malloc _ _ _ Hh Hfew) as (a & hp & Em & Hh'). unfold heap_malloc, heap_of. rewrite Em. cbn [cbind fst snd not_null].
  destruct (wait_data (A := A) float_to_int32 [] c Hc) as (_ & _ & _ & _ & -> & ->). cbn [cbind]. apply gives_ret. cbn [snd].
  set (ca := CWaitForEvent _). set (w := mk_wait COMMAND_TIMEOUT CFL_SECOND_EVENT TIMEOUT_HANDLER true n a).
  assert (a <> p) as Hap.
  { intros ->. destruct (ns_distinct _ _ _ Hh') as [Hnd _]. apply NoDup_app in Hnd as (_ & Hd & _). apply (Hd p); [by eapply struct_of_ptrs|by left]. }
  assert (read_wait (write a ca (set_heap hp h)) p <| auxiliary_data := a |> = w) as ->.
  { unfold read_wait. assert (read (write a ca (set_heap hp h)) p = read h p) as ->; [|by rewrite Hm].
    unfold read. change (memory (rest (write a ca (set_heap hp h)))) with (<[a := ca]> (memory (rest h))). by rewrite lookup_insert_ne. }
  set (x1 := rest h <| arena_system ::= fun s => s <| as_heap := hp |> |> <| memory ::= <[a := ca]> |>).
  set (x' := x1 <| memory ::= <[p := CWait w]> |>).
  assert (write p (CWait w) (write a ca (set_heap hp h)) = h <| rest := x' |>) as -> by by destruct h as [fl bk wk ev ef ec ns ks kc km ck ml []].
  apply (view_write h s c x' _ ws live aux ws (a :: live) (upd aux (wait_of c) (Some a)) Hv Hc Hok Hh'); try done.
  - rewrite (omap_upd _ _ _ _ waits_nodup (wait_in c Hc) Ea). by rewrite Hl.
  - intros v Hne. split; [done|]. unfold upd. by rewrite (proj2 (Z.eqb_neq _ _)).
  - intros q Hq. change (memory x') with (<[p := CWait w]> (<[a := ca]> (memory (rest h)))).
    assert (p <> q) by (intros <-; apply Hq; by left). assert (a <> q) by (intros <-; apply Hq; right; unfold upd; by rewrite Z.eqb_refl).
    by rewrite !lookup_insert_ne.
  - change (memory x') with (<[p := CWait w]> (<[a := ca]> (memory (rest h)))). rewrite Ep. exists a. split; [apply lookup_insert_eq|].
    split; [unfold upd; by rewrite Z.eqb_refl|]. rewrite lookup_insert_ne by congruence. apply lookup_insert_eq.
Qed.
(** At the terminate event it is given back. *)
Lemma wait_event_term h s c k n ty data : vw h s -> c ∈ all_columns -> v_st s (wait_of c) = Some (Some k, n) ->
  gives (wait_for_event h (wait_of c) ty CFL_TERMINATE_EVENT data)
    (fun r => vw r.2 (s <| v_st ::= fun st => upd st (wait_of c) (Some (None, n)) |>)).
Proof using Hstore.
  intros Hv Hc Est. destruct (wait_ptr h s c (Some k) n Hv Hc Est) as (ws & live & aux & p & a & Hok & Ep & Eptr & Hm & Ea & Hma & Ha0 & Hap & Hal).
  pose proof Hok as [Hh Hl Hw]. unfold cfl_wait_for_event_boolean_fn. rewrite Eptr. cbn [cbind not_null].
  change (CFL_TERMINATE_EVENT =? CFL_INIT_EVENT) with false. change (CFL_TERMINATE_EVENT =? CFL_TERMINATE_EVENT) with true. cbv iota.
  unfold read_wait. rewrite Hm. cbn [auxiliary_data]. unfold nz. rewrite (proj2 (Z.eqb_neq _ _) Ha0). cbn [negb].
  destruct (ns_free _ _ _ _ Hh Hal) as (hp & Ef & Hh'). unfold heap_free, heap_of. rewrite Ef. cbn [cbind]. apply gives_ret. cbn [snd].
  set (x' := rest h <| arena_system ::= fun s => s <| as_heap := hp |> |>).
  assert (set_heap hp h = h <| rest := x' |>) as -> by by destruct h as [fl bk wk ev ef ec ns ks kc km ck ml []].
  destruct (ns_distinct _ _ _ Hh) as [Hnd _]. apply NoDup_app in Hnd as (_ & _ & Hnd).
  apply (view_write h s c x' _ ws live aux ws (without a live) (upd aux (wait_of c) None) Hv Hc Hok Hh'); try done.
  - apply (without_perm a live _ Hnd). rewrite Hl. exact (omap_clear _ _ _ _ waits_nodup (wait_in c Hc) Ea).
  - intros v Hne. split; [done|]. unfold upd. by rewrite (proj2 (Z.eqb_neq _ _)).
  - rewrite Ep. exists a. split; [exact Hm|]. unfold upd. by rewrite Z.eqb_refl.
Qed.
(** Any other event is compared. *)
Lemma wait_event_is h s c n ty ev data : vw h s -> c ∈ all_columns -> v_st s (wait_of c) = Some (Some 1, n) -> 2 <= ev ->
  gives (wait_for_event h (wait_of c) ty ev data)
    (fun r => r.1 = (ev =? c_event c) /\
       vw r.2 (if ev =? c_event c then s <| v_st ::= fun st => upd st (wait_of c) (Some (Some 0, n)) |> else s)).
Proof using Hstore.
  intros Hv Hc Est Hev. destruct (wait_ptr h s c (Some 1) n Hv Hc Est) as (ws & live & aux & p & a & Hok & Ep & Eptr & Hm & Ea & Hma & Ha0 & Hap & Hal).
  pose proof Hok as [Hh Hl Hw]. unfold cfl_wait_for_event_boolean_fn. rewrite Eptr. cbn [cbind not_null].
  change CFL_INIT_EVENT with 0. change CFL_TERMINATE_EVENT with 1. rewrite !(proj2 (Z.eqb_neq ev _)) by lia.
  unfold read_wait. rewrite Hm. cbn [auxiliary_data]. rewrite (proj2 (Z.eqb_neq _ _) Ha0). cbn [raise_if].
  unfold read_wait_for. rewrite Hma. cbn [wf_event_id wf_event_count].
  assert (u32 (c_event c) = c_event c) as ->. { clear -Hc. revert c Hc. rewrite <- Forall_forall. repeat constructor. }
  destruct (Z.eqb_spec ev (c_event c)) as [Eev|Hne]; apply gives_ret; cbn [fst snd]; [|by split].
  split; [done|]. set (cl := CWaitForEvent _). set (x' := rest h <| memory ::= <[a := cl]> |>).
  assert (write a cl h = h <| rest := x' |>) as -> by by destruct h.
  apply (view_write h s c x' _ ws live aux ws live aux Hv Hc Hok Hh Hl); try done.
  - intros q Hq. apply lookup_insert_ne. intros <-. apply Hq. by right.
  - rewrite Ep. exists a. change (memory x') with (<[a := cl]> (memory (rest h))).
    split; [by rewrite lookup_insert_ne|]. split; [done|]. apply lookup_insert_eq.
Qed.
(** The main function of a wait counts the time-out event. *)
Lemma wait_count h s c k n : vw h s -> c ∈ all_columns -> v_st s (wait_of c) = Some (Some k, n) ->
  exists p w, node_ptr h (wait_of c) = Ret (Some p) /\ read h p = Some (CWait w) /\
    timeout w = COMMAND_TIMEOUT /\ time_out_event w = CFL_SECOND_EVENT /\ error_function w = TIMEOUT_HANDLER /\ reset_flag w = true /\ event_count w = n /\
    forall n', vw (write p (CWait (w <| event_count := n' |>)) h) (s <| v_st ::= fun st => upd st (wait_of c) (Some (Some k, n')) |>).
Proof using Hstore.
  intros Hv Hc Est. destruct (wait_ptr h s c (Some k) n Hv Hc Est) as (ws & live & aux & p & a & Hok & Ep & Eptr & Hm & Ea & Hma & Ha0 & Hap & Hal).
  pose proof Hok as [Hh Hl Hw]. exists p, (mk_wait COMMAND_TIMEOUT CFL_SECOND_EVENT TIMEOUT_HANDLER true n a). do 7 (split; [done|]).
  intros n'. set (cl := CWait _). set (x' := rest h <| memory ::= <[p := cl]> |>).
  assert (write p cl h = h <| rest := x' |>) as -> by by destruct h.
  apply (view_write h s c x' _ ws live aux ws live aux Hv Hc Hok Hh Hl); try done.
  - intros q Hq. apply lookup_insert_ne. intros <-. apply Hq. by left.
  - rewrite Ep. exists a. change (memory x') with (<[p := cl]> (memory (rest h))).
    split; [apply lookup_insert_eq|]. split; [done|]. by rewrite lookup_insert_ne by congruence.
Qed.

(** **** Flags *)

Lemma view_has h s i b : vw h s -> 0 <= i < 35 -> Z.land b CT_FLAG_USER_MASK = b -> has (flag_of h i) b = has (v_fl s i) b.
Proof using Type. intros Hv Hi Hb. rewrite ubits_has by done. by rewrite (vw_flags _ _ _ _ _ _ _ _ _ Hv i Hi). Qed.
Lemma view_enable h s i ms os bs : vw h s -> 0 <= i < 35 ->
  gives (cfl_enable_node (image_tables ms os bs) h i) (fun h' => vw h' (s <| v_fl ::= fun f => upd f i 0x80 |>)).
Proof using Type.
  intros Hv Hi. unfold cfl_enable_node. change (node_count (image_tables ms os bs)) with 35. rewrite (proj2 (Z.leb_gt _ _)) by lia. cbn [raise_if].
  apply gives_ret, view_flag; [done..|]. by rewrite ubits_lor, ubits_without.
Qed.
Lemma view_disable_flag h s i : vw h s -> 0 <= i < 35 ->
  gives (cfl_disable_node_flag image h i) (fun h' => vw h' (s <| v_fl ::= fun f => upd f i 0 |>)).
Proof using Type.
  intros Hv Hi. unfold cfl_disable_node_flag. change (node_count image) with 35. rewrite (proj2 (Z.leb_gt _ _)) by lia. cbn [raise_if].
  apply gives_ret, view_flag; [done..|]. apply ubits_without.
Qed.
Lemma view_set_initialized h s i : vw h s -> 0 <= i < 35 ->
  gives (cfl_set_node_initialization_flag image h i) (fun h' => vw h' (s <| v_fl ::= fun f => upd f i (Z.lor (f i) 0x40) |>)).
Proof using Type.
  intros Hv Hi. unfold cfl_set_node_initialization_flag. change (node_count image) with 35. rewrite (proj2 (Z.leb_gt _ _)) by lia. cbn [raise_if].
  apply gives_ret, (view_flag h s i _ (Z.lor (v_fl s i) 0x40)); [done..|]. rewrite ubits_lor. by rewrite (vw_flags _ _ _ _ _ _ _ _ _ Hv i Hi).
Qed.

(** **** Tearing down *)

Lemma view_disable h s c j : vw h s -> c ∈ all_columns -> node_of c j -> (j = wait_of c -> armed_if_running c s) ->
  gives (cfl_disable_node image h j) (fun h' => vw h' (disabled c j s)).
Proof using Hstore.
  intros Hv Hc Hj Harm. destruct (all_columns_ok c Hc) as [Hr Hcol Hwait Hhan Hres]. cbn zeta in *. unfold node_of in Hj.
  assert (0 <= j < 35) as Hjr by lia.
  unfold cfl_disable_node. change (node_count image) with 35. rewrite (proj2 (Z.leb_gt _ _)) by lia. cbn [raise_if].
  change (Z.lor CT_FLAG_USER3 CT_FLAG_USER2) with 0xC0.
  assert (Z.land (flag_of h j) 0xC0 = Z.land (v_fl s j) 0xC0) as ->.
  { rewrite <- (vw_flags _ _ _ _ _ _ _ _ _ Hv j Hjr). unfold ubits. by rewrite <- Z.land_assoc. }
  assert (forall h1 st, vw h1 (s <| v_st := st |>) -> (if (j =? wait_of c) && (Z.land (v_fl s j) 0xC0 =? 0xC0) then disarm (v_st s) j else v_st s) = st ->
    gives (cfl_disable_node_flag image h1 j) (fun h' => vw h' (disabled c j s))) as Hend.
  { intros h1 st Hv1 Est. eapply gives_weaken; [by apply view_disable_flag|]. intros h2 Hv2. unfold disabled. rewrite Est. by destruct s. }
  destruct (Z.eqb_spec (Z.land (v_fl s j) 0xC0) 0xC0) as [Eb|Hnb]; cbn [negb].
  2: { apply (Hend h (v_st s)); [by destruct s|by rewrite andb_false_r]. }
  change (node_at image j) with (zget cnode0 image_nodes j).
  assert (j = c_node c \/ j = wait_of c \/ j = c_node c + 2 \/ j = c_node c + 3) as [-> |[-> |[-> | ->]]] by (unfold wait_of; lia).
  - destruct Hcol as (_ & _ & -> & ->). cbn. apply (Hend h (v_st s)); [by destruct s|]. by rewrite (proj2 (Z.eqb_neq _ _)) by (unfold wait_of; lia).
  - unfold wait_of in *. destruct Hwait as (_ & _ & _ & _ & -> & ->). change (3 =? 0) with false. change (11 =? 0) with false. cbv iota.
    change (boolean_functions image !! Z.to_nat 3) with (Some wait_for_event). change (one_shot_functions image !! Z.to_nat 11) with (Some (cfl_wait_term_one_shot_fn (A := A))).
    cbn [not_null]. destruct (Harm eq_refl Eb) as (k & n & Est). apply (gives_bind _ _ (fun h1 => vw h1 (s <| v_st := disarm (v_st s) (wait_of c) |>))).
    { eapply gives_bind; [by apply (wait_event_term h s c k n)|]. intros r Hr1. apply gives_ret. unfold disarm. unfold wait_of in *. rewrite Est. by destruct s. }
    intros h1 Hv1. cbn. apply (Hend h1 _ Hv1). unfold wait_of. by rewrite Z.eqb_refl.
  - destruct Hhan as (_ & _ & _ & _ & -> & ->). cbn. apply (Hend h (v_st s)); [by destruct s|]. by rewrite (proj2 (Z.eqb_neq _ _)) by (unfold wait_of; lia).
  - destruct Hres as (_ & _ & _ & _ & -> & ->). cbn. apply (Hend h (v_st s)); [by destruct s|]. by rewrite (proj2 (Z.eqb_neq _ _)) by (unfold wait_of; lia).
Qed.

Lemma view_set_flags h s fl bk f : vw h s -> zlen fl = 35 -> zlen bk = 35 -> (forall j, 0 <= j < 35 -> ubits (zget 0 fl j) = f j) ->
  vw (h <| h_flags := fl |> <| h_backup_flags := bk |>) (s <| v_fl := f |>).
Proof using Type.
  intros [H1 H2 H3 H4 H5 H6 H7 H8 H9 H10] Hfl Hbk Hf. destruct H1 as [((W1 & W1') & W2 & W3) Hlen]. destruct h as [fl0 bk0 w ev ef ec ns ks kc km ck ml r]. destruct s.
  constructor; done.
Qed.
Lemma view_mark h s c : vw h s -> c ∈ all_columns ->
  gives (nested_walk image (cfl_mark_node_for_termination image) h (c_node c)) (fun h' => vw h' (mark_col c s)).
Proof using Type.
  intros Hv Hc. destruct (column_tree (ct_main_functions hooks float_to_int32) (ct_one_shot_functions hooks float_to_int32) (ct_boolean_functions float_to_int32) c Hc) as (Ht & Hnd & Hd).
  pose proof (vw_sized _ _ _ _ _ _ _ _ _ Hv) as Hs. pose proof (vw_levels _ _ _ _ _ _ _ _ _ Hv) as [Hl1 Hl2].
  assert (nested_walk image (cfl_mark_node_for_termination image) h (root (col_tree c)) = _) as E by (apply nested_mark_tree; (done || rewrite Hd; lia)).
  change (root (col_tree c)) with (c_node c) in E. rewrite E. apply gives_ret. pose proof Hs as [(_ & _ & _) Hlen]. change (node_count image) with 35 in Hlen.
  apply view_set_flags; [done|by rewrite marked_len..|]. intros j Hj. rewrite marked_get by lia. unfold enabled. rewrite (view_has h s j) by done.
  destruct (_ && _); [rewrite ubits_lor|]; by rewrite <- (vw_flags _ _ _ _ _ _ _ _ _ Hv j Hj).
Qed.
Lemma view_disable_marked h s c j : vw h s -> c ∈ all_columns -> node_of c j -> (j = wait_of c -> armed_if_running c s) ->
  gives (disable_marked image h j) (fun h' => vw h' (unmark c j s)).
Proof using Hstore.
  intros Hv Hc Hj Harm. destruct (all_columns_ok c Hc) as [Hr _ _ _ _]. assert (0 <= j < 35) as Hjr by (unfold node_of in Hj; lia).
  unfold disable_marked, unmark. rewrite (view_has h s j) by done. destruct (has (v_fl s j) CT_FLAG_USER1); [|by apply gives_ret].
  set (f := Z.land (v_fl s j) (u8 (Z.lnot CT_FLAG_USER1))).
  assert (Z.land f 0xC0 = Z.land (v_fl s j) 0xC0) as Ef by (unfold f; by rewrite <- Z.land_assoc).
  assert (upd (v_fl s) j f j = f) as Ej by (unfold upd; by rewrite Z.eqb_refl).
  eapply gives_weaken.
  - apply (view_disable _ (s <| v_fl ::= fun g => upd g j f |>) c j); [|done..|].
    + apply view_flag; [done..|]. rewrite ubits_land. by rewrite (vw_flags _ _ _ _ _ _ _ _ _ Hv j Hjr).
    + intros -> Hb. apply (Harm eq_refl). rewrite <- Ef. destruct s. cbn in *. by rewrite <- Ej.
  - intros h' Hv'. apply (view_ext _ _ _ Hv'); destruct s; cbn in *; try done.
    + intros i _. unfold upd. by destruct (i =? j).
    + intros c' _. by rewrite Ej, Ef.
Qed.
Lemma each_app {H} (f : H -> Z -> cfl H) l1 l2 : forall h, each f (l1 ++ l2) h = cbind (each f l1 h) (each f l2).
Proof using Type. induction l1 as [|i l1 IH]; intros h; [done|]. cbn. destruct (f h i); [apply IH|done..]. Qed.
Lemma each_unmarked h s l : vw h s -> (forall j, j ∈ l -> 0 <= j < 35 /\ has (v_fl s j) CT_FLAG_USER1 = false) ->
  each (disable_marked image) l h = Ret h.
Proof using Type.
  intros Hv. induction l as [|j l IH]; intros Hl; [done|]. cbn [each]. unfold disable_marked at 1.
  destruct (Hl j) as [Hj Hb]; [apply list_elem_of_here|]. rewrite (view_has h s j), Hb by done. cbn [cbind]. apply IH. intros i Hi. apply Hl. by apply list_elem_of_further.
Qed.

Lemma unmark_fl_eq c i (s : vstate (A := A)) : v_fl (unmark c i s) i = if has (v_fl s i) CT_FLAG_USER1 then 0 else v_fl s i.
Proof using Type. unfold unmark. destruct (has _ _) eqn:E; [|done]. cbn. unfold upd. by rewrite Z.eqb_refl. Qed.
Lemma unmark_fl_ne c j i (s : vstate (A := A)) : i <> j -> v_fl (unmark c j s) i = v_fl s i.
Proof using Type. intros Hne. unfold unmark. destruct (has _ _); [|done]. cbn. unfold upd. by rewrite (proj2 (Z.eqb_neq _ _)). Qed.
Lemma unmark_st_ne c j (s : vstate (A := A)) : j <> wait_of c -> v_st (unmark c j s) = v_st s.
Proof using Type. intros Hne. unfold unmark. destruct (has _ _); [|done]. cbn. by rewrite (proj2 (Z.eqb_neq _ _)). Qed.
Lemma unmark_rest c j (s : vstate (A := A)) : v_user (unmark c j s) = v_user s /\ v_count (unmark c j s) = v_count s.
Proof using Type. unfold unmark. by destruct (has _ _). Qed.

Lemma mark_col_fl c (s : vstate (A := A)) i : v_fl (mark_col c s) i =
  if bool_decide (i ∈ ids (col_tree c)) && has (v_fl s i) CT_FLAG_USER3 then Z.lor (v_fl s i) CT_FLAG_USER1 else v_fl s i.
Proof using Type. by destruct s. Qed.
Lemma torn_is c (s : vstate (A := A)) : (forall j, node_of c j -> has (v_fl s j) CT_FLAG_USER1 = false) ->
  let s4 := unmark c (c_node c) (unmark c (c_node c + 1) (unmark c (c_node c + 2) (unmark c (c_node c + 3) (mark_col c s)))) in
  (forall i, v_fl s4 i = v_fl (torn c s) i) /\ v_st s4 = v_st (torn c s) /\ v_user s4 = v_user s /\ v_count s4 = v_count s.
Proof using Type.
  intros Hno s4.
  assert (forall i, node_of c i -> i ∈ ids (col_tree c)) as Hin.
  { intros i Hi. unfold node_of in Hi. cbn. rewrite !elem_of_cons, elem_of_nil. lia. }
  assert (forall i, node_of c i -> has (v_fl (mark_col c s) i) CT_FLAG_USER1 = has (v_fl s i) CT_FLAG_USER3) as Hmark.
  { intros i Hi. rewrite mark_col_fl, bool_decide_eq_true_2 by by apply Hin. cbn [andb]. destruct (has (v_fl s i) CT_FLAG_USER3); [apply has_mark|by apply Hno]. }
  assert (forall i, node_of c i -> (if has (v_fl (mark_col c s) i) CT_FLAG_USER1 then 0 else v_fl (mark_col c s) i) = v_fl (torn c s) i) as Hval.
  { intros i Hi. rewrite Hmark by done. unfold torn. cbn [v_fl]. rewrite mark_col_fl, bool_decide_eq_true_2 by by apply Hin. cbn [andb]. by destruct (has (v_fl s i) CT_FLAG_USER3). }
  split; [|split; [|split]].
  - intros i. unfold s4.
    destruct (decide (i = c_node c)) as [-> |]; [|destruct (decide (i = c_node c + 1)) as [-> |]; [|destruct (decide (i = c_node c + 2)) as [-> |]; [|destruct (decide (i = c_node c + 3)) as [-> |]]]];
      repeat first [rewrite unmark_fl_ne by lia|rewrite unmark_fl_eq]; try (apply Hval; unfold node_of; lia).
    assert (i ∉ ids (col_tree c)) as Hni by (cbn; rewrite !elem_of_cons, elem_of_nil; lia).
    rewrite mark_col_fl. unfold torn. cbn [v_fl]. by rewrite !bool_decide_eq_false_2.
  - unfold s4. rewrite unmark_st_ne by (unfold wait_of; lia). fold (wait_of c). unfold unmark at 1.
    rewrite !unmark_fl_ne by (unfold wait_of; lia). rewrite Hmark by (unfold node_of, wait_of; lia).
    assert (forall (b : bool) (x y : vstate (A := A)), v_st (if b then x else y) = if b then v_st x else v_st y) as -> by by intros [].
    unfold disabled at 1. cbn [v_st]. rewrite Z.eqb_refl, !unmark_st_ne by (unfold wait_of; lia). rewrite !unmark_fl_ne by (unfold wait_of; lia). rewrite mark_col_fl, bool_decide_eq_true_2 by (apply Hin; unfold node_of, wait_of; lia).
    cbn [andb]. unfold has, nz. destruct (Z.eqb_spec (Z.land (v_fl s (wait_of c)) CT_FLAG_USER3) 0) as [E0|E0]; cbn [negb].
    + assert (Z.land (v_fl s (wait_of c)) 0xC0 <> 0xC0) as Hn; [|unfold torn; cbn [v_st]; rewrite (proj2 (Z.eqb_neq _ _) Hn); by destruct s].
      intros E. apply (f_equal (fun x => Z.land x CT_FLAG_USER3)) in E. rewrite <- Z.land_assoc in E. change (Z.land 0xC0 CT_FLAG_USER3) with CT_FLAG_USER3 in E. by rewrite E0 in E.
    + rewrite land_lor_r. change (Z.land CT_FLAG_USER1 0xC0) with 0. rewrite Z.lor_0_r. by destruct s.
  - unfold s4. by rewrite !(proj1 (unmark_rest _ _ _)).
  - unfold s4. by rewrite !(proj2 (unmark_rest _ _ _)).
Qed.

(** The knowledge base's window, and a column in it. *)
Hypothesis Hwindow : 0 <= lo /\ 0 < cnt /\ lo + cnt <= 35.

Lemma window_end h s : vw h s -> kb_start_index h = lo /\ (kb_node_count h =? 0) = false /\ (u32 (-1 - kb_node_count h) <? lo) = false /\
  u32 (lo + kb_node_count h - 1) = lo + cnt - 1.
Proof using Hwindow.
  intros Hv. destruct (vw_window _ _ _ _ _ _ _ _ _ Hv) as [-> ->]. split; [done|].
  rewrite (proj2 (Z.eqb_neq _ _)) by lia. split; [done|]. assert (u32 (-1 - cnt) = 2 ^ 32 - 1 - cnt) as ->.
  { unfold u32. symmetry. apply (Z.mod_unique_pos _ _ (-1)); lia. }
  rewrite (proj2 (Z.ltb_ge _ _)) by lia. split; [done|]. apply u32_id. unfold fits. lia.
Qed.
Lemma view_terminate_column h s c : vw h s -> in_window c -> has (v_fl s (c_node c)) CT_FLAG_USER2 = true -> unmarked s ->
  armed_if_running c s -> gives (cfl_terminate_node_tree image h (c_node c)) (fun h' => vw h' (torn c s)).
Proof using Hstore Hwindow.
  intros Hv (Hc & Hlo & Hhi) Hrun Hno Harm. unfold cfl_terminate_node_tree. change (node_count image) with 35.
  rewrite (proj2 (Z.leb_gt _ _)) by lia. cbn [raise_if]. rewrite (view_has h s (c_node c)), Hrun by (done || lia). cbn [negb].
  assert ((links_of image (c_node c) =? 0) = false) as ->.
  { destruct (column_tree (A := A) (ct_main_functions hooks float_to_int32) (ct_one_shot_functions hooks float_to_int32) (ct_boolean_functions float_to_int32) c Hc) as ((_ & _ & E & _) & _).
    change (links_of image (c_node c) = 3) in E. by rewrite E. }
  eapply gives_bind; [by apply (view_mark h s c)|]. intros h1 Hv1. destruct (window_end h1 _ Hv1) as (-> & -> & -> & ->). cbn [raise_if].
  rewrite (proj2 (Z.leb_gt _ _)), (proj2 (Z.ltb_ge _ _)) by lia. cbn [raise_if].
  rewrite (down_last _ (c_node c)), (down_last _ (c_node c + 1)), (down_last _ (c_node c + 1 + 1)), (down_last _ (c_node c + 1 + 1 + 1)), <- !app_assoc by lia.
  replace (c_node c + 1 + 1 + 1) with (c_node c + 3) by lia. replace (c_node c + 1 + 1) with (c_node c + 2) by lia. cbn [app].
  rewrite each_app, (each_unmarked h1 (mark_col c s)); [|done|].
  2: { intros j Hj. apply elem_of_down in Hj. split; [lia|]. rewrite mark_col_fl. rewrite bool_decide_eq_false_2; [apply Hno; lia|].
       cbn. rewrite !elem_of_cons, elem_of_nil. lia. }
  cbn [cbind each].
  assert (forall j (s' : vstate (A := A)), v_fl s' (wait_of c) = v_fl (mark_col c s) (wait_of c) -> v_st s' = v_st s -> (j = wait_of c -> armed_if_running c s')) as Harm'.
  { intros j s' Ef Es _ Hb. rewrite Es. apply Harm. rewrite Ef, mark_col_fl in Hb. destruct (_ && _); [|done].
    rewrite land_lor_r in Hb. change (Z.land CT_FLAG_USER1 0xC0) with 0 in Hb. by rewrite Z.lor_0_r in Hb. }
  eapply gives_bind; [eapply view_disable_marked; [exact Hv1|exact Hc|unfold node_of; lia|apply Harm'; by destruct s]|]. intros h2 Hv2.
  eapply gives_bind; [eapply view_disable_marked; [exact Hv2|exact Hc|unfold node_of; lia|apply Harm'; [apply unmark_fl_ne; unfold wait_of; lia|rewrite unmark_st_ne by (unfold wait_of; lia); by destruct s]]|]. intros h3 Hv3.
  eapply gives_bind; [eapply view_disable_marked; [exact Hv3|exact Hc|unfold node_of; lia|apply Harm'; [rewrite !unmark_fl_ne by (unfold wait_of; lia); done|rewrite !unmark_st_ne by (unfold wait_of; lia); by destruct s]]|]. intros h4 Hv4.
  eapply gives_bind; [eapply view_disable_marked; [exact Hv4|exact Hc|unfold node_of; lia|unfold wait_of; lia]|]. intros h5 Hv5. apply gives_ret.
  destruct (torn_is c s) as (E1 & E2 & E3 & E4); [intros j Hj; apply Hno; unfold node_of in Hj; lia|].
  apply (view_ext _ _ _ Hv5); [intros i _; by rewrite E1|intros c' _; by rewrite E2|by rewrite E3|by rewrite E4].
Qed.

(** **** Executing a node *)

Lemma view_on h s : vw h s -> vw (h <| cfl_engine_flag := true |>) s.
Proof using Type. intros [H1 H2 H3 H4 H5 H6 H7 H8 H9 H10]. destruct h. by constructor. Qed.
Lemma view_exec h s (I : handle -> Prop) i main one bool Q : vw h s -> 0 <= i < 35 -> 0 <= v_count s < 1000 ->
  main_functions image !! Z.to_nat (main_function_index (node_at image i)) = Some main ->
  one_shot_functions image !! Z.to_nat (init_function_index (node_at image i)) = Some one ->
  boolean_functions image !! Z.to_nat (aux_function_index (node_at image i)) = Some bool ->
  has (v_fl s i) CT_FLAG_USER3 = true ->
  (forall h0, vw h0 (tick s) -> gives (if has (v_fl s i) CT_FLAG_USER2 then Ret h0 else initialize_node image one bool h0 i) I) ->
  (forall h1, I h1 -> event_data_ptr h1 = Some e) -> (forall h1, I h1 -> gives (r <- main h1 (aux_function_index (node_at image i)) i (event_type e) (event_id e) (ev_data e);;
     act_on image r.1 (r.2 <| cfl_engine_flag := true |>) i) Q) ->
  gives (cfl_execute_node image h i) Q.
Proof using Type.
  intros Hv Hi Hcount Em Eo Eb Hen Hinit Hev Hmain. unfold cfl_execute_node. change (node_count image) with 35.
  rewrite (proj2 (Z.leb_gt _ _)) by lia. cbn [raise_if]. cbv zeta. rewrite Em, Eo, Eb. cbn [not_null].
  unfold cfl_engine_node_is_enabled, cfl_engine_node_is_initialized. change (node_count image) with 35.
  rewrite (proj2 (Z.leb_gt _ _)) by lia. cbn [raise_if cbind]. rewrite (view_has h s i), Hen by done. cbn [negb].
  set (h0 := h <| cfl_node_execution_count ::= _ |>). assert (vw h0 (tick s)) as Hv0.
  { destruct Hv as [H1 H2 H3 H4 H5 H6 H7 H8 H9 H10]. destruct h. constructor; try done. cbn in *. rewrite H6. apply u32_id. unfold fits. lia. }
  rewrite !(view_has h0 (tick s) i) by done. change (v_fl (tick s)) with (v_fl s). rewrite Hen, andb_true_r.
  eapply gives_bind.
  { destruct (has (v_fl s i) CT_FLAG_USER2) eqn:E2; cbn [negb]; [|by apply Hinit]. specialize (Hinit h0 Hv0). exact Hinit. }
  intros h1 Hv1. rewrite (Hev h1 Hv1). cbn [not_null]. by apply Hmain.
Qed.
Lemma exec_disabled h s i (main : handle -> Z -> Z -> Z -> Z -> Z -> cfl (Z * handle)) (one : one_shot_function_t (cfl_runtime A))
    (bool : boolean_function_t (cfl_runtime A)) : vw h s -> 0 <= i < 35 -> has (v_fl s i) CT_FLAG_USER3 = false ->
  main_functions image !! Z.to_nat (main_function_index (node_at image i)) = Some main ->
  one_shot_functions image !! Z.to_nat (init_function_index (node_at image i)) = Some one ->
  boolean_functions image !! Z.to_nat (aux_function_index (node_at image i)) = Some bool ->
  cfl_execute_node image h i = Ret (CT_SKIP_CHILDREN, h).
Proof using Type.
  intros Hv Hi Hen Em Eo Eb. unfold cfl_execute_node. change (node_count image) with 35.
  rewrite (proj2 (Z.leb_gt _ _)) by lia. cbn [raise_if]. cbv zeta. rewrite Em, Eo, Eb. cbn [not_null].
  unfold cfl_engine_node_is_enabled. change (node_count image) with 35.
  rewrite (proj2 (Z.leb_gt _ _)) by lia. cbn [raise_if cbind]. by rewrite (view_has h s i), Hen by done.
Qed.
Lemma view_visit h s i : vw h s -> 0 <= i < 35 -> vw (visit i h) s.
Proof using Type.
  intros Hv Hi. eapply view_ext; [apply (view_flag h s i (Z.lor (flag_of h i) CT_FLAG_VISITED) (v_fl s i) Hv Hi)|..]; try by destruct s.
  - rewrite ubits_lor. rewrite (vw_flags _ _ _ _ _ _ _ _ _ Hv i Hi). change (Z.land CT_FLAG_VISITED CT_FLAG_USER_MASK) with 0. apply Z.lor_0_r.
  - intros j _. destruct s. cbn. unfold upd. by destruct (Z.eqb_spec j i) as [-> |].
Qed.

Lemma called_app u1 l1 u2 l2 u3 : called hooks e u1 l1 u2 -> called hooks e u2 l2 u3 -> called hooks e u1 (l1 ++ l2) u3.
Proof using Type. induction 1 as [|h k i f l u Hf Hev Hc IH]; intros H2; [done|]. cbn. apply (called_cons hooks e h k i f); [done..|]. by apply IH. Qed.
Lemma stepped_trans c l1 k1 l2 k2 s1 s2 s3 : stepped c l1 k1 s1 s2 -> stepped c l2 k2 s2 s3 -> stepped c (l1 ++ l2) (k1 + k2) s1 s3.
Proof using Type.
  intros [A1 A2 A3 A4] [B1 B2 B3 B4]. constructor; [intros; by rewrite B1, A1|intros; by rewrite B2, A2|by eapply called_app|lia].
Qed.

Ltac upds := unfold upd; rewrite ?Z.eqb_refl; repeat rewrite (proj2 (Z.eqb_neq _ _)) by (unfold wait_of, node_of in *; lia).
Lemma terminate_leaf h s c j : vw h s -> in_window c -> node_of c j -> j <> c_node c -> has (v_fl s j) CT_FLAG_USER2 = true ->
  (j = wait_of c -> armed_if_running c s) -> gives (cfl_terminate_node_tree image h j) (fun h' => vw h' (disabled c j s)).
Proof using Hstore Hwindow.
  intros Hv (Hc & Hlo & Hhi) Hj Hne Hrun Harm. destruct (all_columns_ok c Hc) as [Hr Hcol Hwait Hhan Hres]. cbn zeta in *. unfold cfl_terminate_node_tree.
  change (node_count image) with 35. rewrite (proj2 (Z.leb_gt _ _)) by (unfold node_of in Hj; lia). cbn [raise_if].
  rewrite (view_has h s j), Hrun by (done || unfold node_of in Hj; lia). cbn [negb].
  assert (links_of image j = 0) as ->; [|by apply view_disable].
  unfold links_of. change (node_at image j) with (zget cnode0 image_nodes j).
  assert (j = c_node c + 1 \/ j = c_node c + 2 \/ j = c_node c + 3) as [-> |[-> | ->]] by (unfold node_of in Hj; lia).
  - by destruct Hwait as (_ & -> & _).
  - by destruct Hhan as (_ & -> & _).
  - by destruct Hres as (_ & -> & _).
Qed.
(** A hook's call. *)
Lemma view_hook h s k i f : vw h s -> hook_of hooks k = Some f ->
  vw (set_rest (fun x => x <| user_handle := f h i |>) h) (mk_v (v_fl s) (v_st s) (f h i) (v_count s)) /\
  called hooks e (v_user s) [(k, i)] (f h i).
Proof using Type.
  intros Hv Hk. split.
  - destruct Hv as [H1 H2 H3 H4 H5 H6 H7 H8 H9 H10]. destruct h as [fl bk w ev ef ec ns ks kc km ck ml []]. constructor; try assumption; [|done].
    destruct H8 as (ws & live & aux & [Hh Hl Hw]). exists ws, live, aux. by constructor.
  - rewrite <- (vw_user _ _ _ _ _ _ _ _ _ Hv). apply (called_cons hooks e h k i f); [done|by apply (vw_event _ _ _ _ _ _ _ _ _ Hv)|constructor].
Qed.

Lemma wait_started h s c b n x : vw h (tick s) -> in_window c -> v_fl s (wait_of c) = b -> v_st s (wait_of c) = x -> before_wait b x n ->
  gives (if has b CT_FLAG_USER2 then Ret h
         else initialize_node image (cfl_wait_init_one_shot_fn float_to_int32 ct_node_data (image_tables [] [] [])) wait_for_event h (wait_of c))
    (fun h1 => vw h1 (waiting c n s)).
Proof using Hstore.
  intros Hv (Hc & _) Hb Hx Hbefore. destruct (all_columns_ok c Hc) as [Hr _ Hwait _ _]. cbn zeta in Hwait.
  destruct Hbefore as [(Eb & Hn)|[Eb Ex]]; rewrite Eb in *.
  - change (has 0x80 CT_FLAG_USER2) with false. cbv iota. unfold initialize_node. change (node_at image (wait_of c)) with (zget cnode0 image_nodes (c_node c + 1)).
    destruct Hwait as (_ & _ & _ & -> & -> & _). change (10 =? 0) with false. change (3 =? 0) with false. cbv iota.
    eapply gives_bind; [eapply (wait_init h); [exact Hv|exact Hc]|]. intros h1 Hv1.
    assert (default (None, 0) x = (None, n)) as Ed by (destruct Hn as [[-> ->]| ->]; done).
    eapply gives_bind.
    { eapply gives_bind; [eapply (wait_event_init h1); [exact Hv1|exact Hc|]|].
      - destruct s. cbn in *. unfold upd. rewrite Z.eqb_refl, Hx. by rewrite Ed.
      - intros [? h2] Hr1. apply gives_ret. cbn [snd] in *. exact Hr1. }
    intros h2 Hv2. eapply gives_weaken; [eapply view_set_initialized; [exact Hv2|unfold wait_of; lia]|].
    intros h3 Hv3. apply (view_ext _ _ _ Hv3); destruct s; cbn in *; try done.
    + intros i _. unfold upd. destruct (Z.eqb_spec i (wait_of c)) as [-> |]; [by rewrite Hb|done].
    + intros c' _. unfold upd. by destruct (_ =? _).
  - change (has 0xC0 CT_FLAG_USER2) with true. cbv iota. apply gives_ret. apply (view_ext _ _ _ Hv); try done.
    + intros i _. cbn. unfold upd. destruct (Z.eqb_spec i (wait_of c)) as [-> |]; [by rewrite Hb|done].
    + intros c' _. cbn. unfold upd. destruct (Z.eqb_spec (wait_of c') (wait_of c)) as [E|]; [|done]. by rewrite E, Hx, Ex.
Qed.
Lemma stepped_nodes c l k s fl st u n : called hooks e (v_user s) l u -> v_count s <= n <= v_count s + k ->
  (forall i, ~ node_of c i -> fl i = v_fl s i) -> (forall c', c' ∈ all_columns -> c' <> c -> st (wait_of c') = v_st s (wait_of c')) ->
  stepped c l k s (mk_v fl st u n).
Proof using Type. by constructor. Qed.
Lemma other_wait c c' : c ∈ all_columns -> c' ∈ all_columns -> c' <> c -> (wait_of c' =? wait_of c) = false.
Proof using Type. intros Hc Hc' Hne. apply Z.eqb_neq. intros E. by apply Hne, wait_inj. Qed.

Lemma act_disable h i : act_on image CFL_DISABLE h i = cbind (cfl_terminate_node_tree image h i) (fun h => Ret (CT_SKIP_CHILDREN, h)).
Proof using Type. done. Qed.
Lemma act_reset h i : act_on image CFL_RESET h i =
  cbind (cfl_terminate_node_tree image h (parent_index (node_at image i))) (fun h =>
    cbind (cfl_enable_node image h (parent_index (node_at image i))) (fun h => Ret (CT_CONTINUE, h))).
Proof using Type. done. Qed.
Lemma wait_commanded h s c n : vw h (waiting c n s <| v_st ::= fun st => upd st (wait_of c) (Some (Some 0, n)) |>) -> in_window c ->
  nodes_are s c 0xC0 (v_fl s (wait_of c)) 0x80 0x80 (v_st s (wait_of c)) ->
  gives (act_on image CFL_DISABLE h (wait_of c)) (goes c s 1 (CT_SKIP_CHILDREN, [], (0xC0, 0, 0x80, 0x80, Some (None, n)))).
Proof using Hstore Hwindow.
  intros Hv Hw [N1 _ N3 N4 _]. pose proof Hw as (Hc & _). destruct s as [fl st u m]. cbn in N1, N3, N4, Hv. rewrite act_disable. eapply gives_bind.
  { eapply terminate_leaf; [exact Hv|done|unfold node_of, wait_of; lia|unfold wait_of; lia| |].
    - cbn. upds. done.
    - intros _ _. exists 0, n. cbn. by upds. }
  intros h1 Hv1. apply gives_ret. split; [done|]. eexists. split; [exact Hv1|]. unfold disabled. cbn. upds. split.
  - apply stepped_nodes; cbn; [constructor|lia| |].
    + intros i Hi. by upds.
    + intros c' Hc' Hne. unfold disarm, upd. rewrite Z.eqb_refl. by rewrite (other_wait c c').
  - constructor; cbn; upds; try done. unfold disarm. by upds.
Qed.
(** The column starts over. *)
Lemma column_resets h s0 s c l x i : vw h s -> in_window c -> unmarked s0 -> stepped c l 1 s0 s -> parent_index (node_at image i) = c_node c ->
  v_fl s (c_node c) = 0xC0 -> armed_if_running c s -> (forall j, node_of c j -> v_fl s j = 0 \/ v_fl s j = 0x80 \/ v_fl s j = 0xC0) ->
  v_st (torn c s) (wait_of c) = x ->
  gives (act_on image CFL_RESET h i) (goes c s0 1 (CT_CONTINUE, l, (0x80, 0, 0, 0, x))).
Proof using Hstore Hwindow.
  intros Hv Hw Hno [S1 S2 S3 S4] Hp Hcol Harm Hfl Hx. pose proof Hw as (Hc & Hlo & Hhi). rewrite act_reset, Hp. eapply gives_bind.
  { eapply view_terminate_column; [exact Hv|done|by rewrite Hcol| |done].
    intros j Hj. destruct (decide (node_of c j)) as [Hin|Hout]; [by destruct (Hfl j Hin) as [-> |[-> | ->]]|]. rewrite S1 by done. by apply Hno. }
  intros h1 Hv1. eapply gives_bind; [eapply view_enable; [exact Hv1|unfold in_window in *; lia]|]. intros h2 Hv2. apply gives_ret.
  split; [done|]. eexists. split; [exact Hv2|].
  assert (forall j, node_of c j -> v_fl (torn c s) j = 0) as Htorn.
  { intros j Hj. unfold torn. cbn [v_fl]. rewrite bool_decide_eq_true_2.
    2: { cbn. rewrite !elem_of_cons, elem_of_nil. unfold node_of in Hj. lia. }
    by destruct (Hfl j Hj) as [-> |[-> | ->]]. }
  split.
  - constructor; [| |exact S3|exact S4].
    + intros j Hj. change (upd (v_fl (torn c s)) (c_node c) 0x80 j = v_fl s0 j). upds. unfold torn. cbn [v_fl].
      rewrite bool_decide_eq_false_2; [by apply S1|]. cbn. rewrite !elem_of_cons, elem_of_nil. unfold node_of in Hj. lia.
    + intros c' Hc' Hne. rewrite <- S2 by done. change (v_st (torn c s) (wait_of c') = v_st s (wait_of c')). unfold torn. cbn [v_st]. destruct (_ =? _); [|done]. unfold disarm, upd. by rewrite (other_wait c c').
  - assert (forall j, node_of c j -> j <> c_node c -> upd (v_fl (torn c s)) (c_node c) 0x80 j = 0) as Hupd by (intros j Hj Hne; upds; by apply Htorn).
    constructor; [by change (upd (v_fl (torn c s)) (c_node c) 0x80 (c_node c) = 0x80); upds|apply Hupd; unfold node_of, wait_of; lia..|done].
Qed.

(** Still waiting: the siblings are held back. *)
Lemma goes_halt h s c n n' l : vw h (mk_v (upd (v_fl s) (wait_of c) 0xC0) (upd (v_st s) (wait_of c) (Some (Some 1, n'))) (v_user s) (v_count s + 1)) ->
  c ∈ all_columns -> nodes_are s c 0xC0 n 0x80 0x80 l ->
  goes c s 1 (CT_STOP_SIBLINGS, [], (0xC0, 0xC0, 0x80, 0x80, Some (Some 1, n'))) (CT_STOP_SIBLINGS, h).
Proof using Type.
  intros Hv Hc [N1 N2 N3 N4 _]. split; [done|]. eexists. split; [exact Hv|]. split.
  - apply stepped_nodes; cbn; [constructor|lia|intros i Hi; by upds|]. intros c' Hc' Hne. unfold upd. by rewrite (other_wait c c').
  - constructor; cbn; by upds.
Qed.
(** A second counted: [p] leads to the wait's struct. *)
Lemma wait_seconds h s c n p w b x : vw h (waiting c n s) -> in_window c -> unmarked s -> nodes_are s c 0xC0 b 0x80 0x80 x ->
  read h p = Some (CWait w) -> timeout w = COMMAND_TIMEOUT -> error_function w = TIMEOUT_HANDLER -> reset_flag w = true -> event_count w = n ->
  (forall n', vw (write p (CWait (w <| event_count := n' |>)) h) (mk_v (upd (v_fl s) (wait_of c) 0xC0) (upd (v_st s) (wait_of c) (Some (Some 1, n'))) (v_user s) (v_count s + 1))) ->
  let w' := w <| event_count := u32 (n + 1) |> in
  gives (r <- (if timeout w' <=? event_count w' then
                 h <- call_one_shot (call_tables hooks float_to_int32) (error_function w') (write p (CWait w') h) (wait_of c);;
                 Ret (if reset_flag (read_wait h p) then CFL_RESET else CFL_TERMINATE, h)
               else Ret (CFL_HALT, write p (CWait w') h));;
         act_on image r.1 (r.2 <| cfl_engine_flag := true |>) (wait_of c))
    (goes c s 1 (if COMMAND_TIMEOUT <=? u32 (n + 1) then (CT_CONTINUE, [(TIMEOUT_HANDLER, wait_of c)], (0x80, 0, 0, 0, Some (None, u32 (n + 1))))
                 else (CT_STOP_SIBLINGS, [], (0xC0, 0xC0, 0x80, 0x80, Some (Some 1, u32 (n + 1)))))).
Proof using Hstore Hwindow.
  intros Hv Hw Hno Hn Em Et Ee Er Ec Hwr w'. assert (timeout w' = COMMAND_TIMEOUT) as -> by by destruct w. assert (event_count w' = u32 (n + 1)) as -> by by destruct w.
  assert (error_function w' = TIMEOUT_HANDLER) as -> by by destruct w. specialize (Hwr (u32 (n + 1))). fold w' in Hwr. set (h' := write p (CWait w') h) in *.
  pose proof Hw as (Hc & _). destruct (all_columns_ok c Hc) as [Hr _ Hwait _ _]. cbn zeta in Hwait.
  destruct (COMMAND_TIMEOUT <=? u32 (n + 1)).
  2: { cbn [cbind fst snd]. change (act_on image CFL_HALT ?h ?i) with (Ret (CT_STOP_SIBLINGS, h)). apply gives_ret. eapply goes_halt; [by apply view_on|done|exact Hn]. }
  destruct (view_hook h' _ TIMEOUT_HANDLER (wait_of c) (kb0_on_cmd_timeout hooks) Hwr eq_refl) as [Hv2 Hcall].
  set (h2 := set_rest _ h') in *. change (call_one_shot (call_tables hooks float_to_int32) TIMEOUT_HANDLER h' (wait_of c)) with (Ret h2). cbn [cbind].
  assert (reset_flag (read_wait h2 p) = true) as ->.
  { unfold read_wait, read. change (memory (rest h2)) with (<[p := CWait w']> (memory (rest h))). rewrite lookup_insert_eq. by destruct w. }
  cbn [fst snd]. destruct Hn as [N1 N2 N3 N4 _]. apply view_on in Hv2. cbn [v_fl v_st v_count v_user] in Hv2, Hcall. eapply column_resets; [exact Hv2|done|done| | | | | |].
  - apply stepped_nodes; [exact Hcall|lia|intros i Hi; by upds|]. intros c' Hc' Hne. unfold upd. by rewrite (other_wait c c').
  - apply Hwait.
  - cbn. by upds.
  - intros _. exists 1, (u32 (n + 1)). cbn. by upds.
  - intros j Hj. assert (j = c_node c \/ j = wait_of c \/ j = c_node c + 2 \/ j = c_node c + 3) as [-> |[-> |[-> | ->]]] by (unfold wait_of, node_of in *; lia);
      cbn; upds; rewrite ?N1, ?N3, ?N4; auto.
  - unfold torn. cbn. upds. change (Z.land 0xC0 0xC0 =? 0xC0) with true. unfold disarm. by upds.
Qed.

Lemma wait_runs h s c n b x : vw h (waiting c n s) -> in_window c -> unmarked s -> nodes_are s c 0xC0 b 0x80 0x80 x -> 2 <= event_id e ->
  gives (r <- cfl_wait_main_fn (call_tables hooks float_to_int32) h 3 (wait_of c) (event_type e) (event_id e) (ev_data e);;
         act_on image r.1 (r.2 <| cfl_engine_flag := true |>) (wait_of c)) (goes c s 1 (wait_out (event_id e) c n)).
Proof using Hstore Hwindow.
  intros Hv Hw Hno Hn Hev. pose proof Hw as (Hc & _).
  assert (v_st (waiting c n s) (wait_of c) = Some (Some 1, n)) as Est by (cbn; unfold upd; by rewrite Z.eqb_refl).
  unfold cfl_wait_main_fn, call_boolean. change (boolean_functions (call_tables hooks float_to_int32) !! Z.to_nat 3) with (Some wait_for_event). cbn [not_null].
  destruct (wait_event_is h _ c n (event_type e) (event_id e) (ev_data e) Hv Hc Est Hev) as ([b1 h1] & -> & Eb & Hv1). cbn [fst snd] in *. cbn [cbind fst snd].
  rewrite Eb. unfold wait_out. destruct (event_id e =? c_event c) eqn:Eev.
  { cbn [cbind fst snd]. eapply wait_commanded; [by apply view_on|done|]. destruct Hn as [N1 N2 N3 N4 N5]. by constructor. }
  destruct (wait_count h1 _ c 1 n Hv1 Hc Est) as (p & w & -> & Em & Et & Ete & Eef & Erf & Eec & Hwr). cbn [cbind not_null].
  unfold read_wait at 1 2. rewrite Em, Et. change (COMMAND_TIMEOUT =? 0) with false. cbv iota. rewrite Ete, (Z.eqb_sym CFL_SECOND_EVENT).
  destruct (event_id e =? CFL_SECOND_EVENT).
  2: { cbn [cbind fst snd]. change (act_on image CFL_HALT ?h ?i) with (Ret (CT_STOP_SIBLINGS, h)). apply gives_ret. eapply goes_halt; [|done|exact Hn]. by apply view_on. }
  assert (read_wait h1 p = w) as Erw by (unfold read_wait; by rewrite Em). rewrite Erw, Eec. cbv zeta.
  eapply (wait_seconds h1 s c n p w b x); try done.
  intros n'. apply (view_ext _ _ _ (Hwr n')); try by destruct s. intros c' _. destruct s. cbn. unfold upd. by destruct (wait_of c' =? wait_of c).
Qed.
Lemma exec_wait h s c b x n : vw h s -> in_window c -> unmarked s -> 0 <= v_count s < 1000 -> 2 <= event_id e ->
  nodes_are s c 0xC0 b 0x80 0x80 x -> before_wait b x n ->
  gives (cfl_execute_node image h (wait_of c)) (goes c s 1 (wait_out (event_id e) c n)).
Proof using Hstore Hwindow.
  intros Hv Hw Hno Hcount Hev Hn Hbefore. pose proof Hw as (Hc & _). destruct (all_columns_ok c Hc) as [Hr _ Hwait _ _]. cbn zeta in Hwait.
  destruct Hwait as (_ & _ & Em & Ei & Ea & _). pose proof Hn as [_ N2 _ _ N5].
  eapply (view_exec h s (fun h1 => vw h1 (waiting c n s)) (wait_of c)); try done; change (node_at image (wait_of c)) with (zget cnode0 image_nodes (c_node c + 1)).
  - unfold wait_of. lia.
  - rewrite Em. reflexivity.
  - rewrite Ei. reflexivity.
  - rewrite Ea. reflexivity.
  - rewrite N2. by destruct Hbefore as [[-> _]|[-> _]].
  - intros h0 Hv0. rewrite N2. by eapply wait_started.
  - intros h1 Hv1. by apply (vw_event _ _ _ _ _ _ _ _ _ Hv1).
  - intros h1 Hv1. rewrite Ea. by eapply wait_runs.
Qed.

Lemma handler_of c : c ∈ all_columns -> exists f, hook_of hooks (c_handler c) = Some f /\
  one_shot_functions image !! Z.to_nat (c_handler c) = Some (user_fn f) /\ (c_handler c =? 0) = false.
Proof using Type. revert c. rewrite <- Forall_forall. repeat constructor; by eexists. Qed.
Lemma exec_handler h s c x : vw h s -> in_window c -> 0 <= v_count s < 1000 -> nodes_are s c 0xC0 0 0x80 0x80 x ->
  gives (cfl_execute_node image h (c_node c + 2))
    (goes c s 1 (CT_SKIP_CHILDREN, [(c_handler c, c_node c + 2)], (0xC0, 0, 0, 0x80, x))).
Proof using Hstore Hwindow.
  intros Hv Hw Hcount [N1 N2 N3 N4 N5]. pose proof Hw as (Hc & _). destruct (all_columns_ok c Hc) as [Hr _ _ Hhan _]. cbn zeta in Hhan.
  destruct Hhan as (_ & _ & Em & Ei & Ea & _). destruct (handler_of c Hc) as (f & Hf & Ef & Enz).
  eapply (view_exec h s (fun h1 => exists u, called hooks e (v_user s) [(c_handler c, c_node c + 2)] u /\
    vw h1 (mk_v (upd (v_fl s) (c_node c + 2) 0xC0) (v_st s) u (v_count s + 1))) (c_node c + 2)); try done; try change (node_at image (c_node c + 2)) with (zget cnode0 image_nodes (c_node c + 2)).
  - lia.
  - rewrite Em. reflexivity.
  - rewrite Ei. exact Ef.
  - rewrite Ea. reflexivity.
  - by rewrite N3.
  - intros h0 Hv0. rewrite N3. change (has 0x80 CT_FLAG_USER2) with false. cbv iota. unfold initialize_node.
    change (node_at image (c_node c + 2)) with (zget cnode0 image_nodes (c_node c + 2)). rewrite Ei, Ea, Enz. change (0 =? 0) with true. cbv iota.
    unfold user_fn. cbn [cbind]. destruct (view_hook h0 _ (c_handler c) (c_node c + 2) f Hv0 Hf) as [Hv1 Hcall].
    eapply gives_weaken; [eapply view_set_initialized; [exact Hv1|lia]|]. intros h1 Hv2. eexists. split; [exact Hcall|].
    apply (view_ext _ _ _ Hv2); try done. intros i _. cbn. unfold upd. destruct (Z.eqb_spec i (c_node c + 2)) as [-> |]; [by rewrite N3|done].
  - intros h1 (u & _ & Hv1). by apply (vw_event _ _ _ _ _ _ _ _ _ Hv1).
  - intros h1 (u & Hcall & Hv1). unfold cfl_disable_main_fn. cbn [cbind fst snd]. rewrite act_disable. eapply gives_bind.
    { eapply (terminate_leaf _ _ c); [by apply view_on|done|unfold node_of; lia|lia| |unfold wait_of; lia]. cbn. by upds. }
    intros h2 Hv2. apply gives_ret. split; [done|]. eexists. split; [exact Hv2|]. unfold disabled. cbn. upds. cbn [andb]. split.
    + apply stepped_nodes; [done|cbn; lia|intros i Hi; by upds|done].
    + constructor; cbn; by upds.
Qed.
Lemma exec_reset h s c n : vw h s -> in_window c -> unmarked s -> 0 <= v_count s < 1000 -> nodes_are s c 0xC0 0 0 0x80 (Some (None, n)) ->
  gives (cfl_execute_node image h (c_node c + 3)) (goes c s 1 (CT_CONTINUE, [], (0x80, 0, 0, 0, Some (None, n)))).
Proof using Hstore Hwindow.
  intros Hv Hw Hno Hcount [N1 N2 N3 N4 N5]. pose proof Hw as (Hc & _). destruct (all_columns_ok c Hc) as [Hr _ _ _ Hres]. cbn zeta in Hres.
  destruct Hres as (Ep & _ & Em & Ei & Ea & _).
  eapply (view_exec h s (fun h1 => vw h1 (mk_v (upd (v_fl s) (c_node c + 3) 0xC0) (v_st s) (v_user s) (v_count s + 1))) (c_node c + 3)); try done;
    try change (node_at image (c_node c + 3)) with (zget cnode0 image_nodes (c_node c + 3)).
  - lia.
  - rewrite Em. reflexivity.
  - rewrite Ei. reflexivity.
  - rewrite Ea. reflexivity.
  - by rewrite N4.
  - intros h0 Hv0. rewrite N4. change (has 0x80 CT_FLAG_USER2) with false. cbv iota. unfold initialize_node.
    change (node_at image (c_node c + 3)) with (zget cnode0 image_nodes (c_node c + 3)). rewrite Ei, Ea. change (0 =? 0) with true. cbv iota. cbn [cbind].
    eapply gives_weaken; [eapply view_set_initialized; [exact Hv0|lia]|]. intros h1 Hv2.
    apply (view_ext _ _ _ Hv2); try done. intros i _. cbn. unfold upd. destruct (Z.eqb_spec i (c_node c + 3)) as [-> |]; [by rewrite N4|done].
  - intros h1 Hv1. by apply (vw_event _ _ _ _ _ _ _ _ _ Hv1).
  - intros h1 Hv1. unfold cfl_reset_main_fn. cbn [cbind fst snd]. apply view_on in Hv1. eapply column_resets; [exact Hv1|done|done| |done| | | |].
    + apply stepped_nodes; [constructor|cbn; lia|intros i Hi; by upds|done].
    + cbn. by upds.
    + intros Hb. cbn in Hb. revert Hb. upds. by rewrite N2.
    + intros j Hj. assert (j = c_node c \/ j = wait_of c \/ j = c_node c + 2 \/ j = c_node c + 3) as [-> |[-> |[-> | ->]]] by (unfold wait_of, node_of in *; lia);
        cbn; upds; rewrite ?N1, ?N2, ?N3; auto.
    + unfold torn. cbn [v_fl v_st]. unfold upd. rewrite (proj2 (Z.eqb_neq (wait_of c) _)) by (unfold wait_of; lia). rewrite N2. change (Z.land 0 0xC0 =? 0xC0) with false. exact N5.
Qed.

(** The column runs: its children are enabled, on the first visit, and then visited. *)
Lemma check_link_ok {B} ms os bs who i (k : cfl B) : i < 35 -> check_link (image_tables (A := A) ms os bs) who i k = k.
Proof using Type. intros Hi. unfold check_link. change (node_count (image_tables ms os bs)) with 35. by rewrite (proj2 (Z.leb_gt _ _)). Qed.
Lemma column_inits h s c : vw h s -> in_window c ->
  gives (cfl_column_init_one_shot_fn (image_tables [] [] []) h (c_node c))
    (fun h' => vw h' (mk_v (upd (upd (upd (v_fl s) (c_node c + 1) 0x80) (c_node c + 2) 0x80) (c_node c + 3) 0x80) (v_st s) (v_user s) (v_count s))).
Proof using Hwindow.
  intros Hv (Hc & Hlo & Hhi). destruct (column_links (A := A) [] [] [] c Hc) as (El & Ec & _). unfold cfl_column_init_one_shot_fn, cfl_enable_all_nodes.
  rewrite Ec, El. cbn [each]. rewrite check_link_ok by lia. eapply gives_bind; [eapply view_enable; [exact Hv|lia]|]. intros h1 Hv1.
  rewrite check_link_ok by lia. eapply gives_bind; [eapply view_enable; [exact Hv1|lia]|]. intros h2 Hv2.
  rewrite check_link_ok by lia. eapply gives_bind; [eapply view_enable; [exact Hv2|lia]|]. intros h3 Hv3. apply gives_ret. by destruct s.
Qed.
Lemma is_enabled h s i ms os bs : vw h s -> 0 <= i < 35 -> has (v_fl s i) CT_FLAG_USER3 = true ->
  cfl_engine_node_is_enabled (image_tables ms os bs) h i = Ret true.
Proof using Type.
  intros Hv Hi Hb. unfold cfl_engine_node_is_enabled. change (node_count (image_tables ms os bs)) with 35. rewrite (proj2 (Z.leb_gt _ _)) by lia. cbn [raise_if].
  by rewrite (view_has h s i), Hb.
Qed.
(** A parent whose first child is enabled goes on. *)
Lemma parent_goes_on h s aux i child kids : vw h s -> 0 <= i < 35 -> 0 <= child < 35 -> has (v_fl s child) CT_FLAG_USER3 = true ->
  (aux = 1 \/ aux = 2) -> links_list (call_tables hooks float_to_int32) i = child :: kids ->
  (forall B who (k : cfl B), check_links (call_tables hooks float_to_int32) who i k = k) ->
  cfl_column_main_main_fn (call_tables hooks float_to_int32) h aux i (event_type e) (event_id e) (ev_data e) = Ret (CFL_CONTINUE, h).
Proof using Type.
  intros Hv Hi Hch Hen Haux El Ec. unfold cfl_column_main_main_fn. destruct (negb _); [done|]. change (node_count (call_tables hooks float_to_int32)) with 35.
  rewrite (proj2 (Z.leb_gt _ _)) by lia. cbn [raise_if].
  assert (call_boolean (call_tables hooks float_to_int32) aux h i (event_type e) (event_id e) (ev_data e) = Ret (false, h)) as -> by by destruct Haux as [-> | ->].
  cbn [cbind fst snd]. rewrite Ec, El. cbn [any_child]. unfold call_tables. rewrite check_link_ok by lia. by rewrite (is_enabled h s child).
Qed.

Lemma exec_column h s c a b d r x : vw h s -> in_window c -> 0 <= v_count s < 1000 -> nodes_are s c a b d r x -> before_column a b d r ->
  gives (cfl_execute_node image h (c_node c)) (goes c s 1 (CT_CONTINUE, [], (0xC0, if a =? 0x80 then 0x80 else 0xC0, 0x80, 0x80, x))).
Proof using Hwindow.
  intros Hv Hw Hcount [N1 N2 N3 N4 N5] Hb. pose proof Hw as (Hc & Hlo & Hhi). destruct (all_columns_ok c Hc) as [Hr Hcol _ _ _].
  destruct Hcol as (Em & Ei & Ea & _). set (b' := if a =? 0x80 then 0x80 else 0xC0).
  set (s1 := mk_v (upd (upd (upd (upd (v_fl s) (c_node c + 1) b') (c_node c + 2) 0x80) (c_node c + 3) 0x80) (c_node c) 0xC0) (v_st s) (v_user s) (v_count s + 1)).
  assert (a = 0x80 \/ a = 0xC0) as Ha by (destruct Hb as [[= -> _ _ _]|[= -> _ _ _]]; auto).
  eapply (view_exec h s (fun h1 => vw h1 s1) (c_node c)); try done; try change (node_at image (c_node c)) with (zget cnode0 image_nodes (c_node c)).
  - lia.
  - rewrite Em. reflexivity.
  - rewrite Ei. reflexivity.
  - rewrite Ea. reflexivity.
  - rewrite N1. by destruct Ha as [-> | ->].
  - intros h0 Hv0. rewrite N1. destruct Hb as [E|E]; injection E as -> -> -> ->.
    + change (has 0x80 CT_FLAG_USER2) with false. cbv iota. unfold initialize_node. change (node_at image (c_node c)) with (zget cnode0 image_nodes (c_node c)).
      rewrite Ei, Ea. change (6 =? 0) with false. change (1 =? 0) with false. cbv iota.
      eapply gives_bind; [by eapply column_inits|]. intros h1 Hv1. cbn [cbind]. eapply gives_weaken; [eapply view_set_initialized; [exact Hv1|lia]|].
      intros h2 Hv2. apply (view_ext _ _ _ Hv2); try done. intros i _. cbn. unfold upd.
      destruct (Z.eqb_spec i (c_node c)) as [-> |]; [|done]. rewrite !(proj2 (Z.eqb_neq (c_node c) _)) by lia. by rewrite N1.
    + change (has 0xC0 CT_FLAG_USER2) with true. cbv iota. apply gives_ret. apply (view_ext _ _ _ Hv0); try done. intros i _. cbn. unfold upd.
      unfold wait_of in N2. subst b'.
      do 4 (match goal with |- (if ?i =? ?j then _ else _) = _ => destruct (Z.eqb_spec i j) as [-> |]; [done|] end). done.
  - intros h1 Hv1. by apply (vw_event _ _ _ _ _ _ _ _ _ Hv1).
  - intros h1 Hv1. rewrite Ea. destruct (column_links (A := A) [] (ct_one_shot_functions hooks float_to_int32) (ct_boolean_functions float_to_int32) c Hc) as (El & Ec & _).
    rewrite (parent_goes_on h1 s1 1 (c_node c) (c_node c + 1) [c_node c + 2; c_node c + 3]); try done; [|lia..| |auto].
    2: { subst s1. cbn. unfold upd. rewrite !(proj2 (Z.eqb_neq (c_node c + 1) _)), Z.eqb_refl by lia. subst b'. by destruct (a =? 0x80). }
    cbn [cbind fst snd]. change (act_on image CFL_CONTINUE ?h ?i) with (Ret (CT_CONTINUE, h)). apply gives_ret. split; [done|].
    exists s1. split; [by apply view_on|]. split.
    + apply stepped_nodes; [constructor|lia|intros i Hi; unfold node_of in Hi; upds; done|done].
    + unfold wait_of in *. constructor; cbn; upds; done.
Qed.

(** **** A column *)

(** **** A column *)

Lemma flag_unmarked f : flag_value f -> has f CT_FLAG_USER1 = false.
Proof using Type. by intros [-> |[-> | ->]]. Qed.
Lemma unmarked_after c l k s s' a b d r x : unmarked s -> stepped c l k s s' -> nodes_are s' c a b d r x ->
  flag_value a -> flag_value b -> flag_value d -> flag_value r -> unmarked s'.
Proof using Type.
  intros Hno [S1 _ _ _] [N1 N2 N3 N4 _] Ha Hb Hd Hr i Hi. destruct (decide (node_of c i)) as [Hin|Hout]; [|rewrite S1 by done; by apply Hno].
  assert (i = c_node c \/ i = wait_of c \/ i = c_node c + 2 \/ i = c_node c + 3) as [-> |[-> |[-> | ->]]] by (unfold wait_of, node_of in *; lia);
    rewrite ?N1, ?N2, ?N3, ?N4; by apply flag_unmarked.
Qed.
(** A leaf that is not enabled is left out. *)
Lemma leaf_off h s c j : vw h s -> in_window c -> j = c_node c + 2 \/ j = c_node c + 3 -> v_fl s j = 0 ->
  exists h', interpret image (Node j []) h = Ret (Next, h') /\ vw h' s.
Proof using Type.
  intros Hv (Hc & _) Hj H0. destruct (all_columns_ok c Hc) as [Hr _ _ Hhan Hres]. cbn zeta in *. destruct (handler_of c Hc) as (f & Hf & Ef & Enz).
  assert (0 <= j < 35) as Hjr by lia. exists (visit j h). pose proof (view_visit h s j Hv Hjr) as Hv1. split; [|done]. cbn [interpret].
  assert (cfl_execute_node image (visit j h) j = Ret (CT_SKIP_CHILDREN, visit j h)) as ->; [|done].
  destruct Hj as [-> | ->].
  - destruct Hhan as (_ & _ & Em & Ei & Ea & _). eapply exec_disabled; [exact Hv1|done|by rewrite H0|..];
      change (node_at image (c_node c + 2)) with (zget cnode0 image_nodes (c_node c + 2)); [rewrite Em; reflexivity|rewrite Ei; exact Ef|rewrite Ea; reflexivity].
  - destruct Hres as (_ & _ & Em & Ei & Ea & _). eapply exec_disabled; [exact Hv1|done|by rewrite H0|..];
      change (node_at image (c_node c + 3)) with (zget cnode0 image_nodes (c_node c + 3)); [rewrite Em|rewrite Ei|rewrite Ea]; reflexivity.
Qed.
(** A node's execution within the walk. *)
Lemma interpret_leaf h i rc h' : cfl_execute_node image (visit i h) i = Ret (rc, h') -> rc = CT_CONTINUE \/ rc = CT_SKIP_CHILDREN \/ rc = CT_STOP_SIBLINGS ->
  interpret image (Node i []) h = Ret (match rc with CT_STOP_SIBLINGS => StopSiblings | _ => Next end, h').
Proof using Type. intros E H. cbn [interpret]. rewrite E. by destruct H as [-> |[-> | ->]]. Qed.

Lemma stepped_weaken c l k k' s s' : stepped c l k s s' -> k <= k' -> stepped c l k' s s'.
Proof using Type. intros [S1 S2 S3 S4] Hk. constructor; (done || lia). Qed.
(** The command's event came: the handler runs, then the column is reset. *)
Lemma after_command h s c n : vw h s -> in_window c -> unmarked s -> 0 <= v_count s < 950 -> nodes_are s c 0xC0 0 0x80 0x80 (Some (None, n)) ->
  exists h' s', dfs_seq (interpret image) [Node (c_node c + 2) []; Node (c_node c + 3) []] h = Ret (Next, h') /\ vw h' s' /\
    stepped c [(c_handler c, c_node c + 2)] 2 s s' /\ nodes_are s' c 0x80 0 0 0 (Some (None, n)).
Proof using Hstore Hwindow.
  intros Hv Hw Hno Hcount Hn. pose proof Hw as (Hc & _). destruct (all_columns_ok c Hc) as [Hr _ _ _ _].
  pose proof (view_visit h s (c_node c + 2) Hv ltac:(lia)) as Hv0.
  destruct (exec_handler _ s c _ Hv0 Hw ltac:(lia) Hn) as ([rc h1] & E1 & (Erc & s1 & Hv1 & Hs1 & Hn1)). cbn [fst snd] in *. subst rc.
  assert (unmarked s1) as Hno1 by (eapply unmarked_after; [exact Hno|exact Hs1|exact Hn1|..]; unfold flag_value; auto).
  pose proof (sp_count _ _ _ _ _ _ _ Hs1) as Hc1. pose proof (view_visit h1 s1 (c_node c + 3) Hv1 ltac:(lia)) as Hv1'.
  destruct (exec_reset _ s1 c n Hv1' Hw Hno1 ltac:(lia) Hn1) as ([rc h2] & E2 & (Erc & s2 & Hv2 & Hs2 & Hn2)). cbn [fst snd] in *. subst rc.
  exists h2, s2. cbn [dfs_seq]. rewrite (interpret_leaf _ _ _ _ E1) by auto. cbn [cbind]. rewrite (interpret_leaf _ _ _ _ E2) by auto.
  split; [done|]. split; [done|]. split; [|done]. exact (stepped_trans _ _ _ _ _ _ _ _ Hs1 Hs2).
Qed.
(** The column was reset by its wait: the other leaves are off. *)
Lemma after_timeout h s c x : vw h s -> in_window c -> nodes_are s c 0x80 0 0 0 x ->
  exists h', dfs_seq (interpret image) [Node (c_node c + 2) []; Node (c_node c + 3) []] h = Ret (Next, h') /\ vw h' s.
Proof using Type.
  intros Hv Hw [_ _ N3 N4 _]. destruct (leaf_off h s c (c_node c + 2) Hv Hw ltac:(by left) N3) as (h1 & E1 & Hv1).
  destruct (leaf_off h1 s c (c_node c + 3) Hv1 Hw ltac:(by right) N4) as (h2 & E2 & Hv2). exists h2. split; [|done].
  cbn [dfs_seq]. rewrite E1. cbn [cbind]. by rewrite E2.
Qed.
Lemma after_wait h s c x rc h1 : vw h s -> in_window c -> unmarked s -> 0 <= v_count s < 940 ->
  cfl_execute_node image (visit (wait_of c) h) (wait_of c) = Ret (rc, h1) -> goes c s 1 (wait_out (event_id e) c x.2) (rc, h1) ->
  let o := column_step (event_id e) c x in
  exists h' s', dfs_seq (interpret image) [Node (wait_of c) []; Node (c_node c + 2) []; Node (c_node c + 3) []] h = Ret (Next, h') /\
    vw h' s' /\ stepped c o.2 3 s s' /\ col_in c o.1 s' /\ unmarked s'.
Proof using Hstore Hwindow.
  intros Hv Hw Hno Hcount E1 Hgo o. subst o. unfold wait_out in Hgo. unfold column_step. cbn [dfs_seq].
  destruct (event_id e =? c_event c); [|destruct (event_id e =? CFL_SECOND_EVENT); [destruct (COMMAND_TIMEOUT <=? u32 (x.2 + 1))|]];
    destruct Hgo as (Erc & s1 & Hv1 & Hs1 & Hn1); cbn [fst snd] in *; subst rc; rewrite (interpret_leaf _ _ _ _ E1) by auto; cbn [cbind];
    pose proof (sp_count _ _ _ _ _ _ _ Hs1) as Hc1;
    (assert (unmarked s1) as Hno1 by (eapply unmarked_after; [exact Hno|exact Hs1|exact Hn1|..]; unfold flag_value; auto)).
  - destruct (after_command h1 s1 c _ Hv1 Hw Hno1 ltac:(lia) Hn1) as (h2 & s2 & E2 & Hv2 & Hs2 & Hn2). cbn [dfs_seq] in E2. rewrite E2.
    exists h2, s2. split; [done|]. split; [done|]. split; [exact (stepped_trans _ _ _ _ _ _ _ _ Hs1 Hs2)|]. split; [eexists; split; [exact Hn2|by right]|].
    eapply unmarked_after; [exact Hno1|exact Hs2|exact Hn2|..]; unfold flag_value; auto.
  - destruct (after_timeout h1 s1 c _ Hv1 Hw Hn1) as (h2 & E2 & Hv2). cbn [dfs_seq] in E2. rewrite E2. exists h2, s1.
    split; [done|]. split; [done|]. split; [by eapply stepped_weaken|]. split; [|done]. eexists. split; [exact Hn1|by right].
  - exists h1, s1. split; [done|]. split; [done|]. split; [by eapply stepped_weaken|]. by split.
  - exists h1, s1. split; [done|]. split; [done|]. split; [by eapply stepped_weaken|]. by split.
Qed.
Lemma column_serves h s c x : vw h s -> in_window c -> unmarked s -> 0 <= v_count s < 900 -> 2 <= event_id e -> col_in c x s ->
  let o := column_step (event_id e) c x in
  exists h' s', interpret image (col_tree c) h = Ret (Next, h') /\ vw h' s' /\ stepped c o.2 4 s s' /\ col_in c o.1 s' /\ unmarked s'.
Proof using Hstore Hwindow.
  intros Hv Hw Hno Hcount Hev Hx o. pose proof Hw as (Hc & _). destruct (all_columns_ok c Hc) as [Hr _ _ _ _].
  assert (exists a b d r y, nodes_are s c a b d r y /\ before_column a b d r /\ before_wait (if a =? 0x80 then 0x80 else 0xC0) y x.2) as (a & b & d & r & y & Hn & Hbc & Hbw).
  { unfold col_in in Hx. destruct x as [[] n]; cbn [fst snd] in *.
    - do 5 eexists. split; [exact Hx|]. split; [by right|]. right. done.
    - destruct Hx as (y & Hn & Hy). do 5 eexists. split; [exact Hn|]. split; [by left|]. left. done. }
  pose proof (view_visit h s (c_node c) Hv ltac:(lia)) as Hv0. destruct (exec_column _ s c a b d r y Hv0 Hw ltac:(lia) Hn Hbc) as ([rc h1] & E1 & (Erc & s1 & Hv1 & Hs1 & Hn1)).
  cbn [fst snd] in *. subst rc. assert (unmarked s1) as Hno1. { eapply unmarked_after; [exact Hno|exact Hs1|exact Hn1|..]; unfold flag_value; auto. destruct (a =? 0x80); auto. }
  pose proof (sp_count _ _ _ _ _ _ _ Hs1) as Hc1. pose proof (view_visit h1 s1 (wait_of c) Hv1 ltac:(unfold wait_of; lia)) as Hv1'.
  destruct (exec_wait _ s1 c _ y x.2 Hv1' Hw Hno1 ltac:(lia) Hev Hn1 Hbw) as ([rc h2] & E2 & Hgo).
  destruct (after_wait h1 s1 c x rc h2 Hv1 Hw Hno1 ltac:(lia) E2 Hgo) as (h3 & s3 & E3 & Hv3 & Hs3 & Hx3 & Hno3). fold o in Hs3, Hx3.
  exists h3, s3. split; [|split; [done|]].
  - unfold col_tree. cbn [interpret]. rewrite E1. cbn [cbind fst snd]. exact E3.
  - split; [|by split]. exact (stepped_trans _ _ _ _ _ _ _ _ Hs1 Hs3).
Qed.

(** **** All columns of a knowledge base *)

Lemma col_in_same c (s s' : vstate (A := A)) x : (forall j, node_of c j -> v_fl s' j = v_fl s j) -> v_st s' (wait_of c) = v_st s (wait_of c) -> col_in c x s -> col_in c x s'.
Proof using Type.
  intros Hf Hst. assert (forall a b d r y, nodes_are s c a b d r y -> nodes_are s' c a b d r y) as H.
  { intros a b d r y [N1 N2 N3 N4 N5]. constructor; [rewrite Hf|rewrite Hf|rewrite Hf|rewrite Hf|by rewrite Hst]; try done; unfold node_of, wait_of; lia. }
  unfold col_in. destruct x.1; [apply H|]. intros (y & Hn & Hy). exists y. split; [by apply H|done].
Qed.
Lemma col_in_frame c c' l k s s' x : c ∈ all_columns -> c' ∈ all_columns -> c' <> c -> stepped c l k s s' -> col_in c' x s -> col_in c' x s'.
Proof using Type.
  intros Hc Hc' Hne [S1 S2 _ _]. apply col_in_same; [|by apply S2]. intros j Hj. by apply S1, (columns_apart c' c).
Qed.
Lemma columns_serve cols : forall h s x, vw h s -> Forall in_window cols -> NoDup cols -> unmarked s -> 0 <= v_count s /\ v_count s + 4 * zlen cols < 900 ->
  2 <= event_id e -> (forall c, c ∈ cols -> col_in c (x (wait_of c)) s) ->
  let o := serve (event_id e) cols x in
  exists h' s', dfs_seq (interpret image) (map col_tree cols) h = Ret (Next, h') /\ vw h' s' /\ served cols o.2 s s' /\
    (forall c, c ∈ cols -> col_in c (o.1 (wait_of c)) s') /\ unmarked s'.
Proof using Hstore Hwindow.
  induction cols as [|c cols IH]; intros h s x Hv Hw Hnd Hno Hcount Hev Hx o.
  { exists h, s. split; [done|]. split; [done|]. split; [|split; [intros c Hc; by apply elem_of_nil in Hc|done]]. constructor; try done; [constructor|]. change (zlen (@nil column)) with 0. lia. }
  apply Forall_cons in Hw as [Hwc Hw]. apply NoDup_cons in Hnd as [Hnin Hnd]. rewrite zlen_cons in Hcount. pose proof (zlen_nonneg cols) as Hlen. pose proof Hwc as (Hc & _).
  assert (forall c', c' ∈ cols -> c' ∈ all_columns /\ c' <> c) as Hrest.
  { intros c' Hin. rewrite Forall_forall in Hw. split; [by apply Hw|]. by intros ->. }
  destruct (column_serves h s c (x (wait_of c)) Hv Hwc Hno ltac:(lia) Hev (Hx c (list_elem_of_here _ _))) as (h1 & s1 & E1 & Hv1 & Hs1 & Hx1 & Hno1).
  set (q := column_step (event_id e) c (x (wait_of c))) in *. pose proof (sp_count _ _ _ _ _ _ _ Hs1) as Hc1.
  destruct (IH h1 s1 (upd x (wait_of c) q.1) Hv1 Hw Hnd Hno1) as (h2 & s2 & E2 & Hv2 & Hs2 & Hx2 & Hno2); [lia|done|..].
  { intros c' Hin. destruct (Hrest c' Hin) as [Hc' Hne]. unfold upd. rewrite (other_wait c c') by done.
    apply (col_in_frame c c' q.2 4 s); try done. apply Hx. by apply list_elem_of_further. }
  exists h2, s2. split; [cbn [map dfs_seq]; rewrite E1; exact E2|]. split; [done|]. destruct Hs2 as [V1 V2 V3 V4], Hs1 as [S1 S2 S3 S4]. split; [|split; [|done]].
  - constructor.
    + intros i Hi. rewrite V1, S1; [done|apply Hi, list_elem_of_here|]. intros c' Hin. apply Hi. by apply list_elem_of_further.
    + intros c' Hc' Hn. apply not_elem_of_cons in Hn as [Hne Hn]. by rewrite V2, S2.
    + by eapply called_app.
    + rewrite zlen_cons. lia.
  - intros c' Hin. apply elem_of_cons in Hin as [-> |Hin]; [|by apply Hx2]. change (o.1) with (serve (event_id e) cols (upd x (wait_of c) q.1)).1.
    assert (wait_of c ∉ map wait_of cols) as Hni.
    { intros Hm. apply elem_map_inv in Hm as (c' & E & Hin). destruct (Hrest c' Hin) as [Hc' Hne]. by apply Hne, wait_inj. }
    rewrite serve_other by done. unfold upd. rewrite Z.eqb_refl.
    revert Hx1. apply col_in_same; [|by apply V2]. intros j Hj. apply V1. intros c' Hin. destruct (Hrest c' Hin) as [Hc' Hne]. apply (columns_apart c c'); (done || congruence).
Qed.

(** **** The root *)

Lemma gate_enables cols : forall h s, vw h s -> Forall (fun c => c ∈ all_columns) cols ->
  gives (each (fun h link_id => check_link (image_tables (A := A) [] [] []) "cfl_enable_auto_start_nodes" link_id
      (if nz (Z.land (link_count (node_at (image_tables (A := A) [] [] []) link_id)) AUTO_START_BIT)
       then cfl_enable_node (image_tables [] [] []) h link_id else Ret h)) (map c_node cols) h)
    (fun h' => vw h' (mk_v (enable_columns cols (v_fl s)) (v_st s) (v_user s) (v_count s))).
Proof using Type.
  induction cols as [|c cols IH]; intros h s Hv Hc; [apply gives_ret; by destruct s|]. apply Forall_cons in Hc as [Hc Hcols].
  destruct (all_columns_ok c Hc) as [Hr _ _ _ _]. destruct (column_links (A := A) [] [] [] c Hc) as (_ & _ & Hauto). cbn [map each]. rewrite check_link_ok by lia.
  change (node_at (image_tables [] [] []) (c_node c)) with (zget cnode0 image_nodes (c_node c)). rewrite Hauto.
  eapply gives_bind; [eapply view_enable; [exact Hv|lia]|]. intros h1 Hv1. eapply gives_weaken; [eapply IH; [exact Hv1|done]|].
  intros h2 Hv2. apply (view_ext _ _ _ Hv2); destruct s; try done. intros i _. cbn [KbServe.v_fl]. unfold enable_columns. cbn [map].
  destruct (decide (i ∈ map c_node cols)) as [Hin|Hnin].
  - rewrite !bool_decide_eq_true_2; [done|done|by apply list_elem_of_further].
  - rewrite (bool_decide_eq_false_2 _ Hnin). cbn. unfold upd. destruct (Z.eqb_spec i (c_node c)) as [-> |Hne].
    + by rewrite bool_decide_eq_true_2 by apply list_elem_of_here.
    + rewrite bool_decide_eq_false_2; [done|]. by apply not_elem_of_cons.
Qed.
(** [s1]: the root was visited. *)
Lemma root_started k (s : vstate (A := A)) : k ∈ served_kbs -> v_fl s (k_root k) = 0x80 -> (forall x, (forall c, c ∈ k_columns k -> col_off c (x (wait_of c)) s) ->
    forall c, c ∈ k_columns k -> col_in c (x (wait_of c)) (mk_v (upd (enable_columns (k_columns k) (v_fl s)) (k_root k) 0xC0) (v_st s) (v_user s) (v_count s + 1))).
Proof using Type.
  intros Hk Hroot x Hoff c Hc. destruct (served_ok k Hk) as [_ Hcols _ _ _]. rewrite Forall_forall in Hcols. destruct (Hcols c Hc) as (Hca & Hlt & _).
  destruct (Hoff c Hc) as (E & y & [N1 N2 N3 N4 N5] & Hy). unfold col_in. rewrite E. exists y. split; [|done].
  assert (forall j, node_of c j -> j <> c_node c -> upd (enable_columns (k_columns k) (v_fl s)) (k_root k) 0xC0 j = v_fl s j) as Hj.
  { intros j Hj Hne. unfold upd. rewrite (proj2 (Z.eqb_neq _ _)) by (unfold node_of in Hj; lia). unfold enable_columns. rewrite bool_decide_eq_false_2; [done|].
    intros Hin. apply elem_map_inv in Hin as (c' & -> & Hin). destruct (Hcols c' Hin) as (Hca' & _ & _).
    destruct (decide (c = c')) as [-> |Hcc]; [done|]. apply (columns_apart c c' (c_node c') Hca Hca' Hcc Hj). unfold node_of. lia. }
  constructor; cbn [v_fl v_st]; [|rewrite Hj|rewrite Hj|rewrite Hj|done]; try done; try (unfold node_of, wait_of; lia).
  unfold upd. rewrite (proj2 (Z.eqb_neq _ _)) by lia. unfold enable_columns. by rewrite bool_decide_eq_true_2 by by apply (elem_map c_node).
Qed.

Lemma exec_root h s k x : vw h s -> k ∈ served_kbs -> 0 <= v_count s < 1000 -> kb_in k x s ->
  exists h1 s1, cfl_execute_node image h (k_root k) = Ret (CT_CONTINUE, h1) /\ vw h1 s1 /\ v_fl s1 (k_root k) = 0xC0 /\
    (forall c, c ∈ k_columns k -> col_in c (x (wait_of c)) s1) /\ (forall i, outside k i -> v_fl s1 i = v_fl s i) /\ v_st s1 = v_st s /\
    v_user s1 = v_user s /\ v_count s1 = v_count s + 1.
Proof using Type.
  intros Hv Hk Hcount Hx. destruct (served_ok k Hk) as [Hwin Hcols _ (c1 & cs & Ecols) (Em & Ei & Ea)].
  destruct (served_tree (A := A) [] [] [] k Hk) as (_ & _ & _ & El & Ec). cbn zeta in *.
  destruct (served_tree (A := A) [] (ct_one_shot_functions hooks float_to_int32) (ct_boolean_functions float_to_int32) k Hk) as (_ & _ & _ & El2 & Ec2).
  set (s1 := mk_v (if v_fl s (k_root k) =? 0x80 then upd (enable_columns (k_columns k) (v_fl s)) (k_root k) 0xC0 else v_fl s) (v_st s) (v_user s) (v_count s + 1)).
  assert (v_fl s1 (k_root k) = 0xC0 /\ (forall c, c ∈ k_columns k -> col_in c (x (wait_of c)) s1) /\ forall i, outside k i -> v_fl s1 i = v_fl s i) as (S1 & S2 & S3).
  { subst s1. destruct Hx as [[E Hx]|[E Hx]]; rewrite E; cbv iota; cbn [v_fl].
    - change (0xC0 =? 0x80) with false. cbv iota. split; [done|]. split; [|done]. intros c Hc. by apply (col_in_same c s), Hx.
    - change (0x80 =? 0x80) with true. cbv iota. split; [unfold upd; by rewrite Z.eqb_refl|]. split; [by apply root_started|].
      intros i [Hi Ho]. unfold upd, enable_columns. rewrite (proj2 (Z.eqb_neq _ _)) by done. rewrite bool_decide_eq_false_2; [done|].
      intros Hin. apply elem_map_inv in Hin as (c & -> & Hin). apply (Ho c Hin). unfold node_of. lia. }
  assert (gives (cfl_execute_node image h (k_root k)) (fun r => r.1 = CT_CONTINUE /\ vw r.2 s1)) as ([rc h1] & E & Erc & Hv1).
  2: { cbn [fst snd] in *. subst rc. exists h1, s1. by split_and!. }
  eapply (view_exec h s (fun h1 => vw h1 s1) (k_root k)); try done; try change (node_at image (k_root k)) with (zget cnode0 image_nodes (k_root k)).
  - lia.
  - rewrite Em. reflexivity.
  - rewrite Ei. reflexivity.
  - rewrite Ea. reflexivity.
  - by destruct Hx as [[-> _]|[-> _]].
  - intros h0 Hv0. subst s1. destruct Hx as [[E Hx]|[E Hx]]; rewrite E in *; cbv iota.
    + change (has 0xC0 CT_FLAG_USER2) with true. change (0xC0 =? 0x80) with false. cbv iota. by apply gives_ret.
    + change (has 0x80 CT_FLAG_USER2) with false. change (0x80 =? 0x80) with true. cbv iota. unfold initialize_node.
      change (node_at image (k_root k)) with (zget cnode0 image_nodes (k_root k)). rewrite Ei, Ea. change (8 =? 0) with false. change (2 =? 0) with false. cbv iota.
      unfold cfl_gate_node_init_one_shot_fn, cfl_enable_auto_start_nodes. rewrite Ec, El. eapply gives_bind.
      { eapply gate_enables; [exact Hv0|]. eapply Forall_impl; [exact Hcols|]. by intros c (Hc & _). }
      intros h1 Hv1. cbn [cbind cfl_gate_node_null_boolean_fn fst snd]. eapply gives_weaken; [eapply view_set_initialized; [exact Hv1|lia]|].
      intros h2 Hv2. apply (view_ext _ _ _ Hv2); try done. intros i _. cbn. unfold upd. destruct (Z.eqb_spec i (k_root k)) as [-> |]; [|done].
      unfold enable_columns. rewrite bool_decide_eq_false_2, E; [done|]. intros Hin. apply elem_map_inv in Hin as (c & Ecc & Hin).
      rewrite Forall_forall in Hcols. destruct (Hcols c Hin) as (_ & ? & _). lia.
  - intros h1 Hv1. by apply (vw_event _ _ _ _ _ _ _ _ _ Hv1).
  - intros h1 Hv1. rewrite Ea. rewrite Forall_forall in Hcols. destruct (Hcols c1) as (_ & Hlt & Hhi); [rewrite Ecols; apply list_elem_of_here|].
    change (cfl_gate_node_main_main_fn (call_tables hooks float_to_int32)) with (cfl_column_main_main_fn (call_tables hooks float_to_int32)).
    rewrite (parent_goes_on h1 s1 2 (k_root k) (c_node c1) (map c_node cs)); try done; [|lia|lia| |by right|by rewrite <- Ecols in El2 || (rewrite Ecols in El2; exact El2)].
    2: { specialize (S2 c1). unfold col_in in S2. destruct (x (wait_of c1)).1; [destruct S2 as [-> _ _ _ _]|destruct S2 as (y & [-> _ _ _ _] & _)]; try done; rewrite Ecols; apply list_elem_of_here. }
    cbn [cbind fst snd]. change (act_on image CFL_CONTINUE ?h ?i) with (Ret (CT_CONTINUE, h)). apply gives_ret. split; [done|]. by apply view_on.
Qed.

(** **** A knowledge base *)

Lemma col_in_unmarked c x (s : vstate (A := A)) i : col_in c x s -> node_of c i -> has (v_fl s i) CT_FLAG_USER1 = false.
Proof using Type.
  intros Hx Hi. apply flag_unmarked. assert (i = c_node c \/ i = wait_of c \/ i = c_node c + 2 \/ i = c_node c + 3) as Hi' by (unfold wait_of, node_of in *; lia).
  unfold col_in in Hx. unfold flag_value. destruct x.1; [destruct Hx as [N1 N2 N3 N4 _]|destruct Hx as (y & [N1 N2 N3 N4 _] & _)];
    destruct Hi' as [-> |[-> |[-> | ->]]]; rewrite ?N1, ?N2, ?N3, ?N4; auto.
Qed.
Lemma kb_interpreted h s k x : vw h s -> k ∈ served_kbs -> lo = k_root k -> cnt = k_count k -> kb_in k x s -> unmarked s -> v_count s = 0 ->
  2 <= event_id e -> let o := serve (event_id e) (k_columns k) x in
  exists h' s', interpret image (kb_tree (k_root k) (k_columns k)) h = Ret (Next, h') /\ vw h' s' /\ kb_in k o.1 s' /\ unmarked s' /\
    (forall i, outside k i -> v_fl s' i = v_fl s i) /\ (forall c, c ∈ all_columns -> c ∉ k_columns k -> v_st s' (wait_of c) = v_st s (wait_of c)) /\
    called hooks e (v_user s) o.2 (v_user s') /\ 1 <= v_count s' < 100.
Proof using Hstore Hwindow.
  intros Hv Hk Elo Ecnt Hx Hno Hcount Hev o. destruct (served_ok k Hk) as [Hwin Hcols Hnd _ _].
  assert (zlen (k_columns k) < 10) as Hfew by (clear -Hk; revert k Hk; rewrite <- Forall_forall; repeat constructor).
  pose proof (view_visit h s (k_root k) Hv ltac:(lia)) as Hv0.
  destruct (exec_root _ s k x Hv0 Hk ltac:(lia) Hx) as (h1 & s1 & E1 & Hv1 & R1 & R2 & R3 & R4 & R5 & R6).
  assert (unmarked s1) as Hno1.
  { intros i Hi. destruct (decide (i = k_root k)) as [-> |Hne]; [by rewrite R1|].
    destruct (decide (Exists (fun c => node_of c i) (k_columns k))) as [Hin|Hout].
    - apply Exists_exists in Hin as (c & Hc & Hn). by eapply col_in_unmarked; [apply R2|].
    - rewrite R3; [by apply Hno|]. split; [done|]. intros c Hc Hn. apply Hout, Exists_exists. by exists c. }
  destruct (columns_serve (k_columns k) h1 s1 x Hv1) as (h2 & s2 & E2 & Hv2 & [V1 V2 V3 V4] & Hx2 & Hno2); try done.
  { eapply Forall_impl; [exact Hcols|]. intros c (Hc & ? & ?). split; [done|]. lia. }
  { pose proof (zlen_nonneg (k_columns k)). lia. }
  rewrite Forall_forall in Hcols. exists h2, s2. split; [unfold kb_tree; cbn [interpret]; rewrite E1; exact E2|]. split; [done|]. split; [|split; [done|split; [|split; [|split]]]].
  - left. split; [|done]. rewrite V1; [done|]. intros c Hc Hn. destruct (Hcols c Hc) as (_ & ? & _). unfold node_of in Hn. lia.
  - intros i [Hi Ho]. rewrite V1 by done. by apply R3.
  - intros c Hc Hn. rewrite V2 by done. by rewrite R4.
  - by rewrite <- R5.
  - lia.
Qed.
End Ops.
