(* ===== verification/KbEvent.v ===== *)
(** Executing an event at the root of a shipped knowledge base: its columns one after the other
    ([KbServe.serve]), each as [KbServe.column_step] says. *)
From S2P Require Import Prelude CflBase CflHeap CflArena CflEventQueue CtTreeWalker CflEngine CflTerminate CflExecute JsonDecoder CflNodeFns CflImage CflStore KbApp KbServe KbNodes.
From stdpp Require Import gmap.
#[local] Open Scope Z_scope.
#[local] Open Scope cfl_scope.

(** *** An event *)

Section Event.
Context {A : Type} (hooks : app_hooks A) (float_to_int32 : Z -> Z).
Context (holds : CflHeapArenaSystem -> list (Z * Z) -> list Z -> Prop) `{Hstore : node_store waits sizeof_wait sizeof_wait_for_event holds}.
#[local] Abbreviation handle := (cfl_handle (cfl_runtime A)).
#[local] Abbreviation image := (g_chaintree_handle hooks float_to_int32).
#[local] Abbreviation resting := (resting hooks float_to_int32 holds).
#[local] Abbreviation serving := (serving hooks float_to_int32 holds).

Lemma kbs_apart k k' : k ∈ served_kbs -> k' ∈ served_kbs -> k = k' \/ k_root k + k_count k <= k_root k' \/ k_root k' + k_count k' <= k_root k.
Proof using Type.
  assert (Forall (fun k => Forall (fun k' => k = k' \/ k_root k + k_count k <= k_root k' \/ k_root k' + k_count k' <= k_root k) served_kbs) served_kbs) as H.
  { repeat (constructor; [repeat (constructor; [(by left) || (right; cbn; lia)|]); constructor|]). constructor. }
  rewrite Forall_forall in H. intros Hk Hk'. specialize (H k Hk). rewrite Forall_forall in H. by apply H.
Qed.
Lemma kb_in_same k x x' (s s' : vstate (A := A)) : k ∈ served_kbs -> (forall i, k_root k <= i < k_root k + k_count k -> v_fl s' i = v_fl s i) ->
  (forall c, c ∈ k_columns k -> v_st s' (wait_of c) = v_st s (wait_of c) /\ x' (wait_of c) = x (wait_of c)) -> kb_in k x s -> kb_in k x' s'.
Proof using Type.
  intros Hk Hf Hst Hx. destruct (served_ok k Hk) as [Hwin Hcols _ _ _]. rewrite Forall_forall in Hcols.
  assert (forall c j, c ∈ k_columns k -> node_of c j -> v_fl s' j = v_fl s j) as Hfc.
  { intros c j Hc Hj. destruct (Hcols c Hc) as (_ & ? & ?). apply Hf. unfold node_of in Hj. lia. }
  unfold kb_in. rewrite Hf by lia. destruct Hx as [[E Hx]|[E Hx]]; [left|right]; (split; [done|]); intros c Hc; destruct (Hst c Hc) as [Es ->]; specialize (Hx c Hc).
  - revert Hx. apply col_in_same; [|done]. intros j Hj. by apply (Hfc c).
  - destruct Hx as (E1 & y & [N1 N2 N3 N4 N5] & Hy). split; [done|]. exists y. split; [|done].
    constructor; [rewrite (Hfc c)|rewrite (Hfc c)|rewrite (Hfc c)|rewrite (Hfc c)|by rewrite Es]; try done; unfold node_of, wait_of; lia.
Qed.
(** The handle as a walk finds it, and as it leaves it. *)
Lemma started_view h x s e k : resting h x s -> k ∈ served_kbs -> event_data_ptr h = Some e -> kb_start_index h = k_root k -> kb_node_count h = k_count k ->
  view hooks float_to_int32 holds e (k_root k) (k_count k) (frame (rest h)) (start_event image (k_root k) h) (mk_v (v_fl s) (v_st s) (v_user s) 0).
Proof using Type.
  intros (Hs & Hl & Hf & Hw & Hu & _) Hk He Hlo Hcnt. pose proof (start_sized image (k_root k) h Hs) as Hs1.
  destruct h as [fl bk [wn wl wi wst] ev ef ec ns ks kc km ck ml r]. constructor; try done.
  intros i Hi. cbn [v_fl]. rewrite <- (Hf i Hi). unfold ubits, flag_of, start_event. hsimpl. apply cleared_user.
Qed.
Lemma finished_resting h s e lo cnt fr x b : view hooks float_to_int32 holds e lo cnt fr h s -> (forall i, 0 <= i < 35 -> has (v_fl s i) CT_FLAG_USER1 = false) ->
  (forall k, k ∈ served_kbs -> kb_in k x s) -> resting (h <| h_walker := walk_regs image h b |>) x s.
Proof using Type.
  intros [H1 H2 H3 H4 H5 H6 H7 H8 H9 H10] Hno Hx. destruct H1 as [((W1 & W1') & W2 & W3) Hlen].
  destruct h as [fl bk [wn wl wi wst] ev ef ec ns ks kc km ck ml r]. split; done.
Qed.

(** An event at a knowledge base's root, executed by the engine, is served as specified. *)
Lemma event_served h x u e k : serving h x u -> k ∈ served_kbs -> event_data_ptr h = Some e -> ev_node_id e = k_root k ->
  kb_start_index h = k_root k -> kb_node_count h = k_count k -> 2 <= event_id e ->
  let o := serve (event_id e) (k_columns k) x in
  exists h' u', cfl_execute_event image h = Ret (true, h') /\ serving h' o.1 u' /\ called hooks e u o.2 u' /\ frame (rest h') = frame (rest h).
Proof using Hstore.
  intros (s & Hr & Eu) Hk He Hnode Hlo Hcnt Hev o. pose proof Hr as (Hs & (Hl1 & Hl2) & Hf & Hw & Hu & Hno & Hkbs).
  destruct (served_ok k Hk) as [Hwin Hcols Hnd _ _].
  destruct (served_tree (ct_main_functions hooks float_to_int32) (ct_one_shot_functions hooks float_to_int32) (ct_boolean_functions float_to_int32) k Hk) as (Ht & Hids & Hd & _).
  cbn zeta in Ht, Hids, Hd. set (t := kb_tree (k_root k) (k_columns k)) in *.
  rewrite (execute_event_interprets image h t e (image_tame hooks float_to_int32) Hs Ht Hids He Hnode); [|rewrite Hlo; cbn [root t kb_tree]; lia| |lia|lia].
  2: { rewrite Hlo, Hcnt. change (node_count image) with 35. change (root t) with (k_root k). lia. }
  change (root t) with (k_root k). assert (enabled h (k_root k) = true) as ->.
  { unfold enabled. rewrite ubits_has by done. rewrite (Hf (k_root k)) by lia. by destruct (Hkbs k Hk) as [[-> _]|[-> _]]. }
  pose proof (started_view h x s e k Hr Hk He Hlo Hcnt) as Hv. set (s0 := mk_v (v_fl s) (v_st s) (v_user s) 0) in *.
  destruct (kb_interpreted hooks float_to_int32 holds e (k_root k) (k_count k) (frame (rest h)) Hwin _ s0 k x Hv Hk eq_refl eq_refl) as (h1 & s1 & E1 & Hv1 & Hk1 & Hno1 & Hfl & Hst & Hcall & Hc1); [|intros i Hi; apply Hno; lia|done|done|].
  { apply (kb_in_same k x x s); try done. by apply Hkbs. }
  fold t in E1. rewrite E1. cbn [cbind]. unfold finish_event. cbn [fst snd]. rewrite Forall_forall in Hcols.
  set (h2 := h1 <| h_walker := walk_regs image h1 false |>). assert (cfl_node_execution_count h2 = v_count s1 /\ cfl_engine_flag h2 = true) as [-> Eon].
  { pose proof (vw_exec _ _ _ _ _ _ _ _ _ Hv1). pose proof (vw_on _ _ _ _ _ _ _ _ _ Hv1). by destruct h1. }
  rewrite Eon, (proj2 (Z.eqb_neq (v_count s1) 0)) by lia. cbn [negb orb]. rewrite Eon. exists h2, (v_user s1). split; [done|]. split; [|split].
  - exists s1. split; [|done]. eapply finished_resting; [exact Hv1| |].
    + intros i Hi. destruct (decide (k_root k <= i < k_root k + k_count k)) as [Hin|Hout]; [by apply Hno1|].
      rewrite Hfl; [by apply Hno|]. split; [lia|]. intros c Hc Hn. destruct (Hcols c Hc) as (_ & ? & ?). unfold node_of in Hn. lia.
    + intros k' Hk'. destruct (kbs_apart k k' Hk Hk') as [<- |Hapart]; [done|]. apply (kb_in_same k' x _ s); [done| | |by apply Hkbs].
      * intros i Hi. rewrite Hfl; [done|]. split; [destruct (served_ok k' Hk'); lia|]. intros c Hc Hn. destruct (Hcols c Hc) as (_ & ? & ?). unfold node_of in Hn. lia.
      * intros c Hc. destruct (served_ok k' Hk') as [_ Hcols' _ _ _]. rewrite Forall_forall in Hcols'. destruct (Hcols' c Hc) as (Hca & ? & ?).
        assert (c ∉ k_columns k) as Hn by (intros Hn; destruct (Hcols c Hn) as (_ & ? & ?); lia). split; [by apply Hst|].
        apply serve_other. intros Hm. apply elem_map_inv in Hm as (c' & E & Hin). destruct (Hcols c' Hin) as (Hca' & ? & ?). apply Hn. by rewrite (wait_inj c c').
  - by rewrite <- Eu.
  - pose proof (vw_frame _ _ _ _ _ _ _ _ _ Hv1) as <-. by destruct h1.
Qed.
End Event.
