(* ===== verification/Threads.v ===== *)
(** Programs of atomic steps and their interleavings: what the controller's tasks
    ([app/bus_controller/main.c]) do between the critical sections they enter.

    A step is one critical section (or one access to the hardware) with the
    task-local computation around it; [None] is a loop inside the step that outlives its
    fuel. [safe] is the assertion that a program, holding the private resources it has, keeps
    an invariant of the shared state at every step and never reaches such a loop. *)
From stdpp Require Import relations.
From S2P Require Import Prelude.

(** ** Programs *)
Inductive prog (S A : Type) : Type :=
| Done (a : A)
| Atomic {X : Type} (f : S -> option (X * S)) (k : X -> prog S A).
Arguments Done {S A} a.
Arguments Atomic {S A X} f k.

Fixpoint tbind {S A B} (p : prog S A) (g : A -> prog S B) : prog S B :=
  match p with
  | Done a => g a
  | Atomic f k => Atomic f (fun x => tbind (k x) g)
  end.

Definition atomic {S X} (f : S -> option (X * S)) : prog S X := Atomic f Done.
Definition patomic {S X} (f : S -> X * S) : prog S X := atomic (fun s => Some (f s)).
Definition pmod {S} (f : S -> S) : prog S unit := patomic (fun s => (tt, f s)).
Definition pget {S X} (f : S -> X) : prog S X := patomic (fun s => (f s, s)).
Definition phang {S A} : prog S A := Atomic (X := Empty_set) (fun _ => None) (fun x => match x with end).

Declare Scope prog_scope.
Notation "x <== m ;; k" := (tbind m (fun x => k)) (at level 100, m at next level, right associativity) : prog_scope.
Notation "m ;== k" := (tbind m (fun _ => k)) (at level 100, right associativity) : prog_scope.
#[global] Open Scope prog_scope.

(** [for (x : l) acc = f(x, acc)]. *)
Fixpoint pfold {S A X} (f : X -> A -> prog S A) (l : list X) (a : A) : prog S A :=
  match l with
  | [] => Done a
  | x :: l => a <== f x a;; pfold f l a
  end.

(** A program run without interference. *)
Fixpoint run {S A} (p : prog S A) (s : S) : option (A * S) :=
  match p with
  | Done a => Some (a, s)
  | Atomic f k => match f s with Some (x, s) => run (k x) s | None => None end
  end.

(** [k] steps of a program. *)
Fixpoint advance {S A} (k : nat) (p : prog S A) (s : S) : option (prog S A * S) :=
  match k, p with
  | O, _ => Some (p, s)
  | Datatypes.S k, Atomic f g => match f s with Some (x, s) => advance k (g x) s | None => None end
  | Datatypes.S _, Done _ => None
  end.

(** ** Interleavings

    One thread is a task, a loop with a local value; the others are calls in progress,
    any number of them, begun at any time out of a set of calls. *)
Record system (S A : Type) := mk_sys { sys_task : prog S A; sys_calls : list (prog S unit); sys_state : S }.
Arguments mk_sys {S A} _ _ _.
Arguments sys_task {S A} _.
Arguments sys_calls {S A} _.
Arguments sys_state {S A} _.

Section Step.
Context {S A : Type} (task : A -> prog S A) (call : prog S unit -> Prop).

Inductive sys_step : system S A -> system S A -> Prop :=
| step_task X (f : S -> option (X * S)) k cs s x s' :
    f s = Some (x, s') -> sys_step (mk_sys (Atomic f k) cs s) (mk_sys (k x) cs s')
| step_again a cs s : sys_step (mk_sys (Done a) cs s) (mk_sys (task a) cs s)
| step_call X (f : S -> option (X * S)) k t cs1 cs2 s x s' :
    f s = Some (x, s') ->
    sys_step (mk_sys t (cs1 ++ Atomic f k :: cs2) s) (mk_sys t (cs1 ++ k x :: cs2) s')
| step_begin p t cs s : call p -> sys_step (mk_sys t cs s) (mk_sys t (p :: cs) s)
| step_end t cs1 cs2 s : sys_step (mk_sys t (cs1 ++ Done tt :: cs2) s) (mk_sys t (cs1 ++ cs2) s).
End Step.

(** The next step of a thread is defined. *)
Definition can_step {S A} (p : prog S A) (s : S) : Prop :=
  match p with Done _ => True | Atomic f _ => is_Some (f s) end.

(** ** Safety *)
Section Safe.
Context {S C : Type} (I : S -> list C -> Prop).

Fixpoint safe {A} (P : list C) (p : prog S A) (Q : A -> list C -> Prop) : Prop :=
  match p with
  | Done a => Q a P
  | Atomic f k => forall s F, I s (P ++ F) ->
      exists x s' P', f s = Some (x, s') /\ I s' (P' ++ F) /\ safe P' (k x) Q
  end.

(** A program that begins and ends with nothing of its own. *)
Definition closed {A} (p : prog S A) : Prop := safe [] p (fun _ P => P = []).
Definition holds {A} (P : list C) (p : prog S A) : Prop := safe P p (fun _ P => P = []).

(** Each thread holds its part and the invariant holds of all the parts together. *)
Definition sys_ok {L} (y : system S L) : Prop :=
  exists P Ps, holds P (sys_task y) /\ Forall2 holds Ps (sys_calls y) /\
    I (sys_state y) (P ++ concat Ps).

Lemma safe_mono {A} (p : prog S A) P (Q Q' : A -> list C -> Prop) :
  (forall a P, Q a P -> Q' a P) -> safe P p Q -> safe P p Q'.
Proof.
  intros HQ. revert P. induction p as [a|X f k IH]; intros P; simpl; [auto|].
  intros H s F HI. destruct (H s F HI) as (x & s' & P' & ? & ? & ?). eauto 8.
Qed.

Lemma safe_tbind {A B} (p : prog S A) (g : A -> prog S B) P Q R :
  safe P p Q -> (forall a P', Q a P' -> safe P' (g a) R) -> safe P (tbind p g) R.
Proof.
  intros Hp Hg. revert P Hp. induction p as [a|X f k IH]; intros P; simpl; [auto|].
  intros H s F HI. destruct (H s F HI) as (x & s' & P' & ? & ? & ?). eauto 8.
Qed.

Lemma safe_atomic {X} (f : S -> option (X * S)) P (Q : X -> list C -> Prop) :
  (forall s F, I s (P ++ F) -> exists x s' P', f s = Some (x, s') /\ I s' (P' ++ F) /\ Q x P') ->
  safe P (atomic f) Q.
Proof. done. Qed.

Lemma safe_patomic {X} (f : S -> X * S) P (Q : X -> list C -> Prop) :
  (forall s F, I s (P ++ F) -> exists P', I (f s).2 (P' ++ F) /\ Q (f s).1 P') ->
  safe P (patomic f) Q.
Proof.
  intros H. apply safe_atomic. intros s F HI. destruct (H s F HI) as (P' & ? & ?).
  destruct (f s) as [x s']. eauto 8.
Qed.

Lemma safe_fold {A X} (f : X -> A -> prog S A) l a P (J : A -> Prop) :
  J a -> (forall x a, x ∈ l -> J a -> safe P (f x a) (fun a P' => J a /\ P' = P)) ->
  safe P (pfold f l a) (fun a P' => J a /\ P' = P).
Proof.
  revert a. induction l as [|x l IH]; intros a Ha Hf; simpl; [done|].
  eapply safe_tbind; [apply Hf; [left|done]|]. intros a' P' [Ha' ->]. apply IH; [done|].
  intros y b Hy. apply Hf. by right.
Qed.

(** *** Adequacy *)
Context (I_perm : forall s P P', P ≡ₚ P' -> I s P -> I s P').
Context {L : Type} (task : L -> prog S L) (call : prog S unit -> Prop).
Context (Htask : forall a, closed (task a)) (Hcall : forall p, call p -> closed p).

Lemma sys_step_ok y y' : sys_step task call y y' -> sys_ok y -> sys_ok y'.
Proof using I_perm Htask Hcall.
  destruct 1 as [X f k cs s x s' Hf|a cs s|X f k t cs1 cs2 s x s' Hf|p t cs s Hp|t cs1 cs2 s];
    intros (P & Ps & Ht & Hcs & HI); simpl in *.
  - destruct (Ht s (concat Ps) HI) as (x1 & s1 & P' & E & ? & ?). rewrite Hf in E. simplify_eq.
    by exists P', Ps.
  - unfold holds in Ht. simpl in Ht. subst P. exists [], Ps. split; [apply Htask|done].
  - apply Forall2_app_inv_r in Hcs as (Ps1 & Ps2 & H1 & H2 & ->).
    apply Forall2_cons_inv_r in H2 as (Pc & Ps3 & Hc & H3 & ->).
    destruct (Hc s (P ++ concat Ps1 ++ concat Ps3)) as (x1 & s1 & P' & E & HI' & Hk).
    { eapply I_perm, HI. rewrite concat_app, concat_cons. solve_Permutation. }
    rewrite Hf in E. simplify_eq. exists P, (Ps1 ++ P' :: Ps3). split; [done|]. split.
    { apply Forall2_app; [done|]. by constructor. }
    eapply I_perm, HI'. rewrite concat_app, concat_cons. solve_Permutation.
  - exists P, ([] :: Ps). split; [done|]. split; [|done]. constructor; [by apply Hcall|done].
  - apply Forall2_app_inv_r in Hcs as (Ps1 & Ps2 & H1 & H2 & ->).
    apply Forall2_cons_inv_r in H2 as (Pc & Ps3 & Hc & H3 & ->).
    unfold holds in Hc. simpl in Hc. subst Pc. exists P, (Ps1 ++ Ps3). split; [done|].
    split; [by apply Forall2_app|]. by rewrite !concat_app in *.
Qed.

Lemma sys_reach_ok y y' : rtc (sys_step task call) y y' -> sys_ok y -> sys_ok y'.
Proof using I_perm Htask Hcall. induction 1; eauto using sys_step_ok. Qed.

(** No thread of a safe system is stuck. *)
Lemma sys_ok_progress (y : system S L) :
  sys_ok y -> can_step (sys_task y) (sys_state y) /\ Forall (fun p => can_step p (sys_state y)) (sys_calls y).
Proof using I_perm.
  intros (P & Ps & Ht & Hcs & HI). split.
  - destruct (sys_task y) as [|X f k]; simpl; [done|].
    destruct (Ht _ _ HI) as (x & s' & P' & E & _). rewrite E. eauto.
  - apply Forall_forall. intros p Hp. apply list_elem_of_lookup in Hp as [i Hi].
    destruct (Forall2_lookup_r _ _ _ _ _ Hcs Hi) as (Pc & HPc & Hc).
    destruct p as [|X f k]; simpl; [done|].
    rewrite <- (take_drop_middle _ _ _ HPc), concat_app, concat_cons in HI.
    destruct (Hc (sys_state y) (P ++ concat (take i Ps) ++ concat (drop (Datatypes.S i) Ps)))
      as (x & s' & P' & E & _).
    { eapply I_perm, HI. solve_Permutation. }
    rewrite E. eauto.
Qed.
End Safe.

(** ** Running alone *)
Lemma run_tbind {S A B} (p : prog S A) (g : A -> prog S B) s :
  run (tbind p g) s = match run p s with Some (a, s) => run (g a) s | None => None end.
Proof.
  revert s. induction p as [a|X f k IH]; intros s; simpl; [done|].
  destruct (f s) as [[x s']|]; [apply IH|done].
Qed.

Lemma run_step {S A B X} (f : S -> option (X * S)) (k : X -> prog S A) (g : A -> prog S B) s x s' :
  f s = Some (x, s') -> run (tbind (Atomic f k) g) s = run (tbind (k x) g) s'.
Proof. intros E. simpl. by rewrite E. Qed.

Lemma advance_call {S A} (task : A -> prog S A) call k t cs1 cs2 p s p' s' :
  advance k p s = Some (p', s') ->
  rtc (sys_step task call) (mk_sys t (cs1 ++ p :: cs2) s) (mk_sys t (cs1 ++ p' :: cs2) s').
Proof.
  revert p s. induction k as [|k IH]; intros p s E; simpl in E; [by simplify_eq|].
  destruct p as [|X f g]; [done|]. destruct (f s) as [[x s1]|] eqn:Ef; [|done].
  eapply rtc_l; [by apply step_call|]. by apply IH.
Qed.
