(* ===== verification/BcState.v ===== *)
(** The state of the bus controller's application ([app/bus_controller/main.c]):
    the roster, the transmit pool with the node table and its ping-pong lists, the
    command in flight, the counters, and what the hardware hands in and is handed.

    One record per group of globals. A [tx_buf_t *] is an index into [bufs], [None] is
    NULL. The inputs are consumed in order; an empty list reads as zero, silence or failure. *)
From S2P Require Import Prelude BusFrame HostLink.

(** ** Constants *)
Definition BUS_ADDR_APPCORE : Z := 0xFB.
Definition CMD_APP_ECHO : Z := 0x0300.
Definition CMD_APP_ECHO_TO : Z := 0x0301.
Definition SHELL_OK : Z := 0.
Definition SHELL_UNKNOWN_CMD : Z := 1.
Definition FLAG_ENABLED : Z := 0x02.
Definition ST_UNKNOWN : Z := 0.
Definition ST_ALIVE : Z := 1.
Definition ST_DEAD : Z := 2.
Definition CMD_ACK_TIMEOUT_MS : Z := 40.
Definition CMD_COLLECT_TIMEOUT_MS : Z := 40.
Definition CMD_COLLECT_TRIES : Z := 15.
Definition T_WINDOW_MAX_US : Z := 12000.
Definition ROSTER_MAX : Z := 16.
Definition APPCORE_ARGS_MAX : Z := 64.
Definition ORIG_PAY_MAX : Z := 64.
Definition ROUTE_USB : Z := 0.
Definition BUS_POOL_N : Z := 24.
Definition CMDCORR_MAX : Z := 8.

(** ** Data *)
Record slave_t := mk_slave {
  s_addr : Z; s_class_id : Z; s_flags : Z; s_state : Z; s_misses : Z; s_last_seen_ms : Z;
  s_summary : Z; s_announced_state : Z; s_announced_summary : Z
}.
#[export] Instance eta_slave_t : Settable slave_t := fun s =>
  mk_slave (s_addr s) (s_class_id s) (s_flags s) (s_state s) (s_misses s) (s_last_seen_ms s)
    (s_summary s) (s_announced_state s) (s_announced_summary s).
Definition slave0 : slave_t := mk_slave 0 0 0 0 0 0 0 0 0.

(** [b_addr] is where the buffer lies in the permanent pool. *)
Record tx_buf_t := mk_buf {
  b_addr : Z; b_next : option Z; b_dest_node : Z; b_len : Z; b_payload : list Z; b_origin_tag : Z
}.
#[export] Instance eta_tx_buf_t : Settable tx_buf_t := fun b =>
  mk_buf (b_addr b) (b_next b) (b_dest_node b) (b_len b) (b_payload b) (b_origin_tag b).
Definition tx_buf0 : tx_buf_t := mk_buf 0 None 0 0 (replicate (Z.to_nat BUS_PAYLOAD_MAX) 0) 0.
Definition sizeof_tx_buf_t : Z := 252.

(** [nd_list] is [list[2]]. *)
Record bus_node_t := mk_bnode { nd_addr : Z; nd_enabled : Z; nd_dead : Z; nd_miss : Z; nd_list : list (option Z) }.
#[export] Instance eta_bus_node_t : Settable bus_node_t := fun n =>
  mk_bnode (nd_addr n) (nd_enabled n) (nd_dead n) (nd_miss n) (nd_list n).
Definition bnode0 : bus_node_t := mk_bnode 0 0 0 0 [None; None].

Record cmdcorr_t := mk_corr { c_req : Z; c_host_req : Z; c_addr : Z; c_is_orig : Z; c_used : Z }.
#[export] Instance eta_cmdcorr_t : Settable cmdcorr_t := fun c =>
  mk_corr (c_req c) (c_host_req c) (c_addr c) (c_is_orig c) (c_used c).
Definition corr0 : cmdcorr_t := mk_corr 0 0 0 0 0.

(** What [g_pool_cs] guards. *)
Record pool_t := mk_pool {
  bufs : list tx_buf_t; g_pool_free : option Z; g_pool_avail : Z; g_pool_low : Z; g_pool_n : Z;
  g_pool_selftest : Z; g_pool_ready : bool; g_pool_exhausted : Z;
  g_nodes : list bus_node_t; g_nodes_n : Z; g_active_idx : Z; g_nodes_dirty : bool;
  g_nodes_rebuilds : Z; g_corr : list cmdcorr_t; g_corr_full : Z; g_corr_relayed : Z
}.
#[export] Instance eta_pool_t : Settable pool_t := fun p =>
  mk_pool (bufs p) (g_pool_free p) (g_pool_avail p) (g_pool_low p) (g_pool_n p) (g_pool_selftest p)
    (g_pool_ready p) (g_pool_exhausted p) (g_nodes p) (g_nodes_n p) (g_active_idx p) (g_nodes_dirty p)
    (g_nodes_rebuilds p) (g_corr p) (g_corr_full p) (g_corr_relayed p).

(** The roster: guarded by [g_lock]. *)
Record roster_st := mk_roster_st { g_roster : list slave_t; g_roster_n : Z; g_cursor : Z; g_cfg_roster_n : Z }.
#[export] Instance eta_roster_st : Settable roster_st := fun r =>
  mk_roster_st (g_roster r) (g_roster_n r) (g_cursor r) (g_cfg_roster_n r).

(** The one injected command in flight. *)
Record cmd_st := mk_cmd {
  g_cmd_pending : bool; g_cmd_slave : Z; g_cmd_op : Z; g_cmd_req_id : Z; g_cmd_body : list Z;
  g_cmd_len : Z; g_cmd_is_orig : bool; g_cmd_host_req : Z; g_orig_seq : Z
}.
#[export] Instance eta_cmd_st : Settable cmd_st := fun c =>
  mk_cmd (g_cmd_pending c) (g_cmd_slave c) (g_cmd_op c) (g_cmd_req_id c) (g_cmd_body c) (g_cmd_len c)
    (g_cmd_is_orig c) (g_cmd_host_req c) (g_orig_seq c).

Record poll_st := mk_poll {
  g_poll_period_ms : Z; g_poll_max_misses : Z; g_poll_tcp_retries : Z; g_poll_enabled : Z;
  g_poll_total : Z; g_poll_alive : Z; g_poll_miss : Z; g_last_ta_us : Z; g_meas_ta_us : Z
}.
#[export] Instance eta_poll_st : Settable poll_st := fun p =>
  mk_poll (g_poll_period_ms p) (g_poll_max_misses p) (g_poll_tcp_retries p) (g_poll_enabled p)
    (g_poll_total p) (g_poll_alive p) (g_poll_miss p) (g_last_ta_us p) (g_meas_ta_us p).

(** The line as the bus task sees it. *)
Record line_st := mk_line {
  g_bc : bus_asm_t; g_bus_seq : Z; g_bus_msgs : Z; g_slot_first : bool; g_miss_silent : Z; g_miss_partial : Z
}.
#[export] Instance eta_line_st : Settable line_st := fun l =>
  mk_line (g_bc l) (g_bus_seq l) (g_bus_msgs l) (g_slot_first l) (g_miss_silent l) (g_miss_partial l).

(** The feedback batch of a cycle. *)
Record fb_st := mk_fb {
  g_cycle_collecting : bool; g_fb_buf : list Z; g_fb_n : Z; g_fb_rec : Z; g_fb_frames : Z; g_fb_drops : Z
}.
#[export] Instance eta_fb_st : Settable fb_st := fun f =>
  mk_fb (g_cycle_collecting f) (g_fb_buf f) (g_fb_n f) (g_fb_rec f) (g_fb_frames f) (g_fb_drops f).

(** Cycle statistics and pacing; the last three are statics of [bus_run_cycle]. *)
Record cyc_st := mk_cyc {
  g_cycle_mode : Z; g_cycle_last : Z; g_cycle_min : Z; g_cycle_max : Z; g_cycle_deadline_us : Z;
  g_cycle_overruns : Z; g_cycle_minslack : Z; g_cycle_slow_addr : Z; g_cycle_slow_us : Z;
  g_cycle_pace_us : Z; s_seen_ex : Z; s_last_ex_ms : Z; s_last_notify_ms : Z
}.
#[export] Instance eta_cyc_st : Settable cyc_st := fun c =>
  mk_cyc (g_cycle_mode c) (g_cycle_last c) (g_cycle_min c) (g_cycle_max c) (g_cycle_deadline_us c)
    (g_cycle_overruns c) (g_cycle_minslack c) (g_cycle_slow_addr c) (g_cycle_slow_us c)
    (g_cycle_pace_us c) (s_seen_ex c) (s_last_ex_ms c) (s_last_notify_ms c).

(** The probing of dead nodes. *)
Record dead_st := mk_dead {
  g_dead_slowpoll_div : Z; g_dead_revives : Z; g_nodes_dead : Z; g_il_nodes_dead : Z;
  g_dead_cursor : Z; g_dead_tick : Z
}.
#[export] Instance eta_dead_st : Settable dead_st := fun d =>
  mk_dead (g_dead_slowpoll_div d) (g_dead_revives d) (g_nodes_dead d) (g_il_nodes_dead d)
    (g_dead_cursor d) (g_dead_tick d).

(** The ping-pong bench. *)
Record pp_st := mk_pp {
  g_pp_master : Z; g_pp_slave : Z; g_pp_slave_seen : Z; g_pp_run : Z; g_pp_addr : Z; g_pp_kicks : Z;
  g_pp_selftest : Z
}.
#[export] Instance eta_pp_st : Settable pp_st := fun p =>
  mk_pp (g_pp_master p) (g_pp_slave p) (g_pp_slave_seen p) (g_pp_run p) (g_pp_addr p) (g_pp_kicks p)
    (g_pp_selftest p).

Record upl_st := mk_upl {
  g_uplink_mode : Z; g_uplink_active : bool; g_uplink_force : Z; g_uplink_force_until : Z;
  g_host_connected : bool; g_identity_refused : bool; g_netcfg_n_ap : Z
}.
#[export] Instance eta_upl_st : Settable upl_st := fun u =>
  mk_upl (g_uplink_mode u) (g_uplink_active u) (g_uplink_force u) (g_uplink_force_until u)
    (g_host_connected u) (g_identity_refused u) (g_netcfg_n_ap u).

(** ** Inputs and outputs *)

(** [xQueueSend] and [xQueueReceive] items of the inter-core queues. *)
Record appcore_cmd_t := mk_appcmd { a_req_id : Z; a_cmd : Z; a_alen : Z; a_route : Z; a_bus_src : Z; a_args : list Z }.
Record orig_req_t := mk_orig { o_addr : Z; o_host_req_id : Z; o_len : Z; o_bytes : list Z }.

(** One wait of a slot: whether the receive interrupt fired while the slot was
    armed, the turnaround it measured, the words in the ring when the task woke and the
    microseconds since the POLL. *)
Record round_in := mk_round { rd_heard : bool; rd_ta_us : Z; rd_words : list Z; rd_us : Z }.
(** The waits of one slot and the microseconds at its end. *)
Record slot_in := mk_slot_in { si_rounds : list round_in; si_end_us : Z }.
(** No word at all: the slot ends with its first wait. *)
Definition silent_slot : slot_in := mk_slot_in [mk_round false 0 [] 3000; mk_round false 0 [] T_WINDOW_MAX_US] 3000.

(** The slots to come of each address, the words of each [bus_recv] by milliseconds, the readings of the two
    clocks, the answers of [xQueueSend] and of [xQueueReceive] on [g_orig_q]; the words
    handed to the PHY by frame, the commands handed to core 1 and the originations
    handed back. *)
Record io_t := mk_io {
  in_slots : Z -> list slot_in; in_recvs : list (list (list Z)); in_us : list Z; in_ms : list Z;
  in_sent : list bool; in_origs : list (option orig_req_t);
  out_words : list (list Z); out_down : list appcore_cmd_t; out_origs : list orig_req_t
}.
#[export] Instance eta_io_t : Settable io_t := fun i =>
  mk_io (in_slots i) (in_recvs i) (in_us i) (in_ms i) (in_sent i) (in_origs i) (out_words i) (out_down i) (out_origs i).

Record bc_t := mk_bc {
  tx_pool : pool_t; ros : roster_st; cmd : cmd_st; poll : poll_st; line : line_st; fb : fb_st;
  cyc : cyc_st; dead : dead_st; pp : pp_st; upl : upl_st; g_hl : host_link_t; io : io_t
}.
#[export] Instance eta_bc_t : Settable bc_t := fun s =>
  mk_bc (tx_pool s) (ros s) (cmd s) (poll s) (line s) (fb s) (cyc s) (dead s) (pp s) (upl s) (g_hl s) (io s).

(** ** Access *)
Definition on_pool {X} (f : pool_t -> X * pool_t) (s : bc_t) : X * bc_t :=
  let '(x, p) := f (tx_pool s) in (x, s <| tx_pool := p |>).
Definition on_io {X} (f : io_t -> X * io_t) (s : bc_t) : X * bc_t :=
  let '(x, i) := f (io s) in (x, s <| io := i |>).

(** [time_us_32()] and [to_ms_since_boot(get_absolute_time())]. *)
Definition time_us_32 : bc_t -> Z * bc_t :=
  on_io (fun i => (u32 (default 0 (head (in_us i))), i <| in_us ::= tail |>)).
Definition ms_since_boot : bc_t -> Z * bc_t :=
  on_io (fun i => (u32 (default 0 (head (in_ms i))), i <| in_ms ::= tail |>)).
Definition next_slot (addr : Z) : bc_t -> slot_in * bc_t :=
  on_io (fun i => (default silent_slot (head (in_slots i addr)),
                   i <| in_slots ::= fun f a => if a =? addr then tail (f a) else f a |>)).
Definition queue_sent : bc_t -> bool * bc_t :=
  on_io (fun i => (default false (head (in_sent i)), i <| in_sent ::= tail |>)).

(** [host_link_s2m(&g_hl, ...)]: its return code. *)
Definition s2m (dest opcode : Z) (payload : list Z) (len : Z) (s : bc_t) : Z * bc_t :=
  let '(h, rc) := host_link_s2m (g_hl s) dest opcode payload len in (rc, s <| g_hl := h |>).
Definition shell_reply (req_id status : Z) (result : list Z) (s : bc_t) : bc_t :=
  s <| g_hl ::= fun h => (host_link_shell_reply h req_id status result (zlen result)).1 |>.

Definition buf_at (p : pool_t) (b : Z) : tx_buf_t := zget tx_buf0 (bufs p) b.
Definition set_buf (b : Z) (f : tx_buf_t -> tx_buf_t) (p : pool_t) : pool_t :=
  p <| bufs ::= fun l => zset l b (f (zget tx_buf0 l b)) |>.
Definition node_at (p : pool_t) (i : Z) : bus_node_t := zget bnode0 (g_nodes p) i.
Definition set_node (i : Z) (f : bus_node_t -> bus_node_t) (p : pool_t) : pool_t :=
  p <| g_nodes ::= fun l => zset l i (f (zget bnode0 l i)) |>.
Definition list_at (p : pool_t) (i bl : Z) : option Z := zget None (nd_list (node_at p i)) bl.
Definition set_list (i bl : Z) (v : option Z) (p : pool_t) : pool_t :=
  set_node i (fun n => n <| nd_list ::= fun l => zset l bl v |>) p.

(** The indices of [for (i = 0; i < n; i++)]. *)
Definition upto (n : Z) : list Z := map Z.of_nat (seq 0 (Z.to_nat n)).

(** [a[i..) = bytes]: the array after the bytes were stored at [i]. *)
Definition store (a : list Z) (i : Z) (bytes : list Z) : list Z :=
  take (Z.to_nat i) a ++ bytes ++ drop (Z.to_nat (i + zlen bytes)) a.
