(* ===== verification/BcPool.v ===== *)
(** The transmit pool of the bus controller ([app/bus_controller/main.c]): the free
    list, the node table with its ping-pong lists, the producers' [bus_msg_send], the
    table of outstanding commands. A critical section on [g_pool_cs] is one atomic step. *)
From S2P Require Import Prelude BusFrame HostLink BcState Threads CflBase CflPerm.

(** ** The free list *)
Definition pool_grab (p : pool_t) : option Z * pool_t :=
  match g_pool_free p with
  | None => (None, p)
  | Some b =>
      let p := p <| g_pool_free := b_next (buf_at p b) |> <| g_pool_avail ::= fun a => u16 (a - 1) |> in
      (Some b, if g_pool_avail p <? g_pool_low p then p <| g_pool_low := g_pool_avail p |> else p)
  end.

Definition pool_recover (b : option Z) (p : pool_t) : pool_t :=
  match b with
  | None => p
  | Some b =>
      set_buf b (fun x => x <| b_next := g_pool_free p |>) p
        <| g_pool_free := Some b |> <| g_pool_avail ::= fun a => u16 (a + 1) |>
  end.

(** ** Correlation of commands and replies *)
Definition corr_put (req addr : Z) (is_orig : bool) (host_req : Z) (p : pool_t) : bool * pool_t :=
  match find_index (fun c => negb (nz (c_used c))) (g_corr p) with
  | None => (false, p)
  | Some i => (true, p <| g_corr ::= fun l => <[i := mk_corr req host_req addr (Z.b2z is_orig) 1]> l |>)
  end.
Definition corr_add (req addr : Z) (is_orig : bool) (host_req : Z) : prog bc_t bool :=
  ok <== patomic (on_pool (corr_put req addr is_orig host_req));;
  (if ok then Done tt else pmod (fun s => s <| tx_pool ::= fun p => p <| g_corr_full ::= fun n => u32 (n + 1) |> |>));==
  Done ok.

(** [*is_orig] and [*host_req] on a hit. *)
Definition corr_take (req addr : Z) (p : pool_t) : option (bool * Z) * pool_t :=
  match find_index (fun c => nz (c_used c) && (c_req c =? req) && (c_addr c =? addr)) (g_corr p) with
  | None => (None, p)
  | Some i =>
      let c := nth i (g_corr p) corr0 in
      (Some (nz (c_is_orig c), c_host_req c), p <| g_corr ::= fun l => <[i := c <| c_used := 0 |>]> l |>)
  end.

(** ** The node table *)

(** [while (j > 0 && g_nodes[j-1].addr > e.addr) { g_nodes[j] = g_nodes[j-1]; j--; }]. *)
Fixpoint shift_up (j : nat) (e : bus_node_t) (l : list bus_node_t) : nat * list bus_node_t :=
  match j with
  | O => (O, l)
  | S k =>
      if nd_addr e <? nd_addr (nth k l bnode0) then shift_up k e (<[j := nth k l bnode0]> l) else (j, l)
  end.

Fixpoint table_loop (rs : list slave_t) (l : list bus_node_t) (n : Z) : list bus_node_t * Z :=
  match rs with
  | [] => (l, n)
  | r :: rs =>
      if ROSTER_MAX <=? n then (l, n)
      else
        let e := mk_bnode (s_addr r) (if nz (Z.land (s_flags r) FLAG_ENABLED) then 1 else 0) 0 0 [None; None] in
        let '(j, l) := shift_up (Z.to_nat n) e l in
        table_loop rs (<[j := e]> l) (u8 (n + 1))
  end.
Definition bus_nodetable_build (r : roster_st) (p : pool_t) : pool_t :=
  let '(l, n) := table_loop (take (Z.to_nat (g_roster_n r)) (g_roster r)) (g_nodes p) 0 in
  p <| g_nodes := l |> <| g_nodes_n := n |>.

Definition node_index_of (p : pool_t) (addr : Z) : Z :=
  match find_index (fun n => nd_addr n =? addr) (take (Z.to_nat (g_nodes_n p)) (g_nodes p)) with
  | Some i => Z.of_nat i
  | None => -1
  end.

(** ** Producers *)
Definition fill_buf (b : Z) (payload : list Z) (len tag : Z) (p : pool_t) : pool_t :=
  set_buf b (fun x => x <| b_len := len |> <| b_origin_tag := tag |>
    <| b_payload ::= fun old => store old 0 (take (Z.to_nat len) payload) |>) p.

(** The second critical section of [bus_msg_send]. *)
Definition attach (b dest : Z) (p : pool_t) : bool * pool_t :=
  let idx := node_index_of p dest in
  if idx <? 0 then (false, p)
  else
    let f := Z.lxor (g_active_idx p) 1 in
    (true, set_list idx f (Some b) (set_buf b (fun x => x <| b_dest_node := u8 idx |> <| b_next := list_at p idx f |>) p)).

Definition bus_msg_send (dest_addr : Z) (payload : list Z) (len tag : Z) : prog bc_t bool :=
  let len := if BUS_PAYLOAD_MAX <? len then BUS_PAYLOAD_MAX else len in
  g <== patomic (on_pool pool_grab);;
  match g with
  | None => pmod (fun s => s <| tx_pool ::= fun p => p <| g_pool_exhausted ::= fun n => u32 (n + 1) |> |>);== Done false
  | Some b =>
      pmod (fun s => s <| tx_pool ::= fill_buf b payload len tag |>);==
      ok <== patomic (on_pool (attach b dest_addr));;
      if ok then Done true
      else pmod (fun s => s <| tx_pool ::= pool_recover (Some b) |>);== Done false
  end.

Definition bus_pingpong_swap : bc_t -> bc_t := fun s =>
  s <| tx_pool ::= fun p => p <| g_active_idx ::= fun a => Z.lxor a 1 |> |>.

(** ** Private chains *)
Definition chain_fuel : nat := Z.to_nat BUS_POOL_N.

(** [b = g_nodes[i].list[a]; g_nodes[i].list[a] = NULL]. *)
Definition take_list (i a : Z) (p : pool_t) : option Z * pool_t := (list_at p i a, set_list i a None p).

(** [while (b) { nx = b->next; pool_recover(b); b = nx; }], counting the turns. *)
Fixpoint recover_chain (fuel : nat) (b : option Z) (n : Z) : prog bc_t Z :=
  match b, fuel with
  | None, _ => Done n
  | Some _, O => phang
  | Some x, S fuel =>
      nx <== patomic (on_pool (fun p => (b_next (buf_at p x), pool_recover (Some x) p)));;
      recover_chain fuel nx (u16 (n + 1))
  end.

(** [while (p) { nx = p->next; p->next = orphans; orphans = p; p = nx; }]. *)
Fixpoint push_chain (fuel : nat) (b orphans : option Z) (p : pool_t) : option (option Z * pool_t) :=
  match b, fuel with
  | None, _ => Some (orphans, p)
  | Some _, O => None
  | Some x, S fuel => push_chain fuel (b_next (buf_at p x)) (Some x) (set_buf x (fun c => c <| b_next := orphans |>) p)
  end.
Fixpoint detach_all (ls : list (Z * Z)) (orphans : option Z) (p : pool_t) : option (option Z * pool_t) :=
  match ls with
  | [] => Some (orphans, p)
  | (i, bl) :: ls =>
      let '(b, p) := take_list i bl p in
      match push_chain chain_fuel b orphans p with
      | Some (orphans, p) => detach_all ls orphans p
      | None => None
      end
  end.
(** The lists of the first [n] nodes, in the order of the nested loops. *)
Definition node_lists (n : Z) : list (Z * Z) := flat_map (fun i => [(i, 0); (i, 1)]) (upto n).

(** ** Set-up *)
Fixpoint carve (n : nat) (perm : CflPerm) (p : pool_t) : cfl (pool_t * CflPerm) :=
  match n with
  | O => Ret (p, perm)
  | S n =>
      cbind (cfl_perm_alloc_pointer_aligned (Some perm) sizeof_tx_buf_t 4) (fun '(ptr, perm) =>
      if ptr =? 0 then Ret (p, perm)
      else carve n perm (pool_recover (Some (zlen (bufs p))) (p <| bufs ::= fun l => l ++ [tx_buf0 <| b_addr := ptr |>] |>)))
  end.

(** [while (k < g_pool_n && (b = pool_grab()) != NULL) got[k++] = b]. *)
Fixpoint grab_all (n : nat) (p : pool_t) : list Z * pool_t :=
  match n with
  | O => ([], p)
  | S n =>
      match pool_grab p with
      | (None, p) => ([], p)
      | (Some b, p) => let '(got, p) := grab_all n p in (b :: got, p)
      end
  end.

Definition bus_pool_init (perm : CflPerm) (p : pool_t) : cfl (pool_t * CflPerm) :=
  if nz (g_pool_n p) then Ret (p, perm)
  else
    cbind (carve (Z.to_nat BUS_POOL_N) perm (p <| g_pool_free := None |> <| g_pool_avail := 0 |>)) (fun '(p, perm) =>
    let p := p <| g_pool_n := g_pool_avail p |> <| g_pool_low := g_pool_avail p |> in
    let '(got, p) := grab_all (Z.to_nat (g_pool_n p)) p in
    let '(e, p) := pool_grab p in
    let empty_ok := match e with None => true | Some _ => false end in
    let p := foldl (fun p b => pool_recover (Some b) p) p got in
    let ok := (zlen got =? g_pool_n p) && empty_ok && (g_pool_avail p =? g_pool_n p) in
    Ret (p <| g_pool_selftest := if ok then g_pool_n p else 0 |> <| g_pool_ready := true |>, perm)).

(** [bus_pp_selftest]: attach two messages to every node, swap, drain. *)
Definition selftest_send (ik : Z * Z) (attached : Z) : prog bc_t Z :=
  addr <== pget (fun s => nd_addr (node_at (tx_pool s) ik.1));;
  ok <== bus_msg_send addr [u8 ik.1; ik.2] 2 (u32 (Z.lor (Z.lor 0xABCD0000 (Z.shiftl ik.1 8)) ik.2));;
  Done (if ok then u16 (attached + 1) else attached).
Definition selftest_drain (i drained : Z) : prog bc_t Z :=
  b <== patomic (on_pool (fun p => take_list i (g_active_idx p) p));;
  recover_chain chain_fuel b drained.
Definition bus_pp_selftest : prog bc_t unit :=
  before <== pget (fun s => g_pool_avail (tx_pool s));;
  n <== pget (fun s => g_nodes_n (tx_pool s));;
  attached <== pfold selftest_send (node_lists n) 0;;
  pmod bus_pingpong_swap;==
  drained <== pfold selftest_drain (upto n) 0;;
  pmod (fun s => s <| pp ::= fun q => q <| g_pp_selftest :=
    Z.b2z ((attached =? u16 (n * 2)) && (drained =? attached) && (g_pool_avail (tx_pool s) =? before)) |> |>).
