(* ===== verification/BcRoster.v ===== *)
(** The bus controller's roster and its uplink side ([app/bus_controller/main.c]):
    liveness bookkeeping and edges, the host's frames ([on_bus_msg], [on_local_shell]), the
    commissioned roster, the pumps. *)
From S2P Require Import Prelude BusFrame LibcommFrame HostLink BcState Threads BcPool BootFiles.

Definition OP_DBG_LOG : Z := 0x0010.
Definition OP_BUS_SLAVE_DOWN : Z := 0x0015.
Definition OP_BUS_SLAVE_UP : Z := 0x0016.
Definition OP_BUS_SLAVE_FLAGGED : Z := 0x0017.

Definition CMD_ECHO : Z := 0x0001.
Definition CMD_BUS_REGISTER_SLAVE : Z := 0x0160.
Definition CMD_BUS_LIST_SLAVES : Z := 0x0162.
Definition CMD_BUS_SET_POLL : Z := 0x0163.
Definition CMD_BUS_POLL_ENABLE : Z := 0x0164.
Definition CMD_BUS_CLEAR_ROSTER : Z := 0x0165.
Definition CMD_BUS_POLL_STATS : Z := 0x0166.
Definition CMD_BUS_MEASURE_TA : Z := 0x0167.
Definition CMD_BUS_CYCLE_MODE : Z := 0x0168.
Definition CMD_BUS_MSG_INJECT : Z := 0x0169.
Definition CMD_BUS_SET_DEADLINE : Z := 0x016A.
Definition CMD_BUS_SET_PACE : Z := 0x016B.
Definition CMD_BUS_UPLINK_FORCE : Z := 0x016C.
Definition CMD_APP_PP_START : Z := 0x0303.
Definition CMD_APP_PP_STOP : Z := 0x0304.
Definition CMD_APP_PP_READ : Z := 0x0305.
Definition BUS_REG_OK : Z := 0.
Definition CMD_NOT_MINE : Z := 0xFF.
Definition SHELL_ASYNC : Z := 0xFE.

(** ** Roster helpers *)
Definition slave_at (r : roster_st) (i : Z) : slave_t := zget slave0 (g_roster r) i.
Definition set_slave (i : Z) (f : slave_t -> slave_t) (r : roster_st) : roster_st :=
  r <| g_roster ::= fun l => zset l i (f (zget slave0 l i)) |>.

(** The index of the entry. *)
Definition roster_find (r : roster_st) (addr : Z) : option Z :=
  Z.of_nat <$> find_index (fun s => s_addr s =? addr) (take (Z.to_nat (g_roster_n r)) (g_roster r)).

Fixpoint next_enabled (turns : nat) (r : roster_st) : Z * roster_st :=
  match turns with
  | O => (0xFF, r)
  | S turns =>
      let s := slave_at r (g_cursor r) in
      let r := r <| g_cursor ::= fun c => u8 ((c + 1) mod (if nz (g_roster_n r) then g_roster_n r else 1)) |> in
      if nz (Z.land (s_flags s) FLAG_ENABLED) then (s_addr s, r) else next_enabled turns r
  end.
Definition next_enabled_addr (r : roster_st) : Z * roster_st := next_enabled (Z.to_nat (g_roster_n r)) r.

Definition mark_alive (addr now : Z) (r : roster_st) : roster_st :=
  match roster_find r addr with
  | None => r
  | Some i => set_slave i (fun s => s <| s_misses := 0 |> <| s_last_seen_ms := now |> <| s_state := ST_ALIVE |>) r
  end.

(** The entry after a miss, with [g_poll_max_misses = max]. *)
Definition slave_miss (max : Z) (s : slave_t) : slave_t :=
  let s := if s_misses s <? 0xFF then s <| s_misses ::= fun m => m + 1 |> else s in
  if negb (s_state s =? ST_DEAD) && (max <=? s_misses s) then s <| s_state := ST_DEAD |> else s.
Definition mark_miss (addr : Z) (s : bc_t) : bc_t :=
  match roster_find (ros s) addr with
  | None => s
  | Some i => s <| ros ::= set_slave i (slave_miss (g_poll_max_misses (poll s))) |>
  end.

(** The state edge of entry [i]: [None] when an edge was sent or tried, which ends
    the pass. *)
Definition state_edge (i : Z) (s : bc_t) : bool * bc_t :=
  let sl := slave_at (ros s) i in
  if s_state sl =? s_announced_state sl then (false, s)
  else if s_state sl =? ST_DEAD then
    let '(rc, s) := s2m (s_addr sl) OP_BUS_SLAVE_DOWN [s_addr sl] 1 s in
    (true, if rc =? 0 then s <| ros ::= set_slave i (fun x => x <| s_announced_state := ST_DEAD |>) |> else s)
  else if (s_state sl =? ST_ALIVE) && (s_announced_state sl =? ST_DEAD) then
    let '(rc, s) := s2m (s_addr sl) OP_BUS_SLAVE_UP ([s_addr sl] ++ wr_u32 (s_class_id sl)) 5 s in
    (true, if rc =? 0 then s <| ros ::= set_slave i (fun x => x <| s_announced_state := ST_ALIVE |>) |> else s)
  else (false, s <| ros ::= set_slave i (fun x => x <| s_announced_state := s_state x |>) |>).

Definition summary_edge (i : Z) (s : bc_t) : bool * bc_t :=
  let sl := slave_at (ros s) i in
  if s_summary sl =? s_announced_summary sl then (false, s)
  else
    let '(rc, s) := s2m (s_addr sl) OP_BUS_SLAVE_FLAGGED [s_addr sl; s_summary sl] 2 s in
    (true, if rc =? 0 then s <| ros ::= set_slave i (fun x => x <| s_announced_summary := s_summary x |>) |> else s).

Fixpoint edges_from (ixs : list Z) (s : bc_t) : bc_t :=
  match ixs with
  | [] => s
  | i :: ixs =>
      let '(stop, s) := state_edge i s in
      if stop then s
      else let '(stop, s) := summary_edge i s in
           if stop then s else edges_from ixs s
  end.
Definition emit_liveness_edges (s : bc_t) : bc_t := edges_from (upto (g_roster_n (ros s))) s.

(** ** Inter-core messages *)
Definition queue_down (c : appcore_cmd_t) (s : bc_t) : bool * bc_t :=
  let '(ok, s) := queue_sent s in
  (ok, if ok then s <| io ::= fun i => i <| out_down ::= fun l => l ++ [c] |> |> else s).
Definition pp_kick (s : bc_t) : bc_t :=
  let '(ok, s) := queue_down (mk_appcmd 0 CMD_APP_ECHO_TO 3 ROUTE_USB 0 [g_pp_addr (pp s); 0x70; 0x70]) s in
  if ok then s <| pp ::= fun p => p <| g_pp_kicks ::= fun n => u32 (n + 1) |> |> else s.

(** ** The host's frames *)
Definition le16_at (l : list Z) (i : Z) : Z := le16 (zget 0 l i) (zget 0 l (i + 1)).
Definition le32_at (l : list Z) (i : Z) : Z :=
  Z.lor (Z.lor (Z.lor (zget 0 l i) (Z.shiftl (zget 0 l (i + 1)) 8)) (Z.shiftl (zget 0 l (i + 2)) 16))
    (Z.shiftl (zget 0 l (i + 3)) 24).

Definition on_bus_msg (dest opcode : Z) (body : list Z) (s : bc_t) : bc_t :=
  let len := zlen body in
  if dest =? BUS_ADDR_APPCORE then
    if negb (opcode =? OP_SHELL_EXEC) || (len <? 4) then s
    else
      let alen := u8 (len - 4) in
      let alen := if APPCORE_ARGS_MAX <? alen then APPCORE_ARGS_MAX else alen in
      (queue_down (mk_appcmd (le16_at body 0) (le16_at body 2) alen ROUTE_USB 0
        (take (Z.to_nat alen) (drop 4 body))) s).2
  else if g_cmd_pending (cmd s) then s
  else
    let len := if BUS_PAYLOAD_MAX <? len then BUS_PAYLOAD_MAX else len in
    let req_id := if (opcode =? OP_BUS_EXEC) && (4 <=? len) then le16_at body 2
                  else if 2 <=? len then le16_at body 0 else 0 in
    s <| cmd ::= fun c => mk_cmd true dest opcode req_id (store (g_cmd_body c) 0 (take (Z.to_nat len) body)) len
           false (g_cmd_host_req c) (g_orig_seq c) |>.

(** One row of CMD_BUS_LIST_SLAVES. *)
Definition list_row (now : Z) (s : slave_t) : list Z :=
  let ago32 := if s_last_seen_ms s =? 0 then 0xFFFF else u32 (now - s_last_seen_ms s) in
  let ago := if 0xFFFF <? ago32 then 0xFFFF else ago32 in
  [s_addr s] ++ wr_u32 (s_class_id s) ++ [s_flags s; s_state s; s_misses s] ++ wr_u16 ago.
Definition list_slaves (now : Z) (r : roster_st) : list Z :=
  [g_roster_n r; g_roster_n r] ++ flat_map (list_row now) (take (Z.to_nat (g_roster_n r)) (g_roster r)).

(** The 100 bytes of CMD_BUS_POLL_STATS. *)
Definition poll_stats (s : bc_t) : list Z :=
  let p := tx_pool s in let c := cyc s in
  wr_u32 (g_poll_total (poll s)) ++ wr_u32 (g_poll_alive (poll s)) ++ wr_u32 (g_poll_miss (poll s)) ++
  wr_u16 (g_meas_ta_us (poll s)) ++ [u8 (g_pool_selftest p); u8 (g_pool_n p); g_nodes_n p] ++
  wr_u16 (g_pool_avail p) ++ [g_pp_selftest (pp s)] ++ wr_u32 (g_cycle_last c) ++ wr_u32 (g_cycle_min c) ++
  wr_u32 (g_cycle_max c) ++ wr_u32 (g_cycle_overruns c) ++ wr_u32 (g_cycle_minslack c) ++
  [g_cycle_slow_addr c] ++ wr_u16 (g_cycle_slow_us c) ++ wr_u16 (g_pool_low p) ++
  wr_u32 (g_pool_exhausted p) ++ wr_u32 (g_dead_revives (dead s)) ++ [g_nodes_dead (dead s)] ++
  wr_u32 (g_cycle_pace_us c) ++ wr_u32 (g_fb_frames (fb s)) ++ wr_u32 (g_fb_drops (fb s)) ++
  wr_u32 (g_corr_relayed p) ++ wr_u32 (g_corr_full p) ++ wr_u32 (g_nodes_rebuilds p) ++
  [g_uplink_mode (upl s); g_netcfg_n_ap (upl s)] ++ wr_u32 (g_bus_msgs (line s)) ++
  wr_u32 (h_tx_msgs (g_hl s)) ++ wr_u32 (h_rx_msgs (g_hl s)) ++
  wr_u32 (g_miss_silent (line s)) ++ wr_u32 (g_miss_partial (line s)).

Definition clear_roster (s : bc_t) : bc_t :=
  s <| ros ::= fun r => r <| g_roster_n := 0 |> <| g_cursor := 0 |> |>
    <| tx_pool ::= fun p => p <| g_nodes_dirty := true |> |>.
Definition register_slave (args : list Z) (s : bc_t) : bc_t :=
  if (6 <=? zlen args) && (g_roster_n (ros s) <? ROSTER_MAX) then
    let e := mk_slave (zget 0 args 0) (le32_at args 1) (zget 0 args 5) 0 0 0 0 0 0 in
    s <| ros ::= fun r => r <| g_roster ::= fun l => zset l (g_roster_n r) e |> <| g_roster_n ::= fun n => u8 (n + 1) |> |>
      <| tx_pool ::= fun p => p <| g_nodes_dirty := true |> |>
  else s.

(** CMD_BUS_MSG_INJECT's loop: the copies accepted. *)
Fixpoint inject (ixs : list Z) (addr : Z) (pl : list Z) (inj : Z) : prog bc_t Z :=
  match ixs with
  | [] => Done inj
  | i :: ixs =>
      ok <== bus_msg_send addr pl (zlen pl) (u32 (Z.lor 0xDEAD0000 i));;
      if ok then inject ixs addr pl (u8 (inj + 1)) else Done inj
  end.

(** [dispatch] is [node_cmd_dispatch]: its status and output. *)
Definition on_local_shell (dispatch : Z -> list Z -> Z -> Z * list Z) (req_id command : Z) (args : list Z)
    : prog bc_t unit :=
  let alen := zlen args in
  let reply st r : prog bc_t unit := pmod (shell_reply req_id st r) in
  if command =? CMD_ECHO then reply SHELL_OK args
  else if command =? CMD_BUS_CLEAR_ROSTER then
    pmod clear_roster;== pmod (fun s => s <| cmd ::= fun c => c <| g_cmd_pending := false |> |>);== reply SHELL_OK []
  else if command =? CMD_BUS_REGISTER_SLAVE then pmod (register_slave args);== reply SHELL_OK [BUS_REG_OK]
  else if command =? CMD_BUS_SET_POLL then
    (if 4 <=? alen
     then pmod (fun s => s <| poll ::= fun p => p <| g_poll_period_ms := le16_at args 0 |>
            <| g_poll_max_misses := zget 0 args 2 |> <| g_poll_tcp_retries := zget 0 args 3 |> |>)
     else Done tt);== reply SHELL_OK []
  else if command =? CMD_BUS_LIST_SLAVES then
    now <== patomic ms_since_boot;;
    pmod (fun s => shell_reply req_id SHELL_OK (list_slaves now (ros s)) s)
  else if command =? CMD_BUS_POLL_ENABLE then
    (if 1 <=? alen then pmod (fun s => s <| poll ::= fun p => p <| g_poll_enabled := zget 0 args 0 |> |>) else Done tt);==
    reply SHELL_OK []
  else if command =? CMD_BUS_POLL_STATS then pmod (fun s => shell_reply req_id SHELL_OK (poll_stats s) s)
  else if command =? CMD_BUS_MEASURE_TA then
    pmod (fun s => s <| poll ::= fun p => p <| g_meas_ta_us := g_last_ta_us p |> |>);== reply SHELL_OK []
  else if command =? CMD_BUS_CYCLE_MODE then
    (if 1 <=? alen
     then pmod (fun s => s <| cyc ::= fun c => c <| g_cycle_mode := Z.b2z (nz (zget 0 args 0)) |>
            <| g_cycle_min := 0 |> <| g_cycle_max := 0 |> |>)
     else Done tt);== reply SHELL_OK []
  else if command =? CMD_BUS_MSG_INJECT then
    inj <== (if 2 <=? alen then inject (upto (zget 0 args 1)) (zget 0 args 0) (drop 2 args) 0 else Done 0);;
    reply SHELL_OK [inj]
  else if command =? CMD_BUS_SET_DEADLINE then
    pmod (fun s => s <| cyc ::= fun c =>
      (if 4 <=? alen then c <| g_cycle_deadline_us := le32_at args 0 |> else c)
        <| g_cycle_overruns := 0 |> <| g_cycle_minslack := 0x7FFFFFFF |> |>);== reply SHELL_OK []
  else if command =? CMD_BUS_SET_PACE then
    pmod (fun s =>
      let s := if 4 <=? alen then s <| cyc ::= fun c => c <| g_cycle_pace_us := le32_at args 0 |> |> else s in
      if 8 <=? alen then s <| dead ::= fun d => d <| g_dead_slowpoll_div := le32_at args 4 |> |> else s);== reply SHELL_OK []
  else if command =? CMD_BUS_UPLINK_FORCE then
    now <== patomic ms_since_boot;;
    pmod (fun s => s <| upl ::= fun u =>
      u <| g_uplink_force_until := u32 (now + (if 5 <=? alen then le32_at args 1 else 0)) |>
        <| g_uplink_force := if 1 <=? alen then zget 0 args 0 else 0xFF |> |>);== reply SHELL_OK []
  else if command =? CMD_APP_PP_START then
    pmod (fun s => pp_kick (s <| pp ::= fun p =>
      mk_pp 0 (g_pp_slave p) 0 1 (if 1 <=? alen then zget 0 args 0 else g_pp_addr p) 0 (g_pp_selftest p) |>));==
    reply SHELL_OK []
  else if command =? CMD_APP_PP_STOP then
    pmod (fun s => s <| pp ::= fun p => p <| g_pp_run := 0 |> |>);== reply SHELL_OK []
  else if command =? CMD_APP_PP_READ then
    pmod (fun s => shell_reply req_id SHELL_OK
      (wr_u32 (g_pp_master (pp s)) ++ wr_u32 (g_pp_slave_seen (pp s)) ++ wr_u32 (g_pp_slave (pp s))) s)
  else
    let '(st, out) := dispatch command args 64 in
    if st =? SHELL_ASYNC then Done tt
    else if negb (st =? CMD_NOT_MINE) then reply st out
    else reply SHELL_UNKNOWN_CMD [].

(** ** The commissioned roster *)

(** [rc] is what [boot_read_roster] read, [None] any code but ROSTER_OK. *)
Definition cfg_slave (c : Roster.roster_slave_t) : slave_t :=
  mk_slave (Roster.rs_addr c) (Roster.rs_variant c) (Roster.rs_flags c) 0 0 0 0 0 0.
Fixpoint load_slaves (cs : list Roster.roster_slave_t) (r : roster_st) : roster_st :=
  match cs with
  | [] => r
  | c :: cs =>
      if ROSTER_MAX <=? g_roster_n r then r
      else load_slaves cs (r <| g_roster ::= fun l => zset l (g_roster_n r) (cfg_slave c) |>
             <| g_roster_n ::= fun n => u8 (n + 1) |>)
  end.
Definition bc_load_cfg_roster (rc : option Roster.roster_cfg_t) (s : bc_t) : bc_t :=
  let s := s <| ros ::= fun r => mk_roster_st (g_roster r) 0 0 0 |> in
  let off := s <| poll ::= fun p => p <| g_poll_enabled := 0 |> |> in
  if g_identity_refused (upl s) then off
  else match rc with
  | None => off
  | Some c =>
      let s := s <| ros ::= load_slaves (Roster.rc_s c) |> in
      let s := s <| poll ::= fun p =>
        let p := if nz (Roster.grant_period_ms c) then p <| g_poll_period_ms := Roster.grant_period_ms c |> else p in
        let p := if nz (Roster.max_misses c) then p <| g_poll_max_misses := Roster.max_misses c |> else p in
        let p := if nz (Roster.tcp_retries c) then p <| g_poll_tcp_retries := Roster.tcp_retries c |> else p in
        p <| g_poll_enabled := Z.b2z (0 <? g_roster_n (ros s)) |> |> in
      s <| ros ::= fun r => r <| g_cfg_roster_n := g_roster_n r |> |>
  end.

(** ** The pumps *)

(** A reply or report of core 1 ([appcore_rep_t]). *)
Record appcore_rep_t := mk_rep { r_dest : Z; r_opcode : Z; r_payload : list Z }.
Definition relay_up (ups : list appcore_rep_t) (s : bc_t) : bc_t :=
  foldl (fun s r => (s2m (r_dest r) (r_opcode r) (r_payload r) (zlen (r_payload r)) s).2) s ups.

(** One received byte through the link and its callbacks. *)
Definition uplink_byte (dispatch : Z -> list Z -> Z -> Z * list Z) (byte : Z) : prog bc_t unit :=
  ev <== patomic (fun s => let '(h, ev) := host_link_feed (g_hl s) byte in (ev, s <| g_hl := h |>));;
  match ev with
  | Some (EvBusMsg dest opcode body) => pmod (on_bus_msg dest opcode body)
  | Some (EvLocalShell req_id command args) => on_local_shell dispatch req_id command args
  | None => Done tt
  end.
(** The bytes received and the items of [g_up_q] go in, the bytes for the port come out. *)
Definition usb_pump (dispatch : Z -> list Z -> Z -> Z * list Z) (rx : list Z) (ups : list appcore_rep_t)
    : prog bc_t (list Z) :=
  pfold (fun b _ => uplink_byte dispatch b) rx tt;==
  now <== patomic ms_since_boot;;
  patomic (fun s =>
    let s := relay_up ups (s <| g_hl ::= fun h => host_link_tick h now true |>) in
    let '(h, out) := host_link_tx_drain (g_hl s) 64 in (out, s <| g_hl := h |>)).
Definition standalone_pump : prog bc_t unit :=
  now <== patomic ms_since_boot;;
  pmod (fun s => s <| g_hl ::= fun h => (host_link_tx_drain (host_link_tick h now false) 64).1 |>).

Definition uplink_enter (banner : list Z) (rc : option Roster.roster_cfg_t) (active : bool) : prog bc_t unit :=
  pmod (fun s => bc_load_cfg_roster rc
    (s <| g_hl ::= host_link_reset_boot |> <| cmd ::= fun c => c <| g_cmd_pending := false |> |>));==
  pmod (fun s => s <| upl ::= fun u => u <| g_host_connected := active |> <| g_uplink_active := active |> |>);==
  if active then pmod (fun s => (s2m 1 OP_DBG_LOG banner (zlen banner) s).2) else Done tt.
