(* ===== verification/BcArbiter.v ===== *)
(** The master arbiter ([app/bus_controller/main.c]): the poll slot, the cyclic
    engine [bus_run_cycle] and the per-slot state machine of [bus_control_task]. *)
From Stdlib Require Import Ascii.
From S2P Require Import Prelude BusFrame LibcommFrame HostLink BcState Threads BcPool BcRoster BootFiles.

Definition OP_BUS_CMD_ACK : Z := 0x0018.
Definition OP_BUS_CMD_NAK : Z := 0x0019.
Definition OP_BUS_FEEDBACK : Z := 0x001C.

(** ** The line *)

(** The words of one frame; the receive ring is flushed before. *)
Definition bus_send (dest type : Z) (p : list Z) (len : Z) (s : bc_t) : bc_t :=
  let f := mk_frame dest BUS_ADDR_MASTER type (g_bus_seq (line s)) len
             (store (replicate (Z.to_nat BUS_PAYLOAD_MAX) 0) 0 (take (Z.to_nat len) p)) in
  s <| line ::= fun l => l <| g_bus_seq ::= fun q => u8 (q + 1) |> <| g_bus_msgs ::= fun n => u32 (n + 1) |> |>
    <| io ::= fun i => i <| out_words ::= fun o => o ++ [bus_frame_encode f] |> |>.

(** Every word of one millisecond, to the first complete frame. *)
Fixpoint feed_until (ws : list Z) (a : bus_asm_t) : bus_asm_t * option bus_frame_t :=
  match ws with
  | [] => (a, None)
  | w :: ws => match bus_asm_feed a w with (a, Some f) => (a, Some f) | (a, None) => feed_until ws a end
  end.
(** The turns of [for (t = 0; t < ms; t++)]; [mss] are the words of each. *)
Fixpoint recv_loop (turns : nat) (mss : list (list Z)) (a : bus_asm_t) : bus_asm_t * option bus_frame_t :=
  match turns with
  | O => (a, None)
  | S turns =>
      match feed_until (default [] (head mss)) a with
      | (a, Some f) => (a, Some f)
      | (a, None) => recv_loop turns (tail mss) a
      end
  end.
Definition bus_recv (ms : Z) (s : bc_t) : option bus_frame_t * bc_t :=
  let '(mss, s) := on_io (fun i => (default [] (head (in_recvs i)), i <| in_recvs ::= tail |>)) s in
  let '(a, f) := recv_loop (Z.to_nat ms) mss (g_bc (line s)) in
  (f, s <| line ::= fun l => l <| g_bc := a |> |>).

(** ** The poll slot *)
Inductive slot_result_t := SLOT_NO_RESPONSE | SLOT_OK | SLOT_BABBLE.

Definition frame_class (f : bus_frame_t) : Z := Z.land (f_type f) BUS_FT_MASK.
Definition is_shell_reply (f : bus_frame_t) : bool :=
  (frame_class f =? BUS_FT_DATA) && (2 <=? f_len f) &&
  (zget 0 (f_payload f) 0 =? u8 (Z.land OP_SHELL_REPLY 0xFF)) &&
  (zget 0 (f_payload f) 1 =? u8 (Z.shiftr OP_SHELL_REPLY 8)).

(** The reply to an engine origination: the piggybacked count is captured and
    stripped, the request id set to the host's. *)
Definition relay_orig (rb : list Z) (rn host_req : Z) (s : bc_t) : bc_t :=
  let s := if 7 <=? rn then s <| pp ::= fun p => p <| g_pp_slave_seen := le32_at rb (rn - 4) |> |> else s in
  let rn := if 7 <=? rn then rn - 4 else rn in
  if nz (g_pp_run (pp s)) then s
  else
    let rb := if 2 <=? rn then store rb 0 [u8 host_req; u8 (Z.shiftr host_req 8)] else rb in
    (s2m BUS_ADDR_APPCORE OP_SHELL_REPLY rb rn s).2.

Definition batch_feedback (addr : Z) (body : list Z) (s : bc_t) : bc_t :=
  let plen := zlen body in
  if g_fb_n (fb s) + 2 + plen <=? BUS_PAYLOAD_MAX then
    s <| fb ::= fun f => f <| g_fb_buf ::= fun b => store b (g_fb_n f) ([addr; plen] ++ body) |>
      <| g_fb_n ::= fun n => u8 (n + 2 + plen) |> <| g_fb_rec ::= fun r => u8 (r + 1) |> |>
  else s <| fb ::= fun f => f <| g_fb_drops ::= fun n => u32 (n + 1) |> |>.

Definition handle_slot_frame (addr : Z) (f : bus_frame_t) (s : bc_t) : bc_t :=
  if is_shell_reply f then
    let plen := u8 (f_len f - 2) in
    let body := take (Z.to_nat plen) (drop 2 (f_payload f)) in
    let rrq := if 2 <=? plen then le16_at (f_payload f) 2 else 0 in
    let '(hit, p) := if 2 <=? plen then corr_take rrq addr (tx_pool s) else (None, tx_pool s) in
    let s := s <| tx_pool := p |> in
    match hit with
    | Some (is_orig, host_req) =>
        let s := s <| tx_pool ::= fun p => p <| g_corr_relayed ::= fun n => u32 (n + 1) |> |> in
        if (is_orig : bool) then relay_orig body plen host_req s
        else (s2m addr OP_SHELL_REPLY body plen s).2
    | None =>
        if g_cycle_collecting (fb s) then batch_feedback addr body s
        else (s2m addr OP_SHELL_REPLY body plen s).2
    end
  else if frame_class f =? BUS_FT_NO_MESSAGE then
    match roster_find (ros s) addr with
    | Some i => if 1 <=? f_len f
                then s <| ros ::= set_slave i (fun x => x <| s_summary := zget 0 (f_payload f) 0 |>) |> else s
    | None => s
    end
  else s.

(** [while (bus_phy_rx_pop(&w)) ..]: whether a frame came from [addr]. *)
Fixpoint drain_slot (addr : Z) (ws : list Z) (from_addr : bool) (s : bc_t) : bool * bc_t :=
  match ws with
  | [] => (from_addr, s)
  | w :: ws =>
      let '(a, o) := bus_asm_feed (g_bc (line s)) w in
      let s := s <| line ::= fun l => l <| g_bc := a |> |> in
      match o with
      | Some f => if f_src f =? addr then drain_slot addr ws true (handle_slot_frame addr f s)
                  else drain_slot addr ws from_addr s
      | None => drain_slot addr ws from_addr s
      end
  end.

(** The receive interrupt of an armed slot. *)
Definition master_rx_hook (ta : Z) (s : bc_t) : bc_t :=
  if g_slot_first (line s) then s
  else s <| line ::= fun l => l <| g_slot_first := true |> |>
         <| poll ::= fun p => p <| g_last_ta_us := if 0xFFFF <? ta then 0xFFFF else u16 ta |> |>.
Definition slot_wait (r : round_in) (s : bc_t) : bc_t := if rd_heard r then master_rx_hook (rd_ta_us r) s else s.

(** The first wait and the [for (;;)] of the grace re-drain; a list of waits that ends
    while the loop goes on is a slot that does not end. *)
Fixpoint slot_rounds (addr : Z) (rs : list round_in) (from_addr : bool) : prog bc_t bool :=
  match rs with
  | [] => phang
  | r :: rs =>
      pmod (slot_wait r);==
      got <== patomic (drain_slot addr (rd_words r) from_addr);;
      first <== pget (fun s => g_slot_first (line s));;
      if got || negb first then Done got
      else if T_WINDOW_MAX_US <=? u32 (rd_us r) then Done got
      else slot_rounds addr rs got
  end.

Definition bus_poll_slot (addr : Z) : prog bc_t slot_result_t :=
  pmod (fun s => bus_send addr BUS_FT_POLL [] 0 (s <| line ::= fun l => l <| g_slot_first := false |> |>));==
  si <== patomic (next_slot addr);;
  got <== slot_rounds addr (si_rounds si) false;;
  if (got : bool) then Done (if T_WINDOW_MAX_US <=? u32 (si_end_us si) then SLOT_BABBLE else SLOT_OK)
  else
    pmod (fun s => s <| line ::= fun l =>
      if g_slot_first l then l <| g_miss_partial ::= fun n => u32 (n + 1) |>
      else l <| g_miss_silent ::= fun n => u32 (n + 1) |> |>);==
    Done SLOT_NO_RESPONSE.

(** ** Debug lines ([snprintf]) *)
Fixpoint digits (fuel : nat) (base v : Z) : list Z :=
  match fuel with
  | O => []
  | S fuel => if v =? 0 then []
              else digits fuel base (v / base) ++ [let d := v mod base in if d <? 10 then 0x30 + d else 0x37 + d]
  end.
Definition pct_u (v : Z) : list Z := if v =? 0 then [0x30] else digits 10 10 v.
Definition pct_02X (v : Z) : list Z := if v <? 16 then 0x30 :: (if v =? 0 then [0x30] else digits 1 16 v) else digits 8 16 v.
Definition snprintf (size : Z) (text : list Z) : list Z := take (Z.to_nat (size - 1)) text.
Definition dbg_log (text : list Z) (s : bc_t) : bc_t := (s2m 1 OP_DBG_LOG text (u8 (zlen text)) s).2.

(** ** The cyclic engine *)

(** (-1) Rebuild the node table after a change of the roster. *)
Definition detach_and_rebuild (s : bc_t) : option (option Z * bc_t) :=
  let p := tx_pool s <| g_nodes_dirty := false |> in
  match detach_all (node_lists (g_nodes_n p)) None p with
  | None => None
  | Some (orphans, p) =>
      let p := bus_nodetable_build (ros s) p in
      Some (orphans, s <| tx_pool := p <| g_corr ::= map (fun c => c <| c_used := 0 |>) |> |>)
  end.
Definition cycle_rebuild : prog bc_t unit :=
  dirty <== pget (fun s => g_nodes_dirty (tx_pool s));;
  if (dirty : bool) then
    orphans <== atomic detach_and_rebuild;;
    recover_chain chain_fuel orphans 0;==
    pmod (fun s => s <| tx_pool ::= fun p => p <| g_nodes_rebuilds ::= fun n => u32 (n + 1) |> |>)
  else Done tt.

(** (0) The host's command, if one is pending: slave, request id and bus message. *)
Definition take_command (s : bc_t) : option (Z * Z * list Z) * bc_t :=
  let c := cmd s in
  if g_cmd_pending c then
    let m := if u8 (BUS_PAYLOAD_MAX - 2) <? g_cmd_len c then u8 (BUS_PAYLOAD_MAX - 2) else g_cmd_len c in
    let fr := [u8 (Z.land (g_cmd_op c) 0xFF); u8 (Z.shiftr (g_cmd_op c) 8)] ++ take (Z.to_nat m) (g_cmd_body c) in
    (Some (g_cmd_slave c, g_cmd_req_id c, fr), s <| cmd ::= fun c => c <| g_cmd_pending := false |> |>)
  else (None, s).
Definition cycle_command : prog bc_t unit :=
  c <== patomic take_command;;
  match c with
  | Some (cs, crq, fr) =>
      corr_add crq cs false crq;==
      bus_msg_send cs fr (zlen fr) (u32 (Z.lor 0xC1000000 crq));==
      Done tt
  | None => Done tt
  end.

(** (1) The message pass: the queued buffers of a node, then of every node. [dead] is
    the bus task's own to write, so the chain is sent or dropped as a whole. *)
Fixpoint send_chain (fuel : nat) (i : Z) (b : option Z) (sent : bool) : prog bc_t bool :=
  match b, fuel with
  | None, _ => Done sent
  | Some _, O => phang
  | Some x, S fuel =>
      nx <== patomic (fun s =>
        let n := node_at (tx_pool s) i in
        let m := buf_at (tx_pool s) x in
        let s := if nz (nd_dead n) then s else bus_send (nd_addr n) BUS_FT_DATA (b_payload m) (b_len m) s in
        ((b_next m, negb (nz (nd_dead n))), s <| tx_pool ::= pool_recover (Some x) |>));;
      send_chain fuel i nx.1 (sent || nx.2)
  end.
(** [marked] holds the flags of the nodes passed. *)
Definition message_node (a i : Z) (marked : list bool) : prog bc_t (list bool) :=
  b <== patomic (on_pool (take_list i a));;
  m <== send_chain chain_fuel i b false;;
  Done (marked ++ [m]).

(** (2) The sweep over unmarked live nodes: the slowest slot and its node. *)
Definition sweep_result (i : Z) (r : slot_result_t) (now : Z) (s : bc_t) : bc_t :=
  let s := s <| poll ::= fun p => p <| g_poll_total ::= fun n => u32 (n + 1) |> |> in
  let n := node_at (tx_pool s) i in
  match r with
  | SLOT_NO_RESPONSE =>
      let s := mark_miss (nd_addr n) (s <| poll ::= fun p => p <| g_poll_miss ::= fun n => u32 (n + 1) |> |>) in
      if nd_miss n <? 0xFF then
        let k := nd_miss n + 1 in
        let d := if g_poll_max_misses (poll s) <=? k then 1 else nd_dead n in
        s <| tx_pool ::= set_node i (fun n => n <| nd_miss := k |> <| nd_dead := d |>) |>
      else s
  | _ =>
      s <| ros ::= mark_alive (nd_addr n) now |>
        <| poll ::= fun p => p <| g_poll_alive ::= fun n => u32 (n + 1) |> <| g_meas_ta_us := g_last_ta_us p |> |>
        <| tx_pool ::= set_node i (fun n => n <| nd_miss := 0 |>) |>
  end.
Definition sweep_node (marked : list bool) (i : Z) (slow : Z * Z) : prog bc_t (Z * Z) :=
  n <== pget (fun s => node_at (tx_pool s) i);;
  if nz (nd_dead n) || zget false marked i then Done slow
  else
    st <== patomic time_us_32;;
    r <== bus_poll_slot (nd_addr n);;
    t <== patomic time_us_32;;
    now <== patomic ms_since_boot;;
    pmod (sweep_result i r now);==
    let sl := u32 (t - st) in
    Done (if slow.1 <? sl then (sl, nd_addr n) else slow).

(** (2a) The probe of one dead node every [g_dead_slowpoll_div] cycles. *)
Definition probe_due (s : bc_t) : bool * bc_t :=
  let d := dead s in
  if negb (nz (g_dead_slowpoll_div d)) then (false, s)
  else
    let t := u32 (g_dead_tick d + 1) in
    if g_dead_slowpoll_div d <=? t then (true, s <| dead ::= fun d => d <| g_dead_tick := 0 |> |>)
    else (false, s <| dead ::= fun d => d <| g_dead_tick := t |> |>).
(** The index the loop probes, [None] if no node is dead; the cursor moves behind it. *)
Definition dead_pick (s : bc_t) : option Z * bc_t :=
  let p := tx_pool s in let n := g_nodes_n p in
  match find_index (fun k => nz (nd_dead (node_at p (u8 ((g_dead_cursor (dead s) + k) mod n))))) (upto n) with
  | None => (None, s)
  | Some k =>
      let i := u8 ((g_dead_cursor (dead s) + Z.of_nat k) mod n) in
      (Some i, s <| dead ::= fun d => d <| g_dead_cursor := u8 ((i + 1) mod n) |> |>)
  end.
Definition probe_result (i : Z) (r : slot_result_t) (now : Z) (s : bc_t) : bc_t :=
  let s := s <| poll ::= fun p => p <| g_poll_total ::= fun n => u32 (n + 1) |> |> in
  match r with
  | SLOT_NO_RESPONSE => s <| poll ::= fun p => p <| g_poll_miss ::= fun n => u32 (n + 1) |> |>
  | _ =>
      s <| tx_pool ::= set_node i (fun n => n <| nd_dead := 0 |> <| nd_miss := 0 |>) |>
        <| poll ::= fun p => p <| g_poll_alive ::= fun n => u32 (n + 1) |> |>
        <| ros ::= mark_alive (nd_addr (node_at (tx_pool s) i)) now |>
        <| dead ::= fun d => d <| g_dead_revives ::= fun n => u32 (n + 1) |> |>
  end.
Definition dead_probe : prog bc_t unit :=
  due <== patomic probe_due;;
  if (due : bool) then
    pick <== patomic dead_pick;;
    match pick with
    | None => Done tt
    | Some i =>
        addr <== pget (fun s => nd_addr (node_at (tx_pool s) i));;
        r <== bus_poll_slot addr;;
        now <== patomic ms_since_boot;;
        pmod (probe_result i r now)
    end
  else Done tt.

Definition dead_count (p : pool_t) : Z :=
  zlen (filter (fun i => nz (nd_dead (node_at p i)) = true) (upto (g_nodes_n p))).
(** [g_nodes_dead] and the interlock's copy. *)
Definition mirror_dead (s : bc_t) : bc_t :=
  let nd := u8 (dead_count (tx_pool s)) in
  s <| dead ::= fun d => d <| g_nodes_dead := nd |> <| g_il_nodes_dead := nd |> |>.

(** (2b) The deferred exhaustion notice, at most one in 100 ms. *)
Definition exhausted_notify : prog bc_t unit :=
  ex <== pget (fun s => g_pool_exhausted (tx_pool s));;
  go <== pget (fun s => g_uplink_active (upl s) && negb (ex =? s_seen_ex (cyc s)));;
  if (go : bool) then
    nms <== patomic ms_since_boot;;
    pmod (fun s =>
      if 100 <=? u32 (nms - s_last_ex_ms (cyc s)) then
        dbg_log (snprintf 48 (chars "[pool-exhausted] n=" ++ pct_u ex ++ chars " low=" ++ pct_u (g_pool_low (tx_pool s))))
          (s <| cyc ::= fun c => c <| s_last_ex_ms := nms |> <| s_seen_ex := ex |> |>)
      else s)
  else Done tt.

(** (3) Cycle time, slack and overruns. *)
Definition cycle_stat (ct slow_us slow_addr : Z) (s : bc_t) : bc_t :=
  s <| cyc ::= fun c =>
    let slack := s32 (g_cycle_deadline_us c) - s32 ct in
    mk_cyc (g_cycle_mode c) ct
      (if (g_cycle_min c =? 0) || (ct <? g_cycle_min c) then ct else g_cycle_min c)
      (if g_cycle_max c <? ct then ct else g_cycle_max c)
      (g_cycle_deadline_us c)
      (if g_cycle_deadline_us c <? ct then u32 (g_cycle_overruns c + 1) else g_cycle_overruns c)
      (if slack <? g_cycle_minslack c then slack else g_cycle_minslack c)
      slow_addr slow_us (g_cycle_pace_us c) (s_seen_ex c) (s_last_ex_ms c) (s_last_notify_ms c) |>.
Definition overrun_notify (ct slow_us slow_addr : Z) : prog bc_t unit :=
  over <== pget (fun s => g_cycle_deadline_us (cyc s) <? ct);;
  if (over : bool) then
    nms <== patomic ms_since_boot;;
    pmod (fun s =>
      if g_uplink_active (upl s) && (100 <=? u32 (nms - s_last_notify_ms (cyc s))) then
        dbg_log (snprintf 64 (chars "[overrun] cycle=" ++ pct_u ct ++ chars "us deadline=" ++
            pct_u (g_cycle_deadline_us (cyc s)) ++ chars "us slow=0x" ++ pct_02X slow_addr ++ chars "/" ++
            pct_u slow_us ++ chars "us"))
          (s <| cyc ::= fun c => c <| s_last_notify_ms := nms |> |>)
      else s)
  else Done tt.

(** (4) The bench's next round, (4b) the cycle's feedback. *)
Definition cycle_kick (s : bc_t) : bc_t :=
  if nz (g_pp_run (pp s)) && (g_pp_kicks (pp s) =? g_pp_master (pp s)) then pp_kick s else s.
Definition emit_feedback (s : bc_t) : bc_t :=
  let s := s <| fb ::= fun f => f <| g_cycle_collecting := false |> |> in
  if g_uplink_active (upl s) && (0 <? g_fb_rec (fb s)) then
    let s := s <| fb ::= fun f => f <| g_fb_buf ::= fun b => store b 0 [g_fb_rec f] |> |> in
    (s2m 1 OP_BUS_FEEDBACK (g_fb_buf (fb s)) (g_fb_n (fb s)) s).2
      <| fb ::= fun f => f <| g_fb_frames ::= fun n => u32 (n + 1) |> |>
  else s.
(** (5) Pacing: only the clock is read. *)
Definition cycle_pace (t0 : Z) : prog bc_t unit :=
  pace <== pget (fun s => g_cycle_pace_us (cyc s));;
  if nz pace then patomic time_us_32;== Done tt else Done tt.

Definition begin_feedback (s : bc_t) : bc_t :=
  s <| fb ::= fun f => f <| g_fb_n := 1 |> <| g_fb_rec := 0 |> <| g_cycle_collecting := true |> |>.

Definition bus_run_cycle : prog bc_t unit :=
  cycle_rebuild;==
  cycle_command;==
  pmod bus_pingpong_swap;==
  t0 <== patomic time_us_32;;
  an <== pget (fun s => (g_active_idx (tx_pool s), g_nodes_n (tx_pool s)));;
  pmod begin_feedback;==
  marked <== pfold (message_node an.1) (upto an.2) [];;
  slow <== pfold (sweep_node marked) (upto an.2) (0, 0);;
  dead_probe;==
  pmod mirror_dead;==
  exhausted_notify;==
  t1 <== patomic time_us_32;;
  pmod (cycle_stat (u32 (t1 - t0)) slow.1 slow.2);==
  overrun_notify (u32 (t1 - t0)) slow.1 slow.2;==
  pmod cycle_kick;==
  pmod emit_feedback;==
  cycle_pace t0.

(** ** The per-slot rotation *)
Inductive bs_state := BS_SWEEP | BS_CMD_INJECT | BS_CMD_COLLECT.

(** The task's locals. *)
Record ctl_t := mk_ctl { ct_state : bs_state; ct_slave : Z; ct_tries : Z; ct_is_orig : bool; ct_host : Z }.
#[export] Instance eta_ctl_t : Settable ctl_t := fun c =>
  mk_ctl (ct_state c) (ct_slave c) (ct_tries c) (ct_is_orig c) (ct_host c).
Definition ctl0 : ctl_t := mk_ctl BS_SWEEP 0 0 false 0.

(** An engine request becomes the command in flight. *)
Definition promote (s : bc_t) : bc_t :=
  if g_cmd_pending (cmd s) then s
  else
    let '(o, s) := on_io (fun i => (default None (head (in_origs i)), i <| in_origs ::= tail |>)) s in
    match o with
    | None => s
    | Some o =>
        let sr := u16 (g_orig_seq (cmd s) + 1) in
        let sr := if sr =? 0 then u16 (sr + 1) else sr in
        let hdr := [u8 sr; u8 (Z.shiftr sr 8); u8 (Z.land CMD_APP_ECHO 0xFF); u8 (Z.shiftr CMD_APP_ECHO 8)] in
        let m := if u8 (BUS_PAYLOAD_MAX - 4) <? o_len o then u8 (BUS_PAYLOAD_MAX - 4) else o_len o in
        s <| cmd ::= fun c => mk_cmd true (o_addr o) OP_SHELL_EXEC sr
               (store (g_cmd_body c) 0 (hdr ++ take (Z.to_nat m) (o_bytes o))) (u8 (4 + m)) true (o_host_req_id o) sr |>
    end.

Definition inject_pass (now : Z) (c : cmd_st) : prog bc_t ctl_t :=
  let clen := if u8 (BUS_PAYLOAD_MAX - 2) <? g_cmd_len c then BUS_PAYLOAD_MAX - 2 else g_cmd_len c in
  let p := [u8 (Z.land (g_cmd_op c) 0xFF); u8 (Z.shiftr (g_cmd_op c) 8)] ++ take (Z.to_nat clen) (g_cmd_body c) in
  pmod (bus_send (g_cmd_slave c) BUS_FT_DATA p (u8 (2 + clen)));==
  got <== patomic (bus_recv CMD_ACK_TIMEOUT_MS);;
  pmod (fun s =>
    let s := match got with
      | Some rf =>
          if f_src rf =? g_cmd_slave c then
            let s := s <| ros ::= mark_alive (g_cmd_slave c) now |> in
            let cls := frame_class rf in
            if negb (g_cmd_is_orig c) && ((cls =? BUS_FT_ACK) || (cls =? BUS_FT_NAK)) then
              (s2m (g_cmd_slave c) (if cls =? BUS_FT_NAK then OP_BUS_CMD_NAK else OP_BUS_CMD_ACK)
                ([g_cmd_slave c] ++ wr_u16 (g_cmd_req_id (cmd s))) 3 s).2
            else s
          else s
      | None => s
      end in
    s <| cmd ::= fun c => c <| g_cmd_pending := false |> |>);==
  Done (mk_ctl BS_CMD_COLLECT (g_cmd_slave c) CMD_COLLECT_TRIES (g_cmd_is_orig c) (g_cmd_host_req c)).

Definition collect_reply (c : ctl_t) (rf : bus_frame_t) (s : bc_t) : bc_t :=
  let rn := u8 (f_len rf - 2) in
  let rb := take (Z.to_nat rn) (drop 2 (f_payload rf)) in
  if ct_is_orig c then relay_orig rb rn (ct_host c) s
  else (s2m (ct_slave c) OP_SHELL_REPLY rb rn s).2.
Definition one_try (c : ctl_t) : ctl_t :=
  let c := c <| ct_tries ::= fun t => u8 (t - 1) |> in
  if ct_tries c =? 0 then c <| ct_state := BS_SWEEP |> else c.
Definition collect_frame (now : Z) (c : ctl_t) (rf : bus_frame_t) (s : bc_t) : ctl_t * bc_t :=
  let s := s <| ros ::= mark_alive (ct_slave c) now |> in
  if is_shell_reply rf then (c <| ct_is_orig := false |> <| ct_state := BS_SWEEP |>, collect_reply c rf s)
  else if frame_class rf =? BUS_FT_NO_MESSAGE then
    (one_try c,
     match roster_find (ros s) (ct_slave c) with
     | Some i => if 1 <=? f_len rf
                 then s <| ros ::= set_slave i (fun x => x <| s_summary := zget 0 (f_payload rf) 0 |>) |> else s
     | None => s
     end)
  else (one_try c, s).
Definition collect_pass (now : Z) (c : ctl_t) : prog bc_t ctl_t :=
  run_on <== pget (fun s => nz (g_pp_run (pp s)));;
  pmod (bus_send (ct_slave c) BUS_FT_POLL [] 0);==
  got <== patomic (bus_recv CMD_COLLECT_TIMEOUT_MS);;
  c' <== match got with
         | Some rf => if f_src rf =? ct_slave c then patomic (collect_frame now c rf) else Done (one_try c)
         | None => Done (one_try c)
         end;;
  match ct_state c' with
  | BS_SWEEP => if ct_is_orig c && run_on then pmod pp_kick;== Done c' else Done c'
  | _ => Done c'
  end.

Definition rotate_result (addr : Z) (r : slot_result_t) (now : Z) (s : bc_t) : bc_t :=
  let s := s <| poll ::= fun p => p <| g_poll_total ::= fun n => u32 (n + 1) |> |> in
  match r with
  | SLOT_NO_RESPONSE => mark_miss addr (s <| poll ::= fun p => p <| g_poll_miss ::= fun n => u32 (n + 1) |> |>)
  | _ =>
      s <| poll ::= fun p => p <| g_poll_alive ::= fun n => u32 (n + 1) |> <| g_meas_ta_us := g_last_ta_us p |> |>
        <| ros ::= mark_alive addr now |>
  end.
Definition sweep_pass : prog bc_t unit :=
  addr <== patomic (fun s =>
    if nz (g_poll_enabled (poll s)) then let '(a, r) := next_enabled_addr (ros s) in (a, s <| ros := r |>) else (0xFF, s));;
  if addr =? 0xFF then Done tt
  else
    r <== bus_poll_slot addr;;
    seen <== patomic ms_since_boot;;
    pmod (rotate_result addr r seen).

(** One turn of [bus_control_task]'s loop. *)
Definition bus_control_pass (c : ctl_t) : prog bc_t ctl_t :=
  refused <== pget (fun s => g_identity_refused (upl s));;
  if (refused : bool) then Done c
  else
    mode <== pget (fun s => g_cycle_mode (cyc s));;
    if nz mode then bus_run_cycle;== pmod emit_liveness_edges;== Done c
    else
      now <== patomic ms_since_boot;;
      c' <== match ct_state c with
             | BS_SWEEP =>
                 pmod promote;==
                 q <== pget cmd;;
                 if g_cmd_pending q then inject_pass now q else sweep_pass;== Done c
             | _ => collect_pass now c
             end;;
      pmod emit_liveness_edges;== Done c'.

(** The task's set-up, once the pool is carved. *)
Definition bus_control_start : prog bc_t unit :=
  pmod (fun s => s <| tx_pool ::= bus_nodetable_build (ros s) |>);== bus_pp_selftest.

(** ** The engine's origination ([kbapp_on_echo_to]): a producer on core 1 *)
Definition kbapp_on_echo_to (addr req_id : Z) (bytes : list Z) : prog bc_t unit :=
  mode <== patomic (fun s => (g_cycle_mode (cyc s), s <| pp ::= fun p => p <| g_pp_master ::= fun n => u32 (n + 1) |> |>));;
  let m := if ORIG_PAY_MAX <? zlen bytes then ORIG_PAY_MAX else zlen bytes in
  if nz mode then
    sr <== patomic (fun s =>
      let sr := u16 (g_orig_seq (cmd s) + 1) in
      let sr := if sr =? 0 then u16 (sr + 1) else sr in
      (sr, s <| cmd ::= fun c => c <| g_orig_seq := sr |> |>));;
    let pb := [u8 (Z.land OP_SHELL_EXEC 0xFF); u8 (Z.shiftr OP_SHELL_EXEC 8); u8 sr; u8 (Z.shiftr sr 8);
               u8 (Z.land CMD_APP_ECHO 0xFF); u8 (Z.shiftr CMD_APP_ECHO 8)] ++ take (Z.to_nat m) bytes in
    corr_add sr addr true req_id;==
    bus_msg_send addr pb (zlen pb) (u32 (Z.lor 0xC2000000 sr));==
    Done tt
  else
    pmod (fun s =>
      let '(ok, s) := queue_sent s in
      if ok then s <| io ::= fun i => i <| out_origs ::= fun l => l ++ [mk_orig addr req_id m (take (Z.to_nat m) bytes)] |> |>
      else s).
