(* ===== verification/BcPoolSafety.v ===== *)
(** Ownership of the transmit pool's buffers: each is on the free list, on one list of one
    node, or with one thread, and every critical section keeps it so. *)
From stdpp Require Import functions.
From S2P Require Import Prelude BcState BcPool.

(** ** Specification *)

(** [p] is the head of the chain of buffers [l]. *)
Fixpoint chain (bs : list tx_buf_t) (p : option Z) (l : list Z) : Prop :=
  match l with
  | [] => p = None
  | b :: l => p = Some b /\ chain bs (b_next (zget tx_buf0 bs b)) l
  end.

(** What a thread holds for itself: one buffer, or a chain taken off a list. *)
Inductive part := Own (b : Z) | Chain (p : option Z) (l : list Z).
Definition part_bufs (c : part) : list Z := match c with Own b => [b] | Chain _ l => l end.
Definition part_ok (bs : list tx_buf_t) (c : part) : Prop := match c with Own _ => True | Chain p l => chain bs p l end.

(** The 32 list heads. *)
Definition heads : list (Z * Z) := node_lists ROSTER_MAX.
Definition queued (Q : Z * Z -> list Z) : list Z := concat (map Q heads).

(** [free] is the free list, [Q] what the nodes' lists hold, [P] what threads hold. *)
Record pool_own (p : pool_t) (free : list Z) (Q : Z * Z -> list Z) (P : list part) : Prop := {
  po_free : chain (bufs p) (g_pool_free p) free;
  po_lists : forall k, k ∈ heads -> chain (bufs p) (list_at p k.1 k.2) (Q k);
  po_parts : Forall (part_ok (bufs p)) P;
  po_all : free ++ queued Q ++ concat (map part_bufs P) ≡ₚ upto BUS_POOL_N
}.
Record pool_wf (p : pool_t) : Prop := {
  pw_bufs : zlen (bufs p) = BUS_POOL_N; pw_n : g_pool_n p = BUS_POOL_N;
  pw_low : 0 <= g_pool_low p <= g_pool_avail p;
  pw_nodes : zlen (g_nodes p) = ROSTER_MAX;
  pw_two : Forall (fun n => length (nd_list n) = 2%nat) (g_nodes p);
  pw_nodes_n : 0 <= g_nodes_n p <= ROSTER_MAX;
  pw_active : g_active_idx p = 0 \/ g_active_idx p = 1;
  pw_rest : forall i bl, g_nodes_n p <= i < ROSTER_MAX -> bl = 0 \/ bl = 1 -> list_at p i bl = None
}.
Definition pool_inv (p : pool_t) (P : list part) : Prop :=
  pool_wf p /\ exists free Q, pool_own p free Q P /\ g_pool_avail p = zlen free.

(** A table without queued messages. *)
Definition table_empty (l : list bus_node_t) : Prop := Forall (fun n => nd_list n = [None; None]) l.

(** ** Chains *)
Lemma chain_None bs l : chain bs None l -> l = [].
Proof. by destruct l as [|b l]; [|intros [? _]]. Qed.
Lemma chain_Some bs b l : chain bs (Some b) l -> exists k, l = b :: k /\ chain bs (b_next (zget tx_buf0 bs b)) k.
Proof. destruct l as [|x l]; [done|]. intros [? ?]. simplify_eq. eauto. Qed.

Lemma chain_zset bs b v p l : b ∉ l -> Forall (fun x => 0 <= x) l -> chain bs p l -> chain (zset bs b v) p l.
Proof.
  revert p. induction l as [|x l IH]; intros p Hb Hl; simpl; [done|].
  apply not_elem_of_cons in Hb as [Hx Hb]. apply Forall_cons in Hl as [Hx0 Hl].
  intros [-> Hc]. split; [done|]. rewrite zget_zset_ne by done. by apply IH.
Qed.

Lemma upto_spec n x : x ∈ upto n <-> 0 <= x < n.
Proof.
  unfold upto. rewrite list_elem_of_fmap. split.
  - intros (k & -> & Hk). apply elem_of_seq in Hk. lia.
  - intros Hx. exists (Z.to_nat x). split; [lia|]. apply elem_of_seq. lia.
Qed.
Lemma upto_NoDup n : NoDup (upto n).
Proof. apply NoDup_fmap_2; [intros ? ?; lia|apply NoDup_seq]. Qed.
Lemma upto_len n : 0 <= n -> zlen (upto n) = n.
Proof. intros. unfold zlen, upto. rewrite length_map, length_seq. lia. Qed.

Lemma heads_spec k : k ∈ heads <-> 0 <= k.1 < ROSTER_MAX /\ (k.2 = 0 \/ k.2 = 1).
Proof.
  unfold heads, node_lists. rewrite list_elem_of_bind. setoid_rewrite upto_spec. destruct k as [i bl]. split.
  - intros (x & Hx & Hr). apply list_elem_of_In in Hx. simpl in *. destruct Hx as [?|[?|?]]; simplify_eq; tauto.
  - simpl. intros [Hi Hb]. exists i. split; [|done]. destruct Hb as [-> | ->]; [left|right; left].
Qed.
Lemma heads_NoDup : NoDup heads.
Proof. vm_decide. Qed.

(** One list replaced. *)
Lemma queued_focus Q k : k ∈ heads ->
  exists R, queued Q ≡ₚ Q k ++ R /\ forall v, queued (<[k := v]> Q) ≡ₚ v ++ R.
Proof.
  unfold queued. intros Hk. pose proof heads_NoDup as Hnd.
  apply list_elem_of_split in Hk as (l1 & l2 & E). rewrite E in *. clear E.
  apply NoDup_app in Hnd as (_ & Hn1 & Hnd). apply NoDup_cons in Hnd as [Hn2 _].
  assert (H1 : k ∉ l1) by (intros H; by apply (Hn1 _ H), list_elem_of_here).
  exists (concat (map Q l1) ++ concat (map Q l2)).
  assert (Hout : forall v l, k ∉ l -> map (<[k := v]> Q) l = map Q l).
  { intros v l Hl. apply map_ext_in. intros x Hx. apply fn_lookup_insert_ne. intros ->.
    by apply Hl, list_elem_of_In. }
  split; [|intros v]; rewrite map_app, concat_app; simpl.
  - solve_Permutation.
  - rewrite !Hout, fn_lookup_insert by done. solve_Permutation.
Qed.

(** ** Ownership *)
Lemma own_perm p free Q P P' : P ≡ₚ P' -> pool_own p free Q P -> pool_own p free Q P'.
Proof.
  intros HP [Hf Hl Hp Ha]. split; [done|done|by rewrite <- HP|]. by rewrite <- HP.
Qed.
Lemma inv_perm p P P' : P ≡ₚ P' -> pool_inv p P -> pool_inv p P'.
Proof. intros HP (Hw & free & Q & Ho & Ha). split; [done|]. eauto 6 using own_perm. Qed.

(** Only the buffers, the free head and the list heads matter. *)
Lemma own_ext p p' free Q P :
  bufs p' = bufs p -> g_pool_free p' = g_pool_free p ->
  (forall k, k ∈ heads -> list_at p' k.1 k.2 = list_at p k.1 k.2) ->
  pool_own p free Q P -> pool_own p' free Q P.
Proof.
  intros E1 E2 E3 [Hf Hl Hp Ha]. split; rewrite ?E1, ?E2; try done. intros k Hk. rewrite E3 by done. by apply Hl.
Qed.

Lemma own_range p free Q P x :
  pool_own p free Q P -> x ∈ free ++ queued Q ++ concat (map part_bufs P) -> 0 <= x < BUS_POOL_N.
Proof. intros Ho Hx. rewrite (po_all _ _ _ _ Ho) in Hx. by apply upto_spec. Qed.
Lemma own_NoDup p free Q P : pool_own p free Q P -> NoDup (free ++ queued Q ++ concat (map part_bufs P)).
Proof. intros Ho. rewrite (po_all _ _ _ _ Ho). apply upto_NoDup. Qed.

Lemma queued_elem Q k x : k ∈ heads -> x ∈ Q k -> x ∈ queued Q.
Proof.
  intros Hk Hx. destruct (queued_focus Q k Hk) as (R & -> & _). apply elem_of_app. by left.
Qed.
Lemma parts_elem P c x : c ∈ P -> x ∈ part_bufs c -> x ∈ concat (map part_bufs P).
Proof.
  intros Hc Hx. apply list_elem_of_split in Hc as (l1 & l2 & ->). rewrite map_app, concat_app. simpl.
  rewrite !elem_of_app. tauto.
Qed.

(** A buffer that is owned is nowhere else. *)
Lemma own_elsewhere p free Q b P :
  pool_own p free Q (Own b :: P) ->
  0 <= b < BUS_POOL_N /\ (b ∉ free) /\ (b ∉ queued Q) /\ (b ∉ concat (map part_bufs P)).
Proof.
  intros Ho. pose proof (own_NoDup _ _ _ _ Ho) as Hnd. split.
  { apply (own_range _ _ _ _ _ Ho). simpl. rewrite !elem_of_app, elem_of_cons. tauto. }
  assert (E : (free ++ queued Q ++ concat (map part_bufs (Own b :: P))) ≡ₚ
              (b :: free ++ queued Q ++ concat (map part_bufs P))) by (simpl; solve_Permutation).
  rewrite E in Hnd. apply NoDup_cons in Hnd as [Hb _]. rewrite !elem_of_app in Hb. tauto.
Qed.

Lemma own_nonneg p free Q P l :
  pool_own p free Q P -> l ⊆ (free ++ queued Q ++ concat (map part_bufs P)) -> Forall (fun x => 0 <= x) l.
Proof. intros Ho Hl. apply Forall_forall. intros x Hx. apply (own_range _ _ _ _ _ Ho), Hl, Hx. Qed.

Lemma own_set_buf p free Q b g P :
  pool_own p free Q (Own b :: P) -> pool_own (set_buf b g p) free Q (Own b :: P).
Proof.
  intros Ho. destruct (own_elsewhere _ _ _ _ _ Ho) as (_ & Hf & Hq & Hp). split; simpl.
  - apply chain_zset; [done|eapply own_nonneg; [exact Ho|]; intros x; rewrite !elem_of_app; tauto|apply Ho].
  - intros k Hk. apply chain_zset; [|eapply own_nonneg; [exact Ho|]|by apply Ho].
    + intros H. by apply Hq, (queued_elem _ k).
    + intros x Hx. rewrite !elem_of_app. right. left. by apply (queued_elem _ k).
  - constructor; [done|]. pose proof (po_parts _ _ _ _ Ho) as HP. apply Forall_cons in HP as [_ HP].
    apply Forall_forall. intros c Hc. rewrite Forall_forall in HP. specialize (HP c Hc).
    destruct c as [x|h l]; [done|]. simpl in *. apply chain_zset; [|eapply own_nonneg; [exact Ho|]|done].
    + intros H. by apply Hp, (parts_elem _ (Chain h l)).
    + intros x Hx. simpl. rewrite !elem_of_app. do 3 right. by apply (parts_elem _ (Chain h l)).
  - apply Ho.
Qed.

(** The head of a private chain is a buffer of its own, and back. *)
Lemma own_split p free Q b l P :
  pool_own p free Q (Chain (Some b) l :: P) ->
  exists k, l = b :: k /\ pool_own p free Q (Own b :: Chain (b_next (buf_at p b)) k :: P).
Proof.
  intros [Hf Hl Hp Ha]. apply Forall_cons in Hp as [Hc Hp]. destruct (chain_Some _ _ _ Hc) as (k & -> & Hk).
  exists k. split; [done|]. split; [done|done| |done]. by repeat constructor.
Qed.
Lemma own_join p free Q b o k P :
  b_next (buf_at p b) = o -> pool_own p free Q (Own b :: Chain o k :: P) ->
  pool_own p free Q (Chain (Some b) (b :: k) :: P).
Proof.
  intros E [Hf Hl Hp Ha]. apply Forall_cons in Hp as [_ Hp]. apply Forall_cons in Hp as [Hc Hp].
  split; [done|done| |done]. constructor; [|done]. split; [done|]. unfold buf_at in E. by rewrite E.
Qed.
Lemma own_empty p free Q P : pool_own p free Q P <-> pool_own p free Q (Chain None [] :: P).
Proof.
  split; intros [Hf Hl Hp Ha]; split; try done; [by constructor|by apply Forall_cons in Hp as [_ Hp]].
Qed.

(** From the free list to a thread, and back. *)
Lemma own_grab p free Q b P :
  g_pool_free p = Some b -> pool_own p free Q P ->
  exists k, free = b :: k /\ pool_own (p <| g_pool_free := b_next (buf_at p b) |>) k Q (Own b :: P).
Proof.
  intros E [Hf Hl Hp Ha]. rewrite E in Hf. destruct (chain_Some _ _ _ Hf) as (k & -> & Hk).
  exists k. split; [done|]. split; [done|done| |]; [by constructor|]. simpl. rewrite <- Ha. solve_Permutation.
Qed.
Lemma own_release p free Q b P :
  b_next (buf_at p b) = g_pool_free p -> pool_own p free Q (Own b :: P) ->
  pool_own (p <| g_pool_free := Some b |>) (b :: free) Q P.
Proof.
  intros E [Hf Hl Hp Ha]. apply Forall_cons in Hp as [_ Hp]. split; [|done|done|].
  - simpl. split; [done|]. unfold buf_at in E. by rewrite E.
  - rewrite <- Ha. simpl. solve_Permutation.
Qed.

Lemma list_at_set p i bl v j bl' :
  zlen (g_nodes p) = ROSTER_MAX -> Forall (fun n => length (nd_list n) = 2%nat) (g_nodes p) ->
  (i, bl) ∈ heads -> (j, bl') ∈ heads ->
  list_at (set_list i bl v p) j bl' = if decide ((j, bl') = (i, bl)) then v else list_at p j bl'.
Proof.
  intros Hn H2 Hi Hj. apply heads_spec in Hi as [Hi Hbl], Hj as [Hj Hbl']. simpl in *.
  assert (Hlen : forall x, 0 <= x < ROSTER_MAX -> length (nd_list (zget bnode0 (g_nodes p) x)) = 2%nat).
  { intros x Hx. unfold zget. destruct (Z.ltb_spec x 0); [lia|].
    rewrite Forall_lookup in H2. destruct (g_nodes p !! Z.to_nat x) as [n|] eqn:E.
    - rewrite nth_lookup, E. by apply (H2 (Z.to_nat x)).
    - apply lookup_ge_None in E. unfold zlen in Hn. lia. }
  unfold list_at, node_at, set_list, set_node. simpl.
  destruct (decide (j = i)) as [-> |Hji].
  - rewrite zget_zset_eq by lia. unfold field_map. simpl.
    destruct (decide (bl' = bl)) as [-> |Hb].
    + rewrite decide_True by done. apply zget_zset_eq. unfold zlen. rewrite Hlen by done. lia.
    + rewrite decide_False by congruence. apply zget_zset_ne; lia.
  - rewrite zget_zset_ne by lia. by rewrite decide_False by congruence.
Qed.

(** From a node's list to a thread, and onto it. *)
Lemma own_take p free Q k P :
  pool_wf p -> k ∈ heads -> pool_own p free Q P ->
  pool_own (set_list k.1 k.2 None p) free (<[k := []]> Q) (Chain (list_at p k.1 k.2) (Q k) :: P).
Proof.
  intros Hw Hk [Hf Hl Hp Ha]. split; simpl; [done| | |].
  - intros j Hj. rewrite list_at_set by first [apply Hw|by destruct j, k]. destruct j as [j b'], k as [i b]. simpl in *.
    case_decide as D; [rewrite D; by rewrite fn_lookup_insert|].
    rewrite fn_lookup_insert_ne by done. by apply (Hl (j, b')).
  - constructor; [by apply Hl|done].
  - destruct (queued_focus Q k Hk) as (R & E1 & E2). rewrite E2, <- Ha, E1. solve_Permutation.
Qed.
Lemma own_put p free Q k b P :
  pool_wf p -> k ∈ heads -> b_next (buf_at p b) = list_at p k.1 k.2 -> pool_own p free Q (Own b :: P) ->
  pool_own (set_list k.1 k.2 (Some b) p) free (<[k := b :: Q k]> Q) P.
Proof.
  intros Hw Hk Hb [Hf Hl Hp Ha]. apply Forall_cons in Hp as [_ Hp]. split; simpl; [done| |done|].
  - intros j Hj. rewrite list_at_set by first [apply Hw|by destruct j, k]. destruct j as [j b'], k as [i b0]. simpl in *.
    case_decide as D; [rewrite D, fn_lookup_insert|].
    + split; [done|]. unfold buf_at in Hb. rewrite Hb. by apply (Hl (i, b0)).
    + rewrite fn_lookup_insert_ne by done. by apply (Hl (j, b')).
  - destruct (queued_focus Q k Hk) as (R & E1 & E2). rewrite E2, <- Ha, E1. simpl. solve_Permutation.
Qed.

(** ** The critical sections *)
Lemma wf_set_buf b g p : pool_wf p -> pool_wf (set_buf b g p).
Proof. intros []. split; try done. simpl. unfold zlen in *. by rewrite zlen_zset. Qed.

Lemma wf_set_list k v p : k ∈ heads -> k.1 < g_nodes_n p \/ v = None -> pool_wf p -> pool_wf (set_list k.1 k.2 v p).
Proof.
  intros Hk Hv [Hb Hn Hl Hns H2 Hnn Ha Hr]. split; try done.
  - simpl. unfold zlen in *. by rewrite zlen_zset.
  - simpl. unfold zset. destruct (k.1 <? 0); [done|]. apply Forall_insert; [done|].
    unfold field_map. simpl. fold (zset (nd_list (zget bnode0 (g_nodes p) k.1)) k.2 v). rewrite zlen_zset.
    apply heads_spec in Hk as [Hk _]. unfold zget. destruct (Z.ltb_spec k.1 0); [lia|].
    destruct (nth_in_or_default (Z.to_nat k.1) (g_nodes p) bnode0) as [Hin|Hd]; [|by rewrite Hd].
    rewrite Forall_forall in H2. by apply H2, list_elem_of_In.
  - intros i bl Hi Hbl. destruct k as [j b']. rewrite list_at_set; [|done|done|done|].
    + case_decide as D; [|by apply Hr]. simplify_eq. destruct Hv; [simpl in *; lia|done].
    + apply heads_spec. simpl in *. split; [lia|done].
Qed.

Lemma chain_len_le p free Q h l P : pool_own p free Q (Chain h l :: P) -> zlen l <= BUS_POOL_N.
Proof.
  intros Ho. pose proof (f_equal Z.of_nat (Permutation_length (po_all _ _ _ _ Ho))) as E.
  rewrite !length_app in E. simpl in E. rewrite length_app in E. change (length (upto BUS_POOL_N)) with 24%nat in E.
  unfold zlen, BUS_POOL_N. lia.
Qed.
Lemma free_len_le p free Q P : pool_own p free Q P -> zlen free <= BUS_POOL_N.
Proof.
  intros Ho. pose proof (f_equal Z.of_nat (Permutation_length (po_all _ _ _ _ Ho))) as E.
  rewrite !length_app in E. change (length (upto BUS_POOL_N)) with 24%nat in E. unfold zlen, BUS_POOL_N. lia.
Qed.

Lemma u16_small x : 0 <= x <= BUS_POOL_N -> u16 x = x.
Proof. unfold BUS_POOL_N. intros. apply u16_id. split; [lia|]. change (2 ^ 16) with 65536. lia. Qed.

Lemma grab_inv p P : pool_inv p P ->
  match pool_grab p with
  | (None, p') => p' = p
  | (Some b, p') => pool_inv p' (Own b :: P)
  end.
Proof.
  intros (Hw & free & Q & Ho & Ha). unfold pool_grab. destruct (g_pool_free p) as [b|] eqn:E; [|done].
  destruct (own_grab _ _ _ _ _ E Ho) as (k & -> & Ho'). pose proof (free_len_le _ _ _ _ Ho) as Hl.
  assert (Hk : 0 <= zlen k /\ zlen (b :: k) = zlen k + 1) by (unfold zlen; simpl; lia).
  assert (E' : u16 (g_pool_avail p - 1) = zlen k) by (rewrite u16_small; lia).
  split.
  - destruct Hw as [? ? ? ? ? ? ? ?]. case_match; bools; split; try done; usimpl; rewrite ?E' in *; lia.
  - exists k, Q. case_match; (split; [by eapply own_ext, Ho'|usimpl; lia]).
Qed.

Lemma own_recover b p free Q P : pool_wf p -> pool_own p free Q (Own b :: P) ->
  pool_own (pool_recover (Some b) p) (b :: free) Q P.
Proof.
  intros Hw Ho. pose proof (own_elsewhere _ _ _ _ _ Ho) as (Hb & _).
  pose proof (own_set_buf _ _ _ _ (fun x => x <| b_next := g_pool_free p |>) _ Ho) as Ho1.
  apply own_release in Ho1; [|unfold buf_at, set_buf; simpl; rewrite zget_zset_eq; [done|destruct Hw; lia]].
  by eapply own_ext, Ho1.
Qed.
Lemma recover_inv b p P : pool_inv p (Own b :: P) -> pool_inv (pool_recover (Some b) p) P.
Proof.
  intros (Hw & free & Q & Ho & Ha). pose proof (own_recover _ _ _ _ _ Hw Ho) as Ho1.
  pose proof (free_len_le _ _ _ _ Ho1) as Hl.
  assert (Hk : 0 <= zlen free /\ zlen (b :: free) = zlen free + 1) by (unfold zlen; simpl; lia).
  assert (E' : u16 (g_pool_avail p + 1) = zlen free + 1) by (rewrite u16_small; lia). unfold pool_recover. split.
  - pose proof (wf_set_buf b (fun x => x <| b_next := g_pool_free p |>) _ Hw) as [? ? ? ? ? ? ? ?].
    split; try done. usimpl. rewrite E'. usimpl. lia.
  - exists (b :: free), Q. split; [exact Ho1|]. usimpl. lia.
Qed.

Lemma set_buf_inv b g p P : pool_inv p (Own b :: P) -> pool_inv (set_buf b g p) (Own b :: P).
Proof. intros (Hw & free & Q & Ho & Ha). split; [by apply wf_set_buf|]. exists free, Q. eauto using own_set_buf. Qed.

Lemma split_inv p b l P : pool_inv p (Chain (Some b) l :: P) ->
  exists k, l = b :: k /\ pool_inv p (Own b :: Chain (b_next (buf_at p b)) k :: P).
Proof.
  intros (Hw & free & Q & Ho & Ha). destruct (own_split _ _ _ _ _ _ Ho) as (k & -> & Ho').
  exists k. split; [done|]. split; eauto.
Qed.

Lemma node_index_range p addr : 0 <= g_nodes_n p -> node_index_of p addr < g_nodes_n p \/ node_index_of p addr = -1.
Proof.
  intros Hn. unfold node_index_of. destruct (find_index _ _) as [i|] eqn:E; [left|by right].
  apply find_index_Some in E as (l1 & x & l2 & E & -> & _). apply (f_equal length) in E.
  rewrite length_app, length_take in E. simpl in E. lia.
Qed.

Lemma lxor_idx a : a = 0 \/ a = 1 -> Z.lxor a 1 = 0 \/ Z.lxor a 1 = 1.
Proof. intros [-> | ->]; [by right|by left]. Qed.

Lemma attach_inv b dest p P : pool_inv p (Own b :: P) ->
  match attach b dest p with
  | (true, p') => pool_inv p' P
  | (false, p') => p' = p
  end.
Proof.
  intros Hi. unfold attach. destruct (Z.ltb_spec (node_index_of p dest) 0) as [|Hge]; [done|].
  pose proof Hi as (Hw & _).
  destruct (node_index_range p dest) as [Hlt|]; [apply Hw| |lia].
  remember (node_index_of p dest) as i eqn:Ei. clear Ei. set (f := Z.lxor (g_active_idx p) 1).
  assert (Hk : (i, f) ∈ heads).
  { apply heads_spec. simpl. destruct (pw_nodes_n p Hw). split; [lia|]. apply lxor_idx, Hw. }
  pose proof (set_buf_inv b (fun x => x <| b_dest_node := u8 i |> <| b_next := list_at p i f |>) _ _ Hi)
    as (Hw1 & free & Q & Ho & Ha).
  pose proof (own_elsewhere _ _ _ _ _ Ho) as (Hb & _). split.
  - apply (wf_set_list (i, f)); [done|by left|done].
  - exists free, (<[(i, f) := b :: Q (i, f)]> Q). split; [|done].
    apply (own_put _ _ _ (i, f)); [done|done| |done]. unfold buf_at, set_buf. simpl.
    rewrite zget_zset_eq; [done|]. destruct Hw; lia.
Qed.

Lemma take_list_inv i a p P : 0 <= i < ROSTER_MAX -> a = 0 \/ a = 1 -> pool_inv p P ->
  exists l, pool_inv (take_list i a p).2 (Chain (take_list i a p).1 l :: P).
Proof.
  intros Hi Ha (Hw & free & Q & Ho & Hav). assert (Hk : (i, a) ∈ heads) by by apply heads_spec.
  exists (Q (i, a)). split.
  - apply (wf_set_list (i, a)); [done|by right|done].
  - exists free, (<[(i, a) := []]> Q). split; [|done]. by apply (own_take _ _ _ (i, a)).
Qed.

(** What the invariant does not read may change. *)
Lemma inv_ext p p' P :
  bufs p' = bufs p -> g_pool_free p' = g_pool_free p -> g_pool_avail p' = g_pool_avail p ->
  g_pool_low p' = g_pool_low p -> g_pool_n p' = g_pool_n p -> g_nodes_n p' = g_nodes_n p ->
  zlen (g_nodes p') = zlen (g_nodes p) -> map nd_list (g_nodes p') = map nd_list (g_nodes p) ->
  g_active_idx p' = 0 \/ g_active_idx p' = 1 ->
  pool_inv p P -> pool_inv p' P.
Proof.
  intros E1 E2 E3 E4 E5 E6 E7 E8 Hact (Hw & free & Q & Ho & Ha).
  assert (El : forall i bl, list_at p' i bl = list_at p i bl).
  { intros i bl. unfold list_at, node_at. f_equal. unfold zget. destruct (i <? 0); [done|].
    rewrite <- !(map_nth nd_list). by rewrite E8. }
  split.
  - destruct Hw as [? ? ? ? H2 ? ? Hr]. split; rewrite ?E1, ?E3, ?E4, ?E5, ?E6, ?E7; try done.
    + apply (List.Forall_map nd_list (fun l => length l = 2%nat)). rewrite E8. by apply List.Forall_map.
    + intros i bl. rewrite El. by apply Hr.
  - exists free, Q. rewrite E3. split; [|done]. by eapply own_ext, Ho.
Qed.

Lemma map_zset {A B} (f : A -> B) (d : A) l i v : f v = f (zget d l i) -> map f (zset l i v) = map f l.
Proof.
  unfold zset, zget. destruct (i <? 0); [done|]. generalize (Z.to_nat i) as k. induction l as [|x l IH]; [done|].
  intros [|k] E; simpl in *; [by rewrite E|]. f_equal. by apply IH.
Qed.
Lemma set_node_inv i g p P : (forall n, nd_list (g n) = nd_list n) -> pool_inv p P -> pool_inv (set_node i g p) P.
Proof.
  intros Hg Hi. eapply inv_ext, Hi; try done.
  - unfold zlen, set_node. simpl. by rewrite zlen_zset.
  - unfold set_node. simpl. by rewrite (map_zset nd_list bnode0).
  - apply Hi.
Qed.

(** ** Rebuilding the table *)
Lemma empty_inv p P : pool_inv p P <-> pool_inv p (Chain None [] :: P).
Proof. split; intros (Hw & free & Q & Ho & Ha); (split; [done|]); exists free, Q; (split; [|done]).
  - by apply (proj1 (own_empty _ _ _ _)).
  - by apply (proj2 (own_empty _ _ _ _)).
Qed.
Lemma join_inv p b o k P : b_next (buf_at p b) = o -> pool_inv p (Own b :: Chain o k :: P) ->
  pool_inv p (Chain (Some b) (b :: k) :: P).
Proof. intros E (Hw & free & Q & Ho & Ha). split; [done|]. exists free, Q. eauto using own_join. Qed.
Lemma chain_inv_len p h l P : pool_inv p (Chain h l :: P) -> (length l <= chain_fuel)%nat.
Proof. intros (_ & free & Q & Ho & _). apply chain_len_le in Ho. unfold zlen, chain_fuel in *. lia. Qed.
Lemma chain_inv_None p l P : pool_inv p (Chain None l :: P) -> l = [].
Proof.
  intros (_ & free & Q & Ho & _). pose proof (po_parts _ _ _ _ Ho) as HP. apply Forall_cons in HP as [Hc _].
  by eapply chain_None.
Qed.
Lemma own_range_inv p b P : pool_inv p (Own b :: P) -> 0 <= b < zlen (bufs p).
Proof. intros (Hw & free & Q & Ho & _). rewrite (pw_bufs p Hw). by eapply own_elsewhere. Qed.

Lemma push_chain_inv fuel b l o k p P :
  pool_inv p (Chain b l :: Chain o k :: P) -> (length l <= fuel)%nat ->
  exists o' k' p', push_chain fuel b o p = Some (o', p') /\ pool_inv p' (Chain o' k' :: P) /\
    g_nodes p' = g_nodes p /\ g_nodes_n p' = g_nodes_n p.
Proof.
  revert b l o k p. induction fuel as [|fuel IH]; intros b l o k p Hi Hl.
  - destruct l; [|simpl in Hl; lia]. destruct b as [x|]; [by apply split_inv in Hi as (? & ? & _)|].
    apply empty_inv in Hi. by exists o, k, p.
  - destruct b as [x|]; simpl.
    + apply split_inv in Hi as (l' & -> & Hi). simpl in Hl.
      pose proof (own_range_inv _ _ _ Hi) as Hx.
      apply (set_buf_inv x (fun c => c <| b_next := o |>)) in Hi.
      assert (Hj : pool_inv (set_buf x (fun c => c <| b_next := o |>) p)
                     (Own x :: Chain o k :: Chain (b_next (buf_at p x)) l' :: P)).
      { eapply inv_perm, Hi. apply Permutation_skip, Permutation_swap. }
      apply join_inv in Hj; [|unfold buf_at, set_buf; simpl; by rewrite zget_zset_eq].
      destruct (IH (b_next (buf_at p x)) l' (Some x) (x :: k) (set_buf x (fun c => c <| b_next := o |>) p))
        as (o' & k' & p' & E & Hi' & ? & ?); [|lia|].
      { eapply inv_perm, Hj. apply Permutation_swap. }
      by exists o', k', p'.
    + pose proof (chain_inv_None _ _ _ Hi) as ->. apply empty_inv in Hi. by exists o, k, p.
Qed.

Lemma take_list_at i a p k : pool_wf p -> (i, a) ∈ heads -> k ∈ heads ->
  list_at (take_list i a p).2 k.1 k.2 = if decide (k = (i, a)) then None else list_at p k.1 k.2.
Proof. intros Hw Hi Hk. destruct k as [j b]. simpl. by rewrite list_at_set by first [apply Hw|done]. Qed.

Lemma detach_all_inv ls o k p P :
  Forall (fun x => x ∈ heads) ls -> pool_inv p (Chain o k :: P) ->
  exists o' k' p', detach_all ls o p = Some (o', p') /\ pool_inv p' (Chain o' k' :: P) /\
    g_nodes_n p' = g_nodes_n p /\
    forall x, x ∈ heads -> x ∈ ls \/ list_at p x.1 x.2 = None -> list_at p' x.1 x.2 = None.
Proof.
  intros Hls. revert o k p. induction Hls as [|[i a] ls Hh _ IH]; intros o k p Hi; simpl.
  - exists o, k, p. split; [done|]. split; [done|]. split; [done|]. intros x _ [Hx|?]; [by apply elem_of_nil in Hx|done].
  - pose proof Hh as Hia. apply heads_spec in Hia as [Hi1 Ha1]. simpl in *. pose proof Hi as (Hw & _).
    destruct (take_list_inv i a _ _ Hi1 Ha1 Hi) as (l & Ht).
    destruct (push_chain_inv chain_fuel _ _ _ _ _ _ Ht) as (o1 & k1 & p1 & E1 & Hi2 & En & Enn);
      [by eapply chain_inv_len|].
    simpl in E1. rewrite E1. destruct (IH o1 k1 p1 Hi2) as (o2 & k2 & p2 & E2 & Hi3 & Enn2 & Hnone).
    exists o2, k2, p2. split; [done|]. split; [done|]. split; [rewrite Enn2, Enn; done|].
    intros x Hx Hor. apply Hnone; [done|].
    assert (El : list_at p1 x.1 x.2 = list_at (take_list i a p).2 x.1 x.2) by (unfold list_at, node_at; by rewrite En).
    rewrite El, take_list_at by done. case_decide as D; [by right|].
    destruct Hor as [Hor|]; [|by right]. apply elem_of_cons in Hor as [?|?]; [done|by left].
Qed.

Lemma shift_up_spec k e l : table_empty l -> (k < length l)%nat ->
  table_empty (shift_up k e l).2 /\ length (shift_up k e l).2 = length l /\ ((shift_up k e l).1 < length l)%nat.
Proof.
  revert l. induction k as [|k IH]; intros l Hl Hk; simpl; [done|]. destruct (_ <? _); [|done].
  assert (Hn : nd_list (nth k l bnode0) = [None; None]).
  { unfold table_empty in Hl. rewrite Forall_forall in Hl. apply Hl, list_elem_of_In, nth_In. lia. }
  destruct (IH (<[S k := nth k l bnode0]> l)) as (H1 & H2 & H3).
  - by apply Forall_insert.
  - rewrite length_insert. lia.
  - rewrite length_insert in *. done.
Qed.

Lemma table_loop_spec rs l n :
  table_empty l -> zlen l = ROSTER_MAX -> 0 <= n <= ROSTER_MAX ->
  table_empty (table_loop rs l n).1 /\ zlen (table_loop rs l n).1 = ROSTER_MAX /\ 0 <= (table_loop rs l n).2 <= ROSTER_MAX.
Proof.
  revert l n. induction rs as [|r rs IH]; intros l n Hl Hlen Hn; simpl; [done|].
  destruct (Z.leb_spec ROSTER_MAX n); [done|].
  set (e := mk_bnode _ _ _ _ _). unfold zlen, ROSTER_MAX in *.
  destruct (shift_up_spec (Z.to_nat n) e l Hl) as (H1 & H2 & H3); [lia|].
  destruct (shift_up _ e l) as [j l1]. simpl in *.
  replace (u8 (n + 1)) with (n + 1) by (unfold u8; symmetry; apply Z.mod_small; change (2 ^ 8) with 256; lia).
  apply IH; [by apply Forall_insert|rewrite length_insert; lia|lia].
Qed.

Lemma table_empty_heads p : pool_wf p ->
  table_empty (g_nodes p) <-> forall k, k ∈ heads -> list_at p k.1 k.2 = None.
Proof.
  intros Hw. pose proof (pw_nodes p Hw) as Hlen. split.
  - intros He k Hk. apply heads_spec in Hk as [Hk Hb]. unfold list_at, node_at, zget.
    destruct (Z.ltb_spec k.1 0); [lia|]. unfold table_empty in He. rewrite Forall_forall in He.
    rewrite He by (apply list_elem_of_In, nth_In; unfold zlen in Hlen; lia). by destruct Hb as [-> | ->].
  - intros Hn. apply Forall_lookup. intros i n Hi. pose proof (lookup_lt_Some _ _ _ Hi) as Hlt. unfold zlen in Hlen.
    assert (Hz : forall b, b = 0 \/ b = 1 -> zget None (nd_list n) b = None).
    { intros b Hb. etrans; [|apply (Hn (Z.of_nat i, b)); apply heads_spec; simpl; lia].
      unfold list_at, node_at. cbn [fst snd]. by rewrite (zget_lookup bnode0 n) by (rewrite ?Nat2Z.id; done || lia). }
    pose proof (pw_two p Hw) as H2. rewrite Forall_lookup in H2. specialize (H2 _ _ Hi).
    destruct (nd_list n) as [|x [|y []]]; try done. pose proof (Hz 0 (or_introl eq_refl)). pose proof (Hz 1 (or_intror eq_refl)).
    unfold zget in *. simpl in *. by subst.
Qed.

Lemma build_inv r p P : (forall k, k ∈ heads -> list_at p k.1 k.2 = None) ->
  pool_inv p P -> pool_inv (bus_nodetable_build r p) P.
Proof.
  intros Hnone (Hw & free & Q & Ho & Ha). pose proof (proj2 (table_empty_heads p Hw) Hnone) as He.
  pose proof (table_loop_spec (take (Z.to_nat (g_roster_n r)) (g_roster r)) (g_nodes p) 0 He (pw_nodes p Hw))
    as (H1 & H2 & H3); [done|].
  unfold bus_nodetable_build. destruct (table_loop _ _ 0) as [l n]. simpl in *.
  assert (Hw' : pool_wf (p <| g_nodes := l |> <| g_nodes_n := n |>)).
  { destruct Hw as [? ? ? ? ? ? ? ?]. split; try done; simpl.
    - eapply Forall_impl; [exact H1|]. intros x Hx. simpl in Hx. by rewrite Hx.
    - intros i bl Hi Hb. unfold list_at, node_at, zget. simpl. destruct (Z.ltb_spec i 0); [lia|].
      unfold table_empty in H1. rewrite Forall_forall in H1.
      rewrite H1 by (apply list_elem_of_In, nth_In; unfold zlen in H2; lia). by destruct Hb as [-> | ->]. }
  split; [done|]. exists free, Q. split; [|done]. eapply own_ext, Ho; [done|done|].
  intros k Hk. rewrite Hnone by done. by apply (table_empty_heads _ Hw').
Qed.
