(* ===== verification/BcTasks.v ===== *)
(** The bus controller's tasks under any interleaving: the bus task's loop, the uplink's
    pumps with the host's commands, the engine's originations. *)
From stdpp Require Import relations functions.
From S2P Require Import Prelude BusFrame HostLink BcState Threads CflBase CflPerm BcPool BcRoster BcArbiter.
From S2P Require Import BootFiles BcPoolSafety.

(** ** Specification *)

(** A slot that ends: at some wait the window is over. *)
Definition slot_ends (si : slot_in) : Prop := Exists (fun r => T_WINDOW_MAX_US <= u32 (rd_us r)) (si_rounds si).
Definition bc_inv (s : bc_t) (P : list part) : Prop :=
  pool_inv (tx_pool s) P /\ forall a, Forall slot_ends (in_slots (io s) a).

(** The calls of the other tasks: the host's frames, the uplink's pumps, the engine. *)
Inductive bc_call (dispatch : Z -> list Z -> Z -> Z * list Z) : prog bc_t unit -> Prop :=
| call_pump rx ups : bc_call dispatch (usb_pump dispatch rx ups;== Done tt)
| call_standalone : bc_call dispatch standalone_pump
| call_enter banner rc active : bc_call dispatch (uplink_enter banner rc active)
| call_bus_msg dest opcode body : bc_call dispatch (pmod (on_bus_msg dest opcode body))
| call_shell req_id command args : bc_call dispatch (on_local_shell dispatch req_id command args)
| call_engine addr req_id bytes : bc_call dispatch (kbapp_on_echo_to addr req_id bytes).

(** The globals at reset. *)
Definition pool0 : pool_t :=
  mk_pool [] None 0 0 0 0 false 0 (replicate 16 bnode0) 0 0 false 0 (replicate 8 corr0) 0 0.
(** The state in which the bus task begins: the pool is carved, the table built. *)
Definition bus_ready (perm : CflPerm) (s : bc_t) : Prop :=
  exists p perm', bus_pool_init perm pool0 = Ret (p, perm') /\ tx_pool s = bus_nodetable_build (ros s) p /\
    forall a, Forall slot_ends (in_slots (io s) a).
Definition bus_system (dispatch : Z -> list Z -> Z -> Z * list Z) : relation (system bc_t ctl_t) :=
  sys_step bus_control_pass (bc_call dispatch).
Definition bus_boot (s : bc_t) : system bc_t ctl_t := mk_sys (bus_pp_selftest;== Done ctl0) [] s.
(** No thread is inside a call. *)
Definition quiet (y : system bc_t ctl_t) : Prop := sys_calls y = [] /\ exists c, sys_task y = Done c.

(** ** Steps that leave the pool's buffers alone *)
Record bc_same (s s' : bc_t) : Prop := {
  bs_bufs : bufs (tx_pool s') = bufs (tx_pool s);
  bs_free : g_pool_free (tx_pool s') = g_pool_free (tx_pool s);
  bs_avail : g_pool_avail (tx_pool s') = g_pool_avail (tx_pool s);
  bs_low : g_pool_low (tx_pool s') = g_pool_low (tx_pool s);
  bs_n : g_pool_n (tx_pool s') = g_pool_n (tx_pool s);
  bs_nodes_n : g_nodes_n (tx_pool s') = g_nodes_n (tx_pool s);
  bs_active : g_active_idx (tx_pool s') = g_active_idx (tx_pool s);
  bs_lists : map nd_list (g_nodes (tx_pool s')) = map nd_list (g_nodes (tx_pool s));
  bs_slots : in_slots (io s') = in_slots (io s)
}.
#[export] Instance bc_same_preorder : PreOrder bc_same.
Proof.
  split; [by split|]. intros x y z [] []. split; congruence.
Qed.
Definition keeps {X} (f : bc_t -> X * bc_t) : Prop := forall s, bc_same s (f s).2.
Definition keeps' (f : bc_t -> bc_t) : Prop := forall s, bc_same s (f s).

(** A postcondition that says nothing of the result but gives the parts back. *)
Definition back {X} (P : list part) : X -> list part -> Prop := fun _ P' => P' = P.
(** A chain held by a thread, with nothing to hold at its end. *)
Definition held (b : option Z) (l : list Z) : list part := match b with Some _ => [Chain b l] | None => [] end.
(** [b] heads a chain within the fuel that the thread holds. *)
Definition holds_chain : option Z -> list part -> Prop :=
  fun b P => exists l, P = held b l /\ (length l <= chain_fuel)%nat.
Definition tower (k : nat) : list Z := rev (upto (Z.of_nat k)).
(** The pool while it is carved: [k] buffers, all free, one behind the other. *)
Record carved (k : nat) (p : pool_t) : Prop := {
  ca_len : length (bufs p) = k;
  ca_free : chain (bufs p) (g_pool_free p) (tower k);
  ca_avail : g_pool_avail p = Z.of_nat k;
  ca_rest : p = pool0 <| bufs := bufs p |> <| g_pool_free := g_pool_free p |> <| g_pool_avail := g_pool_avail p |>
}.
(** Buffers behind each other in the permanent pool, below what is used of it. *)
Definition placed (perm : CflPerm) (p : pool_t) : Prop :=
  Forall (fun b => CflPerm.pool perm <= b_addr b /\ b_addr b + sizeof_tx_buf_t <= CflPerm.pool perm + used perm) (bufs p) /\
  forall i j a b, (i < j)%nat -> bufs p !! i = Some a -> bufs p !! j = Some b -> b_addr a + sizeof_tx_buf_t <= b_addr b.
(** What the free list's operations leave. *)
Record pool_rest (p p' : pool_t) : Prop := {
  pr_addr : map b_addr (bufs p') = map b_addr (bufs p); pr_n : g_pool_n p' = g_pool_n p;
  pr_nodes : g_nodes p' = g_nodes p
}.
(** A bus of the nodes 9 and 4, the pool carved out of 16 KiB. *)
Definition example_arena : CflPerm :=
  match cfl_perm_init (Some cfl_perm_set_instance) 0x20000000 16384 with Ret p => p | _ => cfl_perm_set_instance end.
Definition example_roster : roster_st :=
  mk_roster_st (mk_slave 9 0x101 FLAG_ENABLED 0 0 0 0 0 0 :: mk_slave 4 0x102 FLAG_ENABLED 0 0 0 0 0 0 :: replicate 14 slave0)
    2 0 2.
Definition example_pool : pool_t :=
  match bus_pool_init example_arena pool0 with Ret (p, _) => p | _ => pool0 end.
Definition example_bc : bc_t :=
  mk_bc (bus_nodetable_build example_roster example_pool) example_roster
    (mk_cmd false 0 0 0 (replicate 240 0) 0 false 0 0) (mk_poll 500 3 2 1 0 0 0 0 0)
    (mk_line (bus_asm_init (mk_asm BUS_ASM_IDLE (frame_header 0 0 0 0) 0 0 false 0 0) 0 false) 0 0 false 0 0)
    (mk_fb false (replicate 240 0) 0 0 0 0) (mk_cyc 1 0 0 0 5000 0 0x7FFFFFFF 0 0 0 0 0 0)
    (mk_dead 200 0 0 0 0 0) (mk_pp 0 0 0 0 9 0 0) (mk_upl 1 true 0xFF 0 true false 0)
    sample_link (mk_io (fun _ => []) [] [] [] [] [] [] [] []).

Lemma same_inv s s' P : bc_same s s' -> bc_inv s P -> bc_inv s' P.
Proof.
  intros [] [Hi Hs]. split; [|intros a; by rewrite bs_slots0]. eapply inv_ext, Hi; try done.
  - pose proof (f_equal length bs_lists0) as E. rewrite !length_map in E. unfold zlen. by rewrite E.
  - rewrite bs_active0. apply Hi.
Qed.

Lemma safe_keep {X} (f : bc_t -> X * bc_t) P : keeps f -> safe bc_inv P (patomic f) (back P).
Proof. intros Hf. apply safe_patomic. intros s F Hi. exists P. split; [|done]. eapply same_inv, Hi. apply Hf. Qed.
Lemma safe_keep' (f : bc_t -> bc_t) P : keeps' f -> safe bc_inv P (pmod f) (back P).
Proof. intros Hf. by apply safe_keep. Qed.
Lemma safe_get {X} (f : bc_t -> X) P : safe bc_inv P (pget f) (back P).
Proof. by apply safe_keep. Qed.
Lemma safe_done {X} (x : X) P : safe bc_inv P (Done x) (back P).
Proof. done. Qed.
(** A program that gives its parts back, and one after it. *)
Lemma safe_then {A B} (p : prog bc_t A) (g : A -> prog bc_t B) P Q :
  safe bc_inv P p (back P) -> (forall a, safe bc_inv P (g a) Q) -> safe bc_inv P (tbind p g) Q.
Proof. intros Hp Hg. eapply safe_tbind; [exact Hp|]. intros a P' ->. apply Hg. Qed.
Lemma safe_loop {A X} (f : X -> A -> prog bc_t A) l a P :
  (forall x a, x ∈ l -> safe bc_inv P (f x a) (back P)) -> safe bc_inv P (pfold f l a) (back P).
Proof.
  intros Hf. eapply safe_mono; [|apply (safe_fold bc_inv f l a P (fun _ => True)); [done|]].
  - by intros ? ? [_ ->].
  - intros x b Hx _. eapply safe_mono, Hf, Hx. by intros ? ? ->.
Qed.

(** *** The functions of the arbiter and the roster that do *)
Ltac same_now := repeat case_match; simplify_eq; done.
Lemma on_io_same {X} (f : io_t -> X * io_t) : (forall i, in_slots (f i).2 = in_slots i) -> keeps (on_io f).
Proof. intros Hf s. unfold on_io. specialize (Hf (io s)). destruct (f (io s)) as [x i]. by split. Qed.
Lemma time_same : keeps time_us_32. Proof. by apply on_io_same. Qed.
Lemma ms_same : keeps ms_since_boot. Proof. by apply on_io_same. Qed.
Lemma sent_same : keeps queue_sent. Proof. by apply on_io_same. Qed.
Lemma s2m_same dest op pl len : keeps (s2m dest op pl len).
Proof. intros s. unfold s2m. destruct (host_link_s2m _ _ _ _ _) as [h rc]. by split. Qed.
Lemma reply_same req st r : keeps' (shell_reply req st r). Proof. by intros s. Qed.
Lemma send_same dest type pl len : keeps' (bus_send dest type pl len). Proof. by intros s. Qed.
Lemma dbg_same t : keeps' (dbg_log t). Proof. intros s. apply s2m_same. Qed.
Lemma mark_miss_same a : keeps' (mark_miss a).
Proof. intros s. unfold mark_miss. by case_match. Qed.
Lemma recv_same ms : keeps (bus_recv ms).
Proof. intros s. unfold bus_recv, on_io. by destruct (recv_loop _ _ _). Qed.

Lemma state_edge_same i s : bc_same s (state_edge i s).2.
Proof. unfold state_edge, s2m. same_now. Qed.
Lemma summary_edge_same i s : bc_same s (summary_edge i s).2.
Proof. unfold summary_edge, s2m. same_now. Qed.
Lemma edges_same : keeps' emit_liveness_edges.
Proof.
  intros s. unfold emit_liveness_edges. generalize (upto (g_roster_n (ros s))) as l. intros l. revert s.
  induction l as [|i l IH]; intros s; simpl; [done|].
  pose proof (state_edge_same i s) as H1. destruct (state_edge i s) as [[] s1]; [done|].
  pose proof (summary_edge_same i s1) as H2. destruct (summary_edge i s1) as [[] s2]; [by etrans|].
  etrans; [exact H1|]. etrans; [exact H2|]. apply IH.
Qed.
Lemma queue_down_same c : keeps (queue_down c).
Proof.
  intros s. unfold queue_down. pose proof (sent_same s) as H. destruct (queue_sent s) as [[] s1]; [|done].
  etrans; [exact H|]. by split.
Qed.
Lemma pp_kick_same : keeps' pp_kick.
Proof.
  intros s. unfold pp_kick. match goal with |- context [queue_down ?c s] => pose proof (queue_down_same c s) as H end.
  destruct (queue_down _ s) as [[] s1]; [|done]. etrans; [exact H|]. by split.
Qed.
Lemma on_bus_msg_same d o b : keeps' (on_bus_msg d o b).
Proof. intros s. unfold on_bus_msg. case_match; [|by case_match]. case_match; [done|]. apply queue_down_same. Qed.
Lemma load_same rc : keeps' (bc_load_cfg_roster rc).
Proof. intros s. unfold bc_load_cfg_roster. by repeat case_match. Qed.
Lemma relay_up_same ups : keeps' (relay_up ups).
Proof.
  unfold relay_up. induction ups as [|r ups IH]; intros s; simpl; [done|]. etrans; [apply s2m_same|apply IH].
Qed.
Lemma relay_orig_same rb rn h : keeps' (relay_orig rb rn h).
Proof.
  intros s. unfold relay_orig. set (s1 := if 7 <=? rn then _ else s).
  assert (H : bc_same s s1) by (unfold s1; by case_match).
  case_match; [done|]. etrans; [exact H|]. apply s2m_same.
Qed.
Lemma batch_same a b : keeps' (batch_feedback a b).
Proof. intros s. unfold batch_feedback. by case_match. Qed.
Lemma corr_take_same r a s : bc_same s (s <| tx_pool := (corr_take r a (tx_pool s)).2 |>).
Proof. unfold corr_take. by case_match. Qed.
Lemma corr_put_same r a o h : keeps (on_pool (corr_put r a o h)).
Proof. intros s. unfold on_pool, corr_put. destruct (find_index _ _); by split. Qed.
Lemma handle_same a f : keeps' (handle_slot_frame a f).
Proof.
  intros s. unfold handle_slot_frame. destruct (is_shell_reply f); [|by repeat case_match].
  match goal with |- context [let '(_, _) := ?x in _] => set (t := x) end.
  assert (H : bc_same s (s <| tx_pool := t.2 |>)).
  { unfold t. case_match; [apply corr_take_same|by split]. }
  destruct t as [hit p]. simpl in H. destruct hit as [[[] h]|].
  - etrans; [exact H|]. etrans; [|apply relay_orig_same]. done.
  - etrans; [exact H|]. etrans; [|apply s2m_same]. done.
  - case_match; (etrans; [exact H|]); [apply batch_same|apply s2m_same].
Qed.
Lemma drain_same a ws b : keeps (drain_slot a ws b).
Proof.
  intros s. revert b s. induction ws as [|w ws IH]; intros b s; simpl; [done|].
  destruct (bus_asm_feed _ w) as [g o]. destruct o as [f|]; [case_match|].
  - etrans; [|apply IH]. etrans; [|apply handle_same]. done.
  - etrans; [|apply IH]. done.
  - etrans; [|apply IH]. done.
Qed.
Lemma wait_same r : keeps' (slot_wait r).
Proof. intros s. unfold slot_wait, master_rx_hook. by repeat case_match. Qed.
Lemma set_node_same i g s : (forall n, nd_list (g n) = nd_list n) -> bc_same s (s <| tx_pool ::= set_node i g |>).
Proof. intros Hg. split; try done. simpl. by apply (map_zset nd_list bnode0). Qed.
Lemma sweep_result_same i r now : keeps' (sweep_result i r now).
Proof.
  intros s. unfold sweep_result. destruct r.
  - match goal with |- context [mark_miss ?a ?t] => pose proof (mark_miss_same a t) as H; set (s1 := mark_miss a t) in * end.
    assert (H1 : bc_same s s1) by (etrans; [|exact H]; done). case_match; [|done].
    etrans; [exact H1|]. by apply set_node_same.
  - etrans; [|by apply set_node_same]. done.
  - etrans; [|by apply set_node_same]. done.
Qed.
Lemma probe_result_same i r now : keeps' (probe_result i r now).
Proof.
  intros s. unfold probe_result. destruct r; [done|..].
  all: etrans; [by apply (set_node_same i (fun n => n <| nd_dead := 0 |> <| nd_miss := 0 |>))|done].
Qed.
Lemma due_same : keeps probe_due. Proof. intros s. unfold probe_due. by repeat case_match. Qed.
Lemma pick_same : keeps dead_pick. Proof. intros s. unfold dead_pick. by repeat case_match. Qed.
Lemma take_command_same : keeps take_command. Proof. intros s. unfold take_command. by case_match. Qed.
Lemma kick_same : keeps' cycle_kick. Proof. intros s. unfold cycle_kick. case_match; [apply pp_kick_same|done]. Qed.
Lemma emit_feedback_same : keeps' emit_feedback.
Proof. intros s. unfold emit_feedback, s2m. by repeat case_match. Qed.
Lemma promote_same : keeps' promote.
Proof. intros s. unfold promote, on_io. by repeat case_match. Qed.
Lemma rotate_same a r now : keeps' (rotate_result a r now).
Proof. intros s. unfold rotate_result. destruct r; [|done..]. etrans; [|apply mark_miss_same]. done. Qed.
Lemma collect_same now c f : keeps (collect_frame now c f).
Proof.
  intros s. unfold collect_frame, collect_reply. destruct (is_shell_reply f); simpl.
  - destruct (ct_is_orig c); [etrans; [|apply relay_orig_same]|etrans; [|apply s2m_same]]; done.
  - by repeat case_match.
Qed.

(** ** Safe programs *)
Lemma safe_pool {X} (f : pool_t -> X * pool_t) P (Q : X -> list part -> Prop) :
  (forall p F, pool_inv p (P ++ F) -> exists P', pool_inv (f p).2 (P' ++ F) /\ Q (f p).1 P') ->
  safe bc_inv P (patomic (on_pool f)) Q.
Proof.
  intros Hf. apply safe_patomic. intros s F [Hi Hs]. destruct (Hf _ _ Hi) as (P' & ? & ?).
  exists P'. unfold on_pool. by destruct (f (tx_pool s)) as [x p].
Qed.
Lemma safe_pool_mod (g : pool_t -> pool_t) P P' :
  (forall p F, pool_inv p (P ++ F) -> pool_inv (g p) (P' ++ F)) ->
  safe bc_inv P (pmod (fun s => s <| tx_pool ::= g |>)) (back P').
Proof. intros Hg. apply safe_patomic. intros s F [Hi Hs]. exists P'. split; [split; [by apply Hg|done]|done]. Qed.

Lemma msg_send_safe d pl len tag : safe bc_inv [] (bus_msg_send d pl len tag) (back []).
Proof.
  unfold bus_msg_send. eapply safe_tbind.
  { apply (safe_pool pool_grab _ (fun g P' => P' = match g with Some b => [Own b] | None => [] end)).
    intros p F Hi. pose proof (grab_inv _ _ Hi) as H. destruct (pool_grab p) as [[b|] p'].
    - by exists [Own b].
    - subst. by exists []. }
  intros [b|] P' ->; [|apply safe_then; [apply safe_keep'; by split|done]].
  eapply safe_tbind; [apply (safe_pool_mod _ _ [Own b]); intros p F Hi; by apply set_buf_inv|]. intros _ P' ->.
  eapply safe_tbind.
  { apply (safe_pool (attach b d) _ (fun ok P' => P' = if ok : bool then [] else [Own b])).
    intros p F Hi. pose proof (attach_inv _ d _ _ Hi) as H. destruct (attach b d p) as [[] p'].
    - by exists [].
    - subst. by exists [Own b]. }
  intros [] P' ->; [done|].
  eapply safe_tbind; [apply (safe_pool_mod (pool_recover (Some b)) _ []); intros p F; apply recover_inv|].
  by intros _ P' ->.
Qed.

Lemma held_inv p b l F : pool_inv p (Chain b l :: F) -> pool_inv p (held b l ++ F).
Proof.
  destruct b as [x|]; [done|]. intros Hi. pose proof (chain_inv_None _ _ _ Hi) as ->. by apply empty_inv.
Qed.
Lemma holds_intro p b l F : pool_inv p (Chain b l :: F) -> exists P, pool_inv p (P ++ F) /\ holds_chain b P.
Proof.
  intros Hi. exists (held b l). split; [by apply held_inv|]. exists l. split; [done|]. by eapply chain_inv_len.
Qed.

Lemma hang_safe {A} x l (Q : A -> list part -> Prop) :
  (length l <= 0)%nat -> safe bc_inv [Chain (Some x) l] phang Q.
Proof.
  intros Hl s F [Hi _]. destruct l; [|simpl in Hl; lia]. by apply split_inv in Hi as (? & ? & _).
Qed.

(** One turn: the head is recovered, the rest stays. *)
Lemma pop_inv x l p F :
  pool_inv p (Chain (Some x) l :: F) ->
  exists l', l = x :: l' /\ pool_inv (pool_recover (Some x) p) (held (b_next (buf_at p x)) l' ++ F).
Proof.
  intros Hi. destruct (split_inv _ _ _ _ Hi) as (l' & -> & Hi'). exists l'. split; [done|].
  apply held_inv. by apply recover_inv.
Qed.

Lemma recover_chain_safe fuel b l n : (length l <= fuel)%nat -> safe bc_inv (held b l) (recover_chain fuel b n) (back []).
Proof.
  revert b l n. induction fuel as [|fuel IH]; intros [x|] l n Hl; try done; cbn [recover_chain]; [by apply hang_safe|].
  eapply safe_tbind.
  { apply (safe_pool _ _ (fun nx P' => exists l', P' = held nx l' /\ (length l' <= fuel)%nat)). intros p F Hi.
    destruct (pop_inv _ _ _ _ Hi) as (l' & -> & Hi'). exists (held (b_next (buf_at p x)) l'). split; [done|].
    exists l'. split; [done|]. simpl in Hl. lia. }
  intros nx P' (l' & -> & Hl'). by apply IH.
Qed.
Lemma recover_held_safe b P n : holds_chain b P -> safe bc_inv P (recover_chain chain_fuel b n) (back []).
Proof. intros (l & -> & Hl). by apply recover_chain_safe. Qed.

Lemma send_chain_safe fuel i b l m : (length l <= fuel)%nat -> safe bc_inv (held b l) (send_chain fuel i b m) (back []).
Proof.
  revert b l m. induction fuel as [|fuel IH]; intros [x|] l m Hl; try done; cbn [send_chain]; [by apply hang_safe|].
  eapply safe_tbind.
  { apply (safe_patomic _ _ _ (fun nx P' => exists l', P' = held nx.1 l' /\ (length l' <= fuel)%nat)). intros s F [Hi Hs].
    destruct (pop_inv _ _ _ _ Hi) as (l' & -> & Hi'). exists (held (b_next (buf_at (tx_pool s) x)) l').
    split; [|exists l'; split; [done|simpl in Hl; lia]]. by case_match. }
  intros nx P' (l' & -> & Hl'). by apply IH.
Qed.

Lemma take_safe i a : 0 <= i < ROSTER_MAX -> a = 0 \/ a = 1 ->
  safe bc_inv [] (patomic (on_pool (take_list i a))) holds_chain.
Proof.
  intros Hi Ha. apply safe_pool. intros p F HI. destruct (take_list_inv i a _ _ Hi Ha HI) as (l & Hl).
  by apply holds_intro in Hl.
Qed.
Lemma message_node_safe a i marked : 0 <= i < ROSTER_MAX -> a = 0 \/ a = 1 ->
  safe bc_inv [] (message_node a i marked) (back []).
Proof.
  intros Hi Ha. unfold message_node. eapply safe_tbind; [by apply take_safe|].
  intros b P' (l & -> & Hl). eapply safe_tbind; [by apply send_chain_safe|]. by intros m P' ->.
Qed.

Lemma detach_safe : safe bc_inv [] (atomic detach_and_rebuild) holds_chain.
Proof.
  apply safe_atomic. intros s F [Hi Hs]. unfold detach_and_rebuild.
  set (p := tx_pool s <| g_nodes_dirty := false |>).
  assert (Hp : pool_inv p (Chain None [] :: F)) by (apply (proj1 (empty_inv _ _)); by eapply inv_ext, Hi; try done; apply Hi).
  pose proof Hp as (Hw & _).
  destruct (detach_all_inv (node_lists (g_nodes_n p)) None [] p F) as (o & k & p' & E & Hi' & En & Hnone); [|done|].
  { apply Forall_forall. intros [i bl] Hx. apply heads_spec. unfold node_lists in Hx. apply list_elem_of_bind in Hx as (j & Hx & Hj).
    apply upto_spec in Hj. destruct (pw_nodes_n p Hw). apply list_elem_of_In in Hx. simpl in *.
    destruct Hx as [?|[?|[]]]; simplify_eq; split; lia. }
  rewrite E.
  assert (Hb : pool_inv (bus_nodetable_build (ros s) p') (Chain o k :: F)).
  { apply build_inv; [|done]. intros x Hx. apply Hnone; [done|].
    destruct (decide (x.1 < g_nodes_n p)) as [Hlt|Hge].
    - left. apply heads_spec in Hx as [Hx Hb]. unfold node_lists. apply list_elem_of_bind. exists x.1.
      split; [|apply upto_spec; lia]. apply list_elem_of_In. destruct x as [i bl]; simpl in *.
      destruct Hb as [-> | ->]; tauto.
    - right. apply heads_spec in Hx as [Hx Hb]. apply (pw_rest p Hw); [lia|done]. }
  destruct (holds_intro _ _ _ _ Hb) as (P' & Hi2 & Hh).
  eexists _, _, P'. split; [reflexivity|]. split; [|done]. split; [|done]. by eapply inv_ext, Hi2; try done; apply Hi2.
Qed.

(** *** Slots *)
Lemma next_slot_safe a P : safe bc_inv P (patomic (next_slot a)) (fun si P' => slot_ends si /\ P' = P).
Proof.
  apply safe_patomic. intros s F [Hi Hs]. exists P. unfold next_slot, on_io. simpl. split; [split; [done|]|split; [|done]].
  - intros b. specialize (Hs b). simpl. case_match; [|done]. by destruct Hs.
  - specialize (Hs a). destruct Hs as [|si l H1 _]; [|done]. right. left. vm_decide.
Qed.

Lemma slot_rounds_safe a rs b P :
  Exists (fun r => T_WINDOW_MAX_US <= u32 (rd_us r)) rs -> safe bc_inv P (slot_rounds a rs b) (back P).
Proof.
  intros He. revert b. induction rs as [|r rs IH]; intros b; [by apply Exists_nil in He|]. cbn [slot_rounds].
  apply safe_then; [apply safe_keep', wait_same|]. intros _.
  apply safe_then; [apply safe_keep, drain_same|]. intros got.
  apply safe_then; [apply safe_get|]. intros first.
  case_match; [done|]. destruct (Z.leb_spec T_WINDOW_MAX_US (u32 (rd_us r))); [done|].
  apply IH. apply Exists_cons in He as [?|?]; [lia|done].
Qed.

Lemma poll_slot_safe a P : safe bc_inv P (bus_poll_slot a) (back P).
Proof.
  unfold bus_poll_slot. apply safe_then; [apply safe_keep'; intros s; by split|]. intros _.
  eapply safe_tbind; [apply next_slot_safe|]. intros si P' [He ->].
  apply safe_then; [by apply slot_rounds_safe|]. intros [].
  - by case_match.
  - apply safe_then; [apply safe_keep'; intros s; by split|done].
Qed.

(** One program after another, each giving its parts back. *)
Create HintDb steps.
#[local] Hint Resolve time_same ms_same sent_same s2m_same reply_same send_same dbg_same mark_miss_same recv_same
  edges_same queue_down_same pp_kick_same on_bus_msg_same load_same relay_up_same corr_put_same wait_same
  sweep_result_same probe_result_same due_same pick_same take_command_same kick_same emit_feedback_same
  promote_same rotate_same collect_same : steps.
Ltac step :=
  lazymatch goal with
  | |- safe _ _ (Done _) _ => done
  | |- safe _ _ (tbind _ _) _ => apply safe_then; [|intros ?]
  | |- safe _ _ (pget _) _ => apply safe_get
  | |- safe _ _ (pmod _) _ => apply safe_keep'; first [solve [auto with steps]|intros ?; by split|idtac]
  | |- safe _ _ (patomic _) _ => apply safe_keep; first [solve [auto with steps]|intros ?; by split|idtac]
  | |- safe _ _ (bus_poll_slot _) _ => apply poll_slot_safe
  | |- safe _ _ (bus_msg_send _ _ _ _) _ => apply msg_send_safe
  | |- safe _ _ (match ?x with _ => _ end) _ => destruct x
  | |- safe _ _ (let _ := _ in _) _ => cbv zeta
  end.

Lemma corr_add_safe r a o h P : safe bc_inv P (corr_add r a o h) (back P).
Proof. unfold corr_add. repeat step. Qed.
Lemma cycle_command_safe : safe bc_inv [] cycle_command (back []).
Proof. unfold cycle_command. repeat first [apply corr_add_safe|step]. Qed.
Lemma cycle_rebuild_safe : safe bc_inv [] cycle_rebuild (back []).
Proof.
  unfold cycle_rebuild. step; [step|]. step; [|done]. eapply safe_tbind; [apply detach_safe|]. intros o P Ho.
  eapply safe_tbind; [by apply recover_held_safe|]. intros _ P' ->. step.
Qed.
Lemma sweep_node_safe m i slow P : safe bc_inv P (sweep_node m i slow) (back P).
Proof. unfold sweep_node. repeat step. Qed.
Lemma dead_probe_safe P : safe bc_inv P dead_probe (back P).
Proof. unfold dead_probe. repeat step. Qed.
Lemma notify_safe (t : bc_t -> list Z) (g : bc_t -> bc_t) (b : bc_t -> bool) P :
  keeps' g -> safe bc_inv P (pmod (fun s => if b s then dbg_log (t s) (g s) else s)) (back P).
Proof.
  intros Hg. apply safe_keep'. intros s. destruct (b s); [|done]. etrans; [apply Hg|apply dbg_same].
Qed.
Lemma exhausted_safe P : safe bc_inv P exhausted_notify (back P).
Proof.
  unfold exhausted_notify. do 2 (step; [step|]). step; [|done]. step; [step|].
  apply (notify_safe _ (fun s => s <| cyc ::= _ |>)). intros s. by split.
Qed.
Lemma overrun_safe ct u a P : safe bc_inv P (overrun_notify ct u a) (back P).
Proof.
  unfold overrun_notify. step; [step|]. step; [|done]. step; [step|].
  apply (notify_safe _ (fun s => s <| cyc ::= _ |>)). intros s. by split.
Qed.

Lemma swap_safe P : safe bc_inv P (pmod bus_pingpong_swap) (back P).
Proof.
  apply safe_patomic. intros s F [Hi Hs]. exists P. split; [|done]. split; [|done]. simpl.
  eapply inv_ext, Hi; try done. simpl. apply lxor_idx. apply Hi.
Qed.

Lemma bus_run_cycle_safe : safe bc_inv [] bus_run_cycle (back []).
Proof.
  unfold bus_run_cycle. step; [apply cycle_rebuild_safe|]. step; [apply cycle_command_safe|].
  step; [apply swap_safe|]. step; [step|]. eapply safe_tbind.
  { apply (safe_patomic _ _ _ (fun an P' => P' = [] /\ (an.1 = 0 \/ an.1 = 1) /\ an.2 <= ROSTER_MAX)).
    intros s F Hi. exists []. split; [done|]. destruct Hi as [[Hw _] _]. simpl. split; [done|]. destruct Hw. split; [done|lia]. }
  intros an P (-> & Ha & Hn). step; [step|]. step.
  { apply safe_loop. intros i m Hi. apply upto_spec in Hi. apply message_node_safe; [lia|done]. }
  step; [apply safe_loop; intros; apply sweep_node_safe|]. step; [apply dead_probe_safe|].
  step; [step|]. step; [apply exhausted_safe|]. step; [step|]. step; [step|]. step; [apply overrun_safe|].
  do 2 (step; [step|]). unfold cycle_pace. repeat step.
Qed.

(** *** The bus task and the calls *)
Lemma inject_pass_safe now c P : safe bc_inv P (inject_pass now c) (back P).
Proof.
  unfold inject_pass. cbv zeta. step; [step|]. step; [step|]. step; [|done]. apply safe_keep'. intros s.
  cbv zeta. lazymatch goal with |- bc_same s (field_map _ ?t) => assert (H : bc_same s t); [|etrans; [exact H|by split]] end.
  do 3 (case_match; [|by split]). etrans; [|apply s2m_same]. by split.
Qed.
Lemma collect_pass_safe now c P : safe bc_inv P (collect_pass now c) (back P).
Proof. unfold collect_pass. repeat step. Qed.
Lemma sweep_pass_safe P : safe bc_inv P sweep_pass (back P).
Proof.
  unfold sweep_pass. step; [|repeat step]. apply safe_keep. intros s. case_match; [|done].
  destruct (next_enabled_addr (ros s)). by split.
Qed.
Lemma control_pass_safe c : safe bc_inv [] (bus_control_pass c) (back []).
Proof.
  unfold bus_control_pass. step; [step|]. step; [done|]. step; [step|].
  step; [repeat first [apply bus_run_cycle_safe|step]|].
  repeat first [apply collect_pass_safe|apply sweep_pass_safe|apply inject_pass_safe|step].
Qed.

Lemma selftest_safe : safe bc_inv [] bus_pp_selftest (back []).
Proof.
  unfold bus_pp_selftest. step; [step|]. eapply safe_tbind.
  { apply (safe_patomic _ _ _ (fun n P' => P' = [] /\ n <= ROSTER_MAX)).
    intros s F Hi. exists []. split; [done|]. destruct Hi as [[Hw _] _]. split; [done|]. apply Hw. }
  intros n P (-> & Hn). step.
  { apply safe_loop. intros x k _. unfold selftest_send. repeat step. }
  step; [apply swap_safe|]. step.
  - apply safe_loop. intros i k Hi. apply upto_spec in Hi. unfold selftest_drain. eapply safe_tbind.
    { apply safe_pool. intros p F HI. pose proof HI as (Hw & _).
      destruct (take_list_inv i (g_active_idx p) _ _ ltac:(lia) (pw_active p Hw) HI) as (l & Hl).
      by apply holds_intro in Hl. }
    intros b P' Hb. by apply recover_held_safe.
  - apply safe_keep'. intros s. by split.
Qed.

Lemma inject_safe ixs a pl k : safe bc_inv [] (inject ixs a pl k) (back []).
Proof.
  revert k. induction ixs as [|i ixs IH]; intros k; [done|]. cbn [inject].
  step; [step|]. step; [apply IH|done].
Qed.
Lemma local_shell_safe d r c args : safe bc_inv [] (on_local_shell d r c args) (back []).
Proof.
  unfold on_local_shell. cbv zeta.
  repeat first [apply inject_safe|step].
  - intros s. unfold register_slave. case_match; by split.
  - intros s. repeat case_match; by split.
  - intros s. etrans; [|apply pp_kick_same]. by split.
Qed.
Lemma uplink_byte_safe d b : safe bc_inv [] (uplink_byte d b) (back []).
Proof.
  unfold uplink_byte. step.
  - apply safe_keep. intros s. destruct (host_link_feed _ _). by split.
  - step; [step; [step|apply local_shell_safe]|done].
Qed.
Lemma echo_to_safe a r bs : safe bc_inv [] (kbapp_on_echo_to a r bs) (back []).
Proof.
  unfold kbapp_on_echo_to. cbv zeta. repeat first [apply corr_add_safe|step].
  intros s. pose proof (sent_same s) as H. destruct (queue_sent s) as [[] s1]; [|done]. etrans; [exact H|by split].
Qed.

Lemma call_safe d p : bc_call d p -> safe bc_inv [] p (back []).
Proof.
  destruct 1.
  - step; [|done]. unfold usb_pump. step; [apply safe_loop; intros; apply uplink_byte_safe|]. step; [step|].
    apply safe_keep. intros s. cbv zeta. match goal with |- context [relay_up ups ?t] => pose proof (relay_up_same ups t) as H end.
    destruct (host_link_tx_drain _ _). simpl. etrans; [|etrans; [exact H|]]; by split.
  - unfold standalone_pump. repeat step.
  - unfold uplink_enter. repeat step.
    + intros s. etrans; [|apply load_same]. by split.
    + intros s. apply s2m_same.
  - step.
  - apply local_shell_safe.
  - apply echo_to_safe.
Qed.

(** ** Set-up *)
Lemma upto_S k : upto (Z.of_nat (S k)) = upto (Z.of_nat k) ++ [Z.of_nat k].
Proof. unfold upto. rewrite !Nat2Z.id, seq_S, map_app. done. Qed.
Lemma chain_app bs x p l : Forall (fun b => 0 <= b < zlen bs) l -> chain bs p l -> chain (bs ++ [x]) p l.
Proof.
  revert p. induction l as [|b l IH]; intros p Hl; simpl; [done|]. apply Forall_cons in Hl as [Hb Hl].
  intros [-> Hc]. split; [done|]. unfold zget in *. unfold zlen in Hb. destruct (Z.ltb_spec b 0); [lia|].
  rewrite app_nth1 by lia. by apply IH.
Qed.

Lemma carve_step k p ptr : (k < 24)%nat -> carved k p ->
  carved (S k) (pool_recover (Some (zlen (bufs p))) (p <| bufs ::= fun l => l ++ [tx_buf0 <| b_addr := ptr |>] |>)).
Proof.
  intros Hk [Hl Hf Ha Hr]. assert (Hz : zlen (bufs p) = Z.of_nat k) by (unfold zlen; by rewrite Hl).
  rewrite Hz. unfold pool_recover. split.
  - simpl. rewrite zlen_zset, length_app, Hl. simpl. lia.
  - unfold tower. rewrite upto_S, rev_app_distr. simpl. split; [done|].
    rewrite zget_zset_eq by (rewrite zlen_app, Hz; unfold zlen; simpl; lia). simpl.
    apply chain_zset.
    + intros H. apply list_elem_of_In, in_rev, list_elem_of_In, upto_spec in H. lia.
    + apply Forall_rev, Forall_forall. intros x Hx. apply upto_spec in Hx. lia.
    + apply chain_app; [|done]. apply Forall_rev, Forall_forall. intros x Hx. apply upto_spec in Hx. lia.
  - simpl. rewrite Ha. unfold u16. rewrite Z.mod_small; [lia|]. change (2 ^ 16) with 65536. lia.
  - rewrite Hr. done.
Qed.

Lemma alloc_buf perm : perm_ok perm ->
  match cfl_perm_alloc_pointer_aligned (Some perm) sizeof_tx_buf_t 4 with
  | Ret (ptr, perm') => perm_ok perm' /\ CflPerm.pool perm' = CflPerm.pool perm /\ pool_size perm' = pool_size perm /\
      ptr <> 0 /\ CflPerm.pool perm + used perm <= ptr /\ ptr + sizeof_tx_buf_t <= CflPerm.pool perm' + used perm'
  | EXCEPTION msg => msg = "cfl_perm_alloc_aligned: Out of memory"%string
  | Endless => False
  end.
Proof.
  intros Hp. assert (Hr : req_ok (sizeof_tx_buf_t, 4)) by vm_decide. unfold cfl_perm_alloc_pointer_aligned.
  pose proof (alloc_aligned_spec perm _ Hp Hr) as E. cbn [fst snd] in E. rewrite E. clear E.
  destruct (ceil_to_spec 4 (CflPerm.pool perm + used perm) ltac:(lia)) as [Hc _].
  set (at_ := ceil_to 4 (CflPerm.pool perm + used perm) - CflPerm.pool perm) in *.
  change (rounded sizeof_tx_buf_t) with 252. pose proof Hp as (_ & H0 & Htop & Hu & Hsz). unfold fits in Hsz.
  change (2 ^ 16) with 65536 in Hsz. change (2 ^ 17) with 131072 in Htop. change (2 ^ 32) with 4294967296 in Htop.
  destruct (Z.ltb_spec (pool_size perm) (at_ + 252)); [done|]. cbn [cbind fst snd].
  pose proof (alloc_keeps_ok perm (sizeof_tx_buf_t, 4) at_ Hp Hr ltac:(lia) ltac:(done)) as Hok. cbn [fst] in Hok.
  change (rounded sizeof_tx_buf_t) with 252 in Hok. set (q := update_stats 252 _) in *.
  unfold idx_to_ptr. change (pool_size q) with (pool_size perm). change (CflPerm.pool q) with (CflPerm.pool perm).
  change (used q) with (at_ + 252).
  rewrite (proj2 (Z.leb_gt (pool_size perm) at_)) by lia. cbn [raise_if cbind].
  rewrite u32_id by (unfold fits; change (2 ^ 32) with 4294967296; lia). unfold sizeof_tx_buf_t.
  split; [exact Hok|]. do 2 (split; [done|]).
  change (CflPerm.pool q) with (CflPerm.pool perm). change (used q) with (at_ + 252). unfold at_ in *. lia.
Qed.

Lemma placed_next perm perm' p p' ptr :
  placed perm p -> CflPerm.pool perm' = CflPerm.pool perm -> used perm <= used perm' ->
  CflPerm.pool perm + used perm <= ptr -> ptr + sizeof_tx_buf_t <= CflPerm.pool perm' + used perm' -> 0 <= used perm ->
  map b_addr (bufs p') = map b_addr (bufs p) ++ [ptr] -> placed perm' p'.
Proof.
  intros [Hr Ho] Ep Hu H1 H2 H0 Em.
  assert (Hget : forall i x, bufs p' !! i = Some x ->
            (exists y, bufs p !! i = Some y /\ b_addr y = b_addr x) \/ (i = length (bufs p) /\ b_addr x = ptr)).
  { intros i x Hx. assert (E : map b_addr (bufs p') !! i = Some (b_addr x)) by (rewrite list_lookup_fmap, Hx; done).
    rewrite Em in E. apply lookup_app_Some in E as [E|[Hl E]].
    - left. apply list_lookup_fmap_Some in E as (y & Hy & ?). eauto.
    - right. rewrite length_map in *. destruct (i - length (bufs p))%nat eqn:D; [|done]. simpl in E. simplify_eq. split; [lia|done]. }
  rewrite Forall_lookup in Hr. split.
  - apply Forall_lookup. intros i x Hx. rewrite Ep. destruct (Hget i x Hx) as [(y & Hy & <-)|[-> ->]].
    + specialize (Hr i y Hy). lia.
    + lia.
  - intros i j a b Hij Ha Hb. destruct (Hget i a Ha) as [(y & Hy & <-)|[-> ->]], (Hget j b Hb) as [(z & Hz & <-)|[-> ->]]; [| | |lia].
    + by eapply (Ho i j).
    + specialize (Hr i y Hy). lia.
    + apply lookup_lt_Some in Hz. lia.
Qed.

Lemma carve_spec n k perm p :
  (k + n = 24)%nat -> perm_ok perm -> carved k p -> placed perm p ->
  match carve n perm p with
  | Ret (p', perm') => carved 24 p' /\ placed perm' p' /\ perm_ok perm'
  | EXCEPTION msg => msg = "cfl_perm_alloc_aligned: Out of memory"%string
  | Endless => False
  end.
Proof.
  revert k perm p. induction n as [|n IH]; intros k perm p Hk Hp Hc Hpl; cbn [carve].
  { by replace 24%nat with k by lia. }
  pose proof (alloc_buf perm Hp) as Ha. destruct (cfl_perm_alloc_pointer_aligned _ _ _) as [[ptr q]|msg|]; [|done..].
  destruct Ha as (Hq & Epool & _ & Hptr & Hlo & Hhi). cbn [cbind]. rewrite (proj2 (Z.eqb_neq ptr 0)) by done.
  pose proof Hp as (_ & _ & _ & Hu0 & _).
  apply (IH (S k)); [lia|done|by apply carve_step; [lia|]|].
  eapply (placed_next perm q p); [done|done|unfold sizeof_tx_buf_t in *; lia|done|done|done|].
  unfold pool_recover, set_buf. simpl. rewrite (map_zset b_addr tx_buf0) by done. by rewrite map_app.
Qed.

Lemma pool0_table : table_empty (g_nodes pool0).
Proof. repeat constructor. Qed.
Lemma carved_inv p : carved 24 p -> pool_inv (p <| g_pool_n := g_pool_avail p |> <| g_pool_low := g_pool_avail p |>) [].
Proof.
  intros [Hl Hf Ha Hr]. set (q := p <| g_pool_n := _ |> <| g_pool_low := _ |>).
  assert (En : g_nodes q = g_nodes pool0 /\ g_nodes_n q = 0 /\ g_active_idx q = 0) by (unfold q; rewrite Hr; done).
  destruct En as (En & Enn & Ea).
  assert (Hat : forall k, k ∈ heads -> list_at q k.1 k.2 = None).
  { intros k Hk. apply heads_spec in Hk as [Hk Hb]. unfold list_at, node_at, zget. rewrite En.
    destruct (Z.ltb_spec k.1 0); [lia|]. pose proof pool0_table as Ht. unfold table_empty in Ht. rewrite Forall_forall in Ht.
    rewrite Ht; [by destruct Hb as [-> | ->]|]. apply list_elem_of_In, nth_In. simpl. unfold ROSTER_MAX in Hk. lia. }
  split.
  - split; rewrite ?En, ?Enn, ?Ea; try done; try (by left).
    + change (bufs q) with (bufs p). unfold zlen. by rewrite Hl.
    + change (g_pool_low q) with (g_pool_avail p). change (g_pool_avail q) with (g_pool_avail p). lia.
    + eapply Forall_impl; [exact pool0_table|]. intros x Hx. simpl in Hx. by rewrite Hx.
    + intros i bl Hi Hb. by apply (Hat (i, bl)), heads_spec.
  - exists (tower 24), (fun _ => []). split.
    + split; [done| |done|].
      * intros k Hk. by apply Hat.
      * change (queued (fun _ => [])) with (@nil Z). cbn [concat map app]. rewrite app_nil_r.
        symmetry. apply Permutation_rev.
    + change (g_pool_avail q) with (g_pool_avail p). rewrite Ha. done.
Qed.

#[export] Instance pool_rest_preorder : PreOrder pool_rest.
Proof. split; [by split|]. intros x y z [] []. split; congruence. Qed.
Lemma grab_rest p : pool_rest p (pool_grab p).2.
Proof. unfold pool_grab. case_match; [|done]. by case_match. Qed.
Lemma recover_rest b p : pool_rest p (pool_recover b p).
Proof. destruct b as [b|]; [|done]. split; [|done..]. simpl. by rewrite (map_zset b_addr tx_buf0). Qed.
Lemma avail_free p P : pool_inv p P -> 0 <= g_pool_avail p <= BUS_POOL_N /\ (g_pool_avail p = 0 <-> g_pool_free p = None).
Proof.
  intros (Hw & free & Q & Ho & Ha). pose proof (free_len_le _ _ _ _ Ho). unfold zlen in *.
  pose proof (po_free _ _ _ _ Ho) as Hc. split; [lia|]. split; intros H1.
  - destruct free; [done|simpl in *; lia].
  - rewrite H1 in Hc. rewrite (chain_None _ _ Hc) in *. simpl in *. lia.
Qed.
Lemma grab_avail p P b p' : pool_inv p P -> pool_grab p = (Some b, p') -> g_pool_avail p' = g_pool_avail p - 1.
Proof.
  intros Hi E. destruct (avail_free _ _ Hi) as [Ha Hz]. unfold pool_grab in E.
  destruct (g_pool_free p) eqn:Ef; [|done].
  assert (g_pool_avail p <> 0) by (intros H; by apply Hz in H).
  assert (E' : u16 (g_pool_avail p - 1) = g_pool_avail p - 1) by (apply u16_small; lia).
  case_match; simplify_eq; usimpl; lia.
Qed.

Lemma grab_all_spec n p P : pool_inv p P ->
  let '(got, p') := grab_all n p in
  pool_inv p' (map Own got ++ P) /\ pool_rest p p' /\ g_pool_avail p' = g_pool_avail p - zlen got /\
  (length got = n \/ g_pool_free p' = None).
Proof.
  revert p P. induction n as [|n IH]; intros p P Hi; cbn [grab_all].
  { split; [done|]. split; [done|]. split; [change (zlen []) with 0; lia|by left]. }
  pose proof (grab_inv _ _ Hi) as Hg. pose proof (grab_rest p) as Hr. destruct (pool_grab p) as [[b|] p1] eqn:E; simpl in Hr.
  - pose proof (grab_avail _ _ _ _ Hi E) as Ha. specialize (IH _ _ Hg). destruct (grab_all n p1) as [got p2].
    destruct IH as (Hi2 & Hr2 & Ha2 & Hor). split.
    { eapply inv_perm, Hi2. cbn [map]. solve_Permutation. }
    split; [by etrans|]. split; [unfold zlen in *; simpl; lia|]. destruct Hor as [<- |]; [by left|by right].
  - subst p1. split; [done|]. split; [done|]. split; [change (zlen []) with 0; lia|right].
    unfold pool_grab in E. by destruct (g_pool_free p).
Qed.
Lemma recover_all_spec got p P : pool_inv p (map Own got ++ P) ->
  let p' := foldl (fun p b => pool_recover (Some b) p) p got in
  pool_inv p' P /\ pool_rest p p' /\ g_pool_avail p' = g_pool_avail p + zlen got.
Proof.
  revert p. induction got as [|b got IH]; intros p Hi; cbn [foldl].
  { split; [done|]. split; [done|]. change (zlen []) with 0. lia. }
  pose proof (recover_inv _ _ _ Hi) as Hi1. destruct (IH _ Hi1) as (Hi2 & Hr2 & Ha2). split; [done|].
  split; [etrans; [apply recover_rest|exact Hr2]|]. rewrite Ha2.
  destruct (avail_free _ _ Hi1) as [Hb _].
  assert (Hlt : g_pool_avail p < BUS_POOL_N).
  { destruct Hi as (_ & free & Q & Ho & Ha). pose proof (f_equal Z.of_nat (Permutation_length (po_all _ _ _ _ Ho))) as E.
    cbn [map app] in E. rewrite !length_app in E. change (length (upto BUS_POOL_N)) with 24%nat in E. simpl in E.
    rewrite Ha. unfold zlen, BUS_POOL_N. lia. }
  assert (Ea : g_pool_avail (pool_recover (Some b) p) = g_pool_avail p + 1).
  { destruct (avail_free _ _ Hi) as [Hp _]. simpl. apply u16_small. lia. }
  rewrite Ea. unfold zlen. simpl. lia.
Qed.

(** Carving the pool: 24 buffers that lie in the permanent pool behind each other, the
    self-test passed, or the permanent pool is too small and raises. *)
Lemma pool_init_spec perm : perm_ok perm ->
  match bus_pool_init perm pool0 with
  | Ret (p, perm') => pool_inv p [] /\ placed perm' p /\ g_pool_selftest p = BUS_POOL_N /\
      g_pool_avail p = BUS_POOL_N /\ g_pool_ready p = true /\ g_nodes p = replicate 16 bnode0
  | EXCEPTION msg => msg = "cfl_perm_alloc_aligned: Out of memory"%string
  | Endless => False
  end.
Proof.
  intros Hp. unfold bus_pool_init. change (nz (g_pool_n pool0)) with false. cbn match.
  pose proof (carve_spec 24 0 perm (pool0 <| g_pool_free := None |> <| g_pool_avail := 0 |>) eq_refl Hp) as H.
  assert (H0 : placed perm (pool0 <| g_pool_free := None |> <| g_pool_avail := 0 |>)).
  { split; simpl; [constructor|]. intros *. by rewrite lookup_nil. }
  change (Z.to_nat BUS_POOL_N) with 24%nat. destruct (carve 24 perm _) as [[p perm']|msg|]; cbn [cbind].
  2,3: apply H; [by split|done].
  destruct H as (Hc & Hpl & _); [by split|done|].
  set (q := p <| g_pool_n := _ |> <| g_pool_low := _ |>). pose proof (carved_inv _ Hc) as Hq. fold q in Hq.
  assert (Eq : g_pool_n q = 24 /\ g_pool_avail q = 24) by (pose proof (ca_avail _ _ Hc); done). destruct Eq as [En Ea].
  rewrite En. pose proof (grab_all_spec 24 q [] Hq) as Hg. change (Z.to_nat 24) with 24%nat.
  destruct (grab_all 24 q) as [got p1]. destruct Hg as (Hi1 & Hr1 & Ha1 & Hor).
  destruct (avail_free _ _ Hi1) as [Hb1 Hz1].
  assert (Hlen : zlen got = 24) by (destruct Hor as [E|E]; [unfold zlen; by rewrite E|apply Hz1 in E; lia]).
  assert (Hnone : g_pool_free p1 = None) by (apply Hz1; lia).
  unfold pool_grab. rewrite Hnone. destruct (recover_all_spec _ _ _ Hi1) as (Hi2 & Hr2 & Ha2).
  set (p2 := foldl _ p1 got) in *. assert (Hr : pool_rest q p2) by by etrans. destruct Hr as [Had Hn2 Hnd].
  assert (Ea2 : g_pool_avail p2 = 24) by lia. rewrite Hlen, Hn2, En, Ea2. cbn.
  split; [by eapply inv_ext, Hi2; try done; apply Hi2|]. split; [|split; [done|split; [exact Ea2|split; [done|]]]].
  2: { rewrite Hnd. change (g_nodes q) with (g_nodes p). by rewrite (ca_rest _ _ Hc). }
  change (bufs q) with (bufs p) in Had.
  assert (Hlk : forall i b, bufs p2 !! i = Some b -> exists c, bufs p !! i = Some c /\ b_addr c = b_addr b).
  { intros i b Hb. assert (E : map b_addr (bufs p2) !! i = Some (b_addr b)) by (rewrite list_lookup_fmap, Hb; done).
    rewrite Had in E. apply list_lookup_fmap_Some in E as (c & Hcl & ?). eauto. }
  destruct Hpl as [Hf Ho]. rewrite Forall_lookup in Hf. split; simpl.
  - apply Forall_lookup. intros i b Hb. destruct (Hlk i b Hb) as (c & Hcl & <-). by apply (Hf i).
  - intros i j a b Hij Hia Hjb. destruct (Hlk i a Hia) as (c & Hcl & <-), (Hlk j b Hjb) as (d & Hd & <-). by apply (Ho i j).
Qed.

(** ** Property *)
Lemma ready_inv perm s : perm_ok perm -> bus_ready perm s -> bc_inv s [].
Proof.
  intros Hp (p & perm' & E & Et & Hs). pose proof (pool_init_spec perm Hp) as H. rewrite E in H.
  destruct H as (Hi & _ & _ & _ & _ & En). split; [|done]. rewrite Et. apply build_inv; [|done].
  apply table_empty_heads; [apply Hi|]. rewrite En. exact pool0_table.
Qed.
Lemma boot_ok perm s : perm_ok perm -> bus_ready perm s -> sys_ok bc_inv (bus_boot s).
Proof.
  intros Hp Hr. exists [], []. split; [|split; [constructor|by eapply ready_inv]].
  eapply safe_tbind; [apply selftest_safe|]. by intros _ P ->.
Qed.

(** C2. Pool conservation. After the pool is carved and the node table built, let the bus
    task run its loop while, at any points between its critical sections, the uplink's pumps
    run with any bytes from the host (register, clear, inject, mode changes, ..), the
    commissioned roster is reloaded and the engine originates messages, any number of calls
    at once. Then at every moment no task is caught in a loop, and the 24 buffers are
    partitioned: each is on the free list, or on exactly one list of one node, or held by
    exactly one task, every chain ends in NULL after just these buffers, [g_pool_avail] is
    the length of the free list and the low-water mark is not above it. When no call is in
    progress no task holds a buffer. Every poll slot is assumed to end, that is, time passes
    its window. *)
Theorem pool_conserved dispatch perm s y :
  perm_ok perm -> bus_ready perm s -> rtc (bus_system dispatch) (bus_boot s) y ->
  let p := tx_pool (sys_state y) in
  can_step (sys_task y) (sys_state y) /\ Forall (fun c => can_step c (sys_state y)) (sys_calls y) /\
  (exists free Q P, pool_own p free Q P /\ g_pool_avail p = zlen free /\ (quiet y -> P = [])) /\
  0 <= g_pool_low p <= g_pool_avail p.
Proof.
  intros Hp Hr Hy p. pose proof (boot_ok perm s Hp Hr) as H0.
  assert (Hperm : forall s P P', P ≡ₚ P' -> bc_inv s P -> bc_inv s P').
  { intros t P P' HP [Hi Hs]. split; [by eapply inv_perm|done]. }
  pose proof (sys_reach_ok bc_inv Hperm bus_control_pass (bc_call dispatch) control_pass_safe (call_safe dispatch)
    _ _ Hy H0) as Hok.
  destruct (sys_ok_progress bc_inv Hperm y Hok) as [Ht Hc]. split; [done|]. split; [done|].
  destruct Hok as (P & Ps & Hh & Hcs & [[Hw (free & Q & Ho & Ha)] _]). split; [|apply Hw].
  exists free, Q, (P ++ concat Ps). split; [done|]. split; [done|]. intros [Hq [c Hd]].
  rewrite Hq in Hcs. apply Forall2_nil_inv_r in Hcs as ->. rewrite Hd in Hh. unfold holds in Hh. simpl in Hh. by subst.
Qed.

Lemma example_ready : perm_ok example_arena /\ bus_ready example_arena example_bc.
Proof.
  split; [by apply (init_ok (Some cfl_perm_set_instance) _ 0x20000000 16384)|].
  destruct (bus_pool_init example_arena pool0) as [[p q]|msg|] eqn:E; [|by vm_compute in E..].
  exists p, q. split; [done|]. split; [|by constructor]. simpl. unfold example_pool. by rewrite E.
Qed.

Lemma pool_conserved_witness :
  exists y free Q P, rtc (bus_system (fun _ _ _ => (CMD_NOT_MINE, []))) (bus_boot example_bc) y /\
    length (sys_calls y) = 1%nat /\ zlen free = 23 /\ pool_own (tx_pool (sys_state y)) free Q P.
Proof.
  set (c := kbapp_on_echo_to 9 7 [1; 2; 3]).
  assert (Hc : match advance 4 c example_bc with Some (_, s) => g_pool_avail (tx_pool s) | None => 0 end = 23)
    by (vm_compute; reflexivity).
  destruct (advance 4 c example_bc) as [[c' s']|] eqn:E; [|discriminate Hc].
  set (y := mk_sys (sys_task (bus_boot example_bc)) [c'] s').
  assert (Hy : rtc (bus_system (fun _ _ _ => (CMD_NOT_MINE, []))) (bus_boot example_bc) y).
  { eapply rtc_l; [apply (step_begin _ _ c); constructor|]. by apply (advance_call _ _ 4 _ [] []). }
  destruct (pool_conserved (fun _ _ _ => (CMD_NOT_MINE, [])) example_arena example_bc y
    (proj1 example_ready) (proj2 example_ready) Hy) as (_ & _ & (free & Q & P & Ho & Hf & _) & _).
  exists y, free, Q, P. split; [exact Hy|]. split; [reflexivity|]. split; [|exact Ho].
  rewrite <- Hf. exact Hc.
Defined.
