(* ===== verification/BcTable.v ===== *)
(** The node table: the insertion sort of [bus_nodetable_build]. *)
From stdpp Require Import sorting.
From S2P Require Import Prelude BusFrame HostLink BcState Threads CflBase CflPerm BcPool BcRoster BcPoolSafety BcTasks.

(** ** Specification *)

(** A roster entry's node. *)
Definition node_of (r : slave_t) : bus_node_t :=
  mk_bnode (s_addr r) (if nz (Z.land (s_flags r) FLAG_ENABLED) then 1 else 0) 0 0 [None; None].
(** The entries the table is built from, and the table in use. *)
Definition roster_entries (r : roster_st) : list slave_t := take (Z.to_nat (g_roster_n r)) (g_roster r).
Definition node_table (p : pool_t) : list bus_node_t := take (Z.to_nat (g_nodes_n p)) (g_nodes p).
Definition addr_le (x y : bus_node_t) : Prop := nd_addr x <= nd_addr y.

(** [l] is [es] sorted by address, entries of one address in their old order. *)
Record sorted_from (es l : list bus_node_t) : Prop := {
  sf_sorted : StronglySorted addr_le l; sf_perm : l ≡ₚ es;
  sf_stable : forall a, filter (fun n => nd_addr n = a) l = filter (fun n => nd_addr n = a) es
}.

(** ** Insertion *)
Lemma shift_up_insert k e A x B : length A = k ->
  exists A1 A2, A = A1 ++ A2 /\ <[(shift_up k e (A ++ x :: B)).1 := e]> (shift_up k e (A ++ x :: B)).2 = A1 ++ e :: A2 ++ B /\
    Forall (fun m => nd_addr e < nd_addr m) A2 /\ (forall m, last A1 = Some m -> nd_addr m <= nd_addr e).
Proof.
  revert A x B. induction k as [|k IH]; intros A x B Hk.
  { destruct A; [|done]. by exists [], []. }
  destruct (exists_last (l := A)) as (A' & y & ->); [by intros -> |]. rewrite length_app in Hk. simpl in Hk.
  cbn [shift_up]. assert (En : nth k ((A' ++ [y]) ++ x :: B) bnode0 = y).
  { replace k with (length A') by lia. rewrite <- app_assoc. simpl. by rewrite nth_middle. }
  rewrite En. destruct (Z.ltb_spec (nd_addr e) (nd_addr y)) as [Hlt|Hge].
  - assert (Ei : <[S k := y]> ((A' ++ [y]) ++ x :: B) = A' ++ y :: y :: B).
    { replace (S k) with (length (A' ++ [y]) + 0)%nat by (rewrite length_app; simpl; lia).
      rewrite insert_app_r. simpl. by rewrite <- app_assoc. }
    rewrite Ei. destruct (IH A' y (y :: B) ltac:(lia)) as (A1 & A2 & -> & Er & Hf & Hl).
    exists A1, (A2 ++ [y]). split; [by rewrite <- app_assoc|]. split; [by rewrite Er, <- app_assoc|]. split; [|done].
    apply Forall_app. split; [done|]. by constructor.
  - exists (A' ++ [y]), []. split; [by rewrite app_nil_r|]. split.
    + cbn [fst snd]. replace (S k) with (length (A' ++ [y]) + 0)%nat by (rewrite length_app; simpl; lia).
      by rewrite insert_app_r.
    + split; [done|]. intros m. rewrite last_snoc. by intros [= ->].
Qed.

Lemma filter_out {A} (P : A -> Prop) `{!forall x, Decision (P x)} l : Forall (fun x => ~ P x) l -> filter P l = [].
Proof. induction 1 as [|x l Hx _ IH]; [done|]. by rewrite filter_cons_False. Qed.
Lemma sorted_insert es A1 A2 e : sorted_from es (A1 ++ A2) ->
  Forall (fun m => nd_addr e < nd_addr m) A2 -> (forall m, last A1 = Some m -> nd_addr m <= nd_addr e) ->
  sorted_from (es ++ [e]) (A1 ++ e :: A2).
Proof.
  intros [Hs Hp Ht] H2 H1.
  assert (H1' : Forall (fun m => addr_le m e) A1).
  { destruct (last A1) as [m|] eqn:E.
    - apply last_Some in E as (A & ->). specialize (H1 m eq_refl). apply Forall_app. split; [|by constructor].
      apply StronglySorted_app in Hs as (_ & Hs & _). apply StronglySorted_app in Hs as (Hc & _ & _).
      apply Forall_forall. intros x Hx. unfold addr_le. etrans; [|exact H1]. apply (Hc x m); [done|by left].
    - apply last_None in E as ->. constructor. }
  split.
  - apply StronglySorted_app in Hs as (Hc & HA1 & HA2). apply StronglySorted_app. split; [|split; [done|]].
    + intros x y Hx Hy. rewrite Forall_forall in H1'. apply elem_of_cons in Hy as [-> |Hy]; [by apply H1'|by apply Hc].
    + constructor; [done|]. eapply Forall_impl; [exact H2|]. unfold addr_le. simpl. lia.
  - rewrite <- Hp. solve_Permutation.
  - intros a. rewrite !filter_app, <- (Ht a), filter_app, !filter_cons. case_decide as Ha.
    + rewrite (filter_out _ A2); [by rewrite app_nil_r|]. eapply Forall_impl; [exact H2|]. simpl. lia.
    + by rewrite app_nil_r.
Qed.

(** ** The loop *)
Lemma table_loop_sorted rs es A B n :
  sorted_from es A -> n = zlen A -> zlen (A ++ B) = ROSTER_MAX -> (length A + length rs <= Z.to_nat ROSTER_MAX)%nat ->
  exists A' B', table_loop rs (A ++ B) n = (A' ++ B', zlen A') /\ zlen (A' ++ B') = ROSTER_MAX /\
    sorted_from (es ++ map node_of rs) A'.
Proof.
  revert es A B n. induction rs as [|r rs IH]; intros es A B n Hs -> Hz Hle; cbn [table_loop map].
  { exists A, B. by rewrite app_nil_r. }
  simpl in Hle. unfold ROSTER_MAX in *. destruct (Z.leb_spec 16 (zlen A)) as [H|_]; [unfold zlen in H; lia|].
  fold (node_of r). destruct B as [|x B]; [rewrite app_nil_r in Hz; unfold zlen in *; lia|].
  destruct (shift_up_insert (length A) (node_of r) A x B eq_refl) as (A1 & A2 & -> & Ei & H2 & H1).
  replace (Z.to_nat (zlen (A1 ++ A2))) with (length (A1 ++ A2)) by (unfold zlen; lia).
  destruct (shift_up _ _ _) as [j l]. cbn [fst snd] in Ei. rewrite Ei.
  assert (El : zlen (A1 ++ node_of r :: A2) = zlen (A1 ++ A2) + 1) by (unfold zlen; rewrite !length_app; simpl; lia).
  rewrite u8_id by (unfold fits, zlen in *; lia). rewrite <- El.
  replace (A1 ++ node_of r :: A2 ++ B) with ((A1 ++ node_of r :: A2) ++ B) by by rewrite <- app_assoc.
  replace (es ++ node_of r :: map node_of rs) with ((es ++ [node_of r]) ++ map node_of rs) by by rewrite <- app_assoc.
  apply IH; [by apply sorted_insert|done| |].
  - rewrite <- Hz, !(zlen_app (_ ++ _)), El. unfold zlen. simpl. lia.
  - unfold zlen in El. lia.
Qed.

(** The node table is the roster sorted by address. Built from a roster of at most 16
    entries, whatever the table held before, it has one node for each entry with that entry's
    address and enabled flag, alive, without misses and with empty lists; the nodes are in
    ascending order of address, entries of the same address in the roster's order; and a
    message finds a node exactly if its address is in the roster. *)
Theorem nodetable_sorted r p :
  zlen (g_nodes p) = ROSTER_MAX -> 0 <= g_roster_n r <= ROSTER_MAX -> zlen (g_roster r) = ROSTER_MAX ->
  let p' := bus_nodetable_build r p in
  g_nodes_n p' = g_roster_n r /\ sorted_from (map node_of (roster_entries r)) (node_table p') /\
  forall addr, node_index_of p' addr <> -1 <-> addr ∈ map s_addr (roster_entries r).
Proof.
  intros Hz Hn Hr p'. unfold roster_entries. set (rs := take (Z.to_nat (g_roster_n r)) (g_roster r)).
  assert (Hrs : length rs = Z.to_nat (g_roster_n r)) by (unfold rs, zlen in *; rewrite length_take; lia).
  destruct (table_loop_sorted rs [] [] (g_nodes p) 0) as (A & B & E & Hz' & Hs); [split; done || constructor|done|done|simpl; lia|].
  assert (Ep : g_nodes p' = A ++ B /\ g_nodes_n p' = zlen A).
  { unfold p', bus_nodetable_build. fold rs. simpl in E. by rewrite E. }
  destruct Ep as [El En]. simpl in Hs. assert (HA : length A = Z.to_nat (g_roster_n r)).
  { rewrite (Permutation_length (sf_perm _ _ Hs)). by rewrite length_map. }
  assert (Et : node_table p' = A).
  { unfold node_table. rewrite El, En. unfold zlen. rewrite Nat2Z.id. by rewrite take_app_length. }
  split; [rewrite En; unfold zlen; lia|]. split; [by rewrite Et|]. intros addr.
  unfold node_index_of. fold (node_table p'). rewrite Et.
  assert (Hin : addr ∈ map s_addr rs <-> addr ∈ map nd_addr A).
  { rewrite (sf_perm _ _ Hs), map_map. done. }
  rewrite Hin, list_elem_of_fmap. destruct (find_index _ A) as [k|] eqn:Ef.
  - split; [intros _|lia]. apply find_index_Some in Ef as (l1 & x & l2 & -> & _ & Hx & _). exists x.
    split; [symmetry; by apply Z.eqb_eq|]. apply elem_of_app. right. by left.
  - split; [done|]. intros (x & -> & Hx). apply find_index_None in Ef. rewrite Forall_forall in Ef.
    specialize (Ef x Hx). simpl in Ef. by rewrite Z.eqb_refl in Ef.
Qed.

Lemma nodetable_sorted_witness :
  node_table (bus_nodetable_build example_roster example_pool) = map node_of (rev (roster_entries example_roster)) /\
  sorted_from (map node_of (roster_entries example_roster)) (node_table (bus_nodetable_build example_roster example_pool)).
Proof.
  split; [vm_compute; reflexivity|].
  apply (nodetable_sorted example_roster example_pool); [vm_compute; reflexivity|vm_decide|reflexivity].
Defined.
