(* ===== verification/BcEdges.v ===== *)
(** What the host hears of the slaves: the edges [emit_liveness_edges] announces. *)
From S2P Require Import Prelude BusFrame LibcommFrame HostLink BcState Threads CflBase CflPerm BcPool BcRoster BcPoolSafety BcTasks.

(** ** Specification *)

(** An entry's state or summary the host has not been told. *)
Definition state_news (x : slave_t) : bool :=
  negb (s_state x =? s_announced_state x) &&
  ((s_state x =? ST_DEAD) || ((s_state x =? ST_ALIVE) && (s_announced_state x =? ST_DEAD))).
Definition summary_news (x : slave_t) : bool := negb (s_summary x =? s_announced_summary x).
Definition news (x : slave_t) : Z := Z.b2z (state_news x) + Z.b2z (summary_news x).
Definition total_news (l : list slave_t) : Z := foldr (fun x n => news x + n) 0 l.

(** The opcode and body that tell it. *)
Definition edge_message (x : slave_t) : Z * list Z :=
  if state_news x then
    if s_state x =? ST_DEAD then (OP_BUS_SLAVE_DOWN, [s_addr x]) else (OP_BUS_SLAVE_UP, s_addr x :: wr_u32 (s_class_id x))
  else (OP_BUS_SLAVE_FLAGGED, [s_addr x; s_summary x]).

Definition entries (s : bc_t) : list slave_t := take (Z.to_nat (g_roster_n (ros s))) (g_roster (ros s)).
(** An entry but for its shadows. *)
Definition bare (x : slave_t) : slave_t := x <| s_announced_state := 0 |> <| s_announced_summary := 0 |>.
Definition try_send (s : bc_t) (x : slave_t) : host_link_t * Z :=
  let '(op, body) := edge_message x in host_link_s2m (g_hl s) (s_addr x) op body (zlen body).

(** ** One entry *)
Definition with_roster (s : bc_t) (l : list slave_t) (h : host_link_t) : bc_t :=
  s <| ros ::= fun r => r <| g_roster := l |> |> <| g_hl := h |>.

(** The slave at 9 died and the link to the host is up. *)
Definition example_news : bc_t :=
  example_bc <| ros ::= set_slave 0 (fun x => x <| s_state := ST_DEAD |>) |> <| g_hl ::= fun h => h <| h_state := HL_OPERATIONAL |> |>.

Lemma slave_mid (A : list slave_t) x B : zget slave0 (A ++ x :: B) (zlen A) = x.
Proof. apply zget_lookup; [apply zlen_nonneg|]. unfold zlen. rewrite Nat2Z.id. by apply list_lookup_middle. Qed.

Lemma set_entry s A x B f : g_roster (ros s) = A ++ x :: B ->
  s <| ros ::= set_slave (zlen A) f |> = with_roster s (A ++ f x :: B) (g_hl s).
Proof.
  intros Er. unfold with_roster, set_slave, field_map. simpl. rewrite Er, slave_mid, zset_app_mid. by destruct s.
Qed.
Lemma roster_same s l : g_roster (ros s) = l -> with_roster s l (g_hl s) = s.
Proof. intros <-. by destruct s as [? [] ? ? ? ? ? ? ? ? ? ?]. Qed.
Lemma with_twice s l h l' h' : with_roster (with_roster s l h) l' h' = with_roster s l' h'.
Proof. done. Qed.

(** One edge, its shadow written if the link took the message. *)
Lemma send_edge s A x B op body f : g_roster (ros s) = A ++ x :: B ->
  (let '(rc, t) := s2m (s_addr x) op body (zlen body) s in
   (true, if rc =? 0 then t <| ros ::= set_slave (zlen A) f |> else t)) =
  let '(h, rc) := host_link_s2m (g_hl s) (s_addr x) op body (zlen body) in
  (true, with_roster s (A ++ (if rc =? 0 then f x else x) :: B) h).
Proof.
  intros Er. unfold s2m. destruct (host_link_s2m _ _ _ _ _) as [h rc]. destruct (rc =? 0).
  - by rewrite (set_entry _ A x B).
  - f_equal. rewrite <- (roster_same (s <| g_hl := h |>) (A ++ x :: B)) by done. done.
Qed.

(** The state's part and the summary's part of an entry's visit. *)
Lemma state_edge_does s A x B : g_roster (ros s) = A ++ x :: B ->
  state_edge (zlen A) s =
  if state_news x then
    let '(h, rc) := try_send s x in
    (true, with_roster s (A ++ (if rc =? 0 then x <| s_announced_state := s_state x |> else x) :: B) h)
  else (false, with_roster s (A ++ x <| s_announced_state := s_state x |> :: B) (g_hl s)).
Proof.
  intros Er. unfold state_edge, slave_at. rewrite Er, slave_mid. cbv zeta. unfold try_send, edge_message, state_news.
  destruct (Z.eqb_spec (s_state x) (s_announced_state x)) as [Es|Es]; cbn [negb andb].
  { f_equal. rewrite Es. symmetry. apply roster_same. rewrite Er. f_equal. f_equal. by destruct x. }
  destruct (Z.eqb_spec (s_state x) ST_DEAD) as [Ed|Ed]; cbn [orb].
  { rewrite (send_edge s A x B OP_BUS_SLAVE_DOWN [s_addr x]) by done. by rewrite Ed. }
  destruct ((s_state x =? ST_ALIVE) && (s_announced_state x =? ST_DEAD)) eqn:Ea.
  - apply andb_true_iff in Ea as [Ea _]. apply Z.eqb_eq in Ea.
    rewrite (send_edge s A x B OP_BUS_SLAVE_UP (s_addr x :: wr_u32 (s_class_id x))) by done. by rewrite Ea.
  - f_equal. by apply (set_entry s A x B (fun x => x <| s_announced_state := s_state x |>)).
Qed.
Lemma summary_edge_does s A x B : g_roster (ros s) = A ++ x :: B ->
  summary_edge (zlen A) s =
  if summary_news x then
    let '(h, rc) := host_link_s2m (g_hl s) (s_addr x) OP_BUS_SLAVE_FLAGGED [s_addr x; s_summary x] 2 in
    (true, with_roster s (A ++ (if rc =? 0 then x <| s_announced_summary := s_summary x |> else x) :: B) h)
  else (false, s).
Proof.
  intros Er. unfold summary_edge, slave_at. rewrite Er, slave_mid. cbv zeta. unfold summary_news.
  destruct (_ =? _); [done|]. by apply (send_edge s A x B OP_BUS_SLAVE_FLAGGED [s_addr x; s_summary x] (fun x => x <| s_announced_summary := s_summary x |>)).
Qed.

(** An entry without news lets the pass go on; one with news ends it with its message. *)
Lemma visit s A x B : g_roster (ros s) = A ++ x :: B -> exists x', bare x' = bare x /\
  if news x =? 0
  then state_edge (zlen A) s = (false, with_roster s (A ++ x' :: B) (g_hl s)) /\ news x' = 0 /\
       summary_edge (zlen A) (with_roster s (A ++ x' :: B) (g_hl s)) = (false, with_roster s (A ++ x' :: B) (g_hl s))
  else (let '(stop, t) := state_edge (zlen A) s in if stop then (true, t) else summary_edge (zlen A) t) =
         (true, with_roster s (A ++ x' :: B) (try_send s x).1) /\
       news x' = if (try_send s x).2 =? 0 then news x - 1 else news x.
Proof.
  intros Er. rewrite (state_edge_does _ _ _ _ Er). unfold news. destruct (state_news x) eqn:E1.
  - destruct (try_send s x) as [h rc] eqn:Et. eexists. split; [|destruct (_ =? 0) eqn:E0; [destruct (summary_news x); done|split; [done|]]].
    + by destruct (rc =? 0).
    + cbn [snd]. destruct (rc =? 0); [|by rewrite E1].
      unfold state_news. simpl. rewrite Z.eqb_refl. cbn [negb andb]. unfold summary_news. simpl. lia.
  - set (x1 := x <| s_announced_state := s_state x |>). assert (E2 : state_news x1 = false).
    { unfold state_news. simpl. by rewrite Z.eqb_refl. }
    assert (E3 : summary_news x1 = summary_news x) by done.
    pose proof (summary_edge_does (with_roster s (A ++ x1 :: B) (g_hl s)) A x1 B eq_refl) as Es. rewrite E3 in Es.
    destruct (summary_news x) eqn:E4.
    + assert (Et : try_send s x = host_link_s2m (g_hl s) (s_addr x) OP_BUS_SLAVE_FLAGGED [s_addr x; s_summary x] 2)
        by (unfold try_send, edge_message; by rewrite E1).
      change (g_hl (with_roster s (A ++ x1 :: B) (g_hl s))) with (g_hl s) in Es. change (s_addr x1) with (s_addr x) in Es.
      change (s_summary x1) with (s_summary x) in Es. rewrite <- Et in Es. destruct (try_send s x) as [h rc].
      eexists. split; [|split; [exact Es|]].
      * by destruct (rc =? 0).
      * cbn [snd]. destruct (rc =? 0); [|by rewrite E2, E3].
        unfold summary_news. simpl. rewrite Z.eqb_refl. by unfold state_news in *; simpl in *; rewrite E2.
    + exists x1. split; [done|]. split; [done|]. by rewrite E2, E3.
Qed.

(** ** The pass *)
Lemma news_nonneg x : 0 <= news x.
Proof. unfold news. destruct (state_news x), (summary_news x); simpl; lia. Qed.
Lemma total_app a b : total_news (a ++ b) = total_news a + total_news b.
Proof. unfold total_news. induction a as [|x a IH]; [done|]. simpl. lia. Qed.
Lemma total_cons x l : total_news (x :: l) = news x + total_news l.
Proof. done. Qed.

Lemma edges_pass M : forall s A C, g_roster (ros s) = A ++ M ++ C ->
  exists M', map bare M' = map bare M /\
  match find (fun x => negb (news x =? 0)) M with
  | None => edges_from (map Z.of_nat (seq (length A) (length M))) s = with_roster s (A ++ M' ++ C) (g_hl s) /\ total_news M' = 0
  | Some x => edges_from (map Z.of_nat (seq (length A) (length M))) s = with_roster s (A ++ M' ++ C) (try_send s x).1 /\
      total_news M' = if (try_send s x).2 =? 0 then total_news M - 1 else total_news M
  end.
Proof.
  induction M as [|x M IH]; intros s A C Er.
  { exists []. split; [done|]. cbn. split; [|done]. by rewrite roster_same. }
  cbn [find length seq map edges_from]. change (Z.of_nat (length A)) with (zlen A).
  destruct (visit s A x (M ++ C) Er) as (x' & Hb & Hv). destruct (Z.eqb_spec (news x) 0) as [Hn|Hn]; cbn [negb].
  - destruct Hv as (E1 & Hn' & E2). rewrite E1, E2.
    set (s1 := with_roster s (A ++ x' :: M ++ C) (g_hl s)).
    destruct (IH s1 (A ++ [x']) C) as (M' & Hb' & Hf); [unfold s1; simpl; by rewrite <- app_assoc|].
    rewrite length_app in Hf. simpl in Hf. rewrite Nat.add_1_r in Hf.
    exists (x' :: M'). split; [simpl; congruence|].
    assert (Eh : forall h, with_roster s1 ((A ++ [x']) ++ M' ++ C) h = with_roster s (A ++ (x' :: M') ++ C) h)
      by (intros h; unfold s1; rewrite with_twice, <- app_assoc; done).
    destruct (find _ M) as [y|]; rewrite Eh in Hf; destruct Hf as [Hf Ht]; (split; [exact Hf|]); rewrite ?total_cons, ?Hn, ?Hn'; [|lia].
    change (try_send s1 y) with (try_send s y) in Ht. rewrite Ht. case_match; lia.
  - destruct Hv as (E1 & Hn'). exists (x' :: M). split; [simpl; congruence|].
    split; [|rewrite !total_cons, Hn'; case_match; lia].
    destruct (state_edge (zlen A) s) as [[] t].
    + by injection E1 as ->.
    + destruct (summary_edge (zlen A) t) as [[] t']; [by injection E1 as ->|done].
Qed.

(** C30. Liveness edges are deferred, never dropped. Each call of [emit_liveness_edges] offers
    the link one message, that of the first roster entry with something the host was not told
    (a death, a return from an announced death, a summary), or none if there is none. If the
    link takes it, exactly one piece of news less is outstanding; if the link refuses it (ring
    full, not attached), the same news stay outstanding for a later call. Of the entries only
    the shadows change. *)
Theorem liveness_edges s : 0 <= g_roster_n (ros s) <= zlen (g_roster (ros s)) ->
  let s' := emit_liveness_edges s in
  map bare (entries s') = map bare (entries s) /\ g_roster_n (ros s') = g_roster_n (ros s) /\
  match find (fun x => negb (news x =? 0)) (entries s) with
  | None => g_hl s' = g_hl s /\ total_news (entries s') = 0
  | Some x =>
      let '(op, body) := edge_message x in
      let '(h, rc) := host_link_s2m (g_hl s) (s_addr x) op body (zlen body) in
      g_hl s' = h /\ total_news (entries s') = total_news (entries s) - (if rc =? 0 then 1 else 0)
  end.
Proof.
  intros Hn s'. set (n := Z.to_nat (g_roster_n (ros s))). assert (Hl : length (entries s) = n).
  { unfold entries, zlen in *. rewrite length_take. lia. }
  destruct (edges_pass (entries s) s [] (drop n (g_roster (ros s)))) as (M & Hb & Hf).
  { simpl. symmetry. apply take_drop. }
  cbn [length app] in Hf. rewrite Hl in Hf. change (edges_from (map Z.of_nat (seq 0 n)) s) with s' in Hf. clearbody s'.
  assert (HM : length M = n) by (rewrite <- Hl; apply (f_equal length) in Hb; by rewrite !length_map in Hb).
  assert (He : forall h, entries (with_roster s (M ++ drop n (g_roster (ros s))) h) = M).
  { intros h. unfold entries. simpl. fold n. by rewrite take_app_length' by done. }
  destruct (find _ (entries s)) as [x|].
  - unfold try_send in Hf. destruct (edge_message x) as [op body]. destruct (host_link_s2m _ _ _ _ _) as [h rc].
    destruct Hf as [-> Ht]. rewrite He. simpl in Ht. split; [done|]. split; [done|]. split; [done|]. rewrite Ht. case_match; lia.
  - destruct Hf as [-> Ht]. by rewrite He.
Qed.

Lemma liveness_edges_witness :
  (host_link_s2m (g_hl example_news) 9 OP_BUS_SLAVE_DOWN [9] 1).2 = 0 /\
  let s' := emit_liveness_edges example_news in
  g_hl s' = (host_link_s2m (g_hl example_news) 9 OP_BUS_SLAVE_DOWN [9] 1).1 /\ total_news (entries s') = 0.
Proof.
  assert (Hrc : (host_link_s2m (g_hl example_news) 9 OP_BUS_SLAVE_DOWN [9] 1).2 = 0) by (vm_compute; reflexivity).
  split; [exact Hrc|]. cbv zeta.
  assert (Hn : 0 <= g_roster_n (ros example_news) <= zlen (g_roster (ros example_news))) by vm_decide.
  destruct (liveness_edges example_news Hn) as (_ & _ & H).
  assert (Ef : find (fun x => negb (news x =? 0)) (entries example_news) = Some (mk_slave 9 0x101 FLAG_ENABLED ST_DEAD 0 0 0 0 0))
    by (vm_compute; reflexivity).
  assert (Et : total_news (entries example_news) = 1) by (vm_compute; reflexivity). rewrite Ef, Et in H.
  change (edge_message _) with (OP_BUS_SLAVE_DOWN, [9]) in H. cbv beta iota in H. change (zlen [9]) with 1 in H. cbn [s_addr] in H.
  destruct (host_link_s2m (g_hl example_news) 9 OP_BUS_SLAVE_DOWN [9] 1) as [h rc]. cbn [snd] in Hrc. subst rc. exact H.
Defined.
