(* ===== verification/BcCycle.v ===== *)
(** What one cycle does: the frames it puts on the bus, the queues it empties, the fate of
    silent nodes. *)
From stdpp Require Import relations functions.
From S2P Require Import Prelude BusFrame HostLink BcState Threads CflBase CflPerm BcPool BcRoster BcArbiter.
From S2P Require Import BootFiles BcPoolSafety BcTasks.

(** ** Specification *)

(** The frames of requests [(dest, type, payload, len)] sent one after another from the
    sequence number [seq] on. *)
Definition request : Type := Z * Z * list Z * Z.
Definition request_frame (seq : Z) (r : request) : bus_frame_t :=
  let '(dest, type, p, len) := r in
  mk_frame dest BUS_ADDR_MASTER type seq len (store (replicate (Z.to_nat BUS_PAYLOAD_MAX) 0) 0 (take (Z.to_nat len) p)).
Fixpoint transmit (seq : Z) (rs : list request) : list (list Z) :=
  match rs with
  | [] => []
  | r :: rs => bus_frame_encode (request_frame seq r) :: transmit (u8 (seq + 1)) rs
  end.
Definition seq_after (seq : Z) (rs : list request) : Z := Nat.iter (length rs) (fun q => u8 (q + 1)) seq.

(** What is told of the message in buffer [b], and the POLL of a node. *)
Definition data_request (p : pool_t) (i b : Z) : request :=
  (nd_addr (node_at p i), BUS_FT_DATA, b_payload (buf_at p b), b_len (buf_at p b)).
Definition poll_request (p : pool_t) (i : Z) : request := (nd_addr (node_at p i), BUS_FT_POLL, [], 0).
Definition is_dead (p : pool_t) (i : Z) : bool := nz (nd_dead (node_at p i)).
Definition fill_idx (p : pool_t) : Z := Z.lxor (g_active_idx p) 1.

(** The messages of node [i] with the queued buffers [l], and its POLL if it had none. *)
Definition node_messages (p : pool_t) (l : list Z) (i : Z) : list request :=
  if is_dead p i then [] else map (data_request p i) l.
Definition node_poll (p : pool_t) (l : list Z) (i : Z) : list request :=
  if is_dead p i || negb (bool_decide (l = [])) then [] else [poll_request p i].

(** What the cycle works on. *)
Record view := mk_view {
  v_bufs : list tx_buf_t; v_free : option Z; v_nodes : list bus_node_t; v_n : Z; v_active : Z; v_dirty : bool;
  v_bc : bus_asm_t; v_seq : Z; v_out : list (list Z); v_dead : dead_st; v_max : Z; v_pending : bool;
  v_slots : Z -> list slot_in; v_mode : Z * bool
}.
#[export] Instance eta_view : Settable view := fun v =>
  mk_view (v_bufs v) (v_free v) (v_nodes v) (v_n v) (v_active v) (v_dirty v) (v_bc v) (v_seq v) (v_out v) (v_dead v)
    (v_max v) (v_pending v) (v_slots v) (v_mode v).
Definition view_of (s : bc_t) : view :=
  mk_view (bufs (tx_pool s)) (g_pool_free (tx_pool s)) (g_nodes (tx_pool s)) (g_nodes_n (tx_pool s))
    (g_active_idx (tx_pool s)) (g_nodes_dirty (tx_pool s)) (g_bc (line s)) (g_bus_seq (line s)) (out_words (io s)) (dead s)
    (g_poll_max_misses (poll s)) (g_cmd_pending (cmd s)) (in_slots (io s)) (g_cycle_mode (cyc s), g_identity_refused (upl s)).

(** [R] holds of the states before and after every run. *)
Definition does {A} (p : prog bc_t A) (R : bc_t -> A -> bc_t -> Prop) : Prop :=
  forall s a s', run p s = Some (a, s') -> R s a s'.
Definition views {A} (p : prog bc_t A) : Prop := does p (fun s _ s' => view_of s' = view_of s).
Definition rx_ok (a : bus_asm_t) : Prop := asm_wf a /\ addr_is_for_us a BUS_ADDR_MASTER = true.
(** The node's first reply is complete when the task first wakes; or there is no word at all. *)
Definition slot_answers (addr : Z) (si : slot_in) : Prop := exists r rs f,
  si_rounds si = r :: rs /\ rd_words r = bus_frame_encode f /\ frame_wf f /\ f_src f = addr /\ f_dest f = BUS_ADDR_MASTER.
Definition slot_silent (si : slot_in) : Prop := exists r rs, si_rounds si = r :: rs /\ rd_heard r = false /\ rd_words r = [].
Definition next_in (addr : Z) (v : view) : slot_in := default silent_slot (head (v_slots v addr)).
(** A slot granted to [addr]: the POLL goes out, one slot of the node's is over. *)
Definition polled (addr : Z) (bc : bus_asm_t) (v : view) : view :=
  v <| v_bc := bc |> <| v_seq ::= fun q => u8 (q + 1) |>
    <| v_out ::= fun o => o ++ transmit (v_seq v) [(addr, BUS_FT_POLL, [], 0)] |>
    <| v_slots ::= fun f a => if a =? addr then tail (f a) else f a |>.
Definition contents (p : pool_t) : list (list Z * Z) := map (fun b => (b_payload b, b_len b)) (bufs p).
Definition node_key (n : bus_node_t) : Z * Z * Z * Z := (nd_addr n, nd_enabled n, nd_dead n, nd_miss n).
Definition keys (p : pool_t) : list (Z * Z * Z * Z) := map node_key (g_nodes p).
(** The view but for the queues and the line's output. *)
Definition frozen (v : view) : view :=
  mk_view [] None [] (v_n v) (v_active v) (v_dirty v) (v_bc v) 0 [] (v_dead v) (v_max v) (v_pending v) (v_slots v) (v_mode v).
(** What was sent and which view is left. *)
Record sent (s s' : bc_t) (rs : list request) : Prop := {
  se_out : out_words (io s') = out_words (io s) ++ transmit (g_bus_seq (line s)) rs;
  se_seq : g_bus_seq (line s') = seq_after (g_bus_seq (line s)) rs;
  se_contents : contents (tx_pool s') = contents (tx_pool s);
  se_frozen : frozen (view_of s') = frozen (view_of s)
}.
(** One turn of the chain's loop. *)
Definition send_one (i x : Z) (s : bc_t) : bc_t :=
  let n := node_at (tx_pool s) i in
  let m := buf_at (tx_pool s) x in
  (if nz (nd_dead n) then s else bus_send (nd_addr n) BUS_FT_DATA (b_payload m) (b_len m) s) <| tx_pool ::= pool_recover (Some x) |>.
(** A node after its slot in a sweep, with [g_poll_max_misses = max]. *)
Definition node_after (max : Z) (r : slot_result_t) (n : bus_node_t) : bus_node_t :=
  match r with
  | SLOT_NO_RESPONSE =>
      if nd_miss n <? 0xFF
      then n <| nd_miss := nd_miss n + 1 |> <| nd_dead := if max <=? nd_miss n + 1 then 1 else nd_dead n |>
      else n
  | _ => n <| nd_miss := 0 |>
  end.
Definition skipped (p : pool_t) (marked : list bool) (i : Z) : bool := is_dead p i || zget false marked i.
(** What a slot's result says of what the node did in it. *)
Definition result_of (s : bc_t) (addr : Z) (r : slot_result_t) : Prop :=
  (rx_ok (g_bc (line s)) -> slot_answers addr (next_in addr (view_of s)) -> r <> SLOT_NO_RESPONSE) /\
  (slot_silent (next_in addr (view_of s)) -> r = SLOT_NO_RESPONSE).
Definition stay (v : view) :=
  (v_bufs v, v_free v, map nd_list (v_nodes v), v_n v, v_active v, v_dirty v, v_dead v, v_max v, v_pending v, v_mode v).
Definition addrs (p : pool_t) : list (Z * Z) := map (fun n => (nd_addr n, nd_enabled n)) (g_nodes p).
Definition node_polls (p : pool_t) (marked : list bool) (i : Z) : list request :=
  if skipped p marked i then [] else [poll_request p i].
(** No other of the nodes has the address of node [j]. *)
Definition sole (p : pool_t) (ixs : list Z) (j : Z) : Prop :=
  forall i, i ∈ ixs -> i <> j -> nd_addr (node_at p i) <> nd_addr (node_at p j).
Record swept (marked : list bool) (ixs : list Z) (s s' : bc_t) : Prop := {
  sw_stay : stay (view_of s') = stay (view_of s);
  sw_addrs : addrs (tx_pool s') = addrs (tx_pool s);
  sw_rx : rx_ok (g_bc (line s)) -> rx_ok (g_bc (line s'));
  sw_out : out_words (io s') = out_words (io s) ++ transmit (g_bus_seq (line s)) (flat_map (node_polls (tx_pool s) marked) ixs);
  sw_seq : g_bus_seq (line s') = seq_after (g_bus_seq (line s)) (flat_map (node_polls (tx_pool s) marked) ixs);
  sw_other : forall j, 0 <= j -> (j ∉ ixs) \/ skipped (tx_pool s) marked j = true -> node_at (tx_pool s') j = node_at (tx_pool s) j;
  sw_node : forall j, j ∈ ixs -> skipped (tx_pool s) marked j = false -> exists r,
    node_at (tx_pool s') j = node_after (g_poll_max_misses (poll s)) r (node_at (tx_pool s) j) /\
    (sole (tx_pool s) ixs j -> rx_ok (g_bc (line s)) -> result_of s (nd_addr (node_at (tx_pool s) j)) r);
  sw_slots : forall d, exists k, in_slots (io s') d = drop k (in_slots (io s) d);
  sw_idle : forall d, (forall i, i ∈ ixs -> nd_addr (node_at (tx_pool s) i) = d -> skipped (tx_pool s) marked i = true) ->
    in_slots (io s') d = in_slots (io s) d
}.
Definition probe_pick (s : bc_t) : option Z := if (probe_due s).1 then (dead_pick (probe_due s).2).1 else None.
Definition after_tick (s : bc_t) : dead_st := dead (probe_due s).2.
Definition after_pick (s : bc_t) (r : slot_result_t) : dead_st :=
  let d := dead (dead_pick (probe_due s).2).2 in
  match r with SLOT_NO_RESPONSE => d | _ => d <| g_dead_revives ::= fun n => u32 (n + 1) |> end.
Definition revived (r : slot_result_t) (n : bus_node_t) : bus_node_t :=
  match r with SLOT_NO_RESPONSE => n | _ => n <| nd_dead := 0 |> <| nd_miss := 0 |> end.
Definition mirrored (p : pool_t) (d : dead_st) : dead_st :=
  d <| g_nodes_dead := u8 (dead_count p) |> <| g_il_nodes_dead := u8 (dead_count p) |>.
Definition probed (s s' : bc_t) : Prop :=
  match probe_pick s with
  | None => view_of s' = view_of s <| v_dead := after_tick s |>
  | Some i => exists r bc, let addr := nd_addr (node_at (tx_pool s) i) in
      view_of s' = polled addr bc (view_of s) <| v_dead := after_pick s r |>
        <| v_nodes ::= fun l => zset l i (revived r (zget bnode0 l i)) |> /\
      (rx_ok (g_bc (line s)) -> rx_ok bc) /\ result_of s addr r
  end.
(** A cycle with nothing to rebuild and no command pending: the message pass from [s] to [s1], the
    sweep to [s2], the probe and the bookkeeping. *)
Definition cycle_messages (s : bc_t) (Q : Z * Z -> list Z) : list request :=
  flat_map (fun i => node_messages (tx_pool s) (Q (i, fill_idx (tx_pool s))) i) (upto (g_nodes_n (tx_pool s))).
Definition cycle_marked (s : bc_t) (Q : Z * Z -> list Z) : list bool :=
  map (fun i => negb (is_dead (tx_pool s) i || bool_decide (Q (i, fill_idx (tx_pool s)) = []))) (upto (g_nodes_n (tx_pool s))).
Record cycled (s s' : bc_t) (Q : Z * Z -> list Z) (s1 s2 s3 : bc_t) : Prop := {
  cy_inv : pool_inv (tx_pool s1) [];
  cy_own : exists free, pool_own (tx_pool s1) free (fun k =>
    if decide (k.1 ∈ upto (g_nodes_n (tx_pool s)) /\ k.2 = fill_idx (tx_pool s)) then [] else Q k) [];
  cy_sent : sent (s <| tx_pool ::= fun p => p <| g_active_idx := fill_idx p |> |>) s1 (cycle_messages s Q);
  cy_keys : keys (tx_pool s1) = keys (tx_pool s);
  cy_swept : swept (cycle_marked s Q) (upto (g_nodes_n (tx_pool s))) s1 s2;
  cy_probed : probed s2 s3;
  cy_end : view_of s' = view_of s3 <| v_dead ::= mirrored (tx_pool s3) |>
}.

(** ** Programs run alone *)
Lemma safe_run {A} (p : prog bc_t A) s P Q : safe bc_inv P p Q -> bc_inv s P ->
  exists a s' P', run p s = Some (a, s') /\ Q a P' /\ bc_inv s' P'.
Proof.
  revert s P. induction p as [a|X f k IH]; intros s P Hp Hi; simpl in *; [by exists a, s, P|].
  assert (Hi0 : bc_inv s (P ++ [])) by by rewrite app_nil_r.
  destruct (Hp s [] Hi0) as (x & s1 & P' & E & Hi' & Hk). rewrite E.
  rewrite app_nil_r in Hi'. by apply (IH x s1 P').
Qed.

Lemma does_bind {A B} (p : prog bc_t A) (g : A -> prog bc_t B) R1 (R2 : A -> bc_t -> B -> bc_t -> Prop) (R : bc_t -> B -> bc_t -> Prop) :
  does p R1 -> (forall a, does (g a) (R2 a)) ->
  (forall s a s1 b s2, R1 s a s1 -> R2 a s1 b s2 -> R s b s2) -> does (tbind p g) R.
Proof.
  intros H1 H2 H s b s2 E. rewrite run_tbind in E. destruct (run p s) as [[a s1]|] eqn:E1; [|done].
  eapply H; [by apply H1|by apply H2].
Qed.
Lemma does_patomic {X} (f : bc_t -> X * bc_t) : does (patomic f) (fun s x s' => f s = (x, s')).
Proof. intros s a s' E. simpl in E. destruct (f s); by simplify_eq. Qed.

(** *** What leaves the view alone *)
Lemma views_bind {A B} (p : prog bc_t A) (g : A -> prog bc_t B) : views p -> (forall a, views (g a)) -> views (tbind p g).
Proof. intros Hp Hg. eapply does_bind; [exact Hp|exact Hg|]. simpl. intros. congruence. Qed.
Lemma views_done {A} (a : A) : views (Done a).
Proof. intros s b s' E. simpl in E. by simplify_eq. Qed.
Lemma views_atomic {X} (f : bc_t -> X * bc_t) : (forall s, view_of (f s).2 = view_of s) -> views (patomic f).
Proof. intros Hf s a s' E. apply does_patomic in E. specialize (Hf s). by rewrite E in Hf. Qed.

Lemma time_view s : view_of (time_us_32 s).2 = view_of s. Proof. done. Qed.
Lemma ms_view s : view_of (ms_since_boot s).2 = view_of s. Proof. done. Qed.
Lemma s2m_view d o p l s : view_of (s2m d o p l s).2 = view_of s.
Proof. unfold s2m. by destruct (host_link_s2m _ _ _ _ _). Qed.
Lemma dbg_view t s : view_of (dbg_log t s) = view_of s. Proof. apply s2m_view. Qed.
Lemma mark_miss_view a s : view_of (mark_miss a s) = view_of s.
Proof. unfold mark_miss. by case_match. Qed.
Lemma kick_view s : view_of (cycle_kick s) = view_of s.
Proof.
  unfold cycle_kick, pp_kick, queue_down, queue_sent, on_io. case_match; [|done]. simpl. by case_match.
Qed.
Lemma emit_feedback_view s : view_of (emit_feedback s) = view_of s.
Proof. unfold emit_feedback, s2m. repeat case_match; done. Qed.
Lemma relay_orig_view rb rn h s : view_of (relay_orig rb rn h s) = view_of s.
Proof.
  unfold relay_orig. set (s1 := if 7 <=? rn then _ else s). assert (H : view_of s1 = view_of s) by (unfold s1; by case_match).
  case_match; [done|]. by rewrite s2m_view.
Qed.
Lemma batch_view a b s : view_of (batch_feedback a b s) = view_of s.
Proof. unfold batch_feedback. by case_match. Qed.
Lemma handle_view a f s : view_of (handle_slot_frame a f s) = view_of s.
Proof.
  unfold handle_slot_frame. destruct (is_shell_reply f); [|by repeat case_match].
  match goal with |- context [let '(_, _) := ?x in _] => set (t := x) end.
  assert (H : view_of (s <| tx_pool := t.2 |>) = view_of s).
  { unfold t, corr_take. case_match; [|done]. by destruct (find_index _ _). }
  destruct t as [hit p]. simpl in H. rewrite <- H. destruct hit as [[[] h]|].
  - by rewrite relay_orig_view.
  - by rewrite s2m_view.
  - case_match; [by rewrite batch_view|by rewrite s2m_view].
Qed.
Lemma wait_view r s : view_of (slot_wait r s) = view_of s.
Proof. unfold slot_wait, master_rx_hook. by repeat case_match. Qed.
Lemma corr_put_view r a o h s : view_of (on_pool (corr_put r a o h) s).2 = view_of s.
Proof. unfold on_pool, corr_put. by destruct (find_index _ _). Qed.

(** ** The poll slot *)

Lemma drain_spec addr ws b s :
  view_of (drain_slot addr ws b s).2 = view_of s <| v_bc := (bus_asm_run (g_bc (line s)) ws).1 |> /\
  (drain_slot addr ws b s).1 = b || existsb (fun f => f_src f =? addr) (bus_asm_run (g_bc (line s)) ws).2.
Proof.
  revert b s. induction ws as [|w ws IH]; intros b s; cbn [drain_slot bus_asm_run]; [by rewrite orb_false_r|].
  destruct (bus_asm_feed (g_bc (line s)) w) as [g o]. set (s1 := s <| line ::= _ |>).
  destruct o as [f|].
  - assert (E : view_of (handle_slot_frame addr f s1) = view_of s1) by apply handle_view.
    assert (Ebc : g_bc (line (handle_slot_frame addr f s1)) = g) by exact (f_equal v_bc E).
    destruct (f_src f =? addr) eqn:Ef.
    + destruct (IH true (handle_slot_frame addr f s1)) as [H1 H2]. rewrite H1, H2, Ebc, E.
      destruct (bus_asm_run g ws) as [g' fs]. simpl. rewrite Ef, orb_true_r. done.
    + destruct (IH b s1) as [H1 H2]. rewrite H1, H2. change (g_bc (line s1)) with g.
      destruct (bus_asm_run g ws) as [g' fs]. simpl. by rewrite Ef.
  - destruct (IH b s1) as [H1 H2]. rewrite H1, H2. change (g_bc (line s1)) with g. by destruct (bus_asm_run g ws).
Qed.

Lemma rx_run a ws : rx_ok a -> rx_ok (bus_asm_run a ws).1.
Proof.
  intros [Hw Hu]. split; [by apply bus_asm_run_wf|]. revert a Hw Hu. induction ws as [|w ws IH]; intros a Hw Hu; [done|].
  cbn [bus_asm_run]. pose proof (bus_asm_feed_config a w) as [Hm Hp]. pose proof (bus_asm_feed_wf a w Hw) as [Hw1 _].
  destruct (bus_asm_feed a w) as [a1 o]. simpl in *. specialize (IH a1 Hw1). destruct (bus_asm_run a1 ws) as [a2 fs].
  apply IH. by rewrite (addr_is_for_us_config a a1).
Qed.

Lemma answer_heard a f : rx_ok a -> frame_wf f -> f_dest f = BUS_ADDR_MASTER ->
  existsb (fun g => f_src g =? f_src f) (bus_asm_run a (bus_frame_encode f)).2 = true.
Proof.
  intros [Hw Hu] Hf Hd. replace (bus_frame_encode f) with (BUS_PREAMBLE_WORD :: tail (bus_frame_encode f)) by done.
  rewrite bus_asm_run_cons. pose proof (bus_asm_feed_wf a BUS_PREAMBLE_WORD Hw) as [Hw1 _].
  pose proof (bus_asm_feed_config a BUS_PREAMBLE_WORD) as [Hm Hp].
  destruct (bus_asm_feed a BUS_PREAMBLE_WORD) as [a1 o]. simpl in Hw1, Hm, Hp.
  rewrite <- (addr_is_for_us_config a a1) in Hu by done.
  destruct (asm_run_frame a1 f Hw1 Hf ltac:(by rewrite Hd) ltac:(by rewrite Hd)) as (g & Hr & Hg).
  rewrite Hr. simpl. rewrite existsb_app. simpl. destruct Hg as (_ & -> & _). by rewrite Z.eqb_refl, !orb_true_r.
Qed.

Lemma rounds_does addr rs b :
  does (slot_rounds addr rs b) (fun s got s' => exists bc, view_of s' = view_of s <| v_bc := bc |> /\
    (rx_ok (g_bc (line s)) -> rx_ok bc) /\
    (b = false -> (exists r rs', rs = r :: rs' /\ existsb (fun f => f_src f =? addr) (bus_asm_run (g_bc (line s)) (rd_words r)).2 = true) -> got = true) /\
    (b = false -> g_slot_first (line s) = false ->
      (exists r rs', rs = r :: rs' /\ rd_heard r = false /\ rd_words r = []) -> got = false)).
Proof.
  revert b. induction rs as [|r rs IH]; intros b s got s' E; [done|].
  cbn [slot_rounds] in E. rewrite run_tbind in E. cbn [run pmod patomic atomic] in E.
  set (s1 := slot_wait r s) in E. rewrite run_tbind in E. cbn [run patomic atomic] in E.
  pose proof (drain_spec addr (rd_words r) b s1) as [Hv Hg]. destruct (drain_slot addr (rd_words r) b s1) as [g s2] eqn:Ed.
  cbn [fst snd] in Hv, Hg. rewrite run_tbind in E. cbn [run pget patomic atomic] in E.
  assert (Ev1 : view_of s1 = view_of s) by apply wait_view.
  assert (Ebc : g_bc (line s1) = g_bc (line s)) by exact (f_equal v_bc Ev1).
  rewrite Ev1 in Hv. rewrite Ebc in Hv, Hg.
  assert (Hrx : rx_ok (g_bc (line s)) -> rx_ok (g_bc (line s2))).
  { intros H. replace (g_bc (line s2)) with (bus_asm_run (g_bc (line s)) (rd_words r)).1
      by (symmetry; exact (f_equal v_bc Hv)). by apply rx_run. }
  assert (Hans : b = false -> existsb (fun f => f_src f =? addr) (bus_asm_run (g_bc (line s)) (rd_words r)).2 = true -> g = true)
    by (intros -> H; by rewrite Hg, H).
  assert (Hsil : b = false -> g_slot_first (line s) = false -> rd_heard r = false -> rd_words r = [] ->
                 g = false /\ g_slot_first (line s2) = false).
  { intros -> Hf Hh Hw. assert (Es : s1 = s) by (unfold s1, slot_wait; by rewrite Hh). rewrite Hw in Ed. simpl in Ed.
    clearbody s1. simplify_eq. done. }
  clear Hg Ed Ev1 Ebc. destruct (g || negb (g_slot_first (line s2))) eqn:Eq.
  { cbn [run] in E. simplify_eq. exists (bus_asm_run (g_bc (line s)) (rd_words r)).1. split; [done|].
    split; [intros H; by apply rx_run|]. split; [intros Hb (r0 & rs' & ? & H); simplify_eq; auto|].
    intros Hb Hf (r0 & rs' & ? & Hh & Hw). simplify_eq. by destruct Hsil. }
  apply orb_false_iff in Eq as [-> Eq]. apply negb_false_iff in Eq.
  assert (Hno : b = false -> forall r0 rs', r :: rs = r0 :: rs' ->
    existsb (fun f => f_src f =? addr) (bus_asm_run (g_bc (line s)) (rd_words r0)).2 = true -> False).
  { intros Hb r0 rs' ? H. simplify_eq. by specialize (Hans eq_refl H). }
  assert (Hns : b = false -> g_slot_first (line s) = false -> (exists r0 rs', r :: rs = r0 :: rs' /\ rd_heard r0 = false /\ rd_words r0 = []) -> got = false).
  { intros Hb Hf (r0 & rs' & ? & Hh & Hw). simplify_eq. destruct (Hsil eq_refl Hf Hh Hw). congruence. }
  destruct (T_WINDOW_MAX_US <=? u32 (rd_us r)).
  - cbn [run] in E. simplify_eq. exists (bus_asm_run (g_bc (line s)) (rd_words r)).1. split; [done|].
    split; [intros H; by apply rx_run|]. split; [intros Hb (r0 & rs' & ? & H); exfalso; by eapply Hno|done].
  - destruct (IH _ _ _ _ E) as (bc & Hv' & Hrx' & _). exists bc. split; [by rewrite Hv', Hv|]. split; [auto|].
    split; [intros Hb (r0 & rs' & ? & H); exfalso; by eapply Hno|done].
Qed.

Lemma poll_slot_does addr :
  does (bus_poll_slot addr) (fun s r s' => exists bc, view_of s' = polled addr bc (view_of s) /\
    (rx_ok (g_bc (line s)) -> rx_ok bc) /\
    (rx_ok (g_bc (line s)) -> slot_answers addr (next_in addr (view_of s)) -> r <> SLOT_NO_RESPONSE) /\
    (slot_silent (next_in addr (view_of s)) -> r = SLOT_NO_RESPONSE)).
Proof.
  intros s r s' E. unfold bus_poll_slot in E. rewrite run_tbind in E. cbn [run pmod patomic atomic] in E.
  set (s1 := bus_send _ _ _ _ _) in E. rewrite run_tbind in E. cbn [run patomic atomic] in E.
  destruct (next_slot addr s1) as [si s2] eqn:E2.
  assert (Esi : si = next_in addr (view_of s)) by exact (f_equal fst (eq_sym E2)).
  assert (Es2 : s2 = (next_slot addr s1).2) by by rewrite E2.
  assert (Ev2 : view_of s2 = polled addr (g_bc (line s)) (view_of s)) by by rewrite Es2.
  assert (Ebc : g_bc (line s2) = g_bc (line s)) by by rewrite Es2.
  assert (Ef : g_slot_first (line s2) = false) by by rewrite Es2.
  clearbody s1. rewrite run_tbind in E. destruct (run (slot_rounds addr (si_rounds si) false) s2) as [[got s3]|] eqn:E3; [|done].
  destruct (rounds_does addr _ _ _ _ _ E3) as (bc & Hv & Hrx & Hans & Hsil). rewrite Ev2 in Hv. rewrite Ebc in Hrx, Hans.
  exists bc. split; [|split; [done|]].
  - destruct got; [cbn [run] in E; by simplify_eq|].
    rewrite run_tbind in E. cbn [run pmod patomic atomic] in E. simplify_eq.
    etrans; [|exact Hv]. unfold view_of. simpl. by destruct (g_slot_first (line s3)).
  - rewrite <- Esi. split.
    + intros Ho (r0 & rs & f & Er & Ew & Hf & Hsrc & Hd).
      rewrite Hans in E; [|done|].
      * cbn [run] in E. case_match; by simplify_eq.
      * exists r0, rs. split; [done|]. rewrite Ew, <- Hsrc. by apply answer_heard.
    + intros (r0 & rs & Er & Hh & Hw). rewrite Hsil in E by eauto.
      rewrite run_tbind in E. cbn [run pmod patomic atomic] in E. by simplify_eq.
Qed.

(** ** The message pass *)

Lemma transmit_app seq a b : transmit seq (a ++ b) = transmit seq a ++ transmit (seq_after seq a) b.
Proof.
  revert seq. induction a as [|r a IH]; intros seq; [done|]. cbn [transmit app]. rewrite IH. f_equal. f_equal. f_equal.
  unfold seq_after. simpl length. by rewrite Nat.iter_succ_r.
Qed.
Lemma seq_after_app seq a b : seq_after seq (a ++ b) = seq_after (seq_after seq a) b.
Proof. unfold seq_after. rewrite length_app, Nat.add_comm. apply Nat.iter_add. Qed.

Lemma map_eq_zget {A B} (f : A -> B) (d : A) l l' i : map f l = map f l' -> f (zget d l i) = f (zget d l' i).
Proof. intros E. unfold zget. destruct (i <? 0); [done|]. by rewrite <- !(map_nth f), E. Qed.
Lemma key_at p p' i : keys p' = keys p -> node_key (node_at p' i) = node_key (node_at p i).
Proof. intros E. by apply (map_eq_zget node_key bnode0). Qed.
Lemma dead_at p p' i : keys p' = keys p -> is_dead p' i = is_dead p i.
Proof. intros E. pose proof (key_at _ _ i E) as H. unfold node_key in H. unfold is_dead. congruence. Qed.
Lemma messages_same p p' l i : contents p' = contents p -> keys p' = keys p -> node_messages p' l i = node_messages p l i.
Proof.
  intros Ec Ek. unfold node_messages. rewrite (dead_at _ _ _ Ek). destruct (is_dead p i); [done|].
  apply map_ext. intros b. pose proof (key_at _ _ i Ek) as H. unfold node_key in H.
  pose proof (map_eq_zget (fun b => (b_payload b, b_len b)) tx_buf0 _ _ b Ec) as Hb. unfold data_request, buf_at. congruence.
Qed.

Lemma sent_trans s s1 s2 a b : sent s s1 a -> sent s1 s2 b -> sent s s2 (a ++ b).
Proof.
  intros [E1 E2 E3 E4] [F1 F2 F3 F4]. split; [|by rewrite F2, E2, seq_after_app|congruence|congruence].
  by rewrite F1, E1, E2, transmit_app, app_assoc.
Qed.
Lemma sent_nil s s' : view_of s' = view_of s -> sent s s' [].
Proof.
  intros E. split; [|exact (f_equal v_seq E)| |by rewrite E].
  - simpl. rewrite app_nil_r. exact (f_equal v_out E).
  - unfold contents. f_equal. exact (f_equal v_bufs E).
Qed.
Lemma recover_contents x p : contents (pool_recover (Some x) p) = contents p.
Proof. unfold contents. simpl. by rewrite (map_zset _ tx_buf0). Qed.
Lemma bus_send_sent dest type pl len s : sent s (bus_send dest type pl len s) [(dest, type, pl, len)].
Proof. by split. Qed.

Lemma send_one_sent i x s :
  sent s (send_one i x s) (node_messages (tx_pool s) [x] i) /\ g_nodes (tx_pool (send_one i x s)) = g_nodes (tx_pool s).
Proof.
  unfold send_one, node_messages, is_dead. cbv zeta. destruct (nz _); (split; [|done]).
  - split; [by rewrite app_nil_r|done|apply recover_contents|done].
  - split; [done|done|apply recover_contents|done].
Qed.

Lemma send_one_pool i x s : tx_pool (send_one i x s) = pool_recover (Some x) (tx_pool s).
Proof. unfold send_one. cbv zeta. by destruct (nz _). Qed.
Lemma messages_cons p x l i : node_messages p (x :: l) i = node_messages p [x] i ++ node_messages p l i.
Proof. unfold node_messages. by case_match. Qed.
Lemma messages_nil p i : node_messages p [] i = [].
Proof. unfold node_messages. by case_match. Qed.

(** The chain held by the thread after its head was recovered. *)
Lemma own_pop p free Q x l :
  pool_wf p -> pool_own p free Q [Chain (Some x) l] ->
  exists l', l = x :: l' /\ pool_own (pool_recover (Some x) p) (x :: free) Q (held (b_next (buf_at p x)) l') /\
    (b_next (buf_at p x) = None -> l' = []).
Proof.
  intros Hw Ho. destruct (own_split _ _ _ _ _ _ Ho) as (l' & -> & Ho'). exists l'. split; [done|].
  assert (Hn : b_next (buf_at p x) = None -> l' = []).
  { intros E. pose proof (po_parts _ _ _ _ Ho') as HP. apply Forall_cons in HP as [_ HP]. apply Forall_cons in HP as [HP _].
    rewrite E in HP. by eapply chain_None. }
  split; [|done]. apply own_recover; [done|]. destruct (b_next (buf_at p x)) as [y|]; [done|]. rewrite (Hn eq_refl) in *.
  eapply own_perm; [apply Permutation_refl|]. eapply (proj2 (own_empty _ _ _ _)). eapply own_perm, Ho'. apply Permutation_swap.
Qed.

Lemma send_chain_does fuel i b l m s m' s' free Q :
  run (send_chain fuel i b m) s = Some (m', s') ->
  pool_inv (tx_pool s) (held b l) -> pool_own (tx_pool s) free Q (held b l) -> (b = None -> l = []) ->
  pool_inv (tx_pool s') [] /\ pool_own (tx_pool s') (rev l ++ free) Q [] /\
  sent s s' (node_messages (tx_pool s) l i) /\
  g_nodes (tx_pool s') = g_nodes (tx_pool s) /\ m' = m || negb (is_dead (tx_pool s) i || bool_decide (l = [])).
Proof.
  assert (Hnil : forall m s free, pool_inv (tx_pool s) [] -> pool_own (tx_pool s) free Q [] -> m' = m -> s' = s ->
    pool_inv (tx_pool s') [] /\ pool_own (tx_pool s') (rev [] ++ free) Q [] /\ sent s s' (node_messages (tx_pool s) [] i) /\
    g_nodes (tx_pool s') = g_nodes (tx_pool s) /\ m' = m || negb (is_dead (tx_pool s) i || bool_decide (@nil Z = []))).
  { intros m0 s0 free0 Hi Ho0 -> ->. split; [done|]. split; [done|]. rewrite messages_nil. split; [by apply sent_nil|].
    split; [done|by rewrite orb_true_r, orb_false_r]. }
  revert b l m s free. induction fuel as [|fuel IH]; intros [x|] l m s free E Hi Ho Hn; try done.
  - rewrite (Hn eq_refl) in *. cbn [send_chain run] in E. simplify_eq. by apply Hnil.
  - cbn [send_chain] in E. rewrite run_tbind in E. cbn [run patomic atomic] in E. fold (send_one i x s) in E. cbn [fst snd] in E.
    destruct (own_pop _ _ _ _ _ (proj1 Hi) Ho) as (l' & -> & Ho' & Hn').
    destruct (pop_inv _ _ _ _ Hi) as (l2 & El & Hi'). assert (l2 = l') as -> by congruence. rewrite app_nil_r in Hi'.
    rewrite <- (send_one_pool i x s) in Ho', Hi'. destruct (send_one_sent i x s) as [Hs En].
    destruct (IH _ _ _ _ _ E Hi' Ho' Hn') as (H1 & H2 & H3 & H4 & H5).
    assert (Ek : keys (tx_pool (send_one i x s)) = keys (tx_pool s)) by (unfold keys; by rewrite En).
    rewrite (messages_same (tx_pool s)) in H3 by (apply Hs || done). rewrite (dead_at (tx_pool s)) in H5 by done.
    split; [done|]. split; [simpl; by rewrite <- app_assoc|]. rewrite messages_cons. split; [by eapply sent_trans|].
    split; [congruence|]. rewrite H5. unfold is_dead. rewrite (bool_decide_false (x :: l' = [])) by done.
    rewrite orb_false_r. destruct m, (nz _), (bool_decide _); done.
  - rewrite (Hn eq_refl) in *. cbn [send_chain run] in E. simplify_eq. by apply Hnil.
Qed.

Lemma flat_map_ext' {A B} (f g : A -> list B) l : (forall x, x ∈ l -> f x = g x) -> flat_map f l = flat_map g l.
Proof.
  induction l as [|x l IH]; intros H; [done|]. simpl. rewrite (H x) by apply list_elem_of_here. f_equal. apply IH.
  intros y Hy. apply H. by right.
Qed.
Lemma own_Q_ext p free Q Q' P : (forall k, k ∈ heads -> Q' k = Q k) -> pool_own p free Q P -> pool_own p free Q' P.
Proof.
  intros HQ [Hf Hl Hp Ha]. split; [done| |done|].
  - intros k Hk. rewrite HQ by done. by apply Hl.
  - unfold queued in *. rewrite (map_ext_in Q' Q); [done|]. intros k Hk. by apply HQ, list_elem_of_In.
Qed.
Lemma set_list_keys i a v p : keys (set_list i a v p) = keys p.
Proof. unfold keys, set_list, set_node. simpl. by rewrite (map_zset node_key bnode0). Qed.

Lemma message_node_does a i marked s marked' s' free Q :
  run (message_node a i marked) s = Some (marked', s') -> (i, a) ∈ heads ->
  pool_inv (tx_pool s) [] -> pool_own (tx_pool s) free Q [] ->
  pool_inv (tx_pool s') [] /\ pool_own (tx_pool s') (rev (Q (i, a)) ++ free) (<[(i, a) := []]> Q) [] /\
  sent s s' (node_messages (tx_pool s) (Q (i, a)) i) /\ keys (tx_pool s') = keys (tx_pool s) /\
  marked' = marked ++ [negb (is_dead (tx_pool s) i || bool_decide (Q (i, a) = []))].
Proof.
  intros E Hk Hi Ho. unfold message_node in E. rewrite run_tbind in E. cbn [run patomic atomic on_pool take_list] in E.
  set (s1 := s <| tx_pool := set_list i a None (tx_pool s) |>) in E. rewrite run_tbind in E.
  destruct (run (send_chain _ _ _ _) s1) as [[m s2]|] eqn:E1; [|done]. cbn [run] in E. simplify_eq.
  pose proof Hk as Hk'. apply heads_spec in Hk' as [Hr Hb]. simpl in Hr, Hb.
  pose proof (own_take _ _ _ _ _ (proj1 Hi) Hk Ho) as Ho1. cbn [fst snd] in Ho1.
  assert (Hn : list_at (tx_pool s) i a = None -> Q (i, a) = []).
  { intros El. pose proof (po_lists _ _ _ _ Ho _ Hk) as Hc. cbn [fst snd] in Hc. rewrite El in Hc. by eapply chain_None. }
  assert (Ho2 : pool_own (tx_pool s1) free (<[(i, a) := []]> Q) (held (list_at (tx_pool s) i a) (Q (i, a)))).
  { destruct (list_at (tx_pool s) i a) as [x|]; [done|]. rewrite (Hn eq_refl) in Ho1. by apply (proj2 (own_empty _ _ _ _)). }
  assert (Hi1 : pool_inv (tx_pool s1) (held (list_at (tx_pool s) i a) (Q (i, a)))).
  { split; [apply (wf_set_list (i, a)); [done|by right|apply Hi]|]. eexists _, _. split; [exact Ho2|].
    destruct Hi as (_ & f0 & Q0 & Ho0 & Ha0).
    pose proof (Permutation_length (po_all _ _ _ _ Ho)) as L1. pose proof (Permutation_length (po_all _ _ _ _ Ho0)) as L0.
    assert (Hf : f0 = free).
    { pose proof (po_free _ _ _ _ Ho) as C1. pose proof (po_free _ _ _ _ Ho0) as C0. clear -C0 C1.
      revert C0 C1. generalize (g_pool_free (tx_pool s)). revert free. induction f0 as [|x f0 IH]; intros [|y free] o; simpl;
        [done|intros -> [? _]; done|intros [-> _] ?; done|intros [-> C0] [? C1]]. simplify_eq. f_equal. by eapply IH. }
    by subst f0. }
  destruct (send_chain_does _ _ _ _ _ _ _ _ _ _ E1 Hi1 Ho2 Hn) as (H1 & H2 & H3 & H4 & H5).
  assert (Ek : keys (tx_pool s1) = keys (tx_pool s)) by apply set_list_keys.
  split; [done|]. split; [done|]. rewrite (messages_same (tx_pool s)) in H3 by done.
  split; [change (node_messages (tx_pool s) (Q (i, a)) i) with ([] ++ node_messages (tx_pool s) (Q (i, a)) i);
          eapply sent_trans, H3; split; [by rewrite app_nil_r|done..]|].
  split; [unfold keys; by rewrite H4|]. rewrite H5, (dead_at (tx_pool s)) by done. done.
Qed.

Lemma message_pass_does a ixs marked s marked' s' free Q :
  run (pfold (message_node a) ixs marked) s = Some (marked', s') -> NoDup ixs -> Forall (fun i => (i, a) ∈ heads) ixs ->
  pool_inv (tx_pool s) [] -> pool_own (tx_pool s) free Q [] ->
  pool_inv (tx_pool s') [] /\
  (exists free', pool_own (tx_pool s') free' (fun k => if decide (k.1 ∈ ixs /\ k.2 = a) then [] else Q k) []) /\
  sent s s' (flat_map (fun i => node_messages (tx_pool s) (Q (i, a)) i) ixs) /\ keys (tx_pool s') = keys (tx_pool s) /\
  marked' = marked ++ map (fun i => negb (is_dead (tx_pool s) i || bool_decide (Q (i, a) = []))) ixs.
Proof.
  revert marked s free Q. induction ixs as [|i ixs IH]; intros marked s free Q E Hnd Hh Hi Ho.
  - cbn [pfold run] in E. simplify_eq. split; [done|]. split; [|split; [by apply sent_nil|split; [done|by rewrite app_nil_r]]].
    exists free. eapply own_Q_ext, Ho. intros k _. rewrite decide_False; [done|]. intros [H _]. by apply elem_of_nil in H.
  - cbn [pfold] in E. rewrite run_tbind in E. destruct (run (message_node a i marked) s) as [[m1 s1]|] eqn:E1; [|done].
    apply NoDup_cons in Hnd as [Hni Hnd]. apply Forall_cons in Hh as [Hh1 Hh].
    destruct (message_node_does _ _ _ _ _ _ _ _ E1 Hh1 Hi Ho) as (Hi1 & Ho1 & Hs1 & Hk1 & ->).
    destruct (IH _ _ _ _ E Hnd Hh Hi1 Ho1) as (Hi2 & [free2 Ho2] & Hs2 & Hk2 & ->).
    assert (HQ : forall j, j ∈ ixs -> <[(i, a) := []]> Q (j, a) = Q (j, a)).
    { intros j Hj. apply fn_lookup_insert_ne. intros ?. by simplify_eq. }
    split; [done|]. split; [|split; [|split; [congruence|]]].
    + exists free2. eapply own_Q_ext, Ho2. intros [j b] _. cbn [fst snd]. destruct (decide ((j, b) = (i, a))) as [Ee|Ne].
      * simplify_eq. rewrite decide_True by (split; [by left|done]). case_decide; [done|]. by rewrite fn_lookup_insert.
      * rewrite fn_lookup_insert_ne by done. apply decide_ext. rewrite elem_of_cons. split; [intros [[-> |] ->]|]; tauto.
    + cbn [flat_map]. eapply sent_trans; [exact Hs1|].
      rewrite (flat_map_ext' (fun j => node_messages (tx_pool s) (Q (j, a)) j) (fun j => node_messages (tx_pool s1) (<[(i, a) := []]> Q (j, a)) j)).
      * done.
      * intros j Hj. rewrite HQ by done. symmetry. apply messages_same; [apply Hs1|done].
    + rewrite <- app_assoc. simpl. do 2 f_equal. apply map_ext_in. intros j Hj. apply list_elem_of_In in Hj.
      by rewrite HQ, (dead_at (tx_pool s)).
Qed.

(** ** The sweep *)

Lemma zset_id {A} (d : A) l i : zset l i (zget d l i) = l.
Proof.
  unfold zset, zget. destruct (i <? 0); [done|]. apply list_insert_id'. intros Hi.
  destruct (lookup_lt_is_Some_2 l _ Hi) as [x Hx]. by rewrite (nth_lookup_Some l _ d x Hx).
Qed.
Lemma set_node_view i g s :
  view_of (s <| tx_pool ::= set_node i g |>) = view_of s <| v_nodes ::= fun l => zset l i (g (zget bnode0 l i)) |>.
Proof. done. Qed.
Lemma sweep_result_view i r now s :
  view_of (sweep_result i r now s) =
  view_of s <| v_nodes ::= fun l => zset l i (node_after (g_poll_max_misses (poll s)) r (zget bnode0 l i)) |>.
Proof.
  unfold sweep_result. cbv zeta. destruct r; [|done..].
  match goal with |- context [mark_miss ?a ?t] => pose proof (mark_miss_view a t) as H; set (s1 := mark_miss a t) in * end.
  change (node_at (tx_pool (s <| poll ::= _ |>)) i) with (node_at (tx_pool s) i).
  assert (Hv : view_of s1 = view_of s) by exact H. assert (Em : g_poll_max_misses (poll s1) = g_poll_max_misses (poll s))
    by exact (f_equal v_max Hv). clearbody s1. clear H. unfold node_at at 1. unfold node_after.
  destruct (nd_miss (zget bnode0 (g_nodes (tx_pool s)) i) <? 0xFF) eqn:E.
  - rewrite set_node_view, Hv, Em. unfold view_of, field_map. simpl. by rewrite E.
  - rewrite Hv. unfold view_of, field_map. simpl. by rewrite E, zset_id.
Qed.

Lemma sweep_node_does marked i slow :
  does (sweep_node marked i slow) (fun s _ s' =>
    if skipped (tx_pool s) marked i then view_of s' = view_of s
    else exists r bc, let addr := nd_addr (node_at (tx_pool s) i) in
      view_of s' = polled addr bc (view_of s)
        <| v_nodes ::= fun l => zset l i (node_after (g_poll_max_misses (poll s)) r (zget bnode0 l i)) |> /\
      (rx_ok (g_bc (line s)) -> rx_ok bc) /\ result_of s addr r).
Proof.
  intros s a s' E. unfold sweep_node in E. rewrite run_tbind in E. cbn [run pget patomic atomic] in E.
  unfold skipped, is_dead. destruct (nz (nd_dead (node_at (tx_pool s) i)) || zget false marked i).
  { cbn [run] in E. by simplify_eq. }
  rewrite run_tbind in E. cbn [run patomic atomic] in E. destruct (time_us_32 s) as [st s1] eqn:E1.
  assert (Es1 : s1 = (time_us_32 s).2) by by rewrite E1. rewrite run_tbind in E.
  destruct (run (bus_poll_slot _) s1) as [[r s2]|] eqn:E2; [|done].
  destruct (poll_slot_does _ _ _ _ E2) as (bc & Hv & Hrx & Hans & Hsil). clear E2. rewrite Es1 in Hv, Hrx, Hans, Hsil.
  rewrite time_view in Hv, Hans, Hsil. change (g_bc (line (time_us_32 s).2)) with (g_bc (line s)) in *.
  rewrite run_tbind in E. cbn [run patomic atomic] in E. destruct (time_us_32 s2) as [t s3] eqn:E3.
  assert (Es3 : s3 = (time_us_32 s2).2) by by rewrite E3.
  rewrite run_tbind in E. cbn [run patomic atomic] in E. destruct (ms_since_boot s3) as [now s4] eqn:E4.
  assert (Es4 : s4 = (ms_since_boot s3).2) by by rewrite E4.
  rewrite run_tbind in E. cbn [run pmod patomic atomic] in E. simplify_eq.
  exists r, bc. cbv zeta. split; [|split; [exact Hrx|by split]]. rewrite sweep_result_view.
  assert (Ev : view_of (ms_since_boot (time_us_32 s2).2).2 = view_of s2) by done. rewrite Ev, Hv.
  change (g_poll_max_misses (poll (ms_since_boot (time_us_32 s2).2).2)) with (g_poll_max_misses (poll s2)).
  by rewrite (f_equal v_max Hv : g_poll_max_misses (poll s2) = g_poll_max_misses (poll s)).
Qed.

Lemma wf_len_keys p p' : keys p' = keys p -> zlen (g_nodes p') = zlen (g_nodes p).
Proof. intros E. apply (f_equal length) in E. unfold keys in E. rewrite !length_map in E. unfold zlen. by rewrite E. Qed.
Lemma addr_at p p' i : addrs p' = addrs p -> nd_addr (node_at p' i) = nd_addr (node_at p i).
Proof.
  intros E. pose proof (map_eq_zget (fun n => (nd_addr n, nd_enabled n)) bnode0 _ _ i E) as H. unfold node_at. congruence.
Qed.
Lemma node_after_addr max r n : nd_addr (node_after max r n) = nd_addr n /\ nd_enabled (node_after max r n) = nd_enabled n /\
  nd_list (node_after max r n) = nd_list n.
Proof. unfold node_after. destruct r; [|done..]. by case_match. Qed.

Lemma node_at_set p p' i f j : g_nodes p' = zset (g_nodes p) i (f (node_at p i)) -> 0 <= i < zlen (g_nodes p) -> 0 <= j ->
  node_at p' j = if decide (j = i) then f (node_at p i) else node_at p j.
Proof.
  intros E Hi Hj. unfold node_at in *. rewrite E. case_decide as Ej.
  - subst. by rewrite zget_zset_eq by (unfold zlen in *; lia).
  - by rewrite zget_zset_ne by lia.
Qed.
Lemma polls_ext p p' marked marked' ixs : addrs p' = addrs p ->
  (forall j, j ∈ ixs -> skipped p' marked' j = skipped p marked j) ->
  flat_map (node_polls p' marked') ixs = flat_map (node_polls p marked) ixs.
Proof.
  intros Ea Hs. apply flat_map_ext'. intros j Hj. unfold node_polls, poll_request. by rewrite Hs, (addr_at p) by done.
Qed.
Lemma swept_nil marked s : swept marked [] s s.
Proof.
  split; try done; [by rewrite app_nil_r|intros j Hj; by apply elem_of_nil in Hj|intros d; by exists 0%nat].
Qed.

Lemma swept_skip marked i ixs s s1 s' : skipped (tx_pool s) marked i = true -> i ∉ ixs -> view_of s1 = view_of s ->
  swept marked ixs s1 s' -> swept marked (i :: ixs) s s'.
Proof.
  intros Hsk Hni Ev [H1 H2 H3 H4 H5 H6 H7 H8 H9].
  assert (En : forall j, node_at (tx_pool s1) j = node_at (tx_pool s) j)
    by (intros j; exact (f_equal (fun v => zget bnode0 (v_nodes v) j) Ev)).
  assert (Es : forall j, skipped (tx_pool s1) marked j = skipped (tx_pool s) marked j)
    by (intros j; unfold skipped, is_dead; by rewrite En).
  assert (Ead : addrs (tx_pool s1) = addrs (tx_pool s)) by exact (f_equal (fun v => map _ (v_nodes v)) Ev).
  assert (Ep : flat_map (node_polls (tx_pool s1) marked) ixs = flat_map (node_polls (tx_pool s) marked) (i :: ixs)).
  { rewrite (polls_ext (tx_pool s) (tx_pool s1) marked marked) by done. simpl. unfold node_polls at 2. by rewrite Hsk. }
  assert (Ebc : g_bc (line s1) = g_bc (line s)) by exact (f_equal v_bc Ev).
  assert (Eq : g_bus_seq (line s1) = g_bus_seq (line s)) by exact (f_equal v_seq Ev).
  assert (Esl : in_slots (io s1) = in_slots (io s)) by exact (f_equal v_slots Ev).
  rewrite Ep, Eq in H4, H5. split.
  - congruence.
  - congruence.
  - by rewrite <- Ebc.
  - rewrite H4. f_equal. exact (f_equal v_out Ev).
  - done.
  - intros j Hj Ho. rewrite <- En. apply H6; [done|]. rewrite Es. rewrite not_elem_of_cons in Ho. tauto.
  - intros j Hj Hs. apply elem_of_cons in Hj as [-> |Hj]; [congruence|].
    destruct (H7 j Hj) as (r & Hn & Hr); [by rewrite Es|]. exists r. rewrite En in Hn, Hr.
    split; [rewrite Hn; f_equal; exact (f_equal v_max Ev)|]. intros Hso Hrx. unfold result_of in *. rewrite Ev, Ebc in Hr.
    apply Hr; [|done]. intros k Hk Hne. rewrite !En. apply Hso; [by right|done].
  - intros d. rewrite <- Esl. apply H8.
  - intros d Hd. rewrite <- Esl. apply H9. intros k Hk. rewrite En, Es. apply Hd. by right.
Qed.

Lemma swept_poll marked i ixs s s1 s' r bc :
  skipped (tx_pool s) marked i = false -> i ∉ ixs -> 0 <= i < zlen (g_nodes (tx_pool s)) -> Forall (fun j => 0 <= j) ixs ->
  view_of s1 = polled (nd_addr (node_at (tx_pool s) i)) bc (view_of s)
        <| v_nodes ::= fun l => zset l i (node_after (g_poll_max_misses (poll s)) r (zget bnode0 l i)) |> ->
  (rx_ok (g_bc (line s)) -> rx_ok bc) -> result_of s (nd_addr (node_at (tx_pool s) i)) r ->
  swept marked ixs s1 s' -> swept marked (i :: ixs) s s'.
Proof.
  intros Hsk Hni Hi Hr Ev Hrx Hres [H1 H2 H3 H4 H5 H6 H7 H8 H9]. set (max := g_poll_max_misses (poll s)) in *.
  assert (En : forall j, 0 <= j -> node_at (tx_pool s1) j =
    if decide (j = i) then node_after max r (node_at (tx_pool s) i) else node_at (tx_pool s) j).
  { intros j Hj. apply node_at_set; [exact (f_equal v_nodes Ev)|done..]. }
  assert (Enx : forall j, j ∈ ixs -> node_at (tx_pool s1) j = node_at (tx_pool s) j).
  { intros j Hj. rewrite En by (by eapply Forall_forall in Hr). rewrite decide_False; [done|]. by intros ->. }
  assert (Es : forall j, j ∈ ixs -> skipped (tx_pool s1) marked j = skipped (tx_pool s) marked j)
    by (intros j Hj; unfold skipped, is_dead; by rewrite Enx).
  assert (Enodes : g_nodes (tx_pool s1) = zset (g_nodes (tx_pool s)) i (node_after max r (node_at (tx_pool s) i)))
    by exact (f_equal v_nodes Ev).
  assert (Hsame : forall X (f : bus_node_t -> X), f (node_after max r (node_at (tx_pool s) i)) = f (node_at (tx_pool s) i) ->
    map f (g_nodes (tx_pool s1)) = map f (g_nodes (tx_pool s))).
  { intros X f Hf. rewrite Enodes. by rewrite (map_zset f bnode0). }
  assert (Ead : addrs (tx_pool s1) = addrs (tx_pool s)).
  { apply Hsame. by destruct (node_after_addr max r (node_at (tx_pool s) i)) as (-> & -> & _). }
  assert (Ebc : g_bc (line s1) = bc) by exact (f_equal v_bc Ev).
  assert (Eq : g_bus_seq (line s1) = u8 (g_bus_seq (line s) + 1)) by exact (f_equal v_seq Ev).
  assert (Eo : out_words (io s1) = out_words (io s) ++ transmit (g_bus_seq (line s)) [poll_request (tx_pool s) i])
    by exact (f_equal v_out Ev).
  assert (Esl : forall d, in_slots (io s1) d = if d =? nd_addr (node_at (tx_pool s) i) then tail (in_slots (io s) d) else in_slots (io s) d).
  { intros d. by rewrite (f_equal (fun v => v_slots v d) Ev : in_slots (io s1) d = _). }
  assert (Ep : flat_map (node_polls (tx_pool s) marked) (i :: ixs) =
    [poll_request (tx_pool s) i] ++ flat_map (node_polls (tx_pool s1) marked) ixs).
  { rewrite (polls_ext (tx_pool s) (tx_pool s1) marked marked) by done. simpl. unfold node_polls at 1. by rewrite Hsk. }
  split.
  - rewrite H1. unfold stay. simpl. rewrite (Hsame _ nd_list) by apply node_after_addr.
    change (stay (view_of s1) = stay (view_of s)) || idtac.
    pose proof (f_equal (fun v => (v_bufs v, v_free v, v_n v, v_active v, v_dirty v, v_dead v, v_max v, v_pending v, v_mode v)) Ev) as E.
    simpl in E. congruence.
  - congruence.
  - rewrite Ebc in H3. auto.
  - by rewrite H4, Eo, Eq, Ep, <- app_assoc, transmit_app.
  - by rewrite H5, Eq, Ep, seq_after_app.
  - intros j Hj Ho. rewrite H6; [|done|].
    + rewrite En by done. rewrite decide_False; [done|]. intros ->. rewrite not_elem_of_cons in Ho. destruct Ho; [tauto|congruence].
    + destruct Ho as [Ho|Ho]; [left; by rewrite not_elem_of_cons in Ho; destruct Ho|].
      destruct (decide (j ∈ ixs)); [right; by rewrite Es|by left].
  - intros j Hj Hs. apply elem_of_cons in Hj as [-> |Hj].
    + exists r. split; [|done]. rewrite H6 by (lia || by left). rewrite En by lia. by rewrite decide_True.
    + destruct (H7 j Hj) as (q & Hn & Hq); [by rewrite Es|]. exists q. rewrite Enx in Hn, Hq by done.
      split; [rewrite Hn; f_equal; exact (f_equal v_max Ev)|]. intros Hso Hok.
      assert (Hne : nd_addr (node_at (tx_pool s) i) <> nd_addr (node_at (tx_pool s) j))
        by (apply Hso; [by left|by intros ->]).
      destruct Hq as [Hq1 Hq2].
      * intros k Hk Hkj. rewrite !Enx by done. apply Hso; [by right|done].
      * rewrite Ebc. auto.
      * unfold result_of. rewrite Ebc in Hq1.
        assert (Enext : next_in (nd_addr (node_at (tx_pool s) j)) (view_of s1) = next_in (nd_addr (node_at (tx_pool s) j)) (view_of s)).
        { unfold next_in. simpl. rewrite Esl. by rewrite (proj2 (Z.eqb_neq _ _)) by done. }
        rewrite Enext in Hq1, Hq2. auto.
  - intros d. destruct (H8 d) as [k Hk]. rewrite Hk, Esl. case_match; [|by exists k].
    exists (S k). destruct (in_slots (io s) d); simpl; [by rewrite drop_nil|done].
  - intros d Hd. rewrite H9.
    + rewrite Esl. destruct (Z.eqb_spec d (nd_addr (node_at (tx_pool s) i))) as [Ed|]; [|done].
      rewrite Hd in Hsk by (by left || done). done.
    + intros k Hk. rewrite Enx, Es by done. apply Hd. by right.
Qed.

Lemma sweep_pass_does marked ixs slow s slow' s' :
  run (pfold (sweep_node marked) ixs slow) s = Some (slow', s') -> NoDup ixs ->
  Forall (fun i => 0 <= i < zlen (g_nodes (tx_pool s))) ixs -> swept marked ixs s s'.
Proof.
  revert slow s. induction ixs as [|i ixs IH]; intros slow s E Hnd Hr.
  { cbn [pfold run] in E. simplify_eq. apply swept_nil. }
  cbn [pfold] in E. rewrite run_tbind in E. destruct (run (sweep_node marked i slow) s) as [[sl1 s1]|] eqn:E1; [|done].
  apply NoDup_cons in Hnd as [Hni Hnd]. apply Forall_cons in Hr as [Hi Hr].
  pose proof (sweep_node_does _ _ _ _ _ _ E1) as H1. simpl in H1. clear E1.
  destruct (skipped (tx_pool s) marked i) eqn:Esk.
  - eapply swept_skip; [done..|]. eapply IH; [done..|].
    by rewrite (f_equal (fun v => zlen (v_nodes v)) H1 : zlen (g_nodes (tx_pool s1)) = _).
  - destruct H1 as (r & bc & Ev & Hrx & Hres). eapply swept_poll; [done|done|done| |exact Ev|done|done|].
    + eapply Forall_impl; [exact Hr|]. simpl. lia.
    + eapply IH; [done..|].
      rewrite (f_equal (fun v => zlen (v_nodes v)) Ev : zlen (g_nodes (tx_pool s1)) = _). unfold zlen in *. simpl. by rewrite zlen_zset.
Qed.

(** ** The probe and the whole cycle *)

Lemma probe_due_view s : view_of (probe_due s).2 = view_of s <| v_dead := after_tick s |>.
Proof. unfold after_tick, probe_due. by repeat case_match. Qed.
Lemma dead_pick_view s : view_of (dead_pick s).2 = view_of s <| v_dead := dead (dead_pick s).2 |>.
Proof. unfold dead_pick. by case_match. Qed.
Lemma dead_pick_None s : (dead_pick s).1 = None -> (dead_pick s).2 = s.
Proof. unfold dead_pick. by case_match. Qed.
Lemma probe_result_view i r now s :
  view_of (probe_result i r now s) = view_of s
    <| v_dead := match r with SLOT_NO_RESPONSE => dead s | _ => dead s <| g_dead_revives ::= fun n => u32 (n + 1) |> end |>
    <| v_nodes ::= fun l => zset l i (revived r (zget bnode0 l i)) |>.
Proof.
  unfold probe_result. cbv zeta. destruct r; [|done..]. unfold view_of, field_map. simpl. by rewrite zset_id.
Qed.

Lemma dead_probe_does : does dead_probe (fun s _ s' => probed s s').
Proof.
  intros s [] s' E. unfold dead_probe in E. rewrite run_tbind in E. cbn [run patomic atomic] in E.
  unfold probed, probe_pick. pose proof (probe_due_view s) as Hv. unfold after_pick.
  assert (Et : after_tick s = dead (probe_due s).2) by done. destruct (probe_due s) as [due s1] eqn:E1. cbn [fst snd] in *.
  destruct due; [|by cbn [run] in E; simplify_eq]. rewrite run_tbind in E. cbn [run patomic atomic] in E.
  pose proof (dead_pick_view s1) as Hv2. pose proof (dead_pick_None s1) as Hn. destruct (dead_pick s1) as [[i|] s2]; cbn [fst snd] in *.
  2: { cbn [run] in E. simplify_eq. by rewrite (Hn eq_refl). }
  rewrite run_tbind in E. cbn [run pget patomic atomic] in E. rewrite run_tbind in E.
  destruct (run (bus_poll_slot _) s2) as [[r s3]|] eqn:E2; [|done].
  destruct (poll_slot_does _ _ _ _ E2) as (bc & Hv3 & Hrx & Hans & Hsil). clear E2.
  rewrite run_tbind in E. cbn [run patomic atomic] in E. destruct (ms_since_boot s3) as [now s4] eqn:E4.
  assert (Es4 : s4 = (ms_since_boot s3).2) by by rewrite E4. cbn [run pmod patomic atomic] in E.
  assert (Es' : s' = probe_result i r now s4) by congruence. subst s'.
  rewrite Hv2, Hv in Hv3, Hans, Hsil.
  assert (Ebc : g_bc (line s2) = g_bc (line s)) by (etrans; [exact (f_equal v_bc Hv2)|exact (f_equal v_bc Hv)]).
  assert (En : node_at (tx_pool s2) i = node_at (tx_pool s) i)
    by (etrans; [exact (f_equal (fun v => zget bnode0 (v_nodes v) i) Hv2)|exact (f_equal (fun v => zget bnode0 (v_nodes v) i) Hv)]).
  rewrite Ebc in *. rewrite En in *. exists r, bc. split; [|split; [done|by split]].
  rewrite probe_result_view. assert (Ed : dead s4 = dead s2) by (rewrite Es4; exact (f_equal v_dead Hv3)).
  rewrite Ed, Es4, ms_view, Hv3. destruct r; reflexivity.
Qed.

Lemma exhausted_view : views exhausted_notify.
Proof.
  unfold exhausted_notify. apply views_bind; [by apply views_atomic|]. intros ex. apply views_bind; [by apply views_atomic|].
  intros []; [|apply views_done]. apply views_bind; [by apply views_atomic|]. intros now. apply views_atomic.
  intros s. simpl. case_match; [|done]. by rewrite dbg_view.
Qed.
Lemma overrun_view ct us a : views (overrun_notify ct us a).
Proof.
  unfold overrun_notify. apply views_bind; [by apply views_atomic|]. intros []; [|apply views_done].
  apply views_bind; [by apply views_atomic|]. intros now. apply views_atomic.
  intros s. simpl. case_match; [|done]. by rewrite dbg_view.
Qed.
Lemma pace_view t0 : views (cycle_pace t0).
Proof.
  unfold cycle_pace. apply views_bind; [by apply views_atomic|]. intros pace. destruct (nz pace); [|apply views_done].
  apply views_bind; [by apply views_atomic|]. intros. apply views_done.
Qed.

Lemma cycle_does s s' free Q :
  run bus_run_cycle s = Some (tt, s') -> pool_inv (tx_pool s) [] -> pool_own (tx_pool s) free Q [] ->
  g_nodes_dirty (tx_pool s) = false -> g_cmd_pending (cmd s) = false -> exists s1 s2 s3, cycled s s' Q s1 s2 s3.
Proof.
  intros E Hi Ho Hd Hc. unfold bus_run_cycle in E.
  assert (Er : run cycle_rebuild s = Some (tt, s)) by (unfold cycle_rebuild; simpl; by rewrite Hd).
  assert (Ec : run cycle_command s = Some (tt, s)) by (unfold cycle_command, take_command; simpl; by rewrite Hc).
  rewrite run_tbind, Er, run_tbind, Ec in E. clear Er Ec.
  rewrite run_tbind in E. cbn [run pmod patomic atomic] in E.
  set (sa := bus_pingpong_swap s) in E.
  rewrite run_tbind in E. cbn [run patomic atomic] in E. destruct (time_us_32 sa) as [t0 sb] eqn:Eb.
  assert (Esb : sb = (time_us_32 sa).2) by by rewrite Eb. clear Eb.
  rewrite run_tbind in E. cbn [run pget patomic atomic fst snd] in E.
  rewrite run_tbind in E. cbn [run pmod patomic atomic] in E. set (sc := begin_feedback sb) in E.
  assert (Ep : tx_pool sc = tx_pool s <| g_active_idx := fill_idx (tx_pool s) |>) by (unfold sc; by rewrite Esb).
  assert (Ev : view_of sc = view_of s <| v_active := fill_idx (tx_pool s) |>) by (unfold sc; by rewrite Esb).
  assert (Ean : g_active_idx (tx_pool sb) = fill_idx (tx_pool s) /\ g_nodes_n (tx_pool sb) = g_nodes_n (tx_pool s)) by by rewrite Esb.
  destruct Ean as [Ea En]. rewrite Ea, En in E. clearbody sc. clear Ea En Esb sb sa.
  assert (Hfill : fill_idx (tx_pool s) = 0 \/ fill_idx (tx_pool s) = 1).
  { unfold fill_idx. destruct (pw_active _ (proj1 Hi)) as [-> | ->]; [by right|by left]. }
  assert (Hic : pool_inv (tx_pool sc) []) by (rewrite Ep; eapply inv_ext, Hi; done || (by left) || done).
  assert (Hoc : pool_own (tx_pool sc) free Q []) by by (rewrite Ep; destruct Ho; split).
  pose proof (pw_nodes_n _ (proj1 Hi)) as Hn16. pose proof (pw_nodes _ (proj1 Hi)) as Hz.
  set (n := g_nodes_n (tx_pool s)) in *. set (a := fill_idx (tx_pool s)) in *.
  rewrite run_tbind in E. destruct (run (pfold (message_node a) (upto n) []) sc) as [[mk s1]|] eqn:E1; [|done].
  apply (message_pass_does _ _ _ _ _ _ free Q) in E1; [|apply upto_NoDup| |done|done].
  2: { apply Forall_forall. intros i Hx. apply upto_spec in Hx. apply heads_spec. simpl. lia. }
  destruct E1 as (Hi1 & Ho1 & Hs1 & Hk1 & Em).
  assert (Ekc : keys (tx_pool sc) = keys (tx_pool s)) by by rewrite Ep.
  assert (Emk : mk = cycle_marked s Q).
  { rewrite Em. cbn [app]. unfold cycle_marked. apply map_ext. intros i. by rewrite (dead_at _ _ i Ekc). }
  assert (Ems : flat_map (fun i => node_messages (tx_pool sc) (Q (i, a)) i) (upto n) = cycle_messages s Q).
  { apply flat_map_ext'. intros i _. apply messages_same; [by rewrite Ep|done]. }
  rewrite Ems in Hs1. rewrite Emk in E. clear Em Emk Ems mk.
  rewrite run_tbind in E. destruct (run (pfold _ _ _) s1) as [[slow s2]|] eqn:E2; [|done].
  apply sweep_pass_does in E2; [|apply upto_NoDup|].
  2: { apply Forall_forall. intros i Hx. apply upto_spec in Hx.
       rewrite (wf_len_keys (tx_pool s)) by congruence. unfold ROSTER_MAX in *. lia. }
  rewrite run_tbind in E. destruct (run dead_probe s2) as [[[] s3]|] eqn:E3; [|done]. apply dead_probe_does in E3.
  exists s1, s2, s3. split; [done|done| |congruence|done|done|].
  { destruct Hs1 as [F1 F2 F3 F4]. assert (Eo : out_words (io sc) = out_words (io s)) by exact (f_equal v_out Ev).
    assert (Eq : g_bus_seq (line sc) = g_bus_seq (line s)) by exact (f_equal v_seq Ev). rewrite Eo, Eq in F1. rewrite Eq in F2.
    split; [done|done|by rewrite F3, Ep|]. rewrite F4, Ev. done. }
  clear Hs1 Ho1 Hi1 E2 E3 Ev Ep Hic Hoc.
  rewrite run_tbind in E. cbn [run pmod patomic atomic] in E. set (s4 := mirror_dead s3) in E.
  assert (E4 : view_of s4 = view_of s3 <| v_dead ::= mirrored (tx_pool s3) |>) by done. rewrite <- E4. clearbody s4. clear E4.
  rewrite run_tbind in E. destruct (run exhausted_notify s4) as [[[] s5]|] eqn:E5; [|done]. apply exhausted_view in E5.
  rewrite run_tbind in E. cbn [run patomic atomic] in E. destruct (time_us_32 s5) as [t1 s6] eqn:E6.
  assert (E6' : view_of s6 = view_of s5) by (rewrite <- (time_view s5); by rewrite E6). clear E6.
  rewrite run_tbind in E. cbn [run pmod patomic atomic] in E. set (s7 := cycle_stat _ _ _ s6) in E.
  assert (E7 : view_of s7 = view_of s6) by done. clearbody s7.
  rewrite run_tbind in E. destruct (run (overrun_notify _ _ _) s7) as [[[] s8]|] eqn:E8; [|done]. apply overrun_view in E8.
  rewrite !run_tbind in E. cbn [run pmod patomic atomic] in E. rewrite run_tbind in E. cbn [run pmod patomic atomic] in E.
  apply pace_view in E. rewrite E, emit_feedback_view, kick_view, E8, E7, E6', E5. done.
Qed.
