(* ===== verification/BcLive.v ===== *)
(** The guarantees of the cycle: which frames it sends and in which order, the death of
    silent nodes and the return of dead ones. *)
From stdpp Require Import relations functions.
From S2P Require Import Prelude BusFrame HostLink BcState Threads CflBase CflPerm BcPool BcRoster BcArbiter.
From S2P Require Import BootFiles BcPoolSafety BcTasks BcCycle.

(** ** Specification *)

(** The POLLs of the sweep: the live nodes that had no message. *)
Definition cycle_polls (s : bc_t) (Q : Z * Z -> list Z) : list request :=
  flat_map (fun i => node_poll (tx_pool s) (Q (i, fill_idx (tx_pool s))) i) (upto (g_nodes_n (tx_pool s))).
(** The queues after a cycle. *)
Definition emptied (s : bc_t) (Q : Z * Z -> list Z) (k : Z * Z) : list Z :=
  if decide (k.1 ∈ upto (g_nodes_n (tx_pool s)) /\ k.2 = fill_idx (tx_pool s)) then [] else Q k.

(** In cycle mode, the node table up to date, no command pending. *)
Record calm (s : bc_t) : Prop := {
  cm_inv : bc_inv s []; cm_clean : g_nodes_dirty (tx_pool s) = false; cm_idle : g_cmd_pending (cmd s) = false;
  cm_mode : nz (g_cycle_mode (cyc s)) = true; cm_admitted : g_identity_refused (upl s) = false; cm_rx : rx_ok (g_bc (line s))
}.
(** [k] turns of the bus task's loop. *)
Fixpoint passes (k : nat) (c : ctl_t) : prog bc_t ctl_t :=
  match k with
  | O => Done c
  | S k => c <== bus_control_pass c;; passes k c
  end.

(** Node [i] of the table, the only one at its address. *)
Definition node_alone (s : bc_t) (i : Z) : Prop :=
  0 <= i < g_nodes_n (tx_pool s) /\ sole (tx_pool s) (upto (g_nodes_n (tx_pool s))) i.
Definition addr_of (s : bc_t) (i : Z) : Z := nd_addr (node_at (tx_pool s) i).

Definition cursor (s : bc_t) : Z := g_dead_cursor (dead s).
(** How far the cursor is from node [i]. *)
Definition distance (s : bc_t) (i : Z) : Z := (i - cursor s) mod g_nodes_n (tx_pool s).
(** Two messages to the node 9 in one cycle; a bus whose entries are not enabled; a batch of
    129 bytes. *)
Definition example_two : prog bc_t unit := bus_msg_send 9 [1] 1 0;== bus_msg_send 9 [2] 1 0;== bus_run_cycle.
Definition example_disabled : bc_t :=
  example_bc <| ros ::= fun r => r <| g_roster ::= map (fun x => x <| s_flags := 0 |>) |> |>
    <| tx_pool ::= fun p => p <| g_nodes_dirty := true |> |>.
Definition example_batch (n : Z) : bc_t :=
  example_bc <| fb ::= fun f => f <| g_fb_n := n |> <| g_fb_rec := 1 |> |> <| g_hl ::= fun h => h <| h_state := HL_OPERATIONAL |> |>.
(** The bus of [example_bc] when the engine has written to the node 9. *)
Definition example_sending : bc_t :=
  match run (kbapp_on_echo_to 9 7 [1; 2; 3]) example_bc with Some (_, s) => s | None => example_bc end.
(** The cycles until a probe is due, and the measure of a dead node's wait. *)
Definition due_in (d : dead_st) : Z :=
  if g_dead_slowpoll_div d <=? g_dead_tick d + 1 then 1 else g_dead_slowpoll_div d - g_dead_tick d.
Definition wait_of (s : bc_t) (i : Z) : Z := distance s i * g_dead_slowpoll_div (dead s) + due_in (dead s).
(** A dead node with an address of its own that answers its next slot. *)
Record awaited (s : bc_t) (i : Z) : Prop := {
  aw_alone : node_alone s i; aw_dead : is_dead (tx_pool s) i = true;
  aw_slot : exists si rest, in_slots (io s) (addr_of s i) = si :: rest /\ slot_answers (addr_of s i) si;
  aw_div : 0 < g_dead_slowpoll_div (dead s) < 2 ^ 32; aw_tick : 0 <= g_dead_tick (dead s) < 2 ^ 32 - 1
}.
(** The node 4 (the table's first) is dead and answers its next slot. *)
Definition example_answer : bus_frame_t := mk_frame 0 4 BUS_FT_NO_MESSAGE 1 0 (replicate (Z.to_nat BUS_PAYLOAD_MAX) 0).
Definition example_dead : bc_t :=
  example_bc <| tx_pool ::= set_node 0 (fun n => n <| nd_dead := 1 |>) |>
    <| io ::= fun i => i <| in_slots := fun a => if a =? 4
         then [mk_slot_in [mk_round true 500 (bus_frame_encode example_answer) T_WINDOW_MAX_US] 600] else [] |> |>.
(** A live node with an address of its own that nobody writes to and that says nothing. *)
Record mute (s : bc_t) (i : Z) : Prop := {
  mu_alone : node_alone s i; mu_live : is_dead (tx_pool s) i = false;
  mu_lists : list_at (tx_pool s) i 0 = None /\ list_at (tx_pool s) i 1 = None;
  mu_slots : Forall slot_silent (in_slots (io s) (addr_of s i))
}.

(** ** One cycle *)
Lemma map_eq_upto {A} (f : Z -> A) d n i : 0 <= i < n -> zget d (map f (upto n)) i = f i.
Proof.
  intros Hi. apply zget_lookup; [lia|]. unfold upto. rewrite !list_lookup_fmap.
  rewrite (proj2 (lookup_seq _ _ _ _)) by (split; [reflexivity|lia]). simpl. f_equal. f_equal. lia.
Qed.
Lemma keys_addrs p p' : keys p' = keys p -> addrs p' = addrs p.
Proof.
  intros E. unfold addrs, keys in *. apply (f_equal (map (fun k : Z * Z * Z * Z => let '(a, e, _, _) := k in (a, e)))) in E.
  by rewrite !map_map in E.
Qed.
Lemma marked_polls s s1 Q : keys (tx_pool s1) = keys (tx_pool s) ->
  flat_map (node_polls (tx_pool s1) (cycle_marked s Q)) (upto (g_nodes_n (tx_pool s))) = cycle_polls s Q.
Proof.
  intros Ek. apply flat_map_ext'. intros i Hi. apply upto_spec in Hi. unfold node_polls, node_poll, skipped, cycle_marked.
  rewrite (dead_at _ _ i Ek), map_eq_upto by done. unfold poll_request. rewrite (addr_at (tx_pool s) (tx_pool s1)) by by apply keys_addrs.
  destruct (is_dead _ i); [done|]. by destruct (bool_decide _).
Qed.

Lemma cycle_runs s free Q : bc_inv s [] -> pool_own (tx_pool s) free Q [] ->
  g_nodes_dirty (tx_pool s) = false -> g_cmd_pending (cmd s) = false ->
  exists s' s1 s2 s3, run bus_run_cycle s = Some (tt, s') /\ bc_inv s' [] /\ cycled s s' Q s1 s2 s3.
Proof.
  intros Hi Ho Hd Hc. destruct (safe_run _ _ _ _ bus_run_cycle_safe Hi) as ([] & s' & P & E & HP & Hi').
  unfold back in HP. subst P. destruct (cycle_does _ _ _ _ E (proj1 Hi) Ho Hd Hc) as (s1 & s2 & s3 & H). by exists s', s1, s2, s3.
Qed.

(** What a cycle leaves alone. *)
Lemma probed_stay s s' : probed s s' ->
  (v_bufs (view_of s'), v_free (view_of s'), map nd_list (v_nodes (view_of s')), v_n (view_of s'), v_active (view_of s'),
   v_dirty (view_of s'), v_max (view_of s'), v_pending (view_of s'), v_mode (view_of s')) =
  (v_bufs (view_of s), v_free (view_of s), map nd_list (v_nodes (view_of s)), v_n (view_of s), v_active (view_of s),
   v_dirty (view_of s), v_max (view_of s), v_pending (view_of s), v_mode (view_of s)) /\
  addrs (tx_pool s') = addrs (tx_pool s) /\ (rx_ok (g_bc (line s)) -> rx_ok (g_bc (line s'))).
Proof.
  unfold probed. destruct (probe_pick s) as [i|].
  - intros (r & bc & Ev & Hrx & _).
    assert (En : g_nodes (tx_pool s') = zset (g_nodes (tx_pool s)) i (revived r (zget bnode0 (g_nodes (tx_pool s)) i)))
      by exact (f_equal v_nodes Ev).
    split; [|split].
    + rewrite Ev. simpl. by rewrite (map_zset nd_list bnode0) by by destruct r.
    + unfold addrs. rewrite En. by rewrite (map_zset _ bnode0) by by destruct r.
    + by rewrite (f_equal v_bc Ev : g_bc (line s') = bc).
  - intros Ev. split; [by rewrite Ev|]. split.
    + exact (f_equal (fun v => map _ (v_nodes v)) Ev).
    + by rewrite (f_equal v_bc Ev : g_bc (line s') = _).
Qed.

Lemma cycle_rest s s' Q s1 s2 s3 : cycled s s' Q s1 s2 s3 ->
  (exists free, pool_own (tx_pool s') free (emptied s Q) []) /\
  (g_nodes_n (tx_pool s'), g_active_idx (tx_pool s'), g_nodes_dirty (tx_pool s'), g_poll_max_misses (poll s'),
   g_cmd_pending (cmd s'), (g_cycle_mode (cyc s'), g_identity_refused (upl s'))) =
  (g_nodes_n (tx_pool s), fill_idx (tx_pool s), g_nodes_dirty (tx_pool s), g_poll_max_misses (poll s),
   g_cmd_pending (cmd s), (g_cycle_mode (cyc s), g_identity_refused (upl s))) /\
  addrs (tx_pool s') = addrs (tx_pool s) /\ (rx_ok (g_bc (line s)) -> rx_ok (g_bc (line s'))).
Proof.
  intros [Hi1 [free Ho] [_ _ _ Hf] Hk Hsw Hpr He]. destruct (probed_stay _ _ Hpr) as (Hst & Had & Hrx).
  pose proof (sw_stay _ _ _ _ Hsw) as Hss. unfold stay in Hss. rewrite <- (keys_addrs _ _ Hk), <- (sw_addrs _ _ _ _ Hsw), <- Had.
  assert (Ebc : g_bc (line s1) = g_bc (line s)) by exact (f_equal v_bc Hf).
  pose proof (f_equal v_bc He) as Ebc'. pose proof (sw_rx _ _ _ _ Hsw) as Hrx2.
  assert (E0 : (v_bufs (view_of s'), v_free (view_of s'), map nd_list (v_nodes (view_of s'))) =
               (v_bufs (view_of s1), v_free (view_of s1), map nd_list (v_nodes (view_of s1)))).
  { rewrite He. simpl in *. congruence. }
  split; [|split; [|split]].
  - exists free. simpl in E0. eapply own_ext, Ho; [congruence..|]. intros k _. unfold list_at, node_at.
    f_equal. apply (map_eq_zget nd_list). congruence.
  - pose proof (f_equal (fun v => (v_n v, v_active v, v_dirty v, v_max v, v_pending v, v_mode v)) Hf) as E1.
    pose proof (f_equal (fun v => (v_n v, v_active v, v_dirty v, v_max v, v_pending v, v_mode v)) He) as E2.
    simpl in *. congruence.
  - exact (f_equal (fun v => map _ (v_nodes v)) He).
  - simpl in Ebc'. rewrite Ebc'. rewrite Ebc in *. auto.
Qed.

(** A node across a cycle, up to the probe. *)
Lemma cycle_node s s' Q s1 s2 s3 i : cycled s s' Q s1 s2 s3 -> 0 <= i < g_nodes_n (tx_pool s) ->
  nd_addr (node_at (tx_pool s2) i) = addr_of s i /\
  if is_dead (tx_pool s) i || negb (bool_decide (Q (i, fill_idx (tx_pool s)) = []))
  then is_dead (tx_pool s2) i = is_dead (tx_pool s) i /\ nd_miss (node_at (tx_pool s2) i) = nd_miss (node_at (tx_pool s) i)
  else exists r, is_dead (tx_pool s2) i = nz (nd_dead (node_after (g_poll_max_misses (poll s)) r (node_at (tx_pool s) i))) /\
    nd_miss (node_at (tx_pool s2) i) = nd_miss (node_after (g_poll_max_misses (poll s)) r (node_at (tx_pool s) i)) /\
    (node_alone s i -> rx_ok (g_bc (line s)) -> result_of s1 (addr_of s i) r).
Proof.
  intros [Hi1 _ [_ _ _ Hf] Hk Hsw _ _] Hi. pose proof (keys_addrs _ _ Hk) as Ha.
  assert (Ekey : node_key (node_at (tx_pool s1) i) = node_key (node_at (tx_pool s) i)) by by apply key_at.
  assert (Esk : skipped (tx_pool s1) (cycle_marked s Q) i = is_dead (tx_pool s) i || negb (bool_decide (Q (i, fill_idx (tx_pool s)) = []))).
  { unfold skipped, cycle_marked. rewrite (dead_at _ _ i Hk), map_eq_upto by done. by destruct (is_dead _ i), (bool_decide _). }
  split.
  { unfold addr_of. rewrite (addr_at _ _ i (sw_addrs _ _ _ _ Hsw)). by apply addr_at. }
  rewrite <- Esk. destruct (skipped _ _ i) eqn:Es.
  - unfold is_dead. rewrite (sw_other _ _ _ _ Hsw i) by (lia || by right). unfold node_key in Ekey. split; congruence.
  - destruct (sw_node _ _ _ _ Hsw i) as (r & En & Hr); [by apply upto_spec|done|].
    assert (Em : g_poll_max_misses (poll s1) = g_poll_max_misses (poll s)) by exact (f_equal v_max Hf). rewrite Em in En.
    exists r. unfold is_dead. rewrite En. unfold node_key in Ekey.
    assert (Emd : nd_miss (node_at (tx_pool s1) i) = nd_miss (node_at (tx_pool s) i) /\ nd_dead (node_at (tx_pool s1) i) = nd_dead (node_at (tx_pool s) i))
      by (split; congruence).
    destruct Emd as [Emi Ede]. split; [|split].
    + f_equal. unfold node_after. destruct r; [|done..]. rewrite Emi. case_match; [|done]. simpl. by rewrite Ede.
    + unfold node_after. destruct r; [|done..]. rewrite Emi. by case_match.
    + intros [_ Hso] Hrx. unfold addr_of. rewrite <- (addr_at _ _ i Ha). apply Hr.
      * intros j Hj Hne. rewrite !(addr_at _ _ _ Ha). by apply Hso.
      * by rewrite (f_equal v_bc Hf : g_bc (line s1) = g_bc (line s)).
Qed.

(** ** The probe *)

Lemma small_u8 x n : 0 < n <= ROSTER_MAX -> u8 (x mod n) = x mod n.
Proof. intros Hn. unfold ROSTER_MAX in Hn. apply u8_id. unfold fits. pose proof (Z.mod_pos_bound x n). lia. Qed.
Lemma find_upto (p : Z -> bool) n k : find_index p (upto n) = Some k ->
  Z.of_nat k < n /\ p (Z.of_nat k) = true /\ forall m, 0 <= m < Z.of_nat k -> p m = false.
Proof.
  intros E. apply find_index_Some in E as (l1 & x & l2 & El & -> & Hp & Hl).
  assert (Hx : upto n !! length l1 = Some x) by (rewrite El; by apply list_lookup_middle).
  assert (Hu : forall m, (m < length (upto n))%nat -> upto n !! m = Some (Z.of_nat m)).
  { intros m Hm. unfold upto in *. rewrite length_map, length_seq in Hm.
    rewrite list_lookup_fmap, (proj2 (lookup_seq _ _ _ _)) by (split; [reflexivity|lia]). done. }
  assert (Hlen : (length l1 < length (upto n))%nat) by (rewrite El, length_app; simpl; lia).
  rewrite Hu in Hx by done. simplify_eq. split; [|split; [done|]].
  - unfold upto in Hlen. rewrite length_map, length_seq in Hlen. lia.
  - intros m Hm. rewrite Forall_lookup in Hl. apply (Hl (Z.to_nat m)).
    rewrite <- (lookup_app_l l1 (Z.of_nat (length l1) :: l2)) by lia. rewrite <- El, Hu by lia. f_equal. lia.
Qed.
Lemma dead_pick_Some s j : g_nodes_n (tx_pool s) <= ROSTER_MAX -> (dead_pick s).1 = Some j ->
  0 <= j < g_nodes_n (tx_pool s) /\ is_dead (tx_pool s) j = true /\
  g_dead_cursor (dead (dead_pick s).2) = (j + 1) mod g_nodes_n (tx_pool s) /\
  forall i, 0 <= i < g_nodes_n (tx_pool s) -> is_dead (tx_pool s) i = true ->
    j = i \/ (i - (j + 1)) mod g_nodes_n (tx_pool s) < distance s i.
Proof.
  intros Hn. unfold dead_pick. set (n := g_nodes_n (tx_pool s)) in *. set (c := g_dead_cursor (dead s)).
  destruct (find_index _ (upto n)) as [k|] eqn:E; [|done]. apply find_upto in E as (Hk & Hd & Hmin).
  assert (Hn0 : 0 < n <= ROSTER_MAX) by lia. cbn [fst snd]. rewrite small_u8 in * by done. intros [= <-].
  pose proof (Z.mod_pos_bound (c + Z.of_nat k) n ltac:(lia)) as Hj.
  split; [done|]. split; [done|]. split; [simpl; by rewrite small_u8|]. intros i Hi Hdi.
  set (j := (c + Z.of_nat k) mod n) in *.
  unfold distance, cursor. fold n. fold c. pose proof (Z.mod_pos_bound (i - c) n ltac:(lia)) as Hd0. set (d := (i - c) mod n) in *.
  assert (Ei : (c + d) mod n = i).
  { unfold d. rewrite Zplus_mod_idemp_r. replace (c + (i - c)) with i by lia. by apply Z.mod_small. }
  destruct (Z.lt_trichotomy d (Z.of_nat k)) as [Hlt|[He|Hgt]].
  - exfalso. specialize (Hmin d ltac:(lia)). rewrite small_u8, Ei in Hmin by done. unfold is_dead in Hdi. congruence.
  - left. unfold j. by rewrite <- He.
  - right. assert (Ej : (i - (j + 1)) mod n = d - Z.of_nat k - 1).
    { replace (i - (j + 1)) with (i - j - 1) by lia. rewrite <- Ei. unfold j.
      rewrite <- Zminus_mod_idemp_l, <- (Zminus_mod (c + d)), Zminus_mod_idemp_l. rewrite Z.mod_small; lia. }
    rewrite Ej. lia.
Qed.
Lemma dead_pick_hit s i : 0 <= i < g_nodes_n (tx_pool s) -> g_nodes_n (tx_pool s) <= ROSTER_MAX -> is_dead (tx_pool s) i = true ->
  is_Some (dead_pick s).1.
Proof.
  intros Hi Hn Hd. unfold dead_pick. set (n := g_nodes_n (tx_pool s)) in *. set (c := g_dead_cursor (dead s)).
  destruct (find_index _ (upto n)) as [k|] eqn:E; [by eexists|]. exfalso.
  pose proof (Z.mod_pos_bound (i - c) n ltac:(lia)) as Hd0.
  eapply find_index_None in E. rewrite Forall_forall in E. specialize (E ((i - c) mod n)).
  rewrite small_u8 in E by lia. rewrite Zplus_mod_idemp_r in E. replace (c + (i - c)) with i in E by lia.
  rewrite (Z.mod_small i) in E by lia. unfold is_dead in Hd. rewrite E in Hd; [done|]. by apply upto_spec.
Qed.

(** ** Traffic *)
Lemma probe_due_pool s : tx_pool (probe_due s).2 = tx_pool s.
Proof. unfold probe_due. by repeat case_match. Qed.
Lemma probe_pick_Some s i : g_nodes_n (tx_pool s) <= ROSTER_MAX -> probe_pick s = Some i ->
  0 <= i < g_nodes_n (tx_pool s) /\ is_dead (tx_pool s) i = true.
Proof.
  intros Hn. unfold probe_pick. pose proof (probe_due_pool s) as Ep. destruct (probe_due s) as [[] s1]; [|done].
  simpl in *. intros Hp. apply dead_pick_Some in Hp as (? & ? & _); rewrite ?Ep in *; done.
Qed.
Lemma dead_count_le p : 0 <= g_nodes_n p <= ROSTER_MAX -> 0 <= dead_count p <= ROSTER_MAX.
Proof.
  intros Hn. split; [apply zlen_nonneg|]. unfold dead_count. etrans; [|apply Hn].
  rewrite <- (upto_len (g_nodes_n p)) at 2 by lia. unfold zlen. pose proof (length_filter (fun i => nz (nd_dead (node_at p i)) = true) (upto (g_nodes_n p))). lia.
Qed.
Lemma dead_count_view s s' : v_nodes (view_of s') = v_nodes (view_of s) -> v_n (view_of s') = v_n (view_of s) ->
  dead_count (tx_pool s') = dead_count (tx_pool s).
Proof. intros E1 E2. unfold dead_count, node_at. simpl in *. by rewrite E1, E2. Qed.


Lemma example_inv : bc_inv example_bc [].
Proof. exact (ready_inv _ _ (proj1 example_ready) (proj2 example_ready)). Qed.
Lemma example_sending_inv : bc_inv example_sending [].
Proof.
  unfold example_sending. destruct (safe_run _ _ _ _ (call_safe (fun _ _ _ => (CMD_NOT_MINE, [])) _ (call_engine _ 9 7 [1; 2; 3])) example_inv)
    as (u & s & P & E & HP & Hi). rewrite E. unfold back in HP. by subst P.
Qed.


(** ** The loop of the bus task *)
Lemma s2m_then (f : Z -> bc_t -> bool * bc_t) d o pl l s : (forall rc t, view_of (f rc t).2 = view_of t) ->
  view_of (let '(rc, s) := s2m d o pl l s in f rc s).2 = view_of s.
Proof. intros Hf. rewrite <- (s2m_view d o pl l s). destruct (s2m d o pl l s) as [rc t]. apply Hf. Qed.
Lemma state_edge_view i s : view_of (state_edge i s).2 = view_of s.
Proof.
  unfold state_edge. cbv zeta. case_match; [done|]. case_match; [apply s2m_then; intros; simpl; by case_match|].
  case_match; [|done]. apply s2m_then. intros. simpl. by case_match.
Qed.
Lemma summary_edge_view i s : view_of (summary_edge i s).2 = view_of s.
Proof. unfold summary_edge. cbv zeta. case_match; [done|]. apply s2m_then. intros. simpl. by case_match. Qed.
Lemma edges_view s : view_of (emit_liveness_edges s) = view_of s.
Proof.
  unfold emit_liveness_edges. generalize (upto (g_roster_n (ros s))). intros l. revert s. induction l as [|i l IH]; intros s; [done|].
  cbn [edges_from]. rewrite <- (state_edge_view i s). destruct (state_edge i s) as [[] s1]; [done|]. cbn [snd].
  rewrite <- (summary_edge_view i s1). destruct (summary_edge i s1) as [[] s2]; [done|]. apply IH.
Qed.

(** One turn of the loop in cycle mode. *)
Lemma calm_pass s c : calm s -> forall free Q, pool_own (tx_pool s) free Q [] ->
  exists s' s1 s2 s3, run (bus_control_pass c) s = Some (c, s') /\ cycled s s' Q s1 s2 s3 /\ calm s'.
Proof.
  intros [Hi Hd Hc Hm Ha Hrx] free Q Ho. destruct (cycle_runs _ _ _ Hi Ho Hd Hc) as (t & s1 & s2 & s3 & E & _ & Hcy).
  assert (Er : run (bus_control_pass c) s = Some (c, emit_liveness_edges t)).
  { unfold bus_control_pass. rewrite run_tbind. cbn [run pget patomic atomic]. rewrite Ha. rewrite run_tbind.
    cbn [run pget patomic atomic]. rewrite Hm, run_tbind, E. done. }
  pose proof (edges_view t) as Hv.
  assert (Hcy' : cycled s (emit_liveness_edges t) Q s1 s2 s3).
  { destruct Hcy as [H1 H2 H3 H4 H5 H6 H7]. split; try done. by rewrite Hv. }
  exists (emit_liveness_edges t), s1, s2, s3. split; [done|]. split; [done|].
  destruct (cycle_rest _ _ _ _ _ _ Hcy') as (_ & Hk & _ & Hr). injection Hk as _ _ K1 _ K2 K3 K4.
  split; [|congruence|congruence|congruence|congruence|auto].
  destruct (safe_run _ _ _ _ (control_pass_safe c) Hi) as (c' & s' & P & E' & HP & Hi'). unfold back in HP. subst P.
  rewrite Er in E'. by simplify_eq.
Qed.
Lemma calm_own s : calm s -> exists free Q, pool_own (tx_pool s) free Q [].
Proof. intros [[(_ & free & Q & Ho & _) _] _ _ _ _ _]. by exists free, Q. Qed.

(** ** Dead nodes come back *)

Lemma probe_due_spec s : 0 < g_dead_slowpoll_div (dead s) < 2 ^ 32 -> 0 <= g_dead_tick (dead s) < 2 ^ 32 - 1 ->
  let d := after_tick s in
  g_dead_slowpoll_div d = g_dead_slowpoll_div (dead s) /\ g_dead_cursor d = g_dead_cursor (dead s) /\
  if (probe_due s).1 then g_dead_tick d = 0 /\ due_in (dead s) = 1
  else 0 <= g_dead_tick d < 2 ^ 32 - 1 /\ due_in d < due_in (dead s).
Proof.
  intros Hdiv Ht. unfold after_tick, probe_due, nz, due_in. rewrite (proj2 (Z.eqb_neq _ 0)) by lia. simpl.
  rewrite (u32_id (g_dead_tick (dead s) + 1)) by (unfold fits; lia).
  destruct (Z.leb_spec (g_dead_slowpoll_div (dead s)) (g_dead_tick (dead s) + 1)); simpl; [done|].
  split; [done|]. split; [done|]. case_match; lia.
Qed.

(** Where a dead node stands when the probe comes. *)
Lemma before_probe s s' Q s1 s2 s3 i : cycled s s' Q s1 s2 s3 -> node_alone s i -> is_dead (tx_pool s) i = true ->
  is_dead (tx_pool s2) i = true /\ dead s2 = dead s /\ g_nodes_n (tx_pool s2) = g_nodes_n (tx_pool s) /\
  addrs (tx_pool s2) = addrs (tx_pool s) /\ in_slots (io s2) (addr_of s i) = in_slots (io s) (addr_of s i).
Proof.
  intros Hcy [Hi Hso] Hd. destruct (cycle_node _ _ _ _ _ _ _ Hcy Hi) as [_ Hn]. rewrite Hd in Hn. destruct Hn as [Hn _].
  destruct Hcy as [_ _ [_ _ _ Ff] Hk Hsw _ _]. pose proof (sw_stay _ _ _ _ Hsw) as Hst. pose proof (keys_addrs _ _ Hk) as Ha.
  pose proof (f_equal (fun v => (v_dead v, v_n v)) Ff) as Ed. unfold stay in Hst. simpl in Ed, Hst.
  split; [done|]. split; [congruence|]. split; [congruence|]. split; [rewrite (sw_addrs _ _ _ _ Hsw); done|].
  rewrite (sw_idle _ _ _ _ Hsw).
  - exact (f_equal (fun v => v_slots v (addr_of s i)) Ff).
  - intros j Hj Eaj. rewrite (addr_at _ _ j Ha) in Eaj. destruct (decide (j = i)) as [-> |Hne].
    + unfold skipped. by rewrite (dead_at _ _ i Hk), Hd.
    + exfalso. by apply (Hso j Hj Hne).
Qed.

Lemma alone_keep s s' i : g_nodes_n (tx_pool s') = g_nodes_n (tx_pool s) -> addrs (tx_pool s') = addrs (tx_pool s) ->
  node_alone s i -> node_alone s' i /\ addr_of s' i = addr_of s i.
Proof.
  intros En Ea [Hi Hso]. unfold node_alone, sole, addr_of. rewrite En. split; [|by apply addr_at].
  split; [done|]. intros j Hj Hne. rewrite !(addr_at _ _ _ Ea). by apply Hso.
Qed.

Lemma dead_pick_rest s : g_dead_slowpoll_div (dead (dead_pick s).2) = g_dead_slowpoll_div (dead s) /\
  g_dead_tick (dead (dead_pick s).2) = g_dead_tick (dead s).
Proof. unfold dead_pick. by case_match. Qed.
Lemma revive_pass s c i : calm s -> awaited s i ->
  exists s', run (bus_control_pass c) s = Some (c, s') /\ calm s' /\
    ((is_dead (tx_pool s') i = false /\ nd_miss (node_at (tx_pool s') i) = 0) \/
     (awaited s' i /\ wait_of s' i < wait_of s i)).
Proof.
  intros Hcalm [Hal Hd (si & rest & Hsl & Hans) Hdiv Ht]. destruct (calm_own _ Hcalm) as (free & Q & Ho).
  destruct (calm_pass s c Hcalm _ _ Ho) as (s' & s1 & s2 & s3 & E & Hcy & Hcalm'). exists s'. split; [done|]. split; [done|].
  destruct (before_probe _ _ _ _ _ _ _ Hcy Hal Hd) as (Hd2 & Edd & En2 & Ea2 & Es2).
  destruct (cycle_rest _ _ _ _ _ _ Hcy) as (_ & Hk & Ha & _). injection Hk as K1 _ _ _ _ _ _.
  destruct (alone_keep _ _ _ K1 Ha Hal) as [Hal' Ead].
  assert (Hrx2 : rx_ok (g_bc (line s2))).
  { destruct Hcy as [_ _ [_ _ _ Ff] _ Hsw _ _]. apply (sw_rx _ _ _ _ Hsw). rewrite (f_equal v_bc Ff : g_bc (line s1) = g_bc (line s)). apply Hcalm. }
  destruct Hcy as [_ _ _ _ _ Hpr He]. unfold wait_of, distance, cursor. rewrite K1.
  pose proof (probe_due_spec s2) as Hps. rewrite Edd in Hps. specialize (Hps Hdiv Ht). destruct Hps as (P1 & P2 & P3).
  assert (Hn : g_nodes_n (tx_pool s2) <= ROSTER_MAX) by (rewrite En2; apply (cm_inv _ Hcalm)).
  assert (Hin : 0 <= i < g_nodes_n (tx_pool s2)) by (rewrite En2; apply Hal).
  assert (Hz : zlen (g_nodes (tx_pool s2)) = ROSTER_MAX).
  { apply (f_equal length) in Ea2. unfold addrs in Ea2. rewrite !length_map in Ea2. unfold zlen. rewrite Ea2. apply (cm_inv _ Hcalm). }
  assert (Emir : dead s' = mirrored (tx_pool s3) (dead s3)) by exact (f_equal v_dead He).
  assert (Enode : node_at (tx_pool s') i = node_at (tx_pool s3) i) by exact (f_equal (fun v => zget bnode0 (v_nodes v) i) He).
  assert (Esl : in_slots (io s') = in_slots (io s3)) by exact (f_equal v_slots He).
  unfold is_dead. rewrite Enode. unfold probed, probe_pick in Hpr.
  destruct (probe_due s2).1 eqn:Edue.
  - pose proof (probe_due_pool s2) as Epool. set (sd := (probe_due s2).2) in *.
    destruct (dead_pick_hit sd i) as [j Hj]; [by rewrite Epool..|]. rewrite Hj in Hpr.
    apply dead_pick_Some in Hj as (Hjr & Hjd & Hjc & Hjm); [|by rewrite Epool]. rewrite Epool in *.
    destruct Hpr as (r & bc & Ev & _ & Hres1 & _).
    assert (En3 : node_at (tx_pool s3) i = if decide (i = j) then revived r (node_at (tx_pool s2) j) else node_at (tx_pool s2) i).
    { apply node_at_set; [exact (f_equal v_nodes Ev)| |lia]. rewrite Hz. lia. }
    rewrite En3. destruct (decide (i = j)) as [<- |Hne].
    + left. assert (Eai : nd_addr (node_at (tx_pool s2) i) = addr_of s i) by by apply addr_at.
      rewrite Eai in Hres1. specialize (Hres1 Hrx2). unfold next_in in Hres1. simpl in Hres1. rewrite Es2, Hsl in Hres1.
      specialize (Hres1 Hans). by destruct r.
    + right. destruct (Hjm i Hin Hd2) as [? |Hlt]; [congruence|].
      unfold distance, cursor in Hlt. rewrite Epool, En2, (P2 : g_dead_cursor (dead sd) = _) in Hlt.
      assert (E3 : dead s3 = after_pick s2 r) by exact (f_equal v_dead Ev).
      assert (E3' : g_dead_slowpoll_div (dead s3) = g_dead_slowpoll_div (dead s) /\ g_dead_tick (dead s3) = 0 /\
                    g_dead_cursor (dead s3) = (j + 1) mod g_nodes_n (tx_pool s)).
      { rewrite E3. unfold after_pick. fold sd. destruct (dead_pick_rest sd) as [R1 R2]. destruct P3 as [P3 _].
        rewrite <- P1, <- En2, <- P3, <- Hjc. change (after_tick s2) with (dead sd). rewrite <- R1, <- R2. by destruct r. }
      destruct E3' as (T1 & T2 & T3). destruct P3 as [_ P4]. split.
      * split; [done|by unfold is_dead; rewrite Enode, En3|exists si, rest; rewrite Ead, Esl; split; [|done]|
          by rewrite Emir; simpl; rewrite T1|rewrite Emir; simpl; by rewrite T2].
        rewrite <- Hsl, <- Es2. assert (Esa : in_slots (io s3) (addr_of s i) = _) by exact (f_equal (fun v => v_slots v (addr_of s i)) Ev).
        rewrite Esa. simpl. destruct Hal as [_ Hso]. rewrite (proj2 (Z.eqb_neq _ _)); [done|].
        rewrite (addr_at _ _ j Ea2). unfold addr_of. intros Eq. apply (Hso j); [apply upto_spec; lia|congruence|done].
      * rewrite Emir, P4. unfold due_in. simpl. rewrite T1, T2, T3. rewrite Zminus_mod_idemp_r. case_match; nia.
  - right. assert (Ed3 : dead s3 = after_tick s2) by exact (f_equal v_dead Hpr).
    assert (En3 : node_at (tx_pool s3) i = node_at (tx_pool s2) i) by exact (f_equal (fun v => zget bnode0 (v_nodes v) i) Hpr).
    assert (Es3 : in_slots (io s3) = in_slots (io s2)) by exact (f_equal v_slots Hpr).
    rewrite Emir, Ed3. simpl. rewrite P1, P2. destruct P3 as [P3 P4]. split; [|unfold due_in in *; simpl; lia].
    split; [done| | |rewrite Emir, Ed3; simpl; by rewrite P1|rewrite Emir, Ed3; done].
    + unfold is_dead. by rewrite Enode, En3.
    + exists si, rest. by rewrite Ead, Esl, Es3, Es2.
Qed.

Lemma wait_bound s i : 0 < g_nodes_n (tx_pool s) -> 0 < g_dead_slowpoll_div (dead s) -> 0 <= g_dead_tick (dead s) ->
  1 <= wait_of s i <= g_nodes_n (tx_pool s) * g_dead_slowpoll_div (dead s).
Proof.
  intros Hn Hd Ht. unfold wait_of, distance. pose proof (Z.mod_pos_bound (i - cursor s) _ Hn).
  unfold due_in. case_match; bools; nia.
Qed.
Lemma revive_within m s c i : calm s -> awaited s i -> wait_of s i <= Z.of_nat m ->
  exists k s', (1 <= k <= m)%nat /\ run (passes k c) s = Some (c, s') /\
    is_dead (tx_pool s') i = false /\ nd_miss (node_at (tx_pool s') i) = 0.
Proof.
  revert s. induction m as [|m IH]; intros s Hc Ha Hm.
  { pose proof (wait_bound s i) as Hw. destruct Ha as [[Hi _] _ _ Hd Ht]. lia. }
  destruct (revive_pass s c i Hc Ha) as (s1 & E & Hc1 & [[Hd Hz]|[Ha1 Hlt]]).
  - exists 1%nat, s1. split; [lia|]. split; [|done]. cbn [passes]. by rewrite run_tbind, E.
  - destruct (IH s1 Hc1 Ha1 ltac:(lia)) as (k & s2 & Hk & E2 & Hr). exists (S k), s2. split; [lia|]. split; [|done].
    cbn [passes]. by rewrite run_tbind, E.
Qed.

(** C21. A dead node comes back. In cycle mode let node [i], alone at its address, be dead
    and answer the next slot it is granted with a well-formed reply to the master. Then,
    whatever the other nodes do, within [g_nodes_n * g_dead_slowpoll_div] cycles a cycle ends
    in which it is alive with no miss: the rotating probe reaches it. *)
Theorem dead_node_revived s c i : calm s -> awaited s i ->
  exists k s', 1 <= Z.of_nat k <= g_nodes_n (tx_pool s) * g_dead_slowpoll_div (dead s) /\
    run (passes k c) s = Some (c, s') /\ is_dead (tx_pool s') i = false /\ nd_miss (node_at (tx_pool s') i) = 0.
Proof.
  intros Hc Ha. pose proof (wait_bound s i) as Hw. pose proof Ha as [[Hi _] _ _ Hd Ht].
  destruct (revive_within (Z.to_nat (wait_of s i)) s c i Hc Ha ltac:(lia)) as (k & s' & Hk & H). exists k, s'. split; [lia|done].
Qed.

Lemma example_rx : rx_ok (g_bc (line example_bc)).
Proof. split; [split; [vm_decide|discriminate]|vm_compute; reflexivity]. Qed.
Lemma example_addrs : map fst (take 2 (addrs (tx_pool example_bc))) = [4; 9].
Proof. vm_compute. reflexivity. Qed.
Lemma example_alone s : take 2 (addrs (tx_pool s)) = take 2 (addrs (tx_pool example_bc)) -> g_nodes_n (tx_pool s) = 2 -> node_alone s 0.
Proof.
  intros Ea En. unfold node_alone, sole. rewrite En. split; [lia|]. intros i Hi Hne. apply upto_spec in Hi.
  assert (i = 1) as -> by lia. pose proof example_addrs as H. rewrite <- Ea in H. clear Ea.
  clear -H. unfold addrs, node_at in *. destruct (g_nodes (tx_pool s)) as [|x [|y l]]; [discriminate H..|]. injection H as Hx Hy. change (nd_addr y <> nd_addr x). rewrite Hx, Hy. discriminate.
Qed.
Lemma example_dead_calm : calm example_dead.
Proof.
  split; [|by vm_compute..|exact example_rx]. split.
  - apply set_node_inv; [done|]. exact (proj1 example_inv).
  - intros a. simpl. destruct (a =? 4); [|constructor]. constructor; [|constructor]. by constructor.
Qed.
Lemma dead_node_revived_witness : exists k s', (1 <= Z.of_nat k <= 400) /\
  run (passes k ctl0) example_dead = Some (ctl0, s') /\ is_dead (tx_pool s') 0 = false.
Proof.
  destruct (dead_node_revived example_dead ctl0 0 example_dead_calm) as (k & s' & Hk & E & Hd & _).
  - split; [by apply example_alone; vm_compute|by vm_compute| |by vm_compute|by vm_compute].
    eexists _, []. split; [by vm_compute|]. eexists _, [], example_answer. split; [reflexivity|].
    split; [reflexivity|]. split; [vm_decide|by vm_compute].
  - exists k, s'. split; [exact Hk|]. split; [exact E|exact Hd].
Defined.

(** ** Silent nodes die *)

Lemma silent_next (f : Z -> list slot_in) a : Forall slot_silent (f a) -> slot_silent (default silent_slot (head (f a))).
Proof. intros H. destruct (f a); [|exact (Forall_inv H)]. by exists (mk_round false 0 []  3000), [mk_round false 0 [] T_WINDOW_MAX_US]. Qed.
Lemma list_None_Q p free Q P i a : pool_own p free Q P -> (i, a) ∈ heads -> list_at p i a = None <-> Q (i, a) = [].
Proof.
  intros Ho Hk. pose proof (po_lists _ _ _ _ Ho _ Hk) as Hc. cbn [fst snd] in Hc. split; intros E; rewrite E in Hc.
  - by eapply chain_None.
  - by destruct (list_at p i a).
Qed.

Lemma probed_silent s s' i : probed s s' -> 0 <= i < zlen (g_nodes (tx_pool s)) -> g_nodes_n (tx_pool s) <= ROSTER_MAX ->
  zlen (g_nodes (tx_pool s)) = ROSTER_MAX -> Forall slot_silent (in_slots (io s) (addr_of s i)) ->
  node_at (tx_pool s') i = node_at (tx_pool s) i /\ Forall slot_silent (in_slots (io s') (addr_of s i)).
Proof.
  unfold probed. intros Hp Hi Hn Hz Hs. destruct (probe_pick s) as [j|] eqn:Ej.
  - apply probe_pick_Some in Ej as [Hj _]; [|done]. destruct Hp as (r & bc & Ev & _ & _ & Hr).
    assert (En : node_at (tx_pool s') i = if decide (i = j) then revived r (node_at (tx_pool s) j) else node_at (tx_pool s) i).
    { apply node_at_set; [exact (f_equal v_nodes Ev)|lia|lia]. }
    assert (Es : in_slots (io s') (addr_of s i) = _) by exact (f_equal (fun v => v_slots v (addr_of s i)) Ev).
    rewrite En, Es. simpl. split.
    + case_decide as Eij; [|done]. subst j. rewrite Hr; [done|]. by apply silent_next.
    + destruct (_ =? _); [|exact Hs]. destruct (in_slots (io s) (addr_of s i)); [constructor|]. exact (Forall_inv_tail Hs).
  - split; [exact (f_equal (fun v => zget bnode0 (v_nodes v) i) Hp)|].
    by rewrite (f_equal v_slots Hp : in_slots (io s') = in_slots (io s)).
Qed.

Lemma mute_pass s c i : calm s -> mute s i -> nd_miss (node_at (tx_pool s) i) < 0xFF ->
  exists s', run (bus_control_pass c) s = Some (c, s') /\ calm s' /\ g_poll_max_misses (poll s') = g_poll_max_misses (poll s) /\
    nd_miss (node_at (tx_pool s') i) = nd_miss (node_at (tx_pool s) i) + 1 /\
    if g_poll_max_misses (poll s) <=? nd_miss (node_at (tx_pool s) i) + 1 then is_dead (tx_pool s') i = true else mute s' i.
Proof.
  intros Hcalm [Hal Hd [Hl0 Hl1] Hsil] Hm. destruct (calm_own _ Hcalm) as (free & Q & Ho).
  destruct (calm_pass s c Hcalm _ _ Ho) as (s' & s1 & s2 & s3 & E & Hcy & Hcalm'). exists s'. split; [done|]. split; [done|].
  destruct (cycle_rest _ _ _ _ _ _ Hcy) as ([free' Ho'] & Hk & Ha & _). injection Hk as K1 K2 _ K4 _ _ _. split; [done|].
  destruct (alone_keep _ _ _ K1 Ha Hal) as [Hal' Ead]. pose proof (proj1 Hal) as Hi.
  pose proof (pw_nodes_n _ (proj1 (proj1 (cm_inv _ Hcalm)))) as Hn. pose proof (pw_active _ (proj1 (proj1 (cm_inv _ Hcalm)))) as Hac.
  assert (Hh : forall a, a = 0 \/ a = 1 -> (i, a) ∈ heads) by (intros a Hab; apply heads_spec; simpl; lia).
  assert (HQ : forall a, a = 0 \/ a = 1 -> Q (i, a) = []).
  { intros a Hab. eapply list_None_Q; [done|by apply Hh|]. by destruct Hab as [-> | ->]. }
  assert (Hfill : fill_idx (tx_pool s) = 0 \/ fill_idx (tx_pool s) = 1) by by apply lxor_idx.
  destruct (cycle_node _ _ _ _ _ _ _ Hcy Hi) as [Ea2 Hnode]. rewrite Hd, (HQ _ Hfill) in Hnode. simpl in Hnode.
  destruct Hnode as (r & Hdr & Hmr & Hres). destruct (Hres Hal (cm_rx _ Hcalm)) as [_ Hr].
  pose proof Hcy as [_ _ [_ _ _ Ff] Hk1 Hsw Hpr He].
  assert (Es1 : in_slots (io s1) (addr_of s i) = in_slots (io s) (addr_of s i)) by exact (f_equal (fun v => v_slots v (addr_of s i)) Ff).
  rewrite Hr in Hdr, Hmr by (unfold next_in; simpl; rewrite Es1; by apply silent_next). clear Hr Hres r.
  unfold node_after in Hdr, Hmr. rewrite (proj2 (Z.ltb_lt _ _) Hm) in Hdr, Hmr. simpl in Hdr, Hmr.
  destruct (sw_slots _ _ _ _ Hsw (addr_of s i)) as [k Ek].
  assert (Hsil2 : Forall slot_silent (in_slots (io s2) (addr_of s i))) by (rewrite Ek, Es1; by apply Forall_drop).
  assert (Hz : zlen (g_nodes (tx_pool s2)) = ROSTER_MAX /\ g_nodes_n (tx_pool s2) = g_nodes_n (tx_pool s)).
  { pose proof (sw_stay _ _ _ _ Hsw) as Hst. unfold stay in Hst. pose proof (f_equal v_n Ff) as Efn. simpl in Hst, Efn. split; [|congruence].
    assert (Ean : addrs (tx_pool s2) = addrs (tx_pool s)) by (rewrite (sw_addrs _ _ _ _ Hsw); by apply keys_addrs).
    apply (f_equal length) in Ean. unfold addrs in Ean. rewrite !length_map in Ean. unfold zlen. rewrite Ean. apply (cm_inv _ Hcalm). }
  destruct Hz as [Hz En2]. assert (Eai : addr_of s2 i = addr_of s i) by done.
  destruct (probed_silent _ _ i Hpr) as [T1 T3]; [lia..|done|by rewrite Eai|]. rewrite Eai in T3.
  assert (Enode : node_at (tx_pool s') i = node_at (tx_pool s3) i) by exact (f_equal (fun v => zget bnode0 (v_nodes v) i) He).
  assert (Ed' : is_dead (tx_pool s') i = nz (if g_poll_max_misses (poll s) <=? nd_miss (node_at (tx_pool s) i) + 1 then 1 else nd_dead (node_at (tx_pool s) i))).
  { unfold is_dead in *. by rewrite Enode, T1. }
  split; [by rewrite Enode, T1|]. destruct (_ <=? _); [by rewrite Ed'|].
  split; [done|by rewrite Ed'| |].
  - assert (HQ' : forall a, a = 0 \/ a = 1 -> list_at (tx_pool s') i a = None).
    { intros a Hab. eapply list_None_Q; [done|by apply Hh|]. unfold emptied. case_decide; [done|by apply HQ]. }
    split; apply HQ'; lia.
  - rewrite Ead. by rewrite (f_equal v_slots He : in_slots (io s') = in_slots (io s3)).
Qed.



(** ** Behaviour at the edges *)

(** The lists are stacks: of two messages to a node the later one is sent first. *)
Lemma messages_lifo : match run example_two example_bc with Some (_, s) => map (fun ws => zget 0 ws 6) (take 2 (out_words (io s))) | None => [] end = [2; 1].
Proof. vm_compute. reflexivity. Qed.

(** A cycle polls entries that are not enabled, and their silence counts. *)
Lemma disabled_polled : match run bus_run_cycle example_disabled with
  | Some (_, s) => (length (out_words (io s)), map nd_enabled (take 2 (g_nodes (tx_pool s))), map nd_miss (take 2 (g_nodes (tx_pool s))))
  | None => (0%nat, [], []) end = (2%nat, [0; 0], [1; 1]).
Proof. vm_compute. reflexivity. Qed.

(** A feedback batch of more than 128 bytes is refused by the link, and counted as sent. *)
Lemma feedback_oversize : forall n, n = 128 \/ n = 129 ->
  (s2m 1 OP_BUS_FEEDBACK (replicate 240 0) n (example_batch n)).1 = (if n =? 128 then 0 else -1) /\
  g_fb_frames (fb (emit_feedback (example_batch n))) = 1.
Proof. intros n [-> | ->]; vm_compute; split; reflexivity. Qed.
