(* ===== verification/KbRun.v ===== *)
(** The run loop over the shipped knowledge bases: every queued event is served, in order, by the
    columns of the knowledge base that owns its node; a cycle leaves the queue empty; the loop never
    stops and never raises. *)
From S2P Require Import Prelude CflBase CflHeap CflArena CflEventQueue CtTreeWalker CflEngine CflTerminate CflExecute JsonDecoder CflBlackboard CflNodeFns CflRuntime CflImage CflStore KbApp KbServe KbNodes KbEvent.
From stdpp Require Import gmap.
#[local] Open Scope Z_scope.
#[local] Open Scope cfl_scope.

(** ** Specification *)

(** The columns an event is for: those of the knowledge base whose root is its node. *)
Definition columns_of (e : CFL_EVENT_DATA_T) : list column :=
  match List.find (fun k => k_root k =? ev_node_id e) served_kbs with Some k => k_columns k | None => [] end.
(** An event for a root that is none of the loop's or the engine's own. *)
Record event_ok (e : CFL_EVENT_DATA_T) : Prop := {
  eo_root : exists k, k ∈ served_kbs /\ ev_node_id e = k_root k;
  eo_plain : 2 <= event_id e /\ event_id e <> CFL_TERMINATE_SYSTEM_EVENT /\ event_id e <> CFL_STOP_START_TESTS_EVENT
}.
(** The events of one tick, knowledge base by knowledge base. *)
Definition tick_event (id data : Z) (k : served_kb) (eid : Z) : CFL_EVENT_DATA_T := mk_event (k_root k) CFL_EVENT_TYPE_PTR 0 eid id data.
Definition tick_events (id mask data : Z) (k : served_kb) : list CFL_EVENT_DATA_T := map (tick_event id data k) (timer_events mask).
Definition queued (f : fifos) : list CFL_EVENT_DATA_T := f_high f ++ f_low f.
Definition emptied (f f' : fifos) : Prop :=
  f_high f' = [] /\ f_low f' = [] /\ f_cap_high f' = f_cap_high f /\ f_cap_low f' = f_cap_low f /\ f_id f' = f_id f.
(** The shipped knowledge bases are active, the others are not. *)
Definition ACTIVE : list Z := [7].
(** The blackboard is the image's. *)
Definition bb_there (b : cfl_bb) : Prop :=
  exists m, b = mk_bb (Some m) (Some (ct_bb_init_hashes ct_bb_record)) /\ zlen m = 76.

Section Run.
Context {A : Type} (hooks : app_hooks A) (float_to_int32 : Z -> Z).
Context (holds : CflHeapArenaSystem -> list (Z * Z) -> list Z -> Prop) `{Hstore : node_store waits sizeof_wait sizeof_wait_for_event holds}.
#[local] Abbreviation handle := (cfl_handle (cfl_runtime A)).
#[local] Abbreviation image := (g_chaintree_handle hooks float_to_int32).
#[local] Abbreviation serving := (serving hooks float_to_int32 holds).

(** The events [l], one after the other, as [KbServe.serve] says; the handlers are called with the
    event they are for. *)
Inductive answered : (Z -> col_state) -> A -> list CFL_EVENT_DATA_T -> (Z -> col_state) -> A -> Prop :=
| answered_nil x u : answered x u [] x u
| answered_cons x u e l u1 x' u' : called hooks e u (serve (event_id e) (columns_of e) x).2 u1 ->
    answered (serve (event_id e) (columns_of e) x).1 u1 l x' u' -> answered x u (e :: l) x' u'.

Record running (h : handle) (x : Z -> col_state) (u : A) (f : fifos) : Prop := {
  rn_serving : serving h x u;
  rn_queue : queue_repr (event_queue (rest h)) f;
  rn_active : active_test_bitmap (rest h) = ACTIVE;
  rn_bb : bb_there (shared_bb (rest h))
}.
(** What the loop relies on, of an input in [P]: the wait returns; it may have changed the application's state and queued
    events for the roots, [nh] of high and [nl] of low priority at most. *)
Definition wait_promise {I} (P : I -> Prop) (nh nl : Z) (cfl_timer_wait : I -> handle -> cfl (Z * handle)) : Prop :=
  forall i h x u f, P i -> running h x u f -> Forall event_ok (queued f) -> zlen (f_high f) + nh < f_cap_high f -> zlen (f_low f) + nl < f_cap_low f ->
  exists mask h' u' f', cfl_timer_wait i h = Ret (mask, h') /\ running h' x u' f' /\ Forall event_ok (queued f') /\
    zlen (f_high f') <= zlen (f_high f) + nh /\ zlen (f_low f') <= zlen (f_low f) + nl /\
    f_cap_high f' = f_cap_high f /\ f_cap_low f' = f_cap_low f.
(** [k] is knowledge base [i] of the table. *)
Definition at_index (i : Z) (k : served_kb) : Prop :=
  k ∈ served_kbs /\ start_index (kb_at image i) = k_root k /\ test_is_active ACTIVE i = true.
End Run.

(** ** Lemmas *)

Lemma answered_app {A} (hooks : app_hooks A) x1 u1 l1 x2 u2 l2 x3 u3 :
  answered hooks x1 u1 l1 x2 u2 -> answered hooks x2 u2 l2 x3 u3 -> answered hooks x1 u1 (l1 ++ l2) x3 u3.
Proof. induction 1 as [|x u e l u1 x' u' Hc _ IH]; intros H; [done|]. eapply answered_cons; [exact Hc|by apply IH]. Qed.

(** *** The queue *)

Lemma total_count q f : queue_repr q f -> cfl_total_event_count (Some q) = Ret (zlen (queued f)).
Proof.
  intros Hq. pose proof (queue_step_refines q f OpCounts Hq) as H. cbn [queue_step fifos_step] in H.
  destruct (cfl_high_priority_count (Some q)), (cfl_low_priority_count (Some q)); try done. cbn [cbind] in H.
  destruct (cfl_total_event_count (Some q)); try done. cbn in H. destruct H as [[= _ _ -> _ _] _]. unfold queued. by rewrite zlen_app.
Qed.
Lemma pop_event q f : queue_repr q f -> exists q', cfl_pop_event (Some q) (Some tt) = Ret ((fifos_next f).1, q') /\ queue_repr q' (fifos_next f).2.
Proof.
  intros Hq. pose proof (queue_step_refines q f OpPop Hq) as H. cbn [queue_step fifos_step] in H.
  destruct (cfl_pop_event (Some q) (Some tt)) as [[e q']| |]; try done. cbn in H. destruct H as [[= ->] Hq']. by exists q'.
Qed.
Lemma send_low q f node etype eid data : queue_repr q f -> etype <= CFL_EVENT_TYPE_NULL -> zlen (f_low f) + 1 <> f_cap_low f ->
  exists q', cfl_send_event (Some q) CFL_EVENT_PRIORITY_LOW node etype false eid data = Ret q' /\
    queue_repr q' (fifos_send f false (mk_event (u16 node) (u8 etype) 0 (u16 eid) (f_id f) data)).
Proof.
  intros Hq Ht Hroom. pose proof (queue_step_refines q f (OpSend CFL_EVENT_PRIORITY_LOW node etype false eid data) Hq) as H.
  cbn [queue_step fifos_step] in H. rewrite (proj2 (Z.ltb_ge _ _) Ht) in H. change (CFL_EVENT_PRIORITY_LOW =? CFL_EVENT_PRIORITY_HIGH) with false in H.
  cbv iota in H. rewrite (proj2 (Z.eqb_neq _ _) Hroom) in H. cbn [negb andb raise_if] in H. change (CFL_EVENT_PRIORITY_LOW =? CFL_EVENT_PRIORITY_LOW) with true in H. cbn [negb andb raise_if] in H.
  destruct (cfl_send_event _ _ _ _ _ _ _) as [q'| |]; try done. cbn in H. destruct H as [_ Hq']. by exists q'.
Qed.
Lemma next_queued f e l : queued f = e :: l -> (fifos_next f).1 = Some e /\ queued (fifos_next f).2 = l /\
  f_cap_high (fifos_next f).2 = f_cap_high f /\ f_cap_low (fifos_next f).2 = f_cap_low f /\ f_id (fifos_next f).2 = f_id f.
Proof.
  unfold queued, fifos_next. destruct (f_high f) as [|e' h]; cbn; [destruct (f_low f); [done|]; intros [= -> ->]; done|].
  intros [= -> <-]. done.
Qed.
Lemma queued_nil f : queued f = [] -> f_high f = [] /\ f_low f = [].
Proof. apply app_nil. Qed.

Section Proofs.
Context {A : Type} (hooks : app_hooks A) (float_to_int32 : Z -> Z).
Context (holds : CflHeapArenaSystem -> list (Z * Z) -> list Z -> Prop) `{Hstore : node_store waits sizeof_wait sizeof_wait_for_event holds}.
#[local] Abbreviation handle := (cfl_handle (cfl_runtime A)).
#[local] Abbreviation image := (g_chaintree_handle hooks float_to_int32).
#[local] Abbreviation serving := (serving hooks float_to_int32 holds).
#[local] Abbreviation running := (running hooks float_to_int32 holds).
#[local] Abbreviation answered := (answered hooks).
#[local] Abbreviation at_index := (at_index hooks float_to_int32).

(** *** Knowledge bases *)

(** What serving depends on. *)
Lemma serving_ext (h h' : handle) x u : h_flags h' = h_flags h -> h_backup_flags h' = h_backup_flags h -> h_walker h' = h_walker h ->
  h_max_level h' = h_max_level h -> arena_system (rest h') = arena_system (rest h) -> memory (rest h') = memory (rest h) ->
  user_handle (rest h') = user_handle (rest h) -> serving h x u -> serving h' x u.
Proof using Type.
  intros E1 E2 E3 E4 E5 E6 E7 (s & (Hs & Hl & Hf & (ws & live & aux & [W1 W2 W3]) & Hu & Hrest) & Eu). exists s. split; [|done].
  split; [|split; [by rewrite E3, E4|split; [|split; [|split; [by rewrite E7|done]]]]].
  - eapply tame_sized; [exact Hs|]. split_and!; [done|by rewrite E1|by rewrite E2|intros i; unfold flag_of; by rewrite E1].
  - intros i Hi. unfold flag_of. rewrite E1. by apply Hf.
  - exists ws, live, aux. constructor; [by rewrite E5|done|by rewrite E6].
Qed.
Lemma running_ext (h h' : handle) x u f : h_flags h' = h_flags h -> h_backup_flags h' = h_backup_flags h -> h_walker h' = h_walker h ->
  h_max_level h' = h_max_level h -> arena_system (rest h') = arena_system (rest h) -> memory (rest h') = memory (rest h) ->
  user_handle (rest h') = user_handle (rest h) -> event_queue (rest h') = event_queue (rest h) ->
  active_test_bitmap (rest h') = active_test_bitmap (rest h) -> shared_bb (rest h') = shared_bb (rest h) -> running h x u f -> running h' x u f.
Proof using Type. intros E1 E2 E3 E4 E5 E6 E7 E8 E9 E10 [R1 R2 R3 R4]. constructor; [by eapply serving_ext|by rewrite E8|by rewrite E9|by rewrite E10]. Qed.
Lemma running_queue h x u f q f' : running h x u f -> queue_repr q f' -> running (set_queue q h) x u f'.
Proof using Type. intros [R1 R2 R3 R4] Hq. constructor; [|by destruct h|by destruct h|by destruct h]. eapply serving_ext; [..|exact R1]; by destruct h. Qed.

(** The index of a shipped knowledge base in the table. *)
Lemma served_index k : k ∈ served_kbs -> exists i, start_index (kb_at image i) = k_root k /\ kb_nodes (kb_at image i) = k_count k /\
  test_is_active ACTIVE i = true /\ 0 <= k_root k < 35.
Proof using Type.
  revert k. rewrite <- Forall_forall. repeat (apply Forall_cons; split); try (by apply Forall_nil).
  - by exists 0.
  - by exists 1.
  - by exists 2.
Qed.
Lemma is_active h x u f i : running h x u f -> TEST_IS_ACTIVE h i = test_is_active ACTIVE i.
Proof using Type. intros [_ _ Ha _]. unfold TEST_IS_ACTIVE. by rewrite Ha. Qed.
(** An event for a root goes to the knowledge base of the root. *)
Lemma owner_found h x u f k : running h x u f -> k ∈ served_kbs -> exists i,
  cfl_find_owning_active_kb image h (k_root k) = i /\ i <> NO_KB /\ start_index (kb_at image i) = k_root k /\ kb_nodes (kb_at image i) = k_count k.
Proof using Type.
  intros Hr Hk. assert (forall n i, owns image h n i = test_is_active ACTIVE i && (start_index (kb_at image i) <=? n) && (n <? start_index (kb_at image i) + kb_nodes (kb_at image i))) as Ho.
  { intros n i. unfold owns. by rewrite (is_active h x u f). }
  unfold cfl_find_owning_active_kb. change (kbs image) with [0; 1; 2; 3; 4; 5]. cbn [List.find]. rewrite !Ho. clear Ho. revert k Hk. rewrite <- Forall_forall.
  repeat (apply Forall_cons; split); try (by apply Forall_nil); eexists; by split_and!.
Qed.
Lemma root_enabled h x u k : serving h x u -> k ∈ served_kbs -> cfl_engine_node_is_enabled image h (k_root k) = Ret true.
Proof using Type.
  intros (s & (_ & _ & Hf & _ & _ & _ & Hkbs) & _) Hk. destruct (served_index k Hk) as (_ & _ & _ & _ & Hr). unfold cfl_engine_node_is_enabled.
  change (node_count image) with 35. rewrite (proj2 (Z.leb_gt _ _)) by lia. cbn [raise_if]. rewrite ubits_has by done. rewrite (Hf (k_root k)) by done.
  by destruct (Hkbs k Hk) as [[-> _]|[-> _]].
Qed.
Lemma columns_of_root k e : k ∈ served_kbs -> ev_node_id e = k_root k -> columns_of e = k_columns k.
Proof using Type.
  intros Hk E. unfold columns_of. rewrite E. clear e E. revert k Hk. rewrite <- Forall_forall. by repeat (apply Forall_cons; split); try (by apply Forall_nil).
Qed.

(** *** An event *)

Lemma routed h x u f e : running h x u f -> event_ok e ->
  exists h' x' u', execute_routed image h e = Ret h' /\ running h' x' u' f /\ answered x u [e] x' u'.
Proof using Hstore.
  intros Hr [(k & Hk & En) (Hev & _)]. destruct (owner_found h x u f k Hr Hk) as (i & Eo & Hi & Es & Ec). unfold execute_routed. rewrite En, Eo.
  rewrite (proj2 (Z.eqb_neq _ _) Hi). set (h1 := enter_kb image i h <| event_data_ptr := Some e |>).
  assert (running h1 x u f) as Hr1 by (eapply running_ext; [..|exact Hr]; by destruct h).
  assert (event_data_ptr h1 = Some e /\ kb_start_index h1 = k_root k /\ kb_node_count h1 = k_count k) as (E1 & E2 & E3) by (rewrite <- Es, <- Ec; by destruct h).
  destruct (event_served hooks float_to_int32 holds h1 x u e k (rn_serving _ _ _ _ _ _ _ Hr1) Hk E1 En E2 E3 Hev) as (h' & u' & E & Hs' & Hc & Hframe).
  rewrite E. cbn [cbind fst snd]. exists h', (serve (event_id e) (columns_of e) x).1, u'. rewrite (columns_of_root k e Hk En). split; [done|]. split.
  - destruct Hr1 as [_ Hq Ha Hb]. unfold frame in Hframe. injection Hframe as F1 F2 F3 F4 F5 F6 F7 F8. constructor; [done|by rewrite F1|by rewrite F4|by rewrite F8].
  - eapply answered_cons; rewrite (columns_of_root k e Hk En); [exact Hc|constructor].
Qed.
Lemma popped h x u f e l : running h x u f -> queued f = e :: l -> exists h', pop h = Ret (e, h') /\ running h' x u (fifos_next f).2.
Proof using Type.
  intros Hr Hq. destruct (pop_event _ _ (rn_queue _ _ _ _ _ _ _ Hr)) as (q' & E & Hq'). destruct (next_queued f e l Hq) as (En & _). unfold pop. rewrite E. cbn [cbind fst snd].
  rewrite En. cbn [default]. eexists. split; [reflexivity|]. eapply running_ext; [..|eapply running_queue; [exact Hr|exact Hq']]; by destruct h.
Qed.

Lemma drained l : forall fuel h x u f, (length l <= fuel)%nat -> running h x u f -> queued f = l -> Forall event_ok l ->
  exists h' x' u' f', drain image fuel h = Ret (false, h') /\ running h' x' u' f' /\ emptied f f' /\ answered x u l x' u'.
Proof using Hstore.
  induction l as [|e l IH]; intros fuel h x u f Hfuel Hr Hq Hok.
  { exists h, x, u, f. destruct (queued_nil f Hq) as [Eh El]. split; [|split; [done|split; [done|constructor]]].
    destruct fuel; cbn [drain]; rewrite (total_count _ _ (rn_queue _ _ _ _ _ _ _ Hr)), Hq; done. }
  destruct fuel as [|fuel]; [cbn in Hfuel; lia|]. apply Forall_cons in Hok as [He Hok]. cbn [drain].
  rewrite (total_count _ _ (rn_queue _ _ _ _ _ _ _ Hr)), Hq. cbn [cbind]. rewrite zlen_cons. pose proof (zlen_nonneg l). rewrite (proj2 (Z.leb_gt _ _)) by lia.
  destruct (popped h x u f e l Hr Hq) as (h1 & -> & Hr1). cbn [cbind fst snd]. pose proof (eo_plain e He) as (_ & Ht & Hst).
  rewrite (proj2 (Z.eqb_neq _ _) Ht), (proj2 (Z.eqb_neq _ _) Hst). destruct (routed h1 x u _ e Hr1 He) as (h2 & x2 & u2 & -> & Hr2 & Ha). cbn [cbind].
  destruct (next_queued f e l Hq) as (_ & Hq2 & Ec1 & Ec2 & Ei). destruct (IH fuel h2 x2 u2 _ ltac:(cbn in Hfuel; lia) Hr2 Hq2 Hok) as (h3 & x3 & u3 & f3 & E & Hr3 & (He1 & He2 & He3 & He4 & He5) & Ha3).
  exists h3, x3, u3, f3. split; [done|]. split; [done|]. split; [split_and!; congruence|]. exact (answered_app hooks _ _ [e] _ _ _ _ _ Ha Ha3).
Qed.

(** *** A pass *)

Lemma timer_events_ok mask : Forall (fun eid => 4 <= eid <= 11) (timer_events mask) /\ zlen (timer_events mask) <= 7.
Proof using Type.
  unfold timer_events. split.
  - apply Forall_cons; split; [done|]. apply Forall_map. eapply List.incl_Forall; [apply List.incl_filter|]. repeat (apply Forall_cons; split); try (by apply Forall_nil); done.
  - rewrite zlen_cons. unfold zlen. rewrite length_map. pose proof (List.filter_length_le (fun p => nz (Z.land mask p.1))
      [(CFL_CHANGED_SECOND, CFL_SECOND_EVENT); (CFL_CHANGED_MINUTE, CFL_MINUTE_EVENT); (CFL_CHANGED_HOUR, CFL_HOUR_EVENT);
       (CFL_CHANGED_DAY, CFL_DAY_EVENT); (CFL_CHANGED_DOW, CFL_WEEK_EVENT); (CFL_CHANGED_DOY, CFL_YEAR_EVENT)]) as H. cbn [length] in H. lia.
Qed.
Lemma tick_sent h x u f i k eid data : running h x u f -> at_index i k -> 4 <= eid <= 11 -> zlen (f_low f) + 1 <> f_cap_low f ->
  exists h', cfl_send_system_event_to_test image h i eid CFL_EVENT_TYPE_PTR false data = Ret h' /\
    running h' x u (fifos_send f false (tick_event (f_id f) data k eid)).
Proof using Type.
  intros Hr (Hk & Es & Ha) He Hroom. unfold cfl_send_system_event_to_test. rewrite (is_active h x u f i Hr), Ha. cbn [negb]. rewrite Es.
  rewrite (root_enabled h x u k (rn_serving _ _ _ _ _ _ _ Hr) Hk). cbn [cbind].
  destruct (send_low _ f (k_root k) CFL_EVENT_TYPE_PTR eid data (rn_queue _ _ _ _ _ _ _ Hr)) as (q & -> & Hq); [done|done|]. cbn [cbind].
  eexists. split; [reflexivity|]. eapply running_queue; [exact Hr|]. destruct (served_index k Hk) as (_ & _ & _ & _ & Hroot).
  rewrite (u16_id (k_root k)), (u16_id eid) in Hq by (unfold fits; lia). exact Hq.
Qed.
Lemma ticks_sent i k data l : forall h x u f, running h x u f -> at_index i k -> Forall (fun eid => 4 <= eid <= 11) l ->
  zlen (f_low f) + zlen l < f_cap_low f ->
  exists h' f', each (fun h eid => cfl_send_system_event_to_test image h i eid CFL_EVENT_TYPE_PTR false data) l h = Ret h' /\
    running h' x u f' /\ queued f' = queued f ++ map (tick_event (f_id f) data k) l /\
    f_cap_high f' = f_cap_high f /\ f_cap_low f' = f_cap_low f /\ f_id f' = f_id f.
Proof using Type.
  induction l as [|eid l IH]; intros h x u f Hr Hi Hl Hroom; [exists h, f; rewrite app_nil_r; by split_and!|].
  apply Forall_cons in Hl as [He Hl]. rewrite zlen_cons in Hroom. pose proof (zlen_nonneg l). cbn [each].
  destruct (tick_sent h x u f i k eid data Hr Hi He) as (h1 & -> & Hr1); [lia|]. cbn [cbind]. set (f1 := fifos_send _ _ _) in *.
  assert (f_low f1 = f_low f ++ [tick_event (f_id f) data k eid]) as E1 by done.
  destruct (IH h1 x u f1 Hr1 Hi Hl) as (h2 & f2 & E & Hr2 & Hq & Hc); [rewrite E1, zlen_app; change (f_cap_low f1) with (f_cap_low f); change (zlen [_]) with 1; lia|].
  exists h2, f2. split; [done|]. split; [done|]. split; [|done]. rewrite Hq. unfold queued. rewrite E1. change (f_high f1) with (f_high f). change (f_id f1) with (f_id f).
  cbn [map]. by rewrite <- !app_assoc.
Qed.
Lemma tick_events_ok id mask data k : k ∈ served_kbs -> Forall event_ok (tick_events id mask data k).
Proof using Type.
  intros Hk. apply Forall_map. eapply Forall_impl; [apply timer_events_ok|]. intros eid He. cbn beta in *. constructor; [by exists k|].
  cbn [event_id tick_event]. unfold CFL_TERMINATE_SYSTEM_EVENT, CFL_STOP_START_TESTS_EVENT. lia.
Qed.

Lemma pass_served fuel mask data h x u f i k : running h x u f -> at_index i k -> Forall event_ok (queued f) ->
  zlen (f_low f) + 7 < f_cap_low f -> zlen (queued f) + 7 <= Z.of_nat fuel ->
  exists h' x' u' f', kb_pass image fuel mask data h i = Ret (false, h') /\ running h' x' u' f' /\ emptied f f' /\
    answered x u (queued f ++ tick_events (f_id f) mask data k) x' u'.
Proof using Hstore.
  intros Hr Hi Hok Hroom Hfuel. pose proof Hi as (Hk & Es & _). destruct (timer_events_ok mask) as [Hev Hfew]. unfold kb_pass, cfl_generate_timer_events.
  assert (running (enter_kb image i h) x u f) as Hr0 by (eapply running_ext; [..|exact Hr]; by destruct h).
  destruct (ticks_sent i k data (timer_events mask) _ x u f Hr0 Hi Hev) as (h1 & f1 & -> & Hr1 & Hq & Ec1 & Ec2 & Ei); [lia|]. cbn [cbind].
  set (h2 := set_rest _ h1). assert (running h2 x u f1) as Hr2 by (eapply running_ext; [..|exact Hr1]; by destruct h1).
  fold (tick_events (f_id f) mask data k) in Hq.
  destruct (drained (queued f1) fuel h2 x u f1) as (h3 & x' & u' & f' & -> & Hr3 & (He1 & He2 & He3 & He4 & He5) & Ha); [|done|done| |].
  { rewrite Hq, length_app. unfold tick_events. rewrite length_map. unfold zlen in *. lia. }
  { rewrite Hq. apply Forall_app. split; [done|]. by apply tick_events_ok. }
  cbn [cbind fst snd]. rewrite Es, (root_enabled h3 x' u' k (rn_serving _ _ _ _ _ _ _ Hr3) Hk). cbn [cbind].
  exists h3, x', u', f'. split; [done|]. split; [done|]. split; [split_and!; congruence|]. by rewrite <- Hq.
Qed.

(** *** A cycle *)

Lemma emptied_trans f1 f2 f3 : emptied f1 f2 -> emptied f2 f3 -> emptied f1 f3.
Proof using Type. intros (_ & _ & A1 & A2 & A3) (B1 & B2 & B3 & B4 & B5). split_and!; congruence. Qed.
Lemma emptied_queued f f' : emptied f f' -> queued f' = [].
Proof using Type. intros (H1 & H2 & _). unfold queued. by rewrite H1, H2. Qed.
(** The passes of the knowledge bases [ks], at the indices [l], the queue being empty. *)
Lemma passes_served fuel mask data l ks : Forall2 at_index l ks -> forall h x u f more loop_flag, running h x u f -> queued f = [] -> 7 < f_cap_low f ->
  7 <= Z.of_nat fuel ->
  exists h' x' u' f', cycle image fuel mask data (l ++ more) loop_flag h = cycle image fuel mask data more (match l with [] => loop_flag | _ => true end) h' /\
    running h' x' u' f' /\ emptied f f' /\ answered x u (concat (map (tick_events (f_id f) mask data) ks)) x' u'.
Proof using Hstore.
  induction 1 as [|i k l ks Hi Hl IH]; intros h x u f more loop_flag Hr Hq Hroom Hfuel.
  { exists h, x, u, f. destruct (queued_nil f Hq). split; [done|]. split; [done|]. split; [done|constructor]. }
  destruct (queued_nil f Hq) as [_ El]. destruct (pass_served fuel mask data h x u f i k Hr Hi) as (h1 & x1 & u1 & f1 & E & Hr1 & He1 & Ha1); rewrite ?Hq, ?El; [constructor|done|done|].
  rewrite Hq in Ha1. cbn [app] in Ha1. pose proof He1 as (_ & _ & Ec1 & Ec2 & Ei). pose proof Hi as (_ & _ & Hact). cbn [app cycle].
  rewrite (is_active h x u f i Hr), Hact, E. cbn [cbind fst snd]. destruct (IH h1 x1 u1 f1 more true Hr1 (emptied_queued _ _ He1)) as (h2 & x2 & u2 & f2 & E2 & Hr2 & He2 & Ha2); [lia|done|].
  exists h2, x2, u2, f2. split; [rewrite E2; by destruct l|]. split; [done|]. split; [by eapply emptied_trans|]. cbn [map concat]. rewrite Ei in Ha2. by eapply answered_app.
Qed.
Lemma kbs_at : Forall2 at_index [0; 1; 2] served_kbs.
Proof using Type.
  assert (forall i k, k ∈ served_kbs -> start_index (kb_at image i) = k_root k -> test_is_active ACTIVE i = true -> at_index i k) as H by by split.
  unfold served_kbs at 1. repeat (constructor; [apply H; [|done|done]; by repeat constructor|]). constructor.
Qed.
Lemma cycle_is_served fuel mask data h x u f : running h x u f -> Forall event_ok (queued f) ->
  zlen (f_low f) + 7 < f_cap_low f -> zlen (queued f) + 7 <= Z.of_nat fuel ->
  exists h' x' u' f', cycle image fuel mask data (kbs image) false h = Ret (false, true, h') /\ running h' x' u' f' /\ emptied f f' /\
    answered x u (queued f ++ concat (map (tick_events (f_id f) mask data) served_kbs)) x' u'.
Proof using Hstore.
  intros Hr Hok Hroom Hfuel. pose proof kbs_at as Hat. destruct served_kbs as [|k ks] eqn:Eks; [done|]. inversion Hat as [|? ? ? ? Hi Hrest]; subst.
  destruct (pass_served fuel mask data h x u f 0 k Hr Hi Hok Hroom Hfuel) as (h1 & x1 & u1 & f1 & E & Hr1 & He1 & Ha1).
  pose proof He1 as (_ & _ & Ec1 & Ec2 & Ei). pose proof (zlen_nonneg (f_low f)). pose proof (zlen_nonneg (queued f)).
  destruct (passes_served fuel mask data [1; 2] ks Hrest h1 x1 u1 f1 [3; 4; 5] true Hr1 (emptied_queued _ _ He1)) as (h2 & x2 & u2 & f2 & E2 & Hr2 & He2 & Ha2); [lia|lia|].
  exists h2, x2, u2, f2. split; [|split; [done|split; [by eapply emptied_trans|]]].
  - change (kbs image) with (0 :: [1; 2] ++ [3; 4; 5]). cbn [cycle]. rewrite (is_active h x u f 0 Hr). change (test_is_active ACTIVE 0) with true. cbv iota.
    rewrite E. cbn [cbind fst snd]. rewrite E2. cbn [cycle]. rewrite !(is_active h2 x2 u2 f2 _ Hr2). done.
  - cbn [map concat]. rewrite Ei in Ha2. rewrite app_assoc. by eapply answered_app.
Qed.

(** *** The loop *)

Section Loop.
Context {I : Type} (P : I -> Prop) (cfl_timer_wait : I -> handle -> cfl (Z * handle)) (tick_result nh nl : Z).
Context (Hwait : wait_promise hooks float_to_int32 holds P nh nl cfl_timer_wait).

Lemma cycles_run fuel inputs : Forall P inputs -> forall h x u f, running h x u f -> Forall event_ok (queued f) -> zlen (f_high f) + nh < f_cap_high f ->
  zlen (f_low f) + nl + 7 < f_cap_low f -> f_cap_high f + f_cap_low f <= Z.of_nat fuel ->
  exists h' x' u' f', run_cycles image cfl_timer_wait tick_result fuel inputs h = Ret (Running h') /\ running h' x' u' f' /\
    Forall event_ok (queued f').
Proof using Hstore Hwait.
  induction 1 as [|i inputs HP Hinputs IH]; intros h x u f Hr Hq Hhigh Hlow Hfuel; [by exists h, x, u, f|]. cbn [run_cycles].
  destruct (Hwait i h x u f HP Hr Hq Hhigh ltac:(lia)) as (mask & h1 & u1 & f1 & -> & Hr1 & Hok & Hn1 & Hn2 & Ec1 & Ec2). cbn [cbind fst snd].
  pose proof (zlen_nonneg (f_low f)). pose proof (zlen_nonneg (f_high f)).
  destruct (cycle_is_served fuel mask tick_result h1 x u1 f1 Hr1 Hok) as (h2 & x2 & u2 & f2 & -> & Hr2 & He & _); [lia|unfold queued; rewrite zlen_app; lia|].
  cbn [cbind orb negb]. pose proof He as (Eh & El & Ec3 & Ec4 & _).
  destruct (IH h2 x2 u2 f2 Hr2) as (h3 & x3 & u3 & f3 & E & Hr3 & Hq3); [by rewrite (emptied_queued _ _ He)|rewrite Eh; change (zlen []) with 0; lia|rewrite El; change (zlen []) with 0; lia|lia|].
  by exists h3, x3, u3, f3.
Qed.
Lemma runtime_runs fuel first inputs h x u f : P first -> Forall P inputs -> running h x u f -> queued f = [] -> 2 * nh < f_cap_high f -> 0 <= nh -> 2 * nl + 7 < f_cap_low f -> 0 <= nl ->
  f_cap_high f + f_cap_low f <= Z.of_nat fuel ->
  exists h' x' u' f', cfl_runtime_run image cfl_timer_wait tick_result fuel first inputs h = Ret (Running h') /\ running h' x' u' f' /\
    Forall event_ok (queued f').
Proof using Hstore Hwait.
  intros HP HPs Hr Hq Hh H0 Hl H1 Hfuel. destruct (queued_nil f Hq) as [Eh El]. unfold cfl_runtime_run.
  destruct (Hwait first h x u f HP Hr) as (mask & h1 & u1 & f1 & -> & Hr1 & Hok & Hn1 & Hn2 & Ec1 & Ec2);
    [by rewrite Hq|rewrite Eh; change (zlen []) with 0; lia|rewrite El; change (zlen []) with 0; lia|]. cbn [cbind snd].
  rewrite Eh in Hn1. rewrite El in Hn2. change (zlen []) with 0 in *.
  apply (cycles_run fuel inputs HPs _ x u1 f1); [|done|lia..]. eapply running_ext; [..|exact Hr1]; by destruct h1.
Qed.
End Loop.
End Proofs.
