(* ===== verification/KbBoot.v ===== *)
(** Bringing the engine up ([engine_runtime_bringup] of [main.c]): the runtime is created and reset,
    the pool of transmit buffers carved, the knowledge bases that are not metadata activated and the
    blackboard's slots bound. It ends in a state the run loop serves from. *)
From S2P Require Import Prelude CflBase CflPerm BcState BcPool CflHeap CflArena CflEventQueue CtTreeWalker CflEngine CflTerminate CflExecute JsonDecoder CflBlackboard CflNodeFns CflRuntime CflImage CflStore KbApp KbServe KbNodes KbEvent KbRun.
From stdpp Require Import gmap.
#[local] Open Scope Z_scope.
#[local] Open Scope cfl_scope.

Definition MAX_APP_KBS : Z := 6.
Definition ADC_NCH : Z := 3.
Definition HIL_GPIO_COUNT : Z := 8.
Definition g_perm_buf_size : Z := 16 * 1024.

(** [strstr(s, sub)], as a truth value. *)
Fixpoint strstr (s sub : list Z) : bool :=
  bool_decide (take (length sub) s = sub) || match s with [] => false | _ :: s => strstr s sub end.
Record appkb_t := mk_appkb { ak_node : Z; ak_arena_id : Z; ak_active : Z }.
(** The globals: [g_appkb_n] is the length. *)
Record bringup_t := mk_bringup { g_appkb : list appkb_t; g_kb0_node : Z; g_kb1_node : Z; g_kbapp_node : Z; g_bb : list (option Z) }.
#[export] Instance eta_bringup : Settable bringup_t := fun b =>
  mk_bringup (g_appkb b) (g_kb0_node b) (g_kb1_node b) (g_kbapp_node b) (g_bb b).

(** The names in the order they are bound. *)
Definition bb_names : list (list Z) :=
  concat (map (fun ch => map chars match ch with 0 => ["adc0_mean"; "adc0_max"; "adc0_rms"] | 1 => ["adc1_mean"; "adc1_max"; "adc1_rms"]
                                   | _ => ["adc2_mean"; "adc2_max"; "adc2_rms"] end%string) (seqZ 0 ADC_NCH))
  ++ [chars "gpio_raw"; chars "gpio_deb"] ++ map (fun i => chars "cnt" ++ [48 + i]) (seqZ 0 HIL_GPIO_COUNT).
Fixpoint bind_slots (b : cfl_bb) (names : list (list Z)) : cfl (list (option Z)) :=
  match names with
  | [] => Ret []
  | name :: names => p <- cfl_bb_field_by_name (Some b) (Some name);; ps <- bind_slots b names;; Ret (p :: ps)
  end.

Section Bringup.
Context {A : Type} (flash_handle : chaintree_handle (cfl_runtime A)).
#[local] Abbreviation handle := (cfl_handle (cfl_runtime A)).

(** The loop over the knowledge bases, from [i] on with these [names] left. *)
Fixpoint activate (i : Z) (names : list (list Z)) (g : bringup_t) (h : handle) : cfl (bringup_t * handle) :=
  match names with
  | [] => Ret (g, h)
  | nm :: names =>
      if negb (zlen (g_appkb g) <? MAX_APP_KBS) then Ret (g, h)
      else if strstr nm (chars "_functions") then activate (i + 1) names g h
      else
        let node := start_index (kb_at flash_handle i) in
        r <- cfl_add_test_by_index flash_handle h i;;
        let h := r.2 in
        let g := if r.1 : bool then g <| g_appkb ::= fun l => l ++ [mk_appkb node (zget 0 (kb_allocator_ids (rest h)) i) 1] |> else g in
        let g := if bool_decide (nm = chars "kb0") then g <| g_kb0_node := node |>
                 else if bool_decide (nm = chars "kb1") then g <| g_kb1_node := node |>
                 else if bool_decide (nm = chars "kbapp") then g <| g_kbapp_node := node |> else g in
        activate (i + 1) names g h
  end.
(** What it makes: the globals, the runtime, the transmit buffers, the permanent allocator. *)
Definition engine_runtime_bringup (user : A) (g_perm_buf : Z) (pool : pool_t) : cfl (bringup_t * handle * pool_t * CflPerm) :=
  let table := ct_bb_table (ct_bb_init_hashes ct_bb_record) in
  let p := mk_params g_perm_buf g_perm_buf_size 4096
             (cfl_calculate_arrena_number flash_handle ct_main_function_names ct_main_function_usage_count)
             (node_count flash_handle) 256 8 64 in
  c <- cfl_runtime_create flash_handle user p ct_main_function_names (Some table) 0;;
  let '(h, perm, _) := c in
  r <- cfl_runtime_reset flash_handle h;;
  q <- bus_pool_init perm pool;;
  a <- activate 0 ct_kb_names (mk_bringup [] 0 0 0 []) r.2;;
  slots <- bind_slots (shared_bb (rest a.2)) bb_names;;
  Ret (a.1 <| g_bb := slots |>, a.2, q.1, q.2).
End Bringup.

(** ** The state it leaves *)

(** The address the linker gives the buffer. *)
Definition PERM_BUF : Z := 0x20008000.
(** The buffers before they are carved. *)
Definition pool_bss : pool_t := mk_pool [] None 0 0 0 0 false 0 [] 0 0 false 0 [] 0 0.
Definition arena_of (w : Z) : Z := if w <? 9 then 1 else if w <? 14 then 2 else 3.
Definition bringup := fun A hooks float_to_int32 (user : A) =>
  engine_runtime_bringup (g_chaintree_handle hooks float_to_int32) user PERM_BUF pool_bss.

(** The calls on the arenas, in order. *)
Definition kb_calls (i : Z) : list arena_op :=
  let kb := zget kb0 ct_kb_table i in
  ACreate (start_index kb) (kb_nodes kb * memory_factor kb) ::
  map (fun w => ASetNodeId w (i + 1)) (seqZ (start_index kb) (kb_nodes kb)).
Definition boot_calls : list arena_op := AReset :: concat (map kb_calls [0; 1; 2]).
(** The permanent allocator when the heap is set up. *)
Definition boot_perm : CflPerm :=
  match (p <- cfl_perm_init (Some cfl_perm_set_instance) PERM_BUF g_perm_buf_size;;
         perm_allocs [sizeof_runtime_handle; sizeof_main_function_data] p) with Ret p => p | _ => cfl_perm_set_instance end.
Definition boot_arenas : CflHeapArenaSystem :=
  match arena_boot boot_perm 4096 7 35 256 with Ret r => r.1 | _ => mk_arenas (heap_fresh 1 20 false) 0 [] [] None None 0 0 0 0 [] end.
Definition booted_arenas : CflHeapArenaSystem :=
  match arena_run boot_arenas [] boot_calls with Ret r => r.1 | _ => boot_arenas end.
Definition boot_queue : CFL_EVENT_QUEUE_T := mk_queue (init_ring 8 (replicate 8 event0)) (init_ring 64 (replicate 64 event0)) 0 0 0.
Definition boot_fifos : fifos := mk_fifos [] [] 8 64 0 0 0.
Definition boot_flags : list Z := map (fun i => if bool_decide (i ∈ map k_root served_kbs) then CT_FLAG_USER3 else 0) (seqZ 0 35).
(** No column is armed, no second was counted. *)
Definition idle : Z -> col_state := fun _ => (false, 0).

(** The wait [w] has no struct, and its arena is empty and has room for its waits. *)
Definition arena_node_good (s : CflHeapArenaSystem) (w : Z) : Prop :=
  (0 <= w < as_nodes s /\ zget 0 (default [] (as_node_ids s)) w = arena_of w) /\ zget 0 (default [] (as_node_mem s)) w = INVALID_MEMORY_IDX /\
  base_of s (arena_of w) mod 4 = 0 /\ arena_of w <> 0 /\ ac_used (block_of s (arena_of w)) = 0 /\
  sizeof_wait * zlen (in_arena arena_of (arena_of w) waits) <= ac_size (block_of s (arena_of w)).
#[export] Instance arena_node_good_dec s w : Decision (arena_node_good s w).
Proof. unfold arena_node_good. apply _. Defined.

(** ** Lemmas *)

Lemma bringup_gives A hooks float_to_int32 (user : A) :
  (r <- bringup A hooks float_to_int32 user;;
   let h := r.1.1.2 in
   Ret (h_flags h, h_backup_flags h, h_walker h, h_max_level h, event_data_ptr h, (event_queue (rest h), active_test_bitmap (rest h), user_handle (rest h), shared_bb (rest h)),
        (g_kb0_node r.1.1.1, g_kb1_node r.1.1.1, g_kbapp_node r.1.1.1, g_bb r.1.1.1, g_pool_selftest r.1.2)))
  = Ret (boot_flags, replicate 35 0, mk_regs 35 65535 34 false, 3, None, (boot_queue, ACTIVE, user, ct_bb), (0, 9, 14, map (fun i => Some (4 * i)) (seqZ 0 19), BUS_POOL_N)).
Proof. vm_compute. reflexivity. Qed.
Lemma bringup_arenas A hooks float_to_int32 (user : A) :
  (r <- bringup A hooks float_to_int32 user;; Ret (arena_system (rest r.1.1.2), [])) = arena_run boot_arenas [] boot_calls.
Proof. vm_compute. reflexivity. Qed.
(** The arenas were only ever used as a client may. *)
Lemma booted_reach : arena_reach boot_perm 4096 7 35 256 booted_arenas [].
Proof.
  assert (arena_boot boot_perm 4096 7 35 256 = Ret (boot_arenas, match arena_boot boot_perm 4096 7 35 256 with Ret r => r.2 | _ => boot_perm end)) as Eb
    by (vm_compute; reflexivity).
  assert (legal_calls boot_arenas boot_calls) as Hl by vm_decide.
  apply (arena_run_reach _ _ _ _ _ boot_calls boot_arenas [] booted_arenas []); [by eapply arena_reach_boot|done|].
  vm_compute. reflexivity.
Qed.
Lemma boot_perm_ok : boot_params_ok boot_perm 4096 7 35 256.
Proof. unfold boot_params_ok, perm_ok, fits. repeat split; vm_compute; done. Qed.
Lemma arena_nodes_good : Forall (arena_node_good booted_arenas) waits.
Proof. vm_decide. Qed.
Lemma arena_node_ok w : w ∈ waits -> arena_node_good booted_arenas w.
Proof. revert w. apply Forall_forall, arena_nodes_good. Qed.
Lemma booted_extents : Forall (fun x => held booted_arenas x.1) (extents (as_heap booted_arenas)).
Proof. vm_decide. Qed.
Lemma booted_store : store_is waits arena_of sizeof_wait sizeof_wait_for_event booted_arenas [] [].
Proof.
  pose proof (arena_reach_ok _ _ _ _ _ _ _ boot_perm_ok booted_reach) as Hok. pose proof Hok as (Hc & Hn & Ha).
  destruct (ok_heap _ Hc) as (bs & Hbs). constructor.
  - exact Hok.
  - exists bs. split; [done|]. apply (small_checked 8 _ _ _ Hbs). vm_compute. reflexivity.
  - intros w Hw. by apply arena_node_ok.
  - intros w Hw. by apply arena_node_ok.
  - split; [constructor|]. intros w Hw. by apply elem_of_nil in Hw.
  - intros w Hw. destruct (arena_node_ok w Hw) as (_ & _ & H1 & H2 & H3 & H4). by split_and!.
  - split; [constructor|]. intros p Hp. by apply elem_of_nil in Hp.
  - intros x Hx. left. revert x Hx. apply Forall_forall, booted_extents.
  - vm_compute. reflexivity.
Qed.
#[export] Instance boot_store : node_store waits sizeof_wait sizeof_wait_for_event (store_is waits arena_of sizeof_wait sizeof_wait_for_event).
Proof. apply arenas_store; first [apply waits_nodup|by split]. Qed.
Lemma boot_queue_repr : queue_repr boot_queue boot_fifos.
Proof.
  pose proof (init_ring_repr 8) as H8. pose proof (init_ring_repr 64) as H64. change (cap_of 8) with 8 in H8. change (cap_of 64) with 64 in H64.
  constructor; [exact H8|exact H64|reflexivity..].
Qed.
Lemma kbs_off : Forall (fun k => zget 0 boot_flags (k_root k) = 0x80 /\
  Forall (fun c => zget 0 boot_flags (c_node c) = 0 /\ zget 0 boot_flags (wait_of c) = 0 /\ zget 0 boot_flags (c_node c + 2) = 0 /\ zget 0 boot_flags (c_node c + 3) = 0) (k_columns k)) served_kbs.
Proof. vm_decide. Qed.
Lemma boot_flags_plain i : 0 <= i < 35 -> ubits (zget 0 boot_flags i) = zget 0 boot_flags i /\ has (zget 0 boot_flags i) CT_FLAG_USER1 = false.
Proof.
  assert (Forall (fun i => ubits (zget 0 boot_flags i) = zget 0 boot_flags i /\ has (zget 0 boot_flags i) CT_FLAG_USER1 = false) (seqZ 0 35)) as H by vm_decide.
  intros Hi. rewrite Forall_forall in H. apply H, elem_of_seqZ. lia.
Qed.
Lemma boot_flags_length : zlen boot_flags = 35.
Proof. reflexivity. Qed.
#[local] Opaque boot_flags.
(** The state of a handle at rest, when nothing ran yet. *)
Lemma fresh_rests {A} hooks float_to_int32 (h : cfl_handle (cfl_runtime A)) :
  h_flags h = boot_flags -> h_backup_flags h = replicate 35 0 -> h_walker h = mk_regs 35 65535 34 false -> h_max_level h = 3 ->
  arena_system (rest h) = booted_arenas -> serving hooks float_to_int32 (store_is waits arena_of sizeof_wait sizeof_wait_for_event) h idle (user_handle (rest h)).
Proof.
  intros E1 E2 E3 E4 E5. exists (mk_v (zget 0 boot_flags) (fun _ => None) (user_handle (rest h)) 0). split; [|done].
  split; [|split; [rewrite E3, E4; cbn [wr_max_level]; lia|split; [|split; [|split; [reflexivity|split]]]]].
  - unfold sized, wired. rewrite E1, E2, E3. change (node_count _) with 35. rewrite boot_flags_length. vm_compute. by repeat split.
  - intros i Hi. unfold flag_of. rewrite E1. by apply boot_flags_plain.
  - exists [], [], (fun _ => None). constructor; [rewrite E5; exact booted_store|reflexivity|reflexivity].
  - intros i Hi. by apply boot_flags_plain.
  - intros k Hk. right. destruct (proj1 (Forall_forall _ _) kbs_off k Hk) as [Hroot Hcols]. split; [exact Hroot|]. intros c Hc.
    destruct (proj1 (Forall_forall _ _) Hcols c Hc) as (H1 & H2 & H3 & H4).
    split; [reflexivity|]. exists None. split; [|left; split; reflexivity]. constructor; [exact H1|exact H2|exact H3|exact H4|reflexivity].
Qed.
Lemma booted_run : arena_run boot_arenas [] boot_calls = Ret (booted_arenas, []).
Proof. vm_compute. reflexivity. Qed.
Lemma Ret_inj {X} (x y : X) : Ret x = Ret y -> x = y.
Proof. by intros [= ->]. Qed.
Lemma engine_boots A hooks float_to_int32 (user : A) : exists b h p perm,
  bringup A hooks float_to_int32 user = Ret (b, h, p, perm) /\
  running hooks float_to_int32 (store_is waits arena_of sizeof_wait sizeof_wait_for_event) h idle user boot_fifos /\
  (g_kb0_node b, g_kb1_node b, g_kbapp_node b) = (0, 9, 14) /\ g_bb b = map (fun i => Some (4 * i)) (seqZ 0 19) /\ g_pool_selftest p = BUS_POOL_N.
Proof.
  pose proof (bringup_gives A hooks float_to_int32 user) as Hg. pose proof (bringup_arenas A hooks float_to_int32 user) as Ha.
  apply cbind_Ret in Hg as ([[[b h] p] perm] & Eb & Hg). rewrite Eb in Ha. rewrite booted_run in Ha. cbn [cbind fst snd] in Hg, Ha.
  apply Ret_inj in Hg, Ha. rewrite !pair_equal_spec in Hg. rewrite pair_equal_spec in Ha. destruct Ha as [Ha _].
  destruct Hg as ((((((E1 & E2) & E3) & E4) & E5) & ((E6 & E7) & E8) & Ebb) & (((E9 & E10) & E11) & E12) & E13).
  exists b, h, p, perm. split; [exact Eb|]. split; [|split; [by rewrite E9, E10, E11|by split]].
  rewrite <- E8. constructor; [by apply fresh_rests|rewrite E6; apply boot_queue_repr|exact E7|]. rewrite Ebb. exists ct_bb_defaults. by split.
Qed.
