(* ===== verification/AppBridge.v ===== *)
(** The application on core 1 ([main.c]): what the engine's timer does every tick
    ([cfl_timer_wait] of [port/rp2040/cfl_timer_rp2040.c] with [cfl_embed_pre_tick]), which turns the
    commands from core 0 into events, and the hooks the knowledge bases call back ([kb0_on_ping] to
    [kbapp_on_op]), which answer them.

    What is offered to [g_up_q] and to the other ways out is a list; a full queue would drop it. The
    monitor's reports are one item there ([report_t]) and [report_frames] are its frames. The operate
    layer ([node_cmd_dispatch]) is a function over a state of its own; the origination of a bus echo
    is [BcArbiter.kbapp_on_echo_to]. What a tick reads from outside, commands, clocks and inputs, is
    given to it. *)
From S2P Require Import Prelude CflBase CflPerm NodeRole BcState CflHeap CflArena CflEventQueue CtTreeWalker CflEngine CflBlackboard CflNodeFns CflRuntime CflImage KbApp BcPool KbBoot BcRoster.
From stdpp Require Import gmap.
Import CflEngine.
#[local] Open Scope Z_scope.
#[local] Open Scope cfl_scope.

Definition CMD_MON_PING : Z := 0x0200.
Definition CMD_MON_SNAPSHOT : Z := 0x0201.
Definition CMD_MON_STREAM : Z := 0x0202.
Definition CMD_ADC_READ : Z := 0x0104.
Definition CMD_APP_IL_CLEAR : Z := 0x0302.
Definition CMD_APP_OP : Z := 0x0306.
Definition SHELL_BAD_ARGS : Z := 2.
Definition CMD_NOT_MINE : Z := 0xFF.
Definition KBAPP_VER : Z := 1.
Definition KB0_VER : Z := 1.
Definition APPCORE_PAY_MAX : Z := 96.
Definition ROUTE_BUS : Z := 1.
Definition SINK_USB : Z := 0.
Definition SINK_BUS : Z := 1.
Definition SINK_ENGINE : Z := 2.
Definition MON_VER : Z := 1.
Definition OP_MON_SYS : Z := 0x0030.
Definition OP_MON_TASKS : Z := 0x0031.
Definition OP_MON_MEM : Z := 0x0032.
Definition OP_MON_TICK : Z := 0x0034.
Definition OP_MON_KB : Z := 0x0035.
Definition OP_MON_END : Z := 0x003F.
Definition APP_REQ_SLOTS : Z := 4.
Definition APP_REQ_MAX : Z := 64.

Record app_req_t := mk_req { q_req_id : Z; q_addr : Z; q_route : Z; q_bus_src : Z; q_len : Z; q_bytes : list Z }.
Definition req0 : app_req_t := mk_req 0 0 0 0 0 [].
Record reply_sink_t := mk_sink { s_kind : Z; s_dest : Z; s_req_id : Z }.
(** What the monitor reports of the application: the batch number, the uptime, the crash record, the
    deadlines missed. *)
Record report_t := mk_report { rp_batch : Z; rp_up : Z; rp_boot : Z; rp_cause : Z; rp_panic : Z; rp_miss : Z; rp_over : Z }.
(** A frame put into [g_up_q], a report set, a request to clear the interlock, an echo handed to the
    bus thread. *)
Inductive app_out := UpSend (r : appcore_rep_t) | Reports (r : report_t) | IlClear | EchoTo (addr req_id : Z) (bytes : list Z).

(** The globals of core 1; [hw] is the operate layer's. *)
Record app_t (W : Type) := mk_app {
  g_app_req : list app_req_t; g_app_req_head : Z; g_pp_slave : Z;
  g_stream_on : Z; g_stream_period_ms : Z; g_stream_next_ms : Z; g_stream_batch : Z;
  boot_count : Z; last_cause : Z; panic_code : Z; last_second : Z; g_cfl_deadline_miss : Z; g_cfl_max_overrun_us : Z; hb_app : Z; hb_us : Z;
  g_adc_latest : list Z; g_adc_10hz : list (Z * Z * Z); g_gpio_raw : Z; g_gpio_deb : Z; g_pulse_count : list Z;
  clocks : list Z; outs : list app_out; hw : W
}.
Arguments mk_app {W}.
Arguments g_app_req {W}.
Arguments g_app_req_head {W}.
Arguments g_pp_slave {W}.
Arguments g_stream_on {W}.
Arguments g_stream_period_ms {W}.
Arguments g_stream_next_ms {W}.
Arguments g_stream_batch {W}.
Arguments boot_count {W}.
Arguments last_cause {W}.
Arguments panic_code {W}.
Arguments last_second {W}.
Arguments g_cfl_deadline_miss {W}.
Arguments g_cfl_max_overrun_us {W}.
Arguments hb_app {W}.
Arguments hb_us {W}.
Arguments g_adc_latest {W}.
Arguments g_adc_10hz {W}.
Arguments g_gpio_raw {W}.
Arguments g_gpio_deb {W}.
Arguments g_pulse_count {W}.
Arguments clocks {W}.
Arguments outs {W}.
Arguments hw {W}.
#[export] Instance eta_app {W} : Settable (app_t W) := fun a =>
  mk_app (g_app_req a) (g_app_req_head a) (g_pp_slave a) (g_stream_on a) (g_stream_period_ms a) (g_stream_next_ms a) (g_stream_batch a)
    (boot_count a) (last_cause a) (panic_code a) (last_second a) (g_cfl_deadline_miss a) (g_cfl_max_overrun_us a) (hb_app a) (hb_us a)
    (g_adc_latest a) (g_adc_10hz a) (g_gpio_raw a) (g_gpio_deb a) (g_pulse_count a) (clocks a) (outs a) (hw a).

(** The slots lie one behind the other from here. *)
Definition APP_REQ_BASE : Z := 0x20010000.
Definition sizeof_app_req : Z := 70.
Definition slot_ptr (i : Z) : Z := APP_REQ_BASE + i * sizeof_app_req.
Definition le2 (x : Z) : list Z := [u8 x; u8 (Z.shiftr x 8)].
Definition le4 (x : Z) : list Z := [u8 x; u8 (Z.shiftr x 8); u8 (Z.shiftr x 16); u8 (Z.shiftr x 24)].

(** ** The monitor's reports *)

(** What a report set says of the system: the stacks left of four tasks; FreeRTOS's heap, free, least
    free and in all; the permanent allocator and the engine's heap, used, and free; the events queued;
    each knowledge base's [active], its arena's used and free bytes. *)
Record mon_stats := mk_stats {
  ms_hwm : list Z; ms_rtos : Z * Z * Z; ms_perm_used : Z; ms_used : Z; ms_free : Z; ms_high : Z; ms_low : Z; ms_kbs : list (Z * Z * Z)
}.
Fixpoint kb_stats (sys : CflHeapArenaSystem) (kbs : list appkb_t) : cfl (list (Z * Z * Z)) :=
  match kbs with
  | [] => Ret []
  | k :: kbs =>
      au <- cfl_heap_arena_used_bytes (Some sys) (ak_arena_id k);;
      af <- cfl_heap_arena_free_bytes (Some sys) (ak_arena_id k);;
      l <- kb_stats sys kbs;; Ret ((ak_active k, au, af) :: l)
  end.
(** [hwm] and [rtos] are FreeRTOS's, [perm] is [g_perm]. *)
Definition engine_stats {A} (hwm : list Z) (rtos : Z * Z * Z) (perm : CflPerm) (kbs : list appkb_t) (h : cfl_handle (cfl_runtime A)) : cfl mon_stats :=
  let sys := arena_system (rest h) in
  high <- cfl_high_priority_count (Some (event_queue (rest h)));;
  low <- cfl_low_priority_count (Some (event_queue (rest h)));;
  l <- kb_stats sys kbs;;
  Ret (mk_stats hwm rtos (cfl_perm_used_bytes (Some perm)) (cfl_heap_used_bytes (Some (as_heap sys))) (cfl_heap_free_bytes (Some (as_heap sys))) high low l).
Definition mon_frame (op : Z) (body : list Z) : appcore_rep_t := mk_rep BUS_ADDR_APPCORE op (take (Z.to_nat APPCORE_PAY_MAX) body).
(** [f] of every item and its number. *)
Definition numbered {X} (f : Z -> X -> list Z) (l : list X) : list Z := concat (zip_with f (seqZ 0 (zlen l)) l).
Definition report_frames (s : mon_stats) (r : report_t) : list appcore_rep_t :=
  let total := 5 in
  let head seq := le2 (rp_batch r) ++ [seq; total; MON_VER] in
  [mon_frame OP_MON_SYS (head 0 ++ le4 (rp_up r) ++ le2 (rp_boot r) ++ [u8 (rp_cause r); 0xFF] ++ le4 (rp_panic r) ++ le4 0 ++ le4 0);
   mon_frame OP_MON_TASKS (head 1 ++ [4] ++ numbered (fun i w => [i] ++ le2 w ++ le2 0xFFFF) (ms_hwm s));
   mon_frame OP_MON_MEM (head 2 ++ le4 (ms_rtos s).1.1 ++ le4 (ms_rtos s).1.2 ++ le4 (ms_rtos s).2 ++ le4 (ms_perm_used s) ++ le4 g_perm_buf_size
     ++ le4 (ms_used s) ++ le4 (ms_used s + ms_free s));
   mon_frame OP_MON_TICK (head 3 ++ le2 1000 ++ le2 (rp_miss r) ++ le2 (rp_over r) ++ [u8 (ms_high s); 8; u8 (ms_low s); 64]);
   mon_frame OP_MON_KB (head 4 ++ [u8 (zlen (ms_kbs s))] ++
     numbered (fun k '(active, au, af) => [k; active; 0] ++ le2 au ++ le2 (au + af) ++ [0]) (ms_kbs s));
   mon_frame OP_MON_END (le2 (rp_batch r) ++ [total; 0; MON_VER])].

Section Bridge.
Context {W : Type}.
(** Opcode, arguments and sink: the status and the result. *)
Context (node_cmd_dispatch : Z -> list Z -> reply_sink_t -> W -> (Z * list Z) * W).
#[local] Abbreviation app := (app_t W).
#[local] Abbreviation handle := (cfl_handle (cfl_runtime app)).

Definition app_of (h : handle) : app := user_handle (rest h).
Definition set_app (f : app -> app) (h : handle) : handle := set_rest (fun x => x <| user_handle ::= f |>) h.
Definition event_of (h : handle) : CFL_EVENT_DATA_T := default event0 (event_data_ptr h).
Definition emit (o : app_out) (a : app) : app := a <| outs ::= fun l => l ++ [o] |>.
(** A clock is read. *)
Definition tick_clock (a : app) : Z * app := match clocks a with [] => (0, a) | t :: l => (t, a <| clocks := l |>) end.

(** ** Replies *)

Definition mon_push (op : Z) (body : list Z) : app -> app :=
  emit (UpSend (mk_rep BUS_ADDR_APPCORE op (take (Z.to_nat APPCORE_PAY_MAX) body))).
Definition kbapp_reply (q : app_req_t) (body : list Z) : app -> app :=
  emit (UpSend (mk_rep (if q_route q =? ROUTE_BUS then q_bus_src q else BUS_ADDR_APPCORE) OP_SHELL_REPLY (take (Z.to_nat APPCORE_PAY_MAX) body))).
Definition reply_sink_send (s : reply_sink_t) (status : Z) (res : list Z) (a : app) : app :=
  if s_kind s =? SINK_ENGINE then a
  else emit (UpSend (mk_rep (if s_kind s =? SINK_BUS then s_dest s else BUS_ADDR_APPCORE) OP_SHELL_REPLY
         (take (Z.to_nat APPCORE_PAY_MAX) (le2 (s_req_id s) ++ [status] ++ res)))) a.
Definition sink_of (route bus_src req_id : Z) : reply_sink_t :=
  mk_sink (if route =? ROUTE_BUS then SINK_BUS else SINK_USB) bus_src req_id.

(** ** The hooks, as they change the application's state *)

Definition kb0_push_ping_reply (req_id : Z) (a : app) : app :=
  let '(up, a) := tick_clock a in
  emit (UpSend (mk_rep BUS_ADDR_APPCORE OP_SHELL_REPLY (le2 req_id ++ [SHELL_OK] ++ le4 up ++ le2 (u16 (boot_count a)) ++ [KB0_VER]))) a.
Definition kb0_on_ping (e : CFL_EVENT_DATA_T) : app -> app := kb0_push_ping_reply (u16 (ev_data e)).
Definition kb0_on_cmd_timeout (a : app) : app := a.
(** The frames are [report_frames]; what was lost is forgotten. *)
Definition kb0_emit_reports (batch : Z) (a : app) : app :=
  let '(up, a) := tick_clock a in
  emit (Reports (mk_report batch up (boot_count a) (last_cause a) (panic_code a) (g_cfl_deadline_miss a) (g_cfl_max_overrun_us a))) a
    <| g_cfl_deadline_miss := 0 |> <| g_cfl_max_overrun_us := 0 |>.
Definition snapshot (req_id : Z) (a : app) : app := kb0_emit_reports req_id (mon_push OP_SHELL_REPLY (le2 req_id ++ [SHELL_OK]) a).
Definition kb0_on_snapshot (e : CFL_EVENT_DATA_T) : app -> app := snapshot (u16 (ev_data e)).
Definition adc_reply (req_id : Z) (a : app) : app :=
  emit (UpSend (mk_rep BUS_ADDR_APPCORE OP_SHELL_REPLY
    (le2 req_id ++ [SHELL_OK] ++ concat (map (fun ch => le2 (zget 0 (g_adc_latest a) ch)) (seqZ 0 ADC_NCH))))) a.
Definition kb1_on_adc (e : CFL_EVENT_DATA_T) : app -> app := adc_reply (u16 (ev_data e)).
(** The slot an event points to; nothing is done for NULL. *)
Definition with_slot (f : app_req_t -> app -> app) (e : CFL_EVENT_DATA_T) (a : app) : app :=
  if ev_data e =? 0 then a else f (zget req0 (g_app_req a) ((ev_data e - APP_REQ_BASE) / sizeof_app_req)) a.
Definition echo (q : app_req_t) (a : app) : app :=
  let to_bus := q_route q =? ROUTE_BUS in
  let p := le2 (q_req_id q) ++ [SHELL_OK] ++ (if to_bus then [] else [KBAPP_VER]) in
  let cap := if to_bus then APPCORE_PAY_MAX - 4 else APPCORE_PAY_MAX in
  let m := if u8 (cap - zlen p) <? q_len q then cap - zlen p else q_len q in
  let p := p ++ take (Z.to_nat m) (q_bytes q) in
  if to_bus then
    let c := u32 (g_pp_slave a + 1) in kbapp_reply q (p ++ le4 c) (a <| g_pp_slave := c |>)
  else kbapp_reply q p a.
Definition kbapp_on_echo : CFL_EVENT_DATA_T -> app -> app := with_slot echo.
Definition il_clear (q : app_req_t) (a : app) : app := kbapp_reply q (le2 (q_req_id q) ++ [SHELL_OK; 1]) (emit IlClear a).
Definition kbapp_on_il_clear : CFL_EVENT_DATA_T -> app -> app := with_slot il_clear.
Definition issue_op (q : app_req_t) (a : app) : app :=
  let sink := sink_of (q_route q) (q_bus_src q) (q_req_id q) in
  if q_len q <? 2 then reply_sink_send sink SHELL_BAD_ARGS [] a
  else
    let op := le16 (zget 0 (q_bytes q) 0) (zget 0 (q_bytes q) 1) in
    let '((st, out), w) := node_cmd_dispatch op (take (Z.to_nat (q_len q - 2)) (drop 2 (q_bytes q))) sink (hw a) in
    let a := a <| hw := w |> in
    if st =? SHELL_ASYNC then a
    else reply_sink_send sink (if st =? CMD_NOT_MINE then SHELL_UNKNOWN_CMD else st) out a.
Definition kbapp_on_op : CFL_EVENT_DATA_T -> app -> app := with_slot issue_op.
Definition echo_to (q : app_req_t) : app -> app := emit (EchoTo (q_addr q) (q_req_id q) (take (Z.to_nat (q_len q)) (q_bytes q))).
Definition kbapp_on_echo_to : CFL_EVENT_DATA_T -> app -> app := with_slot echo_to.

Definition on_event (f : CFL_EVENT_DATA_T -> app -> app) (h : handle) (_ : Z) : app := f (event_of h) (app_of h).
Definition firmware_hooks : app_hooks app :=
  mk_hooks app (on_event kb0_on_ping) (on_event kb0_on_snapshot) (on_event (fun _ => kb0_on_cmd_timeout)) (on_event kb1_on_adc)
    (on_event kbapp_on_echo) (on_event kbapp_on_echo_to) (on_event kbapp_on_il_clear) (on_event kbapp_on_op).

(** ** The commands of core 0 *)

(** What a slot is filled with: the arguments from [from] on. *)
Definition request (c : appcore_cmd_t) (addr : Z) (from : nat) (old : list Z) : app_req_t :=
  let len := u8 (a_alen c - Z.of_nat from) in
  let m := if APP_REQ_MAX <? len then APP_REQ_MAX else len in
  let bytes := take (Z.to_nat m) (drop from (a_args c)) in
  mk_req (a_req_id c) addr (a_route c) (a_bus_src c) m (bytes ++ drop (length bytes) old).
Definition command_request (c : appcore_cmd_t) (old : list Z) : app_req_t :=
  if a_cmd c =? CMD_APP_ECHO_TO then
    if 1 <=? a_alen c then request c (zget 0 (a_args c) 0) 1 old
    else mk_req (a_req_id c) 0 (a_route c) (a_bus_src c) 0 old
  else if a_cmd c =? CMD_APP_IL_CLEAR then mk_req (a_req_id c) 0 (a_route c) (a_bus_src c) 0 old
  else request c 0 0 old.
(** The next slot of the ring is filled; its pointer. *)
Definition take_slot (c : appcore_cmd_t) (a : app) : Z * app :=
  let i := g_app_req_head a in
  (slot_ptr i, a <| g_app_req ::= fun l => zset l i (command_request c (q_bytes (zget req0 l i))) |>
                 <| g_app_req_head := u8 ((i + 1) mod APP_REQ_SLOTS) |>).
Definition send_int (node eid value : Z) (h : handle) : cfl handle :=
  q <- cfl_send_integer_event (Some (event_queue (rest h))) CFL_EVENT_PRIORITY_HIGH node eid value;; Ret (set_queue q h).
Definition send_slot (node eid : Z) (c : appcore_cmd_t) (h : handle) : cfl handle :=
  let '(ptr, a) := take_slot c (app_of h) in
  q <- cfl_send_data_event (Some (event_queue (rest h))) CFL_EVENT_PRIORITY_LOW node eid false ptr;; Ret (set_queue q (set_app (fun _ => a) h)).
(** [CMD_MON_STREAM] and the commands of the operate layer are answered at once. *)
Definition mon_stream (c : appcore_cmd_t) (a : app) : app :=
  let a :=
    if 3 <=? a_alen c then
      let period := le16 (zget 0 (a_args c) 1) (zget 0 (a_args c) 2) in
      let period := if period <? 50 then 50 else period in
      let '(now, a) := tick_clock a in
      a <| g_stream_on := zget 0 (a_args c) 0 |> <| g_stream_period_ms := period |> <| g_stream_next_ms := u32 (now + period) |>
    else a in
  emit (UpSend (mk_rep BUS_ADDR_APPCORE OP_SHELL_REPLY (le2 (a_req_id c) ++ [SHELL_OK]))) a.
Definition operate (c : appcore_cmd_t) (a : app) : app :=
  let sink := sink_of (a_route c) (a_bus_src c) (a_req_id c) in
  let '((st, out), w) := node_cmd_dispatch (a_cmd c) (take (Z.to_nat (a_alen c)) (a_args c)) sink (hw a) in
  let a := a <| hw := w |> in
  if st =? SHELL_ASYNC then a
  else if negb (st =? CMD_NOT_MINE) then reply_sink_send sink st out a
  else reply_sink_send sink SHELL_UNKNOWN_CMD [] a.
Definition down_command (g : bringup_t) (c : appcore_cmd_t) (h : handle) : cfl handle :=
  if a_cmd c =? CMD_MON_PING then send_int (g_kb0_node g) EVENT_CMD_MON_PING (a_req_id c) h
  else if a_cmd c =? CMD_MON_SNAPSHOT then send_int (g_kb0_node g) EVENT_CMD_MON_SNAPSHOT (a_req_id c) h
  else if a_cmd c =? CMD_ADC_READ then send_int (g_kb1_node g) EVENT_CMD_ADC_READ (a_req_id c) h
  else if a_cmd c =? CMD_APP_ECHO then send_slot (g_kbapp_node g) EVENT_CMD_APP_ECHO c h
  else if a_cmd c =? CMD_APP_ECHO_TO then send_slot (g_kbapp_node g) EVENT_CMD_APP_ECHO_TO c h
  else if a_cmd c =? CMD_APP_IL_CLEAR then send_slot (g_kbapp_node g) EVENT_CMD_APP_IL_CLEAR c h
  else if a_cmd c =? CMD_APP_OP then send_slot (g_kbapp_node g) EVENT_CMD_APP_OP c h
  else if a_cmd c =? CMD_MON_STREAM then Ret (set_app (mon_stream c) h)
  else Ret (set_app (operate c) h).

(** ** Publishing *)

(** A store through a slot that was bound. *)
Definition poke (slot : option Z) (value : Z) (h : handle) : cfl handle :=
  match slot with
  | None => Ret h
  | Some off =>
      m <- store (bytes_of (shared_bb (rest h))) 4 off value;;
      Ret (set_rest (fun x => x <| shared_bb ::= fun b => mk_bb (Some m) (bb_desc b) |>) h)
  end.
Fixpoint pokes (l : list (option Z * Z)) (h : handle) : cfl handle :=
  match l with [] => Ret h | (slot, value) :: l => h <- poke slot value h;; pokes l h end.
(** [g_bb] holds the slots in the order mean, max, rms of each channel, raw, debounced, the counters. *)
Definition adc_publish_10hz (g : bringup_t) (h : handle) : cfl handle :=
  pokes (concat (map (fun ch => let '(avg, mx, rms) := zget (0, 0, 0) (g_adc_10hz (app_of h)) ch in
    [(zget None (g_bb g) (3 * ch), avg); (zget None (g_bb g) (3 * ch + 1), mx); (zget None (g_bb g) (3 * ch + 2), rms)]) (seqZ 0 ADC_NCH))) h.
Definition bench_publish (g : bringup_t) (h : handle) : cfl handle :=
  let a := app_of h in
  pokes ((zget None (g_bb g) 9, g_gpio_raw a) :: (zget None (g_bb g) 10, g_gpio_deb a) ::
    map (fun i => (zget None (g_bb g) (11 + i), zget 0 (g_pulse_count a) i)) (seqZ 0 HIL_GPIO_COUNT)) h.
Definition stream_pacing (host_connected : bool) (a : app) : app :=
  if nz (g_stream_on a) && host_connected then
    let '(now, a) := tick_clock a in
    if 0 <=? s32 (now - g_stream_next_ms a) then
      kb0_emit_reports (g_stream_batch a) a <| g_stream_batch ::= fun n => u16 (n + 1) |> <| g_stream_next_ms := u32 (now + g_stream_period_ms a) |>
    else a
  else a.
Fixpoint down_commands (g : bringup_t) (cmds : list appcore_cmd_t) (h : handle) : cfl handle :=
  match cmds with [] => Ret h | c :: cmds => h <- down_command g c h;; down_commands g cmds h end.
Definition heartbeat (a : app) : app := let '(t, a) := tick_clock a in a <| hb_app ::= fun n => u32 (n + 1) |> <| hb_us := t |>.
(** [cmds]: what [xQueueReceive] gives before it is empty. *)
Definition cfl_embed_pre_tick (g : bringup_t) (host_connected : bool) (cmds : list appcore_cmd_t) (h : handle) : cfl handle :=
  let h := set_app heartbeat h in
  h <- down_commands g cmds h;;
  h <- adc_publish_10hz g h;;
  h <- bench_publish g h;;
  Ret (set_app (stream_pacing host_connected) h).

(** ** The timer *)

(** What a wait finds: the commands, the second, the microseconds it came late if it did, the inputs
    and the clocks read in the tick. *)
Record tick_in := mk_tick {
  ti_cmds : list appcore_cmd_t; ti_second : Z; ti_late : option Z; ti_connected : bool; ti_clocks : list Z;
  ti_adc : list Z; ti_10hz : list (Z * Z * Z); ti_gpio : Z * Z; ti_counts : list Z
}.
(** The inputs of the interrupts and the clocks, as the tick finds them. *)
Definition sample (i : tick_in) (a : app) : app :=
  a <| clocks := ti_clocks i |> <| g_adc_latest := ti_adc i |> <| g_adc_10hz := ti_10hz i |>
    <| g_gpio_raw := (ti_gpio i).1 |> <| g_gpio_deb := (ti_gpio i).2 |> <| g_pulse_count := ti_counts i |>.
Definition late (i : tick_in) (a : app) : app :=
  match ti_late i with
  | None => a
  | Some over =>
      a <| g_cfl_deadline_miss ::= fun n => u32 (n + 1) |> <| g_cfl_max_overrun_us ::= fun n => if n <? over then over else n |>
  end.
(** The mask of what changed. *)
Definition cfl_timer_wait (g : bringup_t) (i : tick_in) (h : handle) : cfl (Z * handle) :=
  h <- cfl_embed_pre_tick g (ti_connected i) (ti_cmds i) (set_app (fun a => sample i (late i a)) h);;
  let a := app_of h in
  if negb (ti_second i =? last_second a) then Ret (CFL_CHANGED_SECOND, set_app (fun a => a <| last_second := ti_second i |>) h)
  else Ret (0, h).
End Bridge.
