(* ===== verification/KbTick.v ===== *)
(** A tick of the application core, from the commands that came to their replies: the commands become
    events ([AppBridge.cfl_timer_wait]), the run loop serves them ([KbRun.cycle_is_served]), the hooks
    answer. [tick_of] says what that comes to: the commands are carried out one after the other, those
    of the operate layer at once, then those of high, then those of low priority. *)
From S2P Require Import Prelude CflBase CflPerm NodeRole BcState CflHeap CflArena CflEventQueue CtTreeWalker CflEngine CflTerminate CflExecute JsonDecoder CflBlackboard CflNodeFns CflRuntime CflImage CflStore KbApp KbServe KbNodes KbEvent KbRun BcPool KbBoot BcRoster AppBridge.
From stdpp Require Import gmap.
Import CflEngine.
#[local] Open Scope Z_scope.
#[local] Open Scope cfl_scope.

(** ** Specification *)

Definition is_high (c : appcore_cmd_t) : bool := (a_cmd c =? CMD_MON_PING) || (a_cmd c =? CMD_MON_SNAPSHOT) || (a_cmd c =? CMD_ADC_READ).
Definition is_low (c : appcore_cmd_t) : bool :=
  (a_cmd c =? CMD_APP_ECHO) || (a_cmd c =? CMD_APP_ECHO_TO) || (a_cmd c =? CMD_APP_IL_CLEAR) || (a_cmd c =? CMD_APP_OP).
Definition is_now (c : appcore_cmd_t) : bool := negb (is_high c) && negb (is_low c).
Definition highs (cmds : list appcore_cmd_t) : list appcore_cmd_t := List.filter is_high cmds.
Definition lows (cmds : list appcore_cmd_t) : list appcore_cmd_t := List.filter is_low cmds.
Definition nows (cmds : list appcore_cmd_t) : list appcore_cmd_t := List.filter is_now cmds.
(** A command as the queue holds it: its arguments are an array of 64 bytes. *)
Record cmd_ok (c : appcore_cmd_t) : Prop := {
  ck_id : fits 16 (a_req_id c);
  ck_len : 0 <= a_alen c <= 64;
  ck_args : zlen (a_args c) = 64
}.

(** The events of the commands, on the queue [id]; one of low priority with its slot. *)
Definition high_event (id : Z) (c : appcore_cmd_t) : CFL_EVENT_DATA_T :=
  if a_cmd c =? CMD_MON_PING then mk_event 0 CFL_EVENT_TYPE_INT 0 EVENT_CMD_MON_PING id (u32 (a_req_id c))
  else if a_cmd c =? CMD_MON_SNAPSHOT then mk_event 0 CFL_EVENT_TYPE_INT 0 EVENT_CMD_MON_SNAPSHOT id (u32 (a_req_id c))
  else mk_event 9 CFL_EVENT_TYPE_INT 0 EVENT_CMD_ADC_READ id (u32 (a_req_id c)).
Definition low_id (c : appcore_cmd_t) : Z :=
  if a_cmd c =? CMD_APP_ECHO then EVENT_CMD_APP_ECHO
  else if a_cmd c =? CMD_APP_ECHO_TO then EVENT_CMD_APP_ECHO_TO
  else if a_cmd c =? CMD_APP_IL_CLEAR then EVENT_CMD_APP_IL_CLEAR else EVENT_CMD_APP_OP.
Definition low_event (id : Z) (p : Z * appcore_cmd_t) : CFL_EVENT_DATA_T :=
  mk_event 14 CFL_EVENT_TYPE_PTR 0 (low_id p.2) id (slot_ptr p.1).

(** The roots and events of the commands. *)
Definition command_events : list (Z * Z) :=
  [(0, EVENT_CMD_MON_PING); (0, EVENT_CMD_MON_SNAPSHOT); (9, EVENT_CMD_ADC_READ);
   (14, EVENT_CMD_APP_ECHO); (14, EVENT_CMD_APP_ECHO_TO); (14, EVENT_CMD_APP_IL_CLEAR); (14, EVENT_CMD_APP_OP)].

Section Spec.
Context {W : Type} (node_cmd_dispatch : Z -> list Z -> reply_sink_t -> W -> (Z * list Z) * W).
#[local] Abbreviation app := (app_t W).

(** What a command does, done at once. *)
Definition do_high (c : appcore_cmd_t) : app -> app :=
  if a_cmd c =? CMD_MON_PING then kb0_push_ping_reply (a_req_id c)
  else if a_cmd c =? CMD_MON_SNAPSHOT then snapshot (a_req_id c)
  else adc_reply (a_req_id c).
Definition on_request (c : appcore_cmd_t) : app_req_t -> app -> app :=
  if a_cmd c =? CMD_APP_ECHO then echo
  else if a_cmd c =? CMD_APP_ECHO_TO then echo_to
  else if a_cmd c =? CMD_APP_IL_CLEAR then il_clear else issue_op node_cmd_dispatch.
Definition do_low (c : appcore_cmd_t) : app -> app := on_request c (command_request c []).
Definition do_now (c : appcore_cmd_t) : app -> app := if a_cmd c =? CMD_MON_STREAM then mon_stream c else operate node_cmd_dispatch c.
Definition all_of (f : appcore_cmd_t -> app -> app) (cmds : list appcore_cmd_t) (a : app) : app := foldl (fun a c => f c a) a cmds.
(** Before the events are served, and the whole tick. *)
Definition before_serving (i : tick_in) (a : app) : app :=
  let a := all_of do_now (nows (ti_cmds i)) (heartbeat (sample i (late i a))) in
  stream_pacing (ti_connected i) a <| last_second := ti_second i |>.
Definition tick_of (i : tick_in) (a : app) : app :=
  all_of do_low (lows (ti_cmds i)) (all_of do_high (highs (ti_cmds i)) (before_serving i a)).
(** The slots are scratch space. *)
Definition forget (a : app) : app := a <| g_app_req := [] |> <| g_app_req_head := 0 |>.
(** [f] neither reads nor changes them. *)
Definition plain (f : app -> app) : Prop :=
  forall a, forget (f a) = f (forget a) /\ g_app_req (f a) = g_app_req a /\ g_app_req_head (f a) = g_app_req_head a.

(** What the hook of an event does. *)
Definition hook_for (eid : Z) : CFL_EVENT_DATA_T -> app -> app :=
  match eid with
  | 20 => AppBridge.kb0_on_ping | 21 => AppBridge.kb0_on_snapshot | 22 => AppBridge.kb1_on_adc
  | 23 => AppBridge.kbapp_on_echo | 24 => AppBridge.kbapp_on_echo_to | 25 => AppBridge.kbapp_on_il_clear
  | _ => AppBridge.kbapp_on_op node_cmd_dispatch
  end.
(** The slots lie there, and the next is one of them. *)
Definition slots_ok (a : app) : Prop := zlen (g_app_req a) = APP_REQ_SLOTS /\ 0 <= g_app_req_head a < APP_REQ_SLOTS.
(** The [n] slots before [head]. *)
Definition slots_before (head n : Z) : list Z := map (fun j => (head - n + j) mod APP_REQ_SLOTS) (seqZ 0 n).
Definition slot_holds (a : app) (p : Z * appcore_cmd_t) : Prop :=
  0 <= p.1 < APP_REQ_SLOTS /\ exists old, zget req0 (g_app_req a) p.1 = command_request p.2 old.
(** The slots last taken hold the requests of the commands. *)
Record pending (a : app) (pend : list (Z * appcore_cmd_t)) : Prop := {
  pd_slots : slots_ok a;
  pd_taken : map fst pend = slots_before (g_app_req_head a) (zlen pend);
  pd_hold : Forall (slot_holds a) pend
}.
End Spec.
(** What [engine_runtime_bringup] leaves. *)
Definition bound (g : bringup_t) : Prop :=
  (g_kb0_node g, g_kb1_node g, g_kbapp_node g) = (0, 9, 14) /\ g_bb g = map (fun i => Some (4 * i)) (seqZ 0 19).

(** ** Lemmas *)

(** *** The slots *)

Lemma slots_before_snoc head n : 0 <= n -> 0 <= head < APP_REQ_SLOTS ->
  slots_before (u8 ((head + 1) mod APP_REQ_SLOTS)) (n + 1) = slots_before head n ++ [head].
Proof.
  unfold APP_REQ_SLOTS. intros Hn Hh. unfold slots_before. rewrite (u8_id ((head + 1) mod 4)) by (unfold fits; pose proof (Z.mod_pos_bound (head + 1) 4); lia).
  rewrite (seqZ_app 0 n 1) by lia. rewrite map_app. f_equal.
  - apply map_ext. intros j. unfold APP_REQ_SLOTS. Z.to_euclidean_division_equations. lia.
  - rewrite seqZ_cons by lia. change (seqZ (Z.succ (0 + n)) (Z.pred 1)) with (@nil Z). cbn [map]. f_equal. unfold APP_REQ_SLOTS. Z.to_euclidean_division_equations. lia.
Qed.
Lemma slots_before_free head n : 0 <= n < APP_REQ_SLOTS -> 0 <= head < APP_REQ_SLOTS -> head ∉ slots_before head n.
Proof.
  unfold APP_REQ_SLOTS, slots_before. intros Hn Hh Hin. apply elem_map_inv in Hin as (j & E & Hj). apply elem_of_seqZ in Hj.
  unfold APP_REQ_SLOTS in E. Z.to_euclidean_division_equations. lia.
Qed.
Lemma slot_index i : 0 <= i -> (slot_ptr i =? 0) = false /\ (slot_ptr i - APP_REQ_BASE) / sizeof_app_req = i.
Proof. unfold slot_ptr, APP_REQ_BASE, sizeof_app_req. intros Hi. split; [apply Z.eqb_neq; lia|]. Z.to_euclidean_division_equations. lia. Qed.
(** What is left in a slot behind a request does not matter. *)
Lemma request_bytes c old : cmd_ok c -> let q := command_request c old in let q0 := command_request c [] in
  q_req_id q = q_req_id q0 /\ q_addr q = q_addr q0 /\ q_route q = q_route q0 /\ q_bus_src q = q_bus_src q0 /\ q_len q = q_len q0 /\
  exists rest, q_bytes q = q_bytes q0 ++ rest /\ zlen (q_bytes q0) = q_len q0.
Proof.
  intros [_ Hl Ha]. assert (forall addr from, Z.of_nat from <= a_alen c -> let q := request c addr from old in let q0 := request c addr from [] in
    q_req_id q = q_req_id q0 /\ q_addr q = q_addr q0 /\ q_route q = q_route q0 /\ q_bus_src q = q_bus_src q0 /\ q_len q = q_len q0 /\
    exists rest, q_bytes q = q_bytes q0 ++ rest /\ zlen (q_bytes q0) = q_len q0) as Hreq.
  { intros addr from Hfrom. cbn zeta. unfold request. cbn [q_req_id q_addr q_route q_bus_src q_len q_bytes]. split_and!; try done.
    set (b := take _ (drop from (a_args c))). exists (drop (length b) old). rewrite drop_nil, app_nil_r. split; [done|]. subst b. rewrite u8_id by (unfold fits; lia). unfold APP_REQ_MAX, zlen in *.
    rewrite length_take, length_drop. destruct (64 <? _) eqn:E; apply Z.ltb_lt in E || apply Z.ltb_ge in E; lia. }
  cbn zeta. unfold command_request. destruct (a_cmd c =? CMD_APP_ECHO_TO); [destruct (Z.leb_spec 1 (a_alen c))|destruct (a_cmd c =? CMD_APP_IL_CLEAR)].
  - apply Hreq. lia.
  - split_and!; try done. by exists old.
  - split_and!; try done. by exists old.
  - apply Hreq. lia.
Qed.
Lemma take_front (l rest : list Z) n : n <= zlen l -> take (Z.to_nat n) (l ++ rest) = take (Z.to_nat n) l.
Proof. intros Hn. apply take_app_le. unfold zlen in Hn. lia. Qed.
Lemma zget_front (l rest : list Z) i : 0 <= i < zlen l -> zget 0 (l ++ rest) i = zget 0 l i.
Proof.
  intros Hi. unfold zlen in Hi. destruct (lookup_lt_is_Some_2 l (Z.to_nat i)) as [x E]; [lia|].
  by rewrite (zget_lookup 0 x l i ltac:(lia) E), (zget_lookup 0 x _ i ltac:(lia) (lookup_app_l_Some _ _ _ _ E)).
Qed.

Section Requests.
Context {W : Type} (node_cmd_dispatch : Z -> list Z -> reply_sink_t -> W -> (Z * list Z) * W).

Lemma on_request_bytes c old (a : app_t W) : cmd_ok c -> on_request node_cmd_dispatch c (command_request c old) a = do_low node_cmd_dispatch c a.
Proof.
  intros Hc. unfold do_low, on_request. destruct (request_bytes c old Hc) as (E1 & E2 & E3 & E4 & E5 & rest & E6 & E7).
  pose proof (zlen_nonneg (q_bytes (command_request c []))) as Hn.
  assert (forall body (b : app_t W), kbapp_reply (command_request c old) body b = kbapp_reply (command_request c []) body b) as Er
    by (intros body b; unfold kbapp_reply; by rewrite E3, E4).
  destruct (a_cmd c =? CMD_APP_ECHO); [|destruct (a_cmd c =? CMD_APP_ECHO_TO); [|destruct (a_cmd c =? CMD_APP_IL_CLEAR)]].
  - unfold echo. rewrite !Er, E1, E3, E5, E6. cbn zeta. rewrite take_front; [done|]. rewrite E7.
    set (cap := _ - _). destruct (Z.ltb_spec (u8 cap) (q_len (command_request c []))) as [Hlt|]; [|lia]. revert Hlt. subst cap.
    destruct (q_route _ =? ROUTE_BUS); intros Hlt; vm_compute (u8 _) in Hlt; unfold APPCORE_PAY_MAX, zlen; cbn [length app le2]; lia.
  - unfold echo_to. rewrite E1, E2, E5, E6, take_front; [done|]. by rewrite E7.
  - unfold il_clear. by rewrite Er, E1.
  - unfold issue_op. rewrite E1, E3, E4, E5, E6. destruct (Z.ltb_spec (q_len (command_request c [])) 2); [done|].
    rewrite !zget_front by lia. rewrite drop_app_le by (unfold zlen in E7; lia). rewrite take_front; [done|].
    unfold zlen in *. rewrite length_drop. lia.
Qed.

(** *** What is done leaves the slots alone *)

#[local] Abbreviation app := (app_t W).
#[local] Abbreviation do_now := (do_now node_cmd_dispatch).
#[local] Abbreviation do_low := (do_low node_cmd_dispatch).

Lemma plain_comp (f g : app -> app) : plain f -> plain g -> plain (fun a => g (f a)).
Proof. intros Hf Hg a. destruct (Hf a) as (E1 & E2 & E3), (Hg (f a)) as (F1 & F2 & F3). split_and!; congruence. Qed.
Lemma plain_all (f : appcore_cmd_t -> app -> app) cmds : (forall c, plain (f c)) -> plain (all_of f cmds).
Proof. intros Hf. induction cmds as [|c cmds IH]; [by intros a|]. exact (plain_comp (f c) (all_of f cmds) (Hf c) IH). Qed.
Lemma plain_emit o : plain (emit (W := W) o).
Proof. by intros []. Qed.
Lemma plain_clock (f : Z -> app -> app) : (forall t, plain (f t)) -> plain (fun a => let '(t, a) := tick_clock a in f t a).
Proof.
  intros Hf a. unfold tick_clock. change (clocks (forget a)) with (clocks a). destruct (clocks a) as [|t l]; [apply Hf|].
  destruct (Hf t (a <| clocks := l |>)) as (E1 & E2 & E3). split_and!; done.
Qed.
Lemma plain_send s st out : plain (reply_sink_send (W := W) s st out).
Proof. intros a. unfold reply_sink_send. destruct (s_kind s =? SINK_ENGINE); [done|]. apply plain_emit. Qed.
Lemma plain_reply q body : plain (kbapp_reply (W := W) q body).
Proof. apply plain_emit. Qed.
Lemma plain_reports batch : plain (kb0_emit_reports (W := W) batch).
Proof. apply plain_clock. by intros t []. Qed.
Lemma plain_high c : plain (do_high (W := W) c).
Proof.
  unfold do_high. destruct (a_cmd c =? CMD_MON_PING); [|destruct (a_cmd c =? CMD_MON_SNAPSHOT)].
  - apply plain_clock. by intros t [].
  - apply (plain_comp (mon_push _ _)); [apply plain_emit|apply plain_reports].
  - by intros [].
Qed.
Lemma plain_echo q : plain (echo (W := W) q).
Proof. intros a. unfold echo. cbn zeta. destruct (q_route q =? ROUTE_BUS); [|apply plain_reply]. by destruct a. Qed.
Lemma plain_il_clear q : plain (il_clear (W := W) q).
Proof. apply (plain_comp (emit IlClear)); [apply plain_emit|apply plain_reply]. Qed.
(** A call of the operate layer. *)
Lemma plain_dispatch op args sink (k : Z -> list Z -> app -> app) : (forall st out, plain (k st out)) ->
  plain (fun a => let '((st, out), w) := node_cmd_dispatch op args sink (hw a) in k st out (a <| hw := w |>)).
Proof.
  intros Hk a. change (hw (forget a)) with (hw a). destruct (node_cmd_dispatch op args sink (hw a)) as [[st out] w].
  destruct (Hk st out (a <| hw := w |>)) as (E1 & E2 & E3). by split_and!.
Qed.
Lemma plain_low c : plain (do_low c).
Proof.
  unfold KbTick.do_low, on_request. destruct (a_cmd c =? CMD_APP_ECHO); [apply plain_echo|]. destruct (a_cmd c =? CMD_APP_ECHO_TO); [apply plain_emit|].
  destruct (a_cmd c =? CMD_APP_IL_CLEAR); [apply plain_il_clear|]. intros a. unfold issue_op. cbn zeta.
  destruct (_ <? 2); [apply plain_send|]. refine (plain_dispatch _ _ _ (fun st out a => if st =? SHELL_ASYNC then a else reply_sink_send _ _ out a) _ a).
  intros st out b. destruct (st =? SHELL_ASYNC); [done|apply plain_send].
Qed.
Lemma plain_now c : plain (do_now c).
Proof.
  unfold KbTick.do_now. destruct (a_cmd c =? CMD_MON_STREAM).
  - unfold mon_stream. destruct (3 <=? a_alen c); [|apply plain_emit].
    eapply plain_comp; [|apply plain_emit]. apply plain_clock. by intros t [].
  - refine (plain_dispatch _ _ _ (fun st out a => if st =? SHELL_ASYNC then a else if negb (st =? CMD_NOT_MINE) then reply_sink_send _ st out a else reply_sink_send _ _ [] a) _).
    intros st out a. destruct (st =? SHELL_ASYNC); [done|]. destruct (negb _); apply plain_send.
Qed.
Lemma plain_pacing b : plain (stream_pacing (W := W) b).
Proof.
  intros a. unfold stream_pacing. change (g_stream_on (forget a)) with (g_stream_on a). destruct (nz _ && b); [|done].
  refine (plain_clock (fun t a => if 0 <=? s32 (t - g_stream_next_ms a) then _ else a) _ a). clear a. intros t a.
  change (g_stream_next_ms (forget a)) with (g_stream_next_ms a). destruct (0 <=? _); [|done].
  change (g_stream_batch (forget a)) with (g_stream_batch a). change (g_stream_period_ms (forget a)) with (g_stream_period_ms a).
  destruct (plain_reports (g_stream_batch a) a) as (E1 & E2 & E3). cbn beta.
  split_and!; [|done|done]. rewrite <- E1. by destruct (kb0_emit_reports (g_stream_batch a) a).
Qed.
End Requests.
