(* ===== verification/KbSystem.v ===== *)
(** The application core as a whole: bringing up, waiting, serving. What the application sees of the
    engine, its events, its columns and its slots, is that every command is carried out. *)
From S2P Require Import Prelude CflBase CflPerm NodeRole BcState CflHeap CflArena CflEventQueue CtTreeWalker CflEngine CflTerminate CflExecute JsonDecoder CflBlackboard CflNodeFns CflRuntime CflImage CflStore KbApp KbServe KbNodes KbEvent KbRun BcPool KbBoot BcRoster AppBridge KbTick.
From stdpp Require Import gmap.
Import CflEngine.
#[local] Open Scope Z_scope.
#[local] Open Scope cfl_scope.

(** What a tick may find: commands as the queue holds them, [nh] of high and [nl] of low priority at
    most. *)
Record tick_ok (nh nl : Z) (i : tick_in) : Prop := {
  tk_cmds : Forall cmd_ok (ti_cmds i);
  tk_high : zlen (highs (ti_cmds i)) <= nh;
  tk_low : zlen (lows (ti_cmds i)) <= nl
}.

(** An operate layer that knows no command, an application at rest, a command from the host, a tick. *)
Definition ex_dispatch (_ : Z) (_ : list Z) (_ : reply_sink_t) (w : unit) : (Z * list Z) * unit := (CMD_NOT_MINE, [], w).
Definition ex_user : app_t unit := mk_app (replicate 4 req0) 0 0 0 1000 0 0 3 0 0 (-1) 0 0 0 0 [] [] 0 0 [] [] [] tt.
Definition ex_cmd (cmd req_id : Z) (args : list Z) : appcore_cmd_t := mk_appcmd req_id cmd (zlen args) 0 0 (take 64 (args ++ replicate 64 0)).
Definition ex_tick (cmds : list appcore_cmd_t) : tick_in := mk_tick cmds 5 None true [1000; 1001] [11; 12; 13] [] (0, 0) [].

(** ** Lemmas *)

Lemma send_high q f node etype eid data : queue_repr q f -> etype <= CFL_EVENT_TYPE_NULL -> zlen (f_high f) + 1 <> f_cap_high f ->
  exists q', cfl_send_event (Some q) CFL_EVENT_PRIORITY_HIGH node etype false eid data = Ret q' /\
    queue_repr q' (fifos_send f true (mk_event (u16 node) (u8 etype) 0 (u16 eid) (f_id f) data)).
Proof.
  intros Hq Ht Hroom. pose proof (queue_step_refines q f (OpSend CFL_EVENT_PRIORITY_HIGH node etype false eid data) Hq) as H.
  cbn [queue_step fifos_step] in H. rewrite (proj2 (Z.ltb_ge _ _) Ht) in H. change (CFL_EVENT_PRIORITY_HIGH =? CFL_EVENT_PRIORITY_HIGH) with true in H.
  cbv iota in H. rewrite (proj2 (Z.eqb_neq _ _) Hroom) in H. change (CFL_EVENT_PRIORITY_HIGH =? CFL_EVENT_PRIORITY_LOW) with false in H. cbn [negb andb raise_if] in H.
  destruct (cfl_send_event _ _ _ _ _ _ _) as [q'| |]; try done. cbn in H. destruct H as [_ Hq']. by exists q'.
Qed.

Lemma command_events_ok id cmds more : Forall event_ok (map (high_event id) cmds ++ map (low_event id) more).
Proof.
  assert (forall n e, (n, e) ∈ command_events -> (exists k, k ∈ served_kbs /\ n = k_root k) /\ 2 <= e /\ e <> CFL_TERMINATE_SYSTEM_EVENT /\ e <> CFL_STOP_START_TESTS_EVENT) as Hok.
  { intros n e Hin. repeat (apply elem_of_cons in Hin as [[= -> ->]|Hin]; [split; [|done]|]); [..|by apply elem_of_nil in Hin];
      first [exists (mk_served 0 9 kb0_columns); split; [by repeat constructor|done]|exists (mk_served 9 5 kb1_columns); split; [by repeat constructor|done]
        |exists (mk_served 14 17 kbapp_columns); split; [by repeat constructor|done]]. }
  apply Forall_app. split; apply Forall_map, Forall_forall.
  - intros c _. unfold high_event. repeat destruct (a_cmd c =? _); (constructor; [eapply (Hok _ _)|eapply (Hok _ _)]; cbn [ev_node_id event_id]; unfold command_events; rewrite !elem_of_cons; tauto).
  - intros p _. unfold low_event, low_id. repeat destruct (a_cmd p.2 =? _); (constructor; [eapply (Hok _ _)|eapply (Hok _ _)]; cbn [ev_node_id event_id]; unfold command_events; rewrite !elem_of_cons; tauto).
Qed.

Lemma send_high_full q f node etype eid data : queue_repr q f -> etype <= CFL_EVENT_TYPE_NULL -> zlen (f_high f) + 1 = f_cap_high f ->
  cfl_send_event (Some q) CFL_EVENT_PRIORITY_HIGH node etype false eid data = EXCEPTION "cfl_send_event: ring is full".
Proof.
  intros Hq Ht Hfull. pose proof (queue_step_refines q f (OpSend CFL_EVENT_PRIORITY_HIGH node etype false eid data) Hq) as H.
  cbn [queue_step fifos_step] in H. rewrite (proj2 (Z.ltb_ge _ _) Ht) in H. change (CFL_EVENT_PRIORITY_HIGH =? CFL_EVENT_PRIORITY_HIGH) with true in H.
  cbv iota in H. rewrite (proj2 (Z.eqb_eq _ _) Hfull) in H. change (CFL_EVENT_PRIORITY_HIGH =? CFL_EVENT_PRIORITY_LOW) with false in H. cbn [negb andb raise_if] in H.
  destruct (cfl_send_event _ _ _ _ _ _ _); try done. cbn in H. by rewrite H.
Qed.
Lemma filtered (b : appcore_cmd_t -> bool) cmds : Forall cmd_ok cmds -> Forall cmd_ok (List.filter b cmds) /\ Forall (fun c => b c = true) (List.filter b cmds).
Proof.
  intros H. split; [eapply List.incl_Forall; [apply List.incl_filter|done]|]. apply Forall_forall. intros c Hc. apply list_elem_of_In, List.filter_In in Hc. apply Hc.
Qed.

Section System.
Context {W : Type} (node_cmd_dispatch : Z -> list Z -> reply_sink_t -> W -> (Z * list Z) * W) (float_to_int32 : Z -> Z).
#[local] Abbreviation app := (app_t W).
#[local] Abbreviation handle := (cfl_handle (cfl_runtime app)).
#[local] Abbreviation hooks := (firmware_hooks node_cmd_dispatch).
#[local] Abbreviation image := (g_chaintree_handle hooks float_to_int32).
#[local] Abbreviation wait := (cfl_timer_wait node_cmd_dispatch).
#[local] Abbreviation do_now := (do_now node_cmd_dispatch).
#[local] Abbreviation do_low := (do_low node_cmd_dispatch).
#[local] Abbreviation tick_of := (tick_of node_cmd_dispatch).
#[local] Abbreviation answered := (answered hooks).
#[local] Abbreviation hook_for := (hook_for node_cmd_dispatch).


(** *** What an event does *)

Lemma called_one e u k i f u1 : hook_of hooks k = Some (on_event f) -> called hooks e u [(k, i)] u1 -> u1 = f e u.
Proof.
  intros Hf Hc. inversion Hc as [|h k' i' f' l u' Hk He Hcall E1 E2 E3]; subst. rewrite Hf in Hk. injection Hk as <-. inversion Hcall; subst.
  unfold on_event, event_of. by rewrite He.
Qed.
(** An event for a command calls its hook, whatever the columns are doing. *)
Lemma command_done e x u u' : (ev_node_id e, event_id e) ∈ command_events ->
  called hooks e u (serve (event_id e) (columns_of e) x).2 u' -> u' = hook_for (event_id e) e u.
Proof.
  intros Hin Hc. unfold columns_of in Hc. remember (ev_node_id e) as node eqn:En. remember (event_id e) as eid eqn:Ee. clear En Ee.
  repeat (apply elem_of_cons in Hin as [[= -> ->]|Hin]; [eapply called_one; [|exact Hc]; reflexivity|]). by apply elem_of_nil in Hin.
Qed.
Lemma answered_one e x u x' u' : answered x u [e] x' u' -> called hooks e u (serve (event_id e) (columns_of e) x).2 u'.
Proof. intros Ha. inversion Ha as [|x0 u0 e0 l u1 x1 u2 Hc Hrest]; subst. by inversion Hrest; subst. Qed.
Lemma answered_cons_inv e l x u x' u' : answered x u (e :: l) x' u' -> exists x1 u1, answered x u [e] x1 u1 /\ answered x1 u1 l x' u'.
Proof. intros Ha. inversion Ha as [|x0 u0 e0 l0 u1 x1 u2 Hc Hrest]; subst. do 2 eexists. split; [|exact Hrest]. econstructor; [exact Hc|constructor]. Qed.
Lemma answered_app_inv l1 : forall l2 x u x' u', answered x u (l1 ++ l2) x' u' -> exists x1 u1, answered x u l1 x1 u1 /\ answered x1 u1 l2 x' u'.
Proof.
  induction l1 as [|e l1 IH]; intros l2 x u x' u' Ha; [exists x, u; split; [constructor|done]|]. rewrite <- app_comm_cons in Ha.
  apply answered_cons_inv in Ha as (x1 & u1 & H1 & Ha). apply IH in Ha as (x2 & u2 & H2 & H3). exists x2, u2. split; [|done].
  exact (answered_app hooks _ _ [e] _ _ _ _ _ H1 H2).
Qed.
Lemma high_answered id c x u x' u' : cmd_ok c -> is_high c = true -> answered x u [high_event id c] x' u' -> u' = do_high c u.
Proof.
  intros [Hid _ _] Hh Ha. apply answered_one, command_done in Ha; unfold high_event, do_high in *.
  - rewrite Ha. assert (u16 (u32 (a_req_id c)) = a_req_id c) as Eid by (rewrite u32_id, u16_id; unfold fits in *; lia).
    repeat destruct (a_cmd c =? _); cbv beta iota delta [KbTick.hook_for event_id ev_data EVENT_CMD_MON_PING EVENT_CMD_MON_SNAPSHOT EVENT_CMD_ADC_READ
      AppBridge.kb0_on_ping AppBridge.kb0_on_snapshot AppBridge.kb1_on_adc]; by rewrite Eid.
  - repeat destruct (a_cmd c =? _); cbn [ev_node_id event_id]; unfold command_events; rewrite !elem_of_cons; tauto.
Qed.
Lemma highs_answered id cmds : Forall cmd_ok cmds -> Forall (fun c => is_high c = true) cmds -> forall x u x' u',
  answered x u (map (high_event id) cmds) x' u' -> u' = all_of do_high cmds u.
Proof.
  induction 1 as [|c cmds Hc Hcs IH]; intros Hh x u x' u' Ha; [by inversion Ha|]. apply Forall_cons in Hh as [Hh Hhs].
  apply answered_cons_inv in Ha as (x1 & u1 & H1 & Ha). apply high_answered in H1 as ->; [|done..]. by apply IH in Ha as ->.
Qed.
(** The slot of an event of low priority is read as it was filled. *)
Lemma low_answered id p x u x' u' : cmd_ok p.2 -> slot_holds u p -> answered x u [low_event id p] x' u' -> u' = do_low p.2 u.
Proof.
  intros Hc (Hp & old & Es) Ha. destruct (slot_index p.1) as [E0 Ei]; [lia|]. apply answered_one, command_done in Ha; unfold low_event, low_id in *.
  - rewrite Ha, <- (on_request_bytes _ _ old) by done. rewrite <- Es. unfold on_request.
    repeat destruct (a_cmd p.2 =? _); cbv beta iota delta [KbTick.hook_for event_id ev_data EVENT_CMD_APP_ECHO EVENT_CMD_APP_ECHO_TO EVENT_CMD_APP_IL_CLEAR EVENT_CMD_APP_OP
      AppBridge.kbapp_on_echo AppBridge.kbapp_on_echo_to AppBridge.kbapp_on_il_clear AppBridge.kbapp_on_op with_slot]; by rewrite E0, Ei.
  - repeat destruct (a_cmd p.2 =? _); cbn [ev_node_id event_id]; unfold command_events; rewrite !elem_of_cons; tauto.
Qed.
Lemma lows_answered id pend : Forall (fun p => cmd_ok p.2) pend -> forall x u x' u', Forall (slot_holds u) pend ->
  answered x u (map (low_event id) pend) x' u' -> u' = all_of do_low (map snd pend) u.
Proof.
  induction 1 as [|p pend Hc Hcs IH]; intros x u x' u' Hs Ha; [by inversion Ha|]. apply Forall_cons in Hs as [Hs Hss].
  apply answered_cons_inv in Ha as (x1 & u1 & H1 & Ha). apply low_answered in H1 as ->; [|done..]. eapply IH in Ha as ->; [done|].
  destruct (plain_low node_cmd_dispatch p.2 u) as (_ & Eq & _). eapply Forall_impl; [exact Hss|]. intros q (Hq & old & E). split; [done|]. exists old. by rewrite Eq.
Qed.
(** The engine's own events change nothing of the application: a column that times out calls a hook
    that does nothing. *)
Lemma served_quietly ev cols x : ev < 20 -> Forall (fun c => 20 <= c_event c) cols -> Forall (fun p => p.1 = TIMEOUT_HANDLER) (serve ev cols x).2.
Proof.
  intros He Hcols. revert x. induction Hcols as [|c cols Hc _ IH]; intros x; [constructor|]. cbn [serve snd]. apply Forall_app. split; [|apply IH].
  unfold column_step. rewrite (proj2 (Z.eqb_neq _ _)) by lia. destruct (ev =? CFL_SECOND_EVENT); [|constructor]. cbn zeta.
  destruct (COMMAND_TIMEOUT <=? _); repeat constructor.
Qed.
Lemma timeouts_quiet e u l u' : Forall (fun p => p.1 = TIMEOUT_HANDLER) l -> called hooks e u l u' -> u' = u.
Proof.
  intros Hl Hc. induction Hc as [|h k i f l u Hf He Hc IH]; [done|]. apply Forall_cons in Hl as [Hk Hl]. cbn in Hk. subst k. injection Hf as <-.
  by rewrite IH.
Qed.
Lemma ticks_quiet l : Forall (fun e => event_id e < 20) l -> forall x u x' u', answered x u l x' u' -> u' = u.
Proof.
  induction 1 as [|e l He _ IH]; intros x u x' u' Ha; [by inversion Ha|]. apply answered_cons_inv in Ha as (x1 & u1 & H1 & Ha).
  apply IH in Ha as ->. apply answered_one in H1. eapply timeouts_quiet; [|exact H1]. apply served_quietly; [done|].
  unfold columns_of. destruct (List.find _ served_kbs) as [k|] eqn:Ek; [|constructor]. apply List.find_some in Ek as [Hk _]. apply list_elem_of_In in Hk.
  clear H1. revert k Hk. rewrite <- Forall_forall. vm_decide.
Qed.

(** *** The handle, while the application's state changes *)

Section Wait.
Context (holds : CflHeapArenaSystem -> list (Z * Z) -> list Z -> Prop).
#[local] Abbreviation running := (running hooks float_to_int32 holds).

Lemma app_is h x u f : running h x u f -> app_of h = u.
Proof using Type. intros [(s & (_ & _ & _ & _ & Eu & _) & <-) _ _ _]. exact Eu. Qed.
Lemma running_app k h x u f : running h x u f -> running (set_app k h) x (k u) f.
Proof using Type.
  intros [(s & (Hs & Hl & Hf & Hw & Hu & Hno & Hk) & Es) R2 R3 R4]. constructor; [|by destruct h..].
  exists (mk_v (v_fl s) (v_st s) (k u) (v_count s)). split; [|done].
  split; [eapply tame_sized; [exact Hs|apply rest_tame, rest_set]|]. split; [by destruct h|]. split; [by destruct h|].
  split; [|split; [|split; [exact Hno|]; intros kb Hkb; apply (kb_in_same kb x x s); [done..|exact (Hk kb Hkb)]]].
  - destruct Hw as (ws & live & aux & [W1 W2 W3]). exists ws, live, aux. by destruct h.
  - rewrite <- Es, <- Hu. by destruct h.
Qed.
Lemma running_bb b h x u f : running h x u f -> bb_there b -> running (set_rest (fun y => y <| shared_bb := b |>) h) x u f.
Proof using Type.
  intros [R1 R2 R3 R4] Hb. constructor; [|by destruct h|by destruct h|by destruct h]. eapply serving_ext; [..|exact R1]; by destruct h.
Qed.
Lemma poked h x u f i v : running h x u f -> 0 <= i < 19 ->
  exists h', poke (W := W) (Some (4 * i)) v h = Ret h' /\ running h' x u f.
Proof using Type.
  intros Hr Hi. destruct (rn_bb _ _ _ _ _ _ _ Hr) as (m & E & Hm). unfold poke, store. rewrite E. change (bytes_of _) with m.
  rewrite (proj2 (Z.ltb_ge _ _)) by lia. cbn [raise_if cbind]. eexists. split; [reflexivity|].
  set (m' := take _ m ++ _).
  assert (set_rest (fun y => y <| shared_bb ::= fun b => mk_bb (Some m') (bb_desc b) |>) h = set_rest (fun y => y <| shared_bb := mk_bb (Some m') (Some (ct_bb_init_hashes ct_bb_record)) |>) h) as ->.
  { revert E. destruct h as [? ? ? ? ? ? ? ? ? ? ? ? []]. cbn. by intros ->. }
  apply running_bb; [done|]. exists m'. split; [done|]. subst m'. rewrite !zlen_app. unfold zlen in *. rewrite length_take, length_drop, to_bytes_length. lia.
Qed.
Lemma all_poked l h x u f : running h x u f -> Forall (fun p => exists i, p.1 = Some (4 * i) /\ 0 <= i < 19) l ->
  exists h', pokes (W := W) l h = Ret h' /\ running h' x u f.
Proof using Type.
  intros Hr Hl. revert h Hr. induction Hl as [|[slot v] l (i & E & Hi) _ IH]; intros h Hr; [by exists h|]. cbn [fst] in E. subst slot.
  destruct (poked h x u f i v Hr Hi) as (h1 & E1 & Hr1). destruct (IH h1 Hr1) as (h2 & E2 & Hr2). exists h2. split; [|done]. cbn [pokes]. rewrite E1. exact E2.
Qed.
Lemma published g h x u f : bound g -> running h x u f -> exists h', (h <- adc_publish_10hz g h;; bench_publish g h) = Ret h' /\ running h' x u f.
Proof using Type.
  intros [_ Eb] Hr. assert (forall i, 0 <= i < 19 -> zget None (g_bb g) i = Some (4 * i)) as Hslot.
  { intros i Hi. rewrite Eb. apply zget_lookup; [lia|]. rewrite list_lookup_fmap, lookup_seqZ_lt by lia. cbn. do 2 f_equal. lia. }
  destruct (all_poked (concat (map (fun ch => let '(avg, mx, rms) := zget (0, 0, 0) (g_adc_10hz (app_of h)) ch in
    [(zget None (g_bb g) (3 * ch), avg); (zget None (g_bb g) (3 * ch + 1), mx); (zget None (g_bb g) (3 * ch + 2), rms)]) (seqZ 0 ADC_NCH))) h x u f Hr) as (h1 & E1 & Hr1).
  { apply List.Forall_concat, Forall_map, Forall_forall. intros ch Hch. apply elem_of_seqZ in Hch. unfold ADC_NCH in Hch. destruct (zget _ _ ch) as [[avg mx] rms].
    repeat (apply Forall_cons; split); [exists (3 * ch)|exists (3 * ch + 1)|exists (3 * ch + 2)|constructor]; (split; [cbn [fst]; apply Hslot; lia|lia]). }
  unfold adc_publish_10hz. rewrite E1. cbn [cbind]. unfold bench_publish. apply (all_poked _ h1 x u f Hr1).
  apply Forall_cons. split; [exists 9; split; [apply Hslot|]; lia|]. apply Forall_cons. split; [exists 10; split; [apply Hslot|]; lia|].
  apply Forall_map, Forall_forall. intros i Hi. apply elem_of_seqZ in Hi. unfold HIL_GPIO_COUNT in Hi. exists (11 + i). split; [apply Hslot; lia|lia].
Qed.

(** *** The commands become events *)

Lemma int_sent h x u f node eid value : running h x u f -> fits 16 node -> fits 16 eid -> zlen (f_high f) + 1 <> f_cap_high f ->
  exists h', send_int (W := W) node eid value h = Ret h' /\ running h' x u (fifos_send f true (mk_event node CFL_EVENT_TYPE_INT 0 eid (f_id f) (u32 value))).
Proof using Type.
  intros Hr Hn He Hroom. unfold send_int, cfl_send_integer_event.
  destruct (send_high _ f node CFL_EVENT_TYPE_INT eid (u32 value) (rn_queue _ _ _ _ _ _ _ Hr)) as (q & -> & Hq); [done|done|]. cbn [cbind].
  rewrite !u16_id in Hq by done. eexists. split; [reflexivity|]. by eapply running_queue.
Qed.
Lemma slot_sent h x u f node eid c : running h x u f -> fits 16 node -> fits 16 eid -> zlen (f_low f) + 1 <> f_cap_low f ->
  exists h', send_slot (W := W) node eid c h = Ret h' /\
    running h' x (take_slot c u).2 (fifos_send f false (mk_event node CFL_EVENT_TYPE_PTR 0 eid (f_id f) (slot_ptr (g_app_req_head u)))).
Proof using Type.
  intros Hr Hn He Hroom. unfold send_slot, cfl_send_data_event. rewrite (app_is h x u f Hr).
  rewrite (surjective_pairing (take_slot c u)). change (take_slot c u).1 with (slot_ptr (g_app_req_head u)).
  destruct (send_low _ f node CFL_EVENT_TYPE_PTR eid (slot_ptr (g_app_req_head u)) (rn_queue _ _ _ _ _ _ _ Hr)) as (q & -> & Hq); [done|done|]. cbn [cbind].
  rewrite !u16_id in Hq by done. eexists. split; [reflexivity|]. eapply running_queue; [|exact Hq]. exact (running_app (fun _ => (take_slot c u).2) h x u f Hr).
Qed.
(** What becomes of a command. *)
Lemma command_taken g c h x u f : bound g -> running h x u f ->
  (is_high c = true -> zlen (f_high f) + 1 <> f_cap_high f) -> (is_low c = true -> zlen (f_low f) + 1 <> f_cap_low f) ->
  exists h' u' f', down_command node_cmd_dispatch g c h = Ret h' /\ running h' x u' f' /\
    if is_high c then u' = u /\ f' = fifos_send f true (high_event (f_id f) c)
    else if is_low c then u' = (take_slot c u).2 /\ f' = fifos_send f false (low_event (f_id f) (g_app_req_head u, c))
    else u' = do_now c u /\ f' = f.
Proof using Type.
  intros [[= E1 E2 E3] _] Hr Hh Hl. unfold down_command, high_event, low_event, low_id, KbTick.do_now, is_high, is_low in *. rewrite E1, E2, E3. cbn [fst snd].
  destruct (a_cmd c =? CMD_MON_PING); [destruct (int_sent h x u f 0 EVENT_CMD_MON_PING (a_req_id c) Hr) as (h' & -> & Hr'); [done|done|by apply Hh|]; by exists h', u; eexists|].
  destruct (a_cmd c =? CMD_MON_SNAPSHOT); [destruct (int_sent h x u f 0 EVENT_CMD_MON_SNAPSHOT (a_req_id c) Hr) as (h' & -> & Hr'); [done|done|by apply Hh|]; by exists h', u; eexists|].
  destruct (a_cmd c =? CMD_ADC_READ); [destruct (int_sent h x u f 9 EVENT_CMD_ADC_READ (a_req_id c) Hr) as (h' & -> & Hr'); [done|done|by apply Hh|]; by exists h', u; eexists|].
  cbn [orb] in *.
  destruct (a_cmd c =? CMD_APP_ECHO); [destruct (slot_sent h x u f 14 EVENT_CMD_APP_ECHO c Hr) as (h' & -> & Hr'); [done|done|by apply Hl|]; by exists h'; do 2 eexists|].
  destruct (a_cmd c =? CMD_APP_ECHO_TO); [destruct (slot_sent h x u f 14 EVENT_CMD_APP_ECHO_TO c Hr) as (h' & -> & Hr'); [done|done|by apply Hl|]; by exists h'; do 2 eexists|].
  destruct (a_cmd c =? CMD_APP_IL_CLEAR); [destruct (slot_sent h x u f 14 EVENT_CMD_APP_IL_CLEAR c Hr) as (h' & -> & Hr'); [done|done|by apply Hl|]; by exists h'; do 2 eexists|].
  destruct (a_cmd c =? CMD_APP_OP); [destruct (slot_sent h x u f 14 EVENT_CMD_APP_OP c Hr) as (h' & -> & Hr'); [done|done|by apply Hl|]; by exists h'; do 2 eexists|].
  destruct (a_cmd c =? CMD_MON_STREAM); (do 3 eexists; split; [reflexivity|]; split; [by apply running_app|done]).
Qed.
(** The slot after those pending is filled. *)
Lemma pending_same (u u' : app) pend : g_app_req u' = g_app_req u -> g_app_req_head u' = g_app_req_head u -> pending u pend -> pending u' pend.
Proof using Type.
  intros E1 E2 [[H1 H2] H3 H4]. constructor; [by split; rewrite ?E1, ?E2|by rewrite E2|].
  eapply Forall_impl; [exact H4|]. intros p (Hp & old & E). split; [done|]. exists old. by rewrite E1.
Qed.
Lemma pending_taken c (u : app) pend : zlen pend < APP_REQ_SLOTS -> pending u pend -> pending (take_slot c u).2 (pend ++ [(g_app_req_head u, c)]).
Proof using Type.
  intros Hn [[H1 H2] H3 H4]. pose proof (zlen_nonneg pend) as H0. constructor.
  - split; [transitivity (zlen (g_app_req u)); [unfold zlen; cbn [take_slot snd]; f_equal; apply zlen_zset|exact H1]|]. unfold APP_REQ_SLOTS in *.
    change (0 <= u8 ((g_app_req_head u + 1) mod 4) < 4). rewrite u8_id; [|unfold fits]; pose proof (Z.mod_pos_bound (g_app_req_head u + 1) 4); lia.
  - rewrite map_app, H3, zlen_app. change (zlen [_]) with 1. symmetry. by apply slots_before_snoc.
  - pose proof (slots_before_free (g_app_req_head u) (zlen pend) ltac:(lia) H2) as Hfree. rewrite <- H3 in Hfree. apply Forall_app. split.
    + apply Forall_forall. intros p Hp. destruct (proj1 (Forall_forall _ _) H4 p Hp) as (Hr & old & E). split; [done|]. exists old. cbn [take_slot snd].
      rewrite <- E. apply zget_zset_ne; [|lia]. intros E'. apply Hfree. rewrite E'. by apply (elem_map fst).
    + apply Forall_cons. split; [|constructor]. split; [done|]. eexists. cbn [fst snd take_slot]. apply zget_zset_eq. unfold APP_REQ_SLOTS in *. rewrite H1. lia.
Qed.
Lemma high_not_low c : is_high c = true -> is_low c = false.
Proof using Type.
  unfold is_high, is_low. intros H. assert (a_cmd c = CMD_MON_PING \/ a_cmd c = CMD_MON_SNAPSHOT \/ a_cmd c = CMD_ADC_READ) as [-> |[-> | ->]]; [|done..].
  apply orb_true_iff in H as [H|H%Z.eqb_eq]; [apply orb_true_iff in H as [H%Z.eqb_eq|H%Z.eqb_eq]|]; tauto.
Qed.
Lemma forget_taken c (u : app) : forget (take_slot c u).2 = forget u.
Proof using Type. by destruct u. Qed.
Lemma commands_taken (Q : Prop) g cmds : bound g -> forall h x u f pend, running h x u f ->
  zlen (f_high f) + zlen (highs cmds) < f_cap_high f -> zlen (f_low f) + zlen (lows cmds) < f_cap_low f ->
  (Q -> zlen pend + zlen (lows cmds) <= APP_REQ_SLOTS -> pending u pend) ->
  exists h' u' f' more, down_commands node_cmd_dispatch g cmds h = Ret h' /\ running h' x u' f' /\
    forget u' = all_of do_now (nows cmds) (forget u) /\
    f_high f' = f_high f ++ map (high_event (f_id f)) (highs cmds) /\ f_low f' = f_low f ++ map (low_event (f_id f)) more /\ map snd more = lows cmds /\
    (f_cap_high f', f_cap_low f', f_id f') = (f_cap_high f, f_cap_low f, f_id f) /\
    (Q -> zlen pend + zlen (lows cmds) <= APP_REQ_SLOTS -> pending u' (pend ++ more)).
Proof using Type.
  intros Hg. induction cmds as [|c cmds IH]; intros h x u f pend Hr Hh Hl Hp.
  { exists h, u, f, []. cbn [map]. rewrite !app_nil_r. by split_and!. }
  pose proof (zlen_nonneg (highs cmds)). pose proof (zlen_nonneg (lows cmds)). cbn [down_commands]. unfold highs, lows, nows, is_now in *. cbn [List.filter] in *.
  destruct (command_taken g c h x u f Hg Hr) as (h1 & u1 & f1 & -> & Hr1 & Hc).
  { intros E. rewrite E in Hh. rewrite zlen_cons in Hh. lia. } { intros E. rewrite E in Hl. rewrite zlen_cons in Hl. lia. }
  cbn [cbind]. destruct (is_high c) eqn:Eh; [rewrite (high_not_low c Eh) in *|destruct (is_low c) eqn:El]; destruct Hc as [-> ->]; cbn [negb andb].
  - rewrite zlen_cons in Hh. destruct (IH h1 x u (fifos_send f true (high_event (f_id f) c)) pend Hr1) as (h2 & u2 & f2 & more & E & Hr2 & Hu & Hf1 & Hf2 & Hf3 & Hf4 & Hp2);
      [cbn [fifos_send f_high f_cap_high]; rewrite zlen_app; change (zlen [_]) with 1; lia|exact Hl|exact Hp|].
    exists h2, u2, f2, more. split; [exact E|]. split; [exact Hr2|]. split; [exact Hu|]. split; [|by split_and!].
    rewrite Hf1. cbn [fifos_send f_high f_id map]. by rewrite <- app_assoc.
  - rewrite zlen_cons in Hl, Hp |- *. set (e := low_event (f_id f) (g_app_req_head u, c)) in *.
    destruct (IH h1 x (take_slot c u).2 (fifos_send f false e) (pend ++ [(g_app_req_head u, c)]) Hr1) as (h2 & u2 & f2 & more & E & Hr2 & Hu & Hf1 & Hf2 & Hf3 & Hf4 & Hp2);
      [exact Hh|cbn [fifos_send f_low f_cap_low]; rewrite zlen_app; change (zlen [_]) with 1; lia|rewrite zlen_app; change (zlen [_]) with 1; intros; apply pending_taken; [lia|apply Hp; [done|lia]]|].
    exists h2, u2, f2, ((g_app_req_head u, c) :: more). split; [exact E|]. split; [exact Hr2|]. split; [by rewrite Hu, forget_taken|]. split; [exact Hf1|].
    split; [rewrite Hf2; cbn [fifos_send f_low f_id map]; by rewrite <- app_assoc|]. split; [cbn [map snd]; by rewrite Hf3|]. split; [exact Hf4|].
    intros HQ Hb. rewrite zlen_app in Hp2. change (zlen [_]) with 1 in Hp2. rewrite <- app_assoc in Hp2. apply Hp2; [done|lia].
  - destruct (plain_now node_cmd_dispatch c u) as (P1 & P2 & P3).
    destruct (IH h1 x (do_now c u) f pend Hr1 Hh Hl) as (h2 & u2 & f2 & more & E & Hr2 & Hu & Hrest); [intros HQ Hb; apply (pending_same u); [done..|by apply Hp]|].
    exists h2, u2, f2, more. split; [exact E|]. split; [exact Hr2|]. split; [|exact Hrest]. rewrite Hu, P1. done.
Qed.
(** A command for which the ring has no room. *)
Lemma command_refused g c h x u f : running h x u f -> is_high c = true -> zlen (f_high f) + 1 = f_cap_high f ->
  down_command node_cmd_dispatch g c h = EXCEPTION "cfl_send_event: ring is full".
Proof using Type.
  intros Hr Hc Hfull. unfold down_command, is_high in *.
  assert (forall node eid v, send_int (W := W) node eid v h = EXCEPTION "cfl_send_event: ring is full") as Hsend.
  { intros node eid v. unfold send_int, cfl_send_integer_event. by rewrite (send_high_full _ f _ _ _ _ (rn_queue _ _ _ _ _ _ _ Hr)). }
  destruct (a_cmd c =? CMD_MON_PING); [apply Hsend|]. destruct (a_cmd c =? CMD_MON_SNAPSHOT); [apply Hsend|]. destruct (a_cmd c =? CMD_ADC_READ); [apply Hsend|done].
Qed.
Lemma commands_refused g cmds : bound g -> forall h x u f, running h x u f -> zlen (f_high f) < f_cap_high f ->
  f_cap_high f <= zlen (f_high f) + zlen (highs cmds) -> zlen (f_low f) + zlen (lows cmds) < f_cap_low f ->
  down_commands node_cmd_dispatch g cmds h = EXCEPTION "cfl_send_event: ring is full".
Proof using Type.
  intros Hg. induction cmds as [|c cmds IH]; intros h x u f Hr Hroom Hh Hl; [change (zlen (highs [])) with 0 in Hh; lia|].
  pose proof (zlen_nonneg (lows cmds)). cbn [down_commands]. unfold highs, lows in *. cbn [List.filter] in *.
  destruct (decide (is_high c = true /\ zlen (f_high f) + 1 = f_cap_high f)) as [[Hc Hfull]|Hn]; [by rewrite (command_refused g c h x u f Hr)|].
  destruct (command_taken g c h x u f Hg Hr) as (h1 & u1 & f1 & -> & Hr1 & Hc); [intros Hc ?; by apply Hn|intros E; rewrite E, zlen_cons in Hl; lia|].
  cbn [cbind]. destruct (is_high c) eqn:Eh; [rewrite (high_not_low c Eh) in *|destruct (is_low c)]; destruct Hc as [-> ->].
  - rewrite zlen_cons in Hh. assert (zlen (f_high f) + 1 <> f_cap_high f) by (intros ?; by apply Hn).
    eapply IH; [exact Hr1|..]; cbn [fifos_send f_high f_low f_cap_high f_cap_low]; rewrite ?zlen_app; change (zlen [_]) with 1; lia.
  - rewrite zlen_cons in Hl. eapply IH; [exact Hr1|..]; cbn [fifos_send f_high f_low f_cap_high f_cap_low]; rewrite ?zlen_app; change (zlen [_]) with 1; lia.
  - by eapply IH.
Qed.

(** *** A wait *)

Lemma plain_before i : plain (fun a : app => heartbeat (sample i (late i a))).
Proof using Type.
  apply (plain_comp (fun a => sample i (late i a)) heartbeat); [|apply plain_clock; by intros t []].
  intros a. unfold late. destruct (ti_late i); by destruct a.
Qed.
Lemma forget_second s (a b : app) : forget a = forget b -> forget (a <| last_second := s |>) = forget (b <| last_second := s |>).
Proof using Type. destruct a, b. intros [=]. subst. done. Qed.
Lemma waited g i h x u f : bound g -> running h x u f ->
  zlen (f_high f) + zlen (highs (ti_cmds i)) < f_cap_high f -> zlen (f_low f) + zlen (lows (ti_cmds i)) < f_cap_low f ->
  exists mask h' u' f' more, wait g i h = Ret (mask, h') /\ running h' x u' f' /\ forget u' = forget (before_serving node_cmd_dispatch i u) /\
    f_high f' = f_high f ++ map (high_event (f_id f)) (highs (ti_cmds i)) /\ f_low f' = f_low f ++ map (low_event (f_id f)) more /\
    map snd more = lows (ti_cmds i) /\ (f_cap_high f', f_cap_low f', f_id f') = (f_cap_high f, f_cap_low f, f_id f) /\
    (slots_ok u -> zlen (lows (ti_cmds i)) <= APP_REQ_SLOTS -> pending u' more).
Proof using Type.
  intros Hg Hr Hh Hl. set (u0 := heartbeat (sample i (late i u))). destruct (plain_before i u) as (P1 & P2 & P3).
  set (h0 := set_app (fun a => sample i (late i a)) h).
  assert (running (set_app heartbeat h0) x u0 f) as Hr0 by (apply (running_app heartbeat h0), (running_app (fun a => sample i (late i a))), Hr).
  destruct (commands_taken (slots_ok u) g (ti_cmds i) Hg _ x u0 f [] Hr0 Hh Hl) as (h1 & u1 & f1 & more & E1 & Hr1 & Hu1 & Hq1 & Hq2 & Hq3 & Hq4 & Hp).
  { intros [H1 H2] _. constructor; [split; subst u0; by rewrite ?P2, ?P3|done|constructor]. }
  destruct (published g h1 x u1 f1 Hg Hr1) as (h2 & E2 & Hr2). pose proof (running_app (stream_pacing (ti_connected i)) h2 x u1 f1 Hr2) as Hr3.
  set (h3 := set_app (stream_pacing (ti_connected i)) h2) in *. set (u3 := stream_pacing (ti_connected i) u1) in *.
  assert (cfl_embed_pre_tick node_cmd_dispatch g (ti_connected i) (ti_cmds i) h0 = Ret h3) as Ep.
  { unfold cfl_embed_pre_tick. rewrite E1. cbn [cbind]. destruct (adc_publish_10hz g h1) as [h1'| |]; try done. cbn [cbind] in *. rewrite E2. done. }
  assert (pending u1 more -> pending u3 more) as Hpp by (destruct (plain_pacing (ti_connected i) u1) as (_ & ? & ?); by apply pending_same).
  assert (forget u3 = forget (stream_pacing (ti_connected i) (all_of do_now (nows (ti_cmds i)) u0))) as Hu3.
  { subst u3. rewrite !(proj1 (plain_pacing _ _)). rewrite Hu1. f_equal. symmetry. apply plain_all, plain_now. }
  unfold cfl_timer_wait. fold h0. rewrite Ep. cbn [cbind]. rewrite (app_is h3 x u3 f1 Hr3).
  destruct (Z.eqb_spec (ti_second i) (last_second u3)) as [Es|]; cbn [negb].
  - exists 0, h3, u3, f1, more. split; [done|]. split; [done|]. split; [|by split_and!; auto]. unfold before_serving. fold u0.
    rewrite <- (forget_second _ _ _ Hu3), Es. by destruct u3.
  - exists CFL_CHANGED_SECOND. do 4 eexists. split; [reflexivity|]. split; [by apply (running_app (fun a => a <| last_second := ti_second i |>))|].
    split; [by apply forget_second|]. split; [exact Hq1|]. split; [exact Hq2|]. split; [done|]. split; [done|]. intros Hs Hb. apply (pending_same u3); [done..|auto].
Qed.
End Wait.

(** *** A tick *)

Section Tick.
Context (holds : CflHeapArenaSystem -> list (Z * Z) -> list Z -> Prop) `{Hstore : node_store waits sizeof_wait sizeof_wait_for_event holds}.
#[local] Abbreviation running := (running hooks float_to_int32 holds).

(** The events of a tick, answered: the application is where the commands take it. *)
Lemma tick_answered id cmds more mask data x u x' u' : Forall cmd_ok cmds -> pending u more -> map snd more = lows cmds ->
  answered x u ((map (high_event id) (highs cmds) ++ map (low_event id) more) ++ concat (map (tick_events id mask data) served_kbs)) x' u' ->
  u' = all_of do_low (lows cmds) (all_of do_high (highs cmds) u) /\ g_app_req u' = g_app_req u /\ g_app_req_head u' = g_app_req_head u.
Proof using float_to_int32.
  intros Hok [_ _ Hs] El Ha. apply answered_app_inv in Ha as (x2 & u2 & Ha & Ht). apply answered_app_inv in Ha as (x1 & u1 & Hh & Hl).
  apply ticks_quiet in Ht as ->. 2: { apply List.Forall_concat, Forall_map, Forall_forall. intros k _. apply Forall_map. eapply Forall_impl; [apply timer_events_ok|]. cbn. lia. }
  destruct (filtered is_high cmds Hok) as [Hok1 Hhigh]. destruct (filtered is_low cmds Hok) as [Hok2 _].
  pose proof (highs_answered _ _ Hok1 Hhigh _ _ _ _ Hh) as ->. destruct (plain_all do_high (highs cmds) plain_high u) as (_ & E1 & E2).
  assert (Forall (fun p => cmd_ok p.2) more) as Hok3 by (apply (Forall_map snd); by rewrite El).
  assert (Forall (slot_holds (all_of do_high (highs cmds) u)) more) as Hs1
    by (eapply Forall_impl; [exact Hs|]; intros p (Hp & old & E); split; [done|]; exists old; by rewrite E1).
  pose proof (lows_answered _ _ Hok3 _ _ _ _ Hs1 Hl) as ->.
  rewrite El. destruct (plain_all do_low (lows cmds) (plain_low node_cmd_dispatch) (all_of do_high (highs cmds) u)) as (_ & F1 & F2). split; [done|]. by rewrite F1, F2.
Qed.
Lemma forget_all (f : appcore_cmd_t -> app -> app) cmds a b : (forall c, plain (f c)) -> forget a = forget b -> forget (all_of f cmds a) = forget (all_of f cmds b).
Proof using Type. intros Hf E. rewrite !(proj1 (plain_all f cmds Hf _)). by rewrite E. Qed.
Lemma tick_carried_out g i fuel data h x u f : bound g -> running h x u f -> queued f = [] -> slots_ok u -> tick_ok 7 4 i -> f_cap_high f = 8 -> f_cap_low f = 64 ->
  18 <= Z.of_nat fuel ->
  exists mask h1 h' x' u' f', wait g i h = Ret (mask, h1) /\ cycle image fuel mask data (kbs image) false h1 = Ret (false, true, h') /\
    running h' x' u' f' /\ emptied f f' /\ slots_ok u' /\ forget u' = forget (tick_of i u).
Proof using Hstore.
  intros Hg Hr Hq Hs [Hok Hh Hl] Ec1 Ec2 Hfuel. destruct (queued_nil f Hq) as [Eh El]. pose proof (zlen_nonneg (highs (ti_cmds i))). pose proof (zlen_nonneg (lows (ti_cmds i))).
  destruct (waited holds g i h x u f Hg Hr) as (mask & h1 & u1 & f1 & more & E1 & Hr1 & Hu1 & Hq1 & Hq2 & Hm & [= Ea Eb Ec] & Hp);
    [rewrite Eh; change (zlen []) with 0; lia|rewrite El; change (zlen []) with 0; lia|].
  specialize (Hp Hs Hl). rewrite Eh in Hq1. rewrite El in Hq2. rewrite app_nil_l in Hq1, Hq2.
  assert (zlen (f_low f1) <= 4) as Hn by (rewrite Hq2; unfold zlen in *; rewrite length_map, <- (length_map snd), Hm; lia).
  assert (queued f1 = map (high_event (f_id f)) (highs (ti_cmds i)) ++ map (low_event (f_id f)) more) as Eq by (unfold queued; by rewrite Hq1, Hq2).
  destruct (cycle_is_served hooks float_to_int32 holds fuel mask data h1 x u1 f1 Hr1) as (h2 & x2 & u2 & f2 & E2 & Hr2 & He & Ha).
  { rewrite Eq. apply command_events_ok. } { rewrite Eb, Ec2. lia. }
  { unfold queued. rewrite zlen_app, Hq1. unfold zlen in *. rewrite length_map. lia. }
  rewrite Eq, Ec in Ha. destruct (tick_answered _ _ _ _ _ _ _ _ _ Hok Hp Hm Ha) as (-> & F1 & F2).
  exists mask, h1, h2, x2. do 2 eexists. split; [exact E1|]. split; [exact E2|]. split; [exact Hr2|]. split.
  { destruct He as (? & ? & ? & ? & ?). split_and!; congruence. }
  split; [destruct Hp as [[H1 H2] _ _]; split; by rewrite ?F1, ?F2|]. unfold KbTick.tick_of. apply forget_all; [apply plain_low|]. by apply forget_all; [apply plain_high|].
Qed.

(** *** The loop *)

Lemma tick_forget i (a b : app) : forget a = forget b -> forget (tick_of i a) = forget (tick_of i b).
Proof using Type.
  intros E. unfold KbTick.tick_of. apply forget_all; [apply plain_low|]. apply forget_all; [apply plain_high|]. unfold before_serving.
  apply forget_second. rewrite !(proj1 (plain_pacing _ _)). f_equal. apply forget_all; [apply plain_now|].
  by rewrite !(proj1 (plain_before _ _)), E.
Qed.
Lemma ticks_forget inputs : forall a b : app, forget a = forget b ->
  forget (foldl (fun a i => tick_of i a) a inputs) = forget (foldl (fun a i => tick_of i a) b inputs).
Proof using Type. induction inputs as [|i inputs IH]; intros a b E; [done|]. by apply IH, tick_forget. Qed.
Lemma ticks_carried_out g tick_result fuel inputs : bound g -> 18 <= Z.of_nat fuel -> Forall (tick_ok 7 4) inputs -> forall h x u f,
  running h x u f -> queued f = [] -> slots_ok u -> f_cap_high f = 8 -> f_cap_low f = 64 ->
  exists h' x' u' f', run_cycles image (wait g) tick_result fuel inputs h = Ret (Running h') /\ running h' x' u' f' /\
    forget u' = forget (foldl (fun a i => tick_of i a) u inputs).
Proof using Hstore.
  intros Hg Hfuel. induction 1 as [|i inputs Hi Hinputs IH]; intros h x u f Hr Hq Hs E1 E2; [by exists h, x, u, f|]. cbn [run_cycles foldl].
  destruct (tick_carried_out g i fuel tick_result h x u f Hg Hr Hq Hs Hi E1 E2 Hfuel) as (mask & h1 & h2 & x2 & u2 & f2 & -> & E & Hr2 & He & Hs2 & Hu2).
  cbn [cbind fst snd]. rewrite E. cbn [cbind orb negb]. pose proof (emptied_queued _ _ He) as Hq2. destruct He as (_ & _ & Ec1 & Ec2 & _).
  destruct (IH h2 x2 u2 f2 Hr2 Hq2 Hs2) as (h3 & x3 & u3 & f3 & E3 & Hr3 & Hu3); [congruence..|].
  exists h3, x3, u3, f3. split; [done|]. split; [done|]. rewrite Hu3. by apply ticks_forget.
Qed.
Lemma run_carried_out g tick_result fuel first inputs h x u f : bound g -> 18 <= Z.of_nat fuel -> tick_ok 0 0 first -> Forall (tick_ok 7 4) inputs ->
  running h x u f -> queued f = [] -> slots_ok u -> f_cap_high f = 8 -> f_cap_low f = 64 ->
  exists h' x' u' f', cfl_runtime_run image (wait g) tick_result fuel first inputs h = Ret (Running h') /\ running h' x' u' f' /\
    forget u' = forget (foldl (fun a i => tick_of i a) (before_serving node_cmd_dispatch first u) inputs).
Proof using Hstore.
  intros Hg Hfuel [Hc Hh Hl] Hin Hr Hq Hs E1 E2. destruct (queued_nil f Hq) as [Eh El].
  pose proof (zlen_nonneg (highs (ti_cmds first))). pose proof (zlen_nonneg (lows (ti_cmds first))).
  destruct (waited holds g first h x u f Hg Hr) as (mask & h1 & u1 & f1 & more & E & Hr1 & Hu1 & Hq1 & Hq2 & Hm & [= Ea Eb Ec] & Hp);
    [rewrite Eh; change (zlen []) with 0; lia|rewrite El; change (zlen []) with 0; lia|].
  assert (highs (ti_cmds first) = [] /\ lows (ti_cmds first) = []) as [Eh1 El1] by (split; apply length_zero_iff_nil; unfold zlen in *; lia).
  rewrite El1 in Hm. apply map_eq_nil in Hm as ->. rewrite Eh1, Eh in Hq1. rewrite El in Hq2. destruct Hp as [Hs1 _ _]; [done|unfold APP_REQ_SLOTS; lia|].
  unfold cfl_runtime_run. rewrite E. cbn [cbind snd].
  destruct (ticks_carried_out g tick_result fuel inputs Hg Hfuel Hin (set_rest (fun y => y <| shaddow_bitmask := 0 |> <| bitmask := 0 |>) h1) x u1 f1)
    as (h3 & x3 & u3 & f3 & E3 & Hr3 & Hu3); [eapply running_ext; [..|exact Hr1]; by destruct h1|unfold queued; by rewrite Hq1, Hq2|done|congruence..|].
  exists h3, x3, u3, f3. split; [done|]. split; [done|]. rewrite Hu3. by apply ticks_forget.
Qed.
(** What the loop relies on ([KbRun.wait_promise]). *)
Lemma wait_keeps g nh nl : bound g -> wait_promise hooks float_to_int32 holds (tick_ok nh nl) nh nl (wait g).
Proof using Hstore.
  intros Hg i h x u f [_ Hh Hl] Hr Hok Hroom1 Hroom2. pose proof (zlen_nonneg (highs (ti_cmds i))). pose proof (zlen_nonneg (lows (ti_cmds i))).
  destruct (waited holds g i h x u f Hg Hr) as (mask & h1 & u1 & f1 & more & E & Hr1 & _ & Hq1 & Hq2 & Hm & [= Ea Eb Ec] & _); [lia..|].
  exists mask, h1, u1, f1. split; [exact E|]. split; [exact Hr1|]. split.
  - unfold queued in *. rewrite Hq1, Hq2. pose proof (command_events_ok (f_id f) (highs (ti_cmds i)) more) as Hc.
    apply Forall_app in Hok as [? ?]. apply Forall_app in Hc as [? ?]. rewrite !Forall_app. by split_and!.
  - rewrite Hq1, Hq2, !zlen_app. rewrite <- Hm in Hl. unfold zlen in *. rewrite !length_map in *. split_and!; lia.
Qed.
End Tick.
End System.

(** ** The firmware *)

(** The store of the waits' structs is the engine's heap and arenas. *)
Abbreviation wait_store := (store_is waits arena_of sizeof_wait sizeof_wait_for_event).

Section Firmware.
Context {W : Type} (node_cmd_dispatch : Z -> list Z -> reply_sink_t -> W -> (Z * list Z) * W) (float_to_int32 : Z -> Z).
#[local] Abbreviation hooks := (firmware_hooks node_cmd_dispatch).
#[local] Abbreviation image := (g_chaintree_handle hooks float_to_int32).
#[local] Abbreviation wait := (cfl_timer_wait node_cmd_dispatch).

(** C6. The engine, its event queue, the columns of its knowledge bases and the slots of the bridge
    carry the commands out: brought up, and run for any number of ticks, it never stops and never
    raises, and what the application has sent and keeps is what it would have if in every tick the
    commands of the operate layer, then those of high, then those of low priority had been carried out
    one after the other; the slots apart. A tick brings at most 7 commands of high and 4 of low
    priority, what the rings and the slots have room for; the wait before the first cycle none. *)
Theorem runtime_carries_out (tick_result : Z) (fuel : nat) (first : tick_in) (inputs : list tick_in) (user : app_t W) :
  slots_ok user -> tick_ok 0 0 first -> Forall (tick_ok 7 4) inputs -> 18 <= Z.of_nat fuel ->
  exists b h p perm h',
    bringup (app_t W) hooks float_to_int32 user = Ret (b, h, p, perm) /\
    cfl_runtime_run image (wait b) tick_result fuel first inputs h = Ret (Running h') /\
    forget (app_of h') = forget (foldl (fun a i => tick_of node_cmd_dispatch i a) (before_serving node_cmd_dispatch first user) inputs).
Proof.
  intros Hs Hf Hin Hfuel. destruct (engine_boots (app_t W) hooks float_to_int32 user) as (b & h & p & perm & Eb & Hr & Hn & Hbb & _).
  destruct (run_carried_out node_cmd_dispatch float_to_int32 wait_store b tick_result fuel first inputs h idle user boot_fifos (conj Hn Hbb) Hfuel Hf Hin Hr)
    as (h' & x' & u' & f' & E & Hr' & Hu'); [done..|].
  exists b, h, p, perm, h'. split; [exact Eb|]. split; [exact E|]. by rewrite (app_is _ _ _ h' x' u' f' Hr').
Qed.

(** C8. The loop never stops and never raises while a tick brings at most 3 commands of high and 8 of
    low priority (two ticks pass before the queue is first served), whatever the operate layer does and
    whatever the slots hold; the events then queued are for knowledge bases that are served. *)
Theorem engine_never_stops (tick_result : Z) (fuel : nat) (first : tick_in) (inputs : list tick_in) (user : app_t W) :
  tick_ok 3 8 first -> Forall (tick_ok 3 8) inputs -> 72 <= Z.of_nat fuel ->
  exists b h p perm h' x' u' f',
    bringup (app_t W) hooks float_to_int32 user = Ret (b, h, p, perm) /\
    cfl_runtime_run image (wait b) tick_result fuel first inputs h = Ret (Running h') /\
    running hooks float_to_int32 wait_store h' x' u' f' /\ Forall event_ok (queued f').
Proof.
  intros Hf Hin Hfuel. destruct (engine_boots (app_t W) hooks float_to_int32 user) as (b & h & p & perm & Eb & Hr & Hn & Hbb & _).
  destruct (runtime_runs hooks float_to_int32 wait_store (tick_ok 3 8) (wait b) tick_result 3 8
    (wait_keeps node_cmd_dispatch float_to_int32 wait_store b 3 8 (conj Hn Hbb)) fuel first inputs h idle user boot_fifos Hf Hin Hr) as (h' & x' & u' & f' & E & Hr' & Hq'); [done..|].
  exists b, h, p, perm, h', x', u', f'. split; [exact Eb|]. split; [exact E|]. split; [exact Hr'|exact Hq'].
Qed.

(** C18. Commands of high priority beyond what their ring holds raise an exception: the ring of 8 takes
    7 events, the queue from core 0 holds 8 commands, and what a tick finds there is sent before any of
    it is served. *)
Theorem high_priority_overflow_raises (b : bringup_t) (i : tick_in) h x u f :
  bound b -> running hooks float_to_int32 wait_store h x u f -> zlen (f_high f) < f_cap_high f ->
  f_cap_high f <= zlen (f_high f) + zlen (highs (ti_cmds i)) -> zlen (f_low f) + zlen (lows (ti_cmds i)) < f_cap_low f ->
  wait b i h = EXCEPTION "cfl_send_event: ring is full".
Proof.
  intros Hb Hr Hroom Hh Hl. unfold cfl_timer_wait, cfl_embed_pre_tick.
  set (h0 := set_app (fun a => sample i (late i a)) h).
  assert (running hooks float_to_int32 wait_store (set_app heartbeat h0) x (heartbeat (sample i (late i u))) f) as Hr0
    by (apply (running_app node_cmd_dispatch float_to_int32 wait_store heartbeat h0), (running_app node_cmd_dispatch float_to_int32 wait_store (fun a => sample i (late i a))), Hr).
  by rewrite (commands_refused node_cmd_dispatch float_to_int32 wait_store b (ti_cmds i) Hb _ _ _ _ Hr0 Hroom Hh Hl).
Qed.

(** C7. An event at the root of a knowledge base, executed by the engine over the shipped tree, is
    served as specified: the columns one after the other, each that waits for it calling its hook once,
    in order, and starting over, the others going on waiting; nothing else of the runtime changes. *)
Theorem event_is_served h x u e k :
  serving hooks float_to_int32 wait_store h x u -> k ∈ served_kbs -> event_data_ptr h = Some e -> ev_node_id e = k_root k ->
  kb_start_index h = k_root k -> kb_node_count h = k_count k -> 2 <= event_id e ->
  let o := serve (event_id e) (k_columns k) x in
  exists h' u', cfl_execute_event image h = Ret (true, h') /\ serving hooks float_to_int32 wait_store h' o.1 u' /\
    called hooks e u o.2 u' /\ frame (rest h') = frame (rest h).
Proof. intros Hs Hk He Hn Hlo Hc Hev. exact (event_served hooks float_to_int32 wait_store h x u e k Hs Hk He Hn Hlo Hc Hev). Qed.
End Firmware.

Lemma runtime_carries_out_witness :
  slots_ok ex_user /\ exists b h p perm h',
    bringup _ (firmware_hooks ex_dispatch) (fun x => x) ex_user = Ret (b, h, p, perm) /\
    cfl_runtime_run (g_chaintree_handle (firmware_hooks ex_dispatch) (fun x => x)) (cfl_timer_wait ex_dispatch b) 0 18 (ex_tick [])
      [ex_tick [ex_cmd CMD_APP_ECHO 0x1234 [104; 105]; ex_cmd 0x0999 7 []; ex_cmd CMD_MON_PING 0x0102 []]; ex_tick [ex_cmd CMD_ADC_READ 8 []]] h = Ret (Running h') /\
    outs (app_of h') = map (fun l => UpSend (mk_rep BUS_ADDR_APPCORE OP_SHELL_REPLY l))
      [[7; 0; SHELL_UNKNOWN_CMD]; [2; 1; SHELL_OK; 0xE9; 3; 0; 0; 3; 0; KB0_VER]; [0x34; 0x12; SHELL_OK; KBAPP_VER; 104; 105]; [8; 0; SHELL_OK; 11; 0; 12; 0; 13; 0]].
Proof.
  assert (slots_ok ex_user) as Hs by by split. split; [exact Hs|].
  destruct (runtime_carries_out ex_dispatch (fun x => x) 0 18 (ex_tick [])
    [ex_tick [ex_cmd CMD_APP_ECHO 0x1234 [104; 105]; ex_cmd 0x0999 7 []; ex_cmd CMD_MON_PING 0x0102 []]; ex_tick [ex_cmd CMD_ADC_READ 8 []]] ex_user Hs) as (b & h & p & perm & h' & Eb & E & Eu).
  - constructor; [constructor|vm_compute; discriminate..].
  - repeat (apply Forall_cons; split; [constructor; [repeat (apply Forall_cons; split; [constructor; [by split|by split|reflexivity]|]); constructor|vm_compute; discriminate..]|]). constructor.
  - lia.
  - exists b, h, p, perm, h'. split; [exact Eb|]. split; [exact E|]. apply (f_equal outs) in Eu. change (outs (forget (app_of h'))) with (outs (app_of h')) in Eu. rewrite Eu. vm_compute. reflexivity.
Defined.
Lemma engine_never_stops_witness : exists b h p perm h' x' u' f',
  bringup _ (firmware_hooks ex_dispatch) (fun x => x) ex_user = Ret (b, h, p, perm) /\
  cfl_runtime_run (g_chaintree_handle (firmware_hooks ex_dispatch) (fun x => x)) (cfl_timer_wait ex_dispatch b) 0 72
    (ex_tick (replicate 3 (ex_cmd CMD_MON_PING 1 []))) (replicate 100 (ex_tick (replicate 8 (ex_cmd CMD_APP_ECHO 1 [])))) h = Ret (Running h') /\
  running (firmware_hooks ex_dispatch) (fun x => x) wait_store h' x' u' f' /\ Forall event_ok (queued f').
Proof.
  apply engine_never_stops.
  - constructor; [repeat (apply Forall_cons; split; [constructor; [by split|by split|reflexivity]|]); constructor|vm_compute; discriminate..].
  - apply Forall_replicate. constructor; [apply Forall_replicate; constructor; [by split|by split|reflexivity]|vm_compute; discriminate..].
  - lia.
Defined.
Lemma high_priority_overflow_raises_witness : exists b h,
  (exists p perm, bringup _ (firmware_hooks ex_dispatch) (fun x => x) ex_user = Ret (b, h, p, perm)) /\
  cfl_timer_wait ex_dispatch b (ex_tick (replicate 8 (ex_cmd CMD_MON_PING 1 []))) h = EXCEPTION "cfl_send_event: ring is full".
Proof.
  destruct (engine_boots _ (firmware_hooks ex_dispatch) (fun x => x) ex_user) as (b & h & p & perm & Eb & Hr & Hn & Hbb & _).
  exists b, h. split; [exists p, perm; exact Eb|].
  apply (high_priority_overflow_raises ex_dispatch (fun x => x) b _ h idle ex_user boot_fifos (conj Hn Hbb) Hr); vm_compute; (reflexivity || discriminate).
Defined.
Lemma event_is_served_witness : exists h h' u',
  cfl_execute_event (g_chaintree_handle (firmware_hooks ex_dispatch) (fun x => x)) h = Ret (true, h') /\
  called (firmware_hooks ex_dispatch) (mk_event 0 CFL_EVENT_TYPE_INT 0 EVENT_CMD_MON_PING 0 5) ex_user [(12, 3)] u' /\ frame (rest h') = frame (rest h).
Proof.
  destruct (engine_boots _ (firmware_hooks ex_dispatch) (fun x => x) ex_user) as (b & h & p & perm & _ & [Hr _ _ _] & _).
  set (e := mk_event 0 CFL_EVENT_TYPE_INT 0 EVENT_CMD_MON_PING 0 5). set (k := mk_served 0 9 kb0_columns).
  set (h1 := h <| event_data_ptr := Some e |> <| kb_start_index := 0 |> <| kb_node_count := 9 |>).
  destruct (event_is_served ex_dispatch (fun x => x) h1 idle ex_user e k) as (h' & u' & E & _ & Hc & Hf).
  - eapply serving_ext; [..|exact Hr]; by destruct h.
  - by repeat constructor.
  - by destruct h.
  - reflexivity.
  - by destruct h.
  - by destruct h.
  - done.
  - exists h1, h', u'. split; [exact E|]. split; [exact Hc|exact Hf].
Defined.
